(* ===== verification/_CoqProject ===== *)
-Q . S2P
Prelude.v
Errors.v
Volume.v
Fat.v
FatEntry.v
FatIoctl.v
FatTable.v
FatChain.v
FatAlloc.v
Sample.v
FatSpec.v
Vcache.v
Dlist.v
Util.v
Attr.v
Iter.v
Stream.v
StreamSpec.v
Dirent.v
EntrySpec.v
Resize.v
ResizeSpec.v
Dir.v
DirScan.v
LongName.v
DirCreate.v
Encodings.v
EncodingsSpec.v
NameLaws.v
DirSpec.v
CreateSpec.v
VnodeId.v
FileMap.v
FileMapSpec.v
Dosfs.v
MountSpec.v
File.v
Hooks.v
Lookups.v
Consistency.v
FileSpec.v
Calls.v
Frame.v
NewDir.v
MkdirSpec.v
Tree.v
ListDir.v
ScsiRing.v
Scsi.v
ScsiLists.v
ScsiSpec.v
ScsiRefine.v
ScsiQueue.v
ScsiIo.v
ScsiSim.v
ScsiBus.v
ScsiDevice.v
ScsiInv.v
ScsiWp.v
ScsiOps.v
ScsiLife.v
ScsiCalls.v
ScsiDpc.v
ScsiMoves.v
ScsiSafe.v
ScsiSg.v
ScsiSgSpec.v
ScsiClaims.v
LockedPool.v
PoolInv.v
PoolSteps.v
PoolLife.v
PoolClaims.v
Atomizer.v
AtomInv.v
AtomClaims.v
IdeTask.v
Ide.v
IdeBus.v
IdeClaims.v
