(* ===== verification/Prelude.v ===== *)
(** A verification library for kernel add-ons of Haiku: the FAT file system, the
    SCSI bus manager, the IDE bus manager, and generic modules.

    Haiku is an operating system: a kernel with its add-ons, user libraries,
    servers and applications.  The library verifies kernel add-ons that are
    written in C: the file system add-on for FAT volumes,
    [src/add-ons/kernel/file_systems/fat] (one file of it is C++), the bus
    manager for SCSI, [src/add-ons/kernel/bus_managers/scsi] (but for its two
    C++ files), the core of the one for IDE, [src/add-ons/kernel/bus_managers/ide],
    and modules that other add-ons share, the pools of locked memory and the
    atomizer of [src/add-ons/kernel/generic].  File names below are those of
    these directories.

    * The programs

    A FAT volume is a device with, in this order, reserved sectors (the boot
    sector, and on 32 bit volumes an FSInfo sector), one or more copies of the
    file allocation table, on 12 and 16 bit volumes a root directory of fixed
    size, and clusters of data.  The table links the clusters of a file to a
    chain.  A directory is a file of 32 byte entries; a long name is kept in
    entries before the one it belongs to.

    The kernel calls the hooks of the add-on: those of the volume (dosfs.c),
    of directories (dir.c, file.c), files (file.c) and attributes (attr.c).
    The hooks go through iterators (iter.c) to the blocks, use the table
    routines (fat.c), convert names (encodings.cpp) and times (util.c), and
    keep two caches: the translation of node ids whose file has moved
    (vcache.c) and the list of known directories (dlist.c).

    The SCSI bus manager sits between peripheral drivers and the drivers of
    host adapters (SIMs).  Drivers submit requests (scsi_io.c, ccb.c), which go
    to the SIM at once if the bus and the device are neither blocked nor busy;
    otherwise they join the ring of requests of the device, sorted like an
    elevator, and the device joins the ring of waiting devices of the bus
    (queuing.c).  The SIM reports requests as finished, gives them back, and
    blocks and unblocks; a service thread, notified through a semaphore,
    makes deferred procedure calls (dpc.c) and sends what waits (busses.c).
    Devices come and go (devices.c, device_scan.c); data without a
    scatter/gather list get a temporary one (scatter_gather.c,
    virtual_memory.c).

    The IDE bus manager is such a SIM, for drives at an IDE bus.  A bus is used
    by one thread at a time, and a state says how ([ide_bus_state]): a request
    that finds it busy is sent back.  The code of a command writes the registers
    of the drive and waits for the interrupt, at a semaphore or in a deferred
    call (sync.c).  Requests that a drive queues run beside each other; each has
    its place in an array (queuing.c).  Who leaves the bus asks the drives for
    service and runs the synchronized calls that wait for the bus, and then
    reports to the SCSI bus manager (ide_sim.c).

    The SCSI bus manager takes its requests and temporary lists from pools of
    locked memory (locked_pool.c): blocks of one size, in chunks, each an area
    of the kernel.  A free block holds the pointer to the next one.  A thread
    that finds no block waits at the semaphore of the pool; a background thread
    adds chunks to the pools that have too few free blocks.

    The atomizer (atomizer.c) gives a string one token, the address of its only
    copy; the strings of an atomizer are in a sorted vector, their bytes in
    blocks.

    * How the file system is modelled

    C integers are [Z], with the wrap-around of their width written out ([u8],
    [u16], [u32], [i32], ... of Prelude.v).  The volume is the record [nspace]
    of Volume.v, with the fields of the C structure (those the boot sector
    gives are the record [bpb]); the state is passed explicitly.  The block
    cache of the kernel is a finite map from block numbers to bytes; a pointer
    into a block is its number and an offset, so that two pointers into one
    block share its bytes; a block that cannot be read is missing, and getting
    it gives NULL.  [malloc] consumes a list of outcomes; an empty list stands
    for memory enough.  Where the code would use a NULL pointer, or store or
    read outside an array, the model has no result ([None]).

    A loop is [z_loop], which runs a step a given number of rounds or until it
    breaks.  Where the code has no bound, the bound is one the theorems show to
    be enough: [total_clusters + 2] rounds for a walk along a chain, [2 ^ 32]
    ([scan_bound]) for a scan of a directory, which has fewer than [2 ^ 31]
    entries, and one round more than the outcomes of [malloc] that are in store
    ([wait_rounds]) for the loop that tries again when there is no memory.  A
    loop that exhausts its bound has the status [LOOP_EXHAUSTED], which no
    C function returns.

    * How the SCSI bus manager is modelled

    The state [sys] of Scsi.v has the structures of one bus by address, the
    events seen from outside ([Sent], [Completed], [Called], [Panic]; a panic
    of the kernel enters the debugger, which may go on), and the queues.  The
    operations are written in a state monad with failure ([op]): using a
    pointer to nothing has no result.  They reach the queues through the class
    [Queueing], which has two instances: [lists] (ScsiLists.v) are the rings of
    [next] and [prev] pointers of the code, changed by the macros of dl_list.h
    (ScsiRing.v); [rqueues] (ScsiSpec.v) is the specification, with lists.
    The loops of the elevator are bounded by the number of links there are.
    The mutex of the bus makes each critical section one step, and a call of a
    driver or of the SIM is taken as one step; the service thread is a state
    machine ([service_step]) whose steps come between the calls.  [reachable]
    (ScsiCalls.v) are the states that calls allowed by [allowed] lead to, in
    any order: a driver uses requests it owns, the SIM reports requests, a
    device that goes has none in use.

    * How the IDE bus manager is modelled

    The state [sys] of Ide.v has the fields of [ide_bus_info], with the devices,
    the synchronized calls and the requests of the SCSI bus manager by address,
    and the calls of the SCSI bus manager as [events].  An operation that has to
    wait for the spinlock, or uses what is not there, has no result.  The system
    (IdeBus.v) lets requests, interrupts, the timer, the service thread and
    threads that schedule calls come in any order; [owner] says who uses the bus
    and how far it is.  What runs while the bus is held, the code of the
    commands and of the synchronized calls, is any sequence of the operations of
    sync.c and ide_sim.c they use: starting to wait, waiting, finishing, sending
    again, resetting devices.  Time-outs of queued requests, and the loss of the
    controller, come as they do in the code.  [may] says what can happen in a
    state, and [defect_of] which of that the code cannot bear: a call that is
    scheduled while it is registered, a wait that is cancelled after the
    interrupt, requests that fail when they are served, a queue that is given
    up when the controller is gone, and an array without memory.  [reachable]
    are the states before the first of these defects, and [defect_effect] is
    what each of them does.  A request that is refused is put back in a step
    of its own, behind the one that releases the lock; [reachable_on_time] are
    the states where no report has overtaken it.  A command (IdeTask.v) is its
    task file, the writes of the controller, and what a drive reads from its
    registers, as ATA describes them.

    * How the generic modules are modelled

    Memory is a finite map per kind of structure, by address: pools, chunk
    headers and the pointers in free blocks in [LockedPool.sys]; blocks, vectors
    and list nodes, and the bytes of strings, in [Atomizer.sys].  What is not
    there cannot be used ([None]).  What the kernel gives (addresses, areas,
    semaphores) are arguments, and [allowed] says that the kernel gives memory
    that is not in use; what is in it is not known.  The [next] of a block that
    the atomizer allocates is such a word ([Unset]), and a call that follows it
    has no result: [reachable] are the states before that.  The walks along lists are bounded by the number of
    structures there are, the search by the number of strings.  The pools are a
    system of threads ([step] of LockedPool.v): any number of threads inside
    [pool_alloc] and [pool_free], and the background thread, each at a program
    counter; a section that holds a mutex is one step, and threads that use
    several pools meet in any order.  A call of the atomizer is one step, as its
    locks see to it.

    * The files

    - Prelude.v: integers, bits, lists, loops, blocks of bytes.
    - Volume.v, VnodeId.v (dosfs.h): the data types; the encodings of places as
      node ids and their decodings.
    - Fat.v (fat.c): [_fat_ioctl_], the one routine that reads, writes, counts
      and allocates entries, and the chain operations.  FatEntry.v,
      FatIoctl.v, FatTable.v, FatChain.v, FatAlloc.v: the table of
      12, 16 or 32 bit entries, byte by byte, as a function from clusters to
      entries, and what each action does to that function.  FatSpec.v: the
      theorems.  Resize.v, ResizeSpec.v: [set_fat_chain_length].
    - Vcache.v (vcache.c), Dlist.v (dlist.c), Util.v (util.c), Attr.v (attr.c,
      mime_table.c): operations and theorems.
    - Iter.v (iter.c), Stream.v, StreamSpec.v: iterators, and the view of a file
      as the list of its blocks.
    - Dirent.v ([write_vnode_entry], file.c), EntrySpec.v: entries
      in memory, and the view of a directory as numbered entries.
    - Dir.v (dir.c): scanning, searching, creating and erasing entries, reading
      nodes and listing.  DirScan.v, LongName.v, DirCreate.v,
      DirSpec.v, CreateSpec.v: the view of a directory as a sequence of
      visible entries, and the theorems.
    - Encodings.v, EncodingsSpec.v (encodings.cpp): the conversions of names.
      The directory code is written against the class [Encodings] of Dir.v;
      NameLaws.v has the laws the proofs about directories need, as the class
      [LawfulEncodings], and their proof for the conversions of the source.
    - FileMap.v, FileMapSpec.v, File.v, FileSpec.v (file.c): the file map, the
      hooks of files.  Consistency.v: the invariant of a volume and the nodes
      in memory.
    - Dosfs.v, MountSpec.v (dosfs.c): mounting, the FSInfo
      sector, labels and the hooks of the volume.
    - Hooks.v (file.c): creating, moving and removing, on a [world] that has
      the volume and the nodes in memory.  Lookups.v, Frame.v: what searches
      and what all operations leave alone.  Calls.v: the hooks as steps of
      one system.  NewDir.v, MkdirSpec.v, Tree.v, ListDir.v: theorems about
      making, moving and listing; a move that loses the entry is in Tree.v.
    - Sample.v: concrete volumes the witnesses of the theorems evaluate on.
    - Errors.v: the status codes, and rounding to pages.
    - ScsiRing.v (dl_list.h), Scsi.v (scsi_internal.h, bus/SCSI.h), ScsiLists.v
      (queuing.h, [scsi_insert_new_request]): pointers, structures, rings.
      ScsiSpec.v: the specification of the queues; ScsiRefine.v: the rings
      implement it, operation by operation.
    - ScsiQueue.v (queuing.c), ScsiIo.v (scsi_io.c), ScsiBus.v (busses.c,
      dpc.c), ScsiDevice.v (devices.c, device_scan.c, ccb.c), ScsiSg.v
      (scatter_gather.c, virtual_memory.c): the operations.
    - ScsiSim.v: every operation on rings does what it does on lists (class
      [Sims]).  ScsiInv.v: the invariant [inv] and a calculus of results
      ([wp]); ScsiWp.v, ScsiOps.v, ScsiLife.v: the operations keep it.
      ScsiDpc.v: the list of deferred calls.  ScsiMoves.v: what operations
      leave alone (class [Moves]), and that they notify the service thread.
    - ScsiCalls.v, ScsiSafe.v: the system of all calls, its
      soundness, the rounds of the service thread.  ScsiSgSpec.v: splitting.
      ScsiClaims.v: executions and theorems.
    - LockedPool.v (locked_pool.c and its dl_list.h): the operations, and the
      system of threads.  PoolInv.v: free lists, chunks, where blocks are, the
      invariant.  PoolSteps.v, PoolLife.v: the steps keep it.  PoolClaims.v:
      executions and theorems.
    - Atomizer.v (atomizer.c): the operations.  AtomInv.v: the order of strings,
      the search, interning.  AtomClaims.v: the list of atomizers, the invariant
      under all calls, executions and theorems.
    - Ide.v (sync.c, queuing.c, ide_sim.c): the operations of an IDE bus.
      IdeBus.v: the system; arrays of requests, requests that end, lists of
      synchronized calls.  IdeClaims.v: the invariant, and the theorems.
      IdeTask.v (ata.c, scsi2ata.c, ide_types.h, ide_adapter.c): commands.

    * What the theorems show

    - The table (FatSpec.v): reading, writing, allocating and freeing entries
      are operations on a function from clusters to entries; allocation takes
      the first free clusters from the hint on, or restores what it has done;
      every walk along a chain ends, on cyclic tables too; errors change
      nothing.  Resizing a chain keeps the clusters in common and no other
      chain changes (ResizeSpec.v).
    - The layout: a mount establishes it (MountSpec.v); blocks of files are
      never table sectors, and those of one file are distinct (StreamSpec.v).
    - Directories: the scan stops at the next visible entry and reports its
      long name exactly when that is complete and has the checksum of the
      short name (LongName.v, DirSpec.v); an entry that is created goes to the
      first gap that is wide enough, is found again, and all others stay
      (CreateSpec.v); erasing marks exactly the entries of one name (DirSpec.v);
      a directory that is made is empty, and a failure to make it changes
      nothing (MkdirSpec.v); listing ends and gives each visible entry once,
      with its name and an id that leads to it (ListDir.v); moving erases the
      old entry and nothing else before it makes the new one, which may fail,
      and the parents of the nodes keep leading to the root (Tree.v).
    - Files: the hooks of files keep the consistency of the volume: chains of
      files are disjoint and as long as the sizes need, the free count and the
      id cache are right (FileSpec.v, rule induction over sequences of hooks);
      the vectors of a file map address the bytes of the file (FileMapSpec.v);
      no sequence of calls changes a read-only volume (Calls.v).
    - Caches: the id cache refines an injective finite map (Vcache.v), the
      list of directories a list (Dlist.v).
    - Conversions: names, times, node ids and the FSInfo sector survive their
      round trips (EncodingsSpec.v, Util.v, VnodeId.v, MountSpec.v).

    - The SCSI bus manager (ScsiClaims.v): no allowed call follows a pointer that
      leads nowhere; the rings are well-formed, hold queued requests, and a
      ready device with requests waits for service; inserting a request is the
      elevator of the specification, which overtakes no ordered request; slots
      are neither lost nor exceeded; no wakeup of the service thread is lost,
      its rounds end and leave nothing undone; a device that waits for service
      has requests and is not locked; deferred calls are made once each, the
      last scheduled first; temporary scatter/gather lists cover the data within the limits of
      the adapter.  Two theorems show defects: an execution that ends in a
      panic of the blocking counters, and a bus scan that ends at unit 0.

    - The pools (PoolClaims.v): no step of any thread follows a pointer that
      leads nowhere or takes a block from an empty list; blocks are neither lost
      nor given out twice, do not overlap and are aligned; the counters agree
      with the threads that wait, and a thread that was let go finds its block.
      Two theorems show defects: the last block of a pool is never given out,
      and the remove hook is called for places that are no blocks.
    - The atomizer (AtomClaims.v): a call refines a finite map from strings to
      tokens; strings are sorted and tokens unique, and lead back to their
      strings; a token stays; listing gives all of them.  A call has no result
      exactly where it follows a pointer that is never set; one more theorem
      is about that defect.

    - The IDE bus manager (IdeClaims.v), until the first defect: no request is
      lost or answered twice; the bus has one user at a time, whom its state
      tells; what may happen has a result, and the defects have the effects
      stated; a request that was refused is not forgotten, unless a report
      overtakes it; synchronized calls are run, whatever comes in between, and
      the bus becomes idle or goes to a device.  Seven theorems show defects: a
      lock that stays, requests that are counted up when they end, a wait that
      is cancelled too late, a bus that is released twice, a depth that is not
      restored, a timer that is not started again, a retry that is lost.  A command arrives at
      the drive as it was meant (IdeTask.v), but for positions that a drive
      without 48 bit addresses does not have.

    * Parameters

    For the SCSI bus manager: [helpers] (the DMA buffers and the emulation of
    commands, which leave the queueing state of a request alone: [lawful]) and
    the memory map of the kernel ([lawful_map]).  For the IDE bus manager: what
    the devices answer ([answers], [abort]).  For the generic modules: what
    the hooks of a pool return, and what the kernel gives.  For the file system:
    [SjisTables] (the code pages of Shift-JIS, tables of the source too long to
    repeat), [Clock] (the time zone and the time of day), [Timer]
    ([system_time]), [FileCache] and [PageIO] (the file cache and the page
    transfers of the kernel), [device] (the reads of a mount).

    * What is not modelled

    Locks: each hook holds the lock of the volume, and is one step.
    Notifications of the node monitor and debugging output, which no operation
    depends on; the dumps for the kernel debugger and [dump_fat_chain], and code
    that is commented out or disabled by the preprocessor.  The reference counts of
    nodes, which the kernel keeps: a node stays in the model until
    [dosfs_remove_vnode] is called for it.  The settings parser and the module
    table.  Of the SCSI bus manager: emulation and DMA buffers (C++), the raw bus
    device, the module tables, attributes of device nodes, [scsi_sync_io] (a
    submission and the wait for its completion), time-outs.  That the
    auto-sense request is idle when a device needs it is an assumption on the
    calls ([autosense_idle]).  Of the IDE bus manager: polling of the status
    register, transfers, ATAPI packets, the identification of devices, the
    failures of DMA that are counted.  The queue of deferred
    calls of generic/dpc, whose slots are advanced by expressions that C leaves
    undefined.  The rest of Haiku: the kernel, the boot loaders and most user code
    are C++ or assembly code, many libraries and tools are vendored, and most
    drivers are register accesses of particular devices. *)
From stdpp Require Import base gmap list.
From Stdlib Require Import ZArith Lia.

Declare Scope haiku_scope.
Delimit Scope haiku_scope with haiku.
Open Scope Z_scope.

(** ** Machine integers

    A C integer is a [Z]; the conversions write out the wrap-around. *)

Definition u8 (x : Z) : Z := x mod 2 ^ 8.
Definition u16 (x : Z) : Z := x mod 2 ^ 16.
Definition u32 (x : Z) : Z := x mod 2 ^ 32.
Definition u64 (x : Z) : Z := x mod 2 ^ 64.
Definition i32 (x : Z) : Z :=
  let y := x mod 2 ^ 32 in if y <? 2 ^ 31 then y else y - 2 ^ 32.
Definition i64 (x : Z) : Z :=
  let y := x mod 2 ^ 64 in if y <? 2 ^ 63 then y else y - 2 ^ 64.

(** Solves linear goals with [/] and [mod] by constants. *)
Ltac zlia := Z.div_mod_to_equations; lia.

(** Decides comparisons of closed terms by evaluation. *)
Ltac zdecide := vm_compute; repeat split; (reflexivity || discriminate).

Lemma u32_small x : 0 <= x < 2 ^ 32 -> u32 x = x.
Proof. intros. apply Z.mod_small. lia. Qed.
Lemma u32_range x : 0 <= u32 x < 2 ^ 32.
Proof. apply Z.mod_pos_bound. lia. Qed.
Lemma u64_small x : 0 <= x < 2 ^ 64 -> u64 x = x.
Proof. intros. apply Z.mod_small. lia. Qed.
Lemma u16_small x : 0 <= x < 2 ^ 16 -> u16 x = x.
Proof. intros. apply Z.mod_small. lia. Qed.
Lemma u8_small x : 0 <= x < 2 ^ 8 -> u8 x = x.
Proof. intros. apply Z.mod_small. lia. Qed.
Lemma u8_range x : 0 <= u8 x < 2 ^ 8.
Proof. apply Z.mod_pos_bound. lia. Qed.
Lemma i32_small x : - 2 ^ 31 <= x < 2 ^ 31 -> i32 x = x.
Proof.
  intros. unfold i32. destruct (Z.ltb_spec (x mod 2 ^ 32) (2 ^ 31)); zlia.
Qed.
Lemma i32_range x : - 2 ^ 31 <= i32 x < 2 ^ 31.
Proof.
  unfold i32. pose proof (Z.mod_pos_bound x (2 ^ 32)).
  destruct (Z.ltb_spec (x mod 2 ^ 32) (2 ^ 31)); lia.
Qed.

(** ** Bit operations used as arithmetic *)

Lemma land_ones_mod x n m : 0 <= n -> m = 2 ^ n - 1 -> Z.land x m = x mod 2 ^ n.
Proof.
  intros Hn ->. rewrite <-(Z.land_ones x n Hn), Z.ones_equiv, Z.sub_1_r. reflexivity.
Qed.

Lemma testbit_above b k i : 0 <= b < 2 ^ k -> 0 <= k <= i -> Z.testbit b i = false.
Proof.
  intros Hb Hk. destruct (Z.eq_dec b 0) as [->|]; [apply Z.bits_0|].
  apply Z.bits_above_log2; [lia|]. apply Z.log2_lt_pow2; [lia|].
  apply Z.lt_le_trans with (2 ^ k); [lia|apply Z.pow_le_mono_r; lia].
Qed.

Lemma land_disjoint a b k :
  0 <= k -> 0 <= b < 2 ^ k -> Z.land (a * 2 ^ k) b = 0.
Proof.
  intros Hk Hb. apply Z.bits_inj'. intros i Hi.
  rewrite Z.land_spec, Z.bits_0, <-Z.shiftl_mul_pow2, Z.shiftl_spec by lia.
  destruct (Z.ltb_spec i k).
  - rewrite (Z.testbit_neg_r _ (i - k)) by lia. reflexivity.
  - rewrite (testbit_above b k i) by lia. apply andb_false_r.
Qed.

Lemma lor_add a b k :
  0 <= k -> 0 <= b < 2 ^ k -> Z.lor (a * 2 ^ k) b = a * 2 ^ k + b.
Proof.
  intros Hk Hb. pose proof (land_disjoint a b k Hk Hb) as H.
  rewrite <-Z.lxor_lor by exact H. symmetry. apply Z.add_nocarry_lxor. exact H.
Qed.

(** The bytes of a stored integer, put together again. *)
Lemma le_bytes2 v : v mod 256 + 0x100 * (v / 256 mod 256) = v mod 0x10000.
Proof. change 0x10000 with (256 * 256). rewrite Z.rem_mul_r by lia. lia. Qed.
Lemma le_bytes4 v :
  v mod 256 + 0x100 * (v / 256 mod 256) + 0x10000 * (v / 0x10000 mod 256)
  + 0x1000000 * (v / 0x1000000 mod 256) = v mod 0x100000000.
Proof.
  change 0x100000000 with (0x10000 * 0x10000). rewrite Z.rem_mul_r by lia.
  rewrite <-(le_bytes2 v), <-(le_bytes2 (v / 0x10000)), Z.div_div by lia.
  change (0x10000 * 256) with 0x1000000. lia.
Qed.

(** ** Bounded loops

    [z_loop n f a] runs the body [f] at most [n] times, stopping at the first
    [Brk]; it recurses on the binary representation of [n], so a bound of
    2^28 iterations costs nothing when the body stops early. *)

Inductive loop (A B : Type) : Type :=
| Cont (a : A)
| Brk (b : B).
Arguments Cont {A B} a.
Arguments Brk {A B} b.

Section Loop.
Context {A B : Type} (f : A -> loop A B).

Fixpoint nat_loop (n : nat) (a : A) : loop A B :=
  match n with
  | O => Cont a
  | S n => match f a with Cont a => nat_loop n a | Brk b => Brk b end
  end.

Fixpoint pos_loop (p : positive) (a : A) : loop A B :=
  match p with
  | xH => f a
  | xO p => match pos_loop p a with Cont a => pos_loop p a | Brk b => Brk b end
  | xI p =>
      match f a with
      | Cont a =>
          match pos_loop p a with Cont a => pos_loop p a | Brk b => Brk b end
      | Brk b => Brk b
      end
  end.

Definition z_loop (n : Z) (a : A) : loop A B :=
  match n with Zpos p => pos_loop p a | _ => Cont a end.

Lemma nat_loop_add n m a :
  nat_loop (n + m) a =
  match nat_loop n a with Cont a => nat_loop m a | Brk b => Brk b end.
Proof. revert a. induction n as [|n IH]; intros a; simpl; [done|]. destruct (f a); auto. Qed.

Lemma pos_loop_nat p a : pos_loop p a = nat_loop (Pos.to_nat p) a.
Proof.
  revert a. induction p as [p IH|p IH|]; intros a.
  - rewrite Pos2Nat.inj_xI. replace (2 * Pos.to_nat p)%nat with (Pos.to_nat p + Pos.to_nat p)%nat by lia.
    simpl. destruct (f a) as [a'|]; [|done]. rewrite nat_loop_add, IH.
    destruct (nat_loop _ a'); auto.
  - rewrite Pos2Nat.inj_xO. replace (2 * Pos.to_nat p)%nat with (Pos.to_nat p + Pos.to_nat p)%nat by lia.
    simpl. rewrite nat_loop_add, IH. destruct (nat_loop _ a); auto.
  - simpl. destruct (f a); done.
Qed.

Lemma z_loop_nat n a : z_loop n a = nat_loop (Z.to_nat n) a.
Proof. destruct n as [|p|p]; [done| |done]. apply pos_loop_nat. Qed.

(** The loop rule: an invariant indexed by the iteration count, and a
    postcondition of every early exit. *)
Lemma z_loop_inv (P : Z -> A -> Prop) (Q : B -> Prop) n a :
  0 <= n -> P 0 a ->
  (forall i a, 0 <= i < n -> P i a ->
     match f a with Cont a' => P (i + 1) a' | Brk b => Q b end) ->
  match z_loop n a with Cont a' => P n a' | Brk b => Q b end.
Proof.
  intros Hn H0 Hstep. rewrite z_loop_nat.
  enough (H : forall k j a, 0 <= j -> j + Z.of_nat k = n -> P j a ->
    match nat_loop k a with Cont a' => P n a' | Brk b => Q b end).
  { apply (H _ 0); [lia|lia|done]. }
  clear a H0. induction k as [|k IH]; intros j a Hj Hjk HP; simpl.
  - replace n with j by lia. done.
  - specialize (Hstep j a ltac:(lia) HP). destruct (f a) as [a'|b]; [|done].
    apply (IH (j + 1)); [lia|lia|done].
Qed.

Lemma z_loop_step n a :
  0 < n ->
  z_loop n a = match f a with Cont a' => z_loop (n - 1) a' | Brk b => Brk b end.
Proof.
  intros Hn. rewrite z_loop_nat.
  replace (Z.to_nat n) with (S (Z.to_nat (n - 1))) by lia. simpl.
  destruct (f a); [|done]. by rewrite z_loop_nat.
Qed.
End Loop.

(** The two outcomes of a loop whose two results have one type. *)
Definition loop_end {A} (l : loop A A) : A := match l with Cont a => a | Brk a => a end.

(** ** Blocks of bytes *)

Abbreviation block := (list Z).

Definition byte_at (b : block) (off : Z) : Z := nth (Z.to_nat off) b 0.
Definition byte_set (off v : Z) (b : block) : block := <[Z.to_nat off := v]> b.

Definition is_byte (x : Z) : Prop := 0 <= x < 256.

(** A block as the cache hands it out: [bps] bytes. *)
Definition block_ok (bps : Z) (b : block) : Prop :=
  Z.of_nat (length b) = bps /\ Forall is_byte b.

Lemma byte_at_ok bps b off : block_ok bps b -> is_byte (byte_at b off).
Proof.
  intros [_ H]. unfold byte_at. destruct (decide (Z.to_nat off < length b)%nat) as [Hl|Hl].
  - rewrite Forall_forall in H. apply H. apply list_elem_of_In, nth_In. done.
  - rewrite nth_overflow by lia. unfold is_byte. lia.
Qed.

Lemma byte_at_set b off v off' :
  0 <= off < Z.of_nat (length b) -> 0 <= off' ->
  byte_at (byte_set off v b) off' = if off =? off' then v else byte_at b off'.
Proof.
  intros H H'. unfold byte_at, byte_set. rewrite !nth_lookup.
  destruct (Z.eqb_spec off off') as [->|Hne].
  - rewrite list_lookup_insert_eq by lia. done.
  - rewrite list_lookup_insert_ne by lia. done.
Qed.

Lemma byte_set_ok bps b off v :
  is_byte v -> block_ok bps b -> block_ok bps (byte_set off v b).
Proof.
  intros Hv [Hl Hf]. split; unfold byte_set.
  - by rewrite length_insert.
  - by apply Forall_insert.
Qed.

Lemma block_ext bps b b' :
  block_ok bps b -> block_ok bps b' ->
  (forall off, 0 <= off < bps -> byte_at b off = byte_at b' off) -> b = b'.
Proof.
  intros [Hl _] [Hl' _] H. apply (nth_ext _ _ 0 0); [lia|].
  intros n Hn. specialize (H (Z.of_nat n) ltac:(lia)).
  unfold byte_at in H. by rewrite Nat2Z.id in H.
Qed.

(** Little-endian reads of a block ([read16], [read32] of util.h) and the
    matching stores. *)
Definition read16 (b : block) (off : Z) : Z := byte_at b off + 0x100 * byte_at b (off + 1).
Definition read32 (b : block) (off : Z) : Z :=
  byte_at b off + 0x100 * byte_at b (off + 1)
  + 0x10000 * byte_at b (off + 2) + 0x1000000 * byte_at b (off + 3).

Lemma read16_range bps b off : block_ok bps b -> 0 <= read16 b off < 2 ^ 16.
Proof.
  intros H. pose proof (byte_at_ok _ _ off H). pose proof (byte_at_ok _ _ (off + 1) H).
  unfold read16, is_byte in *. lia.
Qed.
Lemma read32_range bps b off : block_ok bps b -> 0 <= read32 b off < 2 ^ 32.
Proof.
  intros H. pose proof (byte_at_ok _ _ off H). pose proof (byte_at_ok _ _ (off + 1) H).
  pose proof (byte_at_ok _ _ (off + 2) H). pose proof (byte_at_ok _ _ (off + 3) H).
  unfold read32, is_byte in *. lia.
Qed.

Create HintDb haiku.
#[export] Hint Resolve byte_set_ok read16_range read32_range byte_at_ok : haiku.

(** ** Counting *)

(** How many of the [n] integers from [a] on [f] sends to zero. *)
Definition count_zero (f : Z -> Z) (a n : Z) : Z :=
  Z.of_nat (length (filter (fun c => f c = 0) (seqZ a n))).

Lemma count_zero_0 f a : count_zero f a 0 = 0.
Proof. done. Qed.

Lemma count_zero_add f a n m :
  0 <= n -> 0 <= m -> count_zero f a (n + m) = count_zero f a n + count_zero f (a + n) m.
Proof. intros. unfold count_zero. rewrite seqZ_app, filter_app, length_app by lia. lia. Qed.

Lemma seqZ_1 a : seqZ a 1 = [a].
Proof. unfold seqZ. simpl. f_equal. Qed.

Lemma count_zero_snoc f a n :
  0 <= n -> count_zero f a (n + 1) = count_zero f a n + (if f (a + n) =? 0 then 1 else 0).
Proof.
  intros Hn. rewrite count_zero_add by lia. unfold count_zero at 2.
  rewrite seqZ_1. cbn.
  destruct (Z.eqb_spec (f (a + n)) 0); case_decide; simpl; lia || done.
Qed.

Lemma count_zero_ext f g a n :
  0 <= n -> (forall c, a <= c < a + n -> f c = g c) -> count_zero f a n = count_zero g a n.
Proof.
  intros Hn. pattern n. apply natlike_ind; [done| |done].
  intros m Hm IH H. unfold Z.succ in *. rewrite !count_zero_snoc by done.
  rewrite IH, H by lia || (intros; apply H; lia). done.
Qed.

Lemma count_zero_shift f a n : 0 <= n -> count_zero f a n = count_zero (fun k => f (a + k)) 0 n.
Proof.
  intros Hn. pattern n. apply natlike_ind; [done| |done].
  intros m Hm IH. unfold Z.succ. by rewrite !count_zero_snoc, IH by done.
Qed.

Lemma count_zero_range f a n : 0 <= n -> 0 <= count_zero f a n <= n.
Proof.
  intros Hn. unfold count_zero. pose proof (length_filter (fun c => f c = 0) (seqZ a n)) as H.
  rewrite length_seqZ in H. lia.
Qed.

(** The loop that counts zeros of a run. *)
Lemma foldl_count_zero (g : Z -> Z) c0 a n :
  0 <= n ->
  foldl (fun c k => if g k =? 0 then c + 1 else c) c0 (seqZ a n) = c0 + count_zero g a n.
Proof.
  intros Hn. revert c0 a. pattern n. apply natlike_ind; [intros; rewrite count_zero_0; simpl; lia| |done].
  intros m Hm IH c0 a. unfold Z.succ. rewrite count_zero_snoc, seqZ_app, foldl_app, IH by lia.
  rewrite seqZ_1. simpl.
  destruct (_ =? 0); lia.
Qed.

Lemma count_zero_upd f c a n :
  0 <= n -> a <= c < a + n -> f c <> 0 ->
  count_zero (fun x => if x =? c then 0 else f x) a n = count_zero f a n + 1.
Proof.
  intros Hn Hc Hf. replace n with ((c - a) + 1 + (a + n - c - 1)) by lia.
  rewrite !(count_zero_add _ _ (c - a + 1)), !count_zero_snoc by lia.
  rewrite (count_zero_ext _ f a), (count_zero_ext _ f (a + (c - a + 1)));
    [|lia|intros x Hx; by rewrite (proj2 (Z.eqb_neq x c)) by lia
     |lia|intros x Hx; by rewrite (proj2 (Z.eqb_neq x c)) by lia].
  replace (a + (c - a)) with c by lia. rewrite Z.eqb_refl.
  rewrite (proj2 (Z.eqb_neq (f c) 0)) by done. change (0 =? 0) with true. cbv iota. lia.
Qed.
