(* ===== verification/Errors.v ===== *)
(** The status codes of the system (headers/os/support/Errors.h), and the size of
    a page with rounding to it. *)
From stdpp Require Import base tactics list.
From Stdlib Require Import ZArith Lia.
From S2P Require Import Prelude.

Definition B_GENERAL_ERROR_BASE : Z := - 2 ^ 31.
Definition B_STORAGE_ERROR_BASE : Z := B_GENERAL_ERROR_BASE + 0x6000.
Definition B_OK : Z := 0.
Definition B_ERROR : Z := -1.
Definition B_NO_MEMORY : Z := B_GENERAL_ERROR_BASE.
Definition B_IO_ERROR : Z := B_GENERAL_ERROR_BASE + 1.
Definition B_BAD_VALUE : Z := B_GENERAL_ERROR_BASE + 5.
Definition B_NAME_NOT_FOUND : Z := B_GENERAL_ERROR_BASE + 7.
Definition B_CANCELED : Z := B_GENERAL_ERROR_BASE + 12.
Definition B_BUSY : Z := B_GENERAL_ERROR_BASE + 14.
Definition B_NOT_ALLOWED : Z := B_GENERAL_ERROR_BASE + 15.
Definition B_FILE_EXISTS : Z := B_STORAGE_ERROR_BASE + 2.
Definition B_ENTRY_NOT_FOUND : Z := B_STORAGE_ERROR_BASE + 3.
Definition B_NAME_TOO_LONG : Z := B_STORAGE_ERROR_BASE + 4.
Definition B_NOT_A_DIRECTORY : Z := B_STORAGE_ERROR_BASE + 5.
Definition B_DIRECTORY_NOT_EMPTY : Z := B_STORAGE_ERROR_BASE + 6.
Definition B_DEVICE_FULL : Z := B_STORAGE_ERROR_BASE + 7.
Definition B_READ_ONLY_DEVICE : Z := B_STORAGE_ERROR_BASE + 8.
Definition EINVAL : Z := B_BAD_VALUE.
Definition ENOMEM : Z := B_NO_MEMORY.
Definition EIO : Z := B_IO_ERROR.
Definition EPERM : Z := B_NOT_ALLOWED.
Definition ENOENT : Z := B_ENTRY_NOT_FOUND.
Definition EEXIST : Z := B_FILE_EXISTS.
Definition ENAMETOOLONG : Z := B_NAME_TOO_LONG.
Definition ENOTDIR : Z := B_NOT_A_DIRECTORY.
Definition ENOTEMPTY : Z := B_DIRECTORY_NOT_EMPTY.
Definition ENOSPC : Z := B_DEVICE_FULL.
Definition EROFS : Z := B_READ_ONLY_DEVICE.
Definition EISDIR : Z := B_STORAGE_ERROR_BASE + 9.
Definition B_POSIX_ERROR_BASE : Z := B_GENERAL_ERROR_BASE + 0x7000.
Definition E2BIG : Z := B_POSIX_ERROR_BASE + 1.
Definition ENOSYS : Z := B_POSIX_ERROR_BASE + 9.
Definition B_BUFFER_OVERFLOW : Z := B_POSIX_ERROR_BASE + 41.

(** ** Pages of memory *)

Definition B_PAGE_SIZE : Z := 4096.

Definition page_round (x : Z) : Z := Z.land (u32 (x + B_PAGE_SIZE - 1)) (u32 (Z.lnot (B_PAGE_SIZE - 1))).

(** Masking with the complement of [2 ^ k - 1] rounds down. *)
Lemma mask_round y k : 0 <= y < 2 ^ 32 -> 0 <= k -> Z.land y (u32 (Z.lnot (2 ^ k - 1))) = y / 2 ^ k * 2 ^ k.
Proof.
  intros Hy Hk. unfold u32. rewrite <- (Z.land_ones _ 32) by lia. rewrite (Z.land_comm (Z.lnot _)).
  rewrite Z.land_assoc, Z.land_ones by lia. rewrite Z.mod_small by lia.
  rewrite <- Z.ldiff_land. replace (2 ^ k - 1) with (Z.ones k) by (rewrite Z.ones_equiv; lia).
  by rewrite Z.ldiff_ones_r, Z.shiftl_mul_pow2, Z.shiftr_div_pow2 by lia.
Qed.

Lemma page_round_eq x : 0 <= x <= 2 ^ 31 -> page_round x = (x + 4095) / 4096 * 4096.
Proof.
  intros H. unfold page_round, B_PAGE_SIZE. rewrite u32_small by lia.
  change (4096 - 1) with (2 ^ 12 - 1). rewrite mask_round by lia. change (2 ^ 12) with 4096.
  by replace (x + 4096 - 1) with (x + 4095) by ring.
Qed.

Lemma page_round_ge x : 0 <= x <= 2 ^ 31 -> x <= page_round x < x + 4096.
Proof. intros H. rewrite page_round_eq by done. zlia. Qed.
