(* ===== verification/Volume.v ===== *)
(** The data types of the FAT add-on (dosfs.h): the vnode and
    volume records, the block cache, and the vnode id encodings with the
    lemmas that say when they can be decoded. *)
From stdpp Require Import base gmap list.
From Stdlib Require Import ZArith Lia.

From S2P Require Import Prelude Errors.

(** What a model loop yields when its bound runs out: no status of the code.
    The termination theorems show that the bounds suffice. *)
Definition LOOP_EXHAUSTED : Z := 1.

(** ** struct vnode *)

Record vnode := Vnode {
  vnid : Z;               (* self id *)
  dir_vnid : Z;           (* parent vnode id (directory containing entry) *)
  cache : option Z;       (* the file cache, as the size it has been told; [None] is NULL *)
  file_map : option Z;    (* the file map, in the same way *)
  disk_image : Z;         (* 0 = no, 1 = BEOS, 2 = IMAGE.BE *)
  iteration : Z;          (* incremented each time the fat chain changes *)
  sindex : Z;             (* starting and ending index of directory entry *)
  eindex : Z;
  cluster : Z;            (* starting cluster of the data *)
  mode : Z;               (* dos-style attributes *)
  st_size : Z;            (* in bytes *)
  st_time : Z;
  end_cluster : Z;        (* last cluster of the data *)
  mime : option (list Z); (* mime type ([None] if none) *)
  dirty : bool            (* track if vnode had been written to *)
}.

Definition set_vnid (x : Z) (n : vnode) : vnode :=
  Vnode x (dir_vnid n) (cache n) (file_map n) (disk_image n) (iteration n) (sindex n) (eindex n)
    (cluster n) (mode n) (st_size n) (st_time n) (end_cluster n) (mime n) (dirty n).
Definition set_dir_vnid (x : Z) (n : vnode) : vnode :=
  Vnode (vnid n) x (cache n) (file_map n) (disk_image n) (iteration n) (sindex n) (eindex n)
    (cluster n) (mode n) (st_size n) (st_time n) (end_cluster n) (mime n) (dirty n).
Definition set_cache (x : option Z) (n : vnode) : vnode :=
  Vnode (vnid n) (dir_vnid n) x (file_map n) (disk_image n) (iteration n) (sindex n) (eindex n)
    (cluster n) (mode n) (st_size n) (st_time n) (end_cluster n) (mime n) (dirty n).
Definition set_file_map (x : option Z) (n : vnode) : vnode :=
  Vnode (vnid n) (dir_vnid n) (cache n) x (disk_image n) (iteration n) (sindex n) (eindex n)
    (cluster n) (mode n) (st_size n) (st_time n) (end_cluster n) (mime n) (dirty n).
Definition set_disk_image (x : Z) (n : vnode) : vnode :=
  Vnode (vnid n) (dir_vnid n) (cache n) (file_map n) x (iteration n) (sindex n) (eindex n)
    (cluster n) (mode n) (st_size n) (st_time n) (end_cluster n) (mime n) (dirty n).
Definition set_iteration (x : Z) (n : vnode) : vnode :=
  Vnode (vnid n) (dir_vnid n) (cache n) (file_map n) (disk_image n) x (sindex n) (eindex n)
    (cluster n) (mode n) (st_size n) (st_time n) (end_cluster n) (mime n) (dirty n).
Definition set_sindex (x : Z) (n : vnode) : vnode :=
  Vnode (vnid n) (dir_vnid n) (cache n) (file_map n) (disk_image n) (iteration n) x (eindex n)
    (cluster n) (mode n) (st_size n) (st_time n) (end_cluster n) (mime n) (dirty n).
Definition set_eindex (x : Z) (n : vnode) : vnode :=
  Vnode (vnid n) (dir_vnid n) (cache n) (file_map n) (disk_image n) (iteration n) (sindex n) x
    (cluster n) (mode n) (st_size n) (st_time n) (end_cluster n) (mime n) (dirty n).
Definition set_cluster (x : Z) (n : vnode) : vnode :=
  Vnode (vnid n) (dir_vnid n) (cache n) (file_map n) (disk_image n) (iteration n) (sindex n) (eindex n)
    x (mode n) (st_size n) (st_time n) (end_cluster n) (mime n) (dirty n).
Definition set_mode (x : Z) (n : vnode) : vnode :=
  Vnode (vnid n) (dir_vnid n) (cache n) (file_map n) (disk_image n) (iteration n) (sindex n) (eindex n)
    (cluster n) x (st_size n) (st_time n) (end_cluster n) (mime n) (dirty n).
Definition set_st_size (x : Z) (n : vnode) : vnode :=
  Vnode (vnid n) (dir_vnid n) (cache n) (file_map n) (disk_image n) (iteration n) (sindex n) (eindex n)
    (cluster n) (mode n) x (st_time n) (end_cluster n) (mime n) (dirty n).
Definition set_st_time (x : Z) (n : vnode) : vnode :=
  Vnode (vnid n) (dir_vnid n) (cache n) (file_map n) (disk_image n) (iteration n) (sindex n) (eindex n)
    (cluster n) (mode n) (st_size n) x (end_cluster n) (mime n) (dirty n).
Definition set_end_cluster (x : Z) (n : vnode) : vnode :=
  Vnode (vnid n) (dir_vnid n) (cache n) (file_map n) (disk_image n) (iteration n) (sindex n) (eindex n)
    (cluster n) (mode n) (st_size n) (st_time n) x (mime n) (dirty n).
Definition set_mime (x : option (list Z)) (n : vnode) : vnode :=
  Vnode (vnid n) (dir_vnid n) (cache n) (file_map n) (disk_image n) (iteration n) (sindex n) (eindex n)
    (cluster n) (mode n) (st_size n) (st_time n) (end_cluster n) x (dirty n).
Definition set_dirty (x : bool) (n : vnode) : vnode :=
  Vnode (vnid n) (dir_vnid n) (cache n) (file_map n) (disk_image n) (iteration n) (sindex n) (eindex n)
    (cluster n) (mode n) (st_size n) (st_time n) (end_cluster n) (mime n) x.

(** mode bits *)
Definition FAT_READ_ONLY : Z := 1.
Definition FAT_HIDDEN : Z := 2.
Definition FAT_SYSTEM : Z := 4.
Definition FAT_VOLUME : Z := 8.
Definition FAT_SUBDIR : Z := 16.
Definition FAT_ARCHIVE : Z := 32.

(** [flag x m] is the C condition [x & m]. *)
Definition flag (x m : Z) : bool := negb (Z.land x m =? 0).

(** ** The vnode cache and the directory list of a volume *)

Record vcache_entry := VEntry { ve_vnid : Z; ve_loc : Z }.

(** The two hash tables of chains.  An entry is linked into one chain of each
    table and never changes while it is linked, so a chain is the list of its
    entries. A bucket outside the maps is a NULL bucket. *)
Record vcache := Vcache {
  cur_vnid : Z;
  cache_size : Z;
  by_vnid : gmap Z (list vcache_entry);
  by_loc : gmap Z (list vcache_entry)
}.

(** [vnid_list] is the whole allocated array, of which the first [entries]
    slots are in use. *)
Record dlist := Dlist {
  entries : Z;
  allocated : Z;
  vnid_list : list Z
}.

(** ** struct _nspace *)

(** The part of the volume that [volume_init] computes from the boot sector
    and nothing changes afterwards. *)
Record bpb := Bpb {
  bytes_per_sector : Z;
  sectors_per_cluster : Z;
  reserved_sectors : Z;
  fat_count : Z;
  root_entries_count : Z;
  total_sectors : Z;
  sectors_per_fat : Z;
  media_descriptor : Z;
  fsinfo_sector : Z;
  total_clusters : Z  (* data clusters, that is *);
  fat_bits : Z;
  fat_mirrored : bool  (* true if fat mirroring on *);
  active_fat : Z;
  root_start : Z  (* for fat12 + fat16 only *);
  root_sectors : Z  (* for fat12 + fat16 only *);
  data_start : Z
}.

Record nspace := Nspace {
  ns_bpb : bpb  (* the fields mount computes once *);
  fBlockCache : gmap Z block  (* what the block cache can deliver *);
  free_clusters : Z;
  last_allocated : Z  (* last allocated cluster *);
  ns_flags : Z  (* B_FS_IS_READONLY and the like *);
  fs_flags : Z  (* flags for this mount *);
  root_vnode : vnode  (* root directory *);
  vol_entry : Z  (* index in root directory *);
  vol_label : list Z  (* 12 bytes *);
  beos_vnid : Z  (* vnid of \\BEOS directory *);
  respect_disk_image : bool;
  ns_vcache : vcache;
  ns_dlist : dlist;
  heap : list bool  (* outcomes of the coming allocations *)
}.

(** [bytes_per_sector vol] and the like read the boot-sector fields of a volume. *)
Coercion ns_bpb : nspace >-> bpb.

Definition set_fBlockCache (x : gmap Z block) (vol : nspace) : nspace :=
  Nspace (ns_bpb vol) x (free_clusters vol) (last_allocated vol) (ns_flags vol) (fs_flags vol)
    (root_vnode vol) (vol_entry vol) (vol_label vol) (beos_vnid vol) (respect_disk_image vol)
    (ns_vcache vol) (ns_dlist vol) (heap vol).
Definition set_free_clusters (x : Z) (vol : nspace) : nspace :=
  Nspace (ns_bpb vol) (fBlockCache vol) x (last_allocated vol) (ns_flags vol) (fs_flags vol)
    (root_vnode vol) (vol_entry vol) (vol_label vol) (beos_vnid vol) (respect_disk_image vol)
    (ns_vcache vol) (ns_dlist vol) (heap vol).
Definition set_last_allocated (x : Z) (vol : nspace) : nspace :=
  Nspace (ns_bpb vol) (fBlockCache vol) (free_clusters vol) x (ns_flags vol) (fs_flags vol)
    (root_vnode vol) (vol_entry vol) (vol_label vol) (beos_vnid vol) (respect_disk_image vol)
    (ns_vcache vol) (ns_dlist vol) (heap vol).
Definition set_ns_flags (x : Z) (vol : nspace) : nspace :=
  Nspace (ns_bpb vol) (fBlockCache vol) (free_clusters vol) (last_allocated vol) x (fs_flags
    vol) (root_vnode vol) (vol_entry vol) (vol_label vol) (beos_vnid vol) (respect_disk_image
    vol) (ns_vcache vol) (ns_dlist vol) (heap vol).
Definition set_fs_flags (x : Z) (vol : nspace) : nspace :=
  Nspace (ns_bpb vol) (fBlockCache vol) (free_clusters vol) (last_allocated vol) (ns_flags vol)
    x (root_vnode vol) (vol_entry vol) (vol_label vol) (beos_vnid vol) (respect_disk_image vol)
    (ns_vcache vol) (ns_dlist vol) (heap vol).
Definition set_root_vnode (x : vnode) (vol : nspace) : nspace :=
  Nspace (ns_bpb vol) (fBlockCache vol) (free_clusters vol) (last_allocated vol) (ns_flags vol)
    (fs_flags vol) x (vol_entry vol) (vol_label vol) (beos_vnid vol) (respect_disk_image vol)
    (ns_vcache vol) (ns_dlist vol) (heap vol).
Definition set_vol_entry (x : Z) (vol : nspace) : nspace :=
  Nspace (ns_bpb vol) (fBlockCache vol) (free_clusters vol) (last_allocated vol) (ns_flags vol)
    (fs_flags vol) (root_vnode vol) x (vol_label vol) (beos_vnid vol) (respect_disk_image vol)
    (ns_vcache vol) (ns_dlist vol) (heap vol).
Definition set_vol_label (x : list Z) (vol : nspace) : nspace :=
  Nspace (ns_bpb vol) (fBlockCache vol) (free_clusters vol) (last_allocated vol) (ns_flags vol)
    (fs_flags vol) (root_vnode vol) (vol_entry vol) x (beos_vnid vol) (respect_disk_image vol)
    (ns_vcache vol) (ns_dlist vol) (heap vol).
Definition set_beos_vnid (x : Z) (vol : nspace) : nspace :=
  Nspace (ns_bpb vol) (fBlockCache vol) (free_clusters vol) (last_allocated vol) (ns_flags vol)
    (fs_flags vol) (root_vnode vol) (vol_entry vol) (vol_label vol) x (respect_disk_image vol)
    (ns_vcache vol) (ns_dlist vol) (heap vol).
Definition set_respect_disk_image (x : bool) (vol : nspace) : nspace :=
  Nspace (ns_bpb vol) (fBlockCache vol) (free_clusters vol) (last_allocated vol) (ns_flags vol)
    (fs_flags vol) (root_vnode vol) (vol_entry vol) (vol_label vol) (beos_vnid vol) x (ns_vcache
    vol) (ns_dlist vol) (heap vol).
Definition set_ns_vcache (x : vcache) (vol : nspace) : nspace :=
  Nspace (ns_bpb vol) (fBlockCache vol) (free_clusters vol) (last_allocated vol) (ns_flags vol)
    (fs_flags vol) (root_vnode vol) (vol_entry vol) (vol_label vol) (beos_vnid vol)
    (respect_disk_image vol) x (ns_dlist vol) (heap vol).
Definition set_ns_dlist (x : dlist) (vol : nspace) : nspace :=
  Nspace (ns_bpb vol) (fBlockCache vol) (free_clusters vol) (last_allocated vol) (ns_flags vol)
    (fs_flags vol) (root_vnode vol) (vol_entry vol) (vol_label vol) (beos_vnid vol)
    (respect_disk_image vol) (ns_vcache vol) x (heap vol).
Definition set_heap (x : list bool) (vol : nspace) : nspace :=
  Nspace (ns_bpb vol) (fBlockCache vol) (free_clusters vol) (last_allocated vol) (ns_flags vol)
    (fs_flags vol) (root_vnode vol) (vol_entry vol) (vol_label vol) (beos_vnid vol)
    (respect_disk_image vol) (ns_vcache vol) (ns_dlist vol) x.

Definition FS_FLAGS_OP_SYNC : Z := 1.
Definition FS_FLAGS_LOCK_DOOR : Z := 2.
Definition B_FS_IS_READONLY : Z := 1.

(** ** The block cache

    A pointer to the data of a cached block is the number of the block: every
    pointer to one block is the same memory until it is put back.  A block
    that the cache cannot read is not in the map, and asking for it yields
    NULL.  Write access without a transaction (transaction -1) hands out the
    same memory as read access. *)

Definition block_cache_get (vol : nspace) (blockNumber : Z) : option Z :=
  match fBlockCache vol !! blockNumber with Some _ => Some blockNumber | None => None end.
Definition block_cache_get_writable (vol : nspace) (blockNumber : Z) : option Z :=
  block_cache_get vol blockNumber.

(** The memory behind a block pointer. *)
Definition block_data (vol : nspace) (p : Z) : block := default [] (fBlockCache vol !! p).
Definition peek (vol : nspace) (p off : Z) : Z := byte_at (block_data vol p) off.
Definition block_update (f : block -> block) (p : Z) (vol : nspace) : nspace :=
  set_fBlockCache (alter f p (fBlockCache vol)) vol.
Definition poke (p off v : Z) (vol : nspace) : nspace := block_update (byte_set off v) p vol.

(** [malloc]: the next outcome the environment has in store; an exhausted
    list stands for memory enough. *)
Definition malloc_ok (vol : nspace) : bool * nspace :=
  match heap vol with [] => (true, vol) | b :: r => (b, set_heap r vol) end.

(** ** Clusters and vnode ids *)

Definition IS_DATA_CLUSTER (vol : nspace) (cluster : Z) : bool :=
  (2 <=? cluster) && (u32 cluster <? u32 (total_clusters vol + 2)).
Definition IS_FIXED_ROOT (cluster : Z) : bool := cluster =? 1.

Definition ARTIFICIAL_VNID_BITS : Z := Z.shiftl 0x6 60.
Definition DIR_CLUSTER_VNID_BITS : Z := Z.shiftl 0x4 60.
Definition DIR_INDEX_VNID_BITS : Z := 0.
Definition INVALID_VNID_BITS_MASK : Z := i64 (Z.shiftl 0x9 60).

Definition IS_DIR_CLUSTER_VNID (v : Z) : bool :=
  Z.land v ARTIFICIAL_VNID_BITS =? DIR_CLUSTER_VNID_BITS.
Definition IS_DIR_INDEX_VNID (v : Z) : bool :=
  Z.land v ARTIFICIAL_VNID_BITS =? DIR_INDEX_VNID_BITS.
Definition IS_ARTIFICIAL_VNID (v : Z) : bool :=
  Z.land v ARTIFICIAL_VNID_BITS =? ARTIFICIAL_VNID_BITS.
Definition IS_INVALID_VNID (v : Z) : bool :=
  (negb (IS_DIR_CLUSTER_VNID v) && negb (IS_DIR_INDEX_VNID v) && negb (IS_ARTIFICIAL_VNID v))
  || flag v INVALID_VNID_BITS_MASK.

Definition GENERATE_DIR_INDEX_VNID (dircluster index : Z) : Z :=
  Z.lor (Z.lor DIR_INDEX_VNID_BITS (i64 (Z.shiftl dircluster 32))) index.
Definition GENERATE_DIR_CLUSTER_VNID (dircluster filecluster : Z) : Z :=
  Z.lor (Z.lor DIR_CLUSTER_VNID_BITS (i64 (Z.shiftl dircluster 32))) filecluster.

Definition CLUSTER_OF_DIR_CLUSTER_VNID (v : Z) : Z := u32 (Z.land v 0xffffffff).
Definition INDEX_OF_DIR_INDEX_VNID (v : Z) : Z := u32 (Z.land v 0xffffffff).
Definition DIR_OF_VNID (v : Z) : Z :=
  u32 (Z.land (Z.shiftr v 32) (u32 (Z.lnot 0xf0000000))).
Definition VNODE_PARENT_DIR_CLUSTER (node : vnode) : Z :=
  CLUSTER_OF_DIR_CLUSTER_VNID (dir_vnid node).
