(* ===== verification/Fat.v ===== *)
(** The file allocation table (fat.c): the one routine that reads, writes,
    counts and allocates entries of a 12, 16 or 32 bit table, and the chain
    operations on top of it. *)
From stdpp Require Import base gmap list.
From Stdlib Require Import ZArith Lia.
From S2P Require Import Prelude Errors Volume.

Definition END_FAT_ENTRY : Z := 0x0fffffff.
Definition BAD_FAT_ENTRY : Z := 0x0ffffff1.

(** Little-endian stores through a block pointer. *)
Definition poke16 (p off v : Z) (vol : nspace) : nspace :=
  poke p (off + 1) (u8 (Z.shiftr v 8)) (poke p off (u8 v) vol).
Definition poke32 (p off v : Z) (vol : nspace) : nspace :=
  poke16 p (off + 2) (Z.shiftr v 16) (poke16 p off v vol).

(** Copies the block at [buffer] of the active table to the same place of
    every other table.  A copy that cannot be read is left out; the code does
    not test for that and stores through the null pointer it gets. *)
Definition mirror_fats (vol : nspace) (sector buffer : Z) : nspace :=
  if negb (fat_mirrored vol) then vol
  else
    let sector := u32 (sector - u32 (active_fat vol * sectors_per_fat vol)) in
    foldl (fun v i =>
             if i =? active_fat vol then v
             else
               let dst := u32 (sector + u32 (i * sectors_per_fat vol)) in
               block_update (fun _ => block_data v buffer) dst v)
      vol (seqZ 0 (fat_count vol)).

(** First sector of the table in use. *)
Definition fat_start (vol : nspace) : Z :=
  u32 (reserved_sectors vol + u32 (active_fat vol * sectors_per_fat vol)).

Definition _count_free_clusters_fat32 (vol : nspace) : Z :=
  let body '(count, cur_sector) :=
    match block_cache_get vol cur_sector with
    | None => Brk B_IO_ERROR
    | Some block =>
        Cont (foldl (fun count k =>
                       if Z.land (read32 (block_data vol block) (4 * k)) 0x0fffffff =? 0
                       then count + 1 else count)
                count (seqZ 0 (bytes_per_sector vol / 4)),
              u32 (cur_sector + 1))
    end in
  match z_loop body (sectors_per_fat vol) (0, fat_start vol) with
  | Cont (count, _) => count
  | Brk err => err
  end.

Inductive ioctl_action :=
| IOCTL_COUNT_FREE
| IOCTL_GET_ENTRY
| IOCTL_SET_ENTRY
| IOCTL_ALLOCATE_N_ENTRIES.

#[export] Instance ioctl_action_eq_dec : EqDecision ioctl_action.
Proof. solve_decision. Defined.

(** The locals of [_fat_ioctl_] that its loop carries. *)
Record ictl := Ictl {
  k_vol : nspace;
  k_cluster : Z;
  k_sector : Z;
  k_offset : Z;
  k_block1 : Z;
  k_value : Z;
  k_result : Z;
  k_n : Z;
  k_first : Z;
  k_last : Z
}.

Definition set_k_vol (x : nspace) (k : ictl) : ictl :=
  Ictl x (k_cluster k) (k_sector k) (k_offset k) (k_block1 k) (k_value k) (k_result k)
    (k_n k) (k_first k) (k_last k).
Definition set_k_value (x : Z) (k : ictl) : ictl :=
  Ictl (k_vol k) (k_cluster k) (k_sector k) (k_offset k) (k_block1 k) x (k_result k)
    (k_n k) (k_first k) (k_last k).
Definition set_k_result (x : Z) (k : ictl) : ictl :=
  Ictl (k_vol k) (k_cluster k) (k_sector k) (k_offset k) (k_block1 k) (k_value k) x
    (k_n k) (k_first k) (k_last k).
Definition set_k_pos (cluster sector offset block1 : Z) (k : ictl) : ictl :=
  Ictl (k_vol k) cluster sector offset block1 (k_value k) (k_result k)
    (k_n k) (k_first k) (k_last k).
Definition set_k_offset (offset : Z) (k : ictl) : ictl :=
  set_k_pos (k_cluster k) (k_sector k) offset (k_block1 k) k.
Definition set_k_chain (n first last : Z) (k : ictl) : ictl :=
  Ictl (k_vol k) (k_cluster k) (k_sector k) (k_offset k) (k_block1 k) (k_value k)
    (k_result k) n first last.

Section Ioctl.
(** The recursive call that links the chain under construction, and the
    call that gives a failed allocation back. *)
Context (set_entry : nspace -> Z -> Z -> Z * nspace).
Context (clear_chain : nspace -> Z -> Z * nspace).
Context (action : ioctl_action) (N : Z).

Definition endOfChainMarker : Z :=
  if decide (action = IOCTL_SET_ENTRY) then u32 N else 0x0fffffff.

(** [action] writes the entry whose old value is [value]. *)
Definition writes_entry (value : Z) : bool :=
  (bool_decide (action = IOCTL_ALLOCATE_N_ENTRIES) && (value =? 0))
  || bool_decide (action = IOCTL_SET_ENTRY).

(** The 12 bit entry whose bytes are at [offset] of [block1] and [off2] of
    [block2]. *)
Definition fat12_value (odd : bool) (b0 b1 : Z) : Z :=
  let v := b0 + 0x100 * b1 in
  let v := if odd then Z.shiftr v 4 else Z.land v 0xfff in
  if 0xff0 <? v then Z.lor v 0x0ffff000 else v.

Definition fat12_store (odd crosses : bool) (sector block1 offset block2 off2 : Z)
    (vol : nspace) : nspace :=
  let ormask :=
    if odd then Z.shiftl (Z.land endOfChainMarker 0xfff) 4
    else Z.land endOfChainMarker 0xfff in
  let andmask := if odd then 0xf else 0xf000 in
  let vol := poke block1 offset
    (Z.land (peek vol block1 offset) (Z.land andmask 0xff)) vol in
  let vol := poke block1 offset
    (Z.lor (peek vol block1 offset) (Z.land ormask 0xff)) vol in
  let vol := if crosses then mirror_fats vol (u32 (sector - 1)) block1 else vol in
  let vol := poke block2 off2
    (Z.land (peek vol block2 off2) (Z.shiftr andmask 8)) vol in
  poke block2 off2 (Z.lor (peek vol block2 off2) (Z.shiftr ormask 8)) vol.

(** The second byte of the entry may be the first byte of the next sector. *)
Definition ioctl_fat12 (k : ictl) : loop ictl ictl :=
  let vol := k_vol k in
  let bps := bytes_per_sector vol in
  let offset := k_offset k in
  let block1 := k_block1 k in
  let odd := flag (k_cluster k) 1 in
  let crosses := offset =? bps - 1 in
  match (if crosses then block_cache_get vol (u32 (k_sector k + 1)) else Some block1) with
  | None => Brk (set_k_result B_IO_ERROR k)
  | Some block2 =>
      let sector := if crosses then u32 (k_sector k + 1) else k_sector k in
      let off2 := if crosses then 0 else offset + 1 in
      let value :=
        if decide (action = IOCTL_SET_ENTRY) then k_value k
        else fat12_value odd (peek vol block1 offset) (peek vol block2 off2) in
      let vol' :=
        if writes_entry value
        then fat12_store odd crosses sector block1 offset block2 off2 vol else vol in
      let offset' :=
        if crosses then (if odd then 1 else 0) else offset + (if odd then 2 else 1) in
      Cont (set_k_pos (k_cluster k) sector offset' block2
              (set_k_value value (set_k_vol vol' k)))
  end.

Definition ioctl_fat16 (k : ictl) : loop ictl ictl :=
  let vol := k_vol k in
  let value :=
    if decide (action = IOCTL_SET_ENTRY) then k_value k
    else
      let v := read16 (block_data vol (k_block1 k)) (k_offset k) in
      if 0xfff0 <? v then Z.lor v 0x0fff0000 else v in
  let vol' :=
    if writes_entry value
    then poke16 (k_block1 k) (k_offset k) (u16 endOfChainMarker) vol else vol in
  Cont (set_k_offset (k_offset k + 2) (set_k_value value (set_k_vol vol' k))).

Definition ioctl_fat32 (k : ictl) : loop ictl ictl :=
  let vol := k_vol k in
  let value :=
    if decide (action = IOCTL_SET_ENTRY) then k_value k
    else Z.land (read32 (block_data vol (k_block1 k)) (k_offset k)) 0x0fffffff in
  let vol' :=
    if writes_entry value
    then poke32 (k_block1 k) (k_offset k) endOfChainMarker vol else vol in
  Cont (set_k_offset (k_offset k + 4) (set_k_value value (set_k_vol vol' k))).

(** Reads and, where the action asks for it, writes the entry the position
    stands at, and moves the offset past it. *)
Definition ioctl_entry (k : ictl) : loop ictl ictl :=
  if fat_bits (k_vol k) =? 12 then ioctl_fat12 k
  else if fat_bits (k_vol k) =? 16 then ioctl_fat16 k
  else if fat_bits (k_vol k) =? 32 then ioctl_fat32 k
  else Cont k.

Definition ioctl_allocate (k : ictl) : loop ictl ictl :=
  let cluster := k_cluster k in
  let vol := set_free_clusters (u32 (free_clusters (k_vol k) - 1)) (k_vol k) in
  let vol := mirror_fats vol (k_sector k) (k_block1 k) in
  let linked :=
    if k_n k =? 0 then
      Cont (set_k_chain (k_n k) cluster cluster (set_k_vol vol k))
    else
      let '(result, vol) := set_entry vol (k_last k) (i32 cluster) in
      let k := set_k_result result (set_k_vol vol k) in
      if result <? 0 then Brk k
      else Cont (set_k_chain (k_n k) (k_first k) cluster k) in
  match linked with
  | Brk k => Brk k
  | Cont k =>
      let k := set_k_chain (u32 (k_n k + 1)) (k_first k) (k_last k) k in
      if k_n k =? u32 N then Brk k else Cont k
  end.

Definition ioctl_act (k : ictl) : loop ictl ictl :=
  match action with
  | IOCTL_COUNT_FREE =>
      Cont (if k_value k =? 0 then set_k_result (k_result k + 1) k else k)
  | IOCTL_GET_ENTRY => Brk (set_k_result (i32 (k_value k)) k)
  | IOCTL_SET_ENTRY =>
      Brk (set_k_vol (mirror_fats (k_vol k) (k_sector k) (k_block1 k)) k)
  | IOCTL_ALLOCATE_N_ENTRIES =>
      if k_value k =? 0 then ioctl_allocate k else Cont k
  end.

(** Iterates cluster and sector. *)
Definition ioctl_advance (k : ictl) : loop ictl ictl :=
  let vol := k_vol k in
  let cluster := u32 (k_cluster k + 1) in
  let wrapped := cluster =? u32 (total_clusters vol + 2) in
  let cluster := if wrapped then 2 else cluster in
  let offset := if wrapped then u32 (2 * fat_bits vol) / 8 else k_offset k in
  let sector := if wrapped then fat_start vol else k_sector k in
  let past := bytes_per_sector vol <=? offset in
  let sector := if past then u32 (sector + 1) else sector in
  let offset := if past then offset - bytes_per_sector vol else offset in
  match (if wrapped || past then block_cache_get vol sector else Some (k_block1 k)) with
  | None => Brk (set_k_result B_IO_ERROR (set_k_pos cluster sector offset (k_block1 k) k))
  | Some block1 => Cont (set_k_pos cluster sector offset block1 k)
  end.

Definition ioctl_step (k : ictl) : loop ictl ictl :=
  match ioctl_entry k with
  | Brk k => Brk k
  | Cont k =>
      match ioctl_act k with
      | Brk k => Brk k
      | Cont k => ioctl_advance k
      end
  end.

(** What follows the label [bi]. *)
Definition ioctl_finish (k : ictl) : Z * nspace :=
  let vol := k_vol k in
  let result := k_result k in
  if decide (action = IOCTL_ALLOCATE_N_ENTRIES) then
    if result <? 0 then
      (result, if negb (k_first k =? 0) then snd (clear_chain vol (k_first k)) else vol)
    else if negb (k_n k =? u32 N) then
      (B_DEVICE_FULL,
       if negb (k_first k =? 0) then snd (clear_chain vol (k_first k)) else vol)
    else if result =? 0 then
      (i32 (k_first k), set_last_allocated (k_cluster k) vol)
    else (result, vol)
  else (result, vol).

Definition fat_ioctl_body (vol : nspace) (cluster : Z) : Z * nspace :=
  if bool_decide (action = IOCTL_COUNT_FREE) && (fat_bits vol =? 32) then
    (_count_free_clusters_fat32 vol, vol)
  else
    let cluster :=
      match action with
      | IOCTL_COUNT_FREE => 2
      | IOCTL_ALLOCATE_N_ENTRIES => last_allocated vol
      | _ => cluster
      end in
    if negb (bool_decide (action = IOCTL_COUNT_FREE)) && negb (IS_DATA_CLUSTER vol cluster)
    then (B_BAD_VALUE, vol)
    else
      let offset := u32 (cluster * fat_bits vol) / 8 in
      let sector := u32 (fat_start vol + offset / bytes_per_sector vol) in
      let offset := offset mod bytes_per_sector vol in
      match block_cache_get vol sector with
      | None => (B_IO_ERROR, vol)
      | Some block1 =>
          ioctl_finish
            (loop_end
               (z_loop ioctl_step (total_clusters vol)
                  (Ictl vol cluster sector offset block1 0 0 0 0 0)))
      end.
End Ioctl.

(** ** Tying the recursion

    Only the allocation calls back, and only for actions that do not:
    [fat_ioctl0] answers those. *)

Definition no_set (vol : nspace) (_ _ : Z) : Z * nspace := (B_OK, vol).
Definition no_clear (vol : nspace) (_ : Z) : Z * nspace := (B_OK, vol).
Definition fat_ioctl0 (vol : nspace) (action : ioctl_action) (cluster N : Z) : Z * nspace :=
  fat_ioctl_body no_set no_clear action N vol cluster.

Definition get_fat_entry (vol : nspace) (cluster : Z) : Z :=
  let value := fst (fat_ioctl0 vol IOCTL_GET_ENTRY cluster 0) in
  if value <? 0 then value
  else if (value =? 0) || IS_DATA_CLUSTER vol value then value
  else if 0x0ffffff7 <? value then END_FAT_ENTRY
  else BAD_FAT_ENTRY.

Definition set_fat_entry (vol : nspace) (cluster value : Z) : Z * nspace :=
  fat_ioctl0 vol IOCTL_SET_ENTRY cluster value.

(** One round of the loop of [clear_fat_chain]; [Brk] is its early return, or
    its normal end when the status is [B_OK]. *)
Definition clear_step (s : Z * nspace) : loop (Z * nspace) (Z * nspace) :=
  let '(cluster, vol) := s in
  if negb (IS_DATA_CLUSTER vol cluster) then Brk (B_OK, vol)
  else
    let c := get_fat_entry vol cluster in
    if c <? 0 then Brk (c, vol)
    else
      let '(result, vol) := set_fat_entry vol cluster 0 in
      if negb (result =? B_OK) then Brk (result, vol)
      else Cont (c, set_free_clusters (u32 (free_clusters vol + 1)) vol).

Definition clear_fat_chain (vol : nspace) (cluster : Z) : Z * nspace :=
  if negb (IS_DATA_CLUSTER vol cluster) then (B_BAD_VALUE, vol)
  else
    match z_loop clear_step (total_clusters vol + 2) (cluster, vol) with
    | Brk r => r
    | Cont (_, vol) => (LOOP_EXHAUSTED, vol)
    end.

Definition _fat_ioctl_ (vol : nspace) (action : ioctl_action) (cluster N : Z) : Z * nspace :=
  fat_ioctl_body (fun vol last c => fat_ioctl0 vol IOCTL_SET_ENTRY last c) clear_fat_chain
    action N vol cluster.

Definition count_free_clusters (vol : nspace) : Z :=
  fst (_fat_ioctl_ vol IOCTL_COUNT_FREE 0 0).

(** Traverses [n] entries. *)
Definition get_nth_fat_entry (vol : nspace) (cluster n : Z) : Z :=
  let body cluster :=
    let cluster := get_fat_entry vol cluster in
    if negb (IS_DATA_CLUSTER vol cluster) then Brk cluster else Cont cluster in
  loop_end (z_loop body n cluster).

Definition count_clusters (vol : nspace) (cluster : Z) : Z :=
  if negb (IS_DATA_CLUSTER vol cluster) then 0
  else
    let body '(count, cluster) :=
      if IS_DATA_CLUSTER vol cluster then
        let count := count + 1 in
        if u32 count =? total_clusters vol then Brk 0
        else Cont (count, get_fat_entry vol cluster)
      else Brk (if cluster =? END_FAT_ENTRY then count else 0) in
    match z_loop body (total_clusters vol + 1) (0, cluster) with
    | Brk r => r
    | Cont _ => LOOP_EXHAUSTED
    end.

(** The status and, on success, the first cluster of the new chain. *)
Definition allocate_n_fat_entries (vol : nspace) (n : Z) : Z * Z * nspace :=
  let '(c, vol) := _fat_ioctl_ vol IOCTL_ALLOCATE_N_ENTRIES 0 n in
  if c <? 0 then (c, 0, vol) else (0, c, vol).
