(* ===== verification/FatEntry.v ===== *)
(** Entries of the file allocation table: the well-formedness of a mounted
    table, the table as a function from byte offsets, and the proof that
    reading and writing an entry through [_fat_ioctl_] is reading and writing
    that function, for all three entry widths. *)
From stdpp Require Import base gmap list.
From Stdlib Require Import ZArith Lia.
From S2P Require Import Prelude Errors Volume Fat.

(** ** Well-formed volumes *)

(** The largest cluster number an entry can hold and still be read back as a
    link, and, for 32 bit tables, be addressed without overflow. *)
Definition max_cluster (bits : Z) : Z :=
  if bits =? 12 then 0xff0 else if bits =? 16 then 0xfff0 else 0x7fffffc.

Record geometry_ok (b : bpb) : Prop := {
  geo_bps : 512 <= bytes_per_sector b < 2 ^ 16;
  geo_bps_mod : bytes_per_sector b mod 512 = 0;
  geo_bits : fat_bits b = 12 \/ fat_bits b = 16 \/ fat_bits b = 32;
  geo_total : 0 < total_clusters b;
  geo_limit : total_clusters b + 1 <= max_cluster (fat_bits b);
  geo_room : (total_clusters b + 2) * fat_bits b <= 8 * (sectors_per_fat b * bytes_per_sector b);
  geo_active : 0 <= active_fat b < fat_count b;
  geo_reserved : 0 <= reserved_sectors b;
  geo_spf : 0 < sectors_per_fat b;
  geo_sectors : reserved_sectors b + fat_count b * sectors_per_fat b < 2 ^ 32
}.

(** Sectors of the tables, all copies of them. *)
Definition in_fats (b : bpb) (s : Z) : Prop :=
  reserved_sectors b <= s < reserved_sectors b + fat_count b * sectors_per_fat b.

Definition blocks_ok (vol : nspace) : Prop :=
  map_Forall (fun _ b => block_ok (bytes_per_sector vol) b) (fBlockCache vol).

Record fat_ok (vol : nspace) : Prop := {
  ok_geo : geometry_ok vol;
  ok_blocks : blocks_ok vol;
  ok_present : forall s, in_fats vol s -> is_Some (fBlockCache vol !! s)
}.

Definition readable (vol : nspace) (s : Z) : Prop :=
  exists b, fBlockCache vol !! s = Some b /\ block_ok (bytes_per_sector vol) b.

Implicit Types vol : nspace.

(** ** Memory lemmas *)

Lemma block_data_readable vol p :
  readable vol p -> block_ok (bytes_per_sector vol) (block_data vol p).
Proof. intros (b & Hb & Hok). unfold block_data. by rewrite Hb. Qed.

Lemma fat_readable vol s : fat_ok vol -> in_fats vol s -> readable vol s.
Proof.
  intros [_ Hb Hp] Hs. destruct (Hp s Hs) as [b Hbl]. exists b. split; [done|].
  apply (Hb s b Hbl).
Qed.

Lemma peek_byte vol p off : blocks_ok vol -> is_byte (peek vol p off).
Proof.
  intros H. unfold peek, block_data. destruct (fBlockCache vol !! p) as [b|] eqn:Hb; simpl.
  - eapply byte_at_ok, (H p b Hb).
  - unfold byte_at. rewrite nth_overflow by (simpl; lia). unfold is_byte. lia.
Qed.

Lemma get_readable vol p : readable vol p -> block_cache_get vol p = Some p.
Proof. intros (b & Hb & _). unfold block_cache_get. by rewrite Hb. Qed.

Lemma readable_update f p q vol :
  (forall b, block_ok (bytes_per_sector vol) b -> block_ok (bytes_per_sector vol) (f b)) ->
  readable vol q -> readable (block_update f p vol) q.
Proof.
  intros Hf (b & Hb & Hok). unfold readable, block_update; simpl.
  rewrite lookup_alter. case_decide; subst; rewrite Hb; simpl; eauto.
Qed.

Lemma blocks_ok_update f p vol :
  (forall b, block_ok (bytes_per_sector vol) b -> block_ok (bytes_per_sector vol) (f b)) ->
  blocks_ok vol -> blocks_ok (block_update f p vol).
Proof.
  intros Hf H s b. unfold block_update; simpl. rewrite lookup_alter.
  case_decide; subst; [|apply (H s b)].
  destruct (fBlockCache vol !! s) eqn:Hb; simpl; [|done].
  intros [= <-]. apply Hf, (H s _ Hb).
Qed.

Lemma readable_poke p off v q vol :
  is_byte v -> readable vol q -> readable (poke p off v vol) q.
Proof. intros Hv. apply readable_update. intros. by apply byte_set_ok. Qed.
#[export] Hint Resolve readable_poke : haiku.

Lemma block_data_update f p q vol :
  readable vol p ->
  block_data (block_update f p vol) q = if p =? q then f (block_data vol p) else block_data vol q.
Proof.
  intros (b & Hb & _). unfold block_data, block_update; simpl. rewrite lookup_alter.
  destruct (Z.eqb_spec p q) as [->|Hne].
  - rewrite decide_True by done. by rewrite Hb.
  - by rewrite decide_False.
Qed.

Lemma peek_poke p off v q off' vol :
  readable vol p -> 0 <= off < bytes_per_sector vol -> 0 <= off' ->
  peek (poke p off v vol) q off' =
  if (p =? q) && (off =? off') then v else peek vol q off'.
Proof.
  intros Hp Hoff Hoff'. unfold peek, poke. rewrite block_data_update by done.
  destruct (Z.eqb_spec p q) as [->|]; simpl; [|done].
  rewrite byte_at_set; [done| |done].
  destruct (block_data_readable _ _ Hp) as [-> _]. done.
Qed.

(** ** The table as a function from offsets to bytes *)

Definition fat_byte (vol : nspace) (k : Z) : Z :=
  peek vol (fat_start vol + k / bytes_per_sector vol) (k mod bytes_per_sector vol).

(** [o] is where the entry of [c] begins. *)
Definition entry_offset (bits c : Z) : Z := c * bits / 8.

(** How a stored entry is read: the markers of every width become those of
    the widest one, the reserved bits of a 32 bit entry are dropped. *)
Definition norm_entry (bits v : Z) : Z :=
  if bits =? 12 then let w := v mod 0x1000 in if 0xff0 <? w then w + 0x0ffff000 else w
  else if bits =? 16 then let w := v mod 0x10000 in if 0xfff0 <? w then w + 0x0fff0000 else w
  else v mod 0x10000000.

(** The entry of [c] in a table [t] of bytes. *)
Definition entry_of (bits : Z) (t : Z -> Z) (c : Z) : Z :=
  let o := entry_offset bits c in
  norm_entry bits
    (if bits =? 12 then
       let v := t o + 0x100 * t (o + 1) in if Z.odd c then v / 16 else v
     else if bits =? 16 then t o + 0x100 * t (o + 1)
     else t o + 0x100 * t (o + 1) + 0x10000 * t (o + 2) + 0x1000000 * t (o + 3)).

(** The table after [v] is stored as the entry of [c]. *)
Definition table_set (bits : Z) (t : Z -> Z) (c v : Z) : Z -> Z :=
  let o := entry_offset bits c in
  if bits =? 12 then fun j =>
    let w := v mod 0x1000 in
    if j =? o then (if Z.odd c then t o mod 16 + 16 * (w mod 16) else w mod 256)
    else if j =? o + 1 then
      (if Z.odd c then w / 16 else t (o + 1) / 16 * 16 + w / 256)
    else t j
  else if bits =? 16 then fun j =>
    if j =? o then v mod 256 else if j =? o + 1 then v / 256 mod 256 else t j
  else fun j =>
    if j =? o then v mod 256 else if j =? o + 1 then v / 256 mod 256
    else if j =? o + 2 then v / 0x10000 mod 256
    else if j =? o + 3 then v / 0x1000000 mod 256 else t j.

Ltac eqb_cases :=
  repeat match goal with
    | |- context [?x =? ?y] => destruct (Z.eqb_spec x y); try lia; try (exfalso; lia)
    end.

(** Decides the tests on a known entry width. *)
Ltac eval_width :=
  change (12 =? 12) with true; change (16 =? 12) with false; change (32 =? 12) with false;
  change (16 =? 16) with true; change (32 =? 16) with false; cbv beta iota zeta.

Lemma odd_mod c : Z.odd c = (c mod 2 =? 1).
Proof.
  rewrite Zmod_odd. by destruct (Z.odd c).
Qed.

Lemma entry_of_set_eq bits t c v :
  bits = 12 \/ bits = 16 \/ bits = 32 -> (forall j, is_byte (t j)) ->
  0 <= c -> entry_of bits (table_set bits t c v) c = norm_entry bits v.
Proof.
  intros Hb Ht Hc. pose proof (Ht (entry_offset bits c)) as H0.
  pose proof (Ht (entry_offset bits c + 1)) as H1. unfold is_byte in *.
  unfold entry_of, table_set.
  destruct Hb as [->|[->| ->]]; eval_width.
  - rewrite !Z.eqb_refl.
    replace (entry_offset 12 c + 1 =? entry_offset 12 c) with false by (symmetry; lia).
    pose proof (Z.mod_pos_bound v 0x1000 ltac:(lia)) as Hw.
    unfold norm_entry; eval_width.
    generalize dependent (v mod 0x1000). intros w Hw.
    generalize dependent (t (entry_offset 12 c)). intros t0 H0.
    generalize dependent (t (entry_offset 12 c + 1)). intros t1 H1.
    destruct (Z.odd c);
      match goal with |- context [(?x mod 0x1000)] => replace (x mod 0x1000) with w by zlia end;
      done.
  - rewrite !Z.eqb_refl.
    replace (entry_offset 16 c + 1 =? entry_offset 16 c) with false by (symmetry; lia).
    rewrite le_bytes2. unfold norm_entry; eval_width.
    by rewrite Z.mod_mod by lia.
  - rewrite !Z.eqb_refl.
    replace (entry_offset 32 c + 1 =? entry_offset 32 c) with false by (symmetry; lia).
    replace (entry_offset 32 c + 2 =? entry_offset 32 c) with false by (symmetry; lia).
    replace (entry_offset 32 c + 3 =? entry_offset 32 c) with false by (symmetry; lia).
    replace (entry_offset 32 c + 2 =? entry_offset 32 c + 1) with false by (symmetry; lia).
    replace (entry_offset 32 c + 3 =? entry_offset 32 c + 1) with false by (symmetry; lia).
    replace (entry_offset 32 c + 3 =? entry_offset 32 c + 2) with false by (symmetry; lia).
    rewrite le_bytes4. unfold norm_entry; eval_width. zlia.
Qed.

(** Bytes of the table an entry touches. *)
Definition entry_bytes (bits : Z) : Z := if bits =? 32 then 4 else 2.

Lemma entry_of_ext bits t t' c :
  bits = 12 \/ bits = 16 \/ bits = 32 ->
  (forall j, entry_offset bits c <= j < entry_offset bits c + entry_bytes bits -> t j = t' j) ->
  entry_of bits t c = entry_of bits t' c.
Proof.
  intros Hb H. unfold entry_of, entry_bytes in *.
  destruct Hb as [->|[->| ->]]; eval_width; rewrite !H; try done; simpl; lia.
Qed.

Lemma norm12_mod a b : a mod 0x1000 = b mod 0x1000 -> norm_entry 12 a = norm_entry 12 b.
Proof. intros H. unfold norm_entry. eval_width. by rewrite H. Qed.

Lemma entry_of_set_ne bits t c c' v :
  bits = 12 \/ bits = 16 \/ bits = 32 -> (forall j, is_byte (t j)) ->
  0 <= c -> 0 <= c' -> c <> c' ->
  entry_of bits (table_set bits t c v) c' = entry_of bits t c'.
Proof.
  intros Hb Ht Hc Hc' Hne. unfold entry_of, table_set.
  destruct Hb as [->|[->| ->]]; eval_width; unfold entry_offset.
  - apply norm12_mod.
    pose proof (Z.mod_pos_bound v 0x1000 ltac:(lia)) as Hw.
    generalize dependent (v mod 0x1000). intros w Hw.
    pose proof (odd_mod c) as Ho. pose proof (odd_mod c') as Ho'.
    pose proof (Ht (c * 12 / 8)) as H0. pose proof (Ht (c * 12 / 8 + 1)) as H1.
    pose proof (Ht (c' * 12 / 8)) as H2. pose proof (Ht (c' * 12 / 8 + 1)) as H3.
    unfold is_byte in *.
    destruct (Z.eqb_spec (c' * 12 / 8) (c * 12 / 8)) as [E|E]; [exfalso; zlia|].
    destruct (Z.eqb_spec (c' * 12 / 8 + 1) (c * 12 / 8 + 1)) as [E1|E1]; [exfalso; zlia|].
    destruct (Z.eqb_spec (c' * 12 / 8) (c * 12 / 8 + 1)) as [E2|E2].
    { assert (c mod 2 = 0 /\ c' mod 2 = 1) as [Hm Hm'] by (split; zlia).
      rewrite Ho, Hm, Ho', Hm'. change (0 =? 1) with false. change (1 =? 1) with true.
      replace (c' * 12 / 8 + 1 =? c * 12 / 8) with false by (symmetry; lia).
      rewrite E2 in *. f_equal. zlia. }
    destruct (Z.eqb_spec (c' * 12 / 8 + 1) (c * 12 / 8)) as [E3|E3]; [|done].
    assert (c mod 2 = 1 /\ c' mod 2 = 0) as [Hm Hm'] by (split; zlia).
    rewrite Ho, Hm, Ho', Hm'. change (0 =? 1) with false. change (1 =? 1) with true.
    rewrite E3 in *. zlia.
  - replace (c' * 16 / 8) with (2 * c') by zlia. replace (c * 16 / 8) with (2 * c) by zlia.
    f_equal. eqb_cases; done.
  - replace (c' * 32 / 8) with (4 * c') by zlia. replace (c * 32 / 8) with (4 * c) by zlia.
    f_equal. eqb_cases; done.
Qed.

(** ** The table of a volume *)

Definition fat_size (b : bpb) : Z := sectors_per_fat b * bytes_per_sector b.
Definition entry (vol : nspace) (c : Z) : Z := entry_of (fat_bits vol) (fat_byte vol) c.
Definition data_cluster (b : bpb) (c : Z) : Prop := 2 <= c < total_clusters b + 2.

Section Geometry.
Context (vol : nspace) (Hgeo : geometry_ok vol).

Lemma fat_start_eq : fat_start vol = reserved_sectors vol + active_fat vol * sectors_per_fat vol.
Proof using Hgeo.
  destruct Hgeo as [Hb ? ? ? ? ? Ha Hr Hs Hm]. unfold fat_start.
  rewrite (u32_small (active_fat vol * _)) by nia. apply u32_small. nia.
Qed.

Lemma fat_start_range :
  0 <= fat_start vol /\ fat_start vol + sectors_per_fat vol < 2 ^ 32.
Proof using Hgeo. rewrite fat_start_eq. destruct Hgeo. split; nia. Qed.

Lemma active_in_fats s :
  fat_start vol <= s < fat_start vol + sectors_per_fat vol -> in_fats vol s.
Proof using Hgeo. rewrite fat_start_eq. destruct Hgeo. unfold in_fats. intros. nia. Qed.

Lemma sector_of_byte k :
  0 <= k < fat_size vol ->
  0 <= k / bytes_per_sector vol < sectors_per_fat vol /\
  0 <= k mod bytes_per_sector vol < bytes_per_sector vol.
Proof using Hgeo.
  unfold fat_size. intros Hk. destruct Hgeo as [Hb _ _ _ _ _ _ _ _ _].
  split; [|apply Z.mod_pos_bound; lia].
  split; [apply Z.div_pos; lia|apply Z.div_lt_upper_bound; lia].
Qed.

Lemma sector_in_fats k :
  0 <= k < fat_size vol -> in_fats vol (fat_start vol + k / bytes_per_sector vol).
Proof using Hgeo. intros Hk. apply active_in_fats. pose proof (sector_of_byte k Hk). lia. Qed.

Lemma data_cluster_bound c : data_cluster vol c -> 2 <= c <= max_cluster (fat_bits vol).
Proof using Hgeo. destruct Hgeo. unfold data_cluster. lia. Qed.

Lemma max_cluster_small : 0 <= max_cluster (fat_bits vol) <= 0x7fffffc.
Proof using Hgeo. unfold max_cluster. repeat case_match; lia. Qed.

Lemma entry_in_table c :
  data_cluster vol c ->
  0 <= entry_offset (fat_bits vol) c /\
  entry_offset (fat_bits vol) c + entry_bytes (fat_bits vol) <= fat_size vol.
Proof using Hgeo.
  intros Hc. destruct Hgeo as [_ _ Hb _ _ Hroom _ _ _ _]. unfold data_cluster in Hc.
  change (sectors_per_fat vol * bytes_per_sector vol) with (fat_size vol) in Hroom.
  unfold entry_offset, entry_bytes.
  destruct Hb as [Hb|[Hb|Hb]]; rewrite Hb in *; simpl; zlia.
Qed.

Lemma IS_DATA_CLUSTER_spec c :
  IS_DATA_CLUSTER vol c = true <-> 2 <= c /\ u32 c < total_clusters vol + 2.
Proof using Hgeo.
  pose proof max_cluster_small. destruct Hgeo as [_ _ _ Ht Hl _ _ _ _ _].
  unfold IS_DATA_CLUSTER. rewrite (u32_small (total_clusters vol + 2)) by lia.
  rewrite andb_true_iff, Z.leb_le, Z.ltb_lt. done.
Qed.

Lemma IS_DATA_CLUSTER_true c :
  c < 2 ^ 32 -> IS_DATA_CLUSTER vol c = true <-> data_cluster vol c.
Proof using Hgeo.
  intros Hc. rewrite IS_DATA_CLUSTER_spec. unfold data_cluster.
  split; intros [H1 H2]; [rewrite u32_small in H2 by lia; lia|].
  rewrite u32_small by lia. lia.
Qed.

(** The byte position of an entry, as the code computes it. *)
Lemma entry_offset_u32 c :
  data_cluster vol c -> u32 (c * fat_bits vol) / 8 = entry_offset (fat_bits vol) c.
Proof using Hgeo.
  intros Hc. pose proof (data_cluster_bound c Hc) as Hm. destruct Hgeo as [_ _ Hb _ _ _ _ _ _ _].
  unfold entry_offset. rewrite u32_small; [done|]. unfold max_cluster in Hm.
  destruct Hb as [Hb|[Hb|Hb]]; rewrite Hb in *; simpl in Hm; lia.
Qed.
End Geometry.

(** ** What table operations leave alone *)

(** Only table sectors, the free count and the allocation hint change. *)
Definition fat_frame (vol vol' : nspace) : Prop :=
  exists c f l,
    vol' = set_last_allocated l (set_free_clusters f (set_fBlockCache c vol)) /\
    forall s, ~ in_fats vol s -> c !! s = fBlockCache vol !! s.

#[export] Instance fat_frame_preorder : PreOrder fat_frame.
Proof.
  split.
  - intros vol. exists (fBlockCache vol), (free_clusters vol), (last_allocated vol).
    split; [by destruct vol|done].
  - intros v1 v2 v3 (c & f & l & -> & H) (c' & f' & l' & -> & H').
    exists c', f', l'. split; [done|]. intros s Hs. rewrite H' by done. simpl. by apply H.
Qed.

Lemma fat_frame_bpb vol vol' : fat_frame vol vol' -> ns_bpb vol' = ns_bpb vol.
Proof. by intros (? & ? & ? & -> & _). Qed.

Lemma fat_frame_update f p vol : in_fats vol p -> fat_frame vol (block_update f p vol).
Proof.
  intros Hp. exists (alter f p (fBlockCache vol)), (free_clusters vol), (last_allocated vol).
  split; [by destruct vol|]. intros s Hs. apply lookup_alter_ne. by intros ->.
Qed.

Lemma fat_frame_free x vol : fat_frame vol (set_free_clusters x vol).
Proof. exists (fBlockCache vol), x, (last_allocated vol). split; [by destruct vol|done]. Qed.

Lemma fat_frame_last x vol : fat_frame vol (set_last_allocated x vol).
Proof. exists (fBlockCache vol), (free_clusters vol), x. split; [by destruct vol|done]. Qed.
#[export] Hint Resolve fat_frame_update fat_frame_free fat_frame_last : haiku.

Lemma fat_ok_update f p vol :
  (forall b, block_ok (bytes_per_sector vol) b -> block_ok (bytes_per_sector vol) (f b)) ->
  fat_ok vol -> fat_ok (block_update f p vol).
Proof.
  intros Hf [Hg Hb Hp]. split; [done|by apply blocks_ok_update|].
  intros s Hs. specialize (Hp s Hs). unfold block_update; simpl. rewrite lookup_alter.
  case_decide; [|done]. subst. by apply fmap_is_Some.
Qed.

Lemma fat_ok_poke p off v vol : is_byte v -> fat_ok vol -> fat_ok (poke p off v vol).
Proof. intros Hv. apply fat_ok_update. intros. by apply byte_set_ok. Qed.

Lemma fat_ok_free x vol : fat_ok vol -> fat_ok (set_free_clusters x vol).
Proof. by intros []. Qed.
Lemma fat_ok_last x vol : fat_ok vol -> fat_ok (set_last_allocated x vol).
Proof. by intros []. Qed.
#[export] Hint Resolve fat_ok_poke fat_ok_free fat_ok_last : haiku.

Lemma fat_byte_ok vol k : fat_ok vol -> is_byte (fat_byte vol k).
Proof. intros []. by apply peek_byte. Qed.

(** A store through a pointer into the table is a store to the table. *)
Lemma fat_byte_poke vol k v j :
  fat_ok vol -> 0 <= k < fat_size vol -> 0 <= j ->
  fat_byte (poke (fat_start vol + k / bytes_per_sector vol) (k mod bytes_per_sector vol) v vol) j
  = if j =? k then v else fat_byte vol j.
Proof.
  intros Hok Hk Hj. unfold fat_byte at 1.
  change (fat_start (poke _ _ _ vol)) with (fat_start vol).
  change (bytes_per_sector (poke _ _ _ vol)) with (bytes_per_sector vol).
  pose proof (sector_of_byte vol (ok_geo _ Hok) k Hk) as [_ Hm].
  assert (Hbps : 0 < bytes_per_sector vol) by lia.
  rewrite peek_poke;
    [|apply fat_readable; [done|by apply sector_in_fats, Hk; destruct Hok]|done
     |apply Z.mod_pos_bound; done].
  unfold fat_byte.
  destruct (Z.eqb_spec j k) as [->|Hne]; [by rewrite !Z.eqb_refl|].
  destruct (Z.eqb_spec (fat_start vol + k / bytes_per_sector vol)
              (fat_start vol + j / bytes_per_sector vol)) as [E|]; [|done].
  destruct (Z.eqb_spec (k mod bytes_per_sector vol) (j mod bytes_per_sector vol)) as [E'|]; [|done].
  exfalso. apply Hne. rewrite (Z.div_mod j (bytes_per_sector vol)), (Z.div_mod k (bytes_per_sector vol)) by lia.
  rewrite E'. f_equal. f_equal. lia.
Qed.

(** ** Mirroring *)

Definition fat_copy (b : bpb) (i s : Z) : Z := reserved_sectors b + i * sectors_per_fat b + s.

(** Every copy of table sector [s] holds what the active table holds. *)
Definition sector_mirrored (vol : nspace) (s : Z) : Prop :=
  forall i, 0 <= i < fat_count vol ->
    fBlockCache vol !! fat_copy vol i s = fBlockCache vol !! fat_copy vol (active_fat vol) s.

(** All tables agree, apart perhaps from the sectors of [P]. *)
Definition mirrored_but (P : Z -> Prop) (vol : nspace) : Prop :=
  fat_mirrored vol = true ->
  forall s, 0 <= s < sectors_per_fat vol -> ~ P s -> sector_mirrored vol s.
Definition mirrored (vol : nspace) : Prop := mirrored_but (fun _ => False) vol.

Lemma fat_copy_inj b i s i' s' :
  0 <= s < sectors_per_fat b -> 0 <= s' < sectors_per_fat b ->
  fat_copy b i s = fat_copy b i' s' -> i = i' /\ s = s'.
Proof.
  unfold fat_copy. intros Hs Hs' E.
  assert (i = i') as <- by (destruct (Z.lt_trichotomy i i') as [|[|]]; nia). lia.
Qed.

(** One round of the mirroring loop, for table sector [s]. *)
Definition mirror_step (vol : nspace) (s : Z) (v : nspace) (i : Z) : nspace :=
  if i =? active_fat vol then v
  else block_update (fun _ => block_data v (fat_copy vol (active_fat vol) s)) (fat_copy vol i s) v.

Section Mirror.
Context (vol : nspace) (Hok : fat_ok vol) (s : Z) (Hs : 0 <= s < sectors_per_fat vol).

Lemma copy_in_fats i : 0 <= i < fat_count vol -> in_fats vol (fat_copy vol i s).
Proof using Hs. unfold in_fats, fat_copy. intros. nia. Qed.

Lemma active_copy : fat_copy vol (active_fat vol) s = fat_start vol + s.
Proof using Hok. by rewrite fat_start_eq by apply Hok. Qed.

(** The copies of sector [s] are the only blocks the mirroring writes. *)
Lemma mirror_steps_spec l :
  Forall (fun i => 0 <= i < fat_count vol) l ->
  let v := foldl (mirror_step vol s) vol l in
  (exists c, v = set_fBlockCache c vol) /\ fat_ok v /\
  (forall i, i ∈ l ->
     fBlockCache v !! fat_copy vol i s = fBlockCache vol !! fat_copy vol (active_fat vol) s) /\
  (forall p, (forall i, 0 <= i < fat_count vol -> i <> active_fat vol -> p <> fat_copy vol i s) ->
     fBlockCache v !! p = fBlockCache vol !! p).
Proof using Hok Hs.
  induction l as [|i l IH] using rev_ind; intros Hl; simpl.
  { split_and!; [|done|by intros i ?%not_elem_of_nil|done].
    exists (fBlockCache vol). by destruct vol. }
  apply Forall_app in Hl as [Hl [Hi _]%Forall_cons_1].
  destruct (IH Hl) as ([c Hc] & Hv & Hin & Hout). rewrite foldl_app. simpl. clear IH.
  set (v := foldl (mirror_step vol s) vol l) in *.
  assert (Hact : fBlockCache v !! fat_copy vol (active_fat vol) s
                 = fBlockCache vol !! fat_copy vol (active_fat vol) s).
  { apply Hout. intros j Hj Hne E. apply Hne. by apply fat_copy_inj in E as [<- _]. }
  destruct (ok_present _ Hok (fat_copy vol (active_fat vol) s)) as [b Hb].
  { apply copy_in_fats, (geo_active _ (ok_geo _ Hok)). }
  rewrite Hb in *. unfold mirror_step. destruct (Z.eqb_spec i (active_fat vol)) as [->|Hne].
  { split_and!; [eauto|done| |done].
    intros j [Hj|Hj%list_elem_of_singleton]%elem_of_app; [auto|]. by subst. }
  unfold block_data. rewrite Hact. simpl. split_and!.
  - rewrite Hc. unfold block_update. eexists. simpl. reflexivity.
  - apply fat_ok_update; [|done]. intros b' _. rewrite Hc. apply (ok_blocks _ Hok _ _ Hb).
  - intros j Hj. unfold block_update; simpl. rewrite lookup_alter. case_decide as E.
      destruct (ok_present _ Hv (fat_copy vol i s)) as [b' Hb'].
      { rewrite Hc. apply (copy_in_fats i Hi). }
      by rewrite Hb'.
    + apply elem_of_app in Hj as [Hj| ->%list_elem_of_singleton]; [auto|done].
  - intros p Hp. unfold block_update; simpl. rewrite lookup_alter_ne; [auto|].
    intros E. by apply (Hp i).
Qed.
End Mirror.

(** [mirror_fats] on a sector of the active table. *)
Section MirrorFats.
Context (vol : nspace) (Hok : fat_ok vol) (s : Z) (Hs : 0 <= s < sectors_per_fat vol).

Lemma mirror_fats_steps :
  mirror_fats vol (fat_start vol + s) (fat_start vol + s) =
  if fat_mirrored vol then foldl (mirror_step vol s) vol (seqZ 0 (fat_count vol)) else vol.
Proof using Hok Hs.
  unfold mirror_fats. destruct (fat_mirrored vol); simpl; [|done].
  pose proof (ok_geo _ Hok) as Hg. pose proof (fat_start_range vol Hg) as Hr.
  pose proof (fat_start_eq vol Hg) as Hst. destruct Hg as [_ _ _ _ _ _ Ha Hres Hspf Hm].
  rewrite (u32_small (active_fat vol * _)) by nia.
  rewrite (u32_small (fat_start vol + s - _)) by nia.
  assert (Hl : Forall (fun i => 0 <= i < fat_count vol) (seqZ 0 (fat_count vol))).
  { apply Forall_forall. intros i Hi%elem_of_seqZ. lia. }
  revert Hl. generalize (seqZ 0 (fat_count vol)). intros l Hl.
  enough (H : forall v, foldl (fun v i => if i =? active_fat vol then v else
    block_update (fun _ => block_data v (fat_start vol + s))
      (u32 (fat_start vol + s - active_fat vol * sectors_per_fat vol
            + u32 (i * sectors_per_fat vol))) v) v l = foldl (mirror_step vol s) v l) by apply H.
  induction Hl as [|i l Hi _ IH]; intros v; simpl; [done|]. rewrite IH. f_equal.
  unfold mirror_step. case_match; [done|].
  rewrite (u32_small (i * _)) by nia. rewrite u32_small by nia.
  f_equal; [|unfold fat_copy; lia]. unfold fat_copy. by rewrite Hst.
Qed.

Lemma mirror_fats_spec :
  let v := mirror_fats vol (fat_start vol + s) (fat_start vol + s) in
  (exists c, v = set_fBlockCache c vol) /\ fat_ok v /\
  (fat_mirrored vol = true -> forall i, 0 <= i < fat_count vol ->
     fBlockCache v !! fat_copy vol i s = fBlockCache vol !! fat_copy vol (active_fat vol) s) /\
  (forall p, (forall i, 0 <= i < fat_count vol -> i <> active_fat vol -> p <> fat_copy vol i s) ->
     fBlockCache v !! p = fBlockCache vol !! p).
Proof using Hok Hs.
  rewrite mirror_fats_steps. destruct (fat_mirrored vol).
  - destruct (mirror_steps_spec vol Hok s Hs (seqZ 0 (fat_count vol))) as (H1 & H2 & H3 & H4).
    { apply Forall_forall. intros i Hi%elem_of_seqZ. lia. }
    split_and!; [done|done| |done]. intros _ i Hi. apply H3, elem_of_seqZ. lia.
  - split_and!; [|done|done|done]. exists (fBlockCache vol). by destruct vol.
Qed.

Lemma mirror_fats_ok : fat_ok (mirror_fats vol (fat_start vol + s) (fat_start vol + s)).
Proof using Hok Hs. apply mirror_fats_spec. Qed.

Lemma mirror_fats_frame : fat_frame vol (mirror_fats vol (fat_start vol + s) (fat_start vol + s)).
Proof using Hok Hs.
  destruct mirror_fats_spec as ([c Hc] & _ & _ & Hout). rewrite Hc in *.
  exists c, (free_clusters vol), (last_allocated vol). split; [by destruct vol|].
  intros p Hp. apply Hout. intros i Hi _ ->. apply Hp. by apply copy_in_fats.
Qed.

(** The active table does not notice. *)
Lemma mirror_fats_active p :
  fat_start vol <= p < fat_start vol + sectors_per_fat vol ->
  fBlockCache (mirror_fats vol (fat_start vol + s) (fat_start vol + s)) !! p
  = fBlockCache vol !! p.
Proof using Hok Hs.
  intros Hp. destruct mirror_fats_spec as (_ & _ & _ & Hout). apply Hout.
  intros i Hi Hne ->. apply Hne.
  rewrite (fat_start_eq vol (ok_geo _ Hok)) in Hp.
  apply (fat_copy_inj vol i s (active_fat vol)
           (fat_copy vol i s - reserved_sectors vol - active_fat vol * sectors_per_fat vol));
    [done|lia|unfold fat_copy; lia].
Qed.

Lemma mirror_fats_byte j :
  0 <= j < fat_size vol ->
  fat_byte (mirror_fats vol (fat_start vol + s) (fat_start vol + s)) j = fat_byte vol j.
Proof using Hok Hs.
  intros Hj. pose proof (sector_of_byte vol (ok_geo _ Hok) j Hj) as [Hq _].
  pose proof (mirror_fats_active (fat_start vol + j / bytes_per_sector vol) ltac:(lia)) as Ha.
  pose proof (fat_frame_bpb _ _ mirror_fats_frame) as Hb.
  generalize dependent (mirror_fats vol (fat_start vol + s) (fat_start vol + s)).
  intros v Ha Hb. unfold fat_byte, peek, block_data. unfold fat_start at 1. rewrite Hb.
  fold (fat_start vol). by rewrite Ha.
Qed.
End MirrorFats.

(** ** A decision procedure for concrete volumes *)

Definition geometry_okb (b : bpb) : bool :=
  (512 <=? bytes_per_sector b) && (bytes_per_sector b <? 2 ^ 16)
  && (bytes_per_sector b mod 512 =? 0)
  && ((fat_bits b =? 12) || (fat_bits b =? 16) || (fat_bits b =? 32))
  && (0 <? total_clusters b) && (total_clusters b + 1 <=? max_cluster (fat_bits b))
  && ((total_clusters b + 2) * fat_bits b <=? 8 * (sectors_per_fat b * bytes_per_sector b))
  && (0 <=? active_fat b) && (active_fat b <? fat_count b) && (0 <=? reserved_sectors b)
  && (0 <? sectors_per_fat b)
  && (reserved_sectors b + fat_count b * sectors_per_fat b <? 2 ^ 32).

Definition fat_okb (vol : nspace) : bool :=
  geometry_okb vol
  && forallb (fun '(_, b) => (Z.of_nat (length b) =? bytes_per_sector vol)
                             && forallb (fun x => (0 <=? x) && (x <? 256)) b)
       (map_to_list (fBlockCache vol))
  && forallb (fun s => bool_decide (is_Some (fBlockCache vol !! s)))
       (seqZ (reserved_sectors vol) (fat_count vol * sectors_per_fat vol)).

Lemma geometry_okb_true b : geometry_okb b = true -> geometry_ok b.
Proof.
  unfold geometry_okb. rewrite !andb_true_iff, !orb_true_iff, !Z.leb_le, !Z.ltb_lt, !Z.eqb_eq.
  intros (((((((((((H1 & H2) & H3) & H4) & H5) & H6) & H7) & H8) & H9) & H10) & H11) & H12).
  split; try done; tauto.
Qed.

Lemma fat_okb_true vol : fat_okb vol = true -> fat_ok vol.
Proof.
  unfold fat_okb. rewrite !andb_true_iff. intros [[Hg Hb] Hp]. split.
  - by apply geometry_okb_true.
  - intros s b Hs. rewrite forallb_forall in Hb.
    specialize (Hb (s, b)). cbv beta iota in Hb. rewrite andb_true_iff in Hb.
    destruct Hb as [Hl Hf]; [by apply list_elem_of_In, elem_of_map_to_list|].
    split; [by apply Z.eqb_eq|]. apply Forall_forall. intros x Hx.
    rewrite forallb_forall in Hf. specialize (Hf x (proj1 (list_elem_of_In _ _) Hx)).
    unfold is_byte. lia.
  - intros s Hs. unfold in_fats in Hs. rewrite forallb_forall in Hp.
    specialize (Hp s). apply (bool_decide_eq_true_1 _), Hp, list_elem_of_In, elem_of_seqZ. lia.
Qed.
