(* ===== verification/FatIoctl.v ===== *)
(** The loop of [_fat_ioctl_]: one round reads or writes exactly the entry the
    position stands at, and moves the position to the next one. *)
From stdpp Require Import base gmap list.
From Stdlib Require Import ZArith Lia.
From S2P Require Import Prelude Errors Volume Fat FatEntry.

Implicit Types vol v : nspace.

(** ** Stores seen as a table *)

Lemma mirrored_but_mono (P Q : Z -> Prop) vol :
  (forall s, P s -> Q s) -> mirrored_but P vol -> mirrored_but Q vol.
Proof. intros H Hm Hf s Hs Hq. apply Hm; auto. Qed.

Lemma mirrored_but_update (P : Z -> Prop) f s vol :
  fat_ok vol -> 0 <= s < sectors_per_fat vol -> mirrored_but P vol ->
  mirrored_but (fun t => P t \/ t = s) (block_update f (fat_start vol + s) vol).
Proof.
  intros Hok Hs Hm Hf s' Hs' Hn i Hi. unfold block_update; simpl in *.
  assert (Hne : s' <> s) by tauto.
  rewrite <-(active_copy vol Hok s).
  rewrite !lookup_alter_ne; [apply Hm; auto| |];
    intros E; apply fat_copy_inj in E as [_ E]; congruence || lia.
Qed.

Lemma mirrored_but_mirror (P : Z -> Prop) s vol :
  fat_ok vol -> 0 <= s < sectors_per_fat vol -> mirrored_but P vol ->
  mirrored_but (fun t => P t /\ t <> s) (mirror_fats vol (fat_start vol + s) (fat_start vol + s)).
Proof.
  intros Hok Hs Hm.
  destruct (mirror_fats_spec vol Hok s Hs) as ([c Hc] & _ & Hin & Hout).
  rewrite Hc in *. simpl in *. intros Hf s' Hs' Hn i Hi. simpl in *.
  pose proof (geo_active _ (ok_geo _ Hok)) as Ha.
  change (fat_copy (set_fBlockCache c vol)) with (fat_copy vol).
  destruct (Z.eq_dec s' s) as [->|Hne]; [by rewrite !Hin|].
  rewrite !Hout.
  - apply Hm; [done|done| |done]. intros Hp. by apply Hn.
  - intros j Hj _ E. apply fat_copy_inj in E as [_ E]; [congruence|done|done].
  - intros j Hj _ E. apply fat_copy_inj in E as [_ E]; [congruence|done|done].
Qed.

(** [v] is [vol] with a table holding the bytes [t], the copies of which may
    lag behind in the sectors of [P]. *)
Record table_state (vol : nspace) (t : Z -> Z) (P : Z -> Prop) (v : nspace) : Prop := {
  ts_cache : exists c, v = set_fBlockCache c vol /\
      forall s, ~ in_fats vol s -> c !! s = fBlockCache vol !! s;
  ts_ok : fat_ok v;
  ts_bytes : forall j, 0 <= j < fat_size vol -> fat_byte v j = t j;
  ts_mirror : mirrored_but P v
}.

Lemma table_state_init vol P :
  fat_ok vol -> mirrored_but P vol -> table_state vol (fat_byte vol) P vol.
Proof. intros Hok Hm. split; [|done|done|done]. exists (fBlockCache vol). by destruct vol. Qed.

Lemma table_state_frame vol t P v : table_state vol t P v -> fat_frame vol v.
Proof.
  intros [(c & -> & Hc) _ _ _]. exists c, (free_clusters vol), (last_allocated vol).
  split; [by destruct vol|done].
Qed.

Lemma table_state_bpb vol t P v : table_state vol t P v -> ns_bpb v = ns_bpb vol.
Proof. intros H. by apply fat_frame_bpb, (table_state_frame _ _ _ _ H). Qed.

Lemma table_state_mono vol t (P Q : Z -> Prop) v :
  (forall s, P s -> Q s) -> table_state vol t P v -> table_state vol t Q v.
Proof. intros H [? ? ? Hm]. split; try done. by apply (mirrored_but_mono P). Qed.

Section TableState.
Context (vol : nspace) (t : Z -> Z) (P : Z -> Prop) (v : nspace).
Context (Hts : table_state vol t P v).

Lemma ts_start : fat_start v = fat_start vol.
Proof using Hts. unfold fat_start. by rewrite (table_state_bpb _ _ _ _ Hts). Qed.
Lemma ts_bps : bytes_per_sector v = bytes_per_sector vol.
Proof using Hts. by rewrite (table_state_bpb _ _ _ _ Hts). Qed.

Lemma ts_peek k :
  0 <= k < fat_size vol ->
  peek v (fat_start vol + k / bytes_per_sector vol) (k mod bytes_per_sector vol) = t k.
Proof using Hts.
  intros Hk. rewrite <-(ts_bytes _ _ _ _ Hts k Hk). unfold fat_byte. by rewrite ts_start, ts_bps.
Qed.

Lemma ts_poke k x :
  0 <= k < fat_size vol -> is_byte x ->
  table_state vol (fun j => if j =? k then x else t j)
    (fun s => P s \/ s = k / bytes_per_sector vol)
    (poke (fat_start vol + k / bytes_per_sector vol) (k mod bytes_per_sector vol) x v).
Proof using Hts.
  intros Hk Hx. destruct Hts as [(c & Hv & Hc) Hok Hb Hm].
  pose proof (table_state_bpb _ _ _ _ Hts) as Hbpb.
  pose proof ts_start as Hst. pose proof ts_bps as Hbps.
  assert (Hk' : 0 <= k < fat_size v) by (by rewrite Hbpb).
  pose proof (sector_of_byte v (ok_geo _ Hok) k Hk') as [Hq _].
  rewrite <-Hst, <-Hbps. split.
  - rewrite Hv. exists (alter (byte_set (k mod bytes_per_sector vol) x)
                  (fat_start vol + k / bytes_per_sector vol) c).
    split; [by destruct vol|]. intros s Hs. rewrite lookup_alter_ne; [auto|].
    intros <-. apply Hs. rewrite Hv in Hok. apply (sector_in_fats vol (ok_geo _ Hok) k Hk).
  - by apply fat_ok_poke.
  - intros j Hj. rewrite fat_byte_poke by (done || lia). case_match; [done|]. auto.
  - by apply mirrored_but_update.
Qed.

Lemma ts_mirror_fats s :
  0 <= s < sectors_per_fat vol ->
  table_state vol t (fun s' => P s' /\ s' <> s)
    (mirror_fats v (fat_start vol + s) (fat_start vol + s)).
Proof using Hts.
  intros Hs. destruct Hts as [(c & Hv & Hc) Hok Hb Hm].
  pose proof (table_state_bpb _ _ _ _ Hts) as Hbpb. rewrite <-ts_start.
  assert (Hs' : 0 <= s < sectors_per_fat v) by (by rewrite Hbpb).
  destruct (mirror_fats_spec v Hok s Hs') as ([c' Hc'] & Hok' & _ & Hout).
  split.
  - rewrite Hc' in *. exists c'. rewrite Hv. split; [by destruct vol|].
    intros p Hp. rewrite <-Hc by done. rewrite Hv in Hout. apply Hout.
    intros i Hi _ ->. apply Hp. by apply (copy_in_fats vol s Hs i).
  - done.
  - intros j Hj. rewrite mirror_fats_byte; [auto|done|done|by rewrite Hbpb].
  - by apply mirrored_but_mirror.
Qed.
End TableState.

(** The read-modify-write of one byte: [*p &= am; *p |= om]. *)
Lemma ts_rmw vol t P v k am om p off :
  table_state vol t P v -> 0 <= k < fat_size vol ->
  p = fat_start vol + k / bytes_per_sector vol -> off = k mod bytes_per_sector vol ->
  is_byte (Z.land (t k) am) -> is_byte (Z.lor (Z.land (t k) am) om) ->
  let v1 := poke p off (Z.land (peek v p off) am) v in
  table_state vol (fun j => if j =? k then Z.lor (Z.land (t k) am) om else t j)
    (fun s => P s \/ s = k / bytes_per_sector vol)
    (poke p off (Z.lor (peek v1 p off) om) v1).
Proof.
  intros Hts Hk -> -> H1 H2 v1. subst v1.
  rewrite (ts_peek _ _ _ _ Hts k Hk).
  pose proof (ts_poke _ _ _ _ Hts k _ Hk H1) as Hts1.
  rewrite (ts_peek _ _ _ _ Hts1 k Hk), Z.eqb_refl.
  pose proof (ts_poke _ _ _ _ Hts1 k _ Hk H2) as Hts2.
  destruct Hts2 as [Hc Hok Hb Hm]. split; [done|done| |].
  - intros j Hj. rewrite Hb by done. by case_match.
  - revert Hm. apply mirrored_but_mono. tauto.
Qed.

Lemma is_byte_land b m : is_byte b -> 0 <= m -> is_byte (Z.land b m).
Proof.
  intros Hb Hm. unfold is_byte in *.
  replace (Z.land b m) with (Z.land b m mod 2 ^ 8); [apply Z.mod_pos_bound; lia|].
  rewrite <-(land_ones_mod _ 8 0xff) by lia.
  rewrite <-Z.land_assoc, (Z.land_comm m), Z.land_assoc. f_equal.
  rewrite (land_ones_mod _ 8) by lia. apply Z.mod_small. lia.
Qed.

Lemma ts_ext vol t t' P v :
  (forall j, 0 <= j < fat_size vol -> t j = t' j) -> table_state vol t P v -> table_state vol t' P v.
Proof.
  intros H [Hc Hok Hb Hm]. split; [done|done| |done]. intros j Hj. rewrite Hb by done. auto.
Qed.

(** Adjacent bytes of the table are adjacent in a block, or the first byte of
    the next. *)
Lemma next_byte b k :
  0 < b -> 0 <= k ->
  if k mod b =? b - 1 then (k + 1) / b = k / b + 1 /\ (k + 1) mod b = 0
  else (k + 1) / b = k / b /\ (k + 1) mod b = k mod b + 1.
Proof.
  intros Hb Hk. pose proof (Z.div_mod k b ltac:(lia)) as E.
  pose proof (Z.mod_pos_bound k b ltac:(lia)) as Hm.
  destruct (Z.eqb_spec (k mod b) (b - 1)) as [H|H].
  - assert (E' : k + 1 = (k / b + 1) * b) by nia. rewrite E'.
    by rewrite Z.div_mul, Z.mod_mul by lia.
  - assert (E' : k + 1 = (k mod b + 1) + (k / b) * b) by nia. rewrite E'.
    rewrite Z.div_add, Z.mod_add by lia.
    rewrite Z.div_small, Z.mod_small by lia. lia.
Qed.

Lemma same_sector b k i :
  0 < b -> 0 <= k -> 0 <= i -> k mod b + i < b -> (k + i) / b = k / b /\ (k + i) mod b = k mod b + i.
Proof.
  intros Hb Hk Hi Hlt. pose proof (Z.div_mod k b ltac:(lia)) as E.
  pose proof (Z.mod_pos_bound k b ltac:(lia)) as Hm.
  replace (k + i) with ((k mod b + i) + (k / b) * b) by nia.
  rewrite Z.div_add, Z.mod_add, Z.div_small, Z.mod_small by lia. lia.
Qed.

(** Aligned entries do not cross sectors. *)
Lemma aligned_fits vol w c i :
  geometry_ok vol -> (w = 2 \/ w = 4) -> 0 <= i < w ->
  (w * c) mod bytes_per_sector vol + i < bytes_per_sector vol.
Proof.
  intros [Hb Hm _ _ _ _ _ _ _ _] Hw Hi.
  set (b := bytes_per_sector vol) in *.
  pose proof (Z.mod_pos_bound (w * c) b ltac:(lia)).
  assert (exists q, b = w * q) as [q Hq] by (exists (b / w); destruct Hw as [->| ->]; zlia).
  rewrite Hq in *. rewrite Z.mul_mod_distr_l in * by lia. nia.
Qed.

Lemma ts_poke16 vol t P v k x :
  table_state vol t P v -> 0 <= k -> k + 1 < fat_size vol ->
  k mod bytes_per_sector vol + 1 < bytes_per_sector vol ->
  table_state vol
    (fun j => if j =? k then x mod 256 else if j =? k + 1 then x / 256 mod 256 else t j)
    (fun s => P s \/ s = k / bytes_per_sector vol)
    (poke16 (fat_start vol + k / bytes_per_sector vol) (k mod bytes_per_sector vol) x v).
Proof.
  intros Hts Hk Hk' Hfit.
  assert (Hbyte : forall y, is_byte (y mod 256)) by (intros; apply Z.mod_pos_bound; lia).
  pose proof (ts_poke _ _ _ _ Hts k (x mod 256) ltac:(lia) (Hbyte _)) as H1.
  pose proof (ts_poke _ _ _ _ H1 (k + 1) (x / 256 mod 256) ltac:(lia) (Hbyte _)) as H2.
  pose proof (ok_geo _ (ts_ok _ _ _ _ Hts)) as Hg. pose proof (geo_bps _ Hg) as Hb.
  rewrite (ts_bps _ _ _ _ Hts) in Hb.
  destruct (same_sector (bytes_per_sector vol) k 1) as [E1 E2]; [lia|lia|lia|lia|].
  rewrite E1, E2 in H2. unfold poke16, u8. rewrite Z.shiftr_div_pow2 by lia.
  change (2 ^ 8) with 256. eapply table_state_mono; [|eapply ts_ext; [|exact H2]].
  - simpl. tauto.
  - intros j Hj. cbv beta. eqb_cases; done.
Qed.

Lemma ts_poke32 vol t P v k x :
  table_state vol t P v -> 0 <= k -> k + 3 < fat_size vol ->
  k mod bytes_per_sector vol + 3 < bytes_per_sector vol ->
  table_state vol
    (fun j => if j =? k then x mod 256 else if j =? k + 1 then x / 256 mod 256
              else if j =? k + 2 then x / 0x10000 mod 256
              else if j =? k + 3 then x / 0x1000000 mod 256 else t j)
    (fun s => P s \/ s = k / bytes_per_sector vol)
    (poke32 (fat_start vol + k / bytes_per_sector vol) (k mod bytes_per_sector vol) x v).
Proof.
  intros Hts Hk Hk' Hfit.
  pose proof (ok_geo _ (ts_ok _ _ _ _ Hts)) as Hg. pose proof (geo_bps _ Hg) as Hb.
  rewrite (ts_bps _ _ _ _ Hts) in Hb.
  destruct (same_sector (bytes_per_sector vol) k 2) as [E1 E2]; [lia|lia|lia|lia|].
  pose proof (ts_poke16 _ _ _ _ k x Hts ltac:(lia) ltac:(lia) ltac:(lia)) as H1.
  pose proof (ts_poke16 _ _ _ _ (k + 2) (x / 0x10000) H1 ltac:(lia) ltac:(lia) ltac:(lia)) as H2.
  rewrite E1, E2 in H2. unfold poke32. rewrite Z.shiftr_div_pow2 by lia.
  change (2 ^ 16) with 0x10000. eapply table_state_mono; [|eapply ts_ext; [|exact H2]].
  - simpl. tauto.
  - intros j Hj. cbv beta. rewrite Z.div_div by lia. change (0x10000 * 256) with 0x1000000.
    eqb_cases; try done. all: f_equal; f_equal; lia.
Qed.

(** ** The bit operations of the 12 bit case *)

Lemma byte_forall (P : Z -> bool) :
  forallb P (seqZ 0 256) = true -> forall b, is_byte b -> P b = true.
Proof.
  intros H b Hb. rewrite forallb_forall in H. apply H, list_elem_of_In, elem_of_seqZ.
  unfold is_byte in Hb. lia.
Qed.

Lemma land_f0 b : is_byte b -> Z.land b 0xf0 = b / 16 * 16.
Proof.
  intros Hb. apply Z.eqb_eq. revert b Hb. apply byte_forall. vm_compute. reflexivity.
Qed.

Lemma mask_low b w :
  is_byte b ->
  Z.lor (Z.land b 0xf) (Z.land (Z.shiftl w 4) 0xff) = b mod 16 + 16 * (w mod 16).
Proof.
  intros Hb. rewrite (land_ones_mod b 4), (land_ones_mod _ 8), Z.shiftl_mul_pow2 by lia.
  change (2 ^ 8) with (16 * 16). rewrite (Z.mul_comm w). change (2 ^ 4) with 16.
  rewrite Z.mul_mod_distr_l by lia. rewrite Z.lor_comm, (Z.mul_comm 16).
  change 16 with (2 ^ 4) at 2. rewrite lor_add by zlia. lia.
Qed.

Lemma mask_high b w :
  is_byte b -> 0 <= w < 0x1000 ->
  Z.lor (Z.land b 0xf0) (Z.shiftr w 8) = b / 16 * 16 + w / 256.
Proof.
  intros Hb Hw. rewrite land_f0 by done. rewrite Z.shiftr_div_pow2 by lia.
  change (2 ^ 8) with 256. change 16 with (2 ^ 4) at 2. rewrite lor_add by zlia. lia.
Qed.

Lemma shift_nibble w : 0 <= w -> Z.shiftr (Z.shiftl w 4) 8 = w / 16.
Proof.
  intros. rewrite Z.shiftr_div_pow2, Z.shiftl_mul_pow2 by lia. zlia.
Qed.

Lemma flag_odd c : flag c 1 = Z.odd c.
Proof.
  unfold flag. rewrite (land_ones_mod c 1), odd_mod by lia. change (2 ^ 1) with 2.
  destruct (Z.eqb_spec (c mod 2) 0), (Z.eqb_spec (c mod 2) 1); zlia || done.
Qed.

Lemma marker_lor (v m k : Z) :
  0 <= k -> 0 <= v < 2 ^ k -> Z.lor v (m * 2 ^ k) = v + m * 2 ^ k.
Proof. intros. rewrite Z.lor_comm, lor_add by done. lia. Qed.

(** ** One entry *)

Definition at_entry (k : ictl) : Prop :=
  let vol := k_vol k in
  let o := entry_offset (fat_bits vol) (k_cluster k) in
  data_cluster vol (k_cluster k) /\
  k_sector k = fat_start vol + o / bytes_per_sector vol /\
  k_offset k = o mod bytes_per_sector vol /\
  k_block1 k = k_sector k.

(** The state after the entry of [k] was read, and written when the action
    writes: the position is that of the byte after the entry. *)
Definition entry_done (action : ioctl_action) (N : Z) (P : Z -> Prop) (k : ictl) (l : loop ictl ictl) : Prop :=
  let vol := k_vol k in
  let c := k_cluster k in
  let value := if decide (action = IOCTL_SET_ENTRY) then k_value k else entry vol c in
  exists v sector offset,
    l = Cont (Ictl v c sector offset sector value (k_result k) (k_n k) (k_first k) (k_last k)) /\
    fat_start vol <= sector < fat_start vol + sectors_per_fat vol /\
    0 <= offset <= bytes_per_sector vol /\
    (sector - fat_start vol) * bytes_per_sector vol + offset
      = entry_offset (fat_bits vol) (c + 1) /\
    if writes_entry action value
    then table_state vol (table_set (fat_bits vol) (fat_byte vol) c (endOfChainMarker action N))
           (fun s => P s \/ s = sector - fat_start vol) v
    else v = vol.

Section Entry.
Context (action : ioctl_action) (N : Z) (k : ictl).
Let vol := k_vol k.
Let c := k_cluster k.
Let bps := bytes_per_sector vol.
Let o := entry_offset (fat_bits vol) c.
Context (P : Z -> Prop) (Hok : fat_ok vol) (Hm : mirrored_but P vol) (Hat : at_entry k).

Lemma entry_pos_eq :
  k_vol k = vol /\ k_cluster k = c /\ k_sector k = fat_start vol + o / bps /\
  k_offset k = o mod bps /\ k_block1 k = fat_start vol + o / bps.
Proof using Hat. destruct Hat as (_ & H1 & H2 & H3). rewrite H3, H1. done. Qed.

(** The value read by the 12 bit case, from the two bytes of the entry. *)
Lemma value12 b0 b1 :
  is_byte b0 -> is_byte b1 ->
  fat12_value (Z.odd c) b0 b1
  = norm_entry 12 (let v := b0 + 0x100 * b1 in if Z.odd c then v / 16 else v).
Proof using.
  intros H0 H1. unfold is_byte in *. unfold norm_entry, fat12_value. eval_width.
  assert (E : (if Z.odd c then Z.shiftr (b0 + 256 * b1) 4 else Z.land (b0 + 256 * b1) 0xfff)
           = (if Z.odd c then (b0 + 256 * b1) / 16 else b0 + 256 * b1) mod 0x1000).
  { destruct (Z.odd c).
    - rewrite Z.shiftr_div_pow2 by lia. change (2 ^ 4) with 16. zlia.
    - by rewrite (land_ones_mod _ 12) by lia. }
  rewrite E. destruct (0xff0 <? _); [|done].
  change 0x0ffff000 with (0xffff * 2 ^ 12). apply marker_lor; [lia|]. apply Z.mod_pos_bound. lia.
Qed.

(** Where the two bytes of a 12 bit entry are. *)
Record pos12 (crosses : bool) : Prop := {
  p12_cross : crosses = (o mod bps =? bps - 1);
  p12_next : if crosses then (o + 1) / bps = o / bps + 1 /\ (o + 1) mod bps = 0
             else (o + 1) / bps = o / bps /\ (o + 1) mod bps = o mod bps + 1;
  p12_range : 0 <= o /\ o + 1 < fat_size vol;
  p12_first : 0 <= o / bps < sectors_per_fat vol /\ 0 <= o mod bps < bps;
  p12_second : 0 <= (o + 1) / bps < sectors_per_fat vol /\ 0 <= (o + 1) mod bps < bps
}.

Lemma pos12_of : fat_bits vol = 12 -> pos12 (o mod bps =? bps - 1).
Proof using Hok Hat.
  intros Hbits.
  assert (Hc : data_cluster vol c) by apply Hat.
  pose proof (entry_in_table vol (ok_geo _ Hok) c Hc) as [Ho Ho'].
  fold o in Ho, Ho'. rewrite Hbits in Ho'. unfold entry_bytes in Ho'; simpl in Ho'.
  pose proof (geo_bps _ (ok_geo _ Hok)) as Hbps. fold bps in Hbps.
  split; [done|apply next_byte; lia|lia| |].
  - apply (sector_of_byte vol (ok_geo _ Hok)). lia.
  - apply (sector_of_byte vol (ok_geo _ Hok)). lia.
Qed.

Lemma store12 crosses :
  fat_bits vol = 12 -> pos12 crosses ->
  table_state vol (table_set 12 (fat_byte vol) c (endOfChainMarker action N))
    (fun s => P s \/ s = (o + 1) / bps)
    (fat12_store action N (Z.odd c) crosses (fat_start vol + (o + 1) / bps)
       (fat_start vol + o / bps) (o mod bps)
       (fat_start vol + (o + 1) / bps) ((o + 1) mod bps) vol).
Proof using Hok Hm.
  intros Hbits [Hcross Hnext Hr H1 H2]. unfold fat12_store.
  assert (Eo : entry_offset 12 c = o) by (subst o; by rewrite Hbits).
  set (m := endOfChainMarker action N).
  assert (Hw : 0 <= m mod 0x1000 < 0x1000) by (apply Z.mod_pos_bound; lia).
  rewrite (land_ones_mod m 12) by lia. change (2 ^ 12) with 0x1000.
  set (w := m mod 0x1000) in *.
  set (t0 := fat_byte vol). assert (Ht0 : forall j, is_byte (t0 j)) by (intros; by apply fat_byte_ok).
  set (am := if Z.odd c then 0xf else 0xf000). set (om := if Z.odd c then Z.shiftl w 4 else w).
  assert (Hfirst : Z.lor (Z.land (t0 o) (Z.land am 0xff)) (Z.land om 0xff)
                   = if Z.odd c then t0 o mod 16 + 16 * (w mod 16) else w mod 256).
  { subst am om. destruct (Z.odd c); [by apply mask_low|].
    change (Z.land 0xf000 0xff) with 0. rewrite Z.land_0_r, Z.lor_0_l.
    by rewrite (land_ones_mod w 8) by lia. }
  assert (Hsecond : Z.lor (Z.land (t0 (o + 1)) (Z.shiftr am 8)) (Z.shiftr om 8)
                    = if Z.odd c then w / 16 else t0 (o + 1) / 16 * 16 + w / 256).
  { subst am om. destruct (Z.odd c); [|by apply mask_high].
    change (Z.shiftr 0xf 8) with 0. rewrite Z.land_0_r, Z.lor_0_l. apply shift_nibble. lia. }
  pose proof (Ht0 o) as Hb0. pose proof (Ht0 (o + 1)) as Hb1.
  assert (Hham : 0 <= Z.land am 0xff /\ 0 <= Z.shiftr am 8)
    by (subst am; destruct (Z.odd c); split; vm_compute; discriminate).
  assert (Hbyte1 : is_byte (if Z.odd c then t0 o mod 16 + 16 * (w mod 16) else w mod 256))
    by (unfold is_byte; destruct (Z.odd c); zlia).
  assert (Hbyte2 : is_byte (if Z.odd c then w / 16 else t0 (o + 1) / 16 * 16 + w / 256))
    by (unfold is_byte in *; destruct (Z.odd c); zlia).
  pose proof (ts_rmw vol t0 P vol o (Z.land am 0xff) (Z.land om 0xff) _ _
                (table_state_init vol P Hok Hm) ltac:(lia) eq_refl eq_refl) as Hts.
  cbv zeta in Hts. rewrite Hfirst in Hts.
  specialize (Hts (is_byte_land _ _ Hb0 (proj1 Hham)) Hbyte1). fold bps in Hts.
  match type of Hts with table_state _ ?t _ ?v => set (t1 := t) in *; set (v2 := v) in * end.
  assert (Hts3 : table_state vol t1 (fun s => P s \/ s = (o + 1) / bps)
            (if crosses then mirror_fats v2 (u32 (fat_start vol + (o + 1) / bps - 1))
                               (fat_start vol + o / bps) else v2)).
  { destruct crosses; destruct Hnext as [En _].
    - pose proof (fat_start_range vol (ok_geo _ Hok)).
      rewrite En, u32_small by lia. replace (_ + (o / bps + 1) - 1) with (fat_start vol + o / bps) by lia.
      eapply table_state_mono; [|apply (ts_mirror_fats _ _ _ _ Hts); lia]. simpl. tauto.
    - rewrite En. eapply table_state_mono; [|apply Hts]. simpl. tauto. }
  match type of Hts3 with table_state _ _ _ ?v => set (v3 := v) in * end.
  assert (Ht1 : t1 (o + 1) = t0 (o + 1)).
  { subst t1. simpl. by rewrite (proj2 (Z.eqb_neq (o + 1) o)) by lia. }
  pose proof (ts_rmw vol t1 _ v3 (o + 1) (Z.shiftr am 8) (Z.shiftr om 8) _ _
                Hts3 ltac:(lia) eq_refl eq_refl) as Hts4.
  cbv zeta in Hts4. rewrite Ht1, Hsecond in Hts4.
  specialize (Hts4 (is_byte_land _ _ Hb1 (proj2 Hham)) Hbyte2).
  eapply table_state_mono; [|eapply ts_ext; [|exact Hts4]]; [intros s; cbv beta; try tauto|].
  intros j Hj. subst t1. cbv beta. unfold table_set. eval_width. rewrite Eo. fold t0 w.
  destruct (Z.eqb_spec j (o + 1)), (Z.eqb_spec j o); try lia; done.
Qed.

Lemma entry_done_12 : fat_bits vol = 12 -> entry_done action N P k (ioctl_fat12 action N k).
Proof using Hok Hm Hat.
  intros Hbits. unfold entry_done. destruct entry_pos_eq as (Ev & Ec & Es & Eo & Eb).
  pose proof (pos12_of Hbits) as Hp. pose proof (store12 _ Hbits Hp) as Hstore.
  destruct Hp as [_ Hnext Hr Hs0 Hs1].
  pose proof (fat_start_range vol (ok_geo _ Hok)) as Hst.
  unfold ioctl_fat12. rewrite Ev, Ec, Es, Eo, Eb, flag_odd. fold bps.
  assert (Hxs : forall b : bool, b = (o mod bps =? bps - 1) -> b = true -> o mod bps = bps - 1)
    by (intros ? -> ?%Z.eqb_eq; done).
  specialize (Hxs _ eq_refl). set (crosses := o mod bps =? bps - 1) in *.
  assert (Hsec : (if crosses then u32 (fat_start vol + o / bps + 1) else fat_start vol + o / bps)
                 = fat_start vol + (o + 1) / bps).
  { destruct crosses; destruct Hnext as [-> _]; [|done]. rewrite u32_small; lia. }
  assert (Hget : (if crosses then block_cache_get vol (u32 (fat_start vol + o / bps + 1))
                  else Some (fat_start vol + o / bps)) = Some (fat_start vol + (o + 1) / bps)).
  { rewrite <-Hsec. destruct crosses; [|done]. apply get_readable. rewrite Hsec.
    apply fat_readable, sector_in_fats; [done|apply Hok|lia]. }
  assert (Hoff2 : (if crosses then 0 else o mod bps + 1) = (o + 1) mod bps).
  { destruct crosses; destruct Hnext as [_ ->]; done. }
  rewrite Hget, Hsec, Hoff2. clear Hget.
  assert (Hval : fat12_value (Z.odd c) (peek vol (fat_start vol + o / bps) (o mod bps))
                   (peek vol (fat_start vol + (o + 1) / bps) ((o + 1) mod bps)) = entry vol c).
  { rewrite value12 by apply peek_byte, Hok. unfold entry, entry_of. fold o.
    rewrite Hbits. eval_width. unfold fat_byte. fold bps. subst o. by rewrite Hbits. }
  rewrite Hval. eexists _, _, _. split; [reflexivity|].
  split; [lia|]. pose proof (geo_bps _ (ok_geo _ Hok)) as Hbps. fold bps in Hbps.
  pose proof (Z.div_mod o bps ltac:(lia)) as Edm. pose proof (odd_mod c) as Hodd.
  assert (Hon : entry_offset 12 (c + 1) = o + (if Z.odd c then 2 else 1)).
  { subst o. rewrite Hbits, Hodd. unfold entry_offset. destruct (Z.eqb_spec (c mod 2) 1); zlia. }
  split_and!.
  - destruct crosses, (Z.odd c); destruct Hnext; lia.
  - destruct crosses, (Z.odd c); destruct Hnext; lia.
  - rewrite Hbits, Hon. replace (fat_start vol + (o + 1) / bps - fat_start vol)
      with ((o + 1) / bps) by lia.
    destruct crosses; destruct Hnext as [-> _]; [specialize (Hxs eq_refl)|];
      destruct (Z.odd c); nia.
  - fold vol c. rewrite Hbits. destruct (writes_entry _ _); [|done].
    eapply table_state_mono; [|apply Hstore]. cbv beta. intros s [?|?]; [by left|right; lia].
Qed.

(** The 16 and 32 bit entries of width [w] bytes. *)
Lemma aligned_pos w :
  fat_bits vol = 8 * w -> w = 2 \/ w = 4 ->
  o = w * c /\ 0 <= o /\ o + w <= fat_size vol /\ o mod bps + w <= bps /\
  0 <= o / bps < sectors_per_fat vol /\ 0 < bps /\
  entry_offset (fat_bits vol) (c + 1) = o + w.
Proof using Hok Hat.
  intros Hbits Hw. assert (Hc : data_cluster vol c) by apply Hat.
  pose proof (entry_in_table vol (ok_geo _ Hok) c Hc) as [Ho Ho']. fold o in Ho, Ho'.
  assert (Eo : o = w * c) by (subst o; unfold entry_offset; rewrite Hbits; zlia).
  assert (Hwb : entry_bytes (fat_bits vol) = w)
    by (unfold entry_bytes; rewrite Hbits; destruct Hw as [->| ->]; done).
  pose proof (aligned_fits vol w c (w - 1) (ok_geo _ Hok) Hw ltac:(lia)) as Hfit.
  rewrite <-Eo in Hfit. fold bps in Hfit.
  pose proof (sector_of_byte vol (ok_geo _ Hok) o ltac:(lia)) as [Hs _].
  pose proof (geo_bps _ (ok_geo _ Hok)) as Hbps. fold bps in Hbps, Hs.
  split_and!; try lia. unfold entry_offset. rewrite Hbits, Eo. zlia.
Qed.

(** A byte of the entry, read through the block pointer. *)
Lemma byte_in_block i w :
  o + w <= fat_size vol -> 0 <= o -> 0 < bps -> o mod bps + w <= bps -> 0 <= i < w ->
  byte_at (block_data vol (fat_start vol + o / bps)) (o mod bps + i) = fat_byte vol (o + i).
Proof using.
  intros. unfold fat_byte, peek. fold bps.
  destruct (same_sector bps o i) as [-> ->]; (lia || done).
Qed.

Lemma entry_done_aligned w value v' :
  fat_bits vol = 8 * w -> w = 2 \/ w = 4 ->
  value = (if decide (action = IOCTL_SET_ENTRY) then k_value k else entry vol c) ->
  (if writes_entry action value
   then table_state vol (table_set (fat_bits vol) (fat_byte vol) c (endOfChainMarker action N))
          (fun s => P s \/ s = o / bps) v' else v' = vol) ->
  entry_done action N P k
    (Cont (set_k_offset (k_offset k + w) (set_k_value value (set_k_vol v' k)))).
Proof using Hok Hat.
  intros Hbits Hw Hval Hv. destruct (aligned_pos w Hbits Hw) as (Eo & H0 & H1 & H2 & H3 & H4 & H5).
  destruct entry_pos_eq as (Ev & Ec & Es & Eoff & Eb). unfold entry_done. fold vol c.
  exists v', (k_sector k), (k_offset k + w). rewrite <-Hval, Eoff, Es, H5.
  pose proof (Z.mod_pos_bound o bps H4). pose proof (Z.div_mod o bps ltac:(lia)).
  fold bps. split_and!; try lia.
  - unfold set_k_offset, set_k_pos; simpl. by rewrite Ec, Es, Eb.
  - destruct (writes_entry _ _); [|done].
    eapply table_state_mono; [|exact Hv]. cbv beta. intros s [?|?]; [by left|right; lia].
Qed.

Lemma entry_done_16 : fat_bits vol = 16 -> entry_done action N P k (ioctl_fat16 action N k).
Proof using Hok Hm Hat.
  intros Hbits.
  destruct (aligned_pos 2 Hbits ltac:(lia)) as (Eo & H0 & H1 & H2 & H3 & H4 & H5).
  destruct entry_pos_eq as (Ev & Ec & Es & Eoff & Eb).
  apply (entry_done_aligned 2); [done|lia| |].
  - case_decide; [done|]. rewrite Ev, Eb, Eoff. unfold entry, entry_of. fold o vol. rewrite Hbits.
    eval_width. unfold read16. rewrite <-(Z.add_0_r (o mod bps)) at 1.
    rewrite !(byte_in_block _ 2), Z.add_0_r by lia.
    pose proof (fat_byte_ok vol o Hok) as Hb0. pose proof (fat_byte_ok vol (o + 1) Hok) as Hb1.
    unfold is_byte in *. unfold norm_entry. eval_width.
    rewrite (Z.mod_small (fat_byte vol o + _)) by lia. case_match; [|done].
    change 0x0fff0000 with (0xfff * 2 ^ 16). apply marker_lor; lia.
  - destruct (writes_entry _ _); [|done]. rewrite Ev, Eb, Eoff, Hbits.
    pose proof (ts_poke16 _ _ _ _ o (u16 (endOfChainMarker action N))
                  (table_state_init vol P Hok Hm) ltac:(lia) ltac:(fold bps; lia)
                  ltac:(fold bps; lia)) as Hts.
    eapply table_state_mono; [|eapply ts_ext; [|exact Hts]]; [intros s; cbv beta; try tauto|].
    intros j Hj. unfold table_set. eval_width. replace (entry_offset 16 c) with o
      by (subst o; by rewrite Hbits). unfold u16. eqb_cases; zlia.
Qed.

Lemma entry_done_32 : fat_bits vol = 32 -> entry_done action N P k (ioctl_fat32 action N k).
Proof using Hok Hm Hat.
  intros Hbits.
  destruct (aligned_pos 4 Hbits ltac:(lia)) as (Eo & H0 & H1 & H2 & H3 & H4 & H5).
  destruct entry_pos_eq as (Ev & Ec & Es & Eoff & Eb).
  apply (entry_done_aligned 4); [done|lia| |].
  - case_decide; [done|]. rewrite Ev, Eb, Eoff. unfold entry, entry_of. fold o vol. rewrite Hbits.
    eval_width. unfold read32. rewrite <-(Z.add_0_r (o mod bps)) at 1.
    rewrite !(byte_in_block _ 4), Z.add_0_r by lia.
    unfold norm_entry. eval_width. by rewrite (land_ones_mod _ 28) by lia.
  - destruct (writes_entry _ _); [|done]. rewrite Ev, Eb, Eoff, Hbits.
    pose proof (ts_poke32 _ _ _ _ o (endOfChainMarker action N)
                  (table_state_init vol P Hok Hm) ltac:(lia) ltac:(fold bps; lia)
                  ltac:(fold bps; lia)) as Hts.
    eapply table_state_mono; [|eapply ts_ext; [|exact Hts]]; [intros s; cbv beta; try tauto|].
    intros j Hj. unfold table_set. eval_width. replace (entry_offset 32 c) with o
      by (subst o; by rewrite Hbits). done.
Qed.

Lemma ioctl_entry_done : entry_done action N P k (ioctl_entry action N k).
Proof using Hok Hm Hat.
  unfold ioctl_entry. destruct (geo_bits _ (ok_geo _ Hok)) as [Hb|[Hb|Hb]];
    change (k_vol k) with vol; rewrite Hb; eval_width.
  - by apply entry_done_12.
  - by apply entry_done_16.
  - change (32 =? 32) with true. by apply entry_done_32.
Qed.
End Entry.
