(* ===== verification/FatTable.v ===== *)
(** The file allocation table as a map from clusters to entries: what each
    action of [_fat_ioctl_] does to that map, on tables of every width. *)
From stdpp Require Import base gmap list.
From Stdlib Require Import ZArith Lia.
From S2P Require Import Prelude Errors Volume Fat FatEntry FatIoctl.

Implicit Types vol v : nspace.

(** ** The order in which the loop visits the clusters *)

Definition next_cluster (b : bpb) (c : Z) : Z := if c + 1 =? total_clusters b + 2 then 2 else c + 1.

(** The cluster the loop stands at after [i] rounds from [c]. *)
Definition nth_cluster (b : bpb) (c i : Z) : Z := 2 + (c - 2 + i) mod total_clusters b.

Lemma next_cluster_data b c : 0 < total_clusters b -> data_cluster b c -> data_cluster b (next_cluster b c).
Proof. unfold data_cluster, next_cluster. destruct (Z.eqb_spec (c + 1) (total_clusters b + 2)); lia. Qed.

Lemma nth_cluster_0 b c : data_cluster b c -> nth_cluster b c 0 = c.
Proof. unfold data_cluster, nth_cluster. intros. rewrite Z.mod_small; lia. Qed.

Lemma nth_cluster_data b c i : 0 < total_clusters b -> data_cluster b (nth_cluster b c i).
Proof.
  unfold data_cluster, nth_cluster. intros H.
  pose proof (Z.mod_pos_bound (c - 2 + i) (total_clusters b) H). lia.
Qed.

Lemma nth_cluster_next b c i :
  0 < total_clusters b -> next_cluster b (nth_cluster b c i) = nth_cluster b c (i + 1).
Proof.
  intros H. unfold next_cluster, nth_cluster. set (T := total_clusters b) in *.
  rewrite Z.add_assoc, <-(Z.add_mod_idemp_l (c - 2 + i)) by lia.
  pose proof (Z.mod_pos_bound (c - 2 + i) T H) as Hm. set (m := (c - 2 + i) mod T) in *.
  destruct (Z.eqb_spec (2 + m + 1) (T + 2)).
  - replace (m + 1) with T by lia. by rewrite Z.mod_same by lia.
  - rewrite (Z.mod_small (m + 1)); lia.
Qed.

(** One lap visits every cluster once. *)
Lemma nth_cluster_inj b c i j :
  0 < total_clusters b -> 0 <= i < total_clusters b -> 0 <= j < total_clusters b ->
  nth_cluster b c i = nth_cluster b c j -> i = j.
Proof.
  unfold nth_cluster. set (T := total_clusters b). intros H Hi Hj E.
  assert (Em : (c - 2 + i) mod T = (c - 2 + j) mod T) by lia. clear E.
  pose proof (Z.div_mod (c - 2 + i) T ltac:(lia)) as Hi'.
  pose proof (Z.div_mod (c - 2 + j) T ltac:(lia)) as Hj'. rewrite Em in Hi'.
  revert Hi' Hj'. generalize ((c - 2 + i) / T) as a, ((c - 2 + j) / T) as d. intros a d Ha Hd.
  assert (a = d) as -> by (destruct (Z.lt_trichotomy a d) as [|[|]]; nia). lia.
Qed.

(** ** Positions *)

Definition past_entry (k : ictl) : Prop :=
  let vol := k_vol k in
  data_cluster vol (k_cluster k) /\
  fat_start vol <= k_sector k < fat_start vol + sectors_per_fat vol /\
  0 <= k_offset k <= bytes_per_sector vol /\
  (k_sector k - fat_start vol) * bytes_per_sector vol + k_offset k
    = entry_offset (fat_bits vol) (k_cluster k + 1) /\
  k_block1 k = k_sector k.

Lemma div_mod_pos b q r x : 0 < b -> 0 <= r < b -> q * b + r = x -> x / b = q /\ x mod b = r.
Proof. intros Hb Hr <-. rewrite Z.add_comm, Z.div_add, Z.mod_add, Z.div_small, Z.mod_small by lia. lia. Qed.

Lemma get_entry_sector vol c :
  fat_ok vol -> data_cluster vol c ->
  let s := fat_start vol + entry_offset (fat_bits vol) c / bytes_per_sector vol in
  block_cache_get vol s = Some s /\ u32 s = s.
Proof.
  intros Hok Hc s. pose proof (entry_in_table vol (ok_geo _ Hok) c Hc) as [H0 H1].
  assert (H2 : entry_offset (fat_bits vol) c < fat_size vol)
    by (unfold entry_bytes in H1; destruct (_ =? 32); lia).
  split.
  - apply get_readable, fat_readable, sector_in_fats; [done|apply Hok|lia].
  - pose proof (fat_start_range vol (ok_geo _ Hok)).
    pose proof (sector_of_byte vol (ok_geo _ Hok) (entry_offset (fat_bits vol) c)) as [Hs _]; [lia|].
    apply u32_small. subst s. lia.
Qed.

Lemma advance_spec k :
  fat_ok (k_vol k) -> past_entry k ->
  exists s o, ioctl_advance k = Cont (set_k_pos (next_cluster (k_vol k) (k_cluster k)) s o s k) /\
    at_entry (set_k_pos (next_cluster (k_vol k) (k_cluster k)) s o s k).
Proof.
  intros Hok (Hc & Hs & Ho & Hpos & Hb). set (vol := k_vol k) in *. set (c := k_cluster k) in *.
  pose proof (ok_geo _ Hok) as Hg. pose proof (max_cluster_small vol Hg).
  pose proof (geo_limit _ Hg) as Hl. pose proof (geo_bps _ Hg) as Hbps.
  pose proof (geo_bits _ Hg) as Hbits. pose proof (geo_total _ Hg) as Ht.
  pose proof (next_cluster_data vol c Ht Hc) as Hn.
  destruct (get_entry_sector vol _ Hok Hn) as [Hget Hsm].
  unfold at_entry, ioctl_advance. cbv zeta. fold vol c. simpl.
  unfold data_cluster in Hc. rewrite !(u32_small (total_clusters vol + 2)) by lia.
  rewrite (u32_small (c + 1)) by lia. unfold next_cluster in *.
  destruct (Z.eqb_spec (c + 1) (total_clusters vol + 2)) as [E|E]; simpl.
  - assert (Ho2 : u32 (2 * fat_bits vol) / 8 = entry_offset (fat_bits vol) 2)
      by (apply (entry_offset_u32 vol Hg); unfold data_cluster; lia).
    rewrite Ho2. assert (H2 : 0 <= entry_offset (fat_bits vol) 2 < bytes_per_sector vol)
      by (unfold entry_offset; destruct Hbits as [->|[->| ->]]; zlia).
    rewrite (proj2 (Z.leb_gt _ _)) by lia.
    rewrite Z.div_small, Z.add_0_r in Hget by lia. rewrite Hget.
    eexists _, _. split; [done|]. split_and!; fold vol; try done.
    + by rewrite Z.div_small, Z.add_0_r by lia.
    + by rewrite Z.mod_small by lia.
  - fold vol in Hpos. destruct (Z.leb_spec (bytes_per_sector vol) (k_offset k)) as [Hp|Hp]; simpl.
    + destruct (div_mod_pos (bytes_per_sector vol) (k_sector k - fat_start vol + 1) 0
                 (entry_offset (fat_bits vol) (c + 1))) as [Ed Em]; [lia|lia|nia|].
      rewrite Ed in *. replace (fat_start vol + (k_sector k - fat_start vol + 1))
        with (k_sector k + 1) in * by lia.
      rewrite Hsm, Hget. eexists _, _. split; [done|]. split_and!; fold vol; try done; lia.
    + destruct (div_mod_pos (bytes_per_sector vol) (k_sector k - fat_start vol) (k_offset k)
                 (entry_offset (fat_bits vol) (c + 1))) as [Ed Em]; [lia|lia|nia|].
      rewrite Ed in *. rewrite Hb. eexists _, _. split; [done|]. split_and!; fold vol; try done; lia.
Qed.

Lemma start_position vol c value result n first last :
  fat_ok vol -> data_cluster vol c ->
  let o := entry_offset (fat_bits vol) c in
  let s := fat_start vol + o / bytes_per_sector vol in
  at_entry (Ictl vol c s (o mod bytes_per_sector vol) s value result n first last).
Proof. intros Hok Hc. by split_and!. Qed.

(** ** Entries *)

Lemma norm_entry_range bits x :
  bits = 12 \/ bits = 16 \/ bits = 32 -> 0 <= norm_entry bits x < 2 ^ 28.
Proof.
  intros [->|[->| ->]]; unfold norm_entry; eval_width; [| |zlia].
  - pose proof (Z.mod_pos_bound x 0x1000). destruct (0xff0 <? _); lia.
  - pose proof (Z.mod_pos_bound x 0x10000). destruct (0xfff0 <? _); lia.
Qed.

(** A link is read back as it was stored: the purpose of [max_cluster]. *)
Lemma norm_entry_link vol c :
  geometry_ok vol -> 0 <= c < total_clusters vol + 2 -> norm_entry (fat_bits vol) (u32 c) = c.
Proof.
  intros Hg Hc. pose proof (max_cluster_small vol Hg). pose proof (geo_limit _ Hg) as Hl.
  rewrite u32_small by lia. unfold norm_entry, max_cluster in *.
  destruct (geo_bits _ Hg) as [Hb|[Hb|Hb]]; rewrite Hb in *;
    [change (12 =? 12) with true in *|change (16 =? 12) with false in *; change (16 =? 16) with true in *
    |change (32 =? 12) with false in *; change (32 =? 16) with false in *]; cbv beta iota zeta in *.
  - rewrite Z.mod_small by lia. by rewrite (proj2 (Z.ltb_ge _ _)) by lia.
  - rewrite Z.mod_small by lia. by rewrite (proj2 (Z.ltb_ge _ _)) by lia.
  - rewrite Z.mod_small; lia.
Qed.

Lemma entry_range vol c : geometry_ok vol -> 0 <= entry vol c < 2 ^ 28.
Proof. intros Hg. apply norm_entry_range, Hg. Qed.

Lemma fat_byte_set_free x vol : fat_byte (set_free_clusters x vol) = fat_byte vol.
Proof. done. Qed.

(** ** The abstract table

    [fat_is vol f v]: [v] is [vol] with a table whose data entries are [f],
    and nothing else changed but the free count and the allocation hint. *)
Record fat_is (vol : nspace) (f : Z -> Z) (v : nspace) : Prop := {
  fi_ok : fat_ok v;
  fi_frame : fat_frame vol v;
  fi_mirror : forall P, mirrored_but P vol -> mirrored_but P v;
  fi_entry : forall c, data_cluster vol c -> entry v c = f c
}.

Definition fat_upd (f : Z -> Z) (c x : Z) : Z -> Z := fun c' => if c' =? c then x else f c'.

Lemma fat_is_refl vol : fat_ok vol -> fat_is vol (entry vol) vol.
Proof. by split. Qed.

Lemma fat_is_ext vol f g v :
  (forall c, data_cluster vol c -> f c = g c) -> fat_is vol f v -> fat_is vol g v.
Proof. intros H [? ? ? He]. split; try done. intros. rewrite He, H; done. Qed.

Lemma fat_is_bpb vol f v : fat_is vol f v -> ns_bpb v = ns_bpb vol.
Proof. intros H. apply fat_frame_bpb, H. Qed.

Lemma fat_is_trans vol f v g w : fat_is vol f v -> fat_is v g w -> fat_is vol g w.
Proof.
  intros H [Hok Hf Hm He]. split; [done|transitivity v; [apply H|done]| |].
  - intros P HP. apply Hm, H, HP.
  - intros c Hc. apply He. by rewrite (fat_is_bpb _ _ _ H).
Qed.

Lemma fat_is_free vol f v x : fat_is vol f v -> fat_is vol f (set_free_clusters x v).
Proof.
  intros [? Hf Hm He]. split; [by apply fat_ok_free| |done|done].
  transitivity v; [done|apply fat_frame_free].
Qed.
Lemma fat_is_last vol f v x : fat_is vol f v -> fat_is vol f (set_last_allocated x v).
Proof.
  intros [? Hf Hm He]. split; [by apply fat_ok_last| |done|done].
  transitivity v; [done|apply fat_frame_last].
Qed.
#[export] Hint Resolve fat_is_refl fat_is_free fat_is_last fi_ok : haiku.

(** ** The single-entry actions *)

Lemma entry_of_table vol t P v c :
  fat_ok vol -> table_state vol t P v -> data_cluster vol c -> entry v c = entry_of (fat_bits vol) t c.
Proof.
  intros Hok Hts Hc. unfold entry. rewrite (table_state_bpb _ _ _ _ Hts).
  pose proof (entry_in_table vol (ok_geo _ Hok) c Hc).
  apply entry_of_ext; [apply Hok|]. intros j Hj. apply (ts_bytes _ _ _ _ Hts). lia.
Qed.

(** The state after the entry of [c] was written and its sector mirrored. *)
Lemma fat_is_written vol c x s v :
  fat_ok vol -> data_cluster vol c ->
  fat_start vol <= s < fat_start vol + sectors_per_fat vol ->
  (forall P, mirrored_but P vol ->
     table_state vol (table_set (fat_bits vol) (fat_byte vol) c x)
       (fun t => P t \/ t = s - fat_start vol) v) ->
  fat_is vol (fat_upd (entry vol) c (norm_entry (fat_bits vol) x)) (mirror_fats v s s) /\
  exists k, mirror_fats v s s = set_fBlockCache k vol.
Proof.
  intros Hok Hc Hs Hv.
  assert (Hmir : forall P, mirrored_but P vol ->
    table_state vol (table_set (fat_bits vol) (fat_byte vol) c x) P (mirror_fats v s s)).
  { intros P HP. replace s with (fat_start vol + (s - fat_start vol)) by lia.
    eapply table_state_mono; [|apply (ts_mirror_fats _ _ _ _ (Hv _ HP)); lia]. cbv beta. tauto. }
  pose proof (Hmir (fun _ => True)) as Hts. specialize (Hts ltac:(by intros _ t _ [])).
  split; [split|].
  - apply Hts.
  - apply (table_state_frame _ _ _ _ Hts).
  - intros P HP. apply (Hmir P HP).
  - intros c' Hc'. rewrite (entry_of_table vol _ _ _ c' Hok Hts Hc').
    unfold data_cluster in *. unfold fat_upd. destruct (Z.eqb_spec c' c) as [->|Hne].
    + apply entry_of_set_eq; [apply Hok|intros; by apply fat_byte_ok|lia].
    + apply entry_of_set_ne; [apply Hok|intros; by apply fat_byte_ok|lia|lia|lia].
  - destruct Hts as [(k & -> & _) _ _ _]. by exists k.
Qed.

Section One.
Context (vol : nspace) (Hok : fat_ok vol) (c : Z) (Hc : data_cluster vol c).

Lemma IS_DATA_CLUSTER_c : IS_DATA_CLUSTER vol c = true.
Proof using Hok Hc.
  apply IS_DATA_CLUSTER_true; [apply Hok| |done]. unfold data_cluster in Hc.
  pose proof (geo_limit _ (ok_geo _ Hok)). pose proof (max_cluster_small vol (ok_geo _ Hok)). lia.
Qed.

(** Every action but the counting one starts at the entry of its cluster. *)
Lemma body_at_entry set_entry clear action N :
  action = IOCTL_GET_ENTRY \/ action = IOCTL_SET_ENTRY ->
  exists k, at_entry k /\ k = Ictl vol c (k_sector k) (k_offset k) (k_block1 k) 0 0 0 0 0 /\
    fat_ioctl_body set_entry clear action N vol c =
    ioctl_finish clear action N (loop_end
      (z_loop (ioctl_step set_entry action N) (total_clusters vol) k)).
Proof using Hok Hc.
  intros Ha. destruct (get_entry_sector vol c Hok Hc) as [Hg Hs].
  eexists. split; [by apply (start_position vol c 0 0 0 0 0 Hok Hc)|]. split; [done|].
  unfold fat_ioctl_body.
  destruct Ha as [-> | ->]; rewrite (bool_decide_eq_false_2 (_ = IOCTL_COUNT_FREE)) by done;
    cbv beta iota zeta delta [andb negb];
    by rewrite IS_DATA_CLUSTER_c, (entry_offset_u32 vol (ok_geo _ Hok) c Hc), Hs, Hg.
Qed.

Lemma body_get set_entry clear N :
  fat_ioctl_body set_entry clear IOCTL_GET_ENTRY N vol c = (entry vol c, vol).
Proof using Hok Hc.
  destruct (body_at_entry set_entry clear IOCTL_GET_ENTRY N) as (k & Hk & Ek & ->); [by left|].
  rewrite z_loop_step by apply Hok. unfold ioctl_step.
  assert (Ev : k_vol k = vol) by by rewrite Ek.
  destruct (ioctl_entry_done IOCTL_GET_ENTRY N k (fun _ => True)) as (v & s & o & -> & _ & _ & _ & Hv);
    [by rewrite Ev|by intros _ t _ []|done|].
  rewrite (decide_False (P := IOCTL_GET_ENTRY = _)) in * by done. unfold writes_entry in Hv. simpl in Hv. subst v.
  simpl. unfold ioctl_finish. simpl. rewrite Ev, Ek. simpl. f_equal.
  apply i32_small. pose proof (entry_range vol c (ok_geo _ Hok)). lia.
Qed.

(** Setting an entry changes that entry only, in every copy of the table. *)
Lemma body_set set_entry clear N :
  exists v, fat_ioctl_body set_entry clear IOCTL_SET_ENTRY N vol c = (B_OK, v) /\
    fat_is vol (fat_upd (entry vol) c (norm_entry (fat_bits vol) (u32 N))) v /\
    exists k, v = set_fBlockCache k vol.
Proof using Hok Hc.
  destruct (body_at_entry set_entry clear IOCTL_SET_ENTRY N) as (k & Hk & Ek & ->); [by right|].
  rewrite z_loop_step by apply Hok. unfold ioctl_step.
  assert (Ev : k_vol k = vol) by by rewrite Ek.
  assert (Ec : k_cluster k = c) by by rewrite Ek.
  assert (Ek0 : k_value k = 0) by by rewrite Ek.
  pose proof (fun P HP => ioctl_entry_done IOCTL_SET_ENTRY N k P (eq_ind_r _ Hok Ev) HP Hk) as Hd.
  unfold entry_done in Hd. rewrite Ev, Ec in Hd. simpl in Hd. rewrite Ek0 in Hd.
  destruct (Hd (fun _ => True)) as (v & s & o & E & Hs & _ & _ & _); [by intros _ t _ []|].
  rewrite E in Hd |- *. simpl. unfold ioctl_finish. simpl.
  eexists. split; [by rewrite Ek|].
  apply fat_is_written; [done|done|done|]. intros P HP.
  destruct (Hd P HP) as (v' & s' & o' & E' & _ & _ & _ & Hts).
  injection E' as <- <- _. exact Hts.
Qed.
End One.

(** ** Reading, writing and counting entries: [get_fat_entry], [set_fat_entry] and
    [count_free_clusters] as operations on the abstract table, and their error
    results *)

(** How [get_fat_entry] reports an entry: free, the next cluster of a chain,
    the end of one, or a bad cluster. *)
Definition classify (vol : nspace) (x : Z) : Z :=
  if (x =? 0) || IS_DATA_CLUSTER vol x then x
  else if 0x0ffffff7 <? x then END_FAT_ENTRY else BAD_FAT_ENTRY.

Definition next_in (vol : nspace) (c : Z) : Z := classify vol (entry vol c).

Lemma classify_bpb vol v x : ns_bpb v = ns_bpb vol -> classify v x = classify vol x.
Proof. intros E. unfold classify, IS_DATA_CLUSTER. by rewrite E. Qed.

Lemma classify_data vol x : geometry_ok vol -> data_cluster vol x -> classify vol x = x.
Proof.
  intros Hg Hx. unfold classify. pose proof (data_cluster_bound vol Hg x Hx).
  pose proof (max_cluster_small vol Hg).
  rewrite (proj2 (IS_DATA_CLUSTER_true vol Hg x ltac:(lia)) Hx). by rewrite orb_true_r.
Qed.

Lemma classify_range vol x : 0 <= x < 2 ^ 28 -> 0 <= classify vol x < 2 ^ 28.
Proof.
  intros Hx. unfold classify, END_FAT_ENTRY, BAD_FAT_ENTRY.
  destruct (_ || _); [lia|]. destruct (_ <? _); lia.
Qed.

Lemma body_bad_cluster set_entry clear action N vol c :
  action = IOCTL_GET_ENTRY \/ action = IOCTL_SET_ENTRY -> IS_DATA_CLUSTER vol c = false ->
  fat_ioctl_body set_entry clear action N vol c = (B_BAD_VALUE, vol).
Proof. intros [-> | ->] Hc; unfold fat_ioctl_body; simpl; by rewrite Hc. Qed.

(** A sector that the block cache cannot deliver ends the call at once. *)
Lemma body_io_error set_entry clear action N vol c :
  action = IOCTL_GET_ENTRY \/ action = IOCTL_SET_ENTRY ->
  geometry_ok vol -> data_cluster vol c ->
  fBlockCache vol !! (fat_start vol + entry_offset (fat_bits vol) c / bytes_per_sector vol) = None ->
  fat_ioctl_body set_entry clear action N vol c = (B_IO_ERROR, vol).
Proof.
  intros Ha Hg Hc Hnone.
  pose proof (entry_in_table vol Hg c Hc) as [H0 H1]. pose proof (fat_start_range vol Hg).
  pose proof (data_cluster_bound vol Hg c Hc). pose proof (max_cluster_small vol Hg).
  assert (Hlt : entry_offset (fat_bits vol) c < fat_size vol)
    by (unfold entry_bytes in H1; destruct (_ =? 32); lia).
  pose proof (sector_of_byte vol Hg (entry_offset (fat_bits vol) c) ltac:(lia)) as [Hs _].
  unfold fat_ioctl_body.
  destruct Ha as [-> | ->]; rewrite (bool_decide_eq_false_2 (_ = IOCTL_COUNT_FREE)) by done;
    cbv beta iota zeta delta [andb negb];
    rewrite (proj2 (IS_DATA_CLUSTER_true vol Hg c ltac:(lia)) Hc), (entry_offset_u32 vol Hg c Hc);
    rewrite u32_small by lia; unfold block_cache_get; by rewrite Hnone.
Qed.

(** ** get_fat_entry and set_fat_entry *)

Lemma get_fat_entry_eq vol c : fat_ok vol -> data_cluster vol c -> get_fat_entry vol c = next_in vol c.
Proof.
  intros Hok Hc. unfold get_fat_entry, fat_ioctl0. rewrite body_get by done. simpl.
  pose proof (entry_range vol c (ok_geo _ Hok)).
  by rewrite (proj2 (Z.ltb_ge _ _)) by lia.
Qed.

Lemma get_fat_entry_range vol c :
  fat_ok vol -> data_cluster vol c -> 0 <= get_fat_entry vol c < 2 ^ 28.
Proof. intros. rewrite get_fat_entry_eq by done. by apply classify_range, entry_range, ok_geo. Qed.

Lemma set_fat_entry_eq vol c x :
  fat_ok vol -> data_cluster vol c ->
  exists v, set_fat_entry vol c x = (B_OK, v) /\
    fat_is vol (fat_upd (entry vol) c (norm_entry (fat_bits vol) (u32 x))) v /\
    exists k, v = set_fBlockCache k vol.
Proof. intros Hok Hc. by apply body_set. Qed.

(** ** Counting free clusters *)

Lemma count_step set_entry k :
  fat_ok (k_vol k) -> at_entry k ->
  exists k', ioctl_step set_entry IOCTL_COUNT_FREE 0 k = Cont k' /\ at_entry k' /\
    k_vol k' = k_vol k /\ k_cluster k' = next_cluster (k_vol k) (k_cluster k) /\
    k_result k' = k_result k + (if entry (k_vol k) (k_cluster k) =? 0 then 1 else 0).
Proof.
  intros Hok Hat. unfold ioctl_step.
  destruct (ioctl_entry_done IOCTL_COUNT_FREE 0 k (fun _ => True))
    as (v & s & o & -> & Hs & Ho & Hpos & Hv); [done|by intros _ t _ []|done|].
  rewrite (decide_False (P := IOCTL_COUNT_FREE = _)) in * by done.
  unfold writes_entry in Hv. simpl in Hv. subst v. simpl.
  set (k1 := if entry (k_vol k) (k_cluster k) =? 0 then _ else _).
  assert (Hk1 : k_vol k1 = k_vol k /\ k_cluster k1 = k_cluster k /\ past_entry k1 /\
      k_result k1 = k_result k + (if entry (k_vol k) (k_cluster k) =? 0 then 1 else 0)).
  { subst k1. destruct (entry _ _ =? 0); simpl; (split_and!; [done|done| |lia]);
      (split_and!; simpl; done || lia || apply Hat). }
  destruct Hk1 as (E1 & E2 & Hp & E4).
  destruct (advance_spec k1) as (s' & o' & -> & Hat'); [by rewrite E1|done|].
  eexists. split; [done|]. split; [done|]. simpl. by rewrite E1, E2, E4.
Qed.

Lemma count_free_12_16 vol :
  fat_ok vol -> fat_bits vol <> 32 ->
  count_free_clusters vol = count_zero (entry vol) 2 (total_clusters vol).
Proof.
  intros Hok Hbits. pose proof (geo_total _ (ok_geo _ Hok)) as Ht.
  unfold count_free_clusters, _fat_ioctl_, fat_ioctl_body.
  rewrite (proj2 (Z.eqb_neq _ _) Hbits). rewrite andb_false_r. cbv beta iota zeta.
  rewrite (bool_decide_eq_true_2 (IOCTL_COUNT_FREE = _)) by done. cbv beta iota delta [andb negb].
  assert (H2 : data_cluster vol 2) by (unfold data_cluster; lia).
  rewrite (entry_offset_u32 vol (ok_geo _ Hok) 2 H2).
  destruct (get_entry_sector vol 2 Hok H2) as [Hg Hs]. rewrite Hs, Hg.
  set (step := ioctl_step _ _ _). set (k0 := Ictl _ _ _ _ _ _ _ _ _ _).
  set (I := fun i k => at_entry k /\ k_vol k = vol /\ k_cluster k = nth_cluster vol 2 i /\
                       k_result k = count_zero (entry vol) 2 i).
  assert (Hloop : match z_loop step (total_clusters vol) k0 with
                  | Cont k => I (total_clusters vol) k | Brk _ => False end).
  { apply z_loop_inv; [lia| |].
    - split_and!; [by apply start_position|done|by rewrite nth_cluster_0|done].
    - intros i k Hi (Hat & Ev & Ec & Er). subst step.
      destruct (count_step (fun vol last c => fat_ioctl0 vol IOCTL_SET_ENTRY last c) k)
        as (k' & -> & Hat' & Ev' & Ec' & Er'); [by rewrite Ev|done|].
      split_and!; [done|by rewrite Ev'| |].
      + rewrite Ec', Ev, Ec. by apply nth_cluster_next.
      + rewrite Er', Er, Ev, Ec, count_zero_snoc by lia.
        replace (nth_cluster vol 2 i) with (2 + i); [done|].
        unfold nth_cluster. rewrite Z.mod_small; lia. }
  destruct (z_loop step _ _) as [k|k]; [|done]. apply Hloop.
Qed.

(** The 32 bit count reads whole sectors. *)
Lemma entry32_block vol i k :
  fat_ok vol -> fat_bits vol = 32 -> 0 <= i < sectors_per_fat vol ->
  0 <= k < bytes_per_sector vol / 4 ->
  Z.land (read32 (block_data vol (fat_start vol + i)) (4 * k)) 0x0fffffff
  = entry vol (i * (bytes_per_sector vol / 4) + k).
Proof.
  intros Hok Hb Hi Hk. pose proof (geo_bps_mod _ (ok_geo _ Hok)) as Hmod.
  pose proof (geo_bps _ (ok_geo _ Hok)) as Hbps. set (bps := bytes_per_sector vol) in *.
  assert (Hq : bps = 4 * (bps / 4)) by zlia. set (q := bps / 4) in *.
  rewrite (land_ones_mod _ 28) by lia. unfold entry, entry_of. rewrite Hb. eval_width.
  assert (Hoff : entry_offset 32 (i * q + k) = i * bps + 4 * k)
    by (unfold entry_offset; rewrite Hq; zlia).
  rewrite Hoff. unfold norm_entry. eval_width. unfold read32. f_equal.
  assert (E : forall j, 0 <= j < 4 ->
    fat_byte vol (i * bps + 4 * k + j) = byte_at (block_data vol (fat_start vol + i)) (4 * k + j)).
  { intros j Hj. unfold fat_byte, peek. fold bps.
    destruct (div_mod_pos bps i (4 * k + j) (i * bps + 4 * k + j)) as [-> ->]; [lia|lia|lia|done]. }
  pose proof (E 0 ltac:(lia)) as E0. rewrite !Z.add_0_r in E0.
  by rewrite <-E0, <-!E by lia.
Qed.

Lemma count_free_32 vol :
  fat_ok vol -> fat_bits vol = 32 ->
  count_free_clusters vol = count_zero (entry vol) 0 (fat_size vol / 4).
Proof.
  intros Hok Hb. unfold count_free_clusters, _fat_ioctl_, fat_ioctl_body.
  rewrite Hb. rewrite (bool_decide_eq_true_2 (IOCTL_COUNT_FREE = _)) by done.
  change (32 =? 32) with true. cbv beta iota delta [andb fst].
  pose proof (geo_bps_mod _ (ok_geo _ Hok)) as Hmod. pose proof (geo_bps _ (ok_geo _ Hok)) as Hbps.
  pose proof (geo_spf _ (ok_geo _ Hok)) as Hspf.
  pose proof (fat_start_range vol (ok_geo _ Hok)) as Hst.
  unfold _count_free_clusters_fat32. cbv zeta.
  set (q := bytes_per_sector vol / 4).
  assert (Hq : bytes_per_sector vol = 4 * q) by (subst q; zlia).
  set (body := fun s : Z * Z => _).
  set (I := fun i (s : Z * Z) => s = (count_zero (entry vol) 0 (i * q), fat_start vol + i)).
  assert (Hloop : match z_loop body (sectors_per_fat vol) (0, fat_start vol) with
                  | Cont s => I (sectors_per_fat vol) s | Brk _ => False end).
  { apply z_loop_inv; [lia|unfold I; by rewrite Z.add_0_r|].
    intros i s Hi ->. subst body. cbv beta iota.
    rewrite (get_readable vol) by (apply fat_readable, active_in_fats; [done|apply Hok|lia]).
    unfold I. rewrite foldl_count_zero by lia. f_equal; [|rewrite u32_small; lia].
    replace ((i + 1) * q) with (i * q + q) by lia. rewrite (count_zero_add _ _ (i * q)) by lia.
    f_equal. rewrite Z.add_0_l, (count_zero_shift _ (i * q)) by lia.
    apply count_zero_ext; [lia|]. intros c Hc. apply entry32_block; [done|done|lia|fold q; lia]. }
  destruct (z_loop body _ _) as [[c s]|]; [|done]. injection Hloop as -> _.
  replace (fat_size vol / 4) with (sectors_per_fat vol * q); [done|].
  unfold fat_size. rewrite Hq. rewrite (Z.mul_comm 4), Z.mul_assoc, Z.div_mul by lia. done.
Qed.
