(* ===== verification/FatChain.v ===== *)
(** Cluster chains: what it is to be one, and what [clear_fat_chain],
    [get_nth_fat_entry] and [count_clusters] do with a chain, a cycle or a
    chain that runs into a bad entry. *)
From stdpp Require Import base gmap list.
From Stdlib Require Import ZArith Lia.
From S2P Require Import Prelude Errors Volume Fat FatEntry FatIoctl FatTable.

Implicit Types vol v : nspace.

(** [chain vol c l e]: from [c] the entries lead through the data clusters
    [l] to [e]. *)
Inductive chain (vol : nspace) : Z -> list Z -> Z -> Prop :=
| chain_stop c : chain vol c [] c
| chain_link c l e :
    data_cluster vol c -> chain vol (next_in vol c) l e -> chain vol c (c :: l) e.

(** A terminated chain: it cannot go on from [e]. *)
Definition terminated (vol : nspace) (c : Z) (l : list Z) (e : Z) : Prop :=
  chain vol c l e /\ ~ data_cluster vol e.

Lemma chain_data vol c l e : chain vol c l e -> Forall (data_cluster vol) l.
Proof. induction 1; constructor; done. Qed.

Lemma chain_bpb_ext vol v c l e :
  ns_bpb v = ns_bpb vol -> Forall (fun x => entry v x = entry vol x) l ->
  chain vol c l e -> chain v c l e.
Proof.
  intros Hb Hl Hc. induction Hc as [c|c l e Hd Hc IH]; [constructor|].
  apply Forall_cons in Hl as [He Hl]. constructor.
  - unfold data_cluster. by rewrite Hb.
  - unfold next_in. rewrite (classify_bpb vol), He by done. by apply IH.
Qed.

Lemma chain_det vol c l e l' e' : terminated vol c l e -> terminated vol c l' e' -> l = l' /\ e = e'.
Proof.
  intros [Hc He] [Hc' He']. revert l' Hc'. induction Hc as [c|c l e Hd Hc IH]; intros l' Hc'.
  - inversion Hc'; subst; done.
  - inversion Hc' as [|? l2 ? Hd2 Hc2]; subst; [done|].
    by destruct (IH He l2 Hc2) as [-> ->].
Qed.

Lemma chain_split vol c l1 x l2 e : chain vol c (l1 ++ x :: l2) e -> chain vol x (x :: l2) e.
Proof.
  revert c. induction l1 as [|a l1 IH]; intros c; simpl.
  - inversion 1; subst. done.
  - inversion 1; subst. eauto.
Qed.

(** A terminated chain does not visit a cluster twice. *)
Lemma chain_nodup vol c l e : terminated vol c l e -> NoDup l.
Proof.
  intros [Hc He]. induction Hc as [c|c l e Hd Hc IH]; [constructor|].
  constructor; [|by apply IH]. intros (l1 & l2 & ->)%list_elem_of_split.
  assert (H1 : terminated vol c (c :: l2) e) by (split; [by eapply chain_split|done]).
  assert (H2 : terminated vol c (c :: l1 ++ c :: l2) e) by (split; [by constructor|done]).
  destruct (chain_det _ _ _ _ _ _ H1 H2) as [E _]. apply (f_equal length) in E.
  simpl in E. rewrite length_app in E. simpl in E. lia.
Qed.

Lemma clusters_bound vol l :
  0 < total_clusters vol -> NoDup l -> Forall (data_cluster vol) l ->
  Z.of_nat (length l) <= total_clusters vol.
Proof.
  intros Ht Hnd Hl. pose proof (length_seqZ 2 (total_clusters vol)) as Hs.
  enough (length l <= length (seqZ 2 (total_clusters vol)))%nat by lia.
  apply submseteq_length, NoDup_submseteq; [done|].
  intros x Hx. apply elem_of_seqZ. rewrite Forall_forall in Hl. specialize (Hl x Hx).
  unfold data_cluster in Hl. lia.
Qed.

Lemma chain_length vol c l e :
  0 < total_clusters vol -> terminated vol c l e -> Z.of_nat (length l) <= total_clusters vol.
Proof.
  intros Ht Hc. apply clusters_bound; [done|by eapply chain_nodup|].
  destruct Hc as [Hc _]. by eapply chain_data.
Qed.

Lemma next_in_range vol c : geometry_ok vol -> 0 <= next_in vol c < 2 ^ 28.
Proof. intros Hg. by apply classify_range, entry_range. Qed.

Lemma is_data_false vol c :
  geometry_ok vol -> c < 2 ^ 28 -> ~ data_cluster vol c -> IS_DATA_CLUSTER vol c = false.
Proof.
  intros Hg Hc Hn. apply not_true_is_false. intros H. apply Hn.
  by apply (IS_DATA_CLUSTER_true vol Hg c ltac:(lia)).
Qed.

Lemma is_data_true vol c : geometry_ok vol -> data_cluster vol c -> IS_DATA_CLUSTER vol c = true.
Proof.
  intros Hg Hc. pose proof (data_cluster_bound vol Hg c Hc). pose proof (max_cluster_small vol Hg).
  by apply (IS_DATA_CLUSTER_true vol Hg c ltac:(lia)).
Qed.

Lemma chain_end_range vol c l e :
  geometry_ok vol -> l <> [] -> chain vol c l e -> 0 <= e < 2 ^ 28.
Proof.
  intros Hg Hl Hc. destruct Hc as [|c l e Hd Hc]; [done|]. clear Hl.
  pose proof (next_in_range vol c Hg) as Hr. revert Hr. generalize dependent (next_in vol c).
  intros x Hx. induction Hx as [|x l e Hd' Hx IH]; [done|]. intros _.
  apply IH, next_in_range, Hg.
Qed.

(** ** clear_fat_chain *)

Lemma norm_entry_0 bits : norm_entry bits 0 = 0.
Proof. unfold norm_entry. destruct (_ =? 12); [done|]. by destruct (_ =? 16). Qed.

Lemma clear_step_data vol c :
  fat_ok vol -> data_cluster vol c ->
  exists v, clear_step (c, vol) = Cont (next_in vol c, v) /\
    fat_is vol (fat_upd (entry vol) c 0) v /\
    free_clusters v = u32 (free_clusters vol + 1) /\ last_allocated v = last_allocated vol.
Proof.
  intros Hok Hc. unfold clear_step. rewrite (is_data_true vol c (ok_geo _ Hok) Hc).
  pose proof (next_in_range vol c (ok_geo _ Hok)).
  rewrite (get_fat_entry_eq vol c Hok Hc). cbv beta iota zeta delta [negb].
  rewrite (proj2 (Z.ltb_ge _ _)) by lia.
  destruct (set_fat_entry_eq vol c 0 Hok Hc) as (v & -> & Hv & k & Ek). simpl.
  eexists. split; [done|]. change (u32 0) with 0 in Hv. rewrite norm_entry_0 in Hv.
  split_and!; [by apply fat_is_free|by rewrite Ek|by rewrite Ek].
Qed.

Lemma clear_step_stop vol c :
  geometry_ok vol -> c < 2 ^ 28 -> ~ data_cluster vol c -> clear_step (c, vol) = Brk (B_OK, vol).
Proof. intros Hg Hc Hn. unfold clear_step. by rewrite is_data_false. Qed.

(** The table with the clusters of [l] freed. *)
Definition freed (f : Z -> Z) (l : list Z) : Z -> Z := fun c => if decide (c ∈ l) then 0 else f c.

Lemma freed_cons f a l x : freed f (a :: l) x = if x =? a then 0 else freed f l x.
Proof.
  unfold freed. destruct (Z.eqb_spec x a) as [->|Hne].
  - by rewrite decide_True by apply list_elem_of_here.
  - destruct (decide (x ∈ l)) as [Hx|Hx].
    + by rewrite decide_True by by apply list_elem_of_further.
    + rewrite decide_False; [done|]. by intros [?|?]%elem_of_cons.
Qed.

Lemma u32_add_u32 a b : u32 (u32 a + b) = u32 (a + b).
Proof. unfold u32. by rewrite Z.add_mod_idemp_l by lia. Qed.

Lemma clear_loop vol c l e n :
  fat_ok vol -> terminated vol c l e -> e < 2 ^ 28 -> Z.of_nat (length l) < n ->
  exists v, z_loop clear_step n (c, vol) = Brk (B_OK, v) /\ fat_is vol (freed (entry vol) l) v /\
    free_clusters v = (if decide (l = []) then free_clusters vol
                       else u32 (free_clusters vol + Z.of_nat (length l))) /\
    last_allocated v = last_allocated vol.
Proof.
  intros Hok Ht Her. pose proof (chain_nodup _ _ _ _ Ht) as Hnd. destruct Ht as [Hc He].
  revert vol Hok n c Hc He. induction l as [|a l IH]; intros vol Hok n c Hc He Hn.
  - inversion Hc; subst. rewrite z_loop_step by lia.
    rewrite clear_step_stop by (done || apply Hok).
    eexists. split_and!; [done| |done|done].
    eapply fat_is_ext; [|by apply fat_is_refl]. intros. unfold freed.
    by rewrite decide_False by apply not_elem_of_nil.
  - inversion Hc as [|? ? ? Hd Hc']; subst. apply NoDup_cons in Hnd as [Ha Hnd].
    rewrite z_loop_step by (simpl in Hn; lia).
    destruct (clear_step_data vol a Hok Hd) as (v & -> & Hv & Hf & Hl).
    pose proof (fat_is_bpb _ _ _ Hv) as Eb.
    destruct (IH Hnd v (fi_ok _ _ _ Hv) (n - 1) (next_in vol a)) as (v' & -> & Hv' & Hf' & Hl').
    + apply (chain_bpb_ext vol); [done| |done]. apply Forall_forall. intros x Hx.
      pose proof (chain_data _ _ _ _ Hc') as Hall. rewrite Forall_forall in Hall.
      rewrite (fi_entry _ _ _ Hv) by auto. unfold fat_upd.
      destruct (Z.eqb_spec x a); [by subst|done].
    + unfold data_cluster. by rewrite Eb.
    + simpl in Hn. lia.
    + exists v'. split_and!; [done| | |by rewrite Hl', Hl].
      * eapply fat_is_ext; [|by eapply fat_is_trans]. intros x Hx. rewrite freed_cons. unfold freed.
        rewrite (fi_entry _ _ _ Hv) by done. unfold fat_upd.
        destruct (x =? a), (decide (x ∈ l)); done.
      * rewrite decide_False by done. rewrite Hf', Hf. case_decide; subst; simpl.
        -- done.
        -- rewrite u32_add_u32. f_equal. lia.
Qed.

Lemma clear_fat_chain_ok vol c l e :
  fat_ok vol -> terminated vol c l e -> l <> [] ->
  exists v, clear_fat_chain vol c = (B_OK, v) /\ fat_is vol (freed (entry vol) l) v /\
    free_clusters v = u32 (free_clusters vol + Z.of_nat (length l)) /\
    last_allocated v = last_allocated vol.
Proof.
  intros Hok Hc Hl. pose proof (ok_geo _ Hok) as Hg. pose proof (geo_total _ Hg) as Ht.
  pose proof (chain_length vol c l e Ht Hc) as Hlen.
  pose proof (chain_end_range vol c l e Hg Hl (proj1 Hc)) as Her.
  destruct (clear_loop vol c l e (total_clusters vol + 2) Hok Hc ltac:(lia) ltac:(lia))
    as (v & Hcl & Hv & Hf & Hla). rewrite decide_False in Hf by done.
  exists v. unfold clear_fat_chain.
  rewrite is_data_true; [|done|]. 2: { destruct Hc as [Hc _]. by inversion Hc; subst. }
  by rewrite Hcl.
Qed.

(** On any table, cyclic ones included: every round but the last frees a
    cluster that was in use. *)
Lemma clear_loop_total vol c n :
  fat_ok vol -> c < 2 ^ 28 ->
  total_clusters vol - count_zero (entry vol) 2 (total_clusters vol) + 1 < n ->
  exists v, z_loop clear_step n (c, vol) = Brk (B_OK, v) /\ fat_is vol (entry v) v.
Proof.
  intros Hok Hc Hn. remember (Z.to_nat n) as k eqn:Hk. revert vol c n Hok Hc Hn Hk.
  induction k as [|k IH]; intros vol c n Hok Hc Hn Hk;
    pose proof (geo_total _ (ok_geo _ Hok)) as Ht;
    pose proof (count_zero_range (entry vol) 2 (total_clusters vol) ltac:(lia)) as Hcz; [lia|].
  rewrite z_loop_step by lia.
  destruct (decide (IS_DATA_CLUSTER vol c = true)) as [Hd|Hd%not_true_is_false].
  2: { unfold clear_step. rewrite Hd. simpl. eexists. split; [done|by apply fat_is_refl]. }
  apply (IS_DATA_CLUSTER_true vol (ok_geo _ Hok) c ltac:(lia)) in Hd.
  destruct (clear_step_data vol c Hok Hd) as (v & -> & Hv & _).
  pose proof (fi_ok _ _ _ Hv) as Hokv. pose proof (fat_is_bpb _ _ _ Hv) as Eb.
  destruct (decide (entry vol c = 0)) as [E|E].
  - assert (En : next_in vol c = 0) by (unfold next_in, classify; by rewrite E).
    rewrite En, z_loop_step, clear_step_stop;
      [|apply Hokv|lia|unfold data_cluster; lia|lia].
    exists v. split; [done|]. split; try apply Hv. done.
  - pose proof (next_in_range vol c (ok_geo _ Hok)).
    assert (Hz : count_zero (entry v) 2 (total_clusters v)
                 = count_zero (entry vol) 2 (total_clusters vol) + 1).
    { rewrite Eb, (count_zero_ext _ (fun x => if x =? c then 0 else entry vol x)).
      - apply count_zero_upd; [lia|unfold data_cluster in Hd; lia|done].
      - lia.
      - intros x Hx. apply (fi_entry _ _ _ Hv). unfold data_cluster. lia. }
    destruct (IH v (next_in vol c) (n - 1)) as (v' & -> & Hv'); [done|lia|rewrite Hz, Eb; lia|lia|].
    exists v'. split; [done|]. eapply fat_is_trans; [exact Hv|exact Hv'].
Qed.

(** ** get_nth_fat_entry *)

Lemma nth_step vol c l e n :
  fat_ok vol -> chain vol c l e -> ~ data_cluster vol e -> l <> [] -> 0 < n ->
  get_nth_fat_entry vol c n =
  match l with
  | [] | [_] => e
  | _ :: c' :: _ => get_nth_fat_entry vol c' (n - 1)
  end.
Proof.
  intros Hok Hc He Hl Hn. unfold get_nth_fat_entry. rewrite z_loop_step by done.
  destruct Hc as [|c l e Hd Hc]; [done|]. rewrite get_fat_entry_eq by done.
  pose proof (next_in_range vol c (ok_geo _ Hok)).
  inversion Hc as [|? l' ? Hd' Hc']; subst.
  - by rewrite is_data_false by (apply Hok || lia || done).
  - by rewrite is_data_true by (apply Hok || done).
Qed.

Lemma get_nth_chain vol c l e n :
  fat_ok vol -> terminated vol c l e -> l <> [] -> 0 <= n ->
  get_nth_fat_entry vol c n = default e (l !! Z.to_nat n).
Proof.
  intros Hok [Hc He] Hl Hn. revert c n Hc Hl Hn.
  induction l as [|a l IH]; intros c n Hc Hl Hn; [done|].
  assert (a = c) as -> by by inversion Hc.
  destruct (decide (n = 0)) as [->|Hn0]; [done|].
  rewrite (nth_step vol c (c :: l) e n Hok Hc He Hl) by lia.
  inversion Hc as [|? ? ? Hd Hc']; subst.
  replace (Z.to_nat n) with (S (Z.to_nat (n - 1))) by lia. simpl.
  destruct l as [|b l]; [done|].
  assert (b = next_in vol c) as -> by by inversion Hc'.
  apply IH; [done|done|lia].
Qed.

(** ** count_clusters *)

Lemma count_loop vol c l e i n :
  fat_ok vol -> chain vol c l e -> ~ data_cluster vol e -> e < 2 ^ 28 ->
  0 <= i -> i + Z.of_nat (length l) <= total_clusters vol -> Z.of_nat (length l) < n ->
  z_loop (fun '(count, cluster) =>
      if IS_DATA_CLUSTER vol cluster then
        let count := count + 1 in
        if u32 count =? total_clusters vol then Brk 0
        else Cont (count, get_fat_entry vol cluster)
      else Brk (if cluster =? END_FAT_ENTRY then count else 0)) n (i, c) =
  Brk (if bool_decide (l <> [] /\ i + Z.of_nat (length l) = total_clusters vol) then 0
       else if e =? END_FAT_ENTRY then i + Z.of_nat (length l) else 0).
Proof.
  intros Hok Hc He Her. pose proof (ok_geo _ Hok) as Hg. pose proof (geo_limit _ Hg).
  pose proof (max_cluster_small vol Hg). revert c i n Hc.
  induction l as [|a l IH]; intros c i n Hc Hi Hl Hn; rewrite z_loop_step by (simpl in Hn; lia).
  - inversion Hc; subst. rewrite is_data_false by done. rewrite bool_decide_eq_false_2 by naive_solver.
    simpl. by rewrite Z.add_0_r.
  - assert (a = c) as -> by by inversion Hc. inversion Hc as [|? ? ? Hd Hc']; subst.
    rewrite is_data_true by done. cbv zeta. simpl length in *. rewrite u32_small by lia.
    destruct (Z.eqb_spec (i + 1) (total_clusters vol)) as [E|E].
    + rewrite bool_decide_eq_true_2; [done|]. split; [done|lia].
    + rewrite get_fat_entry_eq, IH by (done || lia). f_equal.
      replace (i + 1 + Z.of_nat (length l)) with (i + Z.of_nat (S (length l))) by lia.
      destruct l as [|b l].
      * rewrite !bool_decide_eq_false_2; [done|simpl in *; intros [_ ?]; lia|naive_solver].
      * erewrite bool_decide_ext; [reflexivity|naive_solver].
Qed.

(** The count of a chain that ends properly; a chain through every cluster of
    the volume is taken for a cycle. *)
Lemma count_clusters_chain vol c l e :
  fat_ok vol -> terminated vol c l e -> l <> [] ->
  count_clusters vol c =
  if (e =? END_FAT_ENTRY) && negb (Z.of_nat (length l) =? total_clusters vol)
  then Z.of_nat (length l) else 0.
Proof.
  intros Hok Hc Hl. pose proof (ok_geo _ Hok) as Hg. pose proof (geo_total _ Hg) as Ht.
  pose proof (chain_length vol c l e Ht Hc) as Hlen. destruct Hc as [Hc He].
  pose proof (chain_end_range vol c l e Hg Hl Hc) as Her.
  unfold count_clusters. destruct l as [|a l]; [done|].
  assert (a = c) as -> by by inversion Hc.
  assert (Hd : data_cluster vol c) by by inversion Hc.
  rewrite is_data_true by done. cbn [negb]. cbv zeta.
  rewrite (count_loop vol c (c :: l) e 0) by (done || lia).
  rewrite Z.add_0_l. destruct (Z.eqb_spec (Z.of_nat (length (c :: l))) (total_clusters vol)) as [E|E].
  - rewrite bool_decide_eq_true_2 by done. by rewrite andb_false_r.
  - rewrite bool_decide_eq_false_2 by tauto. by rewrite andb_true_r.
Qed.

Lemma chain_snoc vol c l x :
  chain vol c l x -> data_cluster vol x -> chain vol c (l ++ [x]) (next_in vol x).
Proof. intros Hc Hx. induction Hc; simpl; constructor; auto using chain_stop. Qed.

(** On any table the count ends, and a count other than 0 is the length of a
    chain that ends properly: cycles and bad entries give 0. *)
Lemma count_clusters_sound vol c :
  fat_ok vol -> c < 2 ^ 32 ->
  count_clusters vol c = 0 \/
  exists l, terminated vol c l END_FAT_ENTRY /\ count_clusters vol c = Z.of_nat (length l).
Proof.
  intros Hok Hc. pose proof (ok_geo _ Hok) as Hg. pose proof (geo_total _ Hg) as Ht.
  pose proof (geo_limit _ Hg). pose proof (max_cluster_small vol Hg).
  unfold count_clusters. destruct (IS_DATA_CLUSTER vol c) eqn:Hd; simpl; [|by left].
  apply (IS_DATA_CLUSTER_true vol Hg c Hc) in Hd.
  destruct (decide (total_clusters vol = 1)) as [E1|E1].
  { rewrite z_loop_step, is_data_true by (done || lia). rewrite E1. by left. }
  set (body := fun s : Z * Z => _).
  set (I := fun i (s : Z * Z) => fst s = i /\ i < total_clusters vol /\ 0 <= snd s < 2 ^ 28 /\
                exists l, chain vol c l (snd s) /\ Z.of_nat (length l) = i).
  set (Q := fun r => r = 0 \/ exists l, terminated vol c l END_FAT_ENTRY /\ r = Z.of_nat (length l)).
  assert (Hloop : match z_loop body (total_clusters vol + 1) (0, c) with
                  | Cont s => I (total_clusters vol + 1) s | Brk r => Q r end).
  { pose proof (data_cluster_bound vol Hg c Hd).
    apply z_loop_inv; [lia|split_and!; simpl; [done|lia|lia|lia|exists []; split; [constructor|done]]|].
    intros i [n x] Hi (En & Hit & Hx & l & Hl & Hlen). simpl in En, Hx, Hl. subst n body. cbv beta iota.
    destruct (IS_DATA_CLUSTER vol x) eqn:Hdx.
    - apply (IS_DATA_CLUSTER_true vol Hg x ltac:(lia)) in Hdx. cbv zeta. rewrite u32_small by lia.
      destruct (Z.eqb_spec (i + 1) (total_clusters vol)); [by left|].
      rewrite get_fat_entry_eq by done. pose proof (next_in_range vol x Hg) as Hn.
      split_and!; simpl; [done|lia|lia|lia|]. exists (l ++ [x]).
      split; [by apply chain_snoc|rewrite length_app; simpl; lia].
    - destruct (Z.eqb_spec x END_FAT_ENTRY) as [->|]; [|by left]. right. exists l.
      split; [split; [done|]|done]. intros Hdd%(is_data_true vol _ Hg). congruence. }
  destruct (z_loop body _ _) as [s|r]; [|done]. destruct Hloop as (_ & ? & _). lia.
Qed.

(** What is no data cluster has no chain. *)
Lemma END_not_data vol : geometry_ok vol -> ~ data_cluster vol END_FAT_ENTRY.
Proof.
  intros Hg Hd. pose proof (data_cluster_bound vol Hg _ Hd). pose proof (max_cluster_small vol Hg).
  unfold END_FAT_ENTRY in *. lia.
Qed.
