(* ===== verification/FatAlloc.v ===== *)
(** Allocation of cluster chains: [allocate_n_fat_entries] links the first
    free clusters it meets, going round the table from the allocation hint,
    and leaves the table as it was when there are too few. *)
From stdpp Require Import base gmap list.
From Stdlib Require Import ZArith Lia.
From S2P Require Import Prelude Errors Volume Fat FatEntry FatIoctl FatTable FatChain.

Implicit Types vol v : nspace.

(** ** The specification *)

(** The clusters of the first [i] rounds from [s]. *)
Definition visited (b : bpb) (s i : Z) : list Z := map (nth_cluster b s) (seqZ 0 i).

(** The free ones among them. *)
Definition free_visited (vol : nspace) (s i : Z) : list Z :=
  filter (fun c => entry vol c = 0) (visited vol s i).

(** The table [f] with the clusters of [l] linked to a chain. *)
Fixpoint linked (f : Z -> Z) (l : list Z) : Z -> Z :=
  match l with
  | [] => f
  | c :: r => fat_upd (linked f r) c (hd END_FAT_ENTRY r)
  end.

Lemma visited_snoc b s i : 0 <= i -> visited b s (i + 1) = visited b s i ++ [nth_cluster b s i].
Proof. intros Hi. unfold visited. rewrite seqZ_app, map_app, Z.add_0_l, seqZ_1 by lia. done. Qed.

Lemma elem_of_visited b s i c : c ∈ visited b s i <-> exists j, 0 <= j < i /\ c = nth_cluster b s j.
Proof.
  unfold visited. rewrite list_elem_of_In, in_map_iff. split.
  - intros (j & <- & Hj%list_elem_of_In%elem_of_seqZ). exists j. split; [lia|done].
  - intros (j & Hj & ->). exists j. split; [done|]. apply list_elem_of_In, elem_of_seqZ. lia.
Qed.

Lemma visited_data b s i : 0 < total_clusters b -> Forall (data_cluster b) (visited b s i).
Proof.
  intros Ht. apply Forall_forall. intros c (j & _ & ->)%elem_of_visited. by apply nth_cluster_data.
Qed.

Lemma visited_fresh b s i :
  0 <= i < total_clusters b -> nth_cluster b s i ∉ visited b s i.
Proof.
  intros Hi (j & Hj & E)%elem_of_visited. apply nth_cluster_inj in E; lia.
Qed.

Lemma visited_nodup b s i : 0 <= i <= total_clusters b -> NoDup (visited b s i).
Proof.
  intros Hi. destruct Hi as [H0 H1]. revert H1. pattern i. apply natlike_ind; [constructor| |done].
  intros m Hm IH Hle. unfold Z.succ in *. rewrite visited_snoc by done.
  apply NoDup_app. split_and!; [apply IH; lia| |apply NoDup_singleton].
  intros c Hc ->%list_elem_of_singleton. revert Hc. apply visited_fresh. lia.
Qed.

(** One lap visits the data clusters, each once. *)
Lemma visited_lap b s : 0 < total_clusters b -> visited b s (total_clusters b) ≡ₚ seqZ 2 (total_clusters b).
Proof.
  intros Ht. pose proof (visited_nodup b s (total_clusters b) ltac:(lia)) as Hnd.
  apply submseteq_length_Permutation.
  - apply NoDup_submseteq; [done|]. intros c Hc. apply elem_of_seqZ.
    pose proof (visited_data b s (total_clusters b) Ht) as Hall.
    rewrite Forall_forall in Hall. specialize (Hall c Hc). unfold data_cluster in Hall. lia.
  - unfold visited. by rewrite length_map, !length_seqZ.
Qed.

Lemma free_visited_lap vol s :
  0 < total_clusters vol ->
  Z.of_nat (length (free_visited vol s (total_clusters vol)))
  = count_zero (entry vol) 2 (total_clusters vol).
Proof.
  intros Ht. unfold free_visited, count_zero. f_equal. apply Permutation_length.
  by apply filter_Permutation, visited_lap.
Qed.

Lemma free_visited_snoc vol s i :
  0 <= i ->
  free_visited vol s (i + 1) =
  free_visited vol s i ++ (if entry vol (nth_cluster vol s i) =? 0 then [nth_cluster vol s i] else []).
Proof.
  intros Hi. unfold free_visited. rewrite visited_snoc, filter_app by done. f_equal. cbn.
  destruct (Z.eqb_spec (entry vol (nth_cluster vol s i)) 0); case_decide; done.
Qed.

Lemma free_visited_prefix vol s i n :
  0 <= i -> 0 <= n -> free_visited vol s i `prefix_of` free_visited vol s (i + n).
Proof.
  intros Hi Hn. pattern n. apply natlike_ind; [by rewrite Z.add_0_r| |done].
  intros m Hm IH. unfold Z.succ. rewrite Z.add_assoc, free_visited_snoc by lia.
  by apply prefix_app_r.
Qed.

Lemma linked_notin f l c : c ∉ l -> linked f l c = f c.
Proof.
  induction l as [|a l IH]; intros Hc; simpl; [done|]. apply not_elem_of_cons in Hc as [Hne Hc].
  unfold fat_upd. rewrite (proj2 (Z.eqb_neq c a)) by done. auto.
Qed.

(** How the loop builds it: the new cluster ends the chain, and the last one
    of before leads to it. *)
Lemma linked_snoc f l c x :
  NoDup l -> c ∉ l ->
  linked f (l ++ [c]) x =
  match last l with
  | None => fat_upd f c END_FAT_ENTRY x
  | Some a => fat_upd (fat_upd (linked f l) c END_FAT_ENTRY) a c x
  end.
Proof.
  induction l as [|a l IH]; intros Hnd Hc; [done|].
  apply NoDup_cons in Hnd as [Ha Hnd]. apply not_elem_of_cons in Hc as [Hne Hc].
  specialize (IH Hnd Hc). destruct l as [|b l].
  - simpl. unfold fat_upd. destruct (Z.eqb_spec x a) as [->|]; [done|]. by destruct (x =? c).
  - rewrite last_cons_cons. cbn [linked hd app] in *.
    destruct (last (b :: l)) as [z|] eqn:Hz; [|by apply last_None in Hz].
    assert (Hza : z <> a) by (intros ->; apply Ha, last_Some_elem_of; done).
    unfold fat_upd in *. destruct (Z.eqb_spec x a) as [->|Hx]; [|exact IH].
    rewrite (proj2 (Z.eqb_neq a z)) by done. by rewrite (proj2 (Z.eqb_neq a c)) by done.
Qed.

(** ** One round *)

Lemma mirror_fats_free x v s b :
  mirror_fats (set_free_clusters x v) s b = set_free_clusters x (mirror_fats v s b).
Proof.
  unfold mirror_fats. simpl. destruct (fat_mirrored v); simpl; [|done].
  generalize (seqZ 0 (fat_count v)). intros l.
  enough (H : forall w, foldl (fun w i => if i =? active_fat v then w else
      block_update (fun _ => block_data w b) (u32 (u32 (s - u32 (active_fat v * sectors_per_fat v))
        + u32 (i * sectors_per_fat v))) w) (set_free_clusters x w) l
    = set_free_clusters x (foldl (fun w i => if i =? active_fat v then w else
      block_update (fun _ => block_data w b) (u32 (u32 (s - u32 (active_fat v * sectors_per_fat v))
        + u32 (i * sectors_per_fat v))) w) w l)) by apply H.
  induction l as [|i l IH]; intros w; simpl; [done|]. rewrite <-IH. f_equal. by destruct (_ =? _).
Qed.

Lemma u32_i32 x : u32 (i32 x) = u32 x.
Proof.
  unfold u32, i32. destruct (_ <? _); [by rewrite Z.mod_mod|].
  replace (x mod 2 ^ 32 - 2 ^ 32) with (x mod 2 ^ 32 + (-1) * 2 ^ 32) by lia.
  by rewrite Z.mod_add, Z.mod_mod.
Qed.

Lemma u32_sub_u32 a b : u32 (u32 a - b) = u32 (a - b).
Proof. unfold u32. by rewrite Zminus_mod_idemp_l. Qed.

Lemma norm_end bits : bits = 12 \/ bits = 16 \/ bits = 32 -> norm_entry bits 0x0fffffff = END_FAT_ENTRY.
Proof. by intros [->|[->| ->]]. Qed.

Abbreviation link_entry := (fun vol last c => fat_ioctl0 vol IOCTL_SET_ENTRY last c).

Section Alloc.
Context (vol : nspace) (Hok : fat_ok vol) (N : Z) (HN : 0 < N < 2 ^ 32).
Context (Hfree : 0 <= free_clusters vol < 2 ^ 32).

(** The volume and the chain once the clusters [l] have been allocated. *)
Record allocated_to (l : list Z) (k : ictl) : Prop := {
  al_table : fat_is vol (linked (entry vol) l) (k_vol k);
  al_free : free_clusters (k_vol k) = u32 (free_clusters vol - Z.of_nat (length l));
  al_hint : last_allocated (k_vol k) = last_allocated vol;
  al_result : k_result k = 0;
  al_n : k_n k = Z.of_nat (length l);
  al_first : k_first k = hd 0 l;
  al_last : k_last k = default 0 (last l)
}.

Lemma al_bpb l k : allocated_to l k -> ns_bpb (k_vol k) = ns_bpb vol.
Proof using. intros [H _ _ _ _ _ _]. by eapply fat_is_bpb. Qed.

(** A free cluster joins the chain. *)
Lemma alloc_found l k v s o :
  allocated_to l k -> NoDup l -> Forall (data_cluster vol) l -> Z.of_nat (length l) < N ->
  data_cluster vol (k_cluster k) -> k_cluster k ∉ l ->
  fat_start vol <= s < fat_start vol + sectors_per_fat vol ->
  (forall P, mirrored_but P (k_vol k) ->
     table_state (k_vol k)
       (table_set (fat_bits vol) (fat_byte (k_vol k)) (k_cluster k) 0x0fffffff)
       (fun t => P t \/ t = s - fat_start vol) v) ->
  exists k', ioctl_allocate link_entry N
      (Ictl v (k_cluster k) s o s 0 0 (k_n k) (k_first k) (k_last k))
    = (if Z.of_nat (length l) + 1 =? N then Brk k' else Cont k') /\
    allocated_to (l ++ [k_cluster k]) k' /\ k_cluster k' = k_cluster k /\
    k_sector k' = s /\ k_offset k' = o /\ k_block1 k' = s.
Proof using Hok HN Hfree.
  intros Hal Hnd Hdl Hlen Hc Hcl Hs Hv. pose proof (al_bpb _ _ Hal) as Eb.
  destruct Hal as [Ht Hfr Hh Hr Hn Hf Hl]. set (c := k_cluster k) in *.
  assert (Est : fat_start (k_vol k) = fat_start vol) by (unfold fat_start; by rewrite Eb).
  rewrite <-Est, <-Eb in Hs, Hv. rewrite <-Eb in Hc.
  pose proof (fat_is_written (k_vol k) c _ s v (fi_ok _ _ _ Ht) Hc Hs Hv) as (Hw & m & Em).
  rewrite norm_end in Hw by apply (fi_ok _ _ _ Ht). rewrite Eb in Hc.
  assert (Ev : exists m', v = set_fBlockCache m' (k_vol k)).
  { destruct (Hv (fun _ => True)) as [(m' & -> & _) _ _ _]; [by intros _ t _ []|by exists m']. }
  destruct Ev as [m' Ev].
  set (W := set_free_clusters (u32 (free_clusters (k_vol k) - 1)) (mirror_fats v s s)).
  assert (HW : fat_is vol (fat_upd (linked (entry vol) l) c END_FAT_ENTRY) W).
  { eapply fat_is_ext; [|apply fat_is_free; eapply fat_is_trans; [exact Ht|exact Hw]].
    intros x Hx. unfold fat_upd. destruct (x =? c); [done|by apply (fi_entry _ _ _ Ht)]. }
  assert (HWf : free_clusters W = u32 (free_clusters vol - Z.of_nat (length (l ++ [c])))).
  { rewrite length_app. subst W. simpl. rewrite Hfr, u32_sub_u32. f_equal. lia. }
  assert (HWh : last_allocated W = last_allocated vol) by (subst W; simpl; by rewrite Em).
  assert (Elen : Z.of_nat (length (l ++ [c])) = Z.of_nat (length l) + 1)
    by (rewrite length_app; simpl; lia).
  unfold ioctl_allocate. simpl. rewrite mirror_fats_free.
  replace (free_clusters v) with (free_clusters (k_vol k)) by by rewrite Ev.
  fold W. rewrite Hn. destruct (last l) as [a|] eqn:Ela.
  - assert (Hne : Z.of_nat (length l) <> 0) by (destruct l; [done|simpl; lia]).
    rewrite (proj2 (Z.eqb_neq _ _)) by done. rewrite Hl. simpl.
    assert (Ha : data_cluster vol a)
      by (rewrite Forall_forall in Hdl; apply Hdl, last_Some_elem_of; done).
    rewrite <-(fat_is_bpb _ _ _ HW) in Ha.
    destruct (set_fat_entry_eq W a (i32 c) (fi_ok _ _ _ HW) Ha) as (w & Ew & Hw' & m2 & Em2).
    unfold set_fat_entry in Ew. rewrite Ew. simpl.
    rewrite (u32_small (_ + 1)), (u32_small N) by lia.
    assert (Hw2 : fat_is vol (linked (entry vol) (l ++ [c])) w).
    { eapply fat_is_ext; [|eapply fat_is_trans; [exact HW|exact Hw']].
      intros x Hx. rewrite linked_snoc, Ela by done.
      rewrite u32_i32, (norm_entry_link W) by (apply (fi_ok _ _ _ HW) ||
        (rewrite (fat_is_bpb _ _ _ HW); unfold data_cluster in Hc; lia)).
      unfold fat_upd at 1 2. destruct (x =? a); [done|]. by apply (fi_entry _ _ _ HW). }
    eexists. destruct (_ =? N); (split; [reflexivity|]); (split_and!; [|done..]);
      (split; simpl; [done|by rewrite Em2|by rewrite Em2|done|by rewrite Elen
        |rewrite Hf; by destruct l|by rewrite last_snoc]).
  - apply last_None in Ela as ->. change (Z.of_nat (length [])) with 0 in *.
    rewrite Z.eqb_refl. cbn [k_n set_k_chain]. rewrite (u32_small (0 + 1)), (u32_small N) by lia.
    eexists. destruct (_ =? N); (split; [reflexivity|]); (split_and!; [|done..]);
      (split; simpl; done).
Qed.

Lemma allocated_to_ext l k k' :
  k_vol k' = k_vol k -> k_result k' = k_result k -> k_n k' = k_n k ->
  k_first k' = k_first k -> k_last k' = k_last k -> allocated_to l k -> allocated_to l k'.
Proof using. intros E1 E2 E3 E4 E5 []. split; rewrite ?E1, ?E2, ?E3, ?E4, ?E5; done. Qed.

Context (s0 : Z) (Hs0 : data_cluster vol s0).

Abbreviation found i := (free_visited vol s0 i).

Lemma found_facts i :
  0 <= i < total_clusters vol ->
  NoDup (found i) /\ Forall (data_cluster vol) (found i) /\ nth_cluster vol s0 i ∉ found i.
Proof using Hok.
  intros Hi. unfold free_visited. split_and!.
  - by apply NoDup_filter, visited_nodup; lia.
  - apply Forall_forall. intros c [_ Hc]%list_elem_of_filter.
    pose proof (visited_data vol s0 i ltac:(lia)) as Hall. rewrite Forall_forall in Hall. auto.
  - intros [_ H]%list_elem_of_filter. revert H. by apply visited_fresh.
Qed.

(** One round of the search. *)
Lemma alloc_round i k :
  0 <= i < total_clusters vol -> allocated_to (found i) k -> at_entry k ->
  k_cluster k = nth_cluster vol s0 i -> Z.of_nat (length (found i)) < N ->
  exists k', allocated_to (found (i + 1)) k' /\
    if Z.of_nat (length (found (i + 1))) =? N
    then ioctl_step link_entry IOCTL_ALLOCATE_N_ENTRIES N k = Brk k' /\
         Some (k_cluster k') = last (found (i + 1))
    else ioctl_step link_entry IOCTL_ALLOCATE_N_ENTRIES N k = Cont k' /\ at_entry k' /\
         k_cluster k' = nth_cluster vol s0 (i + 1).
Proof using Hok HN Hfree Hs0.
  intros Hi Hal Hat Hck Hlen. pose proof (al_bpb _ _ Hal) as Eb.
  destruct (found_facts i Hi) as (Hnd & Hdl & Hfresh).
  pose proof (fi_ok _ _ _ (al_table _ _ Hal)) as Hokk.
  pose proof (nth_cluster_data vol s0 i ltac:(lia)) as Hcd.
  set (c := nth_cluster vol s0 i) in *.
  assert (Hval : entry (k_vol k) c = entry vol c)
    by (rewrite (fi_entry _ _ _ (al_table _ _ Hal)) by done; by apply linked_notin).
  pose proof (fun P HP => ioctl_entry_done IOCTL_ALLOCATE_N_ENTRIES N k P Hokk HP Hat) as Hd.
  unfold entry_done in Hd. rewrite (decide_False (P := _ = IOCTL_SET_ENTRY)) in Hd by done.
  rewrite Hck, Hval, Eb in Hd.
  assert (Est : fat_start (k_vol k) = fat_start vol) by (unfold fat_start; by rewrite Eb).
  rewrite Est in Hd.
  destruct (Hd (fun _ => True)) as (v & s & o & E & Hs & Ho & Hpos & Hts); [by intros _ t _ []|].
  unfold ioctl_step. rewrite E in Hd |- *. simpl.
  rewrite free_visited_snoc by lia. fold c.
  unfold writes_entry in Hd, Hts. simpl in Hd, Hts.
  assert (Hpast : forall k', ns_bpb (k_vol k') = ns_bpb vol -> k_cluster k' = c ->
    k_sector k' = s -> k_offset k' = o -> k_block1 k' = s -> past_entry k').
  { intros k' E1 E2 E3 E4 E5. unfold past_entry. 
    assert (fat_start (k_vol k') = fat_start vol) as -> by (unfold fat_start; by rewrite E1).
    rewrite E1, E2, E3, E4, E5. split_and!; done || lia. }
  assert (Hnext : forall k1 l, allocated_to l k1 -> past_entry k1 -> k_cluster k1 = c ->
    exists k', allocated_to l k' /\ ioctl_advance k1 = Cont k' /\ at_entry k' /\
      k_cluster k' = nth_cluster vol s0 (i + 1)).
  { intros k1 l Hal1 Hp E1. pose proof (al_bpb _ _ Hal1) as Eb1.
    destruct (advance_spec k1) as (s' & o' & Ea & Hat'); [apply (al_table _ _ Hal1)|done|].
    eexists. split; [|split; [exact Ea|split; [done|]]].
    - revert Hal1. by apply allocated_to_ext.
    - simpl. rewrite E1, Eb1. unfold c. apply nth_cluster_next. lia. }
  destruct (Z.eqb_spec (entry vol c) 0) as [E0|E0]; simpl in Hd, Hts |- *.
  - rewrite length_app. simpl length. rewrite Nat2Z.inj_add. change (Z.of_nat 1) with 1.
    rewrite E0. pose proof (alloc_found (found i) k v s o Hal Hnd Hdl Hlen) as Hfound.
    rewrite Hck in Hfound. specialize (Hfound Hcd Hfresh Hs).
    destruct Hfound as (k' & Ek & Hal' & Hc' & Hs' & Ho' & Hb').
    { intros P HP. destruct (Hd P HP) as (v' & s' & o' & E' & _ & _ & _ & Hts').
      injection E' as <- <- _. exact Hts'. }
    rewrite (al_result _ _ Hal), Ek. destruct (_ =? N).
    + exists k'. split_and!; [done|done|]. by rewrite last_snoc, Hc'.
    + destruct (Hnext k' _ Hal' (Hpast k' (al_bpb _ _ Hal') Hc' Hs' Ho' Hb') Hc')
        as (k2 & Hal2 & -> & Hat2 & Hc2). by exists k2.
  - subst v. rewrite app_nil_r. rewrite (proj2 (Z.eqb_neq _ _)) by lia.
    destruct (Hnext (Ictl (k_vol k) c s o s (entry vol c) (k_result k) (k_n k) (k_first k) (k_last k))
      (found i)) as (k2 & Hal2 & -> & Hat2 & Hc2); [by revert Hal; apply allocated_to_ext|by apply Hpast|done|].
    by exists k2.
Qed.

Definition start_at (sector offset block1 : Z) : ictl := Ictl vol s0 sector offset block1 0 0 0 0 0.

Lemma allocated_to_nil sector offset block1 : allocated_to [] (start_at sector offset block1).
Proof using Hok Hfree.
  split; simpl; try done; [by rewrite Z.sub_0_r, u32_small].
Qed.

(** The search, from the allocation hint once round the table. *)
Lemma alloc_search sector offset block1 :
  at_entry (start_at sector offset block1) ->
  match z_loop (ioctl_step link_entry IOCTL_ALLOCATE_N_ENTRIES N) (total_clusters vol)
          (start_at sector offset block1) with
  | Brk k => exists i, 0 <= i <= total_clusters vol /\ allocated_to (found i) k /\
      Z.of_nat (length (found i)) = N /\ Some (k_cluster k) = last (found i)
  | Cont k => allocated_to (found (total_clusters vol)) k /\
      Z.of_nat (length (found (total_clusters vol))) < N
  end.
Proof using Hok HN Hfree Hs0.
  intros Hat. pose proof (geo_total _ (ok_geo _ Hok)) as Ht.
  set (Q := fun k => exists i, 0 <= i <= total_clusters vol /\ allocated_to (found i) k /\
      Z.of_nat (length (found i)) = N /\ Some (k_cluster k) = last (found i)).
  set (I := fun i k => allocated_to (found i) k /\ Z.of_nat (length (found i)) < N /\ at_entry k /\
                       k_cluster k = nth_cluster vol s0 i).
  enough (Hloop : match z_loop (ioctl_step link_entry IOCTL_ALLOCATE_N_ENTRIES N)
                          (total_clusters vol) (start_at sector offset block1) with
                  | Brk k => Q k | Cont k => I (total_clusters vol) k end)
    by (destruct (z_loop _ _ _) as [k|k]; [by split; apply Hloop|done]).
  apply z_loop_inv; [lia| |].
  - split_and!; [apply allocated_to_nil|simpl; lia|done|by rewrite nth_cluster_0].
  - intros i k Hi (Hal & Hlen & Hat' & Hck).
    destruct (alloc_round i k Hi Hal Hat' Hck Hlen) as (k2 & Hal2 & Hk2).
    destruct (Z.eqb_spec (Z.of_nat (length (found (i + 1)))) N) as [E|E].
    + destruct Hk2 as [-> Hl]. exists (i + 1). split_and!; [lia|lia|done|done|done].
    + destruct Hk2 as (-> & Hat2 & Hc2). split_and!; [done| |done|done].
      rewrite free_visited_snoc, length_app in * by lia.
      destruct (_ =? 0); simpl in *; lia.
Qed.
End Alloc.

(** ** The chain the search leaves *)

Lemma linked_chain vol f l v :
  fat_is vol (linked f l) v -> NoDup l -> Forall (data_cluster vol) l ->
  chain v (hd END_FAT_ENTRY l) l END_FAT_ENTRY.
Proof.
  intros Hv Hnd Hl. pose proof (fat_is_bpb _ _ _ Hv) as Eb.
  pose proof (ok_geo _ (fi_ok _ _ _ Hv)) as Hg.
  assert (He : Forall (fun c => entry v c = linked f l c) l).
  { apply Forall_forall. intros c Hc. apply (fi_entry _ _ _ Hv).
    rewrite Forall_forall in Hl. auto. }
  clear Hv. induction l as [|c l IH]; [constructor|].
  apply NoDup_cons in Hnd as [Hcl Hnd]. apply Forall_cons in Hl as [Hc Hl].
  apply Forall_cons in He as [Hec He]. cbn [linked hd] in *.
  constructor; [unfold data_cluster; by rewrite Eb|].
  assert (Hn : next_in v c = hd END_FAT_ENTRY l).
  { unfold next_in. rewrite Hec. unfold fat_upd. rewrite Z.eqb_refl.
    destruct l as [|a l]; simpl.
    - unfold classify. rewrite is_data_false by (done || apply END_not_data, Hg). done.
    - apply Forall_cons in Hl as [Ha _]. apply classify_data; [done|].
      unfold data_cluster. by rewrite Eb. }
  rewrite Hn. apply IH; [done|done|].
  apply Forall_forall. intros x Hx. rewrite Forall_forall in He. rewrite (He x Hx).
  unfold fat_upd. destruct (Z.eqb_spec x c); [by subst|done].
Qed.

Lemma freed_linked f l x : (forall c, c ∈ l -> f c = 0) -> freed (linked f l) l x = f x.
Proof.
  intros H. unfold freed. case_decide as Hx; [by rewrite H|]. by apply linked_notin.
Qed.

Lemma prefix_take {A} (l k : list A) : l `prefix_of` k -> l = take (length l) k.
Proof. intros [r ->]. by rewrite take_app_length. Qed.

Section Outcome.
Context (vol : nspace) (Hok : fat_ok vol) (N : Z) (HN : 0 < N < 2 ^ 32).
Context (Hfree : 0 <= free_clusters vol < 2 ^ 32).
Context (Hhint : data_cluster vol (last_allocated vol)).

Let hint := last_allocated vol.
Let candidates := free_visited vol hint (total_clusters vol).

Lemma candidates_facts :
  NoDup candidates /\ Forall (data_cluster vol) candidates /\
  (forall c, c ∈ candidates -> entry vol c = 0).
Proof using Hok.
  pose proof (geo_total _ (ok_geo _ Hok)) as Ht. subst candidates. unfold free_visited. split_and!.
  - by apply NoDup_filter, visited_nodup; lia.
  - apply Forall_forall. intros c [_ Hc]%list_elem_of_filter.
    pose proof (visited_data vol hint (total_clusters vol) Ht) as Hall.
    rewrite Forall_forall in Hall. auto.
  - by intros c [Hc _]%list_elem_of_filter.
Qed.

Lemma alloc_body :
  exists k, at_entry k /\ k = start_at vol hint (k_sector k) (k_offset k) (k_block1 k) /\
  _fat_ioctl_ vol IOCTL_ALLOCATE_N_ENTRIES 0 N =
  ioctl_finish clear_fat_chain IOCTL_ALLOCATE_N_ENTRIES N
    (loop_end (z_loop (ioctl_step link_entry IOCTL_ALLOCATE_N_ENTRIES N) (total_clusters vol) k)).
Proof using Hok Hhint.
  destruct (get_entry_sector vol hint Hok Hhint) as [Hg Hs].
  eexists. split; [by apply (start_position vol hint 0 0 0 0 0 Hok Hhint)|]. split; [done|].
  unfold _fat_ioctl_, fat_ioctl_body. fold hint.
  rewrite (bool_decide_eq_false_2 (_ = IOCTL_COUNT_FREE)) by done.
  cbv beta iota zeta delta [andb negb].
  by rewrite is_data_true, (entry_offset_u32 vol (ok_geo _ Hok) hint Hhint), Hs, Hg
    by (apply Hok || done).
Qed.

Lemma alloc_ok :
  N <= Z.of_nat (length candidates) ->
  exists v, let l := take (Z.to_nat N) candidates in
    allocate_n_fat_entries vol N = (B_OK, hd 0 l, v) /\ fat_is vol (linked (entry vol) l) v /\
    chain v (hd 0 l) l END_FAT_ENTRY /\ free_clusters v = u32 (free_clusters vol - N) /\
    Some (last_allocated v) = last l.
Proof using Hok HN Hfree Hhint.
  intros Hen. destruct candidates_facts as (Hnd & Hdl & Hz).
  destruct alloc_body as (k & Hat & Ek & Eb). rewrite Ek in Hat.
  pose proof (alloc_search vol Hok N HN Hfree hint Hhint _ _ _ Hat) as Hloop. rewrite <-Ek in Hloop.
  unfold allocate_n_fat_entries. rewrite Eb. clear Eb Ek Hat.
  destruct (z_loop _ _ k) as [k1|k1]; [destruct Hloop as [_ Hlt]; fold candidates in Hlt; lia|].
  destruct Hloop as (i & Hi & Hal & Hlen & Hc). set (l := free_visited vol hint i) in *.
  assert (El : l = take (Z.to_nat N) candidates).
  { rewrite <-Hlen, Nat2Z.id. apply prefix_take. subst l candidates.
    replace (total_clusters vol) with (i + (total_clusters vol - i)) by lia.
    apply free_visited_prefix; lia. }
  rewrite <-El. destruct Hal as [Ht Hf Hh Hr Hn Hfi Hla].
  assert (Hndl : NoDup l) by (rewrite El; eapply sublist_NoDup; [exact Hnd|apply sublist_take]).
  assert (Hdll : Forall (data_cluster vol) l) by (rewrite El; by apply Forall_take).
  unfold ioctl_finish. simpl. rewrite Hr, Hn, Hlen, (u32_small N), Z.eqb_refl by lia. simpl.
  destruct l as [|a l]; [simpl in Hlen; lia|]. simpl in Hfi.
  assert (Ha : 2 <= a <= 0x7fffffc).
  { apply Forall_cons in Hdll as [Ha _]. pose proof (data_cluster_bound vol (ok_geo _ Hok) a Ha).
    pose proof (max_cluster_small vol (ok_geo _ Hok)). lia. }
  rewrite Hfi, i32_small by lia. rewrite (proj2 (Z.ltb_ge a 0)) by lia.
  eexists. split_and!; [done|by apply fat_is_last| | |done].
  - apply (linked_chain vol (entry vol) (a :: l)); [by apply fat_is_last|done|done].
  - simpl. rewrite Hf. f_equal. simpl in Hlen |- *. lia.
Qed.

Lemma alloc_full :
  Z.of_nat (length candidates) < N ->
  exists v, allocate_n_fat_entries vol N = (B_DEVICE_FULL, 0, v) /\ fat_is vol (entry vol) v /\
    free_clusters v = free_clusters vol /\ last_allocated v = last_allocated vol.
Proof using Hok HN Hfree Hhint.
  intros Hen. destruct candidates_facts as (Hnd & Hdl & Hz).
  destruct alloc_body as (k & Hat & Ek & Eb). rewrite Ek in Hat.
  pose proof (alloc_search vol Hok N HN Hfree hint Hhint _ _ _ Hat) as Hloop. rewrite <-Ek in Hloop.
  unfold allocate_n_fat_entries. rewrite Eb. clear Eb Ek Hat.
  destruct (z_loop _ _ k) as [k1|k1].
  2: { destruct Hloop as (i & Hi & _ & Hlen & _).
       pose proof (free_visited_prefix vol hint i (total_clusters vol - i) ltac:(lia) ltac:(lia)) as Hp.
       replace (i + (total_clusters vol - i)) with (total_clusters vol) in Hp by lia.
       apply prefix_length in Hp. fold candidates in Hp. lia. }
  destruct Hloop as [Hal _]. fold candidates in Hal. destruct Hal as [Ht Hf Hh Hr Hn Hfi Hla].
  unfold ioctl_finish. simpl. rewrite Hr, Hn, (u32_small N) by lia.
  rewrite (proj2 (Z.eqb_neq _ N)) by lia. simpl.
  destruct (decide (candidates = [])) as [E|E].
  - rewrite E in *. simpl in Hfi. rewrite Hfi. simpl. eexists. split_and!; [done|done| |done].
    rewrite Hf, Z.sub_0_r, u32_small; done.
  - pose proof (linked_chain vol _ _ _ Ht Hnd Hdl) as Hch.
    assert (Ehd : k_first k1 = hd END_FAT_ENTRY candidates) by (rewrite Hfi; by destruct candidates).
    pose proof (fat_is_bpb _ _ _ Ht) as Ebp. pose proof (fi_ok _ _ _ Ht) as Hok1.
    assert (Ha : data_cluster (k_vol k1) (k_first k1)).
    { rewrite Ehd. unfold data_cluster. rewrite Ebp.
      destruct candidates; [done|]. by apply Forall_cons in Hdl as [? _]. }
    pose proof Ha as [Ha2 _]. rewrite (proj2 (Z.eqb_neq (k_first k1) 0)) by lia. simpl.
    assert (Hlen : Z.of_nat (length candidates) <= total_clusters vol)
      by (apply clusters_bound; [apply Hok|done|done]).
    unfold clear_fat_chain. rewrite is_data_true by (done || apply Hok1). simpl. rewrite Ehd.
    destruct (clear_loop (k_vol k1) (hd END_FAT_ENTRY candidates) candidates END_FAT_ENTRY
                (total_clusters vol + 2)) as (v & Hcl & Hv & Hfv & Hlv);
      [done|by split; [|apply END_not_data, Hok1]|unfold END_FAT_ENTRY; lia|lia|].
    rewrite Ebp, Hcl. simpl. exists v. split_and!; [done| | |by rewrite Hlv].
    + eapply fat_is_ext; [|eapply fat_is_trans; [exact Ht|exact Hv]].
      intros x Hx. rewrite <-(freed_linked (entry vol) candidates x Hz).
      unfold freed. destruct (decide (x ∈ candidates)); [done|]. by apply (fi_entry _ _ _ Ht).
    + rewrite Hfv, decide_False, Hf, u32_add_u32 by done. rewrite u32_small; lia.
Qed.
End Outcome.
