(* ===== verification/Sample.v ===== *)
(** Concrete volumes, small enough to compute with, on which the witnesses of
    the theorems evaluate. *)
From stdpp Require Import base gmap list.
From Stdlib Require Import ZArith Lia.
From S2P Require Import Prelude Errors Volume Fat FatEntry.

Definition zeros (n : Z) : block := repeat 0 (Z.to_nat n).

(** An empty volume: one reserved sector, two mirrored tables of [spf]
    sectors, five sectors of fixed root directory; the first sixteen data
    sectors and one more are readable. *)
Definition empty_volume (bits total spf : Z) : nspace :=
  Nspace
    (Bpb 512 1 1 2 80 (6 + 2 * spf + total) spf 0xf8 0xffff total bits true 0
       (1 + 2 * spf) 5 (6 + 2 * spf))
    (list_to_map (map (fun s => (s, zeros 512)) (seqZ 1 (2 * spf + 21) ++ [349])))
    total 2 0 0
    (Vnode 1 1 None None 0 0 0 (-1) 1 FAT_SUBDIR 2560 0 1 None false) (-2) [] 0 false
    (Vcache (Z.shiftl 0x6 60) 512 ∅ ∅) (Dlist 0 0 []) [].

(** A diskette with the chain 2, 3, 341, 4 (the entry of 341 lies across a
    sector boundary) and a cycle 10, 11. *)
Definition set_entries (l : list (Z * Z)) (vol : nspace) : nspace :=
  foldl (fun v '(c, x) => snd (set_fat_entry v c x)) vol l.
Definition floppy : nspace :=
  set_free_clusters 494
    (set_entries [(2, 3); (3, 341); (341, 4); (4, END_FAT_ENTRY); (10, 11); (11, 10)]
       (empty_volume 12 500 2)).

Lemma floppy_ok : fat_ok floppy.
Proof. apply fat_okb_true. vm_compute. reflexivity. Qed.

(** A 16 bit volume with two free clusters left, at the end. *)
Definition nearly_full : nspace :=
  set_last_allocated 4 (set_free_clusters 2
    (set_entries (map (fun c => (c, END_FAT_ENTRY)) (seqZ 2 6)) (empty_volume 16 8 1))).

Lemma nearly_full_ok : fat_ok nearly_full.
Proof. apply fat_okb_true. vm_compute. reflexivity. Qed.

(** A 32 bit volume, where the count of free clusters meets the slots past the
    last cluster. *)
Definition tiny32 : nspace := set_entries [(2, END_FAT_ENTRY)] (empty_volume 32 8 1).

Lemma tiny32_ok : fat_ok tiny32.
Proof. apply fat_okb_true. vm_compute. reflexivity. Qed.
