(* ===== verification/FatSpec.v ===== *)
(** What the file allocation table promises the rest of the file system. *)
From stdpp Require Import base gmap list.
From Stdlib Require Import ZArith Lia.
From S2P Require Import Prelude Errors Volume Fat FatEntry FatIoctl FatTable FatChain FatAlloc Sample.

Implicit Types vol v : nspace.

(** C1: allocating [n] clusters.  When the table has [n] free entries, the
    call succeeds, links the first [n] free clusters met from the allocation
    hint on, round the table, into one chain that ends properly, changes no
    other entry and nothing outside the tables, keeps the copies of the table
    equal, and accounts for the clusters. *)
Theorem allocate_n_links vol n :
  fat_ok vol -> data_cluster vol (last_allocated vol) -> 0 < n < 2 ^ 32 ->
  n <= free_clusters vol < 2 ^ 32 ->
  n <= count_zero (entry vol) 2 (total_clusters vol) ->
  exists first l v, allocate_n_fat_entries vol n = (B_OK, first, v) /\
    l = take (Z.to_nat n) (free_visited vol (last_allocated vol) (total_clusters vol)) /\
    Z.of_nat (length l) = n /\ chain v first l END_FAT_ENTRY /\
    (forall c, c ∈ l -> entry vol c = 0) /\
    (forall c, data_cluster vol c -> c ∉ l -> entry v c = entry vol c) /\
    free_clusters v = free_clusters vol - n /\ Some (last_allocated v) = last l /\
    fat_frame vol v /\ fat_ok v /\ (mirrored vol -> mirrored v).
Proof.
  intros Hok Hhint Hn Hfree Hcount. pose proof (geo_total _ (ok_geo _ Hok)) as Ht.
  rewrite <-(free_visited_lap vol (last_allocated vol) Ht) in Hcount.
  destruct (alloc_ok vol Hok n Hn ltac:(lia) Hhint Hcount) as (v & He & Hv & Hch & Hf & Hl).
  destruct (candidates_facts vol Hok) as (Hnd & Hdl & Hz).
  set (l := take (Z.to_nat n) _) in *. exists (hd 0 l), l, v.
  split_and!; try done.
  - subst l. rewrite length_take. lia.
  - intros c Hc. apply Hz. subst l. apply elem_of_take in Hc as (i & Hi & _). by eapply list_elem_of_lookup_2.
  - intros c Hc Hcl. rewrite (fi_entry _ _ _ Hv c Hc). by apply linked_notin.
  - rewrite Hf, u32_small; lia.
  - apply Hv.
  - apply Hv.
  - apply (fi_mirror _ _ _ Hv).
Qed.

Lemma allocate_n_links_witness :
  exists first l v, allocate_n_fat_entries (set_last_allocated 340 floppy) 3 = (B_OK, first, v) /\
    l = [340; 342; 343] /\ first = 340.
Proof.
  destruct (allocate_n_links (set_last_allocated 340 floppy) 3) as (f & l & v & H & Hl & _ & Hc & _).
  - apply fat_okb_true. vm_compute. reflexivity.
  - split; vm_compute; [discriminate|reflexivity].
  - lia.
  - split; vm_compute; [discriminate|reflexivity].
  - vm_compute. discriminate.
  - exists f, l, v. split; [exact H|]. assert (El : l = [340; 342; 343]) by (rewrite Hl; vm_compute; reflexivity).
    split; [exact El|]. rewrite El in Hc. inversion Hc. reflexivity.
Defined.

(** C36: a failed allocation is undone.  With fewer free entries than asked
    for, the call reports a full device and leaves every entry, the free count
    and the hint as they were. *)
Theorem allocate_n_rolls_back vol n :
  fat_ok vol -> data_cluster vol (last_allocated vol) -> 0 < n < 2 ^ 32 ->
  0 <= free_clusters vol < 2 ^ 32 ->
  count_zero (entry vol) 2 (total_clusters vol) < n ->
  exists v, allocate_n_fat_entries vol n = (B_DEVICE_FULL, 0, v) /\
    (forall c, data_cluster vol c -> entry v c = entry vol c) /\
    free_clusters v = free_clusters vol /\ last_allocated v = last_allocated vol /\
    fat_frame vol v /\ fat_ok v /\ (mirrored vol -> mirrored v).
Proof.
  intros Hok Hhint Hn Hfree Hcount. pose proof (geo_total _ (ok_geo _ Hok)) as Ht.
  rewrite <-(free_visited_lap vol (last_allocated vol) Ht) in Hcount.
  destruct (alloc_full vol Hok n Hn Hfree Hhint Hcount) as (v & He & Hv & Hf & Hl).
  exists v. split_and!; try done; try apply Hv.
Qed.

Lemma allocate_n_rolls_back_witness :
  exists v, allocate_n_fat_entries nearly_full 3 = (B_DEVICE_FULL, 0, v) /\ free_clusters v = 2.
Proof.
  destruct (allocate_n_rolls_back nearly_full 3 nearly_full_ok) as (v & H & _ & Hf & _);
    [split; vm_compute; [discriminate|reflexivity]|lia|split; vm_compute; [discriminate|reflexivity]
    |vm_compute; reflexivity|].
  exists v. split; [exact H|]. rewrite Hf. vm_compute. reflexivity.
Defined.

(** C28: setting an entry is a write to the abstract table, in every copy of
    it: the entry reads back as the value in the table's width, no other entry
    and no other sector changes. *)
Theorem set_fat_entry_updates vol c x :
  fat_ok vol -> data_cluster vol c ->
  exists v, set_fat_entry vol c x = (B_OK, v) /\
    entry v c = norm_entry (fat_bits vol) (u32 x) /\
    (forall c', data_cluster vol c' -> c' <> c -> entry v c' = entry vol c') /\
    fat_frame vol v /\ fat_ok v /\ (mirrored vol -> mirrored v) /\
    (0 <= x < total_clusters vol + 2 -> get_fat_entry v c = classify vol x).
Proof.
  intros Hok Hc. destruct (set_fat_entry_eq vol c x Hok Hc) as (v & He & Hv & _).
  pose proof (fi_entry _ _ _ Hv) as Hen. unfold fat_upd in Hen.
  assert (E : entry v c = norm_entry (fat_bits vol) (u32 x))
    by (rewrite Hen by done; by rewrite Z.eqb_refl).
  exists v. split_and!; try done; try apply Hv.
  - intros c' Hc' Hne. rewrite Hen by done. by rewrite (proj2 (Z.eqb_neq c' c)).
  - intros Hx. pose proof (fat_is_bpb _ _ _ Hv) as Eb.
    rewrite get_fat_entry_eq; [|apply Hv|unfold data_cluster; by rewrite Eb].
    unfold next_in. rewrite E, (norm_entry_link vol x (ok_geo _ Hok) Hx). by apply classify_bpb.
Qed.

Lemma set_fat_entry_updates_witness :
  exists v, set_fat_entry floppy 341 300 = (B_OK, v) /\ entry v 341 = 300 /\ entry v 340 = 0.
Proof.
  destruct (set_fat_entry_updates floppy 341 300 floppy_ok) as (v & H & He & Ho & _);
    [split; vm_compute; [discriminate|reflexivity]|].
  exists v. split; [exact H|]. split; [rewrite He; vm_compute; reflexivity|].
  rewrite Ho; [vm_compute; reflexivity|split; vm_compute; [discriminate|reflexivity]|discriminate].
Defined.

(** C35: freeing a chain frees the clusters of the chain and those only, and
    adds them to the free count. *)
Theorem clear_fat_chain_frees vol c l e :
  fat_ok vol -> terminated vol c l e -> l <> [] ->
  exists v, clear_fat_chain vol c = (B_OK, v) /\
    (forall x, data_cluster vol x -> entry v x = if decide (x ∈ l) then 0 else entry vol x) /\
    free_clusters v = u32 (free_clusters vol + Z.of_nat (length l)) /\
    last_allocated v = last_allocated vol /\
    fat_frame vol v /\ fat_ok v /\ (mirrored vol -> mirrored v).
Proof.
  intros Hok Hc Hl. destruct (clear_fat_chain_ok vol c l e Hok Hc Hl) as (v & E & Hv & Hf & Hla).
  exists v. split_and!; try done; try apply Hv.
Qed.

Lemma floppy_chain : terminated floppy 2 [2; 3; 341; 4] END_FAT_ENTRY.
Proof.
  split; [|apply END_not_data, floppy_ok].
  apply chain_link; [split; vm_compute; [discriminate|reflexivity]|].
  replace (next_in floppy 2) with 3 by (vm_compute; reflexivity).
  apply chain_link; [split; vm_compute; [discriminate|reflexivity]|].
  replace (next_in floppy 3) with 341 by (vm_compute; reflexivity).
  apply chain_link; [split; vm_compute; [discriminate|reflexivity]|].
  replace (next_in floppy 341) with 4 by (vm_compute; reflexivity).
  apply chain_link; [split; vm_compute; [discriminate|reflexivity]|].
  replace (next_in floppy 4) with END_FAT_ENTRY by (vm_compute; reflexivity).
  apply chain_stop.
Qed.

Lemma clear_fat_chain_frees_witness :
  exists v, clear_fat_chain floppy 2 = (B_OK, v) /\ entry v 341 = 0 /\ entry v 10 = 11 /\
    free_clusters v = 498.
Proof.
  destruct (clear_fat_chain_frees floppy 2 _ _ floppy_ok floppy_chain) as (v & H & He & Hf & _);
    [discriminate|].
  exists v. split; [exact H|]. split; [rewrite He; [reflexivity|split; vm_compute; [discriminate|reflexivity]]|].
  split; [rewrite He; [vm_compute; reflexivity|split; vm_compute; [discriminate|reflexivity]]|].
  rewrite Hf. vm_compute. reflexivity.
Defined.

(** Freeing ends with success on every readable table, whatever its
    entries say: a cycle is walked into its freed part, where it stops. *)
Theorem clear_fat_chain_terminates vol c :
  fat_ok vol -> data_cluster vol c ->
  exists v, clear_fat_chain vol c = (B_OK, v) /\ fat_frame vol v /\ fat_ok v /\
    (mirrored vol -> mirrored v).
Proof.
  intros Hok Hc. pose proof (ok_geo _ Hok) as Hg. pose proof (geo_total _ Hg) as Ht.
  pose proof (data_cluster_bound vol Hg c Hc). pose proof (max_cluster_small vol Hg).
  pose proof (count_zero_range (entry vol) 2 (total_clusters vol) ltac:(lia)).
  destruct (clear_loop_total vol c (total_clusters vol + 2) Hok ltac:(lia) ltac:(lia)) as (v & Hcl & Hv).
  exists v. unfold clear_fat_chain. rewrite is_data_true, Hcl by done.
  split_and!; try done; try apply Hv.
Qed.

Lemma clear_fat_chain_terminates_witness :
  get_fat_entry floppy (get_fat_entry floppy 10) = 10 /\
  exists v, clear_fat_chain floppy 10 = (B_OK, v) /\ fat_ok v.
Proof.
  split; [vm_compute; reflexivity|].
  destruct (clear_fat_chain_terminates floppy 10 floppy_ok) as (v & H & _ & Hv & _);
    [split; vm_compute; [discriminate|reflexivity]|].
  exists v. split; [exact H|exact Hv].
Defined.

(** The count of free clusters.  On 12 and 16 bit tables it is the number
    of free data clusters; on 32 bit tables it is the number of free slots in
    the sectors of the table, which takes in the two slots before the first
    cluster and whatever follows the last. *)
Theorem count_free_clusters_counts vol :
  fat_ok vol ->
  count_free_clusters vol =
  if fat_bits vol =? 32
  then count_zero (entry vol) 0 2 + count_zero (entry vol) 2 (total_clusters vol)
       + count_zero (entry vol) (total_clusters vol + 2) (fat_size vol / 4 - (total_clusters vol + 2))
  else count_zero (entry vol) 2 (total_clusters vol).
Proof.
  intros Hok. pose proof (geo_total _ (ok_geo _ Hok)) as Ht.
  pose proof (geo_room _ (ok_geo _ Hok)) as Hroom.
  change (sectors_per_fat vol * bytes_per_sector vol) with (fat_size vol) in Hroom.
  destruct (Z.eqb_spec (fat_bits vol) 32) as [Hb|Hb]; [|by apply count_free_12_16].
  rewrite Hb in Hroom. rewrite count_free_32 by done.
  assert (Hr : 0 <= fat_size vol / 4 - (total_clusters vol + 2)) by zlia.
  generalize dependent (fat_size vol / 4). intros s Hr.
  replace s with (2 + total_clusters vol + (s - (total_clusters vol + 2))) at 1 by lia.
  rewrite !count_zero_add by lia. do 2 f_equal. lia.
Qed.

Lemma count_free_clusters_counts_witness :
  count_free_clusters tiny32 = 127 /\ count_zero (entry tiny32) 2 (total_clusters tiny32) = 7.
Proof.
  rewrite (count_free_clusters_counts tiny32 tiny32_ok). split; vm_compute; reflexivity.
Defined.

(** following a chain: [get_nth_fat_entry] is the [n]th cluster of the
    chain, and past its end the value the chain ends with. *)
Theorem get_nth_fat_entry_follows vol c l e n :
  fat_ok vol -> terminated vol c l e -> l <> [] -> 0 <= n ->
  get_nth_fat_entry vol c n = default e (l !! Z.to_nat n).
Proof. apply get_nth_chain. Qed.

Lemma get_nth_fat_entry_follows_witness :
  get_nth_fat_entry floppy 2 2 = 341 /\ get_nth_fat_entry floppy 2 9 = END_FAT_ENTRY.
Proof.
  split; (rewrite (get_nth_fat_entry_follows floppy 2 _ _ _ floppy_ok floppy_chain);
    [reflexivity|discriminate|lia]).
Defined.

(** [count_clusters] always ends, gives the length of a chain that ends
    properly, and 0 for a cycle, for a chain that runs into a bad entry, and
    for a chain through all the clusters of the volume. *)
Theorem count_clusters_counts vol c :
  fat_ok vol -> c < 2 ^ 32 ->
  (forall n, count_clusters vol c = n <-> 
    (n <> 0 /\ n <> total_clusters vol /\
     exists l, terminated vol c l END_FAT_ENTRY /\ Z.of_nat (length l) = n) \/
    (n = 0 /\ ~ exists l, terminated vol c l END_FAT_ENTRY /\ l <> [] /\
                          Z.of_nat (length l) <> total_clusters vol)).
Proof.
  intros Hok Hc. pose proof (count_clusters_sound vol c Hok Hc) as Hs.
  assert (Hch : forall l, terminated vol c l END_FAT_ENTRY -> l <> [] ->
    count_clusters vol c = if Z.of_nat (length l) =? total_clusters vol then 0 else Z.of_nat (length l)).
  { intros l Hl Hne. rewrite (count_clusters_chain vol c l _ Hok Hl Hne). simpl.
    by destruct (_ =? total_clusters vol). }
  assert (Hlen : forall l : list Z, l <> [] -> Z.of_nat (length l) <> 0) by (intros []; done).
  intros n. split.
  - intros E. destruct (decide (n = 0)) as [->|Hn].
    + right. split; [done|]. intros (l & Hl & Hne & Hlt). rewrite (Hch l Hl Hne) in E.
      rewrite (proj2 (Z.eqb_neq _ _)) in E by done. by apply (Hlen l).
    + left. destruct Hs as [Hs|(l & Hl & El)]; [congruence|].
      assert (Hne : l <> []) by (intros ->; simpl in El; lia).
      rewrite (Hch l Hl Hne) in El, E.
      destruct (Z.eqb_spec (Z.of_nat (length l)) (total_clusters vol)); [congruence|].
      split_and!; [done|congruence|by exists l].
  - intros [(Hn & Hnt & l & Hl & El)|[-> Hno]].
    + assert (Hne : l <> []) by (intros ->; simpl in El; lia).
      rewrite (Hch l Hl Hne), El. by rewrite (proj2 (Z.eqb_neq _ _)).
    + destruct Hs as [Hs|(l & Hl & El)]; [done|].
      destruct (decide (l = [])) as [->|Hne]; [done|].
      rewrite (Hch l Hl Hne) in El |- *.
      destruct (Z.eqb_spec (Z.of_nat (length l)) (total_clusters vol)) as [|Hlt]; [done|].
      exfalso. apply Hno. by exists l.
Qed.

Lemma count_clusters_counts_witness :
  count_clusters floppy 2 = 4 /\ count_clusters floppy 10 = 0.
Proof.
  split; [|vm_compute; reflexivity].
  apply (count_clusters_counts floppy 2 floppy_ok); [lia|]. left.
  split; [discriminate|]. split; [vm_compute; discriminate|].
  exists [2; 3; 341; 4]. split; [exact floppy_chain|reflexivity].
Defined.

(** errors of a single entry access: a cluster that is none of the volume
    is refused, a sector that cannot be read is reported, and in both cases
    nothing changes. *)
Theorem entry_access_errors vol c x :
  geometry_ok vol ->
  (IS_DATA_CLUSTER vol c = false ->
     get_fat_entry vol c = B_BAD_VALUE /\ set_fat_entry vol c x = (B_BAD_VALUE, vol)) /\
  (data_cluster vol c ->
     fBlockCache vol !! (fat_start vol + entry_offset (fat_bits vol) c / bytes_per_sector vol) = None ->
     get_fat_entry vol c = B_IO_ERROR /\ set_fat_entry vol c x = (B_IO_ERROR, vol) /\
     clear_fat_chain vol c = (B_IO_ERROR, vol)).
Proof.
  intros Hg. split.
  - intros Hc. unfold get_fat_entry, set_fat_entry, fat_ioctl0.
    rewrite !body_bad_cluster; auto.
  - intros Hc Hn. pose proof (geo_total _ Hg).
    assert (Hget : get_fat_entry vol c = B_IO_ERROR).
    { unfold get_fat_entry, fat_ioctl0. by rewrite body_io_error by auto. }
    split_and!; [done| |].
    + unfold set_fat_entry, fat_ioctl0. rewrite body_io_error; auto.
    + unfold clear_fat_chain. rewrite is_data_true by done. simpl.
      rewrite z_loop_step by lia. unfold clear_step. rewrite is_data_true by done. simpl.
      by rewrite Hget.
Qed.

Lemma entry_access_errors_witness :
  let damaged := set_fBlockCache (delete 2 (fBlockCache floppy)) floppy in
  get_fat_entry damaged 1 = B_BAD_VALUE /\ get_fat_entry damaged 400 = B_IO_ERROR.
Proof.
  intros damaged.
  destruct (entry_access_errors damaged 1 0) as [H _]; [apply geometry_okb_true; vm_compute; reflexivity|].
  destruct (entry_access_errors damaged 400 0) as [_ H']; [apply geometry_okb_true; vm_compute; reflexivity|].
  split; [apply H; vm_compute; reflexivity|].
  apply H'; [split; vm_compute; [discriminate|reflexivity]|vm_compute; reflexivity].
Defined.
