(* ===== verification/Vcache.v ===== *)
(** The vnode id cache (vcache.c): the translation of vnode ids that no longer
    say where their file is.  Two hash tables of sorted chains refine a finite
    map from vnode ids to locations that is injective. *)
From stdpp Require Import base gmap list.
From Stdlib Require Import ZArith Lia Sorting.Sorted.
From S2P Require Import Prelude Errors Volume.

Implicit Types vol : nspace.

(** ** The operations *)

Definition set_cur_vnid (x : Z) (vc : vcache) : vcache :=
  Vcache x (cache_size vc) (by_vnid vc) (by_loc vc).
Definition set_by_vnid (x : gmap Z (list vcache_entry)) (vc : vcache) : vcache :=
  Vcache (cur_vnid vc) (cache_size vc) x (by_loc vc).
Definition set_by_loc (x : gmap Z (list vcache_entry)) (vc : vcache) : vcache :=
  Vcache (cur_vnid vc) (cache_size vc) (by_vnid vc) x.
Definition upd_vcache (f : vcache -> vcache) (vol : nspace) : nspace :=
  set_ns_vcache (f (ns_vcache vol)) vol.

Definition hash (vol : nspace) (x : Z) : Z := i32 (Z.land x (u32 (cache_size (ns_vcache vol) - 1))).

(** The chain of bucket [h]. *)
Definition bucket (t : gmap Z (list vcache_entry)) (h : Z) : list vcache_entry := default [] (t !! h).

Definition init_vcache (vol : nspace) : Z * nspace :=
  let vol := upd_vcache (set_cur_vnid ARTIFICIAL_VNID_BITS) vol in
  let vol := set_ns_vcache (Vcache (cur_vnid (ns_vcache vol)) 512
                              (by_vnid (ns_vcache vol)) (by_loc (ns_vcache vol))) vol in
  let '(ok, vol) := malloc_ok vol in
  if negb ok then (ENOMEM, upd_vcache (set_by_vnid ∅) vol)
  else
    let vol := upd_vcache (set_by_vnid ∅) vol in
    let '(ok, vol) := malloc_ok vol in
    if negb ok then (ENOMEM, upd_vcache (set_by_vnid ∅) (upd_vcache (set_by_loc ∅) vol))
    else (0, upd_vcache (set_by_loc ∅) vol).

Definition uninit_vcache (vol : nspace) : Z * nspace :=
  (B_OK, upd_vcache (set_by_loc ∅) (upd_vcache (set_by_vnid ∅) vol)).

Definition generate_unique_vnid (vol : nspace) : Z * nspace :=
  let x := cur_vnid (ns_vcache vol) in
  (x, upd_vcache (set_cur_vnid (i64 (x + 1))) vol).

(** The walk to the place of [e] in a chain sorted by [key]. *)
Fixpoint chain_insert (key : vcache_entry -> Z) (e : vcache_entry) (l : list vcache_entry)
    : list vcache_entry :=
  match l with
  | [] => [e]
  | c :: r => if key e <? key c then e :: c :: r else c :: chain_insert key e r
  end.

(** The entry of [vnid], and the chain without it. *)
Fixpoint chain_unlink (vnid : Z) (l : list vcache_entry)
    : option (vcache_entry * list vcache_entry) :=
  match l with
  | [] => None
  | c :: r =>
      if vnid =? ve_vnid c then Some (c, r)
      else match chain_unlink vnid r with
           | None => None
           | Some (e, r) => Some (e, c :: r)
           end
  end.

Fixpoint chain_find (key : vcache_entry -> Z) (x : Z) (l : list vcache_entry) : option vcache_entry :=
  match l with
  | [] => None
  | c :: r => if key c =? x then Some c else if x <? key c then None else chain_find key x r
  end.

Definition _add_to_vcache_ (vol : nspace) (vnid loc : Z) : Z * nspace :=
  let hash1 := hash vol vnid in
  let hash2 := hash vol loc in
  let '(ok, vol) := malloc_ok vol in
  if negb ok then (ENOMEM, vol)
  else
    let e := VEntry vnid loc in
    let t1 := by_vnid (ns_vcache vol) in
    let vol := upd_vcache (set_by_vnid (<[hash1 := chain_insert ve_vnid e (bucket t1 hash1)]> t1)) vol in
    let t2 := by_loc (ns_vcache vol) in
    let vol := upd_vcache (set_by_loc (<[hash2 := chain_insert ve_loc e (bucket t2 hash2)]> t2)) vol in
    (B_OK, vol).

Definition _remove_from_vcache_ (vol : nspace) (vnid : Z) : Z * nspace :=
  let hash1 := hash vol vnid in
  let t1 := by_vnid (ns_vcache vol) in
  match chain_unlink vnid (bucket t1 hash1) with
  | None => (ENOENT, vol)
  | Some (c, r) =>
      let vol := upd_vcache (set_by_vnid (<[hash1 := r]> t1)) vol in
      let hash2 := hash vol (ve_loc c) in
      let t2 := by_loc (ns_vcache vol) in
      match chain_unlink vnid (bucket t2 hash2) with
      | None => (ENOENT, vol)
      | Some (_, r) => (0, upd_vcache (set_by_loc (<[hash2 := r]> t2)) vol)
      end
  end.

Definition _find_vnid_in_vcache_ (vol : nspace) (vnid : Z) : option vcache_entry :=
  chain_find ve_vnid vnid (bucket (by_vnid (ns_vcache vol)) (hash vol vnid)).

Definition _find_loc_in_vcache_ (vol : nspace) (loc : Z) : option vcache_entry :=
  chain_find ve_loc loc (bucket (by_loc (ns_vcache vol)) (hash vol loc)).

Definition add_to_vcache (vol : nspace) (vnid loc : Z) : Z * nspace := _add_to_vcache_ vol vnid loc.

Definition _update_loc_in_vcache_ (vol : nspace) (vnid loc : Z) : Z * nspace :=
  let '(result, vol) := _remove_from_vcache_ vol vnid in
  if result =? 0 then _add_to_vcache_ vol vnid loc else (result, vol).

Definition remove_from_vcache (vol : nspace) (vnid : Z) : Z * nspace := _remove_from_vcache_ vol vnid.

(** The status, and what is stored through the pointer argument, [None] when
    nothing is. *)
Definition vcache_vnid_to_loc (vol : nspace) (vnid : Z) : Z * option Z :=
  match _find_vnid_in_vcache_ vol vnid with
  | Some e => (B_OK, Some (ve_loc e))
  | None => (ENOENT, None)
  end.

Definition vcache_loc_to_vnid (vol : nspace) (loc : Z) : Z * option Z :=
  match _find_loc_in_vcache_ vol loc with
  | Some e => (B_OK, Some (ve_vnid e))
  | None => (ENOENT, None)
  end.

Definition vcache_set_entry (vol : nspace) (vnid loc : Z) : Z * nspace :=
  match _find_vnid_in_vcache_ vol vnid with
  | Some e =>
      if ve_vnid e =? loc then _remove_from_vcache_ vol vnid
      else _update_loc_in_vcache_ vol vnid loc
  | None => if negb (vnid =? loc) then _add_to_vcache_ vol vnid loc else (B_OK, vol)
  end.
(* find_vnid_in_vcache, find_loc_in_vcache: dosfs.h *)
Definition find_vnid_in_vcache (vol : nspace) (vnid : Z) : Z := fst (vcache_vnid_to_loc vol vnid).
Definition find_loc_in_vcache (vol : nspace) (loc : Z) : Z := fst (vcache_loc_to_vnid vol loc).

(** ** Chains *)

Definition sorted (key : vcache_entry -> Z) : list vcache_entry -> Prop :=
  StronglySorted (fun a b => key a < key b).

Lemma chain_insert_elem key e l x : x ∈ chain_insert key e l <-> x = e \/ x ∈ l.
Proof.
  induction l as [|c l IH]; simpl.
  - rewrite list_elem_of_singleton, elem_of_nil. tauto.
  - destruct (_ <? _); rewrite !elem_of_cons; [tauto|]. rewrite IH. tauto.
Qed.

Lemma chain_insert_sorted key e l :
  sorted key l -> (forall c, c ∈ l -> key c <> key e) -> sorted key (chain_insert key e l).
Proof.
  induction 1 as [|c l Hs IH Hc]; intros Hne; simpl; [repeat constructor|].
  destruct (Z.ltb_spec (key e) (key c)) as [Hlt|Hge].
  - constructor; [by constructor|]. constructor; [done|].
    eapply Forall_impl; [exact Hc|]. simpl. lia.
  - assert (key c <> key e) by (apply Hne, list_elem_of_here).
    constructor; [apply IH; intros; by apply Hne, list_elem_of_further|].
    apply Forall_forall. intros x [->|Hx]%chain_insert_elem; [lia|].
    rewrite Forall_forall in Hc. auto.
Qed.

Lemma chain_find_Some key x l e :
  sorted key l -> chain_find key x l = Some e <-> e ∈ l /\ key e = x.
Proof.
  induction 1 as [|c l Hs IH Hc]; simpl.
  - split; [done|]. by intros [?%not_elem_of_nil _].
  - rewrite Forall_forall in Hc. rewrite elem_of_cons.
    destruct (Z.eqb_spec (key c) x) as [E|E].
    + split; [intros [= <-]; auto|]. intros [[->|He] Hk]; [done|]. specialize (Hc e He). lia.
    + destruct (Z.ltb_spec x (key c)) as [Hlt|Hge].
      * split; [done|]. intros [[->|He] Hk]; [done|]. specialize (Hc e He). lia.
      * rewrite IH. split; [tauto|]. intros [[->|He] Hk]; [done|tauto].
Qed.

Lemma chain_find_None key x l :
  sorted key l -> chain_find key x l = None <-> forall e, e ∈ l -> key e <> x.
Proof.
  intros Hs. split.
  - intros Hn e He E. pose proof (proj2 (chain_find_Some key x l e Hs) (conj He E)). congruence.
  - intros H. destruct (chain_find key x l) as [e|] eqn:E; [|done].
    apply chain_find_Some in E as [He Hk]; [|done]. by apply (H e) in He.
Qed.

Lemma chain_unlink_Some vnid l e r :
  NoDup l -> (forall a b, a ∈ l -> b ∈ l -> ve_vnid a = ve_vnid b -> a = b) ->
  chain_unlink vnid l = Some (e, r) ->
  e ∈ l /\ ve_vnid e = vnid /\ r `sublist_of` l /\ (forall x, x ∈ r <-> x ∈ l /\ x <> e).
Proof.
  revert e r. induction l as [|c l IH]; intros e r Hnd Hu; simpl; [done|].
  apply NoDup_cons in Hnd as [Hc Hnd]. destruct (Z.eqb_spec vnid (ve_vnid c)) as [->|Hne].
  - intros [= <- <-]. split_and!; [apply list_elem_of_here|done|by apply sublist_cons|].
    intros x. rewrite elem_of_cons. split; [|tauto]. intros Hx. split; [auto|].
    intros ->. done.
  - destruct (chain_unlink vnid l) as [[e' r']|] eqn:E; [|done]. intros [= <- <-].
    destruct (IH e' r' Hnd) as (He & Hk & Hsub & Hx); [|done|].
    { intros a b Ha Hb. apply Hu; by apply list_elem_of_further. }
    split_and!; [by apply list_elem_of_further|done|by apply sublist_skip|].
    intros x. rewrite !elem_of_cons, Hx. split; [|tauto].
    intros [->|[? ?]]; [|tauto]. split; [auto|]. intros ->. done.
Qed.

Lemma chain_unlink_None vnid l : chain_unlink vnid l = None <-> forall e, e ∈ l -> ve_vnid e <> vnid.
Proof.
  induction l as [|c l IH]; simpl.
  - split; [|done]. by intros _ e ?%not_elem_of_nil.
  - destruct (Z.eqb_spec vnid (ve_vnid c)) as [->|Hne].
    + split; [done|]. intros H. by destruct (H c (list_elem_of_here _ _)).
    + destruct (chain_unlink vnid l) as [[e r]|].
      * split; [done|]. intros H. exfalso.
        assert (@None (vcache_entry * list vcache_entry) = None) by done.
        enough (Some (e, r) = None) by done. apply IH. intros x Hx. by apply H, list_elem_of_further.
      * split; [|done]. intros _ x [->|Hx]%elem_of_cons; [done|]. by apply (proj1 IH eq_refl).
Qed.

Lemma sorted_nodup key l : sorted key l -> NoDup l.
Proof.
  induction 1 as [|c l Hs IH Hc]; constructor; [|done].
  intros Hin. rewrite Forall_forall in Hc. specialize (Hc c Hin). lia.
Qed.

Lemma sorted_sublist key l r : r `sublist_of` l -> sorted key l -> sorted key r.
Proof.
  induction 1 as [|c l r Hsub IH|c l r Hsub IH]; intros Hs; [done| |].
  - apply StronglySorted_inv in Hs as [Hs Hc]. constructor; [by apply IH|].
    apply Forall_forall. intros x Hx. rewrite Forall_forall in Hc.
    apply Hc. by eapply elem_of_sublist.
  - apply StronglySorted_inv in Hs as [Hs Hc]. by apply IH.
Qed.

(** ** The map the tables hold

    [vc_maps vol m]: the two tables index the same entries, those of [m], by
    vnode id and by location. *)
Record table_maps (key : vcache_entry -> Z) (H : Z -> Z) (t : gmap Z (list vcache_entry))
    (m : gmap Z Z) : Prop := {
  tm_sorted : forall h, sorted key (bucket t h);
  tm_elem : forall h e, e ∈ bucket t h <-> H (key e) = h /\ m !! ve_vnid e = Some (ve_loc e)
}.

Record vc_maps (vol : nspace) (m : gmap Z Z) : Prop := {
  vm_vnid : table_maps ve_vnid (hash vol) (by_vnid (ns_vcache vol)) m;
  vm_loc : table_maps ve_loc (hash vol) (by_loc (ns_vcache vol)) m;
  vm_inj : forall v v' l, m !! v = Some l -> m !! v' = Some l -> v = v';
  vm_moved : forall v l, m !! v = Some l -> v <> l
}.

(** Only the cache, and the store of future allocations, change. *)
Definition vcache_frame (vol vol' : nspace) : Prop :=
  exists h t1 t2, vol' = set_heap h (upd_vcache (set_by_loc t2) (upd_vcache (set_by_vnid t1) vol)).

#[export] Instance vcache_frame_preorder : PreOrder vcache_frame.
Proof.
  split.
  - intros vol. exists (heap vol), (by_vnid (ns_vcache vol)), (by_loc (ns_vcache vol)).
    destruct vol as [? ? ? ? ? ? ? ? ? ? ? vc ? ?]. by destruct vc.
  - intros v1 v2 v3 (h & t1 & t2 & ->) (h' & t1' & t2' & ->). by exists h', t1', t2'.
Qed.

Lemma bucket_insert t h l h' : bucket (<[h := l]> t) h' = if h =? h' then l else bucket t h'.
Proof.
  unfold bucket. destruct (Z.eqb_spec h h') as [->|Hne].
  - by rewrite lookup_insert_eq.
  - by rewrite lookup_insert_ne.
Qed.

(** An insertion into the chain of its bucket is an insertion into the map. *)
Lemma table_insert key H t m e :
  table_maps key H t m -> m !! ve_vnid e = None ->
  (forall c, m !! ve_vnid c = Some (ve_loc c) -> key c <> key e) ->
  table_maps key H (<[H (key e) := chain_insert key e (bucket t (H (key e)))]> t)
    (<[ve_vnid e := ve_loc e]> m).
Proof.
  intros [Hs He] Hn Hk. split.
  - intros h. rewrite bucket_insert. destruct (_ =? _); [|done].
    apply chain_insert_sorted; [done|]. intros c [_ Hc]%He. by apply Hk.
  - intros h x. rewrite bucket_insert, lookup_insert.
    assert (Hx : ve_vnid e = ve_vnid x -> Some (ve_loc e) = Some (ve_loc x) -> x = e)
      by (destruct x, e; simpl; congruence).
    destruct (Z.eqb_spec (H (key e)) h) as [<-|Hh].
    + rewrite chain_insert_elem, He. split.
      * intros [->|[Hh Hm]]; [by rewrite decide_True|]. split; [done|].
        rewrite decide_False by congruence. done.
      * intros [Hh Hm]. case_decide; auto.
    + rewrite He. split.
      * intros [Hh' Hm]. rewrite decide_False by congruence. done.
      * intros [Hh' Hm]. split; [done|]. case_decide; [|done].
        rewrite Hx in Hh' by done. done.
Qed.

(** The keys of a table of a map determine its entries. *)
Lemma table_unlink key H t m vnid loc :
  table_maps key H t m -> m !! vnid = Some loc ->
  exists r, chain_unlink vnid (bucket t (H (key (VEntry vnid loc)))) = Some (VEntry vnid loc, r) /\
    table_maps key H (<[H (key (VEntry vnid loc)) := r]> t) (delete vnid m).
Proof.
  intros [Hs He] Hm. set (e := VEntry vnid loc). set (h := H (key e)).
  assert (Hin : e ∈ bucket t h) by by apply He.
  assert (Hu : forall a b, a ∈ bucket t h -> b ∈ bucket t h -> ve_vnid a = ve_vnid b -> a = b).
  { intros a b [_ Ha]%He [_ Hb]%He E. rewrite E in Ha. destruct a, b; simpl in *; congruence. }
  destruct (chain_unlink vnid (bucket t h)) as [[c r]|] eqn:E.
  2: { exfalso. by apply (proj1 (chain_unlink_None _ _) E e). }
  pose proof (sorted_nodup _ _ (Hs h)) as Hnd.
  destruct (chain_unlink_Some vnid (bucket t h) c r Hnd Hu E) as (Hc & Hk & Hsub & Hr).
  assert (c = e) as -> by by apply Hu.
  exists r. split; [done|]. split.
  - intros h'. rewrite bucket_insert. destruct (_ =? _); [by eapply sorted_sublist|done].
  - intros h' x. rewrite bucket_insert, lookup_delete. destruct (Z.eqb_spec h h') as [<-|Hh].
    + rewrite Hr, He. split.
      * intros [[Hh Hx] Hne]. rewrite decide_False; [done|]. intros Ex. apply Hne.
        rewrite <-Ex in Hx. destruct x; unfold e; simpl in *; congruence.
      * intros [Hh Hx]. case_decide; [done|]. split; [done|]. intros ->. done.
    + rewrite He. split.
      * intros [Hh' Hx]. split; [done|]. rewrite decide_False; [done|]. intros Ex.
        rewrite <-Ex in Hx. assert (x = e) as -> by (destruct x; unfold e; simpl in *; congruence).
        done.
      * intros [Hh' Hx]. case_decide; done.
Qed.

Section Refine.
Context (vol : nspace) (m : gmap Z Z) (Hvm : vc_maps vol m).

Lemma find_vnid_spec vnid : _find_vnid_in_vcache_ vol vnid = VEntry vnid <$> m !! vnid.
Proof using Hvm.
  unfold _find_vnid_in_vcache_. destruct (vm_vnid _ _ Hvm) as [Hs He].
  destruct (m !! vnid) as [loc|] eqn:E; simpl.
  - apply chain_find_Some; [done|]. by rewrite He.
  - apply chain_find_None; [done|]. intros [v l] [_ Hm]%He ?. simpl in *. congruence.
Qed.

Lemma find_loc_spec loc e :
  _find_loc_in_vcache_ vol loc = Some e <-> m !! ve_vnid e = Some loc /\ ve_loc e = loc.
Proof using Hvm.
  unfold _find_loc_in_vcache_. destruct (vm_loc _ _ Hvm) as [Hs He].
  rewrite chain_find_Some, He by done. split; intros; intuition congruence.
Qed.

Lemma add_spec vnid loc :
  m !! vnid = None -> (forall v, m !! v <> Some loc) -> vnid <> loc ->
  exists v, vcache_frame vol v /\
    if fst (malloc_ok vol)
    then _add_to_vcache_ vol vnid loc = (B_OK, v) /\ vc_maps v (<[vnid := loc]> m)
    else _add_to_vcache_ vol vnid loc = (ENOMEM, v) /\ vc_maps v m.
Proof using Hvm.
  intros Hn Hl Hne. destruct Hvm as [H1 H2 H3 H4]. unfold _add_to_vcache_.
  assert (Hh : exists h, snd (malloc_ok vol) = set_heap h vol).
  { unfold malloc_ok. destruct (heap vol) as [|b r] eqn:E; [exists []|by exists r].
    destruct vol; simpl in *; by subst. }
  destruct Hh as [h Hh]. destruct (malloc_ok vol) as [ok w]. simpl in Hh. subst w. simpl.
  destruct ok; simpl.
  - eexists. split; [|split; [reflexivity|]].
    { eexists h, _, _. reflexivity. }
    split; simpl.
    + apply (table_insert ve_vnid (hash vol) _ m (VEntry vnid loc)); [done|done|].
      intros c Hc E. simpl in E. rewrite E in Hc. congruence.
    + apply (table_insert ve_loc (hash vol) _ m (VEntry vnid loc)); [done|done|].
      intros c Hc E. simpl in E. apply (Hl (ve_vnid c)). congruence.
    + intros v v' l. rewrite !lookup_insert. repeat case_decide; subst; try done; [| |apply H3].
      * intros [= ->] Hv'. by apply Hl in Hv'.
      * intros Hv [= ->]. by apply Hl in Hv.
    + intros v l. rewrite lookup_insert. case_decide; [|apply H4]. by intros [= <-]; subst.
  - eexists. split; [|split; [reflexivity|by split]].
    exists h, (by_vnid (ns_vcache vol)), (by_loc (ns_vcache vol)).
    destruct vol as [? ? ? ? ? ? ? ? ? ? ? vc ? ?]. by destruct vc.
Qed.

Lemma remove_spec vnid loc :
  m !! vnid = Some loc ->
  exists v, _remove_from_vcache_ vol vnid = (0, v) /\ vcache_frame vol v /\ heap v = heap vol /\
    vc_maps v (delete vnid m).
Proof using Hvm.
  intros Hm. destruct Hvm as [H1 H2 H3 H4]. unfold _remove_from_vcache_.
  destruct (table_unlink ve_vnid (hash vol) _ m vnid loc H1 Hm) as (r1 & E1 & T1).
  destruct (table_unlink ve_loc (hash vol) _ m vnid loc H2 Hm) as (r2 & E2 & T2).
  simpl in E1, E2. rewrite E1.
  change (hash (upd_vcache _ vol)) with (hash vol).
  change (by_loc (ns_vcache (upd_vcache _ vol))) with (by_loc (ns_vcache vol)).
  simpl ve_loc. rewrite E2. eexists. split; [reflexivity|]. split; [|split; [done|]].
  - by exists (heap vol), (<[hash vol vnid := r1]> (by_vnid (ns_vcache vol))),
      (<[hash vol loc := r2]> (by_loc (ns_vcache vol))).
  - split; [exact T1|exact T2| |].
    + intros v v' l. rewrite !lookup_delete. repeat case_decide; try done. apply H3.
    + intros v l. rewrite lookup_delete. case_decide; [done|]. apply H4.
Qed.

Lemma remove_none vnid : m !! vnid = None -> _remove_from_vcache_ vol vnid = (ENOENT, vol).
Proof using Hvm.
  intros Hm. unfold _remove_from_vcache_. destruct (vm_vnid _ _ Hvm) as [_ He].
  rewrite (proj2 (chain_unlink_None _ _)); [done|]. intros e [_ Hk]%He E. congruence.
Qed.
End Refine.

(** ** The contract *)

(** An initialised cache holds the empty map. *)
Lemma empty_table key H : table_maps key H ∅ ∅.
Proof.
  split; [intros h; constructor|]. intros h e. unfold bucket. rewrite lookup_empty. simpl.
  rewrite elem_of_nil, lookup_empty. split; [done|by intros [_ ?]].
Qed.

Lemma init_vcache_maps vol v : init_vcache vol = (0, v) -> vc_maps v ∅.
Proof.
  unfold init_vcache. set (v0 := set_ns_vcache _ _).
  destruct (malloc_ok v0) as [[] v1]; simpl; [|done].
  assert (Hm : forall w, by_vnid (ns_vcache (snd (malloc_ok w))) = by_vnid (ns_vcache w))
    by (intros w; unfold malloc_ok; by destruct (heap w)).
  specialize (Hm (upd_vcache (set_by_vnid ∅) v1)).
  destruct (malloc_ok _) as [[] v2]; simpl in *; [|done]. intros [= <-].
  split; simpl; [rewrite Hm; apply empty_table|apply empty_table| |];
    intros *; rewrite lookup_empty; done.
Qed.

(** The map after [vcache_set_entry]: a location equal to the id needs no
    entry. *)
Definition set_spec (m : gmap Z Z) (vnid loc : Z) : gmap Z Z :=
  if vnid =? loc then delete vnid m else <[vnid := loc]> m.

Lemma set_entry_spec vol m vnid loc :
  vc_maps vol m -> (forall v, v <> vnid -> m !! v <> Some loc) ->
  exists v, vcache_frame vol v /\
    if (vnid =? loc) || fst (malloc_ok vol)
    then vcache_set_entry vol vnid loc = (B_OK, v) /\ vc_maps v (set_spec m vnid loc)
    else vcache_set_entry vol vnid loc = (ENOMEM, v) /\ vc_maps v (delete vnid m).
Proof.
  intros Hvm Hloc. unfold vcache_set_entry, set_spec. rewrite (find_vnid_spec vol m Hvm).
  destruct (m !! vnid) as [l|] eqn:E; simpl.
  - destruct (remove_spec vol m Hvm vnid l E) as (v & Hr & Hf & Hh & Hv).
    destruct (Z.eqb_spec vnid loc) as [->|Hne]; simpl; [by exists v|].
    unfold _update_loc_in_vcache_. rewrite Hr. simpl.
    destruct (add_spec v (delete vnid m) Hv vnid loc) as (w & Hf' & Hw).
    + apply lookup_delete_eq.
    + intros x. rewrite lookup_delete. case_decide; [done|]. by apply Hloc.
    + done.
    + exists w. split; [by transitivity v|].
      assert (Eo : fst (malloc_ok v) = fst (malloc_ok vol)) by (unfold malloc_ok; rewrite Hh; by destruct (heap vol)).
      rewrite Eo in Hw. destruct (fst (malloc_ok vol)); [|done].
      by rewrite insert_delete_eq in Hw.
  - destruct (Z.eqb_spec vnid loc) as [->|Hne]; simpl.
    + exists vol. split; [done|]. split; [done|]. by rewrite delete_id.
    + destruct (add_spec vol m Hvm vnid loc) as (v & Hf & Hv); [done| |done|].
      * intros x. destruct (decide (x = vnid)) as [->|]; [congruence|by apply Hloc].
      * exists v. split; [done|]. destruct (fst (malloc_ok vol)); [done|].
        by rewrite delete_id.
Qed.

(** C38: the cache refines a map from vnode ids to locations: setting an entry
    inserts the new location, or forgets the id when its location is the id
    itself; nothing outside the cache changes, and the two tables stay sorted
    indices of the same entries.  The one failure is a lack of memory, and
    then the id has lost the location it had. *)
Theorem vcache_set_entry_refines vol m vnid loc :
  vc_maps vol m -> (forall v, v <> vnid -> m !! v <> Some loc) ->
  exists v, vcache_frame vol v /\
    if (vnid =? loc) || fst (malloc_ok vol)
    then vcache_set_entry vol vnid loc = (B_OK, v) /\ vc_maps v (set_spec m vnid loc)
    else vcache_set_entry vol vnid loc = (ENOMEM, v) /\ vc_maps v (delete vnid m).
Proof. apply set_entry_spec. Qed.

(** A cache with two entries, the ids of which share a bucket. *)
Definition cached (vol : nspace) : nspace :=
  let '(_, vol) := init_vcache vol in
  let '(_, vol) := vcache_set_entry vol 600 7 in
  snd (vcache_set_entry vol 88 9).

Lemma cached_maps vol : heap vol = [] -> vc_maps (cached vol) (<[88 := 9]> (<[600 := 7]> ∅)).
Proof.
  intros Hh. unfold cached.
  assert (Hi : exists v, init_vcache vol = (0, v) /\ heap v = []).
  { unfold init_vcache, malloc_ok. simpl. rewrite Hh. simpl. rewrite Hh. by eexists. }
  destruct Hi as (v & Hi & Hv). rewrite Hi.
  destruct (set_entry_spec v ∅ 600 7 (init_vcache_maps _ _ Hi)) as (w & _ & Hw); [done|].
  unfold malloc_ok in Hw. rewrite Hv in Hw. destruct Hw as [Ew Hw].
  change (vc_maps w (<[600 := 7]> ∅)) in Hw.
  assert (Hwh : heap w = []).
  { revert Ew. unfold vcache_set_entry. rewrite (find_vnid_spec v ∅ (init_vcache_maps _ _ Hi)).
    simpl. unfold _add_to_vcache_, malloc_ok. rewrite Hv. simpl. by intros [= <-]. }
  rewrite Ew. destruct (set_entry_spec w _ 88 9 Hw) as (x & _ & Hx).
  { intros u _. rewrite lookup_insert. by case_decide. }
  unfold malloc_ok in Hx. rewrite Hwh in Hx. destruct Hx as [Ex Hx]. rewrite Ex. exact Hx.
Qed.

Definition no_volume : nspace :=
  Nspace (Bpb 512 1 1 1 0 0 1 0 0 1 12 false 0 0 0 0) ∅ 0 2 0 0
    (Vnode 0 0 None None 0 0 0 0 0 0 0 0 0 None false) 0 [] 0 false (Vcache 0 512 ∅ ∅) (Dlist 0 0 []) [].

Lemma vcache_set_entry_refines_witness :
  exists v, vcache_set_entry (cached no_volume) 88 20 = (B_OK, v) /\
    vc_maps v (<[88 := 20]> (<[88 := 9]> (<[600 := 7]> ∅))).
Proof.
  destruct (vcache_set_entry_refines (cached no_volume) _ 88 20 (cached_maps no_volume eq_refl))
    as (v & _ & Hv).
  - intros u Hu. rewrite !lookup_insert, lookup_empty. repeat case_decide; congruence.
  - simpl in Hv. exists v. exact Hv.
Defined.

(** Lookups.  Both directions of the translation answer from the one map,
    so they are inverse to each other. *)
Theorem vcache_lookups_refine vol m :
  vc_maps vol m ->
  (forall vnid, vcache_vnid_to_loc vol vnid =
     match m !! vnid with Some loc => (B_OK, Some loc) | None => (ENOENT, None) end) /\
  (forall loc, match vcache_loc_to_vnid vol loc with
     | (r, Some vnid) => r = B_OK /\ m !! vnid = Some loc
     | (r, None) => r = ENOENT /\ forall vnid, m !! vnid <> Some loc
     end) /\
  (forall vnid loc, vcache_vnid_to_loc vol vnid = (B_OK, Some loc) <->
                    vcache_loc_to_vnid vol loc = (B_OK, Some vnid)).
Proof.
  intros Hvm.
  assert (H1 : forall vnid, vcache_vnid_to_loc vol vnid =
     match m !! vnid with Some loc => (B_OK, Some loc) | None => (ENOENT, None) end).
  { intros vnid. unfold vcache_vnid_to_loc. rewrite (find_vnid_spec vol m Hvm). by destruct (m !! vnid). }
  assert (H2 : forall loc vnid, vcache_loc_to_vnid vol loc = (B_OK, Some vnid) <-> m !! vnid = Some loc).
  { intros loc vnid. unfold vcache_loc_to_vnid.
    pose proof (find_loc_spec vol m Hvm loc (VEntry vnid loc)) as Hf. simpl in Hf.
    destruct (_find_loc_in_vcache_ vol loc) as [e|] eqn:E; simpl.
    - split.
      + intros [= <-]. by apply (find_loc_spec vol m Hvm loc e) in E as [E _].
      + intros Hm. pose proof (proj2 Hf (conj Hm eq_refl)) as Hx. by injection Hx as ->.
    - split; [done|]. intros Hm. pose proof (proj2 Hf (conj Hm eq_refl)). congruence. }
  split_and!; [done| |].
  - intros loc. destruct (vcache_loc_to_vnid vol loc) as [r [vnid|]] eqn:E.
    + assert (r = B_OK) as -> by (revert E; unfold vcache_loc_to_vnid; destruct (_find_loc_in_vcache_ _ _); congruence).
      split; [done|]. by apply H2.
    + split; [revert E; unfold vcache_loc_to_vnid; destruct (_find_loc_in_vcache_ _ _); congruence|].
      intros vnid Hm%H2. congruence.
  - intros vnid loc. rewrite H1, H2. by destruct (m !! vnid); split; congruence.
Qed.

Lemma vcache_lookups_refine_witness :
  vcache_vnid_to_loc (cached no_volume) 600 = (B_OK, Some 7) /\
  vcache_loc_to_vnid (cached no_volume) 7 = (B_OK, Some 600).
Proof.
  destruct (vcache_lookups_refine _ _ (cached_maps no_volume eq_refl)) as (H1 & _ & H3).
  assert (E : vcache_vnid_to_loc (cached no_volume) 600 = (B_OK, Some 7)) by (rewrite H1; reflexivity).
  split; [exact E|]. apply H3, E.
Defined.

(** [add_to_vcache] and [remove_from_vcache] are insertion and deletion,
    removing an id without an entry is an error that changes nothing. *)
Theorem vcache_add_remove_refine vol m vnid loc :
  vc_maps vol m ->
  (m !! vnid = None -> (forall v, m !! v <> Some loc) -> vnid <> loc ->
     exists v, vcache_frame vol v /\
       if fst (malloc_ok vol)
       then add_to_vcache vol vnid loc = (B_OK, v) /\ vc_maps v (<[vnid := loc]> m)
       else add_to_vcache vol vnid loc = (ENOMEM, v) /\ vc_maps v m) /\
  match m !! vnid with
  | Some _ => exists v, remove_from_vcache vol vnid = (0, v) /\ vcache_frame vol v /\
                        vc_maps v (delete vnid m)
  | None => remove_from_vcache vol vnid = (ENOENT, vol)
  end.
Proof.
  intros Hvm. split; [by apply add_spec|].
  destruct (m !! vnid) as [l|] eqn:E; [|by apply (remove_none vol m)].
  destruct (remove_spec vol m Hvm vnid l E) as (v & H1 & H2 & _ & H3). by exists v.
Qed.

Lemma vcache_add_remove_refine_witness :
  (exists v, add_to_vcache (cached no_volume) 5 6 = (B_OK, v)) /\
  (exists v, remove_from_vcache (cached no_volume) 88 = (0, v)) /\
  remove_from_vcache (cached no_volume) 7 = (ENOENT, cached no_volume).
Proof.
  pose proof (cached_maps no_volume eq_refl) as Hc. split; [|split].
  - destruct (vcache_add_remove_refine _ _ 5 6 Hc) as [H _].
    destruct H as (v & _ & Hv & _); [reflexivity| |discriminate|by exists v].
    intros u. rewrite !lookup_insert, lookup_empty. repeat case_decide; congruence.
  - destruct (vcache_add_remove_refine _ _ 88 6 Hc) as [_ (v & Hv & _)]. by exists v.
  - apply (vcache_add_remove_refine _ _ 7 6 Hc).
Defined.
