(* ===== verification/Dlist.v ===== *)
(** The list of known directories (dlist.c): the vnode ids of the directories
    met so far, searched by the cluster a directory is at. *)
From stdpp Require Import base gmap list.
From Stdlib Require Import ZArith Lia.
From S2P Require Import Prelude Errors Volume Vcache.

Implicit Types vol : nspace.

Definition DLIST_ENTRY_QUANTUM : Z := 0x20.

Definition upd_dlist (f : dlist -> dlist) (vol : nspace) : nspace :=
  set_ns_dlist (f (ns_dlist vol)) vol.

(** The slots of a fresh array that nothing has been stored in yet. *)
Definition fresh_slots (n : Z) : list Z := repeat 0 (Z.to_nat n).

Definition dlist_init (vol : nspace) : Z * nspace :=
  let '(ok, vol) := malloc_ok vol in
  if negb ok then (ENOMEM, set_ns_dlist (Dlist 0 0 []) vol)
  else (B_OK, set_ns_dlist (Dlist 0 DLIST_ENTRY_QUANTUM (fresh_slots DLIST_ENTRY_QUANTUM)) vol).

Definition dlist_uninit (vol : nspace) : Z * nspace := (B_OK, set_ns_dlist (Dlist 0 0 []) vol).

Definition dlist_realloc (vol : nspace) (allocate : Z) : Z * nspace :=
  let '(ok, vol) := malloc_ok vol in
  if negb ok then (ENOMEM, vol)
  else
    let n := entries (ns_dlist vol) in
    (B_OK, set_ns_dlist (Dlist n allocate
       (take (Z.to_nat n) (vnid_list (ns_dlist vol)) ++ fresh_slots (allocate - n))) vol).

Definition dlist_add (vol : nspace) (vnid : Z) : Z * nspace :=
  let store vol :=
    (B_OK, upd_dlist (fun d => Dlist (u32 (entries d + 1)) (allocated d)
                                 (<[Z.to_nat (entries d) := vnid]> (vnid_list d))) vol) in
  if entries (ns_dlist vol) =? allocated (ns_dlist vol) then
    let '(r, vol) := dlist_realloc vol (u32 (allocated (ns_dlist vol) + DLIST_ENTRY_QUANTUM)) in
    if r <? 0 then (B_ERROR, vol) else store vol
  else store vol.

(** The index of the first slot from [i] on that holds [vnid], or the end. *)
Fixpoint dlist_index (vnid : Z) (l : list Z) (i : Z) : Z :=
  match l with
  | [] => i
  | x :: r => if x =? vnid then i else dlist_index vnid r (i + 1)
  end.

Definition dlist_remove (vol : nspace) (vnid : Z) : Z * nspace :=
  let d := ns_dlist vol in
  let i := dlist_index vnid (take (Z.to_nat (entries d)) (vnid_list d)) 0 in
  if i =? entries d then (ENOENT, vol)
  else
    let l := foldl (fun l j => <[Z.to_nat j := nth (Z.to_nat (j + 1)) l 0]> l) (vnid_list d)
               (seqZ i (entries d - 1 - i)) in
    let vol := set_ns_dlist (Dlist (u32 (entries d - 1)) (allocated d) l) vol in
    let d := ns_dlist vol in
    if 2 * DLIST_ENTRY_QUANTUM <? u32 (allocated d - entries d)
    then dlist_realloc vol (u32 (allocated d - DLIST_ENTRY_QUANTUM))
    else (B_OK, vol).

(** Where a directory is: the location the cache has for its id, or the id
    itself. *)
Definition dlist_loc (vol : nspace) (vnid : Z) : Z :=
  match vcache_vnid_to_loc vol vnid with
  | (r, Some loc) => if r <? B_OK then vnid else loc
  | (_, None) => vnid
  end.

Definition dlist_find (vol : nspace) (cluster : Z) : Z :=
  default (-1) (find (fun vnid => CLUSTER_OF_DIR_CLUSTER_VNID (dlist_loc vol vnid) =? cluster)
                  (take (Z.to_nat (entries (ns_dlist vol))) (vnid_list (ns_dlist vol)))).

(** ** The set of directories *)

(** The list is well formed when the array holds its entries. *)
Record dlist_ok (d : dlist) : Prop := {
  dl_entries : 0 <= entries d <= allocated d;
  dl_length : Z.of_nat (length (vnid_list d)) = allocated d;
  dl_small : allocated d + DLIST_ENTRY_QUANTUM < 2 ^ 32
}.

Definition used (d : dlist) : list Z := take (Z.to_nat (entries d)) (vnid_list d).

Lemma used_length d : dlist_ok d -> Z.of_nat (length (used d)) = entries d.
Proof. intros [? ? ?]. unfold used. rewrite length_take. lia. Qed.

Lemma dlist_index_spec vnid l i :
  (dlist_index vnid l i = i + Z.of_nat (length l) /\ vnid ∉ l) \/
  (exists l1 l2, l = l1 ++ vnid :: l2 /\ vnid ∉ l1 /\ dlist_index vnid l i = i + Z.of_nat (length l1)).
Proof.
  revert i. induction l as [|x l IH]; intros i; simpl.
  - left. split; [lia|apply not_elem_of_nil].
  - destruct (Z.eqb_spec x vnid) as [->|Hne].
    + right. exists [], l. split_and!; [done|apply not_elem_of_nil|simpl; lia].
    + destruct (IH (i + 1)) as [[-> Hn]|(l1 & l2 & -> & Hn & ->)].
      * left. split; [lia|]. intros [->|?]%elem_of_cons; done.
      * right. exists (x :: l1), l2. split_and!; [done| |simpl; lia].
        intros [->|?]%elem_of_cons; done.
Qed.

(** The shifting loop deletes the slot it starts at from the used part. *)
Lemma shift_down l1 x l2 rest :
  exists y,
  foldl (fun l j => <[Z.to_nat j := nth (Z.to_nat (j + 1)) l 0]> l) (l1 ++ x :: l2 ++ rest)
    (seqZ (Z.of_nat (length l1)) (Z.of_nat (length l2)))
  = l1 ++ l2 ++ y :: rest.
Proof.
  revert l1 x. induction l2 as [|a l2 IH]; intros l1 x; simpl length; [by exists x|].
  replace (Z.of_nat (S (length l2))) with (1 + Z.of_nat (length l2)) by lia.
  rewrite seqZ_app, seqZ_1 by lia. simpl foldl.
  assert (Ha : nth (Z.to_nat (Z.of_nat (length l1) + 1)) (l1 ++ x :: a :: l2 ++ rest) 0 = a).
  { replace (Z.to_nat _) with (length l1 + 1)%nat by lia. by rewrite app_nth2_plus. }
  rewrite Ha, Nat2Z.id. rewrite insert_app_r_alt, Nat.sub_diag by lia. simpl.
  destruct (IH (l1 ++ [a]) a) as [y Hy]. exists y.
  rewrite <-!app_assoc in Hy. rewrite length_app in Hy. simpl in Hy.
  rewrite <-Hy. do 2 f_equal. lia.
Qed.

Lemma used_split d : dlist_ok d -> vnid_list d = used d ++ drop (Z.to_nat (entries d)) (vnid_list d).
Proof. intros. unfold used. by rewrite take_drop. Qed.

(** Reallocation keeps the entries. *)
Lemma dlist_realloc_spec vol allocate :
  dlist_ok (ns_dlist vol) -> entries (ns_dlist vol) <= allocate -> allocate + DLIST_ENTRY_QUANTUM < 2 ^ 32 ->
  exists v, (dlist_realloc vol allocate = (B_OK, v) /\ allocated (ns_dlist v) = allocate \/
             dlist_realloc vol allocate = (ENOMEM, v) /\ allocated (ns_dlist v) = allocated (ns_dlist vol)) /\
    dlist_ok (ns_dlist v) /\ used (ns_dlist v) = used (ns_dlist vol) /\
    entries (ns_dlist v) = entries (ns_dlist vol) /\ ns_vcache v = ns_vcache vol.
Proof.
  intros Hd Ha Hs. pose proof (used_length _ Hd) as Hu. destruct Hd as [H1 H2 H3].
  unfold dlist_realloc, malloc_ok.
  assert (Hok : forall w, ns_dlist w = ns_dlist vol ->
    let d := Dlist (entries (ns_dlist w)) allocate
               (take (Z.to_nat (entries (ns_dlist w))) (vnid_list (ns_dlist w))
                ++ fresh_slots (allocate - entries (ns_dlist w))) in
    dlist_ok d /\ used d = used (ns_dlist vol)).
  { intros w -> d. unfold used in Hu. split.
    - split; simpl; [lia| |lia]. unfold fresh_slots. rewrite length_app, repeat_length.
      rewrite length_take in *. lia.
    - unfold used, d. simpl. rewrite take_app_le, take_take, Nat.min_id; [done|].
      rewrite length_take in *. lia. }
  destruct (heap vol) as [|[] r]; simpl.
  - eexists. split; [left; done|]. destruct (Hok vol eq_refl). by split_and!.
  - eexists. split; [left; done|]. destruct (Hok vol eq_refl). by split_and!.
  - eexists. split; [right; done|]. by split_and!.
Qed.

(** the list of directories is the sequence of ids added and not yet
    removed: adding appends, whether or not the array has to grow. *)
Theorem dlist_add_appends vol vnid :
  dlist_ok (ns_dlist vol) -> allocated (ns_dlist vol) + 2 * DLIST_ENTRY_QUANTUM < 2 ^ 32 ->
  exists v, ns_vcache v = ns_vcache vol /\ dlist_ok (ns_dlist v) /\
    (dlist_add vol vnid = (B_OK, v) /\ used (ns_dlist v) = used (ns_dlist vol) ++ [vnid] \/
     dlist_add vol vnid = (B_ERROR, v) /\ used (ns_dlist v) = used (ns_dlist vol) /\
     entries (ns_dlist vol) = allocated (ns_dlist vol)).
Proof.
  intros Hd Hsm. unfold dlist_add.
  set (st := fun d => Dlist _ _ _).
  assert (Hst : forall d, dlist_ok d -> entries d < allocated d ->
    dlist_ok (st d) /\ used (st d) = used d ++ [vnid]).
  { intros d Hok Hlt. pose proof (used_length d Hok) as Hu. pose proof Hok as [H1 H2 H3].
    unfold DLIST_ENTRY_QUANTUM in H3. unfold st. rewrite (u32_small (entries d + 1)) by lia. split.
    - split; simpl; rewrite ?length_insert; unfold DLIST_ENTRY_QUANTUM; lia.
    - unfold used at 1. simpl. replace (Z.to_nat (entries d + 1)) with (S (Z.to_nat (entries d))) by lia.
      rewrite (take_S_r _ _ vnid) by (apply list_lookup_insert_eq; lia).
      by rewrite take_insert_ge by lia. }
  pose proof Hd as [H1 H2 H3].
  destruct (Z.eqb_spec (entries (ns_dlist vol)) (allocated (ns_dlist vol))) as [E|E].
  - unfold DLIST_ENTRY_QUANTUM in Hsm.
    rewrite (u32_small (allocated _ + _)) by (unfold DLIST_ENTRY_QUANTUM; lia).
    destruct (dlist_realloc_spec vol (allocated (ns_dlist vol) + DLIST_ENTRY_QUANTUM) Hd)
      as (v & [[-> Ha]|[-> Ha]] & Hv & Hu & He & Hc); [unfold DLIST_ENTRY_QUANTUM; lia..| |].
    + change (B_OK <? 0) with false. cbv iota. eexists.
      split; [|split; [|left; split; [reflexivity|]]]; simpl; [done|..];
        destruct (Hst (ns_dlist v) Hv) as [Hok Hus]; try (rewrite He, Ha; unfold DLIST_ENTRY_QUANTUM; lia);
        [done|]. by rewrite Hus, Hu.
    + exists v. split; [done|]. split; [done|]. right. by split_and!.
  - exists (upd_dlist st vol). destruct (Hst (ns_dlist vol) Hd) as [Hok Hus]; [lia|].
    split; [done|]. split; [done|]. by left.
Qed.

Definition dirs (vol : nspace) : nspace :=
  snd (dlist_add (snd (dlist_add (snd (dlist_init vol)) 600)) 88).

Lemma dirs_ok : dlist_ok (ns_dlist (dirs (cached no_volume))).
Proof.
  split.
  - split; apply Z.leb_le; vm_compute; reflexivity.
  - vm_compute. reflexivity.
  - apply Z.ltb_lt. vm_compute. reflexivity.
Qed.

Lemma dlist_add_appends_witness :
  exists v, dlist_add (dirs (cached no_volume)) 5 = (B_OK, v) /\ used (ns_dlist v) = [600; 88; 5].
Proof.
  destruct (dlist_add_appends (dirs (cached no_volume)) 5 dirs_ok) as (v & _ & _ & [[H Hu]|[_ [_ H]]]).
  - vm_compute. reflexivity.
  - exists v. split; [exact H|]. rewrite Hu. vm_compute. reflexivity.
  - exfalso. revert H. vm_compute. discriminate.
Defined.

(** removing deletes the first occurrence and closes the gap, also when
    the array is then shrunk; an id that is not there is an error that changes
    nothing.  A lack of memory for the smaller array is reported although the
    id is gone. *)
Theorem dlist_remove_deletes vol vnid :
  dlist_ok (ns_dlist vol) ->
  (vnid ∉ used (ns_dlist vol) /\ dlist_remove vol vnid = (ENOENT, vol)) \/
  exists l1 l2 v, used (ns_dlist vol) = l1 ++ vnid :: l2 /\ vnid ∉ l1 /\
    (dlist_remove vol vnid = (B_OK, v) \/ dlist_remove vol vnid = (ENOMEM, v)) /\
    used (ns_dlist v) = l1 ++ l2 /\ dlist_ok (ns_dlist v) /\ ns_vcache v = ns_vcache vol.
Proof.
  intros Hd. pose proof (used_length _ Hd) as Hu. pose proof (used_split _ Hd) as Hsplit.
  pose proof Hd as [H1 H2 H3]. unfold dlist_remove. fold (used (ns_dlist vol)).
  destruct (dlist_index_spec vnid (used (ns_dlist vol)) 0) as [[-> Hn]|(l1 & l2 & E & Hn & ->)].
  - left. split; [done|]. by rewrite Z.add_0_l, Hu, Z.eqb_refl.
  - right. rewrite E, length_app in Hu. simpl in Hu.
    rewrite (proj2 (Z.eqb_neq _ _)) by lia. rewrite Z.add_0_l.
    replace (entries (ns_dlist vol) - 1 - Z.of_nat (length l1)) with (Z.of_nat (length l2)) by lia.
    rewrite E, <-app_assoc in Hsplit. simpl in Hsplit.
    destruct (shift_down l1 vnid l2 (drop (Z.to_nat (entries (ns_dlist vol))) (vnid_list (ns_dlist vol))))
      as [y Hy]. rewrite <-Hsplit in Hy. rewrite Hy.
    rewrite (u32_small (entries (ns_dlist vol) - 1)) by (unfold DLIST_ENTRY_QUANTUM in H3; lia).
    set (d := Dlist _ _ _).
    assert (Hdok : dlist_ok d /\ used d = l1 ++ l2).
    { split.
      - split; simpl; [lia| |lia]. apply (f_equal length) in Hsplit.
        rewrite !length_app in *. simpl in *. rewrite length_app in *. simpl. lia.
      - unfold used, d. simpl. rewrite app_assoc, take_app_le by (rewrite length_app; lia).
        apply take_ge. rewrite length_app. lia. }
    destruct Hdok as [Hdok Hud]. exists l1, l2. simpl.
    unfold DLIST_ENTRY_QUANTUM in *. 
    destruct (Z.ltb_spec (2 * 0x20) (u32 (allocated (ns_dlist vol) - (entries (ns_dlist vol) - 1)))) as [Hlt|Hge].
    + rewrite u32_small in Hlt by lia. rewrite (u32_small (_ - 0x20)) by lia.
      destruct (dlist_realloc_spec (set_ns_dlist d vol) (allocated (ns_dlist vol) - 0x20) Hdok)
        as (v & Hr & Hv & Huv & _ & Hc); [simpl; lia|unfold DLIST_ENTRY_QUANTUM; simpl; lia|].
      exists v. simpl in Huv. rewrite Hud in Huv. split_and!; [done|done| |done|done|done].
      destruct Hr as [[-> _]|[-> _]]; auto.
    + exists (set_ns_dlist d vol). by split_and!; auto.
Qed.

Lemma dlist_remove_deletes_witness :
  exists v, dlist_remove (dirs (cached no_volume)) 600 = (B_OK, v) /\ used (ns_dlist v) = [88].
Proof.
  destruct (dlist_remove_deletes (dirs (cached no_volume)) 600 dirs_ok)
    as [[H _]|(l1 & l2 & v & E & Hn & Hr & Hu & _)].
  - exfalso. apply H. vm_compute. left.
  - assert (Eu : used (ns_dlist (dirs (cached no_volume))) = [600; 88]) by (vm_compute; reflexivity).
    rewrite Eu in E. destruct l1 as [|a l1]; [injection E as <-|injection E as <- _].
    + exists v. split; [|exact Hu]. destruct Hr as [Hr|Hr]; [exact Hr|].
      exfalso. revert Hr. vm_compute. discriminate.
    + exfalso. apply Hn. left.
Defined.

Lemma find_first {A} (p : A -> bool) (l : list A) :
  match find p l with
  | Some x => exists l1 l2, l = l1 ++ x :: l2 /\ p x = true /\ Forall (fun y => p y = false) l1
  | None => Forall (fun y => p y = false) l
  end.
Proof.
  induction l as [|a l IH]; simpl; [constructor|]. destruct (p a) eqn:E.
  - exists [], l. by split_and!.
  - destruct (find p l) as [x|].
    + destruct IH as (l1 & l2 & -> & Hx & Hl). exists (a :: l1), l2. split_and!; [done|done|by constructor].
    + by constructor.
Qed.

(** a directory is found by where it is now: the search gives the first
    id whose location, through the vnode cache, has the cluster. *)
Theorem dlist_find_first vol cluster :
  let at_cluster vnid := CLUSTER_OF_DIR_CLUSTER_VNID (dlist_loc vol vnid) = cluster in
  (exists l1 vnid l2, used (ns_dlist vol) = l1 ++ vnid :: l2 /\ dlist_find vol cluster = vnid /\
     at_cluster vnid /\ Forall (fun x => ~ at_cluster x) l1) \/
  (dlist_find vol cluster = -1 /\ Forall (fun x => ~ at_cluster x) (used (ns_dlist vol))).
Proof.
  intros at_cluster. unfold dlist_find. fold (used (ns_dlist vol)).
  pose proof (find_first (fun vnid => CLUSTER_OF_DIR_CLUSTER_VNID (dlist_loc vol vnid) =? cluster)
                (used (ns_dlist vol))) as Hf.
  assert (Hneg : forall l, Forall (fun vnid => (CLUSTER_OF_DIR_CLUSTER_VNID (dlist_loc vol vnid) =? cluster) = false) l ->
    Forall (fun x => ~ at_cluster x) l).
  { intros l Hl. eapply Forall_impl; [exact Hl|]. intros x. apply Z.eqb_neq. }
  destruct (find _ (used (ns_dlist vol))) as [x|]; simpl.
  - left. destruct Hf as (l1 & l2 & E & Hx & Hl). exists l1, x, l2.
    split_and!; [done|done|by apply Z.eqb_eq|by apply Hneg].
  - right. split; [done|by apply Hneg].
Qed.
