(* ===== verification/Util.v ===== *)
(** Conversions (util.c): DOS dates and times, the checksum that ties a long
    name to its short one, and the clean-up of a volume label. *)
From stdpp Require Import base gmap list.
From Stdlib Require Import ZArith Lia.
From S2P Require Import Prelude.

(** ** Time *)

(** [rtc] is what [get_rtc_info] reports, if it can; the result is the global
    [tzoffset] afterwards, in minutes. *)
Definition get_tzoffset (rtc : option Z) (tzoffset : Z) : Z :=
  if negb (tzoffset =? -1) then tzoffset
  else match rtc with None => tzoffset | Some minuteswest => minuteswest end.

Definition IS_LEAP_YEAR (y : Z) : bool :=
  (Z.rem y 4 =? 0) && (negb (Z.rem y 100 =? 0) || (Z.rem y 400 =? 0)).

(** Leap days since 1970; the year is 1970-based, the month 0-based. *)
Definition leaps (yr mon : Z) : Z :=
  let result := Z.quot (yr + 2) 4 - Z.quot (yr + 70) 100 in
  let result := if 100 <=? yr + 70 then result + 1 else result in
  if IS_LEAP_YEAR (yr + 1970) then if mon <? 2 then result - 1 else result else result.

Definition daze_list : list Z := [0; 0; 31; 59; 90; 120; 151; 181; 212; 243; 273; 304; 334; 0; 0; 0].
Definition daze (i : Z) : Z := nth (Z.to_nat i) daze_list 0.

(** The date and the time of day that the low word of a DOS time stands
    for. *)
Definition dos_days (t : Z) : Z :=
  let mon := Z.land (Z.shiftr t 21) 15 in
  let yr := Z.shiftr t 25 + 10 in
  i32 (daze mon + yr * 365 + leaps yr (mon - 1) + Z.land (Z.shiftr t 16) 31 - 1).

Definition dos2time_t (tzoffset t : Z) : Z :=
  i32 ((((dos_days t * 24) + Z.land (Z.shiftr t 11) 31) * 60
        + Z.land (Z.shiftr t 5) 63 + tzoffset) * 60 + 2 * Z.land t 31).

(** The year, 1980-based, and the day of the year of a day since 1980. *)
Definition year_step (x : Z * Z) : loop (Z * Z) (Z * Z) :=
  let '(y, s) := x in
  let days := if IS_LEAP_YEAR (1980 + y) then 366 else 365 in
  if s <? days then Brk (y, s) else Cont (u32 (y + 1), s - days).

(** The month, 0-based, whose days begin after [s]. *)
Definition month_step (s : Z) (d : Z) : loop Z Z := if s <? daze (d + 2) then Brk d else Cont (d + 1).

(** The month and day, 1-based, of day [s] of a year, the month shifted by
    5. *)
Definition month_day (leap : bool) (s : Z) : Z :=
  let d :=
    if leap && (s =? 59) then Z.shiftl 1 5 + 28
    else
      let s := if leap && (59 <? s) then s - 1 else s in
      let d := loop_end (z_loop (month_step s) 11 0) in
      u32 (Z.shiftl d 5 + (s - daze (d + 1))) in
  u32 (d + Z.shiftl 1 5 + 1).

(** The number of years is bounded by that of the days of a 32 bit time. *)
Definition time_date (s : Z) : Z * Z :=
  let '(y, s) := loop_end (z_loop year_step 128 (0, s)) in
  (y, month_day (IS_LEAP_YEAR (1980 + y)) s).

Definition time_t2dos (tzoffset s : Z) : Z :=
  let t := u32 (Z.quot (Z.rem s 60) 2) in
  let s := Z.quot s 60 in
  let s := s - tzoffset in
  let t := u32 (t + Z.shiftl (Z.rem s 60) 5) in
  let s := Z.quot s 60 in
  let t := u32 (t + Z.shiftl (Z.rem s 24) 11) in
  let s := Z.quot s 24 in
  let '(y, d) := time_date (s - (10 * 365 + 2)) in
  u32 (t + Z.shiftl d 16 + Z.shiftl y 25).

(** ** Names *)

Definition hash_msdos_name (name : list Z) : Z :=
  foldl (fun c i => u8 (Z.shiftl c 7 + Z.shiftr c 1 + nth (Z.to_nat i) name 0)) 0 (seqZ 0 11).

(** The index of the last character that is no space, or 0. *)
Fixpoint last_nonspace (name : list Z) (i : nat) : nat :=
  match i with
  | O => O
  | S j => if nth i name 0 =? 32 then last_nonspace name j else i
  end.

Definition to_lower (c : Z) : Z := if (65 <=? c) && (c <=? 90) then c + 32 else c.

(** [name] has room for [length + 1] bytes. *)
Definition sanitize_name (name : list Z) (length : Z) : list Z :=
  let i := if length <? 1 then length - 1 else Z.of_nat (last_nonspace name (Z.to_nat (length - 1))) in
  let name := <[Z.to_nat (i + 1) := 0]> name in
  foldr (fun j name => alter to_lower (Z.to_nat j) name) name (seqZ 0 (i + 1)).

(** ** The calendar *)

Definition year_length (y : Z) : Z := if IS_LEAP_YEAR (1980 + y) then 366 else 365.

(** Days from 1980 to the beginning of year 1980 + [y]. *)
Definition days_before (y : Z) : Z := foldr Z.add 0 (map year_length (seqZ 0 y)).

Lemma foldr_add_app l k : foldr Z.add 0 (l ++ k) = foldr Z.add 0 l + foldr Z.add 0 k.
Proof. induction l as [|x l IH]; simpl; [done|]. rewrite IH. lia. Qed.

Lemma days_before_succ y : 0 <= y -> days_before (y + 1) = days_before y + year_length y.
Proof.
  intros Hy. unfold days_before. rewrite seqZ_app, seqZ_1, map_app, foldr_add_app by lia.
  rewrite Z.add_0_l. cbn [map foldr]. lia.
Qed.

Lemma year_length_pos y : 365 <= year_length y <= 366.
Proof. unfold year_length. destruct (IS_LEAP_YEAR _); lia. Qed.

Lemma days_before_mono y z : 0 <= y <= z -> days_before y + 365 * (z - y) <= days_before z.
Proof.
  intros [Hy Hz].
  enough (H : forall n, 0 <= n -> days_before y + 365 * n <= days_before (y + n)).
  { replace z with (y + (z - y)) at 2 by lia. apply H. lia. }
  intros n Hn. pattern n. apply natlike_ind; [rewrite (Z.add_0_r y); lia| |done].
  intros m Hm IH. unfold Z.succ. rewrite Z.add_assoc, days_before_succ by lia.
  pose proof (year_length_pos (y + m)). lia.
Qed.

(** The loop finds the year of a day, and the day of that year. *)
Lemma year_loop y r :
  0 <= y < 128 -> 0 <= r < year_length y ->
  loop_end (z_loop year_step 128 (0, days_before y + r)) = (y, r).
Proof.
  intros Hy Hr.
  set (I := fun i x => i <= y /\ fst x = i /\ days_before i + snd x = days_before y + r).
  enough (H : match z_loop year_step 128 (0, days_before y + r) with
              | Cont x => I 128 x | Brk x => x = (y, r) end).
  { destruct (z_loop _ _ _); [destruct H; lia|exact H]. }
  apply (z_loop_inv year_step I (fun x => x = (y, r))); [lia|split_and!; [lia|done|done]|].
  intros i [y' s] Hi (Hle & Ey & Es). simpl in Ey, Es. subst y'. unfold year_step.
  fold (year_length i). destruct (Z.ltb_spec s (year_length i)) as [Hlt|Hge].
  - assert (i = y) as ->.
    { destruct (Z.eq_dec i y); [done|]. pose proof (days_before_mono (i + 1) y ltac:(lia)) as Hm.
      rewrite days_before_succ in Hm by lia. lia. }
    f_equal. lia.
  - rewrite u32_small by lia. unfold I. cbn [fst snd]. rewrite days_before_succ by lia.
    split_and!; simpl; [|done|lia]. destruct (Z.eq_dec i y) as [->|]; lia.
Qed.

(** Every day belongs to a year. *)
Lemma day_year s n :
  0 <= n -> 0 <= s < days_before n ->
  exists y r, 0 <= y < n /\ 0 <= r < year_length y /\ s = days_before y + r.
Proof.
  intros Hn. revert s. pattern n. apply natlike_ind; [intros s Hs; change (days_before 0) with 0 in Hs; lia| |done].
  intros m Hm IH s Hs. unfold Z.succ in *. rewrite days_before_succ in Hs by lia.
  destruct (Z.lt_ge_cases s (days_before m)) as [Hlt|Hge].
  - destruct (IH s ltac:(lia)) as (y & r & ? & ? & ?). exists y, r. split_and!; lia || done.
  - exists m, (s - days_before m). split_and!; lia.
Qed.

Lemma seqZ_forallb (P : Z -> bool) a n : forallb P (seqZ a n) = true -> forall i, a <= i < a + n -> P i = true.
Proof. rewrite forallb_forall. intros H i Hi. apply H, list_elem_of_In, elem_of_seqZ. lia. Qed.

Lemma seqZ_forallb0 (P : Z -> bool) n : forallb P (seqZ 0 n) = true -> forall i, 0 <= i < n -> P i = true.
Proof. intros H i Hi. apply (seqZ_forallb P 0 n H). lia. Qed.

(** The day numbers of [dos_days], split into year and day of the year. *)
Definition year_day (leap : bool) (mon day : Z) : Z :=
  daze mon + (if leap && (2 <? mon) then 1 else 0) + day - 1.

Lemma leaps_days y : 0 <= y < 128 -> (y + 10) * 365 + leaps (y + 10) 0 = 3652 + days_before y.
Proof.
  intros Hy. apply Z.eqb_eq. revert y Hy. apply seqZ_forallb0. vm_compute. reflexivity.
Qed.

Lemma leaps_mon yr mon : leaps yr (mon - 1) = leaps yr 0 + (if IS_LEAP_YEAR (yr + 1970) && (2 <? mon) then 1 else 0).
Proof.
  unfold leaps. destruct (IS_LEAP_YEAR _); simpl; [|lia].
  destruct (Z.ltb_spec (mon - 1) 2), (Z.ltb_spec 2 mon); lia.
Qed.

(** Month and day of every day of a year, and back. *)
Lemma month_day_ok leap s :
  0 <= s < (if leap : bool then 366 else 365) ->
  exists mon day, month_day leap s = mon * 32 + day /\ 1 <= mon <= 12 /\ 1 <= day <= 31 /\
    year_day leap mon day = s.
Proof.
  intros Hs.
  assert (H : let w := month_day leap s in
    (1 <=? w / 32) && (w / 32 <=? 12) && (1 <=? w mod 32) && (w mod 32 <=? 31)
    && (year_day leap (w / 32) (w mod 32) =? s) = true).
  { destruct leap; revert s Hs; apply (seqZ_forallb0 (fun s => let w := month_day _ s in
      (1 <=? w / 32) && (w / 32 <=? 12) && (1 <=? w mod 32) && (w mod 32 <=? 31)
      && (year_day _ (w / 32) (w mod 32) =? s))); vm_compute; reflexivity. }
  cbv zeta in H. rewrite !andb_true_iff, !Z.leb_le, Z.eqb_eq in H.
  exists (month_day leap s / 32), (month_day leap s mod 32).
  split; [|tauto]. rewrite Z.mul_comm. apply Z.div_mod. lia.
Qed.

Definition month_length (leap : bool) (mon : Z) : Z :=
  if mon =? 2 then if leap then 29 else 28
  else if (mon =? 4) || (mon =? 6) || (mon =? 9) || (mon =? 11) then 30 else 31.

Lemma month_day_inv leap mon day :
  1 <= mon <= 12 -> 1 <= day <= month_length leap mon ->
  month_day leap (year_day leap mon day) = mon * 32 + day /\
  0 <= year_day leap mon day < (if leap then 366 else 365).
Proof.
  intros Hm Hd.
  assert (Hd' : 1 <= day <= 31) by (unfold month_length in Hd; repeat case_match; lia).
  assert (H : (implb (day <=? month_length leap mon)
     ((month_day leap (year_day leap mon day) =? mon * 32 + day)
      && (0 <=? year_day leap mon day) && (year_day leap mon day <? (if leap then 366 else 365)))) = true).
  { assert (Hall : forall m, 1 <= m < 1 + 12 ->
      forallb (fun day => implb (day <=? month_length leap m)
        ((month_day leap (year_day leap m day) =? m * 32 + day)
         && (0 <=? year_day leap m day) && (year_day leap m day <? (if leap then 366 else 365))))
        (seqZ 1 31) = true) by (apply seqZ_forallb; destruct leap; vm_compute; reflexivity).
    apply (seqZ_forallb _ 1 31 (Hall mon ltac:(lia))). lia. }
  rewrite (proj2 (Z.leb_le _ _)) in H by lia. simpl in H.
  rewrite !andb_true_iff, Z.eqb_eq, Z.leb_le, Z.ltb_lt in H. lia.
Qed.

(** ** The packed format *)

Definition dos_pack (y mon day h m s2 : Z) : Z :=
  s2 + m * 32 + h * 2048 + (mon * 32 + day) * 65536 + y * 2 ^ 25.

Record dos_fields (y mon day h m s2 : Z) : Prop := {
  df_y : 0 <= y < 128; df_mon : 0 <= mon < 16; df_day : 0 <= day < 32;
  df_h : 0 <= h < 32; df_m : 0 <= m < 64; df_s : 0 <= s2 < 32
}.

Lemma dos_unpack y mon day h m s2 (t := dos_pack y mon day h m s2) :
  dos_fields y mon day h m s2 ->
  Z.land t 31 = s2 /\ Z.land (Z.shiftr t 5) 63 = m /\ Z.land (Z.shiftr t 11) 31 = h /\
  Z.land (Z.shiftr t 16) 31 = day /\ Z.land (Z.shiftr t 21) 15 = mon /\ Z.shiftr t 25 = y /\
  0 <= t < 2 ^ 32.
Proof.
  intros []. rewrite !Z.shiftr_div_pow2 by lia.
  rewrite (land_ones_mod t 5), (land_ones_mod (t / 2 ^ 5) 6), (land_ones_mod (t / 2 ^ 11) 5),
    (land_ones_mod (t / 2 ^ 16) 5), (land_ones_mod (t / 2 ^ 21) 4) by lia.
  subst t. unfold dos_pack. split_and!; zlia.
Qed.

(** The time of a packed value, without overflow. *)
Lemma dos2time_pack tz y mon day h m s2 r :
  dos_fields y mon day h m s2 -> 1 <= mon ->
  year_day (IS_LEAP_YEAR (1980 + y)) mon day = r -> 0 <= r < 366 ->
  let v := ((3652 + days_before y + r) * 24 + h) * 3600 + (m + tz) * 60 + 2 * s2 in
  - 2 ^ 31 <= v < 2 ^ 31 -> dos2time_t tz (dos_pack y mon day h m s2) = v.
Proof.
  intros Hf Hmon Hr Hrr v Hv. destruct (dos_unpack y mon day h m s2 Hf) as (E1 & E2 & E3 & E4 & E5 & E6 & _).
  unfold dos2time_t, dos_days. rewrite E1, E2, E3, E4, E5, E6. destruct Hf.
  rewrite leaps_mon. replace (y + 10 + 1970) with (1980 + y) by lia.
  pose proof (leaps_days y ltac:(lia)) as Hl. pose proof (days_before_mono 0 y ltac:(lia)) as Hd0.
  pose proof (days_before_mono y 128 ltac:(lia)) as Hd.
  assert (E128 : days_before 128 = 46751) by (vm_compute; reflexivity).
  change (days_before 0) with 0 in Hd0.
  assert (Ed : daze mon + (y + 10) * 365 + (leaps (y + 10) 0 + (if IS_LEAP_YEAR (1980 + y) && (2 <? mon) then 1 else 0)) + day - 1
               = 3652 + days_before y + r) by (unfold year_day in Hr; lia).
  rewrite Ed, (i32_small (3652 + _ + _)) by lia. rewrite i32_small; unfold v in *; lia.
Qed.

Lemma time_date_pack y r mon day :
  0 <= y < 128 -> 0 <= r < year_length y ->
  month_day (IS_LEAP_YEAR (1980 + y)) r = mon * 32 + day ->
  time_date (days_before y + r) = (y, mon * 32 + day).
Proof. intros Hy Hr Hmd. unfold time_date. rewrite year_loop by done. by rewrite Hmd. Qed.

Lemma time_t2dos_pack tz s y r mon day :
  0 <= s < 2 ^ 31 -> 0 <= s / 60 - tz < 2 ^ 31 ->
  (s / 60 - tz) / 1440 = 3652 + days_before y + r ->
  0 <= y < 128 -> 0 <= r < year_length y ->
  month_day (IS_LEAP_YEAR (1980 + y)) r = mon * 32 + day -> 1 <= mon <= 12 -> 1 <= day <= 31 ->
  time_t2dos tz s = dos_pack y mon day ((s / 60 - tz) / 60 mod 24) ((s / 60 - tz) mod 60) (s mod 60 / 2).
Proof.
  intros Hs Hloc Hdays Hy Hr Hmd Hmon Hday. unfold time_t2dos.
  rewrite (Z.rem_mod_nonneg s 60), (Z.quot_div_nonneg s 60) by lia.
  rewrite (Z.quot_div_nonneg (s mod 60) 2) by zlia.
  set (l := s / 60 - tz) in *.
  rewrite (Z.rem_mod_nonneg l 60), (Z.quot_div_nonneg l 60) by lia.
  rewrite (Z.rem_mod_nonneg (l / 60) 24), (Z.quot_div_nonneg (l / 60) 24) by zlia.
  rewrite Z.div_div by lia. change (60 * 24) with 1440.
  replace (l / 1440 - (10 * 365 + 2)) with (days_before y + r) by lia.
  rewrite (time_date_pack y r mon day Hy Hr Hmd). rewrite !Z.shiftl_mul_pow2 by lia.
  rewrite (u32_small (s mod 60 / 2)) by zlia.
  rewrite (u32_small (s mod 60 / 2 + _)) by zlia.
  rewrite (u32_small (s mod 60 / 2 + _ + _)) by zlia.
  rewrite u32_small by zlia. unfold dos_pack. change (2 ^ 5) with 32. change (2 ^ 11) with 2048.
  change (2 ^ 16) with 65536. lia.
Qed.

Lemma time_fields tz s y mon day :
  0 <= y < 128 -> 1 <= mon <= 12 -> 1 <= day <= 31 ->
  dos_fields y mon day ((s / 60 - tz) / 60 mod 24) ((s / 60 - tz) mod 60) (s mod 60 / 2).
Proof. intros. split; zlia. Qed.

(** Storing a time and reading it back: every time whose local date is in
    1980 or later comes back, to the even second, in any time zone. *)
Theorem dos_time_round_trip tz s :
  0 <= s < 2 ^ 31 -> - 1440 <= tz <= 1440 -> 3652 * 1440 <= s / 60 - tz ->
  dos2time_t tz (time_t2dos tz s) = s - s mod 2.
Proof.
  intros Hs Htz Hloc. set (l := s / 60 - tz).
  assert (Hl : 3652 * 1440 <= l < 40000000) by (subst l; zlia).
  assert (E128 : days_before 128 = 46751) by (vm_compute; reflexivity).
  destruct (day_year (l / 1440 - 3652) 128 ltac:(lia)) as (y & r & Hy & Hr & E); [rewrite E128; zlia|].
  destruct (month_day_ok (IS_LEAP_YEAR (1980 + y)) r) as (mon & day & Hmd & Hmon & Hday & Hyd);
    [exact Hr|].
  pose proof (year_length_pos y) as Hyl.
  rewrite (time_t2dos_pack tz s y r mon day) by (done || fold l; lia). fold l.
  rewrite (dos2time_pack tz y mon day _ _ _ r); [|by apply time_fields|lia|done|lia|].
  - replace (3652 + days_before y + r) with (l / 1440) by lia. unfold l. zlia.
  - replace (3652 + days_before y + r) with (l / 1440) by lia. unfold l. zlia.
Qed.

Lemma dos_time_round_trip_witness :
  dos2time_t (-60) (time_t2dos (-60) 951782401) = 951782400.
Proof. apply (dos_time_round_trip (-60) 951782401); zdecide. Defined.

(** reading a stored time and storing it again: every valid DOS date and
    time that a 32 bit time can express comes back unchanged. *)
Theorem dos_time_round_trip_inv tz y mon day h m s2 :
  0 <= y < 128 -> 1 <= mon <= 12 -> 1 <= day <= month_length (IS_LEAP_YEAR (1980 + y)) mon ->
  0 <= h < 24 -> 0 <= m < 60 -> 0 <= s2 < 30 -> - 1440 <= tz <= 1440 ->
  let t := dos_pack y mon day h m s2 in
  let r := year_day (IS_LEAP_YEAR (1980 + y)) mon day in
  ((3652 + days_before y + r) * 24 + h) * 3600 + (m + tz) * 60 + 2 * s2 < 2 ^ 31 ->
  time_t2dos tz (dos2time_t tz t) = t.
Proof.
  intros Hy Hmon Hday Hh Hm Hs Htz t r Hv.
  destruct (month_day_inv _ mon day Hmon Hday) as [Hmd Hr]. fold r in Hmd, Hr.
  assert (Hd31 : 1 <= day <= 31) by (unfold month_length in Hday; repeat case_match; lia).
  pose proof (days_before_mono 0 y ltac:(lia)) as Hd0. change (days_before 0) with 0 in Hd0.
  assert (Hr' : 0 <= r < year_length y) by (unfold year_length; destruct (IS_LEAP_YEAR _); lia).
  pose proof (year_length_pos y) as Hyl.
  unfold t. rewrite (dos2time_pack tz y mon day h m s2 r) by (done || lia || (split; lia)).
  set (D := 3652 + days_before y + r) in *.
  rewrite (time_t2dos_pack tz _ y r mon day); try done; try zlia.
  f_equal; zlia.
Qed.

Lemma dos_time_round_trip_inv_witness :
  time_t2dos 60 (dos2time_t 60 (dos_pack 20 2 29 12 34 28)) = dos_pack 20 2 29 12 34 28.
Proof. apply dos_time_round_trip_inv; zdecide. Defined.

(** ** The checksum of short names *)

Definition hash_step (c x : Z) : Z := u8 (Z.shiftl c 7 + Z.shiftr c 1 + x).

Lemma hash_step_eq c x : is_byte c -> hash_step c x = (c mod 2 * 128 + c / 2 + x) mod 256.
Proof.
  intros Hc. unfold hash_step, u8, is_byte in *. rewrite Z.shiftl_mul_pow2, Z.shiftr_div_pow2 by lia.
  change (2 ^ 7) with 128. change (2 ^ 1) with 2. change (2 ^ 8) with 256. zlia.
Qed.

Lemma hash_step_byte c x : is_byte (hash_step c x).
Proof. unfold hash_step, is_byte. pose proof (u8_range (Z.shiftl c 7 + Z.shiftr c 1 + x)). lia. Qed.

Lemma hash_step_inj c c' x : is_byte c -> is_byte c' -> hash_step c x = hash_step c' x -> c = c'.
Proof. intros Hc Hc'. rewrite !hash_step_eq by done. unfold is_byte in *. zlia. Qed.

Lemma hash_step_inj_r c x x' : is_byte x -> is_byte x' -> hash_step c x = hash_step c x' -> x = x'.
Proof. unfold hash_step, u8, is_byte. zlia. Qed.

Definition hash_fold (name : list Z) (c : Z) (l : list Z) : Z :=
  foldl (fun c i => hash_step c (nth (Z.to_nat i) name 0)) c l.

Lemma hash_fold_eq name : hash_msdos_name name = hash_fold name 0 (seqZ 0 11).
Proof. unfold hash_msdos_name, hash_fold, hash_step. reflexivity. Qed.

Lemma hash_fold_app name c l k : hash_fold name c (l ++ k) = hash_fold name (hash_fold name c l) k.
Proof. apply foldl_app. Qed.

Lemma hash_fold_1 name c i : hash_fold name c [i] = hash_step c (nth (Z.to_nat i) name 0).
Proof. reflexivity. Qed.

Lemma hash_fold_byte name c l : is_byte c -> is_byte (hash_fold name c l).
Proof. revert c. induction l as [|i l IH]; intros c Hc; simpl; [done|]. apply IH, hash_step_byte. Qed.

Lemma hash_msdos_name_byte name : is_byte (hash_msdos_name name).
Proof. rewrite hash_fold_eq. apply hash_fold_byte. unfold is_byte. lia. Qed.

Lemma hash_fold_ext name name' c l :
  (forall i, i ∈ l -> nth (Z.to_nat i) name 0 = nth (Z.to_nat i) name' 0) ->
  hash_fold name c l = hash_fold name' c l.
Proof.
  revert c. induction l as [|i l IH]; intros c H; simpl; [done|].
  rewrite (H i) by apply list_elem_of_here. apply IH. intros j Hj. by apply H, list_elem_of_further.
Qed.

Lemma hash_fold_inj name c c' l : is_byte c -> is_byte c' -> hash_fold name c l = hash_fold name c' l -> c = c'.
Proof.
  revert c c'. induction l as [|i l IH]; intros c c' Hc Hc' H; simpl in *; [done|].
  apply IH in H; [|apply hash_step_byte..]. by eapply hash_step_inj.
Qed.

(** the checksum of a short name sees every change of a single
    character: the rotate-and-add step loses nothing. *)
Theorem hash_msdos_name_detects name name' k :
  0 <= k < 11 -> Forall is_byte name -> Forall is_byte name' ->
  (forall i, 0 <= i < 11 -> i <> k -> nth (Z.to_nat i) name 0 = nth (Z.to_nat i) name' 0) ->
  nth (Z.to_nat k) name 0 <> nth (Z.to_nat k) name' 0 ->
  hash_msdos_name name <> hash_msdos_name name'.
Proof.
  intros Hk Hb Hb' Hsame Hdiff E. apply Hdiff. rewrite !hash_fold_eq in E.
  replace 11 with (k + (1 + (10 - k))) in E by lia.
  rewrite !seqZ_app, seqZ_1, Z.add_0_l, !hash_fold_app, !hash_fold_1 in E by lia.
  rewrite <-(hash_fold_ext name name' 0 (seqZ 0 k)) in E
    by (intros i Hi%elem_of_seqZ; apply Hsame; lia).
  rewrite <-(hash_fold_ext name name' _ (seqZ (k + 1) (10 - k))) in E
    by (intros i Hi%elem_of_seqZ; apply Hsame; lia).
  assert (Hbyte : forall l, Forall is_byte l -> is_byte (nth (Z.to_nat k) l 0)).
  { intros l Hl. rewrite nth_lookup. destruct (l !! Z.to_nat k) as [x|] eqn:Ex; simpl; [|unfold is_byte; lia].
    rewrite Forall_forall in Hl. by apply Hl, (list_elem_of_lookup_2 _ (Z.to_nat k)). }
  apply hash_fold_inj in E; [|apply hash_step_byte..].
  apply hash_step_inj_r in E; [done|by apply Hbyte..].
Qed.

Lemma hash_msdos_name_detects_witness :
  hash_msdos_name [70;73;76;69;32;32;32;32;84;88;84] <> hash_msdos_name [70;73;76;69;49;32;32;32;84;88;84].
Proof.
  apply (hash_msdos_name_detects _ _ 4); [lia| | | |discriminate].
  - repeat constructor; discriminate.
  - repeat constructor; discriminate.
  - intros i Hi Hne. assert (i = 0 \/ i = 1 \/ i = 2 \/ i = 3 \/ i = 5 \/ i = 6 \/ i = 7 \/ i = 8 \/ i = 9 \/ i = 10)
      as H by lia.
    repeat destruct H as [->|H]; try reflexivity. rewrite H. reflexivity.
Defined.

(** ** Labels *)

Lemma last_nonspace_spec name i :
  (last_nonspace name i <= i)%nat /\
  (last_nonspace name i = 0%nat \/ nth (last_nonspace name i) name 0 <> 32) /\
  (forall j, (last_nonspace name i < j <= i)%nat -> nth j name 0 = 32).
Proof.
  induction i as [|i IH]; cbn [last_nonspace].
  - split_and!; [lia|by left|lia].
  - destruct (Z.eqb_spec (nth (S i) name 0) 32) as [E|E].
    + destruct IH as (H1 & H2 & H3). split_and!; [lia|done|].
      intros j Hj. destruct (decide (j = S i)) as [->|]; [done|apply H3; lia].
    + split_and!; [lia|by right|lia].
Qed.

Lemma lower_run (name : list Z) n j :
  foldr (fun j (name : list Z) => alter to_lower (Z.to_nat j) name) name (seqZ 0 n) !! j
  = (if (Z.of_nat j <? n) then to_lower else id) <$> name !! j.
Proof.
  destruct (Z.lt_ge_cases n 0) as [Hn|Hn].
  { assert (seqZ 0 n = []) as -> by (destruct n; done).
    rewrite (proj2 (Z.ltb_ge _ _)) by lia. simpl. by destruct (name !! j). }
  revert name. pattern n. apply natlike_ind; [| |done].
  - intros name. rewrite (proj2 (Z.ltb_ge _ _)) by lia. simpl. by destruct (name !! j).
  - intros m Hm IH name. unfold Z.succ. rewrite seqZ_app, seqZ_1, foldr_app by lia.
    rewrite Z.add_0_l. simpl. rewrite IH. destruct (decide (j = Z.to_nat m)) as [->|Hne].
    + rewrite list_lookup_alter_eq, Z2Nat.id by lia.
      rewrite (proj2 (Z.ltb_ge m m)), (proj2 (Z.ltb_lt m (m + 1))) by lia.
      by destruct (name !! Z.to_nat m).
    + rewrite list_lookup_alter_ne by lia.
      destruct (Z.ltb_spec (Z.of_nat j) m), (Z.ltb_spec (Z.of_nat j) (m + 1)); done || lia.
Qed.

(** The C string at the beginning of a buffer. *)
Fixpoint c_string (l : list Z) : list Z :=
  match l with
  | [] => []
  | c :: r => if c =? 0 then [] else c :: c_string r
  end.

Lemma c_string_app l r : Forall (fun c => c <> 0) l -> c_string (l ++ 0 :: r) = l.
Proof.
  induction 1 as [|c l Hc Hl IH]; simpl; [done|]. rewrite (proj2 (Z.eqb_neq _ _)) by done. by rewrite IH.
Qed.

Lemma sanitize_lookup name n j :
  1 <= n -> n < Z.of_nat (length name) ->
  let i := last_nonspace name (Z.to_nat (n - 1)) in
  sanitize_name name n !! j =
  if (j <=? i)%nat then to_lower <$> name !! j
  else if (j =? S i)%nat then Some 0 else name !! j.
Proof.
  intros Hn Hlen i. destruct (last_nonspace_spec name (Z.to_nat (n - 1))) as (Hi & _). fold i in Hi.
  unfold sanitize_name. rewrite (proj2 (Z.ltb_ge _ _)) by lia. fold i.
  rewrite lower_run.
  destruct (Nat.leb_spec j i).
  - rewrite (proj2 (Z.ltb_lt _ _)) by lia. by rewrite list_lookup_insert_ne by lia.
  - rewrite (proj2 (Z.ltb_ge _ _)) by lia. destruct (Nat.eqb_spec j (S i)) as [->|].
    + replace (Z.to_nat (Z.of_nat i + 1)) with (S i) by lia.
      rewrite list_lookup_insert_eq by lia. done.
    + rewrite list_lookup_insert_ne by lia. by destruct (name !! j).
Qed.

(** cleaning up a label: the buffer then holds, as a C string, the label
    in lower case without the spaces it was padded with; what follows in the
    buffer is untouched. *)
Theorem sanitize_name_trims name label pad rest :
  Forall (fun c => c <> 0) label -> label <> [] -> last label <> Some 32 ->
  name = label ++ repeat 32 pad ++ rest -> rest <> [] ->
  let n := Z.of_nat (length label + pad) in
  c_string (sanitize_name name n) = map to_lower label /\
  drop (S (length label)) (sanitize_name name n) = drop (S (length label)) name.
Proof.
  intros Hnz Hne Hlast Hname Hrest n.
  assert (En : n = Z.of_nat (length label + pad)) by done. clearbody n.
  assert (Hll : (1 <= length label)%nat) by (destruct label; [done|simpl; lia]).
  assert (Hlr : (1 <= length rest)%nat) by (destruct rest; [done|simpl; lia]).
  assert (Hlen : Z.of_nat (length name) = n + Z.of_nat (length rest))
    by (rewrite Hname, !length_app, repeat_length; lia).
  assert (Hi : last_nonspace name (Z.to_nat (n - 1)) = (length label - 1)%nat).
  { destruct (last_nonspace_spec name (Z.to_nat (n - 1))) as (H1 & H2 & H3).
    revert H1 H2 H3. generalize (last_nonspace name (Z.to_nat (n - 1))). intros k H1 H2 H3.
    destruct (Nat.lt_trichotomy k (length label - 1)) as [Hlt|[|Hgt]]; [|done|].
    - specialize (H3 (length label - 1)%nat ltac:(lia)). exfalso. apply Hlast.
      rewrite last_lookup. replace (Nat.pred (length label)) with (length label - 1)%nat by lia.
      rewrite Hname, app_nth1 in H3 by lia.
      destruct (lookup_lt_is_Some_2 label (length label - 1)) as [x Hx]; [lia|].
      rewrite Hx. f_equal. rewrite <-H3. symmetry. by rewrite nth_lookup, Hx.
    - exfalso. destruct H2 as [H2|H2]; [lia|]. apply H2.
      rewrite Hname, app_nth2, app_nth1 by (rewrite ?repeat_length; lia).
      apply nth_repeat_lt. lia. }
  pose proof (fun j => sanitize_lookup name n j ltac:(lia) ltac:(lia)) as Hl. rewrite Hi in Hl.
  assert (Hs : sanitize_name name n = map to_lower label ++ 0 :: drop (S (length label)) name).
  { apply list_eq. intros j. rewrite Hl. destruct (Nat.leb_spec j (length label - 1)) as [Hj|Hj].
    - rewrite lookup_app_l by (rewrite length_map; lia). rewrite list_lookup_fmap.
      by rewrite Hname, lookup_app_l by lia.
    - rewrite lookup_app_r by (rewrite length_map; lia). rewrite length_map.
      destruct (Nat.eqb_spec j (S (length label - 1))) as [->|Hj'].
      + by replace (S (length label - 1) - length label)%nat with 0%nat by lia.
      + replace (j - length label)%nat with (S (j - S (length label)))%nat by lia. simpl.
        rewrite lookup_drop. f_equal. lia. }
  rewrite Hs. split.
  - apply c_string_app. apply Forall_map. eapply Forall_impl; [exact Hnz|].
    intros c Hc. unfold to_lower. destruct (_ && _) eqn:E; [|done].
    apply andb_true_iff in E as [E%Z.leb_le _]. lia.
  - rewrite drop_app_ge by (rewrite length_map; lia). rewrite length_map.
    by replace (S (length label) - length label)%nat with 1%nat by lia.
Qed.

Lemma sanitize_name_trims_witness :
  c_string (sanitize_name [66; 69; 111; 83; 32; 32; 32; 0] 7) = [98; 101; 111; 115].
Proof.
  apply (sanitize_name_trims _ [66; 69; 111; 83] 3 [0]); try discriminate; [|reflexivity].
  repeat constructor; discriminate.
Defined.
