(* ===== verification/Attr.v ===== *)
(** Attributes (attr.c): FAT stores none, but a file has the attribute
    BEOS:TYPE, its MIME type, which is taken from the extension of its name with
    the table of mime_table.c. *)
From Stdlib Require Import String Ascii.
From stdpp Require Import base gmap list.
From Stdlib Require Import ZArith Lia.
From S2P Require Import Prelude Errors Volume Util.

Implicit Types vol : nspace.
Implicit Types node : vnode.

(** Strings are lists of bytes without the final NUL. *)
Abbreviation cstring := (list Z).

Definition bytes_of (s : string) : cstring :=
  map (fun c => Z.of_N (N_of_ascii c)) (list_ascii_of_string s).

(** [strcasecmp(a, b) == 0] *)
Definition strcasecmp_eq (a b : cstring) : bool := bool_decide (map to_lower a = map to_lower b).

(** ** The table (mime_table.c) *)

Record ext_mime := ExtMime { extension : cstring; em_mime : cstring }.

Definition mimes : list ext_mime :=
  map (fun '(e, m) => ExtMime (bytes_of e) (bytes_of m))
  ([("gz", "application/x-gzip"); ("hqx", "application/x-binhex40");
   ("lha", "application/x-lharc"); ("lzh", "application/x-lharc");
   ("pcl", "application/x-pcl"); ("pdf", "application/pdf");
   ("ps", "application/postscript"); ("sit", "application/x-stuff-it");
   ("tar", "application/x-tar"); ("tgz", "application/x-gzip");
   ("uue", "application/x-uuencode"); ("z", "application/x-compress");
   ("zip", "application/zip"); ("zoo", "application/x-zoo");
   ("pkg", "application/x-scode-UPkg"); ("vdwn", "application/x-scode-UPkg");
   ("proj", "application/x-mw-project"); ("swf", "application/x-shockwave-flash");
   ("clp", "application/x-codeliege-project"); ("aif", "audio/x-aiff");
   ("aifc", "audio/x-aifc"); ("aiff", "audio/x-aiff");
   ("au", "audio/basic"); ("mid", "audio/x-midi");
   ("midi", "audio/x-midi"); ("mod", "audio/mod");
   ("ra", "audio/x-real-audio"); ("wav", "audio/x-wav");
   ("mp2", "audio/x-mpeg"); ("mp3", "audio/x-mpeg");
   ("ogg", "audio/x-vorbis"); ("mpc", "audio/x-mpc");
   ("asf", "application/x-asf"); ("riff", "application/x-riff");
   ("wma", "audio/x-ms-wma"); ("bmp", "image/x-bmp");
   ("fax", "image/g3fax"); ("gif", "image/gif");
   ("iff", "image/x-iff"); ("jpg", "image/jpeg");
   ("jpeg", "image/jpeg"); ("pbm", "image/x-portable-bitmap");
   ("pcx", "image/x-pcx"); ("pgm", "image/x-portable-graymap");
   ("png", "image/png"); ("ppm", "image/x-portable-pixmap");
   ("rgb", "image/x-rgb"); ("tga", "image/x-targa");
   ("tif", "image/tiff"); ("tiff", "image/tiff");
   ("xbm", "image/x-xbitmap"); ("txt", "text/plain");
   ("ini", "text/plain"); ("log", "text/plain");
   ("bat", "text/plain"); ("doc", "text/plain");
   ("cfg", "text/plain"); ("inf", "text/plain");
   ("htm", "text/html"); ("html", "text/html");
   ("rtf", "text/rtf"); ("c", "text/x-source-code");
   ("cc", "text/x-source-code"); ("c++", "text/x-source-code");
   ("h", "text/x-source-code"); ("h++", "text/x-source-code");
   ("hh", "text/x-source-code"); ("hpp", "text/x-source-code");
   ("pl", "text/x-source-code"); ("py", "text/x-source-code");
   ("cxx", "text/x-source-code"); ("cpp", "text/x-source-code");
   ("S", "text/x-source-code"); ("asm", "text/x-source-code");
   ("bas", "text/x-source-code"); ("pas", "text/x-source-code");
   ("java", "text/x-source-code"); ("avi", "video/x-msvideo");
   ("mov", "video/quicktime"); ("mpg", "video/mpeg");
   ("mpeg", "video/mpeg"); ("ogm", "video/x-ogm");
   ("wmv", "video/x-ms-wmv"); ("rm", "application/vnd.rn-realmedia");
   ("rn", "application/vnd.rn-realmedia")]%string).

(** ** [set_mime_type] *)

Definition has_extension (filename ext : cstring) : bool :=
  let namelen := length filename in
  let ext_len := length ext in
  if (namelen <=? ext_len)%nat then false
  else if negb (nth (namelen - ext_len - 1) filename 0 =? 46) then false
  else strcasecmp_eq (drop (namelen - ext_len) filename) ext.

Fixpoint find_mime (table : list ext_mime) (filename : cstring) : option cstring :=
  match table with
  | [] => None
  | p :: table =>
      if has_extension filename (extension p) then Some (em_mime p) else find_mime table filename
  end.

Definition set_mime_type (node : vnode) (filename : cstring) : vnode :=
  set_mime (find_mime mimes filename) node.

(** ** The attribute directory

    A cookie is an integer in memory: 0 before the entry has been given out, 1
    behind it. *)

Definition dosfs_open_attrdir (vol : nspace) : Z * nspace * option Z :=
  let '(ok, vol) := malloc_ok vol in
  if negb ok then (ENOMEM, vol, None) else (0, vol, Some 0).

Definition dosfs_close_attrdir (_ : Z) : Z * Z := (0, 1).

Definition dosfs_free_attrdir_cookie (cookie : option Z) : Z :=
  match cookie with None => EINVAL | Some _ => 0 end.

Definition dosfs_rewind_attrdir (cookie : option Z) : Z * option Z :=
  match cookie with None => (EINVAL, None) | Some _ => (0, Some 0) end.

Definition BEOS_TYPE : cstring := bytes_of "BEOS:TYPE".

(** The status, the cookie, and the entry: its node id, length and name. *)
Definition dosfs_read_attrdir (node : vnode) (cookie : Z) : Z * Z * option (Z * Z * cstring) :=
  (0, 1,
   if (cookie =? 0) && bool_decide (is_Some (mime node)) then Some (vnid node, 10, BEOS_TYPE) else None).

(** ** The attribute

    The only attribute cookie handed out is the address of a variable of the
    file; an operation sees whether its cookie is that address. *)

Definition dosfs_open_attr (node : vnode) (name : cstring) : Z * bool :=
  if negb (bool_decide (name = BEOS_TYPE)) then (ENOENT, false)
  else match mime node with None => (ENOENT, false) | Some _ => (B_OK, true) end.

Definition dosfs_close_attr : Z := B_OK.
Definition dosfs_free_attr_cookie : Z := B_OK.

(** The status and [st_size]; [st_type] is always the MIME string type. *)
Definition dosfs_read_attr_stat (node : vnode) (cookie : bool) : Z * option Z :=
  if negb cookie then (ENOENT, None)
  else match mime node with
       | None => (ENOENT, None)
       | Some m => (0, Some (Z.of_nat (length m) + 1))
       end.

(** The status, the string in the buffer, and [*_length].  [None]: an empty
    buffer is stored to. *)
Definition dosfs_read_attr (node : vnode) (cookie : bool) (pos len : Z) : option (Z * cstring * Z) :=
  if negb cookie then Some (ENOENT, [], len)
  else match mime node with
       | None => Some (ENOENT, [], len)
       | Some m =>
           if (pos <? 0) || (Z.of_nat (length m) <? pos) then Some (EINVAL, [], len)
           else if len =? 0 then None
           else
             let s := take (Z.to_nat (len - 1)) (drop (Z.to_nat pos) m) in
             Some (0, s, Z.of_nat (length s) + 1)
       end.

Definition dosfs_write_attr (cookie : bool) : Z * Z := (if negb cookie then ENOSYS else B_OK, 0).

(** ** Properties *)

(** The extension of a name, up to case: what comes behind one of its dots. *)
Definition ends_in (filename ext : cstring) : Prop :=
  exists base e, filename = base ++ 46 :: e /\ map to_lower e = map to_lower ext.

Lemma has_extension_spec filename ext : has_extension filename ext = true <-> ends_in filename ext.
Proof.
  unfold has_extension, ends_in, strcasecmp_eq. split.
  - destruct (Nat.leb_spec (length filename) (length ext)) as [|Hl]; [done|].
    destruct (Z.eqb_spec (nth (length filename - length ext - 1) filename 0) 46) as [Hd|]; [|done].
    cbn [negb]. rewrite bool_decide_eq_true. intros E.
    exists (take (length filename - length ext - 1) filename), (drop (length filename - length ext) filename).
    split; [|done]. rewrite <-(take_drop (length filename - length ext - 1) filename) at 1. f_equal.
    destruct (nth_lookup_or_length filename (length filename - length ext - 1) 0) as [Hn|]; [|lia].
    rewrite (drop_S _ _ _ Hn), Hd. f_equal. f_equal. lia.
  - intros (base & e & -> & E). pose proof (f_equal length E) as El. rewrite !length_map in El.
    rewrite length_app. cbn [length].
    destruct (Nat.leb_spec (length base + S (length e)) (length ext)) as [|_]; [lia|].
    replace (length base + S (length e) - length ext - 1)%nat with (length base) by lia.
    rewrite nth_middle, Z.eqb_refl. cbn [negb].
    replace (length base + S (length e) - length ext)%nat with (S (length base)) by lia.
    replace (S (length base)) with (length (base ++ [46])) by (rewrite length_app; simpl; lia).
    replace (base ++ 46 :: e) with ((base ++ [46]) ++ e) by (by rewrite <-app_assoc).
    rewrite drop_app_length. by apply bool_decide_eq_true.
Qed.

Lemma find_mime_spec table filename :
  match find_mime table filename with
  | Some m => exists i p, table !! i = Some p /\ em_mime p = m /\ ends_in filename (extension p) /\
      forall j q, (j < i)%nat -> table !! j = Some q -> ~ ends_in filename (extension q)
  | None => forall p, p ∈ table -> ~ ends_in filename (extension p)
  end.
Proof.
  induction table as [|p table IH]; simpl; [intros p Hp; inversion Hp|].
  destruct (has_extension filename (extension p)) eqn:E.
  - exists 0%nat, p. apply has_extension_spec in E. split_and!; try done. intros. lia.
  - assert (Hn : ~ ends_in filename (extension p)) by (by rewrite <-has_extension_spec, E).
    destruct (find_mime table filename) as [m|].
    + destruct IH as (i & q & Hi & Hm & He & Hf). exists (S i), q. split_and!; try done.
      intros [|j] r Hj Hr; [by injection Hr as <-|]. apply (Hf j r); [lia|done].
    + intros q [->|Hq]%elem_of_cons; [done|by apply IH].
Qed.

(** the MIME type a node gets is that of the first row of the table whose
    extension is, up to case, what comes behind a dot of the name; a name
    without such an extension has no MIME type; nothing else of the node
    changes. *)
Theorem set_mime_type_finds node filename :
  let node' := set_mime_type node filename in
  node' = set_mime (mime node') node /\
  match mime node' with
  | Some m => exists i p, mimes !! i = Some p /\ em_mime p = m /\ ends_in filename (extension p) /\
      forall j q, (j < i)%nat -> mimes !! j = Some q -> ~ ends_in filename (extension q)
  | None => forall p, p ∈ mimes -> ~ ends_in filename (extension p)
  end.
Proof. split; [done|]. apply find_mime_spec. Qed.
