(* ===== verification/Iter.v ===== *)
(** Iterators (iter.c): a position in a cluster chain, as cluster and sector,
    and a position in a directory, as a numbered 32 byte entry. *)
From stdpp Require Import base gmap list.
From Stdlib Require Import ZArith Lia.
From S2P Require Import Prelude Errors Volume Fat.

Implicit Types vol : nspace.

(** ** Chain positions

    The [vol] pointer of an iterator never changes: the volume is passed
    along. *)
Record csi := Csi { csi_cluster : Z; csi_sector : Z }.

Definition _validate_cs_ (vol : nspace) (cluster sector : Z) : Z :=
  if negb (fat_bits vol =? 32) && IS_FIXED_ROOT cluster then
    if root_sectors vol <=? sector then -1 else 0
  else if sectors_per_cluster vol <=? sector then -1
  else if negb (IS_DATA_CLUSTER vol cluster) then -1
  else 0.

Definition csi_to_block (vol : nspace) (c : csi) : Z :=
  if negb (_validate_cs_ vol (csi_cluster c) (csi_sector c) =? 0) then EINVAL
  else if IS_FIXED_ROOT (csi_cluster c) then u32 (root_start vol + csi_sector c)
  else data_start vol + u32 (csi_cluster c - 2) * sectors_per_cluster vol + csi_sector c.

(** The status and the iterator, [old] where it is not filled in. *)
Definition init_csi (vol : nspace) (cluster sector : Z) (old : csi) : Z * csi :=
  let ret := _validate_cs_ vol cluster sector in
  if negb (ret =? 0) then (ret, old) else (0, Csi cluster sector).

Definition iter_csi (vol : nspace) (c : csi) (sectors : Z) : Z * csi :=
  if csi_sector c =? 0xffff then (-1, c)
  else if sectors <? 0 then (EINVAL, c)
  else if sectors =? 0 then (0, c)
  else
    let sector := u32 (csi_sector c + sectors) in
    if IS_FIXED_ROOT (csi_cluster c) then
      if sector <? root_sectors vol then (0, Csi (csi_cluster c) sector)
      else (-1, Csi (csi_cluster c) 0xffff)
    else if sector <? sectors_per_cluster vol then (0, Csi (csi_cluster c) sector)
    else
      let cluster :=
        u32 (get_nth_fat_entry vol (i32 (csi_cluster c)) (sector / sectors_per_cluster vol)) in
      if i32 cluster <? 0 then (i32 cluster, Csi cluster 0xffff)
      else if IS_DATA_CLUSTER vol cluster
      then (0, Csi cluster (sector mod sectors_per_cluster vol))
      else (-1, Csi cluster 0xffff).

Definition csi_get_block (vol : nspace) (c : csi) : option Z :=
  if negb (_validate_cs_ vol (csi_cluster c) (csi_sector c) =? 0) then None
  else block_cache_get vol (csi_to_block vol c).

(** The run of adjacent sectors the two block transfers handle at once: the
    number of sectors, and the iterator at the last of them. *)
Definition csi_run_step (vol : nspace) (block len : Z) (s : csi * Z) : loop (csi * Z) (csi * Z) :=
  let '(c, sectors) := s in
  let old_csi := c in
  let '(err, c) := iter_csi vol c 1 in
  if u32 len <? u32 ((sectors + 1) * bytes_per_sector vol) then Brk (old_csi, sectors)
  else if (err <? B_OK) || negb (block + sectors =? csi_to_block vol c) then Brk (old_csi, sectors)
  else Cont (c, sectors + 1).

Definition csi_run (vol : nspace) (c : csi) (len : Z) : csi * Z :=
  loop_end (z_loop (csi_run_step vol (csi_to_block vol c) len) (u32 len) (c, 1)).

(** The copy of block [i] in front of the rest of the buffer. *)
Definition read_step (vol : nspace) (i : Z) (acc : option (list Z)) : option (list Z) :=
  match block_cache_get vol i, acc with
  | Some p, Some buf => Some (take (Z.to_nat (bytes_per_sector vol)) (block_data vol p) ++ buf)
  | _, _ => None
  end.

(** What the caller of a transfer sees: the status, or the number of bytes;
    [None] when the code stores through the NULL pointer an unreadable block
    gave it. *)
Definition csi_read_blocks (vol : nspace) (c : csi) (len : Z) : option (Z * list Z * csi) :=
  if negb (_validate_cs_ vol (csi_cluster c) (csi_sector c) =? 0) then Some (EINVAL, [], c)
  else
    let '(last, sectors) := csi_run vol c len in
    let block := csi_to_block vol c in
    match foldr (read_step vol) (Some []) (seqZ block sectors) with
    | None => None
    | Some buf => Some (i32 (sectors * bytes_per_sector vol), buf, last)
    end.

(** The first bytes of a block replaced by those of [src]. *)
Definition block_copy (src : list Z) (b : block) : block := src ++ drop (length src) b.

Definition store_block (vol : nspace) (i : Z) (src : list Z) : option nspace :=
  match block_cache_get_writable vol i with
  | None => None
  | Some p => Some (block_update (block_copy (take (Z.to_nat (bytes_per_sector vol)) src)) p vol)
  end.

Definition csi_write_blocks (vol : nspace) (c : csi) (buffer : list Z) (len : Z)
    : option (Z * csi * nspace) :=
  if negb (_validate_cs_ vol (csi_cluster c) (csi_sector c) =? 0) then Some (EINVAL, c, vol)
  else
    let '(last, sectors) := csi_run vol c len in
    let block := csi_to_block vol c in
    let bps := bytes_per_sector vol in
    match foldl (fun acc i =>
                   match acc with
                   | None => None
                   | Some v => store_block v i (drop (Z.to_nat ((i - block) * bps)) buffer)
                   end) (Some vol) (seqZ block sectors) with
    | None => None
    | Some v => Some (i32 (sectors * bps), last, v)
    end.

Definition csi_write_block (vol : nspace) (c : csi) (buffer : list Z) : option (Z * nspace) :=
  if negb (_validate_cs_ vol (csi_cluster c) (csi_sector c) =? 0) then Some (EINVAL, vol)
  else
    match store_block vol (csi_to_block vol c) buffer with
    | None => None
    | Some v => Some (B_OK, v)
    end.

(** ** Directory positions *)

Record diri := Diri {
  di_csi : csi;
  starting_cluster : Z;
  current_index : Z;
  current_block : option Z
}.

Definition set_di_block (b : option Z) (d : diri) : diri :=
  Diri (di_csi d) (starting_cluster d) (current_index d) b.
Definition set_di_csi (c : csi) (d : diri) : diri :=
  Diri c (starting_cluster d) (current_index d) (current_block d).
Definition set_di_index (i : Z) (d : diri) : diri :=
  Diri (di_csi d) (starting_cluster d) i (current_block d).

(** A pointer to a directory entry: a cached block and an offset in it. *)
Record ptr := Ptr { p_block : Z; p_off : Z }.

Definition entries_per_sector (b : bpb) : Z := bytes_per_sector b / 0x20.

(** [diri->current_block + (index % (bytes_per_sector / 0x20)) * 0x20] *)
Definition diri_ptr (vol : nspace) (d : diri) : option ptr :=
  match current_block d with
  | None => None
  | Some p => Some (Ptr p ((current_index d mod entries_per_sector vol) * 0x20))
  end.

Definition _diri_release_current_block_ (d : diri) : diri := set_di_block None d.

(** [d] is the uninitialised iterator. *)
Definition diri_init (vol : nspace) (cluster index : Z) (d : diri) : option ptr * diri :=
  let d := set_di_block None d in
  if u32 (total_clusters vol + 2) <=? cluster then (None, d)
  else
    let '(ret, c) := init_csi vol cluster 0 (di_csi d) in
    let d := set_di_csi c d in
    if negb (ret =? 0) then (None, d)
    else
      let d := Diri c cluster index None in
      let '(ret, c) :=
        if entries_per_sector vol <=? index
        then iter_csi vol c (i32 (index / entries_per_sector vol)) else (0, c) in
      let d := set_di_csi c d in
      if negb (ret =? 0) then (None, d)
      else
        let d := set_di_block (csi_get_block vol c) d in
        (diri_ptr vol d, d).

Definition diri_free (d : diri) : diri := _diri_release_current_block_ d.

Definition diri_current_entry (vol : nspace) (d : diri) : option ptr := diri_ptr vol d.

Definition diri_next_entry (vol : nspace) (d : diri) : option ptr * diri :=
  match current_block d with
  | None => (None, d)
  | Some _ =>
      let d := set_di_index (u32 (current_index d + 1)) d in
      if current_index d mod entries_per_sector vol =? 0 then
        let d := _diri_release_current_block_ d in
        let '(ret, c) := iter_csi vol (di_csi d) 1 in
        let d := set_di_csi c d in
        if negb (ret =? 0) then (None, d)
        else
          let d := set_di_block (csi_get_block vol c) d in
          (diri_ptr vol d, d)
      else (diri_ptr vol d, d)
  end.

Definition diri_rewind (vol : nspace) (d : diri) : option ptr * diri :=
  if u32 (entries_per_sector vol - 1) <? current_index d then
    let d := _diri_release_current_block_ d in
    let '(ret, c) := init_csi vol (starting_cluster d) 0 (di_csi d) in
    let d := set_di_csi c d in
    if negb (ret =? 0) then (None, d)
    else
      let d := set_di_index 0 (set_di_block (csi_get_block vol c) d) in
      (diri_ptr vol d, d)
  else
    let d := set_di_index 0 d in
    (diri_ptr vol d, d).
