(* ===== verification/Stream.v ===== *)
(** The blocks an iterator visits: a file or a directory is a sequence of
    blocks, and the iterators of Iter.v are positions in it. *)
From stdpp Require Import base gmap list.
From Stdlib Require Import ZArith Lia.
From S2P Require Import Prelude Errors Volume Fat FatEntry FatIoctl FatTable FatChain Iter.

Implicit Types vol : nspace.

(** The layout of a mounted volume: reserved sectors, tables, on 12 and 16 bit
    volumes the fixed root directory, data. *)
Record layout_ok (vol : nspace) : Prop := {
  lo_fat : fat_ok vol;
  lo_spc : 0 < sectors_per_cluster vol <= 128;
  lo_root : fat_bits vol = 32 \/
            reserved_sectors vol + fat_count vol * sectors_per_fat vol <= root_start vol /\
            root_start vol + root_sectors vol <= data_start vol;
  lo_root_sectors : 0 <= root_sectors vol < 0xffff;
  lo_data : reserved_sectors vol + fat_count vol * sectors_per_fat vol <= data_start vol;
  lo_end : data_start vol + total_clusters vol * sectors_per_cluster vol < 2 ^ 31
}.

Definition cluster_blocks (b : bpb) (c : Z) : list Z :=
  seqZ (data_start b + (c - 2) * sectors_per_cluster b) (sectors_per_cluster b).
Definition chain_blocks (b : bpb) (l : list Z) : list Z := concat (map (cluster_blocks b) l).

(** [stream vol start bl]: the data that begins at cluster [start] is in the
    blocks [bl]. *)
Inductive stream (vol : nspace) (start : Z) : list Z -> Prop :=
| stream_root :
    fat_bits vol <> 32 -> start = 1 -> stream vol start (seqZ (root_start vol) (root_sectors vol))
| stream_chain l e :
    terminated vol start l e -> l <> [] -> stream vol start (chain_blocks vol l).

(** [at_block vol start bl j c]: the iterator [c] is at block number [j] of
    the stream. *)
Inductive at_block (vol : nspace) (start : Z) : list Z -> Z -> csi -> Prop :=
| at_root j :
    fat_bits vol <> 32 -> start = 1 -> 0 <= j < root_sectors vol ->
    at_block vol start (seqZ (root_start vol) (root_sectors vol)) j (Csi 1 j)
| at_chain l e j c :
    terminated vol start l e -> 0 <= j ->
    l !! Z.to_nat (j / sectors_per_cluster vol) = Some c ->
    at_block vol start (chain_blocks vol l) j (Csi c (j mod sectors_per_cluster vol)).

Lemma chain_blocks_length b l :
  0 <= sectors_per_cluster b ->
  Z.of_nat (length (chain_blocks b l)) = Z.of_nat (length l) * sectors_per_cluster b.
Proof.
  intros Hs. induction l as [|c l IH]; simpl; [done|].
  unfold chain_blocks in *. simpl. rewrite length_app. unfold cluster_blocks at 1.
  rewrite length_seqZ. lia.
Qed.

Lemma lookup_seqZ_Z a n i : 0 <= i < n -> seqZ a n !! Z.to_nat i = Some (a + i).
Proof. intros Hi. apply lookup_seqZ. lia. Qed.

Lemma chain_blocks_lookup b l c j :
  0 < sectors_per_cluster b -> 0 <= j ->
  l !! Z.to_nat (j / sectors_per_cluster b) = Some c ->
  chain_blocks b l !! Z.to_nat j
  = Some (data_start b + (c - 2) * sectors_per_cluster b + j mod sectors_per_cluster b).
Proof.
  intros Hs. set (n := sectors_per_cluster b) in *. revert j.
  induction l as [|a l IH]; intros j Hj Hc; [done|].
  unfold chain_blocks in *. simpl.
  assert (Hlen : length (cluster_blocks b a) = Z.to_nat n) by apply length_seqZ.
  destruct (Z.lt_ge_cases j n) as [Hlt|Hge].
  - rewrite Z.div_small in Hc by lia. simpl in Hc. injection Hc as ->.
    rewrite lookup_app_l by lia. unfold cluster_blocks. fold n.
    rewrite lookup_seqZ_Z, Z.mod_small by lia. done.
  - assert (Ej : j = n + (j - n)) by lia.
    assert (Ed : j / n = 1 + (j - n) / n).
    { rewrite Ej at 1. replace (n + (j - n)) with ((j - n) + 1 * n) by lia. rewrite Z.div_add by lia. lia. }
    assert (Em : j mod n = (j - n) mod n).
    { rewrite Ej at 1. replace (n + (j - n)) with ((j - n) + 1 * n) by lia. by rewrite Z.mod_add by lia. }
    pose proof (Z.div_pos (j - n) n ltac:(lia) Hs) as Hdp.
    rewrite Ed, Z2Nat.inj_add in Hc by lia. simpl in Hc. rewrite Em.
    rewrite lookup_app_r by lia. rewrite Hlen, <-Z2Nat.inj_sub by lia. by apply IH; [lia|].
Qed.

Section Stream.
Context (vol : nspace) (Hlo : layout_ok vol).

Let Hok := lo_fat vol Hlo.
Let Hgeo := ok_geo vol Hok.

Lemma spc_pos : 0 < sectors_per_cluster vol.
Proof using Hlo. destruct Hlo. lia. Qed.

Lemma fixed_root_data c : data_cluster vol c -> IS_FIXED_ROOT c = false.
Proof using. unfold data_cluster, IS_FIXED_ROOT. lia. Qed.

Lemma chain_lookup_data start l e i c :
  terminated vol start l e -> l !! i = Some c -> data_cluster vol c.
Proof using.
  intros [Ht _] Hc. pose proof (chain_data _ _ _ _ Ht) as Hall. rewrite Forall_forall in Hall.
  apply Hall. by eapply list_elem_of_lookup_2.
Qed.

Lemma validate_data c s :
  data_cluster vol c -> 0 <= s < sectors_per_cluster vol -> _validate_cs_ vol c s = 0.
Proof using Hlo.
  intros Hc Hs. unfold _validate_cs_. rewrite (fixed_root_data c Hc), andb_false_r.
  rewrite (proj2 (Z.leb_gt _ _)) by lia.
  by rewrite (is_data_true vol c Hgeo Hc).
Qed.

Lemma csi_to_block_data c s :
  data_cluster vol c -> 0 <= s < sectors_per_cluster vol ->
  csi_to_block vol (Csi c s) = data_start vol + (c - 2) * sectors_per_cluster vol + s.
Proof using Hlo.
  intros Hc Hs. unfold csi_to_block. simpl. rewrite (validate_data c s Hc Hs). simpl.
  rewrite (fixed_root_data c Hc). pose proof (data_cluster_bound vol Hgeo c Hc).
  pose proof (max_cluster_small vol Hgeo). rewrite u32_small by lia. done.
Qed.

Lemma at_block_valid start bl j c :
  at_block vol start bl j c ->
  _validate_cs_ vol (csi_cluster c) (csi_sector c) = 0 /\
  bl !! Z.to_nat j = Some (csi_to_block vol c) /\ 0 <= csi_sector c < 0xffff /\ 0 <= j.
Proof using Hlo.
  pose proof spc_pos as Hs. destruct (lo_spc vol Hlo) as [_ Hs128].
  intros [j' Hb -> Hj|l e j' cl Ht Hj Hcl]; simpl.
  - assert (Hv : _validate_cs_ vol 1 j' = 0).
    { unfold _validate_cs_. rewrite (proj2 (Z.eqb_neq _ _) Hb). simpl.
      by rewrite (proj2 (Z.leb_gt _ _)) by lia. }
    pose proof (lo_root_sectors vol Hlo). pose proof (lo_end vol Hlo).
    pose proof (lo_data vol Hlo). pose proof (lo_root vol Hlo).
    pose proof (geo_reserved _ Hgeo). pose proof (geo_spf _ Hgeo). pose proof (geo_active _ Hgeo).
    pose proof (geo_total _ Hgeo).
    split; [done|]. split; [|lia]. unfold csi_to_block. simpl. rewrite Hv. simpl.
    rewrite u32_small by nia. by apply lookup_seqZ_Z.
  - pose proof (Z.mod_pos_bound j' (sectors_per_cluster vol) Hs) as Hm.
    pose proof (chain_lookup_data start l e _ cl Ht Hcl) as Hd.
    split; [by apply validate_data|]. split; [|lia].
    rewrite csi_to_block_data by done. by apply chain_blocks_lookup.
Qed.

Lemma stream_init start bl :
  stream vol start bl -> 0 < Z.of_nat (length bl) -> at_block vol start bl 0 (Csi start 0).
Proof using Hlo.
  pose proof spc_pos as Hs. intros [Hb ->|l e Ht Hl] Hlen.
  - apply at_root; [done|done|]. rewrite length_seqZ in Hlen. lia.
  - replace 0 with (0 mod sectors_per_cluster vol) at 2 by (apply Z.mod_small; lia).
    eapply at_chain; [done|lia|]. rewrite Z.div_small by lia. simpl.
    destruct Ht as [Ht _]. destruct Ht; [done|]. done.
Qed.

(** Advancing by [n] blocks moves [n] places along the stream, or to its end
    marker. *)
Lemma iter_csi_moves start bl j c n :
  at_block vol start bl j c -> 0 <= n -> csi_sector c + n < 2 ^ 32 ->
  if j + n <? Z.of_nat (length bl)
  then exists c', iter_csi vol c n = (0, c') /\ at_block vol start bl (j + n) c'
  else exists e, iter_csi vol c n = (-1, Csi e 0xffff).
Proof using Hlo.
  intros Hat Hn Hov. pose proof (at_block_valid start bl j c Hat) as (_ & Hlk & Hs & Hj).
  pose proof spc_pos as Hspc. destruct (decide (n = 0)) as [->|Hn0].
  { rewrite Z.add_0_r. apply lookup_lt_Some in Hlk. rewrite (proj2 (Z.ltb_lt _ _)) by lia.
    exists c. split; [|done]. unfold iter_csi. by rewrite (proj2 (Z.eqb_neq _ _)) by lia. }
  unfold iter_csi. rewrite (proj2 (Z.eqb_neq (csi_sector c) _)) by lia.
  rewrite (proj2 (Z.ltb_ge n 0)), (proj2 (Z.eqb_neq n 0)) by lia. rewrite u32_small by lia.
  destruct Hat as [j Hb -> Hjr|l e j cl Ht Hj' Hcl]; simpl in *.
  - rewrite length_seqZ, Z2Nat.id by lia.
    destruct (Z.ltb_spec (j + n) (root_sectors vol)); [|by exists 1].
    eexists. split; [done|]. apply at_root; [done|done|lia].
  - rewrite chain_blocks_length by lia. set (spc := sectors_per_cluster vol) in *.
    pose proof (chain_lookup_data start l e _ cl Ht Hcl) as Hd.
    rewrite (fixed_root_data cl Hd).
    pose proof (Z.div_mod j spc ltac:(lia)) as Edm.
    pose proof (Z.mod_pos_bound j spc Hspc) as Hm.
    set (x := j mod spc + n) in *. pose proof (Z.div_mod x spc ltac:(lia)) as Exm.
    pose proof (Z.mod_pos_bound x spc Hspc) as Hxm.
    assert (Hq : 0 <= x / spc) by (apply Z.div_pos; lia).
    pose proof (Z.div_pos j spc Hj' Hspc) as Hjq.
    assert (Hpos : (j + n) / spc = j / spc + x / spc /\ (j + n) mod spc = x mod spc).
    { apply div_mod_pos; [lia|lia|nia]. }
    destruct Hpos as [Ediv Emod].
    assert (Hlt : j + n < Z.of_nat (length l) * spc <-> j / spc + x / spc < Z.of_nat (length l)) by nia.
    destruct (Z.ltb_spec x spc) as [Hxs|Hxs].
    + rewrite (Z.div_small x), Z.add_0_r in * by lia. rewrite (Z.mod_small x) in * by lia.
      apply lookup_lt_Some in Hcl as Hl. rewrite (proj2 (Z.ltb_lt _ _)) by lia.
      eexists. split; [done|]. rewrite <-Emod. eapply at_chain; [done|lia|]. fold spc. by rewrite Ediv.
    + pose proof (data_cluster_bound vol Hgeo cl Hd) as Hcb. pose proof (max_cluster_small vol Hgeo).
      rewrite (i32_small cl) by lia.
      assert (Hsub : terminated vol cl (drop (Z.to_nat (j / spc)) l) e).
      { destruct Ht as [Ht He]. split; [|done].
        rewrite <-(take_drop_middle _ _ _ Hcl) in Ht. apply chain_split in Ht.
        by rewrite (drop_S _ _ _ Hcl). }
      rewrite (get_nth_chain vol cl _ e (x / spc) Hok Hsub) by
        (done || by rewrite (drop_S _ _ _ Hcl)).
      rewrite lookup_drop, <-Z2Nat.inj_add by lia.
      destruct (l !! Z.to_nat (j / spc + x / spc)) as [c'|] eqn:Ec'; simpl.
      * pose proof (chain_lookup_data start l e _ c' Ht Ec') as Hd'.
        pose proof (data_cluster_bound vol Hgeo c' Hd').
        rewrite u32_small, i32_small by lia. rewrite (proj2 (Z.ltb_ge c' 0)) by lia.
        rewrite (is_data_true vol c' Hgeo Hd').
        apply lookup_lt_Some in Ec' as Hl. rewrite (proj2 (Z.ltb_lt _ _)) by lia.
        eexists. split; [done|]. rewrite <-Emod. eapply at_chain; [done|lia|]. fold spc. by rewrite Ediv.
      * apply lookup_ge_None in Ec'. rewrite (proj2 (Z.ltb_ge (j + n) _)) by lia.
        destruct Hsub as [Hsub He].
        pose proof (chain_end_range vol cl (drop (Z.to_nat (j / spc)) l) e Hgeo
          ltac:(by rewrite (drop_S _ _ _ Hcl)) Hsub) as Her.
        rewrite u32_small, i32_small by lia. rewrite (proj2 (Z.ltb_ge e 0)) by lia.
        rewrite is_data_false by (done || lia). by exists e.
Qed.

(** Blocks of a chain are in the data area, blocks of a fixed root directory
    in its own: never in a table. *)
Lemma stream_block_range start bl b :
  stream vol start bl -> b ∈ bl ->
  reserved_sectors vol + fat_count vol * sectors_per_fat vol <= b
  < data_start vol + total_clusters vol * sectors_per_cluster vol.
Proof using Hlo.
  pose proof spc_pos. pose proof (lo_root vol Hlo). pose proof (lo_data vol Hlo). pose proof (lo_root_sectors vol Hlo).
  pose proof (geo_total _ Hgeo).
  intros [Hb ->|l e Ht Hl] Hin.
  - apply elem_of_seqZ in Hin. nia.
  - unfold chain_blocks in Hin. apply list_elem_of_In, in_concat in Hin as (bs & Hbs & Hin).
    apply in_map_iff in Hbs as (c & <- & Hc). apply list_elem_of_In, elem_of_seqZ in Hin.
    apply list_elem_of_In, list_elem_of_lookup_1 in Hc as [i Hc].
    pose proof (chain_lookup_data start l e i c Ht Hc) as [Hc2 Hc3].
    assert (c - 2 <= total_clusters vol - 1) by lia. nia.
Qed.

Lemma stream_not_fat start bl b : stream vol start bl -> b ∈ bl -> ~ in_fats vol b.
Proof using Hlo.
  intros Hs Hb. pose proof (stream_block_range start bl b Hs Hb).
  unfold in_fats. lia.
Qed.

Lemma chain_blocks_inj start l e j j' c c' :
  terminated vol start l e -> 0 <= j -> 0 <= j' ->
  l !! Z.to_nat (j / sectors_per_cluster vol) = Some c ->
  l !! Z.to_nat (j' / sectors_per_cluster vol) = Some c' ->
  (c - 2) * sectors_per_cluster vol + j mod sectors_per_cluster vol
  = (c' - 2) * sectors_per_cluster vol + j' mod sectors_per_cluster vol -> j = j'.
Proof using Hlo.
  intros Ht Hj Hj' Hc Hc' E. pose proof spc_pos as Hs.
  set (n := sectors_per_cluster vol) in *.
  pose proof (Z.mod_pos_bound j n Hs) as Hm. pose proof (Z.mod_pos_bound j' n Hs) as Hm'.
  assert (c - 2 = c' - 2 /\ j mod n = j' mod n) as [Ec Em].
  { destruct (div_mod_pos n (c - 2) (j mod n) _ Hs Hm eq_refl) as [A B].
    destruct (div_mod_pos n (c' - 2) (j' mod n) _ Hs Hm' eq_refl) as [A' B'].
    rewrite E in A, B. split; congruence. }
  assert (c = c') as <- by lia. clear E Ec.
  pose proof (NoDup_lookup l _ _ c (chain_nodup _ _ _ _ Ht) Hc Hc') as En.
  pose proof (Z.div_pos j n Hj Hs). pose proof (Z.div_pos j' n Hj' Hs).
  rewrite (Z.div_mod j n), (Z.div_mod j' n) by lia. rewrite Em. lia.
Qed.

Lemma stream_nodup start bl : stream vol start bl -> NoDup bl.
Proof using Hlo.
  intros Hst. pose proof (lo_spc _ Hlo) as Hs.
  destruct Hst as [Hb ->|l e Ht Hl]; [apply NoDup_seqZ|].
  apply NoDup_alt. intros i i' b Hi Hi'.
  assert (Hcl : forall i, chain_blocks vol l !! i = Some b -> exists c,
    l !! Z.to_nat (Z.of_nat i / sectors_per_cluster vol) = Some c /\
    b = data_start vol + (c - 2) * sectors_per_cluster vol + Z.of_nat i mod sectors_per_cluster vol).
  { intros k Hk. apply lookup_lt_Some in Hk as Hlt.
    pose proof (chain_blocks_length vol l ltac:(lia)) as Hlen.
    assert (Hq : Z.of_nat k / sectors_per_cluster vol < Z.of_nat (length l))
      by (apply Z.div_lt_upper_bound; nia).
    pose proof (Z.div_pos (Z.of_nat k) (sectors_per_cluster vol) ltac:(lia) ltac:(lia)).
    destruct (lookup_lt_is_Some_2 l (Z.to_nat (Z.of_nat k / sectors_per_cluster vol))) as [c Hc]; [lia|].
    exists c. split; [done|].
    pose proof (chain_blocks_lookup vol l c (Z.of_nat k) ltac:(lia) ltac:(lia) Hc) as E.
    rewrite Nat2Z.id, Hk in E. by injection E. }
  destruct (Hcl i Hi) as (c & Hc & Eb). destruct (Hcl i' Hi') as (c' & Hc' & Eb').
  pose proof (chain_blocks_inj start l e (Z.of_nat i) (Z.of_nat i') c c' Ht
    ltac:(lia) ltac:(lia) Hc Hc' ltac:(lia)). lia.
Qed.

(** ** Transfers of several blocks *)

Lemma csi_run_spec start bl j c len :
  at_block vol start bl j c -> bytes_per_sector vol <= len -> len + bytes_per_sector vol < 2 ^ 32 ->
  let b := csi_to_block vol c in
  let '(last, k) := csi_run vol c len in
  1 <= k /\ k * bytes_per_sector vol <= len /\ at_block vol start bl (j + k - 1) last /\
  (forall t, 0 <= t < k -> bl !! Z.to_nat (j + t) = Some (b + t)) /\
  (len < (k + 1) * bytes_per_sector vol \/ Z.of_nat (length bl) <= j + k \/
   bl !! Z.to_nat (j + k) <> Some (b + k)).
Proof using Hlo.
  intros Hat Hlen Hlen' b. pose proof (geo_bps _ Hgeo) as Hbps. set (bps := bytes_per_sector vol) in *.
  unfold csi_run. rewrite (u32_small len) by lia. fold b.
  set (I := fun i (s : csi * Z) => let '(c', k) := s in
    k = i + 1 /\ k * bps <= len /\ at_block vol start bl (j + k - 1) c' /\
    forall t, 0 <= t < k -> bl !! Z.to_nat (j + t) = Some (b + t)).
  set (Q := fun s : csi * Z => let '(c', k) := s in
    1 <= k /\ k * bps <= len /\ at_block vol start bl (j + k - 1) c' /\
    (forall t, 0 <= t < k -> bl !! Z.to_nat (j + t) = Some (b + t)) /\
    (len < (k + 1) * bps \/ Z.of_nat (length bl) <= j + k \/ bl !! Z.to_nat (j + k) <> Some (b + k))).
  assert (Hloop : match z_loop (csi_run_step vol b len) len (c, 1) with
                  | Cont s => I len s | Brk s => Q s end).
  { apply z_loop_inv; [lia| |].
    - unfold I. replace (j + 1 - 1) with j by lia. split_and!; [done|lia|done|].
      intros t Ht. replace t with 0 by lia. rewrite !Z.add_0_r. by apply at_block_valid in Hat as (_ & ? & _).
    - intros i [c' k] Hi (-> & Hk & Hat' & Hall). unfold csi_run_step. fold bps.
      pose proof (at_block_valid _ _ _ _ Hat') as (_ & Hlk & Hsec & Hj).
      pose proof (iter_csi_moves start bl _ c' 1 Hat' ltac:(lia) ltac:(lia)) as Hmove.
      destruct (iter_csi vol c' 1) as [err c2]. rewrite (u32_small len), u32_small by nia.
      destruct (Z.ltb_spec len ((i + 1 + 1) * bps)) as [Hlt|Hge].
      { unfold Q. split_and!; [lia|done|done|done|by left]. }
      destruct (Z.ltb_spec (j + (i + 1) - 1 + 1) (Z.of_nat (length bl))) as [Hin|Hout].
      + destruct Hmove as (c3 & [= -> ->] & Hat3). simpl.
        replace (j + (i + 1) - 1 + 1) with (j + (i + 1)) in Hat3 by lia.
        pose proof (at_block_valid _ _ _ _ Hat3) as (_ & Hlk3 & _).
        destruct (Z.eqb_spec (b + (i + 1)) (csi_to_block vol c3)) as [E|E]; simpl.
        * unfold I. split_and!; [lia|lia|by replace (j + (i + 1 + 1) - 1) with (j + (i + 1)) by lia|].
          intros t Ht. destruct (Z.eq_dec t (i + 1)) as [->|]; [by rewrite Hlk3, <-E|apply Hall; lia].
        * unfold Q. split_and!; [lia|done|done|done|]. right. right. rewrite Hlk3. congruence.
      + destruct Hmove as (e & [= -> ->]). simpl. unfold Q. split_and!; [lia|done|done|done|].
        right. left. lia. }
  destruct (z_loop _ _ _) as [[c' k]|[c' k]]; simpl; [|exact Hloop].
  destruct Hloop as (-> & Hk & _). nia.
Qed.

(** The blocks of the run, by number. *)
Lemma run_blocks bl j b k :
  0 <= j -> 0 <= k -> (forall t, 0 <= t < k -> bl !! Z.to_nat (j + t) = Some (b + t)) ->
  take (Z.to_nat k) (drop (Z.to_nat j) bl) = seqZ b k.
Proof using.
  intros Hj Hk Hall. apply list_eq. intros i. destruct (decide (i < Z.to_nat k)%nat) as [Hi|Hi].
  - rewrite lookup_take_lt, lookup_drop by done.
    replace i with (Z.to_nat (Z.of_nat i)) at 2 by lia. rewrite lookup_seqZ_Z by lia.
    rewrite <-Hall by lia. f_equal. lia.
  - rewrite lookup_take_ge by lia. symmetry. apply lookup_ge_None. rewrite length_seqZ. lia.
Qed.

Lemma read_fold l :
  Forall (readable vol) l ->
  foldr (read_step vol) (Some []) l = Some (concat (map (block_data vol) l)).
Proof using.
  induction 1 as [|i l Hi Hl IH]; simpl; [done|]. rewrite IH. unfold read_step.
  rewrite (get_readable vol i Hi). rewrite take_ge; [done|].
  destruct (block_data_readable vol i Hi) as [Hlen _]. lia.
Qed.

Lemma csi_read_spec start bl j c len :
  at_block vol start bl j c -> bytes_per_sector vol <= len < 2 ^ 31 -> Forall (readable vol) bl ->
  exists k last, csi_read_blocks vol c len
    = Some (k * bytes_per_sector vol,
            concat (map (block_data vol) (take (Z.to_nat k) (drop (Z.to_nat j) bl))), last) /\
    1 <= k /\ k * bytes_per_sector vol <= len /\ at_block vol start bl (j + k - 1) last.
Proof using Hlo.
  intros Hat Hlen Hr. pose proof (geo_bps _ Hgeo).
  pose proof (csi_run_spec start bl j c len Hat ltac:(lia) ltac:(lia)) as Hrun.
  pose proof (at_block_valid _ _ _ _ Hat) as (Hv & Hlk & _ & Hj).
  unfold csi_read_blocks. rewrite Hv. simpl.
  destruct (csi_run vol c len) as [last k]. destruct Hrun as (Hk & Hkl & Hlast & Hall & _).
  exists k, last.
  rewrite <-(run_blocks bl j (csi_to_block vol c) k Hj ltac:(lia) Hall).
  rewrite read_fold by by apply Forall_take, Forall_drop. rewrite i32_small by nia. by split_and!.
Qed.

(** ** Directory positions *)

Lemma eps_pos : 0 < entries_per_sector vol /\ entries_per_sector vol * 0x20 <= bytes_per_sector vol.
Proof using Hlo. unfold entries_per_sector. pose proof (geo_bps _ Hgeo). zlia. Qed.

(** The iterator stands at entry [i] of the directory. *)
Definition at_dirent (start : Z) (bl : list Z) (i : Z) (d : diri) : Prop :=
  exists c b, at_block vol start bl (i / entries_per_sector vol) c /\
    bl !! Z.to_nat (i / entries_per_sector vol) = Some b /\
    d = Diri c start i (Some b) /\ 0 <= i < 2 ^ 31.

Definition dirent_ptr (bl : list Z) (i : Z) : option ptr :=
  b ← bl !! Z.to_nat (i / entries_per_sector vol);
  Some (Ptr b ((i mod entries_per_sector vol) * 0x20)).

Lemma at_dirent_ptr start bl i d : at_dirent start bl i d -> diri_ptr vol d = dirent_ptr bl i.
Proof using. intros (c & b & _ & Hb & -> & _). unfold dirent_ptr. by rewrite Hb. Qed.

Lemma diri_init_spec start bl i d :
  stream vol start bl -> Forall (readable vol) bl -> 0 <= i < 2 ^ 31 ->
  start < total_clusters vol + 2 -> 0 < Z.of_nat (length bl) ->
  let '(p, d') := diri_init vol start i d in
  p = dirent_ptr bl i /\
  if i / entries_per_sector vol <? Z.of_nat (length bl)
  then at_dirent start bl i d' else current_block d' = None.
Proof using Hlo.
  intros Hst Hr Hi Hstart Hlen. pose proof eps_pos as [He _]. set (eps := entries_per_sector vol) in *.
  pose proof (geo_limit _ Hgeo). pose proof (max_cluster_small vol Hgeo). pose proof (geo_total _ Hgeo).
  pose proof (stream_init start bl Hst Hlen) as Hat.
  pose proof (at_block_valid _ _ _ _ Hat) as (Hv & _). simpl in Hv.
  pose proof (Z.div_pos i eps ltac:(lia) He) as Hq.
  unfold diri_init. rewrite u32_small, (proj2 (Z.leb_gt _ _)) by lia.
  unfold init_csi. rewrite Hv. simpl. fold eps.
  assert (Hmove : (if eps <=? i then iter_csi vol (Csi start 0) (i32 (i / eps)) else (0, Csi start 0))
                  = iter_csi vol (Csi start 0) (i / eps)).
  { pose proof (Z.div_le_upper_bound i eps i He ltac:(nia)).
    destruct (Z.leb_spec eps i) as [|Hlt]; [by rewrite i32_small by lia|].
    rewrite Z.div_small by lia. done. }
  rewrite Hmove. pose proof (Z.div_le_upper_bound i eps i He ltac:(nia)).
  pose proof (iter_csi_moves start bl 0 (Csi start 0) (i / eps) Hat Hq ltac:(simpl; lia)) as Hm.
  rewrite Z.add_0_l in Hm.
  destruct (Z.ltb_spec (i / eps) (Z.of_nat (length bl))) as [Hin|Hout].
  - destruct Hm as (c' & -> & Hat'). pose proof (at_block_valid _ _ _ _ Hat') as (Hv' & Hlk & _). simpl.
    unfold csi_get_block. rewrite Hv'. simpl.
    assert (Hrb : readable vol (csi_to_block vol c')).
    { rewrite Forall_forall in Hr. apply Hr. by eapply list_elem_of_lookup_2. }
    rewrite (get_readable _ _ Hrb). split.
    + unfold dirent_ptr. fold eps. by rewrite Hlk.
    + by exists c', (csi_to_block vol c').
  - destruct Hm as (e & ->). simpl. split; [|done]. unfold dirent_ptr. fold eps.
    by rewrite lookup_ge_None_2 by lia.
Qed.

Lemma diri_next_spec start bl i d :
  Forall (readable vol) bl -> at_dirent start bl i d -> i + 1 < 2 ^ 31 ->
  let '(p, d') := diri_next_entry vol d in
  p = dirent_ptr bl (i + 1) /\
  if (i + 1) / entries_per_sector vol <? Z.of_nat (length bl)
  then at_dirent start bl (i + 1) d' else current_block d' = None.
Proof using Hlo.
  intros Hr (c & b & Hat & Hb & -> & Hi) Hov. pose proof eps_pos as [He _].
  set (eps := entries_per_sector vol) in *.
  unfold diri_next_entry. simpl. rewrite u32_small by lia. fold eps.
  pose proof (Z.div_mod i eps ltac:(lia)) as Edm. pose proof (Z.mod_pos_bound i eps He) as Hm.
  apply lookup_lt_Some in Hb as Hblt. pose proof (Z.div_pos i eps ltac:(lia) He).
  destruct (Z.eqb_spec ((i + 1) mod eps) 0) as [E|E].
  - assert (Eq : (i + 1) / eps = i / eps + 1).
    { pose proof (Z.div_mod (i + 1) eps ltac:(lia)) as Edm'. rewrite E in Edm'.
      assert (eps * ((i + 1) / eps - i / eps) = i mod eps + 1) by lia. nia. }
    pose proof (at_block_valid _ _ _ _ Hat) as (_ & _ & Hsec & _).
    pose proof (iter_csi_moves start bl _ c 1 Hat ltac:(lia) ltac:(lia)) as Hmv.
    rewrite Eq. destruct (Z.ltb_spec (i / eps + 1) (Z.of_nat (length bl))) as [Hin|Hout].
    + destruct Hmv as (c' & -> & Hat'). simpl.
      pose proof (at_block_valid _ _ _ _ Hat') as (Hv' & Hlk & _).
      unfold csi_get_block. rewrite Hv'. simpl.
      assert (Hrb : readable vol (csi_to_block vol c')).
      { rewrite Forall_forall in Hr. apply Hr. by eapply list_elem_of_lookup_2. }
      rewrite (get_readable _ _ Hrb). split.
      * unfold dirent_ptr, diri_ptr. fold eps. by rewrite Eq, Hlk.
      * exists c', (csi_to_block vol c'). fold eps. rewrite Eq. split_and!; done || lia.
    + destruct Hmv as (e & ->). simpl. split; [|done]. unfold dirent_ptr. fold eps.
      rewrite Eq. by rewrite lookup_ge_None_2 by lia.
  - assert (Eq : (i + 1) / eps = i / eps).
    { pose proof (Z.div_mod (i + 1) eps ltac:(lia)) as Edm'.
      pose proof (Z.mod_pos_bound (i + 1) eps He) as Hm'.
      assert (eps * ((i + 1) / eps - i / eps) = i mod eps + 1 - (i + 1) mod eps) by lia. nia. }
    rewrite Eq. rewrite (proj2 (Z.ltb_lt _ _)) by lia. split.
    + unfold dirent_ptr, diri_ptr. fold eps. simpl. by rewrite Eq, Hb.
    + exists c, b. fold eps. rewrite Eq. split_and!; done || lia.
Qed.
End Stream.
