(* ===== verification/StreamSpec.v ===== *)
(** What the iterators promise: a file or directory is its sequence of blocks,
    and every iterator operation is a move or an access in that sequence. *)
From stdpp Require Import base gmap list.
From Stdlib Require Import ZArith Lia.
From S2P Require Import Prelude Errors Volume Fat FatEntry FatIoctl FatTable FatChain Sample FatSpec Iter Stream.

Implicit Types vol : nspace.

Definition layout_okb (vol : nspace) : bool :=
  fat_okb vol && (0 <? sectors_per_cluster vol) && (sectors_per_cluster vol <=? 128)
  && ((fat_bits vol =? 32)
      || ((reserved_sectors vol + fat_count vol * sectors_per_fat vol <=? root_start vol)
          && (root_start vol + root_sectors vol <=? data_start vol)))
  && (0 <=? root_sectors vol) && (root_sectors vol <? 0xffff)
  && (reserved_sectors vol + fat_count vol * sectors_per_fat vol <=? data_start vol)
  && (data_start vol + total_clusters vol * sectors_per_cluster vol <? 2 ^ 31).

Lemma layout_okb_true vol : layout_okb vol = true -> layout_ok vol.
Proof.
  unfold layout_okb. rewrite !andb_true_iff, orb_true_iff, andb_true_iff, !Z.leb_le, !Z.ltb_lt, Z.eqb_eq.
  intros (((((((H1 & H2) & H3) & H4) & H5) & H6) & H7) & H8).
  split; try lia. by apply fat_okb_true.
Qed.

Lemma floppy_layout : layout_ok floppy.
Proof. apply layout_okb_true. vm_compute. reflexivity. Qed.

Lemma readable_all vol l : fat_ok vol -> forallb (fun b => bool_decide (is_Some (fBlockCache vol !! b))) l = true ->
  Forall (readable vol) l.
Proof.
  intros Hok H. apply Forall_forall. intros b Hb. rewrite forallb_forall in H.
  specialize (H b (proj1 (list_elem_of_In _ _) Hb)). apply bool_decide_eq_true_1 in H.
  destruct H as [x Hx]. exists x. split; [done|]. apply (ok_blocks _ Hok b x Hx).
Qed.

(** The blocks of the sample chain and of the sample root directory. *)
Lemma floppy_stream : stream floppy 2 [10; 11; 349; 12].
Proof.
  replace [10; 11; 349; 12] with (chain_blocks floppy [2; 3; 341; 4]) by (vm_compute; reflexivity).
  eapply stream_chain; [exact floppy_chain|discriminate].
Qed.

Lemma floppy_root : stream floppy 1 [5; 6; 7; 8; 9].
Proof.
  replace [5; 6; 7; 8; 9] with (seqZ (root_start floppy) (root_sectors floppy)) by (vm_compute; reflexivity).
  apply stream_root; [vm_compute; discriminate|reflexivity].
Qed.

Lemma floppy_at_root j : 0 <= j < 5 -> at_block floppy 1 [5; 6; 7; 8; 9] j (Csi 1 j).
Proof.
  intros Hj. replace [5; 6; 7; 8; 9] with (seqZ (root_start floppy) (root_sectors floppy)) by (vm_compute; reflexivity).
  apply at_root; [vm_compute; discriminate|reflexivity|exact Hj].
Qed.

(** C37: moving an iterator.  From block number [j] of a file or directory, a
    move by [n] ends at block [j + n], or, when there are not that many, fails
    and leaves the iterator in its end state, from where every move fails;
    the block of a position is the one the chain, or the fixed root
    directory, has at its number. *)
Theorem iter_csi_follows_stream vol start bl j c n :
  layout_ok vol -> at_block vol start bl j c -> 0 <= n < 2 ^ 31 ->
  bl !! Z.to_nat j = Some (csi_to_block vol c) /\
  if j + n <? Z.of_nat (length bl)
  then exists c', iter_csi vol c n = (0, c') /\ at_block vol start bl (j + n) c' /\
                  bl !! Z.to_nat (j + n) = Some (csi_to_block vol c')
  else exists c', iter_csi vol c n = (-1, c') /\ forall m, iter_csi vol c' m = (-1, c').
Proof.
  intros Hlo Hat Hn. pose proof (at_block_valid vol Hlo _ _ _ _ Hat) as (_ & Hlk & Hs & _).
  split; [done|]. pose proof (iter_csi_moves vol Hlo start bl j c n Hat ltac:(lia) ltac:(lia)) as Hm.
  destruct (_ <? _).
  - destruct Hm as (c' & -> & Hat'). exists c'. split_and!; [done|done|].
    apply (at_block_valid vol Hlo _ _ _ _ Hat').
  - destruct Hm as (e & ->). by exists (Csi e 0xffff).
Qed.

Lemma iter_csi_follows_stream_witness :
  (exists c, iter_csi floppy (Csi 1 1) 3 = (0, c) /\ csi_to_block floppy c = 9) /\
  exists c, iter_csi floppy (Csi 1 1) 4 = (-1, c).
Proof.
  split.
  - destruct (iter_csi_follows_stream floppy 1 _ 1 (Csi 1 1) 3 floppy_layout
      (floppy_at_root 1 ltac:(lia)) ltac:(lia)) as (_ & c & H & _ & Hb).
    exists c. split; [exact H|]. change (Some 9 = Some (csi_to_block floppy c)) in Hb. congruence.
  - destruct (iter_csi_follows_stream floppy 1 _ 1 (Csi 1 1) 4 floppy_layout
      (floppy_at_root 1 ltac:(lia)) ltac:(lia)) as (_ & c & H & _).
    exists c. exact H.
Defined.

(** The blocks of a file or directory are its own: no block is there
    twice, and none of them is a sector of a table, so that writing data never
    writes the table. *)
Theorem stream_blocks_separate vol start bl :
  layout_ok vol -> stream vol start bl ->
  NoDup bl /\ forall b, b ∈ bl -> ~ in_fats vol b /\
    b < data_start vol + total_clusters vol * sectors_per_cluster vol.
Proof.
  intros Hlo Hst. split; [by apply (stream_nodup vol Hlo start)|].
  intros b Hb. split; [by eapply stream_not_fat|].
  pose proof (stream_block_range vol Hlo start bl b Hst Hb). lia.
Qed.

Lemma stream_blocks_separate_witness : ~ in_fats floppy 349 /\ NoDup [10; 11; 349; 12].
Proof.
  destruct (stream_blocks_separate floppy 2 _ floppy_layout floppy_stream) as [H1 H2].
  split; [|exact H1]. apply H2. right; right; left.
Defined.

(** Reading several blocks at once gives the bytes of consecutive blocks
    of the stream, at least one and no more than the buffer holds, and leaves
    the iterator at the last block read. *)
Theorem csi_read_blocks_reads vol start bl j c len :
  layout_ok vol -> at_block vol start bl j c -> bytes_per_sector vol <= len < 2 ^ 31 ->
  Forall (readable vol) bl ->
  exists k last, csi_read_blocks vol c len
    = Some (k * bytes_per_sector vol,
            concat (map (block_data vol) (take (Z.to_nat k) (drop (Z.to_nat j) bl))), last) /\
    1 <= k /\ k * bytes_per_sector vol <= len /\ at_block vol start bl (j + k - 1) last.
Proof. intros Hlo. by apply csi_read_spec. Qed.

Lemma csi_read_blocks_reads_witness :
  exists k buf last, csi_read_blocks floppy (Csi 1 1) 1200 = Some (k * 512, buf, last) /\ 1 <= k <= 2.
Proof.
  destruct (csi_read_blocks_reads floppy 1 _ 1 (Csi 1 1) 1200 floppy_layout
    (floppy_at_root 1 ltac:(lia))) as (k & last & H & Hk & Hl & _).
  - split; vm_compute; [discriminate|reflexivity].
  - apply readable_all; [exact floppy_ok|vm_compute; reflexivity].
  - change (bytes_per_sector floppy) with 512 in *. eexists k, _, last. split; [exact H|lia].
Defined.

(** directory iterators.  [diri_init] at entry [i] points to the entry
    with that number, [diri_next_entry] to the following one, across blocks
    and clusters; past the last block both give NULL. *)
Theorem diri_visits_entries vol start bl i d :
  layout_ok vol -> stream vol start bl -> Forall (readable vol) bl ->
  0 < Z.of_nat (length bl) -> start < total_clusters vol + 2 -> 0 <= i -> i + 1 < 2 ^ 31 ->
  let '(p, d1) := diri_init vol start i d in
  p = dirent_ptr vol bl i /\
  (i / entries_per_sector vol < Z.of_nat (length bl) ->
   current_index d1 = i /\
   let '(p', d2) := diri_next_entry vol d1 in
   p' = dirent_ptr vol bl (i + 1) /\ current_index d2 = i + 1).
Proof.
  intros Hlo Hst Hr Hlen Hstart Hi Hov.
  pose proof (diri_init_spec vol Hlo start bl i d Hst Hr ltac:(lia) Hstart Hlen) as Hinit.
  destruct (diri_init vol start i d) as [p d1]. destruct Hinit as [Hp Hd1].
  split; [done|]. intros Hin. rewrite (proj2 (Z.ltb_lt _ _) Hin) in Hd1.
  assert (E : current_index d1 = i) by (by destruct Hd1 as (c & b & _ & _ & -> & _)).
  split; [done|]. pose proof (diri_next_spec vol Hlo start bl i d1 Hr Hd1 Hov) as Hnext.
  assert (Eidx : current_index (snd (diri_next_entry vol d1)) = i + 1).
  { destruct Hd1 as (c & b & _ & _ & -> & _). unfold diri_next_entry. simpl.
    rewrite u32_small by lia. destruct (_ =? 0); [|done].
    destruct (iter_csi vol c 1) as [r c']. simpl. by destruct (r =? 0). }
  destruct (diri_next_entry vol d1) as [p' d2]. by destruct Hnext as [-> _].
Qed.

Lemma diri_visits_entries_witness :
  let '(p, d) := diri_init floppy 2 31 (Diri (Csi 0 0) 0 0 None) in
  p = Some (Ptr 11 480) /\ fst (diri_next_entry floppy d) = Some (Ptr 349 0).
Proof.
  pose proof (diri_visits_entries floppy 2 _ 31 (Diri (Csi 0 0) 0 0 None) floppy_layout floppy_stream) as H.
  destruct (diri_init floppy 2 31 _) as [p d]. destruct H as [Hp Hn].
  - apply readable_all; [exact floppy_ok|vm_compute; reflexivity].
  - simpl. lia.
  - vm_compute. reflexivity.
  - lia.
  - lia.
  - split; [rewrite Hp; vm_compute; reflexivity|].
    destruct Hn as [_ Hn]; [vm_compute; reflexivity|].
    destruct (diri_next_entry floppy d) as [p' d2]. destruct Hn as [Hn _]. simpl. rewrite Hn.
    vm_compute. reflexivity.
Defined.
