(* ===== verification/Dirent.v ===== *)
(** Directory entries in memory: the 32 bytes a directory iterator points to,
    the stores the code makes into them, and [write_vnode_entry] (file.c),
    which writes a node back into its entry. *)
From stdpp Require Import base gmap list.
From Stdlib Require Import ZArith Lia.
From S2P Require Import Prelude Errors Volume Fat FatEntry Util Iter FatIoctl FatTable FatChain Stream.

Implicit Types vol : nspace.
Implicit Types p q : ptr.

(** What the time functions get from the system: the difference between local
    and universal time, and the result of [time]. *)
Class Clock := { tzoffset : Z; real_time : Z }.

(** ** Access through an entry pointer: [buffer[k]] and [buffer[k] = v] *)

Definition ent_get (vol : nspace) (p : ptr) (k : Z) : Z := peek vol (p_block p) (p_off p + k).
Definition ent_set (p : ptr) (k v : Z) (vol : nspace) : nspace :=
  poke (p_block p) (p_off p + k) (u8 v) vol.

(** [memset(buffer + k, v, n)] and [memcpy(buffer + k, l, length l)]. *)
Definition ent_fill (p : ptr) (k n v : Z) (vol : nspace) : nspace :=
  foldl (fun w i => ent_set p i v w) vol (seqZ k n).
Fixpoint ent_copy (p : ptr) (k : Z) (l : list Z) (vol : nspace) : nspace :=
  match l with [] => vol | x :: l => ent_copy p (k + 1) l (ent_set p k x vol) end.

(** The stores of an integer, byte by byte. *)
Definition ent_set16 (p : ptr) (k v : Z) (vol : nspace) : nspace :=
  ent_set p (k + 1) (Z.land (Z.shiftr v 8) 0xff) (ent_set p k (Z.land v 0xff) vol).
Definition ent_set32 (p : ptr) (k v : Z) (vol : nspace) : nspace :=
  ent_set p (k + 3) (Z.land (Z.shiftr v 24) 0xff)
    (ent_set p (k + 2) (Z.land (Z.shiftr v 16) 0xff) (ent_set16 p k v vol)).

(** [read16(buffer, k)] and [read32(buffer, k)]. *)
Definition ent_read16 (vol : nspace) (p : ptr) (k : Z) : Z :=
  ent_get vol p k + 0x100 * ent_get vol p (k + 1).
Definition ent_read32 (vol : nspace) (p : ptr) (k : Z) : Z :=
  ent_get vol p k + 0x100 * ent_get vol p (k + 1)
  + 0x10000 * ent_get vol p (k + 2) + 0x1000000 * ent_get vol p (k + 3).

Definition no_csi : csi := Csi 0 0.
(** An iterator nothing has been stored in. *)
Definition no_diri : diri := Diri no_csi 0 0 None.

(** The cluster fields of an entry: two bytes, and on 32 bit volumes two more. *)
Definition ent_set_cluster (p : ptr) (c : Z) (vol : nspace) : nspace :=
  let vol := ent_set16 p 0x1a c vol in
  if fat_bits vol =? 32 then ent_set16 p 0x14 (Z.shiftr c 16) vol else vol.

Definition write_vnode_entry `{Clock} (vol : nspace) (node : vnode) : Z * nspace :=
  if negb (cluster node =? 0) && negb (IS_DATA_CLUSTER vol (cluster node)) then (EINVAL, vol)
  else
    match diri_init vol (VNODE_PARENT_DIR_CLUSTER node) (eindex node) no_diri with
    | (None, _) => (ENOENT, vol)
    | (Some buffer, _) =>
        let vol := ent_set buffer 0x0b (mode node) vol in
        let vol := ent_fill buffer 0xc (0x16 - 0xc) 0 vol in
        let vol := ent_set32 buffer 0x16 (time_t2dos tzoffset (st_time node)) vol in
        let vol := ent_set_cluster buffer (cluster node) vol in
        let vol :=
          if flag (mode node) FAT_SUBDIR then ent_fill buffer 0x1c 4 0 vol
          else ent_set32 buffer 0x1c (st_size node) vol in
        (B_OK, vol)
    end.

(** ** Entry updates as functions of the byte offset *)

Definition ent_fun (off : Z) (g : Z -> Z -> Z) (i : nat) (x : Z) : Z :=
  let k := Z.of_nat i - off in if (0 <=? k) && (k <? 32) then g k x else x.

(** The entry at [p] changed byte by byte with [g], which sees the offset in
    the entry and the old byte. *)
Definition ent_map (p : ptr) (g : Z -> Z -> Z) (vol : nspace) : nspace :=
  block_update (imap (ent_fun (p_off p) g)) (p_block p) vol.

Lemma imap_ext_Z {A} (f g : nat -> A -> A) l :
  (forall i x, f i x = g i x) -> imap f l = imap g l.
Proof. intros H. apply imap_ext. auto. Qed.

Lemma block_update_ext (f g : block -> block) s vol :
  (forall b, f b = g b) -> block_update f s vol = block_update g s vol.
Proof.
  intros H. unfold block_update. f_equal. apply map_eq. intros i. rewrite !lookup_alter.
  case_decide; [|done]. destruct (fBlockCache vol !! s) as [b|]; simpl; [|done]. f_equal. apply H.
Qed.

Lemma block_update_twice (f g : block -> block) s vol :
  block_update f s (block_update g s vol) = block_update (fun b => f (g b)) s vol.
Proof.
  transitivity (set_fBlockCache (alter f s (alter g s (fBlockCache vol))) vol); [done|].
  unfold block_update. by rewrite alter_alter_eq. Qed.

Lemma block_update_id s vol : block_update (fun b => b) s vol = vol.
Proof.
  unfold block_update. rewrite alter_id by done. by destruct vol.
Qed.

Lemma ent_map_ext p g h vol :
  (forall k x, 0 <= k < 32 -> g k x = h k x) -> ent_map p g vol = ent_map p h vol.
Proof.
  intros H. apply block_update_ext. intros b.
  apply imap_ext_Z. intros i x. unfold ent_fun. destruct (Z.leb_spec 0 (Z.of_nat i - p_off p)); simpl; [|done].
  destruct (Z.ltb_spec (Z.of_nat i - p_off p) 32); [|done]. by apply H.
Qed.

Lemma ent_map_map p g h vol :
  ent_map p h (ent_map p g vol) = ent_map p (fun k x => h k (g k x)) vol.
Proof.
  unfold ent_map. rewrite block_update_twice. apply block_update_ext. intros b.
  apply list_eq. intros i. rewrite !list_lookup_imap. destruct (b !! i); simpl; [|done].
  f_equal. unfold ent_fun. by destruct (_ && _).
Qed.

Lemma ent_map_id p g vol : (forall k x, 0 <= k < 32 -> g k x = x) -> ent_map p g vol = vol.
Proof.
  intros H. rewrite (ent_map_ext p g (fun _ x => x)) by done.
  rewrite <-(block_update_id (p_block p) vol) at 2. apply block_update_ext. intros b.
  apply list_eq. intros i. rewrite list_lookup_imap. destruct (b !! i); simpl; [|done].
  unfold ent_fun. by destruct (_ && _).
Qed.

Lemma ent_set_map p k v vol :
  0 <= k < 32 -> 0 <= p_off p ->
  ent_set p k v vol = ent_map p (fun j x => if j =? k then u8 v else x) vol.
Proof.
  intros Hk Hp. unfold ent_set, poke. apply block_update_ext. intros b. apply list_eq. intros i. unfold byte_set. rewrite list_lookup_imap, list_lookup_insert.
  unfold ent_fun. case_decide as Hd.
  - destruct Hd as [<- Hl]. rewrite Z2Nat.id by lia. replace (p_off p + k - p_off p) with k by lia.
    rewrite Z.eqb_refl. rewrite (proj2 (Z.leb_le _ _)), (proj2 (Z.ltb_lt _ _)) by lia.
    destruct (lookup_lt_is_Some_2 b _ Hl) as [x ->]. done.
  - destruct (b !! i) as [x|] eqn:Hx; simpl; [|done]. f_equal.
    apply lookup_lt_Some in Hx. destruct (Z.eqb_spec (Z.of_nat i - p_off p) k) as [E|]; [|by destruct (_ && _)].
    exfalso. apply Hd. split; lia.
Qed.

(** The updates of this file as [ent_map]s. *)
Lemma ent_fill_map p k n v vol :
  0 <= k -> 0 <= n -> k + n <= 32 -> 0 <= p_off p ->
  ent_fill p k n v vol = ent_map p (fun j x => if (k <=? j) && (j <? k + n) then u8 v else x) vol.
Proof.
  intros Hk Hn. revert vol. pattern n. apply natlike_ind; [| |done].
  - intros vol _ Hp. symmetry. apply ent_map_id. intros j x Hj.
    destruct (Z.leb_spec k j), (Z.ltb_spec j (k + 0)); simpl; done || lia.
  - intros m Hm IH vol Hl Hp. unfold ent_fill in *. unfold Z.succ. rewrite seqZ_app, foldl_app by lia.
    rewrite IH by lia. rewrite seqZ_1. simpl. rewrite ent_set_map, ent_map_map by lia.
    apply ent_map_ext. intros j x Hj.
    destruct (Z.eqb_spec j (k + m)), (Z.leb_spec k j), (Z.ltb_spec j (k + m)),
      (Z.ltb_spec j (k + (m + 1))); simpl; done || lia.
Qed.

Lemma ent_set16_map p k v vol :
  0 <= k -> k + 1 < 32 -> 0 <= p_off p ->
  ent_set16 p k v vol =
  ent_map p (fun j x => if j =? k then v mod 256 else if j =? k + 1 then v / 256 mod 256 else x) vol.
Proof.
  intros Hk Hl Hp. unfold ent_set16. rewrite !ent_set_map, ent_map_map by lia.
  apply ent_map_ext. intros j x _. change 0xff with (2 ^ 8 - 1).
  rewrite !(land_ones_mod _ 8 (2 ^ 8 - 1)) by lia. unfold u8. rewrite !Z.mod_mod by lia.
  rewrite Z.shiftr_div_pow2 by lia. change (2 ^ 8) with 256.
  destruct (Z.eqb_spec j (k + 1)), (Z.eqb_spec j k); done || lia.
Qed.

Lemma ent_set32_map p k v vol :
  0 <= k -> k + 3 < 32 -> 0 <= p_off p ->
  ent_set32 p k v vol =
  ent_map p (fun j x => if j =? k then v mod 256 else if j =? k + 1 then v / 256 mod 256
    else if j =? k + 2 then v / 0x10000 mod 256 else if j =? k + 3 then v / 0x1000000 mod 256 else x) vol.
Proof.
  intros Hk Hl Hp. unfold ent_set32. rewrite ent_set16_map, !ent_set_map, !ent_map_map by lia.
  apply ent_map_ext. intros j x _. change 0xff with (2 ^ 8 - 1).
  rewrite !(land_ones_mod _ 8 (2 ^ 8 - 1)) by lia. unfold u8. rewrite !Z.mod_mod by lia.
  rewrite !Z.shiftr_div_pow2 by lia. change (2 ^ 8) with 256.
  change (2 ^ 16) with 0x10000. change (2 ^ 24) with 0x1000000.
  destruct (Z.eqb_spec j (k + 3)), (Z.eqb_spec j (k + 2)), (Z.eqb_spec j (k + 1)), (Z.eqb_spec j k);
    done || lia.
Qed.

Lemma ent_copy_map p k l vol :
  0 <= k -> k + Z.of_nat (length l) <= 32 -> 0 <= p_off p -> Forall is_byte l ->
  ent_copy p k l vol =
  ent_map p (fun j x => if (k <=? j) && (j <? k + Z.of_nat (length l))
                        then nth (Z.to_nat (j - k)) l 0 else x) vol.
Proof.
  intros Hk Hl Hp Hb. revert k Hk Hl vol. induction Hb as [|y l Hy Hb IH]; intros k Hk Hl vol; simpl.
  - symmetry. apply ent_map_id. intros j x Hj. simpl in Hl.
    destruct (Z.leb_spec k j), (Z.ltb_spec j (k + Z.of_nat 0)); simpl; done || lia.
  - simpl in Hl. rewrite IH by lia. rewrite ent_set_map, ent_map_map by lia. apply ent_map_ext. intros j x Hj.
    rewrite (u8_small y) by done.
    destruct (Z.leb_spec (k + 1) j), (Z.leb_spec k j), (Z.eqb_spec j k),
      (Z.ltb_spec j (k + 1 + Z.of_nat (length l))), (Z.ltb_spec j (k + Z.of_nat (S (length l)))); simpl;
      try lia; try done;
      first [by replace (Z.to_nat (j - k)) with 0%nat by lia
            |by replace (Z.to_nat (j - k)) with (S (Z.to_nat (j - (k + 1)))) by lia].
Qed.

(** ** Reading back *)

(** A pointer to a whole entry of a readable block. *)
Record ptr_ok (vol : nspace) (p : ptr) : Prop := {
  po_block : readable vol (p_block p);
  po_off : 0 <= p_off p /\ p_off p + 32 <= bytes_per_sector vol;
  po_slot : p_off p mod 32 = 0
}.

Definition ptr_eqb (p q : ptr) : bool := (p_block p =? p_block q) && (p_off p =? p_off q).

Lemma ent_fun_ok bps p g b :
  (forall k x, 0 <= k < 32 -> is_byte x -> is_byte (g k x)) ->
  block_ok bps b -> block_ok bps (imap (ent_fun (p_off p) g) b).
Proof.
  intros Hg [Hl Hb]. split; [by rewrite length_imap|]. apply Forall_lookup. intros i x.
  rewrite list_lookup_imap. intros (y & Hy & ->)%fmap_Some_1. rewrite Forall_lookup in Hb.
  specialize (Hb i y Hy). unfold ent_fun. destruct (Z.leb_spec 0 (Z.of_nat i - p_off p)); simpl; [|done].
  destruct (Z.ltb_spec (Z.of_nat i - p_off p) 32); [|done]. by apply Hg.
Qed.

Lemma ent_get_map vol p g q k :
  ptr_ok vol p -> ptr_ok vol q -> 0 <= k < 32 ->
  ent_get (ent_map p g vol) q k = if ptr_eqb p q then g k (ent_get vol p k) else ent_get vol q k.
Proof.
  intros [Hp Ho Hs] [Hq Ho' Hs'] Hk. unfold ent_get, peek, ent_map, ptr_eqb.
  rewrite block_data_update by done.
  destruct (Z.eqb_spec (p_block p) (p_block q)) as [E|]; simpl; [|done].
  destruct (block_data_readable _ _ Hp) as [Hl _]. rewrite E in Hl |- *.
  unfold byte_at. rewrite !nth_lookup, list_lookup_imap.
  destruct (lookup_lt_is_Some_2 (block_data vol (p_block q)) (Z.to_nat (p_off q + k))) as [x Hx]; [lia|].
  rewrite Hx. simpl. unfold ent_fun. rewrite Z2Nat.id by lia.
  destruct (Z.eqb_spec (p_off p) (p_off q)) as [Eo|Hne].
  - rewrite Eo. replace (p_off q + k - p_off q) with k by lia. rewrite Hx.
    by rewrite (proj2 (Z.leb_le _ _)), (proj2 (Z.ltb_lt _ _)) by lia.
  - destruct (Z.leb_spec 0 (p_off q + k - p_off p)), (Z.ltb_spec (p_off q + k - p_off p) 32); simpl;
      try done. exfalso. apply Hne. zlia.
Qed.

Lemma readable_ent_map vol p g s :
  (forall k x, 0 <= k < 32 -> is_byte x -> is_byte (g k x)) ->
  readable vol s -> readable (ent_map p g vol) s.
Proof. intros Hg. apply readable_update. intros b. by apply ent_fun_ok. Qed.

Lemma ptr_ok_ent_map vol p g q :
  (forall k x, 0 <= k < 32 -> is_byte x -> is_byte (g k x)) ->
  ptr_ok vol q -> ptr_ok (ent_map p g vol) q.
Proof. intros Hg [H1 H2 H3]. split; [by apply readable_ent_map|done|done]. Qed.

Lemma fat_ok_ent_map vol p g :
  (forall k x, 0 <= k < 32 -> is_byte x -> is_byte (g k x)) ->
  fat_ok vol -> fat_ok (ent_map p g vol).
Proof. intros Hg. apply fat_ok_update. intros b. by apply ent_fun_ok. Qed.

(** Writing an entry outside the tables leaves the tables alone. *)
Lemma fat_byte_ent_map vol p g k :
  geometry_ok vol -> ~ in_fats vol (p_block p) -> 0 <= k < fat_size vol ->
  fat_byte (ent_map p g vol) k = fat_byte vol k.
Proof.
  intros Hg Hp Hk. pose proof (sector_in_fats vol Hg k Hk) as Hs.
  unfold fat_byte, peek. f_equal. unfold block_data, ent_map, block_update. simpl.
  rewrite lookup_alter_ne; [done|]. intros E. apply Hp. by rewrite E.
Qed.

Lemma entry_ent_map vol p g c :
  fat_ok vol -> ~ in_fats vol (p_block p) -> data_cluster vol c ->
  entry (ent_map p g vol) c = entry vol c.
Proof.
  intros Hok Hp Hc. unfold entry. change (fat_bits (ent_map p g vol)) with (fat_bits vol).
  pose proof (entry_in_table vol (ok_geo _ Hok) c Hc). unfold data_cluster in Hc.
  apply entry_of_ext; [apply Hok|]. intros j Hj.
  apply fat_byte_ent_map; [apply Hok|done|lia].
Qed.

(** ** The view of a directory as numbered entries *)

Implicit Types v : nspace.

(** ** Streams survive changes that keep the table *)

Definition same_table (vol v : nspace) : Prop :=
  ns_bpb v = ns_bpb vol /\ forall c, data_cluster vol c -> entry v c = entry vol c.

#[export] Instance same_table_preorder : PreOrder same_table.
Proof.
  split; [done|]. intros v1 v2 v3 [E1 H1] [E2 H2]. split; [congruence|].
  intros c Hc. rewrite <-H1 by done. apply H2. unfold data_cluster in *. by rewrite E1.
Qed.

Lemma terminated_same vol v c l e : same_table vol v -> terminated vol c l e -> terminated v c l e.
Proof.
  intros [Eb He] [Hc Hn]. split; [|unfold data_cluster in *; by rewrite Eb].
  eapply chain_bpb_ext; [done| |done]. apply chain_data in Hc.
  eapply Forall_impl; [exact Hc|]. intros x. apply He.
Qed.

Lemma stream_same vol v start bl : same_table vol v -> stream vol start bl -> stream v start bl.
Proof.
  intros Hs [Hb ->|l e Ht Hl].
  - destruct Hs as [Eb _]. rewrite <-Eb. apply stream_root; [by rewrite Eb|done].
  - pose proof (terminated_same _ _ _ _ _ Hs Ht). destruct Hs as [Eb _]. rewrite <-Eb.
    by eapply stream_chain.
Qed.

(** ** A directory *)

(** The directory that begins at cluster [start] is in the blocks [bl]. *)
Record directory (vol : nspace) (start : Z) (bl : list Z) : Prop := {
  dr_stream : stream vol start bl;
  dr_read : Forall (readable vol) bl;
  dr_len : 0 < Z.of_nat (length bl);
  dr_start : start < total_clusters vol + 2;
  dr_size : Z.of_nat (length bl) * entries_per_sector vol < 2 ^ 31
}.

Definition dir_entries (b : bpb) (bl : list Z) : Z := Z.of_nat (length bl) * entries_per_sector b.

(** Byte [k] of entry [i]. *)
Definition dirent (vol : nspace) (bl : list Z) (i k : Z) : Z :=
  match dirent_ptr vol bl i with Some p => ent_get vol p k | None => 0 end.

Section Directory.
Context (vol : nspace) (Hlo : layout_ok vol) (start : Z) (bl : list Z) (Hd : directory vol start bl).

Let eps := entries_per_sector vol.
Let n := dir_entries vol bl.

Lemma dirent_ptr_some i :
  0 <= i < n -> exists p, dirent_ptr vol bl i = Some p /\ ptr_ok vol p /\ p_block p ∈ bl.
Proof using Hlo Hd.
  intros Hi. destruct (eps_pos vol Hlo) as [He Hb]. fold eps in He, Hb.
  unfold n, dir_entries in Hi. fold eps in Hi. unfold dirent_ptr. fold eps.
  pose proof (Z.div_pos i eps ltac:(lia) He).
  pose proof (Z.div_lt_upper_bound i eps (Z.of_nat (length bl)) He ltac:(lia)).
  destruct (lookup_lt_is_Some_2 bl (Z.to_nat (i / eps))) as [s Hs]; [lia|].
  rewrite Hs. simpl. eexists. split; [done|]. pose proof (dr_read _ _ _ Hd) as Hr.
  rewrite Forall_forall in Hr. apply list_elem_of_lookup_2 in Hs. split; [|done].
  pose proof (Z.mod_pos_bound i eps He).
  split; simpl; [by apply Hr|nia|]. by rewrite Z.mod_mul.
Qed.

Lemma dirent_ptr_none i : n <= i -> dirent_ptr vol bl i = None.
Proof using Hlo.
  intros Hi. destruct (eps_pos vol Hlo) as [He _]. fold eps in He. unfold dirent_ptr. fold eps.
  unfold n, dir_entries in Hi. fold eps in Hi.
  pose proof (Z.div_le_lower_bound i eps (Z.of_nat (length bl)) He ltac:(lia)).
  by rewrite lookup_ge_None_2 by lia.
Qed.

Lemma dirent_ptr_inj i j p q :
  0 <= i -> 0 <= j -> dirent_ptr vol bl i = Some p -> dirent_ptr vol bl j = Some q ->
  ptr_eqb p q = (i =? j).
Proof using Hlo Hd.
  intros Hi Hj. destruct (eps_pos vol Hlo) as [He _]. fold eps in He. unfold dirent_ptr. fold eps.
  destruct (bl !! Z.to_nat (i / eps)) as [s|] eqn:Es; simpl; [|done]. intros [= <-].
  destruct (bl !! Z.to_nat (j / eps)) as [t|] eqn:Et; simpl; [|done]. intros [= <-].
  unfold ptr_eqb. simpl. pose proof (stream_nodup vol Hlo start bl (dr_stream _ _ _ Hd)) as Hnd.
  pose proof (Z.div_pos i eps Hi He). pose proof (Z.div_pos j eps Hj He).
  destruct (Z.eqb_spec i j) as [->|Hne]; [rewrite Es in Et; injection Et as ->; by rewrite !Z.eqb_refl|].
  destruct (Z.eqb_spec s t) as [->|]; simpl; [|done].
  pose proof (NoDup_lookup bl _ _ t Hnd Es Et) as E. apply Z2Nat.inj in E; [|done|done].
  apply Z.eqb_neq. intros Em. apply Hne.
  rewrite (Z.div_mod i eps), (Z.div_mod j eps) by lia. rewrite E. lia.
Qed.

Lemma directory_same v :
  same_table vol v -> (forall s, readable vol s -> readable v s) -> directory v start bl.
Proof using Hd.
  intros Hs Hr. destruct Hd as [H1 H2 H3 H4 H5]. destruct Hs as [Eb He] eqn:E. clear E.
  split; [by eapply stream_same| |done|by rewrite Eb|by rewrite Eb].
  eapply Forall_impl; [exact H2|]. exact Hr.
Qed.

(** A store into entry [i] changes the bytes of that entry and nothing else of
    the directory, nor the table. *)
Lemma directory_store i p g :
  0 <= i < n -> dirent_ptr vol bl i = Some p ->
  (forall k x, 0 <= k < 32 -> is_byte x -> is_byte (g k x)) ->
  let v := ent_map p g vol in
  layout_ok v /\ directory v start bl /\ same_table vol v /\
  (forall j k, 0 <= k < 32 -> 0 <= j ->
     dirent v bl j k = if j =? i then g k (dirent vol bl i k) else dirent vol bl j k).
Proof using Hlo Hd.
  intros Hi Hp Hg v. destruct (dirent_ptr_some i Hi) as (p' & Hp' & Hpo & Hin).
  rewrite Hp in Hp'. injection Hp' as <-.
  assert (Hst : same_table vol v).
  { split; [done|]. intros c Hc. apply entry_ent_map; [apply Hlo| |done].
    eapply stream_not_fat; [done|apply Hd|done]. }
  split_and!.
  - destruct Hlo as [H1 H2 H3 H4 H5 H6]. split; try done. by apply fat_ok_ent_map.
  - apply directory_same; [done|]. intros s. by apply readable_ent_map.
  - done.
  - intros j k Hk Hj. unfold dirent. change (dirent_ptr v bl j) with (dirent_ptr vol bl j).
    destruct (dirent_ptr vol bl j) as [q|] eqn:Hq.
    + assert (Hjn : j < n).
      { destruct (Z.lt_ge_cases j n) as [|Hge]; [done|]. by rewrite (dirent_ptr_none j Hge) in Hq. }
      destruct (dirent_ptr_some j ltac:(lia)) as (q' & Hq' & Hqo & _).
      rewrite Hq in Hq'. injection Hq' as <-. unfold v.
      rewrite ent_get_map, (dirent_ptr_inj i j p q) by (done || lia).
      rewrite Z.eqb_sym. destruct (Z.eqb_spec j i) as [->|]; [by rewrite Hp|done].
    + destruct (Z.eqb_spec j i) as [->|]; [congruence|done].
Qed.
End Directory.
