(* ===== verification/EntrySpec.v ===== *)
(** What [write_vnode_entry] leaves in the directory: the fields of an entry
    as the code stores them, and as [_next_dirent_] (dir.c) reads them. *)
From stdpp Require Import base gmap list.
From Stdlib Require Import ZArith Lia.
From S2P Require Import Prelude Errors Volume Fat FatEntry FatIoctl FatTable FatChain Sample FatSpec Util Iter Stream StreamSpec Dirent.

Implicit Types vol v : nspace.

Definition le_byte (x i : Z) : Z := x / 2 ^ (8 * i) mod 256.

(** The entry the code writes for a node, given the old bytes [x]: only the
    name is kept. *)
Definition node_image (bits mode c time size : Z) (k x : Z) : Z :=
  if k <? 0x0b then x
  else if k =? 0x0b then mode mod 256
  else if k <? 0x14 then 0
  else if k <? 0x16 then if bits =? 32 then le_byte c (k - 0x14 + 2) else 0
  else if k <? 0x1a then le_byte time (k - 0x16)
  else if k <? 0x1c then le_byte c (k - 0x1a)
  else le_byte size (k - 0x1c).

(** Case analysis on a byte offset of an entry. *)
Lemma offset_cases (P : Z -> Prop) :
  Forall P (seqZ 0 32) -> forall k, 0 <= k < 32 -> P k.
Proof. intros H k Hk. rewrite Forall_forall in H. apply H. apply elem_of_seqZ. lia. Qed.

Ltac each_offset :=
  lazymatch goal with
  | |- forall k, 0 <= k < 32 -> @?P k =>
      apply (offset_cases P); cbv [seqZ seq fmap list_fmap Z.to_nat Pos.to_nat Pos.iter_op Nat.add];
      repeat (apply Forall_cons; split); [..|apply Forall_nil]
  end.

Lemma le_byte_ok x i : is_byte (le_byte x i).
Proof. unfold is_byte, le_byte. apply Z.mod_pos_bound. lia. Qed.

Lemma node_image_ok bits mode c time size k x :
  is_byte x -> is_byte (node_image bits mode c time size k x).
Proof.
  intros Hx. unfold node_image. repeat case_match; auto using le_byte_ok; unfold is_byte; try lia.
  apply Z.mod_pos_bound. lia.
Qed.

(** The stores of [write_vnode_entry] after the name, as one update. *)
Lemma node_stores vol p m c t s (dir : bool) :
  0 <= p_off p ->
  (let v := ent_set p 0x0b m vol in
   let v := ent_fill p 0xc (0x16 - 0xc) 0 v in
   let v := ent_set32 p 0x16 t v in
   let v := ent_set_cluster p c v in
   if dir then ent_fill p 0x1c 4 0 v else ent_set32 p 0x1c s v)
  = ent_map p (node_image (fat_bits vol) m c t (if dir then 0 else s)) vol.
Proof.
  intros Hp. cbv zeta. unfold ent_set_cluster.
  assert (Hs : forall w, (if dir then ent_fill p 0x1c 4 0 w else ent_set32 p 0x1c s w)
    = ent_set32 p 0x1c (if dir then 0 else s) w).
  { intros w. destruct dir; [|done]. rewrite ent_fill_map, ent_set32_map by lia.
    apply ent_map_ext. intros k x Hk. unfold u8. rewrite !Z.div_0_l, !Z.mod_0_l by lia.
    destruct (Z.leb_spec 28 k), (Z.ltb_spec k (28 + 4)), (Z.eqb_spec k 28), (Z.eqb_spec k (28 + 1)),
      (Z.eqb_spec k (28 + 2)), (Z.eqb_spec k (28 + 3)); simpl; done || lia. }
  rewrite Hs. clear Hs. rewrite ent_set_map, ent_fill_map, !ent_set32_map, ent_set16_map by lia.
  match goal with |- context [fat_bits ?v =? 32] => change (fat_bits v) with (fat_bits vol) end.
  unfold node_image.
  destruct (fat_bits vol =? 32).
  - rewrite ent_set16_map, !ent_map_map by lia. apply ent_map_ext. intros k x. revert k.
    each_offset; cbv -[Z.div Z.modulo Z.pow Z.shiftr]; rewrite ?Z.shiftr_div_pow2 by lia;
      change (2 ^ 0) with 1; rewrite ?Z.div_1_r, ?Z.div_div by lia; done.
  - rewrite !ent_map_map. apply ent_map_ext. intros k x. revert k.
    each_offset; cbv -[Z.div Z.modulo Z.pow Z.shiftr]; change (2 ^ 0) with 1; rewrite ?Z.div_1_r; done.
Qed.

(** The fields of entry [i], as the directory scan decodes them. *)
Definition dirent16 (vol : nspace) (bl : list Z) (i k : Z) : Z :=
  dirent vol bl i k + 0x100 * dirent vol bl i (k + 1).
Definition dirent32 (vol : nspace) (bl : list Z) (i k : Z) : Z :=
  dirent vol bl i k + 0x100 * dirent vol bl i (k + 1)
  + 0x10000 * dirent vol bl i (k + 2) + 0x1000000 * dirent vol bl i (k + 3).
Definition dirent_mode (vol : nspace) (bl : list Z) (i : Z) : Z := dirent vol bl i 0x0b.
Definition dirent_cluster (vol : nspace) (bl : list Z) (i : Z) : Z :=
  dirent16 vol bl i 0x1a + if fat_bits vol =? 32 then 0x10000 * dirent16 vol bl i 0x14 else 0.
Definition dirent_size (vol : nspace) (bl : list Z) (i : Z) : Z := dirent32 vol bl i 0x1c.
Definition dirent_time (vol : nspace) (bl : list Z) (i : Z) : Z := dirent32 vol bl i 0x16.

(** What the stored bytes decode to. *)
Record stored_as (vol : nspace) (bl : list Z) (i m c t s : Z) : Prop := {
  sa_mode : dirent_mode vol bl i = m mod 256;
  sa_cluster : dirent_cluster vol bl i = c;
  sa_time : dirent_time vol bl i = t mod 2 ^ 32;
  sa_size : dirent_size vol bl i = s mod 2 ^ 32
}.

Lemma le_sum2 x : le_byte x 0 + 0x100 * le_byte x 1 = x mod 2 ^ 16.
Proof. unfold le_byte. change (2 ^ (8 * 0)) with 1. rewrite Z.div_1_r. apply le_bytes2. Qed.
Lemma le_sum4 x :
  le_byte x 0 + 0x100 * le_byte x 1 + 0x10000 * le_byte x 2 + 0x1000000 * le_byte x 3 = x mod 2 ^ 32.
Proof. unfold le_byte. change (2 ^ (8 * 0)) with 1. rewrite Z.div_1_r. apply le_bytes4. Qed.

Lemma image_stored vol bl i bits m c t s old :
  fat_bits vol = bits -> 0 <= c < (if bits =? 32 then 2 ^ 32 else 2 ^ 16) ->
  (forall k, 0 <= k < 32 -> dirent vol bl i k = node_image bits m c t s k (old k)) ->
  stored_as vol bl i m c t s.
Proof.
  intros Hb Hc H. split; unfold dirent_mode, dirent_cluster, dirent_size, dirent_time, dirent16, dirent32.
  - apply H. lia.
  - rewrite !H, Hb by lia.
    change (node_image bits m c t s 0x1a (old 0x1a)) with (le_byte c 0).
    change (node_image bits m c t s (0x1a + 1) (old (0x1a + 1))) with (le_byte c 1).
    change (node_image bits m c t s 0x14 (old 0x14)) with (if bits =? 32 then le_byte c 2 else 0).
    change (node_image bits m c t s (0x14 + 1) (old (0x14 + 1))) with (if bits =? 32 then le_byte c 3 else 0).
    destruct (bits =? 32).
    + pose proof (le_sum4 c) as E. rewrite (Z.mod_small c (2 ^ 32)) in E by lia. lia.
    + pose proof (le_sum2 c) as E. rewrite (Z.mod_small c (2 ^ 16)) in E by lia. lia.
  - rewrite !H by lia. apply le_sum4.
  - rewrite !H by lia. apply le_sum4.
Qed.

(** A cluster field holds every cluster of the volume. *)
Lemma cluster_field vol c :
  geometry_ok vol -> c = 0 \/ data_cluster vol c ->
  0 <= c < (if fat_bits vol =? 32 then 2 ^ 32 else 2 ^ 16).
Proof.
  intros Hg Hc. assert (c = 0 \/ 2 <= c <= max_cluster (fat_bits vol)) as Hb
    by (destruct Hc as [|Hc]; [auto|right; by apply data_cluster_bound]).
  unfold max_cluster in Hb. destruct Hg as [_ _ Hbits _ _ _ _ _ _ _].
  destruct Hbits as [E|[E|E]]; rewrite E in *; simpl in *; lia.
Qed.

Section WriteEntry.
Context `{Clock} (vol : nspace) (Hlo : layout_ok vol) (node : vnode) (bl : list Z).
Context (Hd : directory vol (VNODE_PARENT_DIR_CLUSTER node) bl).
Context (Hi : 0 <= eindex node < dir_entries vol bl).
Context (Hc : cluster node = 0 \/ data_cluster vol (cluster node)).

Definition node_size : Z := if flag (mode node) FAT_SUBDIR then 0 else st_size node.

Lemma cluster_ok : negb (cluster node =? 0) && negb (IS_DATA_CLUSTER vol (cluster node)) = false.
Proof using Hlo Hc.
  destruct Hc as [E|Hcd]; [by rewrite E|].
  by rewrite (is_data_true vol _ (ok_geo _ (lo_fat _ Hlo)) Hcd), andb_false_r.
Qed.

Lemma write_entry_map :
  exists p, dirent_ptr vol bl (eindex node) = Some p /\
    write_vnode_entry vol node =
    (B_OK, ent_map p (node_image (fat_bits vol) (mode node) (cluster node)
                        (time_t2dos tzoffset (st_time node)) node_size) vol).
Proof using Hlo Hd Hi Hc.
  destruct (dirent_ptr_some vol Hlo _ bl Hd _ Hi) as (p & Hp & Hpo & _).
  exists p. split; [done|]. unfold write_vnode_entry. rewrite cluster_ok.
  assert (Hmax : dir_entries vol bl < 2 ^ 31) by apply Hd.
  pose proof (diri_init_spec vol Hlo _ bl (eindex node) no_diri (dr_stream _ _ _ Hd)
    (dr_read _ _ _ Hd) ltac:(lia) (dr_start _ _ _ Hd) (dr_len _ _ _ Hd)) as Hinit.
  destruct (diri_init _ _ _ _) as [q d]. destruct Hinit as [-> _]. rewrite Hp. f_equal.
  apply node_stores. apply Hpo.
Qed.
End WriteEntry.

(** Writing a node back to its directory entry: the entry then decodes to
    the mode, first cluster, size and time of the node (a directory has size
    0, and the integers are cut to the width of their fields), its name stays,
    no other entry of the directory changes, and neither does the table. *)
Theorem write_vnode_entry_stores `{Clock} vol node bl :
  layout_ok vol -> directory vol (VNODE_PARENT_DIR_CLUSTER node) bl ->
  0 <= eindex node < dir_entries vol bl ->
  cluster node = 0 \/ data_cluster vol (cluster node) ->
  exists v, write_vnode_entry vol node = (B_OK, v) /\
    stored_as v bl (eindex node) (mode node) (cluster node) (time_t2dos tzoffset (st_time node))
      (if flag (mode node) FAT_SUBDIR then 0 else st_size node) /\
    (forall k, 0 <= k < 11 -> dirent v bl (eindex node) k = dirent vol bl (eindex node) k) /\
    (forall j k, 0 <= k < 32 -> 0 <= j -> j <> eindex node -> dirent v bl j k = dirent vol bl j k) /\
    same_table vol v /\ layout_ok v /\ directory v (VNODE_PARENT_DIR_CLUSTER node) bl.
Proof.
  intros Hlo Hd Hi Hc. destruct (write_entry_map vol Hlo node bl Hd Hi Hc) as (p & Hp & ->).
  eexists. split; [done|].
  destruct (directory_store vol Hlo _ bl Hd _ p _ Hi Hp
    (fun k x _ => node_image_ok (fat_bits vol) (mode node) (cluster node)
       (time_t2dos tzoffset (st_time node)) (node_size node) k x)) as (Hlo' & Hd' & Hst & Hb).
  split_and!; try done.
  - eapply (image_stored _ _ _ (fat_bits vol)); [done|by apply cluster_field; [apply Hlo|]|].
    intros k Hk. rewrite Hb, Z.eqb_refl by lia. done.
  - intros k Hk. rewrite Hb, Z.eqb_refl by lia. unfold node_image.
    by rewrite (proj2 (Z.ltb_lt _ _)) by lia.
  - intros j k Hk Hj Hne. rewrite Hb by lia. by rewrite (proj2 (Z.eqb_neq _ _)).
Qed.

(** The root directory of the sample volume. *)
Lemma floppy_directory : directory floppy 1 [5; 6; 7; 8; 9].
Proof.
  split; [exact floppy_root| |done|vm_compute; reflexivity|vm_compute; reflexivity].
  apply readable_all; [exact floppy_ok|vm_compute; reflexivity].
Qed.

#[export] Instance utc : Clock := { tzoffset := 0; real_time := 1000000000 }.

(** A file with data from cluster 2 on, the sixth entry of the root directory. *)
Definition a_file : vnode :=
  Vnode 7 (GENERATE_DIR_CLUSTER_VNID 1 1) (Some 1500) (Some 1500) 0 0 5 5 2 FAT_ARCHIVE 1500 1000000000 4 None false.

Lemma write_vnode_entry_stores_witness :
  exists v, write_vnode_entry floppy a_file = (B_OK, v) /\
    dirent_cluster v [5; 6; 7; 8; 9] 5 = 2 /\ dirent_size v [5; 6; 7; 8; 9] 5 = 1500.
Proof.
  destruct (write_vnode_entry_stores floppy a_file [5; 6; 7; 8; 9] floppy_layout) as (v & E & Hs & _).
  - exact floppy_directory.
  - split; vm_compute; [discriminate|reflexivity].
  - right. split; vm_compute; [discriminate|reflexivity].
  - exists v. split; [exact E|]. split; [apply (sa_cluster _ _ _ _ _ _ _ Hs)|].
    apply (sa_size _ _ _ _ _ _ _ Hs).
Defined.
