(* ===== verification/Resize.v ===== *)
(** [set_fat_chain_length] (fat.c): growing, cutting and emptying the cluster
    chain of a node. *)
From stdpp Require Import base gmap list.
From Stdlib Require Import ZArith Lia.
From S2P Require Import Prelude Errors Volume Fat Vcache Util Iter Dirent.

Implicit Types vol : nspace.

(** The loop around [vcache_set_entry] that waits for memory.  A failed round
    has used up one of the coming allocations. *)
Fixpoint vcache_set_entry_wait (rounds : nat) (vol : nspace) (vnid loc : Z) : Z * nspace :=
  match rounds with
  | O => (LOOP_EXHAUSTED, vol)
  | S rounds =>
      let '(result, vol) := vcache_set_entry vol vnid loc in
      if negb (result =? B_OK) then vcache_set_entry_wait rounds vol vnid loc else (result, vol)
  end.

Definition wait_rounds (vol : nspace) : nat := S (length (heap vol)).

Definition set_vnode_chain (c e : Z) (node : vnode) : vnode := set_end_cluster e (set_cluster c node).

(** The number of clusters a size takes, the way the code computes it. *)
Definition clusters_of_size (vol : nspace) (size : Z) : Z :=
  (size + u32 (bytes_per_sector vol * sectors_per_cluster vol) - 1)
    / bytes_per_sector vol / sectors_per_cluster vol.

(** One round of the walk to the last cluster that stays. *)
Definition cut_step (vol : nspace) (s : Z * Z) : loop (Z * Z) (Z * Z) :=
  let '(c, n) := s in
  if negb (IS_DATA_CLUSTER vol n) then Brk (c, n) else Cont (n, get_fat_entry vol n).

Definition truncate_chain `{Clock} (vol : nspace) (node : vnode) : Z * nspace * vnode :=
  if cluster node =? 0 then (B_OK, vol, node)
  else
    let '(result, vol) := clear_fat_chain vol (cluster node) in
    if negb (result =? B_OK) then (result, vol, node)
    else
      let node := set_vnode_chain 0 0 node in
      let '(result, vol) := vcache_set_entry_wait (wait_rounds vol) vol (vnid node)
                              (GENERATE_DIR_INDEX_VNID (dir_vnid node) (sindex node)) in
      let '(_, vol) := write_vnode_entry vol node in
      (result, vol, node).

Definition start_chain `{Clock} (vol : nspace) (node : vnode) (clusters : Z) : Z * nspace * vnode :=
  let '(result, n, vol) := allocate_n_fat_entries vol clusters in
  if negb (result =? B_OK) then (result, vol, node)
  else
    let node := set_vnode_chain (u32 n) (u32 (get_nth_fat_entry vol n (u32 (clusters - 1)))) node in
    let '(result, vol) := vcache_set_entry_wait (wait_rounds vol) vol (vnid node)
                            (GENERATE_DIR_CLUSTER_VNID (dir_vnid node) (cluster node)) in
    let '(_, vol) := write_vnode_entry vol node in
    (result, vol, node).

Definition extend_chain (vol : nspace) (node : vnode) (clusters i : Z) : Z * nspace * vnode :=
  let '(result, n, vol) := allocate_n_fat_entries vol (u32 (clusters - i)) in
  if negb (result =? B_OK) then (result, vol, node)
  else
    let '(result, vol) := set_fat_entry vol (i32 (end_cluster node)) n in
    if result <? B_OK then (result, snd (clear_fat_chain vol (u32 n)), node)
    else
      (result, vol,
       set_end_cluster (u32 (get_nth_fat_entry vol n (u32 (clusters - i - 1)))) node).

Definition cut_chain (vol : nspace) (node : vnode) (clusters : Z) : Z * nspace * vnode :=
  let c := i32 (cluster node) in
  let walk := z_loop (cut_step vol) (clusters - 1) (c, get_fat_entry vol c) in
  let '(c, n) := loop_end walk in
  let complete := match walk with Cont _ => true | Brk _ => false end in
  if complete && (n =? END_FAT_ENTRY) then (B_OK, vol, node)
  else if n <? 0 then (n, vol, node)
  else if negb (n =? END_FAT_ENTRY) && negb (IS_DATA_CLUSTER vol n) then (B_BAD_VALUE, vol, node)
  else
    let '(result, vol) := set_fat_entry vol c 0x0fffffff in
    if negb (result =? B_OK) then (result, vol, node)
    else
      let node := set_end_cluster (u32 c) node in
      let '(result, vol) := clear_fat_chain vol (u32 n) in
      (result, vol, node).

(** The status, and the volume and the node as they are afterwards. *)
Definition set_fat_chain_length `{Clock} (vol : nspace) (node : vnode) (clusters : Z)
    : Z * nspace * vnode :=
  if IS_FIXED_ROOT (cluster node)
     || (negb (IS_DATA_CLUSTER vol (cluster node)) && negb (cluster node =? 0))
  then (B_BAD_VALUE, vol, node)
  else if clusters =? 0 then truncate_chain vol node
  else if cluster node =? 0 then start_chain vol node clusters
  else
    let i := i32 (clusters_of_size vol (st_size node)) in
    if u32 i =? clusters then (B_OK, vol, node)
    else if u32 i <? clusters then extend_chain vol node clusters i
    else cut_chain vol node clusters.
