(* ===== verification/ResizeSpec.v ===== *)
(** Resizing a chain: what [set_fat_chain_length] leaves behind, on every
    branch. *)
From stdpp Require Import base gmap list.
From Stdlib Require Import ZArith Lia.
From S2P Require Import Prelude Errors Volume Fat FatEntry FatIoctl FatTable FatChain FatAlloc Sample FatSpec Vcache Util Iter Stream StreamSpec Dirent EntrySpec Resize.

Implicit Types vol v : nspace.

(** ** Stores through directory iterators never reach the tables *)

Lemma csi_block_not_fat vol c :
  layout_ok vol -> 0 <= csi_sector c ->
  _validate_cs_ vol (csi_cluster c) (csi_sector c) = 0 -> ~ in_fats vol (csi_to_block vol c).
Proof.
  intros Hlo Hs Hv Hin. unfold in_fats in Hin. pose proof (lo_spc _ Hlo). pose proof (lo_root _ Hlo).
  pose proof (lo_data _ Hlo). pose proof (lo_root_sectors _ Hlo). pose proof (lo_end _ Hlo).
  pose proof (geo_total _ (ok_geo _ (lo_fat _ Hlo))). pose proof (geo_reserved _ (ok_geo _ (lo_fat _ Hlo))).
  pose proof (geo_spf _ (ok_geo _ (lo_fat _ Hlo))). pose proof (geo_active _ (ok_geo _ (lo_fat _ Hlo))).
  unfold csi_to_block in Hin. rewrite Hv in Hin. simpl in Hin.
  destruct (IS_FIXED_ROOT (csi_cluster c)) eqn:Er.
  - unfold _validate_cs_ in Hv. rewrite Er in Hv.
    destruct (Z.eqb_spec (fat_bits vol) 32); simpl in Hv.
    + destruct (sectors_per_cluster vol <=? csi_sector c); [done|].
      unfold IS_FIXED_ROOT in Er. apply Z.eqb_eq in Er. rewrite Er in Hv. done.
    + destruct (Z.leb_spec (root_sectors vol) (csi_sector c)); [done|].
      rewrite u32_small in Hin by nia. lia.
  - pose proof (u32_range (csi_cluster c - 2)). nia.
Qed.

Lemma iter_csi_sector vol c n :
  0 < sectors_per_cluster vol -> 0 <= csi_sector c -> 0 <= csi_sector (snd (iter_csi vol c n)).
Proof.
  intros Hs Hc. unfold iter_csi. pose proof (u32_range (csi_sector c + n)).
  pose proof (Z.mod_pos_bound (u32 (csi_sector c + n)) (sectors_per_cluster vol) Hs).
  repeat case_match; simpl; lia.
Qed.

Lemma diri_init_block vol c i d p d' :
  layout_ok vol -> diri_init vol c i d = (Some p, d') ->
  0 <= p_off p /\ ~ in_fats vol (p_block p) /\ is_Some (fBlockCache vol !! p_block p).
Proof.
  intros Hlo. unfold diri_init. destruct (_ <=? c); [done|].
  unfold init_csi. destruct (negb (_validate_cs_ vol c 0 =? 0)) eqn:Ev0; simpl; [by rewrite Ev0|].
  pose proof (eps_pos vol Hlo) as [He _].
  set (mv := if _ <=? i then _ else _).
  assert (Hsec : 0 <= csi_sector (snd mv)).
  { unfold mv. destruct (_ <=? i); [|simpl; lia]. apply iter_csi_sector; [apply Hlo|simpl; lia]. }
  destruct mv as [ret cs]. simpl in *. destruct (negb (ret =? 0)); simpl; [done|].
  unfold csi_get_block. destruct (negb (_validate_cs_ vol (csi_cluster cs) (csi_sector cs) =? 0)) eqn:Ev; [done|].
  apply negb_false_iff, Z.eqb_eq in Ev. unfold block_cache_get.
  destruct (fBlockCache vol !! csi_to_block vol cs) as [b|] eqn:Eb; [|done].
  unfold diri_ptr. simpl. intros [= <- _]. simpl.
  pose proof (Z.mod_pos_bound i _ He). split_and!; [lia|by apply csi_block_not_fat|by rewrite Eb].
Qed.

(** What the FAT sees of a change elsewhere: nothing. *)
Record table_kept (vol v : nspace) : Prop := {
  tk_table : same_table vol v;
  tk_layout : layout_ok v;
  tk_free : free_clusters v = free_clusters vol;
  tk_last : last_allocated v = last_allocated vol
}.

Lemma ent_map_kept vol p g :
  layout_ok vol -> ~ in_fats vol (p_block p) -> (forall k x, 0 <= k < 32 -> is_byte x -> is_byte (g k x)) ->
  table_kept vol (ent_map p g vol).
Proof.
  intros Hlo Hnf Hg. split; [|destruct Hlo; split; try done; by apply fat_ok_ent_map|done|done].
  split; [done|]. intros c Hc. by apply entry_ent_map; [apply Hlo| |].
Qed.

Lemma write_entry_kept `{Clock} vol node :
  layout_ok vol -> table_kept vol (snd (write_vnode_entry vol node)).
Proof.
  intros Hlo. unfold write_vnode_entry. destruct (_ && _); [by split|].
  destruct (diri_init _ _ _ _) as [[p|] d] eqn:E; [|by split].
  destruct (diri_init_block _ _ _ _ _ _ Hlo E) as (Hp & Hnf & _). simpl.
  rewrite (node_stores vol p (mode node) (cluster node) (time_t2dos tzoffset (st_time node))
             (st_size node) (flag (mode node) FAT_SUBDIR) Hp).
  apply ent_map_kept; [done|done|]. intros. by apply node_image_ok.
Qed.

Lemma write_entry_vcache `{Clock} vol node :
  layout_ok vol -> ns_vcache (snd (write_vnode_entry vol node)) = ns_vcache vol.
Proof.
  intros Hlo. unfold write_vnode_entry. destruct (_ && _); [done|].
  destruct (diri_init _ _ _ _) as [[p|] d] eqn:E; [|done].
  destruct (diri_init_block _ _ _ _ _ _ Hlo E) as (Hp & _). simpl.
  by rewrite (node_stores vol p (mode node) (cluster node) (time_t2dos tzoffset (st_time node))
             (st_size node) (flag (mode node) FAT_SUBDIR) Hp).
Qed.

(** ** Waiting for memory *)

Lemma vc_maps_same vol v m : ns_vcache v = ns_vcache vol -> vc_maps vol m -> vc_maps v m.
Proof.
  intros E [H1 H2 H3 H4].
  assert (Eh : hash v = hash vol) by (unfold hash; by rewrite E).
  split; [by rewrite E, Eh|by rewrite E, Eh|done|done].
Qed.

Lemma set_entry_fail_heap vol vnid loc r v :
  vcache_set_entry vol vnid loc = (r, v) -> r = ENOMEM -> heap vol = false :: heap v.
Proof.
  assert (Ha : forall w, _add_to_vcache_ w vnid loc = (r, v) -> r = ENOMEM -> heap w = false :: heap v).
  { intros w. unfold _add_to_vcache_, malloc_ok. destruct (heap w) as [|b h] eqn:Eh; simpl.
    - by intros [= <- _].
    - destruct b; simpl; [by intros [= <- _]|]. by intros [= _ <-]. }
  assert (Hr : forall w s x, _remove_from_vcache_ w vnid = (s, x) -> heap x = heap w /\ s <> ENOMEM).
  { intros w s x. unfold _remove_from_vcache_. repeat case_match; by intros [= <- <-]. }
  unfold vcache_set_entry, _update_loc_in_vcache_.
  destruct (_find_vnid_in_vcache_ vol vnid) as [e|].
  - destruct (ve_vnid e =? loc); [by intros ? ->; destruct (Hr _ _ _ H)|].
    destruct (_remove_from_vcache_ vol vnid) as [s x] eqn:Ex. destruct (Hr _ _ _ Ex) as [<- Hs].
    destruct (s =? 0); [apply Ha|by intros [= <- <-]].
  - destruct (negb _); [apply Ha|by intros [= <- _]].
Qed.

Definition loc_unused (m : gmap Z Z) (vnid loc : Z) : Prop :=
  forall u, u <> vnid -> m !! u <> Some loc.

Lemma wait_spec rounds vol m vnid loc :
  vc_maps vol m -> loc_unused m vnid loc -> (length (heap vol) < rounds)%nat ->
  exists v, vcache_set_entry_wait rounds vol vnid loc = (B_OK, v) /\ vcache_frame vol v /\
    vc_maps v (set_spec m vnid loc).
Proof.
  revert vol m. induction rounds as [|rounds IH]; intros vol m Hvm Hu Hr; [exfalso; lia|simpl].
  destruct (set_entry_spec vol m vnid loc Hvm Hu) as (v & Hf & Hv).
  destruct ((vnid =? loc) || fst (malloc_ok vol)) eqn:Eo; destruct Hv as [Ev Hv]; rewrite Ev; simpl.
  - by exists v.
  - pose proof (set_entry_fail_heap _ _ _ _ _ Ev eq_refl) as Eh.
    destruct (IH v (delete vnid m)) as (w & Ew & Hf' & Hw).
    + done.
    + intros u Hne. rewrite lookup_delete_ne by done. by apply Hu.
    + rewrite Eh in Hr. simpl in Hr. lia.
    + exists w. split; [done|]. split; [by transitivity v|].
      unfold set_spec in *. apply orb_false_iff in Eo as [En _]. rewrite En in *.
      by rewrite insert_delete_eq in Hw.
Qed.

Lemma vcache_frame_kept vol v : layout_ok vol -> vcache_frame vol v -> table_kept vol v.
Proof.
  intros [[H1 H2 H3] H4 H5 H6 H7 H8] (h & t1 & t2 & ->). split; [by split| |done|done].
  by split.
Qed.

#[export] Instance table_kept_trans : Transitive table_kept.
Proof.
  intros a b c [H1 H2 H3 H4] [K1 K2 K3 K4]. split; [by transitivity b|done|congruence|congruence].
Qed.

(** The end of both branches that give a node its first cluster or take its
    last. *)
Lemma settle `{Clock} vol m node loc :
  layout_ok vol -> vc_maps vol m -> loc_unused m (vnid node) loc ->
  exists v, (let '(result, w) := vcache_set_entry_wait (wait_rounds vol) vol (vnid node) loc in
             let '(_, w) := write_vnode_entry w node in (result, w, node)) = (B_OK, v, node) /\
    table_kept vol v /\ vc_maps v (set_spec m (vnid node) loc).
Proof.
  intros Hlo Hvm Hu. destruct (wait_spec (wait_rounds vol) vol m (vnid node) loc Hvm Hu) as (w & -> & Hf & Hw);
    [unfold wait_rounds; lia|].
  pose proof (vcache_frame_kept _ _ Hlo Hf) as Hk. pose proof (write_entry_kept w node (tk_layout _ _ Hk)) as Hk'.
  pose proof (write_entry_vcache w node (tk_layout _ _ Hk)) as Hc.
  destruct (write_vnode_entry w node) as [r v]. exists v. split; [done|]. split; [by transitivity w|].
  by apply (vc_maps_same w).
Qed.

(** ** Chains of nodes *)

Inductive node_chain (vol : nspace) (node : vnode) : list Z -> Prop :=
| no_chain : cluster node = 0 -> end_cluster node = 0 -> node_chain vol node []
| some_chain l :
    l <> [] -> terminated vol (cluster node) l END_FAT_ENTRY ->
    last l = Some (end_cluster node) -> node_chain vol node l.

Lemma node_chain_nil vol node : node_chain vol node [] -> cluster node = 0 /\ end_cluster node = 0.
Proof. intros Hc. remember [] as l eqn:El. destruct Hc as [|l Hl]; [done|by destruct Hl]. Qed.

(** A chain cut after [a], or led on from [a] into another chain. *)
Lemma chain_redirect vol v c l a e r e' :
  chain vol c (l ++ [a]) e -> ns_bpb v = ns_bpb vol ->
  Forall (fun y => entry v y = entry vol y) l -> chain v (next_in v a) r e' ->
  chain v c (l ++ a :: r) e'.
Proof.
  intros Hc Eb Hl Hr. revert c Hc. induction Hl as [|y l Hy Hl IH]; intros c Hc; simpl in *.
  - inversion Hc; subst. constructor; [|done]. unfold data_cluster in *. by rewrite Eb.
  - inversion Hc as [|? ? ? Hd Hn]; subst. constructor; [unfold data_cluster in *; by rewrite Eb|].
    apply IH. unfold next_in in *. by rewrite Hy, (classify_bpb vol v).
Qed.

Lemma layout_frame vol v : fat_frame vol v -> fat_ok v -> layout_ok vol -> layout_ok v.
Proof. intros (c & f & l & -> & _) Hok [H1 H2 H3 H4 H5 H6]. by split. Qed.

Lemma frame_vcache vol v : fat_frame vol v -> ns_vcache v = ns_vcache vol.
Proof. by intros (c & f & l & -> & _). Qed.

Lemma next_end vol v c :
  geometry_ok vol -> ns_bpb v = ns_bpb vol -> entry v c = norm_entry (fat_bits vol) (u32 0x0fffffff) ->
  next_in v c = END_FAT_ENTRY.
Proof.
  intros Hg Eb E. unfold next_in. rewrite E, (classify_bpb vol v _ Eb).
  change (u32 0x0fffffff) with 0x0fffffff. rewrite norm_end by apply Hg. unfold classify.
  rewrite is_data_false; [done|done|unfold END_FAT_ENTRY; lia|by apply END_not_data].
Qed.

Lemma next_link vol v c n :
  geometry_ok vol -> ns_bpb v = ns_bpb vol -> data_cluster vol n ->
  entry v c = norm_entry (fat_bits vol) (u32 n) -> next_in v c = n.
Proof.
  intros Hg Eb Hn E. unfold next_in. rewrite E, (classify_bpb vol v _ Eb).
  unfold data_cluster in Hn. rewrite norm_entry_link by (done || lia). by apply classify_data.
Qed.

(** ** The outcome *)

(** Where a node is, for the cache: at its first cluster, or at its entry. *)
Definition place (node : vnode) : Z :=
  if cluster node =? 0 then GENERATE_DIR_INDEX_VNID (dir_vnid node) (sindex node)
  else GENERATE_DIR_CLUSTER_VNID (dir_vnid node) (cluster node).

(** A node with chain [l] resized to [clusters] clusters: it keeps as much of
    [l] as fits, goes on with clusters [new] that were free, and what is cut
    off is free. *)
Record resized (vol : nspace) (m : gmap Z Z) (node : vnode) (l : list Z) (clusters : Z) (v : nspace) (node' : vnode)
    (l' new : list Z) : Prop := {
  rz_list : l' = take (Z.to_nat clusters) l ++ new;
  rz_len : Z.of_nat (length l') = clusters;
  rz_new : Forall (fun c => data_cluster vol c /\ entry vol c = 0) new;
  rz_chain : node_chain v node' l';
  rz_node : node' = set_vnode_chain (hd 0 l') (default 0 (last l')) node;
  rz_freed : forall c, c ∈ drop (Z.to_nat clusters) l -> entry v c = 0;
  rz_other : forall c, data_cluster vol c -> c ∉ l -> c ∉ new -> entry v c = entry vol c;
  rz_free : free_clusters v = free_clusters vol - (clusters - Z.of_nat (length l));
  rz_layout : layout_ok v;
  rz_bpb : ns_bpb v = ns_bpb vol;
  rz_last : last_allocated v = default (last_allocated vol) (last new);
  rz_maps : vc_maps vol m -> vc_maps v (if cluster node' =? cluster node then m else set_spec m (vnid node) (place node'))
}.

Lemma set_vnode_chain_id node : set_vnode_chain (cluster node) (end_cluster node) node = node.
Proof. by destruct node. Qed.

Section Branches.
Context `{Clock} (vol : nspace) (Hlo : layout_ok vol) (m : gmap Z Z) (Hvm : vc_maps vol m).
Context (Hhint : data_cluster vol (last_allocated vol)).
Context (Hcount : free_clusters vol = count_zero (entry vol) 2 (total_clusters vol)).
Context (node : vnode).

Let Hok := lo_fat vol Hlo.
Let Hgeo := ok_geo vol Hok.
Let total_pos := geo_total vol Hgeo.

Lemma total_small : total_clusters vol < 2 ^ 28.
Proof using Hlo. pose proof (geo_limit _ Hgeo). pose proof (max_cluster_small vol Hgeo). lia. Qed.

Lemma free_range : 0 <= free_clusters vol <= total_clusters vol.
Proof using Hlo Hcount. rewrite Hcount. apply count_zero_range. lia. Qed.

Lemma cluster_u32 c : data_cluster vol c -> u32 c = c.
Proof using Hlo. pose proof total_small. unfold data_cluster. intros. apply u32_small. lia. Qed.

Lemma kept_chain v w nd l : table_kept v w -> node_chain v nd l -> node_chain w nd l.
Proof using.
  intros Hk [H1 H2|l' Hl Ht He]; [by constructor|]. constructor; [done| |done].
  eapply terminated_same; [apply Hk|done].
Qed.

(** Emptying a chain. *)
Lemma truncate_ok l :
  l <> [] -> node_chain vol node l ->
  loc_unused m (vnid node) (GENERATE_DIR_INDEX_VNID (dir_vnid node) (sindex node)) ->
  exists v, truncate_chain vol node = (B_OK, v, set_vnode_chain 0 0 node) /\
    resized vol m node l 0 v (set_vnode_chain 0 0 node) [] [].
Proof using Hlo Hvm Hcount.
  intros Hl Hch Hu. destruct Hch as [? ?|l' _ Ht He]; [done|].
  assert (Hc : data_cluster vol (cluster node)) by (destruct Ht as [Ht _]; by inversion Ht; subst).
  unfold truncate_chain. rewrite (proj2 (Z.eqb_neq _ _)) by (unfold data_cluster in Hc; lia).
  destruct (clear_fat_chain_ok vol _ l' _ Hok Ht Hl) as (v & -> & Hv & Hf & Hla). simpl.
  pose proof (layout_frame _ _ (fi_frame _ _ _ Hv) (fi_ok _ _ _ Hv) Hlo) as Hlov.
  destruct (settle v m (set_vnode_chain 0 0 node)
    (GENERATE_DIR_INDEX_VNID (dir_vnid node) (sindex node)) Hlov) as (w & Ew & Hk & Hmw).
  { eapply vc_maps_same; [apply frame_vcache, Hv|done]. }
  { done. }
  exists w. split; [exact Ew|]. pose proof (fat_is_bpb _ _ _ Hv) as Eb.
  pose proof (chain_length vol _ _ _ total_pos Ht). pose proof free_range. pose proof total_small.
  destruct Hk as [[Eb' He'] Hk2 Hk3 Hk4].
  assert (Hen : forall c, data_cluster vol c -> entry w c = freed (entry vol) l' c).
  { intros c Hcc. rewrite He' by (unfold data_cluster; by rewrite Eb). by apply Hv. }
  split; try done.
  - by apply no_chain.
  - intros c Hcl. rewrite drop_0 in Hcl. pose proof (chain_data _ _ _ _ (proj1 Ht)) as Hall.
    rewrite Forall_forall in Hall. rewrite Hen by auto. unfold freed. by rewrite decide_True.
  - intros c Hcc Hn _. rewrite Hen by done. unfold freed. by rewrite decide_False.
  - rewrite Hk3, Hf, u32_small by lia. lia.
  - congruence.
  - simpl. congruence.
  - simpl cluster. rewrite (proj2 (Z.eqb_neq _ _)) by (unfold data_cluster in Hc; lia). intros _. exact Hmw.
Qed.

(** The clusters an allocation would take. *)
Lemma candidates_count :
  Z.of_nat (length (free_visited vol (last_allocated vol) (total_clusters vol))) = free_clusters vol.
Proof using Hlo Hcount. rewrite Hcount. apply free_visited_lap. lia. Qed.

Lemma alloc_facts n :
  0 < n <= free_clusters vol ->
  exists v new, allocate_n_fat_entries vol n = (B_OK, hd 0 new, v) /\
    Z.of_nat (length new) = n /\ new <> [] /\
    Forall (fun c => data_cluster vol c /\ entry vol c = 0) new /\
    fat_is vol (linked (entry vol) new) v /\ terminated v (hd 0 new) new END_FAT_ENTRY /\
    free_clusters v = free_clusters vol - n /\ Some (last_allocated v) = last new.
Proof using Hlo Hcount Hhint.
  intros Hn. pose proof free_range. pose proof total_small. pose proof candidates_count as Hcc.
  destruct (alloc_ok vol Hok n ltac:(lia) ltac:(lia) Hhint ltac:(lia)) as (v & E & Hv & Hc & Hf & Hla).
  destruct (candidates_facts vol Hok) as (_ & Hdl & Hz).
  set (new := take (Z.to_nat n) _) in *.
  assert (Hlen : Z.of_nat (length new) = n) by (subst new; rewrite length_take; lia).
  exists v, new. split_and!; try done.
  - intros ->. simpl in Hlen. lia.
  - apply Forall_forall. intros c Hin. subst new. apply elem_of_take in Hin as (i & Hi & _).
    apply list_elem_of_lookup_2 in Hi. rewrite Forall_forall in Hdl. auto.
  - split; [done|]. apply END_not_data, Hv.
  - rewrite Hf, u32_small; lia.
Qed.

Lemma alloc_fails n :
  free_clusters vol < n < 2 ^ 32 ->
  exists v, allocate_n_fat_entries vol n = (B_DEVICE_FULL, 0, v) /\ same_table vol v /\
    free_clusters v = free_clusters vol /\ last_allocated v = last_allocated vol /\ layout_ok v /\
    fat_frame vol v.
Proof using Hlo Hcount Hhint.
  intros Hn. pose proof free_range. pose proof total_small. pose proof candidates_count as Hcc.
  destruct (alloc_full vol Hok n ltac:(lia) ltac:(lia) Hhint ltac:(lia)) as (v & E & Hv & Hf & Hla).
  exists v. split; [done|].
  split; [split; [apply (fat_is_bpb _ _ _ Hv)|apply (fi_entry _ _ _ Hv)]|].
  split; [done|]. split; [done|]. split; [|apply Hv]. apply (layout_frame vol); [apply Hv|apply Hv|done].
Qed.

Lemma last_cluster_nth v c l n :
  fat_ok v -> terminated v c l END_FAT_ENTRY -> l <> [] -> Z.of_nat (length l) = n ->
  Some (get_nth_fat_entry v c (n - 1)) = last l.
Proof using.
  intros Hv Ht Hl Hn. rewrite (get_nth_chain v c l _ (n - 1) Hv Ht Hl) by (destruct l; simpl in *; [done|lia]).
  rewrite last_lookup. replace (Z.to_nat (n - 1)) with (Nat.pred (length l)) by lia.
  destruct (lookup_lt_is_Some_2 l (Nat.pred (length l))) as [x Hx]; [destruct l; simpl in *; [done|lia]|].
  by rewrite Hx.
Qed.

Lemma new_data new c :
  Forall (fun c => data_cluster vol c /\ entry vol c = 0) new -> c ∈ new -> data_cluster vol c /\ entry vol c = 0.
Proof using. rewrite Forall_forall. auto. Qed.

(** The first clusters of a node. *)
Lemma start_ok clusters :
  cluster node = 0 -> 0 < clusters <= free_clusters vol ->
  (forall c, data_cluster vol c -> entry vol c = 0 ->
     loc_unused m (vnid node) (GENERATE_DIR_CLUSTER_VNID (dir_vnid node) c)) ->
  exists v node' new, start_chain vol node clusters = (B_OK, v, node') /\
    resized vol m node [] clusters v node' new new.
Proof using Hlo Hvm Hcount Hhint.
  intros Hc0 Hn Hu. destruct (alloc_facts clusters Hn) as (v & new & E & Hlen & Hne & Hnew & Hv & Ht & Hf & Hla).
  unfold start_chain. rewrite E. simpl.
  assert (Hhd : hd 0 new ∈ new) by (destruct new; [done|apply list_elem_of_here]).
  destruct (new_data _ _ Hnew Hhd) as [Hd Hz]. pose proof free_range. pose proof total_small.
  rewrite (cluster_u32 _ Hd), (u32_small (clusters - 1)) by lia.
  pose proof (last_cluster_nth v _ new clusters (fi_ok _ _ _ Hv) Ht Hne Hlen) as Hlast.
  assert (Hld : data_cluster vol (get_nth_fat_entry v (hd 0 new) (clusters - 1))).
  { symmetry in Hlast. apply last_Some_elem_of in Hlast. by apply (new_data _ _ Hnew). }
  rewrite (cluster_u32 _ Hld).
  set (node' := set_vnode_chain _ _ node).
  pose proof (layout_frame _ _ (fi_frame _ _ _ Hv) (fi_ok _ _ _ Hv) Hlo) as Hlov.
  destruct (settle v m node' (GENERATE_DIR_CLUSTER_VNID (dir_vnid node) (hd 0 new)) Hlov) as (w & Ew & Hk & Hmw).
  { eapply vc_maps_same; [apply frame_vcache, Hv|done]. }
  { by apply Hu. }
  exists w, node', new. split; [exact Ew|]. pose proof (fat_is_bpb _ _ _ Hv) as Eb.
  assert (Hch : node_chain w node' new).
  { eapply kept_chain; [exact Hk|]. by constructor. }
  destruct Hk as [[Eb' He'] Hk2 Hk3 Hk4].
  split; try done.
  - by rewrite take_nil.
  - unfold node'. by rewrite <-Hlast.
  - rewrite drop_nil. intros c ?%not_elem_of_nil. done.
  - intros c Hcc _ Hnn. rewrite He' by (unfold data_cluster; by rewrite Eb).
    rewrite (fi_entry _ _ _ Hv c Hcc). by apply linked_notin.
  - simpl. lia.
  - congruence.
  - rewrite Hk4. by rewrite <-Hla.
  - change (cluster node') with (hd 0 new). rewrite Hc0, (proj2 (Z.eqb_neq _ _)) by (unfold data_cluster in Hd; lia).
    unfold place. change (cluster node') with (hd 0 new). rewrite (proj2 (Z.eqb_neq _ _)) by (unfold data_cluster in Hd; lia).
    intros _. exact Hmw.
Qed.

(** More clusters behind the last. *)
Lemma extend_ok l clusters :
  l <> [] -> node_chain vol node l -> Z.of_nat (length l) < clusters ->
  clusters - Z.of_nat (length l) <= free_clusters vol ->
  exists v node' new, extend_chain vol node clusters (Z.of_nat (length l)) = (B_OK, v, node') /\
    resized vol m node l clusters v node' (l ++ new) new /\ fat_frame vol v.
Proof using Hlo Hcount Hhint.
  intros Hl Hch Hgt Hn. destruct Hch as [? ?|l' _ Ht He]; [done|].
  pose proof free_range. pose proof total_small. set (k := Z.of_nat (length l')) in *.
  destruct (alloc_facts (clusters - k) ltac:(lia)) as (v & new & E & Hlen & Hne & Hnew & Hv & Htn & Hf & Hla).
  assert (Hhd : hd 0 new ∈ new) by (destruct new; [done|apply list_elem_of_here]).
  destruct (new_data _ _ Hnew Hhd) as [Hd Hz]. pose proof (chain_data _ _ _ _ (proj1 Ht)) as Hall.
  pose proof (last_Some_elem_of _ _ He) as Hein. pose proof (fat_is_bpb _ _ _ Hv) as Eb.
  assert (Hed : data_cluster vol (end_cluster node)) by (rewrite Forall_forall in Hall; auto).
  assert (Hold : forall c, c ∈ l' -> c ∉ new).
  { intros c Hcl Hcn. destruct (new_data _ _ Hnew Hcn) as [_ Hc0].
    destruct Ht as [Hc Hend]. apply list_elem_of_split in Hcl as (l1 & l2 & ->).
    apply chain_split in Hc. inversion Hc as [|? ? ? ? Hc2]; subst.
    assert (En : next_in vol c = 0) by (unfold next_in; by rewrite Hc0).
    rewrite En in Hc2. inversion Hc2 as [|? ? ? Hd0]; subst.
    unfold data_cluster in Hd0. lia. }
  unfold extend_chain. rewrite (u32_small (clusters - k)) by lia. rewrite E. simpl.
  rewrite i32_small by (unfold data_cluster in Hed; lia).
  assert (Hedv : data_cluster v (end_cluster node)) by (unfold data_cluster in *; by rewrite Eb).
  destruct (set_fat_entry_eq v (end_cluster node) (hd 0 new) (fi_ok _ _ _ Hv) Hedv) as (w & -> & Hw & kk & Ekk).
  simpl. rewrite (u32_small (clusters - k - 1)) by lia.
  pose proof (fat_is_bpb _ _ _ Hw) as Ebw.
  assert (Hnw : Forall (fun y => entry w y = entry v y) new).
  { apply Forall_forall. intros y Hy. rewrite (fi_entry _ _ _ Hw).
    - unfold fat_upd. rewrite (proj2 (Z.eqb_neq y _)); [done|]. intros ->. by apply (Hold (end_cluster node)).
    - unfold data_cluster. rewrite Eb. by apply (new_data _ _ Hnew Hy). }
  assert (Htw : terminated w (hd 0 new) new END_FAT_ENTRY).
  { split; [by apply (chain_bpb_ext v); [|exact Hnw|apply Htn]|]. apply END_not_data, Hw. }
  pose proof (last_cluster_nth w _ new (clusters - k) (fi_ok _ _ _ Hw) Htw Hne Hlen) as Hlast.
  assert (Hld : data_cluster vol (get_nth_fat_entry w (hd 0 new) (clusters - k - 1))).
  { symmetry in Hlast. apply last_Some_elem_of in Hlast. by apply (new_data _ _ Hnew). }
  rewrite (cluster_u32 _ Hld).
  eexists w, _, new. split; [done|].
  split; [|transitivity v; [apply Hv|apply Hw]].
  assert (Eo : forall c, data_cluster vol c -> c <> end_cluster node -> c ∉ new -> entry w c = entry vol c).
  { intros c Hc Hce Hcn. rewrite (fi_entry _ _ _ Hw) by (unfold data_cluster; by rewrite Eb).
    unfold fat_upd. rewrite (proj2 (Z.eqb_neq c _)) by done. rewrite (fi_entry _ _ _ Hv) by done.
    by apply linked_notin. }
  assert (El : l' ++ new = take (Z.to_nat clusters) l' ++ new) by (by rewrite take_ge by lia).
  assert (Elast : last (l' ++ new) = Some (get_nth_fat_entry w (hd 0 new) (clusters - k - 1))).
  { rewrite last_app. by rewrite <-Hlast. }
  assert (Ehd : hd 0 (l' ++ new) = cluster node).
  { destruct Ht as [Ht _]. inversion Ht; subst; done. }
  split; try done.
  - rewrite length_app. lia.
  - constructor; [by destruct l'| |by rewrite Elast].
    split; [|apply END_not_data, Hw]. simpl.
    destruct (exists_last Hl) as (l0 & a & ->).
    rewrite last_snoc in He. injection He as ->. rewrite <-app_assoc. simpl.
    pose proof (chain_nodup _ _ _ _ Ht) as Hnd.
    apply (chain_redirect vol w _ l0 _ END_FAT_ENTRY); [apply Ht|congruence| |].
    + apply Forall_forall. intros y Hy. apply NoDup_app in Hnd as (_ & Hdis & _).
      assert (Hyl : y ∈ l0 ++ [end_cluster node]) by (apply elem_of_app; auto).
      rewrite Forall_forall in Hall. apply Eo; [by apply Hall| |by apply Hold].
      intros ->. apply (Hdis _ Hy), list_elem_of_here.
    + rewrite (next_link v w (end_cluster node) (hd 0 new)); [apply Htw|apply Hv|done| |].
      * unfold data_cluster. by rewrite Eb.
      * rewrite (fi_entry _ _ _ Hw) by done. unfold fat_upd. by rewrite Z.eqb_refl.
  - rewrite Ehd, Elast. by destruct node.
  - intros c Hc. rewrite drop_ge in Hc by lia. by apply not_elem_of_nil in Hc.
  - intros c Hc Hcl Hcn. apply Eo; [done| |done]. by intros ->.
  - rewrite Ekk. simpl. rewrite Hf. lia.
  - apply (layout_frame v); [apply Hw|apply Hw|]. apply (layout_frame vol); [apply Hv|apply Hv|done].
  - congruence.
  - rewrite Ekk. simpl. by rewrite <-Hla.
  - intros Hm. rewrite Z.eqb_refl. apply (vc_maps_same vol); [|done]. rewrite (frame_vcache _ _ (fi_frame _ _ _ Hw)).
    apply (frame_vcache _ _ (fi_frame _ _ _ Hv)).
Qed.

(** The branches of [set_fat_chain_length] for a node with clusters. *)
Lemma chain_first l : l <> [] -> node_chain vol node l ->
  data_cluster vol (cluster node) /\ Z.of_nat (length l) <= total_clusters vol /\
  hd 0 l = cluster node /\ last l = Some (end_cluster node).
Proof using Hlo.
  intros Hl Hch. destruct Hch as [E _|l' _ Ht He]; [done|].
  pose proof (chain_length vol _ l' _ (geo_total _ Hgeo) Ht) as Hlen. destruct Ht as [Ht _].
  inversion Ht; subst; split_and!; done.
Qed.

Lemma dispatch_truncate l : l <> [] -> node_chain vol node l -> truncate_chain vol node = set_fat_chain_length vol node 0.
Proof using Hlo.
  intros Hl Hch. destruct (chain_first l Hl Hch) as (Hd & _). unfold set_fat_chain_length.
  by rewrite (fixed_root_data vol _ Hd), (is_data_true vol _ Hgeo Hd).
Qed.

Lemma dispatch_chain l clusters :
  l <> [] -> node_chain vol node l -> clusters_of_size vol (st_size node) = Z.of_nat (length l) ->
  clusters <> 0 ->
  set_fat_chain_length vol node clusters =
    if Z.of_nat (length l) =? clusters then (B_OK, vol, node)
    else if Z.of_nat (length l) <? clusters then extend_chain vol node clusters (Z.of_nat (length l))
    else cut_chain vol node clusters.
Proof using Hlo.
  intros Hl Hch Hsize Hne. pose proof total_small. destruct (chain_first l Hl Hch) as (Hd & Hlen & _).
  unfold set_fat_chain_length. rewrite (fixed_root_data vol _ Hd), (is_data_true vol _ Hgeo Hd).
  cbn [negb orb andb]. rewrite (proj2 (Z.eqb_neq clusters 0)) by done.
  rewrite (proj2 (Z.eqb_neq (cluster node) 0)) by (unfold data_cluster in Hd; lia).
  rewrite Hsize, i32_small, u32_small by lia. done.
Qed.

Lemma resized_same l clusters :
  l <> [] -> node_chain vol node l -> Z.of_nat (length l) = clusters ->
  resized vol m node l clusters vol node l [].
Proof using Hlo.
  intros Hl Hch E. destruct (chain_first l Hl Hch) as (Hd & Hlen & Hhd & Hla). split; try done.
  - by rewrite take_ge, app_nil_r by lia.
  - rewrite Hhd, Hla. by destruct node.
  - intros c. rewrite drop_ge by lia. by intros ?%not_elem_of_nil.
  - lia.
  - by rewrite Z.eqb_refl.
Qed.

(** The walk of [cut_chain] stops at the last cluster that stays. *)
Lemma chain_lookup_next l c0 e i c c' :
  terminated vol c0 l e -> l !! i = Some c -> l !! S i = Some c' -> next_in vol c = c'.
Proof using.
  intros [Hc _] H1 H2. apply list_elem_of_split_length in H1 as (l1 & l2 & -> & ->).
  rewrite lookup_app_r in H2 by lia. replace (S (length l1) - length l1)%nat with 1%nat in H2 by lia.
  simpl in H2. apply chain_split in Hc. inversion Hc as [|? ? ? ? Hc2]; subst.
  destruct l2 as [|x l2]; [done|]. injection H2 as ->. inversion Hc2; subst. done.
Qed.

Lemma cut_walk l clusters :
  terminated vol (cluster node) l END_FAT_ENTRY -> 0 < clusters < Z.of_nat (length l) ->
  exists c n, z_loop (cut_step vol) (clusters - 1) (cluster node, get_fat_entry vol (cluster node)) = Cont (c, n) /\
    l !! Z.to_nat (clusters - 1) = Some c /\ l !! Z.to_nat clusters = Some n.
Proof using Hlo.
  intros Ht Hn. pose proof (chain_data _ _ _ _ (proj1 Ht)) as Hall. rewrite Forall_forall in Hall.
  assert (Hdata : forall i c, l !! i = Some c -> data_cluster vol c)
    by (intros i c Hi; apply Hall; by eapply list_elem_of_lookup_2).
  set (P := fun i (s : Z * Z) => l !! Z.to_nat i = Some (fst s) /\ l !! Z.to_nat (i + 1) = Some (snd s)).
  assert (Hnext : forall i c, 0 <= i -> i + 1 < Z.of_nat (length l) -> l !! Z.to_nat i = Some c ->
    l !! Z.to_nat (i + 1) = Some (get_fat_entry vol c)).
  { intros i c Hi Hil Hic. destruct (lookup_lt_is_Some_2 l (Z.to_nat (i + 1))) as [c' Hc']; [lia|].
    rewrite Hc'. f_equal. rewrite get_fat_entry_eq by (done || by apply (Hdata _ _ Hic)).
    symmetry. eapply (chain_lookup_next l); [done|done|]. by replace (S (Z.to_nat i)) with (Z.to_nat (i + 1)) by lia. }
  assert (H0 : l !! Z.to_nat 0 = Some (cluster node)).
  { destruct Ht as [Ht _]. inversion Ht; subst; simpl in *; [lia|done]. }
  pose proof (z_loop_inv (cut_step vol) P (fun _ => False) (clusters - 1)
    (cluster node, get_fat_entry vol (cluster node)) ltac:(lia)) as Hinv.
  destruct (z_loop _ _ _) as [[c n]|b].
  - exists c, n. split; [done|]. destruct Hinv as [H1 H2].
    + split; [done|]. apply Hnext; [lia|lia|done].
    + intros i [c' n'] Hi [Hc Hc']. simpl in *. unfold cut_step.
      rewrite (is_data_true vol n' Hgeo (Hdata _ _ Hc')). simpl. split; [done|]. apply Hnext; [lia|lia|done].
    + simpl in *. replace (clusters - 1 + 1) with clusters in H2 by lia. done.
  - exfalso. apply Hinv.
    + split; [done|]. apply Hnext; [lia|lia|done].
    + intros i [c' n'] Hi [Hc Hc']. simpl in *. unfold cut_step.
      rewrite (is_data_true vol n' Hgeo (Hdata _ _ Hc')). simpl. split; [done|]. apply Hnext; [lia|lia|done].
Qed.

(** Clusters cut off the end. *)
Lemma cut_ok l clusters :
  node_chain vol node l -> 0 < clusters < Z.of_nat (length l) ->
  exists v node', cut_chain vol node clusters = (B_OK, v, node') /\
    resized vol m node l clusters v node' (take (Z.to_nat clusters) l) [].
Proof using Hlo Hcount.
  intros Hch Hn. destruct Hch as [? ?|l' Hl Ht He]; [simpl in Hn; lia|].
  pose proof free_range. pose proof total_small.
  destruct (cut_walk l' clusters Ht Hn) as (c & n & Hw & Hlc & Hln).
  pose proof (chain_data _ _ _ _ (proj1 Ht)) as Hall. rewrite Forall_forall in Hall.
  pose proof (list_elem_of_lookup_2 _ _ _ Hlc) as Hcin. pose proof (list_elem_of_lookup_2 _ _ _ Hln) as Hnin.
  pose proof (Hall _ Hcin) as Hc. pose proof (Hall _ Hnin) as Hnd.
  assert (Hcl : data_cluster vol (cluster node)) by (destruct Ht as [Ht _]; by inversion Ht; subst).
  pose proof (chain_nodup _ _ _ _ Ht) as Hnodup. pose proof (chain_length vol _ _ _ total_pos Ht).
  unfold cut_chain. rewrite i32_small by (unfold data_cluster in Hcl; lia). rewrite Hw. simpl.
  assert (Hne : n <> END_FAT_ENTRY) by (intros ->; by apply (END_not_data vol Hgeo)).
  unfold data_cluster in Hnd, Hc.
  rewrite (proj2 (Z.eqb_neq n END_FAT_ENTRY) Hne), (proj2 (Z.ltb_ge n 0)) by lia. simpl.
  rewrite (is_data_true vol n Hgeo) by done. simpl.
  destruct (set_fat_entry_eq vol c 0x0fffffff Hok) as (w & -> & Hw' & kk & Ekk); [done|]. simpl.
  rewrite (u32_small n) by lia. pose proof (fat_is_bpb _ _ _ Hw') as Ebw.
  set (j := Z.to_nat clusters) in *.
  assert (Etd : l' = take (pred j) l' ++ c :: drop j l').
  { rewrite <-(take_drop (pred j) l') at 1. f_equal.
    rewrite (drop_S l' c (pred j)); [|by replace (pred j) with (Z.to_nat (clusters - 1)) by lia].
    f_equal. f_equal. lia. }
  assert (Etk : take j l' = take (pred j) l' ++ [c]).
  { replace j with (S (pred j)) at 1 by lia. rewrite (take_S_r _ _ c); [done|].
    by replace (pred j) with (Z.to_nat (clusters - 1)) by lia. }
  assert (Edn : exists r, drop j l' = n :: r).
  { exists (drop (S j) l'). by apply drop_S. }
  assert (Hdis : c ∉ drop j l' /\ c ∉ take (pred j) l' /\ forall x, x ∈ take (pred j) l' -> x ∉ drop j l').
  { rewrite Etd in Hnodup. apply NoDup_app in Hnodup as (_ & D1 & D2). apply NoDup_cons in D2 as [D2 _].
    split_and!; [done|intros Hx; apply (D1 c Hx), list_elem_of_here|].
    intros x Hx Hx'. by apply (D1 x Hx), list_elem_of_further. }
  destruct Hdis as (Hd1 & Hd2 & Hd3).
  assert (Eupd : forall x, data_cluster vol x -> x <> c -> entry w x = entry vol x).
  { intros x Hx Hxc. rewrite (fi_entry _ _ _ Hw') by done. unfold fat_upd. by rewrite (proj2 (Z.eqb_neq x c)). }
  assert (Htail : terminated w n (drop j l') END_FAT_ENTRY).
  { split; [|apply END_not_data, Hw']. destruct Edn as [r Er]. rewrite Er. apply (chain_bpb_ext vol); [done| |].
    - apply Forall_forall. intros x Hx. rewrite <-Er in Hx. apply Eupd.
      + apply Hall. rewrite Etd. apply elem_of_app. right. by apply list_elem_of_further.
      + by intros ->.
    - destruct Ht as [Ht _]. rewrite Etd, Er in Ht. replace (c :: n :: r) with ([c] ++ n :: r) in Ht by done.
      rewrite app_assoc in Ht. by eapply chain_split. }
  destruct (clear_fat_chain_ok w n (drop j l') _ (fi_ok _ _ _ Hw') Htail) as (v & -> & Hv & Hf & Hla).
  { destruct Edn as [r ->]. done. }
  pose proof (fat_is_bpb _ _ _ Hv) as Ebv.
  assert (Een : forall x, data_cluster vol x -> entry v x = if decide (x ∈ drop j l') then 0 else entry w x).
  { intros x Hx. apply Hv. unfold data_cluster. by rewrite Ebw. }
  eexists v, _. split; [done|]. rewrite (cluster_u32 c) by done.
  assert (Elast : last (take j l') = Some c) by (by rewrite Etk, last_snoc).
  assert (Ehd : hd 0 (take j l') = cluster node).
  { destruct Ht as [Ht _]. destruct j as [|j'] eqn:Ej; [lia|]. by inversion Ht; subst. }
  split.
  - by rewrite app_nil_r.
  - rewrite length_take. lia.
  - done.
  - constructor; [by rewrite Etk; destruct (take _ _)| |done]. split; [|apply END_not_data, Hv].
    rewrite Etk. simpl. apply (chain_redirect vol v _ _ c n); [|congruence| |].
    + destruct Ht as [Ht _]. rewrite Etd in Ht. clear -Ht Edn. destruct Edn as [r Er].
      rewrite Er in Ht. revert Ht. generalize (cluster node). generalize (take (pred j) l').
      intros k. induction k as [|a k IH]; intros x Hx; simpl in *.
      * inversion Hx as [|? ? ? Hd Hx2]; subst. inversion Hx2; subst. by constructor; [|constructor].
      * inversion Hx as [|? ? ? Hd Hx2]; subst. constructor; [done|by apply IH].
    + apply Forall_forall. intros x Hx.
      assert (Hxd : data_cluster vol x) by (apply Hall; rewrite Etd; apply elem_of_app; auto).
      rewrite Een, decide_False, Eupd by (done || by apply Hd3 || by intros ->). done.
    + rewrite (next_end vol v c Hgeo); [constructor|congruence|].
      rewrite Een, decide_False by done. rewrite (fi_entry _ _ _ Hw') by done. unfold fat_upd.
      by rewrite Z.eqb_refl.
  - rewrite Ehd, Elast. by destruct node.
  - intros x Hx. rewrite Een; [by rewrite decide_True|]. apply Hall. rewrite Etd. apply elem_of_app. right.
    by apply list_elem_of_further.
  - intros x Hx Hxl _. rewrite Een, decide_False by (done || (intros Hxd; apply Hxl; rewrite Etd; apply elem_of_app; right; by apply list_elem_of_further)).
    apply Eupd; [done|]. by intros ->.
  - rewrite Hf, Ekk. simpl. rewrite length_drop, u32_small by lia. lia.
  - apply (layout_frame w); [apply Hv|apply Hv|]. apply (layout_frame vol); [apply Hw'|apply Hw'|done].
  - congruence.
  - by rewrite Hla, Ekk.
  - intros Hm. rewrite Z.eqb_refl. apply (vc_maps_same vol); [|done]. rewrite (frame_vcache _ _ (fi_frame _ _ _ Hv)).
    apply (frame_vcache _ _ (fi_frame _ _ _ Hw')).
Qed.
End Branches.

Lemma resize_spec `{Clock} vol m node l clusters :
  layout_ok vol -> vc_maps vol m -> data_cluster vol (last_allocated vol) ->
  free_clusters vol = count_zero (entry vol) 2 (total_clusters vol) ->
  node_chain vol node l -> clusters_of_size vol (st_size node) = Z.of_nat (length l) ->
  0 <= clusters < 2 ^ 32 ->
  loc_unused m (vnid node) (GENERATE_DIR_INDEX_VNID (dir_vnid node) (sindex node)) ->
  (forall c, data_cluster vol c -> entry vol c = 0 ->
     loc_unused m (vnid node) (GENERATE_DIR_CLUSTER_VNID (dir_vnid node) c)) ->
  if clusters - Z.of_nat (length l) <=? free_clusters vol
  then exists v node' l' new, set_fat_chain_length vol node clusters = (B_OK, v, node') /\
         resized vol m node l clusters v node' l' new
  else exists v, set_fat_chain_length vol node clusters = (B_DEVICE_FULL, v, node) /\
         same_table vol v /\ free_clusters v = free_clusters vol /\
         last_allocated v = last_allocated vol /\ layout_ok v /\ fat_frame vol v.
Proof.
  intros Hlo Hvm Hhint Hcount Hch Hsize Hcl Hu1 Hu2.
  pose proof (free_range vol Hlo Hcount) as Hfr. destruct (decide (l = [])) as [->|Hl].
  - destruct (node_chain_nil _ _ Hch) as [E Ee]. unfold set_fat_chain_length. rewrite E. cbn [orb andb negb IS_FIXED_ROOT].
    rewrite andb_false_r. cbn [length]. rewrite Z.sub_0_r.
    destruct (Z.eqb_spec clusters 0) as [->|Hne].
    + rewrite (proj2 (Z.leb_le _ _)) by lia. exists vol, node, [], []. unfold truncate_chain. rewrite E.
      split; [done|]. split; try done; [|intros c ?%not_elem_of_nil; done|simpl; lia|by rewrite Z.eqb_refl].
      simpl. rewrite <-E at 1. rewrite <-Ee. by rewrite set_vnode_chain_id.
    + destruct (Z.leb_spec clusters (free_clusters vol)).
      * destruct (start_ok vol Hlo m Hvm Hhint Hcount node clusters E ltac:(lia) Hu2) as (v & node' & new & -> & Hr).
        by exists v, node', new, new.
      * destruct (alloc_fails vol Hlo Hhint Hcount clusters ltac:(lia)) as (v & Ea & Hv).
        exists v. unfold start_chain. by rewrite Ea.
  - destruct (Z.eq_dec clusters 0) as [->|Hne].
    { rewrite (proj2 (Z.leb_le _ _)) by lia.
      destruct (truncate_ok vol Hlo m Hvm Hcount node l Hl Hch Hu1) as (v & E & Hr).
      exists v, (set_vnode_chain 0 0 node), [], []. split; [|done]. rewrite <-E. symmetry. by apply dispatch_truncate with l. }
    rewrite (dispatch_chain vol Hlo node l clusters Hl Hch Hsize Hne).
    destruct (Z.eqb_spec (Z.of_nat (length l)) clusters) as [E|Hd].
    { rewrite (proj2 (Z.leb_le _ _)) by lia. exists vol, node, l, []. split; [done|]. by apply (resized_same vol Hlo m). }
    destruct (Z.ltb_spec (Z.of_nat (length l)) clusters).
    + destruct (Z.leb_spec (clusters - Z.of_nat (length l)) (free_clusters vol)).
      * destruct (extend_ok vol Hlo m Hhint Hcount node l clusters Hl Hch) as (v & node' & new & -> & Hr & _); [done|done|].
        by exists v, node', (l ++ new), new.
      * destruct (alloc_fails vol Hlo Hhint Hcount (clusters - Z.of_nat (length l)) ltac:(lia)) as (v & E & Hv).
        exists v. unfold extend_chain. rewrite u32_small by lia. by rewrite E.
    + rewrite (proj2 (Z.leb_le _ _)) by lia.
      destruct (cut_ok vol Hlo m Hcount node l clusters Hch ltac:(lia)) as (v & node' & -> & Hr).
      by exists v, node', (take (Z.to_nat clusters) l), [].
Qed.

(** C9: changing the length of a node's chain.  With room enough on the
    volume, the call succeeds; the node then has a chain of exactly that many
    clusters that ends properly, the first of them the old ones in the old
    order and the others formerly free; clusters cut off are free again; no
    other entry of the table changes, the free count is kept, and the first
    and last cluster of the node are those of the chain (0 when it has none).
    Without room the call reports a full device, and the node, every entry and
    every block outside the tables stay as they were. *)
Theorem set_fat_chain_length_resizes `{Clock} vol m node l clusters :
  layout_ok vol -> vc_maps vol m -> data_cluster vol (last_allocated vol) ->
  free_clusters vol = count_zero (entry vol) 2 (total_clusters vol) ->
  node_chain vol node l -> clusters_of_size vol (st_size node) = Z.of_nat (length l) ->
  0 <= clusters < 2 ^ 32 ->
  loc_unused m (vnid node) (GENERATE_DIR_INDEX_VNID (dir_vnid node) (sindex node)) ->
  (forall c, data_cluster vol c -> entry vol c = 0 ->
     loc_unused m (vnid node) (GENERATE_DIR_CLUSTER_VNID (dir_vnid node) c)) ->
  if clusters - Z.of_nat (length l) <=? free_clusters vol
  then exists v node' l' new, set_fat_chain_length vol node clusters = (B_OK, v, node') /\
         resized vol m node l clusters v node' l' new
  else exists v, set_fat_chain_length vol node clusters = (B_DEVICE_FULL, v, node) /\
         same_table vol v /\ free_clusters v = free_clusters vol /\
         last_allocated v = last_allocated vol /\ layout_ok v /\ fat_frame vol v.
Proof. exact (resize_spec vol m node l clusters). Qed.

Lemma empty_vcache_maps vol :
  by_vnid (ns_vcache vol) = ∅ -> by_loc (ns_vcache vol) = ∅ -> vc_maps vol ∅.
Proof.
  intros E1 E2. split; [rewrite E1; apply empty_table|rewrite E2; apply empty_table| |];
    intros *; rewrite lookup_empty; done.
Qed.

Lemma set_fat_chain_length_resizes_witness :
  (exists v node' l', set_fat_chain_length floppy (set_st_size 2000 a_file) 6 = (B_OK, v, node') /\
     node_chain v node' l' /\ take 4 l' = [2; 3; 341; 4]) /\
  exists v node', set_fat_chain_length floppy (set_st_size 2000 a_file) 2 = (B_OK, v, node') /\
     entry v 341 = 0 /\ end_cluster node' = 3.
Proof.
  assert (Hfree : free_clusters floppy = 494) by (vm_compute; reflexivity).
  assert (Hc : forall n, 0 <= n < 2 ^ 32 -> n <= 498 ->
    exists v node' l' new, set_fat_chain_length floppy (set_st_size 2000 a_file) n = (B_OK, v, node') /\
      resized floppy ∅ (set_st_size 2000 a_file) [2; 3; 341; 4] n v node' l' new).
  { intros n Hn Hle.
    pose proof (set_fat_chain_length_resizes floppy ∅ (set_st_size 2000 a_file) [2; 3; 341; 4] n
      floppy_layout) as H.
    rewrite Hfree, (proj2 (Z.leb_le _ _)) in H by (simpl length; lia). apply H.
    - apply empty_vcache_maps; vm_compute; reflexivity.
    - split; vm_compute; [discriminate|reflexivity].
    - vm_compute. reflexivity.
    - constructor; [discriminate|exact floppy_chain|reflexivity].
    - vm_compute. reflexivity.
    - exact Hn.
    - intros u _. rewrite lookup_empty. discriminate.
    - intros c _ _ u _. rewrite lookup_empty. discriminate. }
  split.
  - destruct (Hc 6 ltac:(lia) ltac:(lia)) as (v & node' & l' & new & E & Hr).
    exists v, node', l'. split; [exact E|]. split; [apply (rz_chain _ _ _ _ _ _ _ _ _ Hr)|].
    rewrite (rz_list _ _ _ _ _ _ _ _ _ Hr). reflexivity.
  - destruct (Hc 2 ltac:(lia) ltac:(lia)) as (v & node' & l' & new & E & Hr).
    exists v, node'. split; [exact E|]. split.
    + apply (rz_freed _ _ _ _ _ _ _ _ _ Hr). apply list_elem_of_here.
    + assert (El : length l' = 2%nat) by (pose proof (rz_len _ _ _ _ _ _ _ _ _ Hr); lia).
      pose proof (rz_list _ _ _ _ _ _ _ _ _ Hr) as Ell. simpl in Ell.
      rewrite Ell in El. simpl in El. destruct new; [|discriminate El].
      rewrite (rz_node _ _ _ _ _ _ _ _ _ Hr), Ell. reflexivity.
Defined.
