(* ===== verification/Dir.v ===== *)
(** Directories (dir.c): scanning a directory for its next entry, with the
    long names that may precede it, and the operations built on the scan. *)
From stdpp Require Import base gmap list.
From Stdlib Require Import ZArith Lia.
From S2P Require Import Prelude Errors Volume Fat Vcache Dlist Util Attr Iter Dirent Resize.

Implicit Types vol : nspace.
Implicit Types p : ptr.
Implicit Types d : diri.

(** ** The name conversions (encodings.cpp)

    The directory code relies on them through these operations.  A conversion
    to a string gives its status and the string, one to an array its status,
    or the number of bytes stored, and the bytes. *)
Class Encodings := {
  unicode_to_utf8 : list Z -> Z -> Z * cstring;
  msdos_to_utf8 : list Z -> Z -> bool -> cstring;
  utf8_to_unicode : cstring -> Z -> Z * list Z;
  generate_short_name : cstring -> list Z -> Z * list Z * Z;
  requires_long_name : cstring -> list Z -> bool;
  requires_munged_short_name : cstring -> list Z -> Z -> bool;
  munge_short_name1 : list Z -> Z -> Z -> list Z;
  munge_short_name2 : Z -> list Z -> Z -> list Z
}.

Definition acceptable : cstring :=
  [33; 35; 36; 37; 38; 39; 40; 41; 45; 48; 49; 50; 51; 52; 53; 54; 55; 56; 57; 64; 65; 66; 67; 68; 69;
   70; 71; 72; 73; 74; 75; 76; 77; 78; 79; 80; 81; 82; 83; 84; 85; 86; 87; 88; 89; 90; 94; 95; 96; 123;
   125; 126].
Definition illegal : cstring := [92; 47; 58; 42; 63; 34; 60; 62; 124].

(** ** [_next_dirent_] *)

Record dirent_info := DirentInfo {
  di_sindex : Z;
  di_eindex : Z;
  di_mode : Z;
  di_cluster : Z;
  di_size : Z;
  di_time : Z
}.

(** The long name collected so far: the [uni] array (what an array not yet
    stored to holds is never read), the checksum its entries must have, the
    index of its first entry or 0xffff, its length in bytes, and the number of
    the entry seen last. *)
Record lfn := Lfn {
  lf_uni : list Z;
  lf_hash : Z;
  start_index : Z;
  filename_len : Z;
  lfn_count : Z
}.

Definition no_lfn : lfn := Lfn (repeat 0 1024) 0 0xffff 0 0.
Definition drop_lfn (l : lfn) : lfn := Lfn (lf_uni l) (lf_hash l) 0xffff (filename_len l) (lfn_count l).

(** The step of the loops over the characters of a long name entry:
    [if (i == 0x9) i += 3; if (i == 0x18) i += 2;] and the [i += 2] of the
    loop. *)
Definition lfn_char_next (i : Z) : Z :=
  let i := if i =? 0x9 then i + 3 else i in
  let i := if i =? 0x18 then i + 2 else i in
  i + 2.

(** [*puni = *(uint16 * )&buffer[i]], [pos] being the offset of [puni]. *)
Definition put_char (vol : nspace) (p : ptr) (i pos : Z) (uni : list Z) : list Z :=
  <[Z.to_nat (pos + 1) := ent_get vol p (i + 1)]> (<[Z.to_nat pos := ent_get vol p i]> uni).

(** The characters of the entry with the end of the name: up to the first
    0xffff.  The result is the offset behind the last character, and [uni]. *)
Fixpoint lfn_tail (fuel : nat) (vol : nspace) (p : ptr) (i pos : Z) (uni : list Z) : Z * list Z :=
  match fuel with
  | O => (pos, uni)
  | S fuel =>
      if negb (i <? 0x20) || (ent_read16 vol p i =? 0xffff) then (pos, uni)
      else lfn_tail fuel vol p (lfn_char_next i) (pos + 2) (put_char vol p i pos uni)
  end.

(** The thirteen characters of any other entry; [false] when one of them is
    0xffff. *)
Fixpoint lfn_part (fuel : nat) (vol : nspace) (p : ptr) (i pos : Z) (uni : list Z) : bool * list Z :=
  match fuel with
  | O => (true, uni)
  | S fuel =>
      if negb (i <? 0x20) then (true, uni)
      else if (ent_get vol p i =? 0xff) && (ent_get vol p (i + 1) =? 0xff) then (false, uni)
      else lfn_part fuel vol p (lfn_char_next i) (pos + 2) (put_char vol p i pos uni)
  end.

(** A long name entry met first.  [None]: its count is 0 and the store goes to
    26 bytes before the array. *)
Definition lfn_begin (vol : nspace) (p : ptr) (index : Z) (l : lfn) : option lfn :=
  if Z.land (ent_get vol p 0) 0x40 =? 0 then Some l
  else
    let hash := ent_get vol p 0xd in
    let count := Z.land (ent_get vol p 0) 0x1f in
    if count =? 0 then None
    else
      let '(pos, uni) := lfn_tail 16 vol p 1 (2 * 13 * (count - 1)) (lf_uni l) in
      let uni := <[Z.to_nat (pos + 1) := 0]> (<[Z.to_nat pos := 0]> uni) in
      Some (Lfn uni hash index (pos + 2) count).

(** One met later. *)
Definition lfn_continue (vol : nspace) (p : ptr) (l : lfn) : lfn :=
  if negb (ent_get vol p 0xd =? lf_hash l) then drop_lfn l
  else
    let count := u32 (lfn_count l - 1) in
    let l := Lfn (lf_uni l) (lf_hash l) (start_index l) (filename_len l) count in
    if negb (ent_get vol p 0 =? count) then drop_lfn l
    else
      let '(ok, uni) := lfn_part 16 vol p 1 (2 * 13 * (count - 1)) (lf_uni l) in
      Lfn uni (lf_hash l) (if ok then start_index l else 0xffff) (filename_len l) count.

Definition lfn_entry (vol : nspace) (p : ptr) (index : Z) (l : lfn) : option lfn :=
  if negb (ent_get vol p 0xc =? 0) || negb (ent_get vol p 0x1a =? 0) || negb (ent_get vol p 0x1b =? 0)
  then Some l
  else if start_index l =? 0xffff then lfn_begin vol p index l
  else Some (lfn_continue vol p l).

(** How the loop of the scan ends: at the end of the directory, at the entry
    with the short name, or with a store outside of [uni]. *)
Inductive scan_exit :=
| Scan_end (d : diri)
| Scan_entry (p : ptr) (d : diri) (l : lfn)
| Scan_stray.

Definition scan_next (vol : nspace) (d : diri) (l : lfn)
    : loop (option ptr * diri * lfn) scan_exit :=
  let '(p, d) := diri_next_entry vol d in Cont (p, d, l).

Definition scan_step (vol : nspace) (s : option ptr * diri * lfn)
    : loop (option ptr * diri * lfn) scan_exit :=
  match s with
  | (None, d, l) => Brk (Scan_end d)
  | (Some buffer, d, l) =>
      if ent_get vol buffer 0 =? 0 then Brk (Scan_end d)
      else if ent_get vol buffer 0 =? 0xe5 then scan_next vol d (drop_lfn l)
      else if ent_get vol buffer 0xb =? 0xf then
        match lfn_entry vol buffer (current_index d) l with
        | Some l => scan_next vol d l
        | None => Brk Scan_stray
        end
      else Brk (Scan_entry buffer d l)
  end.

(** More rounds than a directory can have entries. *)
Definition scan_bound : Z := 2 ^ 32.

Definition ent_bytes (vol : nspace) (p : ptr) (k n : Z) : list Z :=
  map (ent_get vol p) (seqZ k n).

(** The rest of the function, at the entry with the short name. *)
Definition scan_finish `{Encodings} (vol : nspace) (buffer : ptr) (d : diri) (l : lfn) (len : Z)
    : Z * diri * option (dirent_info * cstring) :=
  let short := ent_bytes vol buffer 0 11 in
  let '(result, l, filename) :=
    if negb (start_index l =? 0xffff) then
      if negb (lfn_count l =? 1) then (B_OK, drop_lfn l, [])
      else
        let '(result, filename) := unicode_to_utf8 (take (Z.to_nat (filename_len l)) (lf_uni l)) len in
        if negb (result =? 0) then (ENAMETOOLONG, l, [])
        else if negb (hash_msdos_name short =? lf_hash l) then (B_OK, drop_lfn l, [])
        else (B_OK, l, filename)
    else (B_OK, l, []) in
  if result <? 0 then
    (result, snd (diri_init vol (starting_cluster d) (start_index l) (diri_free d)), None)
  else
    let '(sindex, filename) :=
      if start_index l =? 0xffff
      then (current_index d, msdos_to_utf8 short len (flag (ent_get vol buffer 0xc) 0x18))
      else (start_index l, filename) in
    let info :=
      DirentInfo sindex (current_index d) (ent_get vol buffer 0xb)
        (ent_read16 vol buffer 0x1a
         + if fat_bits vol =? 32 then 0x10000 * ent_read16 vol buffer 0x14 else 0)
        (ent_read32 vol buffer 0x1c) (ent_read32 vol buffer 0x16) in
    (B_OK, snd (diri_next_entry vol d), Some (info, filename)).

(** The status, the iterator, and what is stored through the pointers. [None]:
    a store outside of an object. *)
Definition _next_dirent_ `{Encodings} (vol : nspace) (d : diri) (len : Z)
    : option (Z * diri * option (dirent_info * cstring)) :=
  match current_block d with
  | None => Some (ENOENT, d, None)
  | Some _ =>
      if len <? 15 then Some (ENOMEM, d, None)
      else
        match z_loop (scan_step vol) scan_bound (diri_ptr vol d, d, no_lfn) with
        | Brk (Scan_end d) => Some (ENOENT, d, None)
        | Brk (Scan_entry p d l) => Some (scan_finish vol p d l len)
        | Brk Scan_stray => None
        | Cont (_, d, _) => Some (LOOP_EXHAUSTED, d, None)
        end
  end.

(** ** Walking a directory by name *)

Definition dot : cstring := [46].
Definition dotdot : cstring := [46; 46].

(** The next entry that is not a volume label of the root directory. *)
Definition visible_step `{Encodings} (vol : nspace) (dir : vnode) (len : Z) (d : diri)
    : loop diri (option (Z * diri * option (dirent_info * cstring))) :=
  match _next_dirent_ vol d len with
  | None => Brk None
  | Some (result, d, o) =>
      if result <? 0 then Brk (Some (result, d, None))
      else
        match o with
        | Some (info, _) =>
            if flag (di_mode info) FAT_VOLUME && (vnid dir =? vnid (root_vnode vol)) then Cont d
            else Brk (Some (result, d, o))
        | None => Brk (Some (result, d, None))
        end
  end.

(** The id of the node of an entry: from the cache, or else its location,
    unless that is the id of another node. *)
Definition assign_vnid (vol : nspace) (dir : vnode) (info : dirent_info)
    : Z * nspace * Z * bool :=
  let loc :=
    if IS_DATA_CLUSTER vol (di_cluster info)
    then GENERATE_DIR_CLUSTER_VNID (vnid dir) (di_cluster info)
    else GENERATE_DIR_INDEX_VNID (vnid dir) (di_sindex info) in
  match vcache_loc_to_vnid vol loc with
  | (result, Some v) => (result, vol, v, false)
  | (result, None) =>
      if result =? ENOENT then
        if find_vnid_in_vcache vol loc =? B_OK then
          let '(v, vol) := generate_unique_vnid vol in
          let '(result, vol) := add_to_vcache vol v loc in
          (result, vol, v, negb (result <? 0))
        else (B_OK, vol, loc, false)
      else (result, vol, 0, false)
  end.

(** The status; on success the name and the node id.  Every caller asks for
    the node id. *)
Definition get_next_dirent `{Encodings} (vol : nspace) (dir : vnode) (d : diri) (len : Z)
    : option (Z * nspace * diri * option (cstring * Z)) :=
  match z_loop (visible_step vol dir len) scan_bound d with
  | Cont d => Some (LOOP_EXHAUSTED, vol, d, None)
  | Brk None => None
  | Brk (Some (result, d, None)) => Some (result, vol, d, None)
  | Brk (Some (result, d, Some (info, filename))) =>
      if decide (filename = dot) then Some (B_OK, vol, d, Some (filename, vnid dir))
      else if decide (filename = dotdot) then Some (B_OK, vol, d, Some (filename, dir_vnid dir))
      else
        let '(result, vol, v, added_to_vcache) := assign_vnid vol dir info in
        if negb (result =? B_OK) then Some (result, vol, d, None)
        else if flag (di_mode info) FAT_SUBDIR && (dlist_find vol (di_cluster info) =? -1) then
          let '(result, vol) := dlist_add vol v in
          if result <? 0 then
            Some (result, if added_to_vcache then snd (remove_from_vcache vol v) else vol, d, None)
          else Some (B_OK, vol, d, Some (filename, v))
        else Some (B_OK, vol, d, Some (filename, v))
  end.

(** The rounds [i], ..., 2 of [check_dir_empty]. *)
Fixpoint check_empty_from `{Encodings} (rounds : nat) (vol : nspace) (d : diri) (i result : Z)
    : option Z :=
  match rounds with
  | O => Some result
  | S rounds =>
      match _next_dirent_ vol d 512 with
      | None => None
      | Some (result, d, o) =>
          if result <? 0 then Some (if (i =? 2) && (result =? ENOENT) then B_OK else result)
          else
            let filename := match o with Some (_, name) => name | None => [] end in
            if ((i =? 0) && negb (bool_decide (filename = dot)))
               || ((i =? 1) && negb (bool_decide (filename = dotdot)))
               || ((i <? 2) && negb (current_index d =? u32 (i + 1)))
            then Some ENOTDIR
            else check_empty_from rounds vol d (i + 1) ENOTEMPTY
      end
  end.

Definition check_dir_empty `{Encodings} (vol : nspace) (dir : vnode) : option Z :=
  match diri_init vol (cluster dir) 0 no_diri with
  | (None, _) => Some B_ERROR
  | (Some _, d) =>
      let i := if vnid dir =? vnid (root_vnode vol) then 2 else 0 in
      check_empty_from (Z.to_nat (3 - i)) vol d i B_ERROR
  end.

(** The search of [findfile]: what was found, and whether there are names that
    differ in case only. *)
Definition find_step `{Encodings} (dir : vnode) (file : cstring) (check_case check_dups : bool)
    (s : nspace * diri * option Z * bool)
    : loop (nspace * diri * option Z * bool) (option (nspace * option Z * bool)) :=
  let '(vol, d, found, dups) := s in
  match get_next_dirent vol dir d 512 with
  | None => Brk None
  | Some (result, vol, d, o) =>
      match o with
      | None => Brk (Some (vol, found, dups))
      | Some (filename, v) =>
          if negb (result =? B_OK) then Brk (Some (vol, found, dups))
          else
            let '(found, dups) :=
              if check_case then
                if negb (bool_decide (is_Some found)) && bool_decide (filename = file)
                then (Some v, dups)
                else if check_dups && strcasecmp_eq filename file then (found, true)
                else (found, dups)
              else
                if strcasecmp_eq filename file
                then (Some v, dups || (check_dups && bool_decide (is_Some found)))
                else (found, dups) in
            if bool_decide (is_Some found) && (negb check_dups || (check_dups && dups))
            then Brk (Some (vol, found, dups))
            else Cont (vol, d, found, dups)
      end
  end.

(** The status, the node id found, and [*dups_exist], which is given when
    [check_dups] is.  The caller looks the node up. *)
Definition findfile `{Encodings} (vol : nspace) (dir : vnode) (file : cstring)
    (check_case check_dups : bool) : option (Z * nspace * option Z * bool) :=
  let answer '(vol, found, dups) :=
    Some (match found with Some _ => B_OK | None => ENOENT end, vol, found, dups) in
  if bool_decide (file = dot) && (vnid dir =? vnid (root_vnode vol))
  then answer (vol, Some (vnid dir), false)
  else if bool_decide (file = dotdot) && (vnid dir =? vnid (root_vnode vol))
  then answer (vol, Some (dir_vnid dir), false)
  else
    match diri_init vol (cluster dir) 0 no_diri with
    | (None, _) => Some (ENOENT, vol, None, false)
    | (Some _, d) =>
        match z_loop (find_step dir file check_case check_dups) scan_bound (vol, d, None, false) with
        | Cont (vol, _, _, _) => Some (LOOP_EXHAUSTED, vol, None, false)
        | Brk None => None
        | Brk (Some r) => answer r
        end
    end.

Definition findfile_case `{Encodings} vol dir file := findfile vol dir file true false.
Definition findfile_nocase `{Encodings} vol dir file := findfile vol dir file false false.
Definition findfile_nocase_duplicates `{Encodings} vol dir file := findfile vol dir file false true.
Definition findfile_case_duplicates `{Encodings} vol dir file := findfile vol dir file true true.

(** ** Erasing an entry *)

(** The loop that marks the entries [i], ..., [eindex]. *)
Definition erase_step (last : Z) (s : option ptr * diri * Z * nspace)
    : loop (option ptr * diri * Z * nspace) nspace :=
  let '(p, d, i, vol) := s in
  match p with
  | None => Brk vol
  | Some buffer =>
      if last <? i then Brk vol
      else
        let vol := ent_set buffer 0 0xe5 vol in
        let '(p, d) := diri_next_entry vol d in
        Cont (p, d, u32 (i + 1), vol)
  end.

Definition erase_dir_entry `{Encodings} (vol : nspace) (node : vnode) : option (Z * nspace) :=
  let dir := VNODE_PARENT_DIR_CLUSTER node in
  match diri_init vol dir (sindex node) no_diri with
  | (None, _) => Some (ENOENT, vol)
  | (Some _, d) =>
      match _next_dirent_ vol d 512 with
      | None => None
      | Some (result, d, o) =>
          if result <? 0 then Some (result, vol)
          else
            match o with
            | Some (info, _) =>
                if negb (di_sindex info =? sindex node) || negb (di_eindex info =? eindex node)
                then Some (B_ERROR, vol)
                else
                  let '(p, d) := diri_init vol dir (sindex node) (diri_free d) in
                  match z_loop (erase_step (eindex node)) scan_bound (p, d, sindex node, vol) with
                  | Cont (_, _, _, vol) => Some (LOOP_EXHAUSTED, vol)
                  | Brk vol => Some (0, vol)
                  end
            | None => Some (result, vol)
            end
      end
  end.

(** ** Shrinking a directory *)

(** The search for the end of the last entry; [Brk] carries the status that
    ended it. *)
Definition last_step `{Encodings} (vol : nspace) (dir : vnode) (s : diri * Z * Z)
    : loop (diri * Z * Z) (option (diri * Z * Z)) :=
  let '(d, last, error) := s in
  match current_block d with
  | None => Brk (Some (d, last, error))
  | Some _ =>
      match _next_dirent_ vol d 512 with
      | None => Brk None
      | Some (error, d, o) =>
          if error =? B_OK then
            let mode := match o with Some (info, _) => di_mode info | None => 0 end in
            if negb (flag mode FAT_VOLUME) || negb (vnid dir =? vnid (root_vnode vol))
            then Cont (d, current_index d, error)
            else Cont (d, last, error)
          else Brk (Some (d, last, error))
      end
  end.

Definition clusters_of_entries (vol : nspace) (last : Z) : Z :=
  u32 (last + entries_per_sector vol * sectors_per_cluster vol - 1) / entries_per_sector vol
    / sectors_per_cluster vol.

(** The status, the volume, and the directory's node. *)
Definition compact_directory `{Encodings, Clock} (vol : nspace) (dir : vnode)
    : option (Z * nspace * vnode) :=
  if IS_FIXED_ROOT (cluster dir) then Some (0, vol, dir)
  else
    match diri_init vol (cluster dir) 0 no_diri with
    | (None, _) => Some (EIO, vol, dir)
    | (Some _, d) =>
        match z_loop (last_step vol dir) scan_bound (d, 0, B_ERROR) with
        | Cont _ => Some (LOOP_EXHAUSTED, vol, dir)
        | Brk None => None
        | Brk (Some (_, last, error)) =>
            if error =? ENOENT then
              let clusters := clusters_of_entries vol last in
              let clusters := if clusters =? 0 then 1 else clusters in
              let size := u32 (clusters * bytes_per_sector vol * sectors_per_cluster vol) in
              if size <? st_size dir then
                let '(error, vol, dir) := set_fat_chain_length vol dir clusters in
                Some (error, vol, set_iteration (u32 (iteration dir + 1)) (set_st_size size dir))
              else Some (0, vol, dir)
            else Some (error, vol, dir)
        end
    end.

(** ** Creating an entry *)

Definition short_step (vol : nspace) (name : list Z) (s : option ptr * diri)
    : loop (option ptr * diri) Z :=
  match s with
  | (None, _) => Brk ENOENT
  | (Some buffer, d) =>
      if ent_get vol buffer 0 =? 0 then Brk ENOENT
      else if negb (ent_get vol buffer 0xb =? 0xf) && bool_decide (ent_bytes vol buffer 0 11 = name)
      then Brk B_OK
      else Cont (diri_next_entry vol d)
  end.

Definition find_short_name (vol : nspace) (dir : vnode) (name : list Z) : Z :=
  match z_loop (short_step vol name) scan_bound (diri_init vol (cluster dir) 0 no_diri) with
  | Brk result => result
  | Cont _ => LOOP_EXHAUSTED
  end.

Record entry_info := EntryInfo { ei_mode : Z; ei_cluster : Z; ei_size : Z; ei_time : Z }.

Definition device_names : list (list Z) :=
  [ [67; 79; 78; 32; 32; 32; 32; 32];      (* CON *)
    [65; 85; 88; 32; 32; 32; 32; 32];      (* AUX *)
    [80; 82; 78; 32; 32; 32; 32; 32];      (* PRN *)
    [67; 76; 79; 67; 75; 36; 32; 32];      (* CLOCK$ *)
    [67; 79; 77; 49; 32; 32; 32; 32];      (* COM1 *)
    [76; 80; 84; 49; 32; 32; 32; 32];      (* LPT1 *)
    [76; 80; 84; 50; 32; 32; 32; 32];      (* LPT2 *)
    [76; 80; 84; 51; 32; 32; 32; 32];      (* LPT3 *)
    [67; 79; 77; 50; 32; 32; 32; 32];      (* COM2 *)
    [67; 79; 77; 51; 32; 32; 32; 32];      (* COM3 *)
    [67; 79; 77; 52; 32; 32; 32; 32];      (* COM4 *)
    [67; 79; 78; 70; 73; 71; 36; 32] ].    (* CONFIG$ *)

(** The search for a gap: [ns] is the index behind the last entry met.  [Brk]
    carries [ns], [last_entry] and [error]. *)
Definition gap_step `{Encodings} (vol : nspace) (required : Z) (s : diri * Z * Z)
    : loop (diri * Z * Z) (option (Z * bool * Z)) :=
  let '(d, ns, error) := s in
  match current_block d with
  | None => Brk (Some (ns, true, error))
  | Some _ =>
      match _next_dirent_ vol d 512 with
      | None => Brk None
      | Some (error, d, o) =>
          if error =? B_OK then
            let sindex := match o with Some (info, _) => di_sindex info | None => 0 end in
            if required <=? u32 (sindex - ns) then Brk (Some (ns, false, error))
            else Cont (d, current_index d, error)
          else Brk (Some (ns, true, error))
      end
  end.

(** [l[k], ..., l[k + n - 1]], or nothing when that is not all in the array. *)
Definition read_array (l : list Z) (k n : Z) : option (list Z) :=
  if k + n <=? Z.of_nat (length l) then Some (take (Z.to_nat n) (drop (Z.to_nat k) l)) else None.

(** The long name entries, from the end of the name to its beginning.  The
    copies read 26 bytes each, behind the array where it is too short. *)
Fixpoint write_lfn (rounds : nat) (required i hash : Z) (nlong : list Z)
    (s : option ptr * diri * nspace) : option (option ptr * diri * nspace) :=
  match rounds, s with
  | S rounds, (Some buffer, d, vol) =>
      match read_array nlong ((required - i - 1) * 26) 26 with
      | None => None
      | Some part =>
          let vol := ent_fill buffer 0 0x20 0 vol in
          let vol := ent_set buffer 0 (required - i + if i =? 1 then 0x40 else 0) vol in
          let vol := ent_set buffer 0x0b 0x0f vol in
          let vol := ent_set buffer 0x0d hash vol in
          let vol := ent_copy buffer 1 (take 10 part) vol in
          let vol := ent_copy buffer 0x0e (take 12 (drop 10 part)) vol in
          let vol := ent_copy buffer 0x1c (drop 22 part) vol in
          let '(p, d) := diri_next_entry vol d in
          write_lfn rounds required (i + 1) hash nlong (p, d, vol)
      end
  | _, _ => Some s
  end.

Definition write_short `{Clock} (buffer : ptr) (nshort : list Z) (info : entry_info) (vol : nspace)
    : nspace :=
  let vol := ent_copy buffer 0 nshort vol in
  let vol := ent_set buffer 0x0b (ei_mode info) vol in
  let vol := ent_fill buffer 0xc (0x16 - 0xc) 0 vol in
  let vol := ent_set32 buffer 0x16 (time_t2dos tzoffset (ei_time info)) vol in
  let vol := ent_set_cluster buffer (if ei_size info =? 0 then 0 else ei_cluster info) vol in
  ent_set32 buffer 0x1c (if flag (ei_mode info) FAT_SUBDIR then 0 else ei_size info) vol.

(** The entries behind the last one are cleared. *)
Definition clear_rest_step (s : diri * nspace) : loop (diri * nspace) nspace :=
  let '(d, vol) := s in
  match diri_next_entry vol d with
  | (None, _) => Brk vol
  | (Some buffer, d) => Cont (d, ent_fill buffer 0 0x20 0 vol)
  end.

(** Room for the entries up to [ne]. *)
Definition grow_directory `{Clock} (vol : nspace) (dir : vnode) (ne : Z) : Z * nspace * vnode :=
  if st_size dir <=? u32 (ne * 0x20) then
    if IS_FIXED_ROOT (cluster dir) then (ENOSPC, vol, dir)
    else
      let csize := u32 (bytes_per_sector vol * sectors_per_cluster vol) in
      let clusters_needed :=
        u32 ((ne + 1) * 0x20 + csize - 1) / bytes_per_sector vol / sectors_per_cluster vol in
      let '(error, vol, dir) := set_fat_chain_length vol dir clusters_needed in
      if error <? 0 then (error, vol, dir)
      else
        (B_OK, vol, set_iteration (u32 (iteration dir + 1))
                      (set_st_size (u32 (csize * clusters_needed)) dir))
  else (B_OK, vol, dir).

(** The status, the volume, the directory's node, and [*ns] and [*ne]. *)
Definition _create_dir_entry_ `{Encodings, Clock} (vol : nspace) (dir : vnode) (info : entry_info)
    (nshort nlong : list Z) (len : Z) : option (Z * nspace * vnode * Z * Z) :=
  if bool_decide (take 8 nshort ∈ device_names) then Some (EPERM, vol, dir, 0, 0)
  else if negb (ei_cluster info =? 0) && negb (IS_DATA_CLUSTER vol (ei_cluster info))
  then Some (EINVAL, vol, dir, 0, 0)
  else
    let required := (len + 24) / 26 + 1 in
    match diri_init vol (cluster dir) 0 no_diri with
    | (None, _) => Some (EIO, vol, dir, 0, 0)
    | (Some _, d) =>
        match z_loop (gap_step vol required) scan_bound (d, 0, B_ERROR) with
        | Cont _ => Some (LOOP_EXHAUSTED, vol, dir, 0, 0)
        | Brk None => None
        | Brk (Some (ns, last_entry, error)) =>
            if negb (error =? B_OK) && negb (error =? ENOENT) then Some (error, vol, dir, ns, 0)
            else
              let ne := u32 (ns + required - 1) in
              let '(error, vol, dir) := grow_directory vol dir ne in
              if error <? 0 then Some (error, vol, dir, ns, ne)
              else
                match diri_init vol (cluster dir) ns no_diri with
                | (None, _) => Some (EIO, vol, dir, ns, ne)
                | (Some buffer, d) =>
                    match write_lfn (Z.to_nat (required - 1)) required 1 (hash_msdos_name nshort)
                            nlong (Some buffer, d, vol) with
                    | None => None
                    | Some (None, _, vol) => Some (B_ERROR, vol, dir, ns, ne)
                    | Some (Some buffer, d, vol) =>
                        let vol := write_short buffer nshort info vol in
                        if last_entry then
                          match z_loop clear_rest_step scan_bound (d, vol) with
                          | Brk vol => Some (0, vol, dir, ns, ne)
                          | Cont _ => Some (LOOP_EXHAUSTED, vol, dir, ns, ne)
                          end
                        else Some (0, vol, dir, ns, ne)
                    end
                end
        end
    end.

Definition create_volume_label `{Encodings, Clock} (vol : nspace) (name : list Z)
    : option (Z * nspace * Z) :=
  let info := EntryInfo (Z.lor FAT_ARCHIVE FAT_VOLUME) 0 0 real_time in
  let err := find_short_name vol (root_vnode vol) name in
  if err =? B_OK then Some (EEXIST, vol, 0)
  else if negb (err =? ENOENT) then Some (err, vol, 0)
  else
    match _create_dir_entry_ vol (root_vnode vol) info name [] 0 with
    | None => None
    | Some (result, vol, root, index, _) => Some (result, set_root_vnode root vol, index)
    end.

(** [strchr(illegal, c)] finds the final NUL too, but a string holds none. *)
Definition is_filename_legal (name : cstring) : bool :=
  match last name with
  | None => false
  | Some c =>
      negb (c =? 46) && negb (c =? 32)
      && forallb (fun c => flag c 0x80 || (negb (bool_decide (c ∈ illegal)) && (32 <=? c))) name
  end.

(** Trying short names until one is not taken. *)
Definition munge1_step `{Encodings} (vol : nspace) (dir : vnode) (tshort : list Z) (encoding : Z)
    (s : list Z * Z * Z) : loop (list Z * Z * Z) (list Z * Z) :=
  let '(_, iter, _) := s in
  let nshort := munge_short_name1 tshort iter encoding in
  let error := find_short_name vol dir nshort in
  if error =? B_OK then Cont (nshort, iter + 1, error) else Brk (nshort, error).

Class Timer := { system_time : Z -> Z }.

(** [k] numbers the calls of [system_time]. *)
Definition munge2_step `{Encodings, Timer} (vol : nspace) (dir : vnode) (tshort : list Z) (encoding : Z)
    (k : Z) : loop Z (list Z * Z) :=
  let nshort := munge_short_name2 (system_time k) tshort encoding in
  let error := find_short_name vol dir nshort in
  if error =? B_OK then Cont (k + 1) else Brk (nshort, error).

(** The short name of an entry with a long name: the status of the search,
    ENOENT when the name is not taken. *)
Definition choose_short_name `{Encodings, Timer} (vol : nspace) (dir : vnode) (name : cstring)
    (nshort : list Z) (encoding : Z) : Z * list Z :=
  let error :=
    if requires_munged_short_name name nshort encoding then B_OK else find_short_name vol dir nshort in
  if negb (error =? B_OK) then (error, nshort)
  else
    match z_loop (munge1_step vol dir nshort encoding) 9 (nshort, 1, error) with
    | Brk (n, error) => (error, n)
    | Cont _ =>
        match z_loop (munge2_step vol dir nshort encoding) scan_bound 0 with
        | Brk (n, error) => (error, n)
        | Cont _ => (LOOP_EXHAUSTED, nshort)
        end
    end.

Definition create_dir_entry `{Encodings, Clock, Timer} (vol : nspace) (dir node : vnode) (name : cstring)
    : option (Z * nspace * vnode * Z * Z) :=
  if negb (is_filename_legal name) then Some (EINVAL, vol, dir, 0, 0)
  else
    match findfile_nocase vol dir name with
    | None => None
    | Some (error, vol, _, _) =>
        if error =? B_OK then Some (EEXIST, vol, dir, 0, 0)
        else if negb (error =? ENOENT) then Some (error, vol, dir, 0, 0)
        else
          let '(len, uni) := utf8_to_unicode name 512 in
          if len <=? 0 then Some (if len =? 0 then B_ERROR else len, vol, dir, 0, 0)
          else
            let nlong := take (Z.to_nat len) uni ++ repeat 0xff (Z.to_nat (512 - len)) in
            let '(error, nshort, encoding) := generate_short_name name (take (Z.to_nat len) uni) in
            if negb (error =? 0) then Some (error, vol, dir, 0, 0)
            else
              let '(error, nshort, len) :=
                if requires_long_name name nlong then
                  let '(error, nshort) := choose_short_name vol dir name nshort encoding in
                  (error, nshort, len)
                else (ENOENT, nshort, 0) in
              if negb (error =? ENOENT) then Some (error, vol, dir, 0, 0)
              else
                let info := EntryInfo (mode node) (cluster node) (u32 (st_size node)) (st_time node) in
                _create_dir_entry_ vol dir info nshort nlong len
    end.

(** ** The hooks of a directory *)

Definition S_IFREG : Z := 0x8000.
Definition S_IFDIR : Z := 0x4000.
Definition S_IWUSR : Z := 0x80.
Definition S_IWGRP : Z := 0x10.
Definition S_IWOTH : Z := 0x2.
Definition S_READ_ALL : Z := 0x124.    (* S_IRUSR | S_IRGRP | S_IROTH *)
Definition S_WRITE_ALL : Z := 0x92.    (* S_IWUSR | S_IWGRP | S_IWOTH *)
Definition S_EXEC_ALL : Z := 0x49.     (* S_IXUSR | S_IXGRP | S_IXOTH *)

Definition make_mode (vol : nspace) (node : vnode) : Z :=
  let result := Z.lor (Z.lor S_IFREG S_READ_ALL) S_WRITE_ALL in
  let result :=
    if flag (mode node) FAT_SUBDIR
    then Z.lor (Z.lor (Z.ldiff result S_IFREG) S_IFDIR) S_EXEC_ALL else result in
  if flag (ns_flags vol) B_FS_IS_READONLY || flag (mode node) FAT_READ_ONLY
  then Z.ldiff result S_WRITE_ALL else result.

Definition BEOS : cstring := [66; 69; 79; 83].
Definition IMAGE_BE : cstring := [73; 77; 65; 71; 69; 46; 66; 69].

(** The search for the entry at [loc] in its directory. *)
Definition locate_step `{Encodings} (vol : nspace) (loc : Z) (d : diri)
    : loop diri (option (Z * option (dirent_info * cstring))) :=
  match _next_dirent_ vol d 512 with
  | None => Brk None
  | Some (result, d, o) =>
      match o with
      | None => Brk (Some (result, None))
      | Some (info, filename) =>
          if result <? 0 then Brk (Some (result, None))
          else if IS_DIR_CLUSTER_VNID loc then
            if di_cluster info =? CLUSTER_OF_DIR_CLUSTER_VNID loc
            then Brk (Some (result, o)) else Cont d
          else if di_sindex info =? INDEX_OF_DIR_INDEX_VNID loc
          then Brk (Some (result, o)) else Brk (Some (ENOENT, None))
      end
  end.

(** The node the entry describes. *)
Definition node_of_entry `{Clock} (vol : nspace) (vnid dir_vnid disk_image : Z) (info : dirent_info)
    : vnode :=
  let csize := u32 (bytes_per_sector vol * sectors_per_cluster vol) in
  let size :=
    if flag (di_mode info) FAT_SUBDIR
    then u32 (count_clusters vol (di_cluster info) * sectors_per_cluster vol * bytes_per_sector vol)
    else di_size info in
  let end_cluster :=
    if negb (di_cluster info =? 0)
    then u32 (get_nth_fat_entry vol (i32 (di_cluster info))
                (u32 ((size + csize - 1) / bytes_per_sector vol / sectors_per_cluster vol - 1)))
    else 0 in
  Vnode vnid dir_vnid None None disk_image 0 (di_sindex info) (di_eindex info) (di_cluster info)
    (di_mode info) size (dos2time_t tzoffset (di_time info)) end_cluster None false.

(** [file_cache_create] and [file_map_create]: NULL without memory. *)
Definition file_cache_create (vol : nspace) (size : Z) : option Z * nspace :=
  let '(ok, vol) := malloc_ok vol in (if ok then Some size else None, vol).
Definition file_map_create := file_cache_create.

(** The status, the volume, and the node with its type. *)
Definition dosfs_read_vnode `{Encodings, Clock} (vol : nspace) (vnid : Z)
    : option (Z * nspace * option (vnode * Z)) :=
  if vnid =? Volume.vnid (root_vnode vol)
  then Some (B_OK, vol, Some (root_vnode vol, make_mode vol (root_vnode vol)))
  else
    let loc := match vcache_vnid_to_loc vol vnid with (_, Some loc) => loc | (_, None) => vnid end in
    if IS_ARTIFICIAL_VNID loc || IS_INVALID_VNID loc then Some (ENOENT, vol, None)
    else
      let dir_vnid := dlist_find vol (DIR_OF_VNID loc) in
      if dir_vnid =? -1 then Some (ENOENT, vol, None)
      else
        let index := if IS_DIR_CLUSTER_VNID loc then 0 else INDEX_OF_DIR_INDEX_VNID loc in
        match diri_init vol (DIR_OF_VNID loc) index no_diri with
        | (None, _) => Some (ENOENT, vol, None)
        | (Some _, d) =>
            match z_loop (locate_step vol loc) scan_bound d with
            | Cont _ => Some (LOOP_EXHAUSTED, vol, None)
            | Brk None => None
            | Brk (Some (result, None)) => Some (result, vol, None)
            | Brk (Some (result, Some (info, filename))) =>
                let '(ok, vol) := malloc_ok vol in
                if negb ok then Some (ENOMEM, vol, None)
                else
                  let is_beos := bool_decide (filename = BEOS)
                                 && (dir_vnid =? Volume.vnid (root_vnode vol)) in
                  let vol := if respect_disk_image vol && is_beos then set_beos_vnid vnid vol else vol in
                  let disk_image :=
                    if respect_disk_image vol then
                      if (dir_vnid =? beos_vnid vol) && bool_decide (filename = IMAGE_BE) then 2
                      else if is_beos then 1 else 0
                    else 0 in
                  let entry := node_of_entry vol vnid dir_vnid disk_image info in
                  let '(file_cache, vol) := file_cache_create vol (st_size entry) in
                  let '(map, vol) := file_map_create vol (st_size entry) in
                  let entry := set_file_map map (set_cache file_cache entry) in
                  let entry :=
                    if flag (mode entry) FAT_SUBDIR then entry else set_mime_type entry filename in
                  Some (result, vol, Some (entry, make_mode vol entry))
            end
        end.

Definition W_OK : Z := 2.

Definition dosfs_walk `{Encodings} (vol : nspace) (dir : vnode) (file : cstring) :=
  findfile_case vol dir file.

Definition dosfs_access (vol : nspace) (node : vnode) (mode : Z) : Z :=
  if flag mode W_OK then
    if flag (ns_flags vol) B_FS_IS_READONLY then EROFS
    else if flag (Volume.mode node) FAT_READ_ONLY then EPERM
    else if negb (disk_image node =? 0) then EPERM
    else B_OK
  else B_OK.

Definition dosfs_readlink : Z := EINVAL.

(** A directory cookie is the index of the next entry. *)
Definition dosfs_opendir (vol : nspace) (node : vnode) : Z * nspace * option Z :=
  if negb (flag (mode node) FAT_SUBDIR) then (ENOTDIR, vol, None)
  else
    let '(ok, vol) := malloc_ok vol in
    if negb ok then (ENOMEM, vol, None) else (B_OK, vol, Some 0).

(** [sizeof(struct dirent)] on x86. *)
Definition sizeof_dirent : Z := 28.

(** The status, the volume, the cookie, and the entry stored: its name, node id
    and length. *)
Definition dosfs_readdir `{Encodings} (vol : nspace) (dir : vnode) (current_index : Z) (bufsize : Z)
    : option (Z * nspace * Z * option (cstring * Z * Z)) :=
  let root := vnid dir =? vnid (root_vnode vol) in
  if root && negb (2 <=? current_index) then
    let '(name, reclen) :=
      if current_index =? 0 then (dot, sizeof_dirent + 1) else (dotdot, sizeof_dirent + 2) in
    Some (B_OK, vol, u32 (current_index + 1), Some (name, vnid (root_vnode vol), reclen))
  else
    let current_index := if root then current_index - 2 else current_index in
    match diri_init vol (cluster dir) current_index no_diri with
    | (None, _) => Some (B_OK, vol, current_index, None)
    | (Some _, d) =>
        match get_next_dirent vol dir d (i32 (bufsize - sizeof_dirent - 1)) with
        | None => None
        | Some (result, vol, d, o) =>
            let index := Iter.current_index d in
            let index := if root then u32 (index + 2) else index in
            if result =? B_OK then
              match o with
              | Some (name, v) =>
                  Some (result, vol, index, Some (name, v, sizeof_dirent + Z.of_nat (length name)))
              | None => Some (result, vol, index, None)
              end
            else if result =? ENOENT then Some (B_OK, vol, index, None)
            else Some (result, vol, index, None)
        end
    end.

Definition dosfs_rewinddir (_ : Z) : Z * Z := (B_OK, 0).
Definition dosfs_closedir : Z := 0.
Definition dosfs_free_dircookie : Z := 0.
