(* ===== verification/DirScan.v ===== *)
(** The scan of a directory as a walk over its entries: which entry
    [_next_dirent_] stops at, and what it has collected of a long name. *)
From stdpp Require Import base gmap list.
From Stdlib Require Import ZArith Lia.
From S2P Require Import Prelude Errors Volume Fat FatEntry FatIoctl FatTable FatChain Util Attr Iter Stream Dirent EntrySpec Dir.

Implicit Types vol : nspace.
Implicit Types d : diri.

(** ** Kinds of entries *)

Inductive entry_kind := Free_rest | Erased | Long_part | Short.
#[export] Instance entry_kind_eq_dec : EqDecision entry_kind.
Proof. solve_decision. Defined.

Definition kind (vol : nspace) (bl : list Z) (i : Z) : entry_kind :=
  if dirent vol bl i 0 =? 0 then Free_rest
  else if dirent vol bl i 0 =? 0xe5 then Erased
  else if dirent vol bl i 0xb =? 0xf then Long_part
  else Short.

(** What an entry before the short name does to the long name collected. *)
Definition lfn_trans (vol : nspace) (bl : list Z) (i : Z) (l : lfn) : option lfn :=
  match dirent_ptr vol bl i with
  | None => Some l
  | Some p => if ent_get vol p 0 =? 0xe5 then Some (drop_lfn l) else lfn_entry vol p i l
  end.

Fixpoint lfn_run (vol : nspace) (bl : list Z) (i : Z) (k : nat) (l : lfn) : option lfn :=
  match k with
  | O => Some l
  | S k => l' ← lfn_trans vol bl i l; lfn_run vol bl (i + 1) k l'
  end.

Lemma lfn_run_add vol bl i k k' l :
  lfn_run vol bl i (k + k') l = l' ← lfn_run vol bl i k l; lfn_run vol bl (i + Z.of_nat k) k' l'.
Proof.
  revert i l. induction k as [|k IH]; intros i l; simpl.
  - change (Z.of_nat 0) with 0. by rewrite Z.add_0_r.
  - destruct (lfn_trans vol bl i l) as [l'|]; simpl; [|done]. rewrite IH.
    by replace (i + 1 + Z.of_nat k) with (i + Z.of_nat (S k)) by lia.
Qed.

Section Scan.
Context (vol : nspace) (Hlo : layout_ok vol) (start : Z) (bl : list Z) (Hd : directory vol start bl).

Let n := dir_entries vol bl.

(** The iterator at entry [i], or past the end. *)
Definition at_pos (i : Z) (d : diri) : Prop :=
  0 <= i <= n /\ if i <? n then at_dirent vol start bl i d else current_block d = None /\ current_index d = i.

Lemma block_of_index i : 0 <= i -> (i / entries_per_sector vol <? Z.of_nat (length bl)) = (i <? n).
Proof using Hlo.
  intros Hi. destruct (eps_pos vol Hlo) as [He _]. unfold n, dir_entries.
  destruct (Z.ltb_spec i (Z.of_nat (length bl) * entries_per_sector vol)) as [H|H].
  - apply Z.ltb_lt. apply Z.div_lt_upper_bound; lia.
  - apply Z.ltb_ge. apply Z.div_le_lower_bound; lia.
Qed.

Lemma n_small : 0 < n < 2 ^ 31.
Proof using Hlo Hd.
  destruct Hd as [_ _ H3 _ H5]. destruct (eps_pos vol Hlo) as [He _]. unfold n, dir_entries. nia.
Qed.

Lemma init_at_pos i d :
  0 <= i < n -> let '(p, d') := diri_init vol start i d in p = dirent_ptr vol bl i /\ at_pos i d'.
Proof using Hlo Hd.
  intros Hi. pose proof n_small. pose proof (diri_init_spec vol Hlo start bl i d (dr_stream _ _ _ Hd) (dr_read _ _ _ Hd)
    ltac:(lia) (dr_start _ _ _ Hd) (dr_len _ _ _ Hd)) as H1.
  destruct (diri_init vol start i d) as [p d']. rewrite block_of_index in H1 by lia.
  unfold at_pos. destruct (Z.ltb_spec i n); [|lia]. split_and!; try lia; apply H1.
Qed.

Lemma next_entry_index d :
  is_Some (current_block d) -> current_index (snd (diri_next_entry vol d)) = u32 (current_index d + 1).
Proof using.
  intros [b Hb]. unfold diri_next_entry. rewrite Hb. cbn [current_index set_di_index].
  destruct (_ =? 0); [|done]. destruct (iter_csi vol _ 1) as [ret c]. by destruct (negb _).
Qed.

Lemma next_at_pos i d :
  i < n -> at_pos i d ->
  let '(p, d') := diri_next_entry vol d in p = dirent_ptr vol bl (i + 1) /\ at_pos (i + 1) d'.
Proof using Hlo Hd.
  intros Hi [Hr Hat]. rewrite (proj2 (Z.ltb_lt i n) Hi) in Hat. pose proof n_small.
  pose proof (diri_next_spec vol Hlo start bl i d (dr_read _ _ _ Hd) Hat ltac:(lia)) as H1.
  assert (Hci : current_index (snd (diri_next_entry vol d)) = i + 1).
  { destruct Hat as (c & b & _ & _ & -> & _). rewrite next_entry_index by by eexists. apply u32_small. simpl. lia. }
  destruct (diri_next_entry vol d) as [p d']. rewrite block_of_index in H1 by lia. destruct H1 as [H1 H2].
  unfold at_pos. split; [done|]. split; [lia|]. by destruct (_ <? _).
Qed.

(** The position an iterator shows. *)
Lemma at_pos_current i d : at_pos i d -> current_index d = i.
Proof using.
  intros [_ Hat]. destruct (_ <? _); [|apply Hat]. by destruct Hat as (c & b & _ & _ & -> & _).
Qed.

Lemma at_pos_index i d : i < n -> at_pos i d ->
  current_index d = i /\ diri_ptr vol d = dirent_ptr vol bl i /\ starting_cluster d = start /\
  is_Some (current_block d).
Proof using.
  intros Hi [Hr Hat]. rewrite (proj2 (Z.ltb_lt i n) Hi) in Hat.
  split_and!; [|by eapply at_dirent_ptr| |]; by destruct Hat as (c & b & _ & _ & -> & _).
Qed.

Lemma dirent_ptr_get i p k : dirent_ptr vol bl i = Some p -> dirent vol bl i k = ent_get vol p k.
Proof using. intros E. unfold dirent. by rewrite E. Qed.

(** From entry [i] to entry [j], over erased entries and parts of long names. *)
Lemma scan_run (k : nat) i d l l' (bound : Z) :
  at_pos i d -> i + Z.of_nat k <= n -> Z.of_nat k < bound ->
  (forall t, i <= t < i + Z.of_nat k -> kind vol bl t = Erased \/ kind vol bl t = Long_part) ->
  lfn_run vol bl i k l = Some l' ->
  exists d', at_pos (i + Z.of_nat k) d' /\
    z_loop (scan_step vol) bound (dirent_ptr vol bl i, d, l)
    = z_loop (scan_step vol) (bound - Z.of_nat k) (dirent_ptr vol bl (i + Z.of_nat k), d', l').
Proof using Hlo Hd.
  revert i d l bound. induction k as [|k IH]; intros i d l bound Hat Hn Hb Hk Hr.
  - simpl in Hr. injection Hr as ->. exists d. by rewrite Z.add_0_r, Z.sub_0_r.
  - simpl in Hr. destruct (lfn_trans vol bl i l) as [l1|] eqn:E1; [|done]. simpl in Hr.
    destruct (dirent_ptr_some vol Hlo start bl Hd i) as (p & Hp & _); [destruct Hat; unfold n in *; lia|].
    pose proof (next_at_pos i d ltac:(lia) Hat) as Hnext.
    destruct (at_pos_index i d ltac:(lia) Hat) as (Hci & _).
    destruct (diri_next_entry vol d) as [p1 d1] eqn:En. destruct Hnext as [-> Hat1].
    destruct (IH (i + 1) d1 l1 (bound - 1)) as (d' & Hat' & E); [done|lia|lia|intros; apply Hk; lia|done|].
    exists d'. replace (i + 1 + Z.of_nat k) with (i + Z.of_nat (S k)) in * by lia. split; [done|].
    rewrite z_loop_step by lia. rewrite Hp. simpl.
    specialize (Hk i ltac:(lia)). unfold kind in Hk. rewrite !(dirent_ptr_get i p) in Hk by done.
    unfold lfn_trans in E1. rewrite Hp in E1.
    destruct (ent_get vol p 0 =? 0); [by destruct Hk|].
    assert (Ebn : bound - Z.of_nat (S k) = bound - 1 - Z.of_nat k) by lia. rewrite Ebn, <-E. clear E Ebn IH.
    destruct (ent_get vol p 0 =? 229).
    + injection E1 as <-. unfold scan_next. by rewrite En.
    + destruct (ent_get vol p 11 =? 15); [|by destruct Hk]. rewrite Hci, E1. unfold scan_next. by rewrite En.
Qed.

(** The entry a scan from [i] on stops at. *)
Definition stops_at (i j : Z) : Prop :=
  i <= j <= n /\ (forall t, i <= t < j -> kind vol bl t = Erased \/ kind vol bl t = Long_part) /\
  (j = n \/ kind vol bl j = Free_rest \/ kind vol bl j = Short).

Lemma stops_somewhere i : i <= n -> exists j, stops_at i j.
Proof using.
  intros Hi. remember (Z.to_nat (n - i)) as k eqn:Ek. revert i Hi Ek.
  induction k as [|k IH]; intros i Hi Ek.
  - exists n. split; [lia|]. split; [intros; lia|auto].
  - destruct (kind vol bl i) eqn:E.
    1, 4: exists i; split; [lia|]; split; [intros; lia|auto].
    all: destruct (IH (i + 1) ltac:(lia) ltac:(lia)) as (j & Hj & Hm & Hs); exists j; split; [lia|];
      split; [|done]; intros t Ht; destruct (decide (t = i)) as [->|]; [auto|apply Hm; lia].
Qed.

Section Call.
Context `{Encodings} (len : Z) (Hlen : 15 <= len).
Context (i j : Z) (d : diri) (l : lfn).
Context (Hat : at_pos i d) (Hi : i < n) (Hst : stops_at i j).
Context (Hrun : lfn_run vol bl i (Z.to_nat (j - i)) no_lfn = Some l).

Lemma next_dirent_exit :
  exists d', at_pos j d' /\
    _next_dirent_ vol d len =
    match z_loop (scan_step vol) (scan_bound - (j - i)) (dirent_ptr vol bl j, d', l) with
    | Brk (Scan_end d) => Some (ENOENT, d, None)
    | Brk (Scan_entry p d l) => Some (scan_finish vol p d l len)
    | Brk Scan_stray => None
    | Cont (_, d, _) => Some (LOOP_EXHAUSTED, d, None)
    end.
Proof using Hlo Hd Hlen Hat Hi Hst Hrun.
  destruct (at_pos_index i d Hi Hat) as (Hci & Hp & _ & [b Hb]). pose proof n_small.
  destruct Hst as (Hij & Hm & _). assert (0 <= i) by (destruct Hat; lia).
  destruct (scan_run (Z.to_nat (j - i)) i d no_lfn l scan_bound Hat) as (d' & Hat' & E).
  - lia.
  - unfold scan_bound. lia.
  - intros t Ht. apply Hm. lia.
  - done.
  - rewrite Z2Nat.id in * by lia. replace (i + (j - i)) with j in * by lia.
    exists d'. split; [done|]. unfold _next_dirent_. rewrite Hb, (proj2 (Z.ltb_ge len 15)), Hp by lia.
    by rewrite E.
Qed.

Lemma bound_left : 0 < scan_bound - (j - i).
Proof using Hlo Hd Hat Hst. pose proof n_small. destruct Hst. destruct Hat. unfold scan_bound. lia. Qed.

Lemma next_dirent_end :
  j = n \/ kind vol bl j = Free_rest ->
  exists d', _next_dirent_ vol d len = Some (ENOENT, d', None) /\ at_pos j d'.
Proof using Hlo Hd Hlen Hat Hi Hst Hrun.
  intros Hj. destruct next_dirent_exit as (d' & Hat' & ->). exists d'.
  rewrite z_loop_step by apply bound_left. split; [|done].
  destruct (dirent_ptr vol bl j) as [p|] eqn:Hp; [|done].
  assert (kind vol bl j = Free_rest) as Hk.
  { destruct Hj as [->|]; [|done]. by rewrite (dirent_ptr_none vol Hlo bl n) in Hp. }
  unfold kind in Hk. rewrite !(dirent_ptr_get j p) in Hk by done. simpl.
  repeat case_match; done.
Qed.

Lemma next_dirent_short :
  kind vol bl j = Short -> j < n ->
  exists p d', dirent_ptr vol bl j = Some p /\ at_pos j d' /\
    _next_dirent_ vol d len = Some (scan_finish vol p d' l len).
Proof using Hlo Hd Hlen Hat Hi Hst Hrun.
  intros Hk Hjn. destruct next_dirent_exit as (d' & Hat' & ->).
  destruct (dirent_ptr_some vol Hlo start bl Hd j) as (p & Hp & _); [destruct Hat'; unfold n in *; lia|].
  exists p, d'. split; [done|]. split; [done|]. rewrite z_loop_step, Hp by apply bound_left.
  unfold kind in Hk. rewrite !(dirent_ptr_get j p) in Hk by done. simpl.
  repeat case_match; done.
Qed.
End Call.

(** ** Long names that can be collected *)

(** The last part of a long name has a number other than 0: its characters
    would go to before the array. *)
Definition lfn_sane (t : Z) : Prop :=
  kind vol bl t = Long_part -> Z.land (dirent vol bl t 0) 0x40 <> 0 -> Z.land (dirent vol bl t 0) 0x1f <> 0.

(** The long name collected from entry [i] on begins at or behind it. *)
Definition lfn_from (i t : Z) (l : lfn) : Prop :=
  start_index l = 0xffff \/ (i <= start_index l < t).

Lemma lfn_trans_from i t l :
  i <= t -> (kind vol bl t = Erased \/ kind vol bl t = Long_part) -> lfn_sane t -> lfn_from i t l ->
  exists l', lfn_trans vol bl t l = Some l' /\ lfn_from i (t + 1) l'.
Proof using.
  intros Ht Hk Hsane Hl. unfold lfn_trans. destruct (dirent_ptr vol bl t) as [p|] eqn:Hp.
  2: { exists l. split; [done|]. destruct Hl; [by left|right; lia]. }
  unfold lfn_sane, kind in *. rewrite !(dirent_ptr_get t p) in * by done.
  destruct (ent_get vol p 0 =? 0); [by destruct Hk|].
  destruct (ent_get vol p 0 =? 229); [exists (drop_lfn l); split; [done|by left]|].
  destruct (ent_get vol p 11 =? 15); [|by destruct Hk]. specialize (Hsane eq_refl).
  assert (Hl' : lfn_from i (t + 1) l) by (destruct Hl; [by left|right; lia]).
  unfold lfn_entry. destruct (_ || _); [by exists l|].
  destruct (Z.eqb_spec (start_index l) 0xffff) as [E|E].
  - unfold lfn_begin. destruct (Z.eqb_spec (Z.land (ent_get vol p 0) 64) 0) as [|Hm]; [by exists l|].
    rewrite (proj2 (Z.eqb_neq _ 0) (Hsane Hm)). destruct (lfn_tail _ _ _ _ _ _) as [pos uni].
    eexists. split; [done|]. right. simpl. lia.
  - eexists. split; [done|]. unfold lfn_continue. destruct (negb _); [by left|].
    destruct (negb _); [by left|]. destruct (lfn_part _ _ _ _ _ _) as [[] uni]; [|by left].
    destruct Hl' as [Hx|Hx]; [by left|by right].
Qed.

Lemma lfn_run_from i t (k : nat) l :
  i <= t -> (forall x, t <= x < t + Z.of_nat k -> kind vol bl x = Erased \/ kind vol bl x = Long_part) ->
  (forall x, t <= x < t + Z.of_nat k -> lfn_sane x) -> lfn_from i t l ->
  exists l', lfn_run vol bl t k l = Some l' /\ lfn_from i (t + Z.of_nat k) l'.
Proof using.
  revert t l. induction k as [|k IH]; intros t l Ht Hk Hs Hl.
  - exists l. rewrite Z.add_0_r. done.
  - destruct (lfn_trans_from i t l Ht (Hk t ltac:(lia)) (Hs t ltac:(lia)) Hl) as (l1 & E & Hl1).
    destruct (IH (t + 1) l1) as (l' & E' & Hl'); [lia|intros; apply Hk; lia|intros; apply Hs; lia|done|].
    exists l'. simpl. rewrite E. simpl. split; [done|].
    by replace (t + Z.of_nat (S k)) with (t + 1 + Z.of_nat k) by lia.
Qed.

(** What the call reports of the entry with the short name. *)
Record info_of (i j : Z) (info : dirent_info) : Prop := {
  io_sindex : i <= di_sindex info <= j;
  io_eindex : di_eindex info = j;
  io_mode : di_mode info = dirent_mode vol bl j;
  io_cluster : di_cluster info = dirent_cluster vol bl j;
  io_size : di_size info = dirent_size vol bl j;
  io_time : di_time info = dirent_time vol bl j
}.

(** The name an entry has without a long name. *)
Definition short_name_of `{Encodings} (j len : Z) : cstring :=
  msdos_to_utf8 (map (dirent vol bl j) (seqZ 0 11)) len (flag (dirent vol bl j 0xc) 0x18).

Lemma scan_finish_spec `{Encodings} i j p d l len :
  0 <= i -> i <= j < n -> dirent_ptr vol bl j = Some p -> at_pos j d -> lfn_from i j l ->
  (exists d' s, scan_finish vol p d l len = (ENAMETOOLONG, d', None) /\ i <= s < j /\ at_pos s d') \/
  (exists d' info name, scan_finish vol p d l len = (B_OK, d', Some (info, name)) /\
     info_of i j info /\ at_pos (j + 1) d' /\ (di_sindex info = j -> name = short_name_of j len)).
Proof using Hlo Hd.
  intros Hi Hj Hp Hat Hl. destruct (at_pos_index j d ltac:(lia) Hat) as (Hci & _ & Hsc & _).
  pose proof (next_at_pos j d ltac:(lia) Hat) as Hnext.
  assert (G : forall k, dirent vol bl j k = ent_get vol p k) by (intros; by apply dirent_ptr_get).
  assert (Hshort : msdos_to_utf8 (ent_bytes vol p 0 11) len (flag (ent_get vol p 0xc) 0x18) = short_name_of j len).
  { unfold short_name_of, ent_bytes. rewrite G. f_equal. apply map_ext. intros k. by rewrite G. }
  assert (Hinfo : forall s name, i <= s <= j -> (s = j -> name = short_name_of j len) ->
    exists d' info name', (B_OK, snd (diri_next_entry vol d),
      Some (DirentInfo s (current_index d) (ent_get vol p 0xb)
        (ent_read16 vol p 0x1a + if fat_bits vol =? 32 then 0x10000 * ent_read16 vol p 0x14 else 0)
        (ent_read32 vol p 0x1c) (ent_read32 vol p 0x16), name : cstring)) = (B_OK, d', Some (info, name')) /\
    info_of i j info /\ at_pos (j + 1) d' /\ (di_sindex info = j -> name' = short_name_of j len)).
  { intros s name Hs Hname. eexists _, _, _. split; [done|]. destruct (diri_next_entry vol d) as [q d'].
    destruct Hnext as [_ Hat']. split; [|done].
    split; cbn [di_sindex di_eindex di_mode di_cluster di_size di_time]; [lia|done|..];
      unfold dirent_mode, dirent_cluster, dirent_size, dirent_time, dirent16, dirent32;
      rewrite !G; reflexivity. }
  unfold scan_finish. cbv zeta. destruct (Z.eqb_spec (start_index l) 0xffff) as [E|E]; cbn [negb].
  { change (B_OK <? 0) with false. cbv iota. rewrite E, Z.eqb_refl. right. apply Hinfo; [lia|done]. }
  destruct Hl as [Hl|Hl]; [done|].
  destruct (negb (lfn_count l =? 1)).
  { change (B_OK <? 0) with false. cbv iota. cbn [start_index drop_lfn]. rewrite Z.eqb_refl.
    right. apply Hinfo; [lia|done]. }
  destruct (unicode_to_utf8 _ len) as [r name]. destruct (negb (r =? 0)).
  - left. change (ENAMETOOLONG <? 0) with true. cbv iota. rewrite Hsc.
    pose proof (init_at_pos (start_index l) (diri_free d) ltac:(lia)) as Hinit.
    destruct (diri_init vol start (start_index l) (diri_free d)) as [q d'].
    exists d', (start_index l). by destruct Hinit.
  - right. destruct (negb (_ =? _)); change (B_OK <? 0) with false; cbv iota.
    + cbn [start_index drop_lfn]. rewrite Z.eqb_refl. apply Hinfo; [lia|done].
    + rewrite (proj2 (Z.eqb_neq _ _) E). apply Hinfo; lia.
Qed.

(** The outcomes of the call at entry [i]. *)
Lemma next_dirent_cases `{Encodings} i d len :
  at_pos i d -> 0 <= i < n -> 15 <= len -> (forall t, i <= t < n -> lfn_sane t) ->
  exists j, stops_at i j /\
    ((j = n \/ kind vol bl j = Free_rest) /\
     (exists d', _next_dirent_ vol d len = Some (ENOENT, d', None) /\ at_pos j d') \/
     (kind vol bl j = Short /\ j < n) /\
     ((exists d' s, _next_dirent_ vol d len = Some (ENAMETOOLONG, d', None) /\ i <= s < j /\ at_pos s d') \/
      (exists d' info name, _next_dirent_ vol d len = Some (B_OK, d', Some (info, name)) /\
         info_of i j info /\ at_pos (j + 1) d' /\ (di_sindex info = j -> name = short_name_of j len)))).
Proof using Hlo Hd.
  intros Hat Hi Hlen Hsane. destruct (stops_somewhere i ltac:(lia)) as (j & Hst). exists j. split; [done|].
  pose proof Hst as (Hij & Hm & Hstop).
  destruct (lfn_run_from i i (Z.to_nat (j - i)) no_lfn) as (l & Hrun & Hl); [lia|..].
  { intros x Hx. apply Hm. lia. }
  { intros x Hx. apply Hsane. lia. }
  { by left. }
  replace (i + Z.of_nat (Z.to_nat (j - i))) with j in Hl by lia.
  destruct Hstop as [Hj|[Hj|Hj]].
  - left. split; [auto|]. apply (next_dirent_end len Hlen i j d l); auto. lia.
  - left. split; [auto|]. apply (next_dirent_end len Hlen i j d l); auto. lia.
  - destruct (Z.eq_dec j n) as [->|Hne].
    { left. split; [auto|]. apply (next_dirent_end len Hlen i n d l); auto. lia. }
    right. split; [split; [done|lia]|].
    destruct (next_dirent_short len Hlen i j d l) as (p & d1 & Hp & Hat1 & E); auto; try lia.
    destruct (scan_finish_spec i j p d1 l len) as [(d' & s & E' & Hs & Hat')|(d' & info & name & E' & Hr)];
      auto; try lia.
    + left. exists d', s. by rewrite E, E'.
    + right. exists d', info, name. by rewrite E, E'.
Qed.
End Scan.

(** ** Writing directories: sequences of stores into the entries of one directory *)

Implicit Types v : nspace.

(** [dir_is vol start bl f v]: [v] is [vol] with a directory whose byte [k] of
    entry [j] is [f j k]; nothing but blocks of the directory has changed. *)
Record dir_is (vol : nspace) (start : Z) (bl : list Z) (f : Z -> Z -> Z) (v : nspace) : Prop := {
  dw_layout : layout_ok v;
  dw_dir : directory v start bl;
  dw_table : same_table vol v;
  dw_bytes : forall j k, 0 <= j -> 0 <= k < 32 -> dirent v bl j k = f j k;
  dw_frame : exists c, v = set_fBlockCache c vol /\ forall s, s ∉ bl -> c !! s = fBlockCache vol !! s
}.

Definition entry_upd (f : Z -> Z -> Z) (i : Z) (g : Z -> Z -> Z) : Z -> Z -> Z :=
  fun j k => if j =? i then g k (f i k) else f j k.

Lemma dir_is_refl vol start bl :
  layout_ok vol -> directory vol start bl -> dir_is vol start bl (dirent vol bl) vol.
Proof. intros Hlo Hd. split; try done. exists (fBlockCache vol). split; [by destruct vol|done]. Qed.

Lemma dir_is_ext vol start bl f g v :
  (forall j k, 0 <= j -> 0 <= k < 32 -> f j k = g j k) ->
  dir_is vol start bl f v -> dir_is vol start bl g v.
Proof. intros H [H1 H2 H3 H4 H5]. split; try done. intros. rewrite H4, H; done. Qed.

Lemma dir_is_trans vol start bl f v g w :
  dir_is vol start bl f v -> dir_is v start bl g w -> dir_is vol start bl g w.
Proof.
  intros [H1 H2 H3 H4 (c & -> & H5)] [K1 K2 K3 K4 (c' & -> & K5)].
  split; try done; [by transitivity (set_fBlockCache c vol)|].
  exists c'. split; [done|]. intros s Hs. rewrite K5 by done. by apply H5.
Qed.

Lemma dir_is_bpb vol start bl f v : dir_is vol start bl f v -> ns_bpb v = ns_bpb vol.
Proof. intros H. apply (dw_table _ _ _ _ _ H). Qed.

Lemma dir_is_store vol start bl f v i p g :
  dir_is vol start bl f v -> 0 <= i < dir_entries vol bl -> dirent_ptr vol bl i = Some p ->
  (forall k x, 0 <= k < 32 -> is_byte x -> is_byte (g k x)) ->
  dir_is vol start bl (entry_upd f i g) (ent_map p g v).
Proof.
  intros H Hi Hp Hg. pose proof (dir_is_bpb _ _ _ _ _ H) as Eb.
  assert (Hi' : 0 <= i < dir_entries v bl) by (by rewrite Eb).
  assert (Hp' : dirent_ptr v bl i = Some p) by (unfold dirent_ptr in *; by rewrite Eb).
  destruct H as [Hlo Hd Hst Hb (c & Ev & Hc)].
  destruct (directory_store v Hlo start bl Hd i p g Hi' Hp' Hg) as (Hlo' & Hd' & Hst' & Hb').
  split; try done.
  - by transitivity v.
  - intros j k Hj Hk. rewrite Hb' by done. unfold entry_upd. rewrite !Hb by lia. done.
  - destruct (dirent_ptr_some v Hlo start bl Hd i Hi') as (q & Hq & _ & Hin).
    rewrite Hp' in Hq. injection Hq as <-. subst v. eexists. split; [by unfold ent_map, block_update|].
    intros s Hs. simpl. rewrite lookup_alter_ne by (by intros <-). by apply Hc.
Qed.

Lemma at_block_same vol v start bl j c :
  same_table vol v -> at_block vol start bl j c -> at_block v start bl j c.
Proof.
  intros Hst Hat. pose proof Hst as [Eb _]. destruct Hat as [j Hb -> Hj|l e j c Ht Hj Hc].
  - rewrite <-Eb. apply at_root; [by rewrite Eb|done|by rewrite Eb].
  - rewrite <-Eb. eapply at_chain; [by eapply terminated_same|done|by rewrite Eb].
Qed.

Lemma at_pos_same vol v start bl i d :
  same_table vol v -> at_pos vol start bl i d -> at_pos v start bl i d.
Proof.
  intros Hst [Hi Hat]. pose proof Hst as [Eb _]. unfold at_pos. rewrite Eb. split; [done|].
  destruct (_ <? _); [|done]. destruct Hat as (c & b & Hc & Hb & -> & Hs).
  exists c, b. rewrite Eb. split_and!; try done; [by eapply at_block_same|lia|lia].
Qed.

(** ** Erasing *)

Section Erase.
Context (vol : nspace) (start : Z) (bl : list Z).

Definition mark (first last : Z) (f : Z -> Z -> Z) : Z -> Z -> Z :=
  fun j k => if (first <=? j) && (j <=? last) && (k =? 0) then 0xe5 else f j k.

Lemma erase_loop (m : nat) last i f v d bound :
  dir_is vol start bl f v -> at_pos v start bl i d -> last < dir_entries vol bl -> i <= last + 1 ->
  Z.of_nat m = last + 1 - i -> Z.of_nat m < bound ->
  exists w, z_loop (erase_step last) bound (dirent_ptr vol bl i, d, i, v) = Brk w /\
    dir_is vol start bl (mark i last f) w.
Proof.
  revert i f v d bound. induction m as [|m IH]; intros i f v d bound Hv Hat Hlast Hi Hm Hb.
  - exists v. rewrite z_loop_step by lia. split.
    + unfold erase_step. destruct (dirent_ptr vol bl i); [|done].
      by rewrite (proj2 (Z.ltb_lt last i)) by lia.
    + apply (dir_is_ext _ _ _ f); [|done]. intros j k Hj Hk. unfold mark.
      destruct (Z.leb_spec i j), (Z.leb_spec j last); simpl; done || lia.
  - pose proof (dir_is_bpb _ _ _ _ _ Hv) as Eb. pose proof Hat as [Hr _].
    pose proof Hv as [Hlo Hd _ _ _]. assert (Hin : 0 <= i < dir_entries v bl) by (rewrite Eb; lia).
    destruct (dirent_ptr_some v Hlo start bl Hd i Hin) as (p & Hp & Hpo & _).
    assert (Hp' : dirent_ptr vol bl i = Some p) by (unfold dirent_ptr in *; by rewrite <-Eb).
    rewrite z_loop_step, Hp' by lia. unfold erase_step at 1.
    rewrite (proj2 (Z.ltb_ge last i)) by lia.
    rewrite ent_set_map by (lia || apply Hpo).
    set (g := fun k x => if k =? 0 then u8 0xe5 else x).
    assert (Hg : forall k x, 0 <= k < 32 -> is_byte x -> is_byte (g k x)).
    { intros k x _ Hx. unfold g. destruct (k =? 0); [apply u8_range|done]. }
    pose proof (dir_is_store vol start bl f v i p g Hv ltac:(lia) Hp' Hg) as Hw.
    pose proof (dir_is_bpb _ _ _ _ _ Hw) as Ebw.
    assert (Hatw : at_pos (ent_map p g v) start bl i d).
    { eapply at_pos_same; [|exact Hat]. destruct (dw_table _ _ _ _ _ Hv) as [E1 T1], (dw_table _ _ _ _ _ Hw) as [E2 T2].
      split; [done|]. intros c Hc. unfold data_cluster in *. rewrite T2, T1 by (by rewrite <-E1). done. }
    pose proof (next_at_pos _ (dw_layout _ _ _ _ _ Hw) start bl (dw_dir _ _ _ _ _ Hw) i d
      ltac:(rewrite Ebw; lia) Hatw) as Hnext.
    destruct (diri_next_entry (ent_map p g v) d) as [q d']. destruct Hnext as [-> Hat'].
    pose proof (n_small _ (dw_layout _ _ _ _ _ Hw) start bl (dw_dir _ _ _ _ _ Hw)) as Hsmall. rewrite Ebw in Hsmall.
    rewrite u32_small by lia.
    destruct (IH (i + 1) (entry_upd f i g) (ent_map p g v) d' (bound - 1) Hw Hat') as (w & E & Hw'); try lia.
    exists w. split.
    + rewrite <-E. do 4 f_equal. unfold dirent_ptr. by rewrite Ebw.
    + apply (dir_is_ext _ _ _ (mark (i + 1) last (entry_upd f i g))); [|done].
      intros j k Hj Hk. unfold mark, entry_upd, g.
      destruct (Z.leb_spec (i + 1) j), (Z.leb_spec i j), (Z.leb_spec j last), (Z.eqb_spec j i),
        (Z.eqb_spec k 0); simpl; subst; done || lia.
Qed.
End Erase.
