(* ===== verification/LongName.v ===== *)
(** Long names on the disk: the entries [_create_dir_entry_] writes for a name
    and what the scan collects from them. *)
From stdpp Require Import base gmap list.
From Stdlib Require Import ZArith Lia.
From S2P Require Import Prelude Errors Volume Fat FatEntry FatIoctl FatTable FatChain Util Attr Iter Stream Dirent EntrySpec Dir DirScan.

Implicit Types vol v : nspace.
Implicit Types p : ptr.

(** ** The characters of one entry *)

(** Where the thirteen characters of a long name entry are. *)
Definition lfn_offsets : list Z := [1; 3; 5; 7; 9; 14; 16; 18; 20; 22; 24; 28; 30].
Definition lfn_off (t : nat) : Z := nth t lfn_offsets 32.

Lemma lfn_off_next t : (t < 13)%nat -> lfn_char_next (lfn_off t) = lfn_off (S t) /\ 0 <= lfn_off t < 31.
Proof. intros Ht. do 13 (destruct t as [|t]; [split; [reflexivity|cbv; split; [discriminate|reflexivity]]|]). lia. Qed.

Definition lfn_char (vol : nspace) (p : ptr) (t : nat) : list Z :=
  [ent_get vol p (lfn_off t); ent_get vol p (lfn_off t + 1)].
Definition lfn_chars (vol : nspace) (p : ptr) (t m : nat) : list Z := concat (map (lfn_char vol p) (seq t m)).

Lemma lfn_chars_length vol p t m : length (lfn_chars vol p t m) = (2 * m)%nat.
Proof.
  unfold lfn_chars. revert t. induction m as [|m IH]; intros t; [done|].
  cbn [seq map concat]. rewrite length_app, IH. simpl. lia.
Qed.

Definition end_char (vol : nspace) (p : ptr) (t : nat) : Prop := lfn_char vol p t = [0xff; 0xff].

Lemma put_char_inserts vol p t pos uni :
  0 <= pos -> put_char vol p (lfn_off t) pos uni = list_inserts (Z.to_nat pos) (lfn_char vol p t) uni.
Proof.
  intros Hp. unfold put_char, lfn_char. simpl. rewrite Z2Nat.inj_add by lia.
  replace (Z.to_nat pos + Z.to_nat 1)%nat with (S (Z.to_nat pos)) by lia.
  by rewrite list_insert_insert_ne by lia.
Qed.

Lemma lfn_part_spec vol p r t fuel pos uni :
  (t + r = 13)%nat -> (r < fuel)%nat -> 0 <= pos ->
  (forall s, (t <= s < 13)%nat -> ~ end_char vol p s) ->
  lfn_part fuel vol p (lfn_off t) pos uni
  = (true, list_inserts (Z.to_nat pos) (lfn_chars vol p t r) uni).
Proof.
  revert t fuel pos uni. induction r as [|r IH]; intros t fuel pos uni Ht Hf Hp Hne.
  - replace t with 13%nat by lia. destruct fuel; [lia|done].
  - destruct fuel as [|fuel]; [lia|]. destruct (lfn_off_next t ltac:(lia)) as [En Er].
    cbn [lfn_part]. rewrite (proj2 (Z.ltb_lt (lfn_off t) 32)) by lia. cbn [negb].
    assert (Hc : (ent_get vol p (lfn_off t) =? 255) && (ent_get vol p (lfn_off t + 1) =? 255) = false).
    { specialize (Hne t ltac:(lia)). unfold end_char, lfn_char in Hne. apply not_true_iff_false.
      rewrite andb_true_iff, !Z.eqb_eq. intros [E1 E2]. apply Hne. by rewrite E1, E2. }
    rewrite Hc, En, (IH (S t)) by (lia || (intros; apply Hne; lia)).
    f_equal. rewrite put_char_inserts by lia. unfold lfn_chars. cbn [seq map concat].
    rewrite list_inserts_app_l. f_equal. simpl. lia.
Qed.

Lemma lfn_tail_spec vol p m t fuel pos uni :
  (t + m <= 13)%nat -> (m < fuel)%nat -> 0 <= pos -> blocks_ok vol ->
  (forall s, (t <= s < t + m)%nat -> ~ end_char vol p s) ->
  (t + m = 13)%nat \/ end_char vol p (t + m) ->
  lfn_tail fuel vol p (lfn_off t) pos uni
  = (pos + 2 * Z.of_nat m, list_inserts (Z.to_nat pos) (lfn_chars vol p t m) uni).
Proof.
  intros Ht Hf Hp Hbl. revert t fuel pos uni Ht Hf Hp. induction m as [|m IH]; intros t fuel pos uni Ht Hf Hp Hne He.
  - destruct fuel as [|fuel]; [lia|]. cbn [lfn_tail].
    assert (Hstop : negb (lfn_off t <? 32) || (ent_read16 vol p (lfn_off t) =? 65535) = true).
    { destruct He as [He|He].
      - rewrite Nat.add_0_r in He. by subst.
      - rewrite Nat.add_0_r in He. unfold end_char, lfn_char in He. injection He as E1 E2.
        unfold ent_read16. by rewrite E1, E2, orb_true_r. }
    rewrite Hstop. simpl. f_equal. lia.
  - destruct fuel as [|fuel]; [lia|]. destruct (lfn_off_next t ltac:(lia)) as [En Er].
    cbn [lfn_tail]. rewrite (proj2 (Z.ltb_lt (lfn_off t) 32)) by lia. cbn [negb orb].
    assert (Hc : ent_read16 vol p (lfn_off t) =? 65535 = false).
    { specialize (Hne t ltac:(lia)). unfold end_char, lfn_char in Hne. apply Z.eqb_neq. unfold ent_read16, ent_get.
      pose proof (peek_byte vol (p_block p) (p_off p + lfn_off t) Hbl) as B1.
      pose proof (peek_byte vol (p_block p) (p_off p + (lfn_off t + 1)) Hbl) as B2.
      unfold is_byte in *. intros E. apply Hne. f_equal; [unfold ent_get; lia|f_equal; unfold ent_get; lia]. }
    rewrite Hc, En, (IH (S t)); try lia.
    + f_equal; [lia|]. rewrite put_char_inserts by lia. unfold lfn_chars. cbn [seq map concat].
      rewrite list_inserts_app_l. f_equal. simpl. lia.
    + intros s Hs. apply Hne. lia.
    + destruct He as [He|He]; [left; lia|right]. by replace (S t + m)%nat with (t + S m)%nat by lia.
Qed.

(** ** A long name in the entries before a short name *)

(** A part of a long name: [number] is its number, with the flag 0x40 in the
    entry with the end of the name, [part] its 26 bytes. *)
Record long_entry (vol : nspace) (bl : list Z) (i number hash : Z) (part : list Z) : Prop := {
  le_number : dirent vol bl i 0 = number;
  le_mark : dirent vol bl i 0xb = 0x0f;
  le_zero : dirent vol bl i 0xc = 0 /\ dirent vol bl i 0x1a = 0 /\ dirent vol bl i 0x1b = 0;
  le_hash : dirent vol bl i 0xd = hash;
  le_chars : forall t, (t < 13)%nat ->
    dirent vol bl i (lfn_off t) = nth (2 * t) part 0 /\ dirent vol bl i (lfn_off t + 1) = nth (2 * t + 1) part 0
}.

Lemma chars_of_part (ch : nat -> list Z) (part : list Z) t m :
  (forall s, (t <= s < t + m)%nat -> ch s = [nth (2 * s) part 0; nth (2 * s + 1) part 0]) ->
  (2 * (t + m) <= length part)%nat ->
  concat (map ch (seq t m)) = take (2 * m) (drop (2 * t) part).
Proof.
  revert t. induction m as [|m IH]; intros t Hc Hl; [done|].
  cbn [seq map concat]. rewrite IH by (lia || (intros; apply Hc; lia)). rewrite (Hc t) by lia.
  destruct (nth_lookup_or_length part (2 * t) 0) as [H1|H1]; [|lia].
  destruct (nth_lookup_or_length part (2 * t + 1) 0) as [H2|H2]; [|lia].
  rewrite (drop_S part _ (2 * t)) by done. rewrite (drop_S part _ (S (2 * t))) by (rewrite <-H2; f_equal; lia).
  replace (2 * S m)%nat with (S (S (2 * m))) by lia. cbn [take app].
  by replace (2 * S t)%nat with (S (S (2 * t))) by lia.
Qed.

Lemma long_entry_chars vol bl i number hash part p m :
  long_entry vol bl i number hash part -> dirent_ptr vol bl i = Some p ->
  (m <= 13)%nat -> length part = 26%nat -> lfn_chars vol p 0 m = take (2 * m) part.
Proof.
  intros Hl Hp Hm Hlen. unfold lfn_chars. rewrite (chars_of_part _ part); [done| |lia].
  intros s Hs. destruct (le_chars _ _ _ _ _ _ Hl s ltac:(lia)) as [E1 E2].
  unfold lfn_char. unfold dirent in E1, E2. rewrite Hp in E1, E2. by rewrite E1, E2.
Qed.

Lemma number_bits m : 1 <= m < 32 -> Z.land (m + 0x40) 0x40 = 0x40 /\ Z.land (m + 0x40) 0x1f = m.
Proof.
  intros Hm. assert (H : Forall (fun m => Z.land (m + 0x40) 0x40 = 0x40 /\ Z.land (m + 0x40) 0x1f = m) (seqZ 1 31)).
  { cbv [seqZ seq fmap list_fmap Z.to_nat Pos.to_nat Pos.iter_op Nat.add].
    repeat (apply Forall_cons; split; [split; reflexivity|]). apply Forall_nil. done. }
  rewrite Forall_forall in H. apply H. apply elem_of_seqZ. lia.
Qed.

Lemma inserts_zero (x : nat) (uni : list Z) :
  (x + 1 < length uni)%nat ->
  <[(x + 1)%nat := 0]> (<[x := 0]> uni) !! x = Some 0 /\
  <[(x + 1)%nat := 0]> (<[x := 0]> uni) !! (x + 1)%nat = Some 0 /\
  forall y, y <> x -> y <> (x + 1)%nat -> <[(x + 1)%nat := 0]> (<[x := 0]> uni) !! y = uni !! y.
Proof.
  intros Hx. split_and!.
  - by rewrite list_lookup_insert_ne, list_lookup_insert_eq by lia.
  - rewrite list_lookup_insert_eq; [done|]. rewrite length_insert. lia.
  - intros y H1 H2. by rewrite !list_lookup_insert_ne by lia.
Qed.

Section LongName.
Context (vol : nspace) (Hbl : blocks_ok vol) (bl : list Z).
Context (name : list Z) (q m : nat) (hash : Z) (first : Z).
Context (Hq : length name = (2 * q)%nat) (Hq0 : (0 < q)%nat) (Hm : m = ((q + 12) / 13)%nat) (Hm32 : (m <= 31)%nat).
Context (Hfirst : 0 <= first < 0xffff).
(** No character is the padding. *)
Context (Hname : forall t, (t < q)%nat -> nth (2 * t) name 0 <> 0xff \/ nth (2 * t + 1) name 0 <> 0xff).

Definition padded : list Z := name ++ repeat 0xff (26 * m - 2 * q).

(** Part [c] of the name, 1 for its beginning. *)
Definition part_of (c : nat) : list Z := take 26 (drop (26 * (c - 1)) padded).

Lemma m_range : (13 * (m - 1) < q <= 13 * m)%nat /\ (1 <= m)%nat.
Proof using Hq Hm Hq0 Hm32.
  pose proof (Nat.div_mod (q + 12) 13 ltac:(lia)). pose proof (Nat.mod_upper_bound (q + 12) 13 ltac:(lia)). lia.
Qed.

Lemma padded_length : length padded = (26 * m)%nat.
Proof using Hq Hm Hq0 Hm32. pose proof m_range. unfold padded. rewrite length_app, repeat_length. lia. Qed.

Lemma part_length c : (1 <= c <= m)%nat -> length (part_of c) = 26%nat.
Proof using Hq Hm Hq0 Hm32. intros Hc. unfold part_of. rewrite length_take, length_drop, padded_length. lia. Qed.

Lemma part_nth c x : (1 <= c <= m)%nat -> (x < 26)%nat ->
  nth x (part_of c) 0 = if (26 * (c - 1) + x <? 2 * q)%nat then nth (26 * (c - 1) + x) name 0 else 0xff.
Proof using Hq Hm Hq0 Hm32.
  intros Hc Hx. pose proof m_range. unfold part_of, padded. rewrite !nth_lookup, lookup_take_lt, lookup_drop by lia.
  destruct (Nat.ltb_spec (26 * (c - 1) + x) (2 * q)).
  - by rewrite lookup_app_l by lia.
  - rewrite lookup_app_r, Hq by lia.
    destruct (repeat 0xff (26 * m - 2 * q) !! (26 * (c - 1) + x - 2 * q)%nat) eqn:E.
    + apply list_elem_of_lookup_2, list_elem_of_In, repeat_spec in E. by subst.
    + apply lookup_ge_None in E. rewrite repeat_length in E. lia.
Qed.

(** The entries hold the name: part [m] first. *)
Definition holds_name : Prop :=
  forall c, (1 <= c <= m)%nat -> first + Z.of_nat (m - c) < dir_entries vol bl /\
    long_entry vol bl (first + Z.of_nat (m - c)) (Z.of_nat c + if (c =? m)%nat then 0x40 else 0) hash (part_of c).

(** What the scan has collected after part [c]. *)
Record collected (c : nat) (l : lfn) : Prop := {
  co_start : start_index l = first;
  co_hash : lf_hash l = hash;
  co_len : filename_len l = Z.of_nat (2 * q + 2);
  co_count : lfn_count l = Z.of_nat c;
  co_room : length (lf_uni l) = 1024%nat;
  co_uni : forall x, (26 * (c - 1) <= x < 2 * q + 2)%nat -> lf_uni l !! x = (name ++ [0; 0]) !! x
}.

Lemma char_not_end c p t :
  long_entry vol bl (first + Z.of_nat (m - c)) (Z.of_nat c + if (c =? m)%nat then 0x40 else 0) hash (part_of c) ->
  dirent_ptr vol bl (first + Z.of_nat (m - c)) = Some p -> (1 <= c <= m)%nat -> (t < 13)%nat ->
  (13 * (c - 1) + t < q)%nat <-> ~ end_char vol p t.
Proof using Hq Hm Hq0 Hm32 Hname.
  intros Hl Hp Hc Ht. destruct (le_chars _ _ _ _ _ _ Hl t Ht) as [E1 E2].
  rewrite part_nth in E1, E2 by lia. unfold dirent in E1, E2. rewrite Hp in E1, E2.
  unfold end_char, lfn_char. rewrite E1, E2. split.
  - intros Hlt. rewrite !(proj2 (Nat.ltb_lt _ _)) by lia.
    specialize (Hname _ Hlt). replace (26 * (c - 1) + 2 * t)%nat with (2 * (13 * (c - 1) + t))%nat by lia.
    replace (26 * (c - 1) + (2 * t + 1))%nat with (2 * (13 * (c - 1) + t) + 1)%nat by lia.
    generalize dependent (2 * (13 * (c - 1) + t))%nat. intros x Hx F.
    pose proof (f_equal (hd 0) F). pose proof (f_equal (fun l => hd 0 (tail l)) F). simpl in *. by destruct Hx.
  - intros Hne. apply Nat.lt_nge. intros Hge. apply Hne.
    by rewrite !(proj2 (Nat.ltb_ge _ _)) by lia.
Qed.

Lemma long_entry_entry i number part p l :
  long_entry vol bl i number hash part -> dirent_ptr vol bl i = Some p ->
  number <> 0 -> number <> 0xe5 ->
  kind vol bl i = Long_part /\
  lfn_trans vol bl i l =
    (if start_index l =? 0xffff then lfn_begin vol p i l else Some (lfn_continue vol p l)) /\
  ent_get vol p 0 = number /\ ent_get vol p 0xd = hash.
Proof using.
  intros [H1 H2 (H3 & H4 & H5) H6 _] Hp Hn0 Hne5.
  assert (G : forall k, dirent vol bl i k = ent_get vol p k) by (intros; unfold dirent; by rewrite Hp).
  split_and!.
  - unfold kind. rewrite H1, H2. rewrite (proj2 (Z.eqb_neq number 0)), (proj2 (Z.eqb_neq number 0xe5)) by done. done.
  - unfold lfn_trans. rewrite Hp. rewrite G in H1, H3, H4, H5. rewrite H1, (proj2 (Z.eqb_neq number 0xe5)) by done.
    unfold lfn_entry. by rewrite H3, H4, H5.
  - by rewrite <-G.
  - by rewrite <-G.
Qed.

Lemma begin_collects l :
  holds_name -> start_index l = 0xffff -> length (lf_uni l) = 1024%nat ->
  exists l', lfn_trans vol bl first l = Some l' /\ collected m l' /\ kind vol bl first = Long_part.
Proof using All.
  intros Hh Hs Hlen. pose proof m_range as [Hmq Hm1].
  destruct (Hh m ltac:(lia)) as [Hin Hl]. rewrite Nat.eqb_refl, Nat.sub_diag in *.
  replace (first + Z.of_nat 0) with first in * by lia.
  destruct (dirent_ptr vol bl first) as [p|] eqn:Hp.
  2: { pose proof (le_mark _ _ _ _ _ _ Hl) as E. unfold dirent in E. by rewrite Hp in E. }
  destruct (number_bits (Z.of_nat m) ltac:(lia)) as [B1 B2].
  destruct (long_entry_entry first _ _ p l Hl Hp ltac:(lia) ltac:(lia)) as (Hk & -> & G0 & Gh).
  rewrite Hs, Z.eqb_refl. unfold lfn_begin. rewrite G0, B1, B2. change (64 =? 0) with false. cbv iota.
  rewrite (proj2 (Z.eqb_neq (Z.of_nat m) 0)) by lia.
  set (k := (q - 13 * (m - 1))%nat).
  assert (Hne : forall t, (t < 13)%nat -> (13 * (m - 1) + t < q)%nat <-> ~ end_char vol p t).
  { intros t Ht. apply (char_not_end m p t); [|by rewrite Nat.sub_diag, Z.add_0_r|lia|done].
    by rewrite Nat.eqb_refl, Nat.sub_diag, Z.add_0_r. }
  change (lfn_tail 16 vol p 1) with (lfn_tail 16 vol p (lfn_off 0)).
  rewrite (lfn_tail_spec vol p k 0 16 (2 * 13 * (Z.of_nat m - 1)) (lf_uni l) ltac:(lia) ltac:(lia) ltac:(lia) Hbl);
    [|intros t Ht; apply Hne; lia|].
  2: { destruct (decide (0 + k = 13)%nat) as [|Hk13]; [by left|right]. simpl.
       assert (Hdec : Decision (end_char vol p k)) by (unfold end_char; apply _).
       destruct (decide (end_char vol p k)) as [|Hno]; [done|]. apply (Hne k ltac:(lia)) in Hno. lia. }
  rewrite (long_entry_chars vol bl first _ _ (part_of m) p k Hl Hp ltac:(lia) (part_length m ltac:(lia))).
  eexists. split; [reflexivity|]. split; [|exact Hk].
  replace (2 * 13 * (Z.of_nat m - 1) + 2 * Z.of_nat k) with (Z.of_nat (2 * q)) by lia.
  replace (Z.to_nat (Z.of_nat (2 * q) + 1)) with (2 * q + 1)%nat by lia. rewrite Nat2Z.id.
  replace (Z.to_nat (2 * 13 * (Z.of_nat m - 1))) with (26 * (m - 1))%nat by lia.
  set (tail := take (2 * k) (part_of m)).
  assert (Htl : length tail = (2 * k)%nat) by (subst tail; rewrite length_take, part_length by lia; lia).
  set (uni := list_inserts (26 * (m - 1)) tail (lf_uni l)).
  assert (Hul : length uni = 1024%nat) by (subst uni; by rewrite length_inserts).
  destruct (inserts_zero (2 * q) uni ltac:(lia)) as (Z1 & Z2 & Z3).
  split; cbn [start_index lf_hash filename_len lfn_count lf_uni]; try done; [lia|by rewrite !length_insert|].
  intros x Hx. destruct (decide (x = (2 * q)%nat)) as [->|Hx1].
  { rewrite Z1, lookup_app_r by lia. by rewrite Hq, Nat.sub_diag. }
  destruct (decide (x = (2 * q + 1)%nat)) as [->|Hx2].
  { rewrite Z2, lookup_app_r by lia. by replace (2 * q + 1 - length name)%nat with 1%nat by lia. }
  rewrite Z3 by done. subst uni. rewrite list_lookup_inserts by lia. subst tail.
  rewrite lookup_take_lt by lia. unfold part_of, padded.
  rewrite lookup_take_lt, lookup_drop, lookup_app_l by lia. rewrite lookup_app_l by lia. f_equal. lia.
Qed.

Lemma continue_collects c l :
  holds_name -> (1 <= c < m)%nat -> collected (S c) l ->
  exists l', lfn_trans vol bl (first + Z.of_nat (m - c)) l = Some l' /\ collected c l' /\
    kind vol bl (first + Z.of_nat (m - c)) = Long_part.
Proof using All.
  intros Hh Hc [C1 C2 C3 C4 C5 C6]. pose proof m_range as [Hmq Hm1].
  destruct (Hh c ltac:(lia)) as [Hin Hl]. rewrite (proj2 (Nat.eqb_neq c m)), Z.add_0_r in Hl by lia.
  set (i := first + Z.of_nat (m - c)) in *.
  destruct (dirent_ptr vol bl i) as [p|] eqn:Hp.
  2: { pose proof (le_mark _ _ _ _ _ _ Hl) as E. unfold dirent in E. by rewrite Hp in E. }
  destruct (long_entry_entry i _ _ p l Hl Hp ltac:(lia) ltac:(lia)) as (Hk & -> & G0 & Gh).
  rewrite C1, (proj2 (Z.eqb_neq first 0xffff)) by lia. unfold lfn_continue. rewrite Gh, C2, Z.eqb_refl, C4.
  cbn [negb lf_uni lf_hash start_index filename_len lfn_count]. rewrite u32_small by lia.
  replace (Z.of_nat (S c) - 1) with (Z.of_nat c) by lia. rewrite G0, Z.eqb_refl. cbn [negb].
  change (lfn_part 16 vol p 1) with (lfn_part 16 vol p (lfn_off 0)).
  rewrite (lfn_part_spec vol p 13 0 16 (2 * 13 * (Z.of_nat c - 1)) (lf_uni l) ltac:(lia) ltac:(lia) ltac:(lia)).
  2: { intros t Ht. apply (char_not_end c p t); [|done|lia|lia|lia].
       by rewrite (proj2 (Nat.eqb_neq c m)), Z.add_0_r by lia. }
  rewrite (long_entry_chars vol bl i _ _ (part_of c) p 13 Hl Hp ltac:(lia) (part_length c ltac:(lia))).
  rewrite take_ge by (rewrite part_length by lia; lia).
  eexists. split; [reflexivity|]. split; [|exact Hk].
  replace (Z.to_nat (2 * 13 * (Z.of_nat c - 1))) with (26 * (c - 1))%nat by lia.
  split; cbn [start_index lf_hash filename_len lfn_count lf_uni]; try done; [by rewrite length_inserts|].
  intros x Hx.
  pose proof (part_length c ltac:(lia)) as Hpl.
  destruct (decide (x < 26 * c)%nat) as [Hlt|Hge].
  - rewrite list_lookup_inserts by lia. unfold part_of, padded.
    rewrite lookup_take_lt, lookup_drop, lookup_app_l by lia. rewrite lookup_app_l by lia. f_equal. lia.
  - rewrite list_lookup_inserts_ge by lia. apply C6. lia.
Qed.

(** The whole name. *)
Lemma run_collects :
  holds_name ->
  exists l, lfn_run vol bl first m no_lfn = Some l /\ collected 1 l /\
    take (Z.to_nat (filename_len l)) (lf_uni l) = name ++ [0; 0] /\
    forall t, first <= t < first + Z.of_nat m -> kind vol bl t = Long_part.
Proof using All.
  intros Hh. pose proof m_range as [Hmq Hm1].
  destruct (begin_collects no_lfn Hh eq_refl) as (l0 & E0 & C0 & K0).
  { apply repeat_length. }
  assert (H : forall r, (r < m)%nat -> exists l, lfn_run vol bl first (S r) no_lfn = Some l /\
    collected (m - r) l /\ forall t, first <= t < first + Z.of_nat (S r) -> kind vol bl t = Long_part).
  { induction r as [|r IH]; intros Hr.
    - exists l0. cbn [lfn_run]. rewrite E0. cbn. rewrite Nat.sub_0_r. split_and!; [done|done|].
      intros t Ht. by replace t with first by lia.
    - destruct (IH ltac:(lia)) as (l & E & C & K).
      destruct (continue_collects (m - S r) l Hh ltac:(lia)) as (l' & E' & C' & K').
      { by replace (S (m - S r))%nat with (m - r)%nat by lia. }
      replace (m - (m - S r))%nat with (S r) in * by lia.
      exists l'. split_and!; [|done|].
      + replace (S (S r)) with (S r + 1)%nat by lia. rewrite lfn_run_add, E. cbn [mbind option_bind lfn_run].
        rewrite E'. done.
      + intros t Ht. destruct (decide (t = first + Z.of_nat (S r))) as [->|]; [done|]. apply K. lia. }
  destruct (H (m - 1)%nat ltac:(lia)) as (l & E & C & K).
  replace (S (m - 1))%nat with m in * by lia. replace (m - (m - 1))%nat with 1%nat in C by lia.
  exists l. split_and!; [done|done| |done]. destruct C as [_ _ C3 _ C5 C6].
  rewrite C3, Nat2Z.id. apply list_eq. intros x. destruct (decide (x < 2 * q + 2)%nat) as [Hlt|Hge].
  - rewrite lookup_take_lt by done. apply C6. lia.
  - rewrite lookup_take_ge by lia. symmetry. apply lookup_ge_None. rewrite length_app. simpl. lia.
Qed.
End LongName.

(** ** The long name in front of an entry, whatever the entries hold

    The parts of a name follow each other with falling numbers and carry the
    same checksum; between them there may be entries that are marked as parts
    but have other fields set, which the scan ignores. *)

Definition plain_part (vol : nspace) (bl : list Z) (t : Z) : bool :=
  bool_decide (kind vol bl t = Long_part) && (dirent vol bl t 0xc =? 0) && (dirent vol bl t 0x1a =? 0)
  && (dirent vol bl t 0x1b =? 0).

Definition parts (vol : nspace) (bl : list Z) (s j : Z) : list Z := filter (plain_part vol bl) (seqZ s (j - s)).

(** The thirteen characters of a part, two bytes each; those before the
    padding. *)
Definition part_chars (vol : nspace) (bl : list Z) (t : Z) : list (list Z) :=
  map (fun o => [dirent vol bl t o; dirent vol bl t (o + 1)]) lfn_offsets.
Definition padding : list Z := [0xff; 0xff].
Fixpoint before_padding (cs : list (list Z)) : list (list Z) :=
  match cs with
  | [] => []
  | c :: cs => if decide (c = padding) then [] else c :: before_padding cs
  end.

(** The bytes of the name: the part with the highest number comes first and
    has the end of the name. *)
Definition text_of (vol : nspace) (bl : list Z) (s : Z) (rest : list Z) : list Z :=
  concat (concat (map (part_chars vol bl) (rev rest)) ++ before_padding (part_chars vol bl s)) ++ [0; 0].

(** The entries from [s] to [t], none of them erased, hold the parts [s] and
    [rest] of a name with [m] parts and the checksum [hash]. *)
Record name_parts (vol : nspace) (bl : list Z) (s t m hash : Z) (rest : list Z) : Prop := {
  np_parts : parts vol bl s t = s :: rest;
  np_alive : forall x, s <= x < t -> kind vol bl x = Long_part;
  np_last : Z.land (dirent vol bl s 0) 0x40 <> 0 /\ Z.land (dirent vol bl s 0) 0x1f = m;
  np_numbers : forall k x, rest !! k = Some x -> dirent vol bl x 0 = m - 1 - Z.of_nat k;
  np_hash : Forall (fun x => dirent vol bl x 0xd = hash) (s :: rest);
  np_full : Forall (fun x => padding ∉ part_chars vol bl x) rest
}.

(** The entries from [s] to the entry [j] hold a whole name: [text]. *)
Definition long_name (vol : nspace) (bl : list Z) (s j hash : Z) (text : list Z) : Prop :=
  exists rest, name_parts vol bl s j (Z.of_nat (length rest) + 1) hash rest /\ text = text_of vol bl s rest.

Lemma inserts_split (i : nat) (k l : list Z) :
  (i + length k <= length l)%nat -> list_inserts i k l = take i l ++ k ++ drop (i + length k) l.
Proof.
  revert i. induction k as [|x k IH]; intros i Hl; simpl in *.
  - by rewrite Nat.add_0_r, take_drop.
  - rewrite IH by lia. rewrite insert_app_l by (rewrite length_take; lia).
    rewrite (take_S_r l i (l !!! i)) by (apply list_lookup_lookup_total_lt; lia).
    rewrite insert_app_r_alt by (rewrite length_take; lia). rewrite length_take, Nat.min_l, Nat.sub_diag by lia. simpl.
    rewrite <-(assoc_L (++)). simpl. by replace (i + S (length k))%nat with (S i + length k)%nat by lia.
Qed.

Lemma inserts_middle (pre mid post k : list Z) :
  length k = length mid -> list_inserts (length pre) k (pre ++ mid ++ post) = pre ++ k ++ post.
Proof.
  intros E. rewrite <-(Nat.add_0_r (length pre)), list_inserts_app_r. by rewrite list_inserts_0_r.
Qed.

Lemma before_padding_take cs : exists m, before_padding cs = take m cs /\ (m <= length cs)%nat /\
  (forall s, (s < m)%nat -> cs !! s <> Some padding) /\ (m = length cs \/ cs !! m = Some padding).
Proof.
  induction cs as [|c cs (m & E & Hm & Hn & He)]; simpl; [exists O; split_and!; [done|lia|intros; lia|by left]|].
  case_decide as Hc.
  - exists O. split_and!; [done|lia|intros; lia|right; by rewrite Hc].
  - exists (S m). split_and!; [simpl; by rewrite E|lia| |].
    + intros [|s] Hs; [simpl; congruence|]. apply Hn. lia.
    + destruct He; [left; lia|by right].
Qed.

Section Whatever.
Context (vol : nspace) (Hbl : blocks_ok vol) (bl : list Z).

Lemma part_chars_ptr t p : dirent_ptr vol bl t = Some p -> part_chars vol bl t = map (lfn_char vol p) (seq 0 13).
Proof using. intros Hp. unfold part_chars, dirent. rewrite Hp. reflexivity. Qed.

Lemma part_chars_length t : length (part_chars vol bl t) = 13%nat.
Proof using. reflexivity. Qed.

Lemma part_char p (s : nat) : (s < 13)%nat -> map (lfn_char vol p) (seq 0 13) !! s = Some (lfn_char vol p s).
Proof using. intros Hs. rewrite list_lookup_fmap, lookup_seq_lt by done. done. Qed.

Lemma chars_take p (m : nat) : (m <= 13)%nat -> lfn_chars vol p 0 m = concat (take m (map (lfn_char vol p) (seq 0 13))).
Proof using.
  intros Hm. unfold lfn_chars. do 14 (destruct m as [|m]; [reflexivity|]). lia.
Qed.

(** The characters of the last part. *)
Lemma tail_chars t p pos uni :
  dirent_ptr vol bl t = Some p -> 0 <= pos ->
  lfn_tail 16 vol p 1 pos uni =
    (pos + Z.of_nat (length (concat (before_padding (part_chars vol bl t)))),
     list_inserts (Z.to_nat pos) (concat (before_padding (part_chars vol bl t))) uni).
Proof using Hbl.
  intros Hp Hpos. rewrite (part_chars_ptr t p Hp).
  destruct (before_padding_take (map (lfn_char vol p) (seq 0 13))) as (m & -> & Hm & Hn & He).
  rewrite length_map, length_seq in Hm, He. rewrite <-chars_take, lfn_chars_length by done.
  change 1 with (lfn_off 0). rewrite (lfn_tail_spec vol p m 0 16) by
    (done || lia || (intros s Hs Hc; apply (Hn s); [lia|rewrite part_char by lia; by f_equal])
     || (destruct He as [->|He]; [by left|right; simpl; destruct (decide (m < 13)%nat) as [Hlt|];
           [rewrite part_char in He by done; exact (inj Some _ _ He)|rewrite lookup_ge_None_2 in He by (rewrite length_map, length_seq; lia); done]])).
  f_equal. lia.
Qed.

(** The characters of another part, when none of them is the padding. *)
Lemma part_stops p r t fuel pos uni :
  (t + r = 13)%nat -> (r < fuel)%nat -> (exists s, (t <= s < 13)%nat /\ end_char vol p s) ->
  fst (lfn_part fuel vol p (lfn_off t) pos uni) = false.
Proof using.
  revert t fuel pos uni. induction r as [|r IH]; intros t fuel pos uni Ht Hf (s & Hs & He); [lia|].
  destruct fuel as [|fuel]; [lia|]. destruct (lfn_off_next t ltac:(lia)) as [En Er].
  cbn [lfn_part]. rewrite (proj2 (Z.ltb_lt (lfn_off t) 32)) by lia. cbn [negb].
  destruct (_ && _) eqn:Ec; [done|]. rewrite En. apply (IH (S t)); [lia|lia|]. exists s. split; [|done].
  destruct (decide (s = t)) as [->|]; [|lia]. exfalso. unfold end_char, lfn_char in He. injection He as E1 E2.
  by rewrite E1, E2 in Ec.
Qed.

Lemma part_room p fuel i pos uni : length (snd (lfn_part fuel vol p i pos uni)) = length uni.
Proof using.
  revert i pos uni. induction fuel as [|fuel IH]; intros i pos uni; [done|]. cbn [lfn_part].
  destruct (negb _); [done|]. destruct (_ && _); [done|]. rewrite IH. unfold put_char. by rewrite !length_insert.
Qed.

Lemma full_chars t p pos uni :
  dirent_ptr vol bl t = Some p -> 0 <= pos ->
  (if decide (padding ∈ part_chars vol bl t) then fst (lfn_part 16 vol p 1 pos uni) = false
   else lfn_part 16 vol p 1 pos uni = (true, list_inserts (Z.to_nat pos) (concat (part_chars vol bl t)) uni)).
Proof using.
  intros Hp Hpos. rewrite (part_chars_ptr t p Hp). change 1 with (lfn_off 0). case_decide as Hin.
  - apply (part_stops p 13); [done|lia|]. apply list_elem_of_lookup_1 in Hin as [s Hs].
    assert (s < 13)%nat by (apply lookup_lt_Some in Hs; by rewrite length_map, length_seq in Hs).
    rewrite part_char in Hs by done. exists s. split; [lia|]. exact (inj Some _ _ Hs).
  - rewrite (lfn_part_spec vol p 13 0 16) by (done || lia || (intros s Hs He; apply Hin;
      apply (list_elem_of_lookup_2 _ s); rewrite part_char by lia; by f_equal)).
    by rewrite (chars_take p 13) by lia.
Qed.

(** *** What has been collected *)

Lemma parts_next s t : s <= t -> parts vol bl s (t + 1) = parts vol bl s t ++ (if plain_part vol bl t then [t] else []).
Proof using.
  intros Ht. unfold parts. replace (t + 1 - s) with ((t - s) + 1) by lia. rewrite seqZ_app, filter_app by lia. f_equal.
  replace (s + (t - s)) with t by lia. change (seqZ t 1) with [0 + t]. rewrite filter_cons, filter_nil.
  change (0 + t) with t. case_decide as H1; destruct (plain_part vol bl t); done.
Qed.

Lemma parts_split s t j : s <= t <= j -> parts vol bl s j = parts vol bl s t ++ parts vol bl t j.
Proof using.
  intros Ht. unfold parts. replace (j - s) with ((t - s) + (j - t)) by lia. rewrite seqZ_app, filter_app by lia.
  by replace (s + (t - s)) with t by lia.
Qed.

Lemma text_next s rest t : text_of vol bl s (rest ++ [t]) = concat (part_chars vol bl t) ++ text_of vol bl s rest.
Proof using. unfold text_of. rewrite rev_unit. cbn [map concat]. by rewrite <-!(assoc_L (++)), concat_app, <-!(assoc_L (++)). Qed.

(** The array holds the parts up to entry [t] of a name that begins at [s]. *)
Definition gathered (s t : Z) (l : lfn) : Prop :=
  exists m rest pre post,
    name_parts vol bl s t m (lf_hash l) rest /\ start_index l = s /\ 1 <= m <= 31 /\
    lfn_count l = m - Z.of_nat (length rest) /\ 1 <= lfn_count l /\
    lf_uni l = pre ++ text_of vol bl s rest ++ post /\ length (lf_uni l) = 1024%nat /\
    Z.of_nat (length pre) = 26 * (lfn_count l - 1) /\
    filename_len l = Z.of_nat (length pre + length (text_of vol bl s rest)).

(** Nothing is collected. *)
Definition nothing (l : lfn) : Prop := start_index l = 0xffff /\ length (lf_uni l) = 1024%nat.

Lemma nothing_drop l : length (lf_uni l) = 1024%nat -> nothing (drop_lfn l).
Proof using. by split. Qed.

Definition collects (t : Z) : Prop := kind vol bl t = Erased \/ kind vol bl t = Long_part.

(** The cases of an entry the scan goes over. *)
Lemma trans_cases t l :
  collects t -> exists p, dirent_ptr vol bl t = Some p /\ (forall k, dirent vol bl t k = ent_get vol p k) /\
  dirent vol bl t 0 <> 0 /\
  ((kind vol bl t = Erased /\ lfn_trans vol bl t l = Some (drop_lfn l)) \/
   (kind vol bl t = Long_part /\ plain_part vol bl t = false /\ lfn_trans vol bl t l = Some l) \/
   (kind vol bl t = Long_part /\ plain_part vol bl t = true /\
    lfn_trans vol bl t l = if start_index l =? 0xffff then lfn_begin vol p t l else Some (lfn_continue vol p l))).
Proof using.
  intros Hk. destruct (dirent_ptr vol bl t) as [p|] eqn:Hp.
  2: { exfalso. destruct Hk as [E|E]; unfold kind, dirent in E; rewrite Hp in E; discriminate E. }
  assert (G : forall k, dirent vol bl t k = ent_get vol p k) by (intros; unfold dirent; by rewrite Hp).
  exists p. split; [done|]. split; [done|]. split.
  { intros E. unfold collects, kind in Hk. rewrite E in Hk. by destruct Hk. }
  unfold lfn_trans. rewrite Hp. unfold plain_part, lfn_entry. rewrite !G. destruct Hk as [E|E].
  - left. split; [done|]. unfold kind in E. rewrite !G in E. destruct (ent_get vol p 0 =? 0); [done|].
    destruct (ent_get vol p 0 =? 229); [done|]. by destruct (_ =? _).
  - right. rewrite (bool_decide_eq_true_2 _ E). assert (Ene : ent_get vol p 0 =? 0xe5 = false).
    { unfold kind in E. rewrite !G in E. destruct (ent_get vol p 0 =? 0); [done|]. by destruct (ent_get vol p 0 =? 229). }
    rewrite Ene. destruct (ent_get vol p 12 =? 0), (ent_get vol p 26 =? 0), (ent_get vol p 27 =? 0); cbn; tauto.
Qed.

Lemma begin_gathers t l l' :
  collects t -> (kind vol bl t = Long_part -> Z.land (dirent vol bl t 0) 0x40 <> 0 -> Z.land (dirent vol bl t 0) 0x1f <> 0) ->
  nothing l -> lfn_trans vol bl t l = Some l' ->
  nothing l' \/ gathered t (t + 1) l' /\ plain_part vol bl t = true.
Proof using Hbl.
  intros Hk Hsane [Hs Hr]. destruct (trans_cases t l Hk) as (p & Hp & G & H0 & [[_ ->]|[(_ & _ & ->)|(Hl & Hpl & ->)]]).
  { intros [= <-]. left. by apply nothing_drop. }
  { intros [= <-]. by left. }
  specialize (Hsane Hl). rewrite Hs, Z.eqb_refl. unfold lfn_begin. rewrite <-!G.
  destruct (Z.eqb_spec (Z.land (dirent vol bl t 0) 64) 0) as [|H40]; [intros [= <-]; by left|].
  specialize (Hsane H40). set (m := Z.land (dirent vol bl t 0) 31) in *.
  assert (Hm : 0 <= m < 32) by (unfold m; rewrite (Z.land_ones _ 5) by lia; apply Z.mod_pos_bound; lia).
  rewrite (proj2 (Z.eqb_neq m 0)) by done. rewrite (tail_chars t p) by (done || lia).
  set (cs := concat (before_padding (part_chars vol bl t))). intros [= <-]. right. split; [|done].
  assert (Hcs : (length cs <= 26)%nat).
  { unfold cs. destruct (before_padding_take (part_chars vol bl t)) as (x & -> & Hx & _). rewrite (part_chars_ptr t p Hp).
    rewrite part_chars_length in Hx. rewrite <-(chars_take p x) by done. rewrite lfn_chars_length. lia. }
  set (pre := take (Z.to_nat (2 * 13 * (m - 1))) (lf_uni l)).
  assert (Hpre : length pre = Z.to_nat (26 * (m - 1))) by (unfold pre; rewrite length_take; lia).
  exists m, [], pre, (drop (Z.to_nat (26 * (m - 1)) + (length cs + 2)) (lf_uni l)).
  assert (Et : text_of vol bl t [] = cs ++ [0; 0]) by done. rewrite Et. cbn [lf_hash start_index lfn_count lf_uni filename_len length].
  split_and!; try (done || lia).
  - split.
    + rewrite parts_next, Hpl by lia. unfold parts. by rewrite Z.sub_diag.
    + intros x Hx. by replace x with t by lia.
    + done.
    + done.
    + by apply Forall_singleton.
    + constructor.
  - set (base := (2 * 13 * (m - 1))). set (u := list_inserts (Z.to_nat base) cs (lf_uni l) : list Z).
    assert (E : <[Z.to_nat (base + Z.of_nat (length cs) + 1) := 0]> (<[Z.to_nat (base + Z.of_nat (length cs)) := 0]> u)
      = list_inserts (Z.to_nat base) (cs ++ [0; 0]) (lf_uni l)).
    { rewrite list_inserts_app_l. fold u. cbn [list_inserts]. rewrite list_insert_insert_ne by lia.
      f_equal; [lia|]. f_equal. lia. }
    rewrite E. clear E.
    rewrite inserts_split by (rewrite length_app; simpl; lia). unfold pre. fold base. f_equal. f_equal. f_equal.
    rewrite length_app. simpl. lia.
  - by rewrite !length_insert, length_inserts.
  - rewrite length_app. simpl. lia.
Qed.

Lemma continue_gathers s t l l' :
  collects t -> s < t -> s <> 0xffff -> gathered s t l -> lfn_trans vol bl t l = Some l' ->
  nothing l' \/ gathered s (t + 1) l'.
Proof using Hbl.
  intros Hk Hst Hs (m & rest & pre & post & Hn & Es & Hm & Ec & Hc & Eu & Hu & Hp1 & Ef).
  destruct (trans_cases t l Hk) as (p & Hp & G & H0 & [[_ ->]|[(Hl & Hpl & ->)|(Hl & Hpl & ->)]]).
  { intros [= <-]. left. by apply nothing_drop. }
  { intros [= <-]. right. exists m, rest, pre, post. split_and!; try (done || lia). destruct Hn as [N1 N2 N3 N4 N5 N6]. split; try done.
    - by rewrite parts_next, Hpl, app_nil_r by lia.
    - intros x Hx. destruct (decide (x = t)) as [->|]; [done|]. apply N2. lia. }
  rewrite Es, (proj2 (Z.eqb_neq s 0xffff)) by done. unfold lfn_continue. rewrite <-!G. intros E%(inj Some). rewrite <-E. clear E.
  destruct (Z.eqb_spec (dirent vol bl t 13) (lf_hash l)) as [Eh|]; cbn [negb]; [|left; by apply nothing_drop].
  rewrite u32_small by lia. cbn [lf_uni lf_hash start_index filename_len lfn_count].
  destruct (Z.eqb_spec (dirent vol bl t 0) (lfn_count l - 1)) as [En|]; cbn [negb]; [|left; by apply nothing_drop].
  pose proof (full_chars t p (2 * 13 * (lfn_count l - 1 - 1)) (lf_uni l) Hp ltac:(lia)) as Hf.
  case_decide as Hpad.
  { left. destruct (lfn_part _ _ _ _ _ _) as [b uni] eqn:E. simpl in Hf. subst b. split; [done|]. cbn [lf_uni].
    pose proof (part_room p 16 1 (2 * 13 * (lfn_count l - 1 - 1)) (lf_uni l)) as R. rewrite E in R. simpl in R. congruence. }
  rewrite Hf. right. set (cs := concat (part_chars vol bl t)).
  assert (Hcs : length cs = 26%nat).
  { unfold cs. rewrite (part_chars_ptr t p Hp). rewrite <-(firstn_all (map _ _)). rewrite length_map, length_seq.
    rewrite <-(chars_take p 13) by lia. by rewrite lfn_chars_length. }
  set (n := Z.to_nat (2 * 13 * (lfn_count l - 1 - 1))).
  assert (Hsplit : pre = take n pre ++ drop n pre) by (by rewrite take_drop).
  assert (Hn1 : length (take n pre) = n) by (rewrite length_take; lia).
  exists m, (rest ++ [t]), (take n pre), post. cbn [lf_uni lf_hash start_index filename_len lfn_count].
  rewrite text_next. fold cs. rewrite !length_app, length_inserts, Hn1, Hcs. cbn [length]. split_and!; try (done || lia).
  - destruct Hn as [N1 N2 N3 N4 N5 N6]. split; try done.
    + rewrite parts_next, Hpl, N1 by lia. done.
    + intros x Hx. destruct (decide (x = t)) as [->|]; [done|]. apply N2. lia.
    + intros k x [Hx|[Hx Hk2]]%lookup_app_Some; [by apply N4|]. apply list_lookup_singleton_Some in Hk2 as [Ek <-]. lia.
    + rewrite app_comm_cons, Forall_app. split; [done|]. by apply Forall_singleton.
    + rewrite Forall_app. split; [done|]. by apply Forall_singleton.
  - rewrite Eu, Hsplit at 1. rewrite <-!(assoc_L (++)). rewrite <-Hn1 at 1. apply inserts_middle.
    rewrite Hcs, length_drop. lia.
Qed.

(** *** A run over entries *)

Definition collecting (i t : Z) (l : lfn) : Prop :=
  nothing l \/ start_index l <> 0xffff /\ i <= start_index l < t /\ gathered (start_index l) t l.

Definition sane (t : Z) : Prop :=
  kind vol bl t = Long_part -> Z.land (dirent vol bl t 0) 0x40 <> 0 -> Z.land (dirent vol bl t 0) 0x1f <> 0.

Lemma step_collecting i t l l' :
  i <= t -> collects t -> sane t -> collecting i t l -> lfn_trans vol bl t l = Some l' -> collecting i (t + 1) l'.
Proof using Hbl.
  intros Hi Hk Hs Hc E.
  assert (Hg : forall s, i <= s <= t -> gathered s (t + 1) l' -> collecting i (t + 1) l').
  { intros s Hin Hg. pose proof Hg as (m & rest & pre & post & _ & Es & _ & _ & _ & _ & Hu & _).
    destruct (Z.eq_dec s 0xffff) as [->|Hne]; [left; by split|right]. rewrite Es. split_and!; done || lia. }
  destruct Hc as [Hn|(Hne & Hr & Hg0)].
  - destruct (begin_gathers t l l' Hk Hs Hn E) as [?|[? _]]; [by left|]. apply (Hg t); [lia|done].
  - destruct (continue_gathers (start_index l) t l l' Hk ltac:(lia) Hne Hg0 E) as [?|?]; [by left|].
    apply (Hg (start_index l)); [lia|done].
Qed.

Lemma run_collecting i t (k : nat) l l' :
  i <= t -> (forall x, t <= x < t + Z.of_nat k -> collects x /\ sane x) -> collecting i t l ->
  lfn_run vol bl t k l = Some l' -> collecting i (t + Z.of_nat k) l'.
Proof using Hbl.
  revert t l. induction k as [|k IH]; intros t l Hi Hx Hc E.
  - injection E as <-. by rewrite Z.add_0_r.
  - cbn [lfn_run] in E. destruct (lfn_trans vol bl t l) as [l1|] eqn:E1; [|done]. cbn [mbind option_bind] in E.
    replace (t + Z.of_nat (S k)) with (t + 1 + Z.of_nat k) by lia.
    apply (IH (t + 1) l1); [lia|intros; apply Hx; lia| |done].
    destruct (Hx t ltac:(lia)) as [H1 H2]. by apply (step_collecting i t l).
Qed.

(** Nothing is collected behind an erased entry. *)
Lemma run_erased t (k : nat) l l' :
  kind vol bl (t + Z.of_nat k) = Erased -> length (lf_uni l) = 1024%nat ->
  (forall x, t <= x < t + Z.of_nat (S k) -> collects x /\ sane x) -> collecting t t l ->
  lfn_run vol bl t (S k) l = Some l' -> nothing l'.
Proof using Hbl.
  intros Hk Hr Hx Hc E. replace (S k) with (k + 1)%nat in E by lia. rewrite lfn_run_add in E.
  destruct (lfn_run vol bl t k l) as [l1|] eqn:E1; [|done]. cbn [mbind option_bind lfn_run] in E.
  assert (Hc1 : collecting t (t + Z.of_nat k) l1) by (eapply run_collecting; [| |exact Hc|exact E1]; [lia|intros; apply Hx; lia]).
  destruct (trans_cases (t + Z.of_nat k) l1 (or_introl Hk)) as (p & _ & _ & _ & [[_ Et]|[(Hl & _)|(Hl & _)]]); [|congruence..].
  rewrite Et in E. cbn [mbind option_bind] in E. injection E as <-. apply nothing_drop.
  destruct Hc1 as [[_ ?]|(_ & _ & m & rest & pre & post & _ & _ & _ & _ & _ & _ & ? & _)]; done.
Qed.

Lemma gathered_whole s j l :
  gathered s j l -> lfn_count l = 1 ->
  exists text, long_name vol bl s j (lf_hash l) text /\ take (Z.to_nat (filename_len l)) (lf_uni l) = text.
Proof using.
  intros (m & rest & pre & post & Hn & _ & Hm & Ec & _ & Eu & _ & Hp & Ef) E1. eexists. split.
  - exists rest. split; [|reflexivity]. by replace (Z.of_nat (length rest) + 1) with m by lia.
  - destruct pre; [|simpl in Hp; lia]. rewrite Ef, Eu. simpl. rewrite Nat2Z.id. apply take_app_length.
Qed.

(** There is one place at most where a whole name begins, and one name. *)
Lemma no_later_name s1 s2 j h1 h2 x1 x2 :
  s1 < s2 < j -> long_name vol bl s1 j h1 x1 -> long_name vol bl s2 j h2 x2 -> False.
Proof using Hbl.
  intros Hs (r1 & [P1 _ [_ P3] P4 _ _] & _) (r2 & [Q1 _ [Q3 _] _ _ _] & _).
  pose proof (parts_split s1 s2 j ltac:(lia)) as E. rewrite P1, Q1 in E.
  assert (Hin : s2 ∈ r1).
  { destruct (parts vol bl s1 s2) as [|y l]; [injection E; lia|]. injection E as _ ->. set_solver. }
  apply list_elem_of_lookup_1 in Hin as [k Hk]. pose proof (lookup_lt_Some _ _ _ Hk). apply P4 in Hk. apply Q3.
  rewrite Hk. rewrite (Z.land_ones _ 5) in P3 by lia. pose proof (Z.mod_pos_bound (dirent vol bl s1 0) (2 ^ 5) ltac:(lia)).
  set (y := Z.of_nat (length r1) + 1 - 1 - Z.of_nat k). assert (0 <= y < 32) by (unfold y; lia).
  apply Z.bits_inj'. intros n Hn. rewrite Z.land_spec, Z.bits_0. change 0x40 with (2 ^ 6).
  destruct (Z.eq_dec n 6) as [->|Hne]; [|by rewrite (Z.pow2_bits_false 6 n), andb_false_r].
  rewrite (Z.bits_above_log2 y 6); [done|lia|]. destruct (Z.eq_dec y 0) as [->|]; [done|].
  apply Z.log2_lt_pow2; lia.
Qed.

Lemma long_name_unique s1 s2 j h1 h2 x1 x2 :
  s1 < j -> s2 < j -> long_name vol bl s1 j h1 x1 -> long_name vol bl s2 j h2 x2 -> s1 = s2 /\ h1 = h2 /\ x1 = x2.
Proof using Hbl.
  intros H1 H2 N1 N2. destruct (Z.lt_trichotomy s1 s2) as [Hlt|[->|Hlt]].
  - exfalso. apply (no_later_name s1 s2 j h1 h2 x1 x2); [lia|exact N1|exact N2].
  - split; [done|]. destruct N1 as (r1 & [P1 _ _ _ P5 _] & ->), N2 as (r2 & [Q1 _ _ _ Q5 _] & ->).
    rewrite P1 in Q1. injection Q1 as ->. inversion P5; inversion Q5. split; congruence.
  - exfalso. apply (no_later_name s2 s1 j h2 h1 x2 x1); [lia|exact N2|exact N1].
Qed.

(** A whole name is collected. *)
Lemma whole_step s t j hash rest l l' :
  name_parts vol bl s j (Z.of_nat (length rest) + 1) hash rest -> s < t < j -> s <> 0xffff ->
  gathered s t l -> lfn_trans vol bl t l = Some l' -> gathered s (t + 1) l'.
Proof using Hbl.
  intros [N1 N2 N3 N4 N5 N6] Ht Hs Hg E.
  assert (Hk : kind vol bl t = Long_part) by (apply N2; lia).
  destruct (continue_gathers s t l l' (or_intror Hk) ltac:(lia) Hs Hg E) as [[Hx _]|]; [exfalso|done].
  pose proof Hg as (m & rest0 & pre & post & [P1 _ P3 _ P5 _] & Es & Hm & Ec & Hc & _).
  destruct (trans_cases t l (or_intror Hk)) as (p & Hp & G & H0 & [[Hk2 _]|[(_ & _ & Et)|(_ & Hpl & Et)]]);
    [congruence|rewrite Et in E; injection E as <-; congruence|].
  assert (Hrest : exists more, rest = rest0 ++ t :: more).
  { pose proof (parts_split s t j ltac:(lia)) as P. rewrite N1, P1 in P. injection P as ->.
    pose proof (parts_split t (t + 1) j ltac:(lia)) as P. rewrite parts_next, Hpl in P by lia.
    assert (E0 : parts vol bl t t = []) by (unfold parts; by rewrite Z.sub_diag). rewrite E0 in P.
    exists (parts vol bl (t + 1) j). by rewrite P. }
  destruct Hrest as [more ->].
  assert (Hh : lf_hash l = hash). { inversion P5; inversion N5; congruence. }
  assert (Hn : dirent vol bl t 0 = lfn_count l - 1).
  { rewrite (N4 (length rest0) t) by (by rewrite list_lookup_middle). destruct N3 as [_ N3], P3 as [_ P3]. lia. }
  apply Forall_cons in N5 as [_ N5]. rewrite Forall_app, Forall_cons in N5, N6. destruct N5 as (_ & N5 & _), N6 as (_ & N6 & _).
  rewrite Es, (proj2 (Z.eqb_neq s 0xffff)) in Et by done. rewrite Et in E. apply (inj Some) in E. rewrite <-E in Hx.
  unfold lfn_continue in Hx. rewrite <-!G, N5, Hh, Z.eqb_refl, u32_small, Hn, Z.eqb_refl in Hx by lia. cbn [negb] in Hx.
  cbn [lf_uni lf_hash start_index filename_len lfn_count] in Hx.
  pose proof (full_chars t p (2 * 13 * (lfn_count l - 1 - 1)) (lf_uni l) Hp ltac:(lia)) as Hf.
  rewrite decide_False in Hf by done. rewrite Hf in Hx. cbn [start_index] in Hx. congruence.
Qed.

Lemma whole_collected s j hash text l l' :
  long_name vol bl s j hash text -> s < j -> s <> 0xffff -> sane s -> nothing l ->
  lfn_run vol bl s (Z.to_nat (j - s)) l = Some l' ->
  start_index l' = s /\ lf_hash l' = hash /\ lfn_count l' = 1 /\
  take (Z.to_nat (filename_len l')) (lf_uni l') = text.
Proof using Hbl.
  intros (rest & Hn & ->) Hj Hs Hsane Hl E. pose proof Hn as [N1 N2 N3 _ N5 _].
  assert (Hpl : plain_part vol bl s = true).
  { apply not_false_is_true. intros Hf. assert (Hin : s ∈ parts vol bl s j) by (rewrite N1; set_solver).
    unfold parts in Hin. apply list_elem_of_filter in Hin as [Hin _]. by rewrite Hf in Hin. }
  assert (Hg : forall k, (S k <= Z.to_nat (j - s))%nat -> exists x, lfn_run vol bl s (S k) l = Some x /\ gathered s (s + Z.of_nat (S k)) x).
  { induction k as [|k IH]; intros Hk.
    - replace (Z.to_nat (j - s)) with (1 + (Z.to_nat (j - s) - 1))%nat in E by lia. rewrite lfn_run_add in E.
      destruct (lfn_run vol bl s 1 l) as [x|] eqn:E1; [|done]. exists x. split; [done|]. cbn [lfn_run] in E1.
      destruct (lfn_trans vol bl s l) as [y|] eqn:E2; [|done]. injection E1 as ->.
      destruct (begin_gathers s l x (or_intror (N2 s ltac:(lia))) Hsane Hl E2) as [[Hx _]|[? _]]; [exfalso|done].
      destruct (trans_cases s l (or_intror (N2 s ltac:(lia)))) as (p & Hp & G & H0 & [[Hk2 _]|[(_ & Hpl2 & Et)|(_ & _ & Et)]]);
        [rewrite (N2 s) in Hk2 by lia; congruence|congruence|].
      destruct Hl as [Hl _]. rewrite Hl, Z.eqb_refl in Et. rewrite Et in E2. unfold lfn_begin in E2. rewrite <-!G in E2.
      destruct N3 as [N3 N4]. rewrite (proj2 (Z.eqb_neq _ _) N3), N4, (proj2 (Z.eqb_neq _ 0)) in E2 by lia.
      destruct (lfn_tail _ _ _ _ _ _) as [pos uni]. apply (inj Some) in E2. rewrite <-E2 in Hx. cbn [start_index] in Hx. done.
    - destruct (IH ltac:(lia)) as (x & E1 & Hx).
      replace (Z.to_nat (j - s)) with (S (S k) + (Z.to_nat (j - s) - S (S k)))%nat in E by lia. rewrite lfn_run_add in E.
      destruct (lfn_run vol bl s (S (S k)) l) as [y|] eqn:E2; [|done]. exists y. split; [done|].
      replace (S (S k)) with (S k + 1)%nat in E2 by lia. rewrite lfn_run_add, E1 in E2. cbn [mbind option_bind lfn_run] in E2.
      destruct (lfn_trans vol bl (s + Z.of_nat (S k)) x) as [z|] eqn:E3; [|done]. injection E2 as ->.
      replace (s + Z.of_nat (S (S k))) with (s + Z.of_nat (S k) + 1) by lia.
      apply (whole_step s (s + Z.of_nat (S k)) j hash rest x y Hn); [lia|done|done|done]. }
  destruct (Hg (Z.to_nat (j - s) - 1)%nat ltac:(lia)) as (x & Ex & Hx).
  replace (S (Z.to_nat (j - s) - 1)) with (Z.to_nat (j - s)) in * by lia. rewrite E in Ex. injection Ex as <-.
  rewrite Z2Nat.id in Hx by lia. replace (s + (j - s)) with j in Hx by lia.
  pose proof Hx as (m & rest' & pre & post & [P1 _ P3 _ P5 _] & Es & Hm & Ec & Hc & _).
  rewrite N1 in P1. injection P1 as <-. assert (Hm2 : m = Z.of_nat (length rest) + 1) by (destruct N3, P3; congruence).
  assert (E1 : lfn_count l' = 1) by lia. split_and!; [done|inversion P5; inversion N5; congruence|done|].
  destruct (gathered_whole s j l' Hx E1) as (text & (r & Hr & ->) & ->).
  destruct Hr as [R1 _ _ _ _ _]. rewrite N1 in R1. by injection R1 as <-.
Qed.
End Whatever.
