(* ===== verification/DirCreate.v ===== *)
(** Creating entries: the stores of [_create_dir_entry_] as updates of the
    directory, entry by entry. *)
From stdpp Require Import base gmap list.
From Stdlib Require Import ZArith Lia.
From S2P Require Import Prelude Errors Volume Fat FatEntry FatIoctl FatTable FatChain Util Attr Iter Stream Dirent EntrySpec Resize Dir DirScan LongName.

Implicit Types vol v : nspace.
Implicit Types p : ptr.

(** ** One long name entry *)

Definition lfn_image (number hash : Z) (part : list Z) (k : Z) : Z :=
  if k =? 0 then number
  else if k <? 11 then nth (Z.to_nat (k - 1)) part 0
  else if k =? 11 then 0x0f
  else if k =? 12 then 0
  else if k =? 13 then hash
  else if k <? 26 then nth (Z.to_nat (k - 4)) part 0
  else if k <? 28 then 0
  else nth (Z.to_nat (k - 6)) part 0.

Lemma lfn_stores vol p number hash part :
  length part = 26%nat -> Forall is_byte part -> is_byte number -> is_byte hash -> 0 <= p_off p ->
  ent_copy p 0x1c (drop 22 part)
    (ent_copy p 0x0e (take 12 (drop 10 part))
      (ent_copy p 1 (take 10 part)
        (ent_set p 0x0d hash (ent_set p 0x0b 0x0f (ent_set p 0 number (ent_fill p 0 0x20 0 vol))))))
  = ent_map p (fun k _ => lfn_image number hash part k) vol.
Proof.
  intros Hl Hb Hn Hh Hp.
  rewrite ent_fill_map, !ent_set_map by lia.
  rewrite (ent_copy_map p 1 (take 10 part)), (ent_copy_map p 0x0e (take 12 (drop 10 part))),
    (ent_copy_map p 0x1c (drop 22 part))
    by (rewrite ?length_take, ?length_drop, ?Hl; lia || auto using Forall_take, Forall_drop).
  rewrite !ent_map_map. apply ent_map_ext. intros k x. revert k.
  rewrite (u8_small number), (u8_small hash) by done. clear Hb.
  do 26 (destruct part as [|? part]; [discriminate|]). destruct part; [|discriminate].
  each_offset; reflexivity.
Qed.

Lemma lfn_image_ok number hash part k :
  Forall is_byte part -> is_byte number -> is_byte hash -> is_byte (lfn_image number hash part k).
Proof.
  intros Hb Hn Hh. assert (Hnth : forall i, is_byte (nth i part 0)).
  { intros i. destruct (nth_in_or_default i part 0) as [Hin| ->]; [|unfold is_byte; lia].
    rewrite Forall_forall in Hb. by apply Hb, list_elem_of_In. }
  unfold lfn_image. repeat case_match; auto; unfold is_byte; lia.
Qed.

(** An entry with this image is the part of a long name. *)
Lemma image_long_entry vol bl i number hash part :
  length part = 26%nat ->
  (forall k, 0 <= k < 32 -> dirent vol bl i k = lfn_image number hash part k) ->
  long_entry vol bl i number hash part.
Proof.
  intros Hl H. split; [by apply H| by apply H|split_and!; by apply H|by apply H|].
  intros t Ht. destruct (lfn_off_next t Ht) as [_ Hr]. rewrite !H by lia.
  do 13 (destruct t as [|t]; [split; reflexivity|]). lia.
Qed.

(** ** The loop over the parts *)

Section Create.
Context (vol : nspace) (start : Z) (bl : list Z).
Context (nlong : list Z) (hash : Z) (required ns : Z).
Context (Hbytes : Forall is_byte nlong) (Hhash : is_byte hash).
Context (Hlong : 26 * (required - 1) <= Z.of_nat (length nlong)) (Hreq : 1 <= required <= 32).
Context (Hns : 0 <= ns) (Hroom : ns + required <= dir_entries vol bl).

(** The number byte of part [c], and its bytes. *)
Definition part_number (c : Z) : Z := c + if c =? required - 1 then 0x40 else 0.
Definition part_bytes (c : Z) : list Z := take 26 (drop (Z.to_nat ((c - 1) * 26)) nlong).

(** The directory with the parts in the entries [a], ..., [ns + required - 2]. *)
Definition with_parts (a : Z) (f : Z -> Z -> Z) : Z -> Z -> Z :=
  fun j k =>
    if (a <=? j) && (j <? ns + required - 1)
    then lfn_image (part_number (ns + required - 1 - j)) hash (part_bytes (ns + required - 1 - j)) k
    else f j k.

Lemma read_part c : 1 <= c <= required - 1 ->
  read_array nlong ((c - 1) * 26) 26 = Some (part_bytes c) /\ length (part_bytes c) = 26%nat /\
  Forall is_byte (part_bytes c).
Proof using Hlong Hbytes.
  intros Hc. unfold read_array, part_bytes. rewrite (proj2 (Z.leb_le _ _)) by lia.
  split; [done|]. split; [rewrite length_take, length_drop; lia|]. by apply Forall_take, Forall_drop.
Qed.

Lemma number_byte c : 1 <= c <= required - 1 -> is_byte (part_number c).
Proof using Hreq. clear - Hreq. intros Hc. unfold part_number, is_byte. destruct (_ =? _); lia. Qed.

Lemma write_lfn_spec (r : nat) i f v d :
  dir_is vol start bl f v -> at_pos v start bl (ns + i - 1) d ->
  i + Z.of_nat r = required -> 1 <= i ->
  exists w d', write_lfn r required i hash nlong (dirent_ptr vol bl (ns + i - 1), d, v)
    = Some (dirent_ptr vol bl (ns + required - 1), d', w) /\
    dir_is vol start bl (with_parts (ns + i - 1) f) w /\ at_pos w start bl (ns + required - 1) d'.
Proof using Hbytes Hhash Hlong Hreq Hns Hroom.
  revert i f v d. induction r as [|r IH]; intros i f v d Hv Hat Hr Hi.
  - replace i with required in * by lia. exists v, d. split; [done|]. split; [|done].
    apply (dir_is_ext _ _ _ f); [|done]. intros j k Hj Hk. unfold with_parts.
    destruct (Z.leb_spec (ns + required - 1) j), (Z.ltb_spec j (ns + required - 1)); simpl; done || lia.
  - pose proof (dir_is_bpb _ _ _ _ _ Hv) as Eb. set (x := ns + i - 1) in *.
    assert (Hin : 0 <= x < dir_entries v bl) by (rewrite Eb; lia).
    destruct (dirent_ptr_some v (dw_layout _ _ _ _ _ Hv) start bl (dw_dir _ _ _ _ _ Hv) x Hin) as (p & Hp & Hpo & _).
    assert (Hp' : dirent_ptr vol bl x = Some p) by (unfold dirent_ptr in *; by rewrite <-Eb).
    cbn [write_lfn]. rewrite Hp'.
    destruct (read_part (required - i) ltac:(lia)) as (-> & Hpl & Hpb).
    assert (Hnum : required - i + (if i =? 1 then 0x40 else 0) = part_number (required - i)).
    { unfold part_number. destruct (Z.eqb_spec i 1), (Z.eqb_spec (required - i) (required - 1)); lia. }
    rewrite Hnum. rewrite lfn_stores by (try done; try (apply number_byte; lia); apply Hpo).
    set (g := fun (k _ : Z) => lfn_image _ _ _ k).
    assert (Hg : forall k y, 0 <= k < 32 -> is_byte y -> is_byte (g k y)).
    { intros. apply lfn_image_ok; [done|apply number_byte; lia|done]. }
    pose proof (dir_is_store vol start bl f v x p g Hv ltac:(rewrite <-Eb; lia) Hp' Hg) as Hw.
    pose proof (dir_is_bpb _ _ _ _ _ Hw) as Ebw.
    assert (Hatw : at_pos (ent_map p g v) start bl x d).
    { eapply at_pos_same; [|exact Hat]. eapply dw_table, dir_is_store; [by apply dir_is_refl; apply Hv|done|done|done]. }
    pose proof (next_at_pos _ (dw_layout _ _ _ _ _ Hw) start bl (dw_dir _ _ _ _ _ Hw) x d
      ltac:(rewrite Ebw; lia) Hatw) as Hnext.
    destruct (diri_next_entry (ent_map p g v) d) as [p' d']. destruct Hnext as [Ep' Hat'].
    replace (x + 1) with (ns + (i + 1) - 1) in * by (subst x; lia).
    assert (Ep : p' = dirent_ptr vol bl (ns + (i + 1) - 1)) by (rewrite Ep'; unfold dirent_ptr; by rewrite Ebw).
    rewrite Ep. destruct (IH (i + 1) _ _ d' Hw Hat' ltac:(lia) ltac:(lia)) as (w & d'' & E & Hw' & Hat'').
    exists w, d''. split; [done|]. split; [|done].
    apply (dir_is_ext _ _ _ (with_parts (ns + (i + 1) - 1) (entry_upd f x g))); [|done].
    intros j k Hj Hk. unfold with_parts, entry_upd, g.
    destruct (Z.leb_spec (ns + (i + 1) - 1) j), (Z.leb_spec x j), (Z.ltb_spec j (ns + required - 1)),
      (Z.eqb_spec j x); cbn [andb]; try done; try lia.
    subst j. by replace (ns + required - 1 - x) with (required - i) by (subst x; lia).
Qed.
End Create.

(** ** The entry with the short name *)

Definition short_image (nshort : list Z) (bits mode c time size k : Z) : Z :=
  if k <? 0x0b then nth (Z.to_nat k) nshort 0 else node_image bits mode c time size k 0.

Definition info_cluster (info : entry_info) : Z := if ei_size info =? 0 then 0 else ei_cluster info.
Definition info_size (info : entry_info) : Z := if flag (ei_mode info) FAT_SUBDIR then 0 else ei_size info.

Lemma write_short_map `{Clock} vol p nshort info :
  length nshort = 11%nat -> Forall is_byte nshort -> 0 <= p_off p ->
  write_short p nshort info vol
  = ent_map p (fun k _ => short_image nshort (fat_bits vol) (ei_mode info) (info_cluster info)
                            (time_t2dos tzoffset (ei_time info)) (info_size info) k) vol.
Proof.
  intros Hl Hb Hp. unfold write_short. cbv zeta.
  pose proof (node_stores (ent_copy p 0 nshort vol) p (ei_mode info) (info_cluster info)
    (time_t2dos tzoffset (ei_time info)) (info_size info) false Hp) as E. cbv zeta iota in E.
  fold (info_cluster info) (info_size info). rewrite E. clear E.
  rewrite ent_copy_map by (lia || done).
  match goal with |- context [node_image (fat_bits ?w)] => change (fat_bits w) with (fat_bits vol) end.
  rewrite ent_map_map. apply ent_map_ext. intros k x Hk. unfold short_image. rewrite Hl.
  change (Z.of_nat 11) with 11. unfold node_image at 1. unfold node_image at 1.
  destruct (Z.ltb_spec k 11); [|done].
  rewrite (proj2 (Z.leb_le 0 k)) by lia. rewrite (proj2 (Z.ltb_lt k (0 + 11))) by lia. cbn [andb].
  by replace (k - 0) with k by lia.
Qed.

Lemma short_image_ok nshort bits mode c time size k :
  Forall is_byte nshort -> is_byte (short_image nshort bits mode c time size k).
Proof.
  intros Hb. unfold short_image. destruct (k <? 11); [|by apply node_image_ok; unfold is_byte; lia].
  destruct (nth_in_or_default (Z.to_nat k) nshort 0) as [Hin| ->]; [|unfold is_byte; lia].
  rewrite Forall_forall in Hb. by apply Hb, list_elem_of_In.
Qed.

(** ** Clearing what is behind the last entry *)

Definition cleared (last : Z) (f : Z -> Z -> Z) : Z -> Z -> Z := fun j k => if last <? j then 0 else f j k.

Lemma dir_is_outside vol start bl f v j k :
  dir_is vol start bl f v -> dir_entries vol bl <= j -> 0 <= j -> 0 <= k < 32 -> f j k = 0.
Proof.
  intros Hv Hj Hj0 Hk. rewrite <-(dw_bytes _ _ _ _ _ Hv) by done. unfold dirent.
  rewrite (dirent_ptr_none v (dw_layout _ _ _ _ _ Hv)); [done|]. by rewrite (dir_is_bpb _ _ _ _ _ Hv).
Qed.

Lemma clear_rest_loop vol start bl (m : nat) i f v d bound :
  dir_is vol start bl f v -> at_pos v start bl i d -> 0 <= i < dir_entries vol bl ->
  Z.of_nat m = dir_entries vol bl - 1 - i -> Z.of_nat m < bound ->
  exists w, z_loop clear_rest_step bound (d, v) = Brk w /\ dir_is vol start bl (cleared i f) w.
Proof.
  revert i f v d bound. induction m as [|m IH]; intros i f v d bound Hv Hat Hi Hm Hb.
  all: pose proof (dir_is_bpb _ _ _ _ _ Hv) as Eb.
  all: pose proof (next_at_pos v (dw_layout _ _ _ _ _ Hv) start bl (dw_dir _ _ _ _ _ Hv) i d
         ltac:(rewrite Eb; lia) Hat) as Hnext.
  all: rewrite z_loop_step by lia; unfold clear_rest_step at 1; cbv beta iota zeta.
  all: destruct (diri_next_entry v d) as [q d']; destruct Hnext as [-> Hat'].
  - rewrite (dirent_ptr_none v (dw_layout _ _ _ _ _ Hv)) by (rewrite Eb; lia). exists v. split; [done|].
    apply (dir_is_ext _ _ _ f); [|done]. intros j k Hj Hk. unfold cleared.
    destruct (Z.ltb_spec i j); [|done]. eapply dir_is_outside; [exact Hv|lia|done|done].
  - assert (Hin : 0 <= i + 1 < dir_entries v bl) by (rewrite Eb; lia).
    destruct (dirent_ptr_some v (dw_layout _ _ _ _ _ Hv) start bl (dw_dir _ _ _ _ _ Hv) _ Hin) as (p & Hp & Hpo & _).
    assert (Hp' : dirent_ptr vol bl (i + 1) = Some p) by (unfold dirent_ptr in *; by rewrite <-Eb).
    rewrite Hp, ent_fill_map by (lia || apply Hpo).
    set (g := fun j x => if (0 <=? j) && (j <? 0 + 32) then u8 0 else x).
    assert (Hg : forall k x, 0 <= k < 32 -> is_byte x -> is_byte (g k x)).
    { intros k x _ Hx. unfold g. destruct (_ && _); [apply u8_range|done]. }
    pose proof (dir_is_store vol start bl f v (i + 1) p g Hv ltac:(lia) Hp' Hg) as Hw.
    assert (Hatw : at_pos (ent_map p g v) start bl (i + 1) d').
    { eapply at_pos_same; [|exact Hat'].
      eapply dw_table, dir_is_store; [by apply dir_is_refl; apply Hv|by rewrite Eb in *|exact Hp|done]. }
    destruct (IH (i + 1) _ _ d' (bound - 1) Hw Hatw) as (w & E & Hw'); [lia|lia|lia|].
    exists w. split; [done|]. apply (dir_is_ext _ _ _ (cleared (i + 1) (entry_upd f (i + 1) g))); [|done].
    intros j k Hj Hk. unfold cleared, entry_upd, g.
    rewrite (proj2 (Z.leb_le 0 k)), (proj2 (Z.ltb_lt k (0 + 32))) by lia.
    destruct (Z.ltb_spec (i + 1) j), (Z.ltb_spec i j), (Z.eqb_spec j (i + 1)); done || lia.
Qed.
