(* ===== verification/Encodings.v ===== *)
(** Character encodings (encodings.cpp): names in UTF-8, in the 16 bit units of
    long names, and in the code pages of short names.  The file gives the
    instance of the interface [Encodings] the directory code is written
    against. *)
From Stdlib Require Import String Ascii.
From stdpp Require Import base gmap list.
From Stdlib Require Import ZArith Lia.
From S2P Require Import Prelude Errors Volume Util Attr Iter Dir.

(** ** Tables *)

Definition MS_DOS_CONVERSION : Z := 1.
Definition SJIS_CONVERSION : Z := 2.

(** Code page 437: the first half is ASCII. *)
Definition msdostou : list Z :=
  seqZ 0 128 ++
  [0x00c7; 0x00fc; 0x00e9; 0x00e2; 0x00e4; 0x00e0; 0x00e5; 0x00e7; 0x00ea; 0x00eb; 0x00e8; 0x00ef; 0x00ee; 0x00ec; 0x00c4; 0x00c5;
   0x00c9; 0x00e6; 0x00c6; 0x00f4; 0x00f6; 0x00f2; 0x00fb; 0x00f9; 0x00ff; 0x00d6; 0x00dc; 0x00a2; 0x00a3; 0x00a5; 0x20a7; 0x0192;
   0x00e1; 0x00ed; 0x00f3; 0x00fa; 0x00f1; 0x00d1; 0x00aa; 0x00ba; 0x00bf; 0x2310; 0x00ac; 0x00bd; 0x00bc; 0x00a1; 0x00ab; 0x00bb;
   0x2591; 0x2592; 0x2593; 0x2502; 0x2524; 0x2561; 0x2562; 0x2556; 0x2555; 0x2563; 0x2551; 0x2557; 0x255d; 0x255c; 0x255b; 0x2510;
   0x2514; 0x2534; 0x252c; 0x251c; 0x2500; 0x253c; 0x255e; 0x255f; 0x255a; 0x2554; 0x2569; 0x2566; 0x2560; 0x2550; 0x256c; 0x2567;
   0x2568; 0x2564; 0x2565; 0x2559; 0x2558; 0x2552; 0x2553; 0x256b; 0x256a; 0x2518; 0x250c; 0x2588; 0x2584; 0x258c; 0x2590; 0x2580;
   0x03b1; 0x00df; 0x0393; 0x03c0; 0x03a3; 0x03c3; 0x00b5; 0x03c4; 0x03a6; 0x0398; 0x03a9; 0x03b4; 0x221e; 0x03c6; 0x03b5; 0x2229;
   0x2261; 0x00b1; 0x2265; 0x2264; 0x2320; 0x2321; 0x00f7; 0x2248; 0x00b0; 0x2219; 0x00b7; 0x221a; 0x207f; 0x00b2; 0x25a0; 0x00a0].

(** The three Shift-JIS tables, without the end markers. *)
Class SjisTables := { sjis00tou : list Z; sjis81tou : list Z; sjise0tou : list Z }.
Definition sjistables `{SjisTables} : list (list Z * Z) :=
  [(sjis00tou, 0); (sjis81tou, 0x8100); (sjise0tou, 0xe000)].

(** The index of the first occurrence. *)
Fixpoint table_index (table : list Z) (x : Z) : option Z :=
  match table with
  | [] => None
  | y :: table => if y =? x then Some 0 else Z.add 1 <$> table_index table x
  end.

(** ** One character *)

Definition BEGINS_UTF8CHAR (byte : Z) : bool := negb (Z.land byte 0xc0 =? 0x80).
Definition utf8_char_len (c : Z) : Z :=
  Z.land (Z.shiftr (i32 0xe5000000) (Z.land (Z.shiftr c 3) 0x1e)) 3 + 1.

(** [u_hostendian_to_utf8] and [u_lendian_to_utf8]: the bytes of unit [u],
    [next] being the unit behind it. *)
Definition u_to_utf8 (u next : Z) : list Z :=
  if Z.land u 0xff80 =? 0 then [u]
  else if Z.land u 0xf800 =? 0 then
    [u8 (Z.lor 0xc0 (Z.shiftr u 6)); Z.lor 0x80 (Z.land u 0x3f)]
  else if negb (Z.land u 0xfc00 =? 0xd800) then
    [u8 (Z.lor 0xe0 (Z.shiftr u 12)); Z.lor 0x80 (Z.land (Z.shiftr u 6) 0x3f);
     Z.lor 0x80 (Z.land u 0x3f)]
  else
    let val := Z.lor (Z.shiftl (u - 0xd7c0) 10) (Z.land next 0x3ff) in
    [u8 (Z.lor 0xf0 (Z.shiftr val 18)); Z.lor 0x80 (Z.land (Z.shiftr val 12) 0x3f);
     Z.lor 0x80 (Z.land (Z.shiftr val 6) 0x3f); Z.lor 0x80 (Z.land val 0x3f)].

(** [utf8_to_u_hostendian] on the string [s]: the unit and the number of bytes
    it takes; [None] is the error flag. *)
Definition utf8_to_u (s : list Z) : option (Z * Z) :=
  let str i := nth i s 0 in
  let cont i := Z.land (str i) 0xc0 =? 0x80 in
  if Z.land (str 0%nat) 0x80 =? 0 then Some (str 0%nat, 1)
  else if negb (cont 1%nat) then Some (0xfffd, 1)
  else if Z.land (str 0%nat) 0x20 =? 0 then
    Some (Z.lor (Z.shiftl (Z.land (str 0%nat) 31) 6) (Z.land (str 1%nat) 63), 2)
  else if negb (cont 2%nat) then Some (0xfffd, 2)
  else if Z.land (str 0%nat) 0x10 =? 0 then
    Some (Z.lor (Z.lor (Z.shiftl (Z.land (str 0%nat) 15) 12) (Z.shiftl (Z.land (str 1%nat) 63) 6))
            (Z.land (str 2%nat) 63), 3)
  else if negb (cont 3%nat) then Some (0xfffd, 3)
  else None.

(** ** Strings of units *)

Definition unit_at (uni : list Z) (i : Z) : Z := read16 uni i.

(** The loop over the units from byte [srcCount] on: where it stops, and the
    bytes stored from [dstCount] on. *)
Fixpoint lendian_loop (fuel : nat) (uni : list Z) (srcLimit dstLimit srcCount dstCount : Z)
    : Z * list Z :=
  match fuel with
  | O => (srcCount, [])
  | S fuel =>
      if srcLimit <=? srcCount then (srcCount, [])
      else
        let utf8 := u_to_utf8 (unit_at uni srcCount) (unit_at uni (srcCount + 2)) in
        let utf8Len := Z.of_nat (length utf8) in
        if dstLimit <? dstCount + utf8Len then (srcCount, [])
        else
          let '(stop, rest) := lendian_loop fuel uni srcLimit dstLimit (srcCount + 2) (dstCount + utf8Len) in
          (stop, utf8 ++ rest)
  end.

Definition _lendian_unicode_to_utf8 (uni : list Z) (dstLimit : Z) : Z * Z * list Z :=
  let srcLimit := Z.of_nat (length uni) in
  let '(srcCount, dst) := lendian_loop (length uni) uni srcLimit dstLimit 0 0 in
  (if bool_decide (dst = []) then B_ERROR else B_OK, srcCount, dst).

(** What a reader of the buffer takes for the string. *)
Fixpoint c_str (l : list Z) : cstring :=
  match l with [] => [] | c :: l => if c =? 0 then [] else c :: c_str l end.

Definition unicode_to_utf8_fun (uni : list Z) (utf8len : Z) : Z * cstring :=
  let '(result, unilen, utf8) := _lendian_unicode_to_utf8 uni utf8len in
  (if unilen <? Z.of_nat (length uni) then B_ERROR else result, c_str utf8).

(** The loop over the string [s], its NUL included, from byte [srcCount] on:
    [None] is EINVAL. *)
Fixpoint to_unicode_loop (fuel : nat) (s : list Z) (dstLimit dstCount : Z) : option (list Z) :=
  match fuel with
  | O => Some []
  | S fuel =>
      match s with
      | [] => Some []
      | c :: _ =>
          if negb (dstCount <? dstLimit) then Some []
          else if Z.of_nat (length s) <? utf8_char_len c then Some []
          else
            match utf8_to_u s with
            | None => None
            | Some (u, n) =>
                rest ← to_unicode_loop fuel (drop (Z.to_nat n) s) dstLimit (dstCount + 2);
                Some (Z.land u 0xff :: Z.shiftr u 8 :: rest)
            end
      end
  end.

(** The status or the length, and the units stored. *)
Definition utf8_to_unicode_fun (utf8 : cstring) (unilen : Z) : Z * list Z :=
  let s := utf8 ++ [0] in
  match to_unicode_loop (length s) s (unilen - 1) 0 with
  | None => (EINVAL, [])
  | Some dst => (if bool_decide (dst = []) then B_ERROR else Z.of_nat (length dst), dst)
  end.

(** The characters of a short name. *)
Fixpoint one_loop (table src : list Z) (dstLimit dstCount : Z) : list Z :=
  match src with
  | [] => []
  | c :: src =>
      let utf8 := u_to_utf8 (nth (Z.to_nat c) table 0) 0 in
      let utf8Len := Z.of_nat (length utf8) in
      if dstLimit <? dstCount + utf8Len then [] else utf8 ++ one_loop table src dstLimit (dstCount + utf8Len)
  end.

(** The part of a field before its first blank. *)
Fixpoint before_blank (l : list Z) : list Z :=
  match l with [] => [] | c :: l => if c =? 32 then [] else c :: before_blank l end.

Definition msdos_to_utf8_fun (msdos : list Z) (utf8len : Z) (toLower : bool) : cstring :=
  let low c := if toLower then to_lower c else c in
  let first i c := if (i =? 0)%nat && (c =? 5) then 0xe5 else low c in
  let base := imap first (before_blank (take 8 msdos)) in
  let ext := if negb (nth 8%nat msdos 0 =? 32) then 46 :: map low (before_blank (take 3 (drop 8 msdos))) else [] in
  c_str (one_loop msdostou (base ++ ext ++ [0]) utf8len 0).

(** ** Short names *)

Definition underbar : list Z :=
  bytes_of "+,;=[]" ++
  [0x83; 0x85; 0x88; 0x89; 0x8a; 0x8b; 0x8c; 0x8d; 0x93; 0x95; 0x96; 0x97; 0x98; 0xa0; 0xa1; 0xa2; 0xa3].
Definition capitalize_from : list Z := [0x81; 0x82; 0x84; 0x86; 0x87; 0x91; 0x94; 0xa4].
Definition capitalize_to : list Z := [0x9a; 0x90; 0x8e; 0x8f; 0x80; 0x92; 0x99; 0xa5].

Definition to_upper (c : Z) : Z := if (97 <=? c) && (c <=? 122) then c - 97 + 65 else c.

Definition is_unicode_japanese (c : Z) : bool :=
  ((0x3000 <=? c) && (c <=? 0x30ff)) || ((0x3200 <=? c) && (c <=? 0x3400))
  || ((0x4e00 <=? c) && (c <=? 0x9fff)) || ((0xf900 <=? c) && (c <=? 0xfaff))
  || ((0xfe30 <=? c) && (c <=? 0xfe6f)) || ((0xff00 <=? c) && (c <=? 0xffef)).

Definition is_initial_sjis_byte (c : Z) : bool :=
  ((0x81 <=? c) && (c <=? 0x9f)) || ((0xe0 <=? c) && (c <=? 0xef)).

(** The character a short name has for [c]: nothing, or a byte. *)
Definition short_char (c : Z) : option Z :=
  if (97 <=? c) && (c <=? 122) then Some (c - 97 + 65)
  else if bool_decide (c ∈ underbar) then Some 95
  else match table_index capitalize_from c with
       | Some i => Some (nth (Z.to_nat i) capitalize_to 0)
       | None => if bool_decide (c ∈ acceptable) || bool_decide (c ∈ capitalize_to) then Some c else None
       end.

(** One of the two loops of [generate_short_name_msdos], over the units [us]:
    the field so far, at most [room] characters; [None] is EINVAL. A dot ends
    the first field, but not at its beginning, and is a character like any
    other in the second one. *)
Fixpoint short_field (base : bool) (room : nat) (us field : list Z) : option (list Z) :=
  match us with
  | [] => Some field
  | u :: us =>
      if (room <=? length field)%nat then Some field
      else if u =? 0 then Some field
      else if base && (u =? 46) then
        if bool_decide (field = []) then short_field base room us field else Some field
      else
        match table_index msdostou u with
        | None => short_field base room us field
        | Some c =>
            if bool_decide (c ∈ illegal) then None
            else match short_char c with
                 | Some x => short_field base room us (field ++ [x])
                 | None => short_field base room us field
                 end
        end
  end.

(** Whether the first loop returned at a NUL. *)
Fixpoint field_at_nul (room : nat) (us field : list Z) : bool :=
  match us with
  | [] => false
  | u :: us =>
      if (room <=? length field)%nat then false
      else if u =? 0 then true
      else if u =? 46 then
        if bool_decide (field = []) then field_at_nul room us field else false
      else
        match table_index msdostou u with
        | None => field_at_nul room us field
        | Some c =>
            match short_char c with
            | Some x => field_at_nul room us (field ++ [x])
            | None => field_at_nul room us field
            end
        end
  end.

(** What is behind the last dot. *)
Fixpoint after_last_dot (us : list Z) : option (list Z) :=
  match us with
  | [] => None
  | u :: us =>
      match after_last_dot us with
      | Some r => Some r
      | None => if u =? 46 then Some us else None
      end
  end.

Definition blanks (n : nat) : list Z := repeat 32 n.
Definition pad (n : nat) (l : list Z) : list Z := l ++ blanks (n - length l).

Fixpoint units (uni : list Z) : list Z :=
  match uni with a :: b :: uni => a + 0x100 * b :: units uni | _ => [] end.

Definition generate_short_name_msdos (us : list Z) : Z * list Z :=
  match short_field true 8 us [] with
  | None => (EINVAL, blanks 11)
  | Some base =>
      if field_at_nul 8 us [] then (B_OK, pad 8 base ++ blanks 3)
      else match after_last_dot us with
           | None => (B_OK, pad 8 base ++ blanks 3)
           | Some us =>
               match short_field false 3 us [] with
               | None => (EINVAL, pad 8 base ++ blanks 3)
               | Some ext => (B_OK, pad 8 base ++ pad 3 ext)
               end
           end
  end.

Section Sjis.
Context `{SjisTables}.

(** The bytes of a unit, or 0x1a. *)
Definition sjis_bytes (u : Z) : list Z :=
  match table_index sjis00tou u with
  | Some i => [i]
  | None =>
      match table_index sjis81tou u with
      | Some i => let x := u16 (0x8100 + i) in [x / 256; x mod 256]
      | None =>
          match table_index sjise0tou u with
          | Some i => let x := u16 (0xe000 + i) in [x / 256; x mod 256]
          | None => [0x1a]
          end
      end
  end.

(** [None] is EINVAL; otherwise the bytes of [s] taken and the bytes stored. *)
Fixpoint sjis_loop (fuel : nat) (s : list Z) (dstLimit dstCount : Z) : option (Z * list Z) :=
  match fuel with
  | O => Some (0, [])
  | S fuel =>
      match s with
      | [] => Some (0, [])
      | c :: _ =>
          if negb (dstCount <? dstLimit) then Some (0, [])
          else if Z.of_nat (length s) <? utf8_char_len c then Some (0, [])
          else
            match utf8_to_u s with
            | None => None
            | Some (u, n) =>
                let out := sjis_bytes u in
                if (length out =? 2)%nat && negb (dstCount + 1 <? dstLimit) then Some (0, [])
                else
                  '(k, rest) ← sjis_loop fuel (drop (Z.to_nat n) s) dstLimit (dstCount + Z.of_nat (length out));
                  Some (n + k, out ++ rest)
            end
      end
  end.

(** One field of the short name from the bytes [s]: the field, what is left,
    and whether the loop stopped at the NUL. *)
Fixpoint sjis_field (base : bool) (room : nat) (fuel : nat) (s field : list Z) : list Z * list Z * bool :=
  match fuel with
  | O => (field, s, false)
  | S fuel =>
      if (room <=? length field)%nat then (field, s, false)
      else
        let c := nth 0 s 0 in
        if is_initial_sjis_byte c then
          if (length field <? room - 1)%nat
          then sjis_field base room fuel (drop 2 s) (field ++ [c; nth 1 s 0])
          else (field, s, false)
        else if base && (c =? 46) then (field, s, false)
        else if c =? 0 then (field, s, true)
        else sjis_field base room fuel (drop 1 s) (field ++ [to_upper c])
  end.

Fixpoint skip_dots (s : list Z) : list Z :=
  match s with c :: s' => if c =? 46 then skip_dots s' else s | [] => [] end.

(** The memory for the conversion is taken to be there. *)
Definition generate_short_name_sjis (utf8 : cstring) (unilen : Z) : Z * list Z :=
  let s := utf8 ++ [0] in
  match sjis_loop (length s) s unilen 0 with
  | None => (EINVAL, blanks 11)
  | Some (taken, sjis) =>
      if bool_decide (sjis = []) then (B_ERROR, blanks 11)
      else if taken <? Z.of_nat (length s) then (EINVAL, blanks 11)
      else
        let '(base, rest, at_nul) := sjis_field true 8 9 (skip_dots sjis) [] in
        if at_nul then (B_OK, pad 8 base ++ blanks 3)
        else
          match after_last_dot (c_str rest) with
          | None => (B_OK, pad 8 base ++ blanks 3)
          | Some ext => (B_OK, pad 8 base ++ pad 3 (fst (fst (sjis_field false 3 4 (ext ++ [0]) []))))
          end
  end.

Definition generate_short_name_fun (name : cstring) (uni : list Z) : Z * list Z * Z :=
  let encoding := if existsb is_unicode_japanese (units uni) then SJIS_CONVERSION else MS_DOS_CONVERSION in
  let '(result, nshort) :=
    if encoding =? MS_DOS_CONVERSION then generate_short_name_msdos (units uni)
    else generate_short_name_sjis name (Z.of_nat (length uni)) in
  (result,
   if (result =? B_OK) && bool_decide (nshort = blanks 11) then 95 :: blanks 10 else nshort,
   encoding).
End Sjis.

(** ** Which names need a long entry *)

(** The units up to the terminator (or the end of the array). *)
Fixpoint units_to_nul (us : list Z) : list Z :=
  match us with [] => [] | u :: us => if u =? 0 then [] else u :: units_to_nul us end.

(** One of the two loops over the characters of the name: the answer if it is
    found there, or else what follows. *)
Fixpoint plain_chars (room : nat) (stop_at_dot : bool) (s : list Z) : bool + list Z :=
  match room with
  | O => inr s
  | S room =>
      let c := nth 0 s 0 in
      if c =? 0 then inl false
      else if stop_at_dot && (c =? 46) then inr s
      else if negb (bool_decide (c ∈ acceptable)) then inl true
      else plain_chars room stop_at_dot (drop 1 s)
  end.

Definition requires_long_name_fun (utf8 : cstring) (unicode : list Z) : bool :=
  if existsb is_unicode_japanese (units_to_nul (units unicode)) then true
  else
    match plain_chars 8 true utf8 with
    | inl answer => answer
    | inr s =>
        let c := nth 0 s 0 in
        if c =? 0 then false
        else if negb (c =? 46) then true
        else
          let s := drop 1 s in
          if nth 0 s 0 =? 0 then true
          else
            match plain_chars 3 false s with
            | inl answer => answer
            | inr s => negb (nth 0 s 0 =? 0)
            end
    end.

(** ** Numbered short names *)

Fixpoint digits (fuel : nat) (x : Z) : list Z :=
  match fuel with
  | O => []
  | S fuel => (if x <? 10 then [] else digits fuel (x / 10)) ++ [48 + x mod 10]
  end.
(** [sprintf(buffer, "~%Ld", value)] *)
Definition tilde (value : Z) : list Z := 126 :: digits 20 value.

Fixpoint back_over_blanks (nshort : list Z) (i : nat) : nat :=
  match i with
  | O => O
  | S j => if nth i nshort 0 =? 32 then back_over_blanks nshort j else i
  end.

(** [memcpy(l + i, src, length src)] *)
Definition copy_at (i : nat) (src l : list Z) : list Z := list_inserts i src l.

Definition munge_short_name_english (nshort : list Z) (value : Z) : list Z :=
  let buffer := tilde value in
  copy_at (S (back_over_blanks nshort (7 - length buffer))) buffer nshort.

Fixpoint sjis_last (fuel : nat) (nshort : list Z) (i limit last : nat) : nat :=
  match fuel with
  | O => last
  | S fuel =>
      if (limit <? i)%nat then last
      else if nth i nshort 0 =? 32 then i
      else sjis_last fuel nshort (if is_initial_sjis_byte (nth i nshort 0) then i + 2 else i + 1) limit i
  end.

Definition munge_short_name_sjis (nshort : list Z) (value : Z) : list Z :=
  let buffer := tilde value in
  let last := sjis_last 9 nshort 0 (8 - length buffer) 0 in
  copy_at (last + length buffer) (blanks (8 - (last + length buffer))) (copy_at last buffer nshort).

Definition munge (nshort : list Z) (value encoding : Z) : list Z :=
  if encoding =? MS_DOS_CONVERSION then munge_short_name_english nshort value
  else if encoding =? SJIS_CONVERSION then munge_short_name_sjis nshort value
  else nshort.

Definition munge_short_name1_fun (nshort : list Z) (iteration encoding : Z) : list Z :=
  munge nshort iteration encoding.

(** [time] is what [system_time] answers. *)
Definition munge_short_name2_fun (time : Z) (nshort : list Z) (encoding : Z) : list Z :=
  let value := Z.rem time 100000 in
  munge nshort (if value =? 0 then 1 else value) encoding.

(** ** Whether a short name stands for another name *)

(** The loop over a field of the name: [None] is the answer true. *)
Fixpoint count_field (limit : Z) (is_ext : bool) (nshort : list Z) (off : Z) (s : list Z) (n : Z)
    : option (Z * list Z) :=
  match s with
  | [] => Some (n, [])
  | c :: s' =>
      if negb (BEGINS_UTF8CHAR c) then count_field limit is_ext nshort off s' n
      else if c =? 46 then if is_ext then None else Some (n, s)
      else if limit <? n + 1 then None
      else if (nth (Z.to_nat (off + n)) nshort 0 =? 95) && negb (c =? 95) then None
      else count_field limit is_ext nshort off s' (n + 1)
  end.

Definition used (l : list Z) : Z := Z.of_nat (length (filter (fun c => c <> 32) l)).

Definition requires_munged_short_name_fun (utf8name : cstring) (nshort : list Z) (encoding : Z) : bool :=
  if negb (encoding =? MS_DOS_CONVERSION) then true
  else
    match count_field 8 false nshort 0 utf8name 0 with
    | None => true
    | Some (leading, rest) =>
        match (match rest with [] => Some (0, []) | _ :: r => count_field 3 true nshort leading r 0 end) with
        | None => true
        | Some (trailing, _) =>
            negb (used (take 8 nshort) =? leading) || negb (used (take 3 (drop 8 nshort)) =? trailing)
        end
    end.

(** ** The instance *)

#[export] Instance haiku_encodings `{SjisTables} : Encodings := {
  unicode_to_utf8 := unicode_to_utf8_fun;
  msdos_to_utf8 := msdos_to_utf8_fun;
  utf8_to_unicode := utf8_to_unicode_fun;
  generate_short_name := generate_short_name_fun;
  requires_long_name := requires_long_name_fun;
  requires_munged_short_name := requires_munged_short_name_fun;
  munge_short_name1 := munge_short_name1_fun;
  munge_short_name2 := munge_short_name2_fun
}.
