(* ===== verification/EncodingsSpec.v ===== *)
(** Names survive the conversions: a UTF-8 name turned into the 16 bit units of
    a long name and back is the same name. *)
From stdpp Require Import base gmap list.
From Stdlib Require Import ZArith Lia.
From S2P Require Import Prelude Errors Volume Util Attr Iter Dir Encodings.

(** ** Masks as arithmetic *)

Lemma land_mask x j k m :
  0 <= j -> 0 <= k -> m = (2 ^ k - 1) * 2 ^ j -> Z.land x m = (x / 2 ^ j mod 2 ^ k) * 2 ^ j.
Proof.
  intros Hj Hk ->. replace (2 ^ k - 1) with (Z.ones k) by (rewrite Z.ones_equiv; lia).
  rewrite <-Z.land_ones, <-Z.shiftr_div_pow2, <-!Z.shiftl_mul_pow2 by lia.
  apply Z.bits_inj'. intros i Hi. rewrite Z.land_spec, !Z.shiftl_spec by lia.
  destruct (Z.ltb_spec i j).
  - rewrite !(Z.testbit_neg_r _ (i - j)) by lia. apply andb_false_r.
  - rewrite Z.land_spec, Z.shiftr_spec by lia. by replace (i - j + j) with i by lia.
Qed.

Lemma land_mask_0 x j k m :
  0 <= j -> 0 <= k -> m = (2 ^ k - 1) * 2 ^ j -> (Z.land x m =? 0) = (x / 2 ^ j mod 2 ^ k =? 0).
Proof.
  intros Hj Hk Hm. rewrite (land_mask x j k m Hj Hk Hm). pose proof (Z.pow_pos_nonneg 2 j ltac:(lia) Hj).
  destruct (Z.eqb_spec (x / 2 ^ j mod 2 ^ k) 0) as [->|]; [done|]. apply Z.eqb_neq. nia.
Qed.

(** ** One character *)

(** The UTF-8 encoding of a character of the basic plane. *)
Definition utf8_of (u : Z) : list Z :=
  if u <? 0x80 then [u]
  else if u <? 0x800 then [0xc0 + u / 64; 0x80 + u mod 64]
  else [0xe0 + u / 4096; 0x80 + u / 64 mod 64; 0x80 + u mod 64].
Definition le16 (u : Z) : list Z := [u mod 256; u / 256].

(** Not the terminator, and not the first half of a surrogate pair. *)
Definition name_char (u : Z) : Prop := 0 < u < 0x10000 /\ ~ (0xd800 <= u < 0xdc00).

Lemma lor_80 x : Z.lor 0x80 (x mod 64) = 0x80 + x mod 64.
Proof. change 0x80 with (2 * 2 ^ 6). apply lor_add; [lia|]. apply Z.mod_pos_bound. lia. Qed.

Lemma u_to_utf8_spec u next : 0 <= u < 0x10000 -> ~ (0xd800 <= u < 0xdc00) -> u_to_utf8 u next = utf8_of u.
Proof.
  intros Hu Hs. unfold u_to_utf8, utf8_of.
  rewrite (land_mask_0 u 7 9), (land_mask_0 u 11 5), (land_mask u 10 6 0xfc00) by (lia || reflexivity).
  rewrite !Z.shiftr_div_pow2, !(land_ones_mod _ 6 0x3f) by (lia || reflexivity).
  change (2 ^ 7) with 128. change (2 ^ 9) with 512. change (2 ^ 11) with 2048. change (2 ^ 5) with 32.
  change (2 ^ 10) with 1024. change (2 ^ 6) with 64. change (2 ^ 12) with 4096.
  destruct (Z.eqb_spec (u / 128 mod 512) 0), (Z.ltb_spec u 0x80); try (exfalso; zlia); [done|].
  destruct (Z.eqb_spec (u / 2048 mod 32) 0), (Z.ltb_spec u 0x800); try (exfalso; zlia).
  - rewrite lor_80. change 0xc0 with (6 * 2 ^ 5). rewrite lor_add by zlia. by rewrite u8_small by zlia.
  - destruct (Z.eqb_spec (u / 1024 mod 64 * 1024) 0xd800); [exfalso; zlia|]. cbn [negb].
    rewrite !lor_80. change 0xe0 with (14 * 2 ^ 4). rewrite lor_add by zlia. by rewrite u8_small by zlia.
Qed.

Lemma lor_shifted a b k n : 0 <= k -> n = 2 ^ k -> 0 <= b < n -> Z.lor (Z.shiftl a k) b = a * n + b.
Proof. intros Hk -> Hb. rewrite Z.shiftl_mul_pow2 by lia. by apply lor_add. Qed.

Lemma utf8_to_u_spec u rest : name_char u ->
  utf8_to_u (utf8_of u ++ rest) = Some (u, Z.of_nat (length (utf8_of u))).
Proof.
  intros [Hu Hs]. unfold utf8_to_u, utf8_of.
  destruct (Z.ltb_spec u 0x80); [|destruct (Z.ltb_spec u 0x800)]; cbn [app nth length];
    rewrite ?(land_mask_0 _ 7 1 0x80), ?(land_mask_0 _ 5 1 0x20), ?(land_mask_0 _ 4 1 0x10),
      ?(land_mask _ 6 2 0xc0) by (lia || reflexivity);
    rewrite ?(land_ones_mod _ 6 63), ?(land_ones_mod _ 5 31), ?(land_ones_mod _ 4 15) by (lia || reflexivity);
    change (2 ^ 7) with 128; change (2 ^ 5) with 32; change (2 ^ 4) with 16; change (2 ^ 6) with 64;
    change (2 ^ 2) with 4; change (2 ^ 1) with 2; cbv zeta.
  - destruct (Z.eqb_spec (u / 128 mod 2) 0); [done|exfalso; zlia].
  - destruct (Z.eqb_spec ((192 + u / 64) / 128 mod 2) 0); [exfalso; zlia|].
    destruct (Z.eqb_spec ((128 + u mod 64) / 64 mod 4 * 64) 128); [|exfalso; zlia]. cbn [negb].
    destruct (Z.eqb_spec ((192 + u / 64) / 32 mod 2) 0); [|exfalso; zlia].
    rewrite (lor_shifted _ _ 6 64) by zlia. do 2 f_equal. zlia.
  - destruct (Z.eqb_spec ((224 + u / 4096) / 128 mod 2) 0); [exfalso; zlia|].
    destruct (Z.eqb_spec ((128 + u / 64 mod 64) / 64 mod 4 * 64) 128); [|exfalso; zlia]. cbn [negb].
    destruct (Z.eqb_spec ((224 + u / 4096) / 32 mod 2) 0); [exfalso; zlia|].
    destruct (Z.eqb_spec ((128 + u mod 64) / 64 mod 4 * 64) 128); [|exfalso; zlia]. cbn [negb].
    destruct (Z.eqb_spec ((224 + u / 4096) / 16 mod 2) 0); [|exfalso; zlia].
    do 2 f_equal. replace ((128 + u / 64 mod 64) mod 64) with (u / 64 mod 64) by zlia.
    replace ((128 + u mod 64) mod 64) with (u mod 64) by zlia.
    rewrite (Z.shiftl_mul_pow2 (u / 64 mod 64)) by lia. rewrite (lor_shifted _ _ 12 4096) by zlia.
    replace (((224 + u / 4096) mod 16) * 4096 + u / 64 mod 64 * 2 ^ 6) with ((u / 64) * 2 ^ 6) by zlia.
    rewrite lor_add by zlia. zlia.
Qed.

Lemma char_len_range a n k c :
  forallb (fun c => utf8_char_len c =? k) (seqZ a n) = true -> a <= c < a + n -> utf8_char_len c = k.
Proof.
  rewrite forallb_forall. intros H Hc. apply Z.eqb_eq, H, list_elem_of_In, elem_of_seqZ. lia.
Qed.

Lemma char_len_spec u : name_char u \/ u = 0 ->
  exists c rest, utf8_of u = c :: rest /\ utf8_char_len c = Z.of_nat (length (utf8_of u)).
Proof.
  intros Hu. assert (Hr : 0 <= u < 0x10000) by (unfold name_char in Hu; lia). unfold utf8_of.
  destruct (Z.ltb_spec u 0x80); [|destruct (Z.ltb_spec u 0x800)]; eexists _, _; (split; [done|]); cbn [length].
  - apply (char_len_range 0 0x80); [vm_compute; reflexivity|lia].
  - apply (char_len_range 0xc0 0x20); [vm_compute; reflexivity|zlia].
  - apply (char_len_range 0xe0 0x10); [vm_compute; reflexivity|zlia].
Qed.

Lemma utf8_of_length u : (1 <= length (utf8_of u) <= 3)%nat.
Proof. unfold utf8_of. repeat case_match; simpl; lia. Qed.

(** ** Whole names *)

Definition utf8_name (us : list Z) : cstring := concat (map utf8_of us).
Definition le16_name (us : list Z) : list Z := concat (map le16 us).

Lemma le16_name_length us : length (le16_name us) = (2 * length us)%nat.
Proof. unfold le16_name. induction us as [|u us IH]; [done|]. cbn [map concat length]. rewrite length_app. simpl. lia. Qed.

Lemma le16_bytes u : 0 <= u < 0x10000 -> Z.land u 0xff = u mod 256 /\ Z.shiftr u 8 = u / 256.
Proof.
  intros Hu. rewrite (land_ones_mod u 8), Z.shiftr_div_pow2 by (lia || reflexivity). done.
Qed.

Lemma to_unicode_loop_name us fuel dstLimit dstCount :
  Forall name_char us -> (length (utf8_name us) < fuel)%nat -> dstCount + 2 * Z.of_nat (length us) < dstLimit ->
  to_unicode_loop fuel (utf8_name us ++ [0]) dstLimit dstCount = Some (le16_name us ++ [0; 0]).
Proof.
  intros Hus. revert fuel dstCount. induction Hus as [|u us Hu _ IH]; intros fuel dstCount Hf Hd.
  - destruct fuel; [simpl in Hf; lia|]. cbn [utf8_name le16_name map concat app to_unicode_loop].
    simpl in Hd. rewrite (proj2 (Z.ltb_lt _ _)) by lia. cbn. by destruct fuel.
  - unfold utf8_name, le16_name in *. cbn [map concat] in *.
    pose proof (utf8_of_length u) as Hl. rewrite length_app in Hf. cbn [length] in Hd.
    destruct (char_len_spec u (or_introl Hu)) as (c & r & E & Ec).
    destruct fuel as [|fuel]; [lia|]. rewrite <-!(assoc_L (++)). cbn [to_unicode_loop].
    pose proof (utf8_to_u_spec u (concat (map utf8_of us) ++ [0]) Hu) as Eu.
    destruct (utf8_of u ++ concat (map utf8_of us) ++ [0]) as [|c' s'] eqn:Es; [by rewrite E in Es|].
    assert (c' = c) as -> by (rewrite E in Es; by injection Es).
    rewrite (proj2 (Z.ltb_lt _ _)) by lia. cbn [negb]. rewrite Ec, <-Es.
    rewrite (proj2 (Z.ltb_ge _ _)) by (rewrite length_app; lia). rewrite Es, Eu, <-Es, Nat2Z.id, drop_app_length.
    rewrite IH by lia. cbn [mbind option_bind]. unfold name_char in Hu.
    destruct (le16_bytes u ltac:(lia)) as [-> ->]. done.
Qed.

Lemma unit_at_app pre u post i :
  0 <= u < 0x10000 -> i = Z.of_nat (length pre) -> unit_at (pre ++ le16 u ++ post) i = u.
Proof.
  intros Hu ->. unfold unit_at, read16, byte_at, le16. rewrite Z2Nat.inj_add, !Nat2Z.id by lia.
  change (Z.to_nat 1) with 1%nat. rewrite (app_nth2 pre _ 0 (n := length pre)) by lia.
  rewrite (app_nth2 pre _ 0 (n := length pre + 1)) by lia.
  replace (length pre - length pre)%nat with 0%nat by lia.
  replace (length pre + 1 - length pre)%nat with 1%nat by lia. cbn [app nth]. zlia.
Qed.

Lemma lendian_loop_name us pre fuel dstLimit dstCount :
  Forall (fun u => name_char u \/ u = 0) us -> (length us < fuel)%nat ->
  let uni := pre ++ le16_name us in
  dstCount + Z.of_nat (length (utf8_name us)) <= dstLimit ->
  lendian_loop fuel uni (Z.of_nat (length uni)) dstLimit (Z.of_nat (length pre)) dstCount
  = (Z.of_nat (length uni), utf8_name us).
Proof.
  intros Hus. revert pre fuel dstCount. induction Hus as [|u us Hu _ IH]; intros pre fuel dstCount Hf uni Hd.
  - destruct fuel; [simpl in Hf; lia|]. subst uni. cbn [lendian_loop le16_name map concat]. rewrite app_nil_r.
    by rewrite Z.leb_refl.
  - destruct fuel as [|fuel]; [simpl in Hf; lia|]. cbn [lendian_loop]. cbn [length] in Hf.
    assert (Hr : 0 <= u < 0x10000 /\ ~ (0xd800 <= u < 0xdc00)) by (unfold name_char in Hu; lia).
    assert (Hlen : length uni = (length pre + 2 + 2 * length us)%nat).
    { subst uni. rewrite length_app, le16_name_length. simpl. lia. }
    rewrite (proj2 (Z.leb_gt _ _)) by lia.
    assert (Hunit : unit_at uni (Z.of_nat (length pre)) = u).
    { subst uni. unfold le16_name. cbn [map concat]. apply unit_at_app; [apply Hr|done]. }
    rewrite Hunit, u_to_utf8_spec by apply Hr. unfold utf8_name in Hd. cbn [map concat] in Hd.
    rewrite length_app in Hd. rewrite (proj2 (Z.ltb_ge _ _)) by lia.
    assert (Euni : uni = (pre ++ le16 u) ++ le16_name us).
    { subst uni. unfold le16_name. cbn [map concat]. by rewrite (assoc_L (++)). }
    specialize (IH (pre ++ le16 u) fuel (dstCount + Z.of_nat (length (utf8_of u))) ltac:(lia)).
    cbv zeta in IH. rewrite <-Euni in IH. rewrite length_app in IH. cbn [le16 length] in IH.
    replace (Z.of_nat (length pre) + 2) with (Z.of_nat (length pre + 2)) by lia.
    rewrite IH by (unfold utf8_name; lia). unfold utf8_name. done.
Qed.

Lemma c_str_app s r : Forall (fun c => c <> 0) s -> c_str (s ++ 0 :: r) = s.
Proof.
  induction 1 as [|c s Hc _ IH]; [done|]. cbn [app c_str]. by rewrite (proj2 (Z.eqb_neq c 0)), IH.
Qed.

Lemma utf8_name_nonzero us : Forall name_char us -> Forall (fun c => c <> 0) (utf8_name us).
Proof.
  induction 1 as [|u us Hu _ IH]; [apply Forall_nil; done|]. unfold utf8_name. cbn [map concat].
  apply Forall_app. split; [|done]. destruct Hu as [Hu _]. unfold utf8_of.
  repeat case_match; repeat (apply Forall_cons; split); try apply Forall_nil; try done; zlia.
Qed.

(** The units of a name with at least one terminator behind it. *)
Lemma unicode_to_utf8_name `{SjisTables} us k len :
  Forall name_char us -> (0 < k)%nat ->
  Z.of_nat (length (utf8_name us) + k) <= len ->
  unicode_to_utf8 (le16_name us ++ concat (repeat [0; 0] k)) len = (B_OK, utf8_name us).
Proof.
  intros Hus Hk Hlen. change (unicode_to_utf8 (le16_name us ++ concat (repeat [0; 0] k)) len)
    with (unicode_to_utf8_fun (le16_name us ++ concat (repeat [0; 0] k)) len).
  assert (Ez : concat (repeat [0; 0] k) = le16_name (repeat 0 k)).
  { unfold le16_name. clear. induction k as [|k IH]; [done|]. cbn [repeat map concat]. by rewrite IH. }
  assert (Eu : utf8_name (us ++ repeat 0 k) = utf8_name us ++ repeat 0 k).
  { unfold utf8_name. rewrite map_app, concat_app. f_equal. clear. induction k as [|k IH]; [done|].
    cbn [repeat map concat]. by rewrite IH. }
  assert (El : le16_name us ++ concat (repeat [0; 0] k) = le16_name (us ++ repeat 0 k)).
  { rewrite Ez. unfold le16_name. by rewrite map_app, concat_app. }
  rewrite El. unfold unicode_to_utf8_fun, _lendian_unicode_to_utf8.
  pose proof (lendian_loop_name (us ++ repeat 0 k) [] (length (le16_name (us ++ repeat 0 k))) len 0) as HL.
  cbv zeta in HL. cbn [app length] in HL. change (Z.of_nat 0) with 0 in HL. rewrite HL, Eu.
  - destruct k as [|k]; [lia|]. cbn [repeat]. rewrite Z.ltb_irrefl, c_str_app by by apply utf8_name_nonzero.
    rewrite bool_decide_eq_false_2; [done|]. intros E. apply app_eq_nil in E. by destruct E.
  - apply Forall_app. split; [eapply Forall_impl; [exact Hus|by left]|]. apply Forall_forall. intros x Hx.
    apply list_elem_of_In, repeat_spec in Hx. by right.
  - rewrite le16_name_length, length_app, repeat_length. lia.
  - rewrite Eu, length_app, repeat_length. lia.
Qed.

(** C40: the UTF-8 form of a name of up to 254 characters of the basic plane is
    turned into the 16 bit units of the name, terminated, and these are turned
    back into the same UTF-8 name, if the buffer has room for it. *)
Theorem utf8_round_trip `{SjisTables} us len :
  Forall name_char us -> (length us <= 254)%nat -> Z.of_nat (length (utf8_name us)) + 1 <= len ->
  utf8_to_unicode (utf8_name us) 512 = (2 * Z.of_nat (length us) + 2, le16_name us ++ [0; 0]) /\
  unicode_to_utf8 (le16_name us ++ [0; 0]) len = (B_OK, utf8_name us).
Proof.
  intros Hus Hl Hlen. split.
  - change (utf8_to_unicode (utf8_name us) 512) with (utf8_to_unicode_fun (utf8_name us) 512).
    unfold utf8_to_unicode_fun. rewrite to_unicode_loop_name; [|done|rewrite length_app; simpl; lia|lia].
    rewrite bool_decide_eq_false_2 by (by intros [_ ?]%app_eq_nil). f_equal.
    rewrite length_app, le16_name_length. simpl. lia.
  - apply (unicode_to_utf8_name us 1); [done|lia|lia].
Qed.

(** Tables for the witnesses: the half-width characters only. *)
#[export] Instance ascii_tables : SjisTables := { sjis00tou := seqZ 0 128; sjis81tou := []; sjise0tou := [] }.

(** "naïve €": characters of one, two and three bytes. *)
Definition a_name : list Z := [0x6e; 0x61; 0xef; 0x76; 0x65; 0x20; 0x20ac].

Lemma a_name_chars : Forall name_char a_name.
Proof. unfold a_name. repeat (apply Forall_cons; split); try apply Forall_nil; try done; unfold name_char; lia. Qed.

Lemma utf8_round_trip_witness :
  utf8_to_unicode [0x6e; 0x61; 0xc3; 0xaf; 0x76; 0x65; 0x20; 0xe2; 0x82; 0xac] 512
  = (16, [0x6e; 0; 0x61; 0; 0xef; 0; 0x76; 0; 0x65; 0; 0x20; 0; 0xac; 0x20; 0; 0]).
Proof.
  apply (utf8_round_trip a_name 512 a_name_chars); [simpl; lia|]. vm_compute. discriminate.
Defined.
