(* ===== verification/NameLaws.v ===== *)
(** What the conversions of names promise the directory code: short names are
    eleven bytes, long names fit the array they are stored in.  The laws are an
    interface; the conversions of Encodings.v have them. *)
From stdpp Require Import base gmap list.
From Stdlib Require Import ZArith Lia.
From S2P Require Import Prelude Errors Volume Util Attr Iter Dir Encodings.

Definition short_bytes (nshort : list Z) : Prop := Forall is_byte nshort /\ length nshort = 11%nat.

Class LawfulEncodings `{Encodings} : Prop := {
  unicode_bytes name len uni :
    Forall is_byte name -> utf8_to_unicode name 512 = (len, uni) -> 0 < len ->
    Forall is_byte uni /\ Z.of_nat (length uni) = len /\ len <= 512;
  short_name_bytes name uni nshort enc :
    Forall is_byte name -> Forall is_byte uni -> generate_short_name name uni = (B_OK, nshort, enc) ->
    short_bytes nshort;
  munge1_bytes nshort i enc : short_bytes nshort -> short_bytes (munge_short_name1 nshort i enc);
  munge2_bytes t nshort enc : short_bytes nshort -> short_bytes (munge_short_name2 t nshort enc)
}.

(** The single byte table has an index for a byte only. *)
Class SjisTablesOk `{SjisTables} : Prop := { sjis00_short : (length sjis00tou <= 256)%nat }.

(** ** Short names *)

Lemma byte_32 : is_byte 32.
Proof. unfold is_byte. lia. Qed.

Lemma table_index_range t x i : table_index t x = Some i -> 0 <= i < Z.of_nat (length t).
Proof.
  revert i. induction t as [|y t IH]; intros i; simpl; [done|]. destruct (y =? x); [intros [= <-]; lia|].
  destruct (table_index t x) as [j|]; simpl; [|done]. intros [= <-]. specialize (IH j eq_refl). lia.
Qed.

Lemma blanks_bytes n : Forall is_byte (blanks n).
Proof. apply Forall_forall. intros x ->%list_elem_of_In%repeat_spec. apply byte_32. Qed.

Lemma pad_bytes n l : Forall is_byte l -> Forall is_byte (pad n l).
Proof. intros H. apply Forall_app. split; [done|apply blanks_bytes]. Qed.

Lemma pad_length n l : (length l <= n)%nat -> length (pad n l) = n.
Proof. intros H. unfold pad. rewrite length_app. unfold blanks. rewrite repeat_length. lia. Qed.

Lemma two_fields base ext :
  Forall is_byte base -> (length base <= 8)%nat -> Forall is_byte ext -> length ext = 3%nat ->
  short_bytes (pad 8 base ++ ext).
Proof.
  intros Hb Hl He Hle. split; [apply Forall_app; split; [by apply pad_bytes|done]|].
  rewrite length_app, pad_length by done. lia.
Qed.

Lemma short_char_byte c x : 0 <= c < 256 -> short_char c = Some x -> is_byte x.
Proof.
  intros Hc. unfold short_char. destruct (_ && _) eqn:E; [intros [= <-]; unfold is_byte; lia|].
  destruct (bool_decide _); [intros [= <-]; unfold is_byte; lia|].
  destruct (table_index capitalize_from c) as [i|] eqn:Ei.
  - intros [= <-]. apply table_index_range in Ei. change (Z.of_nat (length capitalize_from)) with 8 in Ei.
    assert (i = 0 \/ i = 1 \/ i = 2 \/ i = 3 \/ i = 4 \/ i = 5 \/ i = 6 \/ i = 7) as H by lia.
    destruct H as [-> |[-> |[-> |[-> |[-> |[-> |[-> | ->]]]]]]]; unfold is_byte; simpl; lia.
  - destruct (_ || _); [|done]. intros [= <-]. exact Hc.
Qed.

Lemma short_field_bytes base room us field r :
  Forall is_byte field -> (length field <= room)%nat -> short_field base room us field = Some r ->
  Forall is_byte r /\ (length r <= room)%nat.
Proof.
  revert field. induction us as [|u us IH]; intros field Hf Hl; cbn [short_field]; [by intros [= <-]|].
  destruct (Nat.leb_spec room (length field)); [by intros [= <-]|]. destruct (u =? 0); [by intros [= <-]|].
  destruct (base && _); [destruct (bool_decide _); [by apply IH|by intros [= <-]]|].
  destruct (table_index msdostou u) as [c|] eqn:Ec; [|by apply IH]. destruct (bool_decide _); [done|].
  apply table_index_range in Ec. change (Z.of_nat (length msdostou)) with 256 in Ec.
  destruct (short_char c) as [x|] eqn:Ex; [|by apply IH]. apply IH; [|rewrite length_app; simpl; lia].
  apply Forall_app. split; [done|]. apply Forall_singleton. by eapply short_char_byte.
Qed.

Lemma msdos_name_bytes us nshort : generate_short_name_msdos us = (B_OK, nshort) -> short_bytes nshort.
Proof.
  unfold generate_short_name_msdos. destruct (short_field true 8 us []) as [base|] eqn:Eb; [|done].
  apply short_field_bytes in Eb as [Hb Hl]; [|done|simpl; lia].
  assert (Hbl : short_bytes (pad 8 base ++ blanks 3)) by (apply two_fields; auto using blanks_bytes).
  destruct (field_at_nul 8 us []); [by intros [= <-]|]. destruct (after_last_dot us) as [us'|]; [|by intros [= <-]].
  destruct (short_field false 3 us' []) as [ext|] eqn:Ee; [|done].
  apply short_field_bytes in Ee as [He Hle]; [|done|simpl; lia]. intros [= <-].
  apply two_fields; auto using pad_bytes, pad_length.
Qed.

(** ** Shift-JIS *)

Lemma to_upper_byte c : is_byte c -> is_byte (to_upper c).
Proof. unfold to_upper, is_byte. intros H. destruct (_ && _) eqn:E; lia. Qed.

Lemma nth_byte (l : list Z) i : Forall is_byte l -> is_byte (nth i l 0).
Proof.
  intros H. destruct (nth_in_or_default i l 0) as [Hi| ->]; [|unfold is_byte; lia].
  rewrite Forall_forall in H. apply H. by apply list_elem_of_In.
Qed.

Section Sjis.
Context `{SjisTablesOk}.

Lemma sjis_bytes_ok u : Forall is_byte (sjis_bytes u).
Proof using All.
  unfold sjis_bytes. destruct (table_index sjis00tou u) as [i|] eqn:E.
  { apply table_index_range in E. pose proof sjis00_short. apply Forall_singleton. unfold is_byte. lia. }
  assert (H16 : forall x, Forall is_byte [u16 x / 256; u16 x mod 256]).
  { intros x. repeat (apply Forall_cons; split); [| |apply Forall_nil]; unfold is_byte, u16; zlia. }
  destruct (table_index sjis81tou u); [apply H16|]. destruct (table_index sjise0tou u); [apply H16|].
  apply Forall_singleton. unfold is_byte. lia.
Qed.

Lemma sjis_loop_bytes fuel s limit count k l : sjis_loop fuel s limit count = Some (k, l) -> Forall is_byte l.
Proof using All.
  revert s count k l. induction fuel as [|fuel IH]; intros s count k l; cbn [sjis_loop]; [by intros [= <- <-]|].
  destruct s as [|c s]; [by intros [= <- <-]|]. destruct (negb _); [by intros [= <- <-]|].
  destruct (_ <? _); [by intros [= <- <-]|]. destruct (utf8_to_u _) as [[u n]|]; [|done].
  destruct (_ && _); [by intros [= <- <-]|]. destruct (sjis_loop fuel _ _ _) as [[k' rest]|] eqn:E; simpl; [|done].
  intros [= <- <-]. apply Forall_app. split; [apply sjis_bytes_ok|by eapply IH].
Qed.
End Sjis.

Lemma sjis_field_bytes base room fuel s field r s' b :
  Forall is_byte s -> Forall is_byte field -> (length field <= room)%nat ->
  sjis_field base room fuel s field = (r, s', b) ->
  Forall is_byte r /\ (length r <= room)%nat /\ Forall is_byte s'.
Proof.
  revert s field. induction fuel as [|fuel IH]; intros s field Hs Hf Hl; cbn [sjis_field]; [by intros [= <- <- <-]|].
  destruct (Nat.leb_spec room (length field)); [by intros [= <- <- <-]|].
  assert (Hd : forall n, Forall is_byte (drop n s)) by (intros n; by apply Forall_drop).
  destruct (is_initial_sjis_byte _).
  - destruct (Nat.ltb_spec (length field) (room - 1)); [|by intros [= <- <- <-]]. apply IH; [apply Hd| |].
    + apply Forall_app. split; [done|]. repeat (apply Forall_cons; split); try apply nth_byte; done.
    + rewrite length_app. simpl. lia.
  - destruct (base && _); [by intros [= <- <- <-]|]. destruct (_ =? 0); [by intros [= <- <- <-]|].
    apply IH; [apply Hd| |rewrite length_app; simpl; lia].
    apply Forall_app. split; [done|]. apply Forall_singleton. by apply to_upper_byte, nth_byte.
Qed.

Lemma skip_dots_bytes s : Forall is_byte s -> Forall is_byte (skip_dots s).
Proof. induction 1 as [|c s Hc Hs IH]; simpl; [done|]. destruct (c =? 46); [done|]. by apply Forall_cons. Qed.

Lemma c_str_bytes s : Forall is_byte s -> Forall is_byte (c_str s).
Proof. induction 1 as [|c s Hc Hs IH]; simpl; [done|]. destruct (c =? 0); [done|]. by apply Forall_cons. Qed.

Lemma after_last_dot_bytes s r : Forall is_byte s -> after_last_dot s = Some r -> Forall is_byte r.
Proof.
  intros Hs. revert r. induction Hs as [|c s Hc Hs IH]; intros r; simpl; [done|].
  destruct (after_last_dot s) as [x|]; [intros [= <-]; by apply IH|]. destruct (c =? 46); by intros [= <-].
Qed.

Lemma sjis_name_bytes `{SjisTablesOk} name len nshort :
  generate_short_name_sjis name len = (B_OK, nshort) -> short_bytes nshort.
Proof.
  unfold generate_short_name_sjis. destruct (sjis_loop _ _ _ _) as [[taken sjis]|] eqn:E; [|done].
  apply sjis_loop_bytes in E. destruct (bool_decide _); [done|]. destruct (_ <? _); [done|].
  destruct (sjis_field true 8 9 (skip_dots sjis) []) as [[base rest] at_nul] eqn:Eb.
  apply sjis_field_bytes in Eb as (Hb & Hl & Hr); [|by apply skip_dots_bytes|done|simpl; lia].
  assert (Hbl : short_bytes (pad 8 base ++ blanks 3)) by (apply two_fields; auto using blanks_bytes).
  destruct at_nul; [by intros [= <-]|]. destruct (after_last_dot (c_str rest)) as [ext|] eqn:Ee; [|by intros [= <-]].
  apply after_last_dot_bytes in Ee; [|by apply c_str_bytes].
  destruct (sjis_field false 3 4 (ext ++ [0]) []) as [[x s'] b] eqn:Ex.
  apply sjis_field_bytes in Ex as (Hx & Hlx & _); [|apply Forall_app; split; [done|]|done|simpl; lia].
  - intros [= <-]. apply two_fields; auto using pad_bytes, pad_length.
  - apply Forall_singleton. unfold is_byte. lia.
Qed.

Lemma generate_short_name_bytes `{SjisTablesOk} name uni nshort enc :
  generate_short_name_fun name uni = (B_OK, nshort, enc) -> short_bytes nshort.
Proof.
  unfold generate_short_name_fun. set (e := if existsb _ _ then _ else _).
  destruct (if e =? MS_DOS_CONVERSION then _ else _) as [r n] eqn:E. intros [= -> <- _].
  assert (Hn : short_bytes n) by (destruct (e =? _); [by eapply msdos_name_bytes|by eapply sjis_name_bytes]).
  destruct (_ && _); [|done]. split; [|done]. apply Forall_cons. split; [unfold is_byte; lia|apply blanks_bytes].
Qed.

(** ** Numbered short names *)

Lemma digits_bytes fuel x : Forall is_byte (digits fuel x).
Proof.
  revert x. induction fuel as [|fuel IH]; intros x; [apply Forall_nil; done|]. cbn [digits].
  apply Forall_app. split; [destruct (x <? 10); [by apply Forall_nil|apply IH]|].
  apply Forall_singleton. unfold is_byte. zlia.
Qed.

Lemma tilde_bytes x : Forall is_byte (tilde x).
Proof. apply Forall_cons. split; [unfold is_byte; lia|apply digits_bytes]. Qed.

Lemma copy_at_bytes i src l : Forall is_byte src -> short_bytes l -> short_bytes (copy_at i src l).
Proof.
  intros Hs [Hl Hn]. split; [|by unfold copy_at; rewrite length_inserts]. unfold copy_at. clear Hn. revert i.
  induction Hs as [|x src Hx Hs IH]; intros i; [done|]. simpl. by apply Forall_insert.
Qed.

Lemma munge_bytes nshort x enc : short_bytes nshort -> short_bytes (munge nshort x enc).
Proof.
  intros H. unfold munge. destruct (_ =? _); [by apply copy_at_bytes; [apply tilde_bytes|]|].
  destruct (_ =? _); [|done]. apply copy_at_bytes; [apply blanks_bytes|]. by apply copy_at_bytes; [apply tilde_bytes|].
Qed.

(** ** Long names *)

Lemma land_low x m n : 0 <= n -> m = 2 ^ n - 1 -> 0 <= Z.land x m < 2 ^ n.
Proof. intros Hn Hm. rewrite (land_ones_mod x n m) by done. by apply Z.mod_pos_bound, Z.pow_pos_nonneg. Qed.

Lemma lor_small a b n : 0 <= n -> 0 <= a < 2 ^ n -> 0 <= b < 2 ^ n -> 0 <= Z.lor a b < 2 ^ n.
Proof.
  intros Hn Ha Hb. assert (E : Z.lor a b = Z.lor a b mod 2 ^ n).
  { rewrite <-Z.land_ones by done. apply Z.bits_inj'. intros i Hi. rewrite Z.land_spec, Z.lor_spec.
    destruct (Z.lt_ge_cases i n) as [Hin|Hin]; [by rewrite Z.ones_spec_low, andb_true_r by lia|].
    by rewrite (testbit_above a n), (testbit_above b n) by lia. }
  rewrite E. by apply Z.mod_pos_bound, Z.pow_pos_nonneg.
Qed.

Lemma utf8_to_u_small s u n : Forall is_byte s -> utf8_to_u s = Some (u, n) -> 0 <= u < 2 ^ 16.
Proof.
  intros Hs. unfold utf8_to_u. pose proof (nth_byte s 0 Hs) as H0. unfold is_byte in H0.
  assert (H31 : forall x, 0 <= Z.land x 31 < 2 ^ 5) by (intros; by apply land_low).
  assert (H15 : forall x, 0 <= Z.land x 15 < 2 ^ 4) by (intros; by apply land_low).
  assert (H63 : forall x, 0 <= Z.land x 63 < 2 ^ 6) by (intros; by apply land_low).
  assert (Hsh : forall x a b, 0 <= x < 2 ^ a -> 0 <= b -> 0 <= a -> a + b <= 16 -> 0 <= Z.shiftl x b < 2 ^ 16).
  { intros x a b Hx Hb Ha Hab. rewrite Z.shiftl_mul_pow2 by done. pose proof (Z.pow_pos_nonneg 2 b ltac:(lia) Hb).
    assert (2 ^ (a + b) <= 2 ^ 16) as Hle by (apply Z.pow_le_mono_r; lia). rewrite Z.pow_add_r in Hle by lia. nia. }
  repeat case_match; intros [= <- _]; try lia; repeat apply lor_small; try lia.
  - apply (Hsh _ 5); done || lia.
  - pose proof (H63 (nth 1 s 0)). lia.
  - apply (Hsh _ 4); done || lia.
  - apply (Hsh _ 6); done || lia.
  - pose proof (H63 (nth 2 s 0)). lia.
Qed.

Lemma to_unicode_bytes fuel s count l :
  Forall is_byte s -> 0 <= count <= 512 -> count mod 2 = 0 -> to_unicode_loop fuel s 511 count = Some l ->
  Forall is_byte l /\ count + Z.of_nat (length l) <= 512.
Proof.
  revert s count l. induction fuel as [|fuel IH]; intros s count l Hs Hc Hm; cbn [to_unicode_loop];
    [intros [= <-]; split; [by apply Forall_nil|simpl; lia]|].
  assert (Hnil : Forall is_byte [] /\ count + Z.of_nat (length (A := Z) []) <= 512) by (split; [by apply Forall_nil|simpl; lia]).
  destruct s as [|c s]; [by intros [= <-]|]. destruct (Z.ltb_spec count 511) as [Hlt|]; cbn [negb]; [|by intros [= <-]].
  destruct (_ <? _); [by intros [= <-]|]. destruct (utf8_to_u _) as [[u n]|] eqn:Eu; [|done].
  apply utf8_to_u_small in Eu; [|done].
  destruct (to_unicode_loop fuel _ _ _) as [rest|] eqn:E; simpl; [|done]. intros [= <-].
  apply IH in E as [Hr Hl]; [|by apply Forall_drop|zlia|zlia]. split; [|simpl; lia].
  repeat (apply Forall_cons; split); [by apply (land_low u 255 8)| |done].
  rewrite Z.shiftr_div_pow2 by lia. unfold is_byte. zlia.
Qed.

#[export] Instance haiku_encodings_lawful `{SjisTablesOk} : LawfulEncodings.
Proof.
  split.
  - intros name len uni Hn. cbn. unfold utf8_to_unicode_fun. change (512 - 1) with 511.
    destruct (to_unicode_loop _ _ _ _) as [dst|] eqn:E; [|by intros [= <- <-]].
    apply to_unicode_bytes in E as [Hb Hl]; [|apply Forall_app; split; [done|]|lia|done].
    + destruct (bool_decide _); [by intros [= <- <-]|]. intros [= <- <-] _. split_and!; [done|done|lia].
    + apply Forall_singleton. unfold is_byte. lia.
  - intros name uni nshort enc _ _. apply generate_short_name_bytes.
  - intros nshort i enc. apply munge_bytes.
  - intros t nshort enc. apply munge_bytes.
Qed.
