(* ===== verification/DirSpec.v ===== *)
(** Scanning a directory and erasing an entry: what [_next_dirent_] and
    [erase_dir_entry] (dir.c) do. *)
From Stdlib Require Import String Ascii.
From stdpp Require Import base gmap list.
From Stdlib Require Import ZArith Lia.
From S2P Require Import Prelude Errors Volume Fat FatEntry FatIoctl FatTable FatChain Sample Util Attr Iter Stream StreamSpec Dirent EntrySpec Dir DirScan LongName DirCreate Encodings EncodingsSpec.

Implicit Types vol v : nspace.

(** ** A directory to compute with *)

(** The root directory of the sample volume with a label, an erased entry, a
    file with a long and one with a short name only. *)
Definition long_parts : list Z := [0x6e; 0; 0x61; 0; 0xef; 0; 0x76; 0; 0x65; 0; 0; 0] ++ repeat 0xff 14.
Definition entry_image (name : string) (mode c size : Z) (k : Z) : Z :=
  short_image (bytes_of name) 12 mode c 0 size k.
Definition sample_entry (j : Z) : Z -> Z :=
  if j =? 0 then entry_image "SAMPLE     " FAT_VOLUME 0 0
  else if j =? 1 then fun k => if k =? 0 then 0xe5 else entry_image "OLD     TXT" FAT_ARCHIVE 0 0 k
  else if j =? 2 then lfn_image 0x41 (hash_msdos_name (bytes_of "NAVE~1     ")) long_parts
  else if j =? 3 then entry_image "NAVE~1     " FAT_ARCHIVE 2 1500
  else if j =? 4 then entry_image "README     " FAT_READ_ONLY 0 0
  else fun _ => 0.
Definition sample_block : block := concat (map (fun j => map (sample_entry j) (seqZ 0 32)) (seqZ 0 16)).
Definition rooted : nspace := set_fBlockCache (<[5 := sample_block]> (fBlockCache floppy)) floppy.

Lemma rooted_layout : layout_ok rooted.
Proof. apply layout_okb_true. vm_compute. reflexivity. Qed.

Lemma rooted_root : stream rooted 1 [5; 6; 7; 8; 9].
Proof.
  replace [5; 6; 7; 8; 9] with (seqZ (root_start rooted) (root_sectors rooted)) by (vm_compute; reflexivity).
  apply stream_root; [vm_compute; discriminate|reflexivity].
Qed.

Lemma rooted_directory : directory rooted 1 [5; 6; 7; 8; 9].
Proof.
  split; [exact rooted_root| |done|vm_compute; reflexivity|vm_compute; reflexivity].
  apply readable_all; [apply rooted_layout|vm_compute; reflexivity].
Qed.

(** No long name entry with number 0: a check by evaluation. *)
Definition lfn_saneb (vol : nspace) (bl : list Z) (t : Z) : bool :=
  negb (bool_decide (kind vol bl t = Long_part)) || (Z.land (dirent vol bl t 0) 0x40 =? 0)
  || negb (Z.land (dirent vol bl t 0) 0x1f =? 0).

Lemma lfn_saneb_all vol bl i n :
  forallb (lfn_saneb vol bl) (seqZ i (n - i)) = true -> forall t, i <= t < n -> lfn_sane vol bl t.
Proof.
  rewrite forallb_forall. intros H t Ht. specialize (H t).
  assert (Hin : In t (seqZ i (n - i))) by (apply list_elem_of_In, elem_of_seqZ; lia).
  apply H in Hin. unfold lfn_saneb in Hin. intros Hk Hm.
  rewrite bool_decide_eq_true_2 in Hin by done. rewrite (proj2 (Z.eqb_neq _ _) Hm) in Hin. cbn in Hin.
  intros E. by rewrite E in Hin.
Qed.

(** ** Scanning *)

(** The checksum the long name of entry [j] carries. *)
Definition short_hash (vol : nspace) (bl : list Z) (j : Z) : Z :=
  hash_msdos_name (map (dirent vol bl j) (seqZ 0 11)).

(** A long name may begin at [s]: it is where the scan begins, or an entry that
    is erased comes before. *)
Definition fresh (vol : nspace) (bl : list Z) (i s : Z) : Prop := s = i \/ i < s /\ kind vol bl (s - 1) = Erased.

(** What a scan from [i] on reports of entry [j]: the first entry of its name,
    and the name.  It is the long name when all parts of it are there and
    their checksum is that of the short name; and it is the short name only
    when there is no such long name. *)
Inductive named `{Encodings} (vol : nspace) (bl : list Z) (i j len : Z) : Z -> cstring -> Prop :=
| named_long s text name :
    i <= s < j -> s <> 0xffff -> long_name vol bl s j (short_hash vol bl j) text -> unicode_to_utf8 text len = (0, name) ->
    named vol bl i j len s name
| named_short :
    (forall s text, i <= s < j -> s <> 0xffff -> fresh vol bl i s -> ~ long_name vol bl s j (short_hash vol bl j) text) ->
    named vol bl i j len j (short_name_of vol bl j len).

(** The long name in front of entry [j] does not fit the buffer. *)
Definition too_long `{Encodings} (vol : nspace) (bl : list Z) (i j len s : Z) : Prop :=
  i <= s < j /\ exists hash text, long_name vol bl s j hash text /\ (unicode_to_utf8 text len).1 <> 0.

Section Names.
Context `{Encodings} (vol : nspace) (Hlo : layout_ok vol) (start : Z) (bl : list Z) (Hd : directory vol start bl).

Local Ltac reported_ok :=
  change (B_OK <? 0) with false; cbv iota; match goal with |- context [let '(_, _) := ?x in _] => destruct x end; discriminate.

Lemma scan_finish_names i j p d l len :
  0 <= i -> i <= j < dir_entries vol bl -> dirent_ptr vol bl j = Some p -> at_pos vol start bl j d ->
  collecting vol bl i j l ->
  (forall s text, i <= s < j -> s <> 0xffff -> fresh vol bl i s -> long_name vol bl s j (short_hash vol bl j) text ->
     start_index l = s /\ lf_hash l = short_hash vol bl j /\ lfn_count l = 1) ->
  (exists d' s, scan_finish vol p d l len = (ENAMETOOLONG, d', None) /\ too_long vol bl i j len s /\ at_pos vol start bl s d') \/
  (exists d' info name, scan_finish vol p d l len = (B_OK, d', Some (info, name)) /\
     info_of vol bl i j info /\ at_pos vol start bl (j + 1) d' /\ named vol bl i j len (di_sindex info) name).
Proof using Hlo Hd.
  intros Hi Hj Hp Hat Hc Hfresh. pose proof (n_small vol Hlo start bl Hd) as Hn.
  assert (Hl : lfn_from i j l) by (destruct Hc as [[? _]|(_ & ? & _)]; [by left|by right]).
  assert (Eb : ent_bytes vol p 0 11 = map (dirent vol bl j) (seqZ 0 11)).
  { unfold ent_bytes. apply map_ext. intros k. symmetry. by apply dirent_ptr_get. }
  assert (Hshort : (start_index l = 0xffff \/ lfn_count l <> 1 \/ lf_hash l <> short_hash vol bl j) ->
    named vol bl i j len j (short_name_of vol bl j len)).
  { intros Hcase. constructor. intros s text Hs Hne Hf Hln. destruct (Hfresh s text Hs Hne Hf Hln) as (E1 & E2 & E3).
    destruct Hcase as [E|[E|E]]; congruence. }
  destruct (scan_finish_spec vol Hlo start bl Hd i j p d l len Hi Hj Hp Hat Hl)
    as [(d' & s & E & Hs & Hat')|(d' & info & name & E & Hinfo & Hat' & Hname)]; [left|right].
  - exists d', s. split; [done|]. split; [|done]. split; [done|]. revert E. unfold scan_finish. rewrite Eb.
    destruct (Z.eqb_spec (start_index l) 0xffff) as [Es|Es]; cbn [negb];
      [reported_ok|].
    destruct (Z.eqb_spec (lfn_count l) 1) as [Ec|Ec]; cbn [negb]; [|reported_ok].
    destruct Hc as [[? _]|(_ & _ & Hg)]; [done|]. destruct (gathered_whole vol bl _ j l Hg Ec) as (text & Hln & ->).
    destruct (unicode_to_utf8 text len) as [r name] eqn:Eu. destruct (Z.eqb_spec r 0) as [|Er]; cbn [negb].
    { destruct (negb _); reported_ok. }
    change (ENAMETOOLONG <? 0) with true. cbv iota. intros [= Ed].
    destruct (at_pos_index vol start bl j d ltac:(lia) Hat) as (_ & _ & Hsc & _).
    assert (Hr2 : i <= start_index l < j) by (destruct Hl; done).
    pose proof (init_at_pos vol Hlo start bl Hd (start_index l) (diri_free d) ltac:(lia)) as Hinit.
    rewrite <-Hsc in Hinit. destruct (diri_init vol (starting_cluster d) _ _) as [q d2]. destruct Hinit as [_ Hat2]. simpl in Ed. subst d2.
    assert (s = start_index l) as ->; [|exists (lf_hash l), text; split; [done|by rewrite Eu]].
    rewrite <-(at_pos_current vol start bl s d' Hat'). by eapply at_pos_current.
  - exists d', info, name. split; [done|]. split; [done|]. split; [done|]. revert E Hname. unfold scan_finish. rewrite Eb.
    destruct (at_pos_index vol start bl j d ltac:(lia) Hat) as (Hci & _).
    destruct (Z.eqb_spec (start_index l) 0xffff) as [Es|Es]; cbn [negb].
    { change (B_OK <? 0) with false. cbv iota. rewrite Es, Z.eqb_refl. intros [= _ Ei _] Hname. subst info. cbn [di_sindex] in *.
      rewrite Hci in *. rewrite Hname by done. apply Hshort. by left. }
    destruct (Z.eqb_spec (lfn_count l) 1) as [Ec|Ec]; cbn [negb].
    2: { change (B_OK <? 0) with false. cbv iota. cbn [start_index drop_lfn]. rewrite Z.eqb_refl. intros [= _ Ei _] Hname.
         subst info. cbn [di_sindex] in *. rewrite Hci in *. rewrite Hname by done. apply Hshort. by right; left. }
    destruct Hc as [[? _]|(_ & Hr & Hg)]; [done|]. destruct (gathered_whole vol bl _ j l Hg Ec) as (text & Hln & ->).
    destruct (unicode_to_utf8 text len) as [r u] eqn:Eu. destruct (Z.eqb_spec r 0) as [->|Er]; cbn [negb];
      [|change (ENAMETOOLONG <? 0) with true; cbv iota; intros [=]].
    destruct (Z.eqb_spec (hash_msdos_name (map (dirent vol bl j) (seqZ 0 11))) (lf_hash l)) as [Eh|Eh]; cbn [negb];
      change (B_OK <? 0) with false; cbv iota.
    + rewrite (proj2 (Z.eqb_neq _ _) Es). intros [= _ Ei En] _. subst info. cbn [di_sindex].
      apply (named_long _ _ _ _ _ _ text); [done|done|unfold short_hash; by rewrite Eh|by rewrite Eu, <-En].
    + cbn [start_index drop_lfn]. rewrite Z.eqb_refl. intros [= _ Ei _] Hname. subst info. cbn [di_sindex] in *.
      rewrite Hci in *. rewrite Hname by done. apply Hshort. right; right. unfold short_hash. congruence.
Qed.

Lemma no_lfn_collecting i : collecting vol bl i i no_lfn.
Proof using. left. split; [done|apply repeat_length]. Qed.

(** The outcomes of a call, with the name. *)
Lemma next_dirent_names i d len :
  at_pos vol start bl i d -> 0 <= i < dir_entries vol bl -> 15 <= len ->
  (forall t, i <= t < dir_entries vol bl -> lfn_sane vol bl t) ->
  exists j, stops_at vol bl i j /\
    ((j = dir_entries vol bl \/ kind vol bl j = Free_rest) /\
     (exists d', _next_dirent_ vol d len = Some (ENOENT, d', None) /\ at_pos vol start bl j d') \/
     (kind vol bl j = Short /\ j < dir_entries vol bl) /\
     ((exists d' s, _next_dirent_ vol d len = Some (ENAMETOOLONG, d', None) /\ too_long vol bl i j len s /\
         at_pos vol start bl s d') \/
      (exists d' info name, _next_dirent_ vol d len = Some (B_OK, d', Some (info, name)) /\
         info_of vol bl i j info /\ at_pos vol start bl (j + 1) d' /\ named vol bl i j len (di_sindex info) name))).
Proof using Hlo Hd.
  intros Hat Hi Hlen Hsane. destruct (next_dirent_cases vol Hlo start bl Hd i d len Hat Hi Hlen Hsane) as (j & Hst & Hout).
  exists j. split; [done|]. destruct Hout as [?|[[Hk Hj] _]]; [by left|right]. split; [done|].
  pose proof (ok_blocks _ (lo_fat _ Hlo)) as Hbl. pose proof Hst as (Hij & Hm & _).
  assert (Hall : forall x, i <= x < j -> collects vol bl x /\ sane vol bl x).
  { intros x Hx. split; [by apply Hm|]. apply Hsane. lia. }
  destruct (lfn_run_from vol bl i i (Z.to_nat (j - i)) no_lfn) as (l & Hrun & _);
    [lia|intros; apply Hall; lia|intros; apply Hsane; lia|by left|].
  destruct (next_dirent_short vol Hlo start bl Hd len Hlen i j d l Hat ltac:(lia) Hst Hrun Hk Hj) as (p & d1 & Hp & Hat1 & ->).
  pose proof (run_collecting vol Hbl bl i i (Z.to_nat (j - i)) no_lfn l ltac:(lia) ltac:(intros; apply Hall; lia)
    (no_lfn_collecting i) Hrun) as Hc. replace (i + Z.of_nat (Z.to_nat (j - i))) with j in Hc by lia.
  destruct (scan_finish_names i j p d1 l len ltac:(lia) ltac:(lia) Hp Hat1 Hc) as [(d' & s & E & Hr)|(d' & info & name & E & Hr)].
  - intros s text Hs Hne Hf Hln. replace (Z.to_nat (j - i)) with (Z.to_nat (s - i) + Z.to_nat (j - s))%nat in Hrun by lia.
    rewrite lfn_run_add in Hrun. destruct (lfn_run vol bl i (Z.to_nat (s - i)) no_lfn) as [x|] eqn:E1; [|done].
    cbn [mbind option_bind] in Hrun. replace (i + Z.of_nat (Z.to_nat (s - i))) with s in Hrun by lia.
    assert (Hx : nothing x).
    { destruct Hf as [->|[Hlt Hf]].
      - rewrite Z.sub_diag in E1. injection E1 as <-. split; [done|apply repeat_length].
      - replace (Z.to_nat (s - i)) with (S (Z.to_nat (s - 1 - i))) in E1 by lia.
        apply (run_erased vol Hbl bl i (Z.to_nat (s - 1 - i)) no_lfn x); [|apply repeat_length| |apply no_lfn_collecting|done].
        + by replace (i + Z.of_nat (Z.to_nat (s - 1 - i))) with (s - 1) by lia.
        + intros y Hy. apply Hall. lia. }
    destruct (whole_collected vol Hbl bl s j _ text x l Hln ltac:(lia) Hne) as (A1 & A2 & A3 & _); [apply Hall; lia|done|done|done].
  - left. exists d', s. by rewrite E.
  - right. exists d', info, name. by rewrite E.
Qed.
End Names.



(** A part of a long name with the mark of the last part and the number 0 makes
    the scan store in front of the array of the name. *)
Lemma next_dirent_stray `{Encodings} vol start bl i d len p :
  layout_ok vol -> directory vol start bl -> at_pos vol start bl i d ->
  0 <= i < dir_entries vol bl -> 15 <= len -> dirent_ptr vol bl i = Some p ->
  dirent vol bl i 0 = 0x40 -> dirent vol bl i 0xb = 0x0f ->
  dirent vol bl i 0xc = 0 -> dirent vol bl i 0x1a = 0 -> dirent vol bl i 0x1b = 0 ->
  _next_dirent_ vol d len = None.
Proof.
  intros Hlo Hd Hat Hi Hlen Hp H0 Hb Hc H1a H1b.
  destruct (at_pos_index vol start bl i d ltac:(lia) Hat) as (_ & Hptr & _ & [b Hcur]).
  rewrite !(dirent_ptr_get vol bl i p) in * by done.
  unfold _next_dirent_. rewrite Hcur, (proj2 (Z.ltb_ge len 15)), Hptr, Hp by lia.
  rewrite z_loop_step by (unfold scan_bound; lia). unfold scan_step. rewrite H0, Hb. cbn [Z.eqb Pos.eqb].
  unfold lfn_entry. rewrite Hc, H1a, H1b. unfold lfn_begin. rewrite H0. reflexivity.
Qed.

(** ** Erasing *)

(** The entries from [first] to [last] are those of one name: an entry with a
    short name, alone or behind a long name that begins at [first], has the
    checksum of the short name and fits a buffer of 512 bytes. *)
Definition at_place `{Encodings} vol (bl : list Z) (first last : Z) : Prop :=
  stops_at vol bl first last /\ kind vol bl last = Short /\ last < dir_entries vol bl /\
  (first = last \/ first <> 0xffff /\ exists text, long_name vol bl first last (short_hash vol bl last) text /\
     (unicode_to_utf8 text 512).1 = 0).

Lemma stops_unique vol bl i j1 j2 : stops_at vol bl i j1 -> stops_at vol bl i j2 ->
  j1 < dir_entries vol bl -> j2 < dir_entries vol bl -> j1 = j2.
Proof.
  intros (H1 & M1 & E1) (H2 & M2 & E2) L1 L2. destruct (Z.lt_trichotomy j1 j2) as [Hlt|[->|Hlt]]; [|done|].
  - destruct (M2 j1 ltac:(lia)), E1 as [E1|[E1|E1]]; (lia || congruence).
  - destruct (M1 j2 ltac:(lia)), E2 as [E2|[E2|E2]]; (lia || congruence).
Qed.

(** What the scan from the first of some entries reports. *)
Lemma place_named `{Encodings} vol bl first last s name :
  blocks_ok vol -> at_place vol bl first last -> named vol bl first last 512 s name -> s = first.
Proof.
  intros Hb (_ & _ & _ & [->|(Hf & text & Hn & _)]) Hs.
  - inversion Hs; [lia|done].
  - assert (Hlt : first < last).
    { destruct Hn as (r & [P _ _ _ _ _] & _). destruct (Z.lt_ge_cases first last); [done|].
      unfold parts in P. by rewrite seqZ_nil in P by lia. }
    inversion Hs as [t x u Ht Htn Hl Hu|Hno]; subst.
    + destruct (long_name_unique vol Hb bl s first last _ _ _ _ ltac:(lia) Hlt Hl Hn) as [-> _]. done.
    + exfalso. apply (Hno first text); [lia|done|by left|done].
Qed.

Lemma place_fits `{Encodings} vol bl first last s :
  blocks_ok vol -> at_place vol bl first last -> ~ too_long vol bl first last 512 s.
Proof.
  intros Hb (_ & _ & _ & [->|(Hf & text & Hn & Hu)]) [Hs (h & x & Hl & Hbad)]; [lia|].
  destruct (long_name_unique vol Hb bl s first last _ _ _ _ ltac:(lia) ltac:(lia) Hl Hn) as (-> & _ & ->). done.
Qed.

Lemma named_place `{Encodings} vol bl first last name :
  stops_at vol bl first last -> kind vol bl last = Short -> last < dir_entries vol bl ->
  named vol bl first last 512 first name -> at_place vol bl first last.
Proof.
  intros Hst Hk Hj Hn. split_and!; try done. inversion Hn as [t text u Hr Hne Hl Hu|]; subst; [right|by left].
  split; [done|]. exists text. by rewrite Hu.
Qed.

(** [erase_dir_entry] marks the entries of the node if they are those of one
    name, and leaves the volume as it is if they are not. *)
Lemma erase_dir_entry_exact `{Encodings} vol node bl :
  layout_ok vol -> directory vol (VNODE_PARENT_DIR_CLUSTER node) bl ->
  0 <= sindex node < dir_entries vol bl ->
  (forall t, sindex node <= t < dir_entries vol bl -> lfn_sane vol bl t) ->
  exists r v, erase_dir_entry vol node = Some (r, v) /\
    (at_place vol bl (sindex node) (eindex node) /\ r = B_OK /\
       dir_is vol (VNODE_PARENT_DIR_CLUSTER node) bl (mark (sindex node) (eindex node) (dirent vol bl)) v \/
     ~ at_place vol bl (sindex node) (eindex node) /\ r < 0 /\ v = vol).
Proof.
  intros Hlo Hd Hs Hsane. set (start := VNODE_PARENT_DIR_CLUSTER node) in *.
  pose proof (ok_blocks _ (lo_fat _ Hlo)) as Hb.
  pose proof (init_at_pos vol Hlo start bl Hd (sindex node) no_diri Hs) as Hinit.
  destruct (dirent_ptr_some vol Hlo start bl Hd _ Hs) as (p & Hp & _).
  unfold erase_dir_entry. fold start.
  destruct (diri_init vol start (sindex node) no_diri) as [q d] eqn:Ed. destruct Hinit as [-> Hat].
  rewrite Hp. destruct (next_dirent_names vol Hlo start bl Hd (sindex node) d 512 Hat Hs ltac:(lia) Hsane)
    as (j & Hst & [[He (d' & -> & _)]|[[Hk Hj] [(d' & s & -> & Htl & _)|(d' & info & name & -> & Hi & _ & Hn)]]]).
  { exists ENOENT, vol. split; [reflexivity|]. right. split; [|done]. intros (Hst2 & Hk2 & Hj2 & _).
    destruct Hst as (H1 & M1 & _), Hst2 as (H2 & M2 & _). destruct He as [->|He]; [destruct (M1 (eindex node)); (lia || congruence)|].
    destruct (Z.lt_trichotomy j (eindex node)) as [Hlt|[->|Hlt]]; [|congruence|destruct (M1 (eindex node)); (lia || congruence)].
    destruct (M2 j); (lia || congruence). }
  { exists ENAMETOOLONG, vol. split; [reflexivity|]. right. split; [|done]. intros Hpl.
    pose proof Hpl as (Hst2 & _ & Hj2 & _). rewrite (stops_unique _ _ _ _ _ Hst Hst2 Hj Hj2) in Htl.
    by apply (place_fits vol bl _ _ s Hb Hpl). }
  change (B_OK <? 0) with false. cbv iota. destruct Hi as [Hsi He _ _ _ _]. rewrite He.
  destruct (negb (di_sindex info =? sindex node) || negb (j =? eindex node)) eqn:Ec.
  { exists B_ERROR, vol. split; [reflexivity|]. right. split; [|done]. intros Hpl.
    pose proof Hpl as (Hst2 & _ & Hj2 & _). pose proof (stops_unique _ _ _ _ _ Hst Hst2 Hj Hj2) as ->.
    apply (place_named vol bl _ _ _ _ Hb Hpl) in Hn. rewrite Hn, !Z.eqb_refl in Ec. done. }
  apply orb_false_iff in Ec as [E1%negb_false_iff%Z.eqb_eq E2%negb_false_iff%Z.eqb_eq]. subst j.
  pose proof (init_at_pos vol Hlo start bl Hd (sindex node) (diri_free d') Hs) as Hinit'.
  destruct (diri_init vol start (sindex node) (diri_free d')) as [q' d'']. destruct Hinit' as [-> Hat'].
  pose proof (n_small vol Hlo start bl Hd) as Hsm. pose proof Hst as (Hij & _ & _).
  destruct (erase_loop vol start bl (Z.to_nat (eindex node + 1 - sindex node)) (eindex node) (sindex node)
    (dirent vol bl) vol d'' scan_bound (dir_is_refl vol start bl Hlo Hd) Hat') as (w & -> & Hw);
    try (unfold scan_bound; lia).
  rewrite E1, E2 in Hn. rewrite E2 in Hst, Hk, Hj.
  exists B_OK, w. split; [done|]. left. split; [|done]. by apply (named_place vol bl _ _ name).
Qed.

(** [erase_dir_entry] first scans from the first entry of the node.  If the
    scan reports the node's range of entries, they are all marked erased, and
    nothing else changes on the volume; otherwise, errors of the scan included,
    it fails and the volume is as before.  On success the range is that of an
    entry with a short name, and the entries before it were erased or long
    name parts. *)
Theorem erase_dir_entry_marks `{Encodings} vol node bl :
  layout_ok vol -> directory vol (VNODE_PARENT_DIR_CLUSTER node) bl ->
  0 <= sindex node < dir_entries vol bl ->
  (forall t, sindex node <= t < dir_entries vol bl -> lfn_sane vol bl t) ->
  exists r v, erase_dir_entry vol node = Some (r, v) /\
    (r = B_OK /\
     dir_is vol (VNODE_PARENT_DIR_CLUSTER node) bl (mark (sindex node) (eindex node) (dirent vol bl)) v /\
     stops_at vol bl (sindex node) (eindex node) /\ kind vol bl (eindex node) = Short /\
     eindex node < dir_entries vol bl \/
     r < 0 /\ v = vol).
Proof.
  intros Hlo Hd Hs Hsane. destruct (erase_dir_entry_exact vol node bl Hlo Hd Hs Hsane)
    as (r & v & E & [((Hst & Hk & Hj & _) & -> & Hv)|(_ & Hr & ->)]).
  - exists B_OK, v. split; [done|]. by left.
  - exists r, vol. split; [done|]. by right.
Qed.

Definition old_file : vnode :=
  Vnode 9 (GENERATE_DIR_CLUSTER_VNID 1 1) None None 0 0 4 4 0 FAT_READ_ONLY 0 0 0 None false.

Lemma erase_dir_entry_marks_witness :
  exists r v, erase_dir_entry rooted old_file = Some (r, v) /\
    (r = B_OK -> dirent v [5; 6; 7; 8; 9] 4 0 = 0xe5 /\ dirent v [5; 6; 7; 8; 9] 3 0 = 0x4e).
Proof.
  destruct (erase_dir_entry_marks rooted old_file [5; 6; 7; 8; 9] rooted_layout rooted_directory)
    as (r & v & E & H).
  - zdecide.
  - apply lfn_saneb_all. vm_compute. reflexivity.
  - exists r, v. split; [exact E|]. intros Hr. destruct H as [(_ & Hv & _)|[H _]]; [|exfalso; unfold B_OK in Hr; lia].
    rewrite !(dw_bytes _ _ _ _ _ Hv) by zdecide. split; [reflexivity|]. vm_compute. reflexivity.
Defined.
