(* ===== verification/CreateSpec.v ===== *)
(** [_create_dir_entry_] (dir.c): the search for a gap, and the entries
    written into it. *)
From Stdlib Require Import String Ascii.
From stdpp Require Import base gmap list.
From Stdlib Require Import ZArith Lia.
From S2P Require Import Prelude Errors Volume Fat FatEntry FatIoctl FatTable FatChain Sample Util Attr Iter Stream StreamSpec Dirent EntrySpec Resize ResizeSpec Dir DirScan LongName DirCreate Encodings EncodingsSpec DirSpec.

Implicit Types vol v : nspace.

(** ** The gap *)

(** The search for [required] entries that are not in use: from entry [i] on, it
    looks at the next visible entry.  The entries before the first one of its
    name are the gap if they are enough; otherwise it goes on behind it.
    Behind the last visible entry there is always room.  The flag tells whether
    the gap is there. *)
Inductive gap `{Encodings} (vol : nspace) (bl : list Z) (required i : Z) : Z -> bool -> Prop :=
| gap_inside j s name :
    stops_at vol bl i j -> kind vol bl j = Short -> j < dir_entries vol bl ->
    named vol bl i j 512 s name -> i + required <= s ->
    gap vol bl required i i false
| gap_later j s name ns last :
    stops_at vol bl i j -> kind vol bl j = Short -> j < dir_entries vol bl ->
    named vol bl i j 512 s name -> s < i + required ->
    gap vol bl required (j + 1) ns last -> gap vol bl required i ns last
| gap_end j :
    stops_at vol bl i j -> j = dir_entries vol bl \/ kind vol bl j = Free_rest ->
    gap vol bl required i i true.

Section Gap.
Context `{Encodings} (vol : nspace) (Hlo : layout_ok vol) (start : Z) (bl : list Z) (Hd : directory vol start bl).
Context (required : Z) (Hreq : 1 <= required <= 32).
Context (Hsane : forall t, 0 <= t < dir_entries vol bl -> lfn_sane vol bl t).

Lemma gap_spec (m : nat) ns d error bound :
  at_pos vol start bl ns d -> Z.of_nat m = dir_entries vol bl - ns -> Z.of_nat m < bound ->
  ns < dir_entries vol bl \/ error = B_OK ->
  exists ns' last error', z_loop (gap_step vol required) bound (d, ns, error) = Brk (Some (ns', last, error')) /\
    ns <= ns' <= dir_entries vol bl /\
    (error' = ENAMETOOLONG /\ (exists i j s, 0 <= i /\ too_long vol bl i j 512 s /\ j < dir_entries vol bl) \/
     (error' = B_OK \/ error' = ENOENT) /\ gap vol bl required ns ns' last).
Proof using Hlo Hd Hreq Hsane.
  pose proof (n_small vol Hlo start bl Hd) as Hn.
  revert ns d error bound. induction m as [m IH] using (well_founded_induction lt_wf).
  intros ns d error bound Hat Hm Hb He. pose proof Hat as [Hr Hcase].
  rewrite z_loop_step by lia. unfold gap_step at 1.
  destruct (Z.ltb_spec ns (dir_entries vol bl)) as [Hlt|Hge].
  2: { rewrite (proj1 Hcase). exists ns, true, error. split; [done|]. split; [lia|]. right.
       split; [left; destruct He; [lia|done]|]. assert (ns = dir_entries vol bl) as -> by lia.
       apply (gap_end _ _ _ _ (dir_entries vol bl)); [|by left]. split; [lia|]. split; [intros; lia|by left]. }
  destruct (at_pos_index vol start bl ns d Hlt Hat) as (_ & _ & _ & [b ->]).
  destruct (next_dirent_names vol Hlo start bl Hd ns d 512 Hat ltac:(lia) ltac:(lia))
    as (j & Hst & [[Hj (d' & -> & _)]|[[Hk Hj] [(d' & s & -> & Hs & _)|(d' & info & name & -> & Hi & Hat' & Hname)]]]).
  { intros t Ht. apply Hsane. lia. }
  - exists ns, true, ENOENT. split; [done|]. split; [lia|]. right. split; [by right|]. by eapply gap_end.
  - exists ns, true, ENAMETOOLONG. split; [done|]. split; [lia|]. left. split; [done|]. exists ns, j, s. split_and!; done || lia.
  - cbn [Z.eqb B_OK]. destruct Hi as [Hsi Hei _ _ _ _]. pose proof Hst as (Hij & Hdead & Hstop).
    rewrite u32_small by lia. destruct (Z.leb_spec required (di_sindex info - ns)).
    + exists ns, false, B_OK. split; [done|]. split; [lia|]. right. split; [by left|].
      eapply (gap_inside _ _ _ _ j); [done|done|done|exact Hname|lia].
    + rewrite (at_pos_current _ _ _ _ _ Hat').
      destruct (IH (Z.to_nat (dir_entries vol bl - (j + 1))) ltac:(lia) (j + 1) d' B_OK (bound - 1) Hat')
        as (ns' & last & e' & E & Hns & Hout); [lia|lia|by right|].
      exists ns', last, e'. split; [done|]. split; [lia|]. destruct Hout as [?|[He' Hgap]]; [by left|right].
      split; [done|]. eapply (gap_later _ _ _ _ j); [done|done|done|exact Hname|lia|done].
Qed.
End Gap.

(** ** The new entries *)

(** The directory with an entry for [info] whose parts are in the entries [ns]
    to [ns + required - 1]; [last] tells whether it is the last entry. *)
Definition with_entry `{Clock} (bits : Z) (nshort nlong : list Z) (info : entry_info) (required ns : Z)
    (last : bool) (f : Z -> Z -> Z) : Z -> Z -> Z :=
  fun j k =>
    if last && (ns + required - 1 <? j) then 0
    else if j =? ns + required - 1 then
      short_image nshort bits (ei_mode info) (info_cluster info) (time_t2dos tzoffset (ei_time info))
        (info_size info) k
    else with_parts nlong (hash_msdos_name nshort) required ns ns f j k.

Section Place.
Context `{Clock} (vol : nspace) (start : Z) (bl : list Z).
Context (nshort nlong : list Z) (info : entry_info) (required ns : Z).
Context (Hshort : Forall is_byte nshort) (Hlen : length nshort = 11%nat) (Hbytes : Forall is_byte nlong).
Context (Hlong : 26 * (required - 1) <= Z.of_nat (length nlong)) (Hreq : 1 <= required <= 32).
Context (Hns : 0 <= ns) (Hroom : ns + required <= dir_entries vol bl).

(** The end of [_create_dir_entry_], from [diri_init] on. *)
Definition place (last_entry : bool) (v : nspace) : option (Z * nspace) :=
  match diri_init v start ns no_diri with
  | (None, _) => Some (EIO, v)
  | (Some buffer, d) =>
      match write_lfn (Z.to_nat (required - 1)) required 1 (hash_msdos_name nshort) nlong (Some buffer, d, v) with
      | None => None
      | Some (None, _, v) => Some (B_ERROR, v)
      | Some (Some buffer, d, v) =>
          let v := write_short buffer nshort info v in
          if last_entry then
            match z_loop clear_rest_step scan_bound (d, v) with
            | Brk v => Some (0, v)
            | Cont _ => Some (LOOP_EXHAUSTED, v)
            end
          else Some (0, v)
      end
  end.

Lemma place_spec last f v :
  dir_is vol start bl f v ->
  exists w, place last v = Some (B_OK, w) /\
    dir_is vol start bl (with_entry (fat_bits vol) nshort nlong info required ns last f) w.
Proof using Hshort Hlen Hbytes Hlong Hreq Hns Hroom.
  intros Hv. pose proof (dir_is_bpb _ _ _ _ _ Hv) as Eb. unfold place.
  assert (Hhash : is_byte (hash_msdos_name nshort)) by apply hash_msdos_name_byte.
  pose proof (init_at_pos v (dw_layout _ _ _ _ _ Hv) start bl (dw_dir _ _ _ _ _ Hv) ns no_diri
    ltac:(rewrite Eb; lia)) as Hinit.
  destruct (dirent_ptr_some v (dw_layout _ _ _ _ _ Hv) start bl (dw_dir _ _ _ _ _ Hv) ns
    ltac:(rewrite Eb; lia)) as (p & Hp & _).
  destruct (diri_init v start ns no_diri) as [q d]. destruct Hinit as [-> Hat]. rewrite Hp.
  assert (Hp' : dirent_ptr vol bl (ns + 1 - 1) = Some p).
  { replace (ns + 1 - 1) with ns by lia. unfold dirent_ptr in *. by rewrite <-Eb. }
  destruct (write_lfn_spec vol start bl nlong (hash_msdos_name nshort) required ns Hbytes Hhash Hlong Hreq Hns
    Hroom (Z.to_nat (required - 1)) 1 f v d Hv) as (w & d' & E & Hw & Hat'); [|lia|lia|].
  { by replace (ns + 1 - 1) with ns by lia. }
  rewrite Hp' in E. rewrite E. clear E. replace (ns + 1 - 1) with ns in Hw by lia.
  pose proof (dir_is_bpb _ _ _ _ _ Hw) as Ebw.
  assert (Hlast : 0 <= ns + required - 1 < dir_entries w bl) by (rewrite Ebw; lia).
  destruct (dirent_ptr_some w (dw_layout _ _ _ _ _ Hw) start bl (dw_dir _ _ _ _ _ Hw) _ Hlast) as (pe & Hpe & Hpo & _).
  assert (Hpe' : dirent_ptr vol bl (ns + required - 1) = Some pe) by (unfold dirent_ptr in *; by rewrite <-Ebw).
  rewrite Hpe'. rewrite write_short_map by (done || apply Hpo). rewrite Ebw.
  set (g := fun (k _ : Z) => short_image _ _ _ _ _ _ k).
  pose proof (dir_is_store vol start bl _ w (ns + required - 1) pe g Hw ltac:(lia) Hpe'
    ltac:(intros; by apply short_image_ok)) as Hz.
  destruct last.
  - assert (Hatz : at_pos (ent_map pe g w) start bl (ns + required - 1) d').
    { eapply at_pos_same; [|exact Hat'].
      eapply dw_table, dir_is_store; [by apply dir_is_refl; apply Hw|done|exact Hpe|intros; by apply short_image_ok]. }
    destruct (clear_rest_loop vol start bl (Z.to_nat (dir_entries vol bl - 1 - (ns + required - 1)))
      (ns + required - 1) _ _ d' scan_bound Hz Hatz) as (x & -> & Hx); [lia|lia|..].
    { pose proof (n_small w (dw_layout _ _ _ _ _ Hw) start bl (dw_dir _ _ _ _ _ Hw)) as Hn.
      rewrite Ebw in Hn. unfold scan_bound. lia. }
    exists x. split; [done|]. eapply dir_is_ext; [|exact Hx].
    intros j k Hj Hk. unfold cleared, with_entry, entry_upd, g. cbn [andb]. destruct (_ <? j); [done|].
    by destruct (Z.eqb_spec j (ns + required - 1)).
  - eexists. split; [done|]. eapply dir_is_ext; [|exact Hz].
    intros j k Hj Hk. unfold with_entry, entry_upd, g. cbn [andb].
    by destruct (Z.eqb_spec j (ns + required - 1)).
Qed.
End Place.

(** ** Growing a directory *)

(** Block contents outside the tables survive. *)
Lemma frame_block vol v s : fat_frame vol v -> ~ in_fats vol s ->
  block_data v s = block_data vol s /\ (readable vol s -> readable v s).
Proof.
  intros (c & f & l & -> & Hc) Hs. split.
  - unfold block_data. cbn [fBlockCache set_last_allocated set_free_clusters set_fBlockCache]. by rewrite Hc.
  - intros (b & Hb & Hok). exists b. split; [|exact Hok].
    cbn [fBlockCache set_last_allocated set_free_clusters set_fBlockCache]. by rewrite Hc.
Qed.

(** What a directory's node says of its blocks. *)
Inductive dir_node (vol : nspace) (dir : vnode) : list Z -> Prop :=
| dir_fixed :
    fat_bits vol <> 32 -> cluster dir = 1 -> dir_node vol dir (seqZ (root_start vol) (root_sectors vol))
| dir_chain l :
    l <> [] -> node_chain vol dir l -> dir_node vol dir (chain_blocks vol l).

Lemma dir_node_cases vol dir bl : dir_node vol dir bl ->
  fat_bits vol <> 32 /\ cluster dir = 1 /\ bl = seqZ (root_start vol) (root_sectors vol) \/
  exists l, l <> [] /\ node_chain vol dir l /\ bl = chain_blocks vol l.
Proof. intros [? ?|l ? ?]; [by left|right; by exists l]. Qed.

(** The resources growing takes: the free count is right and new clusters can
    be read. *)
Record can_grow (vol : nspace) : Prop := {
  cg_hint : data_cluster vol (last_allocated vol);
  cg_count : free_clusters vol = count_zero (entry vol) 2 (total_clusters vol);
  cg_read : forall c, data_cluster vol c -> Forall (readable vol) (cluster_blocks vol c)
}.

(** Clusters that are in use outside the blocks [bl] of a directory keep their
    entry and their contents, also when the directory gets the blocks [bl']. *)
Definition elsewhere_kept (vol : nspace) (bl : list Z) (v : nspace) (bl' : list Z) : Prop :=
  forall x, data_cluster vol x -> entry vol x <> 0 -> (forall s, s ∈ cluster_blocks vol x -> s ∉ bl) ->
    entry v x = entry vol x /\
    forall s, s ∈ cluster_blocks vol x -> s ∉ bl' /\ fBlockCache v !! s = fBlockCache vol !! s.

Lemma cluster_blocks_apart vol x y s :
  layout_ok vol -> s ∈ cluster_blocks vol x -> s ∈ cluster_blocks vol y -> x = y.
Proof.
  intros Hlo Hx%elem_of_seqZ Hy%elem_of_seqZ. pose proof (lo_spc _ Hlo).
  assert (x - y < 1 /\ y - x < 1) by nia. lia.
Qed.

Lemma cluster_block_in vol x l s : x ∈ l -> s ∈ cluster_blocks vol x -> s ∈ chain_blocks vol l.
Proof.
  intros Hx Hs. apply list_elem_of_In, in_concat. exists (cluster_blocks vol x).
  split; [|by apply list_elem_of_In]. apply in_map. by apply list_elem_of_In.
Qed.

Lemma block_in_chain vol l s : s ∈ chain_blocks vol l -> exists x, x ∈ l /\ s ∈ cluster_blocks vol x.
Proof.
  intros (b & Hb & Hs)%list_elem_of_In%in_concat. apply in_map_iff in Hb as (x & <- & Hx).
  exists x. split; by apply list_elem_of_In.
Qed.

Lemma frame_cache vol v s : fat_frame vol v -> ~ in_fats vol s -> fBlockCache v !! s = fBlockCache vol !! s.
Proof. intros (c & f & l & -> & Hc) Hs. simpl. by apply Hc. Qed.

(** [v] has the directory of [vol], with more blocks. *)
Record grown (vol : nspace) (start : Z) (bl : list Z) (v : nspace) (bl' : list Z) : Prop := {
  gr_layout : layout_ok v;
  gr_dir : directory v start bl';
  gr_bpb : ns_bpb v = ns_bpb vol;
  gr_blocks : exists new, bl' = bl ++ new;
  gr_bytes : forall i k, 0 <= i < dir_entries vol bl -> dirent v bl' i k = dirent vol bl i k;
  gr_kept : elsewhere_kept vol bl v bl'
}.

Lemma grown_refl vol start bl : layout_ok vol -> directory vol start bl -> grown vol start bl vol bl.
Proof. intros Hlo Hd. split; try done; [exists []; by rewrite app_nil_r|]. intros x _ _ Hx. split; [done|]. auto. Qed.

Section Grow.
Context `{Clock} (vol : nspace) (Hlo : layout_ok vol) (dir : vnode) (bl : list Z).
Context (Hd : directory vol (cluster dir) bl) (Hnode : dir_node vol dir bl).
Context (Hsize : st_size dir = 32 * dir_entries vol bl) (Hbig : st_size dir < 2 ^ 30).

Lemma bps_eps : bytes_per_sector vol = 32 * entries_per_sector vol.
Proof using Hlo.
  pose proof (ok_geo _ (lo_fat _ Hlo)) as Hg. pose proof (geo_bps_mod _ Hg). unfold entries_per_sector. zlia.
Qed.

Let csize := bytes_per_sector vol * sectors_per_cluster vol.

Lemma csize_range : 512 <= csize < 2 ^ 23.
Proof using Hlo.
  pose proof (ok_geo _ (lo_fat _ Hlo)) as Hg. pose proof (geo_bps _ Hg). pose proof (lo_spc _ Hlo).
  subst csize. nia.
Qed.

Lemma div_csize x : 0 <= x -> x / bytes_per_sector vol / sectors_per_cluster vol = x / csize.
Proof using Hlo.
  intros Hx. pose proof (ok_geo _ (lo_fat _ Hlo)) as Hg. pose proof (geo_bps _ Hg). pose proof (lo_spc _ Hlo).
  by rewrite Z.div_div by lia.
Qed.

Lemma chain_size l : bl = chain_blocks vol l -> st_size dir = csize * Z.of_nat (length l).
Proof using Hlo Hsize.
  clear Hd Hnode Hbig. intros ->. rewrite Hsize. unfold dir_entries. pose proof (lo_spc _ Hlo).
  rewrite chain_blocks_length by lia. subst csize. rewrite bps_eps. lia.
Qed.

Lemma chain_size_clusters l : bl = chain_blocks vol l -> clusters_of_size vol (st_size dir) = Z.of_nat (length l).
Proof using All.
  intros E. rewrite (chain_size l E). pose proof csize_range. unfold clusters_of_size. fold csize.
  rewrite u32_small by lia. rewrite div_csize by lia.
  replace (csize * Z.of_nat (length l) + csize - 1) with ((csize - 1) + Z.of_nat (length l) * csize) by lia.
  rewrite Z.div_add by lia. rewrite Z.div_small by lia. lia.
Qed.

(** The number of clusters a directory with entry [ne] takes. *)
Definition clusters_for (ne : Z) : Z := ((ne + 1) * 32 + csize - 1) / csize.

Lemma clusters_for_spec ne : 0 <= ne ->
  (ne + 1) * 32 <= csize * clusters_for ne < (ne + 1) * 32 + csize.
Proof using Hlo.
  intros Hne. pose proof csize_range. unfold clusters_for.
  pose proof (Z.div_mod ((ne + 1) * 32 + csize - 1) csize ltac:(lia)).
  pose proof (Z.mod_pos_bound ((ne + 1) * 32 + csize - 1) csize ltac:(lia)). lia.
Qed.

Lemma grown_kept l new v node' clusters :
  bl = chain_blocks vol l -> fat_frame vol v -> resized vol ∅ dir l clusters v node' (l ++ new) new ->
  elsewhere_kept vol bl v (chain_blocks vol (l ++ new)).
Proof using All.
  intros -> Hfr Hr x Hx Hex Hap. pose proof (lo_spc _ Hlo) as Hspc.
  pose proof (rz_new _ _ _ _ _ _ _ _ _ Hr) as Hnew. rewrite Forall_forall in Hnew.
  assert (Hxn : x ∉ new) by (intros Hin; by destruct (Hnew x Hin)).
  assert (Hxl : x ∉ l).
  { intros Hin. set (s := data_start vol + (x - 2) * sectors_per_cluster vol).
    assert (Hs : s ∈ cluster_blocks vol x) by (apply elem_of_seqZ; lia).
    apply (Hap s Hs). by eapply cluster_block_in. }
  split; [by apply (rz_other _ _ _ _ _ _ _ _ _ Hr)|]. intros s Hs. split.
  - intros (y & Hy & Hsy)%block_in_chain. rewrite (cluster_blocks_apart vol x y s Hlo Hs Hsy) in *.
    apply elem_of_app in Hy as [|]; done.
  - apply frame_cache; [done|]. intros Hf. apply elem_of_seqZ in Hs. unfold in_fats in Hf.
    pose proof (lo_data _ Hlo). unfold data_cluster in Hx. nia.
Qed.

(** The directory after the chain has been extended. *)
Lemma grown_chain l new v node' clusters :
  bl = chain_blocks vol l -> node_chain vol dir l -> can_grow vol -> l <> [] -> fat_frame vol v ->
  resized vol ∅ dir l clusters v node' (l ++ new) new -> csize * clusters < 2 ^ 31 ->
  grown vol (cluster dir) bl v (chain_blocks vol (l ++ new)) /\ cluster node' = cluster dir /\
  dir_entries vol (chain_blocks vol (l ++ new)) * 32 = csize * clusters.
Proof using All.
  intros E Hch Hg Hl Hfr Hr Hlim. pose proof (rz_bpb _ _ _ _ _ _ _ _ _ Hr) as Eb.
  pose proof (rz_len _ _ _ _ _ _ _ _ _ Hr) as Hlen. pose proof csize_range. pose proof (lo_spc _ Hlo).
  destruct (eps_pos vol Hlo) as [He _]. set (bl' := chain_blocks vol (l ++ new)).
  assert (Hclu : cluster node' = cluster dir).
  { rewrite (rz_node _ _ _ _ _ _ _ _ _ Hr). destruct (chain_first vol Hlo dir l Hl Hch) as (_ & _ & <- & _).
    by destruct l. }
  assert (Hent : dir_entries vol bl' * 32 = csize * clusters).
  { unfold dir_entries, bl'. rewrite chain_blocks_length, Hlen by lia. subst csize. rewrite bps_eps. lia. }
  assert (Hst : stream v (cluster dir) bl').
  { rewrite <-Hclu. unfold bl'. rewrite <-Eb. pose proof (rz_chain _ _ _ _ _ _ _ _ _ Hr) as Hc.
    remember (l ++ new) as l'. destruct Hc as [|l' Hl' Ht _]; [by destruct l|]. by eapply stream_chain. }
  assert (Hnf : forall s, s ∈ bl' -> ~ in_fats vol s).
  { intros s Hs. rewrite <-Eb. by apply (stream_not_fat v (rz_layout _ _ _ _ _ _ _ _ _ Hr) _ _ _ Hst). }
  assert (Hpre : bl' = bl ++ chain_blocks vol new).
  { subst bl bl'. unfold chain_blocks. by rewrite map_app, concat_app. }
  split; [|done]. split.
  - apply Hr.
  - split; [done| |pose proof (dr_len _ _ _ Hd); rewrite Hpre, length_app; lia
      |rewrite Eb; apply Hd|rewrite Eb; unfold dir_entries in Hent; lia].
    apply Forall_forall. intros s Hs. apply (frame_block vol v s Hfr); [by apply Hnf|].
    rewrite Hpre in Hs. apply elem_of_app in Hs as [Hs|Hs].
    + pose proof (dr_read _ _ _ Hd) as Hrd. rewrite Forall_forall in Hrd. by apply Hrd.
    + unfold chain_blocks in Hs. apply list_elem_of_In, in_concat in Hs as (x & Hx & Hs).
      apply in_map_iff in Hx as (c & <- & Hc). pose proof (rz_new _ _ _ _ _ _ _ _ _ Hr) as Hnew.
      rewrite Forall_forall in Hnew. destruct (Hnew c) as [Hdc _]; [by apply list_elem_of_In|].
      pose proof (cg_read _ Hg c Hdc) as Hrc. rewrite Forall_forall in Hrc. by apply Hrc, list_elem_of_In.
  - done.
  - by exists (chain_blocks vol new).
  - intros i k Hi. destruct (dirent_ptr_some vol Hlo _ bl Hd i Hi) as (p & Hp & _ & Hin).
    assert (Hp' : dirent_ptr v bl' i = Some p).
    { unfold dirent_ptr in *. rewrite Eb, Hpre. destruct (bl !! _) as [b|] eqn:Eb0; [|done].
      by rewrite (lookup_app_l_Some _ _ _ _ Eb0). }
    unfold dirent. rewrite Hp, Hp'. unfold ent_get, peek.
    destruct (frame_block vol v (p_block p) Hfr) as [-> _]; [|done].
    apply Hnf. rewrite Hpre. apply elem_of_app. by left.
  - by eapply grown_kept.
Qed.

Lemma grow_spec ne :
  (IS_FIXED_ROOT (cluster dir) = false -> can_grow vol) -> 0 <= ne < dir_entries vol bl + 32 ->
  (exists v dir' bl', grow_directory vol dir ne = (B_OK, v, dir') /\ grown vol (cluster dir) bl v bl' /\
     ne < dir_entries vol bl' /\ cluster dir' = cluster dir /\ st_size dir' = 32 * dir_entries vol bl') \/
  (exists v, grow_directory vol dir ne = (B_DEVICE_FULL, v, dir) /\ fat_frame vol v /\ same_table vol v /\
     layout_ok v /\ free_clusters v = free_clusters vol).
Proof using All.
  intros Hg0 Hne. pose proof (n_small vol Hlo _ bl Hd) as Hn. pose proof csize_range as Hcs.
  pose proof (ok_geo _ (lo_fat _ Hlo)) as Hgeo.
  unfold grow_directory. rewrite u32_small by lia. destruct (Z.leb_spec (st_size dir) (ne * 32)) as [Hge|Hlt].
  2: { left. exists vol, dir, bl. split; [done|]. split; [by apply grown_refl|]. split_and!; [lia|done|done]. }
  destruct (dir_node_cases _ _ _ Hnode) as [(Hb & Hc & _)|(l & Hl & Hch & Ebl)].
  { right. rewrite Hc. exists vol. split; [done|]. by split_and!. }
  destruct (chain_first vol Hlo dir l Hl Hch) as (Hdc & Hll & _ & _).
  pose proof (Hg0 (fixed_root_data vol _ Hdc)) as Hg. clear Hg0.
  rewrite (fixed_root_data vol _ Hdc). fold csize. rewrite (u32_small csize) by lia.
  rewrite (u32_small ((ne + 1) * 32 + csize - 1)), div_csize by lia. fold (clusters_for ne).
  pose proof (clusters_for_spec ne ltac:(lia)) as Hcf. pose proof (chain_size l Ebl) as Hsz.
  assert (Hgt : Z.of_nat (length l) < clusters_for ne) by nia.
  rewrite (dispatch_chain vol Hlo dir l) by (done || lia || by apply chain_size_clusters).
  rewrite (proj2 (Z.eqb_neq _ _)), (proj2 (Z.ltb_lt _ _)) by lia.
  destruct (Z.leb_spec (clusters_for ne - Z.of_nat (length l)) (free_clusters vol)) as [Hfree|Hfree].
  - destruct (extend_ok vol Hlo ∅ (cg_hint _ Hg) (cg_count _ Hg) dir l (clusters_for ne) Hl Hch Hgt Hfree)
      as (v & node' & new & -> & Hr & Hfr).
    destruct (grown_chain l new v node' _ Ebl Hch Hg Hl Hfr Hr ltac:(lia)) as (Hgr & Hclu & Hent).
    left. change (B_OK <? 0) with false. cbv iota. eexists v, _, (chain_blocks vol (l ++ new)). split; [done|].
    split; [done|]. split; [lia|]. split; [done|]. cbn [st_size set_st_size set_iteration].
    rewrite u32_small by lia. lia.
  - assert (Hcl32 : clusters_for ne < 2 ^ 32) by nia.
    destruct (alloc_fails vol Hlo (cg_hint _ Hg) (cg_count _ Hg) (clusters_for ne - Z.of_nat (length l))
      ltac:(lia)) as (v & Ea & Hst & Hfc & _ & Hlv & Hfr).
    right. exists v. unfold extend_chain. rewrite u32_small by lia. rewrite Ea. by split_and!.
Qed.
End Grow.

(** ** The whole function *)

Definition required_entries (len : Z) : Z := (len + 24) / 26 + 1.

(** What a directory has become by the creation of an entry: [bl'] are its
    blocks, the old entries keep their bytes except in the gap and, where the
    new entry is the last one, behind it. *)
Record created `{Encodings, Clock} (vol : nspace) (dir : vnode) (bl : list Z) (nshort nlong : list Z) (info : entry_info)
    (len ns ne : Z) (v : nspace) (dir' : vnode) (bl' : list Z) : Prop := {
  cr_blocks : exists new, bl' = bl ++ new;
  cr_layout : layout_ok v;
  cr_dir : directory v (cluster dir) bl';
  cr_bpb : ns_bpb v = ns_bpb vol;
  cr_node : cluster dir' = cluster dir /\ st_size dir' = 32 * dir_entries vol bl';
  cr_range : 0 <= ns /\ ne = ns + required_entries len - 1 /\ ne < dir_entries vol bl';
  cr_bytes : exists last f, gap vol bl (required_entries len) 0 ns last /\
    (forall j k, 0 <= j < dir_entries vol bl -> 0 <= k < 32 -> f j k = dirent vol bl j k) /\
    (forall j k, 0 <= j -> 0 <= k < 32 ->
       dirent v bl' j k = with_entry (fat_bits vol) nshort nlong info (required_entries len) ns last f j k);
  cr_kept : elsewhere_kept vol bl v bl'
}.

Lemma kept_dir_is vol bl v bl' start f w :
  elsewhere_kept vol bl v bl' -> ns_bpb v = ns_bpb vol -> dir_is v start bl' f w -> elsewhere_kept vol bl w bl'.
Proof.
  intros Hk Eb Hw x Hx Hex Hap. destruct (Hk x Hx Hex Hap) as [E1 H1].
  destruct (dw_frame _ _ _ _ _ Hw) as (c & Ew & Hc). split.
  - rewrite <-E1. apply (dw_table _ _ _ _ _ Hw). unfold data_cluster in *. by rewrite Eb.
  - intros s Hs. destruct (H1 s Hs) as [Hn E]. split; [done|]. rewrite <-E, Ew. simpl. by apply Hc.
Qed.

Section Create.
Context `{Encodings, Clock} (vol : nspace) (Hlo : layout_ok vol) (dir : vnode) (bl : list Z).
Context (Hd : directory vol (cluster dir) bl) (Hnode : dir_node vol dir bl).
Context (Hg : IS_FIXED_ROOT (cluster dir) = false -> can_grow vol).
Context (Hsize : st_size dir = 32 * dir_entries vol bl) (Hbig : st_size dir < 2 ^ 30).
Context (Hsane : forall t, 0 <= t < dir_entries vol bl -> lfn_sane vol bl t).
Context (info : entry_info) (nshort nlong : list Z) (len : Z).
Context (Hshort : Forall is_byte nshort) (Hslen : length nshort = 11%nat) (Hbytes : Forall is_byte nlong).
Context (Hlen : 0 <= len) (Hreq : required_entries len <= 32).
Context (Hlong : 26 * (required_entries len - 1) <= Z.of_nat (length nlong)).
Context (Hdev : take 8 nshort ∉ device_names) (Hclu : ei_cluster info = 0 \/ data_cluster vol (ei_cluster info)).

(** The function, with its end as [place]. *)
Lemma create_place ns last_entry error :
  0 <= ns -> ns + required_entries len < 2 ^ 32 ->
  z_loop (gap_step vol (required_entries len)) scan_bound (snd (diri_init vol (cluster dir) 0 no_diri), 0, B_ERROR)
    = Brk (Some (ns, last_entry, error)) ->
  _create_dir_entry_ vol dir info nshort nlong len =
    if negb (error =? B_OK) && negb (error =? ENOENT) then Some (error, vol, dir, ns, 0) else
    let ne := ns + required_entries len - 1 in
    let '(error, v, dir') := grow_directory vol dir ne in
    if error <? 0 then Some (error, v, dir', ns, ne)
    else '(r, w) ← place (cluster dir') nshort nlong info (required_entries len) ns last_entry v;
         Some (r, w, dir', ns, ne).
Proof using All.
  intros Hns Hlim Egap. unfold _create_dir_entry_. fold (required_entries len).
  rewrite bool_decide_eq_false_2 by done.
  assert (Hc : negb (ei_cluster info =? 0) && negb (IS_DATA_CLUSTER vol (ei_cluster info)) = false).
  { destruct Hclu as [->|Hdc]; [done|]. rewrite (is_data_true vol _ (ok_geo _ (lo_fat _ Hlo)) Hdc). apply andb_false_r. }
  rewrite Hc. pose proof (init_at_pos vol Hlo _ bl Hd 0 no_diri) as Hinit.
  pose proof (n_small vol Hlo _ bl Hd) as Hn.
  destruct (dirent_ptr_some vol Hlo _ bl Hd 0 ltac:(lia)) as (p & Hp & _).
  destruct (diri_init vol (cluster dir) 0 no_diri) as [q d]. destruct (Hinit ltac:(lia)) as [-> _].
  rewrite Hp. cbn [snd] in Egap. rewrite Egap.
  destruct (negb (error =? B_OK) && negb (error =? ENOENT)); [done|]. assert (H1 : 0 <= (len + 24) / 26) by (apply Z.div_pos; lia).
  rewrite u32_small by (unfold required_entries in *; lia).
  destruct (grow_directory vol dir _) as [[e v] dir']. destruct (e <? 0); [done|].
  unfold place. destruct (diri_init v (cluster dir') ns no_diri) as [[q'|] d']; [|done].
  destruct (write_lfn _ _ _ _ _ _) as [[[[b|] d''] w]|]; [|done|done]. cbv zeta.
  destruct last_entry; [|done]. destruct (z_loop clear_rest_step _ _); reflexivity.
Qed.

Lemma create_entry :
  exists r v dir' ns ne, _create_dir_entry_ vol dir info nshort nlong len = Some (r, v, dir', ns, ne) /\
    (r = B_OK /\ (exists bl', created vol dir bl nshort nlong info len ns ne v dir' bl') \/
     r = ENAMETOOLONG /\ v = vol /\ dir' = dir /\
       (exists i j s, 0 <= i /\ too_long vol bl i j 512 s /\ j < dir_entries vol bl) \/
     r = B_DEVICE_FULL /\ dir' = dir /\ fat_frame vol v /\ same_table vol v /\ layout_ok v /\
       free_clusters v = free_clusters vol).
Proof using All.
  pose proof (n_small vol Hlo _ bl Hd) as Hn.
  pose proof (init_at_pos vol Hlo _ bl Hd 0 no_diri ltac:(lia)) as Hinit.
  assert (Hreq1 : 1 <= required_entries len) by (unfold required_entries; zlia).
  assert (Hat : at_pos vol (cluster dir) bl 0 (snd (diri_init vol (cluster dir) 0 no_diri))).
  { destruct (diri_init vol (cluster dir) 0 no_diri) as [q d]. apply Hinit. }
  destruct (gap_spec vol Hlo _ bl Hd (required_entries len) ltac:(lia) Hsane
    (Z.to_nat (dir_entries vol bl)) 0 _ B_ERROR scan_bound Hat) as (ns & last & error & Egap & Hns & Hout).
  { lia. }
  { unfold scan_bound. lia. }
  { left. lia. }
  destruct Hout as [[-> Hlong2]|[Herr Hgap]].
  - exists ENAMETOOLONG, vol, dir, ns, 0. split; [|right; left; split_and!; done].
    by rewrite (create_place ns last ENAMETOOLONG) by (lia || done).
  - rewrite (create_place ns last error) by (lia || done). cbv zeta.
    assert (Ee : negb (error =? B_OK) && negb (error =? ENOENT) = false) by (by destruct Herr as [-> | ->]).
    rewrite Ee. clear Ee.
    set (ne := ns + required_entries len - 1).
    destruct (grow_spec vol Hlo dir bl Hd Hnode Hsize Hbig ne Hg ltac:(lia))
      as [(v & dir' & bl' & -> & Hgr & Hne & Hdc & Hds)|(v & -> & Hfr & Hst & Hlv & Hfc)].
    2: { exists B_DEVICE_FULL, v, dir, ns, ne. split; [reflexivity|]. right. right. by split_and!. }
    change (B_OK <? 0) with false. cbv iota. rewrite Hdc.
    pose proof (gr_bpb _ _ _ _ _ Hgr) as Eb.
    destruct (place_spec v (cluster dir) bl' nshort nlong info (required_entries len) ns Hshort Hslen Hbytes Hlong
      ltac:(lia) ltac:(lia) ltac:(rewrite Eb; lia) last _ v
      (dir_is_refl v _ _ (gr_layout _ _ _ _ _ Hgr) (gr_dir _ _ _ _ _ Hgr))) as (w & -> & Hw).
    cbn [mbind option_bind]. exists B_OK, w, dir', ns, ne. split; [done|]. left. split; [done|].
    exists bl'. pose proof (dir_is_bpb _ _ _ _ _ Hw) as Ebw. split.
    + apply Hgr.
    + apply Hw.
    + apply Hw.
    + congruence.
    + by split.
    + split_and!; lia || done.
    + exists last, (dirent v bl'). split; [done|]. split; [intros; by apply Hgr|].
      rewrite <-Eb. intros. by apply Hw.
    + by eapply kept_dir_is; [apply (gr_kept _ _ _ _ _ Hgr)| |].
Qed.
End Create.

(** ** Reading the new entry *)

(** The buffer [create_dir_entry] passes for a long name: the units with their
    terminator, padded with 0xff. *)
Definition long_buffer (us : list Z) : list Z :=
  le16_name us ++ [0; 0] ++ repeat 0xff (512 - (2 * length us + 2)).

Lemma long_buffer_length us : (length us <= 246)%nat -> length (long_buffer us) = 512%nat.
Proof. intros H. unfold long_buffer. rewrite !length_app, le16_name_length, repeat_length. simpl. lia. Qed.

Lemma long_buffer_bytes us : Forall name_char us -> Forall is_byte (long_buffer us).
Proof.
  intros Hus. unfold long_buffer. apply Forall_app. split.
  - induction Hus as [|u us Hu _ IH]; [by apply Forall_nil|]. unfold le16_name. cbn [map concat le16 app].
    destruct Hu as [Hu _]. repeat (apply Forall_cons; split); [unfold is_byte; zlia..|done].
  - repeat (apply Forall_cons; split); [unfold is_byte; lia..|]. apply Forall_forall. intros x Hx.
    apply list_elem_of_In, repeat_spec in Hx. subst. unfold is_byte. lia.
Qed.

(** A short name [_next_dirent_] takes for the end of an entry. *)
Record short_ok (nshort : list Z) (mode : Z) : Prop := {
  sh_bytes : Forall is_byte nshort;
  sh_length : length nshort = 11%nat;
  sh_first : nth 0 nshort 0 <> 0 /\ nth 0 nshort 0 <> 0xe5;
  sh_mode : mode mod 256 <> 0x0f
}.

Lemma short_image_stored vol bl i nshort mode c t s :
  0 <= c < (if fat_bits vol =? 32 then 2 ^ 32 else 2 ^ 16) ->
  (forall k, 0 <= k < 32 -> dirent vol bl i k = short_image nshort (fat_bits vol) mode c t s k) ->
  stored_as vol bl i mode c t s.
Proof.
  intros Hc H. eapply (image_stored _ _ _ (fat_bits vol) _ _ _ _ (fun k => nth (Z.to_nat k) nshort 0)); [done|done|].
  intros k Hk. rewrite H by done. unfold short_image, node_image.
  destruct (k <? 11); [done|]. done.
Qed.

Lemma short_image_kind vol bl i nshort bits mode c t s :
  short_ok nshort mode ->
  (forall k, 0 <= k < 32 -> dirent vol bl i k = short_image nshort bits mode c t s k) ->
  kind vol bl i = Short /\ map (dirent vol bl i) (seqZ 0 11) = nshort /\ dirent vol bl i 0xc = 0.
Proof.
  intros [Hb Hl [H0 He] Hm] H. split_and!.
  - unfold kind. rewrite !H by lia. change (short_image nshort bits mode c t s 0) with (nth 0 nshort 0).
    change (short_image nshort bits mode c t s 11) with (mode mod 256).
    by rewrite !(proj2 (Z.eqb_neq _ _)).
  - apply list_eq. intros x. destruct (Nat.lt_ge_cases x 11) as [Hx|Hx].
    + rewrite list_lookup_fmap, lookup_seqZ_lt by lia. simpl.
      rewrite H by lia. unfold short_image. rewrite (proj2 (Z.ltb_lt _ _)) by lia.
      rewrite Z.add_0_l, Nat2Z.id. destruct (nth_lookup_or_length nshort x 0) as [->|]; [done|lia].
    + rewrite !lookup_ge_None_2; [done|lia|]. rewrite length_map, length_seqZ. lia.
  - by rewrite H by lia.
Qed.

Lemma required_parts (us : list Z) : (length us <= 246)%nat ->
  required_entries (2 * Z.of_nat (length us) + 2) = Z.of_nat ((length us + 1 + 12) / 13) + 1 /\
  (1 <= (length us + 1 + 12) / 13 <= 19)%nat.
Proof.
  intros Hlen. unfold required_entries.
  pose proof (Nat.div_mod (length us + 1 + 12) 13 ltac:(lia)).
  pose proof (Nat.mod_upper_bound (length us + 1 + 12) 13 ltac:(lia)).
  split; [|lia]. rewrite Nat2Z.inj_div. f_equal. zlia.
Qed.

Section Found.
Context `{SjisTables, Clock} (vol : nspace) (Hlo : layout_ok vol) (start : Z) (bl : list Z) (Hd : directory vol start bl).
Context (nshort : list Z) (info : entry_info) (Hok : short_ok nshort (ei_mode info)).
Context (us : list Z) (Hus : Forall name_char us) (Hff : 0xffff ∉ us) (Hlen : (length us <= 246)%nat).
Context (ns : Z) (last : bool) (f : Z -> Z -> Z).

Let len := 2 * Z.of_nat (length us) + 2.
Let required := required_entries len.
Let ne := ns + required - 1.
Let m := ((length us + 1 + 12) / 13)%nat.
Let hash := hash_msdos_name nshort.

Context (Hns : 0 <= ns < 0xffff) (Hne : ne < dir_entries vol bl).
Context (Hbytes : forall j k, 0 <= j -> 0 <= k < 32 ->
  dirent vol bl j k = with_entry (fat_bits vol) nshort (long_buffer us) info required ns last f j k).

Lemma part_bytes_eq (c : nat) : (1 <= c <= m)%nat ->
  part_bytes (long_buffer us) (Z.of_nat c) = part_of (le16_name us ++ [0; 0]) (length us + 1) m c.
Proof using All.
  intros Hc. destruct (required_parts us Hlen) as [_ Hm]. fold m in Hm. unfold part_bytes, part_of, padded, long_buffer.
  replace (Z.to_nat ((Z.of_nat c - 1) * 26)) with (26 * (c - 1))%nat by lia.
  assert (Hpad : repeat 0xff (512 - (2 * length us + 2))
    = repeat 0xff (26 * m - 2 * (length us + 1)) ++ repeat 0xff (512 - 26 * m)).
  { rewrite <-repeat_app. f_equal.
    pose proof (Nat.div_mod (length us + 1 + 12) 13 ltac:(lia)).
    pose proof (Nat.mod_upper_bound (length us + 1 + 12) 13 ltac:(lia)). subst m. lia. }
  rewrite Hpad, !(assoc_L (++)). set (a := (le16_name us ++ [0; 0]) ++ _).
  assert (Ha : length a = (26 * m)%nat).
  { subst a. rewrite !length_app, le16_name_length, repeat_length. cbn [length].
    pose proof (Nat.div_mod (length us + 1 + 12) 13 ltac:(lia)).
    pose proof (Nat.mod_upper_bound (length us + 1 + 12) 13 ltac:(lia)). subst m. lia. }
  rewrite drop_app_le by lia. apply take_app_le. rewrite length_drop. lia.
Qed.

(** The parts of the name are in the directory. *)
Lemma new_holds_name :
  holds_name vol bl (le16_name us ++ [0; 0]) (length us + 1) m hash ns.
Proof using All.
  destruct (required_parts us Hlen) as [Er Hm]. fold m len required in Er, Hm. intros c Hc. split; [subst ne; lia|].
  apply image_long_entry.
  - apply (part_length _ _ m); try lia. rewrite length_app, le16_name_length. simpl. lia.
  - intros k Hk. rewrite Hbytes by lia. unfold with_entry.
    rewrite (proj2 (Z.ltb_ge (ns + required - 1) _)), andb_false_r by lia.
    rewrite (proj2 (Z.eqb_neq _ _)) by lia. unfold with_parts.
    rewrite (proj2 (Z.leb_le _ _)), (proj2 (Z.ltb_lt _ _)) by lia. cbn [andb].
    replace (ns + required - 1 - (ns + Z.of_nat (m - c))) with (Z.of_nat c) by lia.
    rewrite part_bytes_eq by done. f_equal. unfold part_number. f_equal.
    destruct (Z.eqb_spec (Z.of_nat c) (required - 1)), (Nat.eqb_spec c m); done || lia.
Qed.

Lemma last_entry_bytes k : 0 <= k < 32 ->
  dirent vol bl ne k = short_image nshort (fat_bits vol) (ei_mode info) (info_cluster info)
    (time_t2dos tzoffset (ei_time info)) (info_size info) k.
Proof using All.
  intros Hk. destruct (required_parts us Hlen) as [Er Hm]. fold m len required in Er, Hm. rewrite Hbytes by (subst ne; lia). unfold with_entry. fold ne.
  by rewrite Z.ltb_irrefl, andb_false_r, Z.eqb_refl.
Qed.

Lemma name_not_padding t : (t < length us + 1)%nat ->
  nth (2 * t) (le16_name us ++ [0; 0]) 0 <> 0xff \/ nth (2 * t + 1) (le16_name us ++ [0; 0]) 0 <> 0xff.
Proof using All.
  clear - Hus Hff. revert t Hff. induction Hus as [|u us Hu _ IH]; intros t Hff Ht.
  - destruct t as [|[|]]; simpl in *; lia.
  - apply not_elem_of_cons in Hff as [Hnu Hff]. unfold le16_name in *. cbn [map concat]. rewrite <-(assoc_L (++)).
    destruct t as [|t].
    + cbn [le16 app nth Nat.mul Nat.add]. destruct Hu as [Hu _]. zlia.
    + cbn [length] in Ht. replace (2 * S t)%nat with (2 + 2 * t)%nat by lia.
      replace (2 + 2 * t + 1)%nat with (2 + (2 * t + 1))%nat by lia. apply IH; [by inversion Hus|done|lia].
Qed.

Lemma new_entry_found len' d :
  at_pos vol start bl ns d -> 512 <= len' -> Z.of_nat (length (utf8_name us)) + 2 <= len' ->
  exists d' info', _next_dirent_ vol d len' = Some (B_OK, d', Some (info', utf8_name us)) /\
    info_of vol bl ns ne info' /\ di_sindex info' = ns.
Proof using All.
  intros Hat Hlen' Hroom. destruct (required_parts us Hlen) as [Er Hm]. fold m len required in Er, Hm.
  pose proof new_holds_name as Hh.
  destruct (run_collects vol (ok_blocks _ (lo_fat _ Hlo)) bl (le16_name us ++ [0; 0]) (length us + 1) m hash ns)
    as (l & Hrun & Hcol & Huni & Hparts); try lia; try done.
  { rewrite length_app, le16_name_length. simpl. lia. }
  { apply name_not_padding. }
  destruct Hcol as [Hstart Hhash _ Hcount _ _].
  destruct (short_image_kind vol bl ne nshort _ _ _ _ _ Hok last_entry_bytes) as (Hk & Hname & _).
  assert (Hst : stops_at vol bl ns ne).
  { split; [subst ne; lia|]. split; [|by auto]. intros t Ht. right. apply Hparts. subst ne. lia. }
  destruct (next_dirent_short vol Hlo start bl Hd len' ltac:(lia) ns ne d l Hat ltac:(subst ne; lia) Hst)
    as (p & d' & Hp & Hat' & E); [|done|done|].
  { replace (Z.to_nat (ne - ns)) with m by (subst ne; lia). done. }
  rewrite E. clear E. unfold scan_finish. rewrite Hstart, (proj2 (Z.eqb_neq ns 0xffff)) by lia. cbn [negb].
  rewrite Hcount. change (Z.of_nat 1 =? 1) with true. cbn [negb]. rewrite Huni.
  pose proof (unicode_to_utf8_name us 2 len' Hus ltac:(lia) ltac:(lia)) as Eu.
  cbn [repeat concat] in Eu. rewrite app_nil_r in Eu. cbn [app] in Eu. rewrite <-(assoc_L (++)). cbn [app].
  rewrite Eu. cbn [Z.eqb B_OK negb].
  assert (Eb : ent_bytes vol p 0 11 = nshort).
  { rewrite <-Hname at 1. unfold ent_bytes. apply map_ext. intros k. symmetry. by apply dirent_ptr_get. }
  rewrite Eb, Hhash. fold hash. rewrite (Z.eqb_refl hash). cbv beta iota delta [negb]. change (B_OK <? 0) with false.
  cbv iota.
  rewrite Hstart, (proj2 (Z.eqb_neq ns 0xffff)) by lia. cbv zeta.
  rewrite (at_pos_current _ _ _ _ _ Hat').
  eexists _, _. split; [reflexivity|]. split; [|done].
  assert (G : forall k, dirent vol bl ne k = ent_get vol p k) by (intros; by apply dirent_ptr_get).
  split; cbn [di_sindex di_eindex di_mode di_cluster di_size di_time]; [subst ne; lia|done|..];
    unfold dirent_mode, dirent_cluster, dirent_size, dirent_time, dirent16, dirent32; rewrite !G; reflexivity.
Qed.
End Found.

(** ** The properties *)

(** C21: [_create_dir_entry_] looks for the first gap that has room for the
    parts of the name and the entry itself - entries that are erased or belong
    to no name, before the first entry of the name of the next visible entry -
    and otherwise puts them behind the last visible entry, where the directory is extended by clusters if need
    be; a directory that cannot grow, and a name in the way that does not fit
    the buffer, are reported and no block outside the tables changes.  On
    success the long name parts and the short entry are in the gap, every entry
    outside of it keeps its bytes, and everything behind a new last entry is
    cleared, what new clusters held before included. *)
Theorem create_dir_entry_adds `{Encodings, Clock} vol dir bl info nshort nlong len :
  layout_ok vol -> directory vol (cluster dir) bl -> dir_node vol dir bl ->
  (IS_FIXED_ROOT (cluster dir) = false -> can_grow vol) ->
  st_size dir = 32 * dir_entries vol bl -> st_size dir < 2 ^ 30 ->
  (forall t, 0 <= t < dir_entries vol bl -> lfn_sane vol bl t) ->
  Forall is_byte nshort -> length nshort = 11%nat -> Forall is_byte nlong ->
  0 <= len -> required_entries len <= 32 ->
  26 * (required_entries len - 1) <= Z.of_nat (length nlong) ->
  take 8 nshort ∉ device_names -> ei_cluster info = 0 \/ data_cluster vol (ei_cluster info) ->
  exists r v dir' ns ne, _create_dir_entry_ vol dir info nshort nlong len = Some (r, v, dir', ns, ne) /\
    (r = B_OK /\ (exists bl', created vol dir bl nshort nlong info len ns ne v dir' bl') \/
     r = ENAMETOOLONG /\ v = vol /\ dir' = dir /\
       (exists i j s, 0 <= i /\ too_long vol bl i j 512 s /\ j < dir_entries vol bl) \/
     r = B_DEVICE_FULL /\ dir' = dir /\ fat_frame vol v /\ same_table vol v /\ layout_ok v /\
       free_clusters v = free_clusters vol).
Proof. intros. by apply create_entry. Qed.

(** C10: an entry created with a long name of up to 246 characters is found
    again: a scan from its first entry reports the name, the range of its
    entries, its attributes, first cluster, size and time. *)
Theorem create_then_find `{SjisTables, Clock} vol dir bl info nshort us v dir' ns ne :
  layout_ok vol -> directory vol (cluster dir) bl -> dir_node vol dir bl ->
  (IS_FIXED_ROOT (cluster dir) = false -> can_grow vol) ->
  st_size dir = 32 * dir_entries vol bl -> st_size dir < 2 ^ 30 ->
  (forall t, 0 <= t < dir_entries vol bl -> lfn_sane vol bl t) ->
  short_ok nshort (ei_mode info) -> take 8 nshort ∉ device_names ->
  ei_cluster info = 0 \/ data_cluster vol (ei_cluster info) ->
  Forall name_char us -> 0xffff ∉ us -> (length us <= 246)%nat -> (length (utf8_name us) <= 510)%nat ->
  _create_dir_entry_ vol dir info nshort (long_buffer us) (2 * Z.of_nat (length us) + 2)
    = Some (B_OK, v, dir', ns, ne) ->
  ns < 0xffff ->
  exists d d' info', diri_init v (cluster dir) ns no_diri = d /\
    _next_dirent_ v (snd d) 512 = Some (B_OK, d', Some (info', utf8_name us)) /\
    di_sindex info' = ns /\ di_eindex info' = ne /\ di_mode info' = ei_mode info mod 256 /\
    di_cluster info' = info_cluster info /\ di_size info' = info_size info mod 2 ^ 32 /\
    di_time info' = time_t2dos tzoffset (ei_time info) mod 2 ^ 32.
Proof.
  intros Hlo Hd Hnode Hg Hsize Hbig Hsane Hok Hdev Hclu Hus Hff Hlen Hu8 E Hns.
  pose proof (required_parts us Hlen) as [Er Hm].
  destruct (create_entry vol Hlo dir bl Hd Hnode Hg Hsize Hbig Hsane info nshort (long_buffer us)
    (2 * Z.of_nat (length us) + 2) (sh_bytes _ _ Hok) (sh_length _ _ Hok) (long_buffer_bytes us Hus))
    as (r & v' & d0 & ns' & ne' & E' & Hout); try lia; try done.
  { rewrite long_buffer_length by done. lia. }
  rewrite E in E'. injection E' as <- <- <- <- <-.
  destruct Hout as [[_ (bl' & Hc)]|[[Hr _]|[Hr _]]]; [|discriminate..].
  destruct Hc as [_ Hlv Hdv Eb _ (Hns0 & Ene & Hne) (last & f & _ & _ & Hbytes)].
  rewrite <-Eb in Hne, Hbytes.
  pose proof (init_at_pos v Hlv _ bl' Hdv ns no_diri ltac:(lia)) as Hinit.
  destruct (diri_init v (cluster dir) ns no_diri) as [q d] eqn:Ed. destruct Hinit as [_ Hat].
  destruct (new_entry_found v Hlv (cluster dir) bl' Hdv nshort info Hok us Hus Hff Hlen ns last f
    ltac:(lia) ltac:(lia) Hbytes 512 d Hat ltac:(lia) ltac:(lia)) as (d' & info' & En & Hi & Hsi).
  exists (q, d), d', info'. split; [done|]. split; [exact En|]. split; [done|].
  pose proof (short_image_stored v bl' (ns + required_entries (2 * Z.of_nat (length us) + 2) - 1) nshort
    (ei_mode info) (info_cluster info) (time_t2dos tzoffset (ei_time info)) (info_size info)) as Hst.
  destruct Hi as [_ -> -> -> -> ->]. destruct Hst as [-> -> -> ->]; [| |done].
  - apply cluster_field; [apply Hlv|]. unfold info_cluster. destruct (_ =? 0); [by left|].
    destruct Hclu as [->|]; [by left|right]. unfold data_cluster in *. by rewrite Eb.
  - intros k Hk. apply (last_entry_bytes v Hlv (cluster dir) bl' Hdv nshort info Hok us Hus Hff Hlen ns last f); [lia|lia|done|done].
Qed.

Lemma rooted_dir_node : dir_node rooted (root_vnode rooted) [5; 6; 7; 8; 9].
Proof.
  replace [5; 6; 7; 8; 9] with (seqZ (root_start rooted) (root_sectors rooted)) by (vm_compute; reflexivity).
  apply dir_fixed; [vm_compute; discriminate|reflexivity].
Qed.

Definition a_short : list Z := bytes_of "NAVE~2     ".
Definition an_info : entry_info := EntryInfo FAT_ARCHIVE 4 700 1000000000.

Lemma a_short_ok : short_ok a_short FAT_ARCHIVE.
Proof.
  split; [|reflexivity|split; discriminate|discriminate].
  unfold a_short. cbn. repeat (apply Forall_cons; split); try apply Forall_nil; try done; unfold is_byte; lia.
Qed.

Lemma create_dir_entry_adds_witness :
  exists r v dir' ns ne,
    _create_dir_entry_ rooted (root_vnode rooted) an_info a_short (long_buffer a_name) 16
    = Some (r, v, dir', ns, ne) /\ (r = B_OK -> layout_ok v).
Proof.
  destruct (create_dir_entry_adds rooted (root_vnode rooted) [5; 6; 7; 8; 9] an_info a_short (long_buffer a_name) 16)
    as (r & v & dir' & ns & ne & E & Hout).
  - exact rooted_layout.
  - exact rooted_directory.
  - exact rooted_dir_node.
  - intros Hf. exfalso. revert Hf. vm_compute. discriminate.
  - vm_compute. reflexivity.
  - vm_compute. reflexivity.
  - apply lfn_saneb_all. vm_compute. reflexivity.
  - apply a_short_ok.
  - reflexivity.
  - apply long_buffer_bytes, a_name_chars.
  - lia.
  - vm_compute. discriminate.
  - vm_compute. discriminate.
  - apply (bool_decide_eq_true_1 _). vm_compute. reflexivity.
  - right. zdecide.
  - exists r, v, dir', ns, ne. split; [exact E|]. intros Hr.
    destruct Hout as [[_ [bl' Hc]]|[[H _]|[H _]]]; [apply Hc|exfalso; rewrite Hr in H; discriminate H..].
Defined.

(** The status and the range, evaluated on the sample. *)
Lemma new_entry_created :
  option_map (fun '(r, _, _, ns, ne) => (r, ns, ne))
    (_create_dir_entry_ rooted (root_vnode rooted) an_info a_short (long_buffer a_name) 16) = Some (B_OK, 5, 6).
Proof. vm_compute. reflexivity. Qed.

Lemma create_then_find_witness :
  exists v dir' d' info',
    _create_dir_entry_ rooted (root_vnode rooted) an_info a_short (long_buffer a_name) 16
      = Some (B_OK, v, dir', 5, 6) /\
    _next_dirent_ v (snd (diri_init v 1 5 no_diri)) 512
      = Some (B_OK, d', Some (info', [0x6e; 0x61; 0xc3; 0xaf; 0x76; 0x65; 0x20; 0xe2; 0x82; 0xac])) /\
    di_cluster info' = 4 /\ di_size info' = 700.
Proof.
  pose proof new_entry_created as E0.
  destruct (_create_dir_entry_ rooted (root_vnode rooted) an_info a_short (long_buffer a_name) 16)
    as [[[[[r v] dir'] ns] ne]|] eqn:E; [|discriminate E0].
  cbn [option_map] in E0. injection E0 as -> -> ->.
  destruct (create_then_find rooted (root_vnode rooted) [5; 6; 7; 8; 9] an_info a_short a_name
    v dir' 5 6) as (d & d' & info' & Ed & En & _ & _ & _ & Hc & Hs & _).
  - exact rooted_layout.
  - exact rooted_directory.
  - exact rooted_dir_node.
  - intros Hf. exfalso. revert Hf. vm_compute. discriminate.
  - vm_compute. reflexivity.
  - vm_compute. reflexivity.
  - apply lfn_saneb_all. vm_compute. reflexivity.
  - apply a_short_ok.
  - apply (bool_decide_eq_true_1 _). vm_compute. reflexivity.
  - right. zdecide.
  - exact a_name_chars.
  - apply (bool_decide_eq_true_1 _). vm_compute. reflexivity.
  - simpl. lia.
  - simpl. lia.
  - exact E.
  - lia.
  - exists v, dir', d', info'. split; [reflexivity|]. rewrite <-Ed in En. split; [exact En|].
    split; [rewrite Hc|rewrite Hs]; reflexivity.
Defined.
