(* ===== verification/VnodeId.v ===== *)
(** Node ids (dosfs.h): the encodings of places on the volume, and their
    decodings. *)
From stdpp Require Import base gmap list.
From Stdlib Require Import ZArith Lia.
From S2P Require Import Prelude Errors Volume.

(** The ids of nodes, as numbers: the directory in bits 32 to 59, the cluster
    or the index below. *)
Lemma shifted_dir d : d mod 2 ^ 32 < 2 ^ 28 -> i64 (Z.shiftl d 32) = d mod 2 ^ 32 * 2 ^ 32.
Proof.
  intros Hd. unfold i64. rewrite Z.shiftl_mul_pow2 by lia.
  change (2 ^ 64) with (2 ^ 32 * 2 ^ 32). rewrite Z.mul_mod_distr_r by lia.
  pose proof (Z.mod_pos_bound d (2 ^ 32) ltac:(lia)). rewrite (proj2 (Z.ltb_lt _ _)) by lia. done.
Qed.

Lemma dir_cluster_vnid_eq d c :
  d mod 2 ^ 32 < 2 ^ 28 -> 0 <= c < 2 ^ 32 ->
  GENERATE_DIR_CLUSTER_VNID d c = (2 ^ 30 + d mod 2 ^ 32) * 2 ^ 32 + c.
Proof.
  intros Hd Hc. unfold GENERATE_DIR_CLUSTER_VNID. rewrite shifted_dir by done.
  pose proof (Z.mod_pos_bound d (2 ^ 32) ltac:(lia)).
  replace DIR_CLUSTER_VNID_BITS with (2 ^ 2 * 2 ^ 60) by reflexivity.
  rewrite (lor_add (2 ^ 2) _ 60) by lia.
  replace (2 ^ 2 * 2 ^ 60 + d mod 2 ^ 32 * 2 ^ 32) with ((2 ^ 30 + d mod 2 ^ 32) * 2 ^ 32) by lia.
  by rewrite lor_add by lia.
Qed.

Lemma dir_index_vnid_eq d i :
  d mod 2 ^ 32 < 2 ^ 28 -> 0 <= i < 2 ^ 32 ->
  GENERATE_DIR_INDEX_VNID d i = d mod 2 ^ 32 * 2 ^ 32 + i.
Proof.
  intros Hd Hi. unfold GENERATE_DIR_INDEX_VNID. rewrite shifted_dir by done.
  change DIR_INDEX_VNID_BITS with 0. rewrite Z.lor_0_l. by rewrite lor_add by lia.
Qed.

Lemma low_word x c : 0 <= c < 2 ^ 32 -> u32 (Z.land (x * 2 ^ 32 + c) 0xffffffff) = c.
Proof.
  intros Hc. rewrite (land_ones_mod _ 32) by done. unfold u32. rewrite Z.mod_mod by lia.
  rewrite Z.add_comm, Z.mod_add by lia. by apply Z.mod_small.
Qed.

Lemma cluster_of_dir_vnid d c :
  d mod 2 ^ 32 < 2 ^ 28 -> 0 <= c < 2 ^ 32 ->
  CLUSTER_OF_DIR_CLUSTER_VNID (GENERATE_DIR_CLUSTER_VNID d c) = c.
Proof. intros Hd Hc. rewrite dir_cluster_vnid_eq by done. by apply low_word. Qed.

Lemma dir_of_word x c : 0 <= x < 2 ^ 28 -> 0 <= c < 2 ^ 32 ->
  DIR_OF_VNID (x * 2 ^ 32 + c) = x /\ DIR_OF_VNID ((2 ^ 30 + x) * 2 ^ 32 + c) = x.
Proof.
  intros Hx Hc. unfold DIR_OF_VNID. rewrite !Z.shiftr_div_pow2, !Z.div_add_l, (Z.div_small c) by lia.
  change (u32 (Z.lnot 0xf0000000)) with 0x0fffffff. rewrite !(land_ones_mod _ 28) by done.
  change (2 ^ 30) with (4 * 2 ^ 28). rewrite !Z.add_0_r, (Z.add_comm (4 * 2 ^ 28)), Z.mod_add by lia.
  rewrite !Z.mod_small by lia. by rewrite u32_small by lia.
Qed.

Lemma vnid_bits x c : 0 <= x < 2 ^ 28 -> 0 <= c < 2 ^ 32 ->
  Z.land (x * 2 ^ 32 + c) ARTIFICIAL_VNID_BITS = DIR_INDEX_VNID_BITS /\
  Z.land ((2 ^ 30 + x) * 2 ^ 32 + c) ARTIFICIAL_VNID_BITS = DIR_CLUSTER_VNID_BITS.
Proof.
  intros Hx Hc. change ARTIFICIAL_VNID_BITS with (Z.shiftl 6 60).
  assert (H : forall y, 0 <= y < 2 ^ 60 -> Z.land y (Z.shiftl 6 60) = 0).
  { intros y Hy. rewrite Z.land_comm, Z.shiftl_mul_pow2 by lia. by apply land_disjoint. }
  split; [apply H; lia|].
  replace ((2 ^ 30 + x) * 2 ^ 32 + c) with (2 ^ 2 * 2 ^ 60 + (x * 2 ^ 32 + c)) by lia.
  rewrite <-(lor_add (2 ^ 2) _ 60) by lia. rewrite Z.land_lor_distr_l, (H (x * 2 ^ 32 + c)) by lia. reflexivity.
Qed.

Lemma vnid_invalid x c : 0 <= x < 2 ^ 28 -> 0 <= c < 2 ^ 32 ->
  flag (x * 2 ^ 32 + c) INVALID_VNID_BITS_MASK = false /\
  flag ((2 ^ 30 + x) * 2 ^ 32 + c) INVALID_VNID_BITS_MASK = false.
Proof.
  intros Hx Hc.
  assert (H : forall y, 0 <= y < 2 ^ 60 \/ 2 ^ 62 <= y < 2 ^ 62 + 2 ^ 60 -> Z.land y INVALID_VNID_BITS_MASK = 0).
  { intros y Hy. change INVALID_VNID_BITS_MASK with ((-7) * 2 ^ 60). rewrite Z.land_comm.
    destruct Hy as [Hy|Hy]; [by apply land_disjoint|].
    replace y with (4 * 2 ^ 60 + (y - 2 ^ 62)) by lia. rewrite <-(lor_add 4 _ 60), Z.land_lor_distr_r by lia.
    by rewrite (land_disjoint (-7) (y - 2 ^ 62) 60) by lia. }
  unfold flag. rewrite !H by lia. done.
Qed.

(** Node ids.  The id of a node with data decodes to its cluster, the id
    of an empty file to the index of its entry, both to the directory; each
    kind is recognised as what it is. *)
Theorem vnid_round_trip d c i :
  d mod 2 ^ 32 < 2 ^ 28 -> 0 <= c < 2 ^ 32 -> 0 <= i < 2 ^ 32 ->
  let by_cluster := GENERATE_DIR_CLUSTER_VNID d c in
  let by_index := GENERATE_DIR_INDEX_VNID d i in
  CLUSTER_OF_DIR_CLUSTER_VNID by_cluster = c /\ INDEX_OF_DIR_INDEX_VNID by_index = i /\
  DIR_OF_VNID by_cluster = CLUSTER_OF_DIR_CLUSTER_VNID d /\
  DIR_OF_VNID by_index = CLUSTER_OF_DIR_CLUSTER_VNID d /\
  IS_DIR_CLUSTER_VNID by_cluster = true /\ IS_DIR_INDEX_VNID by_cluster = false /\
  IS_DIR_INDEX_VNID by_index = true /\ IS_DIR_CLUSTER_VNID by_index = false /\
  IS_ARTIFICIAL_VNID by_cluster = false /\ IS_ARTIFICIAL_VNID by_index = false /\
  IS_INVALID_VNID by_cluster = false /\ IS_INVALID_VNID by_index = false.
Proof.
  intros Hd Hc Hi. cbv zeta. pose proof (Z.mod_pos_bound d (2 ^ 32) ltac:(lia)).
  rewrite dir_cluster_vnid_eq, dir_index_vnid_eq by done. set (x := d mod 2 ^ 32) in *.
  assert (Ed : CLUSTER_OF_DIR_CLUSTER_VNID d = x).
  { unfold CLUSTER_OF_DIR_CLUSTER_VNID. rewrite (land_ones_mod _ 32) by done. by rewrite u32_small. }
  destruct (vnid_bits x c ltac:(lia) Hc) as [_ Bc]. destruct (vnid_bits x i ltac:(lia) Hi) as [Bi _].
  destruct (vnid_invalid x c ltac:(lia) Hc) as [_ Ic]. destruct (vnid_invalid x i ltac:(lia) Hi) as [Ii _].
  destruct (dir_of_word x c ltac:(lia) Hc) as [_ Dc]. destruct (dir_of_word x i ltac:(lia) Hi) as [Di _].
  unfold IS_INVALID_VNID, IS_DIR_CLUSTER_VNID, IS_DIR_INDEX_VNID, IS_ARTIFICIAL_VNID.
  rewrite Ed, Bc, Bi, Ic, Ii, Dc, Di. unfold CLUSTER_OF_DIR_CLUSTER_VNID, INDEX_OF_DIR_INDEX_VNID.
  rewrite !low_word by done. by split_and!.
Qed.

Lemma vnid_round_trip_witness :
  CLUSTER_OF_DIR_CLUSTER_VNID (GENERATE_DIR_CLUSTER_VNID (GENERATE_DIR_CLUSTER_VNID 1 7) 90000) = 90000.
Proof.
  apply (vnid_round_trip (GENERATE_DIR_CLUSTER_VNID 1 7) 90000 0); vm_compute; [|split|split];
    discriminate || reflexivity.
Defined.
