(* ===== verification/FileMap.v ===== *)
(** The file map (file.c): where the bytes of a file are on the device, and
    the page transfers that use it. *)
From stdpp Require Import base gmap list.
From Stdlib Require Import ZArith Lia.
From S2P Require Import Prelude Errors Volume Fat FatEntry Iter Dirent.

Implicit Types vol : nspace.

Record file_io_vec := FileIoVec { fv_offset : Z; fv_length : Z }.

(** ** [dosfs_get_file_map]

    The vectors are those stored so far; their number is [index], which is
    also what the caller finds in [*_count]. *)

(** What follows the store of a vector: the test for room, and the move to the
    next sector. *)
Definition map_advance (vol : nspace) (len max : Z) (iter : csi) (bytes_read : Z)
    (vecs : list file_io_vec) : loop (csi * Z * list file_io_vec) (Z * list file_io_vec) :=
  if max <=? Z.of_nat (length vecs) then Brk (B_BUFFER_OVERFLOW, vecs)
  else if bytes_read <? len then
    let '(result, iter) := iter_csi vol iter 1 in
    if negb (result =? B_OK) then Brk (EIO, vecs) else Cont (iter, bytes_read, vecs)
  else Cont (iter, bytes_read, vecs).

(** The rest of a first sector the range begins inside of. *)
Definition map_first (vol : nspace) (pos len max : Z) (iter : csi)
    : loop (csi * Z * list file_io_vec) (Z * list file_io_vec) :=
  let skip := pos mod bytes_per_sector vol in
  if skip =? 0 then Cont (iter, 0, [])
  else
    let amt := u32 (bytes_per_sector vol - skip) in
    let amt := if len <? amt then len else amt in
    map_advance vol len max iter amt
      [FileIoVec (csi_to_block vol iter * bytes_per_sector vol + skip) amt].

(** One run of adjacent whole sectors; [inr] leaves the loop. *)
Definition map_middle (vol : nspace) (len max : Z) (s : csi * Z * list file_io_vec)
    : loop (csi * Z * list file_io_vec)
        ((Z * list file_io_vec) + (csi * Z * list file_io_vec)) :=
  let '(iter, bytes_read, vecs) := s in
  if u32 (bytes_read + bytes_per_sector vol) <=? len then
    let block := csi_to_block vol iter in
    let '(iter, sectors) := csi_run vol iter (len - bytes_read) in
    let bytes := u32 (sectors * bytes_per_sector vol) in
    match map_advance vol len max iter (u32 (bytes_read + bytes))
            (vecs ++ [FileIoVec (block * bytes_per_sector vol) bytes]) with
    | Cont s => Cont s
    | Brk r => Brk (inl r)
    end
  else Brk (inr s).

(** The beginning of the last sector. *)
Definition map_last (vol : nspace) (len max : Z) (s : csi * Z * list file_io_vec)
    : Z * list file_io_vec :=
  let '(iter, bytes_read, vecs) := s in
  if bytes_read <? len then
    let vecs := vecs ++ [FileIoVec (csi_to_block vol iter * bytes_per_sector vol)
                           (u32 (len - bytes_read))] in
    (if max <=? Z.of_nat (length vecs) then B_BUFFER_OVERFLOW else B_OK, vecs)
  else (B_OK, vecs).

(** The part of the function behind the search for the first sector. *)
Definition map_from (vol : nspace) (pos len max : Z) (iter : csi) : Z * list file_io_vec :=
  match map_first vol pos len max iter with
  | Brk r => r
  | Cont s =>
      match z_loop (map_middle vol len max) (len + 1) s with
      | Brk (inl r) => r
      | Brk (inr s) => map_last vol len max s
      | Cont (_, _, vecs) => (LOOP_EXHAUSTED, vecs)
      end
  end.

Definition dosfs_get_file_map (vol : nspace) (node : vnode) (pos len max : Z)
    : Z * list file_io_vec :=
  if flag (mode node) FAT_SUBDIR then (EISDIR, [])
  else
    let pos := if pos <? 0 then 0 else pos in
    if (st_size node =? 0) || (len =? 0) || (st_size node <=? pos) then (B_OK, [])
    else
      let len := if st_size node <=? pos + len then u32 (st_size node - pos) else len in
      let diff := pos / bytes_per_sector vol in
      let '(result, iter) := init_csi vol (cluster node) 0 no_csi in
      if negb (result =? B_OK) then (result, [])
      else
        let '(result, iter) :=
          if diff =? 0 then (B_OK, iter) else iter_csi vol iter (i32 diff) in
        if negb (result =? B_OK) then (EIO, []) else map_from vol pos len max iter.

(** ** Page transfers

    The file map of the kernel answers [file_map_translate]; it asks
    [dosfs_get_file_map] for what it does not know yet.  A transfer copies the
    vectors to or from the pages, from page vector [vecIndex] and offset
    [vecOffset] on, and says how many bytes it has copied. *)
Class PageIO (W : Type) := {
  file_map_translate : vnode -> Z -> Z -> Z -> Z * list file_io_vec;
  file_io_vec_pages : bool -> W -> list file_io_vec -> Z * Z -> Z -> Z * W * (Z * Z) * Z
}.

Definition pages_step {W} `{PageIO W} (write : bool) (node : vnode) (s : W * Z * Z * (Z * Z))
    : loop (W * Z * Z * (Z * Z)) (Z * W) :=
  let '(w, pos, bytesLeft, at_vec) := s in
  let '(status, fileVecs) := file_map_translate node pos bytesLeft 8 in
  if negb (status =? B_OK) && negb (status =? B_BUFFER_OVERFLOW) then Brk (status, w)
  else
    let bufferOverflow := status =? B_BUFFER_OVERFLOW in
    let '(status, w, at_vec, bytes) := file_io_vec_pages write w fileVecs at_vec bytesLeft in
    if negb (status =? B_OK) || negb bufferOverflow then Brk (status, w)
    else Cont (w, pos + bytes, u32 (bytesLeft - bytes), at_vec).

Definition pages_loop {W} `{PageIO W} (write : bool) (node : vnode) (w : W) (pos numBytes : Z) : Z * W :=
  match cache node with
  | None => (B_BAD_VALUE, w)
  | Some _ =>
      match z_loop (pages_step write node) (2 ^ 32) (w, pos, numBytes, (0, 0)) with
      | Brk r => r
      | Cont (w, _, _, _) => (LOOP_EXHAUSTED, w)
      end
  end.

Definition dosfs_read_pages {W} `{PageIO W} (node : vnode) (w : W) (pos numBytes : Z) : Z * W :=
  pages_loop false node w pos numBytes.
Definition dosfs_write_pages {W} `{PageIO W} (node : vnode) (w : W) (pos numBytes : Z) : Z * W :=
  pages_loop true node w pos numBytes.
