(* ===== verification/FileMapSpec.v ===== *)
(** The file map is the device address of every byte of the file, in order. *)
From stdpp Require Import base gmap list.
From Stdlib Require Import ZArith Lia.
From S2P Require Import Prelude Errors Volume Fat FatEntry FatIoctl FatTable FatChain Sample Iter Stream StreamSpec Dirent FileMap.

Implicit Types vol : nspace.

(** Where byte [p] of a file in the blocks [bl] is on the device. *)
Definition disk_byte (bps : Z) (bl : list Z) (p : Z) : Z :=
  nth (Z.to_nat (p / bps)) bl 0 * bps + p mod bps.

Definition vec_bytes (v : file_io_vec) : list Z := seqZ (fv_offset v) (fv_length v).

(** [maps_to bps bl p n vecs]: the vectors are, byte by byte, the [n] bytes
    from [p] on, and none of them is empty. *)
Definition maps_to (bps : Z) (bl : list Z) (p n : Z) (vecs : list file_io_vec) : Prop :=
  concat (map vec_bytes vecs) = map (disk_byte bps bl) (seqZ p n) /\
  Forall (fun v => 0 < fv_length v) vecs.

Lemma map_seqZ_shift (f : Z -> Z) p o n :
  (forall t, 0 <= t < n -> f (p + t) = o + t) -> map f (seqZ p n) = seqZ o n.
Proof.
  intros H. apply list_eq. intros i. destruct (decide (Z.of_nat i < n)) as [Hi|Hi].
  - change (map f (seqZ p n)) with (f <$> seqZ p n). rewrite list_lookup_fmap. replace i with (Z.to_nat (Z.of_nat i)) by lia.
    rewrite !lookup_seqZ_Z by lia. simpl. by rewrite H by lia.
  - rewrite !(proj2 (lookup_ge_None _ _)); [done| |]; rewrite ?length_map, length_seqZ; lia.
Qed.

Lemma maps_to_snoc bps bl p n vecs o k :
  0 <= n -> 0 < k -> maps_to bps bl p n vecs ->
  (forall t, 0 <= t < k -> disk_byte bps bl (p + n + t) = o + t) ->
  maps_to bps bl p (n + k) (vecs ++ [FileIoVec o k]).
Proof.
  intros Hn Hk [Hv Hp] Hb. split.
  - rewrite map_app, concat_app, Hv, seqZ_app, map_app by lia. f_equal.
    rewrite (map_seqZ_shift _ _ o) by done. simpl. by rewrite app_nil_r.
  - apply Forall_app_2; [done|]. by constructor.
Qed.

Lemma maps_to_nil bps bl p : maps_to bps bl p 0 [].
Proof. by split. Qed.

(** The bytes of [k] adjacent blocks, from byte [r] of the first on. *)
Lemma disk_byte_run bps bl j b k r t :
  0 < bps -> 0 <= j -> 0 <= r -> 0 <= t -> r + t < k * bps ->
  (forall i, 0 <= i < k -> bl !! Z.to_nat (j + i) = Some (b + i)) ->
  disk_byte bps bl (j * bps + r + t) = b * bps + r + t.
Proof.
  intros Hb Hj Hr Ht Hk Hall. unfold disk_byte.
  replace (j * bps + r + t) with (r + t + j * bps) by lia.
  rewrite Z.div_add, Z.mod_add by lia.
  pose proof (Z.div_pos (r + t) bps ltac:(lia) Hb).
  assert ((r + t) / bps < k) by (apply Z.div_lt_upper_bound; lia).
  rewrite (Z.add_comm _ j), (nth_lookup_Some _ _ 0 _ (Hall ((r + t) / bps) ltac:(lia))).
  pose proof (Z.div_mod (r + t) bps). lia.
Qed.

Section FileMap.
Context (vol : nspace) (Hlo : layout_ok vol) (start : Z) (bl : list Z).
Context (pos len max : Z) (Hpos : 0 <= pos) (Hlen : 0 < len).
Context (Hend : pos + len <= Z.of_nat (length bl) * bytes_per_sector vol).
Context (Hsmall : pos + len + bytes_per_sector vol < 2 ^ 32) (Hmax : 1 <= max).

Let bps := bytes_per_sector vol.

Lemma map_bps : 512 <= bps.
Proof using All. pose proof (geo_bps _ (ok_geo _ (lo_fat _ Hlo))). unfold bps. lia. Qed.

(** The state between two vectors: the bytes up to a sector boundary have been
    mapped, and the iterator is at the sector that follows. *)
Definition mapping (s : csi * Z * list file_io_vec) : Prop :=
  let '(iter, br, vecs) := s in
  0 <= br <= len /\ maps_to bps bl pos br vecs /\ Z.of_nat (length vecs) < max /\
  (br < len -> exists j, pos + br = j * bps /\ at_block vol start bl j iter).

Definition map_done (r : Z * list file_io_vec) : Prop :=
  exists n, 0 <= n <= len /\ maps_to bps bl pos n (snd r) /\
    (fst r = B_OK /\ n = len /\ Z.of_nat (length (snd r)) < max \/
     fst r = B_BUFFER_OVERFLOW /\ Z.of_nat (length (snd r)) = max).

Lemma map_advance_spec j c br vecs :
  at_block vol start bl j c -> 0 <= br <= len -> maps_to bps bl pos br vecs ->
  Z.of_nat (length vecs) <= max -> (br < len -> pos + br = (j + 1) * bps) ->
  match map_advance vol len max c br vecs with Cont s => mapping s | Brk r => map_done r end.
Proof using All.
  intros Hat Hbr Hv Hl Hj. pose proof map_bps. unfold map_advance.
  destruct (Z.leb_spec max (Z.of_nat (length vecs))).
  { exists br. split_and!; [lia|lia|done|]. right. split; [done|simpl; lia]. }
  destruct (Z.ltb_spec br len) as [Hlt|]; [|split_and!; auto; lia].
  pose proof (at_block_valid vol Hlo _ _ _ _ Hat) as (_ & _ & Hs & _).
  pose proof (iter_csi_moves vol Hlo start bl j c 1 Hat ltac:(lia) ltac:(lia)) as Hmove.
  specialize (Hj Hlt). rewrite (proj2 (Z.ltb_lt (j + 1) _)) in Hmove by nia.
  destruct Hmove as (c' & -> & Hat'). simpl. split_and!; auto; try lia. intros _. by exists (j + 1).
Qed.

Lemma at_block_num j c : at_block vol start bl j c -> 0 <= j < Z.of_nat (length bl) /\
  bl !! Z.to_nat j = Some (csi_to_block vol c).
Proof using All.
  intros Hat. pose proof (at_block_valid vol Hlo _ _ _ _ Hat) as (_ & Hb & _ & Hj).
  split; [|done]. apply lookup_lt_Some in Hb. lia.
Qed.

Lemma map_first_spec c :
  at_block vol start bl (pos / bps) c ->
  match map_first vol pos len max c with Cont s => mapping s | Brk r => map_done r end.
Proof using All.
  intros Hat. pose proof map_bps as Hbps. unfold map_first. fold bps.
  pose proof (Z.div_mod pos bps ltac:(lia)) as E. pose proof (Z.mod_pos_bound pos bps ltac:(lia)) as Hm.
  destruct (Z.eqb_spec (pos mod bps) 0) as [E0|E0].
  { split_and!; [lia|lia|apply maps_to_nil|simpl; lia|]. intros _. exists (pos / bps). split; [lia|done]. }
  rewrite (u32_small (bps - _)) by (unfold bps in *; lia).
  set (amt := if len <? bps - pos mod bps then len else bps - pos mod bps).
  assert (Ha : 0 < amt <= len /\ amt <= bps - pos mod bps /\ (amt < len -> amt = bps - pos mod bps))
    by (unfold amt; destruct (Z.ltb_spec len (bps - pos mod bps)); lia).
  clearbody amt. destruct (at_block_num _ _ Hat) as [Hj Hb].
  apply map_advance_spec with (pos / bps); [done|lia| |simpl; lia|intros; lia].
  replace amt with (0 + amt) at 1 by lia. apply (maps_to_snoc _ _ _ _ []); [lia|lia|apply maps_to_nil|].
  intros t Ht. replace (pos + 0 + t) with (pos / bps * bps + pos mod bps + t) by lia.
  apply disk_byte_run with 1; [lia..|]. intros i Hi. replace i with 0 by lia. by rewrite !Z.add_0_r.
Qed.

Lemma map_middle_spec s :
  mapping s ->
  match map_middle vol len max s with
  | Cont s' => mapping s' /\ snd (fst s) < snd (fst s')
  | Brk (inl r) => map_done r
  | Brk (inr s') => s' = s /\ len < snd (fst s) + bps
  end.
Proof using All.
  destruct s as [[iter br] vecs]. intros (Hbr & Hv & Hl & Hj). pose proof map_bps as Hbps.
  unfold map_middle. fold bps. rewrite u32_small by (unfold bps in *; lia).
  destruct (Z.leb_spec (br + bps) len) as [Hle|]; [|done].
  destruct (Hj ltac:(lia)) as (j & Epos & Hat). destruct (at_block_num _ _ Hat) as [Hjr Hb].
  pose proof (csi_run_spec vol Hlo start bl j iter (len - br) Hat ltac:(fold bps; lia)
    ltac:(fold bps; unfold bps in *; lia)) as Hrun.
  destruct (csi_run vol iter (len - br)) as [last k]. fold bps in Hrun.
  destruct Hrun as (Hk & Hkl & Hlast & Hall & _).
  assert (0 < k * bps) by nia.
  rewrite (u32_small (k * bps)), u32_small by (unfold bps in *; lia).
  assert (Hv' : maps_to bps bl pos (br + k * bps)
                  (vecs ++ [FileIoVec (csi_to_block vol iter * bps) (k * bps)])).
  { apply maps_to_snoc; [lia|done|done|]. intros t Ht. rewrite Epos.
    replace (j * bps + t) with (j * bps + 0 + t) by lia.
    rewrite (disk_byte_run bps bl j (csi_to_block vol iter) k 0 t) by (done || lia). lia. }
  pose proof (map_advance_spec (j + k - 1) last (br + k * bps) _ Hlast ltac:(lia) Hv') as Hadv.
  rewrite length_app in Hadv. simpl in Hadv. specialize (Hadv ltac:(lia) ltac:(lia)).
  unfold map_advance in *. destruct (max <=? _); [done|].
  destruct (br + k * bps <? len); [|split; [exact Hadv|simpl; lia]].
  destruct (iter_csi vol last 1) as [res it]. destruct (negb (res =? B_OK)); [done|].
  split; [exact Hadv|simpl; lia].
Qed.

Lemma map_last_spec s :
  mapping s -> len < snd (fst s) + bps -> map_done (map_last vol len max s).
Proof using All.
  destruct s as [[iter br] vecs]. simpl. intros (Hbr & Hv & Hl & Hj) Hle.
  pose proof map_bps as Hbps. fold bps. destruct (Z.ltb_spec br len) as [Hlt|].
  2:{ exists br. split_and!; [lia|lia|done|]. left. simpl. split_and!; [done|lia|lia]. }
  destruct (Hj Hlt) as (j & Epos & Hat). destruct (at_block_num _ _ Hat) as [Hjr Hb].
  rewrite u32_small by (unfold bps in *; lia). exists len. simpl. split_and!; [lia|lia| |].
  - replace len with (br + (len - br)) at 1 by lia. apply maps_to_snoc; [lia|lia|done|].
    intros t Ht. rewrite Epos. replace (j * bps + t) with (j * bps + 0 + t) by lia.
    rewrite (disk_byte_run bps bl j (csi_to_block vol iter) 1 0 t); [lia..|].
    intros i Hi. replace i with 0 by lia. by rewrite !Z.add_0_r.
  - rewrite length_app. simpl. destruct (Z.leb_spec max (Z.of_nat (length vecs + 1))); [right|left]; split_and!; done || lia.
Qed.

Lemma map_from_spec c :
  at_block vol start bl (pos / bps) c -> map_done (map_from vol pos len max c).
Proof using All.
  intros Hat. unfold map_from. pose proof (map_first_spec c Hat) as Hf.
  destruct (map_first vol pos len max c) as [s|r]; [|done].
  assert (H0 : mapping s /\ 0 <= snd (fst s)) by (destruct s as [[? ?] ?]; destruct Hf; split; [done|simpl; lia]).
  assert (Hloop : match z_loop (map_middle vol len max) (len + 1) s with
                  | Cont s => mapping s /\ len + 1 <= snd (fst s)
                  | Brk (inl r) => map_done r
                  | Brk (inr s) => mapping s /\ len < snd (fst s) + bps
                  end).
  { apply (z_loop_inv _ (fun i s => mapping s /\ i <= snd (fst s))
      (fun r => match r with inl r => map_done r | inr s => mapping s /\ len < snd (fst s) + bps end));
      [lia|done|].
    intros i s0 _ [Hm Hi]. pose proof (map_middle_spec s0 Hm) as H.
    destruct (map_middle _ _ _ s0) as [s1|[r1|s1]]; [|done|]; destruct H as [? ?]; subst; split; done || lia. }
  destruct (z_loop _ _ s) as [[[it br] vecs]|[r|s']]; [|done|destruct Hloop; by apply map_last_spec].
  destruct Hloop as [(Hbr & _) Hge]. simpl in Hge. lia.
Qed.
End FileMap.

(** C34: the file map of a range of a file.  The range is cut to the file; the
    vectors give, byte by byte and in order, where its bytes are on the device,
    none of them empty.  With B_OK they give all of it, with room to spare in
    the caller's array; with B_BUFFER_OVERFLOW the array is full and they give
    a first part. *)
Theorem dosfs_get_file_map_covers vol node bl pos len max :
  layout_ok vol -> flag (mode node) FAT_SUBDIR = false -> stream vol (cluster node) bl ->
  0 <= st_size node <= Z.of_nat (length bl) * bytes_per_sector vol ->
  st_size node + bytes_per_sector vol < 2 ^ 32 -> 0 <= len < 2 ^ 32 -> 1 <= max ->
  let p := Z.max 0 pos in
  let wanted := Z.max 0 (Z.min len (st_size node - p)) in
  let '(result, vecs) := dosfs_get_file_map vol node pos len max in
  exists n, 0 <= n <= wanted /\ maps_to (bytes_per_sector vol) bl p n vecs /\
    (result = B_OK /\ n = wanted /\ Z.of_nat (length vecs) < max \/
     result = B_BUFFER_OVERFLOW /\ Z.of_nat (length vecs) = max).
Proof.
  intros Hlo Hfile Hst Hsize Hsmall Hlen Hmax p wanted. unfold dosfs_get_file_map. rewrite Hfile.
  replace (if pos <? 0 then 0 else pos) with p by (unfold p; destruct (Z.ltb_spec pos 0); lia).
  assert (Hp : 0 <= p) by (unfold p; lia). clearbody p.
  destruct (_ || _) eqn:Eempty.
  { exists 0. split_and!; [lia|unfold wanted; lia|apply maps_to_nil|]. left. simpl. unfold wanted.
    split_and!; [done| |lia]. apply orb_true_iff in Eempty as [[E%Z.eqb_eq|E%Z.eqb_eq]%orb_true_iff|E%Z.leb_le]; lia. }
  apply orb_false_iff in Eempty as [[E1%Z.eqb_neq E2%Z.eqb_neq]%orb_false_iff E3%Z.leb_gt].
  replace (if st_size node <=? p + len then u32 (st_size node - p) else len) with wanted
    by (unfold wanted; destruct (Z.leb_spec (st_size node) (p + len)); [rewrite u32_small|]; lia).
  pose proof (geo_bps _ (ok_geo _ (lo_fat _ Hlo))) as Hbps.
  pose proof (stream_init vol Hlo _ bl Hst ltac:(nia)) as Hat0.
  pose proof (at_block_valid vol Hlo _ _ _ _ Hat0) as (Hv & _). unfold init_csi. simpl in Hv. rewrite Hv. simpl.
  pose proof (Z.div_pos p (bytes_per_sector vol) ltac:(lia) ltac:(lia)) as Hq.
  assert (Hql : p / bytes_per_sector vol < Z.of_nat (length bl)) by (apply Z.div_lt_upper_bound; nia).
  assert (Hqs : p / bytes_per_sector vol < 2 ^ 31) by (apply Z.div_lt_upper_bound; lia).
  assert (Hiter : exists c, (if p / bytes_per_sector vol =? 0 then (B_OK, Csi (cluster node) 0)
      else iter_csi vol (Csi (cluster node) 0) (i32 (p / bytes_per_sector vol))) = (B_OK, c) /\
    at_block vol (cluster node) bl (p / bytes_per_sector vol) c).
  { destruct (Z.eqb_spec (p / bytes_per_sector vol) 0) as [->|]; [by eexists|].
    rewrite i32_small by lia.
    pose proof (iter_csi_moves vol Hlo _ bl 0 _ (p / bytes_per_sector vol) Hat0 Hq ltac:(simpl; lia)) as H.
    rewrite Z.add_0_l, (proj2 (Z.ltb_lt _ _)) in H by lia. exact H. }
  destruct Hiter as (c & -> & Hat). simpl.
  pose proof (map_from_spec vol Hlo (cluster node) bl p wanted max Hp ltac:(unfold wanted; lia)
    ltac:(unfold wanted; lia) ltac:(unfold wanted; lia) Hmax c Hat) as (n & Hn & Hm & Hres).
  destruct (map_from _ _ _ _ _) as [result vecs]. by exists n.
Qed.

Definition mapped_file : vnode := Vnode 9 1 None None 0 0 2 2 2 0 1900 0 4 None false.

Lemma dosfs_get_file_map_covers_witness :
  exists vecs, dosfs_get_file_map floppy mapped_file 100 1500 8 = (B_OK, vecs) /\
    maps_to 512 [10; 11; 349; 12] 100 1500 vecs.
Proof.
  pose proof (dosfs_get_file_map_covers floppy mapped_file [10; 11; 349; 12] 100 1500 8
    floppy_layout eq_refl floppy_stream ltac:(zdecide) ltac:(zdecide) ltac:(zdecide) ltac:(zdecide)) as H.
  assert (Er : fst (dosfs_get_file_map floppy mapped_file 100 1500 8) = B_OK) by (vm_compute; reflexivity).
  revert H Er. generalize (dosfs_get_file_map floppy mapped_file 100 1500 8).
  intros [result vecs] (n & _ & Hm & H) Er. simpl in Er. subst result.
  exists vecs. split; [reflexivity|]. destruct H as [(_ & -> & _)|[Ebad _]]; [exact Hm|].
  exfalso. revert Ebad. vm_compute. discriminate.
Defined.
