(* ===== verification/Dosfs.v ===== *)
(** Volumes (dosfs.c): reading the boot sector, mounting, the FSInfo sector,
    volume labels, and the hooks of the volume. *)
From stdpp Require Import base gmap list.
From Stdlib Require Import ZArith Lia.
From S2P Require Import Prelude Errors Volume Fat Vcache Dlist Util Attr Iter Dirent Dir.

Implicit Types vol : nspace.

Definition B_FS_IS_REMOVABLE : Z := 2.
Definition B_FS_IS_PERSISTENT : Z := 4.
Definition B_FS_HAS_MIME : Z := 0x10000.
Definition B_MOUNT_READ_ONLY : Z := 1.
Definition B_PARTITION_TOO_SMALL : Z := B_STORAGE_ERROR_BASE + 15.

Record device_geometry := Geometry {
  geo_bytes_per_sector : Z;
  sectors_per_track : Z;
  cylinder_count : Z;
  head_count : Z;
  removable : bool;
  geo_read_only : bool
}.

(** What a mount asks the system about the device: the result of [open] for
    reading, or reading and writing; its geometry, or, for a regular file, its
    size and whether its owner may write; [read_pos], with the number of bytes
    or the error, and the bytes; and the blocks a new block cache delivers. *)
Record device := Device {
  dev_open : bool -> Z;
  dev_geometry : option device_geometry;
  dev_regular : option (Z * bool);
  read_pos : Z -> Z -> Z * list Z;
  block_cache_create : Z -> Z -> option (gmap Z block)
}.

(** ** Labels *)

Fixpoint trim_from (index : nat) (label : list Z) : list Z :=
  match index with
  | O => label
  | S i => if nth index label 0 =? 32 then trim_from i (<[index := 0]> label) else label
  end.
Definition dosfs_trim_spaces (label : list Z) : list Z := trim_from 10 label.

Definition bytes_at (buf : list Z) (off n : Z) : list Z := map (byte_at buf) (seqZ off n).
Definition eleven_blanks : list Z := repeat 32 11.

(** [memcpy(label, l, 11)]. *)
Definition label_set (l label : list Z) : list Z := list_inserts 0 (take 11 l) label.

(** [None]: the function gives false. *)
Definition dosfs_read_label (fat32 : bool) (buffer label : list Z) : option (list Z) :=
  let check := if fat32 then 0x42 else 0x29 in
  let offset := if fat32 then 0x47 else 0x2b in
  if (byte_at buffer check =? 0x29) && negb (bool_decide (bytes_at buffer offset 11 = eleven_blanks))
  then Some (dosfs_trim_spaces (label_set (bytes_at buffer offset 11) label))
  else None.

(** "no name" in an array of twelve bytes. *)
Definition no_name : list Z := [110; 111; 32; 110; 97; 109; 101; 0; 0; 0; 0; 0].
Definition NTFS : list Z := [78; 84; 70; 83; 32; 32; 32; 32].
Definition HPFS : list Z := [72; 80; 70; 83; 32; 32; 32; 32].
(** "__RO__" and five spaces. *)
Definition RO_LABEL : list Z := [95; 95; 82; 79; 95; 95; 32; 32; 32; 32; 32].

(** ** [volume_init] *)

(** The checks on the fields all widths share. *)
Definition boot_sector_ok (buf : list Z) : bool :=
  negb ((negb (byte_at buf 0x1fe =? 0x55) || negb (byte_at buf 0x1ff =? 0xaa))
        && (byte_at buf 0x15 =? 0xf8))
  && negb (bool_decide (bytes_at buf 3 8 = NTFS) || bool_decide (bytes_at buf 3 8 = HPFS))
  && bool_decide (read16 buf 0xb ∈ [0x200; 0x400; 0x800; 0x1000])
  && bool_decide (byte_at buf 0xd ∈ [1; 2; 4; 8; 0x10; 0x20; 0x40; 0x80])
  && negb ((byte_at buf 0x10 =? 0) || (8 <? byte_at buf 0x10))
  && negb (negb (byte_at buf 0x15 =? 0xf0) && (byte_at buf 0x15 <? 0xf8)).

(** The fields of a 32 bit volume, and the first cluster of its root. *)
Definition init_fat32 (buf : list Z) : option (bpb * Z) :=
  let spf := read32 buf 0x24 in
  let total_sectors := read32 buf 0x20 in
  let reserved := read16 buf 0xe in
  let fsinfo := read16 buf 0x30 in
  if negb (fsinfo =? 0xffff) && (reserved <=? fsinfo) then None
  else
    let mirrored := Z.land (byte_at buf 0x28) 0x80 =? 0 in
    let active := if mirrored then 0 else Z.land (byte_at buf 0x28) 0xf in
    let data_start := u32 (reserved + byte_at buf 0x10 * spf) in
    let total_clusters := u32 (total_sectors - data_start) / byte_at buf 0xd in
    let root := read32 buf 0x2c in
    if total_clusters <=? root then None
    else
      Some (Bpb (read16 buf 0xb) (byte_at buf 0xd) reserved (byte_at buf 0x10) 0 total_sectors spf
              (byte_at buf 0x15) fsinfo total_clusters 32 mirrored active 0 0 data_start,
            root).

Definition bogus_zip_data : list Z :=
  [0x00; 0x02; 0x04; 0x01; 0x00; 0x02; 0x00; 0x02; 0x00; 0x00;
   0xf8; 0xc0; 0x00; 0x20; 0x00; 0x40; 0x00; 0x20; 0x00; 0x00].

(** The partition size of 12 and 16 bit volumes, corrected for Zip disks. *)
Definition small_total_sectors (buf : list Z) (geo : option device_geometry) : Z :=
  let total := read16 buf 0x13 in
  let total := if total =? 0 then read32 buf 0x20 else total in
  match geo with
  | Some g =>
      if bool_decide (bytes_at buf 0x0b 20 = bogus_zip_data) && (total =? 196576)
         && (sectors_per_track g * cylinder_count g * head_count g =? 196192)
      then 196192 else total
  | None => total
  end.

Definition init_fat16 (buf : list Z) (geo : option device_geometry) : option bpb :=
  if negb (byte_at buf 0x10 =? 2) then None
  else
    let bps := read16 buf 0xb in
    let entries := read16 buf 0x11 in
    if negb (entries mod (bps / 0x20) =? 0) then None
    else
      let reserved := read16 buf 0xe in
      let spf := read16 buf 0x16 in
      let total_sectors := small_total_sectors buf geo in
      let root_start := u32 (reserved + byte_at buf 0x10 * spf) in
      let root_sectors := entries * 0x20 / bps in
      let data_start := u32 (root_start + root_sectors) in
      let total_clusters := u32 (total_sectors - data_start) / byte_at buf 0xd in
      Some (Bpb bps (byte_at buf 0xd) reserved (byte_at buf 0x10) entries total_sectors spf
              (byte_at buf 0x15) 0xffff total_clusters (if 0xff1 <? total_clusters then 16 else 12)
              true 0 root_start root_sectors data_start).

(** The node of the root, as far as the boot sector gives it. *)
Definition root_of (c e size : Z) : vnode :=
  Vnode 0 0 None None 0 0 0 0 c 0 size 0 e None false.

(** The first byte of each table, or of the active one, is the media
    descriptor. *)
Definition media_ok (dev : device) (b : bpb) (i : Z) : bool :=
  let '(n, media_buf) :=
    read_pos dev (u32 (bytes_per_sector b * u32 (reserved_sectors b + u32 (i * sectors_per_fat b)))) 0x200 in
  (n =? 0x200) && (byte_at media_buf 0 =? media_descriptor b).
Definition tables_ok (dev : device) (b : bpb) : bool :=
  media_ok dev b (active_fat b)
  && (negb (fat_mirrored b)
      || forallb (fun i => (i =? active_fat b) || media_ok dev b i) (seqZ 0 (fat_count b))).

(** The search for the volume label in the root directory. *)
Definition label_step (vol : nspace) (s : option ptr * diri)
    : loop (option ptr * diri) (option (ptr * Z)) :=
  match s with
  | (None, _) => Brk None
  | (Some buffer, d) =>
      if flag (ent_get vol buffer 0x0b) FAT_VOLUME && negb (ent_get vol buffer 0x0b =? 0xf)
         && negb (ent_get vol buffer 0 =? 0xe5)
      then Brk (Some (buffer, current_index d))
      else Cont (diri_next_entry vol d)
  end.

Definition find_label (vol : nspace) : nspace :=
  match z_loop (label_step vol) scan_bound (diri_init vol (cluster (root_vnode vol)) 0 no_diri) with
  | Brk (Some (buffer, index)) =>
      set_vol_entry (i32 index)
        (set_vol_label (dosfs_trim_spaces (label_set (ent_bytes vol buffer 0 11) (vol_label vol))) vol)
  | _ => vol
  end.

(** The trick with the label that makes a volume read-only. *)
Definition read_only_label (vol : nspace) : nspace :=
  if bool_decide (take 11 (vol_label vol) = RO_LABEL)
  then set_ns_flags (Z.lor (ns_flags vol) B_FS_IS_READONLY) vol else vol.

Definition no_vcache : vcache := Vcache 0 0 ∅ ∅.

(** [heap] is what the coming allocations give. *)
Definition volume_init (dev : device) (buf : list Z) (flags fs_flags : Z)
    (geo : option device_geometry) (heap : list bool) : option nspace :=
  let '(ok, heap) := match heap with [] => (true, []) | b :: r => (b, r) end in
  if negb ok then None
  else if negb (boot_sector_ok buf) then None
  else
    let fat32 := read16 buf 0x16 =? 0 in
    match (if fat32 then '(b, root) ← init_fat32 buf; Some (b, root_of root 0 0)
           else b ← init_fat16 buf geo;
                Some (b, root_of 1 1 (u32 (root_sectors b * bytes_per_sector b)))) with
    | None => None
    | Some (b, root) =>
        let '(entry, label) :=
          match dosfs_read_label fat32 buf no_name with
          | Some label => (-1, label)
          | None => (-2, no_name)
          end in
        if negb (tables_ok dev b) then None
        else
          match block_cache_create dev (total_sectors b) (bytes_per_sector b) with
          | None => None
          | Some blocks =>
              Some (read_only_label (find_label
                (Nspace b blocks 0 2 flags fs_flags root entry label INVALID_VNID_BITS_MASK false
                   no_vcache (Dlist 0 0 []) heap)))
          end
    end.

(** ** The FSInfo sector of a 32 bit volume *)

Definition fsinfo_valid (vol : nspace) (buffer : ptr) : bool :=
  (ent_read32 vol buffer 0 =? 0x41615252) && (ent_read32 vol buffer 0x1e4 =? 0x61417272)
  && (ent_read16 vol buffer 0x1fe =? 0xaa55).

Definition update_fsinfo (vol : nspace) : nspace :=
  if (fat_bits vol =? 32) && negb (fsinfo_sector vol =? 0xffff)
     && negb (flag (ns_flags vol) B_FS_IS_READONLY) then
    match block_cache_get_writable vol (fsinfo_sector vol) with
    | None => vol
    | Some p =>
        let buffer := Ptr p 0 in
        if fsinfo_valid vol buffer then
          ent_set32 buffer 0x1ec (last_allocated vol) (ent_set32 buffer 0x1e8 (free_clusters vol) vol)
        else vol
    end
  else vol.

(** The status, the free count and the cluster allocated last. *)
Definition get_fsinfo (vol : nspace) : Z * option (Z * Z) :=
  if negb (fat_bits vol =? 32) || (fsinfo_sector vol =? 0xffff) then (B_ERROR, None)
  else
    match block_cache_get vol (fsinfo_sector vol) with
    | None => (EIO, None)
    | Some p =>
        let buffer := Ptr p 0 in
        if fsinfo_valid vol buffer
        then (B_OK, Some (ent_read32 vol buffer 0x1e8, ent_read32 vol buffer 0x1ec))
        else (B_ERROR, None)
    end.

(** Writing the blocks back changes nothing the cache delivers. *)
Definition _dosfs_sync (vol : nspace) : Z * nspace := (B_OK, update_fsinfo vol).
Definition dosfs_sync (vol : nspace) : Z * nspace := _dosfs_sync vol.

(** The sync at the end of an operation. *)
Definition op_sync (vol : nspace) : nspace :=
  if flag (fs_flags vol) FS_FLAGS_OP_SYNC then snd (_dosfs_sync vol) else vol.

Definition volume_count_free_cluster (vol : nspace) : nspace :=
  if flag (ns_flags vol) B_FS_IS_READONLY then set_free_clusters 0 vol
  else
    let '(err, vol) :=
      match get_fsinfo vol with
      | (err, Some (free_count, last)) =>
          let '(err, vol) :=
            if free_count <? total_clusters vol then (err, set_free_clusters free_count vol)
            else (-1, vol) in
          (err, if last <? total_clusters vol then set_last_allocated last vol else vol)
      | (err, None) => (err, vol)
      end in
    if err <? 0 then
      let err := count_free_clusters vol in
      if err <? 0 then vol else set_free_clusters err vol
    else vol.

(** ** Mounting *)

(** The flags a mount gives the volume: those for the device, and whether
    operations are synchronous. *)
Definition sync_flags (vol_flags fs_flags op_sync_mode : Z) : Z :=
  let fs_flags := Z.ldiff fs_flags FS_FLAGS_OP_SYNC in
  if ((op_sync_mode =? 1) && flag vol_flags B_FS_IS_REMOVABLE) || (op_sync_mode =? 2)
  then Z.lor fs_flags FS_FLAGS_OP_SYNC else fs_flags.

(** The geometry of the device, or of a disk image. *)
Definition image_geometry (dev : device) : option device_geometry :=
  match dev_geometry dev, dev_regular dev with
  | Some g, _ => Some g
  | None, Some (size, writable) => Some (Geometry 0x200 1 (u32 (size / 0x200)) 1 true (negb writable))
  | None, None => None
  end.

(** The root node, once the tables can be read: the length of the chain of a
    32 bit volume, and the fields that are the same for all. *)
Definition fat32_root (vol : nspace) (root : vnode) : vnode :=
  let c := cluster root in
  let size := u32 (u32 (count_clusters vol (i32 c) * bytes_per_sector vol) * sectors_per_cluster vol) in
  set_end_cluster
    (u32 (get_nth_fat_entry vol (i32 c)
            (u32 (size / bytes_per_sector vol / sectors_per_cluster vol - 1))))
    (set_st_size size root).

Definition new_root `{Clock} (vol : nspace) : vnode :=
  let root := root_vnode vol in
  let root := if fat_bits vol =? 32 then fat32_root vol root else root in
  let id := GENERATE_DIR_CLUSTER_VNID (cluster root) (cluster root) in
  Vnode id id (cache root) (file_map root) (disk_image root) (iteration root) 0xffffffff 0xffffffff
    (cluster root) FAT_SUBDIR (st_size root) real_time (end_cluster root) None false.

Definition init_root `{Clock} (vol : nspace) : nspace :=
  snd (dlist_add (set_root_vnode (new_root vol) vol) (vnid (new_root vol))).

(** The error, or the volume; what is released on the error paths is not
    looked at again. *)
Definition mount_fat_disk `{Clock} (dev : device) (respect : bool) (flags fs_flags op_sync_mode : Z)
    (heap : list bool) : Z + nspace :=
  let fail err := inl (if B_OK <=? err then EINVAL else err) in
  let fd := dev_open dev false in
  if fd <? 0 then fail fd
  else
    match image_geometry dev with
    | None => fail fd
    | Some geo =>
        if negb (bool_decide (geo_bytes_per_sector geo ∈ [0x200; 0x400; 0x800; 0x1000])) then fail fd
        else
          let vol_flags := Z.lor B_FS_IS_PERSISTENT B_FS_HAS_MIME in
          let vol_flags := if removable geo then Z.lor vol_flags B_FS_IS_REMOVABLE else vol_flags in
          let read_only := geo_read_only geo || flag flags B_MOUNT_READ_ONLY in
          let vol_flags := if read_only then Z.lor vol_flags B_FS_IS_READONLY else vol_flags in
          let fd := if read_only then fd else dev_open dev true in
          if fd <? 0 then fail fd
          else
            let fs_flags := sync_flags vol_flags fs_flags op_sync_mode in
            let '(n, buf) := read_pos dev 0 512 in
            if negb (n =? 512) then fail n
            else
              match volume_init dev buf vol_flags fs_flags (Some geo) heap with
              | None => fail B_ERROR
              | Some vol =>
                  if u32 (u32 (sectors_per_track geo * cylinder_count geo) * head_count geo)
                     <? total_sectors vol
                  then fail B_PARTITION_TOO_SMALL
                  else
                    let vol := set_respect_disk_image respect vol in
                    let '(err, vol) := init_vcache vol in
                    if negb (err =? B_OK) then fail n
                    else
                      let '(err, vol) := dlist_init vol in
                      if negb (err =? B_OK) then fail n
                      else inr (read_only_label (init_root (volume_count_free_cluster vol)))
              end
    end.

(** [publish] is the result of [publish_vnode]; the settings have been parsed. *)
Definition dosfs_mount `{Clock} (dev : device) (respect : bool) (flags : Z) (op_sync_mode : Z)
    (lock_device : bool) (publish : Z) (heap : list bool) : Z + (nspace * Z) :=
  let op_sync_mode := if (op_sync_mode <? 0) || (2 <? op_sync_mode) then 0 else op_sync_mode in
  match mount_fat_disk dev respect flags (if lock_device then FS_FLAGS_LOCK_DOOR else 0)
          op_sync_mode heap with
  | inl err => inl err
  | inr vol => if negb (publish =? B_OK) then inl EINVAL else inr (vol, vnid (root_vnode vol))
  end.

(** The result is that of [close], and the volume as it leaves the cache. *)
Definition dosfs_unmount (vol : nspace) (close : Z) : Z * nspace :=
  let vol := update_fsinfo vol in
  (close, snd (uninit_vcache (snd (dlist_uninit vol)))).

(** ** Scanning *)

Record identify_cookie := IdentifyCookie {
  ic_bytes_per_sector : Z;
  ic_total_sectors : Z;
  ic_name : list Z
}.

(** [strlcpy(dst, src, 12)] into an array of twelve bytes. *)
Definition copy_name (src dst : list Z) : list Z :=
  let s := take 11 (c_string src) in list_inserts 0 (s ++ [0]) dst.

(** [None]: the function gives -1.  [name] is the array before it is filled.
    [sanitize_name] stores a NUL behind the twelve bytes when the last of them
    is no blank; the store is not part of the model. *)
Definition dosfs_identify_partition (dev : device) (name : list Z) (heap : list bool)
    : option identify_cookie :=
  let '(n, buf) := read_pos dev 0 512 in
  if negb (n =? 512) || negb (boot_sector_ok buf) then None
  else
    let fat32 := read16 buf 0x16 =? 0 in
    let total :=
      if fat32 || (read16 buf 0x13 =? 0) then read32 buf 0x20 else read16 buf 0x13 in
    let name := list_inserts 0 (take 8 no_name) name in
    let name := default name (dosfs_read_label fat32 buf name) in
    let name :=
      match volume_init dev buf 0 0 None heap with
      | Some vol => copy_name (vol_label vol) name
      | None => name
      end in
    Some (IdentifyCookie (read16 buf 0xb) total (take 11 (c_string (sanitize_name name 12)))).

(** [content_size] and [block_size] of the partition. *)
Definition dosfs_scan_partition (cookie : identify_cookie) : Z * Z :=
  (u32 (ic_total_sectors cookie * ic_bytes_per_sector cookie), ic_bytes_per_sector cookie).

(** ** The other hooks of a volume *)

Definition FS_WRITE_FSINFO_NAME : Z := 1.

Record fs_info := FsInfo {
  fi_flags : Z;
  fi_block_size : Z;
  fi_io_size : Z;
  fi_total_blocks : Z;
  fi_free_blocks : Z;
  fi_volume_name : list Z
}.

(** The name is given as the string in the buffer, which is larger than a
    label. *)
Definition dosfs_read_fs_stat (vol : nspace) : Z * fs_info :=
  let name := if -2 <? vol_entry vol then c_string (vol_label vol ++ [0]) else take 7 no_name in
  (B_OK,
   FsInfo (ns_flags vol) (u32 (bytes_per_sector vol * sectors_per_cluster vol)) 65536
     (total_clusters vol) (free_clusters vol)
     (c_string (sanitize_name (name ++ repeat 0 (256 - length name)) 12))).

(** The characters of a new label, at most [room] of them. *)
Fixpoint label_chars (room : nat) (name : cstring) : list Z :=
  match room, name with
  | S room', c :: name =>
      let c := if (97 <=? c) && (c <=? 122) then c - 32 else c in
      if bool_decide (c ∈ acceptable) || (c =? 32) then c :: label_chars room' name
      else label_chars room name
  | _, _ => []
  end.

(** [strncmp(a, b, n) == 0]. *)
Fixpoint strncmp_eq (n : nat) (a b : list Z) : bool :=
  match n with
  | O => true
  | S n =>
      (hd 0 a =? hd 0 b) && ((hd 0 a =? 0) || strncmp_eq n (tl a) (tl b))
  end.

(** A label in the boot sector. *)
Definition write_bpb_label (vol : nspace) (name : list Z) : Z * nspace :=
  match block_cache_get_writable vol 0 with
  | None => (EIO, vol)
  | Some p =>
      let buffer := Ptr p 0 in
      if ((sectors_per_fat vol =? 0)
          && (negb (ent_get vol buffer 0x42 =? 0x29)
              || negb (strncmp_eq 11 (ent_bytes vol buffer 0x47 11) (vol_label vol))))
         || (negb (sectors_per_fat vol =? 0)
             && (negb (ent_get vol buffer 0x26 =? 0x29)
                 || strncmp_eq 11 (ent_bytes vol buffer 0x2b 11) (vol_label vol)))
      then (B_ERROR, vol)
      else (B_OK, ent_copy buffer 0x2b name vol)
  end.

(** A label in the root directory; [false] for the early return. *)
Definition write_dir_label (vol : nspace) (name : list Z) : bool * Z * nspace :=
  match diri_init vol (cluster (root_vnode vol)) (vol_entry vol) no_diri with
  | (None, _) => (false, B_ERROR, vol)
  | (Some buffer, _) =>
      if strncmp_eq 11 (ent_bytes vol buffer 0 11) (vol_label vol) then (false, B_ERROR, vol)
      else (true, B_OK, ent_copy buffer 0 name vol)
  end.

Definition dosfs_write_fs_stat `{Encodings, Clock} (vol : nspace) (volume_name : cstring) (mask : Z)
    : option (Z * nspace) :=
  if flag (ns_flags vol) B_FS_IS_READONLY && negb (bool_decide (take 11 (vol_label vol) = RO_LABEL))
  then Some (EROFS, vol)
  else if flag mask FS_WRITE_FSINFO_NAME then
    let chars := label_chars 11 volume_name in
    let name := chars ++ repeat 32 (11 - length chars) in
    let store '(result, vol) :=
      (result,
       if result =? B_OK
       then set_vol_label (dosfs_trim_spaces (label_set name (vol_label vol))) vol else vol) in
    let finish '(result, vol) := Some (result, op_sync vol) in
    if bool_decide (chars = []) then Some (EINVAL, vol)
    else if vol_entry vol =? -1 then
      match write_bpb_label vol name with
      | (result, v) => if result =? EIO then Some (result, v) else finish (store (result, v))
      end
    else if 0 <=? vol_entry vol then
      match write_dir_label vol name with
      | (false, result, v) => Some (result, v)
      | (true, result, v) => finish (store (result, v))
      end
    else
      match create_volume_label vol name with
      | None => None
      | Some (result, v, index) =>
          finish (store (result, if result =? B_OK then set_vol_entry (i32 index) v else v))
      end
  else Some (B_ERROR, op_sync vol).

(** The status, and what is stored through [buf]. *)
Definition dosfs_ioctl (node : vnode) (code : Z) (buf : bool) : Z * option Z :=
  if (code =? 10002) || (code =? 10003)
  then (B_OK, if buf then Some (st_time node) else None)
  else (EINVAL, None).

(** [sync] is the result of [file_cache_sync]. *)
Definition dosfs_fsync (node : vnode) (sync : Z) : Z :=
  match cache node with Some _ => sync | None => B_OK end.
