(* ===== verification/MountSpec.v ===== *)
(** What a mount establishes: the layout of the volume, empty caches, and the
    root directory; and what the FSInfo sector carries from one mount to the
    next. *)
From stdpp Require Import base gmap list.
From Stdlib Require Import ZArith Lia.
From S2P Require Import Prelude Errors Volume Fat FatEntry FatIoctl FatTable FatChain Sample Vcache Dlist Util Iter Stream StreamSpec Dirent EntrySpec ResizeSpec Dir VnodeId Dosfs.

Implicit Types vol v : nspace.

(** ** Changes that touch neither the geometry nor a block *)

Definition same_disk vol v : Prop := ns_bpb v = ns_bpb vol /\ fBlockCache v = fBlockCache vol.

#[export] Instance same_disk_preorder : PreOrder same_disk.
Proof. split; [done|]. intros x y z [E1 E2] [E3 E4]. split; congruence. Qed.

Lemma layout_same_disk vol v : same_disk vol v -> layout_ok vol -> layout_ok v.
Proof.
  intros [E1 E2] [[Hg Hb Hp] H2 H3 H4 H5 H6]. split; rewrite ?E1; try done. split; rewrite ?E1; try done.
  - unfold blocks_ok. by rewrite E1, E2.
  - intros s Hs. rewrite E2. by apply Hp.
Qed.

Lemma malloc_disk vol : same_disk vol (snd (malloc_ok vol)) /\ ns_vcache (snd (malloc_ok vol)) = ns_vcache vol /\
  ns_dlist (snd (malloc_ok vol)) = ns_dlist vol /\ root_vnode (snd (malloc_ok vol)) = root_vnode vol.
Proof. unfold malloc_ok. by destruct (heap vol); repeat split. Qed.

Lemma find_label_disk vol : same_disk vol (find_label vol).
Proof. unfold find_label. by destruct (z_loop _ _ _) as [|[[]|]]. Qed.

Lemma read_only_label_disk vol : same_disk vol (read_only_label vol).
Proof. unfold read_only_label. by destruct (bool_decide _). Qed.

Lemma init_vcache_disk vol :
  same_disk vol (snd (init_vcache vol)) /\ root_vnode (snd (init_vcache vol)) = root_vnode vol.
Proof.
  unfold init_vcache. set (v0 := set_ns_vcache _ _). pose proof (malloc_disk v0) as (H0 & _ & _ & R0).
  destruct (malloc_ok v0) as [[] v1]; [|done].
  simpl. set (v2 := upd_vcache _ v1). pose proof (malloc_disk v2) as (H2 & _ & _ & R2).
  destruct (malloc_ok v2) as [[] v3]; (split; [etransitivity; [exact H0|]; etransitivity; [exact H2|done]|]);
    simpl in *; by rewrite R2.
Qed.

(** ** The boot sector *)

(** What the code computes with, and does not check. *)
Record sane (b : bpb) : Prop := {
  sn_data : reserved_sectors b + fat_count b * sectors_per_fat b + root_sectors b
            + sectors_per_cluster b <= total_sectors b < 2 ^ 31;
  sn_limit : total_clusters b + 1 <= max_cluster (fat_bits b);
  sn_room : (total_clusters b + 2) * fat_bits b <= 8 * (sectors_per_fat b * bytes_per_sector b);
  sn_active : active_fat b < fat_count b
}.

(** The boot sector, as the specification of the file system reads it. *)
Record describes (buf : list Z) (b : bpb) : Prop := {
  ds_bps : bytes_per_sector b = read16 buf 0xb;
  ds_spc : sectors_per_cluster b = byte_at buf 0xd;
  ds_reserved : reserved_sectors b = read16 buf 0xe;
  ds_fats : fat_count b = byte_at buf 0x10;
  ds_bits : fat_bits b = 32 <-> read16 buf 0x16 = 0;
  ds_spf : sectors_per_fat b = if read16 buf 0x16 =? 0 then read32 buf 0x24 else read16 buf 0x16;
  ds_root : root_sectors b * bytes_per_sector b = if fat_bits b =? 32 then 0 else 32 * read16 buf 0x11;
  ds_start : data_start b = reserved_sectors b + fat_count b * sectors_per_fat b + root_sectors b;
  ds_clusters : total_clusters b = (total_sectors b - data_start b) / sectors_per_cluster b;
  ds_width : fat_bits b <> 32 -> (fat_bits b = 16 <-> 0xff1 < total_clusters b)
}.

Lemma boot_sector_fields buf :
  block_ok 512 buf -> boot_sector_ok buf = true ->
  (exists m, 1 <= m <= 8 /\ read16 buf 0xb = 512 * m) /\
  1 <= byte_at buf 0xd <= 128 /\ 1 <= byte_at buf 0x10 <= 8.
Proof.
  unfold boot_sector_ok. rewrite !andb_true_iff. intros Hbuf (((((_ & _) & H1) & H2) & H3) & _).
  pose proof (byte_at_ok _ _ 0x10 Hbuf) as Hb. unfold is_byte in Hb.
  apply bool_decide_eq_true_1 in H1, H2. split_and!.
  - rewrite !elem_of_cons, elem_of_nil in H1. destruct H1 as [E|[E|[E|[E|[]]]]]; rewrite E;
      [exists 1|exists 2|exists 4|exists 8]; lia.
  - rewrite !elem_of_cons, elem_of_nil in H2. destruct_or!; lia.
  - rewrite !elem_of_cons, elem_of_nil in H2. destruct_or!; lia.
  - apply negb_true_iff, orb_false_iff in H3 as [?%Z.eqb_neq ?%Z.ltb_ge]. lia.
  - apply negb_true_iff, orb_false_iff in H3 as [?%Z.eqb_neq ?%Z.ltb_ge]. lia.
Qed.

Lemma init_fat32_describes buf b root :
  block_ok 512 buf -> boot_sector_ok buf = true -> read16 buf 0x16 = 0 ->
  init_fat32 buf = Some (b, root) -> sane b ->
  describes buf b /\ geometry_ok b /\ root_start b = 0 /\ root_sectors b = 0 /\ root < total_clusters b.
Proof.
  intros Hbuf Hb E0 E Hs. destruct (boot_sector_fields buf Hbuf Hb) as ((m & Hm' & Ebps) & Hspc & Hfc).
  pose proof (read16_range _ _ 0xe Hbuf). pose proof (read32_range _ _ 0x24 Hbuf).
  unfold init_fat32 in E. destruct (_ && _); [done|].
  destruct (Z.leb_spec (u32 (read32 buf 0x20 - u32 (read16 buf 0xe + byte_at buf 0x10 * read32 buf 0x24)) / byte_at buf 0xd) (read32 buf 0x2c)) as [|Hr];
    [done|]. injection E as <- <-. destruct Hs as [Hd Hl Hm Ha]. simpl in *.
  rewrite !(u32_small (_ + _)) in * by nia. rewrite (u32_small (_ - _)) in * by lia.
  split_and!; [split|split|done|done|done]; simpl; try done; try lia; rewrite ?E0, ?Ebps; try lia; try done.
  - rewrite Z.mul_comm. by apply Z.mod_mul.
  - apply Z.div_str_pos. lia.
  - split; [|done]. destruct (_ =? 0); [done|]. rewrite (land_ones_mod _ 4) by done. apply Z.mod_pos_bound. done.
  - assert (0 <= (read32 buf 32 - (read16 buf 14 + byte_at buf 16 * read32 buf 36)) / byte_at buf 13)
      by (apply Z.div_pos; lia). nia.
Qed.

Lemma u32_div_exact entries m : 1 <= m -> 0 <= entries -> entries mod (512 * m / 32) = 0 ->
  entries * 32 / (512 * m) * (512 * m) = 32 * entries.
Proof.
  intros Hm He E. replace (512 * m / 32) with (16 * m) in E by (replace (512 * m) with (16 * m * 32) by lia; by rewrite Z.div_mul).
  apply Z.div_exact in E; [|lia]. rewrite E.
  replace (16 * m * (entries / (16 * m)) * 32) with (entries / (16 * m) * (512 * m)) by lia.
  rewrite Z.div_mul by lia. lia.
Qed.

Lemma init_fat16_describes buf geo b :
  block_ok 512 buf -> boot_sector_ok buf = true -> read16 buf 0x16 <> 0 ->
  init_fat16 buf geo = Some b -> sane b ->
  describes buf b /\ geometry_ok b /\ fat_bits b <> 32 /\ 0 <= root_sectors b < 0xffff /\
  root_start b = reserved_sectors b + fat_count b * sectors_per_fat b.
Proof.
  intros Hbuf Hb E0 E Hs. destruct (boot_sector_fields buf Hbuf Hb) as ((m & Hm' & Ebps) & Hspc & Hfc).
  pose proof (read16_range _ _ 0xe Hbuf). pose proof (read16_range _ _ 0x16 Hbuf).
  pose proof (read16_range _ _ 0x11 Hbuf) as Hen.
  unfold init_fat16 in E. rewrite Ebps in E. destruct (Z.eqb_spec (byte_at buf 0x10) 2) as [E2|]; [|done].
  destruct (Z.eqb_spec (read16 buf 0x11 mod (512 * m / 0x20)) 0) as [Een|]; [|done]. simpl in E.
  pose proof (u32_div_exact (read16 buf 0x11) m ltac:(lia) ltac:(lia) Een) as Hex.
  set (rs := read16 buf 0x11 * 32 / (512 * m)) in *.
  assert (0 <= rs <= 4096) by nia.
  injection E as <-. destruct Hs as [Hd Hl Hr Ha]. simpl in *. rewrite !E2 in *.
  set (total := small_total_sectors buf geo) in *. clearbody total.
  rewrite !(u32_small (read16 buf 14 + _)) in * by lia. rewrite !(u32_small (_ + rs)) in * by lia.
  rewrite !(u32_small (_ - _)) in * by lia.
  set (tc := (total - (read16 buf 14 + 2 * read16 buf 22 + rs)) / byte_at buf 13) in *.
  assert (0 < tc) by (apply Z.div_str_pos; lia).
  assert (Hbits : (if 0xff1 <? tc then 16 else 12) = 16 /\ 0xff1 < tc \/ (if 0xff1 <? tc then 16 else 12) = 12 /\ tc <= 0xff1)
    by (destruct (Z.ltb_spec 0xff1 tc); [left|right]; done).
  assert (Hmod : (512 * m) mod 512 = 0) by (rewrite Z.mul_comm; by apply Z.mod_mul).
  split_and!; [split|split|..]; simpl; try done; try lia;
    rewrite ?(proj2 (Z.eqb_neq (read16 buf 22) 0) E0); try done;
    destruct Hbits as [[-> ?]|[-> ?]]; try done; lia.
Qed.

(** ** Mounting *)

(** What a mount relies on from the device and the block cache. *)
Record device_ok (dev : device) : Prop := {
  dv_read : forall off buf, read_pos dev off 512 = (512, buf) -> block_ok 512 buf;
  dv_blocks : forall n bps blocks, 0 <= bps -> block_cache_create dev n bps = Some blocks ->
    map_Forall (fun _ b => block_ok bps b) blocks /\ forall s, 0 <= s < n -> is_Some (blocks !! s)
}.

(** What [volume_init] gives, before the fields the label sets. *)
Lemma volume_init_spec dev buf flags fsf geo heap vol :
  device_ok dev -> block_ok 512 buf ->
  volume_init dev buf flags fsf geo heap = Some vol -> sane vol ->
  boot_sector_ok buf = true /\ describes buf vol /\ layout_ok vol /\
  exists root, root_vnode vol = (if fat_bits vol =? 32 then root_of root 0 0
                                 else root_of 1 1 (root_sectors vol * bytes_per_sector vol)) /\
    (fat_bits vol = 32 -> root = read32 buf 0x2c /\ root < total_clusters vol).
Proof.
  intros Hdev Hbuf E Hs. unfold volume_init in E.
  destruct (match heap with [] => _ | _ => _ end) as [ok heap']. destruct ok; [|done]. simpl in E.
  destruct (boot_sector_ok buf) eqn:Hb; [|done]. simpl in E.
  destruct (boot_sector_fields buf Hbuf Hb) as (_ & Hspc & Hfc).
  set (v0 := fun b blocks root label entry => Nspace b blocks 0 2 flags fsf root entry label
     INVALID_VNID_BITS_MASK false no_vcache (Dlist 0 0 []) heap') in *.
  assert (Hfin : forall b blocks root label entry,
    block_cache_create dev (total_sectors b) (bytes_per_sector b) = Some blocks ->
    read_only_label (find_label (v0 b blocks root label entry)) = vol ->
    ns_bpb vol = b /\ root_vnode vol = root /\
    (geometry_ok b -> total_sectors vol >= data_start vol ->
     data_start vol = reserved_sectors b + fat_count b * sectors_per_fat b + root_sectors b ->
     0 <= root_sectors b -> fat_ok vol)).
  { intros b blocks root label entry Hc <-. set (v := v0 b blocks root label entry).
    assert (Hsd : same_disk v (read_only_label (find_label v)))
      by (etransitivity; [apply find_label_disk|apply read_only_label_disk]).
    assert (Hr : root_vnode (read_only_label (find_label v)) = root)
      by (unfold read_only_label, find_label; destruct (z_loop _ _ _) as [|[[]|]]; by destruct (bool_decide _)).
    destruct Hsd as [E1 E2]. rewrite E1. split; [done|]. split; [done|]. intros Hg Hge Hds Hrs.
    pose proof (geo_bps _ Hg).
    destruct (dv_blocks dev Hdev _ (bytes_per_sector b) _ ltac:(lia) Hc) as [Hbo Hpr].
    split; rewrite ?E1; [done|unfold blocks_ok; by rewrite E1, E2|]. intros s Hin. rewrite E2. apply Hpr.
    unfold in_fats in Hin. pose proof (geo_reserved _ Hg). change (ns_bpb v) with b in *. lia. }
  destruct (Z.eqb_spec (read16 buf 0x16) 0) as [E0|E0]; simpl in E.
  - destruct (init_fat32 buf) as [[b root]|] eqn:Eb; [|done]. simpl in E.
    destruct (match dosfs_read_label _ _ _ with Some _ => _ | None => _ end) as [entry label].
    destruct (tables_ok dev b); [|done]. simpl in E.
    destruct (block_cache_create _ _ _) as [blocks|] eqn:Ec; [|done]. apply (inj Some) in E.
    destruct (Hfin b blocks _ label entry Ec E) as (E1 & Er & Hfat).
    rewrite E1 in Hs. destruct (init_fat32_describes buf b root Hbuf Hb E0 Eb Hs) as (Hd & Hg & Hrs & Hrz & Hrt).
    pose proof Hd as [D1 D2 D3 D4 D5 D6 D7 D8 D9 D10]. pose proof (sn_data _ Hs).
    rewrite E1 in Hfat. rewrite !E1. split_and!; [done|done| |].
    + split; rewrite ?E1; try lia; [apply Hfat; done || lia|].
      enough (total_clusters b * sectors_per_cluster b <= total_sectors b - data_start b) by lia.
      rewrite D9, Z.mul_comm. apply Z.mul_div_le. lia.
    + exists root. rewrite Er. rewrite (proj2 D5 E0). change (32 =? 32) with true. cbv iota. split; [done|].
      intros _. split; [|done]. unfold init_fat32 in Eb. destruct (_ && _); [done|].
      destruct (_ <=? _) in Eb; [done|]. by injection Eb as _ <-.
  - destruct (init_fat16 buf geo) as [b|] eqn:Eb; [|done]. simpl in E.
    destruct (match dosfs_read_label _ _ _ with Some _ => _ | None => _ end) as [entry label].
    destruct (tables_ok dev b); [|done]. simpl in E.
    destruct (block_cache_create _ _ _) as [blocks|] eqn:Ec; [|done]. apply (inj Some) in E.
    destruct (Hfin b blocks _ label entry Ec E) as (E1 & Er & Hfat).
    rewrite E1 in Hs. destruct (init_fat16_describes buf geo b Hbuf Hb E0 Eb Hs) as (Hd & Hg & H32 & Hrs & Hrst).
    pose proof Hd as [D1 D2 D3 D4 D5 D6 D7 D8 D9 D10]. pose proof (sn_data _ Hs). pose proof (geo_bps _ Hg).
    rewrite E1 in Hfat. rewrite !E1. split_and!; [done|done| |].
    + split; rewrite ?E1; try lia; [apply Hfat; done || lia|].
      enough (total_clusters b * sectors_per_cluster b <= total_sectors b - data_start b) by lia.
      rewrite D9, Z.mul_comm. apply Z.mul_div_le. lia.
    + exists 0. rewrite (proj2 (Z.eqb_neq _ _) H32). split; [|done]. rewrite Er, u32_small; [done|nia].
Qed.

(** What a mounted volume is. *)
Record mounted (buf : list Z) (vol : nspace) : Prop := {
  mt_boot : describes buf vol;
  mt_layout : layout_ok vol;
  mt_vcache : vc_maps vol ∅;
  mt_dirs : used (ns_dlist vol) = [vnid (root_vnode vol)];
  mt_root : cluster (root_vnode vol) = (if fat_bits vol =? 32 then read32 buf 0x2c else 1);
  mt_vnid : vnid (root_vnode vol)
            = GENERATE_DIR_CLUSTER_VNID (cluster (root_vnode vol)) (cluster (root_vnode vol));
  mt_parent : dir_vnid (root_vnode vol) = vnid (root_vnode vol);
  mt_mode : mode (root_vnode vol) = FAT_SUBDIR;
  mt_find : dlist_find vol (cluster (root_vnode vol)) = vnid (root_vnode vol);
  mt_fixed : fat_bits vol <> 32 -> st_size (root_vnode vol) = 32 * read16 buf 0x11;
  mt_chain : forall l, fat_bits vol = 32 -> l <> [] ->
    terminated vol (cluster (root_vnode vol)) l END_FAT_ENTRY ->
    Z.of_nat (length l) <> total_clusters vol ->
    Z.of_nat (length l) * bytes_per_sector vol * sectors_per_cluster vol < 2 ^ 32 ->
    st_size (root_vnode vol) = Z.of_nat (length l) * bytes_per_sector vol * sectors_per_cluster vol /\
    last l = Some (end_cluster (root_vnode vol))
}.

Lemma count_free_disk vol :
  same_disk vol (volume_count_free_cluster vol) /\
  ns_vcache (volume_count_free_cluster vol) = ns_vcache vol /\
  ns_dlist (volume_count_free_cluster vol) = ns_dlist vol /\
  root_vnode (volume_count_free_cluster vol) = root_vnode vol.
Proof.
  unfold volume_count_free_cluster. destruct (flag _ _); [by repeat split|].
  destruct (get_fsinfo vol) as [err [[f l]|]].
  - destruct (f <? _), (l <? _); simpl; destruct (_ <? 0); try (by repeat split); destruct (_ <? 0); by repeat split.
  - destruct (_ <? 0); [destruct (_ <? 0)|]; by repeat split.
Qed.

Lemma read_only_label_rest vol :
  ns_vcache (read_only_label vol) = ns_vcache vol /\ ns_dlist (read_only_label vol) = ns_dlist vol /\
  root_vnode (read_only_label vol) = root_vnode vol.
Proof. unfold read_only_label. by destruct (bool_decide _). Qed.

Lemma dlist_first vol id v :
  dlist_init vol = (B_OK, v) ->
  same_disk vol v /\ ns_vcache v = ns_vcache vol /\ root_vnode v = root_vnode vol /\
  forall w, ns_dlist w = ns_dlist v ->
    used (ns_dlist (snd (dlist_add w id))) = [id] /\ same_disk w (snd (dlist_add w id)) /\
    ns_vcache (snd (dlist_add w id)) = ns_vcache w /\ root_vnode (snd (dlist_add w id)) = root_vnode w.
Proof.
  unfold dlist_init. pose proof (malloc_disk vol) as ([E1 E2] & E3 & E4 & E5).
  destruct (malloc_ok vol) as [[] u]; simpl in *; [|done]. intros [= <-]. simpl.
  split_and!; [done|done|done|]. intros w Ew. unfold dlist_add. rewrite Ew. simpl. rewrite Ew. by repeat split.
Qed.

(** The root node of a 32 bit volume. *)
Lemma root_chain vol l :
  layout_ok vol -> l <> [] -> terminated vol (cluster (root_vnode vol)) l END_FAT_ENTRY ->
  Z.of_nat (length l) <> total_clusters vol ->
  Z.of_nat (length l) * bytes_per_sector vol * sectors_per_cluster vol < 2 ^ 32 ->
  let root := fat32_root vol (root_vnode vol) in
  st_size root = Z.of_nat (length l) * bytes_per_sector vol * sectors_per_cluster vol /\
  last l = Some (end_cluster root).
Proof.
  intros Hlo Hl Ht Hn Hs root. unfold root, fat32_root. cbn [st_size end_cluster set_end_cluster set_st_size].
  set (c := cluster (root_vnode vol)) in *. set (size := u32 (u32 _ * _)).
  pose proof (lo_fat _ Hlo) as Hok. pose proof (ok_geo _ Hok) as Hg.
  pose proof (lo_spc _ Hlo) as Hspc. pose proof (geo_bps _ Hg) as Hbps.
  assert (Hc : data_cluster vol c) by (destruct Ht as [Ht _]; by destruct Ht).
  pose proof (data_cluster_bound vol Hg c Hc). pose proof (max_cluster_small vol Hg).
  assert (Ec : i32 c = c) by (apply i32_small; lia).
  assert (H1 : 1 <= Z.of_nat (length l)) by (destruct l; [done|simpl; lia]).
  assert (Esize : size = Z.of_nat (length l) * bytes_per_sector vol * sectors_per_cluster vol).
  { unfold size. rewrite Ec, (count_clusters_chain vol c l END_FAT_ENTRY Hok Ht Hl).
    rewrite Z.eqb_refl, (proj2 (Z.eqb_neq _ _) Hn). cbn [andb negb]. rewrite (u32_small (_ * bytes_per_sector _)) by nia. apply u32_small. nia. }
  split; [done|]. rewrite Esize, Ec.
  replace (_ * bytes_per_sector vol * sectors_per_cluster vol) with (Z.of_nat (length l) * sectors_per_cluster vol * bytes_per_sector vol) by lia.
  rewrite Z.div_mul, Z.div_mul by lia. rewrite (u32_small (_ - 1)) by nia.
  rewrite (get_nth_chain vol c l END_FAT_ENTRY) by (done || lia).
  rewrite last_lookup. replace (Nat.pred (length l)) with (Z.to_nat (Z.of_nat (length l) - 1)) by lia.
  destruct (lookup_lt_is_Some_2 l (Z.to_nat (Z.of_nat (length l) - 1))) as [x Hx]; [lia|]. rewrite Hx. simpl.
  rewrite u32_small; [done|].
  pose proof (data_cluster_bound vol Hg x (chain_lookup_data vol _ _ _ _ _ Ht Hx)). lia.
Qed.

Lemma find_root vol id :
  vc_maps vol ∅ -> used (ns_dlist vol) = [id] ->
  dlist_find vol (CLUSTER_OF_DIR_CLUSTER_VNID id) = id.
Proof.
  intros Hv Hu. unfold dlist_find. unfold used in Hu. rewrite Hu. simpl. unfold dlist_loc, vcache_vnid_to_loc.
  rewrite (find_vnid_spec vol ∅ Hv). simpl. by rewrite Z.eqb_refl.
Qed.

Lemma terminated_disk vol v c l e : same_disk vol v -> terminated v c l e -> terminated vol c l e.
Proof.
  intros [E1 E2]. apply terminated_same. split; [by symmetry|]. intros x _.
  unfold entry, fat_byte, fat_start, peek, block_data. by rewrite E1, E2.
Qed.

Lemma st_size_fixed `{Clock} vol : fat_bits vol <> 32 -> st_size (new_root vol) = st_size (root_vnode vol).
Proof. intros H32. unfold new_root. by rewrite (proj2 (Z.eqb_neq _ _) H32). Qed.

(** The part of a mount behind [volume_init]. *)
Lemma mount_rest `{Clock} v2 v3 v4 r id :
  init_vcache v2 = (B_OK, v3) -> dlist_init v3 = (B_OK, v4) ->
  let v5 := volume_count_free_cluster v4 in
  let vol := read_only_label (snd (dlist_add (set_root_vnode r v5) id)) in
  same_disk v2 v5 /\ root_vnode v5 = root_vnode v2 /\
  same_disk v5 vol /\ vc_maps vol ∅ /\ root_vnode vol = r /\ used (ns_dlist vol) = [id].
Proof.
  intros E3 E4 v5 vol. destruct (init_vcache_disk v2) as [D3 R3]. pose proof (init_vcache_maps v2 v3 E3) as M3.
  rewrite E3 in D3, R3. simpl in D3, R3.
  destruct (dlist_first v3 id v4 E4) as (D4 & V4 & R4 & Hadd).
  destruct (count_free_disk v4) as (D5 & V5 & L5 & R5). fold v5 in D5, V5, L5, R5.
  destruct (Hadd (set_root_vnode r v5) L5) as (U6 & D6 & V6 & R6).
  pose proof (read_only_label_disk (snd (dlist_add (set_root_vnode r v5) id))) as D7.
  destruct (read_only_label_rest (snd (dlist_add (set_root_vnode r v5) id))) as (V7 & L7 & R7).
  fold vol in D7, V7, L7, R7. split_and!.
  - etransitivity; [exact D3|]. by etransitivity.
  - by rewrite R5, R4.
  - etransitivity; [|exact D7]. by etransitivity; [|exact D6].
  - apply (vc_maps_same v3); [|done]. rewrite V7, V6. simpl. by rewrite V5.
  - by rewrite R7, R6.
  - by rewrite L7.
Qed.

(** C29: mounting.  When a mount succeeds on a volume whose boot sector makes
    sense, the volume has the layout the specification of the file system
    gives for that boot sector, its sectors are where the layout has them, the
    node caches are empty, and the root directory is the one directory known:
    with the id of its cluster, the size of the fixed area or of its chain,
    and the last cluster of that chain. *)
Theorem mount_establishes `{Clock} (dev : device) buf respect flags fsf sync heap (vol : nspace) :
  device_ok dev -> read_pos dev 0 512 = (512, buf) ->
  mount_fat_disk dev respect flags fsf sync heap = inr vol -> sane vol ->
  mounted buf vol.
Proof.
  intros Hdev Hread E Hs. unfold mount_fat_disk in E.
  destruct (dev_open dev false <? 0); [done|]. destruct (image_geometry dev) as [geo|]; [|done].
  destruct (negb _); [done|]. destruct ((if geo_read_only geo || _ then _ else _) <? 0); [done|].
  rewrite Hread in E. simpl in E.
  destruct (volume_init _ _ _ _ _ _) as [v1|] eqn:E1; [|done].
  destruct (u32 _ <? _); [done|].
  set (v2 := set_respect_disk_image respect v1) in *.
  destruct (init_vcache v2) as [err v3] eqn:E3. destruct (Z.eqb_spec err B_OK) as [->|]; [|done]. simpl in E.
  destruct (dlist_init v3) as [err v4] eqn:E4. destruct (Z.eqb_spec err B_OK) as [->|]; [|done]. simpl in E.
  apply (inj inr) in E. unfold init_root in E. set (v5 := volume_count_free_cluster v4) in *.
  destruct (mount_rest v2 v3 v4 (new_root v5) (vnid (new_root v5)) E3 E4) as (D2 & R2 & D5 & Mv & Rv & Uv).
  fold v5 in D2, R2, D5, Mv, Rv, Uv. rewrite E in D5, Mv, Rv, Uv. clear E. change (root_vnode v2) with (root_vnode v1) in R2.
  assert (D : same_disk v1 vol) by (etransitivity; [|exact D5]; by transitivity v2).
  pose proof D as [Eb _]. rewrite Eb in Hs. pose proof (dv_read dev Hdev _ _ Hread) as Hbuf.
  destruct (volume_init_spec dev buf _ _ _ _ v1 Hdev Hbuf E1 Hs) as (Hok & Hds & Hlo & root & Er & Hr).
  pose proof D as [Eb1 _]. pose proof D5 as [Eb5 _].
  assert (Lv : layout_ok vol) by by apply (layout_same_disk v1).
  assert (Ecl : cluster (new_root v5) = cluster (root_vnode v5))
    by (unfold new_root; simpl; by destruct (fat_bits v5 =? 32)).
  assert (Eid : vnid (new_root v5) = GENERATE_DIR_CLUSTER_VNID (cluster (new_root v5)) (cluster (new_root v5)))
    by done.
  assert (Ec : cluster (new_root v5) = if fat_bits vol =? 32 then root else 1)
    by (rewrite Ecl, R2, Er, Eb1; by destruct (fat_bits v1 =? 32)).
  assert (Hcr : 0 <= cluster (new_root v5) < 2 ^ 28).
  { rewrite Ec, Eb1. pose proof (ok_geo _ (lo_fat _ Hlo)) as Hg. pose proof (geo_limit _ Hg).
    pose proof (max_cluster_small _ Hg). pose proof (read32_range _ _ 0x2c Hbuf).
    destruct (Z.eqb_spec (fat_bits v1) 32) as [E32|]; [destruct (Hr E32) as [-> ?]; lia|lia]. }
  assert (Hfind : dlist_find vol (cluster (new_root v5)) = vnid (new_root v5)).
  { rewrite <-(find_root vol _ Mv Uv). f_equal. rewrite Eid. symmetry.
    apply cluster_of_dir_vnid; rewrite ?Z.mod_small; lia. }
  rewrite Eb1 in Ec. split; rewrite ?Rv; try done; rewrite ?Eb1, ?Ec; try done.
  - destruct (Z.eqb_spec (fat_bits v1) 32) as [E32|]; [|done]. by destruct (Hr E32) as [-> _].
  - intros H32. rewrite (st_size_fixed v5) by (by rewrite <-Eb5, Eb1). rewrite R2, Er, (proj2 (Z.eqb_neq _ _) H32). simpl.
    rewrite (ds_root _ _ Hds), (proj2 (Z.eqb_neq _ _) H32). done.
  - intros l H32 Hl Ht Hn Hsz. rewrite <-Ec, Ecl in Ht. apply (terminated_disk v5) in Ht; [|done].
    destruct (root_chain v5 l) as [H1 H2]; rewrite <-?Eb5, ?Eb1; try done; [by apply (layout_same_disk v1); [exact D2|]|].
    unfold new_root. rewrite <-Eb5, Eb1, H32. simpl. by rewrite <-Eb5, Eb1 in H1.
Qed.

(** ** Labels *)

Lemma trim_from_last i label x : (i < 10)%nat -> nth 10 (trim_from i label) x = nth 10 label x.
Proof.
  revert label. induction i as [|i IH]; intros label Hi; [done|]. simpl. destruct (_ =? 32); [|done].
  rewrite IH by lia. rewrite !nth_lookup, list_lookup_insert_ne by lia. done.
Qed.

(** A trimmed label never ends in a blank, so it is not the marker of a
    read-only volume. *)
Lemma trimmed_label_not_ro label : take 11 (dosfs_trim_spaces label) <> RO_LABEL.
Proof.
  intros E. assert (nth 10 (dosfs_trim_spaces label) 0 = 32) as E'.
  { transitivity (nth 10 (take 11 (dosfs_trim_spaces label)) 0); [|by rewrite E].
    by rewrite !nth_lookup, lookup_take_lt by lia. }
  assert (dosfs_trim_spaces label = if nth 10 label 0 =? 32 then trim_from 9 (<[10%nat := 0]> label) else label)
    as Ed by reflexivity.
  rewrite Ed in E'. clear Ed E. destruct (Z.eqb_spec (nth 10 label 0) 32) as [H|H]; [|done].
  rewrite trim_from_last, nth_lookup in E' by lia.
  destruct (decide (10 < length label)%nat).
  - rewrite list_lookup_insert_eq in E' by done. done.
  - rewrite lookup_ge_None_2 in E' by (rewrite length_insert; lia). done.
Qed.

Lemma find_label_not_ro vol : take 11 (vol_label vol) <> RO_LABEL -> take 11 (vol_label (find_label vol)) <> RO_LABEL.
Proof.
  intros H. unfold find_label. destruct (z_loop _ _ _) as [|[[buffer index]|]]; [done| |done].
  apply trimmed_label_not_ro.
Qed.

(** The label of a mounted volume never makes it read-only. *)
Lemma volume_init_label dev buf flags fsf geo heap vol :
  volume_init dev buf flags fsf geo heap = Some vol ->
  take 11 (vol_label vol) <> RO_LABEL /\ ns_flags vol = flags.
Proof.
  unfold volume_init. destruct (match heap with [] => _ | _ => _ end) as [ok h]. destruct ok; [|done].
  destruct (boot_sector_ok buf); [|done]. simpl.
  destruct (if read16 buf 22 =? 0 then _ else _) as [[b root]|]; [|done].
  destruct (match dosfs_read_label _ _ _ with Some _ => _ | None => _ end) as [entry label] eqn:El.
  assert (take 11 label <> RO_LABEL) as Hl.
  { revert El. unfold dosfs_read_label. destruct (_ && _); intros [= <- <-]; [apply trimmed_label_not_ro|done]. }
  destruct (tables_ok dev b); [|done]. destruct (block_cache_create _ _ _); [|done]. simpl.
  set (v := Nspace _ _ _ _ _ _ _ _ _ _ _ _ _ _).
  assert (take 11 (vol_label (find_label v)) <> RO_LABEL) as Hf by (by apply find_label_not_ro).
  assert (ns_flags (find_label v) = flags) as Hfl.
  { unfold find_label. by destruct (z_loop _ _ _) as [|[[? ?]|]]. }
  unfold read_only_label. rewrite bool_decide_eq_false_2 by done. by intros [= <-].
Qed.

(** ** A small disk *)

Definition poke_list (l : list (Z * Z)) (b : list Z) : list Z := foldl (fun b '(i, x) => byte_set i x b) b l.

(** The boot sector of a 12 bit volume of 40 sectors, of the kind the samples
    have. *)
Definition a_boot_sector : list Z :=
  poke_list [(0xb, 0); (0xc, 2); (0xd, 1); (0xe, 1); (0xf, 0); (0x10, 2); (0x11, 80); (0x12, 0); (0x13, 40);
    (0x15, 0xf8); (0x16, 2); (0x1fe, 0x55); (0x1ff, 0xaa)] (repeat 0 512).
Definition a_table_sector : list Z := poke_list [(0, 0xf8); (1, 0xff); (2, 0xff)] (repeat 0 512).

Definition a_disk : device :=
  Device (fun _ => 3) (Some (Geometry 0x200 1 40 1 false false)) None
    (fun off n => if off =? 0 then (n, a_boot_sector) else (n, a_table_sector))
    (fun n bps => Some (list_to_map (map (fun s => (s, repeat 0 (Z.to_nat bps))) (seqZ 0 n)))).

Lemma sector_checked b :
  (length b =? 512)%nat && forallb (fun x => (0 <=? x) && (x <? 256)) b = true -> block_ok 512 b.
Proof.
  intros [H1%Nat.eqb_eq H2]%andb_true_iff. split; [lia|]. rewrite forallb_forall in H2.
  apply Forall_forall. intros x Hx%list_elem_of_In%H2. unfold is_byte. lia.
Qed.

Lemma a_disk_ok : device_ok a_disk.
Proof.
  split.
  - intros off buf. simpl. destruct (off =? 0); intros [= <-]; apply sector_checked; vm_compute; reflexivity.
  - intros n bps blocks Hb [= <-]. split.
    + intros s b Hs%elem_of_list_to_map_2. apply list_elem_of_fmap in Hs as (x & [= -> ->] & _).
      split; [rewrite repeat_length; lia|]. apply Forall_forall. intros y ->%list_elem_of_In%repeat_spec. unfold is_byte. lia.
    + intros s Hs. eexists. apply elem_of_list_to_map_1.
      * rewrite <-list_fmap_compose. simpl. rewrite list_fmap_id. apply NoDup_seqZ.
      * apply list_elem_of_fmap. exists s. split; [done|]. by apply elem_of_seqZ.
Qed.

Definition saneb (r : Z + nspace) : bool :=
  match r with
  | inl _ => false
  | inr vol =>
      let b := ns_bpb vol in
      (reserved_sectors b + fat_count b * sectors_per_fat b + root_sectors b
       + sectors_per_cluster b <=? total_sectors b) && (total_sectors b <? 2 ^ 31)
      && (total_clusters b + 1 <=? max_cluster (fat_bits b))
      && ((total_clusters b + 2) * fat_bits b <=? 8 * (sectors_per_fat b * bytes_per_sector b))
      && (active_fat b <? fat_count b)
  end.

Lemma saneb_true r : saneb r = true -> exists vol, r = inr vol /\ sane vol.
Proof.
  destruct r as [|vol]; [done|]. intros H. exists vol. split; [done|]. unfold saneb in H.
  rewrite !andb_true_iff, !Z.leb_le, !Z.ltb_lt in H. destruct H as ((((H1 & H2) & H3) & H4) & H5). by split.
Qed.

Lemma mount_establishes_witness :
  exists vol, mount_fat_disk a_disk true 0 0 0 [] = inr vol /\ mounted a_boot_sector vol /\
    total_clusters vol = 30.
Proof.
  destruct (saneb_true (mount_fat_disk a_disk true 0 0 0 [])) as (vol & E & Hs); [vm_compute; reflexivity|].
  exists vol. split; [exact E|].
  assert (Ht : match mount_fat_disk a_disk true 0 0 0 [] with inr v => total_clusters v = 30 | inl _ => False end)
    by (vm_compute; reflexivity).
  rewrite E in Ht. split; [|exact Ht].
  apply (mount_establishes a_disk a_boot_sector true 0 0 0 [] vol a_disk_ok eq_refl E Hs).
Defined.

(** ** The FSInfo sector

    What unmounting or syncing stores in it is what the next mount starts with. *)


Lemma stored_byte (v s i : Z) : s = 8 * i -> 0 <= i -> u8 (Z.land (Z.shiftr v s) 0xff) = le_byte v i.
Proof.
  intros -> Hi. unfold u8, le_byte. rewrite (land_ones_mod _ 8), Z.shiftr_div_pow2 by lia.
  change (2 ^ 8) with 256. by rewrite Z.mod_mod.
Qed.

(** A stored 32 bit integer, byte by byte. *)
Lemma peek_set32 p k x vol q off :
  readable vol p -> 0 <= k -> k + 4 <= bytes_per_sector vol -> 0 <= off ->
  peek (ent_set32 (Ptr p 0) k x vol) q off
  = if (p =? q) && (k <=? off) && (off <? k + 4) then le_byte x (off - k) else peek vol q off.
Proof.
  intros Hp Hk Hb Ho. unfold ent_set32, ent_set16, ent_set. cbn [p_block p_off].
  pose proof (le_byte_ok x) as Hbyte.
  replace (u8 (Z.land x 0xff)) with (le_byte x 0) by (rewrite <-(stored_byte x 0 0) by done; by rewrite Z.shiftr_0_r).
  rewrite (stored_byte x 8 1), (stored_byte x 16 2), (stored_byte x 24 3) by done.
  rewrite !peek_poke; auto 10 with haiku; try (simpl; lia).
  destruct (Z.eqb_spec p q) as [->|]; simpl; [|done].
  repeat match goal with |- context [?a =? off] => destruct (Z.eqb_spec a off) end;
    destruct (Z.leb_spec k off), (Z.ltb_spec off (k + 4)); simpl; try lia; try done; f_equal; lia.
Qed.

Lemma readable_set32 p k x vol q : readable vol q -> readable (ent_set32 (Ptr p 0) k x vol) q.
Proof.
  intros Hq. unfold ent_set32, ent_set16, ent_set. pose proof u8_range as Hu.
  repeat (apply readable_poke; [apply Hu|]). done.
Qed.

(** What [update_fsinfo] stores: byte [off] of the FSInfo sector. *)
Definition fsinfo_byte (vol : nspace) (off old : Z) : Z :=
  if (0x1e8 <=? off) && (off <? 0x1ec) then le_byte (free_clusters vol) (off - 0x1e8)
  else if (0x1ec <=? off) && (off <? 0x1f0) then le_byte (last_allocated vol) (off - 0x1ec)
  else old.

Section Fsinfo.
Context (vol : nspace) (Hbps : 512 <= bytes_per_sector vol) (Hs : readable vol (fsinfo_sector vol)).
Context (H32 : fat_bits vol = 32) (Hsome : fsinfo_sector vol <> 0xffff).
Context (Hw : flag (ns_flags vol) B_FS_IS_READONLY = false).
Context (Hvalid : fsinfo_valid vol (Ptr (fsinfo_sector vol) 0) = true).

Lemma update_fsinfo_bytes q off :
  0 <= off ->
  peek (update_fsinfo vol) q off
  = if q =? fsinfo_sector vol then fsinfo_byte vol off (peek vol q off) else peek vol q off.
Proof using All.
  intros Ho. unfold update_fsinfo. rewrite H32, (proj2 (Z.eqb_neq _ _) Hsome), Hw.
  cbn [negb andb Z.eqb Pos.eqb]. unfold block_cache_get_writable. rewrite get_readable, Hvalid by done.
  rewrite !peek_set32; try done; try (by apply readable_set32); try lia;
    try (change (0x1ec + 4 <= bytes_per_sector vol); lia).
  unfold fsinfo_byte. rewrite (Z.eqb_sym _ q).
  destruct (Z.eqb_spec q (fsinfo_sector vol)) as [->|]; simpl; [|done].
  change (492 + 4) with 496. change (488 + 4) with 492.
  destruct (Z.leb_spec 488 off), (Z.ltb_spec off 492), (Z.leb_spec 492 off), (Z.ltb_spec off 496);
    simpl; lia || done.
Qed.

Lemma update_fsinfo_read32 k :
  0 <= k -> ent_read32 (update_fsinfo vol) (Ptr (fsinfo_sector vol) 0) k =
  let byte off := fsinfo_byte vol off (peek vol (fsinfo_sector vol) off) in
  byte k + 0x100 * byte (k + 1) + 0x10000 * byte (k + 2) + 0x1000000 * byte (k + 3).
Proof using All.
  intros Hk. unfold ent_read32, ent_get. cbn [p_block p_off]. rewrite !Z.add_0_l.
  rewrite !update_fsinfo_bytes by lia. by rewrite !Z.eqb_refl.
Qed.

Lemma update_fsinfo_valid : fsinfo_valid (update_fsinfo vol) (Ptr (fsinfo_sector vol) 0) = true.
Proof using All.
  rewrite <-Hvalid. unfold fsinfo_valid. rewrite !update_fsinfo_read32 by lia.
  unfold ent_read16, ent_get. cbn [p_block p_off]. rewrite !update_fsinfo_bytes by lia.
  by rewrite !Z.eqb_refl.
Qed.

Lemma update_fsinfo_frame : ns_bpb (update_fsinfo vol) = ns_bpb vol /\
  readable (update_fsinfo vol) (fsinfo_sector vol).
Proof using All.
  unfold update_fsinfo. rewrite H32, (proj2 (Z.eqb_neq _ _) Hsome), Hw. cbn [negb andb Z.eqb Pos.eqb].
  unfold block_cache_get_writable. rewrite get_readable, Hvalid by done. split; [done|].
  by apply readable_set32, readable_set32.
Qed.
End Fsinfo.

(** The FSInfo sector.  Syncing or unmounting a 32 bit volume that can be
    written stores its free count and its allocation hint in the FSInfo sector,
    and changes no other byte of the volume; a later mount of those blocks
    starts with the same count and hint. *)
Theorem fsinfo_round_trip vol :
  512 <= bytes_per_sector vol -> readable vol (fsinfo_sector vol) -> fat_bits vol = 32 ->
  fsinfo_sector vol <> 0xffff -> flag (ns_flags vol) B_FS_IS_READONLY = false ->
  fsinfo_valid vol (Ptr (fsinfo_sector vol) 0) = true ->
  0 <= free_clusters vol < total_clusters vol -> 0 <= last_allocated vol < total_clusters vol ->
  total_clusters vol < 2 ^ 32 ->
  let v := update_fsinfo vol in
  (forall q off, 0 <= off -> (q = fsinfo_sector vol -> off < 0x1e8 \/ 0x1f0 <= off) ->
     peek v q off = peek vol q off) /\
  (forall w, ns_bpb w = ns_bpb vol -> fBlockCache w = fBlockCache v ->
     flag (ns_flags w) B_FS_IS_READONLY = false ->
     volume_count_free_cluster w
     = set_last_allocated (last_allocated vol) (set_free_clusters (free_clusters vol) w)).
Proof.
  intros Hb Hs H32 Hsome Hw Hvalid Hf Hl Ht v. split.
  - intros q off Ho Hq. unfold v. rewrite update_fsinfo_bytes by done.
    destruct (Z.eqb_spec q (fsinfo_sector vol)) as [E|]; [|done]. specialize (Hq E). unfold fsinfo_byte.
    destruct (Z.leb_spec 0x1e8 off), (Z.ltb_spec off 0x1ec), (Z.leb_spec 0x1ec off), (Z.ltb_spec off 0x1f0);
      simpl; lia || done.
  - intros w Eb Ec Hww. destruct (update_fsinfo_frame vol Hb Hs H32 Hsome Hw Hvalid) as [Eb' Hr].
    assert (Hval : fsinfo_valid w (Ptr (fsinfo_sector w) 0) = true).
    { rewrite <-(update_fsinfo_valid vol Hb Hs H32 Hsome Hw Hvalid). rewrite Eb.
      unfold fsinfo_valid, ent_read32, ent_read16, ent_get, peek, block_data. by rewrite Ec. }
    assert (Hrd : forall k, ent_read32 w (Ptr (fsinfo_sector w) 0) k = ent_read32 v (Ptr (fsinfo_sector vol) 0) k)
      by (intros k; unfold ent_read32, ent_get, peek, block_data; by rewrite Ec, Eb).
    assert (Hg : block_cache_get w (fsinfo_sector vol) = Some (fsinfo_sector vol)).
    { destruct Hr as (b & Hb' & _). unfold block_cache_get. fold v in Hb'. by rewrite Ec, Hb'. }
    assert (Hinfo : get_fsinfo w = (B_OK, Some (free_clusters vol, last_allocated vol))).
    { unfold get_fsinfo. rewrite Eb, H32, (proj2 (Z.eqb_neq _ _) Hsome). cbn [negb orb Z.eqb Pos.eqb].
      rewrite Hg. rewrite Eb in Hval, Hrd. rewrite Hval, !Hrd. unfold v. rewrite !(update_fsinfo_read32 vol) by done.
      do 3 f_equal.
      - transitivity (free_clusters vol mod 2 ^ 32); [exact (le_sum4 _)|]. apply Z.mod_small. lia.
      - transitivity (last_allocated vol mod 2 ^ 32); [exact (le_sum4 _)|]. apply Z.mod_small. lia. }
    unfold volume_count_free_cluster. rewrite Hww, Hinfo.
    rewrite (proj2 (Z.ltb_lt (free_clusters vol) (total_clusters w))) by (rewrite Eb; lia).
    change (total_clusters (set_free_clusters (free_clusters vol) w)) with (total_clusters w).
    by rewrite (proj2 (Z.ltb_lt (last_allocated vol) (total_clusters w))) by (rewrite Eb; lia).
Qed.

(** ** A 32 bit volume with an FSInfo sector *)

Definition fsinfo_block : block :=
  foldl (fun b '(i, x) => byte_set i x b) (zeros 512)
    [(0, 0x52); (1, 0x52); (2, 0x61); (3, 0x41); (0x1e4, 0x72); (0x1e5, 0x72); (0x1e6, 0x41); (0x1e7, 0x61);
     (0x1fe, 0x55); (0x1ff, 0xaa)].

Definition with_fsinfo : nspace :=
  Nspace (Bpb 512 1 2 1 0 110 1 0xf8 1 100 32 true 0 0 0 3)
    (list_to_map [(1, fsinfo_block)]) 77 20 0 0
    (Vnode 1 1 None None 0 0 0 (-1) 2 FAT_SUBDIR 512 0 2 None false) (-2) [] 0 false
    (Vcache (Z.shiftl 0x6 60) 512 ∅ ∅) (Dlist 0 0 []) [].

Lemma fsinfo_round_trip_witness :
  let w := set_free_clusters 0 (set_last_allocated 2 (update_fsinfo with_fsinfo)) in
  free_clusters (volume_count_free_cluster w) = 77 /\ last_allocated (volume_count_free_cluster w) = 20.
Proof.
  assert (Hr : readable with_fsinfo 1).
  { exists fsinfo_block. split; [vm_compute; reflexivity|]. split; [vm_compute; reflexivity|].
    apply Forall_forall. intros x Hx. apply list_elem_of_In in Hx.
    assert (H : forallb (fun x => (0 <=? x) && (x <? 256)) fsinfo_block = true) by (vm_compute; reflexivity).
    rewrite forallb_forall in H. apply H in Hx. unfold is_byte. lia. }
  destruct (fsinfo_round_trip with_fsinfo ltac:(vm_compute; discriminate) Hr eq_refl ltac:(vm_compute; discriminate)
    eq_refl ltac:(vm_compute; reflexivity) ltac:(split; [vm_compute; discriminate|vm_compute; reflexivity])
    ltac:(split; [vm_compute; discriminate|vm_compute; reflexivity]) ltac:(vm_compute; reflexivity)) as [_ H].
  cbv zeta. rewrite H; [split; reflexivity|vm_compute; reflexivity|reflexivity|vm_compute; reflexivity].
Defined.
