(* ===== verification/File.v ===== *)
(** Files (file.c): the hooks that read, write and resize them. *)
From stdpp Require Import base gmap list.
From Stdlib Require Import ZArith Lia.
From S2P Require Import Prelude Errors Volume Fat Vcache Dlist Util Attr Iter Dirent Resize Dir Dosfs FileMap.

Implicit Types vol : nspace.

Definition MAX_FILE_SIZE : Z := 0xffffffff.
Definition O_RWMASK : Z := 3.
Definition O_RDONLY : Z := 0.
Definition O_EXCL : Z := 0x100.
Definition O_CREAT : Z := 0x200.
Definition O_TRUNC : Z := 0x400.
Definition O_APPEND : Z := 0x800.
Definition B_STAT_MODE : Z := 1.
Definition B_STAT_SIZE : Z := 8.
Definition B_STAT_MODIFICATION_TIME : Z := 0x20.

Record filecookie := Cookie {
  fc_mode : Z;
  cc_iteration : Z;
  cc_index : Z;
  cc_cluster : Z
}.

Definition open_cookie (omode : Z) (node : vnode) : filecookie :=
  Cookie omode (iteration node) 0 (cluster node).

Record stat := Stat {
  stat_ino : Z;
  stat_mode : Z;
  stat_nlink : Z;
  stat_size : Z;
  stat_blocks : Z;
  stat_blksize : Z;
  stat_mtime : Z
}.

Definition dosfs_rstat (vol : nspace) (node : vnode) : Z * stat :=
  (B_OK, Stat (vnid node) (make_mode vol node) 1 (st_size node) (Z.quot (st_size node + 511) 512) 0x10000
           (st_time node)).

(** The caches of a file learn its size; a NULL one is left alone. *)
Definition file_cache_set_size (size : Z) (node : vnode) : vnode :=
  set_cache (match cache node with Some _ => Some size | None => None end) node.
Definition file_map_set_size (size : Z) (node : vnode) : vnode :=
  set_file_map (match file_map node with Some _ => Some size | None => None end) node.

Definition next_iteration (node : vnode) : vnode := set_iteration (u32 (iteration node + 1)) node.

(** The clusters a size takes: signed division of the size. *)
Definition size_clusters (vol : nspace) (size : Z) : Z :=
  u32 (Z.quot (Z.quot (size + u32 (bytes_per_sector vol * sectors_per_cluster vol) - 1)
                 (bytes_per_sector vol)) (sectors_per_cluster vol)).

(** The size part of [dosfs_wstat]; the last component says whether the node
    has changed. *)
Definition wstat_size `{Clock} (vol : nspace) (node : vnode) (size : Z) : Z * nspace * vnode * bool :=
  if flag (mode node) FAT_SUBDIR then (EISDIR, vol, node, false)
  else if MAX_FILE_SIZE <? size then (E2BIG, vol, node, false)
  else
    let '(err, vol, node) := set_fat_chain_length vol node (size_clusters vol size) in
    if err =? B_OK then
      let node := next_iteration (set_st_size size node) in
      (err, vol, file_map_set_size size (file_cache_set_size size node), true)
    else (err, vol, node, false).

Definition dosfs_wstat `{Clock} (vol : nspace) (node : vnode) (st : stat) (mask : Z)
    : Z * nspace * vnode :=
  if flag (ns_flags vol) B_FS_IS_READONLY then (EROFS, vol, node)
  else if disk_image node =? 2 then (EPERM, vol, node)
  else
    let '(node, dirty) :=
      if flag mask B_STAT_MODE then
        (set_mode (if flag (stat_mode st) S_IWUSR then Z.ldiff (mode node) FAT_READ_ONLY
                   else Z.lor (mode node) FAT_READ_ONLY) node, true)
      else (node, false) in
    let '(err, vol, node, dirty) :=
      if flag mask B_STAT_SIZE then
        let '(err, vol, node, resized) := wstat_size vol node (stat_size st) in
        (err, vol, node, dirty || resized)
      else (B_OK, vol, node, dirty) in
    let '(node, dirty) :=
      if flag mask B_STAT_MODIFICATION_TIME then (set_st_time (stat_mtime st) node, true)
      else (node, dirty) in
    if dirty then
      let vol := snd (write_vnode_entry vol node) in
      if flag (fs_flags vol) FS_FLAGS_OP_SYNC
      then (err, snd (_dosfs_sync vol), set_dirty false node) else (err, vol, node)
    else (err, vol, node).

Definition dosfs_open `{Clock} (vol : nspace) (node : vnode) (omode : Z)
    : Z * nspace * vnode * option filecookie :=
  if flag omode O_CREAT then (EINVAL, vol, node, None)
  else
    let omode :=
      if flag (ns_flags vol) B_FS_IS_READONLY || flag (mode node) FAT_READ_ONLY
         || negb (disk_image node =? 0) || flag (mode node) FAT_SUBDIR
      then Z.lor (Z.ldiff omode O_RWMASK) O_RDONLY else omode in
    if flag omode O_TRUNC && (Z.land omode O_RWMASK =? O_RDONLY) then (EPERM, vol, node, None)
    else
      let '(result, vol, node) :=
        if flag omode O_TRUNC then
          let '(result, vol, node) := set_fat_chain_length vol node 0 in
          if negb (result =? B_OK) then (result, vol, node)
          else (result, vol, next_iteration (set_st_size 0 (set_mode 0 node)))
        else (B_OK, vol, node) in
      if negb (result =? B_OK) then (result, vol, node, None)
      else
        let '(ok, vol) := malloc_ok vol in
        if negb ok then (ENOMEM, vol, node, None) else (B_OK, vol, node, Some (open_cookie omode node)).

(** The file cache, which reads and writes the pages of a file on its own: the
    status, and the data or the number of bytes. *)
Class FileCache := {
  file_cache_read : vnode -> Z -> Z -> Z * list Z;
  file_cache_write : vnode -> Z -> list Z -> Z * Z
}.

(** The status, the length and the data. *)
Definition dosfs_read `{FileCache} (node : vnode) (pos len : Z) : Z * Z * list Z :=
  if flag (mode node) FAT_SUBDIR then (EISDIR, 0, [])
  else
    let pos := if pos <? 0 then 0 else pos in
    if (st_size node =? 0) || (len =? 0) || (st_size node <=? pos) then (B_OK, 0, [])
    else
      let len := if st_size node <=? pos + len then u32 (st_size node - pos) else len in
      let '(result, data) := file_cache_read node pos len in
      (result, Z.of_nat (length data), data).

(** The node grows to [size] bytes. *)
Definition extend_file `{Clock} (vol : nspace) (node : vnode) (size : Z) : Z * nspace * vnode :=
  let clusters := size_clusters vol size in
  let '(result, vol, node) :=
    if st_size node <=? u32 (u32 ((clusters - 1) * sectors_per_cluster vol) * bytes_per_sector vol) then
      let '(result, vol, node) := set_fat_chain_length vol node clusters in
      if negb (result =? B_OK) then (result, vol, node) else (result, vol, next_iteration node)
    else (B_OK, vol, node) in
  if negb (result =? B_OK) then (result, vol, node)
  else
    let node := set_st_size size node in
    let vol := snd (write_vnode_entry vol node) in
    (B_OK, vol, file_map_set_size size (file_cache_set_size size (set_dirty true node))).

(** The status, the volume, the node and [*len]. *)
Definition dosfs_write `{Clock, FileCache} (vol : nspace) (node : vnode) (cookie : filecookie)
    (pos : Z) (buf : list Z) : Z * nspace * vnode * Z :=
  let len := Z.of_nat (length buf) in
  if flag (mode node) FAT_SUBDIR then (EISDIR, vol, node, 0)
  else if Z.land (fc_mode cookie) O_RWMASK =? O_RDONLY then (EPERM, vol, node, 0)
  else
    let pos := if pos <? 0 then 0 else pos in
    let pos := if flag (fc_mode cookie) O_APPEND then st_size node else pos in
    if MAX_FILE_SIZE <=? pos then (E2BIG, vol, node, 0)
    else
      let len := if MAX_FILE_SIZE <=? pos + len then MAX_FILE_SIZE - pos else len in
      let '(result, vol, node) :=
        if st_size node <? pos + len then extend_file vol node (pos + len) else (B_OK, vol, node) in
      if negb (result =? B_OK) then (result, vol, node, len)
      else
        let '(result, n) := file_cache_write node pos (take (Z.to_nat len) buf) in
        (result, vol, node, n).

Definition dosfs_close (vol : nspace) (node : vnode) : Z * nspace * vnode :=
  if flag (fs_flags vol) FS_FLAGS_OP_SYNC && dirty node
  then (0, snd (_dosfs_sync vol), set_dirty false node) else (0, vol, node).

Definition dosfs_free_cookie : Z := 0.

Definition dosfs_release_vnode (vol : nspace) (node : vnode) : Z * nspace :=
  (0, if flag (fs_flags vol) FS_FLAGS_OP_SYNC && dirty node then snd (_dosfs_sync vol) else vol).

(** Freeing a node that has been unlinked. *)
Definition dosfs_remove_vnode (vol : nspace) (node : vnode) (reenter : bool) : Z * nspace :=
  if flag (ns_flags vol) B_FS_IS_READONLY then (EROFS, vol)
  else
    let vol := if negb (cluster node =? 0) then snd (clear_fat_chain vol (cluster node)) else vol in
    let vol :=
      if find_vnid_in_vcache vol (vnid node) =? B_OK then snd (remove_from_vcache vol (vnid node)) else vol in
    let vol := if flag (mode node) FAT_SUBDIR then snd (dlist_remove vol (vnid node)) else vol in
    (B_OK, if negb reenter && flag (fs_flags vol) FS_FLAGS_OP_SYNC then snd (_dosfs_sync vol) else vol).

Definition dosfs_can_page : bool := false.
