(* ===== verification/Hooks.v ===== *)
(** Files and directories (file.c): the hooks that create, move and remove
    them. *)
From stdpp Require Import base gmap list.
From Stdlib Require Import ZArith Lia.
From S2P Require Import Prelude Errors Volume Fat Vcache Dlist Util Attr Iter Dirent Resize Dir Dosfs FileMap File.

Implicit Types vol : nspace.

(** ** The nodes in memory

    The kernel keeps the nodes that are in use, and hands out the same node to
    everyone who asks for an id; the root node is the one in the volume.  What
    it keeps count of, and when it frees a node, is not part of the model: a
    node stays until [dosfs_remove_vnode] is called for it. *)
Record world := World {
  w_vol : nspace;
  w_nodes : gmap Z vnode;
  w_removed : list Z  (* the nodes to be removed when they are no longer in use *)
}.

Definition with_vol (vol : nspace) (w : world) : world := World vol (w_nodes w) (w_removed w).

Definition node_at (w : world) (id : Z) : option vnode :=
  if id =? vnid (root_vnode (w_vol w)) then Some (root_vnode (w_vol w)) else w_nodes w !! id.

Definition put_node (n : vnode) (w : world) : world :=
  if vnid n =? vnid (root_vnode (w_vol w)) then with_vol (set_root_vnode n (w_vol w)) w
  else World (w_vol w) (<[vnid n := n]> (w_nodes w)) (w_removed w).

(** The node with an id, in memory or read from the volume.  The outer [None]
    is that of [dosfs_read_vnode]. *)
Definition get_vnode `{Encodings, Clock} (w : world) (id : Z) : option (Z * world * option vnode) :=
  match node_at w id with
  | Some n => Some (B_OK, w, Some n)
  | None =>
      match dosfs_read_vnode (w_vol w) id with
      | None => None
      | Some (result, vol, None) => Some (result, with_vol vol w, None)
      | Some (result, vol, Some (n, _)) => Some (result, put_node n (with_vol vol w), Some n)
      end
  end.

Definition remove_vnode (id : Z) (w : world) : world := World (w_vol w) (w_nodes w) (id :: w_removed w).

(** The node a search has found.  The searches do not look at the result of
    [get_vnode]: [None] when there is no node, and the code goes on with a
    pointer nothing has been stored in. *)
Definition found_node `{Encodings, Clock} (w : world) (id : Z) : option (world * vnode) :=
  match get_vnode w id with Some (_, w, Some n) => Some (w, n) | _ => None end.

Definition sync (w : world) : world := with_vol (op_sync (w_vol w)) w.

(** ** Creating a file *)

(** The node that only serves to make the directory entry. *)
Definition dummy_node (dir_id c mode size time : Z) : vnode :=
  Vnode 0 dir_id None None 0 0 0 0 c mode size time c None false.

(** The id of a new node: its location, unless that is the id of another. *)
Definition new_vnid (vol : nspace) (loc : Z) : Z * nspace * Z :=
  if find_vnid_in_vcache vol loc =? B_OK then
    let '(v, vol) := generate_unique_vnid vol in
    let '(result, vol) := add_to_vcache vol v loc in
    (result, vol, v)
  else (B_OK, vol, loc).

(** The entry of a new file, and its node. *)
Definition create_new `{Encodings, Clock, Timer} (w : world) (dir : vnode) (name : cstring)
    : option (Z * world * option vnode) :=
  match create_dir_entry (w_vol w) dir (dummy_node (vnid dir) 0 0 0 real_time) name with
  | None => None
  | Some (result, vol, dir, si, _) =>
      let w := put_node dir (with_vol vol w) in
      if negb (result =? B_OK) then Some (result, w, None)
      else
        let '(result, vol, id) := new_vnid (w_vol w) (GENERATE_DIR_INDEX_VNID (vnid dir) si) in
        let w := with_vol vol w in
        if result <? 0 then Some (result, sync w, None)
        else
          match get_vnode w id with
          | None => None
          | Some (result, w, o) =>
              if result <? B_OK then Some (result, sync w, None)
              else match o with Some n => Some (B_OK, w, Some n) | None => None end
          end
  end.

(** A file that is there already; [None] as status when it can be opened. *)
Definition create_over `{Clock} (w : world) (file : vnode) (omode : Z) : option Z * world * vnode :=
  if flag omode O_EXCL then (Some EEXIST, w, file)
  else if flag (mode file) FAT_SUBDIR then (Some EPERM, w, file)
  else if negb (disk_image file =? 0) then (Some EPERM, w, file)
  else if flag omode O_TRUNC then
    let '(_, vol, file) := set_fat_chain_length (w_vol w) file 0 in
    let file := next_iteration (set_st_size 0 file) in
    (None, put_node file (with_vol vol w), file)
  else (None, w, file).

(** The status; on success the cookie and the id of the file. *)
Definition dosfs_create `{Encodings, Clock, Timer} (w : world) (dir : vnode) (name : cstring) (omode : Z)
    : option (Z * world * option (filecookie * Z)) :=
  let finish w file := Some (B_OK, sync w, Some (open_cookie omode file, vnid file)) in
  if flag (ns_flags (w_vol w)) B_FS_IS_READONLY then Some (EROFS, w, None)
  else if Z.land omode O_RWMASK =? O_RDONLY then Some (EPERM, w, None)
  else
    let '(ok, vol) := malloc_ok (w_vol w) in
    let w := with_vol vol w in
    if negb ok then Some (ENOMEM, w, None)
    else
      match findfile_case_duplicates (w_vol w) dir name with
      | None => None
      | Some (result, vol, found, dups_exist) =>
          let w := with_vol vol w in
          if result =? B_OK then
            match found_node w (default 0 found) with
            | None => None
            | Some (w, file) =>
                match create_over w file omode with
                | (Some result, w, _) => Some (result, w, None)
                | (None, w, file) => finish w file
                end
            end
          else if (result =? ENOENT) && dups_exist then Some (EEXIST, w, None)
          else if result =? ENOENT then
            match create_new w dir name with
            | None => None
            | Some (_, w, Some file) => finish w file
            | Some (result, w, None) => Some (result, w, None)
            end
          else Some (result, w, None)
      end.

(** ** Creating a directory *)

Definition store_bytes (l : list (Z * Z)) (b : list Z) : list Z := foldl (fun b '(i, x) => byte_set i (u8 x) b) b l.

(** The bytes of a time, from offset [i] on, and those of a cluster. *)
Definition time_fields_at (i t : Z) : list (Z * Z) :=
  [(i, Z.land t 0xff); (i + 1, Z.land (Z.shiftr t 8) 0xff); (i + 2, Z.land (Z.shiftr t 16) 0xff);
   (i + 3, Z.land (Z.shiftr t 24) 0xff)].
Definition cluster_fields_at (bits i c : Z) : list (Z * Z) :=
  [(i + 0x1a, Z.land c 0xff); (i + 0x1b, Z.land (Z.shiftr c 8) 0xff)]
  ++ if bits =? 32
     then [(i + 0x14, Z.land (Z.shiftr c 16) 0xff); (i + 0x15, Z.land (Z.shiftr c 24) 0xff)] else [].

(** The first sector of a new directory: the entries of the directory itself
    and of its parent, the root being cluster 0. *)
Definition new_directory `{Clock} (vol : nspace) (dir dummy : vnode) : list Z :=
  let buffer := repeat 0 (Z.to_nat (bytes_per_sector vol)) in
  let buffer := list_inserts 0x20 (repeat 32 11) (list_inserts 0 (repeat 32 11) buffer) in
  let buffer := store_bytes [(0x21, 46); (0x20, 46); (0, 46); (0x2b, 0x30); (0x0b, 0x30)] buffer in
  let buffer := store_bytes (time_fields_at 0x16 (time_t2dos tzoffset (st_time dummy))) buffer in
  let buffer := store_bytes (time_fields_at 0x36 (time_t2dos tzoffset (st_time dir))) buffer in
  let buffer := store_bytes (cluster_fields_at (fat_bits vol) 0 (cluster dummy)) buffer in
  if negb (vnid dir =? vnid (root_vnode vol))
  then store_bytes (cluster_fields_at (fat_bits vol) 0x20 (cluster dir)) buffer else buffer.

(** Clearing the rest of its cluster. *)
Definition clear_sector_step (buffer : list Z) (s : option (nspace * csi))
    : loop (option (nspace * csi)) (option (nspace * csi)) :=
  match s with
  | None => Brk None
  | Some (vol, c) =>
      let '(result, c) := iter_csi vol c 1 in
      if negb (result =? B_OK) then Brk (Some (vol, c))
      else
        match csi_write_block vol c buffer with
        | None => Brk None
        | Some (_, vol) => Cont (Some (vol, c))
        end
  end.

(** The sectors of the new directory; [None]: a store through NULL. *)
Definition write_directory `{Clock} (vol : nspace) (dir dummy : vnode) : option nspace :=
  let '(_, c) := init_csi vol (cluster dummy) 0 no_csi in
  match csi_write_block vol c (new_directory vol dir dummy) with
  | None => None
  | Some (_, vol) =>
      fst <$> loop_end (z_loop (clear_sector_step (repeat 0 (Z.to_nat (bytes_per_sector vol))))
                 (sectors_per_cluster vol - 1) (Some (vol, c)))
  end.

(** Undoing the steps of [dosfs_mkdir]: the labels [bi2], [bi3] and [bi4]. *)
Definition mkdir_bi2 (vol : nspace) (dummy : vnode) : nspace :=
  op_sync (snd (clear_fat_chain vol (cluster dummy))).
Definition mkdir_bi3 (vol : nspace) (dummy : vnode) : nspace :=
  mkdir_bi2 (if IS_ARTIFICIAL_VNID (vnid dummy) then snd (remove_from_vcache vol (vnid dummy)) else vol) dummy.
Definition mkdir_bi4 (vol : nspace) (dummy : vnode) : nspace :=
  mkdir_bi3 (snd (dlist_remove vol (vnid dummy))) dummy.

(** [perms & (S_IWUSR | S_IWGRP | S_IWGRP)]: the last one is not S_IWOTH. *)
Definition mkdir_mode (perms : Z) : Z :=
  if flag perms (Z.lor S_IWUSR S_IWGRP) then FAT_SUBDIR else Z.lor FAT_SUBDIR FAT_READ_ONLY.

(** The node that stands for the new directory, and its id. *)
Definition mkdir_node `{Clock} (vol : nspace) (dir : vnode) (c perms : Z) : vnode :=
  dummy_node (vnid dir) (u32 c) (mkdir_mode perms) (u32 (bytes_per_sector vol * sectors_per_cluster vol)) real_time.

(** From the place on where the new directory has its cluster. *)
Definition mkdir_with `{Encodings, Clock, Timer} (vol : nspace) (dir : vnode) (name : cstring) (dummy : vnode)
    : option (Z * nspace * vnode) :=
  let '(result, vol, id) := new_vnid vol (GENERATE_DIR_CLUSTER_VNID (vnid dir) (cluster dummy)) in
  let dummy := set_vnid id dummy in
  if result <? 0 then Some (result, mkdir_bi2 vol dummy, dir)
  else
    let '(result, vol) := dlist_add vol id in
    if result <? 0 then Some (result, mkdir_bi3 vol dummy, dir)
    else
      let '(ok, vol) := malloc_ok vol in
      if negb ok then Some (ENOMEM, mkdir_bi4 vol dummy, dir)
      else
        match create_dir_entry vol dir dummy name with
        | None => None
        | Some (result, vol, dir, _, _) =>
            if negb (result =? B_OK) then Some (result, mkdir_bi4 vol dummy, dir)
            else
              match write_directory vol dir dummy with
              | None => None
              | Some vol => Some (B_OK, op_sync vol, dir)
              end
        end.

Definition dosfs_mkdir `{Encodings, Clock, Timer} (w : world) (dir : vnode) (name : cstring) (perms : Z)
    : option (Z * world) :=
  let vol := w_vol w in
  if negb (flag (mode dir) FAT_SUBDIR) then Some (EINVAL, w)
  else if flag (ns_flags vol) B_FS_IS_READONLY then Some (EROFS, w)
  else
    let '(result, c, vol) := allocate_n_fat_entries vol 1 in
    if result <? 0 then Some (result, with_vol vol w)
    else
      match mkdir_with vol dir name (mkdir_node vol dir c perms) with
      | None => None
      | Some (result, vol, dir) => Some (result, put_node dir (with_vol vol w))
      end.

(** ** Removing a file or a directory *)

(** What keeps a node from being removed. *)
Definition unlink_error `{Encodings} (vol : nspace) (file : vnode) (is_file : bool) : option Z :=
  if negb (disk_image file =? 0) then Some EPERM
  else if is_file then Some (if flag (mode file) FAT_SUBDIR then EISDIR else B_OK)
  else if negb (flag (mode file) FAT_SUBDIR) then Some ENOTDIR
  else if vnid file =? vnid (root_vnode vol) then Some EPERM
  else check_dir_empty vol file.

Definition do_unlink `{Encodings, Clock} (w : world) (dir : vnode) (name : cstring) (is_file : bool)
    : option (Z * world) :=
  if bool_decide (name = dot) || bool_decide (name = dotdot) then Some (EPERM, w)
  else if flag (ns_flags (w_vol w)) B_FS_IS_READONLY then Some (EROFS, w)
  else
    match findfile_case (w_vol w) dir name with
    | None => None
    | Some (result, vol, found, _) =>
        let w := with_vol vol w in
        if negb (result =? B_OK) then Some (ENOENT, w)
        else
          match found_node w (default 0 found) with
          | None => None
          | Some (w, file) =>
              match unlink_error (w_vol w) file is_file with
              | None => None
              | Some result =>
                  if result <? 0 then Some (result, w)
                  else
                    match erase_dir_entry (w_vol w) file with
                    | None => None
                    | Some (result, vol) =>
                        if negb (result =? B_OK) then Some (result, with_vol vol w)
                        else
                          match compact_directory vol dir with
                          | None => None
                          | Some (_, vol, dir) =>
                              let w := put_node dir (with_vol vol w) in
                              let '(loc, vol) := generate_unique_vnid (w_vol w) in
                              let '(_, vol) := vcache_set_entry vol (vnid file) loc in
                              Some (0, sync (remove_vnode (vnid file) (with_vol vol w)))
                          end
                    end
              end
          end
    end.

Definition dosfs_unlink `{Encodings, Clock} (w : world) (dir : vnode) (name : cstring) :=
  do_unlink w dir name true.
Definition dosfs_rmdir `{Encodings, Clock} (w : world) (dir : vnode) (name : cstring) :=
  do_unlink w dir name false.

(** ** Moving *)

(** One step up from [vnid] in the walk that keeps a directory from being moved
    into one of its children; [Brk None]: the root has been reached. *)
Definition ancestor_step `{Encodings, Clock} (file_id : Z) (s : world * Z)
    : loop (world * Z) (option (world * option Z)) :=
  let '(w, id) := s in
  if id =? file_id then Brk (Some (w, Some EINVAL))
  else if id =? vnid (root_vnode (w_vol w)) then Brk (Some (w, None))
  else
    match get_vnode w id with
    | None => Brk None
    | Some (result, w, o) =>
        if result <? B_OK then Brk (Some (w, Some result))
        else match o with Some n => Cont (w, dir_vnid n) | None => Brk None end
    end.

(** The error that ends the rename, if there is one. *)
Definition check_ancestors `{Encodings, Clock} (w : world) (file : vnode) (ndir : Z)
    : option (world * option Z) :=
  if flag (mode file) FAT_SUBDIR then
    match z_loop (ancestor_step (vnid file)) scan_bound (w, ndir) with
    | Brk r => r
    | Cont (w, _) => Some (w, Some LOOP_EXHAUSTED)
    end
  else Some (w, None).

(** Where the moved file is entered: the place of the entry it replaces, or a
    new entry, and which of the two; or the error.  The last component says
    whether the volume may have changed. *)
Definition rename_entry `{Encodings, Clock, Timer} (w : world) (odir : vnode) (oldname : cstring)
    (ndir_id : Z) (newname : cstring) (file : vnode) : option (Z * world * (Z * Z * bool) * bool) :=
  match node_at w ndir_id with
  | None => None
  | Some ndir =>
      match findfile_case_duplicates (w_vol w) ndir newname with
      | None => None
      | Some (result, vol, found, dups_exist) =>
          let w := with_vol vol w in
          if result =? B_OK then
            match found_node w (default 0 found) with
            | None => None
            | Some (w, file2) =>
                if flag (mode file2) FAT_SUBDIR || negb (disk_image file2 =? 0)
                then Some (EPERM, w, (0, 0, true), false)
                else
                  let '(loc, vol) := generate_unique_vnid (w_vol w) in
                  let '(_, vol) := vcache_set_entry vol (vnid file2) loc in
                  match erase_dir_entry vol file with
                  | None => None
                  | Some (result, vol) =>
                      Some (result, remove_vnode (vnid file2) (with_vol vol w),
                            (sindex file2, eindex file2, true), true)
                  end
            end
          else if (result =? ENOENT)
                  && (negb dups_exist || ((vnid odir =? ndir_id) && strcasecmp_eq oldname newname)) then
            match erase_dir_entry (w_vol w) file with
            | None => None
            | Some (result, vol) =>
                if negb (result =? B_OK) then Some (result, with_vol vol w, (0, 0, false), false)
                else
                  match create_dir_entry vol ndir file newname with
                  | None => None
                  | Some (result, vol, ndir, ns, ne) =>
                      Some (result, put_node ndir (with_vol vol w), (ns, ne, false), true)
                  end
            end
          else if (result =? ENOENT) && dups_exist then Some (EEXIST, w, (0, 0, false), false)
          else Some (result, w, (0, 0, false), false)
      end
  end.

(** The parent entry of a moved directory; [None]: there is none. *)
Definition update_dotdot (vol : nspace) (file ndir : vnode) : option nspace :=
  match diri_init vol (cluster file) 1 no_diri with
  | (None, _) => None
  | (Some buffer, _) =>
      if negb (bool_decide (ent_bytes vol buffer 0 11 = [46; 46] ++ repeat 32 9)) then None
      else if vnid ndir =? vnid (root_vnode vol)
      then Some (ent_set buffer 0x1a 0 (ent_set buffer 0x1b 0 vol))
      else Some (ent_set_cluster buffer (cluster ndir) vol)
  end.

(** The part behind the change of the directory entries.  When a moved
    directory turns out to have no parent entry, the code puts the node it has
    found under the new name; there is none when the entry is new. *)
Definition rename_finish `{Encodings, Clock} (w : world) (odir ndir_id : Z) (newname : cstring)
    (file : vnode) (place : Z * Z * bool) : option (Z * world) :=
  let '(ns, ne, replaced) := place in
  match node_at w odir with
  | None => None
  | Some dir =>
      match compact_directory (w_vol w) dir with
      | None => None
      | Some (_, vol, dir) =>
          let w := put_node dir (with_vol vol w) in
          let file := default file (node_at w (vnid file)) in
          let file := set_eindex ne (set_sindex ns (set_dir_vnid ndir_id file)) in
          let loc :=
            if negb (st_size file =? 0) then GENERATE_DIR_CLUSTER_VNID (dir_vnid file) (cluster file)
            else GENERATE_DIR_INDEX_VNID (dir_vnid file) (sindex file) in
          let '(_, vol) := vcache_set_entry (w_vol w) (vnid file) loc in
          let vol := snd (write_vnode_entry vol file) in
          let w := put_node file (with_vol vol w) in
          if flag (mode file) FAT_SUBDIR then
            match node_at w ndir_id with
            | None => None
            | Some ndir =>
                match update_dotdot (w_vol w) file ndir with
                | None => if replaced : bool then Some (EIO, w) else None
                | Some vol => Some (B_OK, with_vol vol w)
                end
            end
          else Some (B_OK, put_node (set_mime_type file newname) w)
      end
  end.

(** [None] also stands for the paths on which the code uses a node pointer it
    has not stored to. *)
Definition dosfs_rename `{Encodings, Clock, Timer} (w : world) (odir_id : Z) (oldname : cstring)
    (ndir_id : Z) (newname : cstring) : option (Z * world) :=
  let done dirty result w := Some (result, if dirty : bool then sync w else w) in
  if negb (is_filename_legal newname) then Some (EINVAL, w)
  else if flag (ns_flags (w_vol w)) B_FS_IS_READONLY then Some (EROFS, w)
  else if bool_decide (oldname = []) || bool_decide (newname = []) then Some (EINVAL, w)
  else if (odir_id =? ndir_id) && bool_decide (oldname = newname) then Some (EPERM, w)
  else
    match node_at w odir_id with
    | None => None
    | Some odir =>
        match findfile_case (w_vol w) odir oldname with
        | None => None
        | Some (result, vol, found, _) =>
            let w := with_vol vol w in
            if negb (result =? B_OK) then Some (result, w)
            else
              match found_node w (default 0 found) with
              | None => None
              | Some (w, file) =>
                  if negb (disk_image file =? 0) then Some (EPERM, w)
                  else
                    match check_ancestors w file ndir_id with
                    | None => None
                    | Some (w, Some result) => Some (result, w)
                    | Some (w, None) =>
                        match rename_entry w odir oldname ndir_id newname file with
                        | None => None
                        | Some (result, w, place, dirty) =>
                            if negb (result =? B_OK) then done dirty result w
                            else
                              match rename_finish w odir_id ndir_id newname file place with
                              | None => None
                              | Some (result, w) => done true result w
                              end
                        end
                    end
              end
        end
    end.
