(* ===== verification/Lookups.v ===== *)
(** Searches: what looking a name or a node up leaves alone. *)
From stdpp Require Import base gmap list relations.
From Stdlib Require Import ZArith Lia.
From S2P Require Import Prelude Errors Volume Fat Vcache Dlist Util Attr Iter Dirent Resize Dir Dosfs FileMap File Hooks.

Implicit Types vol v : nspace.
Implicit Types w : world.

(** ** What a volume keeps on its device

    All but the caches of ids, the root node, the memory to come, and the node
    of the home of disk images. *)
Definition on_disk (vol : nspace) :=
  (ns_bpb vol, fBlockCache vol, free_clusters vol, last_allocated vol, ns_flags vol, fs_flags vol,
   vol_entry vol, vol_label vol).

Definition same_volume vol v : Prop := on_disk v = on_disk vol.

#[export] Instance same_volume_preorder : PreOrder same_volume.
Proof. split; [done|]. unfold same_volume. intros x y z E1 E2. congruence. Qed.

(** A search changes the caches of ids at most. *)
Definition only_caches vol v : Prop := (on_disk v, root_vnode v) = (on_disk vol, root_vnode vol).

#[export] Instance only_caches_preorder : PreOrder only_caches.
Proof. split; [done|]. unfold only_caches. intros x y z E1 E2. congruence. Qed.

Lemma only_caches_volume vol v : only_caches vol v -> same_volume vol v.
Proof. unfold only_caches, same_volume. congruence. Qed.

Lemma only_caches_root vol v : only_caches vol v -> root_vnode v = root_vnode vol.
Proof. unfold only_caches. congruence. Qed.

Create HintDb volume.

Lemma malloc_caches vol ok v : malloc_ok vol = (ok, v) -> only_caches vol v.
Proof. unfold malloc_ok. by destruct (heap vol); intros [= <- <-]. Qed.

Lemma add_to_vcache_caches vol id loc r v : add_to_vcache vol id loc = (r, v) -> only_caches vol v.
Proof.
  unfold add_to_vcache, _add_to_vcache_. destruct (malloc_ok vol) as [ok v1] eqn:E.
  apply malloc_caches in E. destruct ok; intros [= <- <-]; exact E.
Qed.

Lemma remove_from_vcache_caches vol id r v : remove_from_vcache vol id = (r, v) -> only_caches vol v.
Proof.
  unfold remove_from_vcache, _remove_from_vcache_. destruct (chain_unlink _ _) as [[c l]|]; [|by intros [= <- <-]].
  by destruct (chain_unlink _ _) as [[]|]; intros [= <- <-].
Qed.

Lemma unique_caches vol id v : generate_unique_vnid vol = (id, v) -> only_caches vol v.
Proof. by intros [= <- <-]. Qed.

Lemma dlist_add_caches vol id r v : dlist_add vol id = (r, v) -> only_caches vol v.
Proof.
  unfold dlist_add. destruct (_ =? _); [|by intros [= <- <-]]. unfold dlist_realloc.
  destruct (malloc_ok vol) as [ok v1] eqn:E. apply malloc_caches in E. by destruct ok; intros [= <- <-].
Qed.

#[export] Hint Resolve malloc_caches add_to_vcache_caches remove_from_vcache_caches unique_caches
  dlist_add_caches : volume.

Section Lookups.
Context `{Encodings, Clock}.

Lemma assign_caches vol dir info r v id added : assign_vnid vol dir info = (r, v, id, added) -> only_caches vol v.
Proof.
  unfold assign_vnid. destruct (vcache_loc_to_vnid _ _) as [r0 [|]]; [by intros [= <- <- <- <-]|].
  destruct (_ =? _); [|by intros [= <- <- <- <-]]. destruct (_ =? _); [|by intros [= <- <- <- <-]].
  destruct (generate_unique_vnid vol) as [x v0] eqn:E0. destruct (add_to_vcache v0 x _) as [r1 v1] eqn:E.
  intros [= <- <- <- <-]. transitivity v0; eauto with volume.
Qed.

Lemma next_dirent_caches vol dir d len r v d' o :
  get_next_dirent vol dir d len = Some (r, v, d', o) -> only_caches vol v.
Proof.
  unfold get_next_dirent. destruct (z_loop _ _ _) as [d1|[[[r1 d1] [[info name]|]]|]]; try done; try by intros [= <- <- <- <-].
  destruct (decide _); [by intros [= <- <- <- <-]|]. destruct (decide _); [by intros [= <- <- <- <-]|].
  destruct (assign_vnid vol dir info) as [[[r2 v2] id] added] eqn:E. apply assign_caches in E.
  destruct (negb _); [by intros [= <- <- <- <-]|]. destruct (_ && _); [|by intros [= <- <- <- <-]].
  destruct (dlist_add v2 id) as [r3 v3] eqn:E3. apply dlist_add_caches in E3.
  destruct (r3 <? 0); [|intros [= <- <- <- <-]; by transitivity v2].
  destruct added; [|intros [= <- <- <- <-]; by transitivity v2].
  destruct (remove_from_vcache v3 id) as [r4 v4] eqn:E4. apply remove_from_vcache_caches in E4.
  intros [= <- <- <- <-]. transitivity v2; [done|]. by transitivity v3.
Qed.

Lemma findfile_caches vol dir file b1 b2 r v found dups :
  findfile vol dir file b1 b2 = Some (r, v, found, dups) -> only_caches vol v.
Proof.
  unfold findfile. destruct (_ && _); [by intros [= <- <- <- <-]|]. destruct (_ && _); [by intros [= <- <- <- <-]|].
  destruct (diri_init vol _ _ _) as [[p|] d]; [|by intros [= <- <- <- <-]].
  pose proof (z_loop_inv (find_step dir file b1 b2)
    (fun _ '(v, _, _, _) => only_caches vol v)
    (fun o => match o with Some (v, _, _) => only_caches vol v | None => True end)
    scan_bound (vol, d, None, false)) as L.
  destruct (z_loop _ _ _) as [[[[v1 d1] f1] u1]|[[[v1 f1] u1]|]] in L |- *; [| |done]; intros [= <- <- <- <-]; apply L;
    try done; clear; intros _ [[[v d] f] u] _ Hv; unfold find_step;
    (destruct (get_next_dirent v dir d 512) as [[[[r v2] d2] o]|] eqn:E; [|done]);
    apply next_dirent_caches in E; (destruct o as [[name id]|]; [|by transitivity v]);
    (destruct (negb _); [by transitivity v|]); destruct (if b1 then _ else _) as [f' u'];
    destruct (_ && _); by transitivity v.
Qed.

Lemma file_cache_caches vol size o v : file_cache_create vol size = (o, v) -> only_caches vol v.
Proof.
  unfold file_cache_create. destruct (malloc_ok vol) as [ok v1] eqn:E. intros [= <- <-]. by eapply malloc_caches.
Qed.

Lemma read_vnode_caches vol id r v o : dosfs_read_vnode vol id = Some (r, v, o) -> only_caches vol v.
Proof.
  unfold dosfs_read_vnode. destruct (_ =? _); [by intros [= <- <- <-]|]. generalize (match vcache_vnid_to_loc vol id with (_, Some loc) => loc | (_, None) => id end). intros loc.
  destruct (_ || _); [by intros [= <- <- <-]|]. destruct (_ =? _); [by intros [= <- <- <-]|].
  destruct (diri_init _ _ _ _) as [[p|] d]; [|by intros [= <- <- <-]].
  destruct (z_loop _ _ _) as [|[[r1 [[info name]|]]|]]; try done; try by intros [= <- <- <-].
  destruct (malloc_ok vol) as [ok v1] eqn:E1. apply malloc_caches in E1.
  destruct ok; [|by intros [= <- <- <-]]. cbn [negb].
  cbv zeta. set (home := respect_disk_image v1 && _).
  set (v2 := if home then set_beos_vnid id v1 else v1).
  assert (E2 : only_caches v1 v2) by (unfold v2; by destruct home).
  destruct (file_cache_create v2 _) as [c v3] eqn:E3. apply file_cache_caches in E3.
  destruct (file_map_create v3 _) as [m v4] eqn:E4. apply file_cache_caches in E4.
  intros [= <- <- <-]. transitivity v1; [done|]. transitivity v2; [done|]. by transitivity v3.
Qed.

Lemma get_vnode_volume w id r w' o : get_vnode w id = Some (r, w', o) -> same_volume (w_vol w) (w_vol w').
Proof.
  unfold get_vnode. destruct (node_at w id); [by intros [= <- <- <-]|].
  destruct (dosfs_read_vnode _ _) as [[[r1 v1] [[n m]|]]|] eqn:E; [| |done];
    apply read_vnode_caches, only_caches_volume in E; intros [= <- <- <-]; [|done].
  unfold put_node. by destruct (_ =? _).
Qed.

Lemma readdir_caches vol dir i size r v i' o :
  dosfs_readdir vol dir i size = Some (r, v, i', o) -> only_caches vol v.
Proof.
  unfold dosfs_readdir. destruct (_ && _).
  { destruct (if i =? 0 then _ else _). by intros [= <- <- <- <-]. }
  destruct (diri_init _ _ _ _) as [[p|] d]; [|by intros [= <- <- <- <-]].
  destruct (get_next_dirent _ _ _ _) as [[[[r1 v1] d1] o1]|] eqn:E; [|done]. apply next_dirent_caches in E.
  destruct (r1 =? B_OK); [destruct o1 as [[]|]|destruct (r1 =? ENOENT)]; by intros [= <- <- <- <-].
Qed.
End Lookups.

(** A clock that stands still. *)
#[export] Instance stopped : Timer := { system_time := fun _ => 0 }.
