(* ===== verification/Consistency.v ===== *)
(** Consistency of a volume with the files in memory: every cluster is free,
    or belongs to exactly one file, or is none of their business. *)
From stdpp Require Import base gmap list relations.
From Stdlib Require Import ZArith Lia.
From S2P Require Import Prelude Errors Volume Fat FatEntry FatIoctl FatTable FatChain FatAlloc Sample FatSpec Vcache Dlist Util Iter Stream StreamSpec Dirent EntrySpec Resize ResizeSpec VnodeId Dosfs MountSpec File.

Implicit Types vol v : nspace.
Implicit Types n : vnode.

(** ** Counting after a change *)

Lemma count_zero_moved f g a k (xs ys : list Z) :
  NoDup xs -> NoDup ys ->
  (forall c, c ∈ xs -> a <= c < a + k /\ f c = 0 /\ g c <> 0) ->
  (forall c, c ∈ ys -> a <= c < a + k /\ f c <> 0 /\ g c = 0) ->
  (forall c, a <= c < a + k -> c ∉ xs -> c ∉ ys -> f c = 0 <-> g c = 0) ->
  count_zero g a k = count_zero f a k - Z.of_nat (length xs) + Z.of_nat (length ys).
Proof.
  intros Nx Ny Hx Hy Ho.
  assert (P : filter (fun c => f c = 0) (seqZ a k) ++ ys ≡ₚ filter (fun c => g c = 0) (seqZ a k) ++ xs).
  { apply NoDup_Permutation.
    - apply NoDup_app. split_and!; [apply NoDup_filter, NoDup_seqZ| |done].
      intros c [Hc _]%list_elem_of_filter [_ [H _]]%Hy. done.
    - apply NoDup_app. split_and!; [apply NoDup_filter, NoDup_seqZ| |done].
      intros c [Hc _]%list_elem_of_filter [_ [_ H]]%Hx. done.
    - intros c. rewrite !elem_of_app, !list_elem_of_filter, !elem_of_seqZ.
      destruct (decide (c ∈ xs)) as [Hcx|Hnx], (decide (c ∈ ys)) as [Hcy|Hny].
      + destruct (Hx c Hcx) as (_ & ? & _), (Hy c Hcy) as (_ & ? & _). lia.
      + destruct (Hx c Hcx) as (? & ? & ?). tauto.
      + destruct (Hy c Hcy) as (? & ? & ?). tauto.
      + split; (intros [[H1 H2]|H1]; [|done]); left; (split; [|done]); by apply (Ho c). }
  apply Permutation_length in P. rewrite !length_app in P. unfold count_zero. lia.
Qed.

(** A cluster of a chain is in use. *)
Lemma chain_in_use vol c l x :
  geometry_ok vol -> terminated vol c l END_FAT_ENTRY -> x ∈ l -> entry vol x <> 0.
Proof.
  intros Hg [Hc _] (l1 & l2 & ->)%list_elem_of_split E. apply chain_split in Hc.
  inversion Hc as [|? ? ? _ Hc2]; subst. assert (En : next_in vol x = 0) by (unfold next_in; by rewrite E).
  rewrite En in Hc2. inversion Hc2 as [|? ? ? Hd]; subst. unfold data_cluster in Hd. lia.
Qed.

Lemma node_chain_in_use vol n l x : geometry_ok vol -> node_chain vol n l -> x ∈ l -> entry vol x <> 0.
Proof. intros Hg [E1 E2|l' Hl Ht _] Hx; [by apply not_elem_of_nil in Hx|by eapply chain_in_use]. Qed.

Lemma node_chain_data vol n l x : node_chain vol n l -> x ∈ l -> data_cluster vol x.
Proof.
  intros [E1 E2|l' Hl Ht _] Hx; [by apply not_elem_of_nil in Hx|].
  pose proof (chain_data _ _ _ _ (proj1 Ht)) as H. rewrite Forall_forall in H. auto.
Qed.

Lemma node_chain_nodup vol n l : node_chain vol n l -> NoDup l.
Proof. intros [E1 E2|l' Hl Ht _]; [constructor|by eapply chain_nodup]. Qed.

Lemma node_chain_ext vol v n l :
  ns_bpb v = ns_bpb vol -> geometry_ok v -> (forall c, c ∈ l -> entry v c = entry vol c) ->
  node_chain vol n l -> node_chain v n l.
Proof.
  intros Eb Hg He Hc. destruct Hc as [E1 E2|l Hl Ht Hla]; [by constructor|]. constructor; [done| |done].
  split; [|by apply END_not_data]. apply (chain_bpb_ext vol); [done|by apply Forall_forall|apply Ht].
Qed.

(** ** Nodes *)

(** What a change of its other fields keeps of a node. *)
Record same_file n n' : Prop := {
  sf_vnid : vnid n' = vnid n;
  sf_dir : dir_vnid n' = dir_vnid n;
  sf_index : sindex n' = sindex n;
  sf_cluster : cluster n' = cluster n;
  sf_end : end_cluster n' = end_cluster n
}.

#[export] Instance same_file_preorder : PreOrder same_file.
Proof. split; [by split|]. intros x y z [] []. split; congruence. Qed.

Lemma same_file_chain vol n n' l : same_file n n' -> node_chain vol n l -> node_chain vol n' l.
Proof.
  intros [E1 E2 E3 E4 E5] [H1 H2|l' Hl Ht He]; constructor; rewrite ?E4, ?E5; done.
Qed.

Lemma same_file_place n n' : same_file n n' -> place n' = place n.
Proof. intros [E1 E2 E3 E4 E5]. unfold place. by rewrite E2, E3, E4. Qed.

(** The ids the node can be found under are of the form the encodings give. *)
Record node_ok n : Prop := {
  nk_dir : dir_vnid n mod 2 ^ 32 < 2 ^ 28;
  nk_index : 0 <= sindex n < 2 ^ 32;
  nk_size : 0 <= st_size n < 2 ^ 32
}.

Lemma index_not_cluster d i d' c :
  d mod 2 ^ 32 < 2 ^ 28 -> 0 <= i < 2 ^ 32 -> d' mod 2 ^ 32 < 2 ^ 28 -> 0 <= c < 2 ^ 32 ->
  GENERATE_DIR_INDEX_VNID d i <> GENERATE_DIR_CLUSTER_VNID d' c.
Proof.
  intros Hd Hi Hd' Hc. rewrite dir_index_vnid_eq, dir_cluster_vnid_eq by done.
  pose proof (Z.mod_pos_bound d (2 ^ 32) ltac:(lia)). pose proof (Z.mod_pos_bound d' (2 ^ 32) ltac:(lia)). lia.
Qed.

Lemma cluster_vnid_inj d c d' c' :
  d mod 2 ^ 32 < 2 ^ 28 -> 0 <= c < 2 ^ 32 -> d' mod 2 ^ 32 < 2 ^ 28 -> 0 <= c' < 2 ^ 32 ->
  GENERATE_DIR_CLUSTER_VNID d c = GENERATE_DIR_CLUSTER_VNID d' c' -> c = c'.
Proof.
  intros Hd Hc Hd' Hc' E. rewrite <-(cluster_of_dir_vnid d c Hd Hc), E. by apply cluster_of_dir_vnid.
Qed.

Lemma place_not_artificial n : node_ok n -> 0 <= cluster n < 2 ^ 32 -> IS_ARTIFICIAL_VNID (place n) = false.
Proof.
  intros [Hd Hi _] Hc. pose proof (Z.mod_pos_bound (dir_vnid n) (2 ^ 32) ltac:(lia)).
  unfold place, IS_ARTIFICIAL_VNID. destruct (cluster n =? 0).
  - rewrite dir_index_vnid_eq by done. destruct (vnid_bits (dir_vnid n mod 2 ^ 32) (sindex n)) as [-> _]; [lia|done|done].
  - rewrite dir_cluster_vnid_eq by done. destruct (vnid_bits (dir_vnid n mod 2 ^ 32) (cluster n)) as [_ ->]; [lia|done|done].
Qed.

(** ** The invariant

    [alien]: the clusters that are neither free nor a file's, such as bad ones,
    those of directories and of files not in memory, with their entries. *)
Section Invariant.
Context (alien : Z -> option Z).

(** [ns] are the files in memory by id, [cs] their clusters, [m] the map of the
    vnode id cache. *)
Record consistent vol (m : gmap Z Z) (ns : gmap Z vnode) (cs : gmap Z (list Z)) : Prop := {
  cn_layout : layout_ok vol;
  cn_maps : vc_maps vol m;
  cn_hint : data_cluster vol (last_allocated vol);
  cn_count : free_clusters vol = count_zero (entry vol) 2 (total_clusters vol);
  cn_file : forall id n, ns !! id = Some n -> vnid n = id /\ node_ok n /\
    exists l, cs !! id = Some l /\ node_chain vol n l /\ clusters_of_size vol (st_size n) = Z.of_nat (length l);
  cn_chain : forall id l, cs !! id = Some l -> is_Some (ns !! id);
  cn_disjoint : forall id id' l l' c, cs !! id = Some l -> cs !! id' = Some l' -> c ∈ l -> c ∈ l' -> id = id';
  cn_entry : forall id id' n n', ns !! id = Some n -> ns !! id' = Some n' ->
    GENERATE_DIR_INDEX_VNID (dir_vnid n) (sindex n) = GENERATE_DIR_INDEX_VNID (dir_vnid n') (sindex n') -> id = id';
  cn_place : forall id loc, m !! id = Some loc ->
    exists n, ns !! id = Some n /\ (loc = place n \/ IS_ARTIFICIAL_VNID loc = true);
  cn_used : forall c, data_cluster vol c -> entry vol c <> 0 -> alien c = None ->
    exists id l, cs !! id = Some l /\ c ∈ l;
  cn_fsinfo : fat_bits vol = 32 -> fsinfo_sector vol <> 0xffff -> ~ in_fats vol (fsinfo_sector vol);
  cn_alien : forall c x, data_cluster vol c -> alien c = Some x -> entry vol c = x /\ x <> 0 /\
    forall id l, cs !! id = Some l -> c ∉ l
}.

(** ** Changes that do not touch the chains *)

Lemma consistent_volume vol v m ns cs :
  consistent vol m ns cs -> table_kept vol v -> vc_maps v m -> consistent v m ns cs.
Proof using.
  intros [] [[Eb He] Hlo Hf Hl] Hm.
  assert (Hd : forall c, data_cluster v c <-> data_cluster vol c) by (intros c; unfold data_cluster; by rewrite Eb).
  split; try done.
  - rewrite Hl. by apply Hd.
  - rewrite Hf, cn_count0, Eb. apply count_zero_ext; [pose proof (geo_total _ (ok_geo _ (lo_fat _ cn_layout0))); lia|].
    intros c Hc. symmetry. apply He. unfold data_cluster. lia.
  - intros id n Hn. destruct (cn_file0 id n Hn) as (H1 & H2 & l & H3 & H4 & H5).
    split; [done|]. split; [done|]. exists l. split; [done|]. split.
    + apply (node_chain_ext vol); [done|apply Hlo| |done]. intros c Hc. apply He. by eapply node_chain_data.
    + unfold clusters_of_size in *. by rewrite Eb.
  - intros c Hc%Hd He' Ha. rewrite He in He' by done. eauto.
  - by rewrite Eb.
  - intros c x Hc%Hd Ha. rewrite He by done. eauto.
Qed.

Lemma consistent_node vol m ns cs id n n' :
  consistent vol m ns cs -> ns !! id = Some n -> same_file n n' -> 0 <= st_size n' < 2 ^ 32 ->
  clusters_of_size vol (st_size n') = clusters_of_size vol (st_size n) ->
  consistent vol m (<[id := n']> ns) cs.
Proof using.
  intros [] Hn Hs Hsize Ec. destruct (cn_file0 id n Hn) as (E1 & [E2 E3 _] & l & E4 & E5 & E6).
  pose proof Hs as [F1 F2 F3 F4 F5].
  assert (Hat : forall u x, <[id := n']> ns !! u = Some x -> exists y, ns !! u = Some y /\ same_file y x).
  { intros u x. rewrite lookup_insert. case_decide as E; [subst|intros Hx; exists x; by split]. intros [= <-]. by exists n. }
  assert (Hto : forall u y, ns !! u = Some y -> exists x, <[id := n']> ns !! u = Some x /\ same_file y x).
  { intros u y Hy. rewrite lookup_insert. case_decide as E; [subst|exists y; by split]. exists n'. split; [done|]. by simplify_eq. }
  split; try done.
  - intros u x. rewrite lookup_insert. case_decide as E; [subst|by apply cn_file0]. intros [= <-].
    split; [congruence|]. split; [split; by rewrite ?F2, ?F3|]. exists l. split; [done|].
    split; [by eapply same_file_chain|congruence].
  - intros u k Hk. destruct (cn_chain0 u k Hk) as [y Hy]. destruct (Hto u y Hy) as (x & Hx & _). by exists x.
  - intros u u' x x' Hx Hx'. destruct (Hat u x Hx) as (y & Hy & [? G2 G3 ? ?]), (Hat u' x' Hx') as (y' & Hy' & [? G2' G3' ? ?]).
    rewrite G2, G3, G2', G3'. by eapply cn_entry0.
  - intros u loc Hu. destruct (cn_place0 u loc Hu) as (y & Hy & Hloc). destruct (Hto u y Hy) as (x & Hx & Hsx).
    exists x. split; [done|]. by rewrite (same_file_place y x Hsx).
Qed.

(** ** A chain is resized *)

Section Resized.
Context vol m ns cs (C : consistent vol m ns cs).
Context id n l (Hn : ns !! id = Some n) (Hl : cs !! id = Some l).
Context clusters v n1 l' new (R : resized vol m n l clusters v n1 l' new).

Let Hgeo : geometry_ok vol := ok_geo _ (lo_fat _ (cn_layout _ _ _ _ C)).

Lemma file_chain u x k : ns !! u = Some x -> cs !! u = Some k -> node_chain vol x k.
Proof using C.
  intros Hx Hk. destruct (cn_file _ _ _ _ C u x Hx) as (_ & _ & k' & Hk' & Hc & _). congruence.
Qed.

Lemma owned_in_use u k c : cs !! u = Some k -> c ∈ k -> data_cluster vol c /\ entry vol c <> 0.
Proof using C.
  intros Hk Hc. destruct (cn_chain _ _ _ _ C u k Hk) as [x Hx]. pose proof (file_chain u x k Hx Hk) as H.
  split; [by eapply node_chain_data|by eapply node_chain_in_use].
Qed.

Lemma new_free c : c ∈ new -> data_cluster vol c /\ entry vol c = 0.
Proof using R. pose proof (rz_new _ _ _ _ _ _ _ _ _ R) as H. rewrite Forall_forall in H. auto. Qed.

Lemma resized_from c : c ∈ l' -> c ∈ l \/ c ∈ new.
Proof using R.
  rewrite (rz_list _ _ _ _ _ _ _ _ _ R), elem_of_app. intros [H|H]; [left|by right].
  eapply elem_of_take in H as (i & H & _). by eapply list_elem_of_lookup_2.
Qed.

Lemma resized_kept c : c ∈ l -> c ∈ l' \/ entry v c = 0.
Proof using R.
  intros Hc. rewrite (rz_list _ _ _ _ _ _ _ _ _ R), elem_of_app.
  rewrite <-(take_drop (Z.to_nat clusters) l), elem_of_app in Hc. destruct Hc as [Hc|Hc]; [by left; left|].
  right. by apply (rz_freed _ _ _ _ _ _ _ _ _ R).
Qed.

Lemma other_kept u k c : u <> id -> cs !! u = Some k -> c ∈ k -> c ∉ l' /\ entry v c = entry vol c.
Proof using C Hl R.
  intros Hu Hk Hc. destruct (owned_in_use u k c Hk Hc) as [Hd Hz].
  assert (Hcl : c ∉ l) by (intros H; by apply Hu, (cn_disjoint _ _ _ _ C u id k l c)).
  assert (Hcn : c ∉ new) by (intros [_ H]%new_free; done).
  split; [by intros [|]%resized_from|]. by apply (rz_other _ _ _ _ _ _ _ _ _ R).
Qed.

Lemma resized_in_use c : c ∈ l' -> entry v c <> 0.
Proof using R.
  eapply node_chain_in_use; [|apply (rz_chain _ _ _ _ _ _ _ _ _ R)].
  apply ok_geo, lo_fat, (rz_layout _ _ _ _ _ _ _ _ _ R).
Qed.

Lemma resized_count : free_clusters v = count_zero (entry v) 2 (total_clusters v).
Proof using All.
  pose proof (node_chain_nodup _ _ _ (file_chain _ _ _ Hn Hl)) as Nl.
  pose proof (node_chain_nodup _ _ _ (rz_chain _ _ _ _ _ _ _ _ _ R)) as Nl'.
  pose proof (rz_list _ _ _ _ _ _ _ _ _ R) as E. pose proof (rz_len _ _ _ _ _ _ _ _ _ R) as El.
  rewrite (rz_bpb _ _ _ _ _ _ _ _ _ R), (rz_free _ _ _ _ _ _ _ _ _ R), (cn_count _ _ _ _ C).
  rewrite (count_zero_moved (entry vol) (entry v) 2 _ new (drop (Z.to_nat clusters) l)).
  - rewrite length_drop. rewrite E, length_app, length_take in El. lia.
  - rewrite E in Nl'. by apply NoDup_app in Nl' as (_ & _ & ?).
  - eapply sublist_NoDup; [exact Nl|apply sublist_drop].
  - intros c Hc. destruct (new_free c Hc) as [Hd Hz]. unfold data_cluster in Hd. split; [lia|]. split; [done|].
    apply resized_in_use. rewrite E. apply elem_of_app. by right.
  - intros c Hc. pose proof (rz_freed _ _ _ _ _ _ _ _ _ R c Hc).
    destruct (owned_in_use id l c Hl) as [Hd Hz].
    { rewrite <-(take_drop (Z.to_nat clusters) l). apply elem_of_app. by right. }
    unfold data_cluster in Hd. split; [lia|done].
  - intros c Hc Hcn Hcd. assert (Hd : data_cluster vol c) by (unfold data_cluster; lia).
    destruct (decide (c ∈ l)) as [Hcl|Hcl].
    + destruct (owned_in_use id l c Hl Hcl) as [_ Hz].
      rewrite <-(take_drop (Z.to_nat clusters) l), elem_of_app in Hcl. destruct Hcl as [Hcl|]; [|done].
      pose proof (resized_in_use c) as H. rewrite E, elem_of_app in H. split; [done|]. intros Hv. by destruct H; [left|].
    + by rewrite (rz_other _ _ _ _ _ _ _ _ _ R c Hd Hcl Hcn).
Qed.
End Resized.

Section Places.
Context vol m ns cs (C : consistent vol m ns cs).

Lemma file_cluster id x : ns !! id = Some x -> cluster x = 0 \/ data_cluster vol (cluster x) /\ entry vol (cluster x) <> 0.
Proof using C.
  intros Hx. destruct (cn_file _ _ _ _ C id x Hx) as (_ & _ & k & Hk & Hc & _).
  pose proof Hc as Hc'. destruct Hc as [E _|k Hnil Ht _]; [by left|right].
  assert (Hin : cluster x ∈ k) by (destruct Ht as [Ht _]; inversion Ht; subst; [done|apply list_elem_of_here]).
  by apply (owned_in_use vol m ns cs C id k).
Qed.

Lemma data_u32 c : data_cluster vol c -> 0 <= c < 2 ^ 32.
Proof using C. pose proof (total_small vol (cn_layout _ _ _ _ C)). unfold data_cluster. lia. Qed.

Lemma file_cluster_range id x : ns !! id = Some x -> 0 <= cluster x < 2 ^ 32.
Proof using C. intros [->|[H _]]%file_cluster; [lia|by apply data_u32]. Qed.

Lemma index_unused id n :
  ns !! id = Some n -> loc_unused m (vnid n) (GENERATE_DIR_INDEX_VNID (dir_vnid n) (sindex n)).
Proof using C.
  intros Hn. destruct (cn_file _ _ _ _ C id n Hn) as (E & [Hd Hi _] & _). rewrite E. intros u Hu Hm.
  destruct (cn_place _ _ _ _ C u _ Hm) as (x & Hx & Hp). destruct (cn_file _ _ _ _ C u x Hx) as (_ & Hok & _).
  pose proof (file_cluster_range u x Hx) as Hr. destruct Hp as [Hp|Hp].
  - unfold place in Hp. destruct (cluster x =? 0); [by apply Hu, (cn_entry _ _ _ _ C u id x n)|].
    destruct Hok. by apply index_not_cluster in Hp.
  - pose proof (place_not_artificial (set_cluster 0 n)) as Ha. unfold place in Ha. simpl in Ha. rewrite Ha in Hp; [done| |lia].
    by destruct (cn_file _ _ _ _ C id n Hn) as (_ & [] & _).
Qed.

Lemma cluster_unused id n c :
  ns !! id = Some n -> data_cluster vol c -> entry vol c = 0 ->
  loc_unused m (vnid n) (GENERATE_DIR_CLUSTER_VNID (dir_vnid n) c).
Proof using C.
  intros Hn Hc Hz. destruct (cn_file _ _ _ _ C id n Hn) as (E & [Hd Hi Hsz] & _). rewrite E. intros u Hu Hm.
  destruct (cn_place _ _ _ _ C u _ Hm) as (x & Hx & Hp). destruct (cn_file _ _ _ _ C u x Hx) as (_ & Hok & _).
  pose proof (file_cluster_range u x Hx) as Hr. pose proof (data_u32 c Hc). destruct Hp as [Hp|Hp].
  - unfold place in Hp. destruct (Z.eqb_spec (cluster x) 0).
    + destruct Hok. symmetry in Hp. by apply index_not_cluster in Hp.
    + destruct Hok. apply cluster_vnid_inj in Hp; try done. subst c. by destruct (file_cluster u x Hx) as [|[_ ?]].
  - assert (Hc0 : c <> 0) by (unfold data_cluster in Hc; lia).
    pose proof (place_not_artificial (set_cluster c n)) as Ha. unfold place in Ha. simpl in Ha.
    rewrite (proj2 (Z.eqb_neq _ _) Hc0) in Ha. rewrite Ha in Hp; [done| |lia]. by split.
Qed.
End Places.

(** What the cache knows after a resize. *)
Lemma resized_place (m : gmap Z Z) n n1 n2 u loc :
  (if cluster n1 =? cluster n then m else set_spec m (vnid n) (place n1)) !! u = Some loc -> same_file n1 n2 -> dir_vnid n2 = dir_vnid n -> sindex n2 = sindex n ->
  (forall l, m !! vnid n = Some l -> l = place n \/ IS_ARTIFICIAL_VNID l = true) ->
  (vnid n = u /\ (loc = place n2 \/ IS_ARTIFICIAL_VNID loc = true)) \/ (u <> vnid n /\ m !! u = Some loc).
Proof using.
  intros Hm Hs Ed Ei Hp. pose proof (same_file_place _ _ Hs) as Hpl.
  destruct (decide (u = vnid n)) as [->|Hu].
  - left. split; [done|]. destruct (Z.eqb_spec (cluster n1) (cluster n)) as [E|E].
    + destruct (Hp loc Hm) as [->|]; [left|by right]. unfold place. by rewrite Ed, Ei, (sf_cluster _ _ Hs), E.
    + left. unfold set_spec in Hm. destruct (vnid n =? place n1); [by rewrite lookup_delete_eq in Hm|].
      rewrite lookup_insert_eq in Hm. congruence.
  - right. split; [done|]. destruct (cluster n1 =? cluster n); [done|]. unfold set_spec in Hm.
    destruct (vnid n =? place n1); [by rewrite lookup_delete_ne in Hm|by rewrite lookup_insert_ne in Hm].
Qed.

Lemma consistent_resized vol m ns cs id n l clusters v n1 l' new n2 :
  consistent vol m ns cs -> ns !! id = Some n -> cs !! id = Some l ->
  resized vol m n l clusters v n1 l' new ->
  same_file n1 n2 -> 0 <= st_size n2 < 2 ^ 32 -> clusters_of_size vol (st_size n2) = clusters ->
  exists m', consistent v m' (<[id := n2]> ns) (<[id := l']> cs).
Proof using.
  intros C Hn Hl R Hs Hsize Ec. pose proof C as [? ? ? ? Cfile Cchain Cdis Centry Cplace Cused Cfs Calien].
  destruct (Cfile id n Hn) as (Eid & [Kd Ki _] & _). pose proof (rz_bpb _ _ _ _ _ _ _ _ _ R) as Eb.
  assert (Hs1 : vnid n2 = vnid n /\ dir_vnid n2 = dir_vnid n /\ sindex n2 = sindex n).
  { destruct Hs as [-> -> -> _ _]. rewrite (rz_node _ _ _ _ _ _ _ _ _ R). done. }
  destruct Hs1 as (Ev & Ed & Ei).
  assert (Hd : forall c, data_cluster v c <-> data_cluster vol c) by (intros c; unfold data_cluster; by rewrite Eb).
  eexists. split.
  - apply R.
  - apply R. exact cn_maps0.
  - apply Hd. rewrite (rz_last _ _ _ _ _ _ _ _ _ R). destruct (last new) as [c|] eqn:El; [|done]. simpl.
    apply last_Some_elem_of in El. by apply (new_free _ _ _ _ _ _ _ _ _ R).
  - by eapply resized_count.
  - intros u x. rewrite !lookup_insert. case_decide as E; [subst u; intros [= <-]|intros Hx].
    + split; [congruence|]. split; [split; by rewrite ?Ed, ?Ei|]. exists l'. split; [done|]. split.
      * eapply same_file_chain; [exact Hs|apply R].
      * unfold clusters_of_size in *. rewrite Eb, Ec. symmetry. apply R.
    + destruct (Cfile u x Hx) as (H1 & H2 & k & Hk & Hc & Hz). split; [done|]. split; [done|]. exists k. split; [done|].
      split; [|unfold clusters_of_size in *; by rewrite Eb].
      apply (node_chain_ext vol); [done|apply ok_geo, lo_fat, R| |done].
      intros c Hcc. by eapply other_kept; [..|apply not_eq_sym, E| |].
  - intros u k. rewrite !lookup_insert. case_decide; [by eexists|apply Cchain].
  - intros u u' k k' c. rewrite !lookup_insert. case_decide as E1; case_decide as E2; intros Hk Hk' Hc Hc'; try subst u; try subst u'; try done.
    + injection Hk as <-. exfalso. by eapply (other_kept vol m ns cs C id n l Hl); [..|apply Hc'|].
    + injection Hk' as <-. exfalso. by eapply (other_kept vol m ns cs C id n l Hl); [..|apply Hc|].
    + by eapply Cdis.
  - intros u u' x x'. rewrite !lookup_insert. case_decide; case_decide; intros Hx Hx' E; simplify_eq; try done.
    + rewrite Ed, Ei in E. by eapply Centry.
    + rewrite Ed, Ei in E. by eapply Centry.
    + by eapply Centry.
  - intros u loc Hm. apply (resized_place m n n1 n2) in Hm; [|done|done|done|].
    2: { intros k Hk. rewrite Eid in Hk. destruct (Cplace id k Hk) as (x & Hx & Hp). by simplify_eq. }
    rewrite lookup_insert. destruct Hm as [[<- Hp]|[Hu Hm]].
    + exists n2. rewrite decide_True by congruence. by split.
    + rewrite decide_False by congruence. by apply Cplace.
  - intros c Hc%Hd Hz Ha. destruct (decide (c ∈ l')) as [H'|H']; [exists id, l'; by rewrite lookup_insert, decide_True|].
    destruct (decide (c ∈ l)) as [Hcl|Hcl].
    { by destruct (resized_kept _ _ _ _ _ _ _ _ _ R c Hcl). }
    rewrite (rz_other _ _ _ _ _ _ _ _ _ R) in Hz; [|done..|].
    + destruct (Cused c Hc Hz Ha) as (u & k & Hk & Hck). exists u, k. split; [|done].
      rewrite lookup_insert_ne; [done|]. intros ->. congruence.
    + intros Hcn. apply H'. rewrite (rz_list _ _ _ _ _ _ _ _ _ R). apply elem_of_app. by right.
  - by rewrite Eb.
  - intros c x Hc%Hd Ha. destruct (Calien c x Hc Ha) as (Hx & Hx0 & Hno).
    assert (Hcl : c ∉ l) by eauto. assert (Hcn : c ∉ new) by (intros [_ H]%(new_free _ _ _ _ _ _ _ _ _ R); congruence).
    rewrite (rz_other _ _ _ _ _ _ _ _ _ R) by done. split; [done|]. split; [done|].
    intros u k. rewrite lookup_insert. case_decide; [|eauto].
    intros [= <-] Hck. by destruct (resized_from _ _ _ _ _ _ _ _ _ R c Hck).
Qed.

(** ** A file is removed *)

Lemma consistent_removed vol m ns cs id n l w :
  consistent vol m ns cs -> ns !! id = Some n -> cs !! id = Some l ->
  ns_bpb w = ns_bpb vol -> (forall c, data_cluster vol c -> entry w c = freed (entry vol) l c) -> layout_ok w ->
  free_clusters w = free_clusters vol + Z.of_nat (length l) -> last_allocated w = last_allocated vol ->
  vc_maps w (delete id m) ->
  consistent w (delete id m) (delete id ns) (delete id cs).
Proof using.
  intros C Hn Hl Eb Hw Hlo Hf Hla Hm. pose proof C as [? ? ? Ccount Cfile Cchain Cdis Centry Cplace Cused Cfs Calien].
  pose proof (file_chain _ _ _ _ C _ _ _ Hn Hl) as Hc.
  assert (Hd : forall c, data_cluster w c <-> data_cluster vol c) by (intros c; unfold data_cluster; by rewrite Eb).
  assert (He : forall c, data_cluster vol c -> c ∉ l -> entry w c = entry vol c).
  { intros c Hcd Hcl. rewrite Hw by done. unfold freed. by rewrite decide_False. }
  assert (Hz : forall c, c ∈ l -> entry w c = 0).
  { intros c Hcl. rewrite Hw by by eapply node_chain_data. unfold freed. by rewrite decide_True. }
  assert (Hother : forall u k c, u <> id -> cs !! u = Some k -> c ∈ k -> c ∉ l).
  { intros u k c Hu Hk Hck Hcl. by apply Hu, (Cdis u id k l c). }
  split; try done.
  - rewrite Hla. by apply Hd.
  - rewrite Hf, Eb, Ccount. rewrite (count_zero_moved (entry vol) (entry w) 2 _ [] l); [simpl; lia|constructor|by eapply node_chain_nodup| | |].
    + intros c ?%not_elem_of_nil. done.
    + intros c Hcl. destruct (owned_in_use _ _ _ _ C id l c Hl Hcl) as [Hcd Hne]. unfold data_cluster in Hcd.
      split; [lia|]. split; [done|]. by apply Hz.
    + intros c Hcr _ Hcl. rewrite He; [done|unfold data_cluster; lia|done].
  - intros u x [Hu Hx]%lookup_delete_Some. destruct (Cfile u x Hx) as (H1 & H2 & k & Hk & Hck & Hs).
    split; [done|]. split; [done|]. exists k. rewrite lookup_delete_ne by done. split; [done|].
    split; [|unfold clusters_of_size in *; by rewrite Eb].
    apply (node_chain_ext vol); [done|apply Hlo| |done]. intros c Hcc.
    apply He; [by eapply node_chain_data|]. by eapply Hother.
  - intros u k [Hu Hk]%lookup_delete_Some. rewrite lookup_delete_ne by done. by eapply Cchain.
  - intros u u' k k' c [_ Hk]%lookup_delete_Some [_ Hk']%lookup_delete_Some. by eapply Cdis.
  - intros u u' x x' [_ Hx]%lookup_delete_Some [_ Hx']%lookup_delete_Some. by eapply Centry.
  - intros u loc [Hu Hk]%lookup_delete_Some. destruct (Cplace u loc Hk) as (x & Hx & Hp). exists x.
    by rewrite lookup_delete_ne.
  - intros c Hc'%Hd Hne Ha. assert (Hcl : c ∉ l) by (intros H; by apply Hne, Hz). rewrite He in Hne by done.
    destruct (Cused c Hc' Hne Ha) as (u & k & Hk & Hck). exists u, k. split; [|done].
    rewrite lookup_delete_ne; [done|]. intros ->. congruence.
  - by rewrite Eb.
  - intros c x Hc'%Hd Ha. destruct (Calien c x Hc' Ha) as (Hx & Hx0 & Hno). rewrite He by eauto.
    split; [done|]. split; [done|]. intros u k [_ Hk]%lookup_delete_Some. by eapply Hno.
Qed.
End Invariant.
