(* ===== verification/FileSpec.v ===== *)
(** The file hooks keep a volume consistent. *)
From stdpp Require Import base gmap list relations.
From Stdlib Require Import ZArith Lia.
From S2P Require Import Prelude Errors Volume Fat FatEntry FatIoctl FatTable FatChain FatAlloc Sample FatSpec Vcache Dlist Util Attr Iter Stream StreamSpec Dirent EntrySpec Resize ResizeSpec VnodeId Dosfs MountSpec File Consistency.

Implicit Types vol v : nspace.
Implicit Types n : vnode.

(** ** Sizes in clusters *)

Section Size.
Context vol (Hlo : layout_ok vol).
Let csize := bytes_per_sector vol * sectors_per_cluster vol.

Lemma csize_bounds : 512 <= csize < 2 ^ 23.
Proof using Hlo.
  pose proof (ok_geo _ (lo_fat _ Hlo)) as Hg. pose proof (geo_bps _ Hg). pose proof (lo_spc _ Hlo).
  subst csize. nia.
Qed.

Lemma clusters_of_size_div size : 0 <= size -> clusters_of_size vol size = (size + csize - 1) / csize.
Proof using Hlo.
  intros Hs. pose proof csize_bounds. pose proof (geo_bps _ (ok_geo _ (lo_fat _ Hlo))). pose proof (lo_spc _ Hlo).
  unfold clusters_of_size. fold csize. rewrite u32_small by lia. by rewrite Z.div_div by lia.
Qed.

Lemma size_clusters_eq size :
  0 <= size < 2 ^ 32 -> size_clusters vol size = clusters_of_size vol size /\ 0 <= clusters_of_size vol size < 2 ^ 32.
Proof using Hlo.
  intros Hs. pose proof csize_bounds. pose proof (geo_bps _ (ok_geo _ (lo_fat _ Hlo))). pose proof (lo_spc _ Hlo).
  assert (Hr : 0 <= clusters_of_size vol size < 2 ^ 32).
  { rewrite clusters_of_size_div by lia. split; [apply Z.div_pos; lia|]. apply Z.div_lt_upper_bound; nia. }
  split; [|done]. unfold size_clusters. fold csize. rewrite (u32_small csize) by lia.
  rewrite !Z.quot_div_nonneg by (try lia; apply Z.quot_pos; lia).
  unfold clusters_of_size in Hr |- *. fold csize in Hr |- *. rewrite (u32_small csize) in Hr |- * by lia. by apply u32_small.
Qed.

(** A file that is to grow within its last cluster needs no other. *)
Lemma same_clusters old new :
  0 <= old <= new -> new < 2 ^ 32 -> 0 < new ->
  u32 (u32 ((clusters_of_size vol new - 1) * sectors_per_cluster vol) * bytes_per_sector vol) < old ->
  clusters_of_size vol old = clusters_of_size vol new.
Proof using Hlo.
  intros Hold Hnew Hpos Hlt. pose proof csize_bounds. pose proof (geo_bps _ (ok_geo _ (lo_fat _ Hlo))).
  pose proof (lo_spc _ Hlo). rewrite !clusters_of_size_div in * by lia. set (k := (new + csize - 1) / csize) in *.
  assert (Hk : k * csize < new + csize /\ 1 <= k /\ new <= k * csize).
  { pose proof (Z.div_mod (new + csize - 1) csize ltac:(lia)). pose proof (Z.mod_pos_bound (new + csize - 1) csize ltac:(lia)).
    fold k in H2. split; [nia|]. split; [apply Z.div_le_lower_bound; lia|nia]. }
  assert (Ek : (k - 1) * sectors_per_cluster vol * bytes_per_sector vol = (k - 1) * csize) by (subst csize; ring).
  rewrite (u32_small ((k - 1) * sectors_per_cluster vol)), Ek, u32_small in Hlt by nia.
  symmetry. apply (Z.div_unique _ _ _ (old + csize - 1 - k * csize)); lia.
Qed.
End Size.

(** ** Syncing *)

Definition fsinfo_apart vol : Prop :=
  fat_bits vol = 32 -> fsinfo_sector vol <> 0xffff -> ~ in_fats vol (fsinfo_sector vol).

Lemma ent_set32_base s k x vol : ent_set32 (Ptr s 0) k x vol = ent_set32 (Ptr s k) 0 x vol.
Proof. unfold ent_set32, ent_set16, ent_set. cbn [p_block p_off]. by rewrite !Z.add_0_l, Z.add_0_r. Qed.

Lemma update_fsinfo_kept vol :
  layout_ok vol -> fsinfo_apart vol ->
  table_kept vol (update_fsinfo vol) /\ ns_vcache (update_fsinfo vol) = ns_vcache vol.
Proof.
  intros Hlo Ha. assert (Hsame : table_kept vol vol /\ ns_vcache vol = ns_vcache vol) by (split; [by split|done]).
  unfold update_fsinfo. destruct (Z.eqb_spec (fat_bits vol) 32) as [E32|]; [|done].
  destruct (Z.eqb_spec (fsinfo_sector vol) 0xffff) as [|E]; [done|]. cbn [negb andb]. specialize (Ha E32 E).
  destruct (negb _); [|done]. unfold block_cache_get_writable, block_cache_get.
  destruct (fBlockCache vol !! fsinfo_sector vol) as [b|]; [|done]. destruct (fsinfo_valid vol _); [|done]. clear Hsame.
  set (s := fsinfo_sector vol) in *. split; [|done].
  rewrite !ent_set32_base.
  assert (K : forall o x w, 0 <= o -> layout_ok w -> ~ in_fats w s -> table_kept w (ent_set32 (Ptr s o) 0 x w)).
  { intros o x w Ho Hw Hs. rewrite ent_set32_map by (simpl; lia). apply ent_map_kept; [done|done|].
    intros k y Hk Hy. pose proof (Z.mod_pos_bound). unfold is_byte in *. repeat case_match; try done; by apply Z.mod_pos_bound. }
  pose proof (K 0x1e8 (free_clusters vol) vol ltac:(lia) Hlo Ha) as K1.
  etransitivity; [exact K1|]. apply K; [lia|apply K1|done].
Qed.

Lemma heap_kept vol v :
  layout_ok vol -> ns_bpb v = ns_bpb vol -> fBlockCache v = fBlockCache vol -> free_clusters v = free_clusters vol ->
  last_allocated v = last_allocated vol -> table_kept vol v.
Proof.
  intros [[Hg Hb Hp] H2 H3 H4 H5 H6] E1 E2 E3 E4. split; [split; [done|]| |done|done].
  - intros c _. destruct vol, v. simpl in *. by subst.
  - split; rewrite ?E1; try done. split; rewrite ?E1; [done|unfold blocks_ok; by rewrite E1, E2|].
    intros s Hs. rewrite E2. by apply Hp.
Qed.

Lemma malloc_kept vol ok v :
  layout_ok vol -> malloc_ok vol = (ok, v) -> table_kept vol v /\ ns_vcache v = ns_vcache vol.
Proof. unfold malloc_ok. intros Hlo E. destruct (heap vol); injection E as _ <-; by split; [apply heap_kept|]. Qed.

(** ** The steps *)

Section Files.
Context (alien : Z -> option Z) `{Clock, FileCache}.

Definition steady vol (ns : gmap Z vnode) : Prop := exists m cs, consistent alien vol m ns cs.

Lemma steady_layout vol ns : steady vol ns -> layout_ok vol /\ fsinfo_apart vol.
Proof using. intros (m & cs & C). split; [apply C|exact (cn_fsinfo _ _ _ _ _ C)]. Qed.

Lemma steady_kept vol v ns : steady vol ns -> table_kept vol v -> ns_vcache v = ns_vcache vol -> steady v ns.
Proof using.
  intros (m & cs & C) Hk E. exists m, cs. apply (consistent_volume _ vol); [done|done|].
  eapply vc_maps_same; [exact E|apply C].
Qed.

Lemma steady_sync vol ns : steady vol ns -> steady (snd (_dosfs_sync vol)) ns.
Proof using.
  intros S. destruct (steady_layout _ _ S) as [Hlo Ha]. destruct (update_fsinfo_kept vol Hlo Ha). by eapply steady_kept.
Qed.

Lemma steady_entry vol ns n : steady vol ns -> steady (snd (write_vnode_entry vol n)) ns.
Proof using.
  intros S. destruct (steady_layout _ _ S) as [Hlo _].
  eapply steady_kept; [exact S|by apply write_entry_kept|by apply write_entry_vcache].
Qed.

Lemma steady_node vol ns id n n' :
  steady vol ns -> ns !! id = Some n -> same_file n n' -> 0 <= st_size n' < 2 ^ 32 ->
  clusters_of_size vol (st_size n') = clusters_of_size vol (st_size n) -> steady vol (<[id := n']> ns).
Proof using. intros (m & cs & C) Hn Hs H1 H2. exists m, cs. by eapply consistent_node. Qed.

(** Changes of fields that play no part. *)
Lemma steady_fields vol ns id n n' :
  steady vol ns -> ns !! id = Some n -> same_file n n' -> st_size n' = st_size n -> steady vol (<[id := n']> ns).
Proof using.
  intros S Hn Hs E. apply (steady_node vol ns id n n'); [done|done|done| |by rewrite E].
  destruct S as (m & cs & C). destruct (cn_file _ _ _ _ _ C id n Hn) as (_ & [_ _ K] & _). by rewrite E.
Qed.

(** The result of [set_fat_chain_length], for the node as its caller completes
    it. *)
Lemma steady_resize vol ns id n k :
  steady vol ns -> ns !! id = Some n -> 0 <= k < 2 ^ 32 ->
  exists r v n1, set_fat_chain_length vol n k = (r, v, n1) /\
    (r = B_OK /\ n1 = set_vnode_chain (cluster n1) (end_cluster n1) n /\
     (forall n2, same_file n1 n2 -> 0 <= st_size n2 < 2 ^ 32 -> clusters_of_size vol (st_size n2) = k ->
        steady v (<[id := n2]> ns)) \/
     r = B_DEVICE_FULL /\ n1 = n /\ steady v ns).
Proof using.
  intros (m & cs & C) Hn Hk. destruct (cn_file _ _ _ _ _ C id n Hn) as (_ & _ & l & Hl & Hch & Hsz).
  pose proof (resize_spec vol m n l k (cn_layout _ _ _ _ _ C) (cn_maps _ _ _ _ _ C) (cn_hint _ _ _ _ _ C)
    (cn_count _ _ _ _ _ C) Hch Hsz Hk (index_unused _ _ _ _ _ C id n Hn)
    (fun c Hc Hz => cluster_unused _ _ _ _ _ C id n c Hn Hc Hz)) as R.
  destruct (_ <=? _).
  - destruct R as (v & n1 & l' & new & E & R). exists B_OK, v, n1. split; [done|]. left. split; [done|].
    split; [by rewrite (rz_node _ _ _ _ _ _ _ _ _ R)|]. intros n2 Hs Hs2 Hc.
    destruct (consistent_resized _ _ _ _ _ _ _ _ _ _ _ _ _ n2 C Hn Hl R Hs Hs2 Hc) as [m' C']. by exists m', (<[id := l']> cs).
  - destruct R as (v & E & Ht & Hf & Hla & Hlo & Hfr). exists B_DEVICE_FULL, v, n. split; [done|]. right.
    split; [done|]. split; [done|]. apply (steady_kept vol); [by exists m, cs|by split|by apply frame_vcache].
Qed.

Lemma steady_same vol ns id n : steady vol ns -> ns !! id = Some n -> steady vol (<[id := n]> ns).
Proof using. intros S Hn. by rewrite insert_id. Qed.

Lemma wstat_size_steady vol ns id n size r v n' b :
  steady vol ns -> ns !! id = Some n -> 0 <= size -> wstat_size vol n size = (r, v, n', b) ->
  steady v (<[id := n']> ns).
Proof using.
  intros S Hn Hs E. unfold wstat_size in E. destruct (flag _ _); [injection E as <- <- <- <-; by apply steady_same|].
  destruct (Z.ltb_spec MAX_FILE_SIZE size) as [|Hle]; [injection E as <- <- <- <-; by apply steady_same|].
  unfold MAX_FILE_SIZE in Hle. destruct (steady_layout _ _ S) as [Hlo _].
  destruct (size_clusters_eq vol Hlo size ltac:(lia)) as [Ec Hc]. rewrite Ec in E.
  destruct (steady_resize vol ns id n _ S Hn Hc) as (r1 & v1 & n1 & E1 & [(-> & En & S1)|(-> & -> & S1)]);
    rewrite E1 in E; injection E as <- <- <- <-; [|by apply steady_same].
  apply S1; [by split|simpl; lia|done].
Qed.

Lemma wstat_steady vol ns id n st mask r v n' :
  steady vol ns -> ns !! id = Some n -> (flag mask B_STAT_SIZE = true -> 0 <= stat_size st) ->
  dosfs_wstat vol n st mask = (r, v, n') -> steady v (<[id := n']> ns).
Proof using.
  intros S Hn Hs E. unfold dosfs_wstat in E.
  destruct (flag (ns_flags vol) _); [injection E as <- <- <-; by apply steady_same|].
  destruct (disk_image n =? 2); [injection E as <- <- <-; by apply steady_same|].
  destruct (if flag mask B_STAT_MODE then _ else _) as [n1 d1] eqn:E1.
  assert (S1 : steady vol (<[id := n1]> ns)).
  { destruct (flag mask B_STAT_MODE); injection E1 as <- <-; [|by apply steady_same].
    apply (steady_fields vol ns id n); by try split. }
  destruct (if flag mask B_STAT_SIZE then _ else _) as [[[e2 v2] n2] d2] eqn:E2.
  assert (S2 : steady v2 (<[id := n2]> ns)).
  { destruct (flag mask B_STAT_SIZE) eqn:Ef; [|by injection E2 as <- <- <- <-].
    destruct (wstat_size vol n1 (stat_size st)) as [[[e v'] m] b] eqn:Ew. injection E2 as <- <- <- <-.
    rewrite <-(insert_insert_eq ns id m n1). eapply wstat_size_steady; [exact S1|apply lookup_insert_eq|by apply Hs|exact Ew]. }
  destruct (if flag mask B_STAT_MODIFICATION_TIME then _ else _) as [n3 d3] eqn:E3.
  assert (S3 : steady v2 (<[id := n3]> ns)).
  { destruct (flag mask B_STAT_MODIFICATION_TIME); injection E3 as <- <-; [|done].
    rewrite <-(insert_insert_eq ns id _ n2). apply (steady_fields v2 _ id n2); [done|apply lookup_insert_eq|by split|done]. }
  destruct d3; [|by injection E as <- <- <-]. destruct (flag (fs_flags _) _); injection E as <- <- <-; [|by apply steady_entry].
  rewrite <-(insert_insert_eq ns id _ n3). apply (steady_fields _ _ id n3); [|apply lookup_insert_eq|by split|done].
  by apply steady_sync, steady_entry.
Qed.

Lemma open_steady vol ns id n omode r v n' o :
  steady vol ns -> ns !! id = Some n -> dosfs_open vol n omode = (r, v, n', o) -> steady v (<[id := n']> ns).
Proof using.
  intros S Hn E. unfold dosfs_open in E.
  destruct (flag omode O_CREAT); [injection E as <- <- <- <-; by apply steady_same|].
  set (m := if flag (ns_flags vol) _ || _ || _ || _ then _ else _) in E. clearbody m.
  destruct (flag m O_TRUNC && _); [injection E as <- <- <- <-; by apply steady_same|].
  destruct (if flag m O_TRUNC then _ else _) as [[r1 v1] n1] eqn:E1.
  assert (S1 : steady v1 (<[id := n1]> ns)).
  { destruct (flag m O_TRUNC); [|injection E1 as <- <- <-; by apply steady_same].
    destruct (steady_resize vol ns id n 0 S Hn ltac:(lia)) as (r2 & v2 & n2 & E2 & [(-> & En & S2)|(-> & -> & S2)]);
      rewrite E2 in E1; injection E1 as <- <- <-; [|by apply steady_same].
    apply S2; [by split|simpl; lia|]. destruct (steady_layout _ _ S) as [Hlo _]. pose proof (csize_bounds vol Hlo).
    rewrite clusters_of_size_div by (done || simpl; lia). simpl. apply Z.div_small. lia. }
  destruct (negb _); [by injection E as <- <- <- <-|]. destruct (malloc_ok v1) as [ok v2] eqn:E2.
  assert (S2 : steady v2 (<[id := n1]> ns)).
  { destruct (steady_layout _ _ S1) as [Hlo _]. destruct (malloc_kept v1 ok v2 Hlo E2). by eapply steady_kept. }
  by destruct ok; injection E as <- <- <- <-.
Qed.

Lemma extend_steady vol ns id n size r v n' :
  steady vol ns -> ns !! id = Some n -> st_size n < size < 2 ^ 32 -> extend_file vol n size = (r, v, n') ->
  steady v (<[id := n']> ns).
Proof using.
  intros S Hn Hs E. destruct (steady_layout _ _ S) as [Hlo _].
  assert (Hpos : 0 <= st_size n).
  { destruct S as (m & cs & C). destruct (cn_file _ _ _ _ _ C id n Hn) as (_ & [_ _ K] & _). lia. }
  destruct (size_clusters_eq vol Hlo size ltac:(lia)) as [Ec Hc]. unfold extend_file in E. rewrite Ec in E.
  destruct (if st_size n <=? _ then _ else _) as [[r1 v1] n1] eqn:E1.
  assert (S1 : (r1 = B_OK /\ forall n2, same_file n1 n2 -> st_size n2 = size -> steady v1 (<[id := n2]> ns)) \/
               (r1 <> B_OK /\ steady v1 (<[id := n1]> ns))).
  { destruct (Z.leb_spec (st_size n) (u32 (u32 ((clusters_of_size vol size - 1) * sectors_per_cluster vol) * bytes_per_sector vol))) as [|Hlt].
    - destruct (steady_resize vol ns id n _ S Hn Hc) as (r2 & v2 & n2 & E2 & [(-> & En & S2)|(-> & -> & S2)]);
        rewrite E2 in E1; injection E1 as <- <- <-; [left|right; split; [done|by apply steady_same]].
      split; [done|]. intros n3 Hs3 Es3. apply S2; [|lia|by rewrite Es3].
      etransitivity; [|exact Hs3]. by split.
    - injection E1 as <- <- <-. left. split; [done|]. intros n3 Hs3 Es3.
      apply (steady_node vol ns id n); [done|done|done|lia|]. rewrite Es3. symmetry.
      apply (same_clusters vol Hlo); lia. }
  destruct S1 as [[-> S1]|[Hr S1]].
  - simpl in E. injection E as <- <- <-. apply steady_entry, S1; [by split|done].
  - rewrite (proj2 (Z.eqb_neq _ _) Hr) in E. by injection E as <- <- <-.
Qed.

Lemma write_steady vol ns id n c pos buf r v n' len :
  steady vol ns -> ns !! id = Some n -> dosfs_write vol n c pos buf = (r, v, n', len) -> steady v (<[id := n']> ns).
Proof using.
  intros S Hn E. unfold dosfs_write in E. destruct (flag (mode n) _); [injection E as <- <- <- <-; by apply steady_same|].
  destruct (_ =? _); [injection E as <- <- <- <-; by apply steady_same|].
  set (p := if flag (fc_mode c) _ then _ else _) in E. clearbody p.
  destruct (Z.leb_spec MAX_FILE_SIZE p); [injection E as <- <- <- <-; by apply steady_same|].
  set (k := if MAX_FILE_SIZE <=? _ then _ else _) in E.
  assert (Hk : p + k < 2 ^ 32).
  { unfold k. destruct (Z.leb_spec MAX_FILE_SIZE (p + Z.of_nat (length buf))); unfold MAX_FILE_SIZE in *; lia. }
  clearbody k. destruct (if st_size n <? p + k then _ else _) as [[r1 v1] n1] eqn:E1.
  assert (S1 : steady v1 (<[id := n1]> ns)).
  { destruct (Z.ltb_spec (st_size n) (p + k)); [|injection E1 as <- <- <-; by apply steady_same].
    eapply extend_steady; [exact S|exact Hn| |exact E1]. lia. }
  destruct (negb _); [by injection E as <- <- <- <-|].
  destruct (file_cache_write _ _ _). by injection E as <- <- <- <-.
Qed.

Lemma remove_entry_vcache vol m id :
  vc_maps vol m ->
  let v := if find_vnid_in_vcache vol id =? B_OK then snd (remove_from_vcache vol id) else vol in
  vcache_frame vol v /\ vc_maps v (delete id m).
Proof using.
  intros Hm. unfold find_vnid_in_vcache, vcache_vnid_to_loc. rewrite (find_vnid_spec vol m Hm).
  destruct (m !! id) as [loc|] eqn:E; simpl.
  - destruct (remove_spec vol m Hm id loc E) as (v & Ev & Hf & _ & Hv). unfold remove_from_vcache. by rewrite Ev.
  - split; [done|]. by rewrite delete_id.
Qed.

Lemma dlist_remove_kept vol id :
  layout_ok vol -> table_kept vol (snd (dlist_remove vol id)) /\
  ns_vcache (snd (dlist_remove vol id)) = ns_vcache vol.
Proof using.
  intros Hlo. unfold dlist_remove, dlist_realloc. destruct (_ =? _); [split; [by split|done]|].
  destruct (_ <? _); [|split; [by apply heap_kept|done]].
  match goal with |- context [malloc_ok ?x] => set (w := x) end.
  assert (Hw : table_kept vol w) by by apply heap_kept.
  destruct (malloc_ok w) as [ok v] eqn:E. destruct (malloc_kept w ok v (tk_layout _ _ Hw) E) as [Hv Ev].
  destruct ok; simpl; (split; [|by rewrite Ev]); (transitivity w; [done|]); [|done].
  transitivity v; [done|]. apply heap_kept; [apply Hv|done..].
Qed.

(** The chain of a file, freed. *)
Lemma clear_node_chain vol n l :
  layout_ok vol -> node_chain vol n l -> free_clusters vol = count_zero (entry vol) 2 (total_clusters vol) ->
  let v := if negb (cluster n =? 0) then snd (clear_fat_chain vol (cluster n)) else vol in
  fat_is vol (freed (entry vol) l) v /\ layout_ok v /\
  free_clusters v = free_clusters vol + Z.of_nat (length l) /\ last_allocated v = last_allocated vol.
Proof using.
  intros Hlo Hch Hcount. pose proof (lo_fat _ Hlo) as Hok. destruct Hch as [-> _|l Hl Ht _].
  - simpl. split_and!; [|done|lia|done]. apply (fat_is_ext _ (entry vol)); [|by apply fat_is_refl].
    intros c _. unfold freed. by rewrite decide_False by apply not_elem_of_nil.
  - assert (Hd : data_cluster vol (cluster n)) by (destruct Ht as [Ht _]; by inversion Ht; subst).
    rewrite (proj2 (Z.eqb_neq _ _)) by (unfold data_cluster in Hd; lia). cbn [negb].
    destruct (clear_fat_chain_ok vol _ l _ Hok Ht Hl) as (v & -> & Hv & Hf & Hla). simpl.
    split_and!; [done|apply (layout_frame vol); [apply Hv|apply Hv|done]| |done].
    pose proof (geo_total _ (ok_geo _ Hok)). pose proof (chain_length vol _ l _ ltac:(lia) Ht).
    pose proof (count_zero_range (entry vol) 2 (total_clusters vol) ltac:(lia)). pose proof (total_small vol Hlo).
    rewrite Hf, u32_small; lia.
Qed.

Lemma remove_steady vol ns id n reenter v :
  steady vol ns -> ns !! id = Some n -> dosfs_remove_vnode vol n reenter = (B_OK, v) -> steady v (delete id ns).
Proof using.
  intros (m & cs & C) Hn E. destruct (cn_file _ _ _ _ _ C id n Hn) as (Eid & _ & l & Hl & Hch & _).
  unfold dosfs_remove_vnode in E. destruct (flag (ns_flags vol) _); [done|].
  destruct (clear_node_chain vol n l (cn_layout _ _ _ _ _ C) Hch (cn_count _ _ _ _ _ C)) as (Hv & Hlo & Hf & Hla).
  set (v1 := if negb (cluster n =? 0) then _ else _) in *.
  destruct (remove_entry_vcache v1 m (vnid n)) as [F2 M2].
  { apply (vc_maps_same vol); [apply frame_vcache, Hv|apply C]. }
  set (v2 := if find_vnid_in_vcache v1 (vnid n) =? B_OK then _ else _) in *. cbv zeta in E. fold v2 in E.
  destruct (vcache_frame_kept _ _ Hlo F2) as [[Eb2 He2] Hlo2 Hf2 Hla2].
  pose proof (fat_is_bpb _ _ _ Hv) as Eb1.
  assert (S2 : steady v2 (delete id ns)).
  { exists (delete id m), (delete id cs). apply (consistent_removed _ vol m ns cs id n l); try done; try congruence.
    - intros c Hc. rewrite He2 by (unfold data_cluster; by rewrite Eb1). by apply (fi_entry _ _ _ Hv). }
  set (v3 := if flag (mode n) FAT_SUBDIR then _ else _) in E.
  assert (S3 : steady v3 (delete id ns)).
  { unfold v3. destruct (flag _ _); [|done]. destruct (dlist_remove_kept v2 (vnid n) Hlo2). by eapply steady_kept. }
  clearbody v3. injection E as <-. destruct (negb reenter && _); [by apply steady_sync|done].
Qed.

(** The hooks on files, as the kernel calls them for nodes in memory.  Two are
    restricted: [dosfs_wstat] stores a negative size as it is, which no chain
    has, so it is called with others only; and a node goes from memory when
    [dosfs_remove_vnode] returns B_OK. *)
Inductive file_hook : nspace * gmap Z vnode -> nspace * gmap Z vnode -> Prop :=
| hook_wstat vol ns id n st mask r v n' :
    ns !! id = Some n -> (flag mask B_STAT_SIZE = true -> 0 <= stat_size st) ->
    dosfs_wstat vol n st mask = (r, v, n') -> file_hook (vol, ns) (v, <[id := n']> ns)
| hook_open vol ns id n omode r v n' o :
    ns !! id = Some n -> dosfs_open vol n omode = (r, v, n', o) -> file_hook (vol, ns) (v, <[id := n']> ns)
| hook_write vol ns id n c pos buf r v n' len :
    ns !! id = Some n -> dosfs_write vol n c pos buf = (r, v, n', len) -> file_hook (vol, ns) (v, <[id := n']> ns)
| hook_close vol ns id n r v n' :
    ns !! id = Some n -> dosfs_close vol n = (r, v, n') -> file_hook (vol, ns) (v, <[id := n']> ns)
| hook_release vol ns id n : ns !! id = Some n -> file_hook (vol, ns) (snd (dosfs_release_vnode vol n), ns)
| hook_remove vol ns id n reenter v :
    ns !! id = Some n -> dosfs_remove_vnode vol n reenter = (B_OK, v) -> file_hook (vol, ns) (v, delete id ns)
| hook_sync vol ns : file_hook (vol, ns) (snd (dosfs_sync vol), ns).

Lemma hook_steady s s' : file_hook s s' -> steady (fst s) (snd s) -> steady (fst s') (snd s').
Proof using.
  intros Hk S. destruct Hk as [? ? ? ? ? ? ? ? ? Hn Hs E|? ? ? ? ? ? ? ? ? Hn E|? ? ? ? ? ? ? ? ? ? ? Hn E
    |? ? ? ? ? ? ? Hn E|? ? ? ? Hn|? ? ? ? ? ? Hn E|]; simpl in *.
  - by eapply wstat_steady.
  - by eapply open_steady.
  - by eapply write_steady.
  - unfold dosfs_close in E. destruct (_ && _); injection E as <- <- <-; [|by apply steady_same].
    apply (steady_fields _ _ _ n); [by apply steady_sync|done|by split|done].
  - unfold dosfs_release_vnode. simpl. destruct (_ && _); [by apply steady_sync|done].
  - by eapply remove_steady.
  - by apply steady_sync.
Qed.

(** C2: consistency.  On a volume where the files in memory own disjoint,
    properly terminated chains as long as their sizes need, where every cluster
    in use is a file's or a foreign one, where the free count is the number of
    free clusters and the cache knows where each file is, any sequence of file
    hooks leaves such a volume behind, whether they succeed or not - no size
    that is set is negative, and [dosfs_remove_vnode] succeeds: no cluster
    is lost, none is shared, and no foreign cluster's entry changes. *)
Theorem file_hooks_consistent s s' : rtc file_hook s s' -> steady (fst s) (snd s) -> steady (fst s') (snd s').
Proof using. induction 1 as [|s s1 s2 Hk _ IH]; [done|]. intros S. apply IH. by eapply hook_steady. Qed.
End Files.

(** The diskette with its file of four clusters; the cycle is foreign. *)
Definition foreign (c : Z) : option Z := if c =? 10 then Some 11 else if c =? 11 then Some 10 else None.
Definition files : gmap Z vnode := {[7 := set_st_size 2000 a_file]}.

Lemma floppy_used :
  forallb (fun c => (entry floppy c =? 0) || bool_decide (is_Some (foreign c)) || bool_decide (c ∈ [2; 3; 341; 4]))
    (seqZ 2 500) = true.
Proof. vm_compute. reflexivity. Qed.

Lemma floppy_steady : steady foreign floppy files.
Proof.
  exists ∅, {[7 := [2; 3; 341; 4]]}.
  assert (Ht : total_clusters floppy = 500) by (vm_compute; reflexivity).
  assert (Hfile : forall id n, files !! id = Some n -> id = 7 /\ n = set_st_size 2000 a_file).
  { unfold files. intros id n [<- <-]%lookup_singleton_Some. split; reflexivity. }
  assert (Hlist : forall id l, ({[7 := [2; 3; 341; 4]]} : gmap Z (list Z)) !! id = Some l -> id = 7 /\ l = [2; 3; 341; 4]).
  { intros id l [<- <-]%lookup_singleton_Some. split; reflexivity. }
  split.
  - exact floppy_layout.
  - apply empty_vcache_maps; vm_compute; reflexivity.
  - split; vm_compute; [discriminate|reflexivity].
  - vm_compute. reflexivity.
  - intros id n [-> ->]%Hfile. split; [reflexivity|]. split; [split; vm_compute; [reflexivity|split; [discriminate|reflexivity]|split; [discriminate|reflexivity]]|].
    exists [2; 3; 341; 4]. split; [apply lookup_singleton_eq|]. split; [|vm_compute; reflexivity].
    constructor; [discriminate|exact floppy_chain|reflexivity].
  - intros id l [-> _]%Hlist. exists (set_st_size 2000 a_file). apply lookup_singleton_eq.
  - intros id id' l l' c [-> _]%Hlist [-> _]%Hlist _ _. reflexivity.
  - intros id id' n n' [-> _]%Hfile [-> _]%Hfile _. reflexivity.
  - intros id loc Hm. rewrite lookup_empty in Hm. discriminate Hm.
  - intros c Hc Hne Ha. exists 7, [2; 3; 341; 4]. split; [apply lookup_singleton_eq|].
    pose proof floppy_used as H. rewrite forallb_forall in H. unfold data_cluster in Hc. rewrite Ht in Hc.
    assert (Hin : c ∈ seqZ 2 500) by (apply elem_of_seqZ; lia). apply list_elem_of_In in Hin. specialize (H c Hin).
    rewrite Ha, (proj2 (Z.eqb_neq _ _) Hne) in H. by apply bool_decide_eq_true in H.
  - intros H32. vm_compute in H32. discriminate H32.
  - intros c x _ Hx. unfold foreign in Hx. destruct (Z.eqb_spec c 10) as [->|]; [|destruct (Z.eqb_spec c 11) as [->|]; [|discriminate Hx]];
      injection Hx as <-; (split; [vm_compute; reflexivity|]); (split; [lia|]); intros id l [_ ->]%Hlist;
      rewrite !elem_of_cons, elem_of_nil; lia.
Qed.

Definition after_write `{Clock, FileCache} vol (ns : gmap Z vnode) id n c pos buf : nspace * gmap Z vnode :=
  let '(_, v, n', _) := dosfs_write vol n c pos buf in (v, <[id := n']> ns).

Lemma write_is_hook `{Clock, FileCache} vol ns id n c pos buf :
  ns !! id = Some n -> file_hook (vol, ns) (after_write vol ns id n c pos buf).
Proof.
  intros Hn. unfold after_write. destruct (dosfs_write vol n c pos buf) as [[[r v] n'] len] eqn:E.
  by eapply hook_write.
Qed.

#[export] Instance no_data : FileCache :=
  { file_cache_read := fun _ _ _ => (B_OK, []); file_cache_write := fun _ _ _ => (B_OK, 0) }.

(** Three bytes far behind the end of the file. *)
Definition written : nspace * gmap Z vnode :=
  after_write floppy files 7 (set_st_size 2000 a_file) (Cookie 2 0 0 2) 3000 [1; 2; 3].

Lemma file_hooks_consistent_witness :
  steady foreign (fst written) (snd written) /\
  free_clusters (fst written) = 492 /\ st_size <$> snd written !! 7 = Some 3003.
Proof.
  split.
  - apply (file_hooks_consistent foreign (floppy, files)); [|exact floppy_steady].
    apply rtc_once, write_is_hook, lookup_singleton_eq.
  - split; vm_compute; reflexivity.
Defined.
