(* ===== verification/Calls.v ===== *)
(** The hooks as steps of one system: the volume, the nodes in memory and the
    cookies of the open files, and the sequences of calls the kernel can make. *)
From stdpp Require Import base gmap list relations.
From Stdlib Require Import ZArith Lia.
From S2P Require Import Prelude Errors Volume Fat Sample Vcache Dlist Util Attr Iter Dirent EntrySpec Resize Dir Encodings EncodingsSpec Dosfs MountSpec FileMap File Consistency FileSpec Hooks Lookups.

Implicit Types vol v : nspace.
Implicit Types w : world.

(** ** Sequences of calls

    The state is the volume with the nodes in memory, and the cookies of the
    open files with the ids of their nodes.  The hooks that only look at the
    state ([dosfs_access], [dosfs_rstat], [dosfs_read], the file map, the
    attributes) are left out, and so are [dosfs_unmount] and
    [dosfs_write_pages]: the latter hands pages of the page cache to the device,
    where the file map says, and does not look at the flags of the volume. *)
Definition system : Type := world * list (Z * filecookie).

Section Calls.
Context `{Encodings, Clock, Timer, FileCache}.

Inductive call : system -> system -> Prop :=
| call_walk w cs dir n name r vol found dups :
    node_at w dir = Some n -> dosfs_walk (w_vol w) n name = Some (r, vol, found, dups) ->
    call (w, cs) (with_vol vol w, cs)
| call_get_vnode w cs id r w' o : get_vnode w id = Some (r, w', o) -> call (w, cs) (w', cs)
| call_release_vnode w cs id n :
    node_at w id = Some n -> call (w, cs) (with_vol (snd (dosfs_release_vnode (w_vol w) n)) w, cs)
| call_remove_vnode w cs id n reenter :
    id ∈ w_removed w -> node_at w id = Some n ->
    call (w, cs)
      (World (snd (dosfs_remove_vnode (w_vol w) n reenter)) (delete id (w_nodes w))
         (filter (fun x => x <> id) (w_removed w)), cs)
| call_opendir w cs id n r vol o :
    node_at w id = Some n -> dosfs_opendir (w_vol w) n = (r, vol, o) -> call (w, cs) (with_vol vol w, cs)
| call_readdir w cs id n i size r vol i' o :
    node_at w id = Some n -> dosfs_readdir (w_vol w) n i size = Some (r, vol, i', o) ->
    call (w, cs) (with_vol vol w, cs)
| call_open_attrdir w cs r vol o : dosfs_open_attrdir (w_vol w) = (r, vol, o) -> call (w, cs) (with_vol vol w, cs)
| call_wstat w cs id n st mask r vol n' :
    node_at w id = Some n -> dosfs_wstat (w_vol w) n st mask = (r, vol, n') ->
    call (w, cs) (put_node n' (with_vol vol w), cs)
| call_open w cs id n omode r vol n' o :
    node_at w id = Some n -> dosfs_open (w_vol w) n omode = (r, vol, n', o) ->
    call (w, cs) (put_node n' (with_vol vol w), match o with Some c => (id, c) :: cs | None => cs end)
| call_write w cs id c n pos buf r vol n' len :
    (id, c) ∈ cs -> node_at w id = Some n -> dosfs_write (w_vol w) n c pos buf = (r, vol, n', len) ->
    call (w, cs) (put_node n' (with_vol vol w), cs)
| call_close w cs id n r vol n' :
    node_at w id = Some n -> dosfs_close (w_vol w) n = (r, vol, n') ->
    call (w, cs) (put_node n' (with_vol vol w), cs)
| call_free_cookie w before c after : call (w, before ++ c :: after) (w, before ++ after)
| call_create w cs dir n name omode r w' o :
    node_at w dir = Some n -> dosfs_create w n name omode = Some (r, w', o) ->
    call (w, cs) (w', match o with Some (c, id) => (id, c) :: cs | None => cs end)
| call_mkdir w cs dir n name perms r w' :
    node_at w dir = Some n -> dosfs_mkdir w n name perms = Some (r, w') -> call (w, cs) (w', cs)
| call_unlink w cs dir n name r w' :
    node_at w dir = Some n -> dosfs_unlink w n name = Some (r, w') -> call (w, cs) (w', cs)
| call_rmdir w cs dir n name r w' :
    node_at w dir = Some n -> dosfs_rmdir w n name = Some (r, w') -> call (w, cs) (w', cs)
| call_rename w cs odir oldname ndir newname r w' :
    dosfs_rename w odir oldname ndir newname = Some (r, w') -> call (w, cs) (w', cs)
| call_write_fs_stat w cs name mask r vol :
    dosfs_write_fs_stat (w_vol w) name mask = Some (r, vol) -> call (w, cs) (with_vol vol w, cs)
| call_sync w cs : call (w, cs) (with_vol (snd (dosfs_sync (w_vol w))) w, cs).

(** ** Read-only volumes *)

Definition read_only vol : Prop :=
  flag (ns_flags vol) B_FS_IS_READONLY = true /\ take 11 (vol_label vol) <> RO_LABEL.

Definition read_cookie (c : Z * filecookie) : Prop := Z.land (fc_mode (snd c)) O_RWMASK = O_RDONLY.

Lemma read_only_same vol v : same_volume vol v -> read_only vol -> read_only v.
Proof. unfold read_only. by intros [= _ _ _ _ -> _ _ ->]. Qed.

Lemma update_fsinfo_read_only vol : read_only vol -> update_fsinfo vol = vol.
Proof. intros [R _]. unfold update_fsinfo. rewrite R. by destruct (_ =? _), (_ =? _). Qed.

Lemma put_node_volume n w : same_volume (w_vol w) (w_vol (put_node n w)).
Proof. unfold put_node. by destruct (_ =? _). Qed.

Lemma open_read_only vol n omode r v n' o :
  read_only vol -> dosfs_open vol n omode = (r, v, n', o) ->
  same_volume vol v /\ match o with Some c => Z.land (fc_mode c) O_RWMASK = O_RDONLY | None => True end.
Proof.
  intros [R _]. unfold dosfs_open. rewrite R. cbn [orb]. destruct (flag omode O_CREAT); [by intros [= <- <- <- <-]|].
  set (m := Z.lor (Z.ldiff omode O_RWMASK) O_RDONLY).
  assert (Em : Z.land m O_RWMASK = O_RDONLY).
  { unfold m, O_RWMASK, O_RDONLY. rewrite Z.lor_0_r. apply Z.bits_inj'. intros k Hk.
    rewrite Z.land_spec, Z.ldiff_spec, Z.bits_0. by destruct (Z.testbit omode k), (Z.testbit 3 k). }
  clearbody m. rewrite Em. cbn [Z.eqb]. rewrite Z.eqb_refl. destruct (flag m O_TRUNC); [by intros [= <- <- <- <-]|]. simpl.
  destruct (malloc_ok vol) as [ok v1] eqn:E. apply malloc_caches, only_caches_volume in E.
  by destruct ok; intros [= <- <- <- <-].
Qed.

Lemma call_read_only s s' :
  call s s' -> read_only (w_vol (fst s)) -> Forall read_cookie (snd s) ->
  same_volume (w_vol (fst s)) (w_vol (fst s')) /\ Forall read_cookie (snd s').
Proof.
  intros E R Hc. pose proof (proj1 R) as Rf. pose proof (update_fsinfo_read_only _ R) as Rs. destruct E; simpl in *.
  - split; [|done]. by eapply only_caches_volume, findfile_caches.
  - split; [|done]. by eapply get_vnode_volume.
  - split; [|done]. unfold dosfs_release_vnode, _dosfs_sync. simpl. rewrite Rs. by destruct (_ && _).
  - split; [|done]. unfold dosfs_remove_vnode. by rewrite Rf.
  - split; [|done]. revert H4. unfold dosfs_opendir. destruct (negb _); [by intros [= <- <- <-]|].
    destruct (malloc_ok _) as [ok v1] eqn:E. apply malloc_caches, only_caches_volume in E. by destruct ok; intros [= <- <- <-].
  - split; [|done]. by eapply only_caches_volume, readdir_caches.
  - split; [|done]. revert H3. unfold dosfs_open_attrdir.
    destruct (malloc_ok _) as [ok v1] eqn:E. apply malloc_caches, only_caches_volume in E. by destruct ok; intros [= <- <- <-].
  - split; [|done]. revert H4. unfold dosfs_wstat. rewrite Rf. intros [= <- <- <-]. exact (put_node_volume _ (with_vol _ w)).
  - apply open_read_only in H4 as [H4 H5]; [|done]. split.
    + etransitivity; [exact H4|]. exact (put_node_volume n' (with_vol vol w)).
    + destruct o; [|done]. by constructor.
  - split; [|done]. revert H5. unfold dosfs_write. rewrite Forall_forall in Hc. pose proof (Hc _ H3) as Hr.
    unfold read_cookie in Hr. simpl in Hr. rewrite Hr, Z.eqb_refl. destruct (flag (mode n) FAT_SUBDIR); intros [= <- <- <- <-]; exact (put_node_volume _ (with_vol _ w)).
  - split; [|done]. revert H4. unfold dosfs_close, _dosfs_sync. simpl. rewrite Rs.
    destruct (_ && _); intros [= <- <- <-]; exact (put_node_volume _ (with_vol _ w)).
  - split; [done|]. apply Forall_app in Hc as [H3 H4]. inversion_clear H4. by apply Forall_app.
  - revert H4. unfold dosfs_create. rewrite Rf. by intros [= <- <- <-].
  - revert H4. unfold dosfs_mkdir. rewrite Rf. by destruct (negb _); intros [= <- <-].
  - revert H4. unfold dosfs_unlink, do_unlink. rewrite Rf. by destruct (_ || _); intros [= <- <-].
  - revert H4. unfold dosfs_rmdir, do_unlink. rewrite Rf. by destruct (_ || _); intros [= <- <-].
  - revert H3. unfold dosfs_rename. rewrite Rf. by destruct (negb _); intros [= <- <-].
  - revert H3. unfold dosfs_write_fs_stat. rewrite Rf, bool_decide_eq_false_2 by apply R. by intros [= <- <-].
  - by rewrite Rs.
Qed.

(** C32: read-only volumes.  Whatever of these hooks the kernel calls, in whatever
    order, on a volume that has the read-only flag, a label other than the
    marker for it and no file open: no block of it changes, nor its counts, its
    label or its flags, and no file can be open for writing. *)
Theorem read_only_unchanged w w' cs :
  rtc call (w, []) (w', cs) -> read_only (w_vol w) ->
  same_volume (w_vol w) (w_vol w') /\ Forall read_cookie cs.
Proof.
  intros Hr R.
  enough (L : forall s s', rtc call s s' -> read_only (w_vol (fst s)) -> Forall read_cookie (snd s) ->
    same_volume (w_vol (fst s)) (w_vol (fst s')) /\ Forall read_cookie (snd s')) by exact (L _ _ Hr R (Forall_nil_2 _)).
  clear. induction 1 as [|s s1 s2 H3 H4 IH]; [done|]. intros R Hc. destruct (call_read_only _ _ H3 R Hc) as [E1 C1].
  destruct IH as [E2 C2]; [by eapply read_only_same|done|]. split; [by transitivity (w_vol (fst s1))|done].
Qed.
End Calls.

(** A file of a diskette that cannot be written is opened for writing, written
    to, and removed. *)
Definition locked : nspace := set_ns_flags B_FS_IS_READONLY (empty_volume 12 500 2).
Definition locked_file : vnode := Vnode 9 1 None None 0 0 0 0 5 0 300 0 5 None false.
Definition locked_world : world := World locked {[9 := locked_file]} [].
Definition locked_cookie : filecookie := Cookie 0 0 0 5.

Lemma locked_steps : rtc call (locked_world, []) (locked_world, [(9, locked_cookie)]).
Proof.
  eapply rtc_l; [exact (call_open locked_world [] 9 locked_file 2 B_OK locked locked_file (Some locked_cookie) eq_refl eq_refl)|].
  change (put_node locked_file (with_vol locked locked_world)) with locked_world.
  eapply rtc_l.
  { eapply (call_write locked_world [(9, locked_cookie)] 9 locked_cookie locked_file 0 [1; 2; 3] EPERM locked locked_file 0 _ eq_refl eq_refl). }
  change (put_node locked_file (with_vol locked locked_world)) with locked_world.
  apply rtc_once.
  exact (call_unlink locked_world [(9, locked_cookie)] 1 (root_vnode locked) [65] EROFS locked_world eq_refl eq_refl).
  Unshelve. by apply list_elem_of_here.
Qed.

Lemma read_only_unchanged_witness :
  same_volume locked (w_vol locked_world) /\ Forall read_cookie [(9, locked_cookie)].
Proof. apply (read_only_unchanged locked_world locked_world _ locked_steps). by split. Defined.
