(* ===== verification/Frame.v ===== *)
(** What no operation on tables, entries and directories ever changes: the
    geometry, the flags and the label of the volume, and its root node; and of
    the nodes they resize, the ids and the mode.  These facts need no
    assumption on the volume. *)
From stdpp Require Import base gmap list relations.
From Stdlib Require Import ZArith Lia.
From S2P Require Import Prelude Errors Volume Fat Vcache Dlist Util Attr Iter Dirent Resize Dir Dosfs FileMap File Hooks Lookups.

Implicit Types vol v : nspace.
Implicit Types n : vnode.

Definition fixed (vol : nspace) :=
  (ns_bpb vol, root_vnode vol, ns_flags vol, fs_flags vol, vol_entry vol, vol_label vol).

Lemma only_caches_fixed vol v : only_caches vol v -> fixed v = fixed vol.
Proof. unfold only_caches, on_disk, fixed. congruence. Qed.

(** ** The table *)

Lemma mirror_fixed vol s b : fixed (mirror_fats vol s b) = fixed vol.
Proof.
  unfold mirror_fats. destruct (negb _); [done|]. generalize (u32 (s - u32 (active_fat vol * sectors_per_fat vol))) as t.
  intros t. generalize (seqZ 0 (fat_count vol)) as l. intros l.
  match goal with |- context [foldl ?f _ _] => assert (Hf : forall v i, fixed (f v i) = fixed v) end.
  { intros v i. by destruct (_ =? _). }
  revert Hf. match goal with |- context [foldl ?f _ _] => generalize f end. intros f Hf.
  assert (G : forall v, fixed (foldl f v l) = fixed v).
  { induction l as [|i l IH]; intros v; simpl; [done|]. by rewrite IH, Hf. }
  apply G.
Qed.

Definition loop_vol (l : loop ictl ictl) : nspace := k_vol (loop_end l).

Section Ioctl.
Context (set_entry : nspace -> Z -> Z -> Z * nspace) (clear_chain : nspace -> Z -> Z * nspace).
Context (Hset : forall vol a b, fixed (snd (set_entry vol a b)) = fixed vol).
Context (Hclear : forall vol a, fixed (snd (clear_chain vol a)) = fixed vol).
Context (action : ioctl_action) (N : Z).

Lemma fat12_store_fixed odd crosses sector b1 o b2 o2 vol :
  fixed (fat12_store action N odd crosses sector b1 o b2 o2 vol) = fixed vol.
Proof using.
  unfold fat12_store. set (v := poke b1 o _ (poke b1 o _ vol)). assert (E : fixed v = fixed vol) by done.
  destruct crosses; [|exact E]. rewrite <-E. exact (mirror_fixed v (u32 (sector - 1)) b1).
Qed.

Lemma entry_fixed k : fixed (loop_vol (ioctl_entry action N k)) = fixed (k_vol k).
Proof using.
  unfold ioctl_entry. destruct (_ =? 12); [|destruct (_ =? 16); [|destruct (_ =? 32); [|done]]].
  - unfold ioctl_fat12. destruct (if k_offset k =? _ then _ else _); [|done]. cbn.
    destruct (writes_entry _ _); [|done]. apply fat12_store_fixed.
  - unfold ioctl_fat16. cbn. by destruct (writes_entry _ _).
  - unfold ioctl_fat32. cbn. by destruct (writes_entry _ _).
Qed.

Lemma allocate_fixed k : fixed (loop_vol (ioctl_allocate set_entry N k)) = fixed (k_vol k).
Proof using Hset.
  unfold ioctl_allocate. set (v := set_free_clusters _ _).
  pose proof (mirror_fixed v (k_sector k) (k_block1 k)) as E. set (w := mirror_fats _ _ _) in *.
  destruct (k_n k =? 0); [by destruct (_ =? u32 N)|].
  pose proof (Hset w (k_last k) (i32 (k_cluster k))) as E2. destruct (set_entry w _ _) as [r x].
  assert (E3 : fixed x = fixed (k_vol k)) by (transitivity (fixed w); [exact E2|exact E]).
  destruct (r <? 0); [exact E3|]. by destruct (_ =? u32 N).
Qed.

Lemma step_fixed k : fixed (loop_vol (ioctl_step set_entry action N k)) = fixed (k_vol k).
Proof using Hset.
  unfold ioctl_step. pose proof (entry_fixed k) as E. destruct (ioctl_entry action N k) as [k1|k1]; [|exact E].
  assert (E2 : fixed (loop_vol (ioctl_act set_entry action N k1)) = fixed (k_vol k1)).
  { unfold ioctl_act. destruct action; [by destruct (_ =? 0)|done|apply mirror_fixed|].
    destruct (_ =? 0); [apply allocate_fixed|done]. }
  destruct (ioctl_act _ _ _ k1) as [k2|k2]; [|by transitivity (fixed (k_vol k1))].
  transitivity (fixed (k_vol k2)); [|by transitivity (fixed (k_vol k1))].
  unfold ioctl_advance. by destruct (if _ || _ then _ else _).
Qed.

Lemma loop_fixed rounds k : fixed (loop_vol (z_loop (ioctl_step set_entry action N) rounds k)) = fixed (k_vol k).
Proof using Hset.
  rewrite z_loop_nat. generalize (Z.to_nat rounds). clear rounds. intros rounds. revert k.
  induction rounds as [|rounds IH]; intros k; simpl; [done|]. pose proof (step_fixed k) as E.
  destruct (ioctl_step _ _ _ k) as [k1|k1]; [|exact E]. rewrite IH. exact E.
Qed.

Lemma body_fixed vol c : fixed (snd (fat_ioctl_body set_entry clear_chain action N vol c)) = fixed vol.
Proof using Hset Hclear.
  unfold fat_ioctl_body. destruct (_ && _); [done|]. destruct (_ && _); [done|].
  destruct (block_cache_get _ _) as [b|]; [|done].
  match goal with |- context [z_loop _ ?n ?k] => pose proof (loop_fixed n k) as E end. simpl in E.
  unfold loop_vol in E. destruct (loop_end _) as [x cl se po b1 va re nn fi la]. simpl in E. unfold ioctl_finish.
  destruct (decide _); [|exact E]. cbn [k_result k_vol k_n k_first k_cluster].
  destruct (re <? 0); [|destruct (negb (nn =? u32 N)); [|by destruct (re =? 0)]];
    (destruct (negb (fi =? 0)); [|exact E]); cbn [snd]; by rewrite Hclear.
Qed.
End Ioctl.

Lemma ioctl0_fixed vol action c N : fixed (snd (fat_ioctl0 vol action c N)) = fixed vol.
Proof. by apply body_fixed. Qed.

Lemma set_fat_entry_fixed vol c x : fixed (snd (set_fat_entry vol c x)) = fixed vol.
Proof. apply ioctl0_fixed. Qed.

Lemma clear_fat_chain_fixed vol c : fixed (snd (clear_fat_chain vol c)) = fixed vol.
Proof.
  unfold clear_fat_chain. destruct (negb _); [done|]. rewrite z_loop_nat. generalize (Z.to_nat (total_clusters vol + 2)).
  intros k. revert vol c. induction k as [|k IH]; intros vol c; cbn [nat_loop]; [done|].
  unfold clear_step at 1. destruct (negb _); [done|]. destruct (_ <? 0); [done|].
  pose proof (set_fat_entry_fixed vol c 0) as E. destruct (set_fat_entry vol c 0) as [r v].
  destruct (negb _); [exact E|]. by rewrite IH.
Qed.

Lemma allocate_n_fixed vol N r c v : allocate_n_fat_entries vol N = (r, c, v) -> fixed v = fixed vol.
Proof.
  unfold allocate_n_fat_entries, _fat_ioctl_.
  match goal with |- context [fat_ioctl_body ?f ?g ?act N vol 0] =>
    pose proof (body_fixed f g (fun v a b => ioctl0_fixed v IOCTL_SET_ENTRY a b) clear_fat_chain_fixed act N vol 0) as E;
    destruct (fat_ioctl_body f g act N vol 0) as [x w] end.
  by destruct (x <? 0); intros [= <- <- <-].
Qed.

(** ** Directory entries *)

Lemma ent_fill_fixed p k j x vol : fixed (ent_fill p k j x vol) = fixed vol.
Proof.
  unfold ent_fill. generalize (seqZ k j). intros l. revert vol.
  induction l as [|i l IH]; intros vol; simpl; [done|]. by rewrite IH.
Qed.

Lemma ent_copy_fixed p k l vol : fixed (ent_copy p k l vol) = fixed vol.
Proof. revert k vol. induction l as [|x l IH]; intros k vol; simpl; [done|]. by rewrite IH. Qed.

Lemma ent_set_cluster_fixed p c vol : fixed (ent_set_cluster p c vol) = fixed vol.
Proof. unfold ent_set_cluster. by destruct (_ =? 32). Qed.

Lemma ent_set_fixed p k x vol : fixed (ent_set p k x vol) = fixed vol.
Proof. done. Qed.

Lemma ent_set32_fixed p k x vol : fixed (ent_set32 p k x vol) = fixed vol.
Proof. done. Qed.

Create HintDb fixed.
#[export] Hint Rewrite ent_fill_fixed ent_copy_fixed ent_set_cluster_fixed ent_set_fixed ent_set32_fixed
  set_fat_entry_fixed clear_fat_chain_fixed : fixed.

Lemma write_entry_fixed `{Clock} vol n : fixed (snd (write_vnode_entry vol n)) = fixed vol.
Proof.
  unfold write_vnode_entry. destruct (_ && _); [done|]. destruct (diri_init _ _ _ _) as [[p|] d]; [|done].
  cbn [snd]. destruct (flag _ _); by autorewrite with fixed.
Qed.

Lemma write_short_fixed `{Clock} p s info vol : fixed (write_short p s info vol) = fixed vol.
Proof. unfold write_short. by autorewrite with fixed. Qed.

Lemma write_lfn_fixed rounds required i h l s s' :
  write_lfn rounds required i h l s = Some s' -> fixed (snd s') = fixed (snd s).
Proof.
  revert i s. induction rounds as [|rounds IH]; intros i [[p d] vol] E; simpl in E; [by injection E as <-|].
  destruct p as [p|]; [|by injection E as <-]. destruct (read_array _ _ _) as [part|]; [|done].
  destruct (diri_next_entry _ d) as [q e]. apply IH in E. rewrite E. cbn [snd]. by autorewrite with fixed.
Qed.

Lemma erase_fixed `{Encodings} vol n r v : erase_dir_entry vol n = Some (r, v) -> fixed v = fixed vol.
Proof.
  unfold erase_dir_entry. destruct (diri_init _ _ _ _) as [[p|] d]; [|by intros [= <- <-]].
  destruct (_next_dirent_ vol d 512) as [[[r1 d1] o]|]; [|done]. destruct (r1 <? 0); [by intros [= <- <-]|].
  destruct o as [[info name]|]; [|by intros [= <- <-]]. destruct (_ || _); [by intros [= <- <-]|].
  destruct (diri_init _ _ _ _) as [q e].
  pose proof (z_loop_inv (erase_step (eindex n)) (fun _ '(_, _, _, v) => fixed v = fixed vol) (fun v => fixed v = fixed vol)
    scan_bound (q, e, sindex n, vol)) as L.
  destruct (z_loop _ _ _) as [[[[q2 e2] i2] v2]|v2] in L |- *; intros [= <- <-]; apply L; try done; clear;
    intros _ [[[q e] i] v] _ E; unfold erase_step; (destruct q as [q|]; [|done]); (destruct (_ <? i); [done|]);
    by destruct (diri_next_entry _ e).
Qed.

(** ** Chains of nodes *)

Lemma set_entry_fixed vol id loc r v : vcache_set_entry vol id loc = (r, v) -> fixed v = fixed vol.
Proof.
  intros E. apply only_caches_fixed. unfold vcache_set_entry, _update_loc_in_vcache_ in E.
  destruct (_find_vnid_in_vcache_ vol id) as [e|].
  - destruct (_ =? loc); [by eapply remove_from_vcache_caches|].
    destruct (_remove_from_vcache_ vol id) as [s x] eqn:E1. apply remove_from_vcache_caches in E1.
    destruct (s =? 0); [|by injection E as <- <-]. apply add_to_vcache_caches in E. by transitivity x.
  - destruct (negb _); [by eapply add_to_vcache_caches|by injection E as <- <-].
Qed.

Lemma wait_fixed rounds vol id loc r v : vcache_set_entry_wait rounds vol id loc = (r, v) -> fixed v = fixed vol.
Proof.
  revert vol. induction rounds as [|rounds IH]; intros vol; simpl; [by intros [= <- <-]|].
  destruct (vcache_set_entry vol id loc) as [s x] eqn:E. apply set_entry_fixed in E.
  destruct (negb _); [|by intros [= <- <-]]. intros E2%IH. congruence.
Qed.

(** What identifies a node to the kernel. *)
Definition ident n := (vnid n, dir_vnid n, mode n).

Lemma settle_fixed `{Clock} vol n loc r v n' :
  (let '(r, w) := vcache_set_entry_wait (wait_rounds vol) vol (vnid n) loc in
   let '(_, w) := write_vnode_entry w n in (r, w, n)) = (r, v, n') -> fixed v = fixed vol /\ n' = n.
Proof.
  destruct (vcache_set_entry_wait _ _ _ _) as [s x] eqn:E. apply wait_fixed in E.
  pose proof (write_entry_fixed x n) as E2. destruct (write_vnode_entry x n) as [t y]. intros [= <- <- <-].
  by rewrite <-E.
Qed.

Lemma set_length_fixed `{Clock} vol n k r v n' :
  set_fat_chain_length vol n k = (r, v, n') -> fixed v = fixed vol /\ ident n' = ident n.
Proof.
  unfold set_fat_chain_length. destruct (_ || _); [by intros [= <- <- <-]|]. destruct (k =? 0).
  { unfold truncate_chain. destruct (_ =? 0); [by intros [= <- <- <-]|].
    pose proof (clear_fat_chain_fixed vol (cluster n)) as E. destruct (clear_fat_chain vol _) as [s x].
    destruct (negb _); [by intros [= <- <- <-]|]. intros [E2 ->]%(settle_fixed x (set_vnode_chain 0 0 n)). by rewrite E2. }
  destruct (_ =? 0).
  { unfold start_chain. destruct (allocate_n_fat_entries vol k) as [[s c] x] eqn:E. apply allocate_n_fixed in E.
    destruct (negb _); [by intros [= <- <- <-]|]. cbv zeta.
    match goal with |- context [set_vnode_chain ?a ?b n] => intros [E2 ->]%(settle_fixed x (set_vnode_chain a b n)) end.
    by rewrite E2. }
  destruct (_ =? k); [by intros [= <- <- <-]|]. destruct (_ <? k).
  - unfold extend_chain. destruct (allocate_n_fat_entries vol _) as [[s c] x] eqn:E. apply allocate_n_fixed in E.
    destruct (negb _); [by intros [= <- <- <-]|].
    pose proof (set_fat_entry_fixed x (i32 (end_cluster n)) c) as E2. destruct (set_fat_entry x _ c) as [t y].
    simpl in E2. destruct (t <? _); intros [= <- <- <-]; [rewrite clear_fat_chain_fixed|]; (split; [congruence|done]).
  - unfold cut_chain. destruct (loop_end _) as [c x]. destruct (_ && _); [by intros [= <- <- <-]|].
    destruct (x <? 0); [by intros [= <- <- <-]|]. destruct (_ && _); [by intros [= <- <- <-]|].
    pose proof (set_fat_entry_fixed vol c 0x0fffffff) as E2. destruct (set_fat_entry vol c _) as [t y]. simpl in E2.
    destruct (negb _); [by intros [= <- <- <-]|].
    pose proof (clear_fat_chain_fixed y (u32 x)) as E3. destruct (clear_fat_chain y _) as [q z]. simpl in E3.
    intros [= <- <- <-]. split; [congruence|done].
Qed.

Lemma compact_fixed `{Encodings, Clock} vol dir r v dir' :
  compact_directory vol dir = Some (r, v, dir') -> fixed v = fixed vol /\ ident dir' = ident dir.
Proof.
  unfold compact_directory. destruct (IS_FIXED_ROOT _); [by intros [= <- <- <-]|].
  destruct (diri_init _ _ _ _) as [[p|] d]; [|by intros [= <- <- <-]].
  destruct (z_loop _ _ _) as [|[[[d1 last] error]|]]; [by intros [= <- <- <-]| |done].
  destruct (_ =? ENOENT); [|by intros [= <- <- <-]]. cbv zeta. destruct (_ <? _); [|by intros [= <- <- <-]].
  destruct (set_fat_chain_length vol dir _) as [[e x] m] eqn:E. apply set_length_fixed in E as [E1 E2].
  by intros [= <- <- <-].
Qed.

(** ** Creating an entry *)

Lemma grow_fixed `{Clock} vol dir ne r v dir' :
  grow_directory vol dir ne = (r, v, dir') -> fixed v = fixed vol /\ ident dir' = ident dir.
Proof.
  unfold grow_directory. destruct (_ <=? _); [|by intros [= <- <- <-]].
  destruct (IS_FIXED_ROOT _); [by intros [= <- <- <-]|]. cbv zeta.
  destruct (set_fat_chain_length vol dir _) as [[e x] m] eqn:E. apply set_length_fixed in E as [E1 E2].
  by destruct (e <? 0); intros [= <- <- <-].
Qed.

Lemma clear_rest_fixed vol d v : loop_end (match z_loop clear_rest_step scan_bound (d, vol) with
    Brk v => Brk v | Cont (_, v) => Cont v end) = v -> fixed v = fixed vol.
Proof.
  pose proof (z_loop_inv clear_rest_step (fun _ '(_, v) => fixed v = fixed vol) (fun v => fixed v = fixed vol)
    scan_bound (d, vol)) as L.
  destruct (z_loop _ _ _) as [[d1 v1]|v1] in L |- *; intros <-; apply L; try done; clear;
    intros _ [d v] _ E; unfold clear_rest_step; destruct (diri_next_entry v d) as [[p|] e]; try done;
    by rewrite ent_fill_fixed.
Qed.

Section Create.
Context `{Encodings, Clock, Timer}.

Lemma raw_create_fixed vol dir info nshort nlong len r v dir' i j :
  _create_dir_entry_ vol dir info nshort nlong len = Some (r, v, dir', i, j) ->
  fixed v = fixed vol /\ ident dir' = ident dir.
Proof.
  unfold _create_dir_entry_. destruct (bool_decide _); [by intros [= <- <- <- <- <-]|].
  destruct (_ && _); [by intros [= <- <- <- <- <-]|]. cbv zeta.
  destruct (diri_init _ _ _ _) as [[p|] d]; [|by intros [= <- <- <- <- <-]].
  destruct (z_loop (gap_step _ _) _ _) as [|[[[ns last] error]|]]; [by intros [= <- <- <- <- <-]| |done].
  destruct (_ && _); [by intros [= <- <- <- <- <-]|].
  destruct (grow_directory vol dir _) as [[e x] m] eqn:E. apply grow_fixed in E as [E1 E2].
  destruct (e <? 0); [by intros [= <- <- <- <- <-]|].
  destruct (diri_init x _ _ _) as [[q|] d1]; [|by intros [= <- <- <- <- <-]].
  destruct (write_lfn _ _ _ _ _ _) as [[[[q2|] d2] y]|] eqn:E3; [| |done]; apply write_lfn_fixed in E3; simpl in E3;
    [|intros [= <- <- <- <- <-]; split; [congruence|done]].
  pose proof (write_short_fixed q2 nshort info y) as E4. set (z := write_short q2 nshort info y) in *.
  destruct last; [|intros [= <- <- <- <- <-]; split; [congruence|done]].
  pose proof (clear_rest_fixed z d2) as L.
  destruct (z_loop clear_rest_step _ _) as [[d3 t]|t]; intros [= <- <- <- <- <-]; specialize (L _ eq_refl); simpl in L;
    (split; [congruence|done]).
Qed.

Lemma create_fixed vol dir node name r v dir' i j :
  create_dir_entry vol dir node name = Some (r, v, dir', i, j) -> fixed v = fixed vol /\ ident dir' = ident dir.
Proof.
  unfold create_dir_entry. destruct (negb _); [by intros [= <- <- <- <- <-]|].
  destruct (findfile_nocase vol dir name) as [[[[e x] f] u]|] eqn:E; [|done].
  apply findfile_caches, only_caches_fixed in E.
  destruct (e =? B_OK); [by intros [= <- <- <- <- <-]|]. destruct (negb _); [by intros [= <- <- <- <- <-]|].
  destruct (utf8_to_unicode name 512) as [len uni]. destruct (len <=? 0); [by intros [= <- <- <- <- <-]|]. cbv zeta.
  destruct (generate_short_name _ _) as [[e2 s] enc]. destruct (negb _); [by intros [= <- <- <- <- <-]|].
  destruct (if requires_long_name _ _ then _ else _) as [[e3 s3] len3].
  destruct (negb _); [by intros [= <- <- <- <- <-]|]. intros [E1 E2]%raw_create_fixed. split; [congruence|done].
Qed.
End Create.

Lemma op_sync_fixed vol : fixed (op_sync vol) = fixed vol.
Proof.
  unfold op_sync, _dosfs_sync. destruct (flag _ _); [|done]. simpl. unfold update_fsinfo.
  destruct (_ && _); [|done]. destruct (block_cache_get_writable _ _); [|done]. by destruct (fsinfo_valid _ _).
Qed.
