(* ===== verification/NewDir.v ===== *)
(** A new directory (dosfs_mkdir, file.c): the cluster [write_directory] fills
    is a directory that holds its two dot entries and nothing else. *)
From Stdlib Require Import String Ascii.
From stdpp Require Import base gmap list.
From Stdlib Require Import ZArith Lia.
From S2P Require Import Prelude Errors Volume Fat FatEntry FatIoctl FatTable FatChain Sample Vcache Dlist Util Attr Iter Stream StreamSpec Dirent EntrySpec Resize Dir DirScan Encodings EncodingsSpec Dosfs MountSpec FileMap File Hooks.

Implicit Types vol v : nspace.

(** ** Storing a whole block of a directory *)

(** [put_block j b f]: the bytes [f] of the entries, those of block [j] being
    the bytes of [b]. *)
Definition put_block (eps j : Z) (b : block) (f : Z -> Z -> Z) (i k : Z) : Z :=
  if i / eps =? j then byte_at b (i mod eps * 0x20 + k) else f i k.

Lemma store_block_ok vol s b :
  readable vol s -> block_ok (bytes_per_sector vol) b ->
  store_block vol s b = Some (block_update (fun _ => b) s vol).
Proof.
  intros Hr [Hl _]. pose proof Hr as (old & Hold & [Hlo _]). unfold store_block, block_cache_get_writable.
  rewrite (get_readable _ _ Hr). f_equal. unfold block_update. f_equal. apply map_eq. intros t.
  rewrite !lookup_alter. case_decide; [subst|done]. rewrite Hold. simpl. f_equal. unfold block_copy.
  rewrite take_ge by lia. rewrite drop_ge by lia. apply app_nil_r.
Qed.

Lemma dir_is_put vol start bl f v j s b :
  dir_is vol start bl f v -> 0 <= j -> bl !! Z.to_nat j = Some s -> block_ok (bytes_per_sector vol) b ->
  dir_is vol start bl (put_block (entries_per_sector vol) j b f) (block_update (fun _ => b) s v).
Proof.
  intros [Hlo Hd Hst Hb (c & Ev & Hc)] Hj Hs Hok. set (w := block_update _ s v).
  pose proof Hst as [Eb _]. assert (Hok' : block_ok (bytes_per_sector v) b) by (by rewrite Eb).
  assert (Hsr : readable v s).
  { pose proof (dr_read _ _ _ Hd) as Hr. rewrite Forall_forall in Hr. apply Hr. by eapply list_elem_of_lookup_2. }
  assert (Hnf : ~ in_fats v s).
  { eapply stream_not_fat; [done|apply Hd|]. by eapply list_elem_of_lookup_2. }
  assert (Hr : forall t, readable v t -> readable w t) by (intros t; by apply readable_update).
  assert (Hst' : same_table v w).
  { split; [done|]. intros x Hx. unfold entry. change (fat_bits w) with (fat_bits v).
    pose proof (entry_in_table v (ok_geo _ (lo_fat _ Hlo)) x Hx). unfold data_cluster in Hx.
    apply entry_of_ext; [apply Hlo|]. intros o Ho. unfold fat_byte, peek. f_equal.
    transitivity (block_data w (fat_start v + o / bytes_per_sector v)); [done|].
    unfold w. rewrite block_data_update by done.
    destruct (Z.eqb_spec s (fat_start v + o / bytes_per_sector v)) as [->|]; [|done].
    destruct Hnf. apply sector_in_fats; [apply Hlo|lia]. }
  split.
  - destruct Hlo as [H1 H2 H3 H4 H5 H6]. split; try done. apply fat_ok_update; [|done]. done.
  - by eapply directory_same.
  - by transitivity v.
  - intros i k Hi Hk. unfold dirent, put_block. rewrite <-Eb.
    change (dirent_ptr w bl i) with (dirent_ptr v bl i). specialize (Hb i k Hi Hk). unfold dirent in Hb.
    unfold dirent_ptr in *. pose proof (eps_pos v Hlo) as [He _]. pose proof (Z.div_pos i _ Hi He).
    destruct (Z.eqb_spec (i / entries_per_sector v) j) as [E|E].
    + rewrite E, Hs. cbn [mbind option_bind]. unfold ent_get, peek, w. cbn [p_block p_off].
      rewrite block_data_update by done. by rewrite Z.eqb_refl.
    + rewrite <-Hb. destruct (bl !! Z.to_nat (i / entries_per_sector v)) as [t|] eqn:Et; [|done].
      cbn [mbind option_bind]. unfold ent_get, peek, w. cbn [p_block p_off]. rewrite block_data_update by done.
      destruct (Z.eqb_spec s t) as [->|]; [|done]. destruct E.
      pose proof (NoDup_lookup bl _ _ t (stream_nodup v Hlo start bl (dr_stream _ _ _ Hd)) Hs Et). lia.
  - subst v. eexists. split; [reflexivity|]. intros t Ht. simpl. rewrite lookup_alter_ne; [by apply Hc|].
    intros <-. apply Ht. by eapply list_elem_of_lookup_2.
Qed.

(** ** The bytes of the first sector *)

Definition bytes_as (n : Z) (b : list Z) (F : Z -> Z) : Prop :=
  Z.of_nat (length b) = n /\ forall k, 0 <= k < n -> byte_at b k = F k.

Definition stored_over (l : list (Z * Z)) (F : Z -> Z) : Z -> Z :=
  foldl (fun F '(i, x) k => if k =? i then u8 x else F k) F l.

Lemma bytes_as_stores n l b F :
  Forall (fun '(i, _) => 0 <= i < n) l -> bytes_as n b F -> bytes_as n (store_bytes l b) (stored_over l F).
Proof.
  intros Hl. revert b F. induction Hl as [|[i x] l Hi _ IH]; intros b F [Hn Hb]; [done|].
  apply IH. split; [by unfold byte_set; rewrite length_insert|]. intros k Hk. rewrite byte_at_set by lia.
  rewrite Z.eqb_sym. destruct (k =? i); [done|]. by apply Hb.
Qed.

Lemma stored_over_byte l F k : (forall k, is_byte (F k)) -> is_byte (stored_over l F k).
Proof.
  revert F. induction l as [|[i x] l IH]; intros F HF; [apply HF|]. apply IH. intros j.
  destruct (j =? i); [apply u8_range|apply HF].
Qed.

Lemma repeat_lookup {A} (x : A) (m j : nat) : (j < m)%nat -> repeat x m !! j = Some x.
Proof. revert j. induction m as [|m IH]; intros j Hj; [lia|]. destruct j; [done|]. apply IH. lia. Qed.

Lemma bytes_as_blanks n i m b F :
  0 <= i -> i + m <= n -> 0 <= m -> bytes_as n b F ->
  bytes_as n (list_inserts (Z.to_nat i) (repeat 32 (Z.to_nat m)) b)
    (fun k => if (i <=? k) && (k <? i + m) then 32 else F k).
Proof.
  intros Hi Hm Hm0 [Hn Hb]. split; [by rewrite length_inserts|]. intros k Hk. rewrite <-Hb by done.
  unfold byte_at. rewrite !nth_lookup. destruct (Z.leb_spec i k); cbn [andb].
  2: { by rewrite list_lookup_inserts_lt by lia. }
  destruct (Z.ltb_spec k (i + m)).
  - rewrite list_lookup_inserts by (rewrite ?repeat_length; lia). by rewrite repeat_lookup by lia.
  - rewrite list_lookup_inserts_ge; [done|]. rewrite repeat_length. lia.
Qed.

(** The name of a dot entry: [n] dots, padded. *)
Definition dots (n k : Z) : Z := if k <? n then 46 else 32.

Lemma low_byte t : u8 (Z.land t 0xff) = le_byte t 0.
Proof. rewrite <-(stored_byte t 0 0) by lia. by rewrite Z.shiftr_0_r. Qed.
Lemma byte_8 t : u8 (Z.land (Z.shiftr t 8) 0xff) = le_byte t 1.
Proof. by apply stored_byte. Qed.
Lemma byte_16 t : u8 (Z.land (Z.shiftr t 16) 0xff) = le_byte t 2.
Proof. by apply stored_byte. Qed.
Lemma byte_24 t : u8 (Z.land (Z.shiftr t 24) 0xff) = le_byte t 3.
Proof. by apply stored_byte. Qed.

(** The cluster in the entry of the parent. *)
Definition parent_cluster vol (dir : vnode) : Z :=
  if vnid dir =? vnid (root_vnode vol) then 0 else cluster dir.

Section NewSector.
Context `{Clock} (vol : nspace) (Hlo : layout_ok vol) (dir dummy : vnode).

Let eps := entries_per_sector vol.

(** The bytes of a new directory. *)
Definition new_entries (i k : Z) : Z :=
  if i =? 0 then node_image (fat_bits vol) 0x30 (cluster dummy) (time_t2dos tzoffset (st_time dummy)) 0 k (dots 1 k)
  else if i =? 1 then
    node_image (fat_bits vol) 0x30 (parent_cluster vol dir) (time_t2dos tzoffset (st_time dir)) 0 k (dots 2 k)
  else 0.

(** The stores of [dosfs_mkdir] into the zeroed sector. *)
Definition sector_stores : list (Z * Z) :=
  [(0x21, 46); (0x20, 46); (0, 46); (0x2b, 0x30); (0x0b, 0x30)]
  ++ time_fields_at 0x16 (time_t2dos tzoffset (st_time dummy))
  ++ time_fields_at 0x36 (time_t2dos tzoffset (st_time dir))
  ++ cluster_fields_at (fat_bits vol) 0 (cluster dummy)
  ++ (if negb (vnid dir =? vnid (root_vnode vol)) then cluster_fields_at (fat_bits vol) 0x20 (cluster dir) else []).

Definition blank_names (k : Z) : Z :=
  if (0x20 <=? k) && (k <? 0x20 + 11) then 32 else if (0 <=? k) && (k <? 0 + 11) then 32 else 0.

Lemma new_directory_stores :
  bytes_as (bytes_per_sector vol) (new_directory vol dir dummy) (stored_over sector_stores blank_names).
Proof using Hlo.
  pose proof (geo_bps _ (ok_geo _ (lo_fat _ Hlo))) as Hbps. set (bps := bytes_per_sector vol) in *.
  assert (H0 : bytes_as bps (repeat 0 (Z.to_nat bps)) (fun _ => 0)).
  { split; [rewrite repeat_length; lia|]. intros k Hk. unfold byte_at. by rewrite nth_repeat. }
  apply (bytes_as_blanks bps 0 11) in H0; [|lia..]. apply (bytes_as_blanks bps 0x20 11) in H0; [|lia..].
  apply (bytes_as_stores bps sector_stores) in H0.
  - replace (new_directory vol dir dummy) with (store_bytes sector_stores
      (list_inserts 0x20 (repeat 32 11) (list_inserts 0 (repeat 32 11) (repeat 0 (Z.to_nat bps))))); [exact H0|].
    unfold new_directory, sector_stores, store_bytes. rewrite !foldl_app. by destruct (negb _).
  - unfold sector_stores, cluster_fields_at.
    repeat (apply Forall_app; split); try destruct (negb _); try destruct (fat_bits vol =? 32);
      repeat (apply Forall_cons; split); try apply Forall_nil; lia.
Qed.

Lemma new_directory_byte i k :
  0 <= i < eps -> 0 <= k < 32 -> stored_over sector_stores blank_names (i * 0x20 + k) = new_entries i k.
Proof using.
  intros Hi. unfold sector_stores, new_entries, parent_cluster, cluster_fields_at, node_image.
  destruct (Z.eqb_spec i 0) as [->|H0]; [|destruct (Z.eqb_spec i 1) as [->|H1]].
  - destruct (negb (vnid dir =? _)), (fat_bits vol =? 32); revert k; each_offset;
      cbv -[Z.div Z.modulo Z.pow Z.shiftr Z.land u8 le_byte time_t2dos cluster st_time tzoffset];
      rewrite ?byte_8, ?byte_16, ?byte_24, ?low_byte; done.
  - destruct (vnid dir =? vnid (root_vnode vol)), (fat_bits vol =? 32); revert k; each_offset;
      cbv -[Z.div Z.modulo Z.pow Z.shiftr Z.land u8 le_byte time_t2dos cluster st_time tzoffset];
      rewrite ?byte_8, ?byte_16, ?byte_24, ?low_byte; done.
  - intros Hk.
    destruct (negb (vnid dir =? _)), (fat_bits vol =? 32); cbn [stored_over foldl app time_fields_at];
      unfold blank_names; rewrite !(proj2 (Z.eqb_neq _ _)) by lia;
      rewrite !(proj2 (Z.ltb_ge _ _)), !andb_false_r by lia; done.
Qed.

Lemma new_directory_ok : block_ok (bytes_per_sector vol) (new_directory vol dir dummy).
Proof using Hlo.
  destruct new_directory_stores as [Hl Hb]. split; [done|]. apply Forall_forall. intros x (i & Hi)%list_elem_of_lookup.
  pose proof (lookup_lt_Some _ _ _ Hi) as Hlt.
  assert (Ex : x = byte_at (new_directory vol dir dummy) (Z.of_nat i)).
  { unfold byte_at. by rewrite Nat2Z.id, (nth_lookup_Some _ _ _ _ Hi). }
  rewrite Ex, Hb by lia. apply stored_over_byte. intros k. unfold blank_names, is_byte. repeat case_match; lia.
Qed.
End NewSector.

(** ** Filling the cluster *)

Lemma csi_write_block_spec vol start bl f v j c b :
  dir_is vol start bl f v -> at_block v start bl j c -> block_ok (bytes_per_sector vol) b ->
  exists w, csi_write_block v c b = Some (B_OK, w) /\
    dir_is vol start bl (put_block (entries_per_sector vol) j b f) w /\ at_block w start bl j c.
Proof.
  intros Hv Hat Hb. pose proof (dir_is_bpb _ _ _ _ _ Hv) as Eb.
  destruct (at_block_valid v (dw_layout _ _ _ _ _ Hv) _ _ _ _ Hat) as (Hval & Hlk & _ & Hj).
  unfold csi_write_block. rewrite Hval, Z.eqb_refl. cbn [negb].
  assert (Hr : readable v (csi_to_block v c)).
  { pose proof (dr_read _ _ _ (dw_dir _ _ _ _ _ Hv)) as Hr. rewrite Forall_forall in Hr. apply Hr.
    by eapply list_elem_of_lookup_2. }
  rewrite store_block_ok by (by rewrite ?Eb). eexists. split; [done|].
  pose proof (dir_is_put _ _ _ _ _ _ _ b Hv Hj Hlk Hb) as Hw. split; [exact Hw|].
  eapply at_block_same; [|exact Hat]. destruct (dw_table _ _ _ _ _ Hv) as [E1 H1], (dw_table _ _ _ _ _ Hw) as [E2 H2].
  split; [done|]. intros x Hx. unfold data_cluster in *. rewrite E1 in Hx. rewrite H1, H2 by done. done.
Qed.

Lemma cluster_directory vol c e :
  layout_ok vol -> terminated vol c [c] e -> Forall (readable vol) (chain_blocks vol [c]) ->
  directory vol c (chain_blocks vol [c]) /\ Z.of_nat (length (chain_blocks vol [c])) = sectors_per_cluster vol.
Proof.
  intros Hlo Ht Hr. pose proof (lo_spc _ Hlo) as Hspc. pose proof (eps_pos vol Hlo) as [_ He].
  pose proof (geo_bps _ (ok_geo _ (lo_fat _ Hlo))) as Hb.
  assert (El : Z.of_nat (length (chain_blocks vol [c])) = sectors_per_cluster vol).
  { rewrite chain_blocks_length by lia. simpl. lia. }
  split; [|exact El]. split; try lia; [|done| |].
  - by eapply stream_chain.
  - pose proof (chain_lookup_data vol c [c] e 0 c Ht eq_refl) as Hc. unfold data_cluster in Hc. lia.
  - rewrite El. nia.
Qed.

Lemma zero_block vol : layout_ok vol -> block_ok (bytes_per_sector vol) (repeat 0 (Z.to_nat (bytes_per_sector vol))).
Proof.
  intros Hlo. pose proof (geo_bps _ (ok_geo _ (lo_fat _ Hlo))). split; [rewrite repeat_length; lia|].
  apply Forall_forall. intros x Hx%list_elem_of_In%repeat_spec. subst. unfold is_byte. lia.
Qed.

Section Fill.
Context `{Clock} (vol : nspace) (Hlo : layout_ok vol) (dir dummy : vnode) (e : Z).
Context (Ht : terminated vol (cluster dummy) [cluster dummy] e).
Context (Hr : Forall (readable vol) (chain_blocks vol [cluster dummy])).

Let c := cluster dummy.
Let bl := chain_blocks vol [c].
Let eps := entries_per_sector vol.

(** The directory when blocks up to number [i] have been written. *)
Definition filled (i j k : Z) : Z :=
  if j / eps =? 0 then byte_at (new_directory vol dir dummy) (j mod eps * 0x20 + k)
  else if j / eps <=? i then 0 else dirent vol bl j k.

Lemma filled_next i j k : 0 <= i ->
  put_block eps (i + 1) (repeat 0 (Z.to_nat (bytes_per_sector vol))) (filled i) j k = filled (i + 1) j k.
Proof using.
  intros Hi. unfold put_block, filled. unfold byte_at at 1. rewrite nth_repeat.
  destruct (Z.eqb_spec (j / eps) (i + 1)) as [E|E].
  - rewrite (proj2 (Z.eqb_neq _ 0)), (proj2 (Z.leb_le _ _)) by lia. done.
  - destruct (j / eps =? 0); [done|]. destruct (Z.leb_spec (j / eps) i), (Z.leb_spec (j / eps) (i + 1)); done || lia.
Qed.

Lemma clear_sector_fills i v q :
  0 <= i < sectors_per_cluster vol - 1 -> dir_is vol c bl (filled i) v -> at_block v c bl i q ->
  match clear_sector_step (repeat 0 (Z.to_nat (bytes_per_sector vol))) (Some (v, q)) with
  | Cont s => exists w q', s = Some (w, q') /\ dir_is vol c bl (filled (i + 1)) w /\ at_block w c bl (i + 1) q'
  | Brk _ => False
  end.
Proof using All.
  intros Hi Hv Hq. pose proof (dir_is_bpb _ _ _ _ _ Hv) as Eb.
  destruct (cluster_directory vol c e Hlo Ht Hr) as [_ El]. fold bl in El. pose proof (lo_spc _ Hlo) as Hspc.
  destruct (at_block_valid v (dw_layout _ _ _ _ _ Hv) _ _ _ _ Hq) as (_ & _ & Hs & _).
  pose proof (iter_csi_moves v (dw_layout _ _ _ _ _ Hv) c bl i q 1 Hq ltac:(lia) ltac:(lia)) as Hmv.
  rewrite (proj2 (Z.ltb_lt _ _)) in Hmv by lia. destruct Hmv as (q' & Eq & Hq').
  unfold clear_sector_step. rewrite Eq. change (negb (0 =? B_OK)) with false. cbv iota.
  destruct (csi_write_block_spec vol c bl _ v (i + 1) q' _ Hv Hq' (zero_block vol Hlo)) as (w & -> & Hw & Hqw).
  exists w, q'. split; [done|]. split; [|done]. eapply dir_is_ext; [|exact Hw].
  intros j k Hj Hk. apply filled_next. lia.
Qed.

Lemma write_directory_fills :
  exists v, write_directory vol dir dummy = Some v /\ dir_is vol c bl (filled (sectors_per_cluster vol - 1)) v.
Proof using All.
  destruct (cluster_directory vol c e Hlo Ht Hr) as [Hd El]. fold bl in Hd, El.
  pose proof (lo_spc _ Hlo) as Hspc. destruct (new_directory_stores vol Hlo dir dummy) as [Hlen _].
  assert (Hc : data_cluster vol c) by exact (chain_lookup_data vol c [c] e 0 c Ht eq_refl).
  unfold write_directory, init_csi. fold c. rewrite (validate_data vol Hlo c 0 Hc) by lia. rewrite Z.eqb_refl. cbn [negb].
  pose proof (stream_init vol Hlo c bl (dr_stream _ _ _ Hd) (dr_len _ _ _ Hd)) as Hat.
  assert (Hok : block_ok (bytes_per_sector vol) (new_directory vol dir dummy)) by apply (new_directory_ok vol Hlo).
  destruct (csi_write_block_spec vol c bl _ vol 0 _ _ (dir_is_refl _ _ _ Hlo Hd) Hat Hok) as (v & -> & Hv & Hatv).
  pose proof (dir_is_bpb _ _ _ _ _ Hv) as Eb. rewrite !Eb.
  set (zeros := repeat 0 _) in *.
  set (P i (s : option (nspace * csi)) := exists v q, s = Some (v, q) /\ dir_is vol c bl (filled i) v /\ at_block v c bl i q).
  assert (HP : P 0 (Some (v, Csi c 0))).
  { exists v, (Csi c 0). split; [done|]. split; [|done]. eapply dir_is_ext; [|exact Hv].
    intros j k Hj Hk. unfold put_block, filled. fold eps. destruct (Z.eqb_spec (j / eps) 0); [done|].
    pose proof (eps_pos vol Hlo) as [He _]. pose proof (Z.div_pos j eps Hj He).
    by rewrite (proj2 (Z.leb_gt _ _)) by lia. }
  pose proof (z_loop_inv (clear_sector_step zeros) P (fun _ => False) (sectors_per_cluster vol - 1) _ ltac:(lia) HP) as L.
  destruct (z_loop _ _ _) as [s|s]; cbn [loop_end]; [destruct L as (w & q & -> & Hw & _); [|by exists w]|exfalso; apply L].
  all: clear s v Hv Hatv Eb HP; intros i s Hi (v & q & -> & Hv & Hq); by apply clear_sector_fills.
Qed.

Lemma filled_all j k : 0 <= j -> 0 <= k < 32 -> filled (sectors_per_cluster vol - 1) j k = new_entries vol dir dummy j k.
Proof using All.
  intros Hj Hk. destruct (cluster_directory vol c e Hlo Ht Hr) as [Hd El]. fold bl in Hd, El.
  pose proof (lo_spc _ Hlo) as Hspc. destruct (eps_pos vol Hlo) as [He _]. fold eps in He.
  assert (He16 : 16 <= eps) by (unfold eps, entries_per_sector; pose proof (geo_bps _ (ok_geo _ (lo_fat _ Hlo))); zlia).
  unfold filled. destruct (Z.eqb_spec (j / eps) 0) as [E|E].
  - assert (Hje : 0 <= j < eps) by (split; [done|]; apply Z.div_small_iff in E; lia).
    rewrite Z.mod_small by done. destruct (new_directory_stores vol Hlo dir dummy) as [_ Hb].
    pose proof (eps_pos vol Hlo) as [_ Heb]. fold eps in Heb. rewrite Hb by lia. by apply new_directory_byte.
  - assert (Hge : eps <= j) by (destruct (Z.lt_ge_cases j eps); [rewrite Z.div_small in E by lia|]; lia).
    unfold new_entries. rewrite !(proj2 (Z.eqb_neq j _)) by lia.
    destruct (Z.leb_spec (j / eps) (sectors_per_cluster vol - 1)) as [|Hout]; [done|].
    unfold dirent, dirent_ptr. fold eps. rewrite lookup_ge_None_2; [done|]. lia.
Qed.

(** The cluster of a new directory after [write_directory]. *)
Lemma write_directory_makes :
  exists v, write_directory vol dir dummy = Some v /\ dir_is vol c bl (new_entries vol dir dummy) v.
Proof using All.
  destruct write_directory_fills as (v & E & Hv). exists v. split; [exact E|].
  eapply dir_is_ext; [|exact Hv]. intros j k. apply filled_all.
Qed.
End Fill.

(** ** The new directory is empty *)

Section Empty.
Context `{SjisTables, Clock} (vol : nspace) (Hlo : layout_ok vol) (dir dummy : vnode) (bl : list Z) (v : nspace).
Context (Hv : dir_is vol (cluster dummy) bl (new_entries vol dir dummy) v) (Hn : 3 <= dir_entries vol bl).

Let Hlv := dw_layout _ _ _ _ _ Hv.
Let Hd := dw_dir _ _ _ _ _ Hv.

Lemma new_kinds i : 0 <= i -> kind v bl i = if i <? 2 then Short else Free_rest.
Proof using Hv.
  intros Hi. unfold kind. rewrite !(dw_bytes _ _ _ _ _ Hv) by lia. unfold new_entries.
  destruct (Z.eqb_spec i 0) as [->|]; [done|]. destruct (Z.eqb_spec i 1) as [->|]; [done|].
  by rewrite (proj2 (Z.ltb_ge i 2)) by lia.
Qed.

Lemma dot_name i : 0 <= i < 2 -> short_name_of v bl i 512 = if i =? 0 then dot else dotdot.
Proof using Hv.
  intros Hi. unfold short_name_of. rewrite (dw_bytes _ _ _ _ _ Hv i 0xc) by lia.
  rewrite (map_ext_in _ (fun k => dots (i + 1) k)).
  2: { intros k Hk%list_elem_of_In%elem_of_seqZ. rewrite (dw_bytes _ _ _ _ _ Hv) by lia. unfold new_entries, node_image.
       rewrite (proj2 (Z.ltb_lt k _)) by lia. assert (i = 0 \/ i = 1) as [-> | ->] by lia; done. }
  assert (i = 0 \/ i = 1) as [-> | ->] by lia; reflexivity.
Qed.

Lemma stops_new i j : 0 <= i <= 2 -> stops_at v bl i j -> j = i.
Proof using Hv Hn.
  intros Hi (Hj & Hm & _). destruct (decide (i = j)) as [|Hne]; [done|]. specialize (Hm i ltac:(lia)).
  rewrite new_kinds in Hm by lia. destruct Hm; destruct (i <? 2); done.
Qed.

(** The scan finds the dot entries, and then the end. *)
Lemma new_dirent i d : 0 <= i <= 2 -> at_pos v (cluster dummy) bl i d ->
  if i <? 2
  then exists d' info, _next_dirent_ v d 512 = Some (B_OK, d', Some (info, if i =? 0 then dot else dotdot)) /\
         at_pos v (cluster dummy) bl (i + 1) d'
  else exists d', _next_dirent_ v d 512 = Some (ENOENT, d', None).
Proof using All.
  intros Hi Hat. pose proof (dir_is_bpb _ _ _ _ _ Hv) as Eb.
  destruct (next_dirent_cases v Hlv (cluster dummy) bl Hd i d 512 Hat) as (j & Hst & Hout); [rewrite Eb; lia|lia| |].
  { intros t Ht Hk. rewrite new_kinds in Hk by lia. by destruct (t <? 2). }
  apply stops_new in Hst as ->; [|done]. rewrite new_kinds, Eb in Hout by lia.
  destruct (Z.ltb_spec i 2) as [Hi2|Hi2].
  - destruct Hout as [[[Hk|Hk] _]|[_ [(d' & s & _ & Hs & _)|(d' & info & name & E & Hinfo & Hat' & Hname)]]]; [lia|done|lia|].
    exists d', info. rewrite E, Hname by (pose proof (io_sindex _ _ _ _ _ Hinfo); lia). by rewrite dot_name by lia.
  - destruct Hout as [[_ (d' & E & _)]|[[Hk _] _]]; [by exists d'|done].
Qed.

(** [dosfs_rmdir] accepts the directory. *)
Lemma new_directory_empty node :
  cluster node = cluster dummy -> vnid node <> vnid (root_vnode v) -> check_dir_empty v node = Some B_OK.
Proof using All.
  intros Ec Hid. unfold check_dir_empty. rewrite Ec, (proj2 (Z.eqb_neq _ _) Hid). cbv zeta iota.
  pose proof (dir_is_bpb _ _ _ _ _ Hv) as Eb.
  pose proof (init_at_pos v Hlv _ bl Hd 0 no_diri ltac:(rewrite Eb; lia)) as Hinit.
  destruct (dirent_ptr_some v Hlv _ bl Hd 0) as (p & Hp & _); [rewrite Eb; lia|].
  destruct (diri_init v (cluster dummy) 0 no_diri) as [q d]. destruct Hinit as [-> Hat]. rewrite Hp.
  change (Z.to_nat (3 - 0)) with 3%nat.
  destruct (new_dirent 0 d ltac:(lia) Hat) as (d1 & i1 & E1 & Hat1).
  destruct (new_dirent 1 d1 ltac:(lia) Hat1) as (d2 & i2 & E2 & Hat2).
  destruct (new_dirent 2 d2 ltac:(lia) Hat2) as (d3 & E3).
  cbn [check_empty_from]. rewrite E1. change (B_OK <? 0) with false. cbv iota.
  rewrite (at_pos_current v _ _ _ _ Hat1). cbn -[u32 _next_dirent_]. rewrite E2. change (B_OK <? 0) with false. cbv iota.
  rewrite (at_pos_current v _ _ _ _ Hat2). cbn -[u32 _next_dirent_]. rewrite E3. reflexivity.
Qed.
End Empty.

