(* ===== verification/MkdirSpec.v ===== *)
(** Making a directory ([dosfs_mkdir], file.c): the allocation, the entry in
    the parent and the new directory, composed; and what a failure leaves. *)
From Stdlib Require Import String Ascii.
From stdpp Require Import base gmap list relations.
From Stdlib Require Import ZArith Lia.
From S2P Require Import Prelude Errors Volume Fat FatEntry FatIoctl FatTable FatChain FatAlloc Sample FatSpec Vcache Dlist Util Attr Iter Stream StreamSpec Dirent EntrySpec Resize ResizeSpec Dir DirScan LongName DirCreate Encodings EncodingsSpec NameLaws DirSpec CreateSpec VnodeId Dosfs MountSpec FileMap File Hooks Lookups Consistency FileSpec Frame NewDir.

Implicit Types vol v : nspace.
Implicit Types w : world.

(** ** Volumes that agree on what is in use *)

(** Whether block [s] belongs to the data or to the fixed root directory. *)
Definition file_block vol (s : Z) : Prop :=
  reserved_sectors vol + fat_count vol * sectors_per_fat vol <= s.

Record keeps_used vol v : Prop := {
  ku_layout : layout_ok v;
  ku_bpb : ns_bpb v = ns_bpb vol;
  ku_entry : forall x, data_cluster vol x -> entry vol x <> 0 -> entry v x = entry vol x;
  ku_cache : forall s, file_block vol s -> fBlockCache v !! s = fBlockCache vol !! s
}.

Lemma file_block_out vol s : file_block vol s -> ~ in_fats vol s.
Proof. unfold file_block, in_fats. lia. Qed.

Lemma stream_file_block vol start bl s : layout_ok vol -> stream vol start bl -> s ∈ bl -> file_block vol s.
Proof.
  intros Hlo Hs Hin. unfold file_block. pose proof (lo_data _ Hlo). pose proof (lo_spc _ Hlo).
  destruct Hs as [Hb ->|l e Ht Hl].
  - apply elem_of_seqZ in Hin. destruct (lo_root _ Hlo) as [|[Hr _]]; [done|]. lia.
  - apply block_in_chain in Hin as (x & Hx & Hs). apply elem_of_seqZ in Hs.
    pose proof (chain_data _ _ _ _ (proj1 Ht)) as Hd. rewrite Forall_forall in Hd. specialize (Hd x Hx).
    unfold data_cluster in Hd. nia.
Qed.

Lemma cluster_file_block vol x s : layout_ok vol -> data_cluster vol x -> s ∈ cluster_blocks vol x -> file_block vol s.
Proof.
  intros Hlo Hx Hs%elem_of_seqZ. unfold file_block. pose proof (lo_data _ Hlo). unfold data_cluster in Hx. nia.
Qed.

Lemma dirent_ext vol v bl i k :
  ns_bpb v = ns_bpb vol -> (forall s, s ∈ bl -> fBlockCache v !! s = fBlockCache vol !! s) ->
  dirent v bl i k = dirent vol bl i k.
Proof.
  intros Eb Hc. unfold dirent, dirent_ptr. rewrite Eb. destruct (bl !! _) as [s|] eqn:Es; [|done].
  cbn [mbind option_bind]. unfold ent_get, peek, block_data. cbn [p_block]. rewrite Hc; [done|]. by eapply list_elem_of_lookup_2.
Qed.

(** A directory whose blocks agree, and whose chain still is there. *)
Lemma directory_ext vol v start bl :
  ns_bpb v = ns_bpb vol -> stream v start bl -> (forall s, s ∈ bl -> fBlockCache v !! s = fBlockCache vol !! s) ->
  directory vol start bl -> directory v start bl.
Proof.
  intros Eb Hs Hc [H1 H2 H3 H4 H5]. split; [done| |done|by rewrite Eb|by rewrite Eb].
  rewrite Forall_forall in H2 |- *. intros s Hin. destruct (H2 s Hin) as (b & Hb & Hok). exists b.
  rewrite Hc, Eb by done. done.
Qed.

Lemma keeps_directory vol v dir bl :
  layout_ok vol -> keeps_used vol v -> directory vol (cluster dir) bl -> dir_node vol dir bl ->
  directory v (cluster dir) bl /\ dir_node v dir bl /\ forall i k, dirent v bl i k = dirent vol bl i k.
Proof.
  intros Hlo [Hlv Eb He Hc] Hd Hn.
  assert (Hbl : forall s, s ∈ bl -> fBlockCache v !! s = fBlockCache vol !! s).
  { intros s Hs. apply Hc. eapply stream_file_block; [done|apply Hd|done]. }
  assert (Hnv : dir_node v dir bl /\ stream v (cluster dir) bl).
  { destruct Hn as [Hb E|l Hl Hch].
    - rewrite <-!Eb. split; [constructor; [by rewrite Eb|done]|]. apply stream_root; by rewrite ?Eb.
    - assert (Hch' : node_chain v dir l).
      { apply (node_chain_ext vol); [done|apply Hlv| |done]. intros x Hx.
        apply He; [by eapply node_chain_data|]. eapply node_chain_in_use; [apply Hlo|done|done]. }
      rewrite <-Eb. split; [by constructor|]. destruct Hch' as [|l Hl' Ht _]; [done|]. by eapply stream_chain. }
  split_and!; [by apply (directory_ext vol); [|apply Hnv| |]|apply Hnv|]. intros i k. by apply dirent_ext.
Qed.

Lemma elsewhere_trans vol bl v0 v bl' :
  layout_ok vol -> keeps_used vol v0 -> elsewhere_kept v0 bl v bl' -> elsewhere_kept vol bl v bl'.
Proof.
  intros Hlo [_ Eb He Hc] Hk x Hx Hex Hap. destruct (Hk x) as [E1 H1].
  - unfold data_cluster in *. by rewrite Eb.
  - by rewrite He.
  - intros s. rewrite Eb. apply Hap.
  - rewrite E1, He by done. split; [done|]. intros s Hs. rewrite Eb in H1. destruct (H1 s Hs) as [Hn E]. split; [done|].
    rewrite E. by apply Hc, (cluster_file_block vol x).
Qed.

(** The preconditions of [_create_dir_entry_] for the parent directory. *)
Record parent_ok vol (dir : vnode) (bl : list Z) : Prop := {
  pa_layout : layout_ok vol;
  pa_dir : directory vol (cluster dir) bl;
  pa_node : dir_node vol dir bl;
  pa_grow : can_grow vol;
  pa_size : st_size dir = 32 * dir_entries vol bl;
  pa_small : st_size dir < 2 ^ 30;
  pa_sane : forall t, 0 <= t < dir_entries vol bl -> lfn_sane vol bl t
}.

Lemma kind_ext vol v bl i : (forall k, dirent v bl i k = dirent vol bl i k) -> kind v bl i = kind vol bl i.
Proof. intros H. unfold kind. by rewrite !H. Qed.

Lemma parts_ext vol v bl s j : (forall i k, dirent v bl i k = dirent vol bl i k) -> parts v bl s j = parts vol bl s j.
Proof.
  intros Hb. unfold parts. apply list_filter_iff. intros t. unfold plain_part. by rewrite (kind_ext vol v), !Hb by done.
Qed.

Lemma long_name_ext vol v bl s j hash text :
  (forall i k, dirent v bl i k = dirent vol bl i k) -> long_name v bl s j hash text -> long_name vol bl s j hash text.
Proof.
  intros Hb (rest & [N1 N2 N3 N4 N5 N6] & ->).
  assert (Hc : forall t, part_chars v bl t = part_chars vol bl t).
  { intros t. unfold part_chars. apply map_ext. intros o. by rewrite !Hb. }
  exists rest. split; [split|].
  - by rewrite <-(parts_ext vol v).
  - intros x Hx. rewrite <-(kind_ext vol v) by done. by apply N2.
  - by rewrite <-Hb.
  - intros k x Hx. rewrite <-Hb. by apply N4.
  - eapply Forall_impl; [exact N5|]. intros x. simpl. by rewrite Hb.
  - eapply Forall_impl; [exact N6|]. intros x. simpl. by rewrite Hc.
  - unfold text_of. rewrite Hc. do 2 f_equal. f_equal. f_equal. apply map_ext. exact Hc.
Qed.

Lemma named_ext `{Encodings} vol v bl i j len s name :
  (forall i k, dirent v bl i k = dirent vol bl i k) -> named v bl i j len s name -> named vol bl i j len s name.
Proof.
  intros Hb. assert (Eh : short_hash v bl j = short_hash vol bl j).
  { unfold short_hash. f_equal. apply map_ext. intros k. apply Hb. }
  intros [t text u Hr Hn Hl Hu|Hn].
  - apply (named_long _ _ _ _ _ _ text); [done|done|rewrite <-Eh; by apply (long_name_ext vol v)|done].
  - replace (short_name_of v bl j len) with (short_name_of vol bl j len).
    2: { unfold short_name_of. rewrite Hb. f_equal. apply map_ext. intros k. symmetry. apply Hb. }
    constructor. intros t text Hr Hne Hf Hl. apply (Hn t text Hr Hne).
    + unfold fresh. by rewrite (kind_ext vol v).
    + rewrite Eh. apply (long_name_ext v vol); [by intros; rewrite Hb|done].
Qed.

Lemma gap_ext `{Encodings} vol v bl required i ns last :
  ns_bpb v = ns_bpb vol -> (forall i k, dirent v bl i k = dirent vol bl i k) ->
  gap v bl required i ns last -> gap vol bl required i ns last.
Proof.
  intros Eb Hb. assert (Hk : forall i, kind v bl i = kind vol bl i) by (intros; by apply kind_ext).
  assert (Hs : forall i j, stops_at v bl i j -> stops_at vol bl i j).
  { intros t j. unfold stops_at. rewrite Eb, Hk. intros (H1 & H2 & H3). split; [done|]. split; [|done]. intros x. rewrite <-Hk. apply H2. }
  induction 1 as [i j s name Hst Hkj Hj Hn Hr|i j s name ns last Hst Hkj Hj Hn Hr _ IH|i j Hst Hj].
  - apply (gap_inside _ _ _ _ j s name); [by apply Hs|by rewrite <-Hk|by rewrite <-Eb|by apply (named_ext vol v)|done].
  - apply (gap_later _ _ _ _ j s name); [by apply Hs|by rewrite <-Hk|by rewrite <-Eb|by apply (named_ext vol v)|done|done].
  - apply (gap_end _ _ _ _ j); [by apply Hs|]. by rewrite <-Eb, <-Hk.
Qed.

Lemma keeps_parent vol v dir bl :
  parent_ok vol dir bl -> keeps_used vol v -> can_grow v -> parent_ok v dir bl.
Proof.
  intros [Hlo Hd Hn Hg Hs Hsm Hsane] Hk Hgv.
  destruct (keeps_directory vol v dir bl Hlo Hk Hd Hn) as (Hdv & Hnv & Hb). pose proof (ku_bpb _ _ Hk) as Eb.
  split; try done; [apply Hk|by rewrite Eb|]. intros t Ht. rewrite Eb in Ht. unfold lfn_sane.
  rewrite (kind_ext vol v) by done. rewrite Hb. by apply Hsane.
Qed.

(** [created] from a volume where less was in use. *)
Lemma created_before `{Encodings, Clock} vol v0 dir bl nshort nlong info len ns ne v dir' bl' :
  layout_ok vol -> directory vol (cluster dir) bl -> dir_node vol dir bl -> keeps_used vol v0 ->
  created v0 dir bl nshort nlong info len ns ne v dir' bl' ->
  created vol dir bl nshort nlong info len ns ne v dir' bl'.
Proof.
  intros Hlo Hd Hn Hk [H1 H2 H3 H4 H5 H6 (last & f & Hgap & Hf & Hb) H8].
  destruct (keeps_directory vol v0 dir bl Hlo Hk Hd Hn) as (_ & _ & Hbytes). pose proof (ku_bpb _ _ Hk) as Eb.
  rewrite Eb in *. split; try done.
  - exists last, f. split; [by apply (gap_ext vol v0)|]. split; [|done]. intros j k Hj Hkk. rewrite Hf by done. apply Hbytes.
  - by eapply elsewhere_trans.
Qed.

(** [created] is kept by changes to other blocks. *)
Lemma created_after `{Encodings, Clock} vol dir bl nshort nlong info len ns ne v dir' bl' z (others : list Z) :
  layout_ok vol ->
  created vol dir bl nshort nlong info len ns ne v dir' bl' -> layout_ok z -> same_table v z ->
  (forall s, file_block v s -> s ∉ others -> fBlockCache z !! s = fBlockCache v !! s) ->
  (forall s, s ∈ bl' -> s ∉ others) ->
  (forall x s, data_cluster vol x -> entry vol x <> 0 -> s ∈ cluster_blocks vol x -> s ∉ others) ->
  created vol dir bl nshort nlong info len ns ne z dir' bl'.
Proof.
  intros Hlo [H1 H2 H3 H4 H5 H6 (last & f & Hgap & Hf & Hb) H8] Hlz Hst Hc Hbl Hoth.
  pose proof Hst as [Eb He].
  assert (Hbz : forall s, s ∈ bl' -> fBlockCache z !! s = fBlockCache v !! s).
  { intros s Hs. apply Hc; [|by apply Hbl]. eapply stream_file_block; [exact H2|apply H3|done]. }
  split; try done; [|by rewrite Eb| |].
  - apply (directory_ext v); [done| |done|done]. eapply stream_same; [exact Hst|apply H3].
  - exists last, f. split; [done|]. split; [done|]. intros j k Hj Hk. rewrite (dirent_ext v) by done. by apply Hb.
  - intros x Hx Hex Hap. destruct (H8 x Hx Hex Hap) as [E1 H9]. split.
    + rewrite He by (unfold data_cluster in *; by rewrite H4). done.
    + intros s Hs. destruct (H9 s Hs) as [Hn E]. split; [done|]. rewrite <-E. apply Hc; [|by eapply Hoth].
      unfold file_block. rewrite H4. by apply (cluster_file_block vol x).
Qed.

(** ** Allocating a cluster *)

Lemma fat_is_keeps vol f v :
  layout_ok vol -> fat_is vol f v -> (forall x, data_cluster vol x -> entry vol x <> 0 -> f x = entry vol x) ->
  keeps_used vol v.
Proof.
  intros Hlo Hv Hf. split.
  - apply (layout_frame vol); [apply Hv|apply Hv|done].
  - apply (fat_is_bpb _ _ _ Hv).
  - intros x Hx Hex. rewrite (fi_entry _ _ _ Hv) by done. by apply Hf.
  - intros s Hs. apply frame_cache; [apply Hv|by apply file_block_out].
Qed.

(** One cluster out of the free ones. *)
Lemma allocate_one vol :
  layout_ok vol -> can_grow vol -> 0 < free_clusters vol ->
  exists c v, allocate_n_fat_entries vol 1 = (B_OK, c, v) /\ data_cluster vol c /\ entry vol c = 0 /\
    keeps_used vol v /\ terminated v c [c] END_FAT_ENTRY /\
    (forall x, data_cluster vol x -> x <> c -> entry v x = entry vol x) /\
    free_clusters v = free_clusters vol - 1 /\ can_grow v /\ fat_frame vol v.
Proof.
  intros Hlo [Hh Hn Hr] Hfree.
  destruct (alloc_facts vol Hlo Hh Hn 1 ltac:(lia)) as (v & new & E & Hl & _ & Hnew & Hv & Ht & Hf & Hla).
  destruct new as [|c [|]]; [done| |simpl in Hl; lia]. simpl in *. exists c, v.
  apply Forall_singleton in Hnew as [Hc Hz].
  pose proof (fat_is_bpb _ _ _ Hv) as Eb.
  assert (Hoth : forall x, data_cluster vol x -> x <> c -> entry v x = entry vol x).
  { intros x Hx Hne. rewrite (fi_entry _ _ _ Hv) by done. unfold fat_upd. by rewrite (proj2 (Z.eqb_neq _ _)). }
  assert (Hcu : entry v c <> 0) by (eapply chain_in_use; [apply Hv|exact Ht|set_solver]).
  split_and!; try done.
  - apply (fat_is_keeps vol _ v Hlo Hv). intros x Hx Hex. rewrite <-(fi_entry _ _ _ Hv) by done.
    apply Hoth; [done|]. by intros ->.
  - split.
    + injection Hla as ->. unfold data_cluster in *. by rewrite Eb.
    + rewrite Hf, Hn, Eb, (count_zero_moved (entry vol) (entry v) 2 _ [c] []).
      * simpl. lia.
      * apply NoDup_singleton.
      * constructor.
      * intros x ->%list_elem_of_singleton. unfold data_cluster in Hc. split_and!; try done; lia.
      * intros x Hx%not_elem_of_nil. done.
      * intros x Hx Hne%not_elem_of_cons _. rewrite Hoth; [done|unfold data_cluster; lia|tauto].
    + intros x Hx. unfold data_cluster in Hx. rewrite Eb in Hx |- *. specialize (Hr x Hx).
      rewrite Forall_forall in Hr |- *. intros s Hs. apply (frame_block vol); [apply Hv| |by apply Hr].
      by apply file_block_out, (cluster_file_block vol x).
  - apply Hv.
Qed.

(** ** Steps that change no table *)

(** Nothing but the caches and the table sectors may differ, and the entries do
    not. *)
Record same_files vol v : Prop := {
  sf_layout : layout_ok v;
  sf_table : same_table vol v;
  sf_free : free_clusters v = free_clusters vol;
  sf_cache : forall s, file_block vol s -> fBlockCache v !! s = fBlockCache vol !! s
}.

#[export] Instance same_files_trans : Transitive same_files.
Proof.
  intros a b c [H1 H2 H3 H4] [K1 K2 K3 K4]. split; [done|by transitivity b|congruence|].
  intros s Hs. rewrite K4; [by apply H4|]. destruct H2 as [Eb _]. unfold file_block in *. by rewrite Eb.
Qed.

Lemma same_files_refl vol : layout_ok vol -> same_files vol vol.
Proof. by split. Qed.

Lemma same_files_keeps vol v : same_files vol v -> keeps_used vol v.
Proof. intros [H1 [H2 H2'] H3 H4]. split; try done. intros x Hx _. by apply H2'. Qed.

Lemma volume_same_files vol v : layout_ok vol -> same_volume vol v -> same_files vol v.
Proof.
  intros Hlo E. unfold same_volume, on_disk in E. injection E as Eb Ec Ef _ _ _ _ _. split.
  - by apply (layout_same_disk vol).
  - split; [done|]. intros c Hc. unfold entry, fat_byte, fat_start, peek, block_data. by rewrite Eb, Ec.
  - done.
  - intros s _. by rewrite Ec.
Qed.

Lemma caches_same_files vol v : layout_ok vol -> only_caches vol v -> same_files vol v.
Proof. intros Hlo E. by apply volume_same_files, only_caches_volume. Qed.

Lemma volume_can_grow vol v : same_volume vol v -> can_grow vol -> can_grow v.
Proof.
  intros E [H1 H2 H3]. unfold same_volume, on_disk in E. injection E as Eb Ec Ef El _ _ _ _.
  assert (Ee : entry v = entry vol) by (unfold entry, fat_byte, fat_start, peek, block_data; by rewrite Eb, Ec).
  split; [by rewrite El, Eb|by rewrite Ef, Eb, Ee|]. intros c. rewrite Eb. intros Hc. specialize (H3 c Hc).
  eapply Forall_impl; [exact H3|]. intros s (b & Hb & Hok). exists b. by rewrite Ec, Eb.
Qed.

Lemma caches_can_grow vol v : only_caches vol v -> can_grow vol -> can_grow v.
Proof. intros E. by apply volume_can_grow, only_caches_volume. Qed.

Lemma keeps_trans a b c : keeps_used a b -> keeps_used b c -> keeps_used a c.
Proof.
  intros [H1 H2 H3 H4] [K1 K2 K3 K4]. split; [done|congruence| |].
  - intros x Hx Hex. assert (Hxb : data_cluster b x) by (unfold data_cluster in *; by rewrite H2).
    rewrite K3, H3; try done. by rewrite H3.
  - intros s Hs. rewrite K4; [by apply H4|]. unfold file_block in *. by rewrite H2.
Qed.

(** ** The directory entry of a name *)

Section Names.
Context `{LawfulEncodings, Clock, Timer}.

Lemma choose_short_name_ok vol dir name nshort enc e n :
  short_bytes nshort -> choose_short_name vol dir name nshort enc = (e, n) -> e <> B_OK /\ short_bytes n.
Proof using All.
  intros Hs. unfold choose_short_name. set (e0 := if requires_munged_short_name _ _ _ then _ else _).
  destruct (Z.eqb_spec e0 B_OK) as [E0|E0]; cbn [negb]; [|by intros [= <- <-]].
  pose proof (z_loop_inv (munge1_step vol dir nshort enc) (fun _ _ => True)
    (fun '(n, e) => e <> B_OK /\ short_bytes n) 9 (nshort, 1, e0) ltac:(lia) I) as L1.
  destruct (z_loop _ 9 _) as [s|[n1 e1]].
  2: { intros [= <- <-]. apply L1. intros i [[t it] e1'] _ _. unfold munge1_step.
       destruct (Z.eqb_spec (find_short_name vol dir (munge_short_name1 nshort it enc)) B_OK); [done|].
       split; [done|]. by apply munge1_bytes. }
  pose proof (z_loop_inv (munge2_step vol dir nshort enc) (fun _ _ => True)
    (fun '(n, e) => e <> B_OK /\ short_bytes n) scan_bound 0 ltac:(done) I) as L2.
  destruct (z_loop _ scan_bound _) as [s2|[n2 e2]]; intros [= <- <-]; [done|].
  apply L2. intros i k _ _. unfold munge2_step.
  destruct (Z.eqb_spec (find_short_name vol dir (munge_short_name2 (system_time k) nshort enc)) B_OK); [done|].
  split; [done|]. by apply munge2_bytes.
Qed.

(** The names [create_dir_entry] passes on, and what it does with them. *)
Lemma names_of vol dir bl node name r v dir' ns ne :
  parent_ok vol dir bl -> Forall is_byte name -> fst (utf8_to_unicode name 512) <= 495 ->
  create_dir_entry vol dir node name = Some (r, v, dir', ns, ne) ->
  (r <> B_OK /\ dir' = dir /\ only_caches vol v) \/
  exists v0 nshort nlong len, only_caches vol v0 /\ short_bytes nshort /\ Forall is_byte nlong /\
    length nlong = 512%nat /\ 0 <= len <= 495 /\
    _create_dir_entry_ v0 dir (EntryInfo (mode node) (cluster node) (u32 (st_size node)) (st_time node))
      nshort nlong len = Some (r, v, dir', ns, ne).
Proof using All.
  intros Hp Hname Hlen. unfold create_dir_entry. destruct (is_filename_legal name); cbn [negb].
  2: { intros [= <- <- <- <- <-]. by left. }
  destruct (findfile_nocase vol dir name) as [[[[e0 v0] f0] d0]|] eqn:Ef; [|done]. apply findfile_caches in Ef.
  destruct (Z.eqb_spec e0 B_OK); [intros [= <- <- <- <- <-]; by left|].
  destruct (Z.eqb_spec e0 ENOENT); cbn [negb]; [|intros [= <- <- <- <- <-]; by left].
  destruct (utf8_to_unicode name 512) as [len uni] eqn:Eu. cbn [fst] in Hlen.
  destruct (Z.leb_spec len 0) as [Hle|Hpos].
  { intros [= <- <- <- <- <-]. left. split; [|done]. destruct (Z.eqb_spec len 0); done. }
  destruct (unicode_bytes name len uni Hname Eu Hpos) as (Hub & Hul & _).
  rewrite take_ge by lia. destruct (generate_short_name name uni) as [[e1 n1] enc] eqn:Eg.
  destruct (Z.eqb_spec e1 0) as [->|Hne]; cbn [negb]; [|intros [= <- <- <- <- <-]; by left].
  pose proof (short_name_bytes _ _ _ _ Hname Hub Eg) as Hn1. set (nlong := uni ++ _).
  assert (Hnl : Forall is_byte nlong /\ length nlong = 512%nat).
  { split; [|unfold nlong; rewrite length_app, repeat_length; lia]. apply Forall_app. split; [done|].
    apply Forall_forall. intros x ->%list_elem_of_In%repeat_spec. unfold is_byte. lia. }
  destruct (requires_long_name name nlong).
  - destruct (choose_short_name v0 dir name n1 enc) as [e2 n2] eqn:Ech.
    apply choose_short_name_ok in Ech as [He2 Hn2]; [|done].
    destruct (Z.eqb_spec e2 ENOENT); cbn [negb]; [|intros [= <- <- <- <- <-]; by left].
    intros E. right. exists v0, n2, nlong, len. destruct Hnl. split_and!; try done; lia.
  - change (negb (ENOENT =? ENOENT)) with false. cbv iota.
    intros E. right. exists v0, n1, nlong, 0. destruct Hnl. split_and!; try done; lia.
Qed.

(** What has become of the volume when no entry could be made. *)
Lemma create_dir_entry_spec vol dir bl node name r v dir' ns ne :
  parent_ok vol dir bl -> Forall is_byte name -> fst (utf8_to_unicode name 512) <= 495 ->
  cluster node = 0 \/ data_cluster vol (cluster node) ->
  create_dir_entry vol dir node name = Some (r, v, dir', ns, ne) ->
  (r = B_OK /\ exists nshort nlong len bl', short_bytes nshort /\
     created vol dir bl nshort nlong (EntryInfo (mode node) (cluster node) (u32 (st_size node)) (st_time node))
       len ns ne v dir' bl') \/
  (r <> B_OK /\ dir' = dir /\ same_files vol v).
Proof using All.
  intros Hp Hname Hlen Hc E. pose proof (pa_layout _ _ _ Hp) as Hlo.
  destruct (names_of vol dir bl node name r v dir' ns ne Hp Hname Hlen E)
    as [(Hr & Hd & Hv)|(v0 & nshort & nlong & len & Hv0 & Hs & Hnb & Hnl & Hl & E')].
  { right. split; [done|]. split; [done|]. by apply caches_same_files. }
  pose proof (caches_same_files vol v0 Hlo Hv0) as Hf0. pose proof (same_files_keeps _ _ Hf0) as Hk0.
  pose proof (keeps_parent vol v0 dir bl Hp Hk0 (caches_can_grow _ _ Hv0 (pa_grow _ _ _ Hp))) as Hp0.
  set (info := EntryInfo _ _ _ _) in *.
  destruct (decide (take 8 nshort ∈ device_names)) as [Hdev|Hdev].
  { right. unfold _create_dir_entry_ in E'. rewrite bool_decide_eq_true_2 in E' by done. by injection E' as <- <- <- _ _. }
  destruct Hs as [Hsb Hsl]. destruct Hp0 as [P1 P2 P3 P4 P5 P6 P7].
  assert (Hreq : required_entries len <= 20) by (unfold required_entries; zlia).
  destruct (create_entry v0 P1 dir bl P2 P3 (fun _ => P4) P5 P6 P7 info nshort nlong len Hsb Hsl Hnb)
    as (r' & v' & d' & ns' & ne' & E'' & Hout); try lia; try done.
  { simpl. unfold data_cluster in *. by rewrite (ku_bpb _ _ Hk0). }
  rewrite E' in E''. injection E'' as <- <- <- <- <-.
  destruct Hout as [[-> (bl' & Hcr)]|[(-> & -> & -> & _)|(-> & -> & Hfr & Hst & Hlv & Hfc)]].
  - left. split; [done|]. exists nshort, nlong, len, bl'. split; [done|].
    destruct Hp. by apply (created_before vol v0).
  - right. by split_and!.
  - right. split_and!; try done. transitivity v0; [done|]. split; try done.
    intros s Hs. apply frame_cache; [done|]. by apply file_block_out.
Qed.
End Names.

(** ** Syncing and undoing *)

(** The FSInfo sector is a reserved one, as a mount checks. *)
Definition fsinfo_inside vol : Prop :=
  fat_bits vol = 32 -> fsinfo_sector vol <> 0xffff -> fsinfo_sector vol < reserved_sectors vol.

Lemma fsinfo_inside_apart vol : fsinfo_inside vol -> fsinfo_apart vol.
Proof. intros H E32 E. specialize (H E32 E). unfold in_fats. lia. Qed.

Lemma ent_set32_cache p k x vol s : s <> p_block p -> fBlockCache (ent_set32 p k x vol) !! s = fBlockCache vol !! s.
Proof.
  intros Hs. unfold ent_set32, ent_set16, ent_set, poke, block_update. cbn [fBlockCache set_fBlockCache].
  by rewrite !lookup_alter_ne by done.
Qed.

Lemma update_fsinfo_cache vol s :
  layout_ok vol -> fsinfo_inside vol -> file_block vol s -> fBlockCache (update_fsinfo vol) !! s = fBlockCache vol !! s.
Proof.
  intros Hlo Hi Hs. unfold update_fsinfo. destruct (Z.eqb_spec (fat_bits vol) 32) as [E32|]; [|done].
  destruct (Z.eqb_spec (fsinfo_sector vol) 0xffff) as [|E]; [done|]. cbn [negb andb]. specialize (Hi E32 E).
  destruct (negb _); [|done]. destruct (block_cache_get_writable vol (fsinfo_sector vol)) as [p|] eqn:Ep; [|done].
  destruct (fsinfo_valid vol _); [|done]. unfold block_cache_get_writable, block_cache_get in Ep.
  destruct (fBlockCache vol !! fsinfo_sector vol); [|done]. injection Ep as <-.
  assert (Hne : s <> fsinfo_sector vol).
  { unfold file_block in Hs. pose proof (geo_active _ (ok_geo _ (lo_fat _ Hlo))). pose proof (geo_spf _ (ok_geo _ (lo_fat _ Hlo))). nia. }
  by rewrite !ent_set32_cache by done.
Qed.

Lemma sync_same_files vol : layout_ok vol -> fsinfo_inside vol -> same_files vol (op_sync vol).
Proof.
  intros Hlo Hi. unfold op_sync. destruct (flag _ _); [|by apply same_files_refl].
  destruct (update_fsinfo_kept vol Hlo (fsinfo_inside_apart _ Hi)) as [[H1 H2 H3 H4] _]. cbn [snd _dosfs_sync].
  split; try done. intros s. by apply update_fsinfo_cache.
Qed.

Lemma dlist_remove_caches vol id r v : dlist_remove vol id = (r, v) -> only_caches vol v.
Proof.
  unfold dlist_remove. destruct (_ =? _); [by intros [= <- <-]|]. destruct (_ <? _); [|by intros [= <- <-]].
  unfold dlist_realloc. set (w := set_ns_dlist _ vol). destruct (malloc_ok w) as [ok u] eqn:E.
  apply malloc_caches in E. destruct ok; intros [= <- <-]; exact E.
Qed.

Lemma new_vnid_caches vol loc r v id : new_vnid vol loc = (r, v, id) -> only_caches vol v.
Proof.
  unfold new_vnid. destruct (_ =? _); [|by intros [= <- <- <-]].
  destruct (generate_unique_vnid vol) as [x v0] eqn:E0. destruct (add_to_vcache v0 x loc) as [r1 v1] eqn:E1.
  intros [= <- <- <-]. transitivity v0; eauto with volume.
Qed.

(** Giving a cluster back. *)
Lemma undo_one vol v1 v2 c :
  layout_ok vol -> 0 < free_clusters vol <= total_clusters vol -> data_cluster vol c -> entry vol c = 0 ->
  keeps_used vol v1 -> (forall x, data_cluster vol x -> x <> c -> entry v1 x = entry vol x) ->
  free_clusters v1 = free_clusters vol - 1 -> terminated v1 c [c] END_FAT_ENTRY -> same_files v1 v2 ->
  same_files vol (snd (clear_fat_chain v2 c)).
Proof.
  intros Hlo Hfree Hc Hz Hk Ho Hf Ht [Hlv Hst Hfv Hcv]. pose proof (ku_bpb _ _ Hk) as Eb. pose proof Hst as [Eb2 He2].
  destruct (clear_fat_chain_ok v2 c [c] END_FAT_ENTRY (lo_fat _ Hlv)) as (v & -> & Hv & Hfr & Hla); [by eapply terminated_same|done|].
  cbn [snd length]. pose proof (fat_is_bpb _ _ _ Hv) as Eb3. pose proof (total_small vol Hlo). split.
  - apply (layout_frame v2); [apply Hv|apply Hv|done].
  - split; [congruence|]. intros x Hx. rewrite (fi_entry _ _ _ Hv) by (unfold data_cluster in *; by rewrite Eb2, Eb).
    unfold freed. destruct (decide (x ∈ [c])) as [->%list_elem_of_singleton|Hn]; [done|].
    rewrite He2 by (unfold data_cluster in *; by rewrite Eb). apply Ho; [done|]. set_solver.
  - rewrite Hfr, Hfv, Hf. rewrite u32_small; simpl; lia.
  - intros s Hs. pose proof (file_block_out _ _ Hs) as Hn. rewrite (frame_cache v2 v); [|apply Hv|].
    + rewrite Hcv; [by apply Hk|]. unfold file_block in *. by rewrite Eb.
    + unfold in_fats in *. by rewrite Eb2, Eb.
Qed.

(** ** The whole function *)

(** The blocks of a free cluster are not those of a directory. *)
Lemma free_cluster_apart vol dir bl c s :
  layout_ok vol -> dir_node vol dir bl -> data_cluster vol c -> entry vol c = 0 -> s ∈ cluster_blocks vol c -> s ∉ bl.
Proof.
  intros Hlo Hn Hc Hz Hs Hin. destruct Hn as [Hb _|l Hl Hch].
  - apply elem_of_seqZ in Hs, Hin. destruct (lo_root _ Hlo) as [|[_ Hr]]; [done|]. pose proof (lo_spc _ Hlo).
    unfold data_cluster in Hc. nia.
  - apply block_in_chain in Hin as (x & Hx & Hsx). pose proof (cluster_blocks_apart vol c x s Hlo Hs Hsx) as <-.
    by apply (node_chain_in_use vol dir l c (ok_geo _ (lo_fat _ Hlo)) Hch Hx).
Qed.

(** What a new directory at cluster [c] is: an entry in its parent, a chain of
    one cluster, and two entries there. *)
Record made `{Encodings, Clock} vol (dir : vnode) (bl : list Z) (c : Z) (dummy : vnode) v (dir' : vnode) : Prop := {
  md_entry : exists nshort nlong len ns ne bl', short_bytes nshort /\
    created vol dir bl nshort nlong (EntryInfo (mode dummy) c (u32 (st_size dummy)) (st_time dummy))
      len ns ne v dir' bl';
  md_chain : terminated v c [c] END_FAT_ENTRY;
  md_new : dir_is v c (chain_blocks v [c]) (new_entries v dir' dummy) v
}.

(** A change that keeps files and root id keeps it. *)
Lemma dir_is_self v start bl f : layout_ok v -> directory v start bl ->
  (forall i k, 0 <= i -> 0 <= k < 32 -> dirent v bl i k = f i k) -> dir_is v start bl f v.
Proof. intros Hlo Hd Hf. eapply dir_is_ext; [exact Hf|]. by apply dir_is_refl. Qed.

Lemma dir_is_same_files vol v z start bl f :
  dir_is vol start bl f v -> same_files v z -> dir_is z start bl f z.
Proof.
  intros [H1 H2 H3 H4 _] [Hlz Hst _ Hc]. pose proof Hst as [Eb _].
  assert (Hbl : forall s, s ∈ bl -> fBlockCache z !! s = fBlockCache v !! s).
  { intros s Hs. apply Hc. eapply stream_file_block; [exact H1|apply H2|done]. }
  apply dir_is_self; [done| |].
  - apply (directory_ext v); [done| |done|done]. eapply stream_same; [exact Hst|apply H2].
  - intros i k Hi Hk. rewrite (dirent_ext v) by done. by apply H4.
Qed.

Section Mkdir.
Context `{LawfulEncodings, Clock, Timer} vol (dir : vnode) (bl : list Z) (Hp : parent_ok vol dir bl).
Context (Hfs : fsinfo_inside vol) (c : Z) (Hc : data_cluster vol c) (Hz : entry vol c = 0).
Context v1 (Hk1 : keeps_used vol v1) (Ht1 : terminated v1 c [c] END_FAT_ENTRY).
Context (Ho1 : forall x, data_cluster vol x -> x <> c -> entry v1 x = entry vol x).
Context (Hf1 : free_clusters v1 = free_clusters vol - 1) (Hg1 : can_grow v1).
Context (dummy : vnode) (Hdc : cluster dummy = c).

Let Hlo := pa_layout _ _ _ Hp.

Lemma undo_bi2 v2 node : cluster node = c -> same_files v1 v2 -> same_files vol (mkdir_bi2 v2 node).
Proof using Hp Hfs Hc Hz Hk1 Ht1 Ho1 Hf1.
  intros Hnc S2. pose proof (pa_grow _ _ _ Hp) as Hg. unfold mkdir_bi2. rewrite Hnc.
  assert (Hfree : 0 < free_clusters vol <= total_clusters vol).
  { pose proof (free_range vol Hlo (cg_count _ Hg)). rewrite (cg_count _ Hg).
    assert (Hpos : 0 < count_zero (entry vol) 2 (total_clusters vol)); [|pose proof (cg_count _ Hg); lia].
    unfold count_zero. apply (Nat2Z.inj_lt 0), Nat.neq_0_lt_0. intros E%length_zero_iff_nil.
    assert (Hin : c ∈ filter (fun x => entry vol x = 0) (seqZ 2 (total_clusters vol))).
    { apply list_elem_of_filter. split; [done|]. apply elem_of_seqZ. unfold data_cluster in Hc. lia. }
    rewrite E in Hin. by apply not_elem_of_nil in Hin. }
  pose proof (undo_one vol v1 v2 c Hlo Hfree Hc Hz Hk1 Ho1 Hf1 Ht1 S2) as S3.
  etransitivity; [exact S3|]. apply sync_same_files; [apply S3|].
  unfold fsinfo_inside. destruct (sf_table _ _ S3) as [-> _]. exact Hfs.
Qed.

Lemma undo_bi3 v2 node : cluster node = c -> same_files v1 v2 -> same_files vol (mkdir_bi3 v2 node).
Proof using Hp Hfs Hc Hz Hk1 Ht1 Ho1 Hf1.
  intros Hnc S2. unfold mkdir_bi3. apply undo_bi2; [done|]. destruct (IS_ARTIFICIAL_VNID _); [|done].
  destruct (remove_from_vcache v2 _) as [r v3] eqn:E. apply remove_from_vcache_caches in E.
  transitivity v2; [done|]. apply caches_same_files; [apply S2|done].
Qed.

Lemma undo_bi4 v2 node : cluster node = c -> same_files v1 v2 -> same_files vol (mkdir_bi4 v2 node).
Proof using Hp Hfs Hc Hz Hk1 Ht1 Ho1 Hf1.
  intros Hnc S2. unfold mkdir_bi4. apply undo_bi3; [done|]. destruct (dlist_remove v2 _) as [r v3] eqn:E.
  apply dlist_remove_caches in E. transitivity v2; [done|]. apply caches_same_files; [apply S2|done].
Qed.

(** The entry has been made; the sectors of the directory remain to be
    written. *)
Lemma finish_made v4 nshort nlong len ns ne v5 dir' bl' :
  same_files v1 v4 -> short_bytes nshort ->
  created v4 dir bl nshort nlong (EntryInfo (mode dummy) c (u32 (st_size dummy)) (st_time dummy)) len ns ne v5 dir' bl' ->
  fixed v5 = fixed v4 ->
  exists v6, write_directory v5 dir' dummy = Some v6 /\ made vol dir bl c dummy (op_sync v6) dir' /\
    root_vnode (op_sync v6) = root_vnode v5.
Proof using All.
  intros H14 Hs Hcr Hfx. pose proof (same_files_keeps _ _ H14) as Hk14.
  pose proof (keeps_trans _ _ _ Hk1 Hk14) as Hk4. pose proof (ku_bpb _ _ Hk4) as Eb4.
  pose proof Hp as [_ Hd Hn Hg _ _ _].
  pose proof (created_before vol v4 dir bl nshort nlong _ len ns ne v5 dir' bl' Hlo Hd Hn Hk4 Hcr) as Hcr'.
  pose proof (cr_bpb _ _ _ _ _ _ _ _ _ _ _ _ Hcr') as Eb5. pose proof (cr_layout _ _ _ _ _ _ _ _ _ _ _ _ Hcr') as Hlo5.
  pose proof (terminated_same _ _ _ _ _ (sf_table _ _ H14) Ht1) as Ht4.
  assert (Hu4 : entry v4 c <> 0) by (eapply chain_in_use; [apply Hk4|exact Ht4|set_solver]).
  destruct (cr_kept _ _ _ _ _ _ _ _ _ _ _ _ Hcr c) as [Ee5 Hbl5].
  { unfold data_cluster in *. by rewrite Eb4. }
  { done. }
  { rewrite Eb4. intros s Hsc. by apply (free_cluster_apart vol dir bl c s Hlo Hn Hc Hz). }
  rewrite Eb4 in Hbl5.
  assert (Ht5 : terminated v5 c [c] END_FAT_ENTRY).
  { split; [|apply END_not_data, Hlo5]. apply (chain_bpb_ext v4); [congruence|by apply Forall_singleton|apply Ht4]. }
  assert (Hbc : chain_blocks v5 [c] = cluster_blocks vol c) by (rewrite Eb5; apply app_nil_r).
  assert (Hr5 : Forall (readable v5) (chain_blocks v5 [c])).
  { rewrite Hbc. pose proof (cg_read _ Hg c Hc) as Hr. rewrite Forall_forall in Hr |- *. intros s Hsc.
    destruct (Hr s Hsc) as (b & Hb & Hok). exists b. rewrite Eb5. split; [|done].
    destruct (Hbl5 s Hsc) as [_ ->]. rewrite (ku_cache _ _ Hk4); [done|]. by apply (cluster_file_block vol c). }
  rewrite <-Hdc in Ht5, Hr5. destruct (write_directory_makes v5 Hlo5 dir' dummy _ Ht5 Hr5) as (v6 & E6 & H6).
  rewrite Hdc in Ht5, Hr5, H6. exists v6. split; [exact E6|].
  assert (H67 : same_files v6 (op_sync v6)).
  { apply sync_same_files; [apply H6|]. unfold fsinfo_inside. by rewrite (dir_is_bpb _ _ _ _ _ H6), Eb5. }
  set (z := op_sync v6) in *. pose proof (op_sync_fixed v6) as Hfz. fold z in Hfz.
  destruct (dw_frame _ _ _ _ _ H6) as (cache & Ev6 & Hcache).
  assert (Eroot : root_vnode z = root_vnode v5).
  { unfold fixed in Hfz. assert (root_vnode z = root_vnode v6) as -> by congruence. by rewrite Ev6. }
  assert (Htab : same_table v5 z) by (transitivity v6; [apply H6|apply H67]). pose proof Htab as [Ebz _].
  split; [|done]. split.
  - exists nshort, nlong, len, ns, ne, bl'. split; [done|].
    apply (created_after vol dir bl nshort nlong _ len ns ne v5 dir' bl' z (chain_blocks v5 [c]) Hlo Hcr'
      (sf_layout _ _ H67) Htab).
    + intros s Hfb Hns. rewrite (sf_cache _ _ H67) by (unfold file_block in *; by rewrite (dir_is_bpb _ _ _ _ _ H6)).
      rewrite Ev6. simpl. by apply Hcache.
    + intros s Hsb Hsc. rewrite Hbc in Hsc. by destruct (Hbl5 s Hsc).
    + intros x s Hx Hex Hsx Hsc. rewrite Hbc in Hsc. apply Hex. by rewrite (cluster_blocks_apart vol x c s Hlo Hsx Hsc).
  - by eapply terminated_same.
  - rewrite Ebz. assert (En : new_entries z dir' dummy = new_entries v5 dir' dummy).
    { unfold new_entries, parent_cluster. by rewrite Ebz, Eroot. }
    rewrite En. by apply (dir_is_same_files v5 v6).
Qed.

Lemma mkdir_with_spec name r v dir' :
  Forall is_byte name -> fst (utf8_to_unicode name 512) <= 495 ->
  mkdir_with v1 dir name dummy = Some (r, v, dir') ->
  (r <> B_OK /\ dir' = dir /\ same_files vol v) \/
  (r = B_OK /\ made vol dir bl c dummy v dir' /\ vnid dir' = vnid dir /\ root_vnode v = root_vnode v1).
Proof using All.
  intros Hname Hlen. unfold mkdir_with.
  pose proof (ku_layout _ _ Hk1) as Hlo1. pose proof (same_files_refl _ Hlo1) as S1.
  assert (Undo : forall r bi, r <> B_OK -> same_files vol bi ->
    (r <> B_OK /\ dir = dir /\ same_files vol bi) \/
    (r = B_OK /\ made vol dir bl c dummy bi dir /\ vnid dir = vnid dir /\ root_vnode bi = root_vnode v1)) by (intros; by left).
  destruct (new_vnid v1 _) as [[r2 v2] id] eqn:E2. apply new_vnid_caches in E2.
  pose proof (caches_same_files _ _ Hlo1 E2) as S2. set (node := set_vnid id dummy).
  assert (Hnc : cluster node = c) by exact Hdc.
  destruct (Z.ltb_spec r2 0) as [Hneg|_].
  { intros [= <- <- <-]. apply Undo; [unfold B_OK; lia|]. by apply (undo_bi2 v2). }
  destruct (dlist_add v2 id) as [r3 v3] eqn:E3. apply dlist_add_caches in E3.
  assert (C3 : only_caches v1 v3) by (by transitivity v2). pose proof (caches_same_files _ _ Hlo1 C3) as S3.
  destruct (Z.ltb_spec r3 0) as [Hneg|_].
  { intros [= <- <- <-]. apply Undo; [unfold B_OK; lia|]. by apply (undo_bi3 v3). }
  destruct (malloc_ok v3) as [ok v4] eqn:E4. apply malloc_caches in E4.
  assert (C4 : only_caches v1 v4) by (by transitivity v3). pose proof (caches_same_files _ _ Hlo1 C4) as S4.
  destruct ok; cbn [negb]; [|intros [= <- <- <-]; apply Undo; [done|]; by apply (undo_bi4 v4)].
  pose proof (keeps_trans _ _ _ Hk1 (same_files_keeps _ _ S4)) as Hk4.
  pose proof (keeps_parent vol v4 dir bl Hp Hk4 (caches_can_grow _ _ C4 Hg1)) as Hp4.
  destruct (create_dir_entry v4 dir node name) as [[[[[r5 v5] d5] ns] ne]|] eqn:E5; [|done].
  pose proof (create_fixed v4 dir node name r5 v5 d5 ns ne E5) as [Hfx Hid].
  destruct (create_dir_entry_spec v4 dir bl node name r5 v5 d5 ns ne Hp4 Hname Hlen) as [[-> Hcr]|(Hr & -> & Hs)]; [|done| |].
  - right. rewrite Hnc. unfold data_cluster in *. by rewrite (ku_bpb _ _ Hk4).
  - destruct Hcr as (nshort & nlong & len & bl' & Hsb & Hcr). rewrite Hnc in Hcr. change (negb (B_OK =? B_OK)) with false. cbv iota.
    destruct (finish_made v4 nshort nlong len ns ne v5 d5 bl' S4 Hsb Hcr Hfx) as (v6 & E6 & Hm & Er).
    change (write_directory v5 d5 node) with (write_directory v5 d5 dummy). rewrite E6. intros [= <- <- <-].
    right. split; [done|]. split; [done|]. unfold ident, fixed in *. split; [congruence|].
    rewrite Er. pose proof (only_caches_root _ _ C4). congruence.
  - rewrite (proj2 (Z.eqb_neq r5 B_OK) Hr). cbn [negb]. intros [= <- <- <-]. apply Undo; [done|].
    apply (undo_bi4 v5); [done|]. by transitivity v4.
Qed.
End Mkdir.

Lemma made_same_files `{Encodings, Clock} vol dir bl c dummy v z dir' :
  layout_ok vol -> made vol dir bl c dummy v dir' -> same_files v z -> vnid (root_vnode z) = vnid (root_vnode v) ->
  made vol dir bl c dummy z dir'.
Proof.
  intros Hlo [(nshort & nlong & len & ns & ne & bl' & Hs & Hcr) Ht Hn] Hz Er.
  pose proof (sf_table _ _ Hz) as Hst. pose proof Hst as [Eb _]. split.
  - exists nshort, nlong, len, ns, ne, bl'. split; [done|].
    apply (created_after vol dir bl nshort nlong _ len ns ne v dir' bl' z [] Hlo Hcr (sf_layout _ _ Hz) Hst).
    + intros s Hf _. by apply (sf_cache _ _ Hz).
    + intros s _. apply not_elem_of_nil.
    + intros x s _ _ _. apply not_elem_of_nil.
  - by eapply terminated_same.
  - rewrite Eb. assert (En : new_entries z dir' dummy = new_entries v dir' dummy).
    { unfold new_entries, parent_cluster. by rewrite Eb, Er. }
    rewrite En. by apply (dir_is_same_files v v).
Qed.

(** Putting the node of a directory back. *)
Lemma put_node_spec n w :
  layout_ok (w_vol w) ->
  same_files (w_vol w) (w_vol (put_node n w)) /\ vnid (root_vnode (w_vol (put_node n w))) = vnid (root_vnode (w_vol w)) /\
  node_at (put_node n w) (vnid n) = Some n.
Proof.
  intros Hlo. unfold put_node. destruct (Z.eqb_spec (vnid n) (vnid (root_vnode (w_vol w)))) as [E|E].
  - split_and!; [|exact E|unfold node_at; simpl; by rewrite Z.eqb_refl]. destruct Hlo as [[G1 G2 G3] H2 H3 H4 H5 H6].
    split; [by split|by split|done|done].
  - split_and!; [by apply same_files_refl|done|]. unfold node_at. simpl. rewrite (proj2 (Z.eqb_neq _ _) E).
    apply lookup_insert_eq.
Qed.

Lemma one_cluster_entries v c : layout_ok v -> 3 <= dir_entries v (chain_blocks v [c]).
Proof.
  intros Hlo. pose proof (lo_spc _ Hlo). pose proof (geo_bps _ (ok_geo _ (lo_fat _ Hlo))).
  unfold dir_entries. rewrite chain_blocks_length by lia. unfold entries_per_sector. simpl length.
  assert (16 <= bytes_per_sector v / 32) by zlia. nia.
Qed.

(** C19: making a directory, with a name of at most 247 units.  A successful
    [dosfs_mkdir] takes one free cluster;
    the parent has a new entry for it with a short name of eleven bytes, in a
    gap or behind its last entry, and keeps all its other entries; the cluster
    is a chain of its own that holds the entries . and .., with the clusters
    of the directory and of its parent, and nothing else, so that the test of
    [dosfs_rmdir] finds it empty; every other file keeps its chain and its
    contents.  When the call fails, for whatever reason, the table, the free
    count and all files and directories are as they were. *)
Theorem dosfs_mkdir_makes `{SjisTablesOk, Clock, Timer} w dir bl name perms r w' :
  parent_ok (w_vol w) dir bl -> fsinfo_inside (w_vol w) ->
  Forall is_byte name -> fst (utf8_to_unicode name 512) <= 495 ->
  dosfs_mkdir w dir name perms = Some (r, w') ->
  (r = B_OK -> exists c dir',
     data_cluster (w_vol w) c /\ entry (w_vol w) c = 0 /\
     made (w_vol w) dir bl c (mkdir_node (w_vol w) dir c perms) (w_vol w') dir' /\
     node_at w' (vnid dir) = Some dir' /\
     forall node, cluster node = c -> vnid node <> vnid (root_vnode (w_vol w')) ->
       check_dir_empty (w_vol w') node = Some B_OK) /\
  (r <> B_OK -> same_files (w_vol w) (w_vol w')).
Proof.
  intros Hp Hfs Hname Hlen. pose proof (pa_layout _ _ _ Hp) as Hlo. pose proof (pa_grow _ _ _ Hp) as Hg.
  pose proof (same_files_refl _ Hlo) as Hsame. unfold dosfs_mkdir.
  destruct (flag (mode dir) FAT_SUBDIR); cbn [negb]; [|by intros [= <- <-]].
  destruct (flag (ns_flags (w_vol w)) _); [by intros [= <- <-]|].
  destruct (Z.lt_ge_cases 0 (free_clusters (w_vol w))) as [Hfree|Hfull].
  2: { pose proof (free_range _ Hlo (cg_count _ Hg)).
       destruct (alloc_fails _ Hlo (cg_hint _ Hg) (cg_count _ Hg) 1 ltac:(lia)) as (v & -> & Hst & Hf & _ & Hlv & Hfr).
       change (B_DEVICE_FULL <? 0) with true. cbv iota. intros [= <- <-]. split; [done|]. intros _. split; try done.
       intros s Hs. apply frame_cache; [exact Hfr|by apply file_block_out]. }
  destruct (allocate_one _ Hlo Hg Hfree) as (c & v1 & -> & Hc & Hz & Hk & Ht & Ho & Hf & Hg1 & _).
  change (B_OK <? 0) with false. cbv iota. pose proof (ku_bpb _ _ Hk) as Eb.
  assert (Ec : u32 c = c) by (by apply (cluster_u32 _ Hlo)).
  set (dummy := mkdir_node v1 dir c perms).
  assert (Ed : dummy = mkdir_node (w_vol w) dir c perms) by (unfold dummy, mkdir_node; by rewrite Eb).
  destruct (mkdir_with v1 dir name dummy) as [[[r5 v] dir']|] eqn:E; [|done]. intros [= <- <-].
  destruct (mkdir_with_spec (w_vol w) dir bl Hp Hfs c Hc Hz v1 Hk Ht Ho Hf Hg1 dummy Ec name r5 v dir' Hname Hlen E)
    as [(Hr & -> & Hs)|(-> & Hm & Hid & Er)].
  - destruct (put_node_spec dir (with_vol v w) (sf_layout _ _ Hs)) as (Hput & _ & _). split; [done|]. intros _. by transitivity v.
  - split; [|done]. intros _. rewrite Ed in Hm.
    assert (Hlv : layout_ok v) by (destruct Hm as [(? & ? & ? & ? & ? & ? & _ & Hcr) _ _]; apply Hcr).
    destruct (put_node_spec dir' (with_vol v w) Hlv) as (Hput & Erp & Hat).
    pose proof (made_same_files _ _ _ _ _ _ _ _ Hlo Hm Hput Erp) as Hm'. exists c, dir'. rewrite <-Hid.
    split_and!; try done. intros node Hnc Hnr. set (z := w_vol (put_node dir' (with_vol v w))) in *.
    pose proof (md_new _ _ _ _ _ _ _ Hm') as Hn. rewrite <-Ec in Hn at 1 2.
    apply (new_directory_empty z (dw_layout _ _ _ _ _ Hn) dir' (mkdir_node (w_vol w) dir c perms) (chain_blocks z [u32 c]) z Hn).
    + apply one_cluster_entries, Hn.
    + simpl. congruence.
    + done.
Qed.

(** ** A small volume *)

#[export] Instance ascii_tables_ok : SjisTablesOk.
Proof. split. vm_compute. lia. Qed.

Definition tiny : nspace := empty_volume 12 16 1.
Definition tiny_world : world := World tiny ∅ [].

Lemma tiny_layout : layout_ok tiny.
Proof. apply layout_okb_true. vm_compute. reflexivity. Qed.

Lemma tiny_root : dir_node tiny (root_vnode tiny) [3; 4; 5; 6; 7].
Proof.
  replace [3; 4; 5; 6; 7] with (seqZ (root_start tiny) (root_sectors tiny)) by (vm_compute; reflexivity).
  apply dir_fixed; [vm_compute; discriminate|reflexivity].
Qed.

Lemma tiny_directory : directory tiny 1 [3; 4; 5; 6; 7].
Proof.
  split; [|apply readable_all; [apply tiny_layout|vm_compute; reflexivity]|done|vm_compute; reflexivity|vm_compute; reflexivity].
  replace [3; 4; 5; 6; 7] with (seqZ (root_start tiny) (root_sectors tiny)) by (vm_compute; reflexivity).
  apply stream_root; [vm_compute; discriminate|reflexivity].
Qed.

(** Every block of the data is there. *)
Definition all_blocksb vol : bool :=
  forallb (fun c => forallb (fun s => bool_decide (is_Some (fBlockCache vol !! s))) (cluster_blocks vol c))
    (seqZ 2 (total_clusters vol)).

Lemma grow_all vol :
  layout_ok vol -> data_cluster vol (last_allocated vol) ->
  free_clusters vol = count_zero (entry vol) 2 (total_clusters vol) -> all_blocksb vol = true -> can_grow vol.
Proof.
  intros Hlo H1 H2 H. split; [done|done|]. intros c Hc. unfold all_blocksb in H. rewrite forallb_forall in H.
  unfold data_cluster in Hc. specialize (H c ltac:(apply list_elem_of_In, elem_of_seqZ; lia)). rewrite forallb_forall in H.
  apply Forall_forall. intros s Hs. specialize (H s ltac:(by apply list_elem_of_In)). apply bool_decide_eq_true in H as [b Hb].
  exists b. split; [done|]. by eapply (ok_blocks _ (lo_fat _ Hlo)).
Qed.

Lemma tiny_grow : can_grow tiny.
Proof. apply grow_all; [exact tiny_layout|zdecide|vm_compute; reflexivity|vm_compute; reflexivity]. Qed.

Lemma tiny_parent : parent_ok tiny (root_vnode tiny) [3; 4; 5; 6; 7].
Proof.
  split; [exact tiny_layout|exact tiny_directory|exact tiny_root|exact tiny_grow|vm_compute; reflexivity|vm_compute; reflexivity|].
  apply lfn_saneb_all. vm_compute. reflexivity.
Qed.

Definition folder : cstring := bytes_of "New Folder".

Lemma tiny_made : exists w', dosfs_mkdir tiny_world (root_vnode tiny) folder 0x1ff = Some (B_OK, w').
Proof.
  assert (H : (match dosfs_mkdir tiny_world (root_vnode tiny) folder 0x1ff with Some (r, _) => r =? B_OK | None => false end) = true)
    by (vm_compute; reflexivity).
  revert H. generalize (dosfs_mkdir tiny_world (root_vnode tiny) folder 0x1ff). intros [[r w]|]; [|discriminate].
  intros E%Z.eqb_eq. exists w. by rewrite E.
Qed.

Lemma dosfs_mkdir_makes_witness :
  exists c w', dosfs_mkdir tiny_world (root_vnode tiny) folder 0x1ff = Some (B_OK, w') /\ 2 <= c < 18 /\
    forall node, cluster node = c -> vnid node <> vnid (root_vnode (w_vol w')) ->
      check_dir_empty (w_vol w') node = Some B_OK.
Proof.
  destruct tiny_made as (w' & E).
  destruct (dosfs_mkdir_makes tiny_world (root_vnode tiny) [3; 4; 5; 6; 7] folder 0x1ff B_OK w') as [H _].
  - exact tiny_parent.
  - intros Hb. vm_compute in Hb. discriminate Hb.
  - apply (bool_decide_eq_true_1 _). vm_compute. reflexivity.
  - vm_compute. discriminate.
  - exact E.
  - destruct (H eq_refl) as (c & dir' & Hc & _ & _ & _ & He). exists c, w'. split; [exact E|]. split; [exact Hc|exact He].
Defined.
