(* ===== verification/Tree.v ===== *)
(** Moving ([dosfs_rename], file.c): the parents of the nodes in memory keep
    leading to the root, whatever is moved; and what becomes of the entries of
    the two directories, the entry that is lost included. *)
From Stdlib Require Import String.
From stdpp Require Import base gmap list relations.
From Stdlib Require Import ZArith Lia.
From S2P Require Import Prelude Errors Volume Fat FatEntry FatIoctl FatTable FatChain FatAlloc Sample FatSpec Vcache Dlist Util Attr Iter Stream StreamSpec Dirent EntrySpec Resize ResizeSpec Dir DirScan LongName DirCreate Encodings EncodingsSpec NameLaws DirSpec CreateSpec VnodeId Dosfs MountSpec FileMap File Hooks Lookups Consistency FileSpec Frame NewDir MkdirSpec.

Implicit Types vol v : nspace.
Implicit Types w : world.
Implicit Types n : vnode.

(** ** Paths *)

Definition root_id w : Z := vnid (root_vnode (w_vol w)).

(** The node can be reached: its parents lead to the root. *)
Inductive in_tree w : Z -> Prop :=
| tree_root : in_tree w (root_id w)
| tree_up id n : node_at w id = Some n -> in_tree w (dir_vnid n) -> in_tree w id.

(** Every node on the way to the root is a directory. *)
Inductive dir_path w : Z -> Prop :=
| path_root : flag (mode (root_vnode (w_vol w))) FAT_SUBDIR = true -> dir_path w (root_id w)
| path_up id n :
    node_at w id = Some n -> flag (mode n) FAT_SUBDIR = true -> dir_path w (dir_vnid n) -> dir_path w id.

(** The way to the root does not lead through [f]. *)
Inductive avoids w (f : Z) : Z -> Prop :=
| avoids_root : root_id w <> f -> avoids w f (root_id w)
| avoids_up id n : id <> f -> node_at w id = Some n -> avoids w f (dir_vnid n) -> avoids w f id.

(** Every node is kept under its id. *)
Definition keyed w : Prop := forall id n, node_at w id = Some n -> vnid n = id.

(** ** Changes that move nothing *)

Record grown w w' : Prop := {
  gr_root : root_id w' = root_id w;
  gr_keyed : keyed w -> keyed w';
  gr_node : keyed w -> forall id n, node_at w id = Some n -> exists n', node_at w' id = Some n' /\ ident n' = ident n
}.

#[export] Instance grown_preorder : PreOrder grown.
Proof.
  split; [split; eauto|]. intros x y z [R1 K1 N1] [R2 K2 N2]. split; [congruence|auto|].
  intros K id n Hn. destruct (N1 K id n Hn) as (n1 & H1 & E1). destruct (N2 (K1 K) id n1 H1) as (n2 & H2 & E2).
  exists n2. split; [done|congruence].
Qed.

Lemma ident_eq n n' : ident n' = ident n -> vnid n' = vnid n /\ dir_vnid n' = dir_vnid n /\ mode n' = mode n.
Proof. unfold ident. intros [= -> -> ->]. done. Qed.

Lemma grown_tree w w' id : keyed w -> grown w w' -> in_tree w id -> in_tree w' id.
Proof.
  intros K G. induction 1 as [|id n Hn _ IH]; [rewrite <-(gr_root _ _ G); constructor|].
  destruct (gr_node _ _ G K id n Hn) as (n' & Hn' & (_ & E & _)%ident_eq). apply (tree_up _ _ n'); [done|by rewrite E].
Qed.

Lemma grown_avoids w w' f id : keyed w -> grown w w' -> avoids w f id -> avoids w' f id.
Proof.
  intros K G. induction 1 as [Hr|id n Hne Hn _ IH].
  - rewrite <-(gr_root _ _ G) in Hr |- *. by constructor.
  - destruct (gr_node _ _ G K id n Hn) as (n' & Hn' & (_ & E & _)%ident_eq). apply (avoids_up _ _ _ n'); [done|done|by rewrite E].
Qed.

Lemma node_at_vol w v id : root_vnode v = root_vnode (w_vol w) -> node_at (with_vol v w) id = node_at w id.
Proof. intros E. unfold node_at. simpl. by rewrite E. Qed.

Lemma grown_vol w v : fixed v = fixed (w_vol w) -> grown w (with_vol v w).
Proof.
  intros E. assert (Er : root_vnode v = root_vnode (w_vol w)) by (unfold fixed in E; congruence).
  split; [unfold root_id; simpl; by rewrite Er| |].
  - intros K id n. rewrite node_at_vol by done. apply K.
  - intros K id n. rewrite node_at_vol by done. eauto.
Qed.

Lemma grown_removed id w : grown w (remove_vnode id w).
Proof. split; [done|by intros K|]. intros _ x n Hn. by exists n. Qed.

Lemma keyed_intro w : (forall id n, w_nodes w !! id = Some n -> vnid n = id) -> keyed w.
Proof. intros K id n. unfold node_at. destruct (Z.eqb_spec id (vnid (root_vnode (w_vol w)))) as [->|]; [congruence|apply K]. Qed.

Lemma tree_at_root w id : id = root_id w -> in_tree w id.
Proof. intros ->. constructor. Qed.

Lemma path_at_root w id :
  id = root_id w -> flag (mode (root_vnode (w_vol w))) FAT_SUBDIR = true -> dir_path w id.
Proof. intros ->. constructor. done. Qed.

Lemma root_at w : node_at w (root_id w) = Some (root_vnode (w_vol w)).
Proof. unfold node_at, root_id. by rewrite Z.eqb_refl. Qed.

Lemma node_at_put n w id :
  node_at (put_node n w) id = if id =? vnid n then Some n else node_at w id.
Proof.
  unfold put_node, node_at. destruct (Z.eqb_spec (vnid n) (vnid (root_vnode (w_vol w)))) as [E|E]; simpl.
  - rewrite <-E. by destruct (id =? vnid n).
  - destruct (Z.eqb_spec id (vnid (root_vnode (w_vol w)))) as [->|Hne].
    + by rewrite (proj2 (Z.eqb_neq _ _)) by congruence.
    + destruct (Z.eqb_spec id (vnid n)) as [->|]; [by rewrite lookup_insert_eq|by rewrite lookup_insert_ne].
Qed.

Lemma root_put n w : root_id (put_node n w) = root_id w.
Proof. unfold put_node, root_id. destruct (Z.eqb_spec (vnid n) (vnid (root_vnode (w_vol w)))); simpl; congruence. Qed.

Lemma keyed_put n w : keyed w -> keyed (put_node n w).
Proof. intros K id x. rewrite node_at_put. destruct (Z.eqb_spec id (vnid n)) as [->|]; [by intros [= ->]|apply K]. Qed.

(** A node replaced by one that is the same to the kernel, or a new node. *)
Lemma grown_put n w :
  (forall n0, node_at w (vnid n) = Some n0 -> ident n = ident n0) -> grown w (put_node n w).
Proof.
  intros E. split; [apply root_put|by apply keyed_put|]. intros K id x Hx. rewrite node_at_put.
  destruct (Z.eqb_spec id (vnid n)) as [->|]; [|eauto]. exists n. split; [done|]. by apply E.
Qed.

Lemma set_mime_type_ident n name : ident (set_mime_type n name) = ident n.
Proof. unfold set_mime_type. by destruct (find_mime mimes name). Qed.

(** ** Looking nodes up *)

Section Rename.
Context `{Encodings, Clock, Timer}.

Lemma read_vnode_id vol id r v n m :
  dosfs_read_vnode vol id = Some (r, v, Some (n, m)) -> id <> vnid (root_vnode vol) -> vnid n = id.
Proof.
  unfold dosfs_read_vnode. destruct (Z.eqb_spec id (vnid (root_vnode vol))) as [|_]; [done|].
  generalize (match vcache_vnid_to_loc vol id with (_, Some loc) => loc | (_, None) => id end). intros loc.
  destruct (_ || _); [done|]. destruct (_ =? _); [done|].
  destruct (diri_init _ _ _ _) as [[p|] d]; [|done].
  destruct (z_loop _ _ _) as [|[[r1 [[info name]|]]|]]; try done.
  destruct (malloc_ok vol) as [[] v1]; [|done]. cbn [negb]. cbv zeta.
  destruct (file_cache_create _ _) as [c v3]. destruct (file_map_create _ _) as [k v4].
  intros [= <- <- <- <-] _. destruct (flag _ _); [done|].
  match goal with |- vnid (set_mime_type ?x ?y) = _ => destruct (ident_eq _ _ (set_mime_type_ident x y)) as [-> _] end. done.
Qed.

Lemma grown_get w id r w' o :
  get_vnode w id = Some (r, w', o) -> grown w w' /\ forall n, o = Some n -> keyed w -> node_at w' id = Some n.
Proof.
  unfold get_vnode. destruct (node_at w id) as [n|] eqn:En; [intros [= <- <- <-]; split; [done|congruence]|].
  assert (Hr : id <> root_id w) by (intros ->; by rewrite root_at in En).
  destruct (dosfs_read_vnode (w_vol w) id) as [[[r1 v1] [[n m]|]]|] eqn:E; [| |done];
    pose proof (read_vnode_caches _ _ _ _ _ E) as E1; pose proof (only_caches_root _ _ E1) as Er;
    apply only_caches_fixed in E1; intros [= <- <- <-]; [|split; [by apply grown_vol|done]].
  apply read_vnode_id in E; [|done]. split.
  - transitivity (with_vol v1 w); [by apply grown_vol|]. apply grown_put. intros n0. rewrite node_at_vol, E by done. congruence.
  - intros x [= <-] _. by rewrite node_at_put, E, Z.eqb_refl.
Qed.

Lemma grown_found w id w' n :
  found_node w id = Some (w', n) -> grown w w' /\ (keyed w -> node_at w' id = Some n).
Proof.
  unfold found_node. destruct (get_vnode w id) as [[[r w1] [x|]]|] eqn:E; try done. intros [= <- <-].
  apply grown_get in E as [G N]. auto.
Qed.

Lemma grown_search w v r found dups dir name b1 b2 :
  findfile (w_vol w) dir name b1 b2 = Some (r, v, found, dups) -> grown w (with_vol v w).
Proof. intros E. by eapply grown_vol, only_caches_fixed, findfile_caches. Qed.

(** ** The walk to the root *)

Lemma ancestors_avoid w file ndir w' o :
  keyed w -> flag (mode file) FAT_SUBDIR = true -> check_ancestors w file ndir = Some (w', o) ->
  grown w w' /\ (o = None -> avoids w' (vnid file) ndir).
Proof.
  intros K Hf. unfold check_ancestors. rewrite Hf. set (f := vnid file).
  set (P := fun (_ : Z) '(w1, id) => grown w w1 /\ (forall w2, grown w1 w2 -> avoids w2 f id -> avoids w2 f ndir)).
  set (Q := fun r : option (world * option Z) => match r with Some (w1, o) => grown w w1 /\ (o = None -> avoids w1 f ndir) | None => True end).
  assert (L : match z_loop (ancestor_step f) scan_bound (w, ndir) with Cont s => P scan_bound s | Brk r => Q r end).
  { apply z_loop_inv; [done|by split|]. intros j [w1 id] _ [G I]. unfold ancestor_step.
    destruct (Z.eqb_spec id f) as [|Hne]; [by split|].
    destruct (Z.eqb_spec id (vnid (root_vnode (w_vol w1)))) as [->|Hr].
    { split; [done|]. intros _. apply I; [done|]. by constructor. }
    destruct (get_vnode w1 id) as [[[r w2] q]|] eqn:E; [|done]. apply grown_get in E as [G2 N].
    destruct (r <? B_OK); [split; [by transitivity w1|done]|]. destruct q as [x|]; [|done]. split; [by transitivity w1|].
    intros w3 G3 A. apply I; [by transitivity w2|].
    assert (K1 : keyed w1) by by apply G. assert (K2 : keyed w2) by by apply G2.
    destruct (gr_node _ _ G3 K2 id x (N x eq_refl K1)) as (x' & Hx' & (_ & Ex & _)%ident_eq).
    apply (avoids_up _ _ _ x'); [done|done|by rewrite Ex]. }
  destruct (z_loop _ _ _) as [[w1 id]|[[w1 e]|]]; intros [= <- <-]; [split; [apply L|done]|exact L].
Qed.

(** A file is on no path of directories. *)
Lemma file_avoided w f ndir :
  (forall n, node_at w f = Some n -> flag (mode n) FAT_SUBDIR = false) -> dir_path w ndir -> avoids w f ndir.
Proof.
  intros Hf. induction 1 as [Hd|id n Hn Hd _ IH].
  { constructor. intros <-. rewrite (Hf _ (root_at w)) in Hd. done. }
  apply (avoids_up _ _ _ n); [|done|done]. intros ->. rewrite (Hf n Hn) in Hd. done.
Qed.

(** ** The move *)

Lemma moved_tree w file ndir id :
  keyed w -> avoids w (vnid file) ndir -> dir_vnid file = ndir -> in_tree w id -> in_tree (put_node file w) id.
Proof.
  intros K A E. assert (An : in_tree (put_node file w) ndir).
  { clear E. induction A as [Hr|x n Hx Hn _ IH]; [rewrite <-(root_put file w); constructor|].
    apply (tree_up _ _ n); [|done]. rewrite node_at_put. by rewrite (proj2 (Z.eqb_neq _ _)). }
  induction 1 as [|x n Hn _ IH]; [rewrite <-(root_put file w); constructor|].
  destruct (Z.eq_dec x (vnid file)) as [->|Hx].
  - apply (tree_up _ _ file); [by rewrite node_at_put, Z.eqb_refl|by rewrite E].
  - apply (tree_up _ _ n); [|done]. rewrite node_at_put. by rewrite (proj2 (Z.eqb_neq _ _)).
Qed.

Lemma grown_rename_entry w odir oldname ndir newname file r w' place dirty :
  rename_entry w odir oldname ndir newname file = Some (r, w', place, dirty) -> keyed w -> grown w w'.
Proof.
  intros E K. unfold rename_entry in E. destruct (node_at w ndir) as [nd|] eqn:End; [|done].
  destruct (findfile_case_duplicates (w_vol w) nd newname) as [[[[e v] found] dups]|] eqn:E1; [|done].
  pose proof (findfile_caches _ _ _ _ _ _ _ _ _ E1) as C1. apply grown_search in E1. cbv zeta in E.
  destruct (e =? B_OK).
  - destruct (found_node (with_vol v w) _) as [[w1 file2]|] eqn:E2; [|done]. apply grown_found in E2 as [G2 _].
    destruct (_ || _); [injection E as <- <- <- <-; by transitivity (with_vol v w)|].
    destruct (generate_unique_vnid (w_vol w1)) as [loc v1] eqn:E3. apply unique_caches, only_caches_fixed in E3.
    destruct (vcache_set_entry v1 _ loc) as [s v2] eqn:E4. apply set_entry_fixed in E4.
    destruct (erase_dir_entry v2 file) as [[t v3]|] eqn:E5; [|done]. apply erase_fixed in E5. injection E as <- <- <- <-.
    transitivity (with_vol v w); [done|]. transitivity w1; [done|].
    transitivity (with_vol v3 w1); [apply grown_vol; congruence|apply grown_removed].
  - destruct (_ && _); [|destruct (_ && _); by injection E as <- <- <- <-].
    destruct (erase_dir_entry (w_vol (with_vol v w)) file) as [[t v3]|] eqn:E5; [|done]. apply erase_fixed in E5. simpl in E5.
    destruct (negb _).
    { injection E as <- <- <- <-. transitivity (with_vol v w); [done|]. by apply (grown_vol (with_vol v w)). }
    destruct (create_dir_entry v3 nd file newname) as [[[[[u v4] nd'] ns] ne]|] eqn:E6; [|done].
    apply create_fixed in E6 as [F6 I6]. injection E as <- <- <- <-.
    assert (F : fixed v4 = fixed (w_vol w)) by (apply only_caches_fixed in C1; congruence).
    transitivity (with_vol v4 w); [by apply grown_vol|]. apply (grown_put nd' (with_vol v4 w)).
    intros n0. rewrite node_at_vol by (unfold fixed in F; congruence). destruct (ident_eq _ _ I6) as (-> & _).
    rewrite (K ndir nd End), End. congruence.
Qed.

Lemma dotdot_fixed vol file nd v : update_dotdot vol file nd = Some v -> fixed v = fixed vol.
Proof.
  unfold update_dotdot. destruct (diri_init _ _ _ _) as [[p|] d]; [|done]. destruct (negb _); [done|].
  destruct (_ =? _); intros [= <-]; [done|]. apply ent_set_cluster_fixed.
Qed.

Lemma finish_tree w odir ndir newname file place r w' id :
  rename_finish w odir ndir newname file place = Some (r, w') -> keyed w ->
  is_Some (node_at w (vnid file)) -> avoids w (vnid file) ndir -> in_tree w id -> in_tree w' id.
Proof.
  intros E K [f0 Hf0] A T. unfold rename_finish in E. destruct place as [[ns ne] replaced].
  destruct (node_at w odir) as [dir|] eqn:Ed; [|done].
  destruct (compact_directory (w_vol w) dir) as [[[e v] dir']|] eqn:E1; [|done]. apply compact_fixed in E1 as [F1 I1].
  set (w1 := put_node dir' (with_vol v w)) in E.
  assert (G1 : grown w w1).
  { transitivity (with_vol v w); [by apply grown_vol|]. apply grown_put. intros n0.
    rewrite node_at_vol by (unfold fixed in F1; congruence). destruct (ident_eq _ _ I1) as (-> & _).
    rewrite (K odir dir Ed), Ed. congruence. }
  assert (K1 : keyed w1) by by apply G1.
  destruct (gr_node _ _ G1 K _ _ Hf0) as (f1 & Hf1 & _). pose proof (K1 _ _ Hf1) as Ef1.
  rewrite Hf1 in E. cbn [default] in E. cbv zeta in E.
  match goal with H : context [write_vnode_entry _ ?x] |- _ => set (f2 := x) in * end.
  destruct (vcache_set_entry (w_vol w1) _ _) as [s v2] eqn:E2. apply set_entry_fixed in E2.
  pose proof (write_entry_fixed v2 f2) as E3. set (v3 := snd (write_vnode_entry v2 f2)) in *.
  assert (G2 : grown w1 (with_vol v3 w1)) by (apply grown_vol; congruence).
  set (w2 := with_vol v3 w1) in *. set (w3 := put_node f2 w2) in *.
  assert (T3 : in_tree w3 id).
  { apply (moved_tree w2 f2 ndir).
    - apply G2, K1.
    - change (vnid f2) with (vnid f1). rewrite Ef1. apply (grown_avoids w1); [done|done|]. by apply (grown_avoids w).
    - done.
    - apply (grown_tree w1); [done|done|]. by apply (grown_tree w). }
  assert (K3 : keyed w3) by (apply keyed_put, G2, K1).
  destruct (flag (mode f2) FAT_SUBDIR).
  - destruct (node_at w3 ndir) as [nd|]; [|done]. destruct (update_dotdot (w_vol w3) f2 nd) as [v4|] eqn:E4.
    + apply dotdot_fixed in E4. injection E as <- <-. apply (grown_tree w3); [done|by apply grown_vol|done].
    + destruct replaced; [|done]. by injection E as <- <-.
  - injection E as <- <-. apply (grown_tree w3); [done| |done]. apply grown_put. intros n0.
    destruct (ident_eq _ _ (set_mime_type_ident f2 newname)) as (-> & _). unfold w3. rewrite node_at_put, Z.eqb_refl.
    intros [= <-]. apply set_mime_type_ident.
Qed.

Lemma sync_tree w id : in_tree w id -> in_tree (sync w) id.
Proof.
  assert (E : fixed (op_sync (w_vol w)) = fixed (w_vol w)) by apply op_sync_fixed.
  assert (Er : root_vnode (op_sync (w_vol w)) = root_vnode (w_vol w)) by (unfold fixed in E; congruence).
  induction 1 as [|x n Hn _ IH].
  - replace (root_id w) with (root_id (sync w)) by (unfold root_id; simpl; by rewrite Er). constructor.
  - apply (tree_up _ _ n); [|done]. unfold sync. by rewrite node_at_vol.
Qed.

(** C22: the parents of the nodes in memory.  Wherever a node is moved, as long
    as the target is a directory below the root: every node in memory whose
    parents led to the root still has parents that lead to the root, whether
    the move succeeds or not.  No directory becomes its own descendant.  What
    the directories on the volume say is the subject of [rename_entry_moves]. *)
Theorem rename_keeps_tree w odir oldname ndir newname r w' id :
  keyed w -> dir_path w ndir -> dosfs_rename w odir oldname ndir newname = Some (r, w') ->
  in_tree w id -> in_tree w' id.
Proof.
  intros K P E T. unfold dosfs_rename in E. destruct (negb _); [by injection E as <- <-|].
  destruct (flag _ _); [by injection E as <- <-|]. destruct (_ || _); [by injection E as <- <-|].
  destruct (_ && _); [by injection E as <- <-|]. destruct (node_at w odir) as [od|] eqn:Eo; [|done].
  destruct (findfile_case (w_vol w) od oldname) as [[[[e v] found] dups]|] eqn:E1; [|done].
  apply grown_search in E1. cbv zeta in E. set (w0 := with_vol v w) in *.
  destruct (negb (e =? B_OK)); [injection E as <- <-; by apply (grown_tree w)|].
  destruct (found_node w0 _) as [[w1 file]|] eqn:E2; [|done]. apply grown_found in E2 as [G1 N1].
  assert (K0 : keyed w0) by by apply E1. specialize (N1 K0). assert (K1 : keyed w1) by by apply G1.
  assert (G : grown w w1) by by transitivity w0. rewrite <-(K1 _ _ N1) in N1.
  destruct (negb (disk_image file =? 0)); [injection E as <- <-; by apply (grown_tree w)|].
  destruct (check_ancestors w1 file ndir) as [[w2 o]|] eqn:E3; [|done].
  assert (A : grown w1 w2 /\ (o = None -> avoids w2 (vnid file) ndir)).
  { destruct (flag (mode file) FAT_SUBDIR) eqn:Ef.
    - by apply (ancestors_avoid w1 file ndir w2 o K1 Ef).
    - unfold check_ancestors in E3. rewrite Ef in E3. injection E3 as <- <-. split; [done|]. intros _.
      apply (grown_avoids w); [done|done|]. apply file_avoided; [|done]. intros n Hn.
      destruct (gr_node _ _ G K _ _ Hn) as (n' & Hn' & (_ & _ & Em)%ident_eq). congruence. }
  destruct A as [G2 A]. assert (K2 : keyed w2) by by apply G2.
  assert (T2 : in_tree w2 id) by (apply (grown_tree w); [done|by transitivity w1|done]).
  destruct o as [e2|]; [by injection E as <- <-|].
  destruct (rename_entry w2 od oldname ndir newname file) as [[[[e3 w3] place] dirty]|] eqn:E4; [|done].
  pose proof (grown_rename_entry _ _ _ _ _ _ _ _ _ _ E4 K2) as G3. assert (K3 : keyed w3) by by apply G3.
  destruct (negb (e3 =? B_OK)).
  { assert (T3 : in_tree w3 id) by by apply (grown_tree w2). destruct dirty; injection E as <- <-; [by apply sync_tree|done]. }
  destruct (rename_finish w3 odir ndir newname file place) as [[e4 w4]|] eqn:E5; [|done].
  injection E as <- <-. apply sync_tree. apply (finish_tree w3 odir ndir newname file place e4 w4 id E5 K3).
  - destruct (gr_node _ _ G2 K1 _ _ N1) as (n2 & N2 & _). destruct (gr_node _ _ G3 K2 _ _ N2) as (n3 & N3 & _). by exists n3.
  - apply (grown_avoids w2); [done|done|by apply A].
  - by apply (grown_tree w2).
Qed.
End Rename.

(** ** A diskette with a directory A and a file B in its root *)

Definition raw_entry (name attr c size : Z) : list Z :=
  [name] ++ repeat 32 10 ++ [attr] ++ repeat 0 14 ++ [c; 0; size; 0; 0; 0].
Definition two_entries : block := raw_entry 65 FAT_SUBDIR 12 0 ++ raw_entry 66 0 21 5 ++ repeat 0 448.
Definition small_disk : nspace := set_fBlockCache (<[5 := two_entries]> (fBlockCache floppy)) floppy.

Definition a_id : Z := GENERATE_DIR_CLUSTER_VNID 1 12.
Definition b_id : Z := GENERATE_DIR_CLUSTER_VNID 1 21.
Definition a_dir : vnode := Vnode a_id 1 None None 0 0 0 0 12 FAT_SUBDIR 512 0 12 None false.
Definition b_file : vnode := Vnode b_id 1 None None 0 0 1 1 21 0 5 0 21 None false.
Definition two_nodes : gmap Z vnode := {[a_id := a_dir; b_id := b_file]}.
Definition small_world : world := World small_disk two_nodes [].

Lemma two_nodes_keyed id n : two_nodes !! id = Some n -> vnid n = id.
Proof. unfold two_nodes. rewrite lookup_insert_Some, lookup_singleton_Some. by intros [[<- <-]|[_ [<- <-]]]. Qed.

Lemma small_root : root_id small_world = 1.
Proof. vm_compute. reflexivity. Qed.

Lemma small_keyed : keyed small_world.
Proof. apply keyed_intro. exact two_nodes_keyed. Qed.

Lemma small_path : dir_path small_world a_id.
Proof.
  apply (path_up _ _ a_dir); [vm_compute; reflexivity|reflexivity|]. change (dir_vnid a_dir) with 1.
  apply path_at_root; [symmetry; exact small_root|vm_compute; reflexivity].
Qed.

Lemma b_in_tree : in_tree small_world b_id.
Proof.
  apply (tree_up _ _ b_file); [vm_compute; reflexivity|]. change (dir_vnid b_file) with 1.
  apply tree_at_root. symmetry. exact small_root.
Qed.

(** B is moved into A. *)
Lemma moved_ok : exists w, dosfs_rename small_world 1 [66] a_id [67] = Some (B_OK, w) /\ dir_vnid <$> node_at w b_id = Some a_id.
Proof.
  assert (H : (match dosfs_rename small_world 1 [66] a_id [67] with Some (r, w) => (r =? B_OK) && bool_decide (dir_vnid <$> node_at w b_id = Some a_id)
                | None => false end) = true) by (vm_compute; reflexivity).
  revert H. generalize (dosfs_rename small_world 1 [66] a_id [67]). intros [[r w]|]; [|discriminate]. intros [H1 H2]%andb_true_iff.
  exists w. split; [by rewrite (proj1 (Z.eqb_eq _ _) H1)|by apply bool_decide_eq_true in H2].
Qed.

Lemma rename_keeps_tree_witness :
  exists w, dosfs_rename small_world 1 [66] a_id [67] = Some (B_OK, w) /\ dir_vnid <$> node_at w b_id = Some a_id /\ in_tree w b_id.
Proof.
  destruct moved_ok as (w & E & Ep). exists w. split; [exact E|]. split; [exact Ep|].
  apply (rename_keeps_tree small_world 1 [66] a_id [67] B_OK w b_id small_keyed small_path E b_in_tree).
Defined.

(** ** Moving an entry *)

(** A directory of which entries have been erased, or other ones: the volume
    is ready for a new entry as before. *)
Lemma mark_sane v0 v1 start bl first last :
  dir_is v0 start bl (mark first last (dirent v0 bl)) v1 ->
  (forall t, 0 <= t < dir_entries v0 bl -> lfn_sane v0 bl t) ->
  forall t, 0 <= t < dir_entries v1 bl -> lfn_sane v1 bl t.
Proof.
  intros Hv Hs t Ht. rewrite (dir_is_bpb _ _ _ _ _ Hv) in Ht. unfold lfn_sane, kind in *. specialize (Hs t Ht).
  unfold lfn_sane, kind in Hs. rewrite !(dw_bytes _ _ _ _ _ Hv) by lia. unfold mark. rewrite !andb_false_r.
  destruct ((first <=? t) && (t <=? last)); cbn [andb]; [|exact Hs]. rewrite Z.eqb_refl. change (229 =? 0) with false.
  rewrite Z.eqb_refl. done.
Qed.

Lemma erased_parent v0 v1 start blf first last dir bl :
  parent_ok v0 dir bl -> (start = cluster dir /\ blf = bl \/ forall s, s ∈ blf -> s ∉ bl) ->
  dir_is v0 start blf (mark first last (dirent v0 blf)) v1 -> parent_ok v1 dir bl.
Proof.
  intros [P1 P2 P3 [G1 G2 G3] P5 P6 P7] Hcase Hv. pose proof Hv as [D1 D2 D3 D4 (cache & Ev & Hc)]. pose proof D3 as [Eb He].
  assert (Hdir : directory v1 (cluster dir) bl /\ forall t, 0 <= t < dir_entries v1 bl -> lfn_sane v1 bl t).
  { destruct Hcase as [[-> ->]|Hap]; [split; [done|by apply (mark_sane v0 v1 (cluster dir) bl first last)]|].
    assert (Hbl : forall s, s ∈ bl -> fBlockCache v1 !! s = fBlockCache v0 !! s).
    { intros s Hs. rewrite Ev. simpl. apply Hc. intros Hf. by apply (Hap s). }
    split; [apply (directory_ext v0); [done| |done|done]; eapply stream_same; [exact D3|apply P2]|].
    intros t Ht. rewrite Eb in Ht. unfold lfn_sane. rewrite (kind_ext v0 v1), (dirent_ext v0 v1) by (done || (intros; by apply dirent_ext)).
    by apply P7. }
  split; [done|apply Hdir| | |by rewrite Eb|done|apply Hdir].
  - destruct P3 as [Hb E|l Hl Hch]; [rewrite <-!Eb; constructor; [by rewrite Eb|done]|].
    rewrite <-Eb. constructor; [done|]. apply (node_chain_ext v0); [done|apply D1| |done]. intros x Hx. apply He. by eapply node_chain_data.
  - split; [rewrite Ev; simpl; exact G1|rewrite Ev at 1; simpl; rewrite G2, Eb|].
    + apply count_zero_ext; [pose proof (geo_total _ (ok_geo _ (lo_fat _ P1))); lia|]. intros x Hx. symmetry. apply He. unfold data_cluster. lia.
    + intros x Hx. unfold data_cluster in Hx. rewrite Eb in Hx |- *. specialize (G3 x Hx). rewrite Forall_forall in G3 |- *.
      intros s Hs. destruct (decide (s ∈ blf)) as [Hin|Hout].
      * pose proof (dr_read _ _ _ D2) as Hr. rewrite Forall_forall in Hr. by apply Hr.
      * destruct (G3 s Hs) as (b & Hb & Hok). exists b. rewrite Eb. split; [|done]. rewrite Ev. simpl. by rewrite Hc.
Qed.

Lemma set_entry_caches vol id loc r v : vcache_set_entry vol id loc = (r, v) -> only_caches vol v.
Proof.
  intros E. unfold vcache_set_entry, _update_loc_in_vcache_ in E.
  destruct (_find_vnid_in_vcache_ vol id) as [e|].
  - destruct (_ =? loc); [by eapply remove_from_vcache_caches|].
    destruct (_remove_from_vcache_ vol id) as [s x] eqn:E1. apply remove_from_vcache_caches in E1.
    destruct (s =? 0); [|by injection E as <- <-]. apply add_to_vcache_caches in E. by transitivity x.
  - destruct (negb _); [by eapply add_to_vcache_caches|by injection E as <- <-].
Qed.

(** The old entry of [file], in a directory with the blocks [bl], is marked
    erased; nothing else has changed. *)
Definition erased vol (bl : list Z) (file : vnode) v : Prop :=
  exists v0, same_volume vol v0 /\
    dir_is v0 (VNODE_PARENT_DIR_CLUSTER file) bl (mark (sindex file) (eindex file) (dirent v0 bl)) v.

(** What [rename_entry] does with [file], an entry of a directory with the
    blocks [blf], and the directory [dir] with the id [ndir]: the result, the
    new state, the place of the file, and whether the volume is dirty. *)
Inductive entry_moved `{Encodings, Clock, Timer} (w : world) (odir : vnode) (oldname : cstring) (ndir : Z) (dir : vnode)
    (bl blf : list Z) (newname : cstring) (file : vnode) : Z -> world -> Z * Z * bool -> bool -> Prop :=
| moved_no_search e v found dups :
    findfile_case_duplicates (w_vol w) dir newname = Some (e, v, found, dups) -> e <> B_OK -> e <> ENOENT ->
    entry_moved w odir oldname ndir dir bl blf newname file e (with_vol v w) (0, 0, false) false
| moved_other_case v found :
    findfile_case_duplicates (w_vol w) dir newname = Some (ENOENT, v, found, true) ->
    (vnid odir =? ndir) && strcasecmp_eq oldname newname = false ->
    entry_moved w odir oldname ndir dir bl blf newname file EEXIST (with_vol v w) (0, 0, false) false
| moved_occupied v found dups w1 file2 :
    findfile_case_duplicates (w_vol w) dir newname = Some (B_OK, v, found, dups) ->
    found_node (with_vol v w) (default 0 found) = Some (w1, file2) ->
    flag (mode file2) FAT_SUBDIR || negb (disk_image file2 =? 0) = true ->
    entry_moved w odir oldname ndir dir bl blf newname file EPERM w1 (0, 0, true) false
| moved_over v found dups w1 file2 r w' :
    findfile_case_duplicates (w_vol w) dir newname = Some (B_OK, v, found, dups) ->
    found_node (with_vol v w) (default 0 found) = Some (w1, file2) ->
    flag (mode file2) FAT_SUBDIR || negb (disk_image file2 =? 0) = false ->
    w_nodes w' = w_nodes w1 -> w_removed w' = vnid file2 :: w_removed w1 ->
    (at_place (w_vol w) blf (sindex file) (eindex file) /\ r = B_OK /\ erased (w_vol w) blf file (w_vol w') \/
     ~ at_place (w_vol w) blf (sindex file) (eindex file) /\ r < 0 /\ same_volume (w_vol w) (w_vol w')) ->
    entry_moved w odir oldname ndir dir bl blf newname file r w' (sindex file2, eindex file2, true) true
| moved_stale v found dups r :
    findfile_case_duplicates (w_vol w) dir newname = Some (ENOENT, v, found, dups) ->
    negb dups || ((vnid odir =? ndir) && strcasecmp_eq oldname newname) = true ->
    ~ at_place (w_vol w) blf (sindex file) (eindex file) -> r < 0 ->
    entry_moved w odir oldname ndir dir bl blf newname file r (with_vol v w) (0, 0, false) false
| moved_new v found dups v1 w' dir' bl' nshort nlong len ns ne :
    findfile_case_duplicates (w_vol w) dir newname = Some (ENOENT, v, found, dups) ->
    negb dups || ((vnid odir =? ndir) && strcasecmp_eq oldname newname) = true ->
    at_place (w_vol w) blf (sindex file) (eindex file) -> erased (w_vol w) blf file v1 ->
    short_bytes nshort ->
    created v1 dir bl nshort nlong (EntryInfo (mode file) (cluster file) (u32 (st_size file)) (st_time file))
      len ns ne (w_vol w') dir' bl' ->
    vnid dir' = vnid dir -> node_at w' (vnid dir) = Some dir' -> w_removed w' = w_removed w ->
    entry_moved w odir oldname ndir dir bl blf newname file B_OK w' (ns, ne, false) true
| moved_lost v found dups v1 v2 r w' ns ne :
    findfile_case_duplicates (w_vol w) dir newname = Some (ENOENT, v, found, dups) ->
    negb dups || ((vnid odir =? ndir) && strcasecmp_eq oldname newname) = true ->
    at_place (w_vol w) blf (sindex file) (eindex file) -> erased (w_vol w) blf file v1 ->
    create_dir_entry v1 dir file newname = Some (r, v2, dir, ns, ne) -> r <> B_OK ->
    same_files v1 (w_vol w') -> w_removed w' = w_removed w ->
    entry_moved w odir oldname ndir dir bl blf newname file r w' (ns, ne, false) true.

(** Volumes with the same entries have the same names. *)
Lemma at_place_ext `{Encodings} vol v bl i j :
  ns_bpb v = ns_bpb vol -> (forall b t k, dirent v b t k = dirent vol b t k) -> at_place v bl i j -> at_place vol bl i j.
Proof.
  intros Eb Hb (Hst & Hk & Hj & Hn). assert (Ek : forall t, kind v bl t = kind vol bl t) by (intros; by apply kind_ext).
  rewrite Eb in Hj. destruct Hst as (H1 & H2 & H3). rewrite Eb in H1, H3. rewrite Ek in Hk, H3. split_and!; try done.
  - split_and!; try lia; try done. intros t Ht. rewrite <-Ek. by apply H2.
  - destruct Hn as [Hn|(Hf & text & Hn & Hu)]; [by left|right]. split; [done|]. exists text. split; [|done].
    replace (short_hash vol bl j) with (short_hash v bl j); [by apply (long_name_ext vol v)|].
    unfold short_hash. f_equal. apply map_ext. intros k. apply Hb.
Qed.

Section Move.
Context `{SjisTablesOk, Clock, Timer} (w : world) (dir : vnode) (bl blf : list Z) (file : vnode).
Context (Hp : parent_ok (w_vol w) dir bl) (Hd : directory (w_vol w) (VNODE_PARENT_DIR_CLUSTER file) blf).
Context (Hi : 0 <= sindex file < dir_entries (w_vol w) blf).
Context (Hsane : forall t, sindex file <= t < dir_entries (w_vol w) blf -> lfn_sane (w_vol w) blf t).
Context (Hcase : VNODE_PARENT_DIR_CLUSTER file = cluster dir /\ blf = bl \/ forall s, s ∈ blf -> s ∉ bl).

(** A volume that differs in its caches only has the same entries. *)
Lemma same_volume_entries v : same_volume (w_vol w) v ->
  layout_ok v /\ ns_bpb v = ns_bpb (w_vol w) /\ (forall b i k, dirent v b i k = dirent (w_vol w) b i k) /\
  directory v (VNODE_PARENT_DIR_CLUSTER file) blf.
Proof using Hp Hd.
  intros E. pose proof (volume_same_files _ _ (pa_layout _ _ _ Hp) E) as [Hl Hst Hf _]. pose proof E as E2.
  unfold same_volume, on_disk in E2. injection E2 as Eb Ec _ _ _ _ _ _. split_and!; [done|done| |].
  - intros b i k. apply dirent_ext; [done|]. intros s _. by rewrite Ec.
  - apply (directory_ext (w_vol w)); [done| |intros; by rewrite Ec|done]. eapply stream_same; [exact Hst|apply Hd].
Qed.

Lemma erase_moves v r v1 : same_volume (w_vol w) v -> erase_dir_entry v file = Some (r, v1) ->
  at_place (w_vol w) blf (sindex file) (eindex file) /\ r = B_OK /\ erased (w_vol w) blf file v1 /\
    (can_grow v -> parent_ok v1 dir bl) \/
  ~ at_place (w_vol w) blf (sindex file) (eindex file) /\ r < 0 /\ v1 = v.
Proof using All.
  intros E Er. destruct (same_volume_entries v E) as (Hl & Eb & Hb & Hdv).
  assert (Hn : dir_entries v blf = dir_entries (w_vol w) blf) by (by rewrite Eb).
  destruct (erase_dir_entry_exact v file blf Hl Hdv) as (r' & v' & Er' & Hout).
  { by rewrite Hn. }
  { intros t Ht. rewrite Hn in Ht. unfold lfn_sane. rewrite (kind_ext (w_vol w) v), Hb by done. by apply Hsane. }
  rewrite Er in Er'. injection Er' as <- <-. destruct Hout as [(Hpl & -> & Hv)|(Hpl & Hr & ->)].
  - left. split; [by apply (at_place_ext _ v)|]. split; [done|]. split; [by exists v|]. intros Hg.
    apply (erased_parent v v1 (VNODE_PARENT_DIR_CLUSTER file) blf (sindex file) (eindex file)); [|done|done].
    apply (keeps_parent (w_vol w)); [done| |done]. by apply same_files_keeps, volume_same_files; [apply Hp|].
  - right. split; [|done]. intros Hw. apply Hpl. by apply (at_place_ext v (w_vol w)).
Qed.
End Move.

Lemma put_node_removed n w : w_removed (put_node n w) = w_removed w.
Proof. unfold put_node. by destruct (_ =? _). Qed.

(** C20: moving a file's entry to the name [newname] of the directory [dir].
    The move is refused, with the volume as it was, when the search for
    [newname] fails, when it finds a directory or an image, when the directory
    has the name in another case, or when the node's entries are not those of
    one name.  Otherwise the old entry is erased, and nothing else; and when
    [newname] was there its file is to be removed and its entry is the place
    of the moved file, and when it was not, the directory gets a new entry
    with the file's attributes, cluster, size and time, in a gap or behind its
    last one, and keeps all others.  When that entry cannot be made the result
    is the error, and the old entry is gone.  A stale node whose name would
    replace a file has that file removed before the error. *)
Theorem rename_entry_moves `{SjisTablesOk, Clock, Timer} w odir oldname ndir dir bl blf newname file r w' place dirty :
  parent_ok (w_vol w) dir bl -> node_at w ndir = Some dir ->
  directory (w_vol w) (VNODE_PARENT_DIR_CLUSTER file) blf ->
  (VNODE_PARENT_DIR_CLUSTER file = cluster dir /\ blf = bl \/ forall s, s ∈ blf -> s ∉ bl) ->
  0 <= sindex file < dir_entries (w_vol w) blf ->
  (forall t, sindex file <= t < dir_entries (w_vol w) blf -> lfn_sane (w_vol w) blf t) ->
  cluster file = 0 \/ data_cluster (w_vol w) (cluster file) ->
  Forall is_byte newname -> fst (utf8_to_unicode newname 512) <= 495 ->
  rename_entry w odir oldname ndir newname file = Some (r, w', place, dirty) ->
  entry_moved w odir oldname ndir dir bl blf newname file r w' place dirty.
Proof.
  intros Hp Hat Hd Hcase Hi Hsane Hc Hname Hlen. unfold rename_entry. rewrite Hat.
  destruct (findfile_case_duplicates (w_vol w) dir newname) as [[[[e v] found] dups]|] eqn:Es; [|done].
  pose proof (findfile_caches _ _ _ _ _ _ _ _ _ Es) as Cv. pose proof (only_caches_volume _ _ Cv) as Ev.
  destruct (Z.eqb_spec e B_OK) as [->|Hok].
  - destruct (found_node (with_vol v w) _) as [[w1 file2]|] eqn:Ef; [|done].
    destruct (flag (mode file2) FAT_SUBDIR || _) eqn:Eo; [intros [= <- <- <- <-]; by eapply moved_occupied|].
    destruct (generate_unique_vnid (w_vol w1)) as [loc v1] eqn:E1. apply unique_caches, only_caches_volume in E1.
    destruct (vcache_set_entry v1 _ loc) as [x v2] eqn:E2. apply set_entry_caches, only_caches_volume in E2.
    destruct (erase_dir_entry v2 file) as [[r3 v3]|] eqn:E3; [|done]. intros [= <- <- <- <-].
    assert (E : same_volume (w_vol w) v2).
    { unfold found_node in Ef. destruct (get_vnode _ _) as [[[r0 w0] [n0|]]|] eqn:Eg; [|done|done]. injection Ef as -> ->.
      apply get_vnode_volume in Eg. transitivity v; [done|]. transitivity (w_vol w1); [done|]. by transitivity v1. }
    eapply moved_over; [done|done|done|done|done|].
    destruct (erase_moves w dir bl blf file Hp Hd Hi Hsane Hcase v2 _ _ E E3) as [(Hpl & -> & Her & _)|(Hpl & Hr & ->)];
      [by left|by right].
  - destruct (Z.eqb_spec e ENOENT) as [->|Hno]; cbn [andb]; [|intros [= <- <- <- <-]; by eapply moved_no_search].
    destruct (negb dups || _) eqn:Eu.
    2: { apply orb_false_iff in Eu as [Ed%negb_false_iff Eu]. subst dups. intros [= <- <- <- <-]. by eapply moved_other_case. }
    cbn [w_vol with_vol]. destruct (erase_dir_entry v file) as [[r1 v1]|] eqn:E1; [|done].
    destruct (erase_moves w dir bl blf file Hp Hd Hi Hsane Hcase v _ _ Ev E1) as [(Hpl & -> & Her & Hp1)|(Hpl & Hr & ->)].
    2: { change (with_vol v (with_vol v w)) with (with_vol v w). rewrite (proj2 (Z.eqb_neq r1 B_OK)) by (unfold B_OK; lia). intros [= <- <- <- <-]. by eapply moved_stale. }
    change (negb (B_OK =? B_OK)) with false. cbv iota.
    destruct (create_dir_entry v1 dir file newname) as [[[[[r2 v2] dir'] ns] ne]|] eqn:E2; [|done].
    change (with_vol v2 (with_vol v w)) with (with_vol v2 w). intros [= <- <- <- <-].
    specialize (Hp1 (volume_can_grow _ _ Ev (pa_grow _ _ _ Hp))). pose proof (pa_layout _ _ _ Hp1) as Hl1.
    pose proof (create_fixed _ _ _ _ _ _ _ _ _ E2) as [_ Id]. assert (Eid : vnid dir' = vnid dir) by (unfold ident in Id; congruence).
    destruct (create_dir_entry_spec v1 dir bl file newname r2 v2 dir' ns ne Hp1 Hname Hlen) as [(-> & Hcr)|(Hr & -> & Hs)]; [|done| |].
    { destruct Her as (v0 & E0 & Hv). destruct (same_volume_entries w dir bl blf file Hp Hd v0 E0) as (_ & Eb & _).
      unfold data_cluster in *. by rewrite (dir_is_bpb _ _ _ _ _ Hv), Eb. }
    + destruct Hcr as (nshort & nlong & len & bl' & Hsb & Hcr).
      destruct (put_node_spec dir' (with_vol v2 w) (cr_layout _ _ _ _ _ _ _ _ _ _ _ _ Hcr)) as (Hput & _ & Hnode).
      eapply (moved_new w odir oldname ndir dir bl blf newname file v found dups v1 _ dir' bl' nshort nlong len);
        [done..| |done|rewrite <-Eid; exact Hnode|apply (put_node_removed _ (with_vol v2 w))].
      apply (created_after v1 dir bl nshort nlong _ len ns ne v2 dir' bl' _ [] Hl1 Hcr (sf_layout _ _ Hput) (sf_table _ _ Hput)).
      * intros s Hf _. by apply (sf_cache _ _ Hput).
      * intros s _. apply not_elem_of_nil.
      * intros y s _ _ _. apply not_elem_of_nil.
    + destruct (put_node_spec dir (with_vol v2 w) (sf_layout _ _ Hs)) as (Hput & _ & _).
      eapply (moved_lost w odir oldname ndir dir bl blf newname file v found dups v1 v2);
        [done..| |apply (put_node_removed _ (with_vol v2 w))]. by transitivity v2.
Qed.

(** The small volume with five entries in its root directory. *)
Definition shelf : nspace := set_fBlockCache (<[3 := sample_block]> (fBlockCache tiny)) tiny.
Definition shelf_world : world := World shelf ∅ [].
Definition new_name : cstring := bytes_of "New Name".

Lemma shelf_layout : layout_ok shelf.
Proof. apply layout_okb_true. vm_compute. reflexivity. Qed.

Lemma shelf_directory : directory shelf 1 [3; 4; 5; 6; 7].
Proof.
  split; [|apply readable_all; [apply shelf_layout|vm_compute; reflexivity]|done|vm_compute; reflexivity|vm_compute; reflexivity].
  replace [3; 4; 5; 6; 7] with (seqZ (root_start shelf) (root_sectors shelf)) by (vm_compute; reflexivity).
  apply stream_root; [vm_compute; discriminate|reflexivity].
Qed.

Lemma shelf_parent : parent_ok shelf (root_vnode shelf) [3; 4; 5; 6; 7].
Proof.
  split; [exact shelf_layout|exact shelf_directory| | |vm_compute; reflexivity|vm_compute; reflexivity|].
  - replace [3; 4; 5; 6; 7] with (seqZ (root_start shelf) (root_sectors shelf)) by (vm_compute; reflexivity).
    apply dir_fixed; [vm_compute; discriminate|reflexivity].
  - apply grow_all; [exact shelf_layout|zdecide|vm_compute; reflexivity|vm_compute; reflexivity].
  - apply lfn_saneb_all. vm_compute. reflexivity.
Qed.

Lemma shelf_moved : exists w', rename_entry shelf_world (root_vnode shelf) (bytes_of "README") 1 new_name old_file
  = Some (B_OK, w', (4, 5, false), true).
Proof.
  assert (H : (match rename_entry shelf_world (root_vnode shelf) (bytes_of "README") 1 new_name old_file with
    | Some (r, _, p, d) => bool_decide ((r, p, d) = (B_OK, (4, 5, false), true)) | None => false end) = true)
    by (vm_compute; reflexivity).
  revert H. generalize (rename_entry shelf_world (root_vnode shelf) (bytes_of "README") 1 new_name old_file).
  intros [[[[r w'] p] d]|] H; [|discriminate]. apply bool_decide_eq_true in H as [= -> -> ->]. by exists w'.
Qed.

(** The file README gets the entries 4 and 5, the first of them its old one. *)
Lemma rename_entry_moves_witness :
  exists w', rename_entry shelf_world (root_vnode shelf) (bytes_of "README") 1 new_name old_file
    = Some (B_OK, w', (4, 5, false), true) /\
  entry_moved shelf_world (root_vnode shelf) (bytes_of "README") 1 (root_vnode shelf) [3; 4; 5; 6; 7] [3; 4; 5; 6; 7]
    new_name old_file B_OK w' (4, 5, false) true.
Proof.
  destruct shelf_moved as (w' & E). exists w'. split; [exact E|].
  apply (rename_entry_moves shelf_world (root_vnode shelf) (bytes_of "README") 1 (root_vnode shelf) [3; 4; 5; 6; 7]
    [3; 4; 5; 6; 7] new_name old_file B_OK w' (4, 5, false) true).
  - exact shelf_parent.
  - reflexivity.
  - exact shelf_directory.
  - left. split; reflexivity.
  - zdecide.
  - apply lfn_saneb_all. vm_compute. reflexivity.
  - left. reflexivity.
  - apply (bool_decide_eq_true_1 _). vm_compute. reflexivity.
  - vm_compute. discriminate.
  - exact E.
Defined.

(** ** A lost entry *)

(** The root directory without two free entries in a row. *)
Definition full_block (f : Z -> Z -> Z) : block := concat (map (fun j => map (f j) (seqZ 0 32)) (seqZ 0 16)).
Definition full_entry (j : Z) : Z -> Z :=
  if j <? 5 then sample_entry j else entry_image "KEPT       " FAT_ARCHIVE 0 0.
Definition crowded : nspace :=
  set_fBlockCache (<[3 := full_block full_entry]>
    (foldr (fun s => <[s := full_block (fun _ => full_entry 5)]>) (fBlockCache tiny) [4; 5; 6; 7])) tiny.
Definition readme_file : vnode := Vnode 0x100000004 1 None None 0 0 4 4 0 FAT_READ_ONLY 0 0 0 None false.
Definition crowded_world : world := World crowded {[0x100000004 := readme_file]} [].

(** README is moved to a name that takes two entries: the old entry is erased
    before the new one is known to have room, and no entry of the file is left
    when [dosfs_rename] fails. *)
Lemma rename_loses_entry :
  dirent crowded [3; 4; 5; 6; 7] 4 0 = 0x52 /\
  exists w', dosfs_rename crowded_world 1 (bytes_of "README") 1 new_name = Some (B_DEVICE_FULL, w') /\
    dirent (w_vol w') [3; 4; 5; 6; 7] 4 0 = 0xe5 /\
    option_map (fun '(r, _, _, _) => r) (findfile_nocase (w_vol w') (root_vnode (w_vol w')) (bytes_of "README")) = Some ENOENT /\
    option_map (fun '(r, _, _, _) => r) (findfile_nocase (w_vol w') (root_vnode (w_vol w')) new_name) = Some ENOENT.
Proof.
  split; [vm_compute; reflexivity|].
  assert (H : (match dosfs_rename crowded_world 1 (bytes_of "README") 1 new_name with
    | Some (r, w') => bool_decide (r = B_DEVICE_FULL /\ dirent (w_vol w') [3; 4; 5; 6; 7] 4 0 = 0xe5 /\
        option_map (fun '(r, _, _, _) => r) (findfile_nocase (w_vol w') (root_vnode (w_vol w')) (bytes_of "README")) = Some ENOENT /\
        option_map (fun '(r, _, _, _) => r) (findfile_nocase (w_vol w') (root_vnode (w_vol w')) new_name) = Some ENOENT)
    | None => false end) = true) by (vm_compute; reflexivity).
  revert H. generalize (dosfs_rename crowded_world 1 (bytes_of "README") 1 new_name).
  intros [[r w']|] H; [|discriminate]. apply bool_decide_eq_true in H as [-> H]. by exists w'.
Qed.
