(* ===== verification/ListDir.v ===== *)
(** Listing a directory: a reader that calls [dosfs_readdir] (dir.c) again and
    again with the cookie the last call has left. *)
From Stdlib Require Import String Ascii.
From stdpp Require Import base gmap list relations.
From Stdlib Require Import ZArith Lia.
From S2P Require Import Prelude Errors Volume Fat FatEntry FatIoctl FatTable FatChain Sample Vcache Dlist Util Attr Iter Stream StreamSpec Dirent EntrySpec Resize Dir DirScan Encodings EncodingsSpec DirSpec Dosfs FileMap File Hooks Lookups MkdirSpec VnodeId.

Implicit Types vol v : nspace.

(** ** The entries a reader sees *)

Definition is_root vol (dir : vnode) : bool := vnid dir =? vnid (root_vnode vol).

(** Volume labels are hidden, in the root directory. *)
Definition hidden vol (dir : vnode) bl (j : Z) : bool := flag (dirent_mode vol bl j) FAT_VOLUME && is_root vol dir.

(** The entries from [i] on, up to the end mark: the next [k], each with the
    entry where the scan for it begins.  [b] is where the scan under way has
    begun: it begins anew behind each entry with a short name. *)
Fixpoint visible_from vol (dir : vnode) (bl : list Z) (k : nat) (b i : Z) : list (Z * Z) :=
  match k with
  | O => []
  | S k =>
      match kind vol bl i with
      | Free_rest => []
      | Short =>
          if hidden vol dir bl i then visible_from vol dir bl k (i + 1) (i + 1)
          else (b, i) :: visible_from vol dir bl k (i + 1) (i + 1)
      | Erased | Long_part => visible_from vol dir bl k b (i + 1)
      end
  end.

(** What a call gives the reader: a name, a node id and the next cookie; and
    the volume as the call leaves it. *)
Record listed := Listed { it_name : cstring; it_id : Z; it_cookie : Z; it_volume : nspace }.

(** The reader. *)
Fixpoint read_all `{Encodings} (calls : nat) vol (dir : vnode) (i size : Z) : option (Z * nspace * list listed) :=
  match calls with
  | O => None
  | S calls =>
      match dosfs_readdir vol dir i size with
      | None => None
      | Some (r, v, _, None) => Some (r, v, [])
      | Some (r, v, i', Some (name, id, _)) =>
          '(r, w, l) ← read_all calls v dir i' size; Some (r, w, Listed name id i' v :: l)
      end
  end.

(** Where the node of entry [j] is, whose name begins at entry [s]: the place
    its id says when it is not in the cache. *)
Definition location vol (dir : vnode) bl (s j : Z) : Z :=
  if IS_DATA_CLUSTER vol (dirent_cluster vol bl j)
  then GENERATE_DIR_CLUSTER_VNID (vnid dir) (dirent_cluster vol bl j)
  else GENERATE_DIR_INDEX_VNID (vnid dir) s.

(** The id leads to the location: by the cache, or else as it says. *)
Definition leads_to vol (id loc : Z) : Prop :=
  match vcache_vnid_to_loc vol id with (_, Some l) => l | (_, None) => id end = loc.

Definition room_for_name (size : Z) : Z := i32 (size - sizeof_dirent - 1).

(** What is reported for entry [j], found by a scan from [b] on. *)
Definition reported `{Encodings} vol (dir : vnode) bl (size : Z) (e : listed) (p : Z * Z) : Prop :=
  let '(b, j) := p in
  it_cookie e = j + 1 + (if is_root vol dir then 2 else 0) /\
  exists s, named vol bl b j (room_for_name size) s (it_name e) /\
    if decide (it_name e = dot) then it_id e = vnid dir
    else if decide (it_name e = dotdot) then it_id e = dir_vnid dir
    else leads_to (it_volume e) (it_id e) (location vol dir bl s j).

Lemma visible_ge vol dir bl k b i p : p ∈ visible_from vol dir bl k b i -> i <= snd p.
Proof.
  revert b i. induction k as [|k IH]; intros b i; cbn [visible_from]; [by intros ?%not_elem_of_nil|].
  destruct (kind vol bl i); [by intros ?%not_elem_of_nil|intros H%IH; lia..|].
  destruct (hidden vol dir bl i); [intros H%IH; lia|]. intros [->|H%IH]%elem_of_cons; simpl; lia.
Qed.

Section Visible.
Context `{Encodings} vol (Hlo : layout_ok vol) (dir : vnode) (bl : list Z) (Hd : directory vol (cluster dir) bl).
Context (len : Z) (Hlen : 15 <= len) (Hsane : forall t, 0 <= t < dir_entries vol bl -> lfn_sane vol bl t).

Let n := dir_entries vol bl.
Let rest (b i : Z) : list (Z * Z) := visible_from vol dir bl (Z.to_nat (n - i)) b i.

(** Skipping to where the scan stops. *)
Lemma visible_stops b i j : 0 <= i -> stops_at vol bl i j -> rest b i = rest b j.
Proof using.
  intros Hi (Hj & Hm & _). unfold rest. remember (Z.to_nat (j - i)) as k eqn:Ek. revert i Hi Hj Hm Ek.
  induction k as [|k IH]; intros i Hi Hj Hm Ek; [by replace i with j by lia|].
  rewrite <-(IH (i + 1)); [|lia|fold n in Hj |- *; lia|intros t Ht; apply Hm; lia|lia].
  replace (Z.to_nat (n - i)) with (S (Z.to_nat (n - (i + 1)))) by (fold n in Hj; lia). cbn [visible_from].
  destruct (Hm i ltac:(lia)) as [-> | ->]; done.
Qed.

(** What one search for a visible entry finds. *)
Lemma visible_loop (k : nat) i d bound :
  at_pos vol (cluster dir) bl i d -> n - i <= Z.of_nat k -> Z.of_nat k < bound ->
  exists r d' o, z_loop (visible_step vol dir len) bound d = Brk (Some (r, d', o)) /\
    match o with
    | Some (info, name) => r = B_OK /\ exists b j, rest i i = (b, j) :: rest (j + 1) (j + 1) /\ 0 <= b /\ i <= j /\
        info_of vol bl b j info /\ at_pos vol (cluster dir) bl (j + 1) d' /\ named vol bl b j len (di_sindex info) name
    | None => r = ENOENT /\ rest i i = [] \/
        r = ENAMETOOLONG /\ exists b j s, 0 <= b /\ too_long vol bl b j len s /\ kind vol bl j = Short /\ j < n
    end.
Proof using All.
  revert i d bound. induction k as [|k IH]; intros i d bound Hat Hk Hb; rewrite z_loop_step by lia; unfold visible_step at 1.
  - pose proof Hat as [Hr Hn]. fold n in Hr, Hn. rewrite (proj2 (Z.ltb_ge i n)) in Hn by lia. destruct Hn as [Hn _].
    unfold _next_dirent_. rewrite Hn. exists ENOENT, d, None. split; [done|]. left. split; [done|].
    unfold rest. by replace (Z.to_nat (n - i)) with 0%nat by lia.
  - destruct (Z.lt_ge_cases i n) as [Hin|Hin].
    2: { pose proof Hat as [Hr Hn]. fold n in Hr, Hn. rewrite (proj2 (Z.ltb_ge i n)) in Hn by lia. destruct Hn as [Hn _].
         unfold _next_dirent_. rewrite Hn. exists ENOENT, d, None. split; [done|]. left. split; [done|].
         unfold rest. by replace (Z.to_nat (n - i)) with 0%nat by lia. }
    assert (Hi : 0 <= i) by apply Hat.
    destruct (next_dirent_names vol Hlo _ bl Hd i d len Hat) as (j & Hst & Hout); [fold n; lia|done|intros; apply Hsane; lia|].
    rewrite (visible_stops i i j Hi Hst). pose proof Hst as (Hij & _ & _). fold n in Hij, Hout.
    destruct Hout as [(Hj & d' & -> & Hat')|((Hks & Hjn) & [(d' & s & -> & Hs & _)|(d' & info & name & -> & Hinfo & Hat' & Hname)])].
    + exists ENOENT, d', None. split; [done|]. left. split; [done|]. unfold rest.
      destruct Hj as [->|Hj]; [by rewrite Z.sub_diag|]. destruct (Z.to_nat (n - j)); [done|]. cbn [visible_from]. by rewrite Hj.
    + exists ENAMETOOLONG, d', None. split; [done|]. right. split; [done|]. by exists i, j, s.
    + assert (Erest : rest i j = if hidden vol dir bl j then rest (j + 1) (j + 1) else (i, j) :: rest (j + 1) (j + 1)).
      { unfold rest. replace (Z.to_nat (n - j)) with (S (Z.to_nat (n - (j + 1)))) by lia. cbn [visible_from]. by rewrite Hks. }
      change (B_OK <? 0) with false. cbv iota. rewrite (io_mode _ _ _ _ _ Hinfo). fold (is_root vol dir). fold (hidden vol dir bl j).
      rewrite Erest. destruct (hidden vol dir bl j).
      * destruct (IH (j + 1) d' (bound - 1) Hat' ltac:(lia) ltac:(lia)) as (r & d2 & o & E & Ho). exists r, d2, o.
        split; [exact E|]. destruct o as [[info2 name2]|]; [|exact Ho].
        destruct Ho as (Hr & b & j' & Er & Hb0 & Hij' & Ho). split; [done|]. exists b, j'. split; [done|]. split; [lia|]. split; [lia|done].
      * exists B_OK, d', (Some (info, name)). split; [done|]. split; [done|]. exists i, j. split; [done|]. split; [lia|]. split; [lia|done].
Qed.

End Visible.

(** ** The ids *)

(** What the memory is asked for: the outcomes left are a rest of those before,
    and an operation that fails for want of memory met a failure. *)
Definition later vol v : Prop := heap v `suffix_of` heap vol.
#[export] Instance later_preorder : PreOrder later.
Proof. split; [intros vol; unfold later; reflexivity|]. intros x y z H1 H2. unfold later in *. by etrans. Qed.

Lemma later_failure vol v : later vol v -> false ∈ heap v -> false ∈ heap vol.
Proof. intros [l E] H. rewrite E. set_solver. Qed.

Lemma malloc_later vol ok v : malloc_ok vol = (ok, v) ->
  later vol v /\ ns_vcache v = ns_vcache vol /\ (ok = false -> false ∈ heap vol).
Proof.
  unfold malloc_ok, later. destruct (heap vol) as [|b r] eqn:E; intros [= <- <-]; rewrite ?E; [done|].
  split_and!; [by exists [b]|done|]. intros ->. left.
Qed.

Lemma add_later vol id loc r v : add_to_vcache vol id loc = (r, v) ->
  later vol v /\ cur_vnid (ns_vcache v) = cur_vnid (ns_vcache vol) /\ (r = ENOMEM -> false ∈ heap vol).
Proof.
  unfold add_to_vcache, _add_to_vcache_. destruct (malloc_ok vol) as [ok w] eqn:E. apply malloc_later in E as (E1 & E2 & E3).
  destruct ok; intros [= <- <-]; (split; [exact E1|]); (split; [simpl; by rewrite E2|]); [done|auto].
Qed.

(** The cache holds a map, and the next [k] ids that are made up are neither in
    it nor like a location. *)
Definition ids_free (k : Z) vol : Prop :=
  exists m, vc_maps vol m /\ - 2 ^ 63 <= cur_vnid (ns_vcache vol) /\ cur_vnid (ns_vcache vol) + k < 2 ^ 63 /\
    forall x, cur_vnid (ns_vcache vol) <= x < cur_vnid (ns_vcache vol) + k -> m !! x = None /\ IS_ARTIFICIAL_VNID x = true.

Lemma vc_maps_tables vol v m :
  by_vnid (ns_vcache v) = by_vnid (ns_vcache vol) -> by_loc (ns_vcache v) = by_loc (ns_vcache vol) ->
  cache_size (ns_vcache v) = cache_size (ns_vcache vol) -> vc_maps vol m -> vc_maps v m.
Proof. intros E1 E2 E3 [H1 H2 H3 H4]. split; [| |done|done]; unfold hash in *; by rewrite ?E1, ?E2, E3. Qed.

Lemma ids_free_less k k' vol : 0 <= k' <= k -> ids_free k vol -> ids_free k' vol.
Proof. intros Hk (m & H1 & H2 & H3 & H4). exists m. split_and!; [done|done|lia|]. intros x Hx. apply H4. lia. Qed.

Lemma ids_free_same k vol v : ns_vcache v = ns_vcache vol -> ids_free k vol -> ids_free k v.
Proof. intros E (m & H1 & H2). exists m. rewrite E. split; [|done]. by apply (vc_maps_tables vol); rewrite ?E. Qed.

Lemma leads_to_same vol v id loc : ns_vcache v = ns_vcache vol -> leads_to vol id loc -> leads_to v id loc.
Proof. intros E. unfold leads_to, vcache_vnid_to_loc, _find_vnid_in_vcache_, hash. by rewrite E. Qed.

Lemma leads_to_map vol m id loc : vc_maps vol m -> default id (m !! id) = loc -> leads_to vol id loc.
Proof.
  intros Hm E. unfold leads_to, vcache_vnid_to_loc. rewrite (find_vnid_spec vol m Hm). by destruct (m !! id).
Qed.

(** The location of an entry is no made up id. *)
Lemma dirent_byte vol bl i k : layout_ok vol -> is_byte (dirent vol bl i k).
Proof.
  intros Hlo. unfold dirent. destruct (dirent_ptr vol bl i); [|unfold is_byte; lia].
  apply peek_byte, ok_blocks, (lo_fat _ Hlo).
Qed.

Lemma dirent_cluster_range vol bl i : layout_ok vol -> 0 <= dirent_cluster vol bl i < 2 ^ 32.
Proof.
  intros Hlo. unfold dirent_cluster, dirent16. pose proof (fun k => dirent_byte vol bl i k Hlo) as B. unfold is_byte in B.
  pose proof (B 0x1a). pose proof (B (0x1a + 1)). pose proof (B 0x14). pose proof (B (0x14 + 1)). destruct (_ =? _); lia.
Qed.

Lemma location_true vol dir bl s j :
  layout_ok vol -> vnid dir mod 2 ^ 32 < 2 ^ 28 -> 0 <= s < 2 ^ 32 -> IS_ARTIFICIAL_VNID (location vol dir bl s j) = false.
Proof.
  intros Hlo Hd Hs. pose proof (dirent_cluster_range vol bl j Hlo) as Hc. pose proof (Z.mod_pos_bound (vnid dir) (2 ^ 32) ltac:(lia)).
  unfold location, IS_ARTIFICIAL_VNID. destruct (IS_DATA_CLUSTER _ _).
  - rewrite dir_cluster_vnid_eq by done. destruct (vnid_bits (vnid dir mod 2 ^ 32) (dirent_cluster vol bl j)) as [_ ->]; [lia|done|done].
  - rewrite dir_index_vnid_eq by done. destruct (vnid_bits (vnid dir mod 2 ^ 32) s) as [-> _]; [lia|done|done].
Qed.

Lemma assign_leads vol dir bl b j info k :
  layout_ok vol -> vnid dir mod 2 ^ 32 < 2 ^ 28 -> 0 <= b -> j < 2 ^ 32 -> info_of vol bl b j info ->
  0 <= k -> ids_free (k + 1) vol ->
  exists r v id added, assign_vnid vol dir info = (r, v, id, added) /\ later vol v /\
    (r = B_OK /\ ids_free k v /\ leads_to v id (location vol dir bl (di_sindex info) j) \/
     r <> B_OK /\ r <> ENOENT /\ r <> ENAMETOOLONG /\ false ∈ heap vol).
Proof.
  intros Hlo Hdir Hb Hj Hinfo Hk Hids. pose proof Hids as (m & Hm & H1 & H2 & H3).
  assert (Eloc : location vol dir bl (di_sindex info) j =
    (if IS_DATA_CLUSTER vol (di_cluster info) then GENERATE_DIR_CLUSTER_VNID (vnid dir) (di_cluster info)
     else GENERATE_DIR_INDEX_VNID (vnid dir) (di_sindex info))) by (unfold location; by rewrite (io_cluster _ _ _ _ _ Hinfo)).
  assert (Hart : IS_ARTIFICIAL_VNID (location vol dir bl (di_sindex info) j) = false).
  { apply location_true; [done|done|]. destruct Hinfo. lia. }
  unfold assign_vnid. rewrite <-Eloc. set (loc := location vol dir bl (di_sindex info) j) in *.
  unfold vcache_loc_to_vnid. destruct (_find_loc_in_vcache_ vol loc) as [e|] eqn:Ef.
  - apply (find_loc_spec vol m Hm) in Ef as [Ef _]. eexists _, _, _, _. split; [reflexivity|]. split; [done|]. left.
    split; [done|]. split; [by eapply ids_free_less; [|exact Hids]; lia|]. apply (leads_to_map vol m); [done|]. by rewrite Ef.
  - change (ENOENT =? ENOENT) with true. cbv iota.
    assert (Hno : forall x, m !! x <> Some loc).
    { intros x Hx. assert (_find_loc_in_vcache_ vol loc = Some (VEntry x loc)) as E by by apply (find_loc_spec vol m Hm). congruence. }
    unfold find_vnid_in_vcache, vcache_vnid_to_loc. rewrite (find_vnid_spec vol m Hm). destruct (m !! loc) as [l|] eqn:El; cbn [fmap option_fmap option_map fst].
    2: { change (ENOENT =? B_OK) with false. cbv iota. eexists _, _, _, _. split; [reflexivity|]. split; [done|]. left. split; [done|].
         split; [by eapply ids_free_less; [|exact Hids]; lia|]. apply (leads_to_map vol m); [done|]. by rewrite El. }
    change (B_OK =? B_OK) with true. cbv iota. unfold generate_unique_vnid. set (u := cur_vnid (ns_vcache vol)) in *.
    set (v0 := upd_vcache (set_cur_vnid (i64 (u + 1))) vol).
    assert (Hm0 : vc_maps v0 m) by by apply (vc_maps_tables vol).
    destruct (H3 u ltac:(lia)) as [Hu Hua].
    destruct (add_to_vcache v0 u loc) as [r v] eqn:Ea. pose proof (add_later _ _ _ _ _ Ea) as (L & Ec & Ln).
    destruct (add_spec v0 m Hm0 u loc Hu Hno) as (v' & _ & Hv'); [intros ->; congruence|]. unfold add_to_vcache in Ea.
    destruct (fst (malloc_ok v0)); destruct Hv' as [E Hm']; rewrite E in Ea; injection Ea as <- <-.
    + eexists _, _, _, _. split; [reflexivity|]. split; [exact L|]. left. split; [done|].
      assert (Ecur : cur_vnid (ns_vcache v') = u + 1) by (rewrite Ec; simpl; unfold i64; destruct (Z.ltb_spec ((u + 1) mod 2 ^ 64) (2 ^ 63)); zlia). split.
      * exists (<[u := loc]> m). rewrite Ecur. split; [done|]. split; [lia|]. split; [lia|]. intros x Hx.
        rewrite lookup_insert_ne by lia. apply H3. lia.
      * apply (leads_to_map v' (<[u := loc]> m)); [done|]. by rewrite lookup_insert_eq.
    + eexists _, _, _, _. split; [reflexivity|]. split; [exact L|]. right. split_and!; try done. by apply Ln.
Qed.

Lemma remove_later vol id r v : remove_from_vcache vol id = (r, v) -> later vol v.
Proof.
  unfold remove_from_vcache, _remove_from_vcache_. destruct (chain_unlink _ _) as [[c l]|]; [|by intros [= <- <-]].
  cbv zeta. destruct (chain_unlink _ _) as [[c2 l2]|]; intros [= <- <-]; unfold later; reflexivity.
Qed.

Lemma dlist_add_later vol id r v : dlist_add vol id = (r, v) ->
  later vol v /\ ns_vcache v = ns_vcache vol /\
  (r = B_OK \/ r <> B_OK /\ r <> ENOENT /\ r <> ENAMETOOLONG /\ false ∈ heap vol).
Proof.
  unfold dlist_add. destruct (_ =? _); [|intros [= <- <-]; split_and!; [unfold later; reflexivity|done|by left]]. unfold dlist_realloc.
  destruct (malloc_ok vol) as [ok w] eqn:E. apply malloc_later in E as (E1 & E2 & E3).
  destruct ok; intros [= <- <-]; (split; [exact E1|]); (split; [done|]); [by left|right]. split_and!; try done. by apply E3.
Qed.

(** ** One call *)

Section Call.
Context `{Encodings} (dir : vnode) (bl : list Z) (size : Z) (Hsize : 15 <= i32 (size - sizeof_dirent - 1)).

(** A volume the reader may meet: the first one, or one whose caches only have
    changed. *)
Record listable vol : Prop := {
  li_layout : layout_ok vol;
  li_dir : directory vol (cluster dir) bl;
  li_sane : forall t, 0 <= t < dir_entries vol bl -> lfn_sane vol bl t
}.

Lemma listable_caches vol v : listable vol -> only_caches vol v ->
  listable v /\ ns_bpb v = ns_bpb vol /\ root_vnode v = root_vnode vol /\
  forall i k, dirent v bl i k = dirent vol bl i k.
Proof using.
  intros [Hlo Hd Hs] Hv. pose proof (caches_same_files _ _ Hlo Hv) as Hf. pose proof (sf_table _ _ Hf) as [Eb _].
  assert (Hbl : forall s, s ∈ bl -> fBlockCache v !! s = fBlockCache vol !! s).
  { intros s Hin. apply (sf_cache _ _ Hf). eapply stream_file_block; [done|apply Hd|done]. }
  assert (Hb : forall i k, dirent v bl i k = dirent vol bl i k) by (intros; by apply dirent_ext).
  split_and!; [|done|by apply only_caches_root|done]. split.
  - apply Hf.
  - apply (directory_ext vol); [done| |done|done]. eapply stream_same; [apply Hf|apply Hd].
  - intros t Ht. rewrite Eb in Ht. unfold lfn_sane. rewrite (kind_ext vol v), Hb by done. by apply Hs.
Qed.

Lemma visible_same vol v k b i : vnid (root_vnode v) = vnid (root_vnode vol) ->
  (forall i k, dirent v bl i k = dirent vol bl i k) -> visible_from v dir bl k b i = visible_from vol dir bl k b i.
Proof using.
  intros Er Hb. revert b i. induction k as [|k IH]; intros b i; [done|]. cbn [visible_from].
  rewrite (kind_ext vol v) by done. unfold hidden, dirent_mode, is_root. rewrite Hb, Er, !IH. done.
Qed.

Let rest vol (i : Z) : list (Z * Z) := visible_from vol dir bl (Z.to_nat (dir_entries vol bl - i)) i i.
Let skip vol : Z := if is_root vol dir then 2 else 0.

(** The status of a search that finds nothing, and why. *)
Definition no_entry vol (len : Z) (r : Z) : Prop :=
  r = ENAMETOOLONG /\ (exists b j s, 0 <= b /\ too_long vol bl b j len s /\ kind vol bl j = Short /\ j < dir_entries vol bl) \/
  r <> B_OK /\ r <> ENOENT /\ r <> ENAMETOOLONG /\ false ∈ heap vol.

Lemma next_visible vol i d len k :
  listable vol -> at_pos vol (cluster dir) bl i d -> i < dir_entries vol bl -> 15 <= len ->
  vnid dir mod 2 ^ 32 < 2 ^ 28 -> 0 <= k -> ids_free (k + 1) vol ->
  exists r v d' o, get_next_dirent vol dir d len = Some (r, v, d', o) /\ later vol v /\
    match o with
    | Some (name, id) => r = B_OK /\ ids_free k v /\ exists b j s, rest vol i = (b, j) :: rest vol (j + 1) /\ i <= j /\
        named vol bl b j len s name /\ at_pos vol (cluster dir) bl (j + 1) d' /\
        (if decide (name = dot) then id = vnid dir else if decide (name = dotdot) then id = dir_vnid dir
         else leads_to v id (location vol dir bl s j))
    | None => r = ENOENT /\ rest vol i = [] \/ no_entry vol len r
    end.
Proof using.
  intros [Hlo Hd Hs] Hat Hi Hlen Hdir Hk Hids. pose proof (n_small vol Hlo _ bl Hd) as Hn. pose proof Hat as [Hri _].
  destruct (visible_loop vol Hlo dir bl Hd len Hlen Hs (Z.to_nat (dir_entries vol bl)) i d scan_bound Hat)
    as (r & d' & o & E & Hout); [lia|unfold scan_bound; lia|].
  unfold get_next_dirent. rewrite E. destruct o as [[info name]|].
  2: { exists r, vol, d', None. split; [done|]. split; [done|]. destruct Hout as [?|[-> Hr]]; [by left|right; by left]. }
  destruct Hout as (-> & b & j & Hr & Hb & Hij & Hinfo & Hat' & Hname). pose proof Hat' as [Hj _].
  assert (Hids' : ids_free k vol) by (by eapply ids_free_less; [|exact Hids]; lia).
  destruct (decide (name = dot)) as [Ed|Ed].
  { exists B_OK, vol, d', (Some (name, vnid dir)). split; [done|]. split; [done|]. split; [done|]. split; [done|].
    exists b, j, (di_sindex info). split_and!; try done. by rewrite decide_True. }
  destruct (decide (name = dotdot)) as [Edd|Edd].
  { exists B_OK, vol, d', (Some (name, dir_vnid dir)). split; [done|]. split; [done|]. split; [done|]. split; [done|].
    exists b, j, (di_sindex info). split_and!; try done. by rewrite decide_False, decide_True. }
  destruct (assign_leads vol dir bl b j info k Hlo Hdir Hb ltac:(lia) Hinfo Hk Hids) as (r1 & v1 & id & added & E1 & L1 & Hc).
  rewrite E1. destruct Hc as [(-> & I1 & Hl)|(H1 & H2 & H3 & H4)].
  2: { rewrite (proj2 (Z.eqb_neq r1 B_OK) H1). cbn [negb]. exists r1, v1, d', None. split; [done|]. split; [done|]. right. by right. }
  rewrite Z.eqb_refl. cbn [negb].
  assert (Hok : forall w, later vol w -> ns_vcache w = ns_vcache v1 ->
    exists r v d0 o, Some (B_OK, w, d', Some (name, id)) = Some (r, v, d0, o) /\ later vol v /\
    match o with
    | Some (name, id) => r = B_OK /\ ids_free k v /\ exists b j s, rest vol i = (b, j) :: rest vol (j + 1) /\ i <= j /\
        named vol bl b j len s name /\ at_pos vol (cluster dir) bl (j + 1) d0 /\
        (if decide (name = dot) then id = vnid dir else if decide (name = dotdot) then id = dir_vnid dir
         else leads_to v id (location vol dir bl s j))
    | None => r = ENOENT /\ rest vol i = [] \/ no_entry vol len r
    end).
  { intros w Lw Ew. exists B_OK, w, d', (Some (name, id)). split; [done|]. split; [done|]. split; [done|].
    split; [by apply (ids_free_same k v1)|]. exists b, j, (di_sindex info). split_and!; try done.
    rewrite !decide_False by done. by apply (leads_to_same v1). }
  destruct (_ && _); [|by apply Hok]. destruct (dlist_add v1 id) as [r2 v2] eqn:E2.
  apply dlist_add_later in E2 as (L2 & Ev & [->|(H1 & H2 & H3 & H4)]).
  - change (B_OK <? 0) with false. cbv iota. apply Hok; [by transitivity v1|done].
  - destruct (Z.ltb_spec r2 0) as [Hneg|Hpos].
    + eexists r2, _, d', None. split; [done|]. split.
      * transitivity v1; [done|]. transitivity v2; [done|]. destruct added; [|done].
        destruct (remove_from_vcache v2 id) as [r3 v3] eqn:E3. by eapply remove_later.
      * right. right. split_and!; try done. by eapply later_failure.
    + apply Hok; [by transitivity v1|done].
Qed.

Lemma readdir_call vol i k :
  listable vol -> 0 <= i <= dir_entries vol bl -> vnid dir mod 2 ^ 32 < 2 ^ 28 -> 0 <= k -> ids_free (k + 1) vol ->
  exists r v i' o, dosfs_readdir vol dir (i + skip vol) size = Some (r, v, i', o) /\ later vol v /\
    match o with
    | Some (name, id, _) => r = B_OK /\ ids_free k v /\ exists b j, rest vol i = (b, j) :: rest vol (j + 1) /\
        0 <= j < dir_entries vol bl /\ i' = j + 1 + skip vol /\ reported vol dir bl size (Listed name id i' v) (b, j)
    | None => r = B_OK /\ rest vol i = [] \/ no_entry vol (room_for_name size) r
    end.
Proof using Hsize.
  intros Hli Hi Hdir Hk Hids. pose proof Hli as [Hlo Hd Hs]. pose proof (n_small vol Hlo _ bl Hd) as Hn.
  unfold dosfs_readdir. fold (is_root vol dir).
  assert (E1 : is_root vol dir && negb (2 <=? i + skip vol) = false).
  { unfold skip. destruct (is_root vol dir); [|done]. by rewrite (proj2 (Z.leb_le _ _)) by lia. }
  assert (E2 : (if is_root vol dir then i + skip vol - 2 else i + skip vol) = i) by (unfold skip; destruct (is_root vol dir); lia).
  rewrite E1, E2. destruct (Z.eq_dec i (dir_entries vol bl)) as [->|Hne].
  { pose proof (diri_init_spec vol Hlo _ bl (dir_entries vol bl) no_diri (dr_stream _ _ _ Hd) (dr_read _ _ _ Hd)
      ltac:(lia) (dr_start _ _ _ Hd) (dr_len _ _ _ Hd)) as Hinit.
    destruct (diri_init vol (cluster dir) _ no_diri) as [q d]. destruct Hinit as [-> _].
    rewrite (dirent_ptr_none vol Hlo bl) by lia. exists B_OK, vol, (dir_entries vol bl), None. split; [done|]. split; [done|].
    left. split; [done|]. unfold rest. by rewrite Z.sub_diag. }
  pose proof (init_at_pos vol Hlo _ bl Hd i no_diri ltac:(lia)) as Hinit.
  destruct (diri_init vol (cluster dir) i no_diri) as [q d]. destruct Hinit as [-> Hat].
  destruct (dirent_ptr_some vol Hlo _ bl Hd i ltac:(lia)) as (p & -> & _). fold (room_for_name size).
  destruct (next_visible vol i d (room_for_name size) k Hli Hat ltac:(lia) Hsize Hdir Hk Hids) as (r & v & d' & o & -> & Lv & Ho).
  destruct o as [[name id]|].
  - destruct Ho as (-> & Iv & b & j & s & Hr & Hij & Hname & Hat' & Hid). rewrite Z.eqb_refl.
    pose proof Hat' as [Hj _]. rewrite (at_pos_current vol _ _ _ _ Hat').
    assert (Ei : (if is_root vol dir then u32 (j + 1 + 2) else j + 1) = j + 1 + skip vol).
    { unfold skip. destruct (is_root vol dir); [|lia]. rewrite u32_small; lia. }
    rewrite Ei. eexists B_OK, v, _, _. split; [done|]. split; [done|]. split; [done|]. split; [done|]. exists b, j. split; [done|].
    split; [lia|]. split; [done|]. split; [done|]. by exists s.
  - destruct Ho as [[-> Hr]|Hno].
    + change (ENOENT =? B_OK) with false. change (ENOENT =? ENOENT) with true. cbv iota. eexists _, v, _, None.
      split; [done|]. split; [done|]. by left.
    + assert (r <> B_OK /\ r <> ENOENT) as [H1 H2] by (destruct Hno as [[-> _]|(? & ? & _)]; done).
      rewrite (proj2 (Z.eqb_neq r B_OK) H1), (proj2 (Z.eqb_neq r ENOENT) H2). eexists _, v, _, None.
      split; [done|]. split; [done|]. by right.
Qed.
End Call.

(** ** All calls *)

Section Same.
Context `{Encodings} vol v (dir : vnode) (bl : list Z) (Eb : ns_bpb v = ns_bpb vol) (Er : vnid (root_vnode v) = vnid (root_vnode vol)).
Context (Hb : forall i k, dirent v bl i k = dirent vol bl i k).

Lemma location_ext s j : location v dir bl s j = location vol dir bl s j.
Proof using Eb Hb.
  unfold location, dirent_cluster, dirent16, IS_DATA_CLUSTER. by rewrite !Hb, Eb.
Qed.

Lemma reported_ext size e p : reported v dir bl size e p -> reported vol dir bl size e p.
Proof using Eb Er Hb.
  destruct p as [b j]. intros [H1 (s & H2 & H3)]. split; [by rewrite H1; unfold is_root; rewrite Er|].
  exists s. split; [by apply (named_ext vol v)|]. by rewrite location_ext in H3.
Qed.

Lemma no_entry_ext len r : later vol v -> no_entry bl v len r -> no_entry bl vol len r.
Proof using Eb Hb.
  intros L [[-> (b & j & s & Hb0 & [Hs (h & text & Hl & Hu)] & Hk & Hj)]|(H1 & H2 & H3 & H4)]; [left|right].
  - split; [done|]. exists b, j, s. rewrite <-(kind_ext vol v) by done. rewrite <-Eb. split_and!; try done.
    split; [done|]. exists h, text. split; [by apply (long_name_ext vol v)|done].
  - split_and!; try done. by eapply later_failure.
Qed.
End Same.

Lemma read_all_spec `{Encodings} dir bl size (calls : nat) vol i :
  15 <= room_for_name size -> listable dir bl vol -> vnid dir mod 2 ^ 32 < 2 ^ 28 -> ids_free (Z.of_nat calls) vol ->
  0 <= i <= dir_entries vol bl -> dir_entries vol bl - i < Z.of_nat calls ->
  exists r v l js, read_all calls vol dir (i + if is_root vol dir then 2 else 0) size = Some (r, v, l) /\
    only_caches vol v /\ Forall2 (reported vol dir bl size) l js /\
    (r = B_OK /\ js = visible_from vol dir bl (Z.to_nat (dir_entries vol bl - i)) i i \/
     js `prefix_of` visible_from vol dir bl (Z.to_nat (dir_entries vol bl - i)) i i /\ no_entry bl vol (room_for_name size) r).
Proof.
  intros Hsize. revert vol i. induction calls as [|calls IH]; intros vol i Hli Hdir Hids Hi Hc; [lia|]. cbn [read_all].
  destruct (readdir_call dir bl size Hsize vol i (Z.of_nat calls) Hli Hi Hdir ltac:(lia)) as (r & v & i' & o & E & Lv & Ho).
  { by replace (Z.of_nat calls + 1) with (Z.of_nat (S calls)) by lia. }
  rewrite E. pose proof (readdir_caches vol dir _ size r v i' o E) as Hv. destruct o as [[[name id] reclen]|].
  2: { exists r, v, [], []. split; [done|]. split; [done|]. split; [constructor|].
       destruct Ho as [[-> Hr]|Ho]; [by left|right]. split; [apply prefix_nil|done]. }
  destruct Ho as (-> & Iv & b & j & Hrest & Hj & Ei & Hrep).
  destruct (listable_caches dir bl vol v Hli Hv) as (Hlv & Eb & Eroot & Hb).
  assert (Eroot' : is_root v dir = is_root vol dir) by (unfold is_root; by rewrite Eroot).
  assert (Hij : i <= j) by (apply (visible_ge vol dir bl (Z.to_nat (dir_entries vol bl - i)) i i (b, j)); rewrite Hrest; left).
  destruct (IH v (j + 1) Hlv Hdir Iv) as (r2 & v2 & l & js & E2 & Hv2 & Hall & Hout); [rewrite Eb; lia|rewrite Eb; lia|].
  rewrite Eroot' in E2. rewrite <-Ei in E2. rewrite E2. cbn [mbind option_bind].
  exists r2, v2, (Listed name id i' v :: l), ((b, j) :: js). split; [done|]. split; [by transitivity v|].
  rewrite Eb, (visible_same dir bl vol v) in Hout by (by rewrite ?Eroot). rewrite Hrest. split.
  - constructor; [done|]. eapply Forall2_impl; [exact Hall|]. intros e p. apply reported_ext; [done|by rewrite Eroot|done].
  - destruct Hout as [[-> ->]|[Hpre Hno]]; [by left|right]. split; [by apply prefix_cons|].
    apply (no_entry_ext vol v bl Eb Hb); done.
Qed.

(** C33: listing a directory.  A reader that begins with cookie 0 and passes on
    the cookie of each call needs no more than three calls more than the
    directory has entries.  It has got the entries . and .. of the root
    directory, if it is that, and then, in their order and each of them once,
    the entries that are neither erased nor part of a long name, nor a volume
    label in the root directory: each with the name it has on the volume, the
    cookie behind it, and an id that leads to its place ([.] and [..] with
    those of the directory and its parent).  It has got all of them, unless a
    long name does not fit the buffer or there is no memory, of which the
    status tells. *)
Theorem readdir_lists `{Encodings} dir bl size (calls : nat) vol :
  15 <= room_for_name size -> listable dir bl vol -> vnid dir mod 2 ^ 32 < 2 ^ 28 -> ids_free (Z.of_nat calls) vol ->
  dir_entries vol bl + 2 < Z.of_nat calls ->
  exists r v dots l js,
    read_all calls vol dir 0 size = Some (r, v, dots ++ l) /\ only_caches vol v /\
    dots = (if is_root vol dir
            then [Listed dot (vnid (root_vnode vol)) 1 vol; Listed dotdot (vnid (root_vnode vol)) 2 vol] else []) /\
    Forall2 (reported vol dir bl size) l js /\
    (r = B_OK /\ js = visible_from vol dir bl (Z.to_nat (dir_entries vol bl)) 0 0 \/
     js `prefix_of` visible_from vol dir bl (Z.to_nat (dir_entries vol bl)) 0 0 /\
     (r = ENAMETOOLONG /\ (exists b j s, 0 <= b /\ too_long vol bl b j (room_for_name size) s /\ kind vol bl j = Short /\
        j < dir_entries vol bl) \/
      r <> B_OK /\ r <> ENOENT /\ r <> ENAMETOOLONG /\ false ∈ heap vol)).
Proof.
  intros Hsize Hli Hdir Hids Hc. pose proof (n_small vol (li_layout _ _ _ Hli) _ bl (li_dir _ _ _ Hli)) as Hn.
  set (k := if is_root vol dir then 2%nat else 0%nat).
  destruct (read_all_spec dir bl size (calls - k)%nat vol 0 Hsize Hli Hdir) as (r & v & l & js & E & Hv & Hrest);
    [by eapply ids_free_less; [|exact Hids]; lia|lia|unfold k; destruct (is_root vol dir); lia|].
  rewrite Z.sub_0_r in Hrest. eexists r, v, _, l, js. split; [|split; [exact Hv|split; [reflexivity|exact Hrest]]].
  rewrite Z.add_0_l in E. unfold k in E.
  destruct (is_root vol dir) eqn:Eroot; [|by rewrite Nat.sub_0_r in E].
  destruct calls as [|[|calls]]; [lia|lia|]. simpl in E. rewrite ?Nat.sub_0_r in E.
  cbn [read_all]. unfold dosfs_readdir at 1. fold (is_root vol dir). rewrite Eroot. cbn -[read_all u32 dosfs_readdir].
  change (u32 (0 + 1)) with 1. unfold dosfs_readdir at 1. fold (is_root vol dir). rewrite Eroot. cbn -[read_all u32].
  change (u32 (1 + 1)) with 2. rewrite E. done.
Qed.

Lemma rooted_listable : listable (root_vnode rooted) [5; 6; 7; 8; 9] rooted.
Proof.
  split; [exact rooted_layout|exact rooted_directory|]. apply lfn_saneb_all. vm_compute. reflexivity.
Qed.

Lemma rooted_ids : ids_free 83 rooted.
Proof.
  assert (H : forallb IS_ARTIFICIAL_VNID (seqZ (cur_vnid (ns_vcache rooted)) 83) = true) by (vm_compute; reflexivity).
  assert (Hc : cur_vnid (ns_vcache rooted) = 6917529027641081856) by (vm_compute; reflexivity).
  exists ∅. split_and!; [|rewrite Hc; lia|rewrite Hc; lia|].
  - split; [apply empty_table|apply empty_table|intros v v' l|intros v l]; by rewrite lookup_empty.
  - intros x Hx. split; [apply lookup_empty|]. rewrite forallb_forall in H. apply H, list_elem_of_In, elem_of_seqZ. lia.
Qed.

Lemma readdir_lists_witness :
  exists r v dots l js,
    read_all 83 rooted (root_vnode rooted) 0 1024 = Some (r, v, dots ++ l) /\
    dots = [Listed dot 1 1 rooted; Listed dotdot 1 2 rooted] /\
    Forall2 (reported rooted (root_vnode rooted) [5; 6; 7; 8; 9] 1024) l js /\ (r = B_OK -> js = [(1, 3); (4, 4)]).
Proof.
  destruct (readdir_lists (root_vnode rooted) [5; 6; 7; 8; 9] 1024 83 rooted) as (r & v & dots & l & js & E & _ & Ed & Hl & Hjs).
  - vm_compute. discriminate.
  - exact rooted_listable.
  - vm_compute. reflexivity.
  - exact rooted_ids.
  - vm_compute. reflexivity.
  - exists r, v, dots, l, js. split; [exact E|]. split; [rewrite Ed; vm_compute; reflexivity|]. split; [exact Hl|].
    intros Hr. destruct Hjs as [[_ ->]|[_ [[E1 _]|(E1 & _)]]]; [vm_compute; reflexivity|rewrite Hr in E1; discriminate E1|].
    exfalso. exact (E1 Hr).
Defined.

(** The listing, evaluated. *)
Example rooted_listing :
  option_map (fun '(r, _, l) => (r, map it_cookie l)) (read_all 83 rooted (root_vnode rooted) 0 1024) = Some (B_OK, [1; 2; 6; 7]).
Proof. vm_compute. reflexivity. Qed.

Example rooted_names :
  option_map (fun '(r, _, l) => map it_name l) (read_all 83 rooted (root_vnode rooted) 0 1024)
  = Some [dot; dotdot; [0x6e; 0x61; 0xc3; 0xaf; 0x76; 0x65]; [0x52; 0x45; 0x41; 0x44; 0x4d; 0x45]].
Proof. vm_compute. reflexivity. Qed.
