(* ===== verification/ScsiRing.v ===== *)
(** Circular doubly linked lists (dl_list.h of the SCSI bus manager): the
    macros on a memory of links, and what they do to the list a ring holds. *)
From stdpp Require Import base gmap list.
From Stdlib Require Import ZArith Lia.
From S2P Require Import Prelude.

(** A pointer to a structure is its address; 0 is [NULL]. *)
Definition NULL : Z := 0.

(** The [next] and [prev] fields of the structures of one type. *)
Record links := Links { l_next : gmap Z Z; l_prev : gmap Z Z }.

Implicit Types L : links.

(** Reading and writing a field of a structure that is not there has no
    result. *)
Definition get_next (p : Z) L : option Z := l_next L !! p.
Definition get_prev (p : Z) L : option Z := l_prev L !! p.
Definition put_next (p v : Z) L : option links :=
  _ ← l_next L !! p; Some (Links (<[p := v]> (l_next L)) (l_prev L)).
Definition put_prev (p v : Z) L : option links :=
  _ ← l_prev L !! p; Some (Links (l_next L) (<[p := v]> (l_prev L))).

(** Each macro gets the head and gives the new head. *)
Definition REMOVE_CDL_LIST (item head : Z) L : option (Z * links) :=
  next ← get_next item L; prev ← get_prev item L; L ← put_prev next prev L;
  prev ← get_prev item L; next ← get_next item L; L ← put_next prev next L;
  if item =? head then
    next ← get_next item L;
    Some (if negb (next =? item) then next else NULL, L)
  else Some (head, L).

(** The four stores that put [item] between [before] and [next]. *)
Definition put_between (item before next : Z) L : option links :=
  L ← put_next item next L; L ← put_prev item before L;
  L ← put_prev next item L; put_next before item L.

Definition ADD_CDL_LIST_TAIL (item head : Z) L : option (Z * links) :=
  let old_head := head in
  if negb (old_head =? NULL) then
    let first := old_head in
    last ← get_prev first L;
    L ← put_between item last first L;
    Some (head, L)
  else
    L ← put_prev item item L; L ← put_next item item L; Some (item, L).

Definition ADD_CDL_LIST_HEAD (item head : Z) L : option (Z * links) :=
  let old_head := head in
  let head := item in
  if negb (old_head =? NULL) then
    let first := old_head in
    last ← get_prev first L;
    L ← put_between item last first L;
    Some (head, L)
  else
    L ← put_prev item item L; L ← put_next item item L; Some (head, L).

(** ** The list a ring holds *)

Definition linked L (a b : Z) : Prop := l_next L !! a = Some b /\ l_prev L !! b = Some a.

(** From [a] through [l] to [b]. *)
Fixpoint path L (a : Z) (l : list Z) (b : Z) : Prop :=
  match l with
  | [] => linked L a b
  | x :: l => linked L a x /\ path L x l b
  end.

Definition ring L (head : Z) (l : list Z) : Prop :=
  match l with
  | [] => head = NULL
  | x :: l => head = x /\ NoDup (x :: l) /\ NULL ∉ x :: l /\ path L x l x
  end.

Lemma path_app L a l1 x l2 b : path L a (l1 ++ x :: l2) b <-> path L a l1 x /\ path L x l2 b.
Proof. revert a. induction l1 as [|y l1 IH]; intros a; simpl; [tauto|]. rewrite IH. tauto. Qed.

(** A path depends on the [next] fields of what it leaves and the [prev]
    fields of what it enters. *)
Lemma path_ext L L' a l b :
  (forall p, p ∈ a :: l -> l_next L' !! p = l_next L !! p) ->
  (forall p, p ∈ l ++ [b] -> l_prev L' !! p = l_prev L !! p) ->
  path L a l b -> path L' a l b.
Proof.
  revert a. induction l as [|x l IH]; intros a Hn Hp; simpl.
  - intros [H1 H2]. split; [rewrite Hn by set_solver; done|rewrite Hp by set_solver; done].
  - intros [[H1 H2] H]. split.
    + split; [rewrite Hn by set_solver; done|rewrite Hp by set_solver; done].
    + apply IH; [|intros p ?; apply Hp; simpl; set_solver|done]. intros p ?. apply Hn. set_solver.
Qed.

Lemma path_last L a l b : path L a l b -> l_prev L !! b = Some (List.last l a).
Proof.
  revert a. induction l as [|x l IH]; intros a; simpl; [intros [_ H]; done|].
  intros [_ H]. rewrite (IH _ H). destruct l as [|y l]; [done|]. f_equal.
  clear. revert y. induction l as [|z l IH]; intros y; [done|]. apply (IH z).
Qed.

Lemma ring_not_null L h l : ring L h l -> l <> [] -> h <> NULL.
Proof. destruct l; [done|]. intros (-> & _ & H & _) _. set_solver. Qed.

Lemma ring_nil L h l : ring L h l -> (h =? NULL) = bool_decide (l = []).
Proof.
  intros H. destruct l as [|x l]; simpl in H; [by subst|].
  rewrite bool_decide_false by done. apply Z.eqb_neq. destruct H as (-> & _ & H & _). set_solver.
Qed.

(** A ring may be entered at any of its members. *)
Lemma ring_rotate L h l1 x l2 : ring L h (l1 ++ x :: l2) -> ring L x (x :: l2 ++ l1).
Proof.
  destruct l1 as [|y l1]; simpl.
  - rewrite app_nil_r. intros (-> & H). done.
  - rewrite path_app. intros (-> & Hd & H0 & H1 & H2). split_and!; [done| | |].
    + change (NoDup ((x :: l2) ++ y :: l1)). rewrite (Permutation_app_comm (x :: l2)).
      done.
    + set_solver.
    + apply path_app. done.
Qed.

Lemma ring_next L h x y l : ring L h (x :: y :: l) -> l_next L !! x = Some y.
Proof. intros (_ & _ & _ & H). apply H. Qed.

Lemma ring_member L h l x : ring L h l -> x ∈ l -> is_Some (l_next L !! x) /\ is_Some (l_prev L !! x).
Proof.
  intros Hr (l1 & l2 & ->)%list_elem_of_split. apply ring_rotate in Hr. destruct Hr as (_ & _ & _ & H).
  split; [|by rewrite (path_last _ _ _ _ H)]. destruct (l2 ++ l1); simpl in H; [by destruct H as [-> _]|].
  by destruct H as [[-> _] _].
Qed.

(** A ring is not affected by what happens to the fields of others. *)
Lemma ring_ext L L' h l :
  (forall p, p ∈ l -> l_next L' !! p = l_next L !! p /\ l_prev L' !! p = l_prev L !! p) ->
  ring L h l -> ring L' h l.
Proof.
  destruct l as [|x l]; simpl; [done|]. intros H (-> & Hd & H0 & Hp). split_and!; try done.
  revert Hp. apply path_ext; intros p Hin; apply H; set_solver.
Qed.

(** ** What the macros do *)

(** Only the fields of the structures [s] change; none comes or goes. *)
Record within (s : list Z) L L' : Prop := {
  wi_next : forall p, p ∉ s -> l_next L' !! p = l_next L !! p;
  wi_prev : forall p, p ∉ s -> l_prev L' !! p = l_prev L !! p;
  wi_dom_next : dom (l_next L') = dom (l_next L);
  wi_dom_prev : dom (l_prev L') = dom (l_prev L)
}.

#[export] Instance within_preorder s : PreOrder (within s).
Proof.
  split; [by split|]. intros x y z [A1 A2 A3 A4] [B1 B2 B3 B4].
  split; intros; [rewrite B1|rewrite B2|rewrite B3|rewrite B4]; auto.
Qed.

Lemma within_sub s s' L L' : s ⊆ s' -> within s L L' -> within s' L L'.
Proof. intros Hs [A1 A2 A3 A4]. split; auto. Qed.

Lemma dom_insert_in (m : gmap Z Z) p v : is_Some (m !! p) -> dom (<[p := v]> m) = dom m.
Proof. intros H. apply dom_insert_lookup_L. done. Qed.

Lemma put_next_spec p v L :
  is_Some (l_next L !! p) ->
  exists L', put_next p v L = Some L' /\ l_next L' = <[p := v]> (l_next L) /\ l_prev L' = l_prev L /\ within [p] L L'.
Proof.
  intros Hp. unfold put_next. destruct (l_next L !! p) eqn:E; [|by destruct Hp]. simpl. eexists. split_and!; [done..|].
  split; simpl; [|done|by apply dom_insert_in; rewrite E|done]. intros q ?. rewrite lookup_insert_ne; set_solver.
Qed.

Lemma put_prev_spec p v L :
  is_Some (l_prev L !! p) ->
  exists L', put_prev p v L = Some L' /\ l_prev L' = <[p := v]> (l_prev L) /\ l_next L' = l_next L /\ within [p] L L'.
Proof.
  intros Hp. unfold put_prev. destruct (l_prev L !! p) eqn:E; [|by destruct Hp]. simpl. eexists. split_and!; [done..|].
  split; simpl; [done| |done|by apply dom_insert_in; rewrite E]. intros q ?. rewrite lookup_insert_ne; set_solver.
Qed.

(** The structure is there. *)
Definition cell L (p : Z) : Prop := is_Some (l_next L !! p) /\ is_Some (l_prev L !! p).

Lemma cell_within s L L' p : within s L L' -> cell L p -> cell L' p.
Proof.
  intros [_ _ H1 H2] [Hn Hp]. split; apply elem_of_dom; [rewrite H1|rewrite H2]; by apply elem_of_dom.
Qed.

Lemma path_within s L L' a l b :
  within s L L' -> (forall p, p ∈ a :: l -> p ∉ s) -> (forall p, p ∈ l ++ [b] -> p ∉ s) ->
  path L a l b -> path L' a l b.
Proof. intros [H1 H2 _ _] Ha Hb. apply path_ext; intros; [apply H1|apply H2]; auto. Qed.

(** The four stores of the macros and of the insertion into the middle. *)
Lemma put_between_lookup item before next L :
  cell L item -> cell L before -> cell L next ->
  exists L', put_between item before next L = Some L' /\
    within [item; before; next] L L' /\
    l_next L' = <[before := item]> (<[item := next]> (l_next L)) /\
    l_prev L' = <[next := item]> (<[item := before]> (l_prev L)).
Proof.
  intros [Hi1 Hi2] [Hb1 Hb2] [Hn1 Hn2]. unfold put_between.
  destruct (put_next_spec item next L Hi1) as (L1 & -> & A1 & B1 & W1). simpl.
  destruct (put_prev_spec item before L1) as (L2 & -> & A2 & B2 & W2); [by rewrite B1|]. simpl.
  destruct (put_prev_spec next item L2) as (L3 & -> & A3 & B3 & W3);
    [rewrite A2, B1; destruct (decide (item = next)) as [->|]; by rewrite ?lookup_insert_eq, ?lookup_insert_ne|]. simpl.
  destruct (put_next_spec before item L3) as (L4 & -> & A4 & B4 & W4);
    [rewrite B3, B2, A1; destruct (decide (item = before)) as [->|]; by rewrite ?lookup_insert_eq, ?lookup_insert_ne|].
  exists L4. split_and!; [done| |by rewrite A4, B3, B2, A1|by rewrite B4, A3, A2, B1].
  etrans; [|etrans; [|etrans]]; eapply within_sub; try eassumption; set_solver.
Qed.

Lemma put_between_path item x l L :
  cell L item -> cell L x -> item ∉ x :: l -> NoDup (x :: l) -> path L x l x ->
  exists L', put_between item (List.last l x) x L = Some L' /\
    within (item :: x :: l) L L' /\ path L' x (l ++ [item]) x.
Proof.
  intros Hi Hx Hni Hd Hp.
  assert (Hb : cell L (List.last l x)).
  { destruct l as [|y l'] using rev_ind; [done|]. rewrite last_last.
    apply path_app in Hp as [H1 [H2 _]]. apply path_last in H1. split; [done|]. by rewrite H1. }
  destruct (put_between_lookup item (List.last l x) x L Hi Hb Hx) as (L' & HL & W & Hnx & Hpv).
  assert (Hin : List.last l x ∈ x :: l).
  { destruct l as [|y l'] using rev_ind; [set_solver|]. rewrite last_last. set_solver. }
  exists L'. split_and!; [done|eapply within_sub; [|done]; set_solver|].
  assert (Hlast : linked L' item x).
  { split; [rewrite Hnx, lookup_insert_ne by set_solver; by rewrite lookup_insert_eq|by rewrite Hpv, lookup_insert_eq]. }
  assert (Hfirst : linked L' (List.last l x) item).
  { split; [by rewrite Hnx, lookup_insert_eq|]. rewrite Hpv, lookup_insert_ne by set_solver. by rewrite lookup_insert_eq. }
  apply path_app. split; [|done].
  destruct l as [|y l'] using rev_ind; [done|]. clear IHl'. rewrite last_last in *.
  apply path_app. split; [|done]. apply path_app in Hp as [Hp _].
  revert Hp. apply path_ext.
  - intros p Hin'. rewrite Hnx, !lookup_insert_ne; [done| |].
    + intros ->. set_solver.
    + intros ->. rewrite NoDup_cons, NoDup_app in Hd. set_solver.
  - intros p Hin'. rewrite Hpv, !lookup_insert_ne; [done| |].
    + intros ->. set_solver.
    + intros ->. rewrite NoDup_cons, NoDup_app in Hd. set_solver.
Qed.

Lemma ring_snoc L x l item :
  NoDup (x :: l) -> NULL ∉ x :: l -> item ∉ x :: l -> item <> NULL -> path L x (l ++ [item]) x ->
  ring L x (x :: l ++ [item]).
Proof.
  intros Hd H0 Hi Hn Hp. simpl. split_and!; [done| | |done].
  - change (NoDup ((x :: l) ++ [item])). rewrite NoDup_app. split_and!; [done|set_solver|apply NoDup_singleton].
  - set_solver.
Qed.

Lemma single_ring item L :
  cell L item -> item <> NULL ->
  exists L1 L2, put_prev item item L = Some L1 /\ put_next item item L1 = Some L2 /\
    ring L2 item [item] /\ within [item] L L2.
Proof.
  intros [Hi1 Hi2] H0.
  destruct (put_prev_spec item item L Hi2) as (L1 & E1 & A1 & B1 & W1).
  destruct (put_next_spec item item L1) as (L2 & E2 & A2 & B2 & W2); [by rewrite B1|].
  exists L1, L2. split_and!; [done|done| |by etrans].
  simpl. split_and!; [done|apply NoDup_singleton|set_solver|].
  split; [by rewrite A2, lookup_insert_eq|by rewrite B2, A1, lookup_insert_eq].
Qed.

(** What both ways to add have in common: after the stores, the ring entered
    at the old head has the item at its end. *)
Lemma add_at_end item head l L :
  cell L item -> item ∉ l -> item <> NULL -> ring L head l -> l <> [] ->
  exists last L', get_prev head L = Some last /\ put_between item last head L = Some L' /\
    ring L' head (l ++ [item]) /\ within (item :: l) L L'.
Proof.
  intros Hi Hni H0 Hr Hl. destruct l as [|x l]; [done|]. destruct (Hr) as (-> & Hd & Hz & Hp).
  assert (Hx : cell L x) by (apply (ring_member L x (x :: l)); [done|set_solver]).
  destruct (put_between_path item x l L Hi Hx Hni Hd Hp) as (L' & E & W & Hp').
  exists (List.last l x), L'. refine (conj (path_last _ _ _ _ Hp) (conj E (conj _ W))). by apply ring_snoc.
Qed.

Lemma ADD_CDL_LIST_TAIL_spec item head l L :
  cell L item -> item ∉ l -> item <> NULL -> ring L head l ->
  exists head' L', ADD_CDL_LIST_TAIL item head L = Some (head', L') /\
    ring L' head' (l ++ [item]) /\ within (item :: l) L L'.
Proof.
  intros Hi Hni H0 Hr. unfold ADD_CDL_LIST_TAIL. rewrite (ring_nil _ _ _ Hr).
  case_bool_decide as Hl; simpl.
  - subst l. destruct (single_ring item L Hi H0) as (L1 & L2 & -> & E & R & W). simpl. rewrite E. by eexists _, _.
  - destruct (add_at_end item head l L Hi Hni H0 Hr Hl) as (last & L' & -> & E & R & W). simpl. rewrite E. by eexists _, _.
Qed.

Lemma ADD_CDL_LIST_HEAD_spec item head l L :
  cell L item -> item ∉ l -> item <> NULL -> ring L head l ->
  exists L', ADD_CDL_LIST_HEAD item head L = Some (item, L') /\
    ring L' item (item :: l) /\ within (item :: l) L L'.
Proof.
  intros Hi Hni H0 Hr. unfold ADD_CDL_LIST_HEAD. rewrite (ring_nil _ _ _ Hr).
  case_bool_decide as Hl; simpl.
  - subst l. destruct (single_ring item L Hi H0) as (L1 & L2 & -> & E & R & W). simpl. rewrite E. by eexists.
  - destruct (add_at_end item head l L Hi Hni H0 Hr Hl) as (last & L' & -> & E & R & W). simpl. rewrite E.
    exists L'. refine (conj eq_refl (conj _ W)). by apply ring_rotate in R.
Qed.

(** Inserting into the middle, as [scsi_insert_new_request] does. *)
Lemma insert_between_spec item before l1 next l2 head L :
  cell L item -> item ∉ l1 ++ before :: next :: l2 -> item <> NULL -> ring L head (l1 ++ before :: next :: l2) ->
  exists L', put_between item before next L = Some L' /\
    ring L' head (l1 ++ before :: item :: next :: l2) /\ within (item :: l1 ++ before :: next :: l2) L L'.
Proof.
  intros Hi Hni H0 Hr.
  assert (Hr' : ring L next (next :: l2 ++ (l1 ++ [before]))).
  { apply (ring_rotate L head (l1 ++ [before]) next l2). by rewrite <-app_assoc. }
  destruct (add_at_end item next (next :: l2 ++ l1 ++ [before]) L Hi) as (last & L' & E1 & E2 & R & W); [set_solver|done|done|done|].
  assert (last = before) as ->.
  { destruct Hr' as (_ & _ & _ & Hp). apply path_last in Hp. unfold get_prev in E1. rewrite E1 in Hp.
    injection Hp as ->. rewrite !app_assoc. apply List.last_last. }
  exists L'. refine (conj E2 (conj _ _)); [|eapply within_sub; [|done]; set_solver].
  destruct l1 as [|h l1]; destruct Hr as (-> & _).
  - replace ((next :: l2 ++ [] ++ [before]) ++ [item]) with ((next :: l2) ++ before :: [item]) in R
      by (simpl; by rewrite <-app_assoc).
    by apply ring_rotate in R.
  - replace ((next :: l2 ++ (h :: l1) ++ [before]) ++ [item])
      with ((next :: l2) ++ h :: (l1 ++ [before; item])) in R by (simpl; by rewrite <-!app_assoc; simpl; rewrite <-app_assoc).
    apply ring_rotate in R. by rewrite <-app_assoc in R.
Qed.

(** Removing. *)
Lemma REMOVE_CDL_LIST_spec item head l1 l2 L :
  ring L head (l1 ++ item :: l2) ->
  exists head' L', REMOVE_CDL_LIST item head L = Some (head', L') /\
    ring L' head' (l1 ++ l2) /\ within (l1 ++ item :: l2) L L'.
Proof.
  intros Hr. pose proof (ring_rotate _ _ _ _ _ Hr) as (_ & Hd & Hz & Hp).
  pose proof (path_last _ _ _ _ Hp) as Hpv. unfold REMOVE_CDL_LIST, get_prev, get_next.
  destruct (l2 ++ l1) as [|y m] eqn:Em.
  { apply app_eq_nil in Em as [-> ->]. destruct Hr as (-> & _). destruct Hp as [H1 H2]. rewrite H1. simpl. rewrite H2. simpl.
    destruct (put_prev_spec item item L) as (L1 & -> & A1 & B1 & W1); [by rewrite H2|]. simpl.
    rewrite A1, lookup_insert_eq, B1, H1. simpl.
    destruct (put_next_spec item item L1) as (L2 & -> & A2 & B2 & W2); [by rewrite B1, H1|]. simpl.
    rewrite Z.eqb_refl, A2, lookup_insert_eq. simpl. rewrite Z.eqb_refl. simpl. eexists _, _. refine (conj eq_refl (conj eq_refl _)). by etrans. }
  assert (Hn : l_next L !! item = Some y) by (destruct Hp as [[H _] _]; done).
  set (last := List.last m y) in *.
  assert (List.last (y :: m) item = last) as Hlast.
  { destruct m as [|z m'] using rev_ind; [done|]. unfold last. change (y :: m' ++ [z]) with ((y :: m') ++ [z]). by rewrite !List.last_last. }
  rewrite Hlast in Hpv.
  assert (Hlin : last ∈ y :: m).
  { unfold last. destruct m as [|z m'] using rev_ind; [set_solver|]. rewrite List.last_last. set_solver. }
  assert (Hmem : forall p, p ∈ y :: m -> cell L p).
  { intros p Hp'. apply (ring_member L head (l1 ++ item :: l2)); [done|]. rewrite <-Em in Hp'. set_solver. }
  assert (Hyi : y <> item /\ last <> item) by (rewrite NoDup_cons in Hd; split; intros ->; set_solver).
  destruct Hyi as [Hyi Hli]. rewrite Hn. simpl. rewrite Hpv. simpl.
  destruct (put_prev_spec y last L) as (L1 & -> & A1 & B1 & W1); [apply Hmem; set_solver|]. simpl.
  rewrite A1, lookup_insert_ne, Hpv by done. simpl. rewrite B1, Hn. simpl.
  destruct (put_next_spec last y L1) as (L2 & -> & A2 & B2 & W2); [rewrite B1; by apply Hmem|]. simpl.
  rewrite A2, lookup_insert_ne, B1, Hn by done. simpl.
  assert (Hyi' : (y =? item) = false) by by apply Z.eqb_neq. rewrite Hyi'. simpl.
  assert (Hring : ring L2 y (y :: m)).
  { simpl. rewrite NoDup_cons in Hd. destruct Hd as [Hni Hd]. split_and!; [done|done|set_solver|].
    destruct m as [|z m' _] using rev_ind.
    - simpl in *. unfold last in *. simpl in *. split; [by rewrite A2, lookup_insert_eq|by rewrite B2, A1, lookup_insert_eq].
    - unfold last in *. rewrite List.last_last in *. destruct Hp as [_ Hp]. apply path_app in Hp as [Hp _].
      apply path_app. split; [|split; [by rewrite A2, lookup_insert_eq|by rewrite B2, A1, lookup_insert_eq]].
      revert Hp. apply NoDup_cons in Hd as [Hy' Hd]. apply NoDup_app in Hd as (Hd1 & Hd2 & _). apply path_ext.
      + intros p Hin. rewrite A2, B1, lookup_insert_ne; [done|]. intros ->. set_solver.
      + intros p Hin. rewrite B2, A1, lookup_insert_ne; [done|]. intros ->. set_solver. }
  assert (HW : within (l1 ++ item :: l2) L L2).
  { etrans; eapply within_sub; try eassumption; [|]; intros p Hin; apply list_elem_of_singleton in Hin as ->;
      [assert (y ∈ l2 ++ l1) by (rewrite Em; set_solver)|assert (last ∈ l2 ++ l1) by (rewrite Em; set_solver)]; set_solver. }
  rewrite <-Em in Hring. destruct l1 as [|h l1]; simpl app in Hr; destruct Hr as (-> & Hd' & _).
  - rewrite Z.eqb_refl. eexists _, _. refine (conj eq_refl (conj _ HW)). by rewrite app_nil_r in Hring.
  - assert (h <> item) as Hhi by (apply NoDup_cons in Hd' as [Hh _]; intros ->; set_solver).
    rewrite (proj2 (Z.eqb_neq item h)) by done. eexists _, _. refine (conj eq_refl (conj _ HW)).
    by apply ring_rotate in Hring.
Qed.
