(* ===== verification/Scsi.v ===== *)
(** The SCSI bus manager (scsi_internal.h, bus/SCSI.h): its structures, the
    state of one bus, and the monad the operations are written in. *)
From stdpp Require Import base gmap list.
From Stdlib Require Import ZArith Lia.
From S2P Require Import Prelude ScsiRing.

Definition SCSI_MAX_SENSE_SIZE : Z := 64.
Definition SCSI_STATE_FREE : Z := 0.
Definition SCSI_STATE_INWORK : Z := 1.
Definition SCSI_STATE_QUEUED : Z := 2.
Definition SCSI_STATE_SENT : Z := 3.
Definition SCSI_STATE_FINISHED : Z := 5.
Definition SCSI_REQ_INPROG : Z := 0x00.
Definition SCSI_REQ_CMP : Z := 0x01.
Definition SCSI_REQ_ABORTED : Z := 0x02.
Definition SCSI_REQ_CMP_ERR : Z := 0x04.
Definition SCSI_REQ_INVALID : Z := 0x06.
Definition SCSI_DEV_NOT_THERE : Z := 0x08.
Definition SCSI_AUTOSENSE_FAIL : Z := 0x10.
Definition SCSI_DATA_RUN_ERR : Z := 0x12.
Definition SCSI_AUTOSNS_VALID : Z := 0x80.
Definition SCSI_DIR_IN : Z := 0x40.
Definition SCSI_DIR_NONE : Z := 0xC0.
Definition SCSI_DIR_MASK : Z := 0xC0.
Definition SCSI_DIS_AUTOSENSE : Z := 0x20.
Definition SCSI_ORDERED_QTAG : Z := 0x10.
Definition SCSI_DMA_SAFE : Z := 0x08.
Definition SCSI_STATUS_CHECK_CONDITION : Z := 1 * 2.
Definition SCSI_STATUS_QUEUE_FULL : Z := 20 * 2.

(** [(x & mask) != 0]. *)
Definition has (x mask : Z) : bool := negb (Z.land x mask =? 0).

(** A request (bus/SCSI.h), without its links.  [c_data] are the bytes the
    [data] pointer leads to. *)
Record scsi_ccb := Ccb {
  c_subsys_status : Z;
  c_device_status : Z;
  c_target_lun : Z;
  c_flags : Z;
  c_cdb : list Z;
  c_cdb_length : Z;
  c_sort : Z;
  c_data : list Z;
  c_sg_list : Z;
  c_data_length : Z;
  c_data_resid : Z;
  c_sense : list Z;
  c_sense_resid : Z;
  c_ordered : bool;
  c_buffered : bool;
  c_emulated : bool;
  c_bus : Z;
  c_device : Z;
  c_state : Z;
  c_sim_state : Z
}.

Definition set_c_subsys_status (v : Z) (r : scsi_ccb) : scsi_ccb :=
  Ccb v (c_device_status r) (c_target_lun r) (c_flags r) (c_cdb r) (c_cdb_length r) (c_sort r) (c_data r) (c_sg_list r) (c_data_length r) (c_data_resid r) (c_sense r) (c_sense_resid r) (c_ordered r) (c_buffered r) (c_emulated r) (c_bus r) (c_device r) (c_state r) (c_sim_state r).
Definition set_c_device_status (v : Z) (r : scsi_ccb) : scsi_ccb :=
  Ccb (c_subsys_status r) v (c_target_lun r) (c_flags r) (c_cdb r) (c_cdb_length r) (c_sort r) (c_data r) (c_sg_list r) (c_data_length r) (c_data_resid r) (c_sense r) (c_sense_resid r) (c_ordered r) (c_buffered r) (c_emulated r) (c_bus r) (c_device r) (c_state r) (c_sim_state r).
Definition set_c_target_lun (v : Z) (r : scsi_ccb) : scsi_ccb :=
  Ccb (c_subsys_status r) (c_device_status r) v (c_flags r) (c_cdb r) (c_cdb_length r) (c_sort r) (c_data r) (c_sg_list r) (c_data_length r) (c_data_resid r) (c_sense r) (c_sense_resid r) (c_ordered r) (c_buffered r) (c_emulated r) (c_bus r) (c_device r) (c_state r) (c_sim_state r).
Definition set_c_flags (v : Z) (r : scsi_ccb) : scsi_ccb :=
  Ccb (c_subsys_status r) (c_device_status r) (c_target_lun r) v (c_cdb r) (c_cdb_length r) (c_sort r) (c_data r) (c_sg_list r) (c_data_length r) (c_data_resid r) (c_sense r) (c_sense_resid r) (c_ordered r) (c_buffered r) (c_emulated r) (c_bus r) (c_device r) (c_state r) (c_sim_state r).
Definition set_c_cdb (v : list Z) (r : scsi_ccb) : scsi_ccb :=
  Ccb (c_subsys_status r) (c_device_status r) (c_target_lun r) (c_flags r) v (c_cdb_length r) (c_sort r) (c_data r) (c_sg_list r) (c_data_length r) (c_data_resid r) (c_sense r) (c_sense_resid r) (c_ordered r) (c_buffered r) (c_emulated r) (c_bus r) (c_device r) (c_state r) (c_sim_state r).
Definition set_c_cdb_length (v : Z) (r : scsi_ccb) : scsi_ccb :=
  Ccb (c_subsys_status r) (c_device_status r) (c_target_lun r) (c_flags r) (c_cdb r) v (c_sort r) (c_data r) (c_sg_list r) (c_data_length r) (c_data_resid r) (c_sense r) (c_sense_resid r) (c_ordered r) (c_buffered r) (c_emulated r) (c_bus r) (c_device r) (c_state r) (c_sim_state r).
Definition set_c_sort (v : Z) (r : scsi_ccb) : scsi_ccb :=
  Ccb (c_subsys_status r) (c_device_status r) (c_target_lun r) (c_flags r) (c_cdb r) (c_cdb_length r) v (c_data r) (c_sg_list r) (c_data_length r) (c_data_resid r) (c_sense r) (c_sense_resid r) (c_ordered r) (c_buffered r) (c_emulated r) (c_bus r) (c_device r) (c_state r) (c_sim_state r).
Definition set_c_data (v : list Z) (r : scsi_ccb) : scsi_ccb :=
  Ccb (c_subsys_status r) (c_device_status r) (c_target_lun r) (c_flags r) (c_cdb r) (c_cdb_length r) (c_sort r) v (c_sg_list r) (c_data_length r) (c_data_resid r) (c_sense r) (c_sense_resid r) (c_ordered r) (c_buffered r) (c_emulated r) (c_bus r) (c_device r) (c_state r) (c_sim_state r).
Definition set_c_sg_list (v : Z) (r : scsi_ccb) : scsi_ccb :=
  Ccb (c_subsys_status r) (c_device_status r) (c_target_lun r) (c_flags r) (c_cdb r) (c_cdb_length r) (c_sort r) (c_data r) v (c_data_length r) (c_data_resid r) (c_sense r) (c_sense_resid r) (c_ordered r) (c_buffered r) (c_emulated r) (c_bus r) (c_device r) (c_state r) (c_sim_state r).
Definition set_c_data_length (v : Z) (r : scsi_ccb) : scsi_ccb :=
  Ccb (c_subsys_status r) (c_device_status r) (c_target_lun r) (c_flags r) (c_cdb r) (c_cdb_length r) (c_sort r) (c_data r) (c_sg_list r) v (c_data_resid r) (c_sense r) (c_sense_resid r) (c_ordered r) (c_buffered r) (c_emulated r) (c_bus r) (c_device r) (c_state r) (c_sim_state r).
Definition set_c_data_resid (v : Z) (r : scsi_ccb) : scsi_ccb :=
  Ccb (c_subsys_status r) (c_device_status r) (c_target_lun r) (c_flags r) (c_cdb r) (c_cdb_length r) (c_sort r) (c_data r) (c_sg_list r) (c_data_length r) v (c_sense r) (c_sense_resid r) (c_ordered r) (c_buffered r) (c_emulated r) (c_bus r) (c_device r) (c_state r) (c_sim_state r).
Definition set_c_sense (v : list Z) (r : scsi_ccb) : scsi_ccb :=
  Ccb (c_subsys_status r) (c_device_status r) (c_target_lun r) (c_flags r) (c_cdb r) (c_cdb_length r) (c_sort r) (c_data r) (c_sg_list r) (c_data_length r) (c_data_resid r) v (c_sense_resid r) (c_ordered r) (c_buffered r) (c_emulated r) (c_bus r) (c_device r) (c_state r) (c_sim_state r).
Definition set_c_sense_resid (v : Z) (r : scsi_ccb) : scsi_ccb :=
  Ccb (c_subsys_status r) (c_device_status r) (c_target_lun r) (c_flags r) (c_cdb r) (c_cdb_length r) (c_sort r) (c_data r) (c_sg_list r) (c_data_length r) (c_data_resid r) (c_sense r) v (c_ordered r) (c_buffered r) (c_emulated r) (c_bus r) (c_device r) (c_state r) (c_sim_state r).
Definition set_c_ordered (v : bool) (r : scsi_ccb) : scsi_ccb :=
  Ccb (c_subsys_status r) (c_device_status r) (c_target_lun r) (c_flags r) (c_cdb r) (c_cdb_length r) (c_sort r) (c_data r) (c_sg_list r) (c_data_length r) (c_data_resid r) (c_sense r) (c_sense_resid r) v (c_buffered r) (c_emulated r) (c_bus r) (c_device r) (c_state r) (c_sim_state r).
Definition set_c_buffered (v : bool) (r : scsi_ccb) : scsi_ccb :=
  Ccb (c_subsys_status r) (c_device_status r) (c_target_lun r) (c_flags r) (c_cdb r) (c_cdb_length r) (c_sort r) (c_data r) (c_sg_list r) (c_data_length r) (c_data_resid r) (c_sense r) (c_sense_resid r) (c_ordered r) v (c_emulated r) (c_bus r) (c_device r) (c_state r) (c_sim_state r).
Definition set_c_emulated (v : bool) (r : scsi_ccb) : scsi_ccb :=
  Ccb (c_subsys_status r) (c_device_status r) (c_target_lun r) (c_flags r) (c_cdb r) (c_cdb_length r) (c_sort r) (c_data r) (c_sg_list r) (c_data_length r) (c_data_resid r) (c_sense r) (c_sense_resid r) (c_ordered r) (c_buffered r) v (c_bus r) (c_device r) (c_state r) (c_sim_state r).
Definition set_c_bus (v : Z) (r : scsi_ccb) : scsi_ccb :=
  Ccb (c_subsys_status r) (c_device_status r) (c_target_lun r) (c_flags r) (c_cdb r) (c_cdb_length r) (c_sort r) (c_data r) (c_sg_list r) (c_data_length r) (c_data_resid r) (c_sense r) (c_sense_resid r) (c_ordered r) (c_buffered r) (c_emulated r) v (c_device r) (c_state r) (c_sim_state r).
Definition set_c_device (v : Z) (r : scsi_ccb) : scsi_ccb :=
  Ccb (c_subsys_status r) (c_device_status r) (c_target_lun r) (c_flags r) (c_cdb r) (c_cdb_length r) (c_sort r) (c_data r) (c_sg_list r) (c_data_length r) (c_data_resid r) (c_sense r) (c_sense_resid r) (c_ordered r) (c_buffered r) (c_emulated r) (c_bus r) v (c_state r) (c_sim_state r).
Definition set_c_state (v : Z) (r : scsi_ccb) : scsi_ccb :=
  Ccb (c_subsys_status r) (c_device_status r) (c_target_lun r) (c_flags r) (c_cdb r) (c_cdb_length r) (c_sort r) (c_data r) (c_sg_list r) (c_data_length r) (c_data_resid r) (c_sense r) (c_sense_resid r) (c_ordered r) (c_buffered r) (c_emulated r) (c_bus r) (c_device r) v (c_sim_state r).
Definition set_c_sim_state (v : Z) (r : scsi_ccb) : scsi_ccb :=
  Ccb (c_subsys_status r) (c_device_status r) (c_target_lun r) (c_flags r) (c_cdb r) (c_cdb_length r) (c_sort r) (c_data r) (c_sg_list r) (c_data_length r) (c_data_resid r) (c_sense r) (c_sense_resid r) (c_ordered r) (c_buffered r) (c_emulated r) (c_bus r) (c_device r) (c_state r) v.

(** A device.  Its queue of requests and its place in the queue of the bus
    are kept apart (see [Queues]). *)
Record scsi_device_info := Device {
  d_manual_autosense : bool;
  d_is_atapi : bool;
  d_lock_count : Z;
  d_blocked : Z * Z;
  d_sim_overflow : Z;
  d_left_slots : Z;
  d_total_slots : Z;
  d_last_sort : Z;
  d_valid : bool;
  d_target_lun : Z;
  d_auto_sense_request : Z;
  d_auto_sense_originator : Z;
  d_emulation_map : list Z
}.

Definition set_d_manual_autosense (v : bool) (r : scsi_device_info) : scsi_device_info :=
  Device v (d_is_atapi r) (d_lock_count r) (d_blocked r) (d_sim_overflow r) (d_left_slots r) (d_total_slots r) (d_last_sort r) (d_valid r) (d_target_lun r) (d_auto_sense_request r) (d_auto_sense_originator r) (d_emulation_map r).
Definition set_d_is_atapi (v : bool) (r : scsi_device_info) : scsi_device_info :=
  Device (d_manual_autosense r) v (d_lock_count r) (d_blocked r) (d_sim_overflow r) (d_left_slots r) (d_total_slots r) (d_last_sort r) (d_valid r) (d_target_lun r) (d_auto_sense_request r) (d_auto_sense_originator r) (d_emulation_map r).
Definition set_d_lock_count (v : Z) (r : scsi_device_info) : scsi_device_info :=
  Device (d_manual_autosense r) (d_is_atapi r) v (d_blocked r) (d_sim_overflow r) (d_left_slots r) (d_total_slots r) (d_last_sort r) (d_valid r) (d_target_lun r) (d_auto_sense_request r) (d_auto_sense_originator r) (d_emulation_map r).
Definition set_d_blocked (v : Z * Z) (r : scsi_device_info) : scsi_device_info :=
  Device (d_manual_autosense r) (d_is_atapi r) (d_lock_count r) v (d_sim_overflow r) (d_left_slots r) (d_total_slots r) (d_last_sort r) (d_valid r) (d_target_lun r) (d_auto_sense_request r) (d_auto_sense_originator r) (d_emulation_map r).
Definition set_d_sim_overflow (v : Z) (r : scsi_device_info) : scsi_device_info :=
  Device (d_manual_autosense r) (d_is_atapi r) (d_lock_count r) (d_blocked r) v (d_left_slots r) (d_total_slots r) (d_last_sort r) (d_valid r) (d_target_lun r) (d_auto_sense_request r) (d_auto_sense_originator r) (d_emulation_map r).
Definition set_d_left_slots (v : Z) (r : scsi_device_info) : scsi_device_info :=
  Device (d_manual_autosense r) (d_is_atapi r) (d_lock_count r) (d_blocked r) (d_sim_overflow r) v (d_total_slots r) (d_last_sort r) (d_valid r) (d_target_lun r) (d_auto_sense_request r) (d_auto_sense_originator r) (d_emulation_map r).
Definition set_d_total_slots (v : Z) (r : scsi_device_info) : scsi_device_info :=
  Device (d_manual_autosense r) (d_is_atapi r) (d_lock_count r) (d_blocked r) (d_sim_overflow r) (d_left_slots r) v (d_last_sort r) (d_valid r) (d_target_lun r) (d_auto_sense_request r) (d_auto_sense_originator r) (d_emulation_map r).
Definition set_d_last_sort (v : Z) (r : scsi_device_info) : scsi_device_info :=
  Device (d_manual_autosense r) (d_is_atapi r) (d_lock_count r) (d_blocked r) (d_sim_overflow r) (d_left_slots r) (d_total_slots r) v (d_valid r) (d_target_lun r) (d_auto_sense_request r) (d_auto_sense_originator r) (d_emulation_map r).
Definition set_d_valid (v : bool) (r : scsi_device_info) : scsi_device_info :=
  Device (d_manual_autosense r) (d_is_atapi r) (d_lock_count r) (d_blocked r) (d_sim_overflow r) (d_left_slots r) (d_total_slots r) (d_last_sort r) v (d_target_lun r) (d_auto_sense_request r) (d_auto_sense_originator r) (d_emulation_map r).
Definition set_d_target_lun (v : Z) (r : scsi_device_info) : scsi_device_info :=
  Device (d_manual_autosense r) (d_is_atapi r) (d_lock_count r) (d_blocked r) (d_sim_overflow r) (d_left_slots r) (d_total_slots r) (d_last_sort r) (d_valid r) v (d_auto_sense_request r) (d_auto_sense_originator r) (d_emulation_map r).
Definition set_d_auto_sense_request (v : Z) (r : scsi_device_info) : scsi_device_info :=
  Device (d_manual_autosense r) (d_is_atapi r) (d_lock_count r) (d_blocked r) (d_sim_overflow r) (d_left_slots r) (d_total_slots r) (d_last_sort r) (d_valid r) (d_target_lun r) v (d_auto_sense_originator r) (d_emulation_map r).
Definition set_d_auto_sense_originator (v : Z) (r : scsi_device_info) : scsi_device_info :=
  Device (d_manual_autosense r) (d_is_atapi r) (d_lock_count r) (d_blocked r) (d_sim_overflow r) (d_left_slots r) (d_total_slots r) (d_last_sort r) (d_valid r) (d_target_lun r) (d_auto_sense_request r) v (d_emulation_map r).
Definition set_d_emulation_map (v : list Z) (r : scsi_device_info) : scsi_device_info :=
  Device (d_manual_autosense r) (d_is_atapi r) (d_lock_count r) (d_blocked r) (d_sim_overflow r) (d_left_slots r) (d_total_slots r) (d_last_sort r) (d_valid r) (d_target_lun r) (d_auto_sense_request r) (d_auto_sense_originator r) v.

(** The bus.  [b_start_service] is the count of its semaphore; the queue of
    waiting devices is kept apart. *)
Record scsi_bus_info := Bus {
  b_lock_count : Z;
  b_blocked : Z * Z;
  b_left_slots : Z;
  b_sim_overflow : bool;
  b_start_service : Z;
  b_shutting_down : bool;
  b_dpc_list : Z
}.

Definition set_b_lock_count (v : Z) (r : scsi_bus_info) : scsi_bus_info :=
  Bus v (b_blocked r) (b_left_slots r) (b_sim_overflow r) (b_start_service r) (b_shutting_down r) (b_dpc_list r).
Definition set_b_blocked (v : Z * Z) (r : scsi_bus_info) : scsi_bus_info :=
  Bus (b_lock_count r) v (b_left_slots r) (b_sim_overflow r) (b_start_service r) (b_shutting_down r) (b_dpc_list r).
Definition set_b_left_slots (v : Z) (r : scsi_bus_info) : scsi_bus_info :=
  Bus (b_lock_count r) (b_blocked r) v (b_sim_overflow r) (b_start_service r) (b_shutting_down r) (b_dpc_list r).
Definition set_b_sim_overflow (v : bool) (r : scsi_bus_info) : scsi_bus_info :=
  Bus (b_lock_count r) (b_blocked r) (b_left_slots r) v (b_start_service r) (b_shutting_down r) (b_dpc_list r).
Definition set_b_start_service (v : Z) (r : scsi_bus_info) : scsi_bus_info :=
  Bus (b_lock_count r) (b_blocked r) (b_left_slots r) (b_sim_overflow r) v (b_shutting_down r) (b_dpc_list r).
Definition set_b_shutting_down (v : bool) (r : scsi_bus_info) : scsi_bus_info :=
  Bus (b_lock_count r) (b_blocked r) (b_left_slots r) (b_sim_overflow r) (b_start_service r) v (b_dpc_list r).
Definition set_b_dpc_list (v : Z) (r : scsi_bus_info) : scsi_bus_info :=
  Bus (b_lock_count r) (b_blocked r) (b_left_slots r) (b_sim_overflow r) (b_start_service r) (b_shutting_down r) v.

(** A deferred procedure call: a function and its argument, by address. *)
Record scsi_dpc_info := Dpc {
  p_next : Z;
  p_registered : bool;
  p_func : Z;
  p_arg : Z
}.

Definition set_p_next (v : Z) (r : scsi_dpc_info) : scsi_dpc_info :=
  Dpc v (p_registered r) (p_func r) (p_arg r).
Definition set_p_registered (v : bool) (r : scsi_dpc_info) : scsi_dpc_info :=
  Dpc (p_next r) v (p_func r) (p_arg r).
Definition set_p_func (v : Z) (r : scsi_dpc_info) : scsi_dpc_info :=
  Dpc (p_next r) (p_registered r) v (p_arg r).
Definition set_p_arg (v : Z) (r : scsi_dpc_info) : scsi_dpc_info :=
  Dpc (p_next r) (p_registered r) (p_func r) v.

(** What the code does that is seen outside: a request handed to the SIM, a
    completion semaphore released, a deferred procedure called, a panic. *)
Inductive event :=
| Sent (request : Z)
| Completed (request : Z)
| Called (func arg : Z)
| Panic.

(** The structures the queues link, and what has happened so far. *)
Record core := Core {
  bus : scsi_bus_info;
  ccbs : gmap Z scsi_ccb;
  devs : gmap Z scsi_device_info;
  dpcs : gmap Z scsi_dpc_info;
  events : list event
}.

Definition set_bus (v : scsi_bus_info) (r : core) : core :=
  Core v (ccbs r) (devs r) (dpcs r) (events r).
Definition set_ccbs (v : gmap Z scsi_ccb) (r : core) : core :=
  Core (bus r) v (devs r) (dpcs r) (events r).
Definition set_devs (v : gmap Z scsi_device_info) (r : core) : core :=
  Core (bus r) (ccbs r) v (dpcs r) (events r).
Definition set_dpcs (v : gmap Z scsi_dpc_info) (r : core) : core :=
  Core (bus r) (ccbs r) (devs r) v (events r).
Definition set_events (v : list event) (r : core) : core :=
  Core (bus r) (ccbs r) (devs r) (dpcs r) v.


(** ** Arrays of two counters, [blocked[2]] *)

Definition count_of (by_SIM : bool) (b : Z * Z) : Z := if by_SIM then b.2 else b.1.
Definition count_add (by_SIM : bool) (k : Z) (b : Z * Z) : Z * Z :=
  if by_SIM then (b.1, b.2 + k) else (b.1 + k, b.2).

(** ** The interface of the queues

    A device has a queue of requests, the bus a queue of devices that wait.
    The code reaches them through the operations below (queuing.h,
    queuing.c); the operations have no result where the code would follow a
    pointer to nothing.  [Lists] (ScsiQueue.v) implements the interface as the
    code does, with rings of pointers; [Queues] of ScsiSpec.v is its
    specification, with lists. *)
Class Queueing (Q : Type) := {
  (** A device structure filled with zeroes, and a request structure. *)
  new_device : Z -> Q -> option Q;
  new_request : Z -> Q -> option Q;
  (** The memory of a device goes. *)
  free_device : Z -> Q -> option Q;
  (** [device->queued_reqs] *)
  queued_reqs : Z -> Q -> option Z;
  (** the request is in the queue of the device *)
  on_queue : Z -> Z -> Q -> Prop;
  add_req_queue_first : Z -> Z -> Q -> option Q;
  add_req_queue_last : Z -> Z -> Q -> option Q;
  remove_req_queue : Z -> Z -> Q -> option Q;
  (** the requests, [device->last_sort], the device, the new request *)
  insert_new_request : gmap Z scsi_ccb -> Z -> Z -> Z -> Q -> option Q;
  (** [bus->waiting_devices], the [waiting_next] of a device *)
  waiting_devices : Q -> Z;
  waiting_next : Z -> Q -> option Z;
  set_waiting_devices : Z -> Q -> option Q;
  add_device_queue_first : Z -> Q -> option Q;
  add_device_queue_last : Z -> Q -> option Q;
  remove_device_queue : Z -> Q -> option Q
}.

(** ** The state of a bus, and the operations on it *)

Record sys (Q : Type) := Sys { sy_core : core; sy_queues : Q }.
Arguments Sys {Q} _ _.
Arguments sy_core {Q} _.
Arguments sy_queues {Q} _.

(** An operation has no result where it would use a pointer to nothing. *)
Definition op (Q A : Type) : Type := sys Q -> option (A * sys Q).

#[export] Instance op_ret Q : MRet (op Q) := fun A a s => Some (a, s).
#[export] Instance op_bind Q : MBind (op Q) := fun A B f m s =>
  match m s with Some (a, s') => f a s' | None => None end.

Definition get {Q A} (f : core -> A) : op Q A := fun s => Some (f (sy_core s), s).
Definition modify {Q} (f : core -> core) : op Q unit :=
  fun s => Some (tt, Sys (f (sy_core s)) (sy_queues s)).
Definition guarded {Q A} (o : option A) : op Q A :=
  fun s => match o with Some a => Some (a, s) | None => None end.
Definition when {Q} (b : bool) (m : op Q unit) : op Q unit := if b then m else mret tt.

(** Reading the structure at an address and changing it. *)
Definition get_ccb {Q} (p : Z) : op Q scsi_ccb := m ← get ccbs; guarded (m !! p).
Definition get_dev {Q} (p : Z) : op Q scsi_device_info := m ← get devs; guarded (m !! p).
Definition get_dpc {Q} (p : Z) : op Q scsi_dpc_info := m ← get dpcs; guarded (m !! p).
Definition upd_ccb {Q} (p : Z) (f : scsi_ccb -> scsi_ccb) : op Q unit :=
  c ← get_ccb p; modify (fun k => set_ccbs (<[p := f c]> (ccbs k)) k).
Definition upd_dev {Q} (p : Z) (f : scsi_device_info -> scsi_device_info) : op Q unit :=
  d ← get_dev p; modify (fun k => set_devs (<[p := f d]> (devs k)) k).
Definition upd_dpc {Q} (p : Z) (f : scsi_dpc_info -> scsi_dpc_info) : op Q unit :=
  d ← get_dpc p; modify (fun k => set_dpcs (<[p := f d]> (dpcs k)) k).
Definition get_bus {Q} : op Q scsi_bus_info := get bus.
Definition upd_bus {Q} (f : scsi_bus_info -> scsi_bus_info) : op Q unit :=
  modify (fun k => set_bus (f (bus k)) k).
Definition emit {Q} (e : event) : op Q unit := modify (fun k => set_events (events k ++ [e]) k).
Definition panic {Q} : op Q unit := emit Panic.

(** [release_sem(bus->start_service)], [release_sem(request->completion_sem)]. *)
Definition release_start {Q} : op Q unit := upd_bus (fun b => set_b_start_service (b_start_service b + 1) b).
Definition release_completion {Q} (request : Z) : op Q unit := _ ← get_ccb request; emit (Completed request).

(** Reading and changing the queues. *)
Definition queues {Q A} (f : Q -> option A) : op Q A :=
  fun s => match f (sy_queues s) with Some a => Some (a, s) | None => None end.
Definition upd_queues {Q} (f : Q -> option Q) : op Q unit :=
  fun s => match f (sy_queues s) with Some q => Some (tt, Sys (sy_core s) q) | None => None end.
