(* ===== verification/ScsiLists.v ===== *)
(** The queues of the SCSI bus manager as rings of pointers (queuing.h and
    [scsi_insert_new_request] of queuing.c). *)
From stdpp Require Import base gmap list.
From Stdlib Require Import ZArith Lia.
From S2P Require Import Prelude ScsiRing Scsi.

(** The links of the requests, the field [queued_reqs] of each device, the
    links [waiting_next] and [waiting_prev] of the devices, and the field
    [waiting_devices] of the bus. *)
Record lists := Lists {
  req_links : links;
  queued : gmap Z Z;
  dev_links : links;
  waiting : Z
}.

Implicit Types l : lists.

(** A macro on the queue of requests of a device, or on that of the bus. *)
Definition on_requests (device : Z) (f : Z -> links -> option (Z * links)) l : option lists :=
  head ← queued l !! device;
  '(head, L) ← f head (req_links l);
  Some (Lists L (<[device := head]> (queued l)) (dev_links l) (waiting l)).
Definition on_waiting (f : Z -> links -> option (Z * links)) l : option lists :=
  '(head, L) ← f (waiting l) (dev_links l);
  Some (Lists (req_links l) (queued l) L head).

Definition scsi_add_req_queue_first (device request : Z) l : option lists :=
  on_requests device (ADD_CDL_LIST_HEAD request) l.
Definition scsi_add_req_queue_last (device request : Z) l : option lists :=
  on_requests device (ADD_CDL_LIST_TAIL request) l.
Definition scsi_remove_req_queue (device request : Z) l : option lists :=
  on_requests device (REMOVE_CDL_LIST request) l.

(** [device->waiting_next != NULL] *)
Definition DEVICE_IN_WAIT_QUEUE (device : Z) l : option bool :=
  next ← get_next device (dev_links l); Some (negb (next =? NULL)).

Definition scsi_add_device_queue_first (device : Z) l : option lists :=
  queued ← DEVICE_IN_WAIT_QUEUE device l;
  if (queued : bool) then Some l else on_waiting (ADD_CDL_LIST_HEAD device) l.
Definition scsi_add_device_queue_last (device : Z) l : option lists :=
  queued ← DEVICE_IN_WAIT_QUEUE device l;
  if (queued : bool) then Some l else on_waiting (ADD_CDL_LIST_TAIL device) l.
Definition scsi_remove_device_queue (device : Z) l : option lists :=
  queued ← DEVICE_IN_WAIT_QUEUE device l;
  if negb queued then Some l
  else
    l ← on_waiting (REMOVE_CDL_LIST device) l;
    L ← put_next device NULL (dev_links l);
    Some (Lists (req_links l) (ScsiLists.queued l) L (waiting l)).

(** ** Elevator sort

    The loops follow [prev] around the ring; [fuel] bounds the steps. *)

Section InsertRequest.
Variable requests : gmap Z scsi_ccb.
Variable L : links.

Definition ordered_at (p : Z) : option bool := c_ordered <$> requests !! p.
Definition sort_at (p : Z) : option Z := c_sort <$> requests !! p.

(** [for( before = last; !before->ordered; ) { before = before->prev;
    if( before == last ) break; }] *)
Fixpoint find_ordered (fuel : nat) (last before : Z) : option Z :=
  match fuel with
  | O => None
  | S fuel =>
      o ← ordered_at before;
      if (o : bool) then Some before
      else
        before ← get_prev before L;
        if before =? last then Some before else find_ordered fuel last before
  end.

(** The insertion sort loop: the pair [before], [next] it ends with. *)
Fixpoint sort_loop (fuel : nat) (last sort : Z) (before next : Z) : option (Z * Z) :=
  match fuel with
  | O => None
  | S fuel =>
      if before =? last then Some (before, next)
      else
        o ← ordered_at before;
        if (o : bool) then Some (before, next)
        else
          sb ← sort_at before; sn ← sort_at next;
          if (sb <=? sort) && (sort <=? sn) then Some (before, next)
          else
            let next := before in
            before ← get_prev before L;
            sort_loop fuel last sort before next
  end.
End InsertRequest.

Definition scsi_insert_new_request (requests : gmap Z scsi_ccb) (last_sort device new_request : Z) l
  : option lists :=
  let L := req_links l in
  let fuel := S (size (l_prev L)) in
  first ← queued l !! device;
  if first =? NULL then scsi_add_req_queue_first device new_request l
  else
    ordered ← ordered_at requests new_request;
    if (ordered : bool) then scsi_add_req_queue_last device new_request l
    else
      sort ← sort_at requests new_request;
      if sort <? 0 then scsi_add_req_queue_last device new_request l
      else
        first_sort ← sort_at requests first;
        last ← get_prev first L;
        let exception :=
          (last_sort <=? sort) && (sort <=? first_sort)
          || (first_sort <? last_sort) && (sort <=? first_sort) in
        to_front ←
          (if exception then
             before ← find_ordered requests L fuel last last;
             o ← ordered_at requests before; Some (negb o)
           else Some false);
        if (to_front : bool) then scsi_add_req_queue_first device new_request l
        else
          last_ordered ← ordered_at requests last;
          if (last_ordered : bool) then scsi_add_req_queue_last device new_request l
          else
            before ← get_prev last L;
            '(before, next) ← sort_loop requests L fuel last sort before last;
            o ← ordered_at requests before;
            if (o : bool) then scsi_add_req_queue_last device new_request l
            else
              L ← put_between new_request before next L;
              Some (Lists L (queued l) (dev_links l) (waiting l)).

(** The device's ring holds the request. *)
Definition request_on_ring (device request : Z) l : Prop :=
  exists head q, queued l !! device = Some head /\ ring (req_links l) head q /\ request ∈ q.

(** Fresh memory: a device filled with zeroes, a request. *)
Definition fresh_links (p : Z) (L : links) : links :=
  Links (<[p := NULL]> (l_next L)) (<[p := NULL]> (l_prev L)).
Definition device_memory (device : Z) l : lists :=
  Lists (req_links l) (<[device := NULL]> (queued l)) (fresh_links device (dev_links l)) (waiting l).
Definition no_device_memory (device : Z) l : lists :=
  Lists (req_links l) (delete device (queued l))
    (Links (delete device (l_next (dev_links l))) (delete device (l_prev (dev_links l)))) (waiting l).
Definition request_memory (request : Z) l : lists :=
  Lists (fresh_links request (req_links l)) (queued l) (dev_links l) (waiting l).

#[export] Instance lists_queueing : Queueing lists := {
  new_device device l := Some (device_memory device l);
  new_request request l := Some (request_memory request l);
  free_device device l := Some (no_device_memory device l);
  queued_reqs device l := queued l !! device;
  on_queue := request_on_ring;
  add_req_queue_first := scsi_add_req_queue_first;
  add_req_queue_last := scsi_add_req_queue_last;
  remove_req_queue := scsi_remove_req_queue;
  insert_new_request := scsi_insert_new_request;
  waiting_devices := waiting;
  waiting_next device l := get_next device (dev_links l);
  set_waiting_devices device l := Some (Lists (req_links l) (queued l) (dev_links l) device);
  add_device_queue_first := scsi_add_device_queue_first;
  add_device_queue_last := scsi_add_device_queue_last;
  remove_device_queue := scsi_remove_device_queue
}.
