(* ===== verification/ScsiSpec.v ===== *)
(** The specification of the queues of the SCSI bus manager: lists, with the
    elevator as an insertion into a list. *)
From stdpp Require Import base gmap list.
From Stdlib Require Import ZArith Lia.
From S2P Require Import Prelude ScsiRing Scsi.

(** The queue of each device; the devices that wait; the requests there are. *)
Record rqueues := Rqueues { rq : gmap Z (list Z); rw : list Z; cells : gset Z }.

Implicit Types a : rqueues.

Definition set_rq d q a : rqueues := Rqueues (<[d := q]> (rq a)) (rw a) (cells a).
Definition set_rw w a : rqueues := Rqueues (rq a) w (cells a).

(** The request is in no queue. *)
Definition unqueued (r : Z) a : Prop := r ∈ cells a /\ map_Forall (fun _ (q : list Z) => r ∉ q) (rq a).
#[export] Instance unqueued_dec r a : Decision (unqueued r a) := and_dec _ _.

(** ** The elevator *)

Section Elevator.
Variable ordered : Z -> bool.
Variable sort : Z -> Z.

(** [rl] are, last first, the requests that are not passed yet, [next :: l]
    those that are: the new request goes to the first place from the end on
    that fits, but does not pass an ordered request. *)
Fixpoint place (new : Z) (rl : list Z) (next : Z) (l : list Z) : option (list Z) :=
  match rl with
  | [] => None
  | before :: rl =>
      if ordered before then None
      else if (sort before <=? sort new) && (sort new <=? sort next)
      then Some (rev rl ++ before :: new :: next :: l)
      else place new rl before (next :: l)
  end.

(** The new request goes in front of all others. *)
Definition to_front (last_sort new first : Z) (q : list Z) : bool :=
  ((last_sort <=? sort new) && (sort new <=? sort first)
   || (sort first <? last_sort) && (sort new <=? sort first))
  && negb (existsb ordered q).

Definition elevator (last_sort new : Z) (q : list Z) : list Z :=
  match q with
  | [] => [new]
  | first :: _ =>
      if ordered new || (sort new <? 0) then q ++ [new]
      else if to_front last_sort new first q then new :: q
      else
        match rev q with
        | last :: rl => if ordered last then q ++ [new] else default (q ++ [new]) (place new rl last [])
        | [] => q ++ [new]
        end
  end.
End Elevator.

(** ** The operations *)

Definition ordered_in (m : gmap Z scsi_ccb) (r : Z) : bool := from_option c_ordered true (m !! r).
Definition sort_in (m : gmap Z scsi_ccb) (r : Z) : Z := from_option c_sort 0 (m !! r).

(** [new] comes before, after or among the members of a queue. *)
Definition spec_add (f : list Z -> list Z) (device request : Z) a : option rqueues :=
  q ← rq a !! device; if decide (unqueued request a) then Some (set_rq device (f q) a) else None.

Definition without (x : Z) (l : list Z) : list Z := filter (fun y => y <> x) l.

Definition spec_remove (device request : Z) a : option rqueues :=
  q ← rq a !! device; if decide (request ∈ q) then Some (set_rq device (without request q) a) else None.

Definition spec_insert (m : gmap Z scsi_ccb) (last_sort device new : Z) a : option rqueues :=
  q ← rq a !! device;
  if decide (Forall (fun r => is_Some (m !! r)) (new :: q))
  then spec_add (elevator (ordered_in m) (sort_in m) last_sort new) device new a
  else None.

(** The list from a member on, around to it. *)
Fixpoint rotate_to (x : Z) (l passed : list Z) : option (list Z) :=
  match l with
  | [] => None
  | y :: r => if y =? x then Some (l ++ passed) else rotate_to x r (passed ++ [y])
  end.

Definition spec_waiting_next (device : Z) a : option Z :=
  match rw a with
  | x :: r => if x =? device then Some (hd x r) else None
  | [] => None
  end.

Definition known (device : Z) a (w : list Z) : option rqueues := _ ← rq a !! device; Some (set_rw w a).

Definition spec_new_device (device : Z) a : option rqueues :=
  if decide (device <> NULL /\ rq a !! device = None) then Some (set_rq device [] a) else None.
Definition spec_new_request (request : Z) a : option rqueues :=
  if decide (request <> NULL /\ request ∉ cells a)
  then Some (Rqueues (rq a) (rw a) ({[request]} ∪ cells a)) else None.

Definition spec_free_device (device : Z) a : option rqueues :=
  if decide (device ∉ rw a) then Some (Rqueues (delete device (rq a)) (rw a) (cells a)) else None.

#[export] Instance spec_queueing : Queueing rqueues := {
  new_device := spec_new_device;
  new_request := spec_new_request;
  free_device := spec_free_device;
  queued_reqs device a := q ← rq a !! device; Some (hd NULL q);
  on_queue device request a := exists q, rq a !! device = Some q /\ request ∈ q;
  add_req_queue_first device request := spec_add (cons request) device request;
  add_req_queue_last device request := spec_add (fun q => q ++ [request]) device request;
  remove_req_queue := spec_remove;
  insert_new_request := spec_insert;
  waiting_devices a := hd NULL (rw a);
  waiting_next := spec_waiting_next;
  set_waiting_devices device a := w ← rotate_to device (rw a) []; Some (set_rw w a);
  add_device_queue_first device a :=
    known device a (if decide (device ∈ rw a) then rw a else device :: rw a);
  add_device_queue_last device a :=
    known device a (if decide (device ∈ rw a) then rw a else rw a ++ [device]);
  remove_device_queue device a := known device a (without device (rw a))
}.

(** ** What the elevator keeps *)

Section Laws.
Variable ordered : Z -> bool.
Variable sort : Z -> Z.

Lemma place_split new rl next l q' :
  place ordered sort new rl next l = Some q' ->
  exists l1 b n l2, rev rl ++ next :: l = l1 ++ b :: n :: l2 /\ q' = l1 ++ b :: new :: n :: l2 /\
    sort b <= sort new <= sort n /\ ordered b = false /\
    (exists m, n :: l2 = m ++ next :: l /\ existsb ordered m = false).
Proof.
  revert next l. induction rl as [|before rl IH]; intros next l; simpl; [done|].
  destruct (ordered before) eqn:Ho; [done|].
  destruct ((sort before <=? sort new) && (sort new <=? sort next)) eqn:E.
  - intros [= <-]. exists (rev rl), before, next, l. rewrite <-app_assoc. split_and!; try done; try lia.
    by exists [].
  - intros H. destruct (IH _ _ H) as (l1 & b & n & l2 & E1 & E2 & E3 & E4 & m & E5 & E6).
    exists l1, b, n, l2. rewrite <-app_assoc. split_and!; try done; try lia.
    exists (m ++ [before]). rewrite <-app_assoc. split; [done|]. rewrite existsb_app, E6. simpl. by rewrite Ho.
Qed.

(** The new request enters the queue at one place; none behind it is
    ordered, and an ordered or unsortable one is last.  Unless it is last, it
    fits there: between its neighbours, or in front of a first request that
    it does not exceed. *)
Lemma elevator_split last_sort new q :
  exists q1 q2, q = q1 ++ q2 /\ elevator ordered sort last_sort new q = q1 ++ new :: q2 /\
    existsb ordered q2 = false /\
    (q2 <> [] -> ordered new = false /\ 0 <= sort new) /\
    (forall n, hd_error q2 = Some n -> sort new <= sort n) /\
    (forall b, q2 <> [] -> last q1 = Some b -> sort b <= sort new).
Proof.
  assert (Hend : exists q1 q2, q = q1 ++ q2 /\ q ++ [new] = q1 ++ new :: q2 /\
    existsb ordered q2 = false /\ (q2 <> [] -> ordered new = false /\ 0 <= sort new) /\
    (forall n, hd_error q2 = Some n -> sort new <= sort n) /\
    (forall b, q2 <> [] -> last q1 = Some b -> sort b <= sort new)).
  { exists q, []. split_and!; [by rewrite app_nil_r|done..]. }
  unfold elevator. destruct q as [|first q0]; [done|]. set (q := first :: q0) in *.
  destruct (ordered new) eqn:Hon; [done|]. rewrite orb_false_l. destruct (Z.ltb_spec (sort new) 0) as [|Hs]; [done|].
  destruct (to_front ordered sort last_sort new first q) eqn:Ef.
  - apply andb_prop in Ef as [Ef Eo]. exists [], q. split_and!; [done|done|by apply negb_true_iff|intros _; split; [done|lia]| |done].
    intros n [= <-]. lia.
  - destruct (rev q) as [|la rl] eqn:Er; [done|]. destruct (ordered la) eqn:Hol; [done|].
    destruct (place ordered sort new rl la []) as [q'|] eqn:Ep; [|done]. simpl.
    apply place_split in Ep as (l1 & b & n & l2 & E1 & -> & E3 & E4 & m & E5 & E6).
    assert (q = rev rl ++ [la]) as Hq by (rewrite <-(rev_involutive q), Er; done).
    exists (l1 ++ [b]), (n :: l2). rewrite <-!app_assoc. split_and!.
    + by rewrite Hq, E1.
    + done.
    + rewrite E5, existsb_app, E6. simpl. by rewrite Hol.
    + intros _. split; [done|lia].
    + intros n' [= <-]. lia.
    + intros b' _. rewrite last_snoc. intros [= <-]. lia.
Qed.

Lemma elevator_elem last_sort new q x : x ∈ elevator ordered sort last_sort new q <-> x = new \/ x ∈ q.
Proof.
  destruct (elevator_split last_sort new q) as (q1 & q2 & -> & -> & _). set_solver.
Qed.
End Laws.
