(* ===== verification/ScsiRefine.v ===== *)
(** The rings of pointers implement the lists of the specification. *)
From stdpp Require Import base gmap list.
From Stdlib Require Import ZArith Lia.
From S2P Require Import Prelude ScsiRing Scsi ScsiLists ScsiSpec.

Implicit Types l : lists.
Implicit Types a : rqueues.

(** The rings hold the lists: each request is in one queue at most, and the
    devices that do not wait have a [waiting_next] of [NULL]. *)
Record rep l a : Prop := {
  rp_null : NULL ∉ cells a /\ rq a !! NULL = None;
  rp_cell : forall r, r ∈ cells a -> cell (req_links l) r;
  rp_queue : forall d q, rq a !! d = Some q ->
    exists h, queued l !! d = Some h /\ ring (req_links l) h q /\ (forall r, r ∈ q -> r ∈ cells a);
  rp_disj : forall d d' q q' r, rq a !! d = Some q -> rq a !! d' = Some q' -> r ∈ q -> r ∈ q' -> d = d';
  rp_wait : ring (dev_links l) (waiting l) (rw a);
  rp_wknown : forall d, d ∈ rw a -> is_Some (rq a !! d);
  rp_wcell : forall d, is_Some (rq a !! d) -> cell (dev_links l) d;
  rp_wnull : forall d, is_Some (rq a !! d) -> d ∉ rw a -> l_next (dev_links l) !! d = Some NULL
}.

Lemma ring_nodup L h q : ring L h q -> NoDup q.
Proof. destruct q; [constructor|]. by intros (_ & ? & _). Qed.

Lemma ring_no_null L h q : ring L h q -> NULL ∉ q.
Proof. destruct q; [set_solver|]. by intros (_ & _ & ? & _). Qed.

Lemma rep_nodup l a d q : rep l a -> rq a !! d = Some q -> NoDup q.
Proof. intros H Hq. destruct (rp_queue _ _ H _ _ Hq) as (h & _ & Hr & _). by eapply ring_nodup. Qed.

(** A change of the queue of one device that touches its members and at most
    one free request. *)
Lemma rep_set_rq l a d q q' h' L' r :
  rep l a -> rq a !! d = Some q -> ring L' h' q' -> within (r :: q) (req_links l) L' ->
  unqueued r a \/ r ∈ q -> (forall x, x ∈ q' -> x = r \/ x ∈ q) ->
  rep (Lists L' (<[d := h']> (queued l)) (dev_links l) (waiting l)) (set_rq d q' a).
Proof.
  intros [N C Qu D W Wk Wc Wn] Hq Hr Hw Hf Hsub.
  assert (Hrc : r ∈ cells a).
  { destruct Hf as [[? _]|?]; [done|]. destruct (Qu _ _ Hq) as (_ & _ & _ & Hc). by apply Hc. }
  assert (Hqc : forall x, x ∈ q -> x ∈ cells a) by (destruct (Qu _ _ Hq) as (_ & _ & _ & ?); done).
  assert (Hother : forall d1 q1 x, d1 <> d -> rq a !! d1 = Some q1 -> x ∈ q1 -> x ∉ r :: q).
  { intros d1 q1 x Hne H1 Hx [->|Hx']%elem_of_cons; [|by apply Hne; eapply D].
    destruct Hf as [[_ Hu]|Hin]; [|by apply Hne; eapply D].
    by apply (Hu d1 q1 H1). }
  split; simpl.
  - split; [apply N|]. destruct (decide (d = NULL)) as [->|]; [|rewrite lookup_insert_ne by done; apply N].
    by rewrite (proj2 N) in Hq.
  - intros x Hx. eapply cell_within; [exact Hw|auto].
  - intros d1 q1. destruct (decide (d = d1)) as [<-|Hne].
    + rewrite !lookup_insert_eq. intros [= <-]. exists h'. split_and!; [done|done|].
      intros x Hx. destruct (Hsub x Hx) as [->|]; auto.
    + rewrite !lookup_insert_ne by done. intros H1. destruct (Qu _ _ H1) as (h & E & R & Hc). exists h.
      refine (conj E (conj _ Hc)). revert R. apply ring_ext. intros x Hx.
      assert (x ∉ r :: q) by (eapply Hother; eauto). by split; [apply Hw|apply Hw].
  - intros d1 d2 q1 q2 x. destruct (decide (d = d1)) as [<-|H1], (decide (d = d2)) as [<-|H2];
      rewrite ?lookup_insert_eq, ?lookup_insert_ne by done; intros E1 E2 X1 X2; simplify_eq; [done| | |eauto].
    + exfalso. apply (Hother d2 q2 x); [done|done|done|]. destruct (Hsub x X1) as [->|]; set_solver.
    + exfalso. apply (Hother d1 q1 x); [done|done|done|]. destruct (Hsub x X2) as [->|]; set_solver.
  - done.
  - intros d1 H1. destruct (decide (d = d1)) as [<-|]; [by rewrite lookup_insert_eq|rewrite lookup_insert_ne by done; auto].
  - intros d1. destruct (decide (d = d1)) as [<-|]; [intros _; by apply Wc|rewrite lookup_insert_ne by done; auto].
  - intros d1. destruct (decide (d = d1)) as [<-|]; [intros _; by apply Wn|rewrite lookup_insert_ne by done; auto].
Qed.

Lemma list_with_id l a : rep l a -> forall d q h, rq a !! d = Some q -> queued l !! d = Some h ->
  ring (req_links l) h q.
Proof. intros H d q h Hq Hh. destruct (rp_queue _ _ H _ _ Hq) as (h' & E & R & _). by simplify_eq. Qed.

Lemma unqueued_not_in r a d q : unqueued r a -> rq a !! d = Some q -> r ∉ q.
Proof. intros [_ Hu] Hq. by apply (Hu d q Hq). Qed.

Lemma rep_nonnull l a r : rep l a -> r ∈ cells a -> r <> NULL.
Proof. intros H Hr ->. by apply (rp_null _ _ H). Qed.

(** ** The operations on requests *)

(** A specified operation is implemented by one on rings. *)
Definition implements (f : lists -> option lists) (g : rqueues -> option rqueues) : Prop :=
  forall l a a', rep l a -> g a = Some a' -> exists l', f l = Some l' /\ rep l' a'.

Lemma impl_add_first d r :
  implements (scsi_add_req_queue_first d r) (spec_add (cons r) d r).
Proof.
  intros l a a' H. unfold spec_add, scsi_add_req_queue_first, on_requests.
  destruct (rq a !! d) as [q|] eqn:Hq; [|done]. simpl. case_decide as Hu; [|done]. intros [= <-].
  destruct (rp_queue _ _ H _ _ Hq) as (h & -> & R & _). simpl.
  destruct (ADD_CDL_LIST_HEAD_spec r h q (req_links l)) as (L' & -> & R' & W).
  { apply (rp_cell _ _ H), Hu. } { by eapply unqueued_not_in. } { eapply rep_nonnull; [done|apply Hu]. } { done. }
  simpl. eexists. split; [done|]. eapply rep_set_rq; eauto. set_solver.
Qed.

Lemma impl_add_last d r :
  implements (scsi_add_req_queue_last d r) (spec_add (fun q => q ++ [r]) d r).
Proof.
  intros l a a' H. unfold spec_add, scsi_add_req_queue_last, on_requests.
  destruct (rq a !! d) as [q|] eqn:Hq; [|done]. simpl. case_decide as Hu; [|done]. intros [= <-].
  destruct (rp_queue _ _ H _ _ Hq) as (h & -> & R & _). simpl.
  destruct (ADD_CDL_LIST_TAIL_spec r h q (req_links l)) as (h' & L' & -> & R' & W).
  { apply (rp_cell _ _ H), Hu. } { by eapply unqueued_not_in. } { eapply rep_nonnull; [done|apply Hu]. } { done. }
  simpl. eexists. split; [done|]. eapply rep_set_rq; eauto. set_solver.
Qed.

Lemma without_split x (l1 l2 : list Z) : NoDup (l1 ++ x :: l2) -> without x (l1 ++ x :: l2) = l1 ++ l2.
Proof.
  intros Hd. assert (Hid : forall l : list Z, x ∉ l -> without x l = l).
  { induction l as [|y l IH]; [done|]. intros Hn. unfold without. rewrite filter_cons_True by set_solver.
    f_equal. apply IH. set_solver. }
  unfold without. rewrite filter_app, filter_cons_False by (intros Hx; by apply Hx).
  apply NoDup_app in Hd as (_ & H1 & [H2 _]%NoDup_cons).
  f_equal; apply Hid; [set_solver|done].
Qed.

Lemma without_elem x y (l : list Z) : y ∈ without x l <-> y <> x /\ y ∈ l.
Proof. unfold without. by rewrite list_elem_of_filter. Qed.

Lemma without_not_in x (l : list Z) : x ∉ l -> without x l = l.
Proof.
  induction l as [|y l IH]; [done|]. intros Hn. unfold without. rewrite filter_cons_True by set_solver.
  f_equal. apply IH. set_solver.
Qed.

Lemma impl_remove d r : implements (scsi_remove_req_queue d r) (spec_remove d r).
Proof.
  intros l a a' H. unfold spec_remove, scsi_remove_req_queue, on_requests.
  destruct (rq a !! d) as [q|] eqn:Hq; [|done]. simpl. case_decide as Hin; [|done]. intros [= <-].
  destruct (rp_queue _ _ H _ _ Hq) as (h & -> & R & _). simpl.
  destruct (list_elem_of_split _ _ Hin) as (l1 & l2 & ->).
  destruct (REMOVE_CDL_LIST_spec r h l1 l2 (req_links l) R) as (h' & L' & -> & R' & W).
  simpl. eexists. split; [done|]. rewrite without_split by (by eapply ring_nodup).
  eapply rep_set_rq; [done|exact Hq|exact R'| |by right|set_solver].
  eapply within_sub; [|exact W]. set_solver.
Qed.

(** ** The operations on devices *)

(** A change of the queue of waiting devices. *)
Lemma rep_set_rw l a w' h' L' :
  rep l a -> ring L' h' w' ->
  (forall d, d ∈ w' -> is_Some (rq a !! d)) ->
  (forall d, cell (dev_links l) d -> cell L' d) ->
  (forall d, is_Some (rq a !! d) -> d ∉ w' -> l_next L' !! d = Some NULL) ->
  rep (Lists (req_links l) (queued l) L' h') (set_rw w' a).
Proof. intros [N C Qu D W Wk Wc Wn] Hr Hk Hc Hn. split; simpl; auto. Qed.

Lemma in_wait_queue l a d :
  rep l a -> is_Some (rq a !! d) -> DEVICE_IN_WAIT_QUEUE d l = Some (bool_decide (d ∈ rw a)).
Proof.
  intros H Hd. unfold DEVICE_IN_WAIT_QUEUE, get_next. case_bool_decide as Hw.
  - pose proof (rp_wait _ _ H) as R. destruct (list_elem_of_split _ _ Hw) as (l1 & l2 & E). rewrite E in R.
    pose proof (ring_no_null _ _ _ R) as Hnn. apply ring_rotate in R.
    destruct (l2 ++ l1) as [|y m] eqn:Em.
    + destruct R as (_ & _ & Hz & [-> _]). simpl. by rewrite (proj2 (Z.eqb_neq d NULL)) by set_solver.
    + rewrite (ring_next _ _ _ _ _ R). simpl. assert (y ∈ l2 ++ l1) by (rewrite Em; set_solver).
      rewrite (proj2 (Z.eqb_neq y NULL)); [done|]. intros ->. set_solver.
  - by rewrite (rp_wnull _ _ H _ Hd Hw).
Qed.

Lemma rep_dev_nonnull l a d : rep l a -> is_Some (rq a !! d) -> d <> NULL.
Proof. intros H [q Hq] ->. by rewrite (proj2 (rp_null _ _ H)) in Hq. Qed.

Lemma rep_add_waiting l a d w' h' L' :
  rep l a -> is_Some (rq a !! d) -> ring L' h' w' -> within (d :: rw a) (dev_links l) L' ->
  (forall x, x ∈ w' <-> x = d \/ x ∈ rw a) ->
  rep (Lists (req_links l) (queued l) L' h') (set_rw w' a).
Proof.
  intros H Hd R W Hw'. apply rep_set_rw; [done|done| | |].
  - intros x [->|?]%Hw'; [done|by apply (rp_wknown _ _ H)].
  - intros x. by apply (cell_within _ _ _ _ W).
  - intros x Hx Hni. rewrite (wi_next _ _ _ W); [apply (rp_wnull _ _ H); [done|]|];
      rewrite Hw' in Hni; set_solver.
Qed.

Lemma impl_add_device_first d :
  implements (scsi_add_device_queue_first d)
    (fun a => known d a (if decide (d ∈ rw a) then rw a else d :: rw a)).
Proof.
  intros l a a' H. unfold known. destruct (rq a !! d) as [q|] eqn:Hq; [|done]. simpl. intros [= <-].
  assert (Hd : is_Some (rq a !! d)) by done.
  unfold scsi_add_device_queue_first. rewrite (in_wait_queue l a d) by done. simpl.
  rewrite decide_bool_decide. case_bool_decide as Hw.
  - exists l. split; [done|]. by destruct a.
  - unfold on_waiting.
    destruct (ADD_CDL_LIST_HEAD_spec d (waiting l) (rw a) (dev_links l)) as (L' & -> & R & W).
    { by apply (rp_wcell _ _ H). } { done. } { by eapply rep_dev_nonnull. } { apply (rp_wait _ _ H). }
    simpl. eexists. split; [done|]. eapply rep_add_waiting; [done|exact Hd|exact R|exact W|]. set_solver.
Qed.

Lemma impl_add_device_last d :
  implements (scsi_add_device_queue_last d)
    (fun a => known d a (if decide (d ∈ rw a) then rw a else rw a ++ [d])).
Proof.
  intros l a a' H. unfold known. destruct (rq a !! d) as [q|] eqn:Hq; [|done]. simpl. intros [= <-].
  assert (Hd : is_Some (rq a !! d)) by done.
  unfold scsi_add_device_queue_last. rewrite (in_wait_queue l a d) by done. simpl.
  rewrite decide_bool_decide. case_bool_decide as Hw.
  - exists l. split; [done|]. by destruct a.
  - unfold on_waiting.
    destruct (ADD_CDL_LIST_TAIL_spec d (waiting l) (rw a) (dev_links l)) as (h' & L' & -> & R & W).
    { by apply (rp_wcell _ _ H). } { done. } { by eapply rep_dev_nonnull. } { apply (rp_wait _ _ H). }
    simpl. eexists. split; [done|]. eapply rep_add_waiting; [done|exact Hd|exact R|exact W|]. set_solver.
Qed.

Lemma impl_remove_device d :
  implements (scsi_remove_device_queue d) (fun a => known d a (without d (rw a))).
Proof.
  intros l a a' H. unfold known. destruct (rq a !! d) as [q|] eqn:Hq; [|done]. simpl. intros [= <-].
  assert (Hd : is_Some (rq a !! d)) by done.
  unfold scsi_remove_device_queue. rewrite (in_wait_queue l a d) by done. simpl.
  case_bool_decide as Hw; simpl.
  - pose proof (rp_wait _ _ H) as R. destruct (list_elem_of_split _ _ Hw) as (l1 & l2 & E). rewrite E in R.
    destruct (REMOVE_CDL_LIST_spec d (waiting l) l1 l2 (dev_links l) R) as (h' & L' & E1 & R' & W).
    unfold on_waiting. rewrite E1. simpl.
    assert (Hc : cell L' d) by (eapply cell_within; [exact W|by apply (rp_wcell _ _ H)]).
    destruct (put_next_spec d NULL L') as (L2 & -> & A & B & W2); [apply Hc|]. simpl.
    eexists. split; [done|]. rewrite E, without_split by (by eapply ring_nodup).
    assert (Hnd : d ∉ l1 ++ l2).
    { pose proof (ring_nodup _ _ _ R) as Hn. rewrite NoDup_app, NoDup_cons in Hn. set_solver. }
    apply rep_set_rw; [done| | | |].
    + revert R'. apply ring_ext. intros x Hx. split; [|by rewrite B].
      rewrite A, lookup_insert_ne; [done|]. intros ->. done.
    + intros x Hx. apply (rp_wknown _ _ H). rewrite E. set_solver.
    + intros x Hx. eapply cell_within; [exact W2|]. by eapply cell_within.
    + intros x Hx Hni. destruct (decide (x = d)) as [->|Hne]; [by rewrite A, lookup_insert_eq|].
      rewrite A, lookup_insert_ne by done. rewrite (wi_next _ _ _ W) by set_solver.
      apply (rp_wnull _ _ H); [done|]. rewrite E. set_solver.
  - exists l. split; [done|]. rewrite without_not_in by done. by destruct a.
Qed.

Lemma rotate_to_spec x (w p w' : list Z) :
  rotate_to x w p = Some w' -> exists w1 w2, w = w1 ++ x :: w2 /\ w' = x :: w2 ++ p ++ w1.
Proof.
  revert p. induction w as [|y w IH]; intros p; simpl; [done|].
  destruct (Z.eqb_spec y x) as [->|].
  - intros [= <-]. exists [], w. by rewrite app_nil_r.
  - intros (w1 & w2 & -> & ->)%IH. exists (y :: w1), w2. by rewrite <-app_assoc.
Qed.

Lemma rotate_to_split x (w1 w2 p : list Z) :
  x ∉ w1 -> rotate_to x (w1 ++ x :: w2) p = Some (x :: w2 ++ p ++ w1).
Proof.
  revert p. induction w1 as [|y w1 IH]; intros p Hn; simpl; [by rewrite Z.eqb_refl, app_nil_r|].
  rewrite (proj2 (Z.eqb_neq y x)) by set_solver. rewrite IH by set_solver. by rewrite <-app_assoc.
Qed.

Lemma impl_set_waiting d :
  implements (fun l => Some (Lists (req_links l) (queued l) (dev_links l) d))
    (fun a => w ← rotate_to d (rw a) []; Some (set_rw w a)).
Proof.
  intros l a a' H. destruct (rotate_to d (rw a) []) as [w|] eqn:E; [|done]. simpl. intros [= <-].
  apply rotate_to_spec in E as (w1 & w2 & E & ->). simpl. pose proof (rp_wait _ _ H) as R. rewrite E in R.
  apply ring_rotate in R. eexists. split; [done|].
  assert (Hin : forall x, x ∈ d :: w2 ++ w1 <-> x ∈ rw a) by (intros x; rewrite E; set_solver).
  apply rep_set_rw; [done|done| |done|].
  - intros x Hx%Hin. by apply (rp_wknown _ _ H).
  - intros x Hx Hni. apply (rp_wnull _ _ H); [done|]. by rewrite <-Hin.
Qed.

(** ** New structures *)

Lemma fresh_links_lookup p L x :
  x <> p -> l_next (fresh_links p L) !! x = l_next L !! x /\ l_prev (fresh_links p L) !! x = l_prev L !! x.
Proof. intros Hne. simpl. by rewrite !lookup_insert_ne. Qed.

Lemma fresh_links_cell p L x : x = p \/ cell L x -> cell (fresh_links p L) x.
Proof.
  destruct (decide (x = p)) as [->|Hne]; [intros _; split; simpl; by rewrite lookup_insert_eq|].
  intros [?|[H1 H2]]; [done|]. destruct (fresh_links_lookup p L x Hne) as [E1 E2]. split; by rewrite ?E1, ?E2.
Qed.

Lemma fresh_links_ring p L h (q : list Z) : p ∉ q -> ring L h q -> ring (fresh_links p L) h q.
Proof. intros Hp. apply ring_ext. intros x Hx. apply fresh_links_lookup. intros ->. done. Qed.

Lemma impl_new_device d : implements (fun l => Some (device_memory d l)) (spec_new_device d).
Proof.
  intros l a a' H. unfold spec_new_device. case_decide as Hd; [|done]. destruct Hd as [Hn Hnone]. intros [= <-].
  eexists. split; [done|]. destruct H as [N C Qu D W Wk Wc Wn].
  assert (Hw : d ∉ rw a) by (intros Hd; destruct (Wk d Hd); congruence).
  split; simpl; try done.
  - split; [apply N|]. rewrite lookup_insert_ne by done. apply N.
  - intros d1 q. destruct (decide (d = d1)) as [<-|Hne].
    + rewrite !lookup_insert_eq. intros [= <-]. exists NULL. split_and!; [done|done|set_solver].
    + rewrite !lookup_insert_ne by done. auto.
  - intros d1 d2 q1 q2 x. destruct (decide (d = d1)) as [<-|], (decide (d = d2)) as [<-|];
      rewrite ?lookup_insert_eq, ?lookup_insert_ne by done; intros E1 E2 X1 X2; simplify_eq; [done|set_solver|set_solver|eauto].
  - by apply fresh_links_ring.
  - intros d1 Hd1. destruct (decide (d = d1)) as [<-|]; [done|]. rewrite lookup_insert_ne by done. auto.
  - intros d1 Hd1. apply fresh_links_cell. destruct (decide (d1 = d)) as [->|]; [by left|right].
    apply Wc. by rewrite lookup_insert_ne in Hd1.
  - intros d1 Hd1 Hw1. destruct (decide (d1 = d)) as [->|Hne]; [by rewrite lookup_insert_eq|].
    rewrite lookup_insert_ne in Hd1 by done. rewrite lookup_insert_ne by done. by apply Wn.
Qed.

Lemma impl_new_request r : implements (fun l => Some (request_memory r l)) (spec_new_request r).
Proof.
  intros l a a' H. unfold spec_new_request. case_decide as Hd; [|done]. destruct Hd as [Hn Hnone]. intros [= <-].
  eexists. split; [done|]. destruct H as [N C Qu D W Wk Wc Wn]. split; simpl; try done.
  - split; [|apply N]. rewrite elem_of_union, elem_of_singleton. intros [?|?]; [by apply Hn|by apply N].
  - intros x Hx. apply fresh_links_cell. apply elem_of_union in Hx as [->%elem_of_singleton|Hx]; [by left|right; auto].
  - intros d q Hq. destruct (Qu d q Hq) as (h & E & R & Hc). exists h.
    refine (conj E (conj _ _)); [|set_solver]. apply fresh_links_ring; [|done]. intros Hr. by apply Hnone, Hc.
Qed.

Lemma impl_free_device d : implements (fun l => Some (no_device_memory d l)) (spec_free_device d).
Proof.
  intros l a a' H. unfold spec_free_device. case_decide as Hw; [|done]. intros [= <-].
  eexists. split; [done|]. destruct H as [N C Qu D W Wk Wc Wn].
  assert (Hne : forall x, is_Some (delete d (rq a) !! x) -> x <> d /\ is_Some (rq a !! x)).
  { intros x [q Hx]. apply lookup_delete_Some in Hx as [? ?]. split; [|done]. by intros ->. }
  split; simpl; try done.
  - split; [apply N|]. destruct (decide (d = NULL)) as [->|]; [by rewrite lookup_delete_eq|].
    rewrite lookup_delete_ne by done. apply N.
  - intros d1 q Hq. destruct (Hne d1) as [H1 _]; [done|]. rewrite !lookup_delete_ne in * by done. auto.
  - intros d1 d2 q1 q2 x E1 E2. apply lookup_delete_Some in E1 as [_ E1], E2 as [_ E2]. eauto.
  - revert W. apply ring_ext. intros x Hx. simpl. assert (d <> x) by (by intros ->). by rewrite !lookup_delete_ne.
  - intros x Hx. assert (d <> x) by (by intros ->). rewrite lookup_delete_ne by done. auto.
  - intros x [Hx H1]%Hne. destruct (Wc x H1). split; simpl; by rewrite lookup_delete_ne.
  - intros x [Hx H1]%Hne Hw1. rewrite lookup_delete_ne by done. auto.
Qed.

(** ** Reading *)

Lemma impl_queued_reqs l a d h :
  rep l a -> queued_reqs d a = Some h -> queued_reqs d l = Some h.
Proof.
  intros H. simpl. destruct (rq a !! d) as [q|] eqn:Hq; [|done]. simpl. intros [= <-].
  destruct (rp_queue _ _ H _ _ Hq) as (h & -> & R & _). destruct q; [by rewrite R|by destruct R as [-> _]].
Qed.

Lemma impl_waiting_devices l a : rep l a -> waiting_devices l = waiting_devices a.
Proof. intros H. simpl. pose proof (rp_wait _ _ H) as R. destruct (rw a); [done|by destruct R as [-> _]]. Qed.

Lemma impl_waiting_next l a d n :
  rep l a -> waiting_next d a = Some n -> waiting_next d l = Some n.
Proof.
  intros H. simpl. unfold spec_waiting_next, get_next. pose proof (rp_wait _ _ H) as R.
  destruct (rw a) as [|x w]; [done|]. destruct (Z.eqb_spec x d) as [->|]; [|done]. intros [= <-].
  destruct w as [|y w]; [by destruct R as (_ & _ & _ & [-> _])|]. by rewrite (ring_next _ _ _ _ _ R).
Qed.

Lemma path_unique L x b (q q' : list Z) :
  path L b q x -> path L b q' x -> x ∉ q -> x ∉ q' -> q = q'.
Proof.
  revert b q'. induction q as [|y q IH]; intros b [|z q']; simpl.
  - done.
  - intros [H1 _] [[H2 _] _] _ Hn. simplify_eq. set_solver.
  - intros [[H1 _] _] [H2 _] Hn. simplify_eq. set_solver.
  - intros [[H1 _] P] [[H2 _] P'] Hn Hn'. simplify_eq. f_equal. eapply IH; eauto; set_solver.
Qed.

Lemma ring_unique L h (q q' : list Z) : ring L h q -> ring L h q' -> q = q'.
Proof.
  destruct q as [|x q], q' as [|y q']; simpl; try done.
  - intros -> (<- & _ & H & _). set_solver.
  - intros (<- & _ & H & _) ->. set_solver.
  - intros (-> & [Hd _]%NoDup_cons & _ & P) (-> & [Hd' _]%NoDup_cons & _ & P'). f_equal. by eapply path_unique.
Qed.

Lemma impl_on_queue l a d r : rep l a -> on_queue d r a -> on_queue d r l.
Proof.
  intros H (q & Hq & Hin). destruct (rp_queue _ _ H _ _ Hq) as (h & Hh & R & _). by exists h, q.
Qed.

Lemma impl_on_queue_inv l a d r : rep l a -> is_Some (rq a !! d) -> on_queue d r l -> on_queue d r a.
Proof.
  intros H [q Hq] (h' & q' & Hh' & R' & Hin). destruct (rp_queue _ _ H _ _ Hq) as (h & Hh & R & _).
  simplify_eq. exists q. split; [done|]. by rewrite (ring_unique _ _ _ _ R R').
Qed.

(** ** The elevator *)

Lemma ring_prev L h (l1 : list Z) y x (l2 : list Z) : ring L h (l1 ++ y :: x :: l2) -> l_prev L !! x = Some y.
Proof. intros R%ring_rotate. destruct R as (_ & _ & _ & [[_ H] _]). done. Qed.

Lemma ring_prev_first L h x (q : list Z) : ring L h (x :: q) -> l_prev L !! x = Some (List.last q x).
Proof. intros (_ & _ & _ & P). by apply path_last in P. Qed.

Lemma last_in x (q : list Z) : List.last q x ∈ x :: q.
Proof.
  destruct q as [|y q _] using rev_ind; [set_solver|]. rewrite List.last_last. set_solver.
Qed.

Lemma last_cons x y (q : list Z) : List.last (x :: q) y = List.last q x.
Proof.
  revert x y. induction q as [|z q IH]; intros x y; [done|].
  transitivity (List.last (z :: q) y); [done|]. by rewrite !IH.
Qed.

(** The predecessor in a ring, of a member that is not passed. *)
Lemma ring_hd_prev L h (rl : list Z) next (p : list Z) :
  ring L h (rev rl ++ next :: p) -> l_prev L !! next = Some (hd (List.last p next) rl).
Proof.
  destruct rl as [|y rl]; simpl.
  - apply ring_prev_first.
  - rewrite <-app_assoc. apply ring_prev.
Qed.

Section Loops.
Variable m : gmap Z scsi_ccb.
Variable L : links.

Lemma at_present x : is_Some (m !! x) ->
  ordered_at m x = Some (ordered_in m x) /\ sort_at m x = Some (sort_in m x).
Proof. intros [c Hc]. unfold ordered_at, sort_at, ordered_in, sort_in. by rewrite Hc. Qed.

Lemma find_ordered_spec h (rl : list Z) x (p : list Z) fuel :
  ring L h (rev rl ++ x :: p) -> Forall (fun r => is_Some (m !! r)) (rev rl ++ x :: p) ->
  existsb (ordered_in m) p = false -> (length rl < fuel)%nat ->
  exists b, find_ordered m L fuel (List.last p x) x = Some b /\
    ordered_at m b = Some (existsb (ordered_in m) (rev rl ++ x :: p)).
Proof.
  revert x p fuel. induction rl as [|y rl IH]; intros x p [|fuel] R Hm Hp Hf; simpl in Hf; try lia;
    pose proof (ring_hd_prev _ _ _ _ _ R) as Hpv; rewrite Forall_forall in Hm.
  - simpl in *. destruct (at_present x) as [Hx _]; [apply Hm; set_solver|]. rewrite Hx. simpl.
    destruct (ordered_in m x) eqn:Ox; [by exists x; rewrite Hx|].
    unfold get_prev. rewrite Hpv. simpl. rewrite Z.eqb_refl. eexists. split; [done|].
    destruct (at_present (List.last p x)) as [-> _]; [apply Hm, last_in|]. f_equal. rewrite Hp.
    destruct p as [|z p _] using rev_ind; [done|]. rewrite List.last_last.
    rewrite existsb_app in Hp. simpl in Hp. by apply orb_false_elim in Hp as [_ [? _]%orb_false_elim].
  - cbn [find_ordered]. destruct (at_present x) as [Hx _]; [apply Hm; set_solver|]. rewrite Hx. simpl.
    destruct (ordered_in m x) eqn:Ox.
    { exists x. rewrite Hx. split; [done|]. f_equal. rewrite !existsb_app. simpl. by rewrite Ox, orb_true_r. }
    unfold get_prev. rewrite Hpv. simpl.
    assert (Hne : y <> List.last p x).
    { intros ->. pose proof (ring_nodup _ _ _ R) as Hd. simpl in Hd. rewrite <-app_assoc, NoDup_app in Hd.
      destruct Hd as (_ & _ & [Hd _]%NoDup_cons). apply Hd, last_in. }
    rewrite (proj2 (Z.eqb_neq _ _) Hne). simpl in R, Hm. rewrite <-app_assoc in R, Hm. simpl in R, Hm.
    destruct (IH y (x :: p) fuel) as (b & Eb & Ob); [done|by apply Forall_forall| |lia|].
    { simpl. by rewrite Ox. }
    rewrite last_cons in Eb. exists b. simpl. by rewrite <-app_assoc.
Qed.

Lemma sort_loop_spec h new (rl : list Z) next (p : list Z) fuel :
  ring L h (rev rl ++ next :: p) -> Forall (fun r => is_Some (m !! r)) (rev rl ++ next :: p) ->
  (length rl < fuel)%nat ->
  exists b n, sort_loop m L fuel (List.last p next) (sort_in m new) (hd (List.last p next) rl) next = Some (b, n) /\
    match place (ordered_in m) (sort_in m) new rl next p with
    | Some q' => ordered_in m b = false /\
        exists (l1 l2 : list Z), rev rl ++ next :: p = l1 ++ b :: n :: l2 /\ q' = l1 ++ b :: new :: n :: l2
    | None => ordered_in m b = true /\ b ∈ rl \/ b = List.last p next /\ n = h
    end.
Proof.
  revert next p fuel. induction rl as [|y rl IH]; intros next p [|fuel] R Hm Hf; simpl in Hf; try lia;
    cbn [sort_loop place hd].
  - rewrite Z.eqb_refl. eexists _, _. split; [done|]. right. split; [done|]. by destruct R as [-> _].
  - rewrite Forall_forall in Hm. simpl in R, Hm. rewrite <-app_assoc in R, Hm. simpl in R, Hm.
    assert (Hne : y <> List.last p next).
    { intros ->. pose proof (ring_nodup _ _ _ R) as Hd. rewrite NoDup_app in Hd.
      destruct Hd as (_ & _ & [Hd _]%NoDup_cons). apply Hd, last_in. }
    rewrite (proj2 (Z.eqb_neq _ _) Hne).
    destruct (at_present y) as [-> ->]; [apply Hm; set_solver|].
    destruct (at_present next) as [_ ->]; [apply Hm; set_solver|]. simpl.
    destruct (ordered_in m y) eqn:Oy; [eexists _, _; split; [done|]; left; set_solver|].
    destruct ((sort_in m y <=? sort_in m new) && (sort_in m new <=? sort_in m next)) eqn:E.
    { exists y, next. split; [done|]. split; [done|]. exists (rev rl), p. by rewrite <-app_assoc. }
    unfold get_prev. rewrite (ring_hd_prev _ _ _ _ _ R), last_cons. cbn [mbind option_bind].
    destruct (IH y (next :: p) fuel) as (b & n & Eb & Hb); [done|by apply Forall_forall|lia|].
    rewrite last_cons in Eb, Hb. exists b, n. split; [exact Eb|].
    destruct (place _ _ new rl y (next :: p)) as [q'|].
    + rewrite <-app_assoc. done.
    + destruct Hb as [[? ?]|?]; [left; set_solver|by right].
Qed.
End Loops.

Lemma spec_add_some f d r a q :
  rq a !! d = Some q -> unqueued r a -> spec_add f d r a = Some (set_rq d (f q) a).
Proof. intros Hq Hu. unfold spec_add. rewrite Hq. simpl. by rewrite decide_True. Qed.

(** A ring fits into the memory of links. *)
Lemma ring_size L h (q : list Z) : ring L h q -> (length q <= size (l_prev L))%nat.
Proof.
  intros R. rewrite <-size_dom. rewrite <-(size_list_to_set (C := gset Z) q) by (by eapply ring_nodup).
  apply subseteq_size. intros x Hx%elem_of_list_to_set. apply elem_of_dom. by eapply ring_member.
Qed.

Lemma place_insert l a d q h new (l1 l2 : list Z) b n :
  rep l a -> rq a !! d = Some q -> queued l !! d = Some h -> unqueued new a -> q = l1 ++ b :: n :: l2 ->
  exists l', (L' ← put_between new b n (req_links l); Some (Lists L' (queued l) (dev_links l) (waiting l))) = Some l' /\
    rep l' (set_rq d (l1 ++ b :: new :: n :: l2) a).
Proof.
  intros H Hq Hh Hu Eq. pose proof (list_with_id l a H d q h Hq Hh) as R.
  pose proof (unqueued_not_in new a d q Hu Hq) as Hni. subst q.
  destruct (insert_between_spec new b l1 n l2 h (req_links l)) as (L' & -> & R' & W);
    [apply (rp_cell _ _ H), Hu|done|eapply rep_nonnull; [done|apply Hu]|done|].
  simpl. eexists. split; [done|].
  pose proof (rep_set_rq l a d _ _ h L' new H Hq R' W (or_introl Hu)) as Hrep.
  rewrite (insert_id _ _ _ Hh) in Hrep. apply Hrep. set_solver.
Qed.

Ltac osimpl := cbn [mbind option_bind mret option_ret].

Lemma rev_last first (q : list Z) : exists rl, rev (first :: q) = List.last q first :: rl.
Proof.
  destruct (exists_last (l := first :: q)) as (q1 & z & E); [done|]. exists (rev q1).
  rewrite E, rev_unit. f_equal. rewrite <-(last_cons first first q), E. by rewrite List.last_last.
Qed.

(** What the loops find out, from the last request on. *)
Lemma insert_search m l a d first (q0 : list Z) new :
  rep l a -> rq a !! d = Some (first :: q0) -> queued l !! d = Some first -> unqueued new a ->
  Forall (fun r => is_Some (m !! r)) (first :: q0) ->
  let L := req_links l in
  let la := List.last q0 first in
  exists rl, rev (first :: q0) = la :: rl /\ ordered_at m la = Some (ordered_in m la) /\
    (exists b, find_ordered m L (S (size (l_prev L))) la la = Some b /\
       (ordered_in m la = false -> ordered_at m b = Some (existsb (ordered_in m) (first :: q0)))) /\
    (ordered_in m la = true -> existsb (ordered_in m) (first :: q0) = true /\
       find_ordered m L (S (size (l_prev L))) la la = Some la) /\
    l_prev L !! la = Some (hd la rl) /\
    (ordered_in m la = false -> exists b n,
      sort_loop m L (S (size (l_prev L))) la (sort_in m new) (hd la rl) la = Some (b, n) /\
      ordered_at m b = Some (ordered_in m b) /\
      match place (ordered_in m) (sort_in m) new rl la [] with
      | Some q' => ordered_in m b = false /\
          exists (l1 l2 : list Z), first :: q0 = l1 ++ b :: n :: l2 /\ q' = l1 ++ b :: new :: n :: l2
      | None => ordered_in m b = true \/ b = la /\ n = first
      end).
Proof.
  intros H Hq Hh Hu Hm L la. destruct (rev_last first q0) as [rl Er]. fold la in Er. exists rl.
  assert (Hql : first :: q0 = rev rl ++ [la]) by (rewrite <-(rev_involutive (first :: q0)), Er; done).
  pose proof (list_with_id l a H d _ first Hq Hh) as R. fold L in R.
  pose proof (ring_size _ _ _ R) as Hs. rewrite Hql, length_app, length_rev in Hs. simpl in Hs.
  rewrite Hql in R, Hm. pose proof Hm as Hm'. rewrite Forall_forall in Hm'.
  destruct (at_present m la) as [Hola _]; [apply Hm'; set_solver|].
  destruct (find_ordered_spec m L first rl la [] (S (size (l_prev L)))) as (b & Eb & Ob); [done|done|done|lia|].
  simpl in Eb. split_and!; try done.
  - exists b. split; [done|]. intros _. by rewrite Hql.
  - intros Ho. split; [rewrite Hql, existsb_app; simpl; by rewrite Ho, orb_true_r|].
    cbn [find_ordered]. rewrite Hola. osimpl. by rewrite Ho.
  - apply (ring_hd_prev _ _ _ _ _ R).
  - intros _. destruct (sort_loop_spec m L first new rl la [] (S (size (l_prev L)))) as (b' & n & E & Hb); [done|done|lia|].
    simpl in E. exists b', n. split; [done|]. split.
    + destruct (at_present m b') as [-> _]; [|done]. apply Hm'.
      destruct (place _ _ new rl la []); [destruct Hb as (_ & l1 & l2 & -> & _); set_solver|].
      destruct Hb as [[_ ?]|[-> _]]; [|set_solver]. apply elem_of_app. left.
      by apply list_elem_of_In, in_rev; rewrite rev_involutive; apply list_elem_of_In.
    + destruct (place _ _ new rl la []); [by rewrite Hql|]. destruct Hb as [[? _]|?]; auto.
Qed.

(** The loops over the ring implement the elevator. *)
Lemma impl_insert m last_sort d new :
  implements (scsi_insert_new_request m last_sort d new) (spec_insert m last_sort d new).
Proof.
  intros l a a' H. unfold spec_insert, scsi_insert_new_request.
  destruct (rq a !! d) as [q|] eqn:Hq; [|done]. osimpl. case_decide as Hm; [|done].
  unfold spec_add at 1. rewrite Hq. osimpl. case_decide as Hu; [|done]. intros [= <-].
  pose proof (impl_add_last d new l a _ H (spec_add_some (fun q => q ++ [new]) d new a q Hq Hu)) as Htail.
  pose proof (impl_add_first d new l a _ H (spec_add_some (cons new) d new a q Hq Hu)) as Hhead.
  destruct (rp_queue _ _ H _ _ Hq) as (h & Hh & R & _). rewrite Hh. osimpl.
  rewrite (ring_nil _ _ _ R). destruct q as [|first q0]; [done|]. rewrite bool_decide_false by done.
  apply Forall_cons in Hm as [Hnew Hm]. destruct (at_present m new Hnew) as [-> ->]. osimpl. unfold elevator.
  destruct (ordered_in m new) eqn:On; [done|]. rewrite orb_false_l.
  destruct (sort_in m new <? 0) eqn:Sn; [done|].
  assert (h = first) as -> by (by destruct R as [-> _]).
  destruct (at_present m first) as [_ ->]; [by apply Forall_cons in Hm as [? _]|]. osimpl.
  unfold get_prev. rewrite (ring_prev_first _ _ _ _ R). osimpl.
  destruct (insert_search m l a d first q0 new H Hq Hh Hu Hm)
    as (rl & Er & Ola & (b & Eb & Ob) & Hto & Hpv & Hloop). unfold to_front. rewrite Er.
  set (exc := (last_sort <=? _) && _ || _).
  destruct (ordered_in m (List.last q0 first)) eqn:Ho.
  { destruct (Hto eq_refl) as [-> Ef]. rewrite andb_false_r, Ef. osimpl. rewrite Ola. osimpl.
    destruct exc; osimpl; done. }
  rewrite Eb. osimpl. rewrite (Ob eq_refl), Ola. osimpl.
  destruct (exc && negb (existsb (ordered_in m) (first :: q0))) eqn:Efront.
  { apply andb_prop in Efront as [-> Eo]. osimpl. by rewrite Eo. }
  assert (Ht : (if exc then Some (negb (existsb (ordered_in m) (first :: q0))) else Some false) = Some false).
  { destruct exc; [|done]. by rewrite andb_true_l in Efront; rewrite Efront. }
  rewrite Ht. osimpl. rewrite Hpv. osimpl.
  destruct (Hloop eq_refl) as (b' & n & -> & Ob' & Hb). osimpl. rewrite Ob'. osimpl.
  destruct (place _ _ new rl _ []) as [q'|]; cbn [default from_option].
  - destruct Hb as (-> & l1 & l2 & Eq & ->). by apply (place_insert l a d (first :: q0) first).
  - destruct Hb as [->|[-> ->]]; [done|]. destruct (ordered_in m (List.last q0 first)) eqn:Ho'; [done|].
    (* the ring closes: the same stores as at the tail *)
    destruct Htail as (l' & E & Hrep). unfold scsi_add_req_queue_last, on_requests in E. rewrite Hh in E.
    revert E. cbn [mbind option_bind]. unfold ADD_CDL_LIST_TAIL.
    rewrite (ring_nil _ _ _ R), bool_decide_false by done. unfold get_prev. rewrite (ring_prev_first _ _ _ _ R).
    cbn [negb mbind option_bind]. intros E. exists l'. split; [|done]. revert E.
    destruct (put_between new _ first (req_links l)) as [L'|]; [|done]. osimpl. by rewrite (insert_id _ _ _ Hh).
Qed.
