(* ===== verification/ScsiQueue.v ===== *)
(** Queueing and blocking (queuing.c, queuing.h): written against the interface
    of the queues. *)
From stdpp Require Import base gmap list.
From Stdlib Require Import ZArith Lia.
From S2P Require Import Prelude ScsiRing Scsi.

Section Queue.
Context {Q : Type} `{Queueing Q}.

(** ** Blocking (queuing.h) *)

Definition scsi_set_device_overflow (device : Z) : op Q unit :=
  upd_dev device (fun d =>
    let d := set_d_lock_count (d_lock_count d + Z.lxor (d_sim_overflow d) 1) d in
    set_d_sim_overflow 1 d).

Definition scsi_set_bus_overflow : op Q unit :=
  upd_bus (fun b =>
    let b := set_b_lock_count (b_lock_count b + Z.lxor (Z.b2z (b_sim_overflow b)) 1) b in
    set_b_sim_overflow true b).

Definition scsi_clear_device_overflow (device : Z) : op Q unit :=
  upd_dev device (fun d =>
    let d := set_d_lock_count (d_lock_count d - d_sim_overflow d) d in
    set_d_sim_overflow 0 d).

Definition scsi_clear_bus_overflow : op Q unit :=
  upd_bus (fun b =>
    let b := set_b_lock_count (b_lock_count b - Z.b2z (b_sim_overflow b)) b in
    set_b_sim_overflow false b).

Definition scsi_can_service_bus : op Q bool :=
  b ← get_bus; w ← queues (fun q => Some (waiting_devices q));
  mret ((b_lock_count b =? 0) && negb (w =? NULL)).

Definition scsi_unblock_bus_noresume (by_SIM : bool) : op Q unit :=
  b ← get_bus;
  if 0 <? count_of by_SIM (b_blocked b) then
    upd_bus (fun b => set_b_lock_count (b_lock_count b - 1)
                        (set_b_blocked (count_add by_SIM (-1) (b_blocked b)) b))
  else panic.

Definition scsi_unblock_device_noresume (device : Z) (by_SIM : bool) : op Q unit :=
  d ← get_dev device;
  if 0 <? count_of by_SIM (d_blocked d) then
    upd_dev device (fun d => set_d_lock_count (d_lock_count d - 1)
                               (set_d_blocked (count_add by_SIM (-1) (d_blocked d)) d))
  else panic.

Definition scsi_block_bus_nolock (by_SIM : bool) : op Q unit :=
  upd_bus (fun b => set_b_lock_count (b_lock_count b + 1)
                      (set_b_blocked (count_add by_SIM 1 (b_blocked b)) b)).

Definition scsi_block_device_nolock (device : Z) (by_SIM : bool) : op Q unit :=
  upd_dev device (fun d => set_d_lock_count (d_lock_count d + 1)
                             (set_d_blocked (count_add by_SIM 1 (d_blocked d)) d)) ;;
  upd_queues (remove_device_queue device).

(** ** Queueing (queuing.c) *)

(** [device->queued_reqs != NULL] *)
Definition has_requests (device : Z) : op Q bool :=
  r ← queues (queued_reqs device); mret (negb (r =? NULL)).

Definition scsi_add_queued_request (request : Z) : op Q unit :=
  c ← get_ccb request; let device := c_device c in
  upd_ccb request (set_c_state SCSI_STATE_QUEUED) ;;
  d ← get_dev device;
  requests ← get ccbs;
  upd_queues (insert_new_request requests (d_last_sort d) device request) ;;
  d ← get_dev device;
  when (d_lock_count d =? 0) (upd_queues (add_device_queue_last device)).

Definition scsi_add_queued_request_first (request : Z) : op Q unit :=
  c ← get_ccb request; let device := c_device c in
  upd_ccb request (set_c_state SCSI_STATE_QUEUED) ;;
  upd_queues (add_req_queue_first device request) ;;
  d ← get_dev device;
  when (d_lock_count d =? 0) (upd_queues (add_device_queue_first device)).

Definition scsi_remove_queued_request (request : Z) : op Q unit :=
  c ← get_ccb request; let device := c_device c in
  upd_queues (remove_req_queue device request) ;;
  some ← has_requests device;
  when (negb some) (upd_queues (remove_device_queue device)).

(** The body of a critical section that may make the bus servicable: the
    service thread is told when it does. *)
Definition with_retry {A} (body : op Q A) : op Q A :=
  was_servicable ← scsi_can_service_bus;
  a ← body;
  can ← scsi_can_service_bus;
  when (negb was_servicable && can) release_start ;;
  mret a.

(** The same where more is done between the critical section and the
    notification. *)
Definition with_retry_then (body rest : op Q unit) : op Q unit :=
  was_servicable ← scsi_can_service_bus;
  body ;;
  can ← scsi_can_service_bus;
  rest ;;
  when (can && negb was_servicable) release_start.

Definition scsi_unblock_bus_int (by_SIM : bool) : op Q unit :=
  with_retry (scsi_unblock_bus_noresume by_SIM).
Definition scsi_unblock_bus : op Q unit := scsi_unblock_bus_int true.

(** "Add to bus queue if not locked explicitly anymore and requests are
    waiting." *)
Definition queue_if_ready (device : Z) : op Q unit :=
  d ← get_dev device; some ← has_requests device;
  when ((d_lock_count d =? 0) && some) (upd_queues (add_device_queue_last device)).

Definition scsi_unblock_device_int (device : Z) (by_SIM : bool) : op Q unit :=
  with_retry (scsi_unblock_device_noresume device by_SIM ;; queue_if_ready device).
Definition scsi_unblock_device (device : Z) : op Q unit := scsi_unblock_device_int device true.

Definition scsi_cont_send_bus : op Q unit := with_retry scsi_clear_bus_overflow.

Definition scsi_cont_send_device (device : Z) : op Q unit :=
  with_retry (
    d ← get_dev device;
    when (negb (d_sim_overflow d =? 0))
      (upd_dev device (fun d => set_d_lock_count (d_lock_count d - 1) (set_d_sim_overflow 0 d)) ;;
       queue_if_ready device) ;;
    scsi_clear_bus_overflow).

Definition scsi_block_bus_int (by_SIM : bool) : op Q unit := scsi_block_bus_nolock by_SIM.
Definition scsi_block_bus : op Q unit := scsi_block_bus_int true.

Definition scsi_block_device_int (device : Z) (by_SIM : bool) : op Q unit :=
  scsi_block_device_nolock device by_SIM ;;
  upd_queues (remove_device_queue device).
Definition scsi_block_device (device : Z) : op Q unit := scsi_block_device_int device true.

End Queue.
