(* ===== verification/ScsiIo.v ===== *)
(** Execution of requests (scsi_io.c). *)
From stdpp Require Import base gmap list.
From Stdlib Require Import ZArith Lia.
From S2P Require Import Prelude ScsiRing Scsi ScsiQueue.

(** What other parts of the bus manager do to a request: the DMA buffer
    (dma_buffer.cpp) and the emulation of commands (emulation.cpp). *)
Record helpers := Helpers {
  scsi_get_dma_buffer : scsi_ccb -> bool * scsi_ccb;
  scsi_release_dma_buffer : scsi_ccb -> scsi_ccb;
  scsi_start_emulation : scsi_ccb -> bool * scsi_ccb;
  scsi_finish_emulation : scsi_ccb -> scsi_ccb
}.

Section Io.
Context {Q : Type} `{Queueing Q}.
Variable env : helpers.

(** A helper that may fail. *)
Definition apply_helper (request : Z) (f : scsi_ccb -> bool * scsi_ccb) : op Q bool :=
  c ← get_ccb request; let '(ok, c) := f c in upd_ccb request (fun _ => c) ;; mret ok.

(** The request has left the SIM: its slots are free again. *)
Definition give_back_slots (request device : Z) : op Q unit :=
  b ← get_bus;
  upd_bus (fun b => set_b_left_slots (b_left_slots b + 1) b) ;;
  when (b_left_slots b =? 0) (scsi_unblock_bus_noresume false) ;;
  d ← get_dev device;
  upd_dev device (fun d => set_d_left_slots (d_left_slots d + 1) d) ;;
  c ← get_ccb request;
  when ((d_left_slots d =? 0) || c_ordered c) (scsi_unblock_device_noresume device false).

(** The request goes to the SIM: it takes a slot of the bus and of the
    device. *)
Definition take_slots (request device : Z) : op Q unit :=
  upd_bus (fun b => set_b_left_slots (b_left_slots b - 1) b) ;;
  b ← get_bus;
  when (b_left_slots b =? 0) (scsi_block_bus_nolock false) ;;
  upd_dev device (fun d => set_d_left_slots (d_left_slots d - 1) d) ;;
  d ← get_dev device; c ← get_ccb request;
  when ((d_left_slots d =? 0) || c_ordered c) (scsi_block_device_nolock device false) ;;
  when (0 <=? c_sort c) (upd_dev device (set_d_last_sort (c_sort c))).

Definition scsi_requeue_request (request : Z) (bus_overflow : bool) : op Q unit :=
  c ← get_ccb request; let device := c_device c in
  if negb (c_state c =? SCSI_STATE_SENT) then panic
  else
    upd_ccb request (set_c_state SCSI_STATE_QUEUED) ;;
    with_retry (
      give_back_slots request device ;;
      upd_queues (add_req_queue_first device request) ;;
      if bus_overflow then
        scsi_set_bus_overflow ;;
        upd_queues (add_device_queue_last device)
      else
        scsi_set_device_overflow device ;;
        upd_queues (remove_device_queue device) ;;
        scsi_clear_bus_overflow).

Definition scsi_resubmit_request (request : Z) : op Q unit :=
  c ← get_ccb request; let device := c_device c in
  if negb (c_state c =? SCSI_STATE_SENT) then panic
  else
    upd_ccb request (set_c_state SCSI_STATE_QUEUED) ;;
    with_retry (
      give_back_slots request device ;;
      scsi_clear_device_overflow device ;;
      scsi_clear_bus_overflow ;;
      upd_ccb request (set_c_ordered true) ;;
      upd_queues (add_req_queue_first device request) ;;
      d ← get_dev device;
      when (d_lock_count d =? 0)
        (upd_queues (add_device_queue_first device) ;;
         upd_queues (set_waiting_devices device))).

Definition submit_autosense (request : Z) : op Q unit :=
  c ← get_ccb request; let device := c_device c in
  upd_ccb request (set_c_buffered false) ;;
  upd_ccb request (set_c_ordered true) ;;
  upd_ccb request (set_c_sim_state 0) ;;
  upd_dev device (set_d_auto_sense_originator request) ;;
  d ← get_dev device;
  scsi_add_queued_request_first (d_auto_sense_request d).

(** [memcpy(dst, src, len)] from the start of an array to that of another. *)
Definition copy_bytes (dst src : list Z) (len : Z) : list Z :=
  take (Z.to_nat len) src ++ drop (Z.to_nat len) dst.

Definition finish_autosense (device : Z) : op Q unit :=
  d ← get_dev device;
  let orig_request := d_auto_sense_originator d in
  c ← get_ccb (d_auto_sense_request d);
  (if c_subsys_status c =? SCSI_REQ_CMP then
     let sense_len := Z.min SCSI_MAX_SENSE_SIZE (u32 (c_data_length c - c_data_resid c)) in
     upd_ccb orig_request (fun o =>
       set_c_subsys_status (Z.lor (c_subsys_status o) SCSI_AUTOSNS_VALID)
         (set_c_sense_resid (SCSI_MAX_SENSE_SIZE - sense_len)
            (set_c_sense (copy_bytes (c_sense o) (c_data c) sense_len) o)))
   else upd_ccb orig_request (set_c_subsys_status SCSI_AUTOSENSE_FAIL)) ;;
  release_completion orig_request.

Definition scsi_device_queue_overflow (request num_requests : Z) : op Q unit :=
  c ← get_ccb request; let device := c_device c in
  let num_requests := u32 (num_requests - 1) in
  let num_requests := if num_requests <? 1 then 1 else num_requests in
  d ← get_dev device;
  let diff_max_slots := i32 (d_total_slots d - num_requests) in
  upd_dev device (fun d => set_d_left_slots (d_left_slots d - diff_max_slots)
                             (set_d_total_slots (i32 num_requests) d)) ;;
  scsi_requeue_request request false.

Definition needs_autosense (c : scsi_ccb) (d : scsi_device_info) : bool :=
  d_manual_autosense d && negb (has (c_flags c) SCSI_DIS_AUTOSENSE)
  && (c_subsys_status c =? SCSI_REQ_CMP_ERR) && (c_device_status c =? SCSI_STATUS_CHECK_CONDITION).

Definition scsi_request_finished (request num_requests : Z) : op Q unit :=
  c ← get_ccb request; let device := c_device c in
  if negb (c_state c =? SCSI_STATE_SENT) then panic
  else if c_subsys_status c =? SCSI_REQ_INPROG then panic
  else if (c_subsys_status c =? SCSI_REQ_CMP_ERR) && (c_device_status c =? SCSI_STATUS_QUEUE_FULL)
  then scsi_device_queue_overflow request num_requests
  else
    upd_ccb request (set_c_state SCSI_STATE_FINISHED) ;;
    do_autosense ← with_retry (
      d ← get_dev device;
      let do_autosense := needs_autosense c d in
      when do_autosense (submit_autosense request) ;;
      give_back_slots request device ;;
      scsi_clear_device_overflow device ;;
      scsi_clear_bus_overflow ;;
      queue_if_ready device ;;
      mret do_autosense);
    c ← get_ccb request;
    when (c_emulated c) (upd_ccb request (scsi_finish_emulation env)) ;;
    c ← get_ccb request;
    when (c_buffered c) (upd_ccb request (scsi_release_dma_buffer env)) ;;
    d ← get_dev device;
    if request =? d_auto_sense_request d then finish_autosense device
    else when (negb do_autosense) (release_completion request).

Definition scsi_check_enqueue_request (request : Z) : op Q bool :=
  c ← get_ccb request; let device := c_device c in
  d ← get_dev device; b ← get_bus; some ← has_requests device;
  w ← queues (fun q => Some (waiting_devices q));
  if (0 <? d_lock_count d) || some || (0 <? b_lock_count b) || negb (w =? NULL) then
    scsi_add_queued_request request ;; mret false
  else take_slots request device ;; mret true.

Definition func_group_len : list Z := [6; 10; 10; 0; 16; 12; 0; 0].

(** [request->state = SCSI_STATE_SENT; bus->interface->scsi_io(...)] *)
Definition send_request (request : Z) : op Q unit :=
  upd_ccb request (set_c_state SCSI_STATE_SENT) ;; emit (Sent request).

(** The request ends without having been queued or sent. *)
Definition refuse_request (request status : Z) : op Q unit :=
  upd_ccb request (set_c_subsys_status status) ;; release_completion request.

(** "Make data DMA safe" and "emulate command if not supported". *)
Definition make_dma_safe (request : Z) : op Q bool :=
  c ← get_ccb request;
  if negb (has (c_flags c) SCSI_DMA_SAFE) && (0 <? c_data_length c) then
    upd_ccb request (set_c_buffered true) ;; apply_helper request (scsi_get_dma_buffer env)
  else mret true.

Definition emulated_command (c : scsi_ccb) (d : scsi_device_info) : bool :=
  has (byte_at (d_emulation_map d) (Z.shiftr (byte_at (c_cdb c) 0) 3))
      (Z.shiftl 1 (Z.land (byte_at (c_cdb c) 0) 7)).

Definition emulate_if_needed (request device : Z) : op Q bool :=
  c ← get_ccb request; d ← get_dev device;
  if emulated_command c d then
    upd_ccb request (set_c_emulated true) ;; apply_helper request (scsi_start_emulation env)
  else mret true.

(** [cmd->lun = request->device->target_lun]: the upper three bits of the
    second byte. *)
Definition set_cdb_lun (lun : Z) (cdb : list Z) : list Z :=
  byte_set 1 (Z.lor (Z.land (byte_at cdb 1) 0x1f) (Z.shiftl (Z.land lun 7) 5)) cdb.

Definition scsi_async_io (request : Z) : op Q unit :=
  c ← get_ccb request; let device := c_device c in
  when (negb (c_state c =? SCSI_STATE_FINISHED)) panic ;;
  if c_cdb_length c <? byte_at func_group_len (Z.shiftr (byte_at (c_cdb c) 0) 5)
  then refuse_request request SCSI_REQ_INVALID
  else
    d ← get_dev device;
    if negb (d_valid d) then refuse_request request SCSI_DEV_NOT_THERE
    else if negb (Z.land (c_flags c) SCSI_DIR_MASK =? SCSI_DIR_NONE)
              && (c_sg_list c =? NULL) && (0 <? c_data_length c)
    then refuse_request request SCSI_DATA_RUN_ERR
    else
      upd_ccb request (fun c => set_c_buffered false (set_c_emulated false c)) ;;
      safe ← make_dma_safe request;
      if negb safe then refuse_request request SCSI_DATA_RUN_ERR
      else
        emulated ← emulate_if_needed request device;
        if negb emulated then
          c ← get_ccb request;
          when (c_buffered c) (upd_ccb request (scsi_release_dma_buffer env)) ;;
          release_completion request
        else
          upd_ccb request (fun c => set_c_cdb (set_cdb_lun (d_target_lun d) (c_cdb c)) c) ;;
          upd_ccb request (fun c => set_c_ordered (has (c_flags c) SCSI_ORDERED_QTAG) c) ;;
          upd_ccb request (set_c_sim_state 0) ;;
          execute ← scsi_check_enqueue_request request;
          when execute (send_request request).

Definition scsi_abort (request : Z) : op Q Z :=
  c ← get_ccb request;
  if c_bus c =? NULL then mret SCSI_REQ_INVALID
  else if c_state c =? SCSI_STATE_QUEUED then
    with_retry_then (scsi_remove_queued_request request)
      (upd_ccb request (set_c_subsys_status SCSI_REQ_ABORTED) ;;
       c ← get_ccb request;
       when (c_emulated c) (upd_ccb request (scsi_finish_emulation env)) ;;
       c ← get_ccb request;
       when (c_buffered c) (upd_ccb request (scsi_release_dma_buffer env)) ;;
       release_completion request) ;;
    mret SCSI_REQ_CMP
  else mret SCSI_REQ_CMP.

Definition scsi_check_exec_service : op Q bool :=
  can ← scsi_can_service_bus;
  if (can : bool) then
    device ← queues (fun q => Some (waiting_devices q));
    next ← queues (waiting_next device);
    upd_queues (set_waiting_devices next) ;;
    request ← queues (queued_reqs device);
    scsi_remove_queued_request request ;;
    take_slots request device ;;
    send_request request ;;
    mret true
  else mret false.

End Io.
