(* ===== verification/ScsiSim.v ===== *)
(** Every operation of the bus manager on rings of pointers does what it does
    on lists: the simulation of the code by its specification. *)
From stdpp Require Import base gmap list.
From Stdlib Require Import ZArith Lia.
From S2P Require Import Prelude ScsiRing Scsi ScsiLists ScsiSpec ScsiRefine ScsiQueue ScsiIo.

Record same (s : sys lists) (t : sys rqueues) : Prop := {
  sm_core : sy_core s = sy_core t;
  sm_rep : rep (sy_queues s) (sy_queues t)
}.

(** Where the specification has a result, the code has the same. *)
Class Sims {A} (m : op lists A) (n : op rqueues A) : Prop :=
  sims s t a t' : same s t -> n t = Some (a, t') -> exists s', m s = Some (a, s') /\ same s' t'.

#[export] Instance sims_ret {A} (a : A) : Sims (mret a) (mret a).
Proof. intros s t b t' H [= <- <-]. by exists s. Qed.

#[export] Instance sims_bind {A B} (m : op lists A) n (f : A -> op lists B) g :
  Sims m n -> (forall a, Sims (f a) (g a)) -> Sims (m ≫= f) (n ≫= g).
Proof.
  intros Hm Hf s t b t' H. unfold mbind, op_bind. destruct (n t) as [[a t1]|] eqn:En; [|done]. intros Eg.
  destruct (Hm s t a t1 H En) as (s1 & -> & H1). exact (Hf a s1 t1 b t' H1 Eg).
Qed.

#[export] Instance sims_get {A} (f : core -> A) : Sims (get f) (get f).
Proof. intros s t b t' H [= <- <-]. exists s. split; [|done]. unfold get. by rewrite (sm_core _ _ H). Qed.

#[export] Instance sims_modify f : Sims (modify f) (modify f).
Proof.
  intros s t b t' H [= <- <-]. eexists. split; [done|]. destruct H as [Hc Hr].
  split; simpl; [by rewrite Hc|done].
Qed.

#[export] Instance sims_guarded {A} (o : option A) : Sims (guarded o) (guarded o).
Proof. intros s t b t' H. unfold guarded. destruct o; [|done]. intros [= <- <-]. by exists s. Qed.

#[export] Instance sims_if {A} (c : bool) (m1 m2 : op lists A) n1 n2 :
  Sims m1 n1 -> Sims m2 n2 -> Sims (if c then m1 else m2) (if c then n1 else n2).
Proof. by destruct c. Qed.

#[export] Instance sims_when c (m : op lists unit) n : Sims m n -> Sims (when c m) (when c n).
Proof. unfold when. intros. apply _. Qed.

Lemma sims_queues {A} (f : lists -> option A) (g : rqueues -> option A) :
  (forall l a x, rep l a -> g a = Some x -> f l = Some x) -> Sims (queues f) (queues g).
Proof.
  intros Hf s t b t' H. unfold queues. destruct (g (sy_queues t)) as [x|] eqn:E; [|done]. intros [= <- <-].
  rewrite (Hf _ _ _ (sm_rep _ _ H) E). by exists s.
Qed.

Lemma sims_upd f g : implements f g -> Sims (upd_queues f) (upd_queues g).
Proof.
  intros Hf s t b t' H. unfold upd_queues. destruct (g (sy_queues t)) as [x|] eqn:E; [|done]. intros [= <- <-].
  destruct (Hf _ _ _ (sm_rep _ _ H) E) as (l' & -> & Hr). eexists. split; [done|].
  split; [apply H|done].
Qed.

(** ** The operations of the interface *)

#[export] Instance sims_new_device d : Sims (upd_queues (new_device d)) (upd_queues (new_device d)).
Proof. apply sims_upd, impl_new_device. Qed.
#[export] Instance sims_new_request r : Sims (upd_queues (new_request r)) (upd_queues (new_request r)).
Proof. apply sims_upd, impl_new_request. Qed.
#[export] Instance sims_free_device d : Sims (upd_queues (free_device d)) (upd_queues (free_device d)).
Proof. apply sims_upd, impl_free_device. Qed.
#[export] Instance sims_queued_reqs d : Sims (queues (queued_reqs d)) (queues (queued_reqs d)).
Proof. apply sims_queues. intros l a x. apply impl_queued_reqs. Qed.
#[export] Instance sims_waiting_devices :
  Sims (queues (fun q => Some (waiting_devices q))) (queues (fun q => Some (waiting_devices q))).
Proof. apply sims_queues. intros l a x H. by rewrite (impl_waiting_devices l a H). Qed.
#[export] Instance sims_waiting_next d : Sims (queues (waiting_next d)) (queues (waiting_next d)).
Proof. apply sims_queues. intros l a x. apply impl_waiting_next. Qed.
#[export] Instance sims_add_first d r : Sims (upd_queues (add_req_queue_first d r)) (upd_queues (add_req_queue_first d r)).
Proof. apply sims_upd, impl_add_first. Qed.
#[export] Instance sims_add_last d r : Sims (upd_queues (add_req_queue_last d r)) (upd_queues (add_req_queue_last d r)).
Proof. apply sims_upd, impl_add_last. Qed.
#[export] Instance sims_remove d r : Sims (upd_queues (remove_req_queue d r)) (upd_queues (remove_req_queue d r)).
Proof. apply sims_upd, impl_remove. Qed.
#[export] Instance sims_insert m k d r :
  Sims (upd_queues (insert_new_request m k d r)) (upd_queues (insert_new_request m k d r)).
Proof. apply sims_upd, impl_insert. Qed.
#[export] Instance sims_set_waiting d : Sims (upd_queues (set_waiting_devices d)) (upd_queues (set_waiting_devices d)).
Proof. apply sims_upd, impl_set_waiting. Qed.
#[export] Instance sims_device_first d : Sims (upd_queues (add_device_queue_first d)) (upd_queues (add_device_queue_first d)).
Proof. apply sims_upd, impl_add_device_first. Qed.
#[export] Instance sims_device_last d : Sims (upd_queues (add_device_queue_last d)) (upd_queues (add_device_queue_last d)).
Proof. apply sims_upd, impl_add_device_last. Qed.
#[export] Instance sims_device_remove d : Sims (upd_queues (remove_device_queue d)) (upd_queues (remove_device_queue d)).
Proof. apply sims_upd, impl_remove_device. Qed.

(** ** The operations of the code *)

Ltac sim := intros; autounfold with scsi; cbv zeta; apply _.

#[export] Hint Unfold get_ccb get_dev get_dpc upd_ccb upd_dev upd_dpc get_bus upd_bus emit panic
  release_start release_completion scsi_set_device_overflow scsi_set_bus_overflow
  scsi_clear_device_overflow scsi_clear_bus_overflow scsi_can_service_bus scsi_unblock_bus_noresume
  scsi_unblock_device_noresume scsi_block_bus_nolock scsi_block_device_nolock has_requests
  queue_if_ready : scsi.

#[export] Instance sims_get_ccb r : Sims (get_ccb r) (get_ccb r). Proof. sim. Qed.
#[export] Instance sims_get_dev d : Sims (get_dev d) (get_dev d). Proof. sim. Qed.
#[export] Instance sims_upd_ccb r f : Sims (upd_ccb r f) (upd_ccb r f). Proof. sim. Qed.
#[export] Instance sims_upd_dev d f : Sims (upd_dev d f) (upd_dev d f). Proof. sim. Qed.
#[export] Instance sims_can_service : Sims scsi_can_service_bus scsi_can_service_bus. Proof. sim. Qed.
#[export] Instance sims_with_retry {A} (m : op lists A) n : Sims m n -> Sims (with_retry m) (with_retry n).
Proof. intros. unfold with_retry. sim. Qed.

#[export] Instance sims_with_retry_then (m m' : op lists unit) n n' : Sims m n -> Sims m' n' -> Sims (with_retry_then m m') (with_retry_then n n').
Proof. intros. unfold with_retry_then. sim. Qed.

#[export] Hint Unfold scsi_add_queued_request scsi_add_queued_request_first scsi_remove_queued_request
  scsi_unblock_bus scsi_unblock_bus_int scsi_unblock_device scsi_unblock_device_int scsi_cont_send_bus
  scsi_cont_send_device scsi_block_bus scsi_block_bus_int scsi_block_device scsi_block_device_int
  apply_helper give_back_slots take_slots finish_autosense send_request refuse_request : scsi.

Section Sims.
Variable env : helpers.

#[export] Instance sims_add_queued r : Sims (scsi_add_queued_request r) (scsi_add_queued_request r). Proof. sim. Qed.
#[export] Instance sims_add_queued_first r : Sims (scsi_add_queued_request_first r) (scsi_add_queued_request_first r). Proof. sim. Qed.
#[export] Instance sims_remove_queued r : Sims (scsi_remove_queued_request r) (scsi_remove_queued_request r). Proof. sim. Qed.
#[export] Instance sims_unblock_bus : Sims scsi_unblock_bus scsi_unblock_bus. Proof. sim. Qed.
#[export] Instance sims_unblock_device d : Sims (scsi_unblock_device d) (scsi_unblock_device d). Proof. sim. Qed.
#[export] Instance sims_cont_send_bus : Sims scsi_cont_send_bus scsi_cont_send_bus. Proof. sim. Qed.
#[export] Instance sims_cont_send_device d : Sims (scsi_cont_send_device d) (scsi_cont_send_device d). Proof. sim. Qed.
#[export] Instance sims_block_bus : Sims scsi_block_bus scsi_block_bus. Proof. sim. Qed.
#[export] Instance sims_block_device d : Sims (scsi_block_device d) (scsi_block_device d). Proof. sim. Qed.
#[export] Instance sims_give_back r d : Sims (give_back_slots r d) (give_back_slots r d). Proof. sim. Qed.
#[export] Instance sims_take r d : Sims (take_slots r d) (take_slots r d). Proof. sim. Qed.
#[export] Instance sims_requeue r b : Sims (scsi_requeue_request r b) (scsi_requeue_request r b).
Proof. unfold scsi_requeue_request. sim. Qed.
#[export] Instance sims_resubmit r : Sims (scsi_resubmit_request r) (scsi_resubmit_request r).
Proof. unfold scsi_resubmit_request. sim. Qed.
#[export] Instance sims_autosense r : Sims (submit_autosense r) (submit_autosense r).
Proof. unfold submit_autosense. sim. Qed.
#[export] Instance sims_finish_autosense d : Sims (finish_autosense d) (finish_autosense d). Proof. sim. Qed.
#[export] Instance sims_overflow r n : Sims (scsi_device_queue_overflow r n) (scsi_device_queue_overflow r n).
Proof. unfold scsi_device_queue_overflow. sim. Qed.
#[export] Instance sims_finished r n : Sims (scsi_request_finished env r n) (scsi_request_finished env r n).
Proof. unfold scsi_request_finished. sim. Qed.
#[export] Instance sims_check_enqueue r : Sims (scsi_check_enqueue_request r) (scsi_check_enqueue_request r).
Proof. unfold scsi_check_enqueue_request. sim. Qed.
#[export] Instance sims_apply r f : Sims (apply_helper r f) (apply_helper r f).
Proof.
  unfold apply_helper. apply sims_bind; [apply _|]. intros c. destruct (f c) as [ok c']. apply _.
Qed.
#[export] Instance sims_dma_safe r : Sims (make_dma_safe env r) (make_dma_safe env r).
Proof. unfold make_dma_safe. sim. Qed.
#[export] Instance sims_emulate r d : Sims (emulate_if_needed env r d) (emulate_if_needed env r d).
Proof. unfold emulate_if_needed. sim. Qed.
#[export] Instance sims_async_io r : Sims (scsi_async_io env r) (scsi_async_io env r).
Proof. unfold scsi_async_io. sim. Qed.
#[export] Instance sims_abort r : Sims (scsi_abort env r) (scsi_abort env r).
Proof. unfold scsi_abort. sim. Qed.
#[export] Instance sims_exec_service : Sims scsi_check_exec_service scsi_check_exec_service.
Proof. unfold scsi_check_exec_service. sim. Qed.
End Sims.
