(* ===== verification/ScsiBus.v ===== *)
(** Deferred procedure calls, the service thread and the setup of a bus (dpc.c,
    busses.c). *)
From stdpp Require Import base gmap list.
From Stdlib Require Import ZArith Lia.
From S2P Require Import Prelude Errors ScsiRing Scsi ScsiQueue ScsiIo.

(** ** Setup (busses.c) *)


(** [dma_params] of scsi_internal.h *)
Record dma_params := DmaParams {
  alignment : Z; max_blocks : Z; dma_boundary : Z; max_sg_block_size : Z; max_sg_blocks : Z
}.

(** The restrictions of a node, each with the default of the code. *)
Definition extract_dma_params (align blocks boundary seg_blocks seg_count : option Z) : dma_params :=
  let alignment := default 0 align in
  let max_blocks := default 0xffffffff blocks in
  let dma_boundary := default 0xffffffff boundary in
  let max_sg_block_size := default 0xffffffff seg_blocks in
  let max_sg_blocks := default 0xffffffff seg_count in
  DmaParams alignment max_blocks dma_boundary
    (Z.land max_sg_block_size (0xffffffff - alignment)) max_sg_blocks.

(** The "sanity check" of [scsi_init_bus]. *)
Definition check_dma_params (p : dma_params) : Z :=
  if B_PAGE_SIZE <? alignment p then B_ERROR
  else if max_sg_block_size p <? 1 then B_ERROR
  else if dma_boundary p <? B_PAGE_SIZE - 1 then B_ERROR
  else if (max_blocks p <? 1) || (max_sg_blocks p <? 1) then B_ERROR
  else B_OK.

(** [scsi_create_bus]: everything zero but the identification. *)
Definition new_bus : scsi_bus_info := Bus 0 (0, 0) 0 false 0 false NULL.
Definition no_structures : core := Core new_bus ∅ ∅ ∅ [].

(** [scsi_init_bus]: the slots are the queue size of the adapter. *)
Definition init_bus (hba_queue_size : Z) : core :=
  set_bus (set_b_left_slots (i32 hba_queue_size) (bus no_structures)) no_structures.

Definition scsi_init_bus (path_id : option Z) (sems_ok : bool) (p : dma_params) (hba_queue_size : Z)
  : Z * option core :=
  if bool_decide (path_id = None) then (B_ERROR, None)
  else if negb sems_ok then (B_NO_MEMORY, None)
  else if check_dma_params p <? B_OK then (check_dma_params p, None)
  else (B_OK, Some (init_bus hba_queue_size)).

Section Bus.
Context {Q : Type} `{Queueing Q}.

(** ** Deferred procedure calls (dpc.c) *)

(** [dpc] is what [malloc] gave. *)
Definition scsi_alloc_dpc (dpc : Z) : op Q Z :=
  if dpc =? NULL then mret B_NO_MEMORY
  else modify (fun k => set_dpcs (<[dpc := Dpc NULL false NULL NULL]> (dpcs k)) k) ;; mret B_OK.

Definition scsi_free_dpc (dpc : Z) : op Q Z :=
  modify (fun k => set_dpcs (delete dpc (dpcs k)) k) ;; mret B_OK.

Definition scsi_schedule_dpc (dpc func arg : Z) : op Q Z :=
  upd_dpc dpc (set_p_func func) ;;
  upd_dpc dpc (set_p_arg arg) ;;
  d ← get_dpc dpc;
  when (negb (p_registered d))
    (upd_dpc dpc (set_p_registered true) ;;
     b ← get_bus;
     upd_dpc dpc (set_p_next (b_dpc_list b)) ;;
     upd_bus (set_b_dpc_list dpc)) ;;
  release_start ;;
  mret B_OK.

Definition scsi_check_exec_dpc : op Q bool :=
  b ← get_bus;
  if negb (b_dpc_list b =? NULL) then
    let dpc := b_dpc_list b in
    d ← get_dpc dpc;
    upd_bus (set_b_dpc_list (p_next d)) ;;
    upd_dpc dpc (set_p_registered false) ;;
    emit (Called (p_func d) (p_arg d)) ;;
    mret true
  else mret false.

(** ** The service thread (busses.c) *)

(** The loop of the service thread; [fuel] bounds its rounds. *)
Fixpoint scsi_do_service (fuel : nat) : op Q unit :=
  match fuel with
  | O => guarded None
  | S fuel =>
      dpc ← scsi_check_exec_dpc;
      if (dpc : bool) then scsi_do_service fuel
      else
        served ← scsi_check_exec_service;
        if (served : bool) then scsi_do_service fuel else mret tt
  end.

(** [scsi_destroy_bus], until the thread is waited for. *)
Definition scsi_destroy_bus : op Q unit :=
  upd_bus (set_b_shutting_down true) ;; release_start.

(** Where the service thread is: it waits for the semaphore, with the
    notifications it has already served; it looks for deferred calls; it looks
    for requests; it has ended. *)
Inductive service :=
| Waiting (processed : Z)
| CheckDpc (processed : Z)
| CheckRequest (processed : Z)
| Ended.

(** [acquire_sem_etc(bus->start_service, processed_notifications + 1)], and
    [get_sem_count]; then the two checks of [scsi_do_service]. *)
Definition service_step (t : service) : op Q service :=
  match t with
  | Waiting processed =>
      b ← get_bus;
      if b_start_service b <? processed + 1 then mret t
      else
        upd_bus (fun b => set_b_start_service (b_start_service b - (processed + 1)) b) ;;
        b ← get_bus;
        mret (if b_shutting_down b then Ended else CheckDpc (b_start_service b))
  | CheckDpc processed =>
      dpc ← scsi_check_exec_dpc; mret (if (dpc : bool) then CheckDpc processed else CheckRequest processed)
  | CheckRequest processed =>
      served ← scsi_check_exec_service; mret (if (served : bool) then CheckDpc processed else Waiting processed)
  | Ended => mret Ended
  end.

End Bus.
