(* ===== verification/ScsiDevice.v ===== *)
(** Requests and devices: the pool of requests, the life of a device, and the
    scan for devices (ccb.c, devices.c, device_scan.c). *)
From stdpp Require Import base gmap list.
From Stdlib Require Import ZArith Lia.
From S2P Require Import Prelude Errors ScsiRing Scsi ScsiQueue ScsiIo.

(** The address of the bus. *)
Definition the_bus : Z := 1.

Definition SCSI_PI_TAG_ABLE : Z := 0x02.
Definition SCSI_OP_REQUEST_SENSE : Z := 0x03.
Definition SCSI_OP_READ_6 : Z := 0x08.
Definition SCSI_OP_WRITE_6 : Z := 0x0a.
Definition SCSI_OP_INQUIRY : Z := 0x12.
Definition SCSI_OP_MODE_SELECT_6 : Z := 0x15.
Definition SCSI_OP_MODE_SENSE_6 : Z := 0x1a.

(** [device] filled with zeroes, [SET_BIT]. *)
Definition zero_device : scsi_device_info :=
  Device false false 0 (0, 0) 0 0 0 0 false 0 NULL NULL (repeat 0 32).
Definition SET_BIT (field : list Z) (bit : Z) : list Z :=
  byte_set (Z.shiftr bit 3) (Z.lor (byte_at field (Z.shiftr bit 3)) (Z.shiftl 1 (Z.land bit 7))) field.

Section Device.
Context {Q : Type} `{Queueing Q}.

(** ** The pool of requests (ccb.c)

    The pool gives the address of a block and the bytes that are in it. *)

Definition ccb_low_alloc_hook (block : Z) (bytes : scsi_ccb) (sem : Z) : op Q Z :=
  if sem <? 0 then mret sem
  else
    upd_queues (new_request block) ;;
    modify (fun k => set_ccbs (<[block := set_c_bus the_bus (set_c_state SCSI_STATE_FREE bytes)]> (ccbs k)) k) ;;
    mret B_OK.

Definition scsi_alloc_ccb (device block : Z) : op Q Z :=
  upd_ccb block (set_c_state SCSI_STATE_FINISHED) ;;
  upd_ccb block (set_c_device device) ;;
  d ← get_dev device;
  upd_ccb block (set_c_target_lun (d_target_lun d)) ;;
  upd_ccb block (set_c_sg_list NULL) ;;
  upd_ccb block (set_c_sort (-1)) ;;
  mret block.

Definition scsi_free_ccb (ccb : Z) : op Q unit :=
  c ← get_ccb ccb;
  when (negb (c_state c =? SCSI_STATE_FINISHED)) panic ;;
  upd_ccb ccb (set_c_state SCSI_STATE_FREE).

(** ** Devices (devices.c) *)

(** [device] is what [malloc] gave, [owner_sem] what [create_sem] did. *)
Definition scsi_create_device (device target_lun owner_sem : Z) : op Q Z :=
  if (device =? NULL) || (owner_sem <? 0) then mret NULL
  else
    upd_queues (new_device device) ;;
    modify (fun k => set_devs (<[device := set_d_valid true (set_d_target_lun target_lun zero_device)]> (devs k)) k) ;;
    mret device.

Definition scsi_free_autosense_request (device : Z) : op Q unit :=
  d ← get_dev device;
  when (negb (d_auto_sense_request d =? NULL))
    (scsi_free_ccb (d_auto_sense_request d) ;; upd_dev device (set_d_auto_sense_request NULL)).

Definition scsi_free_device (device : Z) : op Q unit :=
  scsi_free_autosense_request device ;;
  upd_queues (free_device device) ;;
  modify (fun k => set_devs (delete device (devs k)) k).

(** [block] is the request of the pool, [area] what [create_area] gave, [sg]
    the address behind the buffer. *)
Definition scsi_create_autosense_request (device block area sg : Z) (buffer : list Z) : op Q Z :=
  request ← scsi_alloc_ccb device block;
  upd_dev device (set_d_auto_sense_request request) ;;
  if area <? 0 then scsi_free_ccb request ;; mret B_NO_MEMORY
  else
    d ← get_dev device;
    upd_ccb request (fun c =>
      set_c_data buffer (set_c_data_length SCSI_MAX_SENSE_SIZE (set_c_sg_list sg
        (set_c_flags (Z.lor SCSI_DIR_IN (Z.lor SCSI_DIS_AUTOSENSE (Z.lor SCSI_ORDERED_QTAG SCSI_DMA_SAFE)))
          (set_c_cdb_length 6
            (set_c_cdb ([SCSI_OP_REQUEST_SENSE; Z.shiftl (Z.land (d_target_lun d) 7) 5; 0; 0; SCSI_MAX_SENSE_SIZE; 0]
                          ++ drop 6 (c_cdb c)) c)))))) ;;
    mret B_OK.

(** What a device node says, and what the system gives while a device is
    initialised. *)
Record device_setup := DeviceSetup {
  s_is_atapi : bool; s_manual_autosense : bool; s_target_lun : Z; s_hba_inquiry : Z;
  s_device : Z; s_owner_sem : Z; s_block : Z; s_area : Z; s_sg : Z; s_buffer : list Z; s_emulation : Z
}.

Definition emulated_commands : list Z :=
  [SCSI_OP_READ_6; SCSI_OP_WRITE_6; SCSI_OP_MODE_SENSE_6; SCSI_OP_MODE_SELECT_6; SCSI_OP_INQUIRY].

Definition scsi_init_device (s : device_setup) : op Q Z :=
  device ← scsi_create_device (s_device s) (s_target_lun s) (s_owner_sem s);
  if device =? NULL then mret B_NO_MEMORY
  else
    upd_dev device (set_d_is_atapi (s_is_atapi s)) ;;
    upd_dev device (set_d_manual_autosense (s_manual_autosense s)) ;;
    upd_dev device (set_d_total_slots 4096) ;;
    when (negb (has (s_hba_inquiry s) SCSI_PI_TAG_ABLE)) (upd_dev device (set_d_total_slots 1)) ;;
    when (s_manual_autosense s) (upd_dev device (set_d_total_slots 1)) ;;
    upd_dev device (fun d => set_d_left_slots (d_total_slots d) d) ;;
    autosense ← (if s_manual_autosense s
                 then scsi_create_autosense_request device (s_block s) (s_area s) (s_sg s) (s_buffer s)
                 else mret B_OK);
    if negb (autosense =? B_OK) then scsi_free_device device ;; mret B_NO_MEMORY
    else if negb (s_emulation s =? B_OK) then scsi_free_device device ;; mret B_NO_MEMORY
    else
      when (s_is_atapi s)
        (upd_dev device (fun d => set_d_emulation_map (foldl SET_BIT (repeat 0 32) emulated_commands) d)) ;;
      mret B_OK.

Definition scsi_uninit_device (device : Z) : op Q unit := scsi_free_device device.

Definition scsi_device_removed (device : Z) : op Q unit :=
  when (negb (device =? NULL)) (upd_dev device (set_d_valid false)).

(** [known] is what the driver of the registered device says: its status and
    the device. *)
Definition scsi_force_get_device (known : option (Z * Z)) (device target_lun owner_sem : Z) : op Q (Z * Z) :=
  match known with
  | Some answer => mret answer
  | None =>
      device ← scsi_create_device device target_lun owner_sem;
      mret (if device =? NULL then B_NO_MEMORY else B_OK, device)
  end.

(** A device without a node is a temporary one. *)
Definition scsi_put_forced_device (device : Z) (has_node : bool) : op Q unit :=
  when (negb has_node) (scsi_free_device device).

End Device.

(** [beautify_string]: [dst_size - 1] bytes of [src], without trailing spaces,
    and a zero. *)
Fixpoint last_no_space (fuel : nat) (dst : list Z) (i : Z) : Z :=
  match fuel with
  | O => i
  | S fuel => if 0 <=? i then if negb (byte_at dst i =? 0x20) then i else last_no_space fuel dst (i - 1) else i
  end.
Definition beautify_string (dst src : list Z) (dst_size : Z) : list Z :=
  let dst := copy_bytes dst src (dst_size - 1) in
  let i := last_no_space (Z.to_nat dst_size) dst (dst_size - 2) in
  byte_set (i + 1) 0 dst.

(** ** The scan for devices (device_scan.c) *)

Definition MAX_LUN_ID : Z := 7.
Definition SCSI_SEL_TIMEOUT : Z := 0x0A.
Definition scsi_periph_qual_connected : Z := 0.

(** What the worker request of a scan comes to. *)
Record scan_result := ScanResult {
  sc_force_get : Z; sc_ccb : bool; sc_tur_status : Z; sc_inquiry_status : Z; sc_qualifier : Z
}.

Definition scsi_scan_send_tur (r : scan_result) : bool := negb (sc_tur_status r =? SCSI_SEL_TIMEOUT).
Definition scsi_scan_get_inquiry (r : scan_result) : bool := sc_inquiry_status r =? SCSI_REQ_CMP.

(** The status, and whether the device is registered. *)
Definition scsi_scan_lun (target_lun : Z) (r : scan_result) : Z * bool :=
  if negb (sc_force_get r =? B_OK) then (sc_force_get r, false)
  else if negb (sc_ccb r) then (B_NO_MEMORY, false)
  else if (target_lun =? 0) && negb (scsi_scan_send_tur r) then (B_NAME_NOT_FOUND, false)
  else
    let found := scsi_scan_get_inquiry r && (sc_qualifier r =? scsi_periph_qual_connected) in
    if negb found then (B_NAME_NOT_FOUND, false) else (B_OK, true).

Section Scan.
(** What is at each target and unit. *)
Variable world : Z -> Z -> scan_result.

(** The addresses that are scanned, in order. *)
Fixpoint scan_luns (fuel : nat) (target_id lun : Z) : list (Z * Z) :=
  match fuel with
  | O => []
  | S fuel =>
      if lun <=? MAX_LUN_ID then
        let res := fst (scsi_scan_lun lun (world target_id lun)) in
        (target_id, lun) ::
          (if (lun =? 0) && negb (res =? SCSI_REQ_CMP) then [] else scan_luns fuel target_id (lun + 1))
      else []
  end.

Definition scsi_scan_bus (inquiry : Z) (initiator_id max_target_count : Z) : Z * list (Z * Z) :=
  if negb (inquiry =? SCSI_REQ_CMP) then (B_ERROR, [])
  else
    (B_OK, concat (map (fun target_id =>
             if target_id =? initiator_id then [] else scan_luns (Z.to_nat (MAX_LUN_ID + 2)) target_id 0)
             (seqZ 0 max_target_count))).
End Scan.
