(* ===== verification/ScsiInv.v ===== *)
(** The invariant of the queues: what all operations of the bus manager keep.
    The proofs are on the specification; ScsiSafe.v carries them over to the
    rings of pointers. *)
From stdpp Require Import base gmap list.
From Stdlib Require Import ZArith Lia.
From S2P Require Import Prelude Errors ScsiRing Scsi ScsiSpec ScsiQueue ScsiIo.

Implicit Types s : sys rqueues.

(** ** Operations that have a result *)

Definition wp {A} (m : op rqueues A) (post : A -> sys rqueues -> Prop) s : Prop :=
  exists a s', m s = Some (a, s') /\ post a s'.

Section Wp.
Context {A B : Type}.
Implicit Types m : op rqueues A.

Lemma wp_ret (a : A) post s : post a s -> wp (mret a) post s.
Proof. intros H. by exists a, s. Qed.

Lemma wp_bind m (f : A -> op rqueues B) post s :
  wp m (fun a => wp (f a) post) s -> wp (m ≫= f) post s.
Proof.
  intros (a & s1 & E & (b & s2 & E2 & H)). exists b, s2. unfold mbind, op_bind. by rewrite E.
Qed.

Lemma wp_assoc (u : op rqueues unit) m (f : A -> op rqueues B) post s :
  wp (u ;; m) (fun a => wp (f a) post) s -> wp (u ;; (m ≫= f)) post s.
Proof.
  intros (a & s1 & E & (b & s2 & E2 & H)). exists b, s2. split; [|done].
  unfold mbind, op_bind in *. destruct (u s) as [[[] s3]|]; [|done]. by rewrite E.
Qed.

Lemma wp_mono m (post post' : A -> sys rqueues -> Prop) s :
  wp m post s -> (forall a s', post a s' -> post' a s') -> wp m post' s.
Proof. intros (a & s' & E & H) Hp. exists a, s'. auto. Qed.

Lemma wp_get (f : core -> A) post s : post (f (sy_core s)) s -> wp (get f) post s.
Proof. intros H. by exists (f (sy_core s)), s. Qed.

Lemma wp_guarded (o : option A) a post s : o = Some a -> post a s -> wp (guarded o) post s.
Proof. intros -> H. by exists a, s. Qed.

Lemma wp_queues (f : rqueues -> option A) a post s :
  f (sy_queues s) = Some a -> post a s -> wp (queues f) post s.
Proof. intros E H. exists a, s. unfold queues. by rewrite E. Qed.
End Wp.

Lemma wp_modify f post s : post tt (Sys (f (sy_core s)) (sy_queues s)) -> wp (modify f) post s.
Proof. intros H. by exists tt, (Sys (f (sy_core s)) (sy_queues s)). Qed.

Lemma wp_upd_queues f q post s :
  f (sy_queues s) = Some q -> post tt (Sys (sy_core s) q) -> wp (upd_queues f) post s.
Proof. intros E H. exists tt, (Sys (sy_core s) q). unfold upd_queues. by rewrite E. Qed.

Lemma wp_when (b : bool) m post s : (if b then wp m post s else post tt s) -> wp (when b m) post s.
Proof. destruct b; [done|]. intros H. by apply wp_ret. Qed.

(** ** The state *)

Definition s_ccbs s := ccbs (sy_core s).
Definition s_devs s := devs (sy_core s).
Definition s_bus s := bus (sy_core s).
Definition s_rq s := rq (sy_queues s).
Definition s_rw s := rw (sy_queues s).

Definition with_ccbs f s : sys rqueues := Sys (set_ccbs (f (s_ccbs s)) (sy_core s)) (sy_queues s).
Definition with_devs f s : sys rqueues := Sys (set_devs (f (s_devs s)) (sy_core s)) (sy_queues s).
Definition with_bus f s : sys rqueues := Sys (set_bus (f (s_bus s)) (sy_core s)) (sy_queues s).
Definition with_event e s : sys rqueues := Sys (set_events (events (sy_core s) ++ [e]) (sy_core s)) (sy_queues s).
Definition with_queues q s : sys rqueues := Sys (sy_core s) q.

Lemma wp_get_ccb r c post s : s_ccbs s !! r = Some c -> post c s -> wp (get_ccb r) post s.
Proof. intros E H. unfold get_ccb. apply wp_bind, wp_get. by apply (wp_guarded _ c). Qed.
Lemma wp_get_dev d v post s : s_devs s !! d = Some v -> post v s -> wp (get_dev d) post s.
Proof. intros E H. unfold get_dev. apply wp_bind, wp_get. by apply (wp_guarded _ v). Qed.
Lemma wp_get_bus post s : post (s_bus s) s -> wp get_bus post s.
Proof. intros H. by apply wp_get. Qed.
Lemma wp_upd_ccb r c f post s :
  s_ccbs s !! r = Some c -> post tt (with_ccbs (<[r := f c]>) s) -> wp (upd_ccb r f) post s.
Proof. intros E H. unfold upd_ccb. apply wp_bind. apply (wp_get_ccb r c); [done|]. by apply wp_modify. Qed.
Lemma wp_upd_dev d v f post s :
  s_devs s !! d = Some v -> post tt (with_devs (<[d := f v]>) s) -> wp (upd_dev d f) post s.
Proof. intros E H. unfold upd_dev. apply wp_bind. apply (wp_get_dev d v); [done|]. by apply wp_modify. Qed.
Lemma wp_upd_bus f post s : post tt (with_bus f s) -> wp (upd_bus f) post s.
Proof. intros H. by apply wp_modify. Qed.
Lemma wp_emit e post s : post tt (with_event e s) -> wp (emit e) post s.
Proof. intros H. by apply wp_modify. Qed.

(** ** The invariant *)

(** The lock count is the sum of what blocks. *)
Record dev_ok (v : scsi_device_info) : Prop := {
  do_sum : d_lock_count v = d_sim_overflow v + count_of false (d_blocked v) + count_of true (d_blocked v);
  do_over : d_sim_overflow v = 0 \/ d_sim_overflow v = 1;
  do_mgr : 0 <= count_of false (d_blocked v);
  do_sim : 0 <= count_of true (d_blocked v)
}.

(** The bus manager blocks the bus exactly when no slot is left. *)
Record bus_ok (b : scsi_bus_info) : Prop := {
  bo_sum : b_lock_count b = Z.b2z (b_sim_overflow b) + count_of false (b_blocked b) + count_of true (b_blocked b);
  bo_left : 0 <= b_left_slots b;
  bo_mgr : count_of false (b_blocked b) = Z.b2z (b_left_slots b =? 0);
  bo_sim : 0 <= count_of true (b_blocked b)
}.

(** The requests the SIM has. *)
Definition is_sent (c : scsi_ccb) : Z := Z.b2z (c_state c =? SCSI_STATE_SENT).
Definition sent (m : gmap Z scsi_ccb) : Z := map_fold (fun _ c n => is_sent c + n) 0 m.

(** The auto-sense request of a device is a request of that device, and knows
    whom it works for while it is on its way. *)
Definition autosense_ok (m : gmap Z scsi_ccb) (d : Z) (v : scsi_device_info) : Prop :=
  if d_manual_autosense v then
    exists c, m !! d_auto_sense_request v = Some c /\ c_device c = d /\ c_state c <> SCSI_STATE_FREE /\
      has (c_flags c) SCSI_DIS_AUTOSENSE = true /\
      (c_state c <> SCSI_STATE_FINISHED -> is_Some (m !! d_auto_sense_originator v))
  else d_auto_sense_request v = NULL.

(** [N] slots on the bus, [k] of them neither free nor with a sent request;
    the devices [X] may be ready and not wait. *)
Record inv (N : Z) (X : gset Z) (k : Z) s : Prop := {
  i_null : NULL ∉ cells (sy_queues s) /\ s_rq s !! NULL = None;
  i_dom : forall d, is_Some (s_devs s !! d) <-> is_Some (s_rq s !! d);
  i_cells : forall r, is_Some (s_ccbs s !! r) <-> r ∈ cells (sy_queues s);
  i_queued : forall d q r, s_rq s !! d = Some q -> r ∈ q ->
    exists c, s_ccbs s !! r = Some c /\ c_device c = d /\ c_state c = SCSI_STATE_QUEUED;
  i_live : forall r c, s_ccbs s !! r = Some c -> c_state c <> SCSI_STATE_FREE -> is_Some (s_devs s !! c_device c);
  i_nodup : forall d q, s_rq s !! d = Some q -> NoDup q;
  i_wnodup : NoDup (s_rw s);
  i_wait : forall d, d ∈ s_rw s -> exists q, s_rq s !! d = Some q /\ q <> [];
  i_ready : forall d v q, d ∉ X -> s_devs s !! d = Some v -> s_rq s !! d = Some q ->
    q <> [] -> d_lock_count v = 0 -> d ∈ s_rw s;
  i_devs : forall d v, s_devs s !! d = Some v -> dev_ok v;
  i_auto : forall d v, s_devs s !! d = Some v -> autosense_ok (s_ccbs s) d v;
  i_bus : bus_ok (s_bus s);
  i_slots : b_left_slots (s_bus s) + sent (s_ccbs s) = N + k
}.

Lemma sent_insert m r c c' :
  m !! r = Some c -> sent (<[r := c']> m) = sent m - is_sent c + is_sent c'.
Proof.
  intros Hr. unfold sent.
  assert (Hc : forall (j1 j2 : Z) z1 z2 y, j1 <> j2 ->
    is_sent z1 + (is_sent z2 + y) = is_sent z2 + (is_sent z1 + y)) by (intros; lia).
  rewrite (map_fold_delete_L _ _ r c m) by (eauto || (intros; apply (Hc j1 j2); done)).
  rewrite (map_fold_delete_L _ _ r c' (<[r := c']> m)) by (rewrite ?lookup_insert_eq; eauto; intros; apply (Hc j1 j2); done).
  rewrite delete_insert_eq. lia.
Qed.

Lemma sent_same m r c c' : m !! r = Some c -> c_state c' = c_state c -> sent (<[r := c']> m) = sent m.
Proof. intros Hr E. rewrite (sent_insert m r c c' Hr). unfold is_sent. rewrite E. lia. Qed.

(** ** Changes of one part of the state *)

Section Parts.
Context {N : Z} {X : gset Z} {k : Z} {s : sys rqueues}.
Implicit Types Hi : inv N X k s.

Lemma inv_mono X' : inv N X k s -> X ⊆ X' -> inv N X' k s.
Proof. intros [] HX. split; auto. intros d v q Hd. eauto. Qed.

Lemma inv_event e : inv N X k s -> inv N X k (with_event e s).
Proof. intros []. by split. Qed.

Lemma inv_bus k' f :
  inv N X k s -> bus_ok (f (s_bus s)) -> b_left_slots (f (s_bus s)) = b_left_slots (s_bus s) + (k' - k) ->
  inv N X k' (with_bus f s).
Proof. intros [] Hb Hl. split; auto. unfold with_bus, s_bus, s_ccbs in *. simpl in *. lia. Qed.

(** A device whose lock changes; it need not wait if it is in [X'] or
    locked. *)
Lemma inv_dev X' d v v' :
  inv N X k s -> s_devs s !! d = Some v -> dev_ok v' -> autosense_ok (s_ccbs s) d v' -> X ∖ {[d]} ⊆ X' ->
  (d ∉ X' -> d_lock_count v' = 0 -> d ∉ X /\ d_lock_count v = 0) ->
  inv N X' k (with_devs (<[d := v']>) s).
Proof.
  intros [] Hd Ho Ha HX Hr. split; auto; unfold s_devs in *; simpl.
  - intros d1. rewrite <-i_dom0. destruct (decide (d = d1)) as [<-|]; [|by rewrite lookup_insert_ne].
    rewrite lookup_insert_eq. split; [by rewrite Hd|done].
  - intros r c Hc Hf. destruct (decide (d = c_device c)) as [<-|]; [by rewrite lookup_insert_eq|].
    rewrite lookup_insert_ne by done. eauto.
  - intros d1 v1 q Hn. destruct (decide (d = d1)) as [<-|].
    + rewrite lookup_insert_eq. intros [= <-] Hq Hne Hz. destruct (Hr Hn Hz). eauto.
    + rewrite lookup_insert_ne by done. intros H1 Hq Hne Hz. apply (i_ready0 d1 v1 q); [set_solver|done..].
  - intros d1 v1. destruct (decide (d = d1)) as [<-|]; [rewrite lookup_insert_eq; by intros [= <-]|].
    rewrite lookup_insert_ne by done. eauto.
  - intros d1 v1. destruct (decide (d = d1)) as [<-|]; [rewrite lookup_insert_eq; by intros [= <-]|].
    rewrite lookup_insert_ne by done. eauto.
Qed.

(** A request that keeps its device. *)
Lemma inv_ccb r c c' :
  inv N X k s -> s_ccbs s !! r = Some c -> c_device c' = c_device c ->
  (c_state c' <> SCSI_STATE_FREE -> c_state c <> SCSI_STATE_FREE) ->
  (c_state c' = SCSI_STATE_QUEUED \/ forall d q, s_rq s !! d = Some q -> r ∉ q) ->
  (forall d v, s_devs s !! d = Some v -> d_manual_autosense v = true -> d_auto_sense_request v = r ->
     has (c_flags c') SCSI_DIS_AUTOSENSE = true /\ c_state c' <> SCSI_STATE_FREE /\
     (c_state c' <> SCSI_STATE_FINISHED -> is_Some (s_ccbs s !! d_auto_sense_originator v))) ->
  inv N X (k - is_sent c + is_sent c') (with_ccbs (<[r := c']>) s).
Proof.
  intros [] Hc Hdev Hfree Hq Hauto. split; auto; unfold s_ccbs, s_devs in *; simpl.
  - intros r1. rewrite <-i_cells0. destruct (decide (r = r1)) as [<-|]; [|by rewrite lookup_insert_ne].
    rewrite lookup_insert_eq, Hc. done.
  - intros d q r1 H1 H2. destruct (i_queued0 d q r1 H1 H2) as (c1 & E1 & E2 & E3).
    destruct (decide (r = r1)) as [<-|]; [|rewrite lookup_insert_ne by done; eauto].
    rewrite lookup_insert_eq. simplify_eq. exists c'. split_and!; [done|done|].
    destruct Hq as [?|Hq]; [done|]. by destruct (Hq _ _ H1).
  - intros r1 c1. destruct (decide (r = r1)) as [<-|]; [|rewrite lookup_insert_ne by done; eauto].
    rewrite lookup_insert_eq. intros [= <-] Hf. rewrite Hdev. eauto.
  - intros d v Hv. specialize (i_auto0 d v Hv). unfold autosense_ok in *. destruct (d_manual_autosense v) eqn:Em; [|done].
    destruct i_auto0 as (c1 & E1 & E2 & E3 & E4 & E5).
    assert (Ho : forall x, is_Some (ccbs (sy_core s) !! x) -> is_Some (<[r := c']> (ccbs (sy_core s)) !! x)).
    { intros x Hx. destruct (decide (r = x)) as [<-|]; [by rewrite lookup_insert_eq|by rewrite lookup_insert_ne]. }
    destruct (decide (r = d_auto_sense_request v)) as [Er|]; [|rewrite lookup_insert_ne by done; exists c1; split_and!; try done; intros; by apply Ho, E5].
    rewrite <-Er, lookup_insert_eq. rewrite <-Er, Hc in E1. injection E1 as <-.
    destruct (Hauto d v Hv Em (eq_sym Er)) as (A1 & A2 & A3). exists c'. rewrite Hdev. split_and!; try done. intros. by apply Ho, A3.
  - unfold s_ccbs. rewrite (sent_insert _ _ _ _ Hc). unfold s_ccbs, s_bus in *. simpl in *. lia.
Qed.

(** A request of which nothing changes that matters to the queues. *)
Lemma inv_ccb_benign r c c' :
  inv N X k s -> s_ccbs s !! r = Some c -> c_device c' = c_device c -> c_state c' = c_state c ->
  c_flags c' = c_flags c ->
  inv N X k (with_ccbs (<[r := c']>) s).
Proof.
  intros H Hc Hd Hs Hf. replace k with (k - is_sent c + is_sent c') by (unfold is_sent; rewrite Hs; lia).
  apply inv_ccb; [done|done|done|by rewrite Hs| |].
  - rewrite Hs. destruct (decide (c_state c = SCSI_STATE_QUEUED)) as [?|Hn]; [by left|right].
    intros d q Hq Hin. destruct (i_queued _ _ _ _ H d q r Hq Hin) as (c1 & E & _ & ?). by simplify_eq.
  - intros d v Hv Hm Hr. pose proof (i_auto _ _ _ _ H d v Hv) as Ha. unfold autosense_ok in Ha. rewrite Hm, Hr in Ha.
    destruct Ha as (c1 & E & _ & A1 & A2 & A3). simplify_eq. by rewrite Hf, Hs.
Qed.

(** Another queue of waiting devices. *)
Lemma inv_rw X' w :
  inv N X k s -> NoDup w -> (forall d, d ∈ w -> exists q, s_rq s !! d = Some q /\ q <> []) ->
  (forall d v q, d ∉ X' -> s_devs s !! d = Some v -> s_rq s !! d = Some q -> q <> [] -> d_lock_count v = 0 ->
     d ∈ w) ->
  inv N X' k (with_queues (set_rw w (sy_queues s)) s).
Proof. intros [] Hd Hw Hr. by split. Qed.

(** Another queue of a device, with the same members and perhaps a request
    more, or one less. *)
Lemma inv_rq X' d q q' :
  inv N X k s -> s_rq s !! d = Some q -> NoDup q' -> X ∖ {[d]} ⊆ X' ->
  (forall r, r ∈ q' -> exists c, s_ccbs s !! r = Some c /\ c_device c = d /\ c_state c = SCSI_STATE_QUEUED) ->
  (d ∈ s_rw s -> q' <> []) ->
  (d ∉ X' -> q' <> [] -> d ∉ X /\ q <> []) ->
  inv N X' k (with_queues (set_rq d q' (sy_queues s)) s).
Proof.
  intros [] Hq Hd HX Hm Hw Hr. split; auto; unfold s_rq, s_rw in *; simpl.
  - split; [apply i_null0|]. destruct (decide (d = NULL)) as [->|]; [destruct i_null0; congruence|].
    rewrite lookup_insert_ne by done. apply i_null0.
  - intros d1. rewrite i_dom0. destruct (decide (d = d1)) as [<-|]; [|by rewrite lookup_insert_ne].
    rewrite lookup_insert_eq, Hq. done.
  - intros d1 q1 r. destruct (decide (d = d1)) as [<-|]; [|rewrite lookup_insert_ne by done; eauto].
    rewrite lookup_insert_eq. intros [= <-]. apply Hm.
  - intros d1 q1. destruct (decide (d = d1)) as [<-|]; [|rewrite lookup_insert_ne by done; eauto].
    rewrite lookup_insert_eq. by intros [= <-].
  - intros d1 H1. destruct (decide (d = d1)) as [<-|]; [|rewrite lookup_insert_ne by done; eauto].
    rewrite lookup_insert_eq. eauto.
  - intros d1 v q1 Hn Hv. destruct (decide (d = d1)) as [<-|].
    + rewrite lookup_insert_eq. intros [= <-] Hne Hz. destruct (Hr Hn Hne). eauto.
    + rewrite lookup_insert_ne by done. intros. eapply i_ready0; eauto. set_solver.
Qed.
End Parts.
