(* ===== verification/ScsiWp.v ===== *)
(** Each operation of queuing.c and scsi_io.c has a result where the invariant
    of the queues holds, and keeps it. *)
From stdpp Require Import base gmap list.
From Stdlib Require Import ZArith Lia.
From S2P Require Import Prelude Errors ScsiRing Scsi ScsiSpec ScsiRefine ScsiQueue ScsiIo ScsiInv.

Implicit Types s : sys rqueues.

(** What the blocking operations leave alone. *)
Definition auto_of (v : scsi_device_info) : Z * Z * bool :=
  (d_auto_sense_request v, d_auto_sense_originator v, d_manual_autosense v).

Record frame s s' : Prop := {
  f_ccbs : s_ccbs s' = s_ccbs s;
  f_rq : s_rq s' = s_rq s;
  f_cells : cells (sy_queues s') = cells (sy_queues s);
  f_devs : forall d v, s_devs s !! d = Some v -> exists v', s_devs s' !! d = Some v' /\ auto_of v' = auto_of v
}.

#[export] Instance frame_preorder : PreOrder frame.
Proof.
  split; [intros s; split; eauto|]. intros s1 s2 s3 [A1 A2 A3 A4] [B1 B2 B3 B4]. split; [congruence..|].
  intros d v Hv. destruct (A4 d v Hv) as (v' & Hv' & E). destruct (B4 d v' Hv') as (v2 & Hv2 & E2).
  exists v2. split; [done|congruence].
Qed.

Lemma frame_bus f s : frame s (with_bus f s).
Proof. split; eauto. Qed.
Lemma frame_event e s : frame s (with_event e s).
Proof. split; eauto. Qed.
Lemma frame_rw w s : frame s (with_queues (set_rw w (sy_queues s)) s).
Proof. split; eauto. Qed.
Lemma frame_dev d v v' s : s_devs s !! d = Some v -> auto_of v' = auto_of v -> frame s (with_devs (<[d := v']>) s).
Proof.
  intros Hd E. split; try done. intros d1 v1 H1. unfold s_devs in *. simpl.
  destruct (decide (d = d1)) as [<-|]; [|rewrite lookup_insert_ne by done; eauto].
  rewrite lookup_insert_eq. exists v'. rewrite Hd in H1. injection H1 as <-. done.
Qed.

Lemma autosense_auto_of m d v v' : auto_of v' = auto_of v -> autosense_ok m d v -> autosense_ok m d v'.
Proof. unfold auto_of, autosense_ok. by intros [= -> -> ->]. Qed.

Section Blocking.
Context {N : Z} {X : gset Z} {k : Z} {s : sys rqueues}.

Lemma inv_dev_exists d q : inv N X k s -> s_rq s !! d = Some q -> exists v, s_devs s !! d = Some v.
Proof. intros H Hq. apply (i_dom _ _ _ _ H). by rewrite Hq. Qed.

Lemma inv_rq_exists d v : inv N X k s -> s_devs s !! d = Some v -> exists q, s_rq s !! d = Some q.
Proof. intros H Hv. apply (i_dom _ _ _ _ H). by rewrite Hv. Qed.

(** A change of the lock of a device. *)
Lemma inv_lock X' d v v' :
  inv N X k s -> s_devs s !! d = Some v -> dev_ok v' -> auto_of v' = auto_of v -> X ∖ {[d]} ⊆ X' ->
  (d ∉ X' -> d_lock_count v' = 0 -> d ∉ X /\ d_lock_count v = 0) ->
  inv N X' k (with_devs (<[d := v']>) s) /\ frame s (with_devs (<[d := v']>) s).
Proof.
  intros H Hd Ho Ha HX Hr. split; [|by eapply frame_dev].
  eapply inv_dev; try done. eapply autosense_auto_of; [done|]. by apply (i_auto _ _ _ _ H).
Qed.

Lemma wp_unblock_device d v b :
  inv N X k s -> s_devs s !! d = Some v ->
  wp (scsi_unblock_device_noresume d b) (fun _ s' => inv N ({[d]} ∪ X) k s' /\ frame s s') s.
Proof.
  intros H Hd. unfold scsi_unblock_device_noresume. apply wp_bind, (wp_get_dev d v); [done|].
  destruct (i_devs _ _ _ _ H d v Hd) as [D1 D2 D3 D4].
  destruct (Z.ltb_spec 0 (count_of b (d_blocked v))) as [Hb|Hb].
  - apply (wp_upd_dev d v); [done|]. apply (inv_lock _ _ v); [done|done| |done|set_solver|set_solver].
    destruct (d_blocked v) as [b1 b2], b; simpl in *; split; simpl; lia.
  - apply wp_emit. split; [|by apply frame_event]. apply inv_event. eapply inv_mono; [done|set_solver].
Qed.

(** Removing a device from the queue of those that wait. *)
Lemma wp_remove_device d q :
  inv N X k s -> s_rq s !! d = Some q -> (forall v, s_devs s !! d = Some v -> d_lock_count v <> 0 \/ q = []) ->
  wp (upd_queues (remove_device_queue d)) (fun _ s' => inv N X k s' /\ frame s s' /\ sy_core s' = sy_core s) s.
Proof.
  intros H Hq Hl. eapply wp_upd_queues.
  { simpl. unfold known. unfold s_rq in Hq. rewrite Hq. done. }
  split; [|split; [by apply frame_rw|done]].
  - eapply inv_rw; [done| | |].
    + apply NoDup_filter, (i_wnodup _ _ _ _ H).
    + intros d1 [_ H1]%without_elem. by apply (i_wait _ _ _ _ H).
    + intros d1 v1 q1 HX Hv Hq1 Hne Hz. apply without_elem. split; [|by eapply (i_ready _ _ _ _ H)].
      intros ->. destruct (Hl v1 Hv) as [?|?]; simplify_eq; done.
Qed.

End Blocking.

Section Device.
Context {N : Z} {X : gset Z} {k : Z} {s : sys rqueues}.

Lemma wp_block_device d v b :
  inv N X k s -> s_devs s !! d = Some v ->
  wp (scsi_block_device_nolock d b) (fun _ s' => inv N (X ∖ {[d]}) k s' /\ frame s s' /\
    forall v', s_devs s' !! d = Some v' -> d_lock_count v' <> 0) s.
Proof.
  intros H Hd. unfold scsi_block_device_nolock. apply wp_bind, (wp_upd_dev d v); [done|].
  destruct (i_devs _ _ _ _ H d v Hd) as [D1 D2 D3 D4]. destruct (inv_rq_exists d v H Hd) as [q Hq].
  set (v' := set_d_lock_count _ _).
  assert (Hl : d_lock_count v' <> 0) by (simpl; lia).
  destruct (inv_lock (X ∖ {[d]}) d v v' H Hd) as [H1 F1]; [|done|set_solver|set_solver|].
  { unfold v'. destruct (d_blocked v) as [b1 b2], b; simpl in *; split; simpl; lia. }
  eapply wp_mono; [eapply wp_remove_device; [exact H1|exact Hq|]|].
  - intros v1. unfold s_devs. simpl. rewrite lookup_insert_eq. intros [= <-]. by left.
  - intros _ s' (H2 & F2 & E). split_and!; [done|by etrans|]. intros v1. unfold s_devs. rewrite E. simpl.
    rewrite lookup_insert_eq. by intros [= <-].
Qed.

Lemma wp_set_device_overflow d v :
  inv N X k s -> s_devs s !! d = Some v ->
  wp (scsi_set_device_overflow d) (fun _ s' => inv N (X ∖ {[d]}) k s' /\ frame s s' /\
    forall v', s_devs s' !! d = Some v' -> d_lock_count v' <> 0) s.
Proof.
  intros H Hd. apply (wp_upd_dev d v); [done|].
  destruct (i_devs _ _ _ _ H d v Hd) as [D1 D2 D3 D4]. set (v' := set_d_sim_overflow _ _).
  assert (Hx : Z.lxor (d_sim_overflow v) 1 = 1 - d_sim_overflow v) by (destruct D2 as [-> | ->]; done).
  assert (Hl : d_lock_count v' <> 0) by (unfold v'; simpl; lia).
  destruct (inv_lock (X ∖ {[d]}) d v v' H Hd) as [H1 F1]; [|done|set_solver|set_solver|].
  { unfold v'. destruct (d_blocked v) as [b1 b2] eqn:Eb. simpl in *. split; simpl; rewrite ?Eb; simpl; lia. }
  split_and!; [done|done|]. intros v1. unfold s_devs. simpl. rewrite lookup_insert_eq. by intros [= <-].
Qed.

Lemma wp_clear_device_overflow d v :
  inv N X k s -> s_devs s !! d = Some v ->
  wp (scsi_clear_device_overflow d) (fun _ s' => inv N ({[d]} ∪ X) k s' /\ frame s s') s.
Proof.
  intros H Hd. apply (wp_upd_dev d v); [done|].
  destruct (i_devs _ _ _ _ H d v Hd) as [D1 D2 D3 D4].
  eapply (inv_lock _ _ v _ H); [done| |done|set_solver|set_solver].
  destruct (d_blocked v) as [b1 b2] eqn:Eb. simpl in *. split; simpl; rewrite ?Eb; simpl; lia.
Qed.

(** Adding a device whose queue is not empty to those that wait. *)
Lemma wp_add_device d q (first : bool) :
  inv N X k s -> s_rq s !! d = Some q -> q <> [] ->
  wp (upd_queues (if first then add_device_queue_first d else add_device_queue_last d))
    (fun _ s' => inv N (X ∖ {[d]}) k s' /\ frame s s' /\ d ∈ s_rw s') s.
Proof.
  intros H Hq Hne. set (w := if decide (d ∈ s_rw s) then s_rw s else if first then d :: s_rw s else s_rw s ++ [d]).
  assert (Hw : forall x, x ∈ w <-> x = d \/ x ∈ s_rw s) by (unfold w; case_decide; destruct first; set_solver).
  apply (wp_upd_queues _ (set_rw w (sy_queues s))).
  { unfold s_rq in Hq. destruct first; simpl; unfold known; rewrite Hq; done. }
  split; [|split; [by apply frame_rw|by apply Hw; left]].
  eapply inv_rw; [done| | |].
  - pose proof (i_wnodup _ _ _ _ H) as Hd. unfold w. case_decide; [done|]. destruct first.
    + by constructor.
    + rewrite NoDup_app. split_and!; [done|set_solver|apply NoDup_singleton].
  - intros x [->|Hx]%Hw; [eauto|]. by apply (i_wait _ _ _ _ H).
  - intros x v1 q1 HX Hv Hq1 Hne1 Hz. apply Hw. destruct (decide (x = d)) as [->|]; [by left|right].
    eapply (i_ready _ _ _ _ H); try done. set_solver.
Qed.

Lemma wp_has_requests d q :
  inv N X k s -> s_rq s !! d = Some q ->
  wp (has_requests d) (fun b s' => s' = s /\ b = negb (bool_decide (q = []))) s.
Proof.
  intros H Hq. unfold has_requests. apply wp_bind. apply (wp_queues _ (hd NULL q)).
  { simpl. unfold s_rq in Hq. by rewrite Hq. }
  apply wp_ret. split; [done|]. f_equal. destruct q as [|r q]; [done|]. rewrite bool_decide_false by done.
  apply Z.eqb_neq. simpl. intros ->. destruct (i_queued _ _ _ _ H d _ NULL Hq) as (c & Hc & _); [set_solver|].
  apply (i_null _ _ _ _ H), (i_cells _ _ _ _ H). by rewrite Hc.
Qed.

(** A device that waits, has no requests or is locked is no exception. *)
Lemma inv_drop d :
  inv N X k s ->
  (forall v q, s_devs s !! d = Some v -> s_rq s !! d = Some q -> q <> [] -> d_lock_count v = 0 -> d ∈ s_rw s) ->
  inv N (X ∖ {[d]}) k s.
Proof.
  intros H Hd. split; try apply H. intros d1 v1 q1 Hn Hv1 Hq1 Hne1 Hz1.
  destruct (decide (d1 = d)) as [->|]; [eauto|]. eapply (i_ready _ _ _ _ H); eauto. set_solver.
Qed.

Lemma wp_queue_if_ready d v :
  inv N X k s -> s_devs s !! d = Some v ->
  wp (queue_if_ready d) (fun _ s' => inv N (X ∖ {[d]}) k s' /\ frame s s') s.
Proof.
  intros H Hv. destruct (inv_rq_exists d v H Hv) as [q Hq].
  unfold queue_if_ready. apply wp_bind, (wp_get_dev d v); [done|].
  apply wp_bind. eapply wp_mono; [by eapply wp_has_requests|]. intros b s' [-> ->].
  apply wp_when. case_bool_decide as Hne; destruct (Z.eqb_spec (d_lock_count v) 0) as [Hz|Hz]; simpl.
  1-2,4: split; [apply inv_drop; [done|]; intros v1 q1 Hv1 Hq1 Hne1 Hz1; simplify_eq; done|done].
  eapply wp_mono; [by apply (wp_add_device d q false)|]. by intros _ s' (? & ? & _).
Qed.
End Device.

(** ** The bus *)

Definition bump (b : scsi_bus_info) : scsi_bus_info := set_b_start_service (b_start_service b + 1) b.

Lemma wp_can_service post s : (forall b, post b s) -> wp scsi_can_service_bus post s.
Proof.
  intros H. unfold scsi_can_service_bus. apply wp_bind, wp_get_bus, wp_bind.
  eapply wp_queues; [done|]. apply wp_ret, H.
Qed.

(** Telling the service thread changes nothing but the count. *)
Lemma wp_with_retry {A} (body : op rqueues A) post s :
  wp body (fun a s' => post a s' /\ post a (with_bus bump s')) s -> wp (with_retry body) post s.
Proof.
  intros H. unfold with_retry. apply wp_bind, wp_can_service. intros b. apply wp_bind.
  eapply wp_mono; [exact H|]. intros a s' [H1 H2]. apply wp_bind, wp_can_service. intros b'.
  apply wp_bind, wp_when. destruct (negb b && b'); [|by apply wp_ret].
  apply wp_upd_bus. by apply wp_ret.
Qed.

Section BusOps.
Context {N : Z} {X : gset Z} {k : Z} {s : sys rqueues}.

Lemma inv_bump : inv N X k s -> inv N X k (with_bus bump s).
Proof. intros H. apply (inv_bus k bump H); [|simpl; lia]. by destruct (i_bus _ _ _ _ H) as [B1 B2 B3 B4]. Qed.

(** The lock of the bus changes, its slots do not. *)
Lemma inv_bus_lock f :
  inv N X k s -> bus_ok (f (s_bus s)) -> b_left_slots (f (s_bus s)) = b_left_slots (s_bus s) ->
  inv N X k (with_bus f s) /\ frame s (with_bus f s).
Proof. intros H Hb Hl. split; [|apply frame_bus]. apply (inv_bus k f H Hb). lia. Qed.

Lemma wp_set_bus_overflow :
  inv N X k s -> wp scsi_set_bus_overflow (fun _ s' => inv N X k s' /\ frame s s') s.
Proof.
  intros H. apply wp_upd_bus, inv_bus_lock; [done| |done]. destruct (i_bus _ _ _ _ H) as [B1 B2 B3 B4].
  split; simpl in *; try done. assert (Hx : Z.lxor (Z.b2z (b_sim_overflow (s_bus s))) 1 = 1 - Z.b2z (b_sim_overflow (s_bus s))) by by destruct (b_sim_overflow _).
  lia.
Qed.

Lemma wp_clear_bus_overflow :
  inv N X k s -> wp scsi_clear_bus_overflow (fun _ s' => inv N X k s' /\ frame s s') s.
Proof.
  intros H. apply wp_upd_bus, inv_bus_lock; [done| |done]. destruct (i_bus _ _ _ _ H) as [B1 B2 B3 B4].
  split; simpl in *; try done. lia.
Qed.

Lemma wp_block_bus :
  inv N X k s -> wp (scsi_block_bus_nolock true) (fun _ s' => inv N X k s' /\ frame s s') s.
Proof.
  intros H. apply wp_upd_bus, inv_bus_lock; [done| |done]. destruct (i_bus _ _ _ _ H) as [B1 B2 B3 B4].
  split; simpl in *; try done; lia.
Qed.

Lemma wp_unblock_bus :
  inv N X k s -> wp (scsi_unblock_bus_noresume true) (fun _ s' => inv N X k s' /\ frame s s') s.
Proof.
  intros H. unfold scsi_unblock_bus_noresume. apply wp_bind, wp_get_bus.
  destruct (Z.ltb_spec 0 (count_of true (b_blocked (s_bus s)))) as [Hb|Hb].
  - apply wp_upd_bus, inv_bus_lock; [done| |done]. destruct (i_bus _ _ _ _ H) as [B1 B2 B3 B4].
    split; simpl in *; try done; lia.
  - apply wp_emit. split; [by apply inv_event|apply frame_event].
Qed.

(** A slot of the bus becomes free: never a panic. *)
Lemma wp_give_bus {A} (rest : op rqueues A) post :
  inv N X k s ->
  (forall f, inv N X (k + 1) (with_bus f s) -> wp rest post (with_bus f s)) ->
  wp (b ← get_bus; upd_bus (fun b => set_b_left_slots (b_left_slots b + 1) b) ;;
      when (b_left_slots b =? 0) (scsi_unblock_bus_noresume false) ;; rest) post s.
Proof.
  intros H Hp. destruct (i_bus _ _ _ _ H) as [B1 B2 B3 B4]. apply wp_bind, wp_get_bus, wp_bind, wp_upd_bus, wp_bind, wp_when.
  destruct (Z.eqb_spec (b_left_slots (s_bus s)) 0) as [Hz|Hz]; simpl in B3.
  - unfold scsi_unblock_bus_noresume. apply wp_bind, wp_get_bus. unfold s_bus at 1. simpl.
    change (b_blocked (bus (sy_core s))).1 with (count_of false (b_blocked (s_bus s))).
    replace (0 <? _) with true by lia. apply wp_upd_bus.
    change (with_bus ?f (with_bus ?g s)) with (with_bus (fun b => f (g b)) s).
    apply Hp, (inv_bus (k + 1) _ H); [|simpl; lia].
    split; simpl in *; rewrite ?Hz; simpl; lia.
  - apply Hp, (inv_bus (k + 1) _ H); [|simpl; lia]. split; simpl in *; try lia.
    rewrite B3. destruct (Z.eqb_spec (b_left_slots (s_bus s) + 1) 0); [lia|done].
Qed.

(** A slot of a bus that is not locked is taken. *)
Lemma wp_take_bus {A} (rest : op rqueues A) post :
  inv N X k s -> b_lock_count (s_bus s) = 0 ->
  (forall f, inv N X (k - 1) (with_bus f s) -> wp rest post (with_bus f s)) ->
  wp (upd_bus (fun b => set_b_left_slots (b_left_slots b - 1) b) ;;
      b ← get_bus; when (b_left_slots b =? 0) (scsi_block_bus_nolock false) ;; rest) post s.
Proof.
  intros H Hl Hp. destruct (i_bus _ _ _ _ H) as [B1 B2 B3 B4].
  apply wp_bind, wp_upd_bus, wp_bind, wp_get_bus, wp_bind, wp_when. unfold s_bus at 1. simpl.
  assert (Hb : 0 < b_left_slots (s_bus s) /\ (b_blocked (s_bus s)).1 = 0 /\ Z.b2z (b_sim_overflow (s_bus s)) = 0).
  { destruct (b_sim_overflow _); simpl in *; destruct (Z.eqb_spec (b_left_slots (s_bus s)) 0); simpl in *; lia. }
  destruct Hb as (Hb & Hb1 & Hb2).
  destruct (Z.eqb_spec (b_left_slots (s_bus s) - 1) 0) as [Hz|Hz].
  - apply wp_upd_bus. change (with_bus ?f (with_bus ?g s)) with (with_bus (fun b => f (g b)) s).
    apply Hp, (inv_bus (k - 1) _ H); [|simpl; lia]. split; simpl in *; rewrite ?Hz; simpl; lia.
  - apply Hp, (inv_bus (k - 1) _ H); [|simpl; lia]. split; simpl in *; try lia.
    rewrite Hb1. destruct (Z.eqb_spec (b_left_slots (s_bus s) - 1) 0); [lia|done].
Qed.
End BusOps.

(** ** Slots *)

Section Slots.
Context {N : Z} {X : gset Z} {k : Z} {s : sys rqueues}.

Lemma frame_ccb s' r c : frame s s' -> s_ccbs s !! r = Some c -> s_ccbs s' !! r = Some c.
Proof. intros F. by rewrite (f_ccbs _ _ F). Qed.

Lemma wp_give_back r d v c :
  inv N X k s -> s_devs s !! d = Some v -> s_ccbs s !! r = Some c ->
  wp (give_back_slots r d) (fun _ s' => inv N ({[d]} ∪ X) (k + 1) s' /\ frame s s') s.
Proof.
  intros H Hv Hc. unfold give_back_slots. apply (wp_give_bus _ _ H). intros f H1.
  apply wp_bind, (wp_get_dev d v); [done|]. apply wp_bind, (wp_upd_dev d v); [done|].
  apply wp_bind, (wp_get_ccb r c); [done|].
  set (s1 := with_bus f s) in *. set (v' := set_d_left_slots _ v).
  destruct (inv_lock X d v v' H1 Hv) as [H2 F2]; [by destruct (i_devs _ _ _ _ H d v Hv)|done|set_solver|done|].
  assert (F1 : frame s s1) by apply frame_bus.
  apply wp_when. destruct (_ || _).
  - eapply wp_mono; [eapply (wp_unblock_device d v' false H2)|].
    + unfold s_devs. simpl. by rewrite lookup_insert_eq.
    + intros _ s' [H3 F3]. split; [done|]. by do 2 (etrans; [eassumption|]).
  - split; [eapply inv_mono; [done|set_solver]|]. by etrans.
Qed.

Lemma wp_take r d v c :
  inv N X k s -> b_lock_count (s_bus s) = 0 -> s_devs s !! d = Some v -> s_ccbs s !! r = Some c ->
  wp (take_slots r d) (fun _ s' => inv N X (k - 1) s' /\ frame s s') s.
Proof.
  intros H Hl Hv Hc. unfold take_slots. apply (wp_take_bus _ _ H Hl). intros f H1.
  apply wp_bind, (wp_upd_dev d v); [done|].
  set (s1 := with_bus f s) in *. set (v' := set_d_left_slots _ v).
  destruct (inv_lock X d v v' H1 Hv) as [H2 F2]; [by destruct (i_devs _ _ _ _ H d v Hv)|done|set_solver|done|].
  assert (F1 : frame s s1) by apply frame_bus.
  assert (F12 : frame s (with_devs (<[d := v']>) s1)) by by etrans.
  set (s2 := with_devs (<[d := v']>) s1) in *.
  assert (Hv' : s_devs s2 !! d = Some v') by (unfold s_devs; simpl; by rewrite lookup_insert_eq).
  apply wp_bind, (wp_get_dev d v'); [done|]. apply wp_bind, (wp_get_ccb r c); [done|].
  (* the last sort value is no part of the invariant *)
  assert (Hsort : forall s', inv N X (k - 1) s' -> frame s s' ->
    wp (when (0 <=? c_sort c) (upd_dev d (set_d_last_sort (c_sort c))))
      (fun _ s'' => inv N X (k - 1) s'' /\ frame s s'') s').
  { intros s' H' F'. apply wp_when. destruct (0 <=? c_sort c); [|done].
    destruct (f_devs _ _ F' d v Hv) as (w & Hw & Ew). apply (wp_upd_dev d w); [done|].
    destruct (inv_lock X d w (set_d_last_sort (c_sort c) w) H' Hw) as [H3 F3];
      [by destruct (i_devs _ _ _ _ H' d w Hw)|done|set_solver|done|].
    split; [done|]. by etrans. }
  apply wp_bind, wp_when. destruct (_ || _); [|by apply Hsort].
  eapply wp_mono; [eapply (wp_block_device d v' false H2 Hv')|]. intros _ s3 (H3 & F3 & _).
  apply Hsort; [eapply inv_mono; [done|set_solver]|]. by etrans.
Qed.

(** ** Queueing *)

(** A request that becomes queued. *)
Lemma inv_set_queued r c :
  inv N X k s -> s_ccbs s !! r = Some c -> c_state c <> SCSI_STATE_FREE ->
  (forall d v, s_devs s !! d = Some v -> d_manual_autosense v = true -> d_auto_sense_request v = r ->
     is_Some (s_ccbs s !! d_auto_sense_originator v)) ->
  inv N X (k - is_sent c) (with_ccbs (<[r := set_c_state SCSI_STATE_QUEUED c]>) s).
Proof.
  intros H Hc Hf Ha. replace (k - is_sent c) with (k - is_sent c + is_sent (set_c_state SCSI_STATE_QUEUED c))
    by (change (is_sent (set_c_state SCSI_STATE_QUEUED c)) with 0; lia).
  apply inv_ccb; [done|done|done|done|by left|]. intros d v Hv Hm Hr.
  pose proof (i_auto _ _ _ _ H d v Hv) as Hao. unfold autosense_ok in Hao. rewrite Hm, Hr in Hao.
  destruct Hao as (c1 & E & _ & _ & A & _). simplify_eq. split_and!; [done|done|]. intros _. eauto.
Qed.

Lemma not_queued r c : inv N X k s -> s_ccbs s !! r = Some c -> c_state c <> SCSI_STATE_QUEUED ->
  unqueued r (sy_queues s).
Proof.
  intros H Hc Hs. split; [apply (i_cells _ _ _ _ H); by rewrite Hc|]. intros d q Hq Hin.
  destruct (i_queued _ _ _ _ H d q r Hq Hin) as (c1 & E & _ & ?). by simplify_eq.
Qed.
End Slots.

Section Enqueue.
Context {N : Z} {X : gset Z} {k : Z} {s : sys rqueues}.

Lemma inv_enqueue r c d q q' :
  inv N X k s -> s_rq s !! d = Some q -> s_ccbs s !! r = Some c -> c_device c = d ->
  c_state c = SCSI_STATE_QUEUED -> NoDup q' -> (forall x, x ∈ q' <-> x = r \/ x ∈ q) ->
  inv N ({[d]} ∪ X) k (with_queues (set_rq d q' (sy_queues s)) s).
Proof.
  intros H Hq Hc Hd Hs Hn Hin. eapply inv_rq; [done|done|done|set_solver| | |set_solver].
  - intros x [->|Hx]%Hin; [eauto|]. by eapply (i_queued _ _ _ _ H).
  - intros _ ->. specialize (Hin r). set_solver.
Qed.

Lemma wp_add_first r c d q post :
  inv N X k s -> s_rq s !! d = Some q -> s_ccbs s !! r = Some c -> c_device c = d ->
  c_state c = SCSI_STATE_QUEUED -> unqueued r (sy_queues s) ->
  (let s' := with_queues (set_rq d (r :: q) (sy_queues s)) s in
   inv N ({[d]} ∪ X) k s' -> post tt s') ->
  wp (upd_queues (add_req_queue_first d r)) post s.
Proof.
  intros H Hq Hc Hd Hs Hu Hp. eapply wp_upd_queues; [by apply spec_add_some|]. apply Hp.
  eapply inv_enqueue; try done; [|set_solver].
  constructor; [by eapply unqueued_not_in|]. by apply (i_nodup _ _ _ _ H _ _ Hq).
Qed.

Lemma elevator_nodup o f last_sort new (q : list Z) :
  new ∉ q -> NoDup q -> NoDup (elevator o f last_sort new q).
Proof.
  intros Hn Hd. destruct (elevator_split o f last_sort new q) as (q1 & q2 & -> & -> & _).
  rewrite NoDup_app in Hd |- *. rewrite NoDup_cons. set_solver.
Qed.

Lemma wp_insert r c d q last_sort post :
  inv N X k s -> s_rq s !! d = Some q -> s_ccbs s !! r = Some c -> c_device c = d ->
  c_state c = SCSI_STATE_QUEUED -> unqueued r (sy_queues s) ->
  (let q' := elevator (ordered_in (s_ccbs s)) (sort_in (s_ccbs s)) last_sort r q in
   let s' := with_queues (set_rq d q' (sy_queues s)) s in
   inv N ({[d]} ∪ X) k s' -> post tt s') ->
  wp (upd_queues (insert_new_request (s_ccbs s) last_sort d r)) post s.
Proof.
  intros H Hq Hc Hd Hs Hu Hp. eapply wp_upd_queues.
  { simpl. unfold spec_insert. unfold s_rq in Hq. rewrite Hq. simpl. rewrite decide_True.
    - by apply spec_add_some.
    - apply Forall_cons. split; [by rewrite Hc|]. apply Forall_forall. intros x Hx.
      destruct (i_queued _ _ _ _ H d q x Hq Hx) as (c1 & E & _). by rewrite E. }
  apply Hp. eapply inv_enqueue; try done; [|intros x; apply elevator_elem].
  apply elevator_nodup; [by eapply unqueued_not_in|]. by apply (i_nodup _ _ _ _ H _ _ Hq).
Qed.

(** A device that has got a request waits, unless it is locked. *)
Lemma wp_wait_unless_locked d q v (first : bool) :
  inv N X k s -> s_rq s !! d = Some q -> q <> [] -> s_devs s !! d = Some v ->
  wp (when (d_lock_count v =? 0) (upd_queues (if first then add_device_queue_first d else add_device_queue_last d)))
    (fun _ s' => inv N (X ∖ {[d]}) k s' /\ frame s s' /\ (d_lock_count v = 0 -> d ∈ s_rw s')) s.
Proof.
  intros H Hq Hne Hv. apply wp_when. destruct (Z.eqb_spec (d_lock_count v) 0) as [Hz|Hz].
  - eapply wp_mono; [exact (wp_add_device d q first H Hq Hne)|]. intros _ s' (? & ? & ?). auto.
  - split_and!; [|done|done]. apply inv_drop; [done|]. intros v1 q1 Hv1. by simplify_eq.
Qed.
End Enqueue.

(** The requests the steps of the queue may use: no auto-sense request waits
    for them. *)
Definition auto_ready s r : Prop :=
  forall d v, s_devs s !! d = Some v -> d_manual_autosense v = true -> d_auto_sense_request v = r ->
  is_Some (s_ccbs s !! d_auto_sense_originator v).

Section Adding.
Context {N : Z} {X : gset Z} {k : Z} {s : sys rqueues}.

(** Both ways to add a request that is not queued: what changes besides the
    queues is its state. *)
Definition queued_now r c s s' : Prop :=
  s_ccbs s' = <[r := set_c_state SCSI_STATE_QUEUED c]> (s_ccbs s) /\
  (forall d v, s_devs s !! d = Some v -> exists v', s_devs s' !! d = Some v' /\ auto_of v' = auto_of v).

Lemma wp_add_queued r c v :
  inv N X k s -> s_ccbs s !! r = Some c -> c_state c <> SCSI_STATE_FREE -> c_state c <> SCSI_STATE_QUEUED ->
  s_devs s !! c_device c = Some v -> auto_ready s r ->
  wp (scsi_add_queued_request r) (fun _ s' => inv N X (k - is_sent c) s' /\ queued_now r c s s') s.
Proof.
  intros H Hc Hf Hnq Hv Ha. unfold scsi_add_queued_request. apply wp_bind, (wp_get_ccb r c); [done|]. cbv zeta.
  apply wp_bind, (wp_upd_ccb r c); [done|]. pose proof (inv_set_queued r c H Hc Hf Ha) as H1.
  set (s1 := with_ccbs _ s) in *. destruct (inv_rq_exists (c_device c) v H Hv) as [q Hq].
  assert (Hc1 : s_ccbs s1 !! r = Some (set_c_state SCSI_STATE_QUEUED c)) by (unfold s_ccbs; simpl; by rewrite lookup_insert_eq).
  apply wp_bind, (wp_get_dev (c_device c) v); [done|]. apply wp_bind, wp_get, wp_bind.
  apply (wp_insert r _ (c_device c) q (d_last_sort v) _ H1 Hq Hc1 eq_refl eq_refl (not_queued r c H Hc Hnq)).
  intros q' s2 H2. apply wp_bind, (wp_get_dev (c_device c) v); [done|].
  eapply wp_mono; [apply (wp_wait_unless_locked (c_device c) q' v false H2); [|unfold q'|done]|].
  - unfold s_rq. simpl. by rewrite lookup_insert_eq.
  - intros E. destruct (elevator_split (ordered_in (s_ccbs s1)) (sort_in (s_ccbs s1)) (d_last_sort v) r q)
      as (q1 & q2 & _ & E2 & _). rewrite E in E2. by destruct q1.
  - intros _ s' (H3 & F & _). split; [eapply inv_mono; [exact H3|set_solver]|].
    split; [by rewrite (f_ccbs _ _ F)|]. intros d1 v1 Hv1. apply (f_devs _ _ F d1 v1 Hv1).
Qed.

Lemma wp_add_queued_first r c v :
  inv N X k s -> s_ccbs s !! r = Some c -> c_state c <> SCSI_STATE_FREE -> c_state c <> SCSI_STATE_QUEUED ->
  s_devs s !! c_device c = Some v -> auto_ready s r ->
  wp (scsi_add_queued_request_first r) (fun _ s' => inv N X (k - is_sent c) s' /\ queued_now r c s s') s.
Proof.
  intros H Hc Hf Hnq Hv Ha. unfold scsi_add_queued_request_first. apply wp_bind, (wp_get_ccb r c); [done|]. cbv zeta.
  apply wp_bind, (wp_upd_ccb r c); [done|]. pose proof (inv_set_queued r c H Hc Hf Ha) as H1.
  set (s1 := with_ccbs _ s) in *. destruct (inv_rq_exists (c_device c) v H Hv) as [q Hq].
  assert (Hc1 : s_ccbs s1 !! r = Some (set_c_state SCSI_STATE_QUEUED c)) by (unfold s_ccbs; simpl; by rewrite lookup_insert_eq).
  apply wp_bind. apply (wp_add_first r _ (c_device c) q _ H1 Hq Hc1 eq_refl eq_refl (not_queued r c H Hc Hnq)).
  intros s2 H2. apply wp_bind, (wp_get_dev (c_device c) v); [done|].
  eapply wp_mono; [apply (wp_wait_unless_locked (c_device c) (r :: q) v true H2); [|done|done]|].
  - unfold s_rq. simpl. by rewrite lookup_insert_eq.
  - intros _ s' (H3 & F & _). split; [eapply inv_mono; [exact H3|set_solver]|].
    split; [by rewrite (f_ccbs _ _ F)|]. intros d1 v1 Hv1. apply (f_devs _ _ F d1 v1 Hv1).
Qed.
End Adding.
