(* ===== verification/ScsiOps.v ===== *)
(** The operations of the bus manager keep the invariant: between them every
    ready device waits, and every slot is free or has a sent request. *)
From stdpp Require Import base gmap list.
From Stdlib Require Import ZArith Lia.
From S2P Require Import Prelude Errors ScsiRing Scsi ScsiSpec ScsiRefine ScsiQueue ScsiIo ScsiInv ScsiWp.

Implicit Types s : sys rqueues.

Section Ops.
Variable N : Z.

Definition good s : Prop := inv N ∅ 0 s.

Lemma good_of X k s : inv N X k s -> X ⊆ ∅ -> k = 0 -> good s.
Proof. intros H HX ->. by eapply inv_mono. Qed.

Lemma good_bump s : good s -> good (with_bus bump s).
Proof. apply inv_bump. Qed.

Lemma wp_retry_good {A} (body : op rqueues A) s :
  wp body (fun _ s' => good s') s -> wp (with_retry body) (fun _ s' => good s') s.
Proof.
  intros H. apply wp_with_retry. eapply wp_mono; [exact H|]. intros a s' Hs. split; [done|by apply good_bump].
Qed.

Lemma wp_retry_then (body rest : op rqueues unit) s :
  wp body (fun _ s' => wp rest (fun _ s' => good s') s') s -> wp (with_retry_then body rest) (fun _ s' => good s') s.
Proof.
  intros H. unfold with_retry_then. apply wp_bind, wp_can_service. intros was.
  apply wp_bind. eapply wp_mono; [exact H|]. intros [] s1 H1. apply wp_bind, wp_can_service. intros can.
  apply wp_bind. eapply wp_mono; [exact H1|]. intros [] s2 H2. apply wp_when. destruct (can && negb was); [|done].
  apply wp_upd_bus. by apply good_bump.
Qed.

Lemma wp_panic s (P : sys rqueues -> Prop) : (forall e, P (with_event e s)) -> wp panic (fun _ s' => P s') s.
Proof. intros H. by apply wp_emit. Qed.

Lemma wp_panic_good s : good s -> wp panic (fun _ s' => good s') s.
Proof. intros H. apply wp_emit. by apply inv_event. Qed.

(** A request that is on its way knows whom it works for. *)
Lemma auto_ready_busy X k s r c :
  inv N X k s -> s_ccbs s !! r = Some c -> c_state c <> SCSI_STATE_FINISHED -> auto_ready s r.
Proof.
  intros H Hc Hs d v Hv Hm Hr. pose proof (i_auto _ _ _ _ H d v Hv) as Ha. unfold autosense_ok in Ha.
  rewrite Hm, Hr in Ha. destruct Ha as (c1 & E & _ & _ & _ & A). simplify_eq. auto.
Qed.

(** ** The operations of the SIM on the bus and on devices *)

Ltac good_step H := eapply wp_mono; [exact H|]; intros _ ?s' [? _]; eapply good_of; [eassumption|set_solver|lia].

Lemma wp_op_block_bus s : good s -> wp scsi_block_bus (fun _ s' => good s') s.
Proof. intros H. good_step (wp_block_bus H). Qed.

Lemma wp_op_unblock_bus s : good s -> wp scsi_unblock_bus (fun _ s' => good s') s.
Proof. intros H. apply wp_retry_good. good_step (wp_unblock_bus H). Qed.

Lemma wp_op_cont_send_bus s : good s -> wp scsi_cont_send_bus (fun _ s' => good s') s.
Proof. intros H. apply wp_retry_good. good_step (wp_clear_bus_overflow H). Qed.

Lemma wp_op_block_device s d v : good s -> s_devs s !! d = Some v -> wp (scsi_block_device d) (fun _ s' => good s') s.
Proof.
  intros H Hv. unfold scsi_block_device, scsi_block_device_int. apply wp_bind.
  eapply wp_mono; [exact (wp_block_device d v true H Hv)|]. intros _ s' (H' & F & Hl).
  destruct (inv_rq_exists d v H Hv) as [q Hq]. rewrite <-(f_rq _ _ F) in Hq.
  good_step (wp_remove_device d q H' Hq (fun v1 Hv1 => or_introl (Hl v1 Hv1))).
Qed.

Lemma wp_op_unblock_device s d v : good s -> s_devs s !! d = Some v -> wp (scsi_unblock_device d) (fun _ s' => good s') s.
Proof.
  intros H Hv. apply wp_retry_good. apply wp_bind.
  eapply wp_mono; [exact (wp_unblock_device d v true H Hv)|]. intros _ s' [H' F].
  destruct (f_devs _ _ F d v Hv) as (v' & Hv' & _). good_step (wp_queue_if_ready d v' H' Hv').
Qed.

Lemma wp_op_cont_send_device s d v : good s -> s_devs s !! d = Some v -> wp (scsi_cont_send_device d) (fun _ s' => good s') s.
Proof.
  intros H Hv. apply wp_retry_good. apply wp_bind, (wp_get_dev d v); [done|]. apply wp_bind, wp_when.
  destruct (Z.eqb_spec (d_sim_overflow v) 0) as [Hz|Hz]; cbn [negb]; [good_step (wp_clear_bus_overflow H)|].
  apply wp_bind, (wp_upd_dev d v); [done|]. set (v' := set_d_lock_count _ _).
  destruct (inv_lock {[d]} d v v' H Hv) as [H1 F1]; [|done|set_solver|set_solver|].
  { destruct (i_devs _ _ _ _ H d v Hv) as [D1 D2 D3 D4]. unfold v'. split; simpl in *; lia. }
  eapply wp_mono; [eapply (wp_queue_if_ready d v' H1); unfold s_devs; simpl; by rewrite lookup_insert_eq|].
  intros _ s' [H2 F2]. good_step (wp_clear_bus_overflow H2).
Qed.

(** ** Requests that come back from the SIM *)

(** What requeueing and resubmitting begin with. *)
Lemma wp_take_back {A} r c v (rest : op rqueues A) s :
  good s -> s_ccbs s !! r = Some c -> c_state c = SCSI_STATE_SENT -> s_devs s !! c_device c = Some v ->
  (forall s', inv N {[c_device c]} 0 s' -> s_ccbs s' !! r = Some (set_c_state SCSI_STATE_QUEUED c) ->
     unqueued r (sy_queues s') -> is_Some (s_devs s' !! c_device c) -> wp rest (fun _ s' => good s') s') ->
  wp (upd_ccb r (set_c_state SCSI_STATE_QUEUED) ;; with_retry (give_back_slots r (c_device c) ;; rest))
    (fun _ s' => good s') s.
Proof.
  intros H Hc Hs Hv Hrest. apply wp_bind, (wp_upd_ccb r c); [done|].
  assert (H1 := inv_set_queued r c H Hc ltac:(by rewrite Hs) (auto_ready_busy _ _ _ _ _ H Hc ltac:(by rewrite Hs))).
  set (s1 := with_ccbs _ s) in *.
  assert (Hc1 : s_ccbs s1 !! r = Some (set_c_state SCSI_STATE_QUEUED c)) by (unfold s_ccbs; simpl; by rewrite lookup_insert_eq).
  apply wp_retry_good, wp_bind. eapply wp_mono; [exact (wp_give_back r (c_device c) v _ H1 Hv Hc1)|]. intros _ s2 [H2 F].
  apply Hrest.
  - replace 0 with (0 - is_sent c + 1) by (unfold is_sent; rewrite Hs; done). eapply inv_mono; [exact H2|set_solver].
  - by apply (frame_ccb _ _ _ F).
  - destruct (not_queued r c H Hc) as [Hn1 Hn2]; [by rewrite Hs|].
    split; [by rewrite (f_cells _ _ F)|]. unfold s_rq in *. pose proof (f_rq _ _ F) as E. unfold s_rq in E. rewrite E. exact Hn2.
  - destruct (f_devs _ _ F (c_device c) v Hv) as (v' & -> & _). done.
Qed.

Lemma wp_requeue s r b c :
  good s -> s_ccbs s !! r = Some c -> wp (scsi_requeue_request r b) (fun _ s' => good s') s.
Proof.
  intros H Hc. unfold scsi_requeue_request. apply wp_bind, (wp_get_ccb r c); [done|]. cbv zeta.
  destruct (Z.eqb_spec (c_state c) SCSI_STATE_SENT) as [Hs|Hs]; cbn [negb]; [|by apply wp_panic_good].
  destruct (i_live _ _ _ _ H r c Hc) as [v Hv]; [by rewrite Hs|].
  apply (wp_take_back r c v); [done..|]. intros s1 H1 Hc1 Hu1 [v1 Hv1]. set (d := c_device c) in *.
  destruct (inv_rq_exists d v1 H1 Hv1) as [q Hq].
  apply wp_bind, (wp_add_first r _ d q _ H1 Hq Hc1 eq_refl eq_refl Hu1). intros s2 H2.
  assert (Hq2 : s_rq s2 !! d = Some (r :: q)) by (unfold s_rq; simpl; by rewrite lookup_insert_eq).
  destruct b.
  - apply wp_bind. eapply wp_mono; [exact (wp_set_bus_overflow H2)|]. intros _ s3 [H3 F3].
    rewrite <-(f_rq _ _ F3) in Hq2. eapply wp_mono; [exact (wp_add_device d (r :: q) false H3 Hq2 ltac:(done))|].
    intros _ s4 (H4 & _). eapply good_of; [exact H4|set_solver|done].
  - apply wp_bind. eapply wp_mono; [exact (wp_set_device_overflow d v1 H2 Hv1)|]. intros _ s3 (H3 & F3 & Hl).
    rewrite <-(f_rq _ _ F3) in Hq2. apply wp_bind.
    eapply wp_mono; [exact (wp_remove_device d _ H3 Hq2 (fun v Hv => or_introl (Hl v Hv)))|]. intros _ s4 (H4 & _ & _).
    good_step (wp_clear_bus_overflow H4).
Qed.

Lemma wp_resubmit s r c :
  good s -> s_ccbs s !! r = Some c -> wp (scsi_resubmit_request r) (fun _ s' => good s') s.
Proof.
  intros H Hc. unfold scsi_resubmit_request. apply wp_bind, (wp_get_ccb r c); [done|]. cbv zeta.
  destruct (Z.eqb_spec (c_state c) SCSI_STATE_SENT) as [Hs|Hs]; cbn [negb]; [|by apply wp_panic_good].
  destruct (i_live _ _ _ _ H r c Hc) as [v Hv]; [by rewrite Hs|].
  apply (wp_take_back r c v); [done..|]. intros s1 H1 Hc1 Hu1 [v1 Hv1]. set (d := c_device c) in *.
  apply wp_bind. eapply wp_mono; [exact (wp_clear_device_overflow d v1 H1 Hv1)|]. intros _ s2 [H2 F2].
  apply wp_bind. eapply wp_mono; [exact (wp_clear_bus_overflow H2)|]. intros _ s3 [H3 F3].
  assert (F13 : frame s1 s3) by by etrans. destruct (f_devs _ _ F13 d v1 Hv1) as (v3 & Hv3 & _).
  pose proof (frame_ccb _ _ _ F13 Hc1) as Hc3. set (c1 := set_c_state SCSI_STATE_QUEUED c) in *.
  apply wp_bind, (wp_upd_ccb r c1); [done|].
  assert (H4 := inv_ccb_benign r c1 (set_c_ordered true c1) H3 Hc3 eq_refl eq_refl eq_refl).
  set (s4 := with_ccbs _ s3) in *. destruct (inv_rq_exists d v3 H4 Hv3) as [q Hq].
  assert (Hu4 : unqueued r (sy_queues s4)).
  { destruct Hu1 as [U1 U2]. split; simpl; [by rewrite (f_cells _ _ F13)|]. pose proof (f_rq _ _ F13) as E. unfold s_rq in E. by rewrite E. }
  assert (Hc4 : s_ccbs s4 !! r = Some (set_c_ordered true c1)) by (unfold s_ccbs; simpl; by rewrite lookup_insert_eq).
  apply wp_bind, (wp_add_first r _ d q _ H4 Hq Hc4 eq_refl eq_refl Hu4). intros s5 H5.
  assert (Hq5 : s_rq s5 !! d = Some (r :: q)) by (unfold s_rq; simpl; by rewrite lookup_insert_eq).
  apply wp_bind, (wp_get_dev d v3); [done|]. apply wp_when. destruct (Z.eqb_spec (d_lock_count v3) 0) as [Hz|Hz].
  - apply wp_bind. eapply wp_mono; [exact (wp_add_device d (r :: q) true H5 Hq5 ltac:(done))|]. intros _ s6 (H6 & _ & Hin).
    assert (good s6) as G6 by (eapply good_of; [exact H6|set_solver|done]).
    destruct (list_elem_of_split _ _ Hin) as (w1 & w2 & Ew).
    assert (Hrot : rotate_to d (s_rw s6) [] = Some (d :: w2 ++ w1)).
    { pose proof (i_wnodup _ _ _ _ H6) as Hn. rewrite Ew in Hn |- *. apply (rotate_to_split d w1 w2 []).
      intros Hx. rewrite NoDup_app in Hn. set_solver. }
    eapply wp_upd_queues; [simpl; unfold s_rw in Hrot; by rewrite Hrot|].
    eapply (inv_rw ∅ (d :: w2 ++ w1) G6).
    + pose proof (i_wnodup _ _ _ _ H6) as Hn. rewrite Ew in Hn. change (NoDup ((d :: w2) ++ w1)).
      by rewrite Permutation_app_comm.
    + intros x Hx. apply (i_wait _ _ _ _ G6). rewrite Ew. set_solver.
    + intros x vx qx _ Hvx Hqx Hne Hzx. pose proof (i_ready _ _ _ _ G6 x vx qx ltac:(set_solver) Hvx Hqx Hne Hzx) as Hx.
      rewrite Ew in Hx. set_solver.
  - eapply good_of; [apply (inv_drop d H5)|set_solver|done]. intros v4 q4 Hv4 _ _ Hz4. change (s_devs s3 !! d = Some v4) in Hv4. by simplify_eq.
Qed.

Lemma wp_overflow s r n c :
  good s -> s_ccbs s !! r = Some c -> c_state c <> SCSI_STATE_FREE ->
  wp (scsi_device_queue_overflow r n) (fun _ s' => good s') s.
Proof.
  intros H Hc Hf. unfold scsi_device_queue_overflow. apply wp_bind, (wp_get_ccb r c); [done|]. cbv zeta.
  destruct (i_live _ _ _ _ H r c Hc Hf) as [v Hv]. apply wp_bind, (wp_get_dev _ v); [done|].
  apply wp_bind, (wp_upd_dev _ v); [done|]. set (v' := set_d_left_slots _ _).
  destruct (inv_lock ∅ (c_device c) v v' H Hv) as [H1 F1];
    [by destruct (i_devs _ _ _ _ H _ v Hv)|done|set_solver|done|].
  by apply (wp_requeue _ r false c).
Qed.

(** ** Requests that are done *)

(** The helpers leave alone what belongs to the queues. *)
Definition keeps (c c' : scsi_ccb) : Prop :=
  c_device c' = c_device c /\ c_state c' = c_state c /\ c_flags c' = c_flags c.

Record lawful (env : helpers) : Prop := {
  la_get : forall c, keeps c (snd (scsi_get_dma_buffer env c));
  la_release : forall c, keeps c (scsi_release_dma_buffer env c);
  la_start : forall c, keeps c (snd (scsi_start_emulation env c));
  la_finish : forall c, keeps c (scsi_finish_emulation env c)
}.

(** Changes of requests that the queues do not see. *)
Definition same_queues s s' : Prop :=
  s_devs s' = s_devs s /\
  (forall x, s_ccbs s !! x = None <-> s_ccbs s' !! x = None) /\
  (forall x c, s_ccbs s !! x = Some c -> exists c', s_ccbs s' !! x = Some c' /\ keeps c c').

Lemma same_queues_refl s : same_queues s s.
Proof. split_and!; [done|done|]. intros x c Hx. by exists c. Qed.

Lemma same_queues_trans s1 s2 s3 : same_queues s1 s2 -> same_queues s2 s3 -> same_queues s1 s3.
Proof.
  intros (A1 & A2 & A3) (B1 & B2 & B3). split_and!; [congruence|intros x; by rewrite A2|].
  intros x c Hx. destruct (A3 x c Hx) as (c1 & H1 & K1). destruct (B3 x c1 H1) as (c2 & H2 & K2).
  exists c2. split; [done|]. unfold keeps in *. intuition congruence.
Qed.

Lemma wp_benign X k s r c (f : scsi_ccb -> scsi_ccb) :
  inv N X k s -> s_ccbs s !! r = Some c -> keeps c (f c) ->
  wp (upd_ccb r f) (fun _ s' => inv N X k s' /\ same_queues s s' /\ s_ccbs s' !! r = Some (f c)) s.
Proof.
  intros H Hc (K1 & K2 & K3). apply (wp_upd_ccb r c); [done|]. split_and!.
  - by apply (inv_ccb_benign r c).
  - split_and!; [done| |]; unfold s_ccbs in *; simpl.
    + intros x. destruct (decide (r = x)) as [<-|]; [|by rewrite lookup_insert_ne].
      rewrite lookup_insert_eq. split; congruence.
    + intros x c1 Hx. destruct (decide (r = x)) as [<-|]; [|rewrite lookup_insert_ne by done; by exists c1].
      rewrite lookup_insert_eq. assert (c1 = c) as -> by congruence. by exists (f c).
  - unfold s_ccbs. simpl. by rewrite lookup_insert_eq.
Qed.

(** A helper that applies to requests of one kind. *)
Lemma wp_when_benign {A} X k s r c (p : scsi_ccb -> bool) (f : scsi_ccb -> scsi_ccb) (rest : op rqueues A) post :
  inv N X k s -> s_ccbs s !! r = Some c -> (forall c, keeps c (f c)) ->
  (forall s', inv N X k s' -> same_queues s s' -> wp rest post s') ->
  wp (c ← get_ccb r; when (p c) (upd_ccb r f) ;; rest) post s.
Proof.
  intros H Hc Hk Hr. apply wp_bind, (wp_get_ccb r c); [done|]. apply wp_bind, wp_when. destruct (p c).
  - eapply wp_mono; [exact (wp_benign X k s r c f H Hc (Hk c))|]. intros _ s' (? & ? & _). by apply Hr.
  - apply Hr; [done|apply same_queues_refl].
Qed.

Lemma wp_release_completion X k s r c :
  inv N X k s -> s_ccbs s !! r = Some c -> wp (release_completion r) (fun _ s' => inv N X k s') s.
Proof.
  intros H Hc. unfold release_completion. apply wp_bind, (wp_get_ccb r c); [done|]. apply wp_emit. by apply inv_event.
Qed.

Lemma wp_finish_autosense s d v ca co :
  good s -> s_devs s !! d = Some v -> s_ccbs s !! d_auto_sense_request v = Some ca ->
  s_ccbs s !! d_auto_sense_originator v = Some co ->
  wp (finish_autosense d) (fun _ s' => good s') s.
Proof.
  intros H Hv Ha Ho. unfold finish_autosense. apply wp_bind, (wp_get_dev d v); [done|]. cbv zeta.
  apply wp_bind, (wp_get_ccb _ ca); [done|]. apply wp_bind. destruct (_ =? _);
    (eapply wp_mono; [eapply (wp_benign ∅ 0 s); [exact H|exact Ho|done]|]; intros _ s' (H' & _ & Hc');
     eapply wp_release_completion; [exact H'|exact Hc']).
Qed.

(** What is true while a request finishes: besides the queues, only locks
    change, and the request an auto-sense request works for. *)
Record finishing (r : Z) (c : scsi_ccb) (v : scsi_device_info) (again : bool) s s' : Prop := {
  fi_ccb : exists c', s_ccbs s' !! r = Some c' /\ keeps (set_c_state SCSI_STATE_FINISHED c) c';
  fi_dom : forall x, is_Some (s_ccbs s !! x) -> is_Some (s_ccbs s' !! x);
  fi_dev : exists v', s_devs s' !! c_device c = Some v' /\
    d_auto_sense_request v' = d_auto_sense_request v /\ d_manual_autosense v' = d_manual_autosense v /\
    (again = false -> d_auto_sense_originator v' = d_auto_sense_originator v)
}.

Lemma finishing_frame r c v again s s' s'' :
  finishing r c v again s s' -> frame s' s'' -> finishing r c v again s s''.
Proof.
  intros [F1 F2 F3] F. split; rewrite ?(f_ccbs _ _ F); try done.
  destruct F3 as (v' & Hv' & A1 & A2 & A3). destruct (f_devs _ _ F _ _ Hv') as (v2 & Hv2 & [= E1 E2 E3]).
  exists v2. rewrite E1, E2, E3. done.
Qed.

(** The auto-sense request goes in front; it is idle. *)
Lemma wp_submit_autosense X k s r c v ca :
  inv N X k s -> s_ccbs s !! r = Some c -> c_state c = SCSI_STATE_FINISHED ->
  s_devs s !! c_device c = Some v -> d_manual_autosense v = true ->
  s_ccbs s !! d_auto_sense_request v = Some ca -> c_state ca = SCSI_STATE_FINISHED -> d_auto_sense_request v <> r ->
  wp (submit_autosense r) (fun _ s' => inv N X k s' /\ finishing r c v true s s') s.
Proof.
  intros H Hc Hs Hv Hm Hca Hsa Hne. unfold submit_autosense. apply wp_bind, (wp_get_ccb r c); [done|]. cbv zeta.
  apply wp_bind. eapply wp_mono; [eapply (wp_benign X k s r c); [exact H|exact Hc|done]|]. intros _ s1 (H1 & S1 & Hc1).
  apply wp_bind. eapply wp_mono; [eapply (wp_benign X k s1 r); [exact H1|exact Hc1|done]|]. intros _ s2 (H2 & S2 & Hc2).
  apply wp_bind. eapply wp_mono; [eapply (wp_benign X k s2 r); [exact H2|exact Hc2|done]|]. intros _ s3 (H3 & S3 & Hc3).
  pose proof (same_queues_trans _ _ _ (same_queues_trans _ _ _ S1 S2) S3) as (E & D & K).
  assert (Hv3 : s_devs s3 !! c_device c = Some v) by by rewrite E.
  apply wp_bind, (wp_upd_dev _ v); [done|]. set (v' := set_d_auto_sense_originator r v).
  pose proof (i_auto _ _ _ _ H3 _ v Hv3) as Ha. unfold autosense_ok in Ha. rewrite Hm in Ha.
  destruct Ha as (ca3 & Hca3 & Hda & Hfa & Hga & _).
  assert (Hs3 : c_state ca3 = SCSI_STATE_FINISHED).
  { destruct (K _ _ Hca) as (ca' & Hca' & _ & Ks & _). rewrite Hca3 in Hca'. injection Hca' as <-. congruence. }
  assert (H4 : inv N X k (with_devs (<[c_device c := v']>) s3)).
  { apply (inv_dev X (c_device c) v v' H3 Hv3); [by destruct (i_devs _ _ _ _ H3 _ v Hv3)| |set_solver|done].
    unfold autosense_ok. simpl. rewrite Hm. exists ca3. split_and!; done. }
  set (s4 := with_devs _ s3) in *.
  assert (Hv4 : s_devs s4 !! c_device c = Some v') by (unfold s_devs; simpl; by rewrite lookup_insert_eq).
  apply wp_bind, (wp_get_dev _ v'); [done|].
  assert (Hready : auto_ready s4 (d_auto_sense_request v')).
  { intros d1 v1 Hv1 Hm1 Hr1. pose proof (i_auto _ _ _ _ H4 d1 v1 Hv1) as Ha1. unfold autosense_ok in Ha1.
    rewrite Hm1, Hr1 in Ha1. destruct Ha1 as (ca1 & Hca1 & Hd1 & _). change (s_ccbs s4) with (s_ccbs s3) in Hca1.
    change (d_auto_sense_request v') with (d_auto_sense_request v) in Hca1. rewrite Hca3 in Hca1. injection Hca1 as <-.
    assert (d1 = c_device c) as -> by congruence. rewrite Hv4 in Hv1. injection Hv1 as <-.
    change (is_Some (s_ccbs s3 !! r)). by rewrite Hc3. }
  eapply wp_mono; [eapply (wp_add_queued_first (d_auto_sense_request v') ca3 v' H4); [exact Hca3|done|by rewrite Hs3|by rewrite Hda|exact Hready]|].
  intros _ s5 (H5 & Eq & Dq). split; [replace k with (k - is_sent ca3) by (unfold is_sent; rewrite Hs3; change (_ =? _) with false; simpl; lia); exact H5|].
  split.
  - rewrite Eq. change (d_auto_sense_request v') with (d_auto_sense_request v). rewrite lookup_insert_ne by done.
    change (s_ccbs s4) with (s_ccbs s3). eexists. split; [exact Hc3|]. by split_and!.
  - intros x Hx. rewrite Eq. change (s_ccbs s4) with (s_ccbs s3).
    destruct (decide (d_auto_sense_request v' = x)) as [<-|]; [by rewrite lookup_insert_eq|rewrite lookup_insert_ne by done].
    destruct (s_ccbs s3 !! x) eqn:Ex; [done|]. apply D in Ex. rewrite Ex in Hx. by destruct Hx.
  - destruct (Dq _ _ Hv4) as (v5 & Hv5 & [= E1 E2 E3]). exists v5. rewrite E1, E3. done.
Qed.

(** A request the SIM has leaves it. *)
Lemma inv_unsend X k s r c :
  inv N X k s -> s_ccbs s !! r = Some c -> c_state c = SCSI_STATE_SENT ->
  inv N X (k - 1) (with_ccbs (<[r := set_c_state SCSI_STATE_FINISHED c]>) s).
Proof.
  intros H Hc Hs. replace (k - 1) with (k - is_sent c + is_sent (set_c_state SCSI_STATE_FINISHED c))
    by (unfold is_sent; rewrite Hs; reflexivity || (simpl; change (_ =? _) with true; simpl; lia)).
  apply inv_ccb; [done|done|done|by rewrite Hs| |].
  - right. intros d q Hq Hin. destruct (i_queued _ _ _ _ H d q r Hq Hin) as (c1 & E & _ & E1). simplify_eq. by rewrite Hs in E1.
  - intros d v Hv Hm Hr. pose proof (i_auto _ _ _ _ H d v Hv) as Ha. unfold autosense_ok in Ha. rewrite Hm, Hr in Ha.
    destruct Ha as (c1 & E & _ & _ & A & _). simplify_eq. by split_and!.
Qed.

(** The locked part of [scsi_request_finished]. *)
Lemma wp_finish_queues s r c v :
  good s -> s_ccbs s !! r = Some c -> c_state c = SCSI_STATE_SENT -> s_devs s !! c_device c = Some v ->
  (needs_autosense c v = true -> exists ca, s_ccbs s !! d_auto_sense_request v = Some ca /\ c_state ca = SCSI_STATE_FINISHED) ->
  wp (upd_ccb r (set_c_state SCSI_STATE_FINISHED) ;;
      with_retry (
        d ← get_dev (c_device c);
        let do_autosense := needs_autosense c d in
        when do_autosense (submit_autosense r) ;;
        give_back_slots r (c_device c) ;;
        scsi_clear_device_overflow (c_device c) ;;
        scsi_clear_bus_overflow ;;
        queue_if_ready (c_device c) ;;
        mret do_autosense))
    (fun again s' => good s' /\ finishing r c v again s s' /\ again = needs_autosense c v) s.
Proof.
  intros H Hc Hs Hv Hidle. apply wp_bind, (wp_upd_ccb r c); [done|].
  pose proof (inv_unsend ∅ 0 s r c H Hc Hs) as H1. set (c1 := set_c_state SCSI_STATE_FINISHED c) in *.
  set (s1 := with_ccbs _ s) in *.
  assert (Hc1 : s_ccbs s1 !! r = Some c1) by (unfold s_ccbs; simpl; by rewrite lookup_insert_eq).
  assert (Hdom : forall x, is_Some (s_ccbs s !! x) -> is_Some (s_ccbs s1 !! x)).
  { intros x Hx. unfold s_ccbs. simpl. destruct (decide (r = x)) as [<-|]; [by rewrite lookup_insert_eq|by rewrite lookup_insert_ne]. }
  assert (F1 : forall again, finishing r c v again s s1).
  { intros again. split; [by exists c1; split|done|by exists v]. }
  apply wp_with_retry, wp_bind, (wp_get_dev _ v); [done|]. cbv zeta.
  (* from here on only locks change *)
  assert (Hrest : forall s2 again, inv N ∅ (0 - 1) s2 -> finishing r c v again s s2 -> again = needs_autosense c v ->
    wp (give_back_slots r (c_device c) ;; scsi_clear_device_overflow (c_device c) ;; scsi_clear_bus_overflow ;;
        queue_if_ready (c_device c) ;; mret again)
      (fun a s' => (good s' /\ finishing r c v a s s' /\ a = needs_autosense c v) /\
         (good (with_bus bump s') /\ finishing r c v a s (with_bus bump s') /\ a = needs_autosense c v)) s2).
  { intros s2 again H2 F2 Ea. destruct (fi_dev _ _ _ _ _ _ F2) as (v2 & Hv2 & _).
    destruct (fi_ccb _ _ _ _ _ _ F2) as (c2 & Hc2 & _).
    apply wp_bind. eapply wp_mono; [exact (wp_give_back r _ v2 c2 H2 Hv2 Hc2)|]. intros _ s3 [H3 G3].
    destruct (f_devs _ _ G3 _ _ Hv2) as (v3 & Hv3 & _).
    apply wp_bind. eapply wp_mono; [exact (wp_clear_device_overflow _ v3 H3 Hv3)|]. intros _ s4 [H4 G4].
    apply wp_bind. eapply wp_mono; [exact (wp_clear_bus_overflow H4)|]. intros _ s5 [H5 G5].
    destruct (f_devs _ _ G4 _ _ Hv3) as (v4 & Hv4 & _). destruct (f_devs _ _ G5 _ _ Hv4) as (v5 & Hv5 & _).
    apply wp_bind. eapply wp_mono; [exact (wp_queue_if_ready _ v5 H5 Hv5)|]. intros _ s6 [H6 G6].
    apply wp_ret. assert (good s6) as G by (eapply good_of; [exact H6|set_solver|lia]).
    assert (finishing r c v again s s6) as F6.
    { eapply finishing_frame; [exact F2|]. do 3 (etrans; [eassumption|]). done. }
    split; (split; [|split; [|done]]); [done|done|by apply good_bump|].
    eapply finishing_frame; [exact F6|]. apply frame_bus. }
  apply wp_bind, wp_when. destruct (needs_autosense c v) eqn:En.
  - destruct (Hidle eq_refl) as (ca & Hca & Hsa).
    assert (Hne : d_auto_sense_request v <> r) by (intros E; rewrite E, Hc in Hca; injection Hca as <-; by rewrite Hs in Hsa).
    assert (Hm : d_manual_autosense v = true) by (unfold needs_autosense in En; by destruct (d_manual_autosense v)).
    eapply wp_mono; [eapply (wp_submit_autosense ∅ (0 - 1) s1 r c1 v ca H1 Hc1 eq_refl Hv Hm)|].
    + unfold s1, s_ccbs. simpl. by rewrite lookup_insert_ne.
    + done.
    + done.
    + intros _ s2 [H2 [A1 A2 A3]]. apply Hrest; [done| |done]. split; [done|intros x Hx; by apply A2, Hdom|done].
  - by apply Hrest.
Qed.

Lemma wp_finished env s r n c :
  lawful env -> good s -> s_ccbs s !! r = Some c ->
  (forall v, c_state c = SCSI_STATE_SENT -> s_devs s !! c_device c = Some v -> needs_autosense c v = true ->
     exists ca, s_ccbs s !! d_auto_sense_request v = Some ca /\ c_state ca = SCSI_STATE_FINISHED) ->
  wp (scsi_request_finished env r n) (fun _ s' => good s') s.
Proof.
  intros Henv H Hc Hidle. unfold scsi_request_finished. apply wp_bind, (wp_get_ccb r c); [done|]. cbv zeta.
  destruct (Z.eqb_spec (c_state c) SCSI_STATE_SENT) as [Hs|Hs]; cbn [negb]; [|by apply wp_panic_good].
  destruct (_ =? SCSI_REQ_INPROG); [by apply wp_panic_good|].
  destruct (_ && _); [by apply (wp_overflow s r n c); [..|rewrite Hs]|].
  destruct (i_live _ _ _ _ H r c Hc) as [v Hv]; [by rewrite Hs|].
  pose proof (wp_finish_queues s r c v H Hc Hs Hv (fun E => Hidle v Hs Hv E)) as Hq. cbv zeta in Hq.
  apply wp_assoc. eapply wp_mono; [exact Hq|]. intros again s1 (H1 & F1 & Ea).
  destruct (fi_ccb _ _ _ _ _ _ F1) as (c1 & Hc1 & K1 & _). simpl in K1.
  destruct (fi_dev _ _ _ _ _ _ F1) as (v1 & Hv1 & A1 & A2 & A3).
  apply (wp_when_benign ∅ 0 s1 r c1 _ _ _ _ H1 Hc1 (la_finish _ Henv)). intros s2 H2 S2.
  destruct (proj2 (proj2 S2) r c1 Hc1) as (c2 & Hc2 & _).
  apply (wp_when_benign ∅ 0 s2 r c2 _ _ _ _ H2 Hc2 (la_release _ Henv)). intros s3 H3 S3.
  pose proof (same_queues_trans _ _ _ S2 S3) as (E & D & K).
  assert (Hv3 : s_devs s3 !! c_device c = Some v1) by by rewrite E.
  destruct (K r c1 Hc1) as (c3 & Hc3 & _). apply wp_bind, (wp_get_dev _ v1); [done|].
  destruct (Z.eqb_spec r (d_auto_sense_request v1)) as [Er|Er].
  - (* an auto-sense request has no auto-sense of its own *)
    pose proof (i_auto _ _ _ _ H _ v Hv) as Ha. unfold autosense_ok in Ha. rewrite A1 in Er.
    destruct (d_manual_autosense v) eqn:Em.
    + destruct Ha as (ca & Hca & _ & _ & Hg & Ho). rewrite <-Er, Hc in Hca. injection Hca as <-.
      assert (again = false) as Hag by (rewrite Ea; unfold needs_autosense; by rewrite Em, Hg).
      destruct (Ho ltac:(by rewrite Hs)) as [co Hco].
      assert (is_Some (s_ccbs s3 !! d_auto_sense_originator v1)) as [co3 Hco3].
      { rewrite (A3 Hag). destruct (fi_dom _ _ _ _ _ _ F1 _ (mk_is_Some _ _ Hco)) as [co1 Hco1].
        destruct (K _ _ Hco1) as (co3 & -> & _). done. }
      eapply (wp_finish_autosense s3 _ v1 c3 co3); try done. by rewrite A1, <-Er.
    + exfalso. apply (i_null _ _ _ _ H), (i_cells _ _ _ _ H). rewrite <-Ha, <-Er, Hc. done.
  - apply wp_when. destruct (negb again); [|done]. by eapply wp_release_completion.
Qed.

(** ** Requests of the drivers *)

Definition drivers_own s r : Prop :=
  forall d v, s_devs s !! d = Some v -> d_manual_autosense v = true -> d_auto_sense_request v <> r.

Lemma wp_refuse X k s r c status :
  inv N X k s -> s_ccbs s !! r = Some c -> wp (refuse_request r status) (fun _ s' => inv N X k s') s.
Proof.
  intros H Hc. unfold refuse_request. apply wp_bind.
  eapply wp_mono; [eapply (wp_benign X k s r c); [exact H|exact Hc|done]|]. intros _ s' (H' & _ & Hc').
  by eapply wp_release_completion.
Qed.

Lemma wp_apply_helper X k s r c f :
  inv N X k s -> s_ccbs s !! r = Some c -> (forall c, keeps c (snd (f c))) ->
  wp (apply_helper r f) (fun _ s' => inv N X k s' /\ same_queues s s') s.
Proof.
  intros H Hc Hk. unfold apply_helper. apply wp_bind, (wp_get_ccb r c); [done|]. specialize (Hk c).
  destruct (f c) as [ok c'] eqn:E. simpl in Hk. apply wp_bind.
  eapply wp_mono; [exact (wp_benign X k s r c (fun _ => c') H Hc Hk)|]. intros _ s' (? & ? & _). by apply wp_ret.
Qed.

Lemma wp_dma_safe env X k s r c :
  lawful env -> inv N X k s -> s_ccbs s !! r = Some c ->
  wp (make_dma_safe env r) (fun _ s' => inv N X k s' /\ same_queues s s') s.
Proof.
  intros He H Hc. unfold make_dma_safe. apply wp_bind, (wp_get_ccb r c); [done|].
  destruct (_ && _); [|apply wp_ret; split; [done|apply same_queues_refl]].
  apply wp_bind. eapply wp_mono; [eapply (wp_benign X k s r c); [exact H|exact Hc|done]|]. intros _ s1 (H1 & S1 & Hc1).
  eapply wp_mono; [exact (wp_apply_helper X k s1 r _ _ H1 Hc1 (la_get _ He))|]. intros _ s2 [H2 S2].
  split; [done|by eapply same_queues_trans].
Qed.

Lemma wp_emulate env X k s r c d v :
  lawful env -> inv N X k s -> s_ccbs s !! r = Some c -> s_devs s !! d = Some v ->
  wp (emulate_if_needed env r d) (fun _ s' => inv N X k s' /\ same_queues s s') s.
Proof.
  intros He H Hc Hv. unfold emulate_if_needed. apply wp_bind, (wp_get_ccb r c); [done|].
  apply wp_bind, (wp_get_dev d v); [done|].
  destruct (emulated_command c v); [|apply wp_ret; split; [done|apply same_queues_refl]].
  apply wp_bind. eapply wp_mono; [eapply (wp_benign X k s r c); [exact H|exact Hc|done]|]. intros _ s1 (H1 & S1 & Hc1).
  eapply wp_mono; [exact (wp_apply_helper X k s1 r _ _ H1 Hc1 (la_start _ He))|]. intros _ s2 [H2 S2].
  split; [done|by eapply same_queues_trans].
Qed.

(** A request goes to the SIM. *)
Lemma wp_send k s r c :
  inv N ∅ k s -> s_ccbs s !! r = Some c -> c_state c <> SCSI_STATE_FREE -> c_state c <> SCSI_STATE_SENT ->
  (forall d q, s_rq s !! d = Some q -> r ∉ q) -> auto_ready s r -> k = -1 ->
  wp (send_request r) (fun _ s' => good s') s.
Proof.
  intros H Hc Hf Hs Hq Ha ->. unfold send_request. apply wp_bind, (wp_upd_ccb r c); [done|]. apply wp_emit.
  apply inv_event. replace 0 with (-1 - is_sent c + is_sent (set_c_state SCSI_STATE_SENT c)).
  - apply inv_ccb; [done|done|done|done|by right|]. intros d v Hv Hm Hr.
    pose proof (i_auto _ _ _ _ H d v Hv) as Hao. unfold autosense_ok in Hao. rewrite Hm, Hr in Hao.
    destruct Hao as (c1 & E & _ & _ & A & _). simplify_eq. split_and!; [done|done|]. intros _. by eapply Ha.
  - unfold is_sent. destruct (Z.eqb_spec (c_state c) SCSI_STATE_SENT); [done|]. reflexivity.
Qed.

Lemma wp_check_enqueue s r c v :
  good s -> s_ccbs s !! r = Some c -> c_state c = SCSI_STATE_FINISHED -> s_devs s !! c_device c = Some v ->
  drivers_own s r ->
  wp (execute ← scsi_check_enqueue_request r; when execute (send_request r)) (fun _ s' => good s') s.
Proof.
  intros H Hc Hs Hv Ho. apply wp_bind. unfold scsi_check_enqueue_request.
  apply wp_bind, (wp_get_ccb r c); [done|]. cbv zeta. apply wp_bind, (wp_get_dev _ v); [done|].
  apply wp_bind, wp_get_bus, wp_bind. destruct (inv_rq_exists _ v H Hv) as [q Hq].
  assert (Ha : auto_ready s r) by (intros d1 v1 Hv1 Hm1 Hr1; by destruct (Ho d1 v1 Hv1 Hm1)).
  eapply wp_mono; [exact (wp_has_requests _ q H Hq)|]. intros some s' [-> ->].
  apply wp_bind. eapply wp_queues; [done|].
  destruct (_ || _) eqn:E.
  - apply wp_bind. eapply wp_mono; [eapply (wp_add_queued r c v H Hc); rewrite ?Hs; done|].
    intros _ s1 [H1 _]. apply wp_ret, wp_when.
    replace (0 - is_sent c) with 0 in H1 by (unfold is_sent; by rewrite Hs). exact H1.
  - apply orb_false_elim in E as [[[E1 E2]%orb_false_elim E3]%orb_false_elim E4].
    assert (Hl : b_lock_count (s_bus s) = 0).
    { destruct (i_bus _ _ _ _ H) as [B1 B2 B3 B4]. destruct (b_sim_overflow _), (b_left_slots _ =? 0); simpl in *; lia. }
    apply wp_bind. eapply wp_mono; [exact (wp_take r _ v c H Hl Hv Hc)|]. intros _ s1 [H1 F1].
    apply wp_ret, wp_when. pose proof (frame_ccb _ _ _ F1 Hc) as Hc1.
    destruct (not_queued r c H Hc) as [_ Hn]; [by rewrite Hs|].
    eapply (wp_send _ s1 r c H1 Hc1); [by rewrite Hs|by rewrite Hs| | |done].
    + intros d q1. rewrite (f_rq _ _ F1). intros Hq1. by apply (Hn d q1 Hq1).
    + intros d1 v1 Hv1 Hm1 Hr1. exfalso. pose proof (proj1 (i_dom _ _ _ _ H1 d1) (mk_is_Some _ _ Hv1)) as Hd.
      rewrite (f_rq _ _ F1) in Hd. apply (i_dom _ _ _ _ H) in Hd as [v0 Hv0].
      destruct (f_devs _ _ F1 _ _ Hv0) as (v2 & Hv2 & [= E1' E2' E3']). simplify_eq.
      apply (Ho d1 v0 Hv0); congruence.
Qed.

Lemma drivers_own_same s s' r : same_queues s s' -> drivers_own s r -> drivers_own s' r.
Proof. intros (E & _) H. unfold drivers_own. by rewrite E. Qed.

Lemma wp_async env s r c :
  lawful env -> good s -> s_ccbs s !! r = Some c -> c_state c = SCSI_STATE_FINISHED -> drivers_own s r ->
  wp (scsi_async_io env r) (fun _ s' => good s') s.
Proof.
  intros He H Hc Hs Ho. unfold scsi_async_io. apply wp_bind, (wp_get_ccb r c); [done|]. cbv zeta.
  rewrite Hs, Z.eqb_refl. apply wp_bind, wp_when. cbn [negb].
  destruct (_ <? _); [by eapply wp_refuse|].
  destruct (i_live _ _ _ _ H r c Hc) as [v Hv]; [by rewrite Hs|]. apply wp_bind, (wp_get_dev _ v); [done|].
  destruct (negb (d_valid v)); [by eapply wp_refuse|]. destruct (_ && _); [by eapply wp_refuse|].
  apply wp_bind. eapply wp_mono; [eapply (wp_benign ∅ 0 s r c); [exact H|exact Hc|done]|]. intros _ s1 (H1 & S1 & Hc1).
  apply wp_bind. eapply wp_mono; [exact (wp_dma_safe env ∅ 0 s1 r _ He H1 Hc1)|]. intros safe s2 [H2 S2].
  pose proof (same_queues_trans _ _ _ S1 S2) as S12. destruct (proj2 (proj2 S12) r c Hc) as (c2 & Hc2 & K2).
  destruct (negb safe); [by eapply wp_refuse|].
  assert (Hv2 : s_devs s2 !! c_device c = Some v) by (destruct S12 as [-> _]; done).
  apply wp_bind. eapply wp_mono; [exact (wp_emulate env ∅ 0 s2 r c2 _ v He H2 Hc2 Hv2)|]. intros em s3 [H3 S3].
  pose proof (same_queues_trans _ _ _ S12 S3) as S13. destruct (proj2 (proj2 S13) r c Hc) as (c3 & Hc3 & K3).
  destruct (negb em).
  - eapply (wp_when_benign ∅ 0 s3 r c3 _ _ _ _ H3 Hc3 (la_release _ He)). intros s4 H4 S4.
    destruct (proj2 (proj2 S4) r c3 Hc3) as (c4 & Hc4 & _). by eapply wp_release_completion.
  - apply wp_bind. eapply wp_mono; [eapply (wp_benign ∅ 0 s3 r c3); [exact H3|exact Hc3|done]|]. intros _ s4 (H4 & S4 & Hc4).
    apply wp_bind. eapply wp_mono; [eapply (wp_benign ∅ 0 s4 r); [exact H4|exact Hc4|done]|]. intros _ s5 (H5 & S5 & Hc5).
    apply wp_bind. eapply wp_mono; [eapply (wp_benign ∅ 0 s5 r); [exact H5|exact Hc5|done]|]. intros _ s6 (H6 & S6 & Hc6).
    pose proof (same_queues_trans _ _ _ S13 (same_queues_trans _ _ _ S4 (same_queues_trans _ _ _ S5 S6))) as S.
    assert (Hv6 : s_devs s6 !! c_device c = Some v) by (destruct S as [-> _]; done).
    destruct K3 as (K3d & K3s & _).
    eapply (wp_check_enqueue s6 r _ v H6 Hc6); simpl; rewrite ?K3d, ?K3s; try done.
    by eapply drivers_own_same.
Qed.

(** Taking a request out of its queue, and the device out of that of the bus
    when it was the last. *)
Lemma wp_remove_queued X k s r c d q :
  inv N X k s -> s_ccbs s !! r = Some c -> c_device c = d -> s_rq s !! d = Some q -> r ∈ q ->
  wp (scsi_remove_queued_request r) (fun _ s' => inv N X k s' /\ sy_core s' = sy_core s /\
    s_rq s' = <[d := without r q]> (s_rq s)) s.
Proof.
  intros H Hc Hd Hq Hin. unfold scsi_remove_queued_request. apply wp_bind, (wp_get_ccb r c); [done|]. cbv zeta.
  rewrite Hd. apply wp_bind. eapply wp_upd_queues.
  { simpl. unfold spec_remove. unfold s_rq in Hq. rewrite Hq. simpl. by rewrite decide_True. }
  set (q' := without r q). set (s1 := Sys _ _). apply wp_bind.
  assert (Hq1 : s_rq s1 !! d = Some q') by (unfold s_rq; simpl; by rewrite lookup_insert_eq).
  assert (Hsub : forall x, x ∈ q' -> x ∈ q) by (intros x [_ ?]%without_elem; done).
  assert (Hn : NoDup q') by (apply NoDup_filter, (i_nodup _ _ _ _ H _ _ Hq)).
  unfold has_requests. apply wp_bind. apply (wp_queues _ (hd NULL q')).
  { simpl. by rewrite lookup_insert_eq. }
  apply wp_ret, wp_when. destruct q' as [|y q2] eqn:Eq.
  - cbn [hd negb Z.eqb NULL]. eapply wp_upd_queues; [simpl; unfold known; simpl; by rewrite lookup_insert_eq|].
    split; [|split; [done|by unfold s1, s_rq; simpl; rewrite <-Eq]].
    change (Sys _ _) with (with_queues (set_rq d [] (sy_queues (with_queues (set_rw (without d (s_rw s)) (sy_queues s)) s)))
      (with_queues (set_rw (without d (s_rw s)) (sy_queues s)) s)).
    assert (H1 : inv N ({[d]} ∪ X) k (with_queues (set_rw (without d (s_rw s)) (sy_queues s)) s)).
    { apply (inv_rw ({[d]} ∪ X) (without d (s_rw s)) H).
      - apply NoDup_filter, (i_wnodup _ _ _ _ H).
      - intros x [_ Hx]%without_elem. by apply (i_wait _ _ _ _ H).
      - intros x v1 q1 HX Hv1 Hq1' Hne Hz. apply without_elem. split; [set_solver|].
        eapply (i_ready _ _ _ _ H); eauto. set_solver. }
    eapply (inv_rq X d q [] H1); [done|constructor|set_solver|set_solver| |done].
    intros [? _]%without_elem. done.
  - assert (Hy : (y =? NULL) = false).
    { apply Z.eqb_neq. intros ->. destruct (i_queued _ _ _ _ H d q NULL Hq) as (c1 & E & _); [apply Hsub; set_solver|].
      apply (i_null _ _ _ _ H), (i_cells _ _ _ _ H). by rewrite E. }
    simpl. rewrite Hy. split; [|done].
    eapply (inv_rq X d q (y :: q2) H Hq); [done|set_solver| |done|].
    + intros x Hx. apply (i_queued _ _ _ _ H d q x Hq). by apply Hsub.
    + intros HX _. split; [done|]. by intros ->; set_solver.
Qed.

Lemma wp_abort env s r c :
  lawful env -> good s -> s_ccbs s !! r = Some c ->
  (c_state c = SCSI_STATE_QUEUED -> exists q, s_rq s !! c_device c = Some q /\ r ∈ q) ->
  wp (scsi_abort env r) (fun _ s' => good s') s.
Proof.
  intros He H Hc Hq. unfold scsi_abort. apply wp_bind, (wp_get_ccb r c); [done|].
  destruct (_ =? NULL); [by apply wp_ret|].
  destruct (Z.eqb_spec (c_state c) SCSI_STATE_QUEUED) as [Hs|Hs]; [|by apply wp_ret].
  destruct (Hq Hs) as (q & Hq1 & Hin).
  apply wp_bind, (wp_mono _ (fun _ s' => good s')); [apply wp_retry_then|intros a s' Hg; by apply wp_ret].
  eapply wp_mono; [exact (wp_remove_queued ∅ 0 s r c _ q H Hc eq_refl Hq1 Hin)|]. intros _ s1 (H1 & E1 & _).
  assert (Hc1 : s_ccbs s1 !! r = Some c) by (unfold s_ccbs; rewrite E1; exact Hc).
  apply wp_bind. eapply wp_mono; [eapply (wp_benign ∅ 0 s1 r c); [exact H1|exact Hc1|done]|]. intros _ s2 (H2 & _ & Hc2).
  eapply (wp_when_benign ∅ 0 s2 r _ _ _ _ _ H2 Hc2 (la_finish _ He)). intros s3 H3 S3.
  destruct (proj2 (proj2 S3) r _ Hc2) as (c3 & Hc3 & _).
  eapply (wp_when_benign ∅ 0 s3 r c3 _ _ _ _ H3 Hc3 (la_release _ He)). intros s4 H4 S4.
  destruct (proj2 (proj2 S4) r c3 Hc3) as (c4 & Hc4 & _). by eapply wp_release_completion.
Qed.

(** Whether there is something to do for the service thread. *)
Definition servicable s : bool := (b_lock_count (s_bus s) =? 0) && negb (hd NULL (s_rw s) =? NULL).

(** The first request of the first device that waits goes to the SIM; the
    device goes to the end of the queue. *)
Lemma wp_exec_service s :
  good s ->
  wp scsi_check_exec_service (fun b s' => good s' /\ b = servicable s /\ (b = false -> s' = s)) s.
Proof.
  intros H. unfold scsi_check_exec_service, scsi_can_service_bus. apply wp_bind, wp_bind, wp_get_bus, wp_bind.
  eapply wp_queues; [done|]. apply wp_ret. change (waiting_devices (sy_queues s)) with (hd NULL (s_rw s)).
  fold (servicable s). destruct (servicable s) eqn:Es; [|by apply wp_ret].
  apply andb_prop in Es as [El Ew]. apply Z.eqb_eq in El.
  destruct (s_rw s) as [|d w] eqn:Erw; [done|]. unfold s_rw in Erw.
  assert (Hdw : d ∈ s_rw s) by (unfold s_rw; rewrite Erw; set_solver).
  destruct (i_wait _ _ _ _ H d Hdw) as (q & Hq & Hne). destruct (inv_dev_exists d q H Hq) as [v Hv].
  apply wp_bind. eapply wp_queues; [done|]. simpl waiting_devices. rewrite Erw. simpl hd.
  apply wp_bind. apply (wp_queues _ (hd d w)).
  { simpl. unfold spec_waiting_next. by rewrite Erw, Z.eqb_refl. }
  set (w' := w ++ [d]).
  assert (Hrot : rotate_to (hd d w) (d :: w) [] = Some w').
  { destruct w as [|y w]; simpl; [by rewrite Z.eqb_refl|]. pose proof (i_wnodup _ _ _ _ H) as Hn. unfold s_rw in Hn.
    rewrite Erw in Hn. apply NoDup_cons in Hn as [Hd _]. rewrite (proj2 (Z.eqb_neq d y)) by set_solver.
    by rewrite Z.eqb_refl. }
  apply wp_bind. eapply wp_upd_queues; [simpl; rewrite Erw, Hrot; done|].
  change (Sys _ _) with (with_queues (set_rw w' (sy_queues s)) s).
  assert (Hw' : forall x, x ∈ w' <-> x ∈ s_rw s) by (intros x; unfold s_rw; rewrite Erw; set_solver).
  assert (H1 : inv N ∅ 0 (with_queues (set_rw w' (sy_queues s)) s)).
  { apply (inv_rw ∅ w' H).
    - pose proof (i_wnodup _ _ _ _ H) as Hn. unfold s_rw in Hn. rewrite Erw in Hn. unfold w'.
      by rewrite (Permutation_app_comm w [d]).
    - intros x Hx%Hw'. by apply (i_wait _ _ _ _ H).
    - intros x v1 q1 _ Hv1 Hq1 Hne1 Hz. apply Hw'. by apply (i_ready _ _ _ _ H x v1 q1). }
  set (s1 := with_queues _ s) in *. destruct q as [|r q]; [done|].
  destruct (i_queued _ _ _ _ H d (r :: q) r Hq) as (c & Hc & Hcd & Hcs); [set_solver|].
  apply wp_bind. apply (wp_queues _ r).
  { simpl. unfold s_rq in Hq. by rewrite Hq. }
  apply wp_bind. eapply wp_mono; [exact (wp_remove_queued ∅ 0 s1 r c d (r :: q) H1 Hc Hcd Hq ltac:(set_solver))|].
  intros _ s2 (H2 & E2 & Q2).
  assert (Hc2 : s_ccbs s2 !! r = Some c) by (unfold s_ccbs; rewrite E2; exact Hc).
  assert (Hv2 : s_devs s2 !! d = Some v) by (unfold s_devs; rewrite E2; exact Hv).
  assert (Hl2 : b_lock_count (s_bus s2) = 0) by (unfold s_bus; rewrite E2; exact El).
  apply wp_bind. eapply wp_mono; [exact (wp_take r d v c H2 Hl2 Hv2 Hc2)|]. intros _ s3 [H3 F3].
  pose proof (frame_ccb _ _ _ F3 Hc2) as Hc3. apply wp_bind.
  eapply wp_mono; [eapply (wp_send _ s3 r c H3 Hc3); [by rewrite Hcs|by rewrite Hcs| | |done]|].
  - intros d1 q1. rewrite (f_rq _ _ F3), Q2. destruct (decide (d = d1)) as [<-|Hd1].
    + rewrite lookup_insert_eq. intros [= <-] [? _]%without_elem. done.
    + rewrite lookup_insert_ne by done. intros Hq1 Hin1.
      destruct (i_queued _ _ _ _ H1 d1 q1 r Hq1 Hin1) as (c1 & E & Ed & _).
      change (s_ccbs s1) with (s_ccbs s) in E. congruence.
  - eapply auto_ready_busy; [exact H3|exact Hc3|by rewrite Hcs].
  - intros u s4 H4. by apply wp_ret.
Qed.
End Ops.
