(* ===== verification/ScsiLife.v ===== *)
(** The life of requests and devices keeps the invariant of the queues
    (ccb.c, devices.c). *)
From stdpp Require Import base gmap list.
From Stdlib Require Import ZArith Lia.
From S2P Require Import Prelude Errors ScsiRing Scsi ScsiSpec ScsiRefine ScsiQueue ScsiIo ScsiDevice ScsiInv ScsiWp ScsiOps.

Implicit Types s : sys rqueues.

Section Life.
Variable N : Z.
Notation good := (good N).

(** Two updates of one structure are one. *)
Lemma with_ccbs_twice r c c' s : with_ccbs (<[r := c']>) (with_ccbs (<[r := c]>) s) = with_ccbs (<[r := c']>) s.
Proof. unfold with_ccbs, s_ccbs. simpl. by rewrite insert_insert_eq. Qed.
Lemma with_devs_twice d v v' s : with_devs (<[d := v']>) (with_devs (<[d := v]>) s) = with_devs (<[d := v']>) s.
Proof. unfold with_devs, s_devs. simpl. by rewrite insert_insert_eq. Qed.

Lemma ccbs_with r c s : s_ccbs (with_ccbs (<[r := c]>) s) !! r = Some c.
Proof. unfold s_ccbs. simpl. by rewrite lookup_insert_eq. Qed.
Lemma devs_with d v s : s_devs (with_devs (<[d := v]>) s) !! d = Some v.
Proof. unfold s_devs. simpl. by rewrite lookup_insert_eq. Qed.

(** ** Requests *)

(** A fresh request of the pool. *)
Lemma inv_new_ccb X k s r c :
  inv N X k s -> s_ccbs s !! r = None -> r <> NULL -> c_state c = SCSI_STATE_FREE ->
  inv N X k (with_ccbs (<[r := c]>) (with_queues (Rqueues (rq (sy_queues s)) (rw (sy_queues s)) ({[r]} ∪ cells (sy_queues s))) s)).
Proof.
  intros H Hr Hn Hs. destruct H as [I1 I2 I3 I4 I5 I6 I7 I8 I9 I10 I11 I12 I13].
  assert (Hsome : forall x, is_Some (s_ccbs s !! x) -> r <> x) by (intros x [c' Hx] ->; congruence).
  split; auto; unfold s_ccbs, s_rq in *; simpl in *.
  - split; [|apply I1]. rewrite elem_of_union, elem_of_singleton. intros [?|?]; [done|by apply I1].
  - intros x. rewrite elem_of_union, elem_of_singleton, <-I3. destruct (decide (r = x)) as [<-|].
    + rewrite lookup_insert_eq. split; [by left|done].
    + rewrite lookup_insert_ne by done. split; [by right|intros [?|?]; [by subst|done]].
  - intros d q x Hq Hx. destruct (I4 d q x Hq Hx) as (c' & E & ?). exists c'. rewrite lookup_insert_ne; [done|].
    apply Hsome. by rewrite E.
  - intros x c'. destruct (decide (r = x)) as [<-|]; [rewrite lookup_insert_eq; intros [= <-] ?; done|].
    rewrite lookup_insert_ne by done. apply I5.
  - intros d v Hv. specialize (I11 d v Hv). unfold autosense_ok in *. destruct (d_manual_autosense v); [|done].
    destruct I11 as (ca & E & A1 & A2 & A3 & A4). exists ca. rewrite lookup_insert_ne by (apply Hsome; by rewrite E).
    split_and!; try done. intros Hf. destruct (A4 Hf) as [co Eo]. rewrite lookup_insert_ne; [by exists co|].
    apply Hsome. by rewrite Eo.
  - unfold sent. rewrite map_fold_insert_L; [|intros; lia|done].
    replace (is_sent c) with 0 by (unfold is_sent; by rewrite Hs). exact I13.
Qed.

(** A free request is given to a device. *)
Lemma inv_alloc_ccb X k s r c c' :
  inv N X k s -> s_ccbs s !! r = Some c -> c_state c = SCSI_STATE_FREE -> c_state c' = SCSI_STATE_FINISHED ->
  is_Some (s_devs s !! c_device c') ->
  inv N X k (with_ccbs (<[r := c']>) s).
Proof.
  intros H Hr Hs Hs' Hd.
  assert (Hauto : forall d v, s_devs s !! d = Some v -> d_manual_autosense v = true -> d_auto_sense_request v <> r).
  { intros d v Hv Hm E. pose proof (i_auto _ _ _ _ H d v Hv) as Ha. unfold autosense_ok in Ha. rewrite Hm, E in Ha.
    destruct Ha as (ca & Ea & _ & Hf & _). simplify_eq. }
  pose proof (sent_insert (s_ccbs s) r c c' Hr) as Hsent.
  replace (is_sent c) with 0 in Hsent by (unfold is_sent; by rewrite Hs).
  replace (is_sent c') with 0 in Hsent by (unfold is_sent; by rewrite Hs').
  destruct H as [I1 I2 I3 I4 I5 I6 I7 I8 I9 I10 I11 I12 I13].
  split; auto; unfold s_ccbs in *; simpl in *.
  - intros x. rewrite <-I3. destruct (decide (r = x)) as [<-|]; [|by rewrite lookup_insert_ne].
    by rewrite lookup_insert_eq, Hr.
  - intros d q x Hq Hx. destruct (I4 d q x Hq Hx) as (c1 & E & E1 & E2). exists c1. rewrite lookup_insert_ne; [done|].
    intros ->. rewrite Hr in E. injection E as <-. by rewrite Hs in E2.
  - intros x c1. destruct (decide (r = x)) as [<-|]; [rewrite lookup_insert_eq; by intros [= <-] _|].
    rewrite lookup_insert_ne by done. apply I5.
  - intros d v Hv. specialize (I11 d v Hv). unfold autosense_ok in *. destruct (d_manual_autosense v) eqn:Em; [|done].
    destruct I11 as (ca & E & A1 & A2 & A3 & A4). exists ca. rewrite lookup_insert_ne by (intros Hx; by apply (Hauto d v Hv Em)).
    split_and!; try done. intros Hf. destruct (A4 Hf) as [co Eo].
    destruct (decide (r = d_auto_sense_originator v)) as [<-|]; [by rewrite lookup_insert_eq|rewrite lookup_insert_ne by done; by exists co].
  - change (b_left_slots (s_bus s) + sent (<[r := c']> (ccbs (sy_core s))) = N + k). lia.
Qed.

Lemma wp_low_alloc s r bytes sem :
  good s -> s_ccbs s !! r = None -> r <> NULL ->
  wp (ccb_low_alloc_hook r bytes sem) (fun _ s' => good s') s.
Proof.
  intros H Hr Hn. unfold ccb_low_alloc_hook. destruct (_ <? _); [by apply wp_ret|].
  apply wp_bind. eapply wp_upd_queues.
  { simpl. unfold spec_new_request. rewrite decide_True; [done|]. split; [done|]. rewrite <-(i_cells _ _ _ _ H), Hr. by intros []. }
  apply wp_bind, wp_modify, wp_ret. by apply (inv_new_ccb ∅ 0 s r).
Qed.

(** What [scsi_alloc_ccb] makes of the block. *)
Definition alloc_of (device : Z) (v : scsi_device_info) (c : scsi_ccb) : scsi_ccb :=
  set_c_sort (-1) (set_c_sg_list NULL (set_c_target_lun (d_target_lun v)
    (set_c_device device (set_c_state SCSI_STATE_FINISHED c)))).

Lemma wp_alloc_exact s d r c v post :
  s_ccbs s !! r = Some c -> s_devs s !! d = Some v ->
  post r (with_ccbs (<[r := alloc_of d v c]>) s) -> wp (scsi_alloc_ccb d r) post s.
Proof.
  intros Hc Hv Hp. unfold scsi_alloc_ccb.
  do 2 (apply wp_bind; eapply wp_upd_ccb; [first [exact Hc|apply ccbs_with]|]).
  apply wp_bind, (wp_get_dev d v); [done|].
  do 3 (apply wp_bind; eapply wp_upd_ccb; [apply ccbs_with|]). apply wp_ret. by rewrite !with_ccbs_twice.
Qed.

Lemma wp_alloc s d r c v :
  good s -> s_ccbs s !! r = Some c -> c_state c = SCSI_STATE_FREE -> s_devs s !! d = Some v ->
  wp (scsi_alloc_ccb d r) (fun _ s' => good s') s.
Proof.
  intros H Hc Hs Hv. eapply wp_alloc_exact; [done|done|]. by apply (inv_alloc_ccb ∅ 0 s r c).
Qed.

(** A request that is neither queued nor sent goes back to the pool. *)
Lemma wp_free_ccb s r c :
  good s -> s_ccbs s !! r = Some c -> c_state c <> SCSI_STATE_SENT -> (forall d q, s_rq s !! d = Some q -> r ∉ q) ->
  drivers_own s r -> wp (scsi_free_ccb r) (fun _ s' => good s') s.
Proof.
  intros H Hc Hs Hq Ho. unfold scsi_free_ccb. apply wp_bind, (wp_get_ccb r c); [done|].
  assert (Hf : forall s', inv N ∅ 0 s' -> s_ccbs s' = s_ccbs s -> s_devs s' = s_devs s -> s_rq s' = s_rq s ->
    wp (upd_ccb r (set_c_state SCSI_STATE_FREE)) (fun _ s' => good s') s').
  { intros s' H' Ec Ed Eq. apply (wp_upd_ccb r c); [by rewrite Ec|].
    apply (good_of N ∅ (0 - is_sent c + is_sent (set_c_state SCSI_STATE_FREE c))); [|done|].
    - apply inv_ccb; [done|by rewrite Ec|done|done|right; by rewrite Eq|].
      intros d v Hv Hm Hr. rewrite Ed in Hv. by destruct (Ho d v Hv Hm).
    - unfold is_sent. destruct (Z.eqb_spec (c_state c) SCSI_STATE_SENT); [done|]. reflexivity. }
  apply wp_bind, wp_when. destruct (negb _); [|by apply Hf]. apply wp_emit. apply Hf; [by apply inv_event|done..].
Qed.

(** ** Devices *)

Lemma inv_new_device X k s d v :
  inv N X k s -> s_devs s !! d = None -> d <> NULL -> dev_ok v -> d_manual_autosense v = false ->
  d_auto_sense_request v = NULL ->
  inv N X k (with_devs (<[d := v]>) (with_queues (set_rq d [] (sy_queues s)) s)).
Proof.
  intros H Hd Hn Ho Hm Ha. destruct H as [I1 I2 I3 I4 I5 I6 I7 I8 I9 I10 I11 I12 I13].
  assert (Hqn : s_rq s !! d = None).
  { destruct (s_rq s !! d) eqn:E; [|done]. assert (is_Some (s_devs s !! d)) as [? ?] by (apply I2; by rewrite E). congruence. }
  assert (Hneq : forall x q, s_rq s !! x = Some q -> d <> x) by (intros x q Hx ->; congruence).
  split; auto; unfold s_devs, s_rq in *; simpl in *.
  - split; [apply I1|]. rewrite lookup_insert_ne by done. apply I1.
  - intros x. destruct (decide (d = x)) as [<-|]; [by rewrite !lookup_insert_eq|by rewrite !lookup_insert_ne].
  - intros x q r. destruct (decide (d = x)) as [<-|]; [rewrite lookup_insert_eq; intros [= <-]; set_solver|].
    rewrite lookup_insert_ne by done. apply I4.
  - intros r c Hc Hf. destruct (decide (d = c_device c)) as [<-|]; [by rewrite lookup_insert_eq|].
    rewrite lookup_insert_ne by done. eauto.
  - intros x q. destruct (decide (d = x)) as [<-|]; [rewrite lookup_insert_eq; intros [= <-]; constructor|].
    rewrite lookup_insert_ne by done. apply I6.
  - intros x Hx. destruct (I8 x Hx) as (q & Hq & ?). exists q. rewrite lookup_insert_ne; eauto.
  - intros x v1 q HX. destruct (decide (d = x)) as [<-|]; [rewrite !lookup_insert_eq; by intros _ [= <-]|].
    rewrite !lookup_insert_ne by done. by apply I9.
  - intros x v1. destruct (decide (d = x)) as [<-|]; [rewrite lookup_insert_eq; by intros [= <-]|].
    rewrite lookup_insert_ne by done. apply I10.
  - intros x v1. destruct (decide (d = x)) as [<-|].
    + rewrite lookup_insert_eq. intros [= <-]. unfold autosense_ok. by rewrite Hm.
    + rewrite lookup_insert_ne by done. apply I11.
Qed.

Definition without_device d m s : sys rqueues :=
  with_devs (delete d) (with_queues (Rqueues (delete d (rq (sy_queues s))) (rw (sy_queues s)) (cells (sy_queues s)))
    (with_ccbs (fun _ => m) s)).

(** A device goes, and with it the use of its requests: [m] are the requests
    then. *)
Lemma inv_free_device X k s d m :
  inv N X k s -> s_rq s !! d = Some [] ->
  (forall r, is_Some (s_ccbs s !! r) <-> is_Some (m !! r)) ->
  (forall r c, s_ccbs s !! r = Some c -> c_device c <> d -> c_state c <> SCSI_STATE_FREE -> m !! r = Some c) ->
  (forall r c, m !! r = Some c -> c_state c <> SCSI_STATE_FREE -> c_device c <> d /\ s_ccbs s !! r = Some c) ->
  sent m = sent (s_ccbs s) ->
  inv N X k (without_device d m s).
Proof.
  intros H Hq Hdom Hkeep Hlive Hsent. destruct H as [I1 I2 I3 I4 I5 I6 I7 I8 I9 I10 I11 I12 I13].
  split; auto; unfold s_devs, s_rq in *; simpl in *.
  - split; [apply I1|]. destruct (decide (d = NULL)) as [->|]; [by rewrite lookup_delete_eq|by rewrite lookup_delete_ne; [apply I1|]].
  - intros x. destruct (decide (d = x)) as [<-|]; [by rewrite !lookup_delete_eq|by rewrite !lookup_delete_ne].
  - intros x. by rewrite <-I3, Hdom.
  - intros x q r [Hne Hx]%lookup_delete_Some Hr. destruct (I4 x q r Hx Hr) as (c & E & E1 & E2). exists c.
    split; [|done]. apply Hkeep; [done|congruence|by rewrite E2].
  - intros r c Hr Hf. destruct (Hlive r c Hr Hf) as [Hd Hr']. rewrite lookup_delete_ne by congruence. eauto.
  - intros x q [_ Hx]%lookup_delete_Some. eauto.
  - intros x Hx. destruct (I8 x Hx) as (q & Hq1 & Hne). exists q. rewrite lookup_delete_ne; [done|]. intros ->. congruence.
  - intros x v q HX [_ Hv]%lookup_delete_Some [_ Hx]%lookup_delete_Some. eauto.
  - intros x v [_ Hv]%lookup_delete_Some. eauto.
  - intros x v [Hne Hv]%lookup_delete_Some. specialize (I11 x v Hv). unfold autosense_ok in *. destruct (d_manual_autosense v); [|done].
    destruct I11 as (ca & E & A1 & A2 & A3 & A4). exists ca. split_and!; try done; [apply Hkeep; [done|congruence|done]|].
    intros Hf. by apply Hdom, A4.
  - change (b_left_slots (s_bus s) + sent m = N + k). by rewrite Hsent.
Qed.

(** A device none of whose requests is in use, but for its auto-sense
    request. *)
Definition idle s d : Prop :=
  s_rq s !! d = Some [] /\
  forall r c v, s_ccbs s !! r = Some c -> c_device c = d -> c_state c <> SCSI_STATE_FREE ->
    s_devs s !! d = Some v -> d_auto_sense_request v = r /\ c_state c <> SCSI_STATE_SENT.

Lemma not_waiting X k s d : inv N X k s -> s_rq s !! d = Some [] -> d ∉ s_rw s.
Proof. intros H Hq Hw. destruct (i_wait _ _ _ _ H d Hw) as (q & Hq2 & Hne). congruence. Qed.

Lemma wp_delete_device d s post :
  d ∉ s_rw s -> post tt (without_device d (s_ccbs s) s) ->
  wp (upd_queues (free_device d) ;; modify (fun k => set_devs (delete d (devs k)) k)) post s.
Proof.
  intros Hw Hp. apply wp_bind. eapply wp_upd_queues.
  { simpl. unfold spec_free_device. by rewrite decide_True. }
  apply wp_modify. destruct s as [[] []]. exact Hp.
Qed.

(** What freeing a device comes to: its auto-sense request is freed first. *)
Lemma wp_free_device s d v post :
  s_devs s !! d = Some v -> d ∉ s_rw s ->
  (if decide (d_auto_sense_request v = NULL) then post tt (without_device d (s_ccbs s) s)
   else exists c, s_ccbs s !! d_auto_sense_request v = Some c /\
     forall s', s' = s \/ s' = with_event Panic s ->
       post tt (without_device d (<[d_auto_sense_request v := set_c_state SCSI_STATE_FREE c]> (s_ccbs s)) s')) ->
  wp (scsi_free_device d) post s.
Proof.
  intros Hv Hw Hp. unfold scsi_free_device, scsi_free_autosense_request.
  apply wp_bind, wp_bind, (wp_get_dev d v); [done|]. apply wp_when.
  destruct (decide (d_auto_sense_request v = NULL)) as [E|E].
  { rewrite (proj2 (Z.eqb_eq _ _) E). by apply wp_delete_device. }
  destruct Hp as (c & Hc & Hp). rewrite (proj2 (Z.eqb_neq _ _) E). cbn [negb].
  set (ra := d_auto_sense_request v) in *. set (c' := set_c_state SCSI_STATE_FREE c) in *.
  assert (Hfree : forall s', s' = s \/ s' = with_event Panic s ->
    wp (upd_ccb ra (set_c_state SCSI_STATE_FREE)) (fun _ s1 =>
      wp (upd_dev d (set_d_auto_sense_request NULL)) (fun _ s2 =>
        wp (upd_queues (free_device d) ;; modify (fun k => set_devs (delete d (devs k)) k)) post s2) s1) s').
  { intros s' Hs'. assert (Ec : s_ccbs s' = s_ccbs s) by (by destruct Hs' as [-> | ->]).
    assert (Ed : s_devs s' = s_devs s) by (by destruct Hs' as [-> | ->]).
    assert (Ew : s_rw s' = s_rw s) by (by destruct Hs' as [-> | ->]).
    apply (wp_upd_ccb ra c); [by rewrite Ec|]. fold c'.
    apply (wp_upd_dev d v); [change (s_devs s' !! d = Some v); by rewrite Ed|].
    apply wp_delete_device; [change (d ∉ s_rw s'); by rewrite Ew|].
    specialize (Hp s' Hs'). rewrite <-Ec in Hp. unfold without_device in *.
    replace (with_devs (delete d) _) with (with_devs (delete d) (with_queues (Rqueues (delete d (rq (sy_queues s'))) (rw (sy_queues s')) (cells (sy_queues s')))
      (with_ccbs (fun _ => <[ra:=c']> (s_ccbs s')) s'))); [exact Hp|].
    unfold with_devs, with_queues, with_ccbs, s_devs, s_ccbs. simpl. by rewrite delete_insert_eq. }
  unfold scsi_free_ccb. apply wp_bind, wp_bind, (wp_get_ccb ra c); [done|]. apply wp_bind, wp_when.
  destruct (negb _); [apply wp_emit|]; apply Hfree; auto.
Qed.

Lemma wp_free_idle s d v :
  good s -> s_devs s !! d = Some v -> idle s d ->
  (d_auto_sense_request v <> NULL -> exists ca, s_ccbs s !! d_auto_sense_request v = Some ca /\ c_device ca = d) ->
  wp (scsi_free_device d) (fun _ s' => good s') s.
Proof.
  intros H Hv [Hq Hidle] Hca. apply (wp_free_device s d v); [done|by apply (not_waiting _ _ _ _ H)|]. case_decide as E.
  - apply (inv_free_device ∅ 0 s); [done..| |done]. intros r c Hc Hf. split; [|done]. intros Hd.
    destruct (Hidle r c v Hc Hd Hf Hv) as [Er _]. rewrite E in Er. subst r.
    apply (i_null _ _ _ _ H), (i_cells _ _ _ _ H). by rewrite Hc.
  - destruct (Hca E) as (ca & Ea & Ed). exists ca. split; [done|]. intros s' Hs'.
    assert (Hnd : forall r c, s_ccbs s !! r = Some c -> c_state c <> SCSI_STATE_FREE -> r <> d_auto_sense_request v -> c_device c <> d).
    { intros r c Hc Hf Hr Hd. by destruct (Hidle r c v Hc Hd Hf Hv) as [<- _]. }
    assert (Hsent : is_sent ca = 0).
    { unfold is_sent. destruct (Z.eqb_spec (c_state ca) SCSI_STATE_SENT) as [Es|]; [|done].
      destruct (Hidle _ ca v Ea Ed ltac:(by rewrite Es) Hv). congruence. }
    assert (Hinv : inv N ∅ 0 s') by (destruct Hs' as [-> | ->]; [done|by apply inv_event]).
    assert (Ec : s_ccbs s' = s_ccbs s) by (by destruct Hs' as [-> | ->]).
    assert (Eq : s_rq s' = s_rq s) by (by destruct Hs' as [-> | ->]).
    apply (inv_free_device ∅ 0 s'); rewrite ?Ec, ?Eq; [done|done| | | |].
    + intros r. destruct (decide (d_auto_sense_request v = r)) as [<-|]; [by rewrite lookup_insert_eq, Ea|by rewrite lookup_insert_ne].
    + intros r c Hc Hd Hf. rewrite lookup_insert_ne; [done|]. intros <-. congruence.
    + intros r c. destruct (decide (d_auto_sense_request v = r)) as [<-|Hr]; [rewrite lookup_insert_eq; by intros [= <-]|].
      rewrite lookup_insert_ne by done. intros Hc Hf. split; [|done]. eapply Hnd; eauto.
    + rewrite (sent_insert _ _ ca) by done. rewrite Hsent. change (is_sent (set_c_state SCSI_STATE_FREE ca)) with 0. lia.
Qed.

(** *** Initialisation *)

(** The state while a new device is filled in: [s] is the state before, [v] the
    device so far. *)
Definition making d v s : sys rqueues := with_devs (<[d := v]>) (with_queues (set_rq d [] (sy_queues s)) s).

Lemma wp_making_upd d v f s post : post tt (making d (f v) s) -> wp (upd_dev d f) post (making d v s).
Proof.
  intros Hp. apply (wp_upd_dev d v); [apply devs_with|]. unfold making in *. by rewrite with_devs_twice.
Qed.
Lemma wp_making_when d v (b : bool) f s post :
  post tt (making d (if b then f v else v) s) -> wp (when b (upd_dev d f)) post (making d v s).
Proof. intros Hp. apply wp_when. destruct b; [by apply wp_making_upd|done]. Qed.
Lemma wp_making_get d v s post : post v (making d v s) -> wp (get_dev d) post (making d v s).
Proof. intros Hp. apply (wp_get_dev d v); [apply devs_with|done]. Qed.

Lemma wp_making_autosense d v s r c area sg buffer post :
  s_ccbs s !! r = Some c ->
  (forall c', c_state c' = SCSI_STATE_FREE ->
    post B_NO_MEMORY (making d (set_d_auto_sense_request r v) (with_ccbs (<[r := c']>) s))) ->
  (forall c', c_state c' = SCSI_STATE_FINISHED -> c_device c' = d -> has (c_flags c') SCSI_DIS_AUTOSENSE = true ->
    post B_OK (making d (set_d_auto_sense_request r v) (with_ccbs (<[r := c']>) s))) ->
  wp (scsi_create_autosense_request d r area sg buffer) post (making d v s).
Proof.
  intros Hc Hfail Hok. unfold scsi_create_autosense_request. apply wp_bind.
  apply (wp_alloc_exact _ d r c v); [exact Hc|apply devs_with|].
  change (with_ccbs ?f (making d v s)) with (making d v (with_ccbs f s)).
  apply wp_bind, wp_making_upd. set (c1 := alloc_of d v c).
  assert (Hc1 : forall v', s_ccbs (making d v' (with_ccbs (<[r := c1]>) s)) !! r = Some c1) by (intros; apply ccbs_with).
  destruct (area <? 0).
  - apply wp_bind. unfold scsi_free_ccb. apply wp_bind, (wp_get_ccb r c1); [apply Hc1|].
    apply wp_bind, wp_when. change (negb _) with false. cbn beta iota.
    apply (wp_upd_ccb r c1); [apply Hc1|]. apply wp_ret.
    change (with_ccbs ?f (making d ?v (with_ccbs ?g s))) with (making d v (with_ccbs f (with_ccbs g s))).
    rewrite with_ccbs_twice. by apply Hfail.
  - apply wp_bind, wp_making_get, wp_bind. apply (wp_upd_ccb r c1); [apply Hc1|]. apply wp_ret.
    change (with_ccbs ?f (making d ?v (with_ccbs ?g s))) with (making d v (with_ccbs f (with_ccbs g s))).
    rewrite with_ccbs_twice. by apply Hok.
Qed.

(** The device while it is filled in, and as it is in the end. *)
Definition created (x : device_setup) : scsi_device_info :=
  set_d_valid true (set_d_target_lun (s_target_lun x) zero_device).
Definition slots_of (x : device_setup) : Z :=
  if s_manual_autosense x || negb (has (s_hba_inquiry x) SCSI_PI_TAG_ABLE) then 1 else 4096.
Definition filled (x : device_setup) : scsi_device_info :=
  set_d_left_slots (slots_of x) (set_d_total_slots (slots_of x)
    (set_d_manual_autosense (s_manual_autosense x) (set_d_is_atapi (s_is_atapi x) (created x)))).

Lemma created_ok x : dev_ok (created x).
Proof. split; simpl; lia. Qed.

(** A device that was being made goes again. *)
Lemma making_undone x d v s m s' :
  good s -> s_devs s !! d = None -> d <> NULL -> s_rq s !! d = None ->
  (forall r, is_Some (s_ccbs s !! r) <-> is_Some (m !! r)) ->
  (forall r c, s_ccbs s !! r = Some c -> c_state c <> SCSI_STATE_FREE -> m !! r = Some c) ->
  (forall r c, m !! r = Some c -> c_state c <> SCSI_STATE_FREE -> s_ccbs s !! r = Some c) ->
  sent m = sent (s_ccbs s) ->
  s' = making d v (with_ccbs (fun _ => x) s) \/ s' = with_event Panic (making d v (with_ccbs (fun _ => x) s)) ->
  good (without_device d m s').
Proof.
  intros H Hd Hn Hq Hdom Hkeep Hlive Hsent Hs'.
  assert (G : good (without_device d m (making d zero_device s))).
  { eapply inv_free_device.
    - apply inv_new_device; [exact H|done|done| |done|done]. split; simpl; lia.
    - unfold s_rq. simpl. by rewrite lookup_insert_eq.
    - done.
    - eauto.
    - intros r c Hr Hf. pose proof (Hlive r c Hr Hf) as Hc. split; [|exact Hc].
      destruct (i_live _ _ _ _ H r c Hc Hf) as [v1 Hv1]. congruence.
    - exact Hsent. }
  assert (E : without_device d m (making d v (with_ccbs (fun _ => x) s)) = without_device d m (making d zero_device s)).
  { unfold without_device, making, with_devs, with_queues, with_ccbs, s_devs. simpl. by rewrite !delete_insert_eq. }
  destruct Hs' as [-> | ->]; [by rewrite E|].
  change (without_device d m (with_event Panic ?y)) with (with_event Panic (without_device d m y)).
  rewrite E. by apply inv_event.
Qed.

Lemma filled_ok x : dev_ok (filled x).
Proof. split; simpl; lia. Qed.

Lemma making_auto_good s d b c v c' :
  good s -> s_devs s !! d = None -> d <> NULL -> s_ccbs s !! b = Some c -> c_state c = SCSI_STATE_FREE ->
  dev_ok v -> d_manual_autosense v = true -> d_auto_sense_request v = b ->
  c_state c' = SCSI_STATE_FINISHED -> c_device c' = d -> has (c_flags c') SCSI_DIS_AUTOSENSE = true ->
  good (making d v (with_ccbs (<[b := c']>) s)).
Proof.
  intros H Hd Hn Hc Hf Ho Hm Hb S1 S2 S3.
  assert (Ho0 : dev_ok zero_device) by (split; simpl; lia).
  pose proof (inv_new_device ∅ 0 s d zero_device H Hd Hn Ho0 eq_refl eq_refl) as H1.
  assert (H2 : inv N ∅ 0 (with_ccbs (<[b := c']>) (making d zero_device s))).
  { apply (inv_alloc_ccb ∅ 0 _ b c c' H1); [done..|]. rewrite S2. eexists. apply devs_with. }
  replace (making d v (with_ccbs (<[b := c']>) s)) with (with_devs (<[d := v]>) (with_ccbs (<[b := c']>) (making d zero_device s))).
  2: { unfold making, with_devs, with_ccbs, with_queues, s_devs, s_ccbs. simpl. by rewrite insert_insert_eq. }
  apply (inv_dev ∅ d zero_device v H2); [apply devs_with|done| |set_solver|done].
  unfold autosense_ok. rewrite Hm. exists c'. rewrite Hb. split_and!; try done; [apply ccbs_with|by rewrite S1].
Qed.

Lemma wp_init_device s x c :
  good s -> s_devs s !! s_device x = None -> (s_device x <> NULL -> s_rq s !! s_device x = None) ->
  s_ccbs s !! s_block x = Some c -> c_state c = SCSI_STATE_FREE ->
  wp (scsi_init_device x) (fun _ s' => good s') s.
Proof.
  intros H Hd Hq Hc Hf. unfold scsi_init_device. apply wp_bind. unfold scsi_create_device.
  destruct (Z.eqb_spec (s_device x) NULL) as [En|En].
  { apply wp_ret. rewrite Z.eqb_refl. by apply wp_ret. }
  destruct (s_owner_sem x <? 0); [apply wp_ret; rewrite Z.eqb_refl; by apply wp_ret|]. cbn [orb].
  specialize (Hq En). set (d := s_device x) in *. set (b := s_block x) in *.
  apply wp_bind. eapply wp_upd_queues.
  { simpl. unfold spec_new_device. by rewrite decide_True. }
  apply wp_bind, wp_modify, wp_ret. rewrite (proj2 (Z.eqb_neq _ _) En).
  change (Sys _ _) with (making d (created x) s).
  do 3 (apply wp_bind, wp_making_upd). do 2 (apply wp_bind, wp_making_when). apply wp_bind, wp_making_upd.
  match goal with |- wp _ _ (making d ?v s) => replace v with (filled x) end.
  2: { unfold filled, slots_of. by destruct (s_manual_autosense x), (has (s_hba_inquiry x) SCSI_PI_TAG_ABLE). }
  assert (Hfree : forall c' r c1, c_state c' = SCSI_STATE_FREE -> <[b := c']> (s_ccbs s) !! r = Some c1 ->
    c_state c1 <> SCSI_STATE_FREE -> s_ccbs s !! r = Some c1).
  { intros c' r c1 Hc'. destruct (decide (b = r)) as [<-|]; [rewrite lookup_insert_eq; by intros [= <-]|by rewrite lookup_insert_ne]. }
  assert (Hdom : forall c' r, is_Some (s_ccbs s !! r) <-> is_Some (<[b := c']> (s_ccbs s) !! r)).
  { intros c' r. destruct (decide (b = r)) as [<-|]; [by rewrite lookup_insert_eq, Hc|by rewrite lookup_insert_ne]. }
  assert (Hkeep : forall c' r c1, s_ccbs s !! r = Some c1 -> c_state c1 <> SCSI_STATE_FREE -> <[b := c']> (s_ccbs s) !! r = Some c1).
  { intros c' r c1 Hr Hf1. rewrite lookup_insert_ne; [done|]. intros <-. congruence. }
  assert (Hsent : forall c', is_sent c' = 0 -> sent (<[b := c']> (s_ccbs s)) = sent (s_ccbs s)).
  { intros c' E. rewrite (sent_insert _ _ c) by done. rewrite E. unfold is_sent. rewrite Hf. change (_ =? _) with false. simpl. lia. }
  assert (Hbn : b <> NULL).
  { intros E. apply (i_null _ _ _ _ H), (i_cells _ _ _ _ H). by rewrite <-E, Hc. }
  (* what is left when a device with an auto-sense request goes *)
  assert (Hundo : forall c' s0, s0 = making d (set_d_auto_sense_request b (filled x)) (with_ccbs (<[b := c']>) s) ->
    wp (scsi_free_device d ;; mret B_NO_MEMORY) (fun _ s' => good s') s0).
  { intros c' s0 ->. apply wp_bind. apply (wp_free_device _ d (set_d_auto_sense_request b (filled x))).
    - apply devs_with.
    - change (d ∉ s_rw s). intros Hw. destruct (i_wait _ _ _ _ H d Hw) as (q & Hq2 & _). congruence.
    - simpl. rewrite decide_False by done. exists c'. split; [apply ccbs_with|]. intros s' Hs'. apply wp_ret.
      change (s_ccbs (making d ?v (with_ccbs ?f s))) with (f (s_ccbs s)). rewrite insert_insert_eq.
      eapply (making_undone (<[b := c']> (s_ccbs s)) d); [exact H|done|done|done|apply Hdom|apply Hkeep| |by apply Hsent|exact Hs'].
      intros r c1. by apply Hfree. }
  assert (Hrest : forall v s0, dev_ok v -> d_manual_autosense v = s_manual_autosense x ->
    good (making d v s0) -> (forall f, good (making d (set_d_emulation_map f v) s0)) ->
    (s_emulation x <> B_OK -> wp (scsi_free_device d ;; mret B_NO_MEMORY) (fun _ s' => good s') (making d v s0)) ->
    wp (if negb (s_emulation x =? B_OK) then scsi_free_device d ;; mret B_NO_MEMORY
        else when (s_is_atapi x) (upd_dev d (fun d => set_d_emulation_map (foldl SET_BIT (repeat 0 32) emulated_commands) d)) ;; mret B_OK)
      (fun _ s' => good s') (making d v s0)).
  { intros v s0 Ho Hm Hg1 Hg2 Hfail. destruct (Z.eqb_spec (s_emulation x) B_OK) as [E|E]; cbn [negb]; [|by apply Hfail].
    apply wp_bind, wp_making_when, wp_ret. destruct (s_is_atapi x); [apply Hg2|done]. }
  apply wp_bind. destruct (s_manual_autosense x) eqn:Em.
  - apply (wp_making_autosense d (filled x) s b c); [done| |].
    + intros c' _. cbn [negb Z.eqb]. change (negb (B_NO_MEMORY =? B_OK)) with true. cbn iota. by apply (Hundo c').
    + intros c' S1 S2 S3. change (negb (B_OK =? B_OK)) with false. cbn iota.
      apply Hrest; [split; simpl; lia|done| | |intros _; by apply (Hundo c')]; [|intros f];
        (apply (making_auto_good s d b c); [done..|split; simpl; lia|done|done|done|done|done]).
  - apply wp_ret. change (negb (B_OK =? B_OK)) with false. cbn iota.
    apply Hrest; [by apply filled_ok|done| | |].
    + apply inv_new_device; [done|done|done|apply filled_ok|done|done].
    + intros f. apply inv_new_device; [done|done|done|split; simpl; lia|done|done].
    + intros _. apply wp_bind, (wp_free_device _ d (filled x)); [apply devs_with| |].
      { change (d ∉ s_rw s). intros Hw. destruct (i_wait _ _ _ _ H d Hw) as (q & Hq2 & _). congruence. }
      simpl. apply wp_ret.
      eapply (making_undone (s_ccbs s) d (filled x) s (s_ccbs s)); [exact H|done..|].
      left. by destruct s as [[] []].
Qed.

End Life.
