(* ===== verification/ScsiCalls.v ===== *)
(** The bus manager as a whole: the calls that drivers, the SIM and the system
    make, in any order and between any two steps of the service thread. *)
From stdpp Require Import base gmap list.
From Stdlib Require Import ZArith Lia.
From S2P Require Import Prelude Errors ScsiRing Scsi ScsiQueue ScsiIo ScsiBus ScsiDevice.

(** What a driver writes into a request it owns, and the SIM into one it
    has. *)
Record driver_fields := DriverFields {
  w_flags : Z; w_cdb : list Z; w_cdb_length : Z; w_sort : Z; w_data : list Z; w_sg_list : Z; w_data_length : Z
}.
Definition fill_request (w : driver_fields) (c : scsi_ccb) : scsi_ccb :=
  set_c_flags (w_flags w) (set_c_cdb (w_cdb w) (set_c_cdb_length (w_cdb_length w) (set_c_sort (w_sort w)
    (set_c_data (w_data w) (set_c_sg_list (w_sg_list w) (set_c_data_length (w_data_length w) c)))))).

Record sim_result := SimResult {
  w_subsys_status : Z; w_device_status : Z; w_data_resid : Z; w_received : list Z; w_sim_state : Z
}.
Definition set_result (w : sim_result) (c : scsi_ccb) : scsi_ccb :=
  set_c_subsys_status (w_subsys_status w) (set_c_device_status (w_device_status w)
    (set_c_data_resid (w_data_resid w) (set_c_data (w_received w) (set_c_sim_state (w_sim_state w) c)))).

Inductive call :=
(* the pool, the drivers *)
| PoolRequest (block : Z) (bytes : scsi_ccb) (sem : Z)
| AllocRequest (device block : Z)
| FreeRequest (request : Z)
| FillRequest (request : Z) (w : driver_fields)
| AsyncIo (request : Z)
| Abort_ (request : Z)
(* the device manager *)
| InitDevice (x : device_setup)
| UninitDevice (device : Z)
| DeviceRemoved (device : Z)
| ForceDevice (device target_lun owner_sem : Z)
| PutForced (device : Z) (has_node : bool)
(* the SIM *)
| SetResult (request : Z) (w : sim_result)
| Finished (request num_requests : Z)
| Requeue (request : Z) (bus_overflow : bool)
| Resubmit (request : Z)
| BlockBus | UnblockBus | ContSendBus
| BlockDevice (device : Z) | UnblockDevice (device : Z) | ContSendDevice (device : Z)
| AllocDpc (dpc : Z) | FreeDpc (dpc : Z) | ScheduleDpc (dpc func arg : Z)
| DestroyBus.

Section Calls.
Context {Q : Type} `{Queueing Q}.
Variable env : helpers.

Definition ignore {A} (m : op Q A) : op Q unit := _ ← m; mret tt.

Definition run (c : call) : op Q unit :=
  match c with
  | PoolRequest block bytes sem => ignore (ccb_low_alloc_hook block bytes sem)
  | AllocRequest device block => ignore (scsi_alloc_ccb device block)
  | FreeRequest request => scsi_free_ccb request
  | FillRequest request w => upd_ccb request (fill_request w)
  | AsyncIo request => scsi_async_io env request
  | Abort_ request => ignore (scsi_abort env request)
  | InitDevice x => ignore (scsi_init_device x)
  | UninitDevice device => scsi_uninit_device device
  | DeviceRemoved device => scsi_device_removed device
  | ForceDevice device target_lun owner_sem => ignore (scsi_force_get_device None device target_lun owner_sem)
  | PutForced device has_node => scsi_put_forced_device device has_node
  | SetResult request w => upd_ccb request (set_result w)
  | Finished request n => scsi_request_finished env request n
  | Requeue request b => scsi_requeue_request request b
  | Resubmit request => scsi_resubmit_request request
  | BlockBus => scsi_block_bus
  | UnblockBus => scsi_unblock_bus
  | ContSendBus => scsi_cont_send_bus
  | BlockDevice device => scsi_block_device device
  | UnblockDevice device => scsi_unblock_device device
  | ContSendDevice device => scsi_cont_send_device device
  | AllocDpc dpc => ignore (scsi_alloc_dpc dpc)
  | FreeDpc dpc => ignore (scsi_free_dpc dpc)
  | ScheduleDpc dpc func arg => ignore (scsi_schedule_dpc dpc func arg)
  | DestroyBus => scsi_destroy_bus
  end.

(** ** What the callers may do *)

(** The request exists and is in one of the states. *)
Definition in_state (k : core) (request : Z) (P : Z -> Prop) : Prop :=
  exists c, ccbs k !! request = Some c /\ P (c_state c).

(** No device uses it to ask for sense data. *)
Definition no_autosense (k : core) (request : Z) : Prop :=
  forall d v, devs k !! d = Some v -> d_manual_autosense v = true -> d_auto_sense_request v <> request.

(** The request belongs to a driver that may use it. *)
Definition owned (k : core) (request : Z) : Prop :=
  in_state k request (fun st => st = SCSI_STATE_FINISHED) /\ no_autosense k request.

(** An abortable request is where its state says. *)
Definition abortable (s : sys Q) (request : Z) : Prop :=
  exists c, ccbs (sy_core s) !! request = Some c /\
    (c_state c = SCSI_STATE_QUEUED ->
       is_Some (devs (sy_core s) !! c_device c) /\ on_queue (c_device c) request (sy_queues s)).

(** When a request needs sense data, the request that asks for it is idle. *)
Definition autosense_idle (k : core) (request : Z) : Prop :=
  exists c, ccbs k !! request = Some c /\
    forall v, c_state c = SCSI_STATE_SENT -> devs k !! c_device c = Some v -> needs_autosense c v = true ->
      in_state k (d_auto_sense_request v) (fun st => st = SCSI_STATE_FINISHED).

(** Of the requests of a device only the one for sense data is in use. *)
Definition unused (k : core) (device : Z) : Prop :=
  exists v, devs k !! device = Some v /\
    forall r c, ccbs k !! r = Some c -> c_device c = device -> c_state c <> SCSI_STATE_FREE ->
      d_auto_sense_request v = r /\ c_state c = SCSI_STATE_FINISHED.

Definition allowed (c : call) (s : sys Q) : Prop :=
  let k := sy_core s in
  match c with
  | PoolRequest block _ _ => block <> NULL /\ ccbs k !! block = None
  | AllocRequest device block => is_Some (devs k !! device) /\ in_state k block (fun st => st = SCSI_STATE_FREE)
  | FreeRequest request | FillRequest request _ | AsyncIo request => owned k request
  | Abort_ request => abortable s request
  | InitDevice x => devs k !! s_device x = None /\ in_state k (s_block x) (fun st => st = SCSI_STATE_FREE)
  | ForceDevice device _ _ => devs k !! device = None
  | UninitDevice device => unused k device
  | PutForced device has_node => has_node = false -> unused k device
  | DeviceRemoved device => device <> NULL -> is_Some (devs k !! device)
  | SetResult request _ => in_state k request (fun st => st = SCSI_STATE_SENT)
  | Finished request _ => autosense_idle k request
  | Requeue request _ | Resubmit request => is_Some (ccbs k !! request)
  | BlockDevice device | UnblockDevice device | ContSendDevice device => is_Some (devs k !! device)
  | AllocDpc dpc => dpcs k !! dpc = None
  | FreeDpc dpc => exists p, dpcs k !! dpc = Some p /\ p_registered p = false
  | ScheduleDpc dpc _ _ => is_Some (dpcs k !! dpc)
  | BlockBus | UnblockBus | ContSendBus | DestroyBus => True
  end.

(** ** Executions *)

Variable queue_size : Z.
Variable empty : Q.

(** The states of a bus whose adapter takes [queue_size] requests, together
    with the service thread. *)
Inductive reachable : sys Q -> service -> Prop :=
| r_start : reachable (Sys (init_bus queue_size) empty) (Waiting 0)
| r_call s t c s' : reachable s t -> allowed c s -> run c s = Some (tt, s') -> reachable s' t
| r_service s t t' s' : reachable s t -> service_step t s = Some (t', s') -> reachable s' t'.

(** *** The devices that were not asked

    [scsi_requeue_request] for a full bus lets the device of the request wait
    whether it is locked or not. *)
Definition put_back (c : call) (s : sys Q) : gset Z :=
  match c with
  | Requeue request true => match ccbs (sy_core s) !! request with Some c => {[c_device c]} | None => ∅ end
  | _ => ∅
  end.

Definition locked_in (s : sys Q) (d : Z) : Prop :=
  match devs (sy_core s) !! d with Some v => d_lock_count v <> 0 | None => False end.
#[export] Instance locked_in_dec s d : Decision (locked_in s d).
Proof. unfold locked_in. destruct (_ !! d); apply _. Defined.

(** An execution, with the devices that have been locked ever since a request
    was put back to them that way, or before. *)
Inductive reachable_with : gset Z -> sys Q -> service -> Prop :=
| w_start : reachable_with ∅ (Sys (init_bus queue_size) empty) (Waiting 0)
| w_call X s t c s' : reachable_with X s t -> allowed c s -> run c s = Some (tt, s') ->
    reachable_with (filter (locked_in s') (X ∪ put_back c s)) s' t
| w_service X s t t' s' : reachable_with X s t -> service_step t s = Some (t', s') ->
    reachable_with (filter (locked_in s') X) s' t'.

Lemma reachable_with_ok X s t : reachable_with X s t -> reachable s t.
Proof. induction 1; [constructor|by econstructor|by econstructor]. Qed.

Lemma reachable_has s t : reachable s t -> exists X, reachable_with X s t.
Proof. induction 1 as [|s t c s' _ [X IH]|s t t' s' _ [X IH]]; [eexists; constructor|eexists; by eapply w_call|eexists; by eapply w_service]. Qed.

End Calls.
