(* ===== verification/ScsiDpc.v ===== *)
(** The list of deferred procedure calls: its invariant, what its operations
    do, and that no other operation touches it. *)
From stdpp Require Import base gmap list.
From Stdlib Require Import ZArith Lia.
From S2P Require Import Prelude Errors ScsiRing Scsi ScsiLists ScsiSpec ScsiQueue ScsiIo ScsiBus ScsiDevice ScsiInv ScsiWp ScsiSim ScsiCalls.

(** ** The invariant *)

(** [l] are the calls from [p] on. *)
Fixpoint dpc_chain (m : gmap Z scsi_dpc_info) (p : Z) (l : list Z) : Prop :=
  match l with
  | [] => p = NULL
  | x :: l => p = x /\ exists d, m !! x = Some d /\ dpc_chain m (p_next d) l
  end.

Definition dpc_part (k : core) : gmap Z scsi_dpc_info * Z := (dpcs k, b_dpc_list (bus k)).

(** The registered calls are those on the list, once each. *)
Record dpc_ok (k : core) (l : list Z) : Prop := {
  dp_chain : dpc_chain (dpcs k) (b_dpc_list (bus k)) l;
  dp_nodup : NoDup l;
  dp_null : dpcs k !! NULL = None;
  dp_reg : forall p d, dpcs k !! p = Some d -> p_registered d = bool_decide (p ∈ l)
}.

Lemma dpc_ok_same k k' l : dpc_part k' = dpc_part k -> dpc_ok k l -> dpc_ok k' l.
Proof. intros [= E1 E2] []. by split; rewrite ?E1, ?E2. Qed.

Lemma dpc_chain_insert m p l x d : x ∉ l -> dpc_chain m p l -> dpc_chain (<[x := d]> m) p l.
Proof.
  revert p. induction l as [|y l IH]; intros p Hx; [done|]. intros [-> (d' & Hd & Hl)]. split; [done|].
  exists d'. rewrite lookup_insert_ne by set_solver. split; [done|]. apply IH; [set_solver|done].
Qed.

(** Another function for a call keeps its place. *)
Lemma dpc_chain_update m p l x d d' :
  m !! x = Some d -> p_next d' = p_next d -> dpc_chain m p l -> dpc_chain (<[x := d']> m) p l.
Proof.
  intros Hx En. revert p. induction l as [|y l IH]; intros p; [done|]. intros [-> (d1 & Hd & Hl)]. split; [done|].
  destruct (decide (x = y)) as [<-|Hne].
  - rewrite lookup_insert_eq. exists d'. split; [done|]. rewrite En. simplify_eq. by apply IH.
  - rewrite lookup_insert_ne by done. eauto.
Qed.

Lemma dpc_chain_delete m p l x : x ∉ l -> dpc_chain m p l -> dpc_chain (delete x m) p l.
Proof.
  revert p. induction l as [|y l IH]; intros p Hx; [done|]. intros [-> (d' & Hd & Hl)]. split; [done|].
  exists d'. rewrite lookup_delete_ne by set_solver. split; [done|]. apply IH; [set_solver|done].
Qed.

Lemma dpc_head k l : dpc_ok k l -> b_dpc_list (bus k) = hd NULL l.
Proof. intros []. destruct l; [done|]. by destruct dp_chain0. Qed.

Lemma dpc_none k : dpc_ok k [] <-> dpcs k !! NULL = None /\ b_dpc_list (bus k) = NULL /\
  forall p d, dpcs k !! p = Some d -> p_registered d = false.
Proof.
  split.
  - intros []. split_and!; [done|done|]. intros p d Hp. rewrite (dp_reg0 p d Hp). apply bool_decide_eq_false. set_solver.
  - intros (H1 & H2 & H3). split; [done|constructor|done|]. intros p d Hp. rewrite (H3 p d Hp). symmetry.
    apply bool_decide_eq_false. set_solver.
Qed.

(** ** The operations *)

Section Ops.
Context {Q : Type} `{Queueing Q}.
Implicit Types s : sys Q.

Definition with_dpc (f : gmap Z scsi_dpc_info -> gmap Z scsi_dpc_info) s : sys Q :=
  Sys (set_dpcs (f (dpcs (sy_core s))) (sy_core s)) (sy_queues s).

Lemma upd_dpc_eq p f d s : dpcs (sy_core s) !! p = Some d -> upd_dpc p f s = Some (tt, with_dpc (<[p := f d]>) s).
Proof. intros Hd. unfold upd_dpc, get_dpc, mbind, op_bind, get, guarded, modify. by rewrite Hd. Qed.

(** What the structure of a scheduled call says afterwards. *)
Definition scheduled_as (d : scsi_dpc_info) (next func arg : Z) : scsi_dpc_info :=
  if p_registered d then set_p_arg arg (set_p_func func d) else Dpc next true func arg.

(** A call that is not on the list goes to its front. *)
Definition schedule_list (p : Z) (l : list Z) : list Z := if decide (p ∈ l) then l else p :: l.

Definition scheduled (p func arg : Z) (d : scsi_dpc_info) (k : core) : core :=
  let b := if p_registered d then bus k else set_b_dpc_list p (bus k) in
  set_bus (set_b_start_service (b_start_service b + 1) b)
    (set_dpcs (<[p := scheduled_as d (b_dpc_list (bus k)) func arg]> (dpcs k)) k).

Lemma schedule_spec s p func arg d :
  dpcs (sy_core s) !! p = Some d ->
  scsi_schedule_dpc p func arg s = Some (B_OK, Sys (scheduled p func arg d (sy_core s)) (sy_queues s)).
Proof.
  intros Hd. unfold scsi_schedule_dpc, upd_dpc, get_dpc, upd_bus, get_bus, release_start, mbind, op_bind, get, guarded,
    modify, when. simpl. rewrite Hd. simpl. do 3 (rewrite ?lookup_insert_eq; simpl). unfold scheduled, scheduled_as.
  destruct (p_registered d) eqn:Er; cbn [negb].
  - unfold mret, op_ret. do 4 f_equal. simpl. by rewrite insert_insert_eq.
  - unfold upd_dpc, get_dpc, upd_bus, get_bus, mbind, op_bind, get, guarded, modify. simpl.
    do 3 (rewrite ?lookup_insert_eq; simpl). unfold mret, op_ret. rewrite !insert_insert_eq. done.
Qed.

Lemma schedule_ok p func arg d k l :
  dpc_ok k l -> dpcs k !! p = Some d -> dpc_ok (scheduled p func arg d k) (schedule_list p l).
Proof.
  intros [C D N R] Hd. assert (Hp : p <> NULL) by congruence. pose proof (R p d Hd) as Er.
  unfold schedule_list, scheduled, scheduled_as. case_decide as Hin.
  - rewrite Er, (bool_decide_eq_true_2 _ Hin). split; simpl.
    + by apply (dpc_chain_update _ _ _ _ d).
    + done.
    + rewrite lookup_insert_ne; [done|congruence].
    + intros x e. destruct (decide (p = x)) as [<-|Hx]; [rewrite lookup_insert_eq; intros [= <-]|rewrite (lookup_insert_ne _ _ _ _ Hx); apply R].
      exact (R p d Hd).
  - rewrite Er, (bool_decide_eq_false_2 _ Hin). split; simpl.
    + split; [done|]. eexists. rewrite lookup_insert_eq. split; [done|]. simpl. by apply dpc_chain_insert.
    + by constructor.
    + rewrite lookup_insert_ne; [done|congruence].
    + intros x e. destruct (decide (p = x)) as [<-|Hne]; [rewrite lookup_insert_eq; intros [= <-]|rewrite (lookup_insert_ne _ _ _ _ Hne)].
      * simpl. symmetry. apply bool_decide_eq_true. set_solver.
      * intros Hx. rewrite (R x e Hx). apply bool_decide_ext. set_solver.
Qed.

(** The first call of the list is made and leaves it. *)
Definition called (p : Z) (d : scsi_dpc_info) (k : core) : core :=
  set_events (events k ++ [Called (p_func d) (p_arg d)])
    (set_dpcs (<[p := set_p_registered false d]> (dpcs k)) (set_bus (set_b_dpc_list (p_next d) (bus k)) k)).

Lemma exec_dpc_spec s l :
  dpc_ok (sy_core s) l ->
  match l with
  | [] => scsi_check_exec_dpc s = Some (false, s)
  | p :: l => exists d, dpcs (sy_core s) !! p = Some d /\
      scsi_check_exec_dpc s = Some (true, Sys (called p d (sy_core s)) (sy_queues s)) /\
      dpc_ok (called p d (sy_core s)) l
  end.
Proof.
  intros Ho. pose proof (dpc_head _ _ Ho) as Eh. unfold scsi_check_exec_dpc, get_bus, get, mbind, op_bind. rewrite Eh.
  destruct l as [|p l]; [done|]. destruct Ho as [(Ep & d & Hd & C) D N R]. exists d. split; [done|].
  apply NoDup_cons in D as [Hp D]. simpl. rewrite (proj2 (Z.eqb_neq p NULL)) by congruence. cbn [negb].
  unfold upd_bus, upd_dpc, get_dpc, emit, get, guarded, modify, mbind, op_bind, mret, op_ret. simpl. rewrite Hd. simpl.
  rewrite Hd. split; [done|]. unfold called. split; simpl.
  - by apply dpc_chain_insert.
  - done.
  - rewrite lookup_insert_ne; [done|congruence].
  - intros x e. destruct (decide (p = x)) as [<-|Hne]; [rewrite lookup_insert_eq; intros [= <-]|rewrite (lookup_insert_ne _ _ _ _ Hne)].
    + simpl. symmetry. by apply bool_decide_eq_false.
    + intros Hx. rewrite (R x e Hx). apply bool_decide_ext. set_solver.
Qed.

Lemma alloc_dpc_ok p k l :
  dpc_ok k l -> dpcs k !! p = None -> p <> NULL -> dpc_ok (set_dpcs (<[p := Dpc NULL false NULL NULL]> (dpcs k)) k) l.
Proof.
  intros [C D N R] Hd Hp. assert (Hl : p ∉ l).
  { clear -C Hd. revert C. generalize (b_dpc_list (bus k)). induction l as [|y l IH]; [set_solver|].
    intros q [-> (d & Hy & C)] [->|Hin]%elem_of_cons; [congruence|by eapply IH]. }
  split; simpl.
  - by apply dpc_chain_insert.
  - done.
  - rewrite lookup_insert_ne; [done|congruence].
  - intros x e. destruct (decide (p = x)) as [<-|Hx]; [rewrite lookup_insert_eq; intros [= <-]|rewrite (lookup_insert_ne _ _ _ _ Hx); apply R].
    symmetry. by apply bool_decide_eq_false.
Qed.

Lemma free_dpc_ok p d k l :
  dpc_ok k l -> dpcs k !! p = Some d -> p_registered d = false -> dpc_ok (set_dpcs (delete p (dpcs k)) k) l.
Proof.
  intros [C D N R] Hd Hr. assert (Hl : p ∉ l) by (rewrite (R p d Hd) in Hr; by apply bool_decide_eq_false in Hr).
  split; simpl.
  - by apply dpc_chain_delete.
  - done.
  - destruct (decide (p = NULL)) as [->|]; [apply lookup_delete_eq|by rewrite lookup_delete_ne].
  - intros x e [_ Hx]%lookup_delete_Some. by apply R.
Qed.

(** The service thread makes the deferred calls first, in the order of the
    list. *)
Definition call_event (m : gmap Z scsi_dpc_info) (p : Z) : event :=
  match m !! p with Some d => Called (p_func d) (p_arg d) | None => Panic end.

(** What deferred calls do not concern. *)
Definition same_io (k k' : core) : Prop :=
  ccbs k' = ccbs k /\ devs k' = devs k /\ bus k' = set_b_dpc_list (b_dpc_list (bus k')) (bus k).

Lemma same_io_refl k : same_io k k.
Proof. split_and!; [done|done|]. by destruct k as [[]]. Qed.

Lemma drain l n s : dpc_ok (sy_core s) l ->
  exists k, scsi_do_service (length l + n) s = scsi_do_service n (Sys k (sy_queues s)) /\ dpc_ok k [] /\
    events k = events (sy_core s) ++ map (call_event (dpcs (sy_core s))) l /\ same_io (sy_core s) k.
Proof.
  revert s. induction l as [|p l IH]; intros s Hl.
  - exists (sy_core s). destruct s as [k q]. simpl. rewrite app_nil_r. split_and!; [done|done|done|apply same_io_refl].
  - pose proof (exec_dpc_spec s _ Hl) as (d & Hd & Ex & Hl'). pose proof (dp_nodup _ _ Hl) as [Hp _]%NoDup_cons.
    destruct (IH (Sys (called p d (sy_core s)) (sy_queues s)) Hl') as (k & Ek & Hk & Ee & E1 & E2 & E3). exists k. split_and!.
    + simpl in Ek. rewrite <-Ek. cbn [length Nat.add scsi_do_service]. unfold mbind, op_bind. by rewrite Ex.
    + done.
    + rewrite Ee. simpl. rewrite <-app_assoc. f_equal. simpl. unfold call_event at 2. rewrite Hd. f_equal.
      apply map_ext_in. intros x Hx. unfold call_event. rewrite lookup_insert_ne; [done|]. intros <-. by apply Hp, list_elem_of_In.
    + split_and!; [by rewrite E1|by rewrite E2|]. by rewrite E3.
Qed.

(** ** The calls that are due *)

(** A call with its function and argument; the first of the list is made
    first. *)
Definition due_call : Type := Z * (Z * Z).

Definition due_event (c : due_call) : event := Called c.2.1 c.2.2.

(** Registering a call: a new one is made before those that are due, one that is
    due keeps its turn and takes the new function and argument. *)
Definition register (due : list due_call) (c : due_call) : list due_call :=
  if decide (c.1 ∈ due.*1) then map (fun e => if decide (e.1 = c.1) then c else e) due else c :: due.

Fixpoint schedule_all (cs : list due_call) : op Q unit :=
  match cs with
  | [] => mret tt
  | c :: cs => scsi_schedule_dpc c.1 c.2.1 c.2.2 ;; schedule_all cs
  end.

Definition due_at (m : gmap Z scsi_dpc_info) (p : Z) : due_call :=
  (p, match m !! p with Some d => (p_func d, p_arg d) | None => (NULL, NULL) end).

Lemma due_keys m l : (map (due_at m) l).*1 = l.
Proof. unfold fmap. induction l as [|p l IH]; [done|]. cbn. by f_equal. Qed.

Lemma chain_exists m p l x : dpc_chain m p l -> x ∈ l -> is_Some (m !! x).
Proof.
  revert p. induction l as [|y l IH]; intros p; [set_solver|]. intros [-> (d & Hd & C)] [->|Hx]%elem_of_cons; eauto.
Qed.

Lemma due_events m p l : dpc_chain m p l -> map (call_event m) l = map due_event (map (due_at m) l).
Proof.
  intros C. rewrite map_map. apply map_ext_in. intros x Hx%list_elem_of_In. destruct (chain_exists m p l x C Hx) as [d Hd].
  unfold call_event, due_event, due_at. by rewrite Hd.
Qed.

Lemma scheduled_func d next func arg :
  (p_func (scheduled_as d next func arg), p_arg (scheduled_as d next func arg)) = (func, arg).
Proof. unfold scheduled_as. by destruct (p_registered d). Qed.

Lemma due_scheduled p func arg d k l :
  dpcs k !! p = Some d ->
  map (due_at (dpcs (scheduled p func arg d k))) (schedule_list p l) =
    register (map (due_at (dpcs k)) l) (p, (func, arg)).
Proof.
  intros Hd. set (m := dpcs (scheduled p func arg d k)).
  assert (Ep : due_at m p = (p, (func, arg))).
  { unfold due_at, m. simpl. rewrite lookup_insert_eq. f_equal. apply scheduled_func. }
  assert (En : forall x, x <> p -> due_at m x = due_at (dpcs k) x).
  { intros x Hx. unfold due_at, m. simpl. by rewrite lookup_insert_ne by done. }
  unfold register, schedule_list. rewrite due_keys. cbn [fst]. case_decide as Hin.
  - rewrite map_map. apply map_ext. intros x. cbn. case_decide as Hx; [by subst|by apply En].
  - cbn [map]. rewrite Ep. f_equal. apply map_ext_in. intros x Hx%list_elem_of_In. apply En. by intros ->.
Qed.

Lemma schedule_all_spec cs s l :
  dpc_ok (sy_core s) l -> Forall (fun c => is_Some (dpcs (sy_core s) !! c.1)) cs ->
  exists k l', schedule_all cs s = Some (tt, Sys k (sy_queues s)) /\ dpc_ok k l' /\
    events k = events (sy_core s) /\
    map (due_at (dpcs k)) l' = foldl register (map (due_at (dpcs (sy_core s))) l) cs.
Proof.
  revert s l. induction cs as [|[p [f a]] cs IH]; intros s l Hl Hc.
  - exists (sy_core s), l. destruct s. by split_and!.
  - apply Forall_cons in Hc as [[d Hd] Hc]. cbn [fst] in Hd. cbn [schedule_all fst snd]. unfold mbind at 1, op_bind.
    rewrite (schedule_spec s p f a d Hd).
    destruct (IH (Sys (scheduled p f a d (sy_core s)) (sy_queues s)) (schedule_list p l)) as (k & l' & E & Hk & Ee & Ed).
    + by apply schedule_ok.
    + eapply Forall_impl; [exact Hc|]. intros c Hx. simpl. destruct (decide (c.1 = p)) as [->|Hne];
        [rewrite lookup_insert_eq; by eexists|by rewrite lookup_insert_ne by done].
    + exists k, l'. split_and!; [exact E|done|by rewrite Ee|]. rewrite Ed. cbn [sy_core]. by rewrite (due_scheduled p f a d _ _ Hd).
Qed.

End Ops.
