(* ===== verification/ScsiMoves.v ===== *)
(** What operations leave alone, operation by operation: the list of deferred
    calls, the count of notifications, and - but for a notification - that
    there is nothing to do for the service thread; and that they keep devices
    that are locked off the ring of waiting devices, but for those a request is
    put back to. *)
From stdpp Require Import base gmap list.
From Stdlib Require Import ZArith Lia.
From S2P Require Import Prelude Errors ScsiRing Scsi ScsiSpec ScsiRefine ScsiQueue ScsiIo ScsiBus ScsiDevice ScsiInv ScsiWp ScsiOps ScsiSim ScsiDpc ScsiCalls.

Lemma bind_some {Q A B} (m : op Q A) (f : A -> op Q B) s b s2 :
  (m ≫= f) s = Some (b, s2) -> exists a s1, m s = Some (a, s1) /\ f a s1 = Some (b, s2).
Proof. unfold mbind, op_bind. destruct (m s) as [[a s1]|]; [|done]. eauto. Qed.

(** ** Operations within a relation *)

Class Moves {Q A} (R : sys Q -> sys Q -> Prop) (m : op Q A) : Prop :=
  moves s a s' : m s = Some (a, s') -> R s s'.

Section Moves.
Context {Q : Type} (R : sys Q -> sys Q -> Prop) `{!PreOrder R}.

#[export] Instance moves_ret {A} (a : A) : Moves R (mret a).
Proof. by intros s b s' [= <- <-]. Qed.
#[export] Instance moves_bind {A B} (m : op Q A) (f : A -> op Q B) :
  Moves R m -> (forall a, Moves R (f a)) -> Moves R (m ≫= f).
Proof. intros Hm Hf s b s' (a & s1 & H1 & H2)%bind_some. etrans; [by eapply Hm|by eapply Hf]. Qed.
#[export] Instance moves_get {A} (f : core -> A) : Moves R (get f).
Proof. by intros s b s' [= <- <-]. Qed.
#[export] Instance moves_guarded {A} (o : option A) : Moves R (guarded o).
Proof. intros s b s'. unfold guarded. destruct o; [|done]. by intros [= <- <-]. Qed.
#[export] Instance moves_queues {A} (f : Q -> option A) : Moves R (queues f).
Proof. intros s b s'. unfold queues. destruct (f _); [|done]. by intros [= <- <-]. Qed.
#[export] Instance moves_if {A} (c : bool) (m1 m2 : op Q A) : Moves R m1 -> Moves R m2 -> Moves R (if c then m1 else m2).
Proof. by destruct c. Qed.
#[export] Instance moves_when c (m : op Q unit) : Moves R m -> Moves R (when c m).
Proof. unfold when. intros. apply _. Qed.
#[export] Instance moves_pair {A B C} (p : A * B) (f : A -> B -> op Q C) :
  (forall a b, Moves R (f a b)) -> Moves R (let '(a, b) := p in f a b).
Proof. by destruct p. Qed.
End Moves.

#[export] Hint Unfold get_ccb get_dev get_dpc upd_ccb upd_dev upd_dpc get_bus upd_bus emit panic
  release_start release_completion scsi_set_device_overflow scsi_set_bus_overflow
  scsi_clear_device_overflow scsi_clear_bus_overflow scsi_can_service_bus scsi_unblock_bus_noresume
  scsi_unblock_device_noresume scsi_block_bus_nolock scsi_block_device_nolock has_requests
  queue_if_ready scsi_add_queued_request scsi_add_queued_request_first scsi_remove_queued_request
  scsi_unblock_bus scsi_unblock_bus_int scsi_unblock_device scsi_unblock_device_int scsi_cont_send_bus
  scsi_cont_send_device scsi_block_bus scsi_block_bus_int scsi_block_device scsi_block_device_int
  apply_helper give_back_slots take_slots finish_autosense send_request refuse_request
  scsi_requeue_request scsi_resubmit_request submit_autosense scsi_device_queue_overflow scsi_request_finished
  scsi_check_enqueue_request make_dma_safe emulate_if_needed scsi_async_io scsi_abort scsi_check_exec_service
  ccb_low_alloc_hook scsi_alloc_ccb scsi_free_ccb scsi_create_device scsi_free_autosense_request scsi_free_device
  scsi_create_autosense_request scsi_init_device scsi_uninit_device scsi_device_removed scsi_force_get_device scsi_put_forced_device ignore
  scsi_alloc_dpc scsi_free_dpc scsi_schedule_dpc scsi_check_exec_dpc scsi_destroy_bus : moves.

Ltac moving := intros; autounfold with moves; cbv zeta; apply _.

(** ** The list of deferred calls *)

Section Quiet.
Context {Q : Type} `{Queueing Q}.
Implicit Types s : sys Q.

Definition same_dpcs s s' : Prop := dpc_part (sy_core s') = dpc_part (sy_core s).
#[export] Instance same_dpcs_preorder : PreOrder same_dpcs.
Proof. split; [done|]. unfold same_dpcs. intros s1 s2 s3 E1 E2. congruence. Qed.
Lemma quiet_modify f : (forall k, dpc_part (f k) = dpc_part k) -> Moves same_dpcs (modify f).
Proof. intros Hf s b s' [= <- <-]. apply Hf. Qed.
#[export] Instance quiet_upd f : Moves same_dpcs (upd_queues f).
Proof. intros s b s'. unfold upd_queues. destruct (f _); [|done]. by intros [= <- <-]. Qed.
End Quiet.

#[export] Hint Extern 1 (Moves same_dpcs (modify _)) => apply quiet_modify; intros; reflexivity : typeclass_instances.

#[export] Instance quiet_retry {Q A} `{Queueing Q} (m : op Q A) : Moves same_dpcs m -> Moves same_dpcs (with_retry m).
Proof. intros. unfold with_retry. moving. Qed.

#[export] Instance quiet_retry_then {Q} `{Queueing Q} (m m' : op Q unit) :
  Moves same_dpcs m -> Moves same_dpcs m' -> Moves same_dpcs (with_retry_then m m').
Proof. intros. unfold with_retry_then. moving. Qed.

(** The calls that schedule nothing. *)
Definition no_dpc (c : call) : bool :=
  match c with AllocDpc _ | FreeDpc _ | ScheduleDpc _ _ _ => false | _ => true end.

Lemma run_quiet {Q} `{Queueing Q} env c : no_dpc c = true -> Moves same_dpcs (run env c).
Proof. destruct c; try done; intros _; simpl; moving. Qed.

Lemma exec_service_quiet {Q} `{Queueing Q} : Moves same_dpcs scsi_check_exec_service.
Proof. moving. Qed.

(** ** The count of notifications *)

Section Steady.
Context {Q : Type} `{Queueing Q}.
Implicit Types s : sys Q.

Definition notified s : Z := b_start_service (bus (sy_core s)).
Definition same_count s s' : Prop := notified s' = notified s.
#[export] Instance same_count_preorder : PreOrder same_count.
Proof. split; [done|]. unfold same_count. intros s1 s2 s3 E1 E2. congruence. Qed.
Lemma steady_modify f : (forall k, b_start_service (bus (f k)) = b_start_service (bus k)) -> Moves same_count (modify f).
Proof. intros Hf s b s' [= <- <-]. apply Hf. Qed.
#[export] Instance steady_upd f : Moves same_count (upd_queues f).
Proof. intros s b s'. unfold upd_queues. destruct (f _); [|done]. by intros [= <- <-]. Qed.
End Steady.

#[export] Hint Extern 1 (Moves same_count (modify _)) => apply steady_modify; intros; reflexivity : typeclass_instances.

(** ** What there is to do

    An operation that makes the bus servicable notifies the service thread. *)

Definition heard s s' : Prop :=
  notified s <= notified s' /\ (servicable s' = true -> servicable s = true \/ notified s < notified s').
#[export] Instance heard_preorder : PreOrder heard.
Proof.
  split.
  - intros s. split; [lia|by left].
  - intros s1 s2 s3 [A1 A2] [B1 B2]. split; [lia|]. intros H. destruct (B2 H) as [E|]; [|right; lia].
    destruct (A2 E) as [|]; [by left|right; lia].
Qed.

Lemma heard_same s s' : notified s' = notified s -> servicable s' = servicable s -> heard s s'.
Proof. intros E1 E2. split; [lia|]. rewrite E2. auto. Qed.

Lemma heard_modify f :
  (forall k, b_start_service (bus (f k)) = b_start_service (bus k) /\ b_lock_count (bus (f k)) = b_lock_count (bus k)) ->
  Moves heard (modify f).
Proof.
  intros Hf s b s' [= <- <-]. destruct (Hf (sy_core s)) as [E1 E2]. apply heard_same; [done|].
  unfold servicable, s_bus, s_rw. simpl. by rewrite E2.
Qed.

Lemma heard_upd f : (forall q q', f q = Some q' -> rw q' = rw q) -> Moves heard (upd_queues f).
Proof.
  intros Hf s b s'. unfold upd_queues. destruct (f _) as [q'|] eqn:E; [|done]. intros [= <- <-].
  apply heard_same; [done|]. unfold servicable, s_bus, s_rw. simpl. by rewrite (Hf _ _ E).
Qed.

(** The queues of requests and the pool do not concern the devices that wait. *)
Ltac keeps_rw := apply heard_upd; intros q q'; simpl;
  unfold spec_new_device, spec_new_request, spec_free_device, spec_remove, spec_insert, spec_add;
  repeat (first [case_decide; [|done] | destruct (rq q !! _); [simpl|done]]); by intros [= <-].

#[export] Instance heard_new_device d : Moves heard (upd_queues (new_device d)). Proof. keeps_rw. Qed.
#[export] Instance heard_new_request r : Moves heard (upd_queues (new_request r)). Proof. keeps_rw. Qed.
#[export] Instance heard_free_device d : Moves heard (upd_queues (free_device d)). Proof. keeps_rw. Qed.
#[export] Instance heard_add_first d r : Moves heard (upd_queues (add_req_queue_first d r)). Proof. keeps_rw. Qed.
#[export] Instance heard_remove d r : Moves heard (upd_queues (remove_req_queue d r)). Proof. keeps_rw. Qed.

#[export] Instance heard_release : Moves heard release_start.
Proof. intros s b s' [= <- <-]. split; unfold notified; simpl; [lia|right; lia]. Qed.

(** A critical section that ends with the check. *)
Lemma can_service_result s : scsi_can_service_bus s = Some (servicable s, s).
Proof. done. Qed.

#[export] Instance heard_retry {A} (m : op rqueues A) : Moves same_count m -> Moves heard (with_retry m).
Proof.
  intros Hm s a s'. unfold with_retry. intros (b & s1 & E1 & H1)%bind_some. rewrite can_service_result in E1.
  injection E1 as <- <-. apply bind_some in H1 as (a2 & s2 & E2 & H2). pose proof (Hm _ _ _ E2) as En. unfold same_count in En.
  apply bind_some in H2 as (b3 & s3 & E3 & H3). rewrite can_service_result in E3. injection E3 as <- <-.
  apply bind_some in H3 as ([] & s4 & E4 & H4). injection H4 as <- <-. unfold when in E4.
  destruct (servicable s) eqn:Es, (servicable s2) eqn:Es2; cbn [negb andb] in E4; try (injection E4 as <-; split; [lia|auto; by rewrite Es2]).
  injection E4 as <-. unfold notified in *. simpl. split; unfold notified; simpl; [lia|right; lia].
Qed.

#[export] Hint Extern 1 (Moves heard (modify _)) => apply heard_modify; intros; split; reflexivity : typeclass_instances.

(** *** A request that is queued without a notification *)

(** Only requests change. *)
Definition same_rest s s' : Prop := s_devs s' = s_devs s /\ s_bus s' = s_bus s /\ sy_queues s' = sy_queues s.
#[export] Instance same_rest_preorder : PreOrder same_rest.
Proof. split; [done|]. intros s1 s2 s3 (A1 & A2 & A3) (B1 & B2 & B3). split_and!; congruence. Qed.
Lemma rest_modify f : (forall k, devs (f k) = devs k /\ bus (f k) = bus k) -> Moves same_rest (modify f).
Proof. intros Hf s b s' [= <- <-]. destruct (Hf (sy_core s)) as [E1 E2]. by split_and!. Qed.

#[export] Hint Extern 1 (Moves same_rest (modify _)) => apply rest_modify; intros; split; reflexivity : typeclass_instances.

(** A critical section with something after it that does not concern the
    queues. *)
#[export] Instance heard_retry_then (m m' : op rqueues unit) :
  Moves same_count m -> Moves same_rest m' -> Moves heard (with_retry_then m m').
Proof.
  intros Hm Hm' s [] s'. unfold with_retry_then. intros (b & s1 & E1 & H1)%bind_some. rewrite can_service_result in E1.
  injection E1 as <- <-. apply bind_some in H1 as ([] & s2 & E2 & H2). pose proof (Hm _ _ _ E2) as En. unfold same_count in En.
  apply bind_some in H2 as (b3 & s3 & E3 & H3). rewrite can_service_result in E3. injection E3 as <- <-.
  apply bind_some in H3 as ([] & s4 & E4 & H4). destruct (Hm' _ _ _ E4) as (_ & Eb & Eq).
  assert (N4 : notified s4 = notified s2) by (unfold notified, s_bus in *; by rewrite Eb).
  assert (V4 : servicable s4 = servicable s2) by (unfold servicable, s_rw; by rewrite Eb, Eq).
  unfold when in H4. destruct (servicable s2) eqn:Es2, (servicable s) eqn:Es; cbn [negb andb] in H4;
    try (injection H4 as <-; split; [lia|rewrite V4; auto; done]).
  injection H4 as <-. unfold notified in *. simpl. split; unfold notified; simpl; [lia|right; lia].
Qed.

(** What makes a queued request safe: ready devices wait already. *)
Record settled s : Prop := {
  se_ready : forall d v q, s_devs s !! d = Some v -> s_rq s !! d = Some q -> hd NULL q <> NULL -> d_lock_count v = 0 -> d ∈ s_rw s;
  se_locks : forall d v, s_devs s !! d = Some v -> 0 <= d_lock_count v;
  se_bus : 0 <= b_lock_count (s_bus s);
  se_wait : NULL ∉ s_rw s
}.

Lemma settled_rest s s' : same_rest s s' -> settled s -> settled s'.
Proof. intros (E1 & E2 & E3) []. split; unfold s_rq, s_rw in *; rewrite ?E1, ?E2, ?E3; done. Qed.

Lemma inv_settled N k s : inv N ∅ k s -> settled s.
Proof.
  intros H. split.
  - intros d v q Hv Hq Hn Hl. apply (i_ready _ _ _ _ H d v q); [set_solver|done|done|by intros ->|done].
  - intros d v Hv. destruct (i_devs _ _ _ _ H d v Hv). lia.
  - destruct (i_bus _ _ _ _ H). destruct (b_sim_overflow _), (b_left_slots _ =? 0); simpl in *; lia.
  - intros Hw. destruct (i_wait _ _ _ _ H NULL Hw) as (q & Hq & _). destruct (i_null _ _ _ _ H). congruence.
Qed.

(** The bus can only be served when it could before. *)
Definition no_wake s s' : Prop := notified s' = notified s /\ (servicable s' = true -> servicable s = true).
#[export] Instance no_wake_preorder : PreOrder no_wake.
Proof. split; [done|]. intros s1 s2 s3 [A1 A2] [B1 B2]. split; [congruence|auto]. Qed.
Lemma no_wake_heard s s' : no_wake s s' -> heard s s'.
Proof. intros [E H]. split; [lia|auto]. Qed.

(** An operation that ends with the queueing of a request. *)
Class Ends {A} (m : op rqueues A) : Prop := ends s a s' : settled s -> m s = Some (a, s') -> heard s s'.

Lemma ends_rest {A} (m : op rqueues A) : Moves same_rest m -> Ends m.
Proof.
  intros Hm s a s' _ E. destruct (Hm _ _ _ E) as (_ & E2 & E3).
  apply heard_same; unfold notified, servicable, s_rw, s_bus in *; by rewrite ?E2, ?E3.
Qed.
Lemma ends_bind {A B} (m : op rqueues A) (f : A -> op rqueues B) :
  Moves same_rest m -> (forall a, Ends (f a)) -> Ends (m ≫= f).
Proof.
  intros Hm Hf s b s' Hs (a & s1 & H1 & H2)%bind_some. pose proof (Hm _ _ _ H1) as Hr.
  etrans; [by apply (ends_rest m Hm s a s1)|]. eapply Hf; [by eapply settled_rest|done].
Qed.
Lemma ends_if {A} (c : bool) (m1 m2 : op rqueues A) : Ends m1 -> Ends m2 -> Ends (if c then m1 else m2).
Proof. by destruct c. Qed.

(** Empty stays empty. *)
Definition still_empty s s' : Prop := notified s' = notified s /\ (s_rw s = [] -> s_rw s' = []).
#[export] Instance still_empty_preorder : PreOrder still_empty.
Proof. split; [done|]. intros s1 s2 s3 [A1 A2] [B1 B2]. split; [congruence|auto]. Qed.
Lemma empty_modify f : (forall k, b_start_service (bus (f k)) = b_start_service (bus k)) -> Moves still_empty (modify f).
Proof. intros Hf s b s' [= <- <-]. split; [apply Hf|done]. Qed.
#[local] Hint Extern 1 (Moves still_empty (modify _)) => apply empty_modify; intros; reflexivity : typeclass_instances.
#[local] Instance empty_remove d : Moves still_empty (upd_queues (remove_device_queue d)).
Proof.
  intros s b s'. unfold upd_queues. simpl. unfold known. destruct (rq _ !! d); [|done]. simpl. intros [= <- <-].
  split; [done|]. unfold s_rw. simpl. by intros ->.
Qed.

Lemma take_empty r d : Moves still_empty (take_slots r d).
Proof. moving. Qed.

Lemma servicable_empty s : s_rw s = [] -> servicable s = false.
Proof. intros E. unfold servicable. rewrite E. apply andb_false_r. Qed.

(** Queueing a request of a ready device finds it waiting. *)
Lemma add_queued_wakes s r c v q s' :
  settled s -> s_ccbs s !! r = Some c -> s_devs s !! c_device c = Some v -> s_rq s !! c_device c = Some q ->
  (d_lock_count v <> 0 \/ hd NULL q <> NULL \/ b_lock_count (s_bus s) <> 0 \/ s_rw s <> []) ->
  scsi_add_queued_request r s = Some (tt, s') -> no_wake s s'.
Proof.
  intros Hs Hc Hv Hq Hcase. unfold scsi_add_queued_request.
  intros (c1 & s1 & E & H1)%bind_some. assert (Some (c, s) = Some (c1, s1)) as [= <- <-].
  { rewrite <-E. unfold get_ccb, get, guarded, mbind, op_bind, s_ccbs in *. by rewrite Hc. }
  clear E. cbv zeta in H1. set (d := c_device c) in *. apply bind_some in H1 as ([] & s1 & E1 & H1).
  assert (Hr1 : same_rest s s1) by (revert E1; apply (_ : Moves same_rest (upd_ccb r (set_c_state SCSI_STATE_QUEUED)))).
  apply bind_some in H1 as (v1 & s2 & E2 & H1).
  assert (same_rest s1 s2) as Hr2 by (revert E2; apply (_ : Moves same_rest (get_dev d))).
  apply bind_some in H1 as (m & s3 & [= <- <-] & H1). apply bind_some in H1 as ([] & s4 & E4 & H1).
  destruct Hr1 as (R1 & R2 & R3), Hr2 as (S1 & S2 & S3).
  assert (sy_core s4 = sy_core s2 /\ s_rw s4 = s_rw s2) as [Ecore Erw].
  { unfold upd_queues in E4. destruct (insert_new_request _ _ _ _ _) as [q4|] eqn:Ei; [|done]. injection E4 as <-. split; [done|].
    simpl in Ei. unfold spec_insert, spec_add in Ei. destruct (rq _ !! d); [|done]. simpl in Ei.
    case_decide; [|done]. case_decide; [|done]. by injection Ei as <-. }
  apply bind_some in H1 as (v2 & s5 & E5 & H1).
  assert (Some (v, s4) = Some (v2, s5)) as [= <- <-].
  { rewrite <-E5. unfold get_dev, get, guarded, mbind, op_bind, s_devs in *. rewrite Ecore, S1, R1. by rewrite Hv. }
  assert (Eb : s_bus s4 = s_bus s) by (unfold s_bus in *; rewrite Ecore; congruence).
  assert (Ew : s_rw s4 = s_rw s) by (rewrite Erw; unfold s_rw; congruence).
  assert (N4 : no_wake s s4) by (split; unfold notified, servicable, s_bus in *; rewrite ?Eb, ?Ew; done).
  unfold when in H1. destruct (Z.eqb_spec (d_lock_count v) 0) as [El|El]; [|by injection H1 as <-].
  etrans; [exact N4|]. unfold upd_queues in H1. simpl in H1. unfold known in H1. destruct (rq _ !! d); [|done]. simpl in H1.
  injection H1 as <-. split; [done|]. change (s_rw s4) with (rw (sy_queues s4)) in Ew. unfold servicable, s_rw. simpl. rewrite Ew.
  change (s_bus (Sys _ _)) with (s_bus s4). rewrite Eb. case_decide as Hd; [done|].
  destruct (Z.eqb_spec (b_lock_count (s_bus s)) 0) as [Ez|Ez]; [|done]. cbn [andb].
  destruct Hcase as [?|[Hn|[?|Hn]]]; [done| |done|].
  - destruct Hd. by apply (se_ready _ Hs d v q).
  - destruct (s_rw s); [done|]. done.
Qed.

Lemma enqueue_ends r : Ends (execute ← scsi_check_enqueue_request r; when execute (send_request r)).
Proof.
  intros s [] s' Hs (execute & s1 & E1 & E2)%bind_some.
  assert (Hsend : Moves same_rest (when execute (send_request r))) by moving.
  pose proof (Hsend _ _ _ E2) as (_ & Eb & Eq). trans s1.
  2: { apply heard_same; unfold notified, servicable, s_rw, s_bus in *; by rewrite ?Eb, ?Eq. }
  clear s' E2 Hsend Eb Eq. unfold scsi_check_enqueue_request in E1.
  apply bind_some in E1 as (c & sc & Ec & E1). assert (sc = s /\ s_ccbs s !! r = Some c) as [-> Hc].
  { unfold get_ccb, get, guarded, mbind, op_bind in Ec. unfold s_ccbs. destruct (_ !! r); [|done]. by simplify_eq. }
  clear Ec. cbv zeta in E1. set (d := c_device c) in *.
  apply bind_some in E1 as (v & sv & Ev & E1). assert (sv = s /\ s_devs s !! d = Some v) as [-> Hv].
  { unfold get_dev, get, guarded, mbind, op_bind in Ev. unfold s_devs. destruct (_ !! d); [|done]. by simplify_eq. }
  clear Ev. apply bind_some in E1 as (b & sb & [= <- <-] & E1).
  apply bind_some in E1 as (some & ss & Es & E1). unfold has_requests in Es.
  apply bind_some in Es as (h & sh & Eh & [= <- <-]). unfold queues in Eh. simpl in Eh.
  destruct (rq (sy_queues s) !! d) as [q|] eqn:Hq; [|done]. simpl in Eh. injection Eh as <- <-.
  apply bind_some in E1 as (w & sw & [= <- <-] & E1). change (hd NULL (rw (sy_queues s))) with (hd NULL (s_rw s)) in E1.
  destruct (_ || _) eqn:Ecase in E1.
  - apply bind_some in E1 as ([] & s2 & Eadd & [= <- <-]). apply no_wake_heard.
    apply (add_queued_wakes s r c v q s2 Hs Hc Hv Hq); [|done].
    apply orb_prop in Ecase as [Ecase|Ew]; [apply orb_prop in Ecase as [Ecase|El]; [apply orb_prop in Ecase as [El|En]|]|].
    + left. lia.
    + right. left. by apply negb_true_iff, Z.eqb_neq in En.
    + right. right. left. unfold s_bus. lia.
    + right. right. right. apply negb_true_iff, Z.eqb_neq in Ew. by destruct (s_rw s).
  - apply bind_some in E1 as ([] & s2 & Et & [= <- <-]). apply no_wake_heard.
    destruct (take_empty r d s tt s2 Et) as [En Hw]. split; [done|].
    apply orb_false_elim in Ecase as [_ Ew]. apply negb_false_iff, Z.eqb_eq in Ew.
    destruct (s_rw s) as [|x w] eqn:Erw; [rewrite servicable_empty by auto; done|].
    exfalso. apply (se_wait _ Hs). rewrite Erw. simpl in Ew. subst. set_solver.
Qed.

Lemma async_ends env r : Ends (scsi_async_io env r).
Proof.
  unfold scsi_async_io. apply ends_bind; [moving|]. intros c. cbv zeta.
  repeat first [apply enqueue_ends | apply ends_rest; solve [moving] | apply ends_bind; [solve [moving]|intros] | apply ends_if].
Qed.

(** *** The calls *)

(** Blocking makes nothing servicable. *)
Lemma block_bus_wakes s s' : 0 <= b_lock_count (s_bus s) -> scsi_block_bus s = Some (tt, s') -> heard s s'.
Proof.
  intros Hl [= <-]. apply no_wake_heard. split; [done|]. unfold servicable, s_bus in *. simpl.
  rewrite (proj2 (Z.eqb_neq _ 0)) by lia. done.
Qed.

Lemma without_hd d w : NULL ∉ w -> hd NULL (without d w) <> NULL -> hd NULL w <> NULL.
Proof. intros Hn. destruct w as [|x w]; [done|]. intros _ E. apply Hn. simpl in E. rewrite E. set_solver. Qed.

Lemma remove_wakes s d s' : NULL ∉ s_rw s -> upd_queues (remove_device_queue d) s = Some (tt, s') -> no_wake s s' /\ NULL ∉ s_rw s'.
Proof.
  intros Hn. unfold upd_queues. simpl. unfold known. destruct (rq _ !! d); [|done]. simpl. intros [= <-].
  split; [split; [done|]|].
  - unfold servicable, s_bus, s_rw in *. simpl. intros [E1 E2]%andb_prop. rewrite E1. cbn [andb].
    apply negb_true_iff, Z.eqb_neq in E2. by apply negb_true_iff, Z.eqb_neq, (without_hd d).
  - unfold s_rw in *. simpl. intros [_ ?]%without_elem. done.
Qed.

Lemma block_device_wakes s d s' : NULL ∉ s_rw s -> scsi_block_device d s = Some (tt, s') -> heard s s'.
Proof.
  intros Hn. unfold scsi_block_device, scsi_block_device_int, scsi_block_device_nolock.
  intros ([] & s2 & E2 & E3)%bind_some. apply bind_some in E2 as ([] & s1 & E1 & E2).
  assert (same_rw : no_wake s s1 /\ s_rw s1 = s_rw s).
  { revert E1. unfold upd_dev, get_dev, get, guarded, modify, mbind, op_bind. destruct (_ !! d); [|done].
    intros [= <-]. by split. }
  destruct same_rw as [N1 R1]. rewrite <-R1 in Hn. destruct (remove_wakes _ _ _ Hn E2) as [N2 Hn2].
  destruct (remove_wakes _ _ _ Hn2 E3) as [N3 _]. apply no_wake_heard. by do 2 (etrans; [eassumption|]).
Qed.

Lemma run_heard env c s s' : settled s -> run env c s = Some (tt, s') -> heard s s'.
Proof.
  intros Hs. assert (Hm : Moves heard (run env c) -> run env c s = Some (tt, s') -> heard s s') by (intros Hm; apply Hm).
  destruct c; simpl; try (apply Hm; simpl; moving).
  - by apply async_ends.
  - apply block_bus_wakes, (se_bus _ Hs).
  - apply block_device_wakes, (se_wait _ Hs).
Qed.

(** ** Devices that wait are not locked

    But for the devices [X], to which a request was put back because of a full
    bus: [scsi_requeue_request] lets its device wait without a look at its
    lock. *)

Record unlocked_but (X : gset Z) s : Prop := {
  ub_ok : forall d v, s_devs s !! d = Some v -> dev_ok v;
  ub_free : forall d v, s_devs s !! d = Some v -> d ∉ X -> d ∈ s_rw s -> d_lock_count v = 0
}.

Definition keeps_unlocked (X : gset Z) s s' : Prop := unlocked_but X s -> unlocked_but X s'.
#[export] Instance keeps_unlocked_preorder X : PreOrder (keeps_unlocked X).
Proof. split; [intros s H; exact H|]. intros s1 s2 s3 H1 H2 H. exact (H2 (H1 H)). Qed.

Lemma unlocked_more X Y s : X ⊆ Y -> unlocked_but X s -> unlocked_but Y s.
Proof. intros HX [H1 H2]. split; [done|]. intros d v Hv Hd. apply H2; [done|set_solver]. Qed.

(** One device that waits no more, or is not locked, or had not to be. *)
Lemma unlocked_dev X s d v v' w :
  unlocked_but X s -> s_devs s !! d = Some v -> (dev_ok v -> dev_ok v') ->
  (forall x, x ∈ w -> x = d \/ x ∈ s_rw s) ->
  (d ∉ X -> d ∈ w -> dev_ok v -> (d ∈ s_rw s -> d_lock_count v = 0) -> d_lock_count v' = 0) ->
  unlocked_but X (with_queues (set_rw w (sy_queues s)) (with_devs (<[d := v']>) s)).
Proof.
  intros [H1 H2] Hv Ho Hw Hl. split; unfold s_devs, s_rw in *; simpl; intros x y.
  - destruct (decide (d = x)) as [<-|]; [rewrite lookup_insert_eq; intros [= <-]; eauto|rewrite lookup_insert_ne by done; eauto].
  - destruct (decide (d = x)) as [<-|].
    + rewrite lookup_insert_eq. intros [= <-] Hx Hin. apply Hl; eauto.
    + rewrite lookup_insert_ne by done. intros Hy Hx [->|Hin]%Hw; [done|eauto].
Qed.

Section Unlocked.
Context {X : gset Z}.
Notation R := (keeps_unlocked X).

Lemma unlocked_modify f : (forall k, devs (f k) = devs k) -> Moves R (modify f).
Proof.
  intros Hf s b s' [= <- <-] [H1 H2]. split; unfold s_devs, s_rw in *; simpl; intros d v; rewrite Hf; eauto.
Qed.

(** Other waiting devices. *)
Lemma unlocked_rw f :
  (forall q q', f q = Some q' -> forall d, d ∈ rw q' -> d ∈ rw q) -> Moves R (upd_queues f).
Proof.
  intros Hf s b s'. unfold upd_queues. destruct (f _) as [q'|] eqn:E; [|done]. intros [= <- <-] [H1 H2].
  split; [done|]. unfold s_devs, s_rw in *. simpl. intros d v Hv Hd Hin. eapply H2; [done|done|]. by eapply Hf.
Qed.

Ltac same_rw := apply unlocked_rw; intros q q'; simpl;
  unfold spec_new_device, spec_new_request, spec_free_device, spec_remove, spec_insert, spec_add;
  repeat (first [case_decide; [|done] | destruct (rq q !! _); [simpl|done]]); by intros [= <-].

#[export] Instance unlocked_new_device d : Moves R (upd_queues (new_device d)). Proof. same_rw. Qed.
#[export] Instance unlocked_new_request r : Moves R (upd_queues (new_request r)). Proof. same_rw. Qed.
#[export] Instance unlocked_free_device d : Moves R (upd_queues (free_device d)). Proof. same_rw. Qed.
#[export] Instance unlocked_add_first d r : Moves R (upd_queues (add_req_queue_first d r)). Proof. same_rw. Qed.
#[export] Instance unlocked_insert m l d r : Moves R (upd_queues (insert_new_request m l d r)). Proof. same_rw. Qed.
#[export] Instance unlocked_remove d r : Moves R (upd_queues (remove_req_queue d r)). Proof. same_rw. Qed.
#[export] Instance unlocked_remove_device d : Moves R (upd_queues (remove_device_queue d)).
Proof.
  apply unlocked_rw. intros q q'. simpl. unfold known. destruct (rq q !! d); [|done]. intros [= <-] x [_ ?]%without_elem. done.
Qed.
#[export] Instance unlocked_set_waiting d : Moves R (upd_queues (set_waiting_devices d)).
Proof.
  apply unlocked_rw. intros q q'. simpl. destruct (rotate_to _ _ _) eqn:E; [|done]. intros [= <-] x. simpl.
  apply rotate_to_spec in E as (w1 & w2 & -> & ->). set_solver.
Qed.

(** A device that does not change its lock. *)
Lemma unlocked_upd d f :
  (forall v, d_lock_count (f v) = d_lock_count v /\ d_sim_overflow (f v) = d_sim_overflow v /\ d_blocked (f v) = d_blocked v) ->
  Moves R (upd_dev d f).
Proof.
  intros Hf s b s'. unfold upd_dev, get_dev, get, guarded, modify, mbind, op_bind. destruct (_ !! d) as [v|] eqn:Hv; [|done].
  intros [= <- <-] H. destruct (Hf v) as (E1 & E2 & E3).
  replace (sy_queues s) with (set_rw (s_rw s) (sy_queues s)) by (unfold s_rw; by destruct (sy_queues s)).
  apply (unlocked_dev X s d v (f v) (s_rw s)); [done|done| |auto|].
  - intros []. split; rewrite ?E1, ?E2, ?E3; done.
  - rewrite E1. auto.
Qed.

(** A device that is created is not locked; one that is freed is no more. *)
#[export] Instance unlocked_create d v : d_lock_count v = 0 -> d_sim_overflow v = 0 -> d_blocked v = (0, 0) ->
  Moves R (modify (fun k => set_devs (<[d := v]> (devs k)) k)).
Proof.
  intros E1 E2 E3 s b s' [= <- <-] [H1 H2]. split; unfold s_devs, s_rw in *; simpl; intros x y.
  - destruct (decide (d = x)) as [<-|]; [rewrite lookup_insert_eq; intros [= <-]|rewrite lookup_insert_ne by done; eauto].
    split; rewrite ?E1, ?E2, ?E3; simpl; lia.
  - destruct (decide (d = x)) as [<-|]; [rewrite lookup_insert_eq; by intros [= <-]|rewrite lookup_insert_ne by done; eauto].
Qed.
#[export] Instance unlocked_delete d : Moves R (modify (fun k => set_devs (delete d (devs k)) k)).
Proof.
  intros s b s' [= <- <-] [H1 H2]. split; unfold s_devs, s_rw in *; simpl; intros x y [_ Hx]%lookup_delete_Some; eauto.
Qed.

(** *** The operations on locks *)

(** A change of a device, with what it does to the waiting devices. *)
Lemma upd_dev_some d f s s' :
  upd_dev d f s = Some (tt, s') -> exists v, s_devs s !! d = Some v /\ s' = with_devs (<[d := f v]>) s.
Proof.
  unfold upd_dev, get_dev, get, guarded, modify, mbind, op_bind, s_devs. destruct (_ !! d) as [v|]; [|done].
  intros [= <-]. by exists v.
Qed.
Lemma get_dev_some d s v s' : get_dev (Q := rqueues) d s = Some (v, s') -> s' = s /\ s_devs s !! d = Some v.
Proof. unfold get_dev, get, guarded, mbind, op_bind, s_devs. destruct (_ !! d); [|done]. by intros [= <- <-]. Qed.

Lemma same_waiting s : with_queues (set_rw (s_rw s) (sy_queues s)) s = s.
Proof. destruct s as [k [q w c]]. done. Qed.

(** It gets a lock, and leaves the queue. *)
Lemma unlocked_lock d f : (forall v, dev_ok v -> dev_ok (f v)) ->
  Moves R (upd_dev d f ;; upd_queues (remove_device_queue d)).
Proof.
  intros Hf s [] s' ([] & s1 & (v & Hv & ->)%upd_dev_some & H1)%bind_some H. revert H1. unfold upd_queues. simpl. unfold known.
  destruct (rq _ !! d); [|done]. simpl. intros [= <-].
  apply (unlocked_dev X s d v (f v) (without d (s_rw s))); [done|done|auto| |].
  - intros x [_ ?]%without_elem. by right.
  - intros _ [Hn _]%without_elem. done.
Qed.

(** It loses a lock that it has, so it does not wait. *)
Lemma unlocked_unlock d f s :
  (forall v, s_devs s !! d = Some v -> dev_ok v -> dev_ok (f v) /\ (d_lock_count v = 0 -> d_lock_count (f v) = 0)) ->
  forall s', upd_dev d f s = Some (tt, s') -> R s s'.
Proof.
  intros Hf s' (v & Hv & ->)%upd_dev_some H. rewrite <-(same_waiting (with_devs _ s)).
  apply (unlocked_dev X s d v (f v) (s_rw s)); [done|done| |auto|].
  - intros Ho. by apply Hf.
  - intros _ Hin Ho Hl. by apply (Hf v Hv Ho), Hl.
Qed.

#[export] Instance unlocked_block d b : Moves R (scsi_block_device_nolock d b).
Proof. apply unlocked_lock. intros v []. destruct b; split; simpl in *; try done; lia. Qed.

(** [scsi_set_device_overflow] is followed by the removal of the device. *)
#[export] Instance unlocked_set_overflow {A} d (m : op rqueues A) :
  Moves R m -> Moves R (scsi_set_device_overflow d ;; upd_queues (remove_device_queue d) ;; m).
Proof.
  intros Hm s a s' ([] & s1 & E1 & H1)%bind_some. apply bind_some in H1 as ([] & s2 & E2 & H2).
  trans s2; [|by eapply Hm]. eapply (unlocked_lock d); [|unfold mbind, op_bind; unfold scsi_set_device_overflow in E1; rewrite E1; exact E2].
  intros v [E F1 F2 F3]. destruct v. simpl in *. split; simpl; [|by right|done|done].
  destruct F1 as [-> | ->]; [change (Z.lxor 0 1) with 1|change (Z.lxor 1 1) with 0]; lia.
Qed.

#[export] Instance unlocked_clear_overflow d : Moves R (scsi_clear_device_overflow d).
Proof.
  intros s [] s' E. eapply unlocked_unlock; [|exact E]. intros v _ []. destruct v. simpl in *.
  split; [split; simpl; lia|lia].
Qed.

#[export] Instance unlocked_unblock d b : Moves R (scsi_unblock_device_noresume d b).
Proof.
  intros s [] s' (v & s1 & [-> Hv]%get_dev_some & H1)%bind_some. destruct (Z.ltb_spec 0 (count_of b (d_blocked v))) as [Hb|Hb].
  - eapply unlocked_unlock; [|exact H1]. intros v' Hv' []. assert (v' = v) as -> by congruence. destruct v. simpl in *.
    destruct b; simpl in *; (split; [split; simpl; try done; lia|lia]).
  - revert H1. apply (unlocked_modify). done.
Qed.

(** A device that is not locked may wait. *)
Lemma unlocked_add s d v (f : rqueues -> option rqueues) s' :
  (forall q q', f q = Some q' -> forall x, x ∈ rw q' -> x = d \/ x ∈ rw q) ->
  s_devs s !! d = Some v -> d ∈ X \/ d_lock_count v = 0 -> upd_queues f s = Some (tt, s') -> R s s'.
Proof.
  intros Hf Hv Hl. unfold upd_queues. destruct (f _) as [q'|] eqn:E; [|done]. intros [= <-] [H1 H2].
  split; [done|]. unfold s_devs, s_rw in *. simpl. intros x y Hy Hx [->|Hin]%(Hf _ _ E); [|eauto].
  destruct Hl as [|Hl]; [done|]. by simplify_eq.
Qed.
Lemma added_last d q q' : add_device_queue_last d q = Some q' -> forall x, x ∈ rw q' -> x = d \/ x ∈ rw q.
Proof. simpl. unfold known. destruct (rq q !! d); [|done]. simpl. intros [= <-]. simpl. case_decide; set_solver. Qed.
Lemma added_first d q q' : add_device_queue_first d q = Some q' -> forall x, x ∈ rw q' -> x = d \/ x ∈ rw q.
Proof. simpl. unfold known. destruct (rq q !! d); [|done]. simpl. intros [= <-]. simpl. case_decide; set_solver. Qed.

(** What is done when the device is not locked. *)
Lemma unlocked_when d (g : scsi_device_info -> bool) (m : op rqueues unit) s :
  (forall v s', s_devs s !! d = Some v -> d_lock_count v = 0 -> m s = Some (tt, s') -> R s s') ->
  (forall v, g v = true -> d_lock_count v = 0) ->
  forall s', (v ← get_dev d; when (g v) m) s = Some (tt, s') -> R s s'.
Proof.
  intros Hm Hg s' (v & s1 & [-> Hv]%get_dev_some & H1)%bind_some. unfold when in H1. destruct (g v) eqn:Eg.
  - exact (Hm v s' Hv (Hg v Eg) H1).
  - injection H1 as <-. intros H. exact H.
Qed.

#[export] Instance unlocked_add_last_when d :
  Moves R (v ← get_dev d; when (d_lock_count v =? 0) (upd_queues (add_device_queue_last d))).
Proof.
  intros s [] s'. apply unlocked_when; [|intros v; lia]. intros v s1 Hv Hl. apply (unlocked_add s d v); [|done|by right].
  intros q q'. apply added_last.
Qed.
#[export] Instance unlocked_add_first_when d :
  Moves R (v ← get_dev d; when (d_lock_count v =? 0) (upd_queues (add_device_queue_first d))).
Proof.
  intros s [] s'. apply unlocked_when; [|intros v; lia]. intros v s1 Hv Hl. apply (unlocked_add s d v); [|done|by right].
  intros q q'. apply added_first.
Qed.
#[export] Instance unlocked_add_turn_when d :
  Moves R (v ← get_dev d; when (d_lock_count v =? 0)
             (upd_queues (add_device_queue_first d) ;; upd_queues (set_waiting_devices d))).
Proof.
  intros s [] s'. apply unlocked_when; [|intros v; lia]. intros v s2 Hv Hl ([] & s1 & E1 & E2)%bind_some. trans s1.
  - revert E1. apply (unlocked_add s d v); [|done|by right]. intros q q'. apply added_first.
  - by apply (unlocked_set_waiting d s1 tt).
Qed.
#[export] Instance unlocked_ready d : Moves R (queue_if_ready d).
Proof.
  intros s [] s' (v & s1 & [-> Hv]%get_dev_some & H1)%bind_some. apply bind_some in H1 as (some & s2 & E2 & H2).
  assert (s2 = s) as ->.
  { unfold has_requests in E2. apply bind_some in E2 as (h & s3 & E3 & [= _ <-]). unfold queues in E3.
    destruct (queued_reqs _ _); [|done]. by injection E3. }
  unfold when in H2. destruct (Z.eqb_spec (d_lock_count v) 0) as [El|]; cbn [andb] in H2; [destruct some|];
    try (injection H2 as <-; intros H; exact H).
  revert H2. apply (unlocked_add s d v); [|done|by right]. intros q q'. apply added_last.
Qed.

(** [scsi_cont_send_device] takes the overflow back. *)
#[export] Instance unlocked_cont d (m : op rqueues unit) :
  Moves R m ->
  Moves R (v ← get_dev d;
           when (negb (d_sim_overflow v =? 0))
             (upd_dev d (fun d => set_d_lock_count (d_lock_count d - 1) (set_d_sim_overflow 0 d)) ;; queue_if_ready d) ;;
           m).
Proof.
  intros Hm s [] s' (v & s1 & [-> Hv]%get_dev_some & H1)%bind_some. apply bind_some in H1 as ([] & s1 & H1 & H2).
  trans s1; [clear H2|by eapply Hm]. unfold when in H1.
  destruct (Z.eqb_spec (d_sim_overflow v) 0) as [|Ho]; [injection H1 as <-; intros H; exact H|].
  apply bind_some in H1 as ([] & s2 & E2 & E3). trans s2; [|by apply (unlocked_ready d s2 tt)].
  eapply unlocked_unlock; [|exact E2]. intros v' Hv' []. assert (v' = v) as -> by congruence. destruct v. simpl in *.
  split; [split; simpl; try done; lia|lia].
Qed.

End Unlocked.

#[export] Hint Extern 1 (Moves (keeps_unlocked _) (modify _)) => apply unlocked_modify; intros; reflexivity : typeclass_instances.
#[export] Hint Extern 1 (Moves (keeps_unlocked _) (modify (fun k => set_devs (<[_ := _]> _) k))) => apply unlocked_create; reflexivity : typeclass_instances.
#[export] Hint Extern 1 (Moves (keeps_unlocked _) (upd_dev _ _)) => apply unlocked_upd; intros; split_and!; reflexivity : typeclass_instances.

#[export] Hint Unfold get_ccb get_dev get_dpc upd_ccb upd_dpc get_bus upd_bus emit panic
  release_start release_completion scsi_set_bus_overflow scsi_clear_bus_overflow scsi_can_service_bus
  scsi_unblock_bus_noresume scsi_block_bus_nolock has_requests
  scsi_remove_queued_request : unlock_parts.

#[export] Hint Unfold scsi_add_queued_request scsi_add_queued_request_first
  scsi_unblock_bus scsi_unblock_bus_int scsi_unblock_device scsi_unblock_device_int scsi_cont_send_bus
  scsi_cont_send_device scsi_block_bus scsi_block_bus_int scsi_block_device scsi_block_device_int
  apply_helper give_back_slots take_slots finish_autosense send_request refuse_request
  scsi_requeue_request scsi_resubmit_request submit_autosense scsi_device_queue_overflow scsi_request_finished
  scsi_check_enqueue_request make_dma_safe emulate_if_needed scsi_async_io scsi_abort scsi_check_exec_service
  ccb_low_alloc_hook scsi_alloc_ccb scsi_free_ccb scsi_create_device scsi_free_autosense_request scsi_free_device
  scsi_create_autosense_request scsi_init_device scsi_uninit_device scsi_device_removed scsi_force_get_device scsi_put_forced_device ignore
  scsi_alloc_dpc scsi_free_dpc scsi_schedule_dpc scsi_check_exec_dpc scsi_destroy_bus with_retry with_retry_then : unlocks.

Ltac simple_op := intros; autounfold with unlock_parts; cbv zeta; apply _.

Section UnlockedParts.
Context {X : gset Z}.
Notation R := (keeps_unlocked X).

#[export] Instance unlocked_get_ccb r : Moves R (get_ccb r). Proof. simple_op. Qed.
#[export] Instance unlocked_get_dev d : Moves R (get_dev d). Proof. simple_op. Qed.
#[export] Instance unlocked_get_dpc d : Moves R (get_dpc d). Proof. simple_op. Qed.
#[export] Instance unlocked_upd_ccb r f : Moves R (upd_ccb r f). Proof. simple_op. Qed.
#[export] Instance unlocked_upd_dpc r f : Moves R (upd_dpc r f). Proof. simple_op. Qed.
#[export] Instance unlocked_get_bus : Moves R get_bus. Proof. simple_op. Qed.
#[export] Instance unlocked_upd_bus f : Moves R (upd_bus f). Proof. simple_op. Qed.
#[export] Instance unlocked_emit e : Moves R (emit e). Proof. simple_op. Qed.
#[export] Instance unlocked_panic : Moves R panic. Proof. simple_op. Qed.
#[export] Instance unlocked_release : Moves R release_start. Proof. simple_op. Qed.
#[export] Instance unlocked_completion r : Moves R (release_completion r). Proof. simple_op. Qed.
#[export] Instance unlocked_bus_overflow : Moves R scsi_set_bus_overflow. Proof. simple_op. Qed.
#[export] Instance unlocked_bus_clear : Moves R scsi_clear_bus_overflow. Proof. simple_op. Qed.
#[export] Instance unlocked_can : Moves R scsi_can_service_bus. Proof. simple_op. Qed.
#[export] Instance unlocked_bus_unblock b : Moves R (scsi_unblock_bus_noresume b). Proof. simple_op. Qed.
#[export] Instance unlocked_bus_block b : Moves R (scsi_block_bus_nolock b). Proof. simple_op. Qed.
#[export] Instance unlocked_has d : Moves R (has_requests d). Proof. simple_op. Qed.
#[export] Instance unlocked_remove_queued r : Moves R (scsi_remove_queued_request r). Proof. simple_op. Qed.
End UnlockedParts.

Ltac unlocking := intros; autounfold with unlocks; cbv zeta; apply _.

(** The calls that look at the lock. *)
Definition looks (c : call) : bool := match c with Requeue _ true => false | _ => true end.

Lemma run_unlocked env c X : looks c = true -> Moves (keeps_unlocked X) (run env c).
Proof. destruct c; simpl; intros Hc; try (destruct bus_overflow; [done|]); unlocking. Qed.

Lemma service_unlocked X t : Moves (keeps_unlocked X) (service_step t).
Proof. destruct t; unfold service_step; unlocking. Qed.

(** A request that is put back for a full bus concerns its own device only. *)
Lemma requeue_unlocked X r s s' :
  scsi_requeue_request r true s = Some (tt, s') ->
  exists c, s_ccbs s !! r = Some c /\ keeps_unlocked (X ∪ {[c_device c]}) s s'.
Proof.
  intros (c & s1 & E1 & H1)%bind_some. exists c. revert E1. unfold get_ccb, get, guarded, mbind, op_bind.
  destruct (ccbs (sy_core s) !! r) as [c'|] eqn:Hc; [|done]. intros [= -> <-]. split; [done|]. revert H1.
  assert (Hadd : Moves (keeps_unlocked (X ∪ {[c_device c]})) (upd_queues (add_device_queue_last (c_device c)))).
  { intros u [] u'. unfold upd_queues. destruct (add_device_queue_last _ _) eqn:E; [|done]. intros [= <-] [H1 H2].
    split; [done|]. unfold s_devs, s_rw in *. simpl. intros d v Hv Hd [->|Hin]%(added_last _ _ _ E); [set_solver|eauto]. }
  set (m := if negb _ then _ else _). assert (Hm : Moves (keeps_unlocked (X ∪ {[c_device c]})) m) by (unfold m; unlocking). apply Hm.
Qed.
