(* ===== verification/ScsiSafe.v ===== *)
(** The bus manager is safe: whatever the callers do within their rights, in
    whatever order, no operation follows a pointer to nothing, the queues stay
    well-formed, and the service thread does not sleep while there is work.

    The proof is by induction on the execution, on the specification of the
    queues; the simulation carries it over to the rings of pointers. *)
From stdpp Require Import base gmap list.
From Stdlib Require Import ZArith Lia.
From S2P Require Import Prelude Errors ScsiRing Scsi ScsiLists ScsiSpec ScsiRefine ScsiQueue ScsiIo ScsiBus ScsiDevice ScsiInv ScsiWp ScsiOps ScsiSim ScsiLife ScsiDpc ScsiCalls ScsiMoves.

Implicit Types s : sys rqueues.

Section Safe.
Variable N : Z.
Variable env : helpers.
Hypothesis Henv : lawful env.
Notation good := (good N).

(** ** Each call keeps the invariant *)

Lemma fill_good s r c w :
  good s -> s_ccbs s !! r = Some c -> c_state c = SCSI_STATE_FINISHED -> no_autosense (sy_core s) r ->
  good (with_ccbs (<[r := fill_request w c]>) s).
Proof.
  intros H Hc Hs Ho. apply (good_of N ∅ (0 - is_sent c + is_sent (fill_request w c))); [|done|unfold is_sent; simpl; lia].
  apply inv_ccb; [done|done|done|done| |].
  - right. intros d q Hq Hin. destruct (i_queued _ _ _ _ H d q r Hq Hin) as (c1 & E & _ & E1). simplify_eq. by rewrite Hs in E1.
  - intros d v Hv Hm Hr. by destruct (Ho d v Hv Hm).
Qed.

Lemma queued_place s r c d :
  good s -> s_ccbs s !! r = Some c -> c_state c = SCSI_STATE_FINISHED -> forall q, s_rq s !! d = Some q -> r ∉ q.
Proof.
  intros H Hc Hs q Hq Hin. destruct (i_queued _ _ _ _ H d q r Hq Hin) as (c1 & E & _ & E1). simplify_eq. by rewrite Hs in E1.
Qed.

(** An unused device is idle. *)
Lemma unused_idle s d v : good s -> s_devs s !! d = Some v -> unused (sy_core s) d -> idle s d.
Proof.
  intros H Hv (v' & Hv' & Hu). split.
  - destruct (inv_rq_exists d v H Hv) as [q Hq]. rewrite Hq. destruct q as [|r q]; [done|].
    destruct (i_queued _ _ _ _ H d _ r Hq) as (c & Hc & Hd & Hs); [set_solver|].
    destruct (Hu r c Hc Hd) as [_ E]; [by rewrite Hs|]. by rewrite Hs in E.
  - intros r c v1 Hc Hd Hf Hv1. assert (v1 = v') as -> by (unfold s_devs in *; congruence).
    destruct (Hu r c Hc Hd Hf) as [E1 E2]. split; [done|by rewrite E2].
Qed.

Lemma wp_free_unused s d : good s -> unused (sy_core s) d -> wp (scsi_free_device d) (fun _ s' => good s') s.
Proof.
  intros H Hu. pose proof Hu as (v & Hv & Hv2). apply (wp_free_idle N s d v H Hv); [by apply (unused_idle s d v)|].
  intros Hn. pose proof (i_auto _ _ _ _ H d v Hv) as Ha. unfold autosense_ok in Ha. destruct (d_manual_autosense v).
  - destruct Ha as (ca & Hca & Hd & _). by exists ca.
  - done.
Qed.

Lemma no_queue s d : good s -> s_devs s !! d = None -> s_rq s !! d = None.
Proof.
  intros H Hd. destruct (s_rq s !! d) eqn:E; [|done].
  assert (is_Some (s_devs s !! d)) as [v Hv] by (apply (i_dom _ _ _ _ H); by rewrite E). congruence.
Qed.

(** A temporary device. *)
Lemma wp_force_device s d lun sem :
  good s -> devs (sy_core s) !! d = None -> wp (scsi_force_get_device None d lun sem) (fun _ s' => good s') s.
Proof.
  intros H Hd. unfold scsi_force_get_device, scsi_create_device. apply wp_bind.
  destruct (Z.eqb_spec d NULL) as [|Hn]; [by apply wp_ret, wp_ret|]. destruct (sem <? 0); [by apply wp_ret, wp_ret|]. cbn [orb].
  pose proof (no_queue s d H Hd) as Hq. apply wp_bind. eapply wp_upd_queues.
  { simpl. unfold spec_new_device. by rewrite decide_True. }
  apply wp_bind, wp_modify, wp_ret, wp_ret. apply (inv_new_device N ∅ 0 s d _ H Hd Hn); [|done|done]. split; simpl; lia.
Qed.

Lemma wp_ignore {A} (m : op rqueues A) s :
  wp m (fun _ s' => good s') s -> wp (ignore m) (fun _ s' => good s') s.
Proof. intros H. apply wp_bind. eapply wp_mono; [exact H|]. intros a s' Hs. by apply wp_ret. Qed.

(** What [inv] says does not depend on the deferred calls. *)
Lemma good_dpcs s k q :
  good s -> q = sy_queues s -> ccbs k = ccbs (sy_core s) -> devs k = devs (sy_core s) ->
  b_lock_count (bus k) = b_lock_count (s_bus s) -> b_blocked (bus k) = b_blocked (s_bus s) ->
  b_left_slots (bus k) = b_left_slots (s_bus s) -> b_sim_overflow (bus k) = b_sim_overflow (s_bus s) ->
  good (Sys k q).
Proof.
  intros H -> E1 E2 B1 B2 B3 B4. destruct H as [I1 I2 I3 I4 I5 I6 I7 I8 I9 I10 I11 I12 I13].
  split; unfold s_ccbs, s_devs, s_bus, s_rq, s_rw in *; simpl in *; rewrite ?E1, ?E2, ?B3; try done.
  destruct I12. by split; rewrite ?B1, ?B2, ?B3, ?B4.
Qed.

Lemma wp_run c s :
  good s -> (exists l, dpc_ok (sy_core s) l) -> allowed c s -> wp (run env c) (fun _ s' => good s') s.
Proof.
  intros H [l Hl]. destruct c; simpl.
  - intros [Hn Hb]. by apply wp_ignore, wp_low_alloc.
  - intros [[v Hv] (c & Hc & Hs)]. by apply wp_ignore, (wp_alloc N s device block c v).
  - intros [(c & Hc & Hs) Ho]. apply (wp_free_ccb N s request c); [done|done|by rewrite Hs| |done].
    intros d q. by apply (queued_place s request c d).
  - intros [(c & Hc & Hs) Ho]. apply (wp_upd_ccb request c); [done|]. by apply fill_good.
  - intros [(c & Hc & Hs) Ho]. by apply (wp_async N env s request c).
  - intros (c & Hc & Hq). apply wp_ignore, (wp_abort N env s request c); [done..|]. intros Hs.
    destruct (Hq Hs) as [_ (q & Hq1 & Hin)]. by exists q.
  - intros [Hd (c & Hc & Hs)]. apply wp_ignore, (wp_init_device N s x c); [done|done| |done|done].
    intros _. by apply no_queue.
  - intros Hu. by apply wp_free_unused.
  - intros Hd. unfold scsi_device_removed. apply wp_when. destruct (Z.eqb_spec device NULL) as [|Hn]; [done|].
    destruct (Hd Hn) as [v Hv]. cbn [negb]. apply (wp_upd_dev device v); [done|].
    destruct (inv_lock ∅ device v (set_d_valid false v) H Hv) as [H1 _]; [by destruct (i_devs _ _ _ _ H _ v Hv)|done|set_solver|done|done].
  - intros Hd. by apply wp_ignore, wp_force_device.
  - intros Hu. apply wp_when. destruct has_node; [done|]. by apply wp_free_unused, Hu.
  - intros (c & Hc & Hs). apply (wp_upd_ccb request c); [done|]. by apply (inv_ccb_benign request c).
  - intros (c & Hc & Hi). apply (wp_finished N env s request num_requests c Henv H Hc). intros v Hs Hv Hn.
    destruct (Hi v Hs Hv Hn) as (ca & Hca & Hsa). by exists ca.
  - intros [c Hc]. by apply (wp_requeue N s request bus_overflow c).
  - intros [c Hc]. by apply (wp_resubmit N s request c).
  - intros _. by apply wp_op_block_bus.
  - intros _. by apply wp_op_unblock_bus.
  - intros _. by apply wp_op_cont_send_bus.
  - intros [v Hv]. by apply (wp_op_block_device N s device v).
  - intros [v Hv]. by apply (wp_op_unblock_device N s device v).
  - intros [v Hv]. by apply (wp_op_cont_send_device N s device v).
  - intros Hd. apply wp_ignore. unfold scsi_alloc_dpc. destruct (_ =? _); [by apply wp_ret|].
    apply wp_bind, wp_modify, wp_ret. by apply (good_dpcs s).
  - intros _. apply wp_ignore, wp_bind, wp_modify, wp_ret. by apply (good_dpcs s).
  - intros [d Hd]. apply wp_ignore. eexists _, _. split; [by apply schedule_spec|].
    apply (good_dpcs s); [done|done|done|done|..]; unfold scheduled; destruct (p_registered d); done.
  - intros _. apply wp_bind, wp_upd_bus, wp_upd_bus. by apply (good_dpcs s).
Qed.

(** The list of deferred calls: only [scsi_schedule_dpc] makes it longer, and
    it notifies. *)
Definition has_dpc s : Prop := b_dpc_list (s_bus s) <> NULL.

Lemma run_dpcs c s s' l :
  dpc_ok (sy_core s) l -> allowed c s -> run env c s = Some (tt, s') ->
  (exists l', dpc_ok (sy_core s') l') /\ (has_dpc s' -> has_dpc s \/ notified s < notified s').
Proof.
  intros Hl Ha Hr. destruct (no_dpc c) eqn:Ed.
  - pose proof (run_quiet env c Ed s tt s' Hr) as E. split; [exists l; by apply (dpc_ok_same (sy_core s))|].
    injection E as _ E. unfold has_dpc, s_bus. rewrite E. auto.
  - destruct c; try done; simpl in Ha, Hr; apply bind_some in Hr as (a & s1 & E1 & [= <-]).
    + unfold scsi_alloc_dpc in E1. destruct (Z.eqb_spec dpc NULL); [injection E1 as <- <-; eauto|].
      injection E1 as <- <-. split; [exists l; by apply alloc_dpc_ok|auto].
    + injection E1 as <- <-. destruct Ha as (d & Hd & Hreg). split; [exists l; by apply (free_dpc_ok dpc d)|auto].
    + destruct Ha as [d Hd]. rewrite (schedule_spec s dpc func arg d Hd) in E1. injection E1 as <- <-.
      split; [eexists; by apply schedule_ok|]. intros _. right. unfold notified, scheduled. simpl. destruct (p_registered d); simpl; lia.
Qed.

(** ** The service thread *)

(** It does not sleep while there is something to do: [notified] is more than
    what it has seen. *)
Definition awake (t : service) s : Prop :=
  match t with
  | Waiting p => 0 <= p <= notified s /\ (servicable s = true \/ has_dpc s -> p < notified s)
  | CheckDpc p => 0 <= p <= notified s
  | CheckRequest p => 0 <= p <= notified s /\ (has_dpc s -> p < notified s)
  | Ended => True
  end.

Lemma awake_call t s s' :
  awake t s -> heard s s' -> (has_dpc s' -> has_dpc s \/ notified s < notified s') -> awake t s'.
Proof.
  intros Ha [Hn Hh] Hd. destruct t as [p|p|p|]; simpl in *.
  - destruct Ha as [Hp Ha]. split; [lia|]. intros [Hs|Hs].
    + destruct (Hh Hs) as [E|]; [|lia]. specialize (Ha (or_introl E)). lia.
    + destruct (Hd Hs) as [E|]; [|lia]. specialize (Ha (or_intror E)). lia.
  - lia.
  - destruct Ha as [Hp Ha]. split; [lia|]. intros Hs. destruct (Hd Hs) as [E|]; [|lia]. specialize (Ha E). lia.
  - done.
Qed.

Record sound (t : service) s : Prop := {
  so_good : good s;
  so_dpcs : exists l, dpc_ok (sy_core s) l;
  so_awake : awake t s
}.

Lemma sound_call t c s :
  sound t s -> allowed c s -> exists s', run env c s = Some (tt, s') /\ sound t s'.
Proof.
  intros [G D A] Hc. destruct (wp_run c s G D Hc) as ([] & s' & E & G'). exists s'. split; [done|].
  destruct D as [l Hl]. destruct (run_dpcs c s s' l Hl Hc E) as [D' Hd].
  split; [done|done|]. eapply awake_call; [done|eapply run_heard; [by eapply inv_settled|done]|done].
Qed.

Lemma exec_service_count s b s' : scsi_check_exec_service s = Some (b, s') -> notified s' = notified s.
Proof. assert (Moves same_count scsi_check_exec_service) as Hm by moving. apply Hm. Qed.

Lemma sound_service t s :
  sound t s -> exists t' s', service_step t s = Some (t', s') /\ sound t' s'.
Proof.
  intros [G [l Hl] A]. destruct t as [p|p|p|]; unfold service_step, mbind, op_bind.
  - unfold get_bus, get. destruct (Z.ltb_spec (b_start_service (bus (sy_core s))) (p + 1)) as [Hp|Hp].
    + exists (Waiting p), s. split; [done|]. split; [done|by exists l|done].
    + do 2 eexists. split; [done|]. split.
      * by apply (good_dpcs s).
      * exists l. by apply (dpc_ok_same (sy_core s)).
      * simpl in *. unfold notified in *. destruct (b_shutting_down _); simpl; [done|unfold notified; simpl; lia].
  - pose proof (exec_dpc_spec s l Hl) as Hx. pose proof (dpc_head _ _ Hl) as Eh. simpl in A. destruct l as [|x l].
    + rewrite Hx. do 2 eexists. split; [done|]. split; [done|by exists []|]. simpl. split; [done|].
      intros Hd. by destruct Hd.
    + destruct Hx as (d & Hd & -> & Hl'). do 2 eexists. split; [done|]. split; [|by exists l|done].
      by apply (good_dpcs s).
  - destruct (wp_exec_service N s G) as (b & s' & E & G' & Eb & Es). rewrite E. do 2 eexists. split; [done|].
    simpl in A. destruct A as [A1 A2]. split; [done| |].
    + exists l. eapply dpc_ok_same; [|done]. exact (exec_service_quiet s b s' E).
    + destruct b; simpl; [by rewrite (exec_service_count _ _ _ E)|].
      rewrite (Es eq_refl). split; [done|]. rewrite <-Eb. intros [|Hd]; [done|by apply A2].
  - exists Ended, s. split; [done|]. split; [done|by exists l|done].
Qed.

End Safe.

(** The empty bus. *)
Definition no_queues : rqueues := Rqueues ∅ [] ∅.

Lemma sound_start N : 1 <= N <= 0x7FFFFFFF -> sound N (Waiting 0) (Sys (init_bus N) no_queues).
Proof.
  intros HN. assert (E : i32 N = N) by (apply i32_small; lia). split.
  - split; unfold s_ccbs, s_devs, s_bus, s_rq, s_rw; simpl; try (intros *; rewrite lookup_empty; intros; congruence).
    + by split.
    + intros d. by rewrite !lookup_empty.
    + intros r. rewrite lookup_empty. split; [by intros []|set_solver].
    + constructor.
    + intros d. set_solver.
    + rewrite E. split; simpl; try lia. destruct (Z.eqb_spec N 0); [lia|done].
    + rewrite E. unfold sent. rewrite map_fold_empty. lia.
  - exists []. apply dpc_none. split_and!; [done|done|]. intros p d. simpl. by rewrite lookup_empty.
  - simpl. unfold notified, has_dpc. simpl. split; [lia|]. by intros [|].
Qed.


(** ** On the rings of pointers *)

Definition no_lists : lists := Lists (Links ∅ ∅) ∅ (Links ∅ ∅) NULL.

Lemma rep_start : rep no_lists no_queues.
Proof.
  split; simpl; try (intros *; rewrite ?lookup_empty; intros; congruence).
  - by split.
  - intros d. set_solver.
  - intros d. set_solver.
  - intros d. rewrite lookup_empty. by intros [].
  - intros d. rewrite lookup_empty. by intros [].
Qed.

#[export] Hint Unfold ignore scsi_alloc_ccb scsi_free_ccb ccb_low_alloc_hook scsi_create_device
  scsi_free_autosense_request scsi_free_device scsi_create_autosense_request scsi_init_device scsi_uninit_device
  scsi_device_removed scsi_force_get_device scsi_put_forced_device scsi_alloc_dpc scsi_free_dpc scsi_schedule_dpc scsi_check_exec_dpc scsi_destroy_bus : scsi.

#[export] Instance sims_run env c : Sims (run env c) (run env c).
Proof. destruct c; simpl; sim. Qed.

#[export] Instance sims_exec_dpc : Sims scsi_check_exec_dpc scsi_check_exec_dpc.
Proof. sim. Qed.

#[export] Instance sims_service t : Sims (service_step t) (service_step t).
Proof. destruct t; unfold service_step; sim. Qed.

(** The callers' rights are the same on both sides. *)
Lemma allowed_same N c (s : sys lists) (u : sys rqueues) : same s u -> good N u -> allowed c s -> allowed c u.
Proof.
  intros [Ec Hr] G. destruct c; simpl; rewrite ?Ec; try done.
  unfold abortable. rewrite Ec. intros (r & Hc & Hq). exists r. split; [done|]. intros Hs.
  destruct (Hq Hs) as [Hd Ho]. split; [done|]. eapply impl_on_queue_inv; [done|by apply (i_dom _ _ _ _ G)|done].
Qed.

Section Rings.
Context {N : Z} {env : helpers}.
Hypothesis HN : 1 <= N <= 0x7FFFFFFF.
Hypothesis Henv : lawful env.

Lemma reachable_sound (s : sys lists) t : reachable env N no_lists s t -> exists u, same s u /\ sound N t u.
Proof.
  induction 1 as [|s t c s' _ (u & Hu & So) Ha Hr|s t t' s' _ (u & Hu & So) Hr].
  - exists (Sys (init_bus N) no_queues). split; [split; [done|exact rep_start]|by apply sound_start].
  - destruct (sound_call N env Henv t c u So) as (u' & E & So'); [by eapply allowed_same; [|apply So|]|].
    destruct (sims_run env c s u tt u' Hu E) as (s2 & E2 & Hs2). rewrite Hr in E2. injection E2 as <-. by exists u'.
  - destruct (sound_service N t u So) as (t2 & u' & E & So').
    destruct (sims_service t s u t2 u' Hu E) as (s2 & E2 & Hs2). rewrite Hr in E2. injection E2 as <- <-. by exists u'.
Qed.

Lemma call_runs (s : sys lists) t c :
  reachable env N no_lists s t -> allowed c s -> exists s' : sys lists, run env c s = Some (tt, s').
Proof.
  intros Hr Ha. destruct (reachable_sound s t Hr) as (u & Hu & So).
  destruct (sound_call N env Henv t c u So) as (u' & E & _); [by eapply allowed_same; [|apply So|]|].
  destruct (sims_run env c s u tt u' Hu E) as (s2 & E2 & _). by exists s2.
Qed.

Lemma service_runs (s : sys lists) t :
  reachable env N no_lists s t -> exists t' (s' : sys lists), service_step t s = Some (t', s').
Proof.
  intros Hr. destruct (reachable_sound s t Hr) as (u & Hu & So).
  destruct (sound_service N t u So) as (t2 & u' & E & _).
  destruct (sims_service t s u t2 u' Hu E) as (s2 & E2 & _). by exists t2, s2.
Qed.
End Rings.

(** ** The rounds of the service thread

    They come to an end, all deferred calls are made, and the bus is served until
    it cannot be served any more. *)

(** ** The requests that are queued *)

Definition queued_in (m : gmap Z (list Z)) : nat := map_fold (fun _ (q : list Z) n => (length q + n)%nat) O m.

Lemma queued_in_insert m d q q' : m !! d = Some q -> (queued_in (<[d := q']> m) + length q = queued_in m + length q')%nat.
Proof.
  intros Hd. unfold queued_in. rewrite (map_fold_delete_L _ _ d q m) by (done || (intros; lia)).
  rewrite (map_fold_delete_L _ _ d q' (<[d := q']> m)) by (rewrite ?lookup_insert_eq; done || (intros; lia)).
  rewrite delete_insert_eq. lia.
Qed.

Definition total s : nat := queued_in (s_rq s).
Definition not_more s s' : Prop := (total s' <= total s)%nat.
#[export] Instance not_more_preorder : PreOrder not_more.
Proof. split; unfold not_more; [intros s; lia|intros s1 s2 s3; lia]. Qed.
#[local] Instance more_modify f : Moves not_more (modify f).
Proof. intros s b s' [= <- <-]. apply Nat.le_refl. Qed.

Lemma more_rw (f : rqueues -> option rqueues) : (forall q q', f q = Some q' -> rq q' = rq q) -> Moves not_more (upd_queues f).
Proof.
  intros Hf s b s'. unfold upd_queues. destruct (f _) as [q'|] eqn:E; [|done]. intros [= <- <-].
  unfold not_more, total, s_rq. simpl. by rewrite (Hf _ _ E).
Qed.
#[local] Instance more_remove_device d : Moves not_more (upd_queues (remove_device_queue d)).
Proof. apply more_rw. intros q q'. simpl. unfold known. destruct (rq q !! d); [|done]. by intros [= <-]. Qed.
#[local] Instance more_set_waiting d : Moves not_more (upd_queues (set_waiting_devices d)).
Proof. apply more_rw. intros q q'. simpl. destruct (rotate_to _ _ _); [|done]. by intros [= <-]. Qed.

Lemma without_length x (q : list Z) : x ∈ q -> (length (without x q) < length q)%nat.
Proof.
  induction q as [|y q IH]; [set_solver|]. intros Hin. unfold without. rewrite filter_cons. case_decide as Hy; simpl.
  - apply -> Nat.succ_lt_mono. apply IH. set_solver.
  - assert (length (filter (fun z => z <> x) q) <= length q)%nat by apply length_filter. lia.
Qed.

Lemma remove_less s d r s' : upd_queues (remove_req_queue d r) s = Some (tt, s') -> (total s' < total s)%nat.
Proof.
  unfold upd_queues. simpl. unfold spec_remove. destruct (rq _ !! d) as [q|] eqn:Hq; [|done]. simpl.
  case_decide as Hin; [|done]. intros [= <-]. unfold total, s_rq. simpl.
  pose proof (queued_in_insert _ d q (without r q) Hq). pose proof (without_length r q Hin). lia.
Qed.

(** A request that is sent is queued no more. *)
Lemma exec_service_less s s' : scsi_check_exec_service s = Some (true, s') -> (total s' < total s)%nat.
Proof.
  unfold scsi_check_exec_service. intros (can & s1 & E1 & H1)%bind_some. rewrite can_service_result in E1.
  injection E1 as <- <-. destruct (servicable s); [|done].
  apply bind_some in H1 as (d & s2 & E2 & H1). assert (not_more s s2) as L2 by (revert E2; apply (_ : Moves not_more (queues _))).
  apply bind_some in H1 as (n & s3 & E3 & H1). assert (not_more s2 s3) as L3 by (revert E3; apply (_ : Moves not_more (queues _))).
  apply bind_some in H1 as ([] & s4 & E4 & H1). pose proof (more_set_waiting n _ _ _ E4) as L4.
  apply bind_some in H1 as (r & s5 & E5 & H1). assert (not_more s4 s5) as L5 by (revert E5; apply (_ : Moves not_more (queues _))).
  apply bind_some in H1 as ([] & s6 & E6 & H1). unfold scsi_remove_queued_request in E6.
  apply bind_some in E6 as (c & s7 & E7 & E6).
  assert (not_more s5 s7) as L7 by (revert E7; assert (Moves not_more (Q := rqueues) (get_ccb r)) as Hm by moving; apply Hm).
  cbv zeta in E6. apply bind_some in E6 as ([] & s8 & E8 & E6). pose proof (remove_less _ _ _ _ E8) as L8.
  assert (Hrest : Moves not_more (some ← has_requests (c_device c); when (negb some) (upd_queues (remove_device_queue (c_device c))))) by moving.
  pose proof (Hrest _ _ _ E6) as L6.
  assert (Hsend : Moves not_more (take_slots r d ;; send_request r ;; mret true)) by moving.
  pose proof (Hsend _ _ _ H1) as L9. unfold not_more in *. lia.
Qed.

(** ** The rounds *)

Section Rounds.
Variable N : Z.
Notation good := (good N).

(** The requests alone. *)
Lemma serve_ends n s : (total s < n)%nat -> good s -> dpc_ok (sy_core s) [] ->
  exists s', scsi_do_service n s = Some (tt, s') /\ good s' /\ dpc_ok (sy_core s') [] /\ servicable s' = false.
Proof.
  revert s. induction n as [|n IH]; intros s Hn G Hl; [lia|].
  pose proof (exec_dpc_spec s [] Hl) as Hx. cbn beta iota in Hx.
  destruct (wp_exec_service N s G) as (b & s1 & E & G1 & Eb & Es).
  cbn [scsi_do_service]. unfold mbind at 1, op_bind. rewrite Hx. unfold mbind, op_bind. rewrite E. destruct b.
  - apply IH; [pose proof (exec_service_less s s1 E); lia|done|].
    eapply dpc_ok_same; [|exact Hl]. exact (exec_service_quiet s true s1 E).
  - rewrite (Es eq_refl) in *. exists s. split_and!; done.
Qed.

Lemma service_ends s l : good s -> dpc_ok (sy_core s) l ->
  exists n s', scsi_do_service n s = Some (tt, s') /\ good s' /\ dpc_ok (sy_core s') [] /\ servicable s' = false.
Proof.
  intros G Hl. destruct (drain l (S (total s)) s Hl) as (k & Ek & Hk & _ & E1 & E2 & E3).
  assert (Gk : good (Sys k (sy_queues s))) by (apply (good_dpcs N s); [done|done|done|done|by rewrite E3..]).
  destruct (serve_ends (S (total s)) (Sys k (sy_queues s))) as (s' & E & H'); [|exact Gk|done|].
  - change (total (Sys k (sy_queues s))) with (total s). lia.
  - exists (length l + S (total s))%nat, s'. by rewrite Ek.
Qed.
End Rounds.

#[export] Instance sims_do_service n : Sims (scsi_do_service n) (scsi_do_service n).
Proof. induction n as [|n IH]; cbn [scsi_do_service]; apply _. Qed.
