(* ===== verification/ScsiSg.v ===== *)
(** Scatter/gather lists of requests (scatter_gather.c, virtual_memory.c). *)
From stdpp Require Import base gmap list.
From Stdlib Require Import ZArith Lia.
From S2P Require Import Prelude Errors ScsiRing Scsi ScsiBus ScsiQueue ScsiIo.

(** [physical_entry]: an address and a size. *)
Record entry := Entry { e_address : Z; e_size : Z }.

Definition MAX_TEMP_SG_FRAGMENTS : Z := 128 * 1024 / B_PAGE_SIZE + 1.

Definition entry_at (map : list entry) (i : Z) : entry := nth (Z.to_nat i) map (Entry 0 0).
Definition entry_set (i : Z) (e : entry) (map : list entry) : list entry := <[Z.to_nat i := e]> map.

(** ** The map of a range of memory (virtual_memory.c) *)

Section MemoryMap.
(** The kernel's [get_memory_map]: the status, and the entries it stores, at
    most as many as there is room for. *)
Variable get_memory_map : Z -> Z -> Z -> Z * list entry.

(** The array [map] with [es] stored from [i] on. *)
Definition store_entries (i : Z) (es map : list entry) : list entry :=
  take (Z.to_nat i) map ++ es ++ drop (Z.to_nat i + length es) map.

(** The entries up to the first empty one: their sizes and their number. *)
Fixpoint count_entries (fuel : nat) (map : list entry) (tmp_idx max_entries mapped num : Z) : Z * Z :=
  match fuel with
  | O => (mapped, num)
  | S fuel =>
      if tmp_idx <? max_entries then
        if e_size (entry_at map tmp_idx) =? 0 then (mapped, num)
        else count_entries fuel map (tmp_idx + 1) max_entries
               (u32 (mapped + e_size (entry_at map tmp_idx))) (num + 1)
      else (mapped, num)
  end.

(** Skipping the vectors before the offset. *)
Fixpoint skip_vecs (vec : list (Z * Z)) (vec_offset : Z) : list (Z * Z) * Z :=
  match vec with
  | (base, len) :: rest => if len <? vec_offset then skip_vecs rest (vec_offset - len) else (vec, vec_offset)
  | [] => ([], vec_offset)
  end.

Record map_state := MapState {
  m_vec : list (Z * Z); m_offset : Z; m_left : Z; m_idx : Z; m_map : list entry
}.

(** "Try to combine with previous sg block." *)
Definition combine (map : list entry) (cur_idx num : Z) : list entry * Z :=
  let prev := entry_at map (cur_idx - 1) in
  let cur := entry_at map cur_idx in
  if (0 <? num) && (0 <? cur_idx) && (e_address cur =? u64 (e_address prev + e_size prev)) then
    let map := entry_set (cur_idx - 1) (Entry (e_address prev) (e_size prev + e_size cur)) map in
    (store_entries cur_idx (take (Z.to_nat (num - 1)) (drop (Z.to_nat (cur_idx + 1)) map)) map, num - 1)
  else (map, num).

Definition map_one (max_entries : Z) (s : map_state) : Z * map_state :=
  match m_vec s with
  | [] => (B_OK, s)
  | (base, len) :: rest =>
      let range_start := base + m_offset s in
      let range_len := Z.min (len - m_offset s) (m_left s) in
      let '(res, es) := get_memory_map range_start range_len (max_entries - m_idx s) in
      if negb (res =? B_OK) then (res, s)
      else
        let map := store_entries (m_idx s) es (m_map s) in
        let '(mapped, num) := count_entries (Z.to_nat max_entries) map (m_idx s) max_entries 0 0 in
        if mapped =? 0 then (B_ERROR, s)
        else
          let '(map, num) := combine map (m_idx s) num in
          (B_OK, MapState (if mapped =? range_len then rest else m_vec s) 0
                   (m_left s - mapped) (m_idx s + num) map)
  end.

Fixpoint map_vecs (fuel : nat) (max_entries : Z) (s : map_state) : option (Z * map_state) :=
  if (0 <? m_left s) && negb (bool_decide (m_vec s = [])) && (m_idx s <? max_entries) then
    match fuel with
    | O => None
    | S fuel =>
        let '(res, s) := map_one max_entries s in
        if negb (res =? B_OK) then Some (res, s) else map_vecs fuel max_entries s
    end
  else Some (B_OK, s).

(** The status, the map, [*num_entries] and [*mapped_len]. *)
Definition get_iovec_memory_map (vec : list (Z * Z)) (vec_offset len : Z) (map : list entry) (max_entries : Z)
  : option (Z * list entry * Z * Z) :=
  let '(vec, vec_offset) := skip_vecs vec vec_offset in
  '(res, s) ← map_vecs (Z.to_nat len) max_entries (MapState vec vec_offset len 0 map);
  Some (res, m_map s, m_idx s, len - m_left s).

(** ** Temporary lists (scatter_gather.c) *)

(** The loop that splits "offending entries"; the array has [num_entries]
    entries, [None] is "too complex". *)
Fixpoint split_entries (fuel : nat) (dma_boundary max_sg_block_size max_sg_blocks : Z)
    (temp_sg : list entry) (cur_idx : Z) : option (list entry) :=
  if cur_idx <? Z.of_nat (length temp_sg) then
    match fuel with
    | O => None
    | S fuel =>
        let cur := entry_at temp_sg cur_idx in
        let max_len := u32 (u32 (dma_boundary + 1) - Z.land (e_address cur) dma_boundary) in
        let max_len := Z.min max_len max_sg_block_size in
        if max_len <? e_size cur then
          if max_sg_blocks <? Z.of_nat (length temp_sg) + 1 then None
          else
            split_entries fuel dma_boundary max_sg_block_size max_sg_blocks
              (take (Z.to_nat cur_idx) temp_sg
               ++ Entry (e_address cur) max_len
               :: Entry (u64 (e_address cur + max_len)) (e_size cur - max_len)
               :: drop (Z.to_nat cur_idx + 1) temp_sg) (cur_idx + 1)
        else split_entries fuel dma_boundary max_sg_block_size max_sg_blocks temp_sg (cur_idx + 1)
    end
  else Some temp_sg.

(** [data] and [data_length] of the request, the array of the pool; the list
    that is stored with the request. *)
Definition fill_temp_sg (p : dma_params) (data data_length : Z) (temp_sg : list entry) : option (list entry) :=
  let max_blocks := Z.min (max_sg_blocks p) MAX_TEMP_SG_FRAGMENTS in
  '(res, temp_sg, num_entries, mapped_len) ←
    get_iovec_memory_map [(data, data_length)] 0 data_length temp_sg max_blocks;
  if negb (res =? B_OK) then None
  else if negb (mapped_len =? data_length) then None
  else
    let temp_sg := take (Z.to_nat num_entries) temp_sg in
    if negb (dma_boundary p =? 0xffffffff) || (max_sg_block_size p <? data_length) then
      split_entries (Z.to_nat max_blocks) (dma_boundary p) (max_sg_block_size p) max_blocks temp_sg 0
    else Some temp_sg.

(** What a temporary list holds: the request's pointer to it, the lists taken
    from the pool, the locks on the data. *)
Record sg_state := SgState { sg_list : Z; sg_taken : Z; sg_locks : Z }.

(** [block] is what the pool gave ([NULL] if nothing), [temp_sg] its bytes;
    [lock] is the status of [lock_memory].  The result is the list, if any. *)
Definition create_temp_sg (p : dma_params) (data data_length block lock : Z) (temp_sg : list entry) (s : sg_state)
  : option (list entry) * sg_state :=
  let s := SgState block (sg_taken s) (sg_locks s) in
  if block =? NULL then (None, s)
  else
    let s := SgState (sg_list s) (sg_taken s + 1) (sg_locks s) in
    let err s := (None, SgState (sg_list s) (sg_taken s - 1) (sg_locks s)) in
    if negb (lock =? B_OK) then err s
    else
      let s := SgState (sg_list s) (sg_taken s) (sg_locks s + 1) in
      match fill_temp_sg p data data_length temp_sg with
      | Some sg => (Some sg, s)
      | None => err (SgState (sg_list s) (sg_taken s) (sg_locks s - 1))
      end.

Definition cleanup_tmp_sg (s : sg_state) : sg_state :=
  let s := SgState (sg_list s) (sg_taken s) (sg_locks s - 1) in
  let s := SgState (sg_list s) (sg_taken s - 1) (sg_locks s) in
  SgState NULL (sg_taken s) (sg_locks s).
End MemoryMap.
