(* ===== verification/ScsiSgSpec.v ===== *)
(** Temporary scatter/gather lists: they describe the memory of the request,
    byte by byte and in order, in pieces the adapter can take. *)
From stdpp Require Import base gmap list.
From Stdlib Require Import ZArith Lia.
From S2P Require Import Prelude Errors ScsiRing Scsi ScsiBus ScsiSg.

(** The addresses an entry stands for. *)
Definition span (e : entry) : list Z := seqZ (e_address e) (e_size e).
Definition spans (l : list entry) : list Z := concat (map span l).

Definition entry_ok (e : entry) : Prop := 0 <= e_address e /\ 0 <= e_size e /\ e_address e + e_size e <= 2 ^ 64.

(** The entry stays within a boundary and a size. *)
Definition fits (boundary size : Z) (e : entry) : Prop :=
  e_size e <= size /\ Z.land (e_address e) boundary + e_size e <= boundary + 1.

Lemma spans_app l1 l2 : spans (l1 ++ l2) = spans l1 ++ spans l2.
Proof. unfold spans. by rewrite map_app, concat_app. Qed.

Lemma seqZ_split a n k : 0 <= k <= n -> seqZ a n = seqZ a k ++ seqZ (a + k) (n - k).
Proof. intros H. replace n with (k + (n - k)) at 1 by lia. by rewrite seqZ_app by lia. Qed.

Lemma entry_at_app l1 e l2 : entry_at (l1 ++ e :: l2) (Z.of_nat (length l1)) = e.
Proof. unfold entry_at. rewrite Nat2Z.id, app_nth2, Nat.sub_diag by lia. done. Qed.

Lemma seqZ_length a n : length (seqZ a n) = Z.to_nat n.
Proof. unfold seqZ. by rewrite length_fmap, length_seq. Qed.

Lemma land_le_r a b : 0 <= b -> Z.land a b <= b.
Proof.
  intros Hb. assert (E : Z.ldiff (Z.land a b) b = 0).
  { rewrite Z.ldiff_land, <-Z.land_assoc, <-Z.ldiff_land, Z.ldiff_diag. by rewrite Z.land_0_r. }
  apply Z.sub_nocarry_ldiff in E. assert (0 <= Z.ldiff b (Z.land a b)); [|lia]. apply Z.ldiff_nonneg. by left.
Qed.

Lemma pieces_at (l : list entry) e e1 e2 todo :
  take (Z.to_nat (Z.of_nat (length l))) (l ++ e :: todo) ++ e1 :: e2 :: drop (Z.to_nat (Z.of_nat (length l)) + 1) (l ++ e :: todo)
    = (l ++ [e1]) ++ e2 :: todo.
Proof.
  rewrite Nat2Z.id, take_app_length, <-app_assoc. simpl. do 3 f_equal. induction l as [|y l IH]; [done|exact IH].
Qed.

(** ** Splitting *)

Section Split.
Variables boundary size blocks : Z.
Hypothesis Hboundary : 0 <= boundary < 2 ^ 32.
Hypothesis Hsize : 0 <= size.

Definition room (e : entry) : Z :=
  Z.min (u32 (u32 (boundary + 1) - Z.land (e_address e) boundary)) size.

Lemma room_bounds e : 0 <= room e <= size /\ room e <= boundary + 1 - Z.land (e_address e) boundary.
Proof.
  unfold room. set (x := Z.land (e_address e) boundary).
  assert (Hx : 0 <= x <= boundary).
  { unfold x. split; [apply Z.land_nonneg; lia|]. apply land_le_r; lia. }
  pose proof (u32_range (u32 (boundary + 1) - x)) as Hr.
  assert (u32 (u32 (boundary + 1) - x) <= boundary + 1 - x); [|lia].
  destruct (Z.eq_dec boundary (2 ^ 32 - 1)) as [E|E]; [|rewrite (u32_small (boundary + 1)) by lia; rewrite u32_small; lia].
  rewrite E. change (u32 (2 ^ 32 - 1 + 1)) with 0. destruct (Z.eq_dec x 0) as [-> |]; [change (u32 (0 - 0)) with 0; lia|].
  replace (u32 (0 - x)) with (2 ^ 32 - x); [lia|]. symmetry. unfold u32. rewrite Z.mod_eq by lia.
  replace ((0 - x) / 2 ^ 32) with (-1); [lia|]. apply Z.div_unique with (2 ^ 32 - x); lia.
Qed.

Lemma split_spec fuel (l todo : list entry) sg :
  Z.of_nat (length (l ++ todo)) <= blocks -> Forall entry_ok todo ->
  split_entries fuel boundary size blocks (l ++ todo) (Z.of_nat (length l)) = Some sg ->
  exists rest, sg = l ++ rest /\ Forall (fits boundary size) rest /\ spans rest = spans todo /\
    Z.of_nat (length sg) <= blocks.
Proof.
  revert l todo. induction fuel as [|fuel IH]; intros l todo Hlen Hok.
  - simpl. destruct (Z.ltb_spec (Z.of_nat (length l)) (Z.of_nat (length (l ++ todo)))) as [|Hl]; [done|]. intros [= <-].
    rewrite length_app in Hl. assert (todo = []) as -> by (destruct todo; [done|simpl in Hl; lia]). by exists [].
  - destruct todo as [|e todo].
    { simpl. rewrite app_nil_r, Z.ltb_irrefl. intros [= <-]. exists []. rewrite app_nil_r in *. by split_and!. }
    cbn [split_entries]. rewrite (proj2 (Z.ltb_lt _ _)) by (rewrite length_app; simpl; lia).
    rewrite entry_at_app. cbv zeta. fold (room e). pose proof (room_bounds e) as [Hr1 Hr2].
    apply Forall_cons in Hok as [(He1 & He2 & He3) Hok].
    assert (Hnext : Z.of_nat (length l) + 1 = Z.of_nat (length (l ++ [e]))) by (rewrite length_app; simpl; lia).
    destruct (Z.ltb_spec (room e) (e_size e)) as [Hs|Hs].
    + destruct (Z.ltb_spec blocks (Z.of_nat (length (l ++ e :: todo)) + 1)) as [|Hb]; [done|].
      rewrite u64_small by lia. set (e1 := Entry (e_address e) (room e)). set (e2 := Entry (e_address e + room e) (e_size e - room e)).
      replace (take _ _ ++ e1 :: e2 :: drop _ _) with ((l ++ [e1]) ++ e2 :: todo).
      2: { symmetry. apply pieces_at. }
      replace (Z.of_nat (length l) + 1) with (Z.of_nat (length (l ++ [e1]))) by (rewrite length_app; simpl; lia).
      intros H. destruct (IH (l ++ [e1]) (e2 :: todo)) as (rest & -> & Hf & Hsp & Hn); [| |exact H|].
      * rewrite !length_app in *. simpl in *. lia.
      * constructor; [|done]. unfold entry_ok, e2. simpl. lia.
      * exists (e1 :: rest). rewrite <-app_assoc in *. split_and!; [done| | |done].
        { constructor; [|done]. unfold fits, e1. simpl. lia. }
        unfold spans in *. simpl. rewrite Hsp. simpl. rewrite app_assoc. f_equal. unfold span, e1, e2. simpl.
        symmetry. apply seqZ_split. lia.
    + rewrite Hnext. intros H. destruct (IH (l ++ [e]) todo) as (rest & -> & Hf & Hsp & Hn).
      * by rewrite <-app_assoc.
      * done.
      * by rewrite <-app_assoc.
      * exists (e :: rest). rewrite <-app_assoc in *. split_and!; [done| | |done].
        { constructor; [|done]. unfold fits. lia. }
        unfold spans in *. simpl. by rewrite Hsp.
Qed.

(** The array bounds the rounds. *)
Lemma split_fuel fuel k (l todo : list entry) :
  Z.of_nat (length (l ++ todo)) <= blocks -> (Z.to_nat blocks <= fuel + length l)%nat ->
  split_entries (fuel + k) boundary size blocks (l ++ todo) (Z.of_nat (length l))
    = split_entries fuel boundary size blocks (l ++ todo) (Z.of_nat (length l)).
Proof.
  revert l todo. induction fuel as [|fuel IH]; intros l todo Hlen Hf.
  - assert (todo = []) as -> by (rewrite length_app in Hlen; destruct todo; [done|simpl in *; lia]).
    rewrite app_nil_r. destruct k; simpl; by rewrite Z.ltb_irrefl.
  - cbn [Nat.add split_entries]. destruct todo as [|e todo].
    { by rewrite app_nil_r, Z.ltb_irrefl. }
    rewrite (proj2 (Z.ltb_lt _ _)) by (rewrite length_app; simpl; lia). rewrite entry_at_app. cbv zeta. fold (room e).
    destruct (room e <? e_size e).
    + destruct (Z.ltb_spec blocks (Z.of_nat (length (l ++ e :: todo)) + 1)) as [|Hb]; [done|].
      set (e1 := Entry (e_address e) (room e)). set (e2 := Entry _ _).
      replace (take _ _ ++ e1 :: e2 :: drop _ _) with ((l ++ [e1]) ++ e2 :: todo).
      2: { symmetry. apply pieces_at. }
      replace (Z.of_nat (length l) + 1) with (Z.of_nat (length (l ++ [e1]))) by (rewrite length_app; simpl; lia).
      apply IH; rewrite !length_app in *; simpl in *; lia.
    + replace (Z.of_nat (length l) + 1) with (Z.of_nat (length (l ++ [e]))) by (rewrite length_app; simpl; lia).
      rewrite cons_middle, app_assoc. apply IH; rewrite !length_app in *; simpl in *; lia.
Qed.
End Split.

(** ** The map of the memory of a request *)

(** The sum of the sizes of entries. *)
Definition sizes (l : list entry) : Z := Z.of_nat (length (spans l)).

Lemma sizes_cons e l : 0 <= e_size e -> sizes (e :: l) = e_size e + sizes l.
Proof. intros H. unfold sizes, spans. simpl. rewrite length_app. unfold span at 1. rewrite seqZ_length. lia. Qed.

Definition nonempty (e : entry) : Prop := entry_ok e /\ 0 < e_size e.

(** Counting ends at an empty entry, or at the end of the array. *)
Lemma count_spec max (l suf pre : list entry) mapped num fuel :
  Forall nonempty l -> 0 <= mapped -> mapped + sizes l < 2 ^ 32 ->
  Z.of_nat (length (pre ++ l)) = max \/
    Z.of_nat (length (pre ++ l)) < max /\ (exists z suf', suf = z :: suf' /\ e_size z = 0) ->
  (length l < fuel)%nat \/ Z.of_nat (length (pre ++ l)) = max /\ (length l <= fuel)%nat ->
  count_entries fuel (pre ++ l ++ suf) (Z.of_nat (length pre)) max mapped num = (mapped + sizes l, num + Z.of_nat (length l)).
Proof.
  revert pre mapped num fuel. induction l as [|e l IH]; intros pre mapped num fuel Hl Hm Hs Hend Hf.
  - rewrite app_nil_r in *. unfold sizes. simpl. rewrite !Z.add_0_r. destruct fuel as [|fuel]; [done|]. cbn [count_entries].
    clear Hf. destruct Hend as [E|(E & z & suf' & -> & Ez)].
    + by rewrite (proj2 (Z.ltb_ge _ _)) by lia.
    + rewrite (proj2 (Z.ltb_lt _ _)) by lia. by rewrite entry_at_app, Ez.
  - apply Forall_cons in Hl as [[He Hp] Hl]. rewrite sizes_cons in Hs |- * by lia. rewrite length_app in Hend, Hf. simpl in Hend, Hf.
    destruct fuel as [|fuel]; [lia|]. cbn [count_entries]. rewrite (proj2 (Z.ltb_lt _ _)) by lia. simpl.
    rewrite entry_at_app, (proj2 (Z.eqb_neq _ _)) by lia. assert (0 <= sizes l) by (unfold sizes; lia).
    rewrite u32_small by lia. replace (Z.of_nat (length pre) + 1) with (Z.of_nat (length (pre ++ [e]))) by (rewrite length_app; simpl; lia).
    replace (pre ++ e :: l ++ suf) with ((pre ++ [e]) ++ l ++ suf) by by rewrite <-app_assoc.
    rewrite IH; [f_equal; lia|done|lia|lia|..]; rewrite !length_app; simpl; intuition lia.
Qed.

Section Fill.
Variable get_memory_map : Z -> Z -> Z -> Z * list entry.
(** The physical address of a byte of memory. *)
Variable phys : Z -> Z.

(** What the kernel promises: entries for the first bytes of the range; for
    all of them if there is room, with an empty entry behind. *)
Definition lawful_map : Prop :=
  forall base len max es, 0 < len -> 0 < max -> get_memory_map base len max = (B_OK, es) ->
    exists l rest n, es = l ++ rest /\ Forall nonempty l /\ spans l = map phys (seqZ base n) /\ 0 < n <= len /\
      Z.of_nat (length es) <= max /\
      (Z.of_nat (length l) = max \/ n = len /\ exists z rest', rest = z :: rest' /\ e_size z = 0).

Hypothesis Hmap : lawful_map.

(** One vector is mapped in one step. *)
Lemma one_vec_map data len (temp : list entry) max res map num mapped :
  0 < len < 2 ^ 32 -> 0 < max ->
  get_iovec_memory_map get_memory_map [(data, len)] 0 len temp max = Some (res, map, num, mapped) -> res = B_OK ->
  exists l, take (Z.to_nat num) map = l /\ Forall nonempty l /\ spans l = List.map phys (seqZ data mapped) /\
    Z.of_nat (length l) <= max /\ 0 < mapped.
Proof.
  intros Hlen Hmax. unfold get_iovec_memory_map. cbn [skip_vecs]. rewrite (proj2 (Z.ltb_ge _ _)) by lia.
  destruct (Z.to_nat len) as [|fuel] eqn:Ef; [lia|]. cbn [map_vecs m_left m_vec m_idx].
  rewrite (proj2 (Z.ltb_lt 0 len)), (proj2 (Z.ltb_lt 0 max)) by lia. cbn [bool_decide andb negb].
  rewrite bool_decide_eq_false_2 by done. cbn [andb negb]. unfold map_one. cbn [m_vec m_offset m_left m_idx m_map].
  rewrite Z.sub_0_r, Z.min_id, Z.add_0_r, Z.sub_0_r. destruct (get_memory_map data len max) as [r es] eqn:Eg.
  destruct (Z.eqb_spec r B_OK) as [->|Hr]; cbn [negb].
  2: { rewrite (proj2 (Z.eqb_neq _ _) Hr). cbn [negb]. intros [= <- _ _ _]. done. }
  destruct (Hmap data len max es) as (l & rest & n & -> & Hu & Hs & Hn & Hle & Hend); [lia|lia|done|].
  assert (Esz : sizes l = n) by (unfold sizes; rewrite Hs, length_map, seqZ_length; lia).
  unfold store_entries. simpl take. rewrite app_nil_l. rewrite length_app in Hle.
  replace ((l ++ rest) ++ drop (Z.to_nat 0 + length (l ++ rest)) temp) with ([] ++ l ++ (rest ++ drop (length (l ++ rest)) temp))
    by by rewrite <-app_assoc.
  change 0 with (Z.of_nat (@length entry [])) at 1. rewrite (count_spec max l); [|done|lia|lia| |].
  3: { destruct Hend as [E|(E & z & r' & -> & Ez)]; [right; simpl in *; lia|left; simpl in *; lia]. }
  2: { destruct Hend as [E|(E & z & r' & -> & Ez)]; [by left|right]. split; [simpl in *; lia|]. eexists _, _. split; [simpl; reflexivity|done]. }
  rewrite Esz, !Z.add_0_l. rewrite (proj2 (Z.eqb_neq n 0)) by lia.
  unfold combine. rewrite Z.ltb_irrefl, andb_false_r, andb_false_l.
  change (negb (B_OK =? B_OK)) with false. cbn iota. rewrite Z.add_0_l. intros H Hres.
  assert (Hstop : map_vecs get_memory_map fuel max
     (MapState (if n =? len then [] else [(data, len)]) 0 (len - n) (Z.of_nat (length l)) ([] ++ l ++ rest ++ drop (length (l ++ rest)) temp))
     = Some (B_OK, MapState (if n =? len then [] else [(data, len)]) 0 (len - n) (Z.of_nat (length l)) ([] ++ l ++ rest ++ drop (length (l ++ rest)) temp))).
  { assert (E : (0 <? len - n) && negb (bool_decide ((if n =? len then [] else [(data, len)]) = [])) && (Z.of_nat (length l) <? max) = false).
    { destruct (Z.ltb_spec (Z.of_nat (length l)) max) as [|]; [|apply andb_false_r]. destruct Hend as [|[-> _]]; [lia|].
      by rewrite Z.sub_diag. }
    destruct fuel; cbn [map_vecs m_left m_vec m_idx]; by rewrite E. }
  rewrite Hstop in H. simpl in H. injection H as _ <- <- <-. exists l. rewrite Nat2Z.id, take_app_length.
  replace (len - (len - n)) with n by lia. split_and!; [done..|lia|lia].
Qed.

(** The list of a request: it stands for the bytes of the request, and every
    entry is one the adapter takes. *)
Lemma fill_covers p data len temp sg :
  0 < len < 2 ^ 32 -> 0 <= dma_boundary p < 2 ^ 32 -> 0 < max_sg_block_size p -> 0 < max_sg_blocks p ->
  fill_temp_sg get_memory_map p data len temp = Some sg ->
  spans sg = map phys (seqZ data len) /\
  Z.of_nat (length sg) <= Z.min (max_sg_blocks p) MAX_TEMP_SG_FRAGMENTS /\
  Forall (fun e => e_size e <= max_sg_block_size p /\
    (dma_boundary p <> 0xffffffff -> fits (dma_boundary p) (max_sg_block_size p) e)) sg.
Proof.
  intros Hlen Hb Hs Hn. unfold fill_temp_sg. set (max := Z.min (max_sg_blocks p) MAX_TEMP_SG_FRAGMENTS).
  assert (Hmax : 0 < max) by (unfold max; change MAX_TEMP_SG_FRAGMENTS with 33; lia).
  destruct (get_iovec_memory_map _ _ _ _ _ _) as [[[[res m] num] mapped]|] eqn:Eg; [|done]. simpl.
  destruct (Z.eqb_spec res B_OK) as [Er|]; [|done]. destruct (Z.eqb_spec mapped len) as [->|]; [|done]. cbn [negb].
  destruct (one_vec_map data len temp max res m num len Hlen Hmax Eg Er) as (l & -> & Hu & Hsp & Hle & _).
  destruct (_ || _) eqn:Ec.
  - intros H. destruct (split_spec (dma_boundary p) (max_sg_block_size p) max Hb ltac:(lia) (Z.to_nat max) [] l sg) as (rest & -> & Hf & Hsr & Hl).
    + done.
    + eapply Forall_impl; [exact Hu|]. by intros e [].
    + exact H.
    + simpl in *. rewrite Hsr. split_and!; [done|done|]. eapply Forall_impl; [exact Hf|]. intros e He. split; [apply He|done].
  - intros [= <-]. apply orb_false_elim in Ec as [Eb El]. apply negb_false_iff, Z.eqb_eq in Eb. apply Z.ltb_ge in El.
    split_and!; [done|done|]. rewrite Forall_forall. intros e He. split; [|done].
    assert (e_size e <= sizes l) as H1.
    { destruct (list_elem_of_split _ _ He) as (l1 & l2 & ->). rewrite Forall_app in Hu. destruct Hu as [_ Hu].
      unfold sizes. rewrite spans_app, length_app. unfold spans at 2. simpl. rewrite length_app. unfold span at 1. rewrite seqZ_length. lia. }
    assert (sizes l = len) as H2 by (unfold sizes; rewrite Hsp, length_map, seqZ_length; lia). lia.
Qed.
End Fill.
