(* ===== verification/ScsiClaims.v ===== *)
(** The SCSI bus manager: executions to evaluate, and the theorems. *)
From stdpp Require Import base gmap list.
From Stdlib Require Import ZArith Lia.
From S2P Require Import Prelude Errors ScsiRing Scsi ScsiLists ScsiSpec ScsiQueue ScsiIo ScsiBus ScsiDevice ScsiOps ScsiCalls ScsiSafe ScsiRefine ScsiInv ScsiWp ScsiSim ScsiDpc ScsiMoves ScsiSg ScsiSgSpec.

(** ** Checked executions *)

Definition state_is (k : core) (r st : Z) : bool :=
  match ccbs k !! r with Some c => c_state c =? st | None => false end.
Definition exists_device (k : core) (d : Z) : bool := bool_decide (is_Some (devs k !! d)).
Definition not_autosense (k : core) (r : Z) : bool :=
  bool_decide (map_Forall (fun _ v => ~ (d_manual_autosense v = true /\ d_auto_sense_request v = r)) (devs k)).

(** Some of what callers may do, decided on the state. *)
Definition permitted (c : call) (k : core) : bool :=
  match c with
  | PoolRequest block _ _ => negb (block =? NULL) && bool_decide (ccbs k !! block = None)
  | AllocRequest device block => exists_device k device && state_is k block SCSI_STATE_FREE
  | FreeRequest request | FillRequest request _ | AsyncIo request =>
      state_is k request SCSI_STATE_FINISHED && not_autosense k request
  | InitDevice x => bool_decide (devs k !! s_device x = None) && state_is k (s_block x) SCSI_STATE_FREE
  | SetResult request _ => state_is k request SCSI_STATE_SENT
  | Finished request _ =>
      match ccbs k !! request with
      | Some c => match devs k !! c_device c with Some v => negb (needs_autosense c v) | None => true end
      | None => false
      end
  | Requeue request _ | Resubmit request => bool_decide (is_Some (ccbs k !! request))
  | BlockDevice device | UnblockDevice device | ContSendDevice device => exists_device k device
  | AllocDpc dpc => bool_decide (dpcs k !! dpc = None)
  | ScheduleDpc dpc _ _ => bool_decide (is_Some (dpcs k !! dpc))
  | ForceDevice device _ _ => bool_decide (devs k !! device = None)
  | BlockBus | UnblockBus | ContSendBus | DestroyBus => true
  | PutForced _ _ | Abort_ _ | UninitDevice _ | DeviceRemoved _ | FreeDpc _ => false
  end.

Lemma state_is_in k r st : state_is k r st = true -> in_state k r (fun x => x = st).
Proof. unfold state_is, in_state. destruct (ccbs k !! r) as [c|]; [|done]. intros H%Z.eqb_eq. by exists c. Qed.

Lemma not_autosense_none k r : not_autosense k r = true -> no_autosense k r.
Proof. intros H%bool_decide_eq_true d v Hv Hm Hr. by apply (H d v Hv). Qed.

Lemma permitted_allowed c (s : sys lists) : permitted c (sy_core s) = true -> allowed c s.
Proof.
  destruct c; simpl; try done; unfold exists_device; intros H;
    repeat match goal with
    | H : (_ && _)%bool = true |- _ => apply andb_prop in H as [? ?]
    | H : bool_decide _ = true |- _ => apply bool_decide_eq_true in H
    | H : state_is _ _ _ = true |- _ => apply state_is_in in H
    | H : not_autosense _ _ = true |- _ => apply not_autosense_none in H
    | H : negb (_ =? _) = true |- _ => apply negb_true_iff, Z.eqb_neq in H
    end; try done.
  unfold autosense_idle. destruct (ccbs (sy_core s) !! request) as [c|] eqn:Ec; [|done]. exists c. split; [done|].
  intros v _ Hv Hn. rewrite Hv, Hn in H. done.
Qed.

(** A call, or a step of the service thread. *)
Inductive move := Do (c : call) | Serve.

Section Run.
Variable env : helpers.

Fixpoint play (ms : list move) (s : sys lists) (t : service) : option (sys lists * service) :=
  match ms with
  | [] => Some (s, t)
  | Do c :: ms =>
      if permitted c (sy_core s) then match run env c s with Some (_, s) => play ms s t | None => None end else None
  | Serve :: ms => match service_step t s with Some (t, s) => play ms s t | None => None end
  end.

Lemma play_reachable N ms s t s' t' :
  reachable env N no_lists s t -> play ms s t = Some (s', t') -> reachable env N no_lists s' t'.
Proof.
  revert s t. induction ms as [|[c|] ms IH]; intros s t Hr; simpl; [by intros [= <- <-]| |].
  - destruct (permitted c (sy_core s)) eqn:Ep; [|done]. destruct (run env c s) as [[[] s1]|] eqn:E; [|done].
    apply IH. eapply r_call; [exact Hr|by apply permitted_allowed|exact E].
  - destruct (service_step t s) as [[t1 s1]|] eqn:E; [|done]. apply IH. by eapply r_service.
Qed.
End Run.

(** ** The bus *)

(** No command is emulated and all buffers are safe. *)
Definition plain : helpers := Helpers (fun c => (true, c)) (fun c => c) (fun c => (true, c)) (fun c => c).
Lemma plain_lawful : lawful plain.
Proof. split; intros c; by split_and!. Qed.

Definition blank : scsi_ccb :=
  Ccb 0 0 0 0 (repeat 0 16) 0 0 [] 0 0 0 (repeat 0 64) 0 false false false NULL NULL 0 0.
(** A command of six bytes without data, at a position. *)
Definition command (flags sort : Z) : driver_fields := DriverFields flags (repeat 0 16) 6 sort [] NULL 0.
Definition completed : sim_result := SimResult SCSI_REQ_CMP 0 0 [] 0.
Definition queue_full : sim_result := SimResult SCSI_REQ_CMP_ERR SCSI_STATUS_QUEUE_FULL 0 [] 0.

Definition disk : device_setup := DeviceSetup false false 0 SCSI_PI_TAG_ABLE 100 1 10 1 0 [] B_OK.

(** A disk and two requests of it. *)
Definition setup : list move :=
  [Do (PoolRequest 10 blank 1); Do (PoolRequest 11 blank 1); Do (PoolRequest 12 blank 1); Do (InitDevice disk);
   Do (AllocRequest 100 10); Do (AllocRequest 100 11); Do (AllocRequest 100 12)].

(** Three requests for a bus with one slot: the first goes to the SIM, the
    others wait, sorted; a deferred call is pending. *)
Definition busy : list move :=
  setup ++
  [Do (FillRequest 10 (command SCSI_DIR_NONE 5)); Do (FillRequest 11 (command SCSI_DIR_NONE 9));
   Do (FillRequest 12 (command SCSI_DIR_NONE 7));
   Do (AsyncIo 10); Do (AsyncIo 11); Do (AsyncIo 12); Do (AllocDpc 200); Do (ScheduleDpc 200 77 88)].

Definition start (N : Z) : sys lists := Sys (init_bus N) no_lists.
Definition bus_after (N : Z) (ms : list move) : sys lists * service :=
  default (start N, Ended) (play plain ms (start N) (Waiting 0)).

Lemma after_reachable N ms s t :
  play plain ms (start N) (Waiting 0) = Some (s, t) -> reachable plain N no_lists s t.
Proof. apply play_reachable, r_start. Qed.

Example busy_plays : play plain busy (start 1) (Waiting 0) = Some (bus_after 1 busy).
Proof. vm_compute. reflexivity. Qed.

(** The request that comes between two others in position comes between them
    in the queue, and goes to the SIM before. *)
Example busy_serves :
  events (sy_core (bus_after 1 (busy ++
    [Do (SetResult 10 completed); Do (Finished 10 0); Serve; Serve; Serve; Serve; Serve;
     Do (SetResult 12 completed); Do (Finished 12 0); Serve; Serve; Serve; Serve])).1)
  = [Sent 10; Completed 10; Called 77 88; Sent 12; Completed 12; Sent 11].
Proof. vm_compute. reflexivity. Qed.

(** ** The theorems *)

Implicit Types s : sys lists.

(** ** What a reachable state says *)

(** The requests that are with the SIM. *)
Definition is_at_sim (p : Z * scsi_ccb) : Prop := c_state p.2 = SCSI_STATE_SENT.
#[export] Instance is_at_sim_dec p : Decision (is_at_sim p).
Proof. unfold is_at_sim. apply _. Defined.
Definition at_sim (k : core) : Z := Z.of_nat (size (filter is_at_sim (ccbs k))).

Lemma sent_at_sim k : sent (ccbs k) = at_sim k.
Proof.
  unfold at_sim. induction (ccbs k) as [|r c m Hr IH] using map_ind; [done|].
  unfold sent in *. rewrite map_fold_insert_L; [|intros; lia|done]. rewrite IH. unfold is_sent.
  destruct (Z.eqb_spec (c_state c) SCSI_STATE_SENT) as [E|E].
  - rewrite map_filter_insert_True by done. rewrite map_size_insert_None; [simpl; lia|]. apply map_lookup_filter_None. by left.
  - rewrite map_filter_insert_False by done. rewrite delete_id by done. simpl. lia.
Qed.

(** There is something to do for the service thread. *)
Definition work s : Prop :=
  b_lock_count (bus (sy_core s)) = 0 /\ waiting (sy_queues s) <> NULL \/ b_dpc_list (bus (sy_core s)) <> NULL.

Lemma hd_waiting s u : same s u -> hd NULL (s_rw u) = waiting (sy_queues s).
Proof. intros H. symmetry. exact (impl_waiting_devices _ _ (sm_rep _ _ H)). Qed.

Lemma work_same s u : same s u -> work s -> servicable u = true \/ has_dpc u.
Proof.
  intros H. unfold work, servicable, has_dpc, s_bus. rewrite (hd_waiting s u H), <-(sm_core _ _ H).
  intros [[E1 E2]|?]; [left|by right]. rewrite E1. by rewrite (proj2 (Z.eqb_neq _ _) E2).
Qed.

Lemma no_work_same s u : same s u -> servicable u = false -> b_dpc_list (s_bus u) = NULL -> ~ work s.
Proof.
  intros H Hs Hd Hw. destruct (work_same s u H Hw) as [E|E]; [congruence|done].
Qed.

Section Promises.
Context {N : Z} {env : helpers}.
Hypothesis HN : 1 <= N <= 0x7FFFFFFF.
Hypothesis Henv : lawful env.

(** The queue of a device, as the pointers have it. *)
Definition has_queue s (d : Z) (q : list Z) : Prop :=
  exists h, queued (sy_queues s) !! d = Some h /\ ring (req_links (sy_queues s)) h q.

(** A device that waits and is not in [X] is not locked. *)
Lemma unlocked_still X (s : sys lists) u : same s u -> unlocked_but X u -> unlocked_but (filter (locked_in s) X) u.
Proof.
  intros [Ec _] [H1 H2]. split; [done|]. intros d v Hv Hd Hw. destruct (decide (d_lock_count v = 0)) as [|Hl]; [done|].
  apply (H2 d v Hv); [|done]. intros Hx. apply Hd, elem_of_filter. split; [|done]. unfold locked_in, s_devs in *.
  by rewrite Ec, Hv.
Qed.

Lemma call_unlocked X c (s : sys lists) u u' :
  same s u -> unlocked_but X u -> run env c u = Some (tt, u') -> unlocked_but (X ∪ put_back c s) u'.
Proof.
  intros [Ec _] H E. destruct (looks c) eqn:El.
  - eapply (run_unlocked env c _ El); [exact E|]. eapply unlocked_more; [|exact H]. set_solver.
  - destruct c as [| | | | | | | | | | | | |r []| | | | | | | | | | |]; try done. simpl in E.
    destruct (requeue_unlocked X r u u' E) as (b & Hb & Hk). simpl. rewrite Ec. unfold s_ccbs in Hb. rewrite Hb.
    apply Hk. eapply unlocked_more; [|exact H]. set_solver.
Qed.

Lemma reachable_unlocked X (s : sys lists) t :
  reachable_with env N no_lists X s t -> exists u, same s u /\ sound N t u /\ unlocked_but X u.
Proof.
  induction 1 as [|X s t c s' _ (u & Hu & So & Hl) Ha Hr|X s t t' s' _ (u & Hu & So & Hl) Hr].
  - exists (Sys (init_bus N) no_queues). split; [split; [done|exact rep_start]|]. split; [by apply sound_start|].
    split; intros d v; unfold s_devs; simpl; by rewrite lookup_empty.
  - destruct (sound_call N env Henv t c u So) as (u' & E & So'); [by eapply allowed_same; [|apply So|]|].
    destruct (sims_run env c s u tt u' Hu E) as (s2 & E2 & Hs2). rewrite Hr in E2. injection E2 as <-. exists u'.
    split_and!; [done|done|]. apply unlocked_still; [done|]. by eapply call_unlocked.
  - destruct (sound_service N t u So) as (t2 & u' & E & So').
    destruct (sims_service t s u t2 u' Hu E) as (s2 & E2 & Hs2). rewrite Hr in E2. injection E2 as <- <-. exists u'.
    split_and!; [done|done|]. apply unlocked_still; [done|]. by eapply (service_unlocked X t).
Qed.

Lemma device_queue X s t d v :
  reachable_with env N no_lists X s t -> devs (sy_core s) !! d = Some v ->
  exists q w, has_queue s d q /\ ring (dev_links (sy_queues s)) (waiting (sy_queues s)) w /\
    (forall r, r ∈ q -> exists c, ccbs (sy_core s) !! r = Some c /\ c_device c = d /\ c_state c = SCSI_STATE_QUEUED) /\
    d_lock_count v = d_sim_overflow v + (d_blocked v).1 + (d_blocked v).2 /\
    (d ∈ w -> q <> [] /\ (d ∉ X -> d_lock_count v = 0)) /\ (q <> [] -> d_lock_count v = 0 -> d ∈ w).
Proof.
  intros Hr Hv. destruct (reachable_unlocked X s t Hr) as (u & [Ec Hp] & [G _ _] & Hu).
  assert (Hvu : s_devs u !! d = Some v) by (unfold s_devs; by rewrite <-Ec).
  destruct (inv_rq_exists d v G Hvu) as [q Hq]. exists q, (s_rw u).
  destruct (rp_queue _ _ Hp d q Hq) as (h & Hh & R & _). refine (conj _ (conj (rp_wait _ _ Hp) (conj _ (conj _ (conj _ _))))).
  - by exists h.
  - intros r Hin. destruct (i_queued _ _ _ _ G d q r Hq Hin) as (c & Hc & ?). exists c. split; [|done].
    unfold s_ccbs in Hc. by rewrite <-Ec in Hc.
  - destruct (i_devs _ _ _ _ G d v Hvu). done.
  - intros Hw. destruct (i_wait _ _ _ _ G d Hw) as (q' & Hq' & Hne). split; [by simplify_eq|].
    intros Hx. by apply (ub_free _ _ Hu d v).
  - intros Hne Hl. by apply (i_ready _ _ _ _ G d v q).
Qed.

Lemma slots s t :
  reachable env N no_lists s t ->
  b_left_slots (bus (sy_core s)) + at_sim (sy_core s) = N /\ 0 <= b_left_slots (bus (sy_core s)) /\
  (b_blocked (bus (sy_core s))).1 = Z.b2z (b_left_slots (bus (sy_core s)) =? 0).
Proof.
  intros Hr. destruct (reachable_sound HN Henv s t Hr) as (u & [Ec Hp] & [G _ _]). rewrite Ec, <-sent_at_sim.
  pose proof (i_slots _ _ _ _ G) as Hs. destruct (i_bus _ _ _ _ G) as [B1 B2 B3 B4]. unfold s_bus, s_ccbs in *. simpl in B3.
  split_and!; [lia|done|done].
Qed.

Lemma not_asleep s p : reachable env N no_lists s (Waiting p) -> work s -> p + 1 <= b_start_service (bus (sy_core s)).
Proof.
  intros Hr Hw. destruct (reachable_sound HN Henv s _ Hr) as (u & Hsu & [_ _ [_ A]]).
  specialize (A (work_same s u Hsu Hw)). unfold notified in A. rewrite (sm_core _ _ Hsu). lia.
Qed.

Lemma dpcs_of s t : reachable env N no_lists s t -> exists l, dpc_ok (sy_core s) l.
Proof.
  intros Hr. destruct (reachable_sound HN Henv s t Hr) as (u & [Ec _] & [_ [l Hl] _]). exists l. by rewrite Ec.
Qed.

Lemma do_service_ends s t :
  reachable env N no_lists s t -> exists n s', scsi_do_service n s = Some (tt, s') /\ ~ work s'.
Proof.
  intros Hr. destruct (reachable_sound HN Henv s t Hr) as (u & Hsu & [G [l Hl] _]).
  destruct (service_ends N u l G Hl) as (n & u' & E & _ & Hd & Hs).
  destruct (sims_do_service n s u tt u' Hsu E) as (s' & E' & Hs'). exists n, s'. split; [done|].
  apply (no_work_same s' u' Hs' Hs). exact (dpc_head _ _ Hd).
Qed.
End Promises.

(** The witnesses use a bus with one slot, a disk and three requests. *)
Lemma busy_reachable : reachable plain 1 no_lists (bus_after 1 busy).1 (bus_after 1 busy).2.
Proof. apply (after_reachable 1 busy). vm_compute. reflexivity. Qed.

(** ** The theorems *)

(** C3: In every state that calls can bring the bus manager to, starting with a
    new bus, an allowed call has a result: whatever the order of the calls and
    of the steps of the service thread, no operation follows a pointer that
    leads nowhere, and neither does the service thread. *)
Theorem scsi_calls_never_fault N env s t :
  1 <= N <= 0x7FFFFFFF -> lawful env -> reachable env N no_lists s t ->
  (forall c, allowed c s -> exists s', run env c s = Some (tt, s')) /\
  (exists t' s', service_step t s = Some (t', s')).
Proof. intros HN He Hr. split; [intros c; by apply (call_runs HN He s t)|by apply (service_runs HN He)]. Qed.

Lemma scsi_calls_never_fault_witness :
  allowed (SetResult 10 completed) (bus_after 1 busy).1 /\
  (exists s', run plain (SetResult 10 completed) (bus_after 1 busy).1 = Some (tt, s')).
Proof.
  assert (Ha : allowed (SetResult 10 completed) (bus_after 1 busy).1) by (apply permitted_allowed; vm_compute; reflexivity).
  split; [exact Ha|]. exact (proj1 (scsi_calls_never_fault 1 plain _ _ ltac:(lia) plain_lawful busy_reachable) _ Ha).
Defined.

(** C11: The queues of a reachable bus: the requests of a device are linked to a
    ring, each of them queued and of that device; the lock count is the sum of
    what blocks the device.  A device that has requests and is not locked is on
    the ring of waiting devices, so no request is stuck; and a device on that
    ring has requests, and is not locked - but for the devices [X] that have
    been locked since a request was put back to them for a full bus. *)
Theorem scsi_queues_consistent N env X s t d v :
  1 <= N <= 0x7FFFFFFF -> lawful env -> reachable_with env N no_lists X s t -> devs (sy_core s) !! d = Some v ->
  exists q w, has_queue s d q /\ ring (dev_links (sy_queues s)) (waiting (sy_queues s)) w /\
    (forall r, r ∈ q -> exists c, ccbs (sy_core s) !! r = Some c /\ c_device c = d /\ c_state c = SCSI_STATE_QUEUED) /\
    d_lock_count v = d_sim_overflow v + (d_blocked v).1 + (d_blocked v).2 /\
    (d ∈ w -> q <> [] /\ (d ∉ X -> d_lock_count v = 0)) /\ (q <> [] -> d_lock_count v = 0 -> d ∈ w).
Proof. intros HN He. by apply (device_queue HN He). Qed.

Lemma scsi_queues_consistent_witness :
  exists X q, reachable_with plain 1 no_lists X (bus_after 1 busy).1 (bus_after 1 busy).2 /\
    has_queue (bus_after 1 busy).1 100 q /\
    forall r, r ∈ q -> exists c, ccbs (sy_core (bus_after 1 busy).1) !! r = Some c /\ c_state c = SCSI_STATE_QUEUED.
Proof.
  destruct (reachable_has plain 1 no_lists _ _ busy_reachable) as [X HX].
  assert (Hv : exists v, devs (sy_core (bus_after 1 busy).1) !! 100 = Some v) by (eexists; vm_compute; reflexivity).
  destruct Hv as [v Hv].
  destruct (scsi_queues_consistent 1 plain X _ _ 100 v ltac:(lia) plain_lawful HX Hv) as (q & w & Hq & _ & Hr & _).
  exists X, q. split; [exact HX|]. split; [exact Hq|]. intros r Hin. destruct (Hr r Hin) as (c & H1 & _ & H2).
  exists c. split; [exact H1|exact H2].
Defined.

(** C24: The slots of the bus: those that are left and the requests that are with
    the SIM are together as many as the adapter takes, so the SIM never has
    more, and the bus manager blocks the bus, once, exactly when none is
    left. *)
Theorem scsi_slots_conserved N env s t :
  1 <= N <= 0x7FFFFFFF -> lawful env -> reachable env N no_lists s t ->
  b_left_slots (bus (sy_core s)) + at_sim (sy_core s) = N /\ 0 <= b_left_slots (bus (sy_core s)) /\
  (b_blocked (bus (sy_core s))).1 = Z.b2z (b_left_slots (bus (sy_core s)) =? 0).
Proof. intros HN He. by apply (slots HN He). Qed.

Lemma scsi_slots_conserved_witness :
  at_sim (sy_core (bus_after 1 busy).1) = 1 /\ b_left_slots (bus (sy_core (bus_after 1 busy).1)) + 1 = 1.
Proof.
  assert (E : at_sim (sy_core (bus_after 1 busy).1) = 1) by (vm_compute; reflexivity).
  split; [exact E|].
  destruct (scsi_slots_conserved 1 plain _ _ ltac:(lia) plain_lawful busy_reachable) as [H _]. rewrite E in H. exact H.
Defined.

(** C4: No wakeup is lost: whenever the bus is servicable or a deferred call is
    pending, the notifications exceed those the waiting service thread has
    seen, so it goes on; no call makes work without a notification or a thread
    that is still looking. *)
Theorem scsi_no_lost_wakeup N env s p :
  1 <= N <= 0x7FFFFFFF -> lawful env -> reachable env N no_lists s (Waiting p) -> work s ->
  exists t' s', service_step (Waiting p) s = Some (t', s') /\
    (t' = Ended \/ exists p', t' = CheckDpc p').
Proof.
  intros HN He Hr Hw. pose proof (not_asleep HN He s p Hr Hw) as Hp.
  unfold service_step, mbind, op_bind, get_bus, get. rewrite (proj2 (Z.ltb_ge _ _)) by lia.
  do 2 eexists. split; [reflexivity|]. simpl. destruct (b_shutting_down _); [by left|right]. by eexists.
Qed.

Lemma scsi_no_lost_wakeup_witness :
  exists t' s', service_step (Waiting 0) (bus_after 1 busy).1 = Some (t', s') /\ (t' = Ended \/ exists p', t' = CheckDpc p').
Proof.
  apply (scsi_no_lost_wakeup 1 plain (bus_after 1 busy).1 0 ltac:(lia) plain_lawful).
  - exact (after_reachable 1 busy _ (Waiting 0) ltac:(vm_compute; reflexivity)).
  - right. vm_compute. discriminate.
Defined.

(** C25: A round of the service thread comes to an end, and then there is nothing
    left to do for it: no deferred call, and the bus is locked or no device
    waits. *)
Theorem scsi_do_service_ends N env s t :
  1 <= N <= 0x7FFFFFFF -> lawful env -> reachable env N no_lists s t ->
  exists n s', scsi_do_service n s = Some (tt, s') /\ ~ work s'.
Proof. intros HN He. by apply (do_service_ends HN He). Qed.

Lemma scsi_do_service_ends_witness :
  work (bus_after 1 busy).1 /\ exists n s', scsi_do_service n (bus_after 1 busy).1 = Some (tt, s') /\ ~ work s'.
Proof.
  split; [right; vm_compute; discriminate|].
  exact (scsi_do_service_ends 1 plain _ _ ltac:(lia) plain_lawful busy_reachable).
Defined.

(** C30: The service thread makes the deferred calls first, each once, the one
    scheduled last first.  In every state some calls are [due], those that are
    registered.  When any further calls are scheduled one after the other, each
    goes before the calls that are due then, unless it is due itself: then it
    keeps its turn and takes the new function and argument.  The next round of
    the service thread begins by making the calls due in that order; then none
    is registered, and the round goes on with the queues as they were. *)
Theorem scsi_dpcs_called N env s t :
  1 <= N <= 0x7FFFFFFF -> lawful env -> reachable env N no_lists s t ->
  exists due : list due_call, NoDup due.*1 /\
    (forall p d, dpcs (sy_core s) !! p = Some d -> p_registered d = true <-> (p, (p_func d, p_arg d)) ∈ due) /\
    forall cs, Forall (fun c => is_Some (dpcs (sy_core s) !! c.1)) cs ->
    exists s', schedule_all cs s = Some (tt, s') /\
    forall n, exists k,
      scsi_do_service (length (foldl register due cs) + n) s' = scsi_do_service n (Sys k (sy_queues s)) /\
      events k = events (sy_core s) ++ map due_event (foldl register due cs) /\
      b_dpc_list (bus k) = NULL /\ (forall p d, dpcs k !! p = Some d -> p_registered d = false).
Proof.
  intros HN He Hr. destruct (dpcs_of HN He s t Hr) as [l Hl]. exists (map (due_at (dpcs (sy_core s))) l).
  split_and!; [by rewrite due_keys; apply Hl| |].
  - intros p d Hd. rewrite (dp_reg _ _ Hl p d Hd), bool_decide_eq_true. split.
    + intros Hp. apply list_elem_of_In, in_map_iff. exists p. split; [by unfold due_at; rewrite Hd|by apply list_elem_of_In].
    + intros Hp. rewrite <-(due_keys (dpcs (sy_core s)) l). by apply (list_elem_of_fmap_2 fst _ (p, (p_func d, p_arg d))).
  - intros cs Hcs. destruct (schedule_all_spec cs s l Hl Hcs) as (k1 & l1 & E1 & H1 & Ee & Ed). eexists. split; [exact E1|].
    intros n. rewrite <-Ed, length_map. destruct (drain l1 n (Sys k1 (sy_queues s)) H1) as (k & E & Hk & Ek & _). exists k.
    apply dpc_none in Hk as (_ & Hk1 & Hk2). split_and!; [exact E| |done|done].
    rewrite Ek. cbn [sy_core]. rewrite Ee. f_equal. exact (due_events _ _ _ (dp_chain _ _ H1)).
Qed.

Definition busy_two : list move := busy ++ [Do (AllocDpc 201)].

Lemma scsi_dpcs_called_witness :
  exists due : list due_call, (200, (77, 88)) ∈ due /\
    exists s', schedule_all [(201, (5, 6)); (200, (7, 8))] (bus_after 1 busy_two).1 = Some (tt, s') /\
    exists n, n = length (foldl register due [(201, (5, 6)); (200, (7, 8))]) /\
    exists k, scsi_do_service (n + 0) s' = scsi_do_service 0 (Sys k (sy_queues (bus_after 1 busy_two).1)).
Proof.
  assert (Hr : reachable plain 1 no_lists (bus_after 1 busy_two).1 (bus_after 1 busy_two).2)
    by (apply (after_reachable 1 busy_two); vm_compute; reflexivity).
  destruct (scsi_dpcs_called 1 plain _ _ ltac:(lia) plain_lawful Hr) as (due & _ & Hd & Hs). exists due. split.
  - exact (proj1 (Hd 200 (Dpc NULL true 77 88) ltac:(vm_compute; reflexivity)) eq_refl).
  - destruct (Hs [(201, (5, 6)); (200, (7, 8))]) as (s' & E & Hn).
    + apply (bool_decide_unpack _). vm_compute. exact I.
    + exists s'. split; [exact E|]. eexists. split; [reflexivity|].
      destruct (Hn O) as (k & Ek & _). exists k. exact Ek.
Defined.

(** C12: On the rings of pointers, [scsi_insert_new_request] is the elevator of
    the specification: the ring of the device then holds the list with the new
    request at the elevator's place, and every other queue is as before. *)
Theorem scsi_insert_refines (m : gmap Z scsi_ccb) last_sort d new (l : lists) a q :
  rep l a -> rq a !! d = Some q -> unqueued new a -> Forall (fun r => is_Some (m !! r)) (new :: q) ->
  exists l', scsi_insert_new_request m last_sort d new l = Some l' /\
    rep l' (set_rq d (elevator (ordered_in m) (sort_in m) last_sort new q) a).
Proof.
  intros Hr Hq Hu Hm. apply (impl_insert m last_sort d new l a); [done|].
  unfold spec_insert, spec_add. rewrite Hq. simpl. by rewrite !decide_True.
Qed.

Definition two_queued : gmap Z scsi_ccb :=
  {[ 1 := set_c_sort 5 blank; 2 := set_c_sort 9 blank; 3 := set_c_sort 7 blank ]}.

Lemma scsi_insert_refines_witness :
  exists l l' a', scsi_insert_new_request two_queued 0 100 3 l = Some l' /\ rep l' a' /\ rq a' !! 100 = Some [1; 3; 2].
Proof.
  destruct (impl_new_device 100 no_lists no_queues _ rep_start eq_refl) as (l1 & _ & R1).
  destruct (impl_new_request 1 l1 _ _ R1 eq_refl) as (l2 & _ & R2).
  destruct (impl_new_request 2 l2 _ _ R2 eq_refl) as (l3 & _ & R3).
  destruct (impl_new_request 3 l3 _ _ R3 eq_refl) as (l4 & _ & R4).
  destruct (impl_add_last 100 1 l4 _ _ R4 eq_refl) as (l5 & _ & R5).
  destruct (impl_add_last 100 2 l5 _ _ R5 eq_refl) as (l6 & _ & R6).
  destruct (scsi_insert_refines two_queued 0 100 3 l6 _ [1; 2] R6 eq_refl) as (l7 & E & R7).
  - apply (bool_decide_unpack _). vm_compute. exact I.
  - apply (bool_decide_unpack _). vm_compute. exact I.
  - exists l6, l7. eexists. split; [exact E|]. split; [exact R7|]. vm_compute. reflexivity.
Defined.

(** The elevator adds the request to the queue at one place; no ordered
    request is behind it, so none is overtaken, and an ordered or unsortable
    request goes to the end.  Unless it goes to the end, it fits in between:
    its position is not less than that of its predecessor nor more than that of
    its successor. *)
Theorem elevator_keeps_order (ordered : Z -> bool) (sort : Z -> Z) last_sort new q :
  exists q1 q2, q = q1 ++ q2 /\ elevator ordered sort last_sort new q = q1 ++ new :: q2 /\
    existsb ordered q2 = false /\
    (q2 <> [] -> ordered new = false /\ 0 <= sort new) /\
    (forall n, hd_error q2 = Some n -> sort new <= sort n) /\
    (forall b, q2 <> [] -> last q1 = Some b -> sort b <= sort new).
Proof. apply elevator_split. Qed.

(** C31: A temporary scatter/gather list stands for the memory of the request,
    byte by byte and in order; it has no more entries than the adapter and the
    pool allow, none is larger than the adapter takes, and none crosses a
    boundary the adapter cannot cross. *)
Theorem fill_temp_sg_covers get_memory_map phys p data len temp sg :
  lawful_map get_memory_map phys ->
  0 < len < 2 ^ 32 -> 0 <= dma_boundary p < 2 ^ 32 -> 0 < max_sg_block_size p -> 0 < max_sg_blocks p ->
  fill_temp_sg get_memory_map p data len temp = Some sg ->
  spans sg = map phys (seqZ data len) /\
  Z.of_nat (length sg) <= Z.min (max_sg_blocks p) MAX_TEMP_SG_FRAGMENTS /\
  Forall (fun e => e_size e <= max_sg_block_size p /\
    (dma_boundary p <> 0xffffffff -> fits (dma_boundary p) (max_sg_block_size p) e)) sg.
Proof. intros Hm. by apply fill_covers. Qed.

(** Memory that is where its addresses say, in one piece. *)
Definition one_piece (base len max : Z) : Z * list entry :=
  if (0 <=? base) && (base + len <=? 2 ^ 64) then
    (B_OK, if max =? 1 then [Entry base len] else [Entry base len; Entry 0 0])
  else (B_ERROR, []).

Lemma one_piece_lawful : lawful_map one_piece (fun x => x).
Proof.
  intros base len max es Hlen Hmax. unfold one_piece. destruct (_ && _) eqn:E; [|done]. apply andb_prop in E as [E1 E2].
  assert (Hu : Forall nonempty [Entry base len]) by (repeat constructor; simpl; lia).
  assert (Hs : spans [Entry base len] = map (fun x => x) (seqZ base len)).
  { unfold spans, span. simpl. by rewrite app_nil_r, map_id. }
  destruct (Z.eqb_spec max 1) as [-> |Hm]; intros [= <-].
  - exists [Entry base len], [], len. split_and!; [done|done|done|lia|lia|simpl; lia|by left].
  - exists [Entry base len], [Entry 0 0], len. split_and!; [done|done|done|lia|lia|simpl; lia|]. right. split; [done|]. by eexists _, _.
Qed.

(** An adapter that takes pieces of 4 KB that do not cross 64 KB. *)
Definition adapter : dma_params := DmaParams 0 0xffffffff 0xffff 4096 16.

Lemma fill_temp_sg_covers_witness :
  fill_temp_sg one_piece adapter 0xf800 6000 (repeat (Entry 0 0) 33) = Some [Entry 0xf800 2048; Entry 0x10000 3952] /\
  spans [Entry 0xf800 2048; Entry 0x10000 3952] = map (fun x => x) (seqZ 0xf800 6000).
Proof.
  assert (E : fill_temp_sg one_piece adapter 0xf800 6000 (repeat (Entry 0 0) 33) = Some [Entry 0xf800 2048; Entry 0x10000 3952])
    by (vm_compute; reflexivity).
  split; [exact E|].
  exact (proj1 (fill_temp_sg_covers one_piece (fun x => x) adapter 0xf800 6000 _ _ one_piece_lawful
    ltac:(lia) ltac:(simpl; lia) ltac:(simpl; lia) ltac:(simpl; lia) E)).
Defined.

(** ** What the code does not do *)

(** The scan of a bus only looks at unit 0 of each target: the loop compares
    the status [B_OK] of the scan of a unit with [SCSI_REQ_CMP]. *)
Theorem scsi_scan_finds_unit_0 world inquiry initiator_id max_target_count a :
  (forall target lun, sc_force_get (world target lun) <= 0) ->
  a ∈ snd (scsi_scan_bus world inquiry initiator_id max_target_count) -> a.2 = 0.
Proof.
  intros Hw. unfold scsi_scan_bus. destruct (negb _); [set_solver|]. cbn [snd]. intros Ha%list_elem_of_In.
  apply in_concat in Ha as (l & Hl & Ha). apply in_map_iff in Hl as (target & <- & _).
  destruct (target =? initiator_id); [done|].
  assert (Hs : forall n, scan_luns world (S n) target 0 = [(target, 0)]).
  { intros n. cbn [scan_luns]. change (0 <=? MAX_LUN_ID) with true. cbn iota. f_equal.
    change (0 =? 0) with true. assert (Hr : fst (scsi_scan_lun 0 (world target 0)) <> SCSI_REQ_CMP).
    { unfold scsi_scan_lun. specialize (Hw target 0).
      repeat match goal with |- context [if ?b then _ else _] => destruct b eqn:? end; try done.
      simpl. unfold SCSI_REQ_CMP. lia. }
    by rewrite (proj2 (Z.eqb_neq _ _) Hr). }
  change (Z.to_nat (MAX_LUN_ID + 2)) with (S 8) in Ha. rewrite Hs in Ha. by destruct Ha as [<- |[]].
Qed.

(** Every unit of every target answers. *)
Definition all_there (target lun : Z) : scan_result := ScanResult B_OK true SCSI_REQ_CMP SCSI_REQ_CMP 0.

Lemma scsi_scan_finds_unit_0_witness :
  snd (scsi_scan_bus all_there SCSI_REQ_CMP 7 3) = [(0, 0); (1, 0); (2, 0)] /\ (1, 0).2 = 0.
Proof.
  split; [vm_compute; reflexivity|].
  apply (scsi_scan_finds_unit_0 all_there SCSI_REQ_CMP 7 3 (1, 0)); [intros target lun; vm_compute; discriminate|].
  vm_compute. right. left.
Defined.

(** Two requests of a device whose second slot goes to an ordered request. *)
Definition ordered_run : list move :=
  setup ++
  [Do (FillRequest 10 (command SCSI_DIR_NONE 5)); Do (FillRequest 11 (command (Z.lor SCSI_DIR_NONE SCSI_ORDERED_QTAG) 6));
   Do (AsyncIo 10); Do (SetResult 10 queue_full); Do (Finished 10 3); Do (ContSendDevice 100);
   Serve; Serve; Serve; Serve; Serve;
   Do (AsyncIo 11); Do (SetResult 10 completed); Do (Finished 10 0); Do (SetResult 11 completed); Do (Finished 11 0)].

(** An ordered request that takes the last slot of its device is taken to
    block it once, but its completion unblocks it again although that of the
    other request already did: an execution in which every call is allowed
    ends in a panic of the blocking counters. *)
Theorem ordered_last_slot_panics :
  exists s t, reachable plain 2 no_lists s t /\
    events (sy_core s) = [Sent 10; Sent 10; Sent 11; Completed 10; Panic; Completed 11].
Proof.
  exists (bus_after 2 ordered_run).1, (bus_after 2 ordered_run).2. split.
  - apply (after_reachable 2 ordered_run). vm_compute. reflexivity.
  - vm_compute. reflexivity.
Qed.
