(* ===== verification/LockedPool.v ===== *)
(** The pools of locked memory (generic/locked_pool/locked_pool.c): the pools,
    their chunks and free lists, and each section of the functions between two
    points where threads can meet. *)
From stdpp Require Import base gmap list.
From Stdlib Require Import ZArith Lia.
From S2P Require Import Prelude Errors.

(** ** The data *)

(** A hook gets the block and [hook_arg]; [None] is a NULL hook. *)
Record locked_pool := Pool {
  free_blocks : Z;
  num_waiting : Z;
  free_list : Z;
  next_ofs : Z;
  sem : Z;
  header_size : Z;
  chunks : Z;
  block_size : Z;
  min_free_blocks : Z;
  num_blocks : Z;
  max_blocks : Z;
  enlarge_by : Z;
  alignment : Z;
  add_hook : option (Z -> Z -> Z);
  remove_hook : bool;
  hook_arg : Z;
  prev : Z;
  next : Z
}.

Record chunk_header := Chunk { ch_next : Z; ch_area : Z; ch_num_blocks : Z }.

Record area_info := Area { ar_base : Z; ar_size : Z }.

(** The calls of user hooks. *)
Inductive hook_call := Added (block arg : Z) | Removed (block arg : Z).

(** The memory of the module: the pools and chunk headers by address, the
    pointers stored in free blocks by address, the areas by id, the head of the
    global list, the count of the semaphore of the background thread. *)
Record sys := Sys {
  s_pools : gmap Z locked_pool;
  s_headers : gmap Z chunk_header;
  s_cells : gmap Z Z;
  s_areas : gmap Z area_info;
  s_hooks : list hook_call;
  sLockedPools : Z;
  sEnlargerSemaphore : Z;
  sShuttingDown : bool
}.

Definition with_pools f s := Sys (f (s_pools s)) (s_headers s) (s_cells s) (s_areas s) (s_hooks s)
  (sLockedPools s) (sEnlargerSemaphore s) (sShuttingDown s).
Definition with_headers f s := Sys (s_pools s) (f (s_headers s)) (s_cells s) (s_areas s) (s_hooks s)
  (sLockedPools s) (sEnlargerSemaphore s) (sShuttingDown s).
Definition with_cells f s := Sys (s_pools s) (s_headers s) (f (s_cells s)) (s_areas s) (s_hooks s)
  (sLockedPools s) (sEnlargerSemaphore s) (sShuttingDown s).
Definition with_areas f s := Sys (s_pools s) (s_headers s) (s_cells s) (f (s_areas s)) (s_hooks s)
  (sLockedPools s) (sEnlargerSemaphore s) (sShuttingDown s).
Definition with_hook h s := Sys (s_pools s) (s_headers s) (s_cells s) (s_areas s) (s_hooks s ++ [h])
  (sLockedPools s) (sEnlargerSemaphore s) (sShuttingDown s).
Definition set_head h s := Sys (s_pools s) (s_headers s) (s_cells s) (s_areas s) (s_hooks s)
  h (sEnlargerSemaphore s) (sShuttingDown s).
Definition set_enlarger_sem n s := Sys (s_pools s) (s_headers s) (s_cells s) (s_areas s) (s_hooks s)
  (sLockedPools s) n (sShuttingDown s).
Definition set_shutting_down b s := Sys (s_pools s) (s_headers s) (s_cells s) (s_areas s) (s_hooks s)
  (sLockedPools s) (sEnlargerSemaphore s) b.

Definition set_free_blocks x p := Pool x (num_waiting p) (free_list p) (next_ofs p) (sem p) (header_size p)
  (chunks p) (block_size p) (min_free_blocks p) (num_blocks p) (max_blocks p) (enlarge_by p) (alignment p)
  (add_hook p) (remove_hook p) (hook_arg p) (prev p) (next p).
Definition set_num_waiting x p := Pool (free_blocks p) x (free_list p) (next_ofs p) (sem p) (header_size p)
  (chunks p) (block_size p) (min_free_blocks p) (num_blocks p) (max_blocks p) (enlarge_by p) (alignment p)
  (add_hook p) (remove_hook p) (hook_arg p) (prev p) (next p).
Definition set_free_list x p := Pool (free_blocks p) (num_waiting p) x (next_ofs p) (sem p) (header_size p)
  (chunks p) (block_size p) (min_free_blocks p) (num_blocks p) (max_blocks p) (enlarge_by p) (alignment p)
  (add_hook p) (remove_hook p) (hook_arg p) (prev p) (next p).
Definition set_sem x p := Pool (free_blocks p) (num_waiting p) (free_list p) (next_ofs p) x (header_size p)
  (chunks p) (block_size p) (min_free_blocks p) (num_blocks p) (max_blocks p) (enlarge_by p) (alignment p)
  (add_hook p) (remove_hook p) (hook_arg p) (prev p) (next p).
Definition set_chunks x p := Pool (free_blocks p) (num_waiting p) (free_list p) (next_ofs p) (sem p) (header_size p)
  x (block_size p) (min_free_blocks p) (num_blocks p) (max_blocks p) (enlarge_by p) (alignment p)
  (add_hook p) (remove_hook p) (hook_arg p) (prev p) (next p).
Definition set_num_blocks x p := Pool (free_blocks p) (num_waiting p) (free_list p) (next_ofs p) (sem p) (header_size p)
  (chunks p) (block_size p) (min_free_blocks p) x (max_blocks p) (enlarge_by p) (alignment p)
  (add_hook p) (remove_hook p) (hook_arg p) (prev p) (next p).
Definition set_prev x p := Pool (free_blocks p) (num_waiting p) (free_list p) (next_ofs p) (sem p) (header_size p)
  (chunks p) (block_size p) (min_free_blocks p) (num_blocks p) (max_blocks p) (enlarge_by p) (alignment p)
  (add_hook p) (remove_hook p) (hook_arg p) x (next p).
Definition set_next x p := Pool (free_blocks p) (num_waiting p) (free_list p) (next_ofs p) (sem p) (header_size p)
  (chunks p) (block_size p) (min_free_blocks p) (num_blocks p) (max_blocks p) (enlarge_by p) (alignment p)
  (add_hook p) (remove_hook p) (hook_arg p) (prev p) x.

Definition put_pool (a : Z) (p : locked_pool) (s : sys) : sys := with_pools <[a := p]> s.

(** ** Enlarging a pool *)

Definition sizeof_chunk_header : Z := 12.

Definition NEXT_PTR (pool : locked_pool) (a : Z) : Z := a + next_ofs pool.

Definition last_block (pool : locked_pool) (chunk numBlocks : Z) : Z :=
  chunk + header_size pool + (numBlocks - 1) * block_size pool.

Definition call_add_hook (pool : locked_pool) (block : Z) (s : sys) : Z * sys :=
  match add_hook pool with
  | Some hook => (hook block (hook_arg pool), with_hook (Added block (hook_arg pool)) s)
  | None => (B_OK, s)
  end.

Definition call_remove_hook (pool : locked_pool) (block : Z) (s : sys) : sys :=
  if remove_hook pool then with_hook (Removed block (hook_arg pool)) s else s.

(** The free list of a new chunk: [n] blocks are left, the next one is [block],
    and the list so far starts with [nxt].  The result has the last status of
    the hook and the number of blocks that are left. *)
Fixpoint chunk_free_list (pool : locked_pool) (n : nat) (block nxt : Z) (s : sys) : Z * nat * Z * sys :=
  match n with
  | O => (B_OK, O, nxt, s)
  | S m =>
      let '(status, s) := call_add_hook pool block s in
      if status <? B_OK then (status, n, nxt, s)
      else chunk_free_list pool m (block - block_size pool) block
             (with_cells <[NEXT_PTR pool block := nxt]> s)
  end.

(** The remove hook for [n] blocks, from [block] down. *)
Fixpoint remove_blocks (pool : locked_pool) (n : nat) (block : Z) (s : sys) : sys :=
  match n with
  | O => s
  | S m => remove_blocks pool m (block - block_size pool) (call_remove_hook pool block s)
  end.

(** A chunk whose blocks are not yet in the pool: its header, its last and its
    first block, the number of blocks. *)
Record built := Built { b_chunk : Z; b_last : Z; b_first : Z; b_num : Z }.

(** [enlarge_pool] up to the critical section: [create_area] gave [area] (or
    an error) at [base]. *)
Definition enlarge_build (a numBlocks area base : Z) (s : sys) : option (Z * option built * sys) :=
  pool ← s_pools s !! a;
  let chunkSize := page_round (u32 (numBlocks * block_size pool + header_size pool)) in
  if area <? B_OK then Some (area, None, s)
  else
    let s := with_areas <[area := Area base chunkSize]> s in
    let s := with_headers <[base := Chunk 0 area numBlocks]> s in
    let lastBlock := last_block pool base numBlocks in
    let '(status, todo, nxt, s) := chunk_free_list pool (Z.to_nat numBlocks) lastBlock 0 s in
    if (0 <? todo)%nat then
      let s := remove_blocks pool (Z.to_nat numBlocks - todo) lastBlock s in
      Some (status, None, with_headers (delete base) (with_areas (delete area) s))
    else Some (B_OK, Some (Built base lastBlock nxt numBlocks), s).

(** The critical section of [enlarge_pool]; the result is the number of threads
    to release. *)
Definition enlarge_add (a : Z) (b : built) (s : sys) : option (Z * sys) :=
  pool ← s_pools s !! a;
  chunk ← s_headers s !! b_chunk b;
  let s := with_cells <[NEXT_PTR pool (b_last b) := free_list pool]> s in
  let s := with_headers <[b_chunk b := Chunk (chunks pool) (ch_area chunk) (ch_num_blocks chunk)]> s in
  let pool := set_chunks (b_chunk b) (set_free_list (b_first b) pool) in
  let pool := set_num_blocks (i32 (num_blocks pool + b_num b)) pool in
  let pool := set_free_blocks (i32 (free_blocks pool + b_num b)) pool in
  let numWaiting := Z.min (num_waiting pool) (b_num b) in
  let pool := set_num_waiting (i32 (num_waiting pool - numWaiting)) pool in
  Some (numWaiting, put_pool a pool s).

(** [release_sem_etc] on the semaphore of a pool. *)
Definition release_sem (a n : Z) (s : sys) : option sys :=
  pool ← s_pools s !! a;
  Some (put_pool a (set_sem (sem pool + n) pool) s).

Definition enlarge_pool (a numBlocks area base : Z) (s : sys) : option (Z * sys) :=
  '(status, b, s) ← enlarge_build a numBlocks area base s;
  match b with
  | None => Some (status, s)
  | Some b =>
      '(numWaiting, s) ← enlarge_add a b s;
      s ← release_sem a numWaiting s;
      Some (B_OK, s)
  end.

(** One round of the loop of [enlarger_thread] up to the critical section of
    [enlarge_pool]: the chunk that is built, if the pool is too small. *)
Definition enlarger_look (a area base : Z) (s : sys) : option (option built * sys) :=
  pool ← s_pools s !! a;
  if min_free_blocks pool <? free_blocks pool then Some (None, s)
  else if num_blocks pool <? max_blocks pool then
    '(_, b, s) ← enlarge_build a (Z.min (enlarge_by pool) (i32 (max_blocks pool - num_blocks pool))) area base s;
    Some (b, s)
  else Some (None, s).

(** ** Allocating and freeing *)

(** The first critical section of [pool_alloc]: a block, or none if the thread
    must wait. *)
Definition pool_alloc_enter (a : Z) (s : sys) : option (option Z * sys) :=
  pool ← s_pools s !! a;
  let pool := set_free_blocks (i32 (free_blocks pool - 1)) pool in
  if 0 <? free_blocks pool then
    let block := free_list pool in
    nxt ← s_cells s !! NEXT_PTR pool block;
    Some (Some block, put_pool a (set_free_list nxt pool) s)
  else Some (None, put_pool a (set_num_waiting (i32 (num_waiting pool + 1)) pool) s).

(** Waking the background thread. *)
Definition pool_alloc_signal (s : sys) : sys := set_enlarger_sem (sEnlargerSemaphore s + 1) s.

(** [acquire_sem] on the semaphore of the pool; a thread waits while it is 0. *)
Definition acquire_sem (a : Z) (s : sys) : option sys :=
  pool ← s_pools s !! a;
  if 0 <? sem pool then Some (put_pool a (set_sem (sem pool - 1) pool) s) else None.

(** The second critical section of [pool_alloc]. *)
Definition pool_alloc_take (a : Z) (s : sys) : option (Z * sys) :=
  pool ← s_pools s !! a;
  let block := free_list pool in
  nxt ← s_cells s !! NEXT_PTR pool block;
  Some (block, put_pool a (set_free_list nxt pool) s).

(** The critical section of [pool_free]; the result says whether a thread is to
    be released. *)
Definition pool_free (a block : Z) (s : sys) : option (bool * sys) :=
  pool ← s_pools s !! a;
  let s := with_cells <[NEXT_PTR pool block := free_list pool]> s in
  let pool := set_free_list block pool in
  let pool := set_free_blocks (i32 (free_blocks pool + 1)) pool in
  if num_waiting pool =? 0 then Some (false, put_pool a pool s)
  else Some (true, put_pool a (set_num_waiting (i32 (num_waiting pool - 1)) pool) s).

(** ** Pools come and go *)

(** [ADD_DL_LIST_HEAD] and [REMOVE_DL_LIST] on the global list. *)
Definition add_dl_list_head (a : Z) (s : sys) : option sys :=
  pool ← s_pools s !! a;
  let head := sLockedPools s in
  let s := put_pool a (set_prev 0 (set_next head pool)) s in
  s ← (if head =? 0 then Some s
       else h ← s_pools s !! head; Some (put_pool head (set_prev a h) s));
  Some (set_head a s).

Definition remove_dl_list (a : Z) (s : sys) : option sys :=
  pool ← s_pools s !! a;
  s ← (if prev pool =? 0 then Some (set_head (next pool) s)
       else q ← s_pools s !! prev pool; Some (put_pool (prev pool) (set_next (next pool) q) s));
  if next pool =? 0 then Some s
  else q ← s_pools s !! next pool; Some (put_pool (next pool) (set_prev (prev pool) q) s).

(** What the caller of [create_pool] asks for. *)
Record pool_args := Args {
  arg_block_size : Z;
  arg_alignment : Z;
  arg_next_ofs : Z;
  arg_chunk_size : Z;
  arg_max_blocks : Z;
  arg_min_free_blocks : Z;
  arg_add_hook : option (Z -> Z -> Z);
  arg_remove_hook : bool;
  arg_hook_arg : Z
}.

Definition new_pool (x : pool_args) : locked_pool :=
  let mask := u32 (Z.lnot (arg_alignment x)) in
  let block_size := Z.land (u32 (arg_block_size x + arg_alignment x)) mask in
  let header_size := Z.max (Z.land (u32 (sizeof_chunk_header + arg_alignment x)) mask) (u32 (arg_alignment x + 1)) in
  let enlarge_by := i32 (u32 (page_round (u32 (arg_chunk_size x)) - header_size) / block_size) in
  Pool 0 0 0 (arg_next_ofs x) 0 header_size 0 block_size (arg_min_free_blocks x) 0 (arg_max_blocks x)
    enlarge_by (arg_alignment x) (arg_add_hook x) (arg_remove_hook x) (arg_hook_arg x) 0 0.

(** [malloc] gave [a] (0 if it failed), [create_sem] the status [sem_status],
    [strdup] worked or not, and [create_area] gave [area] at [base]. *)
Definition create_pool (x : pool_args) (a sem_status : Z) (strdup_ok : bool) (area base : Z) (s : sys)
    : option (Z * sys) :=
  if a =? 0 then Some (0, s)
  else if sem_status <? 0 then Some (0, s)
  else if negb strdup_ok then Some (0, s)
  else
    let pool := new_pool x in
    let s := put_pool a pool s in
    '(status, s) ← (if 0 <? arg_min_free_blocks x
                    then enlarge_pool a (Z.min (enlarge_by pool) (max_blocks pool)) area base s
                    else Some (B_OK, s));
    if status <? 0 then Some (0, with_pools (delete a) s)
    else s ← add_dl_list_head a s; Some (a, s).

(** The loop of [free_chunks] over the list of chunks; [fuel] bounds the length
    of the list. *)
Fixpoint free_chunks_from (pool : locked_pool) (fuel : nat) (chunk : Z) (s : sys) : option sys :=
  if chunk =? 0 then Some s
  else match fuel with
       | O => None
       | S fuel =>
           h ← s_headers s !! chunk;
           let lastBlock := last_block pool chunk (ch_num_blocks h) in
           let s := remove_blocks pool (Z.to_nat (num_blocks pool)) lastBlock s in
           free_chunks_from pool fuel (ch_next h)
             (with_headers (delete chunk) (with_areas (delete (ch_area h)) s))
       end.

(** There are no more chunks in a list than headers. *)
Definition free_chunks (a : Z) (s : sys) : option sys :=
  pool ← s_pools s !! a;
  s ← free_chunks_from pool (size (s_headers s)) (chunks pool) s;
  Some (put_pool a (set_chunks 0 pool) s).

Definition destroy_pool (a : Z) (s : sys) : option sys :=
  s ← remove_dl_list a s;
  s ← free_chunks a s;
  Some (with_pools (delete a) s).

(** The module before any pool is there: [init_locked_pool] went well. *)
Definition init_locked_pool : sys := Sys ∅ ∅ ∅ ∅ [] 0 0 false.

(** The first half of [uninit_locked_pool]; the second waits for the thread. *)
Definition uninit_locked_pool (s : sys) : sys :=
  let s := set_shutting_down true s in
  set_enlarger_sem (sEnlargerSemaphore s + 1) s.

(** ** The pools as a system of threads

    Each step is a section of the code between two points where another thread
    can come in; the mutexes of the pools and of the global list make such a
    section one step. *)

(** Where a thread is inside [pool_alloc] or [pool_free] of a pool: about to wake
    the background thread, at [acquire_sem], behind it, about to release the
    semaphore. *)
Inductive pc := Signalling (a : Z) | Acquiring (a : Z) | Granted (a : Z) | Releasing (a : Z).

(** Where the background thread is: at its semaphore, about to look at a pool
    (0 at the end of the list), with a chunk to add, about to release threads,
    gone.  In between it holds the lock of the global list. *)
Inductive enlarger_pc :=
  | EWait | ELook (a : Z) | EAdd (a : Z) (b : built) | ERelease (a n : Z) | EExit.

#[export] Instance pc_eq_dec : EqDecision pc.
Proof. solve_decision. Defined.
#[export] Instance built_eq_dec : EqDecision built.
Proof. solve_decision. Defined.
#[export] Instance enlarger_pc_eq_dec : EqDecision enlarger_pc.
Proof. solve_decision. Defined.

(** The state: the module, the threads that are inside a function, by their id,
    the background thread, and the blocks in use with the pool they are from. *)
Record config := Config {
  c_sys : sys;
  c_threads : gmap Z pc;
  c_enlarger : enlarger_pc;
  c_out : gmap Z Z
}.

Inductive call :=
  | AllocEnter (t a : Z)
  | AllocSignal (t : Z)
  | AllocAcquire (t : Z)
  | AllocTake (t : Z)
  | FreeEnter (t a block : Z)
  | FreeRelease (t : Z)
  | EnlargerAcquire
  | EnlargerLook (area base : Z)
  | EnlargerAdd
  | EnlargerRelease
  | CreatePool (x : pool_args) (a sem_status : Z) (strdup_ok : bool) (area base : Z)
  | DestroyPool (a : Z)
  | Uninit.

Definition init : config := Config init_locked_pool ∅ EWait ∅.

(** ** The steps *)

Definition next_pool (a : Z) (s : sys) : option Z := p ← s_pools s !! a; Some (next p).

Definition step (x : call) (c : config) : option config :=
  let s := c_sys c in
  let ts := c_threads c in
  match x with
  | AllocEnter t a =>
      '(r, s) ← pool_alloc_enter a s;
      match r with
      | Some block => Some (Config s ts (c_enlarger c) (<[block := a]> (c_out c)))
      | None => Some (Config s (<[t := Signalling a]> ts) (c_enlarger c) (c_out c))
      end
  | AllocSignal t =>
      match ts !! t with
      | Some (Signalling a) =>
          Some (Config (pool_alloc_signal s) (<[t := Acquiring a]> ts) (c_enlarger c) (c_out c))
      | _ => None
      end
  | AllocAcquire t =>
      match ts !! t with
      | Some (Acquiring a) =>
          s ← acquire_sem a s; Some (Config s (<[t := Granted a]> ts) (c_enlarger c) (c_out c))
      | _ => None
      end
  | AllocTake t =>
      match ts !! t with
      | Some (Granted a) =>
          '(block, s) ← pool_alloc_take a s;
          Some (Config s (delete t ts) (c_enlarger c) (<[block := a]> (c_out c)))
      | _ => None
      end
  | FreeEnter t a block =>
      '(r, s) ← pool_free a block s;
      Some (Config s (if (r : bool) then <[t := Releasing a]> ts else ts) (c_enlarger c) (delete block (c_out c)))
  | FreeRelease t =>
      match ts !! t with
      | Some (Releasing a) =>
          s ← release_sem a 1 s; Some (Config s (delete t ts) (c_enlarger c) (c_out c))
      | _ => None
      end
  | EnlargerAcquire =>
      match c_enlarger c with
      | EWait =>
          if 0 <? sEnlargerSemaphore s then
            Some (Config (set_enlarger_sem (sEnlargerSemaphore s - 1) s) ts
                    (if sShuttingDown s then EExit else ELook (sLockedPools s)) (c_out c))
          else None
      | _ => None
      end
  | EnlargerLook area base =>
      match c_enlarger c with
      | ELook a =>
          if a =? 0 then Some (Config s ts EWait (c_out c))
          else
            '(b, s) ← enlarger_look a area base s;
            n ← next_pool a s;
            Some (Config s ts (match b with Some b => EAdd a b | None => ELook n end) (c_out c))
      | _ => None
      end
  | EnlargerAdd =>
      match c_enlarger c with
      | EAdd a b => '(n, s) ← enlarge_add a b s; Some (Config s ts (ERelease a n) (c_out c))
      | _ => None
      end
  | EnlargerRelease =>
      match c_enlarger c with
      | ERelease a n =>
          s ← release_sem a n s; nxt ← next_pool a s; Some (Config s ts (ELook nxt) (c_out c))
      | _ => None
      end
  | CreatePool x a sem_status strdup_ok area base =>
      '(_, s) ← create_pool x a sem_status strdup_ok area base s; Some (Config s ts (c_enlarger c) (c_out c))
  | DestroyPool a => s ← destroy_pool a s; Some (Config s ts (c_enlarger c) (c_out c))
  | Uninit => Some (Config (uninit_locked_pool s) ts (c_enlarger c) (c_out c))
  end.

(** ** What callers and the kernel may do *)

(** Thread ids are positive and 32 bits wide. *)
Definition idle (t : Z) (c : config) : Prop := 0 < t < 2 ^ 31 /\ c_threads c !! t = None.

Definition pc_pool (x : pc) : Z :=
  match x with Signalling a | Acquiring a | Granted a | Releasing a => a end.

(** The pool is used by no thread and none of its blocks is in use. *)
Definition unused (a : Z) (c : config) : Prop :=
  map_Forall (fun _ x => pc_pool x <> a) (c_threads c) /\ map_Forall (fun _ x => x <> a) (c_out c).

(** The background thread does not hold the lock of the list. *)
Definition list_unlocked (c : config) : Prop := c_enlarger c = EWait \/ c_enlarger c = EExit.

Definition apart (r1 r2 : area_info) : Prop :=
  ar_base r1 + ar_size r1 <= ar_base r2 \/ ar_base r2 + ar_size r2 <= ar_base r1.

(** [create_area] fails, or gives a new area at a page that no other area
    covers. *)
Definition area_result (area base size : Z) (s : sys) : Prop :=
  area < 0 \/
  0 < area /\ s_areas s !! area = None /\ 0 < base /\ (B_PAGE_SIZE | base) /\
  map_Forall (fun _ r => apart r (Area base size)) (s_areas s).

(** The requests for pools that make sense: the alignment is a mask of at most a
    page, the pointer fits into a block, a chunk has place for a block. *)
Definition good_args (x : pool_args) : Prop :=
  arg_alignment x ∈ ((fun k => 2 ^ k - 1) <$> seqZ 0 13) /\
  0 < arg_block_size x <= 2 ^ 30 /\ 0 < arg_chunk_size x <= 2 ^ 30 /\
  0 <= arg_next_ofs x /\ arg_next_ofs x + 4 <= arg_block_size x /\
  0 < arg_max_blocks x < 2 ^ 31 /\
  header_size (new_pool x) + block_size (new_pool x) <= page_round (arg_chunk_size x).

(** The size of the area for [n] blocks. *)
Definition chunk_bytes (p : locked_pool) (n : Z) : Z := page_round (u32 (n * block_size p + header_size p)).

Definition allowed (x : call) (c : config) : Prop :=
  let s := c_sys c in
  match x with
  | AllocEnter t a => idle t c /\ is_Some (s_pools s !! a)
  | AllocSignal t => exists a, c_threads c !! t = Some (Signalling a)
  | AllocAcquire t =>
      exists a p, c_threads c !! t = Some (Acquiring a) /\ s_pools s !! a = Some p /\ 0 < sem p
  | AllocTake t => exists a, c_threads c !! t = Some (Granted a)
  | FreeEnter t a block => idle t c /\ c_out c !! block = Some a
  | FreeRelease t => exists a, c_threads c !! t = Some (Releasing a)
  | EnlargerAcquire => c_enlarger c = EWait /\ 0 < sEnlargerSemaphore s
  | EnlargerLook area base =>
      exists a, c_enlarger c = ELook a /\
        forall p, s_pools s !! a = Some p ->
          area_result area base (chunk_bytes p (Z.min (enlarge_by p) (max_blocks p - num_blocks p))) s
  | EnlargerAdd => exists a b, c_enlarger c = EAdd a b
  | EnlargerRelease => exists a n, c_enlarger c = ERelease a n
  | CreatePool x a sem_status strdup_ok area base =>
      list_unlocked c /\ good_args x /\ 0 <= a /\ s_pools s !! a = None /\
      (let p := new_pool x in
       area_result area base (chunk_bytes p (Z.min (enlarge_by p) (max_blocks p))) s)
  | DestroyPool a => list_unlocked c /\ is_Some (s_pools s !! a) /\ unused a c
  | Uninit => True
  end.

(** The states that allowed steps lead to, in any order. *)
Inductive reachable : config -> Prop :=
  | reach_init : reachable init
  | reach_step x c c' : reachable c -> allowed x c -> step x c = Some c' -> reachable c'.
