(* ===== verification/PoolInv.v ===== *)
(** The structures of the pools of locked memory: free lists, lists of chunks,
    blocks in their areas, and what the loops over them do. *)
From stdpp Require Import base gmap list.
From Stdlib Require Import ZArith Lia.
From S2P Require Import Prelude Errors LockedPool.

Implicit Types (p : locked_pool) (s : sys).

(** ** Counting threads *)

Definition count (f : pc -> bool) (ts : gmap Z pc) : Z :=
  Z.of_nat (size (filter (fun x => f x.2 = true) ts)).

Lemma count_empty f : count f ∅ = 0.
Proof. unfold count. by rewrite map_filter_empty, map_size_empty. Qed.

Lemma count_insert f t x ts : ts !! t = None -> count f (<[t := x]> ts) = count f ts + Z.b2z (f x).
Proof.
  intros H. unfold count. destruct (f x) eqn:E.
  - rewrite map_filter_insert_True by done. rewrite map_size_insert_None by (by apply map_lookup_filter_None; left).
    simpl. lia.
  - rewrite map_filter_insert_False by (simpl; congruence). rewrite delete_id by done. simpl. lia.
Qed.

Lemma count_delete f t x ts : ts !! t = Some x -> count f (delete t ts) = count f ts - Z.b2z (f x).
Proof.
  intros H. pose proof (count_insert f t x (delete t ts) (lookup_delete_eq ts t)) as E.
  rewrite insert_delete_id in E by done. lia.
Qed.

Lemma count_update f t x y ts :
  ts !! t = Some x -> count f (<[t := y]> ts) = count f ts - Z.b2z (f x) + Z.b2z (f y).
Proof.
  intros H. rewrite <- insert_delete_eq. rewrite count_insert by apply lookup_delete_eq.
  by rewrite (count_delete _ _ x).
Qed.

Lemma count_nonneg f ts : 0 <= count f ts.
Proof. unfold count. lia. Qed.

Lemma count_pos f t x ts : ts !! t = Some x -> f x = true -> 0 < count f ts.
Proof. intros H E. pose proof (count_delete f t x ts H). pose proof (count_nonneg f (delete t ts)). rewrite E in *. simpl in *. lia. Qed.

Lemma count_le f g ts : (forall x, f x = true -> g x = true) -> count f ts <= count g ts.
Proof.
  intros H. induction ts as [|t x ts Ht IH] using map_ind; [by rewrite !count_empty|].
  rewrite !count_insert by done. specialize (H x). destruct (f x), (g x); simpl; lia || naive_solver.
Qed.

Lemma count_bound f (ts : gmap Z pc) n : (forall t, is_Some (ts !! t) -> 0 < t <= n) -> 0 <= n -> count f ts <= n.
Proof.
  intros H Hn. transitivity (Z.of_nat (size (dom ts))).
  - unfold count. rewrite size_dom. apply inj_le. apply map_subseteq_size, map_filter_subseteq.
  - transitivity (Z.of_nat (size (list_to_set (seqZ 1 n) : gset Z))).
    + apply inj_le, subseteq_size. intros t Ht%elem_of_dom. apply elem_of_list_to_set, elem_of_seqZ. apply H in Ht. lia.
    + rewrite size_list_to_set by apply NoDup_seqZ. rewrite length_seqZ. lia.
Qed.

(** ** Lists in memory *)

(** The blocks [l] are linked from [head], with their pointers at offset [ofs]. *)
Fixpoint free_chain (cells : gmap Z Z) (ofs head : Z) (l : list Z) : Prop :=
  match l with
  | [] => head = 0
  | b :: r => head = b /\ exists nxt, cells !! (b + ofs) = Some nxt /\ free_chain cells ofs nxt r
  end.

Lemma free_chain_frame cells cells' ofs head l :
  (forall b, b ∈ l -> cells' !! (b + ofs) = cells !! (b + ofs)) ->
  free_chain cells ofs head l -> free_chain cells' ofs head l.
Proof.
  revert head. induction l as [|b r IH]; intros head H; [done|]. intros [-> (nxt & Hn & Hc)].
  split; [done|]. exists nxt. split; [rewrite H; [done|by left]|]. apply IH; [|done]. intros b' Hb. apply H. by right.
Qed.

Lemma free_chain_insert cells ofs head l k v :
  (forall b, b ∈ l -> b + ofs <> k) -> free_chain cells ofs head l -> free_chain (<[k := v]> cells) ofs head l.
Proof. intros H. apply free_chain_frame. intros b Hb. apply lookup_insert_ne. intros E. by apply (H b Hb). Qed.

(** Another chain can be put behind the last block. *)
Lemma free_chain_app cells ofs head l b y l2 :
  NoDup (l ++ b :: l2) -> free_chain cells ofs head (l ++ [b]) -> free_chain cells ofs y l2 ->
  free_chain (<[b + ofs := y]> cells) ofs head (l ++ b :: l2).
Proof.
  revert head. induction l as [|x r IH]; intros head; cbn [app].
  - intros [Hb _]%NoDup_cons [-> _] H. split; [done|]. exists y. split; [by rewrite lookup_insert_eq|].
    apply free_chain_insert; [|done]. intros b' Hb' E. assert (b' = b) as -> by lia. done.
  - intros [Hx Hn]%NoDup_cons [-> (nxt & Hl & Hc)] H. split; [done|]. exists nxt. split; [|by apply IH].
    rewrite lookup_insert_ne; [done|]. intros E. apply Hx. assert (b = x) as -> by lia. set_solver.
Qed.

(** The chunks [cs] are linked from [head]. *)
Fixpoint chunk_chain (headers : gmap Z chunk_header) (head : Z) (cs : list Z) : Prop :=
  match cs with
  | [] => head = 0
  | c :: r => head = c /\ c <> 0 /\ exists h, headers !! c = Some h /\ chunk_chain headers (ch_next h) r
  end.

Lemma chunk_chain_frame headers headers' head cs :
  (forall c, c ∈ cs -> headers' !! c = headers !! c) -> chunk_chain headers head cs -> chunk_chain headers' head cs.
Proof.
  revert head. induction cs as [|c r IH]; intros head H; [done|]. intros (-> & ? & h & Hh & Hc).
  split_and!; [done..|]. exists h. split; [rewrite H; [done|by left]|]. apply IH; [|done]. intros c' Hb. apply H. by right.
Qed.

(** ** The blocks of a chunk *)

(** [n] blocks in ascending order, the last of which is [block]. *)
Fixpoint below (size block : Z) (n : nat) : list Z :=
  match n with O => [] | S m => below size (block - size) m ++ [block] end.

Lemma length_below bs b n : length (below bs b n) = n.
Proof. revert b. induction n as [|n IH]; intros b; simpl; [done|]. rewrite length_app, IH. simpl. lia. Qed.

Lemma elem_of_below bs b n x : x ∈ below bs b n <-> exists i, 0 <= i < Z.of_nat n /\ x = b - i * bs.
Proof.
  revert b. induction n as [|n IH]; intros b; cbn [below].
  - split; [by intros ?%elem_of_nil|]. intros (i & ? & ?). lia.
  - rewrite elem_of_app, IH, list_elem_of_singleton. split.
    + intros [(i & Hi & ->) | ->]; [exists (i + 1); split; [lia|ring]|exists 0; split; [lia|ring]].
    + intros (i & Hi & ->). destruct (decide (i = 0)) as [->|]; [right; ring|left].
      exists (i - 1). split; [lia|ring].
Qed.

Lemma NoDup_below bs b n : 0 < bs -> NoDup (below bs b n).
Proof.
  intros Hb. revert b. induction n as [|n IH]; intros b; cbn [below]; [constructor|].
  apply NoDup_app. split_and!; [apply IH| |apply NoDup_singleton].
  intros x (i & Hi & ->)%elem_of_below E%list_elem_of_singleton. nia.
Qed.

Definition chunk_blocks (p : locked_pool) (c n : Z) : list Z := below (block_size p) (last_block p c n) (Z.to_nat n).

Lemma elem_of_chunk_blocks p c n x :
  x ∈ chunk_blocks p c n <-> exists i, 0 <= i < n /\ x = c + header_size p + i * block_size p.
Proof.
  unfold chunk_blocks, last_block. rewrite elem_of_below. split; intros (i & Hi & ->).
  - exists (n - 1 - i). split; [lia|ring].
  - exists (n - 1 - i). split; [lia|ring].
Qed.

(** The blocks of the chunks of a pool. *)
Definition pool_blocks (headers : gmap Z chunk_header) (p : locked_pool) (cs : list Z) : list Z :=
  c ← cs; match headers !! c with Some h => chunk_blocks p c (ch_num_blocks h) | None => [] end.

Lemma elem_of_pool_blocks headers p cs x :
  x ∈ pool_blocks headers p cs <->
  exists c h, c ∈ cs /\ headers !! c = Some h /\ x ∈ chunk_blocks p c (ch_num_blocks h).
Proof.
  unfold pool_blocks. rewrite list_elem_of_bind. split.
  - intros (c & Hx & Hc). destruct (headers !! c) as [h|] eqn:E; [eauto|by apply elem_of_nil in Hx].
  - intros (c & h & Hc & E & Hx). exists c. by rewrite E.
Qed.

Lemma pool_blocks_cons headers p (c : Z) h cs :
  headers !! c = Some h ->
  pool_blocks headers p (c :: cs) = chunk_blocks p c (ch_num_blocks h) ++ pool_blocks headers p cs.
Proof. intros H. unfold pool_blocks. cbn. by rewrite H. Qed.

Lemma pool_blocks_frame headers headers' p p' cs :
  (forall c, c ∈ cs -> headers' !! c = headers !! c) ->
  header_size p' = header_size p -> block_size p' = block_size p ->
  pool_blocks headers' p' cs = pool_blocks headers p cs.
Proof.
  intros H E1 E2. unfold pool_blocks. induction cs as [|c r IH]; [done|]. cbn.
  rewrite H by (by left). rewrite IH by (intros c' Hc; apply H; by right). f_equal.
  destruct (headers !! c); [|done]. unfold chunk_blocks, last_block. by rewrite E1, E2.
Qed.

(** ** The loops over blocks *)

Lemma call_add_hook_eq p b s :
  exists st hs, call_add_hook p b s = (st, Sys (s_pools s) (s_headers s) (s_cells s) (s_areas s) hs
    (sLockedPools s) (sEnlargerSemaphore s) (sShuttingDown s)) /\ (add_hook p = None -> st = B_OK).
Proof.
  unfold call_add_hook. destruct (add_hook p).
  - eexists _, _. by split.
  - exists B_OK, (s_hooks s). by destruct s.
Qed.

(** The loop of [enlarge_pool] writes nothing but the pointers of the blocks, and
    if no hook fails, it leaves the free list of the chunk. *)
Lemma chunk_free_list_spec p n :
  forall block nxt s l st k nxt' s',
  0 < block_size p ->
  chunk_free_list p n block nxt s = (st, k, nxt', s') ->
  free_chain (s_cells s) (next_ofs p) nxt l -> (forall b, b ∈ below (block_size p) block n -> b ∉ l) ->
  exists cells hs,
    s' = Sys (s_pools s) (s_headers s) cells (s_areas s) hs (sLockedPools s) (sEnlargerSemaphore s) (sShuttingDown s) /\
    (forall x, (forall b, b ∈ below (block_size p) block n -> x <> b + next_ofs p) -> cells !! x = s_cells s !! x) /\
    (k = 0%nat -> free_chain cells (next_ofs p) nxt' (below (block_size p) block n ++ l)) /\
    (k <> 0%nat -> st < B_OK).
Proof.
  induction n as [|n IH]; intros block nxt s l st k nxt' s' Hbs; cbn [chunk_free_list].
  - intros [= <- <- <- <-] Hc _. exists (s_cells s), (s_hooks s). destruct s. by split_and!.
  - destruct (call_add_hook_eq p block s) as (h & hs & -> & _).
    destruct (Z.ltb_spec h B_OK) as [Hl|Hl].
    + intros [= <- <- <- <-] _ _. exists (s_cells s), hs. split_and!; try done.
    + intros E Hc Hl'. set (s1 := with_cells _ _) in E.
      assert (Hn : forall b, b ∈ below (block_size p) (block - block_size p) n -> b ∉ block :: l).
      { intros b Hb [->|Hb']%elem_of_cons.
        - apply elem_of_below in Hb as (i & ? & ?). nia.
        - apply (Hl' b); [|done]. cbn [below]. set_solver. }
      destruct (IH _ _ s1 (block :: l) _ _ _ _ Hbs E) as (cells & hs2 & -> & F1 & F2 & F3); [| done |].
      { split; [done|]. exists nxt. split; [apply lookup_insert_eq|].
        apply free_chain_insert; [|done]. intros b Hb Eb. unfold NEXT_PTR in Eb. assert (b = block) as -> by lia.
        apply (Hl' block); [|done]. cbn [below]. set_solver. }
      exists cells, hs2. split_and!; [done| | |done].
      * intros x Hx. rewrite F1 by (intros b Hb; apply Hx; cbn [below]; set_solver).
        unfold s1. simpl. rewrite lookup_insert_ne; [done|]. intros Eb. apply (Hx block); [|by rewrite <- Eb].
        cbn [below]. set_solver.
      * intros Hk. specialize (F2 Hk). cbn [below]. by rewrite <- app_assoc.
Qed.

Lemma remove_blocks_eq p n : forall b s, exists hs,
  remove_blocks p n b s = Sys (s_pools s) (s_headers s) (s_cells s) (s_areas s) hs
    (sLockedPools s) (sEnlargerSemaphore s) (sShuttingDown s).
Proof.
  induction n as [|n IH]; intros b s; cbn [remove_blocks]; [exists (s_hooks s); by destruct s|].
  destruct (IH (b - block_size p) (call_remove_hook p b s)) as [hs ->].
  exists hs. unfold call_remove_hook. by destruct (remove_hook p).
Qed.

(** ** Where the blocks of the pools are, and the invariant of the system *)

Implicit Types (c : config).

(** ** Sizes *)

(** A pool with sensible parameters. *)
Record good p : Prop := {
  g_align : exists k, 0 <= k <= 12 /\ alignment p = 2 ^ k - 1 /\ (2 ^ k | block_size p) /\ (2 ^ k | header_size p);
  g_bs : 0 < block_size p;
  g_hs : sizeof_chunk_header <= header_size p;
  g_ofs : 0 <= next_ofs p /\ next_ofs p + 4 <= block_size p;
  g_max : 0 < max_blocks p < 2 ^ 31;
  g_by : 0 < enlarge_by p;
  g_fits : enlarge_by p * block_size p + header_size p <= 2 ^ 31
}.

Definition static p :=
  (next_ofs p, header_size p, block_size p, min_free_blocks p, max_blocks p, (enlarge_by p, alignment p)).

Lemma static_good p p' : static p' = static p -> good p -> good p'.
Proof.
  intros E [G1 G2 G3 G4 G5 G6 G7]. unfold static in E. injection E as E1 E2 E3 E4 E5 E6 E7.
  split; rewrite ?E1, ?E2, ?E3, ?E4, ?E5, ?E6, ?E7; done.
Qed.

Lemma new_pool_good x : good_args x -> good (new_pool x).
Proof.
  intros ((k & Ha & Hk%elem_of_seqZ)%list_elem_of_fmap & Hb & Hc & Ho & Ho' & Hm & Hf).
  assert (Hp : 0 < 2 ^ k <= 4096) by (split; [lia|change 4096 with (2 ^ 12); apply Z.pow_le_mono_r; lia]).
  pose proof (page_round_ge (arg_chunk_size x) ltac:(lia)) as Hr.
  unfold new_pool in *. simpl in Hf. rewrite Ha in *. unfold sizeof_chunk_header in *.
  rewrite (u32_small (arg_block_size x + _)) in * by lia.
  rewrite (u32_small (12 + _)) in * by lia. rewrite !mask_round in * by lia.
  rewrite (u32_small (arg_chunk_size x)) in * by lia.
  replace (2 ^ k - 1 + 1) with (2 ^ k) in * by ring. rewrite (u32_small (2 ^ k)) in * by lia.
  set (bs := (arg_block_size x + (2 ^ k - 1)) / 2 ^ k * 2 ^ k) in *.
  set (h1 := (12 + (2 ^ k - 1)) / 2 ^ k * 2 ^ k) in *.
  assert (Hbs : arg_block_size x <= bs) by (subst bs; zlia).
  assert (Hh1 : 12 <= h1) by (subst h1; zlia).
  set (hs := Z.max h1 (2 ^ k)) in *. assert (12 <= hs) by lia.
  rewrite (u32_small (_ - hs)) by lia.
  assert (Hq : 0 < (page_round (arg_chunk_size x) - hs) / bs) by (apply Z.div_str_pos; lia).
  pose proof (Z.mul_div_le (page_round (arg_chunk_size x) - hs) bs ltac:(lia)) as Hmul.
  assert (Hi : (page_round (arg_chunk_size x) - hs) / bs <= page_round (arg_chunk_size x)) by nia.
  rewrite i32_small by lia.
  split; simpl; rewrite ?Ha; try lia.
  - exists k. split_and!; [lia|lia|done| |].
    + exists ((arg_block_size x + (2 ^ k - 1)) / 2 ^ k). done.
    + subst hs. destruct (Z.max_spec h1 (2 ^ k)) as [[_ ->]|[_ ->]]; [by exists 1; lia|].
      exists ((12 + (2 ^ k - 1)) / 2 ^ k). done.
  - unfold sizeof_chunk_header. lia.
Qed.

Lemma chunk_bytes_fits p n : good p -> 0 < n <= enlarge_by p ->
  n * block_size p + header_size p <= chunk_bytes p n.
Proof.
  intros [] Hn. unfold chunk_bytes, sizeof_chunk_header in *.
  assert (0 < n * block_size p <= enlarge_by p * block_size p) by nia.
  rewrite u32_small by lia. apply page_round_ge. lia.
Qed.

(** ** Blocks and areas *)

(** The chunks, with the pool they are for. *)
Record layout s (owner : gmap Z Z) : Prop := {
  l_areas : forall i j r1 r2, s_areas s !! i = Some r1 -> s_areas s !! j = Some r2 -> i <> j -> apart r1 r2;
  l_owner : forall x a, owner !! x = Some a -> exists p h size,
    s_pools s !! a = Some p /\ s_headers s !! x = Some h /\ s_areas s !! ch_area h = Some (Area x size) /\
    0 < ch_num_blocks h /\ ch_num_blocks h * block_size p + header_size p <= size /\ 0 < x /\ (B_PAGE_SIZE | x);
  l_good : forall a p, s_pools s !! a = Some p -> good p /\ a <> 0
}.

(** Two blocks do not overlap. *)
Lemma blocks_apart s owner x1 x2 a1 a2 p1 p2 h1 h2 b1 b2 :
  layout s owner -> owner !! x1 = Some a1 -> owner !! x2 = Some a2 ->
  s_pools s !! a1 = Some p1 -> s_pools s !! a2 = Some p2 -> s_headers s !! x1 = Some h1 -> s_headers s !! x2 = Some h2 ->
  b1 ∈ chunk_blocks p1 x1 (ch_num_blocks h1) -> b2 ∈ chunk_blocks p2 x2 (ch_num_blocks h2) ->
  x1 <> x2 \/ b1 <> b2 -> b1 + block_size p1 <= b2 \/ b2 + block_size p2 <= b1.
Proof.
  intros L O1 O2 P1 P2 H1 H2 (i & Hi & ->)%elem_of_chunk_blocks (j & Hj & ->)%elem_of_chunk_blocks Hne.
  destruct (l_owner _ _ L _ _ O1) as (q1 & k1 & z1 & P1' & H1' & A1 & N1 & F1 & X1 & _).
  destruct (l_owner _ _ L _ _ O2) as (q2 & k2 & z2 & P2' & H2' & A2 & N2 & F2 & X2 & _).
  simplify_eq. destruct (l_good _ _ L _ _ P1) as [[_ B1 C1 _ _ _ _] _].
  destruct (l_good _ _ L _ _ P2) as [[_ B2 C2 _ _ _ _] _]. unfold sizeof_chunk_header in *.
  destruct (decide (x1 = x2)) as [->|Hx].
  - simplify_eq. destruct (Z.lt_total i j) as [Hl|[->|Hl]]; [left; nia|naive_solver|right; nia].
  - assert (E : ch_area h1 <> ch_area h2) by (intros E; rewrite E in A1; congruence).
    pose proof (l_areas _ _ L _ _ _ _ A1 A2 E) as Ha. unfold apart in Ha. simpl in Ha.
    assert (i * block_size p1 + block_size p1 <= ch_num_blocks h1 * block_size p1) by nia.
    assert (j * block_size p2 + block_size p2 <= ch_num_blocks h2 * block_size p2) by nia.
    assert (0 <= i * block_size p1) by nia. assert (0 <= j * block_size p2) by nia. lia.
Qed.

Lemma block_positive s owner x a p h b :
  layout s owner -> owner !! x = Some a -> s_pools s !! a = Some p -> s_headers s !! x = Some h ->
  b ∈ chunk_blocks p x (ch_num_blocks h) -> 0 < b.
Proof.
  intros L O P H (i & Hi & ->)%elem_of_chunk_blocks.
  destruct (l_owner _ _ L _ _ O) as (q & k & z & P' & H' & A & N & F & X & _). simplify_eq.
  destruct (l_good _ _ L _ _ P) as [[_ B C _ _ _ _] _]. unfold sizeof_chunk_header in *. nia.
Qed.

(** ** The global list *)

Fixpoint dl_list (pools : gmap Z locked_pool) (pv head : Z) (ps : list Z) : Prop :=
  match ps with
  | [] => head = 0
  | a :: r => head = a /\ a <> 0 /\ exists p, pools !! a = Some p /\ prev p = pv /\ dl_list pools a (next p) r
  end.

Lemma dl_list_frame pools pools' pv head ps :
  (forall a p, a ∈ ps -> pools !! a = Some p -> exists p', pools' !! a = Some p' /\ prev p' = prev p /\ next p' = next p) ->
  dl_list pools pv head ps -> dl_list pools' pv head ps.
Proof.
  revert pv head. induction ps as [|a r IH]; intros pv head H; [done|]. intros (-> & Hn & p & Hp & Hv & Hl).
  split_and!; [done..|]. destruct (H a p) as (p' & Hp' & E1 & E2); [by left|done|].
  exists p'. split_and!; [done|congruence|]. rewrite E2. apply IH; [|done]. intros a' q Ha. apply H. by right.
Qed.

(** ** The invariant *)

(** The blocks [w] threads wait for and [gr] threads have been let go for,
    besides those that the semaphore counts. *)
Record pool_inv s (owner out : gmap Z Z) (pend w gr a : Z) p (cs fl : list Z) : Prop := {
  pi_chain : chunk_chain (s_headers s) (chunks p) cs;
  pi_cs : NoDup cs;
  pi_owner : forall x, x ∈ cs -> owner !! x = Some a;
  pi_num : num_blocks p = Z.of_nat (length (pool_blocks (s_headers s) p cs));
  pi_max : num_blocks p + pend <= max_blocks p;
  pi_free : free_chain (s_cells s) (next_ofs p) (free_list p) fl;
  pi_fl : NoDup fl;
  pi_part : forall b, b ∈ pool_blocks (s_headers s) p cs <-> b ∈ fl \/ out !! b = Some a;
  pi_excl : forall b, b ∈ fl -> out !! b <> Some a;
  pi_count : free_blocks p = Z.of_nat (length fl) - w;
  pi_sem : 0 <= sem p;
  pi_wait : num_waiting p = w - (sem p + gr);
  pi_wait0 : 0 <= num_waiting p;
  pi_grant : sem p + gr <= Z.of_nat (length fl);
  pi_idle : 0 < num_waiting p -> Z.of_nat (length fl) <= sem p + gr + 1;
  pi_keep : 0 < min_free_blocks p -> chunks p <> 0 -> sem p + gr < Z.of_nat (length fl)
}.

(** Threads that are inside [pool_alloc] of a pool, and grants on their way. *)
Definition waits_on (a : Z) (x : pc) : bool :=
  match x with Signalling b | Acquiring b | Granted b => b =? a | Releasing _ => false end.
Definition granted_on (a : Z) (x : pc) : bool :=
  match x with Granted b | Releasing b => b =? a | _ => false end.
Definition waiters c (a : Z) : Z := count (waits_on a) (c_threads c).
Definition grants c (a : Z) : Z :=
  count (granted_on a) (c_threads c) + match c_enlarger c with ERelease b n => if b =? a then n else 0 | _ => 0 end.
Definition pending c (a : Z) : Z :=
  match c_enlarger c with EAdd b x => if b =? a then b_num x else 0 | _ => 0 end.

Definition enlarger_inv s (owner : gmap Z Z) (cs : Z -> list Z) (e : enlarger_pc) : Prop :=
  match e with
  | EWait | EExit => True
  | ELook a => a = 0 \/ is_Some (s_pools s !! a)
  | EAdd a b => exists p h,
      s_pools s !! a = Some p /\ owner !! b_chunk b = Some a /\ s_headers s !! b_chunk b = Some h /\
      ch_num_blocks h = b_num b /\ 0 < b_num b /\ b_last b = last_block p (b_chunk b) (b_num b) /\
      free_chain (s_cells s) (next_ofs p) (b_first b) (chunk_blocks p (b_chunk b) (b_num b)) /\ b_chunk b ∉ cs a
  | ERelease a n => is_Some (s_pools s !! a) /\ 0 <= n
  end.

(** [X] are pools that are not yet in the global list. *)
Record inv (X : gset Z) c (owner : gmap Z Z) (cs fl : Z -> list Z) (ps : list Z) : Prop := {
  i_layout : layout (c_sys c) owner;
  i_pool : forall a p, s_pools (c_sys c) !! a = Some p ->
    pool_inv (c_sys c) owner (c_out c) (pending c a) (waiters c a) (grants c a) a p (cs a) (fl a);
  i_min : forall a p, s_pools (c_sys c) !! a = Some p -> a ∉ X -> 0 < min_free_blocks p -> chunks p <> 0;
  i_threads : forall t x, c_threads c !! t = Some x -> 0 < t < 2 ^ 31 /\ is_Some (s_pools (c_sys c) !! pc_pool x);
  i_out : forall b a, c_out c !! b = Some a -> is_Some (s_pools (c_sys c) !! a);
  i_enlarger : enlarger_inv (c_sys c) owner cs (c_enlarger c);
  i_dl : dl_list (s_pools (c_sys c)) 0 (sLockedPools (c_sys c)) ps;
  i_ps : NoDup ps /\ (forall a, a ∈ ps <-> is_Some (s_pools (c_sys c) !! a) /\ a ∉ X)
}.
