(* ===== verification/PoolSteps.v ===== *)
(** The steps inside [pool_alloc] and [pool_free], and those of the background
    thread that enlarges the pools, have results and keep the invariant of the
    pools of locked memory. *)
From stdpp Require Import base functions gmap list.
From Stdlib Require Import ZArith Lia.
From S2P Require Import Prelude Errors LockedPool PoolInv.

Implicit Types (p : locked_pool) (s : sys) (c : config).

(** ** What a step on one pool leaves alone *)

Lemma pool_inv_frame s s' owner owner' out out' pend w gr a p cs fl :
  pool_inv s owner out pend w gr a p cs fl ->
  (forall x, x ∈ cs -> s_headers s' !! x = s_headers s !! x) ->
  (forall x, x ∈ cs -> owner' !! x = owner !! x) ->
  (forall b, b ∈ pool_blocks (s_headers s) p cs -> s_cells s' !! (b + next_ofs p) = s_cells s !! (b + next_ofs p)) ->
  (forall b, out' !! b = Some a <-> out !! b = Some a) ->
  pool_inv s' owner' out' pend w gr a p cs fl.
Proof.
  intros H Hh Ho Hc Hout. pose proof (pool_blocks_frame _ _ p p cs Hh eq_refl eq_refl) as Eb.
  destruct H. split; rewrite ?Eb; try done.
  - by eapply chunk_chain_frame.
  - intros x Hx. rewrite Ho by done. auto.
  - eapply free_chain_frame; [|done]. intros b Hb. apply Hc, pi_part. by left.
  - intros b. rewrite Hout. auto.
  - intros b Hb. rewrite Hout. auto.
Qed.

(** A block of a pool, with its chunk. *)
Definition block_of s (owner : gmap Z Z) (a : Z) p (b : Z) : Prop :=
  exists x h, owner !! x = Some a /\ s_headers s !! x = Some h /\ b ∈ chunk_blocks p x (ch_num_blocks h).

Lemma pool_inv_block s owner out pend w gr a p cs fl b :
  pool_inv s owner out pend w gr a p cs fl -> b ∈ pool_blocks (s_headers s) p cs -> block_of s owner a p b.
Proof. intros H (x & h & Hx & Hh & Hb)%elem_of_pool_blocks. exists x, h. split_and!; [by eapply pi_owner|done..]. Qed.

(** Pointers in blocks of different pools are at different places. *)
Lemma cells_apart s owner a1 a2 p1 p2 b1 b2 :
  layout s owner -> s_pools s !! a1 = Some p1 -> s_pools s !! a2 = Some p2 ->
  block_of s owner a1 p1 b1 -> block_of s owner a2 p2 b2 -> a1 <> a2 -> b1 + next_ofs p1 <> b2 + next_ofs p2.
Proof.
  intros L P1 P2 (x1 & h1 & O1 & H1 & B1) (x2 & h2 & O2 & H2 & B2) Hne.
  destruct (l_good _ _ L _ _ P1) as [[_ ? _ [? ?] _ _ _] _]. destruct (l_good _ _ L _ _ P2) as [[_ ? _ [? ?] _ _ _] _].
  destruct (blocks_apart _ _ _ _ _ _ _ _ _ _ _ _ L O1 O2 P1 P2 H1 H2 B1 B2); [left; congruence|lia..].
Qed.

(** The pointers that differ between two memories are in blocks of one pool. *)
Definition cells_within s s' (owner : gmap Z Z) (a : Z) p : Prop :=
  forall k, s_cells s' !! k = s_cells s !! k \/ exists b, block_of s owner a p b /\ k = b + next_ofs p.

Lemma cells_within_refl s s' owner a p : s_cells s' = s_cells s -> cells_within s s' owner a p.
Proof. intros E k. left. by rewrite E. Qed.

Lemma cells_within_insert s s' owner a p b v :
  s_cells s' = <[b + next_ofs p := v]> (s_cells s) -> block_of s owner a p b -> cells_within s s' owner a p.
Proof.
  intros E Hb k. rewrite E. destruct (decide (b + next_ofs p = k)) as [<-|]; [right; eauto|].
  left. by apply lookup_insert_ne.
Qed.

Lemma cells_other s s' owner a p a2 p2 b :
  layout s owner -> s_pools s !! a = Some p -> s_pools s !! a2 = Some p2 -> cells_within s s' owner a p ->
  block_of s owner a2 p2 b -> a2 <> a -> s_cells s' !! (b + next_ofs p2) = s_cells s !! (b + next_ofs p2).
Proof.
  intros L P P2 Hc Hb Hne. destruct (Hc (b + next_ofs p2)) as [E|(b' & Hb' & E)]; [done|].
  exfalso. eapply (cells_apart s owner a2 a p2 p b b'); eauto.
Qed.

(** The headers keep their areas and sizes, and change only in one pool. *)
Definition headers_within s s' (owner : gmap Z Z) (a : Z) : Prop :=
  forall x b h, owner !! x = Some b -> s_headers s !! x = Some h ->
    exists h', s_headers s' !! x = Some h' /\ ch_area h' = ch_area h /\ ch_num_blocks h' = ch_num_blocks h /\
      (b <> a -> h' = h).

Lemma headers_within_refl s s' owner a : s_headers s' = s_headers s -> headers_within s s' owner a.
Proof. intros E x b h Ho Hh. rewrite E. eauto. Qed.

Section Update.
Context {X : gset Z} {c c' : config} {owner : gmap Z Z} {cs fl : Z -> list Z} {ps : list Z} {a : Z} {p p' : locked_pool}.
Hypothesis Hinv : inv X c owner cs fl ps.
Hypothesis Hp : s_pools (c_sys c) !! a = Some p.
Hypothesis Hp' : s_pools (c_sys c') = <[a := p']> (s_pools (c_sys c)).
Hypothesis Hstatic : static p' = static p.
Hypothesis Hlink : prev p' = prev p /\ next p' = next p.
Hypothesis Hchunks : chunks p <> 0 -> chunks p' <> 0.
Hypothesis Hareas : s_areas (c_sys c') = s_areas (c_sys c).
Hypothesis Hhead : sLockedPools (c_sys c') = sLockedPools (c_sys c).

Lemma pools_some b : is_Some (s_pools (c_sys c') !! b) <-> is_Some (s_pools (c_sys c) !! b).
Proof. rewrite Hp', lookup_insert_is_Some. destruct (decide (a = b)) as [<-|]; [rewrite Hp|]; naive_solver. Qed.

Lemma static_fields : next_ofs p' = next_ofs p /\ header_size p' = header_size p /\ block_size p' = block_size p.
Proof. unfold static in Hstatic. injection Hstatic. intros. done. Qed.

Lemma layout_update : headers_within (c_sys c) (c_sys c') owner a -> layout (c_sys c') owner.
Proof.
  intros Hh. destruct (i_layout _ _ _ _ _ _ Hinv) as [L1 L2 L3]. destruct static_fields as (E1 & E2 & E3). split.
  - by rewrite Hareas.
  - intros x b Ho. destruct (L2 x b Ho) as (q & h & z & P & H & A & N & F & Xp & D).
    destruct (Hh _ _ _ Ho H) as (h' & H' & Ea & En & _). rewrite Hp', Hareas.
    destruct (decide (a = b)) as [<-|Hne].
    + simplify_eq. exists p', h', z. by rewrite lookup_insert_eq, Ea, En, E2, E3.
    + exists q, h', z. by rewrite lookup_insert_ne, Ea, En by done.
  - intros b q. rewrite Hp'. intros [[<- <-]|[Hne Hq]]%lookup_insert_Some; [|by apply L3].
    destruct (L3 _ _ Hp). split; [by eapply static_good|done].
Qed.

(** The parts of the invariant that a step on one pool must show again. *)
Lemma inv_update csa fla :
  headers_within (c_sys c) (c_sys c') owner a -> cells_within (c_sys c) (c_sys c') owner a p ->
  (forall b a', a' <> a -> (c_out c' !! b = Some a' <-> c_out c !! b = Some a')) ->
  (forall b, b <> a -> pending c' b = pending c b /\ waiters c' b = waiters c b /\ grants c' b = grants c b) ->
  pool_inv (c_sys c') owner (c_out c') (pending c' a) (waiters c' a) (grants c' a) a p' csa fla ->
  (forall t x, c_threads c' !! t = Some x -> 0 < t < 2 ^ 31 /\ is_Some (s_pools (c_sys c) !! pc_pool x)) ->
  (forall b a', c_out c' !! b = Some a' -> is_Some (s_pools (c_sys c) !! a')) ->
  enlarger_inv (c_sys c') owner (<[a := csa]> cs) (c_enlarger c') ->
  inv X c' owner (<[a := csa]> cs) (<[a := fla]> fl) ps.
Proof.
  intros Hh Hc Hout Hcnt Hpi Ht Ho He. destruct Hinv as [L P M T O E D [Dn Dp]]. split; try done.
  - by apply layout_update.
  - intros b q. rewrite Hp'. intros [[<- <-]|[Hne Hq]]%lookup_insert_Some; [by rewrite !fn_lookup_insert|].
    rewrite !fn_lookup_insert_ne by done. destruct (Hcnt b) as (-> & -> & ->); [done|].
    pose proof (P b q Hq) as Hb. eapply pool_inv_frame; [done| |done| |].
    + intros x Hx. pose proof (pi_owner _ _ _ _ _ _ _ _ _ _ Hb x Hx) as Hxo.
      destruct (l_owner _ _ L _ _ Hxo) as (_ & h & _ & _ & H & _).
      destruct (Hh _ _ _ Hxo H) as (h' & H' & _ & _ & Eh). rewrite H, H'. f_equal. by apply Eh.
    + intros x Hx. eapply cells_other; [done|apply Hp|done|done| |done]. by eapply pool_inv_block.
    + intros x. by apply Hout.
  - intros b q. rewrite Hp'. intros [[<- <-]|[Hne Hq]]%lookup_insert_Some; [|by apply M].
    intros HX Hm. apply Hchunks, (M a p); [done..|]. unfold static in Hstatic. injection Hstatic. lia.
  - intros t x Hx. rewrite pools_some. by apply Ht with (t := t).
  - intros b a' Hb. rewrite pools_some. by apply Ho with b.
  - rewrite Hp', Hhead. eapply dl_list_frame; [|done]. intros b q Hb Hq.
    destruct (decide (a = b)) as [<-|]; [|rewrite lookup_insert_ne by done; eauto].
    exists p'. rewrite lookup_insert_eq. simplify_eq. done.
  - split; [done|]. intros b. rewrite pools_some. apply Dp.
Qed.

(** A chunk that is not yet in its pool does not notice steps on blocks that are
    in pools. *)
Lemma enlarger_frame cs' e :
  s_headers (c_sys c') = s_headers (c_sys c) -> (forall b, cs' b = cs b) ->
  (forall k, s_cells (c_sys c') !! k = s_cells (c_sys c) !! k \/
     exists b, b ∈ pool_blocks (s_headers (c_sys c)) p (cs a) /\ k = b + next_ofs p) ->
  enlarger_inv (c_sys c) owner cs e -> enlarger_inv (c_sys c') owner cs' e.
Proof.
  intros Hh Hcs Hc. destruct static_fields as (E1 & E2 & E3). pose proof (i_layout _ _ _ _ _ _ Hinv) as L.
  destruct e as [|b|b x|b n|]; cbn [enlarger_inv]; try rewrite pools_some; try done.
  intros (q & h & Hq & Ho & Hx & En & Nn & El & Hf & Hn).
  exists (if decide (a = b) then p' else q), h. rewrite Hh, Hcs, Hp'.
  assert (Hfr : forall b', b' ∈ chunk_blocks q (b_chunk x) (b_num x) ->
            s_cells (c_sys c') !! (b' + next_ofs q) = s_cells (c_sys c) !! (b' + next_ofs q)).
  { intros b' Hb'. destruct (Hc (b' + next_ofs q)) as [Ek|(b2 & Hb2 & Ek)]; [done|]. exfalso.
    apply elem_of_pool_blocks in Hb2 as (x2 & h2 & Hx2 & Hh2 & Hb2).
    pose proof (i_pool _ _ _ _ _ _ Hinv _ _ Hp) as Pa.
    pose proof (pi_owner _ _ _ _ _ _ _ _ _ _ Pa x2 Hx2) as Ho2. rewrite <- En in Hb'.
    destruct (l_good _ _ L _ _ Hq) as [[_ ? _ [? ?] _ _ _] _]. destruct (l_good _ _ L _ _ Hp) as [[_ ? _ [? ?] _ _ _] _].
    destruct (blocks_apart _ _ _ _ _ _ _ _ _ _ _ _ L Ho Ho2 Hq Hp Hx Hh2 Hb' Hb2); [left|lia..].
    intros <-. rewrite Ho in Ho2. simplify_eq. done. }
  destruct (decide (a = b)) as [<-|Hne].
  - simplify_eq. rewrite lookup_insert_eq. unfold last_block, chunk_blocks, last_block in *. rewrite E1, E2, E3.
    split_and!; try done. eapply free_chain_frame; [|done]. intros b' Hb'. by apply Hfr.
  - rewrite lookup_insert_ne by done. split_and!; try done. eapply free_chain_frame; [|done]. intros b' Hb'. by apply Hfr.
Qed.

(** A step inside [pool_alloc] or [pool_free], or a release. *)
Lemma inv_local fla :
  s_headers (c_sys c') = s_headers (c_sys c) ->
  (s_cells (c_sys c') = s_cells (c_sys c) \/
   exists b v, b ∈ pool_blocks (s_headers (c_sys c)) p (cs a) /\
     s_cells (c_sys c') = <[b + next_ofs p := v]> (s_cells (c_sys c))) ->
  (forall b a', a' <> a -> (c_out c' !! b = Some a' <-> c_out c !! b = Some a')) ->
  (forall b, b <> a -> pending c' b = pending c b /\ waiters c' b = waiters c b /\ grants c' b = grants c b) ->
  pool_inv (c_sys c') owner (c_out c') (pending c' a) (waiters c' a) (grants c' a) a p' (cs a) fla ->
  (forall t x, c_threads c' !! t = Some x -> 0 < t < 2 ^ 31 /\ is_Some (s_pools (c_sys c) !! pc_pool x)) ->
  (forall b a', c_out c' !! b = Some a' -> is_Some (s_pools (c_sys c) !! a')) ->
  enlarger_inv (c_sys c) owner cs (c_enlarger c') ->
  inv X c' owner (<[a := cs a]> cs) (<[a := fla]> fl) ps.
Proof.
  intros Hh Hc Hout Hcnt Hpi Ht Ho He. apply inv_update; try done.
  - by apply headers_within_refl.
  - destruct Hc as [E|(b & v & Hb & E)]; [by apply cells_within_refl|].
    eapply cells_within_insert; [done|]. eapply pool_inv_block; [by apply (i_pool _ _ _ _ _ _ Hinv)|done].
  - eapply enlarger_frame; try done.
    + intros b. destruct (decide (a = b)) as [<-|]; [apply fn_lookup_insert|by apply fn_lookup_insert_ne].
    + intros k. destruct Hc as [E|(b & v & Hb & E)]; rewrite E; [by left|].
      destruct (decide (b + next_ofs p = k)) as [<-|]; [right; eauto|]. left. by apply lookup_insert_ne.
Qed.

End Update.

(** ** Bounds *)

Definition sound c : Prop := exists owner cs fl ps, inv ∅ c owner cs fl ps.

Section Bounds.
Context {X : gset Z} {c : config} {owner : gmap Z Z} {cs fl : Z -> list Z} {ps : list Z}.
Hypothesis Hinv : inv X c owner cs fl ps.

Lemma count_threads f : 0 <= count f (c_threads c) <= 2 ^ 31 - 1.
Proof.
  split; [apply count_nonneg|]. apply count_bound; [|lia].
  intros t [x Hx]. pose proof (i_threads _ _ _ _ _ _ Hinv t x Hx). lia.
Qed.

Lemma count_threads_idle f t : idle t c -> 0 <= count f (c_threads c) < 2 ^ 31 - 1.
Proof.
  intros [Ht Hn]. split; [apply count_nonneg|].
  destruct (decide (f (Signalling 0) = true)) as [E|E].
  - pose proof (count_insert f t (Signalling 0) (c_threads c) Hn) as H. rewrite E in H. simpl in H.
    assert (count f (<[t := Signalling 0]> (c_threads c)) <= 2 ^ 31 - 1); [|lia].
    apply count_bound; [|lia]. intros t' [x [[<- _]|[_ Hx]]%lookup_insert_Some]; [lia|].
    pose proof (i_threads _ _ _ _ _ _ Hinv t' x Hx). lia.
  - pose proof (count_insert (fun _ => true) t (Signalling 0) (c_threads c) Hn) as H. simpl in H.
    pose proof (count_le f (fun _ => true) (c_threads c) (fun _ _ => eq_refl)).
    assert (count (fun _ => true) (<[t := Signalling 0]> (c_threads c)) <= 2 ^ 31 - 1); [|lia].
    apply count_bound; [|lia]. intros t' [x [[<- _]|[_ Hx]]%lookup_insert_Some]; [lia|].
    pose proof (i_threads _ _ _ _ _ _ Hinv t' x Hx). lia.
Qed.

Lemma grants_nonneg a : 0 <= grants c a.
Proof.
  unfold grants. pose proof (count_nonneg (granted_on a) (c_threads c)).
  pose proof (i_enlarger _ _ _ _ _ _ Hinv) as E. destruct (c_enlarger c); simpl in E; try lia.
  destruct (_ =? _); lia.
Qed.

Lemma pending_nonneg a : 0 <= pending c a.
Proof.
  unfold pending. pose proof (i_enlarger _ _ _ _ _ _ Hinv) as E. destruct (c_enlarger c); simpl in E; try lia.
  destruct (_ =? _); [|lia]. destruct E as (? & ? & ? & ? & ? & ? & ? & _). lia.
Qed.

Lemma free_bound a p : s_pools (c_sys c) !! a = Some p -> Z.of_nat (length (fl a)) <= num_blocks p < 2 ^ 31.
Proof.
  intros Hp. pose proof (i_pool _ _ _ _ _ _ Hinv _ _ Hp) as P. destruct (l_good _ _ (i_layout _ _ _ _ _ _ Hinv) _ _ Hp) as [G _].
  pose proof (pi_max _ _ _ _ _ _ _ _ _ _ P). pose proof (pending_nonneg a). pose proof (g_max _ G). split; [|lia].
  rewrite (pi_num _ _ _ _ _ _ _ _ _ _ P). apply inj_le, submseteq_length.
  apply NoDup_submseteq; [apply (pi_fl _ _ _ _ _ _ _ _ _ _ P)|].
  intros b Hb. apply (pi_part _ _ _ _ _ _ _ _ _ _ P). by left.
Qed.

End Bounds.

(** The counts after a change of one thread. *)
Lemma waits_other a x b : pc_pool x = a -> b <> a -> waits_on b x = false.
Proof. intros <- H. destruct x; simpl in *; lia || done. Qed.
Lemma granted_other a x b : pc_pool x = a -> b <> a -> granted_on b x = false.
Proof. intros <- H. destruct x; simpl in *; lia || done. Qed.

Lemma counts_insert s s' ts t x e o o' a b :
  ts !! t = None -> pc_pool x = a -> b <> a ->
  pending (Config s' (<[t := x]> ts) e o') b = pending (Config s ts e o) b /\
  waiters (Config s' (<[t := x]> ts) e o') b = waiters (Config s ts e o) b /\
  grants (Config s' (<[t := x]> ts) e o') b = grants (Config s ts e o) b.
Proof.
  intros Ht Hx Hb. split_and!; [done|..]; unfold waiters, grants; simpl; rewrite count_insert by done.
  - rewrite (waits_other a) by done. simpl. lia.
  - rewrite (granted_other a) by done. simpl. lia.
Qed.

Lemma counts_update s s' ts t y x e o o' a b :
  ts !! t = Some y -> pc_pool x = a -> pc_pool y = a -> b <> a ->
  pending (Config s' (<[t := x]> ts) e o') b = pending (Config s ts e o) b /\
  waiters (Config s' (<[t := x]> ts) e o') b = waiters (Config s ts e o) b /\
  grants (Config s' (<[t := x]> ts) e o') b = grants (Config s ts e o) b.
Proof.
  intros Ht Hx Hy Hb. split_and!; [done|..]; unfold waiters, grants; simpl; rewrite (count_update _ _ y) by done.
  - rewrite !(waits_other a) by done. simpl. lia.
  - rewrite !(granted_other a) by done. simpl. lia.
Qed.

Lemma counts_delete s s' ts t y e o o' a b :
  ts !! t = Some y -> pc_pool y = a -> b <> a ->
  pending (Config s' (delete t ts) e o') b = pending (Config s ts e o) b /\
  waiters (Config s' (delete t ts) e o') b = waiters (Config s ts e o) b /\
  grants (Config s' (delete t ts) e o') b = grants (Config s ts e o) b.
Proof.
  intros Ht Hy Hb. split_and!; [done|..]; unfold waiters, grants; simpl; rewrite (count_delete _ _ y) by done.
  - rewrite !(waits_other a) by done. simpl. lia.
  - rewrite !(granted_other a) by done. simpl. lia.
Qed.

(** The head of a chain that is not empty. *)
Lemma free_chain_cons cells ofs head l :
  free_chain cells ofs head l -> (0 < length l)%nat ->
  exists r nxt, l = head :: r /\ cells !! (head + ofs) = Some nxt /\ free_chain cells ofs nxt r.
Proof. destruct l as [|b r]; simpl; [lia|]. intros [-> (nxt & Hn & Hc)] _. eauto. Qed.

(** Taking the head of the free list, on behalf of a thread that waits or not:
    [dw] waiters less and [dg] grants less. *)
Lemma pool_inv_take s s' owner out pend w gr dw dg a p p' cs fl r nxt :
  pool_inv s owner out pend w gr a p cs fl -> fl = free_list p :: r ->
  free_chain (s_cells s) (next_ofs p) nxt r ->
  s_headers s' = s_headers s -> s_cells s' = s_cells s ->
  static p' = static p -> chunks p' = chunks p -> num_blocks p' = num_blocks p -> sem p' = sem p ->
  free_list p' = nxt -> num_waiting p' = num_waiting p -> free_blocks p' = free_blocks p - 1 + dw -> dw = dg ->
  (dg = 0 -> sem p + gr < Z.of_nat (length r)) -> 0 <= dg <= 1 ->
  pool_inv s' owner (<[free_list p := a]> out) pend (w - dw) (gr - dg) a p' cs r.
Proof.
  intros [] Efl Hc Hh Hcell Hst Ech En Es Ef Ew Eb Ed Hg Hd. subst fl. simpl in *.
  unfold static in Hst. injection Hst as E1 E2 E3 E4 E5 E6 E7.
  assert (Eblk : pool_blocks (s_headers s') p' cs = pool_blocks (s_headers s) p cs).
  { apply pool_blocks_frame; [by rewrite Hh|done..]. }
  apply NoDup_cons in pi_fl as [Hni Hnd].
  split; rewrite ?Eblk, ?Hh, ?Hcell, ?Ech, ?En, ?Es, ?Ef, ?Ew, ?Eb, ?E1, ?E4, ?E5; try done; try lia.
  - intros b. rewrite pi_part, elem_of_cons. destruct (decide (free_list p = b)) as [<-|Hne].
    + rewrite lookup_insert_eq. naive_solver.
    + rewrite lookup_insert_ne by done. naive_solver.
  - intros b Hb. rewrite lookup_insert_ne by congruence. apply pi_excl. by right.
Qed.

(** ** The steps *)

Definition result_ok (r : option config) : Prop := exists c', r = Some c' /\ sound c'.

Lemma result_intro c' owner cs fl ps : inv ∅ c' owner cs fl ps -> result_ok (Some c').
Proof. intros H. exists c'. split; [done|]. unfold sound. eauto 6. Qed.

(** The free list and the block it starts with. *)
Lemma head_in_blocks X c owner cs fl ps a p r :
  inv X c owner cs fl ps -> s_pools (c_sys c) !! a = Some p -> fl a = free_list p :: r ->
  free_list p ∈ pool_blocks (s_headers (c_sys c)) p (cs a).
Proof.
  intros Hi Hp E. apply (pi_part _ _ _ _ _ _ _ _ _ _ (i_pool _ _ _ _ _ _ Hi _ _ Hp)). left. rewrite E. by left.
Qed.

(** A free block is in use for no pool. *)
Lemma head_not_out X c owner cs fl ps a p r a' :
  inv X c owner cs fl ps -> s_pools (c_sys c) !! a = Some p -> fl a = free_list p :: r ->
  c_out c !! free_list p <> Some a'.
Proof.
  intros Hi Hp Er Ho. pose proof (i_pool _ _ _ _ _ _ Hi _ _ Hp) as P.
  destruct (decide (a' = a)) as [->|Hne]; [by eapply (pi_excl _ _ _ _ _ _ _ _ _ _ P); [rewrite Er; left|]|].
  destruct (i_out _ _ _ _ _ _ Hi _ _ Ho) as [p' Hp']. pose proof (i_pool _ _ _ _ _ _ Hi _ _ Hp') as P'.
  pose proof (head_in_blocks _ _ _ _ _ _ _ _ _ Hi Hp Er) as B1.
  assert (B2 : free_list p ∈ pool_blocks (s_headers (c_sys c)) p' (cs a')).
  { apply (pi_part _ _ _ _ _ _ _ _ _ _ P'). by right. }
  apply (pool_inv_block _ _ _ _ _ _ _ _ _ _ _ P) in B1 as (x1 & h1 & O1 & H1 & B1).
  apply (pool_inv_block _ _ _ _ _ _ _ _ _ _ _ P') in B2 as (x2 & h2 & O2 & H2 & B2).
  pose proof (i_layout _ _ _ _ _ _ Hi) as L.
  destruct (l_good _ _ L _ _ Hp) as [[_ ? _ _ _ _ _] _]. destruct (l_good _ _ L _ _ Hp') as [[_ ? _ _ _ _ _] _].
  destruct (blocks_apart _ _ _ _ _ _ _ _ _ _ _ _ L O1 O2 Hp Hp' H1 H2 B1 B2); [left; congruence|lia..].
Qed.

Lemma out_insert_other X c owner cs fl ps a p r b a' :
  inv X c owner cs fl ps -> s_pools (c_sys c) !! a = Some p -> fl a = free_list p :: r -> a' <> a ->
  (<[free_list p := a]> (c_out c) !! b = Some a' <-> c_out c !! b = Some a').
Proof.
  intros Hi Hp Er Hne. destruct (decide (free_list p = b)) as [<-|]; [|by rewrite lookup_insert_ne].
  rewrite lookup_insert_eq. split; [congruence|]. intros Ho. by eapply head_not_out in Ho.
Qed.

Lemma step_alloc_enter t a c : sound c -> allowed (AllocEnter t a) c -> result_ok (step (AllocEnter t a) c).
Proof.
  intros (owner & cs & fl & ps & Hi) [Hidle [p Hp]]. simpl. unfold pool_alloc_enter. rewrite Hp. cbn [mbind option_bind].
  pose proof (i_pool _ _ _ _ _ _ Hi _ _ Hp) as P. pose proof (free_bound Hi _ _ Hp) as Hb.
  pose proof (count_threads_idle Hi (waits_on a) t Hidle) as Hw. fold (waiters c a) in Hw.
  pose proof (pi_count _ _ _ _ _ _ _ _ _ _ P) as Hc. pose proof (pi_wait _ _ _ _ _ _ _ _ _ _ P) as Hn.
  pose proof (pi_wait0 _ _ _ _ _ _ _ _ _ _ P) as Hn0. pose proof (pi_sem _ _ _ _ _ _ _ _ _ _ P) as Hs.
  pose proof (grants_nonneg Hi a) as Hg.
  rewrite (i32_small (free_blocks p - 1)) by lia. cbn [set_free_blocks free_blocks].
  destruct (Z.ltb_spec 0 (free_blocks p - 1)) as [Hl|Hl].
  - destruct (free_chain_cons _ _ _ _ (pi_free _ _ _ _ _ _ _ _ _ _ P)) as (r & nxt & Er & Ec & Ech); [lia|].
    change (NEXT_PTR _ (free_list _)) with (free_list p + next_ofs p). cbn [free_list]. rewrite Ec. cbn [mbind option_bind].
    eapply result_intro. eapply (inv_local Hi Hp) with (fla := r); try done; cbn [c_out c_threads c_enlarger].
    + by left.
    + intros b a1 Hne. by eapply (out_insert_other _ c _ _ _ _ a p).
    + rewrite <- (Z.sub_0_r (waiters _ a)), <- (Z.sub_0_r (grants _ a)).
      eapply pool_inv_take with (p := p) (dg := 0); try done; simpl; try lia.
      change (grants _ a) with (grants c a). rewrite Er in Hc. simpl in Hc. lia.
    + intros t' x Hx. apply (i_threads _ _ _ _ _ _ Hi t' x Hx).
    + intros b a' [[_ <-]|[_ Ho]]%lookup_insert_Some; [by rewrite Hp|]. by apply (i_out _ _ _ _ _ _ Hi b).
    + apply Hi.
  - cbn [mbind option_bind]. destruct Hidle as [Ht Hnone]. rewrite i32_small by (cbn [num_waiting set_free_blocks]; lia).
    eapply result_intro. eapply (inv_local Hi Hp) with (fla := fl a); try done; cbn [c_out c_threads c_enlarger].
    + by left.
    + intros b Hne. destruct c; simpl in *. by apply counts_insert with (a := a).
    + unfold waiters, grants. cbn [c_threads c_enlarger]. rewrite !count_insert by done. cbn [waits_on granted_on].
      rewrite Z.eqb_refl. fold (waiters c a). simpl Z.b2z. rewrite Z.add_0_r. fold (grants c a).
      pose proof (pi_idle _ _ _ _ _ _ _ _ _ _ P).
      destruct P. split; simpl; try done; try lia.
    + intros t' x [[<- <-]|[_ Hx]]%lookup_insert_Some; [simpl; rewrite Hp; by split|]. apply (i_threads _ _ _ _ _ _ Hi t' x Hx).
    + intros b a' Ho. by apply (i_out _ _ _ _ _ _ Hi b).
    + apply Hi.
Qed.

(** Grants move between the semaphore and the threads. *)
Lemma pool_inv_shift s s' owner out pend w gr d a p p' cs fl :
  pool_inv s owner out pend w gr a p cs fl ->
  s_headers s' = s_headers s -> s_cells s' = s_cells s ->
  p' = set_sem (sem p + d) p -> 0 <= sem p + d ->
  pool_inv s' owner out pend w (gr - d) a p' cs fl.
Proof.
  intros [] Hh Hc -> Hd. split; rewrite ?Hh, ?Hc; simpl; try done; try lia.
Qed.

Lemma count_granted X c owner cs fl ps t x a :
  inv X c owner cs fl ps -> c_threads c !! t = Some x -> granted_on a x = true -> 0 < grants c a.
Proof.
  intros Hi Hx Hg. unfold grants. pose proof (count_pos _ _ _ _ Hx Hg).
  pose proof (i_enlarger _ _ _ _ _ _ Hi) as E. destruct (c_enlarger c); simpl in E; try lia. destruct (_ =? _); lia.
Qed.

Lemma step_alloc_signal t c : sound c -> allowed (AllocSignal t) c -> result_ok (step (AllocSignal t) c).
Proof.
  intros (owner & cs & fl & ps & Hi) [a Ht]. simpl. rewrite Ht.
  destruct (i_threads _ _ _ _ _ _ Hi _ _ Ht) as [Hr [p Hp]]. simpl in Hp.
  pose proof (i_pool _ _ _ _ _ _ Hi _ _ Hp) as P.
  eapply result_intro. eapply (inv_local Hi Hp (p' := p)) with (fla := fl a); try done; cbn [c_out c_threads c_enlarger].
  - symmetry. by apply insert_id.
  - by left.
  - intros b Hne. destruct c; simpl in *. by eapply counts_update.
  - unfold waiters, grants. cbn [c_threads c_enlarger]. rewrite !(count_update _ _ _ _ _ Ht). cbn [waits_on granted_on].
    rewrite Z.eqb_refl. simpl Z.b2z. rewrite !Z.sub_add. by eapply pool_inv_frame.
  - intros t' x [[<- <-]|[_ Hx]]%lookup_insert_Some; [simpl; rewrite Hp; by split|]. apply (i_threads _ _ _ _ _ _ Hi t' x Hx).
  - intros b a' Ho. by apply (i_out _ _ _ _ _ _ Hi b).
  - apply Hi.
Qed.

Lemma step_alloc_acquire t c : sound c -> allowed (AllocAcquire t) c -> result_ok (step (AllocAcquire t) c).
Proof.
  intros (owner & cs & fl & ps & Hi) (a & p & Ht & Hp & Hs). simpl. rewrite Ht. unfold acquire_sem. rewrite Hp.
  cbn [mbind option_bind]. rewrite (proj2 (Z.ltb_lt _ _)) by done. cbn [mbind option_bind].
  destruct (i_threads _ _ _ _ _ _ Hi _ _ Ht) as [Hr _]. pose proof (i_pool _ _ _ _ _ _ Hi _ _ Hp) as P.
  eapply result_intro. eapply (inv_local Hi Hp) with (fla := fl a); try done; cbn [c_out c_threads c_enlarger].
  - by left.
  - intros b Hne. destruct c; simpl in *. by eapply counts_update.
  - unfold waiters, grants. cbn [c_threads c_enlarger]. rewrite !(count_update _ _ _ _ _ Ht). cbn [waits_on granted_on].
    rewrite Z.eqb_refl. simpl Z.b2z. rewrite Z.sub_add. change (count (waits_on a) (c_threads c)) with (waiters c a).
    match goal with |- pool_inv _ _ _ _ _ ?g _ _ _ _ => replace g with (grants c a - (-1)) by (unfold grants; lia) end.
    eapply pool_inv_shift; try done. lia.
  - intros t' x [[<- <-]|[_ Hx]]%lookup_insert_Some; [simpl; rewrite Hp; by split|]. apply (i_threads _ _ _ _ _ _ Hi t' x Hx).
  - intros b a' Ho. by apply (i_out _ _ _ _ _ _ Hi b).
  - apply Hi.
Qed.

Lemma step_free_release t c : sound c -> allowed (FreeRelease t) c -> result_ok (step (FreeRelease t) c).
Proof.
  intros (owner & cs & fl & ps & Hi) [a Ht]. simpl. rewrite Ht. unfold release_sem.
  destruct (i_threads _ _ _ _ _ _ Hi _ _ Ht) as [Hr [p Hp]]. simpl in Hp. rewrite Hp. cbn [mbind option_bind].
  pose proof (i_pool _ _ _ _ _ _ Hi _ _ Hp) as P.
  eapply result_intro. eapply (inv_local Hi Hp) with (fla := fl a); try done; cbn [c_out c_threads c_enlarger].
  - by left.
  - intros b Hne. destruct c; simpl in *. by eapply counts_delete.
  - unfold waiters, grants. cbn [c_threads c_enlarger]. rewrite !(count_delete _ _ _ _ Ht). cbn [waits_on granted_on].
    rewrite Z.eqb_refl. simpl Z.b2z. rewrite Z.sub_0_r. change (count (waits_on a) (c_threads c)) with (waiters c a).
    match goal with |- pool_inv _ _ _ _ _ ?g _ _ _ _ => replace g with (grants c a - 1) by (unfold grants; lia) end.
    eapply pool_inv_shift; try done. pose proof (pi_sem _ _ _ _ _ _ _ _ _ _ P). lia.
  - intros t' x [_ Hx]%lookup_delete_Some. apply (i_threads _ _ _ _ _ _ Hi t' x Hx).
  - intros b a' Ho. by apply (i_out _ _ _ _ _ _ Hi b).
  - apply Hi.
Qed.

Lemma step_alloc_take t c : sound c -> allowed (AllocTake t) c -> result_ok (step (AllocTake t) c).
Proof.
  intros (owner & cs & fl & ps & Hi) [a Ht]. simpl. rewrite Ht. unfold pool_alloc_take.
  destruct (i_threads _ _ _ _ _ _ Hi _ _ Ht) as [Hr [p Hp]]. simpl in Hp. rewrite Hp. cbn [mbind option_bind].
  pose proof (i_pool _ _ _ _ _ _ Hi _ _ Hp) as P.
  pose proof (pi_count _ _ _ _ _ _ _ _ _ _ P) as Hc. pose proof (pi_wait _ _ _ _ _ _ _ _ _ _ P) as Hn.
  pose proof (pi_sem _ _ _ _ _ _ _ _ _ _ P) as Hs. pose proof (pi_grant _ _ _ _ _ _ _ _ _ _ P) as Hgr.
  assert (Hg : 0 < grants c a) by (eapply count_granted; [done..|]; simpl; lia).
  destruct (free_chain_cons _ _ _ _ (pi_free _ _ _ _ _ _ _ _ _ _ P)) as (r & nxt & Er & Ec & Ech); [lia|].
  unfold NEXT_PTR. rewrite Ec. cbn [mbind option_bind].
  eapply result_intro. eapply (inv_local Hi Hp) with (fla := r); try done; cbn [c_out c_threads c_enlarger].
  - by left.
  - intros b a1 Hne. by eapply (out_insert_other _ c _ _ _ _ a p).
  - intros b Hne. destruct c; simpl in *. by eapply counts_delete.
  - unfold waiters, grants. cbn [c_threads c_enlarger]. rewrite !(count_delete _ _ _ _ Ht). cbn [waits_on granted_on].
    rewrite Z.eqb_refl. simpl Z.b2z. change (count (waits_on a) (c_threads c)) with (waiters c a).
    match goal with |- pool_inv _ _ _ _ _ ?g _ _ _ _ => replace g with (grants c a - 1) by (unfold grants; lia) end.
    eapply pool_inv_take with (p := p); try done; simpl; try lia.
  - intros t' x [_ Hx]%lookup_delete_Some. apply (i_threads _ _ _ _ _ _ Hi t' x Hx).
  - intros b a' [[_ <-]|[_ Ho]]%lookup_insert_Some; [by rewrite Hp|]. by apply (i_out _ _ _ _ _ _ Hi b).
  - apply Hi.
Qed.

(** A block that comes back: [dg] is 1 if a thread is let go for it. *)
Lemma pool_inv_give s s' owner out pend w gr dg a p p' cs fl b :
  pool_inv s owner out pend w gr a p cs fl -> out !! b = Some a ->
  s_headers s' = s_headers s -> s_cells s' = <[b + next_ofs p := free_list p]> (s_cells s) ->
  static p' = static p -> chunks p' = chunks p -> num_blocks p' = num_blocks p -> sem p' = sem p ->
  free_list p' = b -> free_blocks p' = free_blocks p + 1 -> num_waiting p' = num_waiting p - dg ->
  (num_waiting p = 0 /\ dg = 0 \/ 0 < num_waiting p /\ dg = 1) ->
  pool_inv s' owner (delete b out) pend w (gr + dg) a p' cs (b :: fl).
Proof.
  intros [] Hb Hh Hc Hst Ech En Es Ef Eb Ew Hd.
  unfold static in Hst. injection Hst as E1 E2 E3 E4 E5 E6 E7.
  assert (Eblk : pool_blocks (s_headers s') p' cs = pool_blocks (s_headers s) p cs).
  { apply pool_blocks_frame; [by rewrite Hh|done..]. }
  assert (Hni : b ∉ fl) by (intros Hin; by apply (pi_excl b)).
  split; rewrite ?Eblk, ?Hh, ?Hc, ?Ech, ?En, ?Es, ?Ef, ?Ew, ?Eb, ?E1, ?E4, ?E5; try done; simpl length; try lia.
  - split; [done|]. exists (free_list p). split; [apply lookup_insert_eq|].
    apply free_chain_insert; [|done]. intros b' Hb' E. assert (b' = b) as -> by lia. done.
  - by constructor.
  - intros x. rewrite pi_part, elem_of_cons. destruct (decide (b = x)) as [<-|Hne].
    + rewrite lookup_delete_eq. naive_solver.
    + rewrite lookup_delete_ne by done. naive_solver.
  - intros x [->|Hx]%elem_of_cons; [by rewrite lookup_delete_eq|].
    rewrite lookup_delete_ne by congruence. by apply pi_excl.
Qed.

Lemma out_delete_other (out : gmap Z Z) b a x a' :
  out !! b = Some a -> a' <> a -> (delete b out !! x = Some a' <-> out !! x = Some a').
Proof.
  intros Hb Hne. destruct (decide (b = x)) as [<-|]; [|by rewrite lookup_delete_ne].
  rewrite lookup_delete_eq. split; [done|congruence].
Qed.

Lemma step_free_enter t a b c : sound c -> allowed (FreeEnter t a b) c -> result_ok (step (FreeEnter t a b) c).
Proof.
  intros (owner & cs & fl & ps & Hi) [Hidle Hb]. destruct (i_out _ _ _ _ _ _ Hi _ _ Hb) as [p Hp].
  simpl. unfold pool_free. rewrite Hp. cbn [mbind option_bind].
  pose proof (i_pool _ _ _ _ _ _ Hi _ _ Hp) as P. pose proof (free_bound Hi _ _ Hp) as Hl.
  pose proof (count_threads Hi (waits_on a)) as Hw. fold (waiters c a) in Hw.
  pose proof (pi_count _ _ _ _ _ _ _ _ _ _ P) as Hc. pose proof (pi_wait _ _ _ _ _ _ _ _ _ _ P) as Hn.
  pose proof (pi_wait0 _ _ _ _ _ _ _ _ _ _ P) as Hn0. pose proof (pi_sem _ _ _ _ _ _ _ _ _ _ P) as Hs.
  pose proof (grants_nonneg Hi a) as Hg. destruct Hidle as [Ht Hnone].
  assert (Hblk : b ∈ pool_blocks (s_headers (c_sys c)) p (cs a)).
  { apply (pi_part _ _ _ _ _ _ _ _ _ _ P). by right. }
  assert (Hout : forall x a', delete b (c_out c) !! x = Some a' -> is_Some (s_pools (c_sys c) !! a')).
  { intros x a' [_ Ho]%lookup_delete_Some. by apply (i_out _ _ _ _ _ _ Hi x). }
  assert (Ei : i32 (free_blocks p + 1) = free_blocks p + 1).
  { apply i32_small. assert (Z.of_nat (length (b :: fl a)) <= num_blocks p); [|simpl in *; lia].
    rewrite (pi_num _ _ _ _ _ _ _ _ _ _ P). apply inj_le, submseteq_length, NoDup_submseteq.
    - constructor; [|by eapply pi_fl]. intros Hin. by apply (pi_excl _ _ _ _ _ _ _ _ _ _ P b).
    - intros x [->|Hx]%elem_of_cons; [done|]. apply (pi_part _ _ _ _ _ _ _ _ _ _ P). by left. }
  cbn [num_waiting set_free_blocks set_free_list]. destruct (Z.eqb_spec (num_waiting p) 0) as [E0|E0]; cbn [mbind option_bind].
  - eapply result_intro. eapply (inv_local Hi Hp) with (fla := b :: fl a); try done; cbn [c_out c_threads c_enlarger].
    + right. exists b, (free_list p). by split.
    + intros x a' Hne. by eapply out_delete_other.
    + rewrite <- (Z.add_0_r (grants _ a)). eapply pool_inv_give with (p := p) (dg := 0); try done; simpl; try lia.
    + intros t' x Hx. apply (i_threads _ _ _ _ _ _ Hi t' x Hx).
    + apply Hi.
  - eapply result_intro. eapply (inv_local Hi Hp) with (fla := b :: fl a); try done; cbn [c_out c_threads c_enlarger].
    + right. exists b, (free_list p). by split.
    + intros x a' Hne. by eapply out_delete_other.
    + intros x Hne. destruct c; simpl in *. by apply counts_insert with (a := a).
    + unfold waiters, grants. cbn [c_threads c_enlarger]. rewrite !count_insert by done. cbn [waits_on granted_on].
      rewrite Z.eqb_refl. simpl Z.b2z. rewrite Z.add_0_r. change (count (waits_on a) (c_threads c)) with (waiters c a).
      match goal with |- pool_inv _ _ _ _ _ ?g _ _ _ _ => replace g with (grants c a + 1) by (unfold grants; lia) end.
      eapply pool_inv_give with (p := p) (dg := 1); try done; simpl; try lia. apply i32_small. lia.
    + intros t' x [[<- <-]|[_ Hx]]%lookup_insert_Some; [simpl; rewrite Hp; by split|]. apply (i_threads _ _ _ _ _ _ Hi t' x Hx).
    + apply Hi.
Qed.

(** ** The background thread *)

(** ** A step that changes no pool *)

Lemma inv_frame X c c' owner owner' cs fl ps :
  inv X c owner cs fl ps ->
  s_pools (c_sys c') = s_pools (c_sys c) -> sLockedPools (c_sys c') = sLockedPools (c_sys c) ->
  c_threads c' = c_threads c -> c_out c' = c_out c ->
  (forall x a, owner !! x = Some a -> owner' !! x = Some a) ->
  (forall x a, owner !! x = Some a -> s_headers (c_sys c') !! x = s_headers (c_sys c) !! x) ->
  (forall a p b, s_pools (c_sys c) !! a = Some p -> block_of (c_sys c) owner a p b ->
     s_cells (c_sys c') !! (b + next_ofs p) = s_cells (c_sys c) !! (b + next_ofs p)) ->
  layout (c_sys c') owner' ->
  (forall a p, s_pools (c_sys c) !! a = Some p -> num_blocks p + pending c' a <= max_blocks p) ->
  (forall a, grants c' a = grants c a) ->
  enlarger_inv (c_sys c') owner' cs (c_enlarger c') ->
  inv X c' owner' cs fl ps.
Proof.
  intros [L P M T O E D Dp] Hp Hh Ht Ho How Hhd Hc L' Hm Hg He.
  split; rewrite ?Hp, ?Hh, ?Ht, ?Ho; try done. intros a p Ha. pose proof (P a p Ha) as Pa.
  assert (Hw : waiters c' a = waiters c a) by (unfold waiters; by rewrite Ht). rewrite Hw, Hg.
  assert (Pf : pool_inv (c_sys c') owner' (c_out c) (pending c a) (waiters c a) (grants c a) a p (cs a) (fl a)).
  { eapply pool_inv_frame; [done|..]; try done.
    - intros x Hx. by eapply Hhd, pi_owner.
    - intros x Hx. pose proof (pi_owner _ _ _ _ _ _ _ _ _ _ Pa x Hx) as Hxo. rewrite Hxo. by apply How.
    - intros b Hb. apply (Hc a); [done|]. by eapply pool_inv_block. }
  destruct Pf. split; try done. by apply Hm.
Qed.

(** The successor of a pool in the global list. *)
Lemma dl_list_next pools pv head ps a p :
  dl_list pools pv head ps -> a ∈ ps -> pools !! a = Some p -> next p = 0 \/ next p ∈ ps.
Proof.
  revert pv head. induction ps as [|b r IH]; intros pv head; [by intros _ ?%elem_of_nil|].
  intros (-> & _ & q & Hq & _ & Hl) [->|Ha]%elem_of_cons Hp.
  - simplify_eq. destruct r as [|b' r]; [by left|]. destruct Hl as [-> _]. right. right. by left.
  - destruct (IH _ _ Hl Ha Hp) as [E|E]; [by left|]. right. by right.
Qed.

Lemma dl_list_head pools pv head ps : dl_list pools pv head ps -> head = 0 \/ head ∈ ps.
Proof. destruct ps; [by left|]. intros [-> _]. right. by left. Qed.

(** ** Building a chunk *)

(** What [enlarge_pool] has done when it gets to its critical section. *)
Record built_ok s s' p (numBlocks area base : Z) (b : option built) : Prop := {
  bo_pools : s_pools s' = s_pools s;
  bo_head : sLockedPools s' = sLockedPools s;
  bo_cells : forall k, area < 0 \/ (forall x, x ∈ chunk_blocks p base numBlocks -> k <> x + next_ofs p) -> s_cells s' !! k = s_cells s !! k;
  bo_none : b = None -> s_areas s' = s_areas s /\ forall x, x <> base \/ area < 0 -> s_headers s' !! x = s_headers s !! x;
  bo_some : forall x, b = Some x ->
    0 <= area /\
    s_areas s' = <[area := Area base (chunk_bytes p numBlocks)]> (s_areas s) /\
    s_headers s' = <[base := Chunk 0 area numBlocks]> (s_headers s) /\
    b_chunk x = base /\ b_num x = numBlocks /\ b_last x = last_block p base numBlocks /\
    free_chain (s_cells s') (next_ofs p) (b_first x) (chunk_blocks p base numBlocks)
}.

Lemma enlarge_build_ok a p numBlocks area base s :
  s_pools s !! a = Some p -> 0 < block_size p -> (0 <= area -> s_areas s !! area = None) ->
  exists st b s', enlarge_build a numBlocks area base s = Some (st, b, s') /\
    built_ok s s' p numBlocks area base b /\ (st < B_OK <-> b = None).
Proof.
  intros Hp Hbs Hfresh. unfold enlarge_build. rewrite Hp. cbn [mbind option_bind].
  change (page_round (u32 (numBlocks * block_size p + header_size p))) with (chunk_bytes p numBlocks).
  unfold B_OK in *. destruct (Z.ltb_spec area 0) as [Ha|Ha].
  { exists area, None, s. split_and!; [done| |done]. split; try done. }
  destruct (chunk_free_list _ _ _ _ _) as [[[st todo] nxt] s1] eqn:E.
  destruct (chunk_free_list_spec _ _ _ _ _ [] _ _ _ _ Hbs E) as (cells & hs & -> & Hc & Hf & Hst);
    [done|intros ? _; apply not_elem_of_nil|].
  destruct (Nat.ltb_spec 0 todo) as [Ht|Ht].
  - match goal with |- context [remove_blocks ?q ?n ?b ?s1] => destruct (remove_blocks_eq q n b s1) as [hs2 E2] end.
    eexists _, None, _. split_and!; [rewrite E2; reflexivity| |].
    + split; simpl; try done.
      * intros k [Hk|Hk]; [lia|by apply Hc].
      * intros _. split; [apply delete_insert_id; auto|]. intros x [Hx|Hx]; [|lia].
        rewrite lookup_delete_ne by done. by apply lookup_insert_ne.
    + split; [done|]. intros _. apply Hst. lia.
  - eexists _, (Some _), _. split_and!; [reflexivity| |done].
    split; simpl; try done; [intros k [Hk|Hk]; [lia|by apply Hc]|]. intros x [= <-]. split_and!; try done. simpl. rewrite app_nil_r in Hf. apply Hf. lia.
Qed.

(** ** New areas *)

Section Fresh.
Context {s : sys} {owner : gmap Z Z} {a area base size n : Z} {p : locked_pool}.
Hypothesis L : layout s owner.
Hypothesis Hp : s_pools s !! a = Some p.
Hypothesis Hn : 0 < n.
Hypothesis Hsize : n * block_size p + header_size p <= size.
Hypothesis Harea : s_areas s !! area = None.
Hypothesis Hbase : 0 < base.
Hypothesis Hpage : (B_PAGE_SIZE | base).
Hypothesis Hapart : map_Forall (fun _ r => apart r (Area base size)) (s_areas s).

Lemma fresh_size : 0 < size.
Proof. destruct (l_good _ _ L _ _ Hp) as [[_ ? ? _ _ _ _] _]. unfold sizeof_chunk_header in *. nia. Qed.

Lemma fresh_owner : owner !! base = None.
Proof.
  destruct (owner !! base) as [b|] eqn:E; [|done]. exfalso.
  destruct (l_owner _ _ L _ _ E) as (q & h & z & Hq & _ & Ha & Hk & Hf & _).
  destruct (l_good _ _ L _ _ Hq) as [[_ ? ? _ _ _ _] _]. unfold sizeof_chunk_header in *.
  pose proof (Hapart _ _ Ha) as Hr. unfold apart in Hr. simpl in Hr. pose proof fresh_size. nia.
Qed.

(** The blocks of the new chunk are no blocks that were there before. *)
Lemma fresh_cells a2 p2 b2 x :
  s_pools s !! a2 = Some p2 -> block_of s owner a2 p2 b2 -> x ∈ chunk_blocks p base n ->
  b2 + next_ofs p2 <> x + next_ofs p.
Proof.
  intros Hp2 (x2 & h2 & O2 & H2 & (j & Hj & ->)%elem_of_chunk_blocks) (i & Hi & ->)%elem_of_chunk_blocks.
  destruct (l_owner _ _ L _ _ O2) as (q & h & z & Hq & Hh & Ha & Hk & Hf & Hx & _). simplify_eq.
  destruct (l_good _ _ L _ _ Hp2) as [[_ ? ? [? ?] _ _ _] _]. destruct (l_good _ _ L _ _ Hp) as [[_ ? ? [? ?] _ _ _] _].
  unfold sizeof_chunk_header in *. pose proof (Hapart _ _ Ha) as Hr. unfold apart in Hr. simpl in Hr.
  assert (i * block_size p + block_size p <= n * block_size p) by nia.
  assert (j * block_size p2 + block_size p2 <= ch_num_blocks h2 * block_size p2) by nia.
  assert (0 <= i * block_size p) by nia. assert (0 <= j * block_size p2) by nia. lia.
Qed.

Lemma fresh_layout s' :
  s_pools s' = s_pools s -> s_areas s' = <[area := Area base size]> (s_areas s) ->
  s_headers s' = <[base := Chunk 0 area n]> (s_headers s) -> layout s' (<[base := a]> owner).
Proof.
  intros E1 E2 E3. pose proof L as L'. destruct L' as [L1 L2 L3]. split; rewrite ?E1, ?E2, ?E3; [| |done].
  - intros i j r1 r2 [[<- <-]|[Hi H1]]%lookup_insert_Some [[<- <-]|[Hj H2]]%lookup_insert_Some Hne; try done.
    + pose proof (Hapart _ _ H2) as Hr. unfold apart in *. lia.
    + by apply (Hapart _ _ H1).
    + by eapply L1.
  - intros x b [[<- <-]|[Hx Ho]]%lookup_insert_Some.
    + exists p, (Chunk 0 area n), size. rewrite !lookup_insert_eq. by split_and!.
    + destruct (L2 _ _ Ho) as (q & h & z & Hq & Hh & Ha & F). exists q, h, z.
      rewrite !lookup_insert_ne; [done| |done]. intros E. rewrite <- E in Ha. congruence.
Qed.

End Fresh.

(** A step that changes the place of the background thread, and nothing the
    invariant is about. *)
Lemma inv_quiet c c' owner cs fl ps :
  inv ∅ c owner cs fl ps ->
  s_pools (c_sys c') = s_pools (c_sys c) -> sLockedPools (c_sys c') = sLockedPools (c_sys c) ->
  s_headers (c_sys c') = s_headers (c_sys c) -> s_cells (c_sys c') = s_cells (c_sys c) ->
  s_areas (c_sys c') = s_areas (c_sys c) ->
  c_threads c' = c_threads c -> c_out c' = c_out c ->
  (forall a, pending c' a = pending c a) -> (forall a, grants c' a = grants c a) ->
  enlarger_inv (c_sys c) owner cs (c_enlarger c') ->
  inv ∅ c' owner cs fl ps.
Proof.
  intros Hi Hp Hl Hh Hc Ha Ht Ho Hpe Hg He. eapply inv_frame; try done.
  - by rewrite Hh.
  - by rewrite Hc.
  - destruct (i_layout _ _ _ _ _ _ Hi). split; by rewrite ?Hp, ?Hh, ?Ha.
  - intros a p Hap. rewrite Hpe. eapply pi_max. by apply (i_pool _ _ _ _ _ _ Hi).
  - unfold enlarger_inv in *. by rewrite Hp, Hh, Hc.
Qed.

Lemma next_pool_ok c owner cs fl ps a p :
  inv ∅ c owner cs fl ps -> s_pools (c_sys c) !! a = Some p -> next p = 0 \/ is_Some (s_pools (c_sys c) !! next p).
Proof.
  intros Hi Hp. destruct (i_ps _ _ _ _ _ _ Hi) as [_ Hps].
  destruct (dl_list_next _ _ _ _ a p (i_dl _ _ _ _ _ _ Hi)) as [E|E]; [|done|by left|right; by apply Hps].
  apply Hps. split; [by rewrite Hp|]. set_solver.
Qed.

Lemma lookup_put_pool a p s : s_pools (put_pool a p s) !! a = Some p.
Proof. apply lookup_insert_eq. Qed.

(** ** The steps *)

Lemma step_enlarger_acquire c : sound c -> allowed EnlargerAcquire c -> result_ok (step EnlargerAcquire c).
Proof.
  intros (owner & cs & fl & ps & Hi) [He Hs]. simpl. rewrite He. rewrite (proj2 (Z.ltb_lt _ _)) by done.
  eapply result_intro, (inv_quiet c); try done.
  - intros a. unfold pending. rewrite He. simpl. by destruct (sShuttingDown _).
  - intros a. unfold grants. rewrite He. simpl. by destruct (sShuttingDown _).
  - simpl. destruct (sShuttingDown _); [done|]. simpl.
    destruct (dl_list_head _ _ _ _ (i_dl _ _ _ _ _ _ Hi)) as [E|E]; [by left|right].
    by apply (proj2 (i_ps _ _ _ _ _ _ Hi)).
Qed.

Lemma step_uninit c : sound c -> allowed Uninit c -> result_ok (step Uninit c).
Proof. intros (owner & cs & fl & ps & Hi) _. eapply result_intro, (inv_quiet c); try done. apply Hi. Qed.

(** The places of the background thread outside [enlarge_pool]. *)
Definition quiet s (e : enlarger_pc) : Prop :=
  match e with EWait | EExit => True | ELook a => a = 0 \/ is_Some (s_pools s !! a) | _ => False end.

Lemma quiet_inv s owner cs e : quiet s e -> enlarger_inv s owner cs e.
Proof. by destruct e. Qed.

Lemma quiet_pending s s' ts e o a : quiet s e -> pending (Config s' ts e o) a = 0.
Proof. by destruct e. Qed.

Lemma quiet_grants s s' ts e o a : quiet s e -> grants (Config s' ts e o) a = count (granted_on a) ts.
Proof. unfold grants. destruct e; simpl; intros H; done || lia. Qed.

Section Enlarge.
Context {X : gset Z} {ps : list Z}.

Definition soundX c : Prop := exists owner cs fl, inv X c owner cs fl ps.

(** After [enlarge_pool] has built the chunk, or has failed. *)
Lemma inv_built s s' ts e o a p n area base b :
  soundX (Config s ts e o) -> quiet s e -> s_pools s !! a = Some p ->
  area_result area base (chunk_bytes p n) s -> 0 < n <= enlarge_by p -> num_blocks p + n <= max_blocks p ->
  built_ok s s' p n area base b ->
  soundX (Config s' ts (match b with Some x => EAdd a x | None => e end) o).
Proof.
  intros (owner & cs & fl & Hi) Hq Hp Har Hn Hm Hb. pose proof (i_layout _ _ _ _ _ _ Hi) as L. simpl in L.
  destruct (l_good _ _ L _ _ Hp) as [G _]. pose proof (chunk_bytes_fits p n G Hn) as Hfit.
  destruct Hb as [B1 B2 B3 B4 B5].
  assert (Hmax : forall a2 p2, s_pools s !! a2 = Some p2 -> num_blocks p2 <= max_blocks p2).
  { intros a2 p2 H2. pose proof (pi_max _ _ _ _ _ _ _ _ _ _ (i_pool _ _ _ _ _ _ Hi _ _ H2)) as H.
    rewrite (quiet_pending s) in H by done. lia. }
  assert (Hcells : forall a2 p2 b2, s_pools s !! a2 = Some p2 -> block_of s owner a2 p2 b2 ->
            s_cells s' !! (b2 + next_ofs p2) = s_cells s !! (b2 + next_ofs p2)).
  { intros a2 p2 b2 H2 Hb2. apply B3. destruct Har as [|(_ & _ & _ & _ & Hap)]; [by left|right].
    intros x Hx. by eapply (fresh_cells L Hp Hfit Hap). }
  destruct b as [x|].
  - destruct (B5 x eq_refl) as (Ha & Ea & Eh & Ec & En & El & Ech).
    destruct Har as [|(_ & Hf & Hbase & Hpage & Hap)]; [lia|].
    pose proof (fresh_owner L Hp (proj1 Hn) Hfit Hap) as Hfo.
    pose proof (fresh_layout L Hp (proj1 Hn) Hfit Hf Hbase Hpage Hap s' B1 Ea Eh) as L'.
    exists (<[base := a]> owner), cs, fl. eapply inv_frame; [done|..]; try done; cbn [c_sys c_threads c_enlarger c_out].
    + intros y b Ho. rewrite lookup_insert_ne; [done|congruence].
    + intros y b Ho. rewrite Eh. rewrite lookup_insert_ne; [done|congruence].
    + intros a2 p2 H2. unfold pending. simpl. destruct (Z.eqb_spec a a2) as [<-|]; [simplify_eq; lia|].
      rewrite Z.add_0_r. by eapply Hmax.
    + intros b. rewrite (quiet_grants s s ts e o) by done. unfold grants. simpl. lia.
    + exists p, (Chunk 0 area n). rewrite B1, Eh, Ec, En, !lookup_insert_eq. split_and!; try done; [lia|].
      intros Hin. apply (pi_owner _ _ _ _ _ _ _ _ _ _ (i_pool _ _ _ _ _ _ Hi _ _ Hp)) in Hin. congruence.
  - destruct (B4 eq_refl) as [Ea Eh].
    assert (Hh : forall y b, owner !! y = Some b -> s_headers s' !! y = s_headers s !! y).
    { intros y b Ho. apply Eh. destruct Har as [|(_ & _ & _ & _ & Hap)]; [by right|left].
      intros ->. pose proof (fresh_owner L Hp (proj1 Hn) Hfit Hap). congruence. }
    exists owner, cs, fl. eapply inv_frame; [done|..]; try done; cbn [c_sys c_threads c_enlarger c_out].
    + destruct L as [L1 L2 L3]. split; rewrite ?B1, ?Ea; [done| |done].
      intros y b Ho. rewrite (Hh y b Ho). by apply L2.
    + intros a2 p2 H2. rewrite (quiet_pending s) by done. rewrite Z.add_0_r. by eapply Hmax.
    + apply quiet_inv. unfold quiet in *. by rewrite B1.
Qed.

(** The blocks of a chunk from the list of the chunk to its last block. *)
Lemma chunk_blocks_last p (c n : Z) : 0 < n -> exists l, chunk_blocks p c n = l ++ [last_block p c n].
Proof.
  intros Hn. unfold chunk_blocks. destruct (Z.to_nat n) as [|m] eqn:E; [lia|]. cbn [below]. eauto.
Qed.

(** The blocks of a new chunk are not in the pool yet. *)
Lemma chunk_new s owner out pend w gr a p cs fl (c : Z) h x :
  layout s owner -> pool_inv s owner out pend w gr a p cs fl -> s_pools s !! a = Some p ->
  owner !! c = Some a -> s_headers s !! c = Some h -> c ∉ cs -> x ∈ chunk_blocks p c (ch_num_blocks h) ->
  x ∉ pool_blocks (s_headers s) p cs.
Proof.
  intros L P Hp Ho Hh Hni Hx (c2 & h2 & Hc2 & Hh2 & Hx2)%elem_of_pool_blocks.
  pose proof (pi_owner _ _ _ _ _ _ _ _ _ _ P _ Hc2) as Ho2. destruct (l_good _ _ L _ _ Hp) as [[_ ? _ _ _ _ _] _].
  destruct (blocks_apart _ _ _ _ _ _ _ _ _ _ _ _ L Ho Ho2 Hp Hp Hh Hh2 Hx Hx2); [left; congruence|lia..].
Qed.

Lemma pool_inv_add s s' owner out w gr k a p p' cs fl (c : Z) h n first :
  layout s owner -> pool_inv s owner out n w gr a p cs fl -> s_pools s !! a = Some p ->
  owner !! c = Some a -> s_headers s !! c = Some h -> ch_num_blocks h = n -> 0 < n -> c ∉ cs ->
  free_chain (s_cells s) (next_ofs p) first (chunk_blocks p c n) ->
  s_headers s' = <[c := Chunk (chunks p) (ch_area h) n]> (s_headers s) ->
  s_cells s' = <[last_block p c n + next_ofs p := free_list p]> (s_cells s) ->
  static p' = static p -> chunks p' = c -> num_blocks p' = num_blocks p + n -> sem p' = sem p ->
  free_list p' = first -> free_blocks p' = free_blocks p + n -> num_waiting p' = num_waiting p - k ->
  k = Z.min (num_waiting p) n -> (chunks p = 0 -> min_free_blocks p <= 0 \/ num_waiting p < n) ->
  pool_inv s' owner out 0 w (gr + k) a p' (c :: cs) (chunk_blocks p c n ++ fl).
Proof.
  intros L P Hp Ho Hh En Hn Hni Hf Hh' Hc' Hst Ech Enb Es Efl Efb Ew Ek Hk.
  assert (Hnew : forall x, x ∈ chunk_blocks p c n -> x ∉ pool_blocks (s_headers s) p cs).
  { intros x. rewrite <- En. by eapply chunk_new. }
  destruct (l_owner _ _ L _ _ Ho) as (q & h2 & z & Hq & Hh2 & _ & _ & _ & Hpos & _).
  destruct (l_good _ _ L _ _ Hp) as [[_ Hbs _ _ _ _ _] _].
  unfold static in Hst. injection Hst as E1 E2 E3 E4 E5 E6 E7. subst c n.
  assert (Hfr : forall y, y ∈ cs -> s_headers s' !! y = s_headers s !! y).
  { intros y Hy. rewrite Hh'. apply lookup_insert_ne. by intros <-. }
  assert (Eblk : pool_blocks (s_headers s') p' (chunks p' :: cs) =
                 chunk_blocks p (chunks p') (ch_num_blocks h) ++ pool_blocks (s_headers s) p cs).
  { rewrite (pool_blocks_cons _ _ _ (Chunk (chunks p) (ch_area h) (ch_num_blocks h)))
      by (rewrite Hh'; apply lookup_insert_eq).
    rewrite (pool_blocks_frame _ _ p p' _ Hfr) by done. unfold chunk_blocks, last_block. simpl. by rewrite E2, E3. }
  destruct (chunk_blocks_last p (chunks p') (ch_num_blocks h) Hn) as [l El].
  assert (Hlen : Z.of_nat (length (chunk_blocks p (chunks p') (ch_num_blocks h))) = ch_num_blocks h).
  { unfold chunk_blocks. rewrite length_below. lia. }
  assert (Hnd : NoDup (chunk_blocks p (chunks p') (ch_num_blocks h) ++ fl)).
  { apply NoDup_app. split_and!; [by apply NoDup_below| |by eapply pi_fl].
    intros x Hx Hfl. apply (Hnew x Hx). apply (pi_part _ _ _ _ _ _ _ _ _ _ P). by left. }
  destruct P. split; rewrite ?Eblk, ?length_app, ?Efb, ?Enb, ?Es, ?Ew, ?E1, ?E4, ?E5; try done; try lia.
  - split; [done|]. split; [lia|]. eexists. rewrite Hh', lookup_insert_eq. split; [done|].
    rewrite <- Hh'. by eapply chunk_chain_frame.
  - by constructor.
  - intros y [->|Hy]%elem_of_cons; auto.
  - rewrite El, <- app_assoc in Hnd. rewrite El in Hf. rewrite El, <- app_assoc, Hc', Efl. by apply free_chain_app.
  - intros x. rewrite !elem_of_app, pi_part. tauto.
  - intros x [Hx|Hx]%elem_of_app; [|by apply pi_excl]. intros Hx2. apply (Hnew x Hx), pi_part. by right.
Qed.

(** The critical section of [enlarge_pool]. *)
Lemma inv_add s ts o a b :
  soundX (Config s ts (EAdd a b) o) ->
  (forall p, s_pools s !! a = Some p -> a ∉ X \/ num_waiting p = 0) ->
  exists n s' p p', enlarge_add a b s = Some (n, s') /\ soundX (Config s' ts (ERelease a n) o) /\
    s_pools s !! a = Some p /\ s_pools s' = <[a := p']> (s_pools s) /\ chunks p' <> 0 /\ static p' = static p /\
    prev p' = prev p /\ next p' = next p /\ sLockedPools s' = sLockedPools s.
Proof.
  intros (owner & cs & fl & Hi) HX. pose proof (i_enlarger _ _ _ _ _ _ Hi) as He. cbn [c_sys c_enlarger] in He.
  destruct He as (p & h & Hp & Ho & Hh & En & Hn & El & Hf & Hni).
  pose proof (i_layout _ _ _ _ _ _ Hi) as L. cbn [c_sys] in L.
  pose proof (i_pool _ _ _ _ _ _ Hi _ _ Hp) as P. pose proof (free_bound Hi _ _ Hp) as Hb.
  pose proof (count_threads Hi (waits_on a)) as Hw. fold (waiters (Config s ts (EAdd a b) o) a) in Hw.
  destruct (l_good _ _ L _ _ Hp) as [G Ha0]. pose proof (g_max _ G) as Hmax.
  pose proof (pi_max _ _ _ _ _ _ _ _ _ _ P) as Hm. unfold pending in Hm. cbn [c_enlarger] in Hm. rewrite Z.eqb_refl in Hm.
  pose proof (pi_count _ _ _ _ _ _ _ _ _ _ P) as Hc. pose proof (pi_wait _ _ _ _ _ _ _ _ _ _ P) as Hnw.
  pose proof (pi_wait0 _ _ _ _ _ _ _ _ _ _ P) as Hn0. pose proof (pi_sem _ _ _ _ _ _ _ _ _ _ P) as Hs.
  pose proof (grants_nonneg Hi a) as Hg. destruct (l_owner _ _ L _ _ Ho) as (_ & _ & _ & _ & _ & _ & _ & _ & Hpos & _).
  unfold enlarge_add. rewrite Hp. cbn [mbind option_bind]. rewrite Hh. cbn [mbind option_bind].
  eexists _, _, p, _. split; [reflexivity|]. split; [|split_and!; done || (simpl; lia)].
  set (p' := set_num_waiting _ _). set (k := Z.min _ _).
  exists owner, (<[a := b_chunk b :: cs a]> cs), (<[a := chunk_blocks p (b_chunk b) (b_num b) ++ fl a]> fl).
  eapply (inv_update Hi Hp (p' := p')); try done; cbn [c_sys c_threads c_enlarger c_out].
  - simpl. lia.
  - intros y a2 h2 Ho2 H2. simpl. destruct (decide (b_chunk b = y)) as [<-|Hne].
    + rewrite lookup_insert_eq. rewrite Hh in H2. injection H2 as <-. eexists. split_and!; try done.
      rewrite Ho in Ho2. congruence.
    + rewrite lookup_insert_ne by done. eauto.
  - eapply cells_within_insert with (b := b_last b); [done|]. exists (b_chunk b), h. split_and!; [done..|].
    destruct (chunk_blocks_last p (b_chunk b) (b_num b) Hn) as [l E]. rewrite En, E, El. set_solver.
  - intros b2 Hne. unfold pending, waiters, grants. simpl. by rewrite (proj2 (Z.eqb_neq a b2)) by done.
  - unfold pending. cbn [c_enlarger]. change (waiters _ a) with (waiters (Config s ts (EAdd a b) o) a).
    replace (grants _ a) with (grants (Config s ts (EAdd a b) o) a + k) by (unfold grants; simpl; rewrite Z.eqb_refl; lia).
    unfold pending in P. cbn [c_enlarger] in P. rewrite Z.eqb_refl in P.
    eapply pool_inv_add with (p := p) (h := h); try done; simpl; try (apply i32_small; simpl; lia).
    + by rewrite En.
    + by rewrite El.
    + change k with (Z.min (num_waiting p) (b_num b)). apply i32_small. lia.
    + intros E0. destruct (HX p Hp) as [HnX|E1]; [left|right; lia].
      destruct (Z.lt_ge_cases 0 (min_free_blocks p)) as [Hl|]; [|done].
      by destruct (i_min _ _ _ _ _ _ Hi a p Hp HnX Hl).
  - intros t x Hx. apply (i_threads _ _ _ _ _ _ Hi t x Hx).
  - intros b2 a' Hb2. by apply (i_out _ _ _ _ _ _ Hi b2).
  - split; [simpl; rewrite lookup_insert_eq; eauto|]. subst k. simpl. lia.
Qed.

(** Releasing the threads. *)
Lemma inv_release s ts o a n e :
  soundX (Config s ts (ERelease a n) o) -> quiet s e ->
  exists s' p, release_sem a n s = Some s' /\ soundX (Config s' ts e o) /\ s_pools s !! a = Some p /\
    s_pools s' = <[a := set_sem (sem p + n) p]> (s_pools s) /\ sLockedPools s' = sLockedPools s.
Proof.
  intros (owner & cs & fl & Hi) Hq. pose proof (i_enlarger _ _ _ _ _ _ Hi) as [[p Hp] Hn].
  cbn [c_sys] in Hp. unfold release_sem. rewrite Hp. cbn [mbind option_bind].
  pose proof (i_pool _ _ _ _ _ _ Hi _ _ Hp) as P.
  eexists _, p. split; [reflexivity|]. split; [|done].
  exists owner, (<[a := cs a]> cs), (<[a := fl a]> fl).
  eapply (inv_local Hi Hp (p' := set_sem (sem p + n) p)) with (fla := fl a); try done; cbn [c_out c_threads c_enlarger].
  - by left.
  - intros b Hne. rewrite (quiet_pending s), (quiet_grants s) by done. unfold pending, waiters, grants. simpl.
    rewrite (proj2 (Z.eqb_neq a b)) by done. split_and!; [done..|lia].
  - change (waiters _ a) with (waiters (Config s ts (ERelease a n) o) a).
    rewrite (quiet_pending s), (quiet_grants s) by done.
    pose proof (pi_sem _ _ _ _ _ _ _ _ _ _ P) as Hs. revert P. unfold pending, grants. cbn [c_enlarger c_threads].
    rewrite Z.eqb_refl. intros P. rewrite <- (Z.add_simpl_r (count (granted_on a) ts) n).
    eapply pool_inv_shift; try done. lia.
  - intros t x Hx. apply (i_threads _ _ _ _ _ _ Hi t x Hx).
  - intros b a' Hb. by apply (i_out _ _ _ _ _ _ Hi b).
  - by apply quiet_inv.
Qed.

End Enlarge.

Arguments soundX : clear implicits.

Lemma soundX_sound c ps : soundX ∅ ps c -> sound c.
Proof. intros (owner & cs & fl & H). by exists owner, cs, fl, ps. Qed.

Lemma sound_soundX c : sound c -> exists ps, soundX ∅ ps c.
Proof. intros (owner & cs & fl & ps & H). exists ps. by exists owner, cs, fl. Qed.

Lemma step_enlarger_add c : sound c -> allowed EnlargerAdd c -> result_ok (step EnlargerAdd c).
Proof.
  intros [ps H]%sound_soundX (a & b & He). destruct c as [s ts e o]. cbn [c_enlarger] in He. subst e.
  destruct (inv_add s ts o a b H) as (n & s' & p & p' & E & H' & _); [left; set_solver|].
  cbn -[enlarge_add]. rewrite E. cbn [mbind option_bind]. eexists. split; [done|]. by eapply soundX_sound.
Qed.

Lemma step_enlarger_release c : sound c -> allowed EnlargerRelease c -> result_ok (step EnlargerRelease c).
Proof.
  intros (owner & cs & fl & ps & Hi) (a & n & He). destruct c as [s ts e o]. cbn [c_enlarger] in He. subst e.
  pose proof (i_enlarger _ _ _ _ _ _ Hi) as [[p Hp] _]. cbn [c_sys] in Hp.
  destruct (inv_release (X := ∅) (ps := ps) s ts o a n (ELook (next p))) as (s' & p' & E & H' & Hp' & Es & _).
  { by exists owner, cs, fl. }
  { exact (next_pool_ok _ _ _ _ _ _ _ Hi Hp). }
  cbn -[release_sem]. rewrite E. cbn [mbind option_bind]. unfold next_pool. rewrite Es, lookup_insert_eq.
  cbn [mbind option_bind]. eexists. split; [done|]. simplify_eq. by eapply soundX_sound.
Qed.

Lemma step_enlarger_look area base c :
  sound c -> allowed (EnlargerLook area base) c -> result_ok (step (EnlargerLook area base) c).
Proof.
  intros (owner & cs & fl & ps & Hi) (a & He & Har). destruct c as [s ts e o]. cbn [c_enlarger c_sys] in *. subst e.
  cbn -[enlarger_look]. destruct (Z.eqb_spec a 0) as [E0|E0].
  { eapply result_intro, (inv_quiet _ _ _ _ _ _ Hi); done. }
  pose proof (i_enlarger _ _ _ _ _ _ Hi) as [|[p Hp]]; [done|]. cbn [c_sys] in Hp.
  pose proof (next_pool_ok _ _ _ _ _ _ _ Hi Hp) as Hnx. cbn [c_sys] in Hnx.
  pose proof (i_pool _ _ _ _ _ _ Hi _ _ Hp) as P. pose proof (free_bound Hi _ _ Hp) as Hb.
  destruct (l_good _ _ (i_layout _ _ _ _ _ _ Hi) _ _ Hp) as [G _]. pose proof (g_max _ G) as Hmax. pose proof (g_by _ G) as Hby.
  assert (Hskip : inv ∅ (Config s ts (ELook (next p)) o) owner cs fl ps) by (eapply (inv_quiet _ _ _ _ _ _ Hi); done).
  unfold enlarger_look. rewrite Hp. cbn [mbind option_bind].
  destruct (Z.ltb_spec (min_free_blocks p) (free_blocks p)).
  { cbn [mbind option_bind]. unfold next_pool. rewrite Hp. cbn [mbind option_bind]. by eapply result_intro. }
  destruct (Z.ltb_spec (num_blocks p) (max_blocks p)).
  2:{ cbn [mbind option_bind]. unfold next_pool. rewrite Hp. cbn [mbind option_bind]. by eapply result_intro. }
  rewrite i32_small by lia. set (n := Z.min _ _). assert (Hn : 0 < n <= enlarge_by p /\ num_blocks p + n <= max_blocks p) by lia.
  pose proof (Har p Hp) as Harp. fold n in Harp.
  destruct (enlarge_build_ok a p n area base s Hp (g_bs _ G)) as (st & b & s' & E & Hbo & _).
  { destruct Harp as [|(_ & Hf & _)]; [lia|done]. }
  rewrite E. cbn [mbind option_bind]. unfold next_pool. rewrite (bo_pools _ _ _ _ _ _ _ Hbo), Hp. cbn [mbind option_bind].
  eexists. split; [done|]. eapply (soundX_sound _ ps).
  assert (H' : soundX ∅ ps (Config s ts (ELook (next p)) o)) by (by exists owner, cs, fl).
  exact (inv_built s s' ts (ELook (next p)) o a p n area base b H' Hnx Hp Harp (proj1 Hn) (proj2 Hn) Hbo).
Qed.
