(* ===== verification/PoolLife.v ===== *)
(** Creating and destroying pools of locked memory keeps the invariant. *)
From stdpp Require Import base functions gmap list.
From Stdlib Require Import ZArith Lia.
From S2P Require Import Prelude Errors LockedPool PoolInv PoolSteps.

Implicit Types (p q : locked_pool) (s : sys) (c : config).

(** ** The global list *)

Definition same_but_links p p' : Prop := p' = set_next (next p') (set_prev (prev p') p).

Lemma same_but_links_refl p : same_but_links p p.
Proof. by destruct p. Qed.
Lemma same_but_links_next x p : same_but_links p (set_next x p).
Proof. done. Qed.
Lemma same_but_links_prev x p : same_but_links p (set_prev x p).
Proof. done. Qed.
Lemma same_but_links_trans p q r : same_but_links p q -> same_but_links q r -> same_but_links p r.
Proof. unfold same_but_links. intros -> ->. done. Qed.

(** Two sets of pools that differ in the links only. *)
Definition relinked (pools pools' : gmap Z locked_pool) : Prop :=
  forall a, match pools !! a, pools' !! a with
            | Some p, Some p' => same_but_links p p'
            | None, None => True
            | _, _ => False
            end.

Lemma relinked_refl pools : relinked pools pools.
Proof. intros a. destruct (pools !! a); [apply same_but_links_refl|done]. Qed.

Lemma relinked_insert pools pools' a p p' :
  relinked pools pools' -> pools' !! a = Some p -> same_but_links p p' -> relinked pools (<[a := p']> pools').
Proof.
  intros H Ha Hp b. specialize (H b). destruct (decide (a = b)) as [<-|]; [|by rewrite lookup_insert_ne].
  rewrite lookup_insert_eq. rewrite Ha in H. destruct (pools !! a); [|done]. by eapply same_but_links_trans.
Qed.

Lemma same_fields p p' : same_but_links p p' ->
  static p' = static p /\ chunks p' = chunks p /\ num_blocks p' = num_blocks p /\ free_list p' = free_list p /\
  free_blocks p' = free_blocks p /\ num_waiting p' = num_waiting p /\ sem p' = sem p.
Proof. intros ->. done. Qed.

Lemma relinked_lookup pools pools' a p' :
  relinked pools pools' -> pools' !! a = Some p' -> exists p, pools !! a = Some p /\ same_but_links p p'.
Proof. intros H Hp. specialize (H a). rewrite Hp in H. destruct (pools !! a); [eauto|done]. Qed.

Lemma relinked_fwd pools pools' a p :
  relinked pools pools' -> pools !! a = Some p -> exists p', pools' !! a = Some p' /\ same_but_links p p'.
Proof. intros H Hp. specialize (H a). rewrite Hp in H. destruct (pools' !! a); [eauto|done]. Qed.

Lemma relinked_some pools pools' a : relinked pools pools' -> (is_Some (pools' !! a) <-> is_Some (pools !! a)).
Proof. intros H. specialize (H a). destruct (pools !! a), (pools' !! a); naive_solver. Qed.

(** The invariant does not look at the links, but for the list. *)
Lemma inv_relink X X' s s' ts e o owner cs fl ps ps' :
  inv X (Config s ts e o) owner cs fl ps -> relinked (s_pools s) (s_pools s') ->
  s_headers s' = s_headers s -> s_cells s' = s_cells s -> s_areas s' = s_areas s ->
  dl_list (s_pools s') 0 (sLockedPools s') ps' -> NoDup ps' ->
  (forall a, a ∈ ps' <-> is_Some (s_pools s !! a) /\ a ∉ X') ->
  (forall a p, s_pools s !! a = Some p -> a ∉ X' -> 0 < min_free_blocks p -> chunks p <> 0) ->
  inv X' (Config s' ts e o) owner cs fl ps'.
Proof.
  intros [L P M T O E D Dp] R Hh Hc Ha Hdl Hnd Hps Hmin. cbn [c_sys c_threads c_enlarger c_out] in *.
  assert (Hsome : forall a, is_Some (s_pools s' !! a) <-> is_Some (s_pools s !! a)) by (intros a; by apply relinked_some).
  split; cbn [c_sys c_threads c_enlarger c_out]; try done.
  - destruct L as [L1 L2 L3]. split; rewrite ?Ha; [done| |].
    + intros x b Ho. destruct (L2 x b Ho) as (p & h & z & Hp & F). destruct (relinked_fwd _ _ _ _ R Hp) as (p' & Hp' & Hs).
      destruct (same_fields _ _ Hs) as (Es & _). unfold static in Es. injection Es as E1 E2 E3 E4 E5 E6 E7.
      exists p', h, z. by rewrite Hh, E2, E3.
    + intros b p' Hp'. destruct (relinked_lookup _ _ _ _ R Hp') as (p & Hp & Hs). destruct (L3 _ _ Hp).
      split; [|done]. by eapply static_good; [apply same_fields|].
  - intros b p' Hp'. destruct (relinked_lookup _ _ _ _ R Hp') as (p & Hp & Hs). pose proof (P b p Hp) as Pb.
    destruct (same_fields _ _ Hs) as (Es & F1 & F2 & F3 & F4 & F5 & F6).
    unfold static in Es. injection Es as E1 E2 E3 E4 E5 E6 E7.
    assert (Eb : pool_blocks (s_headers s') p' (cs b) = pool_blocks (s_headers s) p (cs b))
      by (apply pool_blocks_frame; [by rewrite Hh|done..]).
    destruct Pb. split; rewrite ?Eb, ?Hh, ?Hc, ?E1, ?E4, ?E5, ?F1, ?F2, ?F3, ?F4, ?F5, ?F6; done.
  - intros b p' Hp' HX. destruct (relinked_lookup _ _ _ _ R Hp') as (p & Hp & Hs).
    destruct (same_fields _ _ Hs) as (Es & F1 & _). unfold static in Es. injection Es as E1 E2 E3 E4 E5 E6 E7.
    rewrite E4, F1. by apply Hmin with b.
  - intros t x Hx. rewrite Hsome. by apply (T t).
  - intros b x Hx. rewrite Hsome. by apply (O b).
  - destruct e as [|b|b x|b n|]; cbn [enlarger_inv] in *; rewrite ?Hsome; try done.
    destruct E as (p & h & Hp & E). destruct (relinked_fwd _ _ _ _ R Hp) as (p' & Hp' & Hs).
    destruct (same_fields _ _ Hs) as (Es & _). unfold static in Es. injection Es as E1 E2 E3 E4 E5 E6 E7.
    exists p', h. rewrite Hh, Hc. unfold last_block, chunk_blocks, last_block in *. by rewrite E1, E2, E3.
  - split; [done|]. intros a. rewrite Hsome. apply Hps.
Qed.

(** The pool at [a] is put in front of the list. *)
Lemma add_dl_list_head_ok s a p ps :
  s_pools s !! a = Some p -> a <> 0 -> a ∉ ps -> NoDup ps -> dl_list (s_pools s) 0 (sLockedPools s) ps ->
  (forall b, b ∈ ps -> is_Some (s_pools s !! b)) ->
  exists s', add_dl_list_head a s = Some s' /\ relinked (s_pools s) (s_pools s') /\
    s_headers s' = s_headers s /\ s_cells s' = s_cells s /\ s_areas s' = s_areas s /\
    dl_list (s_pools s') 0 (sLockedPools s') (a :: ps).
Proof.
  intros Hp Ha Hni Hnd Hdl Hex. unfold add_dl_list_head. rewrite Hp. cbn [mbind option_bind].
  set (p1 := set_prev 0 (set_next (sLockedPools s) p)).
  assert (R1 : relinked (s_pools s) (<[a := p1]> (s_pools s))).
  { eapply relinked_insert; [apply relinked_refl|done|done]. }
  destruct ps as [|b r]; cbn [dl_list] in Hdl.
  - rewrite Hdl. simpl. eexists. split; [done|]. split_and!; try done.
    cbn. exists p1. rewrite lookup_insert_eq. split_and!; done.
  - destruct Hdl as (E & Hb0 & q & Hq & Hpv & Hl). rewrite E. rewrite (proj2 (Z.eqb_neq b 0)) by done.
    apply NoDup_cons in Hnd as [Hbr Hnd]. assert (a <> b) by (intros ->; apply Hni; by left).
    cbn [put_pool with_pools s_pools]. rewrite lookup_insert_ne, Hq by done. cbn [mbind option_bind].
    eexists. split; [done|]. split_and!; try done.
    + cbn. eapply relinked_insert; [done|by rewrite lookup_insert_ne|done].
    + cbn. split_and!; [done|done|]. exists p1. rewrite lookup_insert_ne, lookup_insert_eq by done.
      split_and!; [done|done|simpl; done|done|]. exists (set_prev a q). rewrite lookup_insert_eq. split_and!; [done|done|].
      eapply dl_list_frame; [|exact Hl]. intros x y Hx Hy. exists y.
      rewrite !lookup_insert_ne; [done|intros ->; apply Hni; by right|by intros ->].
Qed.

(** A pool and its successor, and its predecessor. *)
Lemma dl_succ pools pv head ps b q :
  dl_list pools pv head ps -> b ∈ ps -> pools !! b = Some q -> next q <> 0 ->
  exists p, pools !! next q = Some p /\ prev p = b /\ next q ∈ ps.
Proof.
  revert pv head. induction ps as [|x r IH]; intros pv head; [by intros _ ?%elem_of_nil|].
  intros (-> & _ & y & Hy & _ & Hl) [->|Hb]%elem_of_cons Hq Hn.
  - simplify_eq. destruct r as [|z r]; [done|]. destruct Hl as (E & _ & p & Hp & Hv & _).
    exists p. rewrite E. split_and!; [done|done|]. right. by left.
  - destruct (IH _ _ Hl Hb Hq Hn) as (p & Hp & Hv & Hin). exists p. split_and!; [done|done|by right].
Qed.

Lemma dl_pred pools pv head ps b q :
  dl_list pools pv head ps -> b ∈ ps -> pools !! b = Some q ->
  (prev q = pv /\ head = b) \/ (exists p, pools !! prev q = Some p /\ next p = b /\ prev q ∈ ps).
Proof.
  revert pv head. induction ps as [|x r IH]; intros pv head; [by intros _ ?%elem_of_nil|].
  intros (-> & _ & y & Hy & Hv & Hl) [->|Hb]%elem_of_cons Hq.
  - simplify_eq. by left.
  - right. destruct (IH _ _ Hl Hb Hq) as [[E1 E2]|(p & Hp & Hn & Hin)].
    + exists y. rewrite E1. split_and!; [done|done|by left].
    + exists p. split_and!; [done|done|by right].
Qed.

(** Links to [a] are replaced by the links of [a]. *)
Definition bypass (pools pools' : gmap Z locked_pool) (a : Z) p (l : list Z) : Prop :=
  forall b q, b ∈ l -> pools !! b = Some q -> exists q', pools' !! b = Some q' /\
    next q' = (if decide (next q = a) then next p else next q) /\
    prev q' = (if decide (prev q = a) then prev p else prev q).

Lemma dl_bypass_tail pools pools' a p pv head l :
  dl_list pools pv head l -> a ∉ l -> a <> 0 -> pv <> a -> bypass pools pools' a p l -> dl_list pools' pv head l.
Proof.
  revert pv head. induction l as [|x r IH]; intros pv head; [done|].
  intros (-> & Hx & y & Hy & Hv & Hl) Ha Ha0 Hpv B. apply not_elem_of_cons in Ha as [Hax Har].
  destruct (B x y) as (y' & Hy' & En & Ep); [by left|done|].
  split_and!; [done|done|]. exists y'. rewrite Hv in Ep. rewrite decide_False in Ep by done. split_and!; [done|done|].
  rewrite decide_False in En.
  - rewrite En. apply IH; [done..|by intros ->|]. intros b q Hb. apply B. by right.
  - destruct r as [|z r]; [congruence|]. destruct Hl as [-> _]. intros ->. apply Har. by left.
Qed.

Lemma dl_bypass pools pools' a p pv head l1 l2 :
  dl_list pools pv head (l1 ++ a :: l2) -> NoDup (l1 ++ a :: l2) -> pools !! a = Some p -> pv <> a ->
  bypass pools pools' a p (l1 ++ l2) ->
  dl_list pools' pv (if decide (head = a) then next p else head) (l1 ++ l2).
Proof.
  intros Hl Hnd Hp Hpv B. revert pv head Hl Hpv. induction l1 as [|x r IH]; intros pv head; cbn [app] in *.
  - intros (-> & Ha0 & y & Hy & Hv & Hl) Hpv. simplify_eq. rewrite decide_True by done.
    apply NoDup_cons in Hnd as [Hni _]. destruct l2 as [|z l2]; [done|].
    destruct Hl as (E & Hz & q & Hq & Hvq & Hl). apply not_elem_of_cons in Hni as [Haz Hni].
    destruct (B z q) as (q' & Hq' & En & Ep); [by left|done|]. rewrite Hvq, decide_True in Ep by done.
    split_and!; [done|done|]. exists q'. split_and!; [done|done|].
    rewrite decide_False in En.
    + rewrite En. eapply dl_bypass_tail; try done. intros b w Hb. apply B. by right.
    + destruct l2 as [|z2 l2]; [cbn in Hl; congruence|]. destruct Hl as [-> _]. intros ->. apply Hni. by left.
  - intros (-> & Hx & y & Hy & Hv & Hl) Hpv. apply NoDup_cons in Hnd as [Hni Hnd].
    assert (x <> a) by set_solver. rewrite decide_False by done.
    destruct (B x y) as (y' & Hy' & En & Ep); [by left|done|]. rewrite Hv, decide_False in Ep by done.
    split_and!; [done|done|]. exists y'. split_and!; [done|done|]. rewrite En. apply IH; try done.
    intros b w Hb. apply B. by right.
Qed.

(** It is enough to look at the neighbours of [a]. *)
Lemma bypass_intro pools pools' a p head ps l :
  dl_list pools 0 head ps -> a ∈ ps -> pools !! a = Some p -> (forall b, b ∈ ps -> b <> 0) ->
  (forall b, b ∈ l -> b ∈ ps) ->
  (forall b w, b ∈ l -> pools !! b = Some w -> exists w', pools' !! b = Some w' /\
     next w' = (if decide (b = prev p) then next p else next w) /\
     prev w' = (if decide (b = next p) then prev p else prev w)) ->
  bypass pools pools' a p l.
Proof.
  intros Hdl Hin Hp Hn0 Hl H b w Hb Hw. destruct (H b w Hb Hw) as (w' & Hw' & En & Ep). exists w'. rewrite En, Ep.
  apply Hl in Hb. pose proof (Hn0 b Hb). pose proof (Hn0 a Hin). split_and!; [done| |].
  - destruct (decide (b = prev p)) as [->|Hne].
    + destruct (dl_pred _ _ _ _ _ _ Hdl Hin Hp) as [[E _]|(q & Hq & Hnq & _)]; [congruence|]. simplify_eq. by rewrite decide_True.
    + rewrite decide_False; [done|]. intros E.
      destruct (dl_succ _ _ _ _ _ _ Hdl Hb Hw) as (y & Hy & Hv & _); [congruence|]. simplify_eq.
  - destruct (decide (b = next p)) as [->|Hne].
    + destruct (dl_succ _ _ _ _ _ _ Hdl Hin Hp) as (q & Hq & Hnq & _); [done|]. simplify_eq. by rewrite decide_True.
    + rewrite decide_False; [done|]. intros E.
      destruct (dl_pred _ _ _ _ _ _ Hdl Hb Hw) as [[E1 _]|(y & Hy & Hv & _)]; [congruence|]. simplify_eq.
Qed.

(** The pool at [a] is taken out of the list. *)
Lemma remove_dl_list_ok s a p ps :
  s_pools s !! a = Some p -> a ∈ ps -> NoDup ps -> dl_list (s_pools s) 0 (sLockedPools s) ps ->
  (forall b, b ∈ ps -> b <> 0) ->
  exists s' ps', remove_dl_list a s = Some s' /\ relinked (s_pools s) (s_pools s') /\
    s_headers s' = s_headers s /\ s_cells s' = s_cells s /\ s_areas s' = s_areas s /\ s_hooks s' = s_hooks s /\
    dl_list (s_pools s') 0 (sLockedPools s') ps' /\ NoDup ps' /\ (forall b, b ∈ ps' <-> b ∈ ps /\ b <> a).
Proof.
  intros Hp Hin Hnd Hdl Hn0. pose proof (Hn0 a Hin) as Ha0.
  apply list_elem_of_split in Hin as Hsp. destruct Hsp as (l1 & l2 & Eps).
  assert (Hl : forall b, b ∈ l1 ++ l2 <-> b ∈ ps /\ b <> a).
  { intros b. subst ps. apply NoDup_app in Hnd as (_ & H1 & [H2 _]%NoDup_cons).
    rewrite elem_of_app, elem_of_app, elem_of_cons. split; [|naive_solver].
    intros [Hb|Hb]; (split; [tauto|]); intros ->; [apply (H1 a Hb); by left|done]. }
  assert (Hnd' : NoDup (l1 ++ l2)).
  { subst ps. rewrite <- Permutation_middle in Hnd. by apply NoDup_cons in Hnd as [_ ?]. }
  assert (Hpred := dl_pred _ _ _ _ _ _ Hdl Hin Hp).
  assert (Hsucc := dl_succ _ _ _ _ _ _ Hdl Hin Hp).
  assert (Hhead : (if decide (sLockedPools s = a) then next p else sLockedPools s) =
                  (if prev p =? 0 then next p else sLockedPools s)).
  { destruct Hpred as [[-> ->]|(q & Hq & Hnq & Hqin)]; [by rewrite decide_True|].
    pose proof (Hn0 _ Hqin). rewrite (proj2 (Z.eqb_neq _ 0)) by done. rewrite decide_False; [done|].
    intros E. destruct (dl_pred _ _ _ _ _ _ Hdl Hin Hp) as [[E1 _]|_]; [done|].
    destruct ps as [|x r]; [by apply elem_of_nil in Hin|]. destruct Hdl as (E1 & _ & y & Hy & Hv & Hdl).
    assert (x = a) as -> by congruence. simplify_eq. }
  assert (Hfin : forall pools', (forall b w, b ∈ l1 ++ l2 -> s_pools s !! b = Some w -> exists w', pools' !! b = Some w' /\
            next w' = (if decide (b = prev p) then next p else next w) /\
            prev w' = (if decide (b = next p) then prev p else prev w)) ->
            dl_list pools' 0 (if prev p =? 0 then next p else sLockedPools s) (l1 ++ l2)).
  { intros pools' H. rewrite <- Hhead. eapply dl_bypass; [by rewrite <- Eps|by rewrite <- Eps|done|done|]. by eapply bypass_intro; [done..|intros b [Hb _]%Hl|]. }
  assert (Hpos : forall b, b ∈ l1 ++ l2 -> b <> 0) by (intros b [Hb _]%Hl; auto).
  unfold remove_dl_list. rewrite Hp. cbn [mbind option_bind].
  destruct (Z.eqb_spec (prev p) 0) as [E1|E1].
  - cbn [mbind option_bind]. destruct (Z.eqb_spec (next p) 0) as [E2|E2].
    + eexists _, (l1 ++ l2). split; [done|]. split_and!; try done; [apply relinked_refl|]. apply Hfin.
      intros b w Hb Hw. exists w. pose proof (Hpos b Hb). rewrite !decide_False by congruence. done.
    + destruct (Hsucc E2) as (q & Hq & Hvq & _). cbn [set_head s_pools]. rewrite Hq. cbn [mbind option_bind].
      eexists _, (l1 ++ l2). split; [done|].
      split_and!; try done; [eapply relinked_insert; [apply relinked_refl|done|done]|]. apply Hfin.
      intros b w Hb Hw. pose proof (Hpos b Hb). rewrite (decide_False (P := b = prev p)) by congruence.
      cbn. destruct (decide (b = next p)) as [->|Hne]; [rewrite lookup_insert_eq|rewrite lookup_insert_ne by done]; eauto.
      simplify_eq. eauto.
  - destruct Hpred as [[? _]|(q1 & Hq1 & Hnq1 & Hin1)]; [done|]. rewrite Hq1. cbn [mbind option_bind].
    assert (R1 : relinked (s_pools s) (<[prev p := set_next (next p) q1]> (s_pools s))).
    { eapply relinked_insert; [apply relinked_refl|done|done]. }
    destruct (Z.eqb_spec (next p) 0) as [E2|E2].
    + eexists _, (l1 ++ l2). split; [done|]. split_and!; try done. apply Hfin.
      intros b w Hb Hw. pose proof (Hpos b Hb). rewrite (decide_False (P := b = next p)) by congruence.
      cbn. destruct (decide (b = prev p)) as [->|Hne]; [rewrite lookup_insert_eq|rewrite lookup_insert_ne by done]; eauto.
      simplify_eq. eauto.
    + destruct (Hsucc E2) as (q & Hq & Hvq & _). cbn [put_pool with_pools s_pools].
      destruct (relinked_fwd _ _ _ _ R1 Hq) as (q2 & Hq2 & Hsl). rewrite Hq2. cbn [mbind option_bind].
      eexists _, (l1 ++ l2). split; [done|]. split_and!; try done; [by eapply relinked_insert|]. apply Hfin.
      intros b w Hb Hw. pose proof (Hpos b Hb). cbn.
      destruct (decide (b = next p)) as [->|Hn2]; [rewrite lookup_insert_eq|rewrite lookup_insert_ne by done].
      * eexists. split; [done|]. split; [|done]. simpl. destruct (decide (next p = prev p)) as [E|E].
        -- rewrite E, lookup_insert_eq in Hq2. injection Hq2 as <-. done.
        -- rewrite lookup_insert_ne in Hq2 by done. congruence.
      * destruct (decide (b = prev p)) as [->|Hne]; [rewrite lookup_insert_eq|rewrite lookup_insert_ne by done]; eauto.
        simplify_eq. eauto.
Qed.

(** ** A new pool *)

Lemma count_zero_all f (ts : gmap Z pc) : (forall t x, ts !! t = Some x -> f x = false) -> count f ts = 0.
Proof.
  intros H. induction ts as [|t x ts Ht IH] using map_ind; [apply count_empty|].
  rewrite count_insert by done. rewrite (H t x) by apply lookup_insert_eq.
  rewrite IH; [done|]. intros t' y Hy. apply (H t'). rewrite lookup_insert_ne; [done|congruence].
Qed.

(** A pool as [create_pool] fills it in. *)
Definition fresh_pool p : Prop :=
  good p /\ free_blocks p = 0 /\ num_waiting p = 0 /\ free_list p = 0 /\ sem p = 0 /\ chunks p = 0 /\ num_blocks p = 0.

Lemma inv_new_pool s ts e o owner cs fl ps a p :
  inv ∅ (Config s ts e o) owner cs fl ps -> quiet s e -> s_pools s !! a = None -> a <> 0 -> fresh_pool p ->
  inv {[a]} (Config (put_pool a p s) ts e o) owner (<[a := []]> cs) (<[a := []]> fl) ps.
Proof.
  intros [L P M T O E D [Dn Dp]] Hq Ha Ha0 (G & F1 & F2 & F3 & F4 & F5 & F6).
  cbn [c_sys c_threads c_enlarger c_out] in *.
  assert (Hother : forall b, is_Some (s_pools s !! b) -> b <> a) by (intros b [x Hx] ->; congruence).
  assert (Hsome : forall b, is_Some (s_pools (put_pool a p s) !! b) <-> b = a \/ is_Some (s_pools s !! b)).
  { intros b. cbn. rewrite lookup_insert_is_Some. destruct (decide (a = b)); naive_solver. }
  split; cbn [c_sys c_threads c_enlarger c_out].
  - destruct L as [L1 L2 L3]. split; [done| |].
    + intros x b Ho. destruct (L2 x b Ho) as (q & h & z & Hq' & F). exists q, h, z. cbn.
      rewrite lookup_insert_ne; [done|]. intros <-. congruence.
    + cbn. intros b q [[<- <-]|[_ Hb]]%lookup_insert_Some; [done|]. by apply L3.
  - cbn. intros b q [[<- <-]|[Hne Hb]]%lookup_insert_Some; rewrite ?fn_lookup_insert, ?fn_lookup_insert_ne by done.
    + rewrite (quiet_pending s), (quiet_grants s) by done. unfold waiters. cbn [c_threads].
      rewrite !count_zero_all.
      2:{ intros t x Hx. destruct (T t x Hx) as [_ Hs]. apply Hother in Hs. by eapply granted_other. }
      2:{ intros t x Hx. destruct (T t x Hx) as [_ Hs]. apply Hother in Hs. by eapply waits_other. }
      split; rewrite ?F1, ?F2, ?F3, ?F4, ?F5, ?F6; cbn [length]; try done; try lia; try (by constructor).
      * intros x Hx. by apply elem_of_nil in Hx.
      * destruct G as [_ _ _ _ ? _ _]. lia.
      * intros b. split; [by intros ?%elem_of_nil|]. intros [?%elem_of_nil|Hb]; [done|].
        apply O, Hother in Hb. done.
      * intros b Hb. by apply elem_of_nil in Hb.
    + eapply pool_inv_frame; [by apply P|done..].
  - cbn. intros b q [[<- <-]|[Hne Hb]]%lookup_insert_Some; [set_solver|]. intros _. apply (M b); [done|set_solver].
  - intros t x Hx. rewrite Hsome. destruct (T t x Hx). tauto.
  - intros b x Hx. rewrite Hsome. right. by apply (O b).
  - apply quiet_inv. destruct e; try done. cbn in Hq |- *. rewrite lookup_insert_is_Some.
    destruct Hq; [by left|right]. destruct (decide (a = a0)); tauto.
  - cbn. eapply dl_list_frame; [|done]. intros b q Hb Hq'. exists q. rewrite lookup_insert_ne; [done|]. congruence.
  - split; [done|]. intros b. rewrite Hsome, Dp, elem_of_singleton. split.
    + intros [Hb _]. split; [tauto|]. by apply Hother.
    + intros [[?|Hb] Hne]; [done|]. split; [done|set_solver].
Qed.

(** ** A pool goes *)

Lemma inv_delete s s' ts e o owner cs fl ps a :
  inv {[a]} (Config s ts e o) owner cs fl ps -> e = EWait \/ e = EExit ->
  (forall t x, ts !! t = Some x -> pc_pool x <> a) -> (forall b x, o !! b = Some x -> x <> a) ->
  s_pools s' = delete a (s_pools s) -> sLockedPools s' = sLockedPools s -> s_cells s' = s_cells s ->
  (forall x b, owner !! x = Some b -> b <> a -> s_headers s' !! x = s_headers s !! x /\
     forall h, s_headers s !! x = Some h -> s_areas s' !! ch_area h = s_areas s !! ch_area h) ->
  (forall i r, s_areas s' !! i = Some r -> s_areas s !! i = Some r) ->
  inv ∅ (Config s' ts e o) (filter (fun x => x.2 <> a) owner) cs fl ps.
Proof.
  intros [L P M T O E D [Dn Dp]] He Ht Ho Hp Hl Hc Hh Ha. cbn [c_sys c_threads c_enlarger c_out] in *.
  assert (Hsome : forall b, b <> a -> is_Some (s_pools s !! b) -> is_Some (delete a (s_pools s) !! b)).
  { intros b Hne Hb. by rewrite lookup_delete_ne. }
  split; cbn [c_sys c_threads c_enlarger c_out]; rewrite ?Hp, ?Hl.
  - destruct L as [L1 L2 L3]. split.
    + intros i j r1 r2 H1 H2. apply (L1 i j); auto.
    + intros x b [Hx Hb]%map_lookup_filter_Some. cbn in Hb. destruct (L2 x b Hx) as (q & h & z & Hq & Hh' & Har & F).
      destruct (Hh x b Hx Hb) as [E1 E2]. exists q, h, z. rewrite Hp, lookup_delete_ne, E1 by done.
      rewrite (E2 h Hh'). done.
    + intros b q. rewrite Hp. intros [_ Hb]%lookup_delete_Some. by apply L3.
  - intros b q [Hne Hb]%lookup_delete_Some. pose proof (P b q Hb) as Pb. eapply pool_inv_frame; [done| | |by rewrite Hc|done].
    + intros x Hx. apply (Hh x b); [by eapply pi_owner|done].
    + intros x Hx. pose proof (pi_owner _ _ _ _ _ _ _ _ _ _ Pb x Hx) as Hxo. rewrite Hxo. by apply map_lookup_filter_Some.
  - intros b q [Hne Hb]%lookup_delete_Some. intros _. apply (M b); [done|set_solver].
  - intros t x Hx. destruct (T t x Hx). split; [done|]. apply Hsome; [|done]. by apply (Ht t).
  - intros b x Hx. apply Hsome; [by apply (Ho b)|by apply (O b)].
  - by destruct He as [-> | ->].
  - eapply dl_list_frame; [|done]. intros b q Hb Hq. exists q. rewrite lookup_delete_ne; [done|].
    apply Dp in Hb. set_solver.
  - split; [done|]. intros b. rewrite Dp. split.
    + intros [Hb Hne]. split; [apply Hsome; [set_solver|done]|set_solver].
    + intros [Hb _]. destruct Hb as [q Hb]. apply lookup_delete_Some in Hb as [? Hb]. split; [by rewrite Hb|set_solver].
Qed.

(** The loop of [free_chunks]. *)
Lemma free_chunks_from_ok p cs : forall fuel head s,
  chunk_chain (s_headers s) head cs -> NoDup cs -> (length cs <= fuel)%nat ->
  exists s', free_chunks_from p fuel head s = Some s' /\ s_pools s' = s_pools s /\ s_cells s' = s_cells s /\
    sLockedPools s' = sLockedPools s /\
    (forall x, x ∉ cs -> s_headers s' !! x = s_headers s !! x) /\
    (forall i r, s_areas s' !! i = Some r -> s_areas s !! i = Some r) /\
    (forall i, (forall x h, x ∈ cs -> s_headers s !! x = Some h -> i <> ch_area h) -> s_areas s' !! i = s_areas s !! i).
Proof.
  induction cs as [|x r IH]; intros fuel head s; cbn [chunk_chain length].
  - intros -> _ _. exists s. split; [by destruct fuel|]. by split_and!.
  - intros (-> & Hx & h & Hh & Hc) [Hni Hnd]%NoDup_cons Hf. destruct fuel as [|fuel]; [lia|].
    cbn [free_chunks_from]. rewrite (proj2 (Z.eqb_neq x 0)) by done. rewrite Hh. cbn [mbind option_bind].
    destruct (remove_blocks_eq p (Z.to_nat (num_blocks p)) (last_block p x (ch_num_blocks h)) s) as [hs ->].
    match goal with |- context [free_chunks_from _ _ _ ?s1] =>
      destruct (IH fuel (ch_next h) s1) as (s' & E & Ep & Ec & El & Eh & Ea1 & Ea2); [|done|lia|] end.
    { eapply chunk_chain_frame; [|exact Hc]. intros y Hy. cbn. apply lookup_delete_ne. by intros ->. }
    rewrite E. exists s'. cbn in *. split_and!; try done.
    + intros y [Hy Hyr]%not_elem_of_cons. rewrite Eh by done. by apply lookup_delete_ne.
    + intros i r' Hi. apply Ea1 in Hi. by apply lookup_delete_Some in Hi as [_ ?].
    + intros i Hi. rewrite Ea2.
      * apply lookup_delete_ne. intros Eh2. apply (Hi x h); [by left|done|done].
      * intros y h2 Hy Hh2. apply (Hi y); [by right|]. by apply lookup_delete_Some in Hh2 as [_ ?].
Qed.

Lemma chunk_chain_length headers head cs : chunk_chain headers head cs -> NoDup cs -> (length cs <= size headers)%nat.
Proof.
  intros Hc Hnd. rewrite <- size_dom. rewrite <- (size_list_to_set (C := gset Z) cs) by done. apply subseteq_size.
  intros x Hx%elem_of_list_to_set. apply elem_of_dom. revert head Hc. induction cs as [|y r IH]; intros head; [set_solver|].
  intros (-> & _ & h & Hh & Hc). apply elem_of_cons in Hx as [->|Hx]; [by rewrite Hh|].
  apply NoDup_cons in Hnd as [_ Hnd]. by eapply IH.
Qed.

(** ** The steps *)

(** A pool that is complete joins the list. *)
Lemma inv_link s ts e o a p ps :
  soundX {[a]} ps (Config s ts e o) -> s_pools s !! a = Some p -> (0 < min_free_blocks p -> chunks p <> 0) ->
  exists s', add_dl_list_head a s = Some s' /\ sound (Config s' ts e o).
Proof.
  intros (owner & cs & fl & Hi) Hp Hm. destruct (i_ps _ _ _ _ _ _ Hi) as [Dn Dp]. cbn [c_sys] in Dp.
  destruct (l_good _ _ (i_layout _ _ _ _ _ _ Hi) _ _ Hp) as [_ Ha0].
  assert (Hni : a ∉ ps) by (intros Hin; apply Dp in Hin; set_solver).
  destruct (add_dl_list_head_ok s a p ps Hp Ha0 Hni Dn (i_dl _ _ _ _ _ _ Hi)) as (s' & E & R & Eh & Ec & Ea & Hdl).
  { intros b Hb. by apply Dp. }
  exists s'. split; [done|]. exists owner, cs, fl, (a :: ps). eapply inv_relink; try done.
  - by constructor.
  - intros b. rewrite elem_of_cons, Dp. split.
    + intros [->|[Hb _]]; split; [by rewrite Hp|set_solver|done|set_solver].
    + intros [Hb _]. destruct (decide (b = a)); [by left|right]. set_solver.
  - intros b q Hq _. destruct (decide (b = a)) as [->|Hne]; [by simplify_eq|].
    apply (i_min _ _ _ _ _ _ Hi b); [done|set_solver].
Qed.

Lemma new_pool_fresh x : good_args x -> fresh_pool (new_pool x).
Proof. intros H. split; [by apply new_pool_good|]. by split_and!. Qed.

(** The first chunk of a new pool. *)
Lemma enlarge_new s ts e o a p n area base ps :
  soundX {[a]} ps (Config s ts e o) -> quiet s e -> s_pools s !! a = Some p -> fresh_pool p ->
  area_result area base (chunk_bytes p n) s -> 0 < n <= enlarge_by p -> n <= max_blocks p ->
  exists st s' p', enlarge_pool a n area base s = Some (st, s') /\ soundX {[a]} ps (Config s' ts e o) /\
    s_pools s' = <[a := p']> (s_pools s) /\
    (0 <= st -> chunks p' <> 0) /\ (st < 0 -> p' = p).
Proof.
  intros HX Hq Hp (G & F1 & F2 & F3 & F4 & F5 & F6) Har Hn Hm.
  destruct (enlarge_build_ok a p n area base s Hp (g_bs _ G)) as (st & b & s1 & E & Hbo & Hst).
  { destruct Har as [|(_ & Hf & _)]; [lia|done]. }
  assert (H1 : soundX {[a]} ps (Config s1 ts (match b with Some x => EAdd a x | None => e end) o)).
  { eapply inv_built; try done. lia. }
  unfold enlarge_pool. rewrite E. cbn [mbind option_bind]. unfold B_OK in *.
  pose proof (bo_pools _ _ _ _ _ _ _ Hbo) as Ep. destruct b as [b|].
  - destruct (inv_add s1 ts o a b H1) as (k & s2 & q & q2 & E2 & H2 & Hq1 & Ep2 & Hc2 & _).
    { intros q Hq1. right. rewrite Ep in Hq1. by simplify_eq. }
    assert (Hqs : quiet s2 e).
    { unfold quiet in *. destruct e; try done. rewrite Ep2, Ep, lookup_insert_is_Some. destruct Hq; [by left|right].
      destruct (decide (a = a0)); tauto. }
    destruct (inv_release s2 ts o a k e H2 Hqs) as (s3 & q3 & E3 & H3 & Hq3 & Ep3 & _).
    rewrite E2. cbn [mbind option_bind]. rewrite E3. cbn [mbind option_bind].
    eexists _, _, _. split; [done|]. split; [done|]. split; [|split; [|lia]].
    + rewrite Ep3, Ep2, insert_insert_eq, Ep. done.
    + intros _. rewrite Ep2, lookup_insert_eq in Hq3. simplify_eq. done.
  - eexists _, _, p. split; [done|]. split; [done|]. split; [by rewrite Ep, insert_id|]. split; [|done].
    destruct Hst as [_ Hst]. specialize (Hst eq_refl). lia.
Qed.

Lemma step_create x a sem_status strdup_ok area base c :
  sound c -> allowed (CreatePool x a sem_status strdup_ok area base) c ->
  result_ok (step (CreatePool x a sem_status strdup_ok area base) c).
Proof.
  intros (owner & cs & fl & ps & Hi) (Hu & Hx & Ha & Hnone & Har). destruct c as [s ts e o]. unfold list_unlocked in Hu.
  cbn [c_sys c_enlarger] in *. cbn -[create_pool]. unfold create_pool.
  assert (Hsame : result_ok (Some (Config s ts e o))) by by eapply result_intro.
  destruct (Z.eqb_spec a 0) as [|Ha0]; [done|]. destruct (sem_status <? 0); [done|]. destruct strdup_ok; [|done]. cbn [negb].
  pose proof (new_pool_fresh x Hx) as Hf. set (p := new_pool x) in *. set (s1 := put_pool a p s).
  assert (Hq : quiet s e) by (by destruct Hu as [-> | ->]).
  assert (Hq1 : quiet s1 e) by (by destruct Hu as [-> | ->]).
  assert (H1 : soundX {[a]} ps (Config s1 ts e o)).
  { exists owner, (<[a := []]> cs), (<[a := []]> fl). by apply inv_new_pool. }
  assert (Hp1 : s_pools s1 !! a = Some p) by apply lookup_insert_eq.
  assert (Hgone : forall s2 p2, soundX {[a]} ps (Config s2 ts e o) -> s_pools s2 = <[a := p2]> (s_pools s1) ->
            result_ok (Some (Config (with_pools (delete a) s2) ts e o))).
  { intros s2 p2 (ow & cs2 & fl2 & H2) E2. eapply result_intro, (inv_delete s2); try done.
    - intros t y Hy Ey. destruct (i_threads _ _ _ _ _ _ Hi t y Hy) as [_ [z Hz]]. cbn in Hz. congruence.
    - intros b y Hy Ey. destruct (i_out _ _ _ _ _ _ Hi b y Hy) as [z Hz]. cbn in Hz. congruence. }
  change (arg_min_free_blocks x) with (min_free_blocks p).
  destruct (Z.ltb_spec 0 (min_free_blocks p)) as [Hm|Hm].
  - destruct Hf as [G Hf']. pose proof (g_max _ G). pose proof (g_by _ G).
    destruct (enlarge_new s1 ts e o a p (Z.min (enlarge_by p) (max_blocks p)) area base ps)
      as (st & s2 & p2 & E & H2 & E2 & Hok & Hbad); try done; try lia.
    rewrite E. cbn [mbind option_bind]. destruct (Z.ltb_spec st 0) as [Hst|Hst].
    + cbn [mbind option_bind]. by eapply Hgone.
    + destruct (inv_link s2 ts e o a p2 ps H2) as (s3 & E3 & H3); [by rewrite E2, lookup_insert_eq|auto|].
      rewrite E3. cbn [mbind option_bind]. by eexists.
  - cbn [mbind option_bind]. unfold B_OK. cbn.
    destruct (inv_link s1 ts e o a p ps H1 Hp1) as (s3 & E3 & H3); [lia|].
    rewrite E3. cbn [mbind option_bind]. by eexists.
Qed.

Lemma step_destroy a c : sound c -> allowed (DestroyPool a) c -> result_ok (step (DestroyPool a) c).
Proof.
  intros (owner & cs & fl & ps & Hi) (Hu & [p Hp] & Ht & Ho). destruct c as [s ts e o]. unfold list_unlocked in Hu.
  cbn [c_sys c_enlarger c_threads c_out] in *. cbn -[destroy_pool]. unfold destroy_pool.
  destruct (i_ps _ _ _ _ _ _ Hi) as [Dn Dp]. cbn [c_sys] in Dp.
  destruct (remove_dl_list_ok s a p ps Hp) as (s1 & ps1 & E & R & Eh & Ec & Ea & _ & Hdl & Hnd & Hps); try done.
  { apply Dp. split; [by rewrite Hp|set_solver]. }
  { apply Hi. }
  { intros b Hb. apply Dp in Hb as [[q Hq] _]. by apply (l_good _ _ (i_layout _ _ _ _ _ _ Hi) b q). }
  rewrite E. cbn [mbind option_bind].
  assert (H1 : inv {[a]} (Config s1 ts e o) owner cs fl ps1).
  { eapply (inv_relink _ _ _ _ _ _ _ _ _ _ _ _ Hi); try done.
    - intros b. rewrite Hps, Dp. set_solver.
    - intros b q Hq _. apply (i_min _ _ _ _ _ _ Hi b); [done|set_solver]. }
  destruct (relinked_fwd _ _ _ _ R Hp) as (p1 & Hp1 & Hs).
  pose proof (i_pool _ _ _ _ _ _ H1 _ _ Hp1) as P. cbn [c_sys] in P. unfold free_chunks. rewrite Hp1. cbn [mbind option_bind].
  destruct (free_chunks_from_ok p1 (cs a) (size (s_headers s1)) (chunks p1) s1) as (s2 & E2 & Ep & Ecl & El & Ehd & Ea1 & Ea2).
  { apply P. } { apply P. } { by eapply chunk_chain_length; apply P. }
  rewrite E2. cbn [mbind option_bind]. eapply result_intro, (inv_delete s1); try done.
  - cbn. rewrite Ep. apply delete_insert_eq.
  - intros x b Hx Hne. split.
    + apply Ehd. intros Hin. apply (pi_owner _ _ _ _ _ _ _ _ _ _ P) in Hin. congruence.
    + intros h Hh. apply Ea2. intros y h2 Hy Hh2 Ea12.
      destruct (l_owner _ _ (i_layout _ _ _ _ _ _ H1) _ _ Hx) as (_ & h' & z & _ & Hh' & Ha' & _).
      destruct (l_owner _ _ (i_layout _ _ _ _ _ _ H1) _ _ (pi_owner _ _ _ _ _ _ _ _ _ _ P _ Hy)) as (_ & h2' & z2 & _ & Hh2' & Ha2' & _).
      cbn in *. simplify_eq. rewrite Ea12 in Ha'. simplify_eq.
      apply Hne. pose proof (pi_owner _ _ _ _ _ _ _ _ _ _ P _ Hy). congruence.
Qed.
