(* ===== verification/PoolClaims.v ===== *)
(** The pools of locked memory: executions to evaluate, and the theorems. *)
From stdpp Require Import base functions gmap list.
From Stdlib Require Import ZArith Lia Znumtheory.
From S2P Require Import Prelude Errors LockedPool PoolInv PoolSteps PoolLife.

(** ** Executions *)

#[export] Instance page_divide_dec x : Decision (B_PAGE_SIZE | x) := Zdivide_dec B_PAGE_SIZE x.
#[export] Instance apart_dec r1 r2 : Decision (apart r1 r2).
Proof. unfold apart. apply _. Defined.
#[export] Instance area_result_dec area base size s : Decision (area_result area base size s).
Proof. unfold area_result. apply _. Defined.
#[export] Instance good_args_dec x : Decision (good_args x).
Proof. unfold good_args. apply _. Defined.
#[export] Instance idle_dec t c : Decision (idle t c).
Proof. unfold idle. apply _. Defined.
#[export] Instance unused_dec a c : Decision (unused a c).
Proof. unfold unused. apply _. Defined.

#[export] Instance allowed_dec x c : Decision (allowed x c).
Proof.
  destruct x; simpl; try apply _; unfold list_unlocked;
    try (destruct (c_threads c !! t) as [[b|b|b|b]|] eqn:E; try (right; intros ?; naive_solver); try (left; eauto; fail));
    try (destruct (c_enlarger c) as [|b|b y|b n|] eqn:E; try (right; intros ?; naive_solver); try (left; eauto; fail)).
  - destruct (s_pools (c_sys c) !! b) as [p|] eqn:Ep; [|right; intros ?; naive_solver].
    destruct (decide (0 < sem p)); [left; eauto|right; intros ?; naive_solver].
  - destruct (s_pools (c_sys c) !! b) as [p|] eqn:Ep; [|left; exists b; split; [done|]; intros; congruence].
    destruct (decide (area_result area base (chunk_bytes p (Z.min (enlarge_by p) (max_blocks p - num_blocks p))) (c_sys c)));
      [left; exists b; split; [done|]; intros; congruence|right; intros (b' & Eb & H); naive_solver].
Defined.

(** The state after allowed steps. *)
Fixpoint run (xs : list call) (c : config) : option config :=
  match xs with
  | [] => Some c
  | x :: r => if decide (allowed x c) then c ← step x c; run r c else None
  end.

Lemma pools_run_reachable xs c c' : reachable c -> run xs c = Some c' -> reachable c'.
Proof.
  revert c. induction xs as [|x r IH]; intros c Hc; simpl; [by intros [= <-]|].
  destruct (decide (allowed x c)) as [Ha|]; [|done]. destruct (step x c) as [c1|] eqn:E; [|done].
  intros H. eapply IH; [|done]. by eapply reach_step.
Qed.

(** Three blocks of 1024 bytes to a chunk, at most six, at least one free. *)
Definition sample_args : pool_args := Args 1024 0 0 4096 6 1 None true 7.

(** The pool is at 8; threads 1 and 2 get a block, thread 3 has to wait. *)
Definition sample_wait : list call :=
  [CreatePool sample_args 8 0 true 1 4096; AllocEnter 1 8; AllocEnter 2 8; AllocEnter 3 8].

(** The background thread adds a chunk, and thread 3 goes on. *)
Definition sample_grant : list call :=
  sample_wait ++ [AllocSignal 3; EnlargerAcquire; EnlargerLook 2 12288; EnlargerAdd; EnlargerRelease; AllocAcquire 3].

(** A pool with one block. *)
Definition single_args : pool_args := Args 1024 0 0 4096 1 1 None true 7.
Definition sample_single : list call := [CreatePool single_args 8 0 true 1 4096; AllocEnter 1 8; AllocSignal 1].

(** ** Reachable states are sound *)

Lemma pools_init_sound : sound init.
Proof.
  exists ∅, (fun _ => []), (fun _ => []), []. unfold init, init_locked_pool.
  split; cbn [c_sys c_threads c_enlarger c_out s_pools sLockedPools]; try (intros *; rewrite ?lookup_empty; done).
  split; [constructor|]. intros a. rewrite lookup_empty. split; [by intros ?%elem_of_nil|].
  intros [[p Hp] _]. done.
Qed.

Lemma pools_step_sound x c : sound c -> allowed x c -> result_ok (step x c).
Proof.
  destruct x; intros Hs Ha.
  - by apply step_alloc_enter. - by apply step_alloc_signal. - by apply step_alloc_acquire.
  - by apply step_alloc_take. - by apply step_free_enter. - by apply step_free_release.
  - by apply step_enlarger_acquire. - by apply step_enlarger_look. - by apply step_enlarger_add.
  - by apply step_enlarger_release. - by apply step_create. - by apply step_destroy. - by apply step_uninit.
Qed.

Lemma pools_reachable_sound c : reachable c -> sound c.
Proof.
  induction 1 as [|x c c' _ IH Ha E]; [apply pools_init_sound|].
  destruct (pools_step_sound x c IH Ha) as (c2 & E2 & H2). congruence.
Qed.

(** ** The theorems *)

(** C5: Whatever threads, the background thread and the owners of pools do, in
    any order, a step that is allowed has a result: [pool_alloc] never takes a
    block from an empty free list, not even behind its semaphore, [pool_free],
    [enlarge_pool], [create_pool] and [destroy_pool] follow valid pointers. *)
Theorem pool_steps_never_fault c x : reachable c -> allowed x c -> exists c', step x c = Some c'.
Proof. intros Hr Ha. destruct (pools_step_sound x c (pools_reachable_sound c Hr) Ha) as (c' & E & _). eauto. Qed.

Lemma pool_steps_never_fault_witness :
  match run sample_grant init with
  | Some c => allowed (AllocTake 3) c /\ exists c', step (AllocTake 3) c = Some c'
  | None => False
  end.
Proof.
  destruct (run sample_grant init) as [c|] eqn:E; [|by vm_compute in E].
  assert (Ha : allowed (AllocTake 3) c).
  { vm_compute in E. injection E as <-. apply (bool_decide_unpack _). vm_compute. exact I. }
  split; [exact Ha|]. apply (pool_steps_never_fault c (AllocTake 3)); [|exact Ha].
  by eapply pools_run_reachable; [apply reach_init|].
Defined.

(** A block of [p] with its alignment, inside its area. *)
Definition well_placed s p (b : Z) : Prop :=
  (alignment p + 1 | b) /\
  exists i r, s_areas s !! i = Some r /\ ar_base r + sizeof_chunk_header <= b /\ b + block_size p <= ar_base r + ar_size r.

Lemma block_well_placed s owner a p b :
  layout s owner -> s_pools s !! a = Some p -> block_of s owner a p b -> well_placed s p b.
Proof.
  intros L Hp (x & h & Ho & Hh & (i & Hi & ->)%elem_of_chunk_blocks).
  destruct (l_owner _ _ L _ _ Ho) as (q & h' & z & Hq & Hh' & Ha & Hn & Hf & Hx & Hpage). simplify_eq.
  destruct (l_good _ _ L _ _ Hp) as [[(k & Hk & Ek & D1 & D2) Hb Hs _ _ _ _] _]. split.
  - rewrite Ek. replace (2 ^ k - 1 + 1) with (2 ^ k) by ring.
    apply Z.divide_add_r; [apply Z.divide_add_r|by apply Z.divide_mul_r]; [|done].
    etransitivity; [|exact Hpage]. unfold B_PAGE_SIZE. exists (2 ^ (12 - k)). rewrite <- Z.pow_add_r by lia.
    by replace (12 - k + k) with 12 by ring.
  - exists (ch_area h), (Area x z). cbn. split; [done|]. unfold sizeof_chunk_header in *. nia.
Qed.

(** C6: The blocks of a pool are those of its chunks, at most [max_blocks] and
    as many as [num_blocks] says; each is either on the free list, once, or in
    use, and lies at a multiple of its alignment inside the area of its chunk,
    behind the header. *)
Theorem pool_blocks_conserved c a p :
  reachable c -> s_pools (c_sys c) !! a = Some p ->
  exists cs fl,
    chunk_chain (s_headers (c_sys c)) (chunks p) cs /\
    free_chain (s_cells (c_sys c)) (next_ofs p) (free_list p) fl /\ NoDup fl /\
    (forall b, b ∈ pool_blocks (s_headers (c_sys c)) p cs <-> b ∈ fl \/ c_out c !! b = Some a) /\
    (forall b, b ∈ fl -> c_out c !! b <> Some a) /\
    num_blocks p = Z.of_nat (length (pool_blocks (s_headers (c_sys c)) p cs)) /\ num_blocks p <= max_blocks p /\
    forall b, b ∈ pool_blocks (s_headers (c_sys c)) p cs -> well_placed (c_sys c) p b.
Proof.
  intros (owner & cs & fl & ps & Hi)%pools_reachable_sound Hp. pose proof (i_pool _ _ _ _ _ _ Hi _ _ Hp) as P.
  pose proof (pending_nonneg Hi a). exists (cs a), (fl a). destruct P as [] eqn:EP.
  split_and!; try done; [lia|]. intros b Hb. eapply block_well_placed; [apply Hi|done|]. by eapply pool_inv_block.
Qed.

Lemma pool_blocks_conserved_witness :
  match run sample_grant init with
  | Some c => exists p, s_pools (c_sys c) !! 8 = Some p /\ exists cs, chunk_chain (s_headers (c_sys c)) (chunks p) cs
  | None => False
  end.
Proof.
  destruct (run sample_grant init) as [c|] eqn:E; [|by vm_compute in E].
  destruct (s_pools (c_sys c) !! 8) as [p|] eqn:Ep; [|vm_compute in E; injection E as <-; by vm_compute in Ep].
  exists p. split; [done|].
  destruct (pool_blocks_conserved c 8 p) as (cs & fl & H & _); [by eapply pools_run_reachable; [apply reach_init|]|done|].
  by exists cs.
Defined.

(** Two different blocks in use, from whatever pools, do not overlap. *)
Theorem used_blocks_apart c b1 b2 a1 a2 p1 p2 :
  reachable c -> c_out c !! b1 = Some a1 -> c_out c !! b2 = Some a2 -> b1 <> b2 ->
  s_pools (c_sys c) !! a1 = Some p1 -> s_pools (c_sys c) !! a2 = Some p2 ->
  b1 + block_size p1 <= b2 \/ b2 + block_size p2 <= b1.
Proof.
  intros (owner & cs & fl & ps & Hi)%pools_reachable_sound O1 O2 Hne P1 P2.
  pose proof (i_pool _ _ _ _ _ _ Hi _ _ P1) as I1. pose proof (i_pool _ _ _ _ _ _ Hi _ _ P2) as I2.
  destruct (pool_inv_block _ _ _ _ _ _ _ _ _ _ b1 I1) as (x1 & h1 & W1 & H1 & B1).
  { apply (pi_part _ _ _ _ _ _ _ _ _ _ I1). by right. }
  destruct (pool_inv_block _ _ _ _ _ _ _ _ _ _ b2 I2) as (x2 & h2 & W2 & H2 & B2).
  { apply (pi_part _ _ _ _ _ _ _ _ _ _ I2). by right. }
  eapply (blocks_apart _ _ _ _ _ _ _ _ _ _ _ _ (i_layout _ _ _ _ _ _ Hi) W1 W2 P1 P2 H1 H2 B1 B2). by right.
Qed.

Lemma used_blocks_apart_witness :
  match run sample_wait init with
  | Some c => exists p, s_pools (c_sys c) !! 8 = Some p /\ 4108 + block_size p <= 5132
  | None => False
  end.
Proof.
  destruct (run sample_wait init) as [c|] eqn:E; [|by vm_compute in E].
  assert (Hr : reachable c) by (eapply pools_run_reachable; [apply reach_init|exact E]).
  vm_compute in E. injection E as <-. eexists. split; [vm_compute; reflexivity|].
  destruct (used_blocks_apart _ 4108 5132 8 8 _ _ Hr eq_refl eq_refl ltac:(done) eq_refl eq_refl) as [H|H]; exact H || by cbn in H.
Defined.

(** C16: [free_blocks] is the number of free blocks less the threads inside
    [pool_alloc] that wait; of these, [num_waiting] have not been let go; for
    each one that has, there is a block.  A thread is kept waiting only while at
    most one block is free that is for no one else. *)
Theorem pool_waiters_served c a p :
  reachable c -> s_pools (c_sys c) !! a = Some p ->
  exists fl, free_chain (s_cells (c_sys c)) (next_ofs p) (free_list p) fl /\
    free_blocks p = Z.of_nat (length fl) - waiters c a /\
    num_waiting p = waiters c a - (sem p + grants c a) /\ 0 <= num_waiting p /\
    sem p + grants c a <= Z.of_nat (length fl) /\
    (0 < num_waiting p -> Z.of_nat (length fl) <= sem p + grants c a + 1).
Proof.
  intros (owner & cs & fl & ps & Hi)%pools_reachable_sound Hp. pose proof (i_pool _ _ _ _ _ _ Hi _ _ Hp) as [].
  exists (fl a). by split_and!.
Qed.

Lemma pool_waiters_served_witness :
  match run sample_wait init with
  | Some c => exists p, s_pools (c_sys c) !! 8 = Some p /\ num_waiting p = 1 /\
                exists fl, free_chain (s_cells (c_sys c)) (next_ofs p) (free_list p) fl /\ (length fl <= 1)%nat
  | None => False
  end.
Proof.
  destruct (run sample_wait init) as [c|] eqn:E; [|by vm_compute in E].
  assert (Hr : reachable c) by (eapply pools_run_reachable; [apply reach_init|exact E]).
  vm_compute in E. injection E as <-. eexists. split; [vm_compute; reflexivity|]. split; [reflexivity|].
  destruct (pool_waiters_served _ 8 _ Hr eq_refl) as (fl & Hf & _ & _ & _ & _ & Hi). exists fl. split; [exact Hf|].
  specialize (Hi ltac:(reflexivity)). vm_compute (grants _ _) in Hi. cbn in Hi. lia.
Defined.

(** C39: A pool that was created with a minimum of free blocks never hands out
    its last block, and a pool of one block none at all. *)
Theorem last_block_stays c a p :
  reachable c -> s_pools (c_sys c) !! a = Some p -> 0 < min_free_blocks p ->
  free_list p <> 0 /\ (max_blocks p = 1 -> forall b, c_out c !! b <> Some a).
Proof.
  intros (owner & cs & fl & ps & Hi)%pools_reachable_sound Hp Hm. pose proof (i_pool _ _ _ _ _ _ Hi _ _ Hp) as P.
  pose proof (i_min _ _ _ _ _ _ Hi a p Hp ltac:(set_solver) Hm) as Hc.
  pose proof (pi_keep _ _ _ _ _ _ _ _ _ _ P Hm Hc) as Hk. pose proof (pi_sem _ _ _ _ _ _ _ _ _ _ P).
  pose proof (grants_nonneg Hi a). pose proof (pending_nonneg Hi a). pose proof (pi_max _ _ _ _ _ _ _ _ _ _ P) as Hmax.
  destruct (free_chain_cons _ _ _ _ (pi_free _ _ _ _ _ _ _ _ _ _ P)) as (r & nxt & E & _); [lia|].
  pose proof (head_in_blocks _ _ _ _ _ _ _ _ _ Hi Hp E) as Hin. split.
  - destruct (pool_inv_block _ _ _ _ _ _ _ _ _ _ _ P Hin) as (x & h & Ho & Hh & Hb).
    pose proof (block_positive _ _ _ _ _ _ _ (i_layout _ _ _ _ _ _ Hi) Ho Hp Hh Hb). lia.
  - intros E1 b Hb. pose proof (pi_num _ _ _ _ _ _ _ _ _ _ P) as Hn.
    assert (Hb' : b ∈ pool_blocks (s_headers (c_sys c)) p (cs a)) by (apply (pi_part _ _ _ _ _ _ _ _ _ _ P); by right).
    destruct (pool_blocks _ _ _) as [|y [|z l]] eqn:Ey; cbn in Hn; [by apply elem_of_nil in Hb'| |lia].
    apply list_elem_of_singleton in Hb', Hin. subst. apply (pi_excl _ _ _ _ _ _ _ _ _ _ P (free_list p)); [|done].
    rewrite E. by left.
Qed.

Lemma last_block_stays_witness :
  match run sample_single init with
  | Some c => exists p, s_pools (c_sys c) !! 8 = Some p /\ free_list p <> 0 /\ forall b, c_out c !! b <> Some 8
  | None => False
  end.
Proof.
  destruct (run sample_single init) as [c|] eqn:E; [|by vm_compute in E].
  assert (Hr : reachable c) by (eapply pools_run_reachable; [apply reach_init|exact E]).
  vm_compute in E. injection E as <-. eexists. split; [vm_compute; reflexivity|].
  destruct (last_block_stays _ 8 _ Hr eq_refl ltac:(reflexivity)) as [H1 H2]. split; [exact H1|]. by apply H2.
Defined.

(** The calls of the remove hook for [n] blocks, from [block] down. *)
Fixpoint removals p (block : Z) (n : nat) : list hook_call :=
  match n with O => [] | S m => Removed block (hook_arg p) :: removals p (block - block_size p) m end.

Lemma elem_of_removals p block n b :
  Removed b (hook_arg p) ∈ removals p block n <-> b ∈ below (block_size p) block n.
Proof.
  revert block. induction n as [|n IH]; intros block; cbn [removals below].
  - split; by intros ?%elem_of_nil.
  - rewrite elem_of_cons, elem_of_app, list_elem_of_singleton, IH. split; [intros [[= ->]|]; tauto|].
    intros [|E]; [tauto|left; congruence].
Qed.

Lemma remove_blocks_hooks p n : forall b s, remove_hook p = true ->
  s_hooks (remove_blocks p n b s) = s_hooks s ++ removals p b n /\ s_headers (remove_blocks p n b s) = s_headers s.
Proof.
  induction n as [|n IH]; intros b s H; cbn [remove_blocks removals]; [by rewrite app_nil_r|].
  destruct (IH (b - block_size p) (call_remove_hook p b s) H) as [-> ->]. unfold call_remove_hook. rewrite H.
  split; [|done]. cbn. by rewrite <- app_assoc.
Qed.

Definition chunk_removals (headers : gmap Z chunk_header) p (cs : list Z) : list hook_call :=
  x ← cs; match headers !! x with
          | Some h => removals p (last_block p x (ch_num_blocks h)) (Z.to_nat (num_blocks p))
          | None => []
          end.

Lemma free_chunks_from_hooks p cs : remove_hook p = true -> forall fuel head s s',
  chunk_chain (s_headers s) head cs -> NoDup cs -> free_chunks_from p fuel head s = Some s' ->
  s_hooks s' = s_hooks s ++ chunk_removals (s_headers s) p cs.
Proof.
  intros Hr. induction cs as [|x r IH]; intros fuel head s s'; cbn [chunk_chain].
  - intros -> _. destruct fuel; intros [= <-]; by rewrite app_nil_r.
  - intros (-> & Hx & h & Hh & Hc) [Hni Hnd]%NoDup_cons. destruct fuel as [|fuel]; cbn [free_chunks_from];
      rewrite (proj2 (Z.eqb_neq x 0)) by done; [done|]. rewrite Hh. cbn [mbind option_bind].
    destruct (remove_blocks_hooks p (Z.to_nat (num_blocks p)) (last_block p x (ch_num_blocks h)) s Hr) as [E1 E2].
    assert (Hfr : forall y, y ∈ r -> delete x (s_headers s) !! y = s_headers s !! y).
    { intros y Hy. apply lookup_delete_ne. by intros ->. }
    intros Hs. apply IH in Hs; [|cbn; rewrite E2; by eapply chunk_chain_frame|done].
    rewrite Hs. cbn. rewrite E1, E2, Hh, <- app_assoc. do 2 f_equal.
    clear -Hfr. unfold chunk_removals. induction r as [|y r IHr]; [done|]. cbn.
    rewrite Hfr by (by left). f_equal. apply IHr. intros z Hz. apply Hfr. by right.
Qed.

Lemma chunk_removals_links headers p x y cs :
  chunk_removals headers (set_next x (set_prev y p)) cs = chunk_removals headers p cs.
Proof.
  assert (E : forall n b, removals (set_next x (set_prev y p)) b n = removals p b n).
  { intros n. induction n as [|n IH]; intros b; [done|]. cbn. by rewrite IH. }
  apply list_bind_ext; [|done]. intros z. by destruct (headers !! z).
Qed.

Lemma elem_of_chunk_removals headers p cs x h b :
  x ∈ cs -> headers !! x = Some h -> b ∈ below (block_size p) (last_block p x (ch_num_blocks h)) (Z.to_nat (num_blocks p)) ->
  Removed b (hook_arg p) ∈ chunk_removals headers p cs.
Proof.
  intros Hx Hh Hb. apply list_elem_of_bind. exists x. rewrite Hh. split; [|done]. by apply elem_of_removals.
Qed.

Lemma below_mono bs b n m x : (n <= m)%nat -> x ∈ below bs b n -> x ∈ below bs b m.
Proof. intros H. rewrite !elem_of_below. intros (i & Hi & ->). exists i. split; [lia|done]. Qed.

(** The blocks of one chunk among those of the pool. *)
Lemma chunk_share headers p cs x h :
  x ∈ cs -> headers !! x = Some h -> (Z.to_nat (ch_num_blocks h) <= length (pool_blocks headers p cs))%nat.
Proof.
  intros (l1 & l2 & ->)%list_elem_of_split Hh. unfold pool_blocks. rewrite bind_app, length_app. cbn.
  rewrite Hh, length_app. unfold chunk_blocks. rewrite length_below. lia.
Qed.

Lemma chunk_share_strict headers p cs x h :
  x ∈ cs -> headers !! x = Some h -> length cs <> 1%nat ->
  (forall y, y ∈ cs -> exists h2, headers !! y = Some h2 /\ 0 < ch_num_blocks h2) ->
  ch_num_blocks h < Z.of_nat (length (pool_blocks headers p cs)).
Proof.
  intros (l1 & l2 & ->)%list_elem_of_split Hh Hone Hall. unfold pool_blocks. rewrite bind_app, length_app. cbn.
  rewrite Hh, length_app. unfold chunk_blocks at 2. rewrite length_below.
  assert (Hy : exists y, y ∈ l1 ++ l2).
  { destruct (l1 ++ l2) as [|y r] eqn:E; [|exists y; by left]. apply app_eq_nil in E as [-> ->]. done. }
  destruct Hy as [y Hy]. destruct (Hall y) as (h2 & Hh2 & Hn2); [set_solver|].
  pose proof (Hall x ltac:(set_solver)) as (h' & Hh' & Hn). simplify_eq.
  apply elem_of_app in Hy as [Hy|Hy]; pose proof (chunk_share headers p _ y h2 Hy Hh2) as Hs; unfold pool_blocks in Hs; lia.
Qed.

(** [destroy_pool] calls the remove hook for each block of the pool, but it
    makes [num_blocks] calls for every chunk: once there is a second chunk, it
    calls the hook with the place below the first block of a chunk too. *)
Theorem destroy_pool_hooks c a p c' :
  reachable c -> allowed (DestroyPool a) c -> s_pools (c_sys c) !! a = Some p -> remove_hook p = true ->
  step (DestroyPool a) c = Some c' ->
  exists calls cs, s_hooks (c_sys c') = s_hooks (c_sys c) ++ calls /\
    chunk_chain (s_headers (c_sys c)) (chunks p) cs /\
    (forall b, b ∈ pool_blocks (s_headers (c_sys c)) p cs -> Removed b (hook_arg p) ∈ calls) /\
    (forall x, x ∈ cs -> length cs <> 1%nat -> Removed (x + header_size p - block_size p) (hook_arg p) ∈ calls).
Proof.
  intros Hr (Hu & _ & Hun) Hp Hrm Hstep. destruct (pools_reachable_sound c Hr) as (owner & cs & fl & ps & Hi).
  pose proof (i_pool _ _ _ _ _ _ Hi _ _ Hp) as P. destruct (i_ps _ _ _ _ _ _ Hi) as [Dn Dp].
  destruct (remove_dl_list_ok (c_sys c) a p ps Hp) as (s1 & ps1 & E & R & Eh & _ & _ & Ehk & _).
  { apply Dp. split; [by rewrite Hp|set_solver]. }
  { done. } { apply Hi. }
  { intros b Hb. apply Dp in Hb as [[q Hq] _]. by apply (l_good _ _ (i_layout _ _ _ _ _ _ Hi) b q). }
  destruct (relinked_fwd _ _ _ _ R Hp) as (p1 & Hp1 & Hs). cbn -[destroy_pool] in Hstep. unfold destroy_pool in Hstep.
  rewrite E in Hstep. cbn [mbind option_bind] in Hstep. unfold free_chunks in Hstep. rewrite Hp1 in Hstep.
  cbn [mbind option_bind] in Hstep. destruct (free_chunks_from _ _ _ _) as [s2|] eqn:E2; [|done].
  cbn [mbind option_bind] in Hstep. injection Hstep as <-.
  exists (chunk_removals (s_headers (c_sys c)) p (cs a)), (cs a).
  assert (Ec : chunk_removals (s_headers s1) p1 (cs a) = chunk_removals (s_headers (c_sys c)) p (cs a)).
  { rewrite Eh, Hs. apply chunk_removals_links. }
  split; [|split; [apply P|]].
  - cbn. rewrite <- Ehk, <- Ec. eapply free_chunks_from_hooks; [by rewrite Hs| |apply P|exact E2].
    rewrite Eh, Hs. apply P.
  - split.
    + intros b (x & h & Hx & Hh & Hb)%elem_of_pool_blocks.
      eapply elem_of_chunk_removals; [done..|]. eapply below_mono; [|exact Hb].
      pose proof (chunk_share _ p _ _ _ Hx Hh) as Hlen. rewrite (pi_num _ _ _ _ _ _ _ _ _ _ P). lia.
    + intros x Hx Hone. pose proof (pi_owner _ _ _ _ _ _ _ _ _ _ P x Hx) as Ho.
      destruct (l_owner _ _ (i_layout _ _ _ _ _ _ Hi) _ _ Ho) as (_ & h & _ & _ & Hh & _ & Hn & _).
      eapply elem_of_chunk_removals; [done..|]. apply elem_of_below. exists (ch_num_blocks h). split; [|unfold last_block; ring].
      rewrite (pi_num _ _ _ _ _ _ _ _ _ _ P).
      enough (ch_num_blocks h < Z.of_nat (length (pool_blocks (s_headers (c_sys c)) p (cs a)))) by lia.
      apply (chunk_share_strict _ p _ _ _ Hx Hh Hone). intros y Hy.
      pose proof (pi_owner _ _ _ _ _ _ _ _ _ _ P y Hy) as Hoy.
      destruct (l_owner _ _ (i_layout _ _ _ _ _ _ Hi) _ _ Hoy) as (_ & h2 & _ & _ & Hh2 & _ & Hn2 & _). by exists h2.
Qed.

(** Two chunks, no block in use. *)
Definition sample_idle : list call :=
  sample_grant ++ [AllocTake 3; EnlargerLook 0 0; FreeEnter 1 8 4108; FreeEnter 2 8 5132; FreeEnter 3 8 12300].

Lemma destroy_pool_hooks_witness :
  match run sample_idle init with
  | Some c => exists c' calls, step (DestroyPool 8) c = Some c' /\ s_hooks (c_sys c') = s_hooks (c_sys c) ++ calls /\
                exists cs, chunk_chain (s_headers (c_sys c)) 12288 cs
  | None => False
  end.
Proof.
  destruct (run sample_idle init) as [c|] eqn:E; [|by vm_compute in E].
  assert (Hr : reachable c) by (eapply pools_run_reachable; [apply reach_init|exact E]).
  assert (Ha : allowed (DestroyPool 8) c).
  { vm_compute in E. injection E as <-. apply (bool_decide_unpack _). vm_compute. exact I. }
  assert (Hp : exists p, s_pools (c_sys c) !! 8 = Some p /\ remove_hook p = true /\ chunks p = 12288).
  { vm_compute in E. injection E as <-. eexists. split; [vm_compute; reflexivity|]. split; reflexivity. }
  destruct Hp as (p & Hp & Hk & Hc). destruct (step (DestroyPool 8) c) as [c'|] eqn:Es.
  - destruct (destroy_pool_hooks c 8 p c' Hr Ha Hp Hk Es) as (calls & cs & H1 & H2 & _).
    exists c', calls. split; [reflexivity|]. split; [exact H1|]. exists cs. by rewrite <- Hc.
  - vm_compute in E. injection E as <-. by vm_compute in Es.
Defined.
