(* ===== verification/Atomizer.v ===== *)
(** The atomizer (generic/atomizer/atomizer.c): named tables that give a string
    one token, the address it is stored at. *)
From stdpp Require Import base gmap list.
From Stdlib Require Import ZArith Lia.
From S2P Require Import Prelude Errors.

(** ** The data *)

(** What a [next] field has: a pointer that was stored there, or, where nothing has
    been stored, the word that [malloc] left there.  A word that is 0 is the null
    pointer; [Unset] is any other one. *)
Inductive link := Link (p : Z) | Unset.

Definition unset_word (word : Z) : link := if word =? 0 then Link 0 else Unset.

Definition is_null (l : link) : bool := match l with Link p => p =? 0 | Unset => false end.

(** The head of a block of memory for strings. *)
Record block_list := Block { bl_next : link; bl_free_space : Z; bl_free_bytes : Z }.

(** [vector] has [slots] entries, of which the first [count] have been stored. *)
Record atomizer_data := Atomizer { blocks : Z; count : Z; slots : Z; vector : list (option Z) }.

Record atomizer_data_list := Node { name : list Z; the_atomizer : Z; adl_next : Z }.

(** The memory of the module: the bytes of the strings, and the structures by
    address.  The head of the list is [atomizer_list]. *)
Record sys := Sys {
  s_bytes : gmap Z Z;
  s_blocks : gmap Z block_list;
  s_atoms : gmap Z atomizer_data;
  s_nodes : gmap Z atomizer_data_list;
  atomizer_list : Z
}.

Definition with_bytes f s := Sys (f (s_bytes s)) (s_blocks s) (s_atoms s) (s_nodes s) (atomizer_list s).
Definition with_blocks f s := Sys (s_bytes s) (f (s_blocks s)) (s_atoms s) (s_nodes s) (atomizer_list s).
Definition with_atoms f s := Sys (s_bytes s) (s_blocks s) (f (s_atoms s)) (s_nodes s) (atomizer_list s).
Definition with_nodes f s := Sys (s_bytes s) (s_blocks s) (s_atoms s) (f (s_nodes s)) (atomizer_list s).
Definition set_atomizer_list h s := Sys (s_bytes s) (s_blocks s) (s_atoms s) (s_nodes s) h.

(** What [malloc] gives: an address (0 if there is no memory), and the word that
    was left where the [next] of a block will be. *)
Record allocation := Alloc { al_address : Z; al_next : Z }.

Definition MIN_BLOCK_SIZE : Z := B_PAGE_SIZE.
Definition sizeof_block_list : Z := 12.
Definition sizeof_pointer : Z := 4.
Definition B_OS_NAME_LENGTH : nat := 32.

(** ** Strings *)

(** A string is the list of its bytes before the NUL. *)
Fixpoint strcmp (a b : list Z) : Z :=
  match a, b with
  | [], [] => 0
  | [], y :: _ => - y
  | x :: _, [] => x
  | x :: a, y :: b => if x =? y then strcmp a b else x - y
  end.

(** Reading from memory up to the NUL, at most [n] bytes. *)
Fixpoint read_bytes (n : nat) (bytes : gmap Z Z) (p : Z) : option (list Z) :=
  match n with
  | O => None
  | S m => x ← bytes !! p; if x =? 0 then Some [] else w ← read_bytes m bytes (p + 1); Some (x :: w)
  end.

(** There are no more bytes than the memory has. *)
Definition read_string (bytes : gmap Z Z) (p : Z) : option (list Z) := read_bytes (size bytes) bytes p.

(** [memcpy] of a string with its NUL. *)
Fixpoint write_string (p : Z) (w : list Z) (bytes : gmap Z Z) : gmap Z Z :=
  match w with
  | [] => <[p := 0]> bytes
  | x :: r => write_string (p + 1) r (<[p := x]> bytes)
  end.

(** ** Atomizers come and go *)

(** [make_atomizer]: the memory for the atomizer, the semaphore, the first block
    and the vector. *)
Definition make_atomizer (ad : Z) (sem_ok : bool) (block : Z) (vector_ok : bool) (s : sys) : Z * sys :=
  if ad =? 0 then (0, s)
  else if negb sem_ok then (0, s)
  else if block =? 0 then (0, s)
  else if negb vector_ok then (0, s)
  else
    let b := Block (Link 0) (block + sizeof_block_list) (MIN_BLOCK_SIZE - sizeof_block_list) in
    let slots := MIN_BLOCK_SIZE / sizeof_pointer in
    (ad, with_atoms <[ad := Atomizer block 0 slots (replicate (Z.to_nat slots) None)]>
           (with_blocks <[block := b]> s)).

(** Following an unset word has no result. *)
Fixpoint free_blocks (fuel : nat) (bl : link) (bs : gmap Z block_list) : option (gmap Z block_list) :=
  if is_null bl then Some bs
  else match fuel, bl with
       | S fuel, Link p => b ← bs !! p; free_blocks fuel (bl_next b) (delete p bs)
       | _, _ => None
       end.

Definition free_atomizer (ad : Z) (s : sys) : option sys :=
  a ← s_atoms s !! ad;
  bs ← free_blocks (size (s_blocks s)) (Link (blocks a)) (s_blocks s);
  Some (with_atoms (delete ad) (with_blocks (fun _ => bs) s)).

(** The walk along the list to the first node that passes the test; the result
    is the node (0 at the end) and the one before it. *)
Fixpoint find_node (test : atomizer_data_list -> bool) (fuel : nat) (adl last : Z)
    (nodes : gmap Z atomizer_data_list) : option (Z * Z) :=
  if adl =? 0 then Some (0, last)
  else match fuel with
       | O => None
       | S fuel =>
           n ← nodes !! adl;
           if test n then Some (adl, last) else find_node test fuel (adl_next n) adl nodes
       end.

Definition walk (test : atomizer_data_list -> bool) (s : sys) : option (Z * Z) :=
  find_node test (size (s_nodes s)) (atomizer_list s) 0 (s_nodes s).

Definition has_name (w : list Z) (n : atomizer_data_list) : bool := strcmp (name n) w =? 0.
Definition has_atomizer (at_ : Z) (n : atomizer_data_list) : bool := the_atomizer n =? at_.

(** "BeOS System Atomizer" *)
Definition system_atomizer_name : list Z :=
  [66; 101; 79; 83; 32; 83; 121; 115; 116; 101; 109; 32; 65; 116; 111; 109; 105; 122; 101; 114].

(** What [find_or_make_atomizer] gets from the kernel. *)
Record make_env := MakeEnv {
  env_node : Z;
  env_atomizer : Z;
  env_sem_ok : bool;
  env_block : Z;
  env_vector_ok : bool;
  env_strdup_ok : bool
}.

(** [None] is a null string. *)
Definition atomizer_name (string : option (list Z)) : list Z :=
  match string with
  | None | Some [] => system_atomizer_name
  | Some w => w
  end.

Definition find_or_make_atomizer (string : option (list Z)) (env : make_env) (s : sys) : option (Z * sys) :=
  let string := atomizer_name string in
  '(adl, last) ← walk (has_name string) s;
  if negb (adl =? 0) then n ← s_nodes s !! adl; Some (the_atomizer n, s)
  else
    let adl := env_node env in
    if adl =? 0 then Some (0, s)
    else
      let '(a, s) := make_atomizer (env_atomizer env) (env_sem_ok env) (env_block env) (env_vector_ok env) s in
      if a =? 0 then Some (0, s)
      else if negb (env_strdup_ok env) then s ← free_atomizer a s; Some (0, s)
      else
        s ← (if negb (last =? 0) then
               l ← s_nodes s !! last;
               Some (with_nodes <[last := Node (name l) (the_atomizer l) adl]> s)
             else Some (set_atomizer_list adl s));
        Some (a, with_nodes <[adl := Node string a 0]> s).

(** [init]: the module with the system atomizer, or an error. *)
Definition init (env : make_env) : option (Z * sys) :=
  '(a, s) ← find_or_make_atomizer None env (Sys ∅ ∅ ∅ ∅ 0);
  Some (if a =? 0 then B_ERROR else B_OK, s).

(** The loop of [uninit]; the nodes are not freed. *)
Fixpoint free_all (fuel : nat) (adl : Z) (s : sys) : option sys :=
  if adl =? 0 then Some s
  else match fuel with
       | O => None
       | S fuel => n ← s_nodes s !! adl; s ← free_atomizer (the_atomizer n) s; free_all fuel (adl_next n) s
       end.

Definition uninit (s : sys) : option sys := free_all (size (s_nodes s)) (atomizer_list s) s.

Definition delete_atomizer (at_ : Z) (s : sys) : option (Z * sys) :=
  '(adl, last) ← walk (has_atomizer at_) s;
  if adl =? 0 then Some (B_ERROR, s)
  else
    n ← s_nodes s !! adl;
    if strcmp (name n) system_atomizer_name =? 0 then Some (B_ERROR, s)
    else
      s ← free_atomizer (the_atomizer n) s;
      l ← s_nodes s !! last;
      Some (B_OK, with_nodes (delete adl) (with_nodes <[last := Node (name l) (the_atomizer l) (adl_next n)]> s)).

(** ** Interning *)

(** One round of the binary search; the state is [low], [high], [index] and
    [test].  Nothing is the result where an entry cannot be read. *)
Definition search_step (bytes : gmap Z Z) (v : list (option Z)) (string : list Z) (st : Z * Z * Z * Z)
    : loop (Z * Z * Z * Z) (option (Z * Z)) :=
  let '(low, high, index, test) := st in
  if negb (low <? high) then Brk (Some (index, test))
  else
    let index := u32 (low + high) / 2 in
    match p ← mjoin (v !! Z.to_nat index); read_string bytes p with
    | None => Brk None
    | Some w =>
        let test := strcmp string w in
        if test <? 0 then Cont (low, index, index, test)
        else if 0 <? test then Cont (u32 (index + 1), high, u32 (index + 1), test)
        else Brk (Some (index, test))
    end.

(** The index and the last comparison; each round but the last leaves fewer
    entries. *)
Definition search (bytes : gmap Z Z) (v : list (option Z)) (count : Z) (string : list Z) : option (Z * Z) :=
  match z_loop (search_step bytes v string) (count + 1) (0, count, 0, -1) with
  | Brk r => r
  | Cont _ => None
  end.

(** The first block with room for [len] bytes, or the last one.  Following an
    unset word has no result. *)
Fixpoint find_block (fuel : nat) (bs : gmap Z block_list) (bl len : Z) : option Z :=
  b ← bs !! bl;
  if is_null (bl_next b) then Some bl
  else if len <=? bl_free_bytes b then Some bl
  else match fuel, bl_next b with
       | S fuel, Link p => find_block fuel bs p len
       | _, _ => None
       end.

(** A block with room for [len] bytes, a new one if need be; 0 if there is no
    memory. *)
Definition room_for (first len : Z) (m : allocation) (s : sys) : option (Z * sys) :=
  bl ← find_block (size (s_blocks s)) (s_blocks s) first len;
  b ← s_blocks s !! bl;
  if len <=? bl_free_bytes b then Some (bl, s)
  else
    let block_size := page_round (u32 (sizeof_block_list + len)) in
    let n := al_address m in
    let s := with_blocks <[bl := Block (Link n) (bl_free_space b) (bl_free_bytes b)]> s in
    if n =? 0 then Some (0, s)
    else Some (n, with_blocks <[n := Block (unset_word (al_next m)) (n + sizeof_block_list) (block_size - sizeof_block_list)]> s).

(** The vector with [p] at [index], the [n] entries from there moved down. *)
Definition insert_at (index count : nat) (p : Z) (v : list (option Z)) : option (list (option Z)) :=
  if (count <? length v)%nat then
    Some (take index v ++ Some p :: take (count - index) (drop index v) ++ drop (S count) v)
  else None.

(** The part of [atomize] that stores a new string at [index]. *)
Definition intern (at_ index : Z) (string : list Z) (m : allocation) (realloc_ok : bool) (s : sys) : option (Z * sys) :=
  a ← s_atoms s !! at_;
  let len := u32 (Z.of_nat (length string) + 1) in
  '(bl, s) ← room_for (blocks a) len m s;
  if bl =? 0 then Some (0, s)
  else
    b ← s_blocks s !! bl;
    let result := bl_free_space b in
    let s := with_bytes (write_string result string) s in
    let s := with_blocks <[bl := Block (bl_next b) (result + len) (u32 (bl_free_bytes b - len))]> s in
    let grow := count a =? slots a in
    if grow && negb realloc_ok then Some (0, s)
    else
      let slots := if grow then slots a + MIN_BLOCK_SIZE / sizeof_pointer else slots a in
      let v := if grow then vector a ++ replicate (Z.to_nat (MIN_BLOCK_SIZE / sizeof_pointer)) None else vector a in
      v ← insert_at (Z.to_nat index) (Z.to_nat (count a)) result v;
      Some (result, with_atoms <[at_ := Atomizer (blocks a) (u32 (count a + 1)) slots v]> s).

(** The pointer -1 stands for the system atomizer. *)
Definition SYSTEM_ATOMIZER : Z := -1.

Definition atomize (at_ : Z) (string : option (list Z)) (create : bool) (m : allocation) (realloc_ok : bool) (s : sys)
    : option (Z * sys) :=
  match string with
  | None | Some [] => Some (0, s)
  | Some string =>
      at_ ← (if at_ =? SYSTEM_ATOMIZER then n ← s_nodes s !! atomizer_list s; Some (the_atomizer n) else Some at_);
      '(adl, _) ← walk (has_atomizer at_) s;
      if adl =? 0 then Some (0, s)
      else
        n ← s_nodes s !! adl;
        a ← s_atoms s !! the_atomizer n;
        '(index, test) ← search (s_bytes s) (vector a) (count a) string;
        if test =? 0 then p ← mjoin (vector a !! Z.to_nat index); Some (p, s)
        else if create then intern (the_atomizer n) index string m realloc_ok s
        else Some (0, s)
  end.

(** The token is the address of the string. *)
Definition string_for_token (at_ atom : Z) (s : sys) : option (list Z) := read_string (s_bytes s) atom.

(** ** Listing *)

(** What [get_next_atomizer_info] stores; the name is cut off. *)
Record atomizer_info := Info { info_atomizer : Z; info_name : list Z; info_count : Z }.

Definition NO_MORE : Z := -1.

(** The status, the new cookie and the information.  [info_ok] is false for a
    null pointer. *)
Definition get_next_atomizer_info (cookie : Z) (info_ok : bool) (s : sys) : option (Z * Z * option atomizer_info) :=
  if negb info_ok then Some (B_ERROR, cookie, None)
  else
    let atomizer := if cookie =? 0 then atomizer_list s else cookie in
    adl ← (fix go (fuel : nat) (adl : Z) :=
             if (adl =? 0) || (adl =? atomizer) then Some adl
             else match fuel with
                  | O => None
                  | S fuel => n ← s_nodes s !! adl; go fuel (adl_next n)
                  end) (size (s_nodes s)) (atomizer_list s);
    if adl =? 0 then Some (B_ERROR, cookie, None)
    else
      n ← s_nodes s !! atomizer;
      a ← s_atoms s !! the_atomizer n;
      Some (B_OK, if adl_next n =? 0 then NO_MORE else adl_next n,
            Some (Info (the_atomizer n) (take (B_OS_NAME_LENGTH - 1) (name n)) (count a))).

(** The atom and the new cookie. *)
Definition get_next_atom (at_ cookie : Z) (s : sys) : option (Z * Z) :=
  '(adl, _) ← walk (has_atomizer at_) s;
  if adl =? 0 then Some (0, cookie)
  else
    a ← s_atoms s !! at_;
    if cookie <? count a then p ← mjoin (vector a !! Z.to_nat cookie); Some (p, u32 (cookie + 1))
    else Some (0, cookie).
