(* ===== verification/AtomInv.v ===== *)
(** Strings in memory and their order, the binary search of the atomizer, its
    invariant, and interning a string. *)
From stdpp Require Import base functions gmap list.
From Stdlib Require Import ZArith Lia Sorted.
From S2P Require Import Prelude Errors Atomizer.

(** ** The order of strings *)

(** A string that can be in memory: its bytes are not 0. *)
Definition valid (w : list Z) : Prop := Forall (fun x => 0 < x < 256) w.

#[export] Instance valid_dec w : Decision (valid w).
Proof. unfold valid. apply _. Defined.

Definition slt (a b : list Z) : Prop := strcmp a b < 0.

Lemma strcmp_opp a b : strcmp b a = - strcmp a b.
Proof.
  revert b. induction a as [|x a IH]; intros [|y b]; cbn [strcmp]; [lia..|].
  rewrite Z.eqb_sym. destruct (x =? y); [apply IH|lia].
Qed.

Lemma strcmp_eq a b : valid a -> valid b -> (strcmp a b = 0 <-> a = b).
Proof.
  intros Ha. revert b. induction Ha as [|x a Hx Ha IH]; intros [|y b] Hb; cbn [strcmp].
  - done.
  - apply Forall_cons in Hb as [Hy _]. split; [lia|done].
  - split; [lia|done].
  - apply Forall_cons in Hb as [Hy Hb]. destruct (Z.eqb_spec x y) as [->|Hne].
    + rewrite IH by done. naive_solver.
    + split; [lia|]. intros [= ]. lia.
Qed.

Lemma slt_trans a b c : valid a -> valid b -> valid c -> slt a b -> slt b c -> slt a c.
Proof.
  unfold slt. intros Ha. revert b c. induction Ha as [|x a Hx Ha IH]; intros [|y b] [|z c] Hb Hc; cbn [strcmp]; try lia.
  - apply Forall_cons in Hb as [Hy _]. apply Forall_cons in Hc as [Hz _]. lia.
  - apply Forall_cons in Hb as [Hy Hb]. lia.
  - apply Forall_cons in Hb as [Hy Hb]. apply Forall_cons in Hc as [Hz Hc].
    destruct (Z.eqb_spec x y) as [->|Hxy].
    + destruct (Z.eqb_spec y z) as [->|]; [apply IH; done|lia].
    + destruct (Z.eqb_spec y z) as [->|Hyz].
      * rewrite (proj2 (Z.eqb_neq x z)) by done. lia.
      * intros H1 H2. rewrite (proj2 (Z.eqb_neq x z)) by lia. lia.
Qed.

Lemma slt_irrefl a : valid a -> ~ slt a a.
Proof. unfold slt. intros H. rewrite (proj2 (strcmp_eq a a H H) eq_refl). lia. Qed.

(** ** Strings in memory *)

Definition cstring (bytes : gmap Z Z) (p : Z) (w : list Z) : Prop :=
  forall i x, (w ++ [0]) !! i = Some x -> bytes !! (p + Z.of_nat i) = Some x.

Lemma cstring_cons bytes p x w : cstring bytes p (x :: w) <-> bytes !! p = Some x /\ cstring bytes (p + 1) w.
Proof.
  split.
  - intros H. split; [rewrite <- (Z.add_0_r p); by apply (H O)|].
    intros i y Hi. replace (p + 1 + Z.of_nat i) with (p + Z.of_nat (S i)) by lia. by apply H.
  - intros [H0 H] [|i] y Hi; [injection Hi as <-; by rewrite Z.add_0_r|].
    replace (p + Z.of_nat (S i)) with (p + 1 + Z.of_nat i) by lia. by apply H.
Qed.

Lemma cstring_nil bytes p : cstring bytes p [] <-> bytes !! p = Some 0.
Proof.
  split; [intros H; rewrite <- (Z.add_0_r p); by apply (H O)|].
  intros H [|i] y Hi; [injection Hi as <-; by rewrite Z.add_0_r|by destruct i].
Qed.

Lemma read_bytes_ok bytes w : forall p n, cstring bytes p w -> valid w -> (length w < n)%nat -> read_bytes n bytes p = Some w.
Proof.
  induction w as [|x w IH]; intros p n Hc Hv Hn; destruct n as [|n]; cbn [length] in Hn; try lia; cbn [read_bytes].
  - apply cstring_nil in Hc. by rewrite Hc.
  - apply cstring_cons in Hc as [Hx Hc]. apply Forall_cons in Hv as [Hx0 Hv]. rewrite Hx. cbn [mbind option_bind].
    rewrite (proj2 (Z.eqb_neq x 0)) by lia. rewrite (IH _ n Hc Hv) by lia. done.
Qed.

(** The memory has a byte for each byte of the string. *)
Lemma cstring_size bytes p w : cstring bytes p w -> (length w < size bytes)%nat.
Proof.
  intros H. pose proof (subseteq_size (list_to_set (seqZ p (Z.of_nat (S (length w)))) : gset Z) (dom bytes)) as Hs.
  rewrite size_list_to_set, length_seqZ, size_dom in Hs by apply NoDup_seqZ. enough (S (length w) <= size bytes)%nat by lia.
  etransitivity; [|apply Hs]; [lia|]. intros k [Hk1 Hk2]%elem_of_list_to_set%elem_of_seqZ. apply elem_of_dom.
  destruct ((w ++ [0]) !! Z.to_nat (k - p)) as [x|] eqn:E.
  - apply H in E. replace (p + Z.of_nat (Z.to_nat (k - p))) with k in E by lia. by rewrite E.
  - apply lookup_ge_None in E. rewrite length_app in E. cbn in E. lia.
Qed.

Lemma read_string_ok bytes p w : cstring bytes p w -> valid w -> read_string bytes p = Some w.
Proof. intros H Hv. apply read_bytes_ok; [done|done|by eapply cstring_size]. Qed.

Lemma cstring_frame bytes bytes' p w :
  (forall k, p <= k <= p + Z.of_nat (length w) -> bytes' !! k = bytes !! k) -> cstring bytes p w -> cstring bytes' p w.
Proof.
  intros H Hc i x Hi. rewrite H; [by apply Hc|]. apply lookup_lt_Some in Hi. rewrite length_app in Hi. cbn in Hi. lia.
Qed.

Lemma write_string_other w : forall p bytes k,
  k < p \/ p + Z.of_nat (length w) < k -> write_string p w bytes !! k = bytes !! k.
Proof.
  induction w as [|x w IH]; intros p bytes k H; cbn [write_string length] in *; [by rewrite lookup_insert_ne by lia|].
  rewrite IH by lia. apply lookup_insert_ne. lia.
Qed.

Lemma write_string_ok w : forall p bytes, cstring (write_string p w bytes) p w.
Proof.
  induction w as [|x w IH]; intros p bytes; cbn [write_string].
  - apply cstring_nil, lookup_insert_eq.
  - apply cstring_cons. split; [|apply IH]. rewrite write_string_other by lia. apply lookup_insert_eq.
Qed.

(** ** The table of an atomizer *)

(** The strings with their tokens, as [vector] has them. *)
Definition entries (v : list (option Z)) (T : list (list Z * Z)) : Prop :=
  take (length T) v = (fun x => Some x.2) <$> T.

Definition sorted (T : list (list Z * Z)) : Prop := StronglySorted (fun x y => slt x.1 y.1) T.

Lemma entries_lookup v T i x : entries v T -> T !! i = Some x -> v !! i = Some (Some x.2).
Proof.
  intros H Hi. rewrite <- (lookup_take_lt v (length T)) by (by eapply lookup_lt_Some).
  rewrite H. by rewrite list_lookup_fmap, Hi.
Qed.

Lemma sorted_lookup T i j x y : sorted T -> (i < j)%nat -> T !! i = Some x -> T !! j = Some y -> slt x.1 y.1.
Proof.
  intros Hs. revert i j. induction Hs as [|z T Hs IH Hz]; intros i j Hij Hi Hj; [done|].
  destruct j as [|j]; [lia|]. cbn in Hj. destruct i as [|i]; cbn in Hi.
  - injection Hi as ->. rewrite Forall_forall in Hz. apply (Hz y). by eapply list_elem_of_lookup_2.
  - apply (IH i j); [lia|done|done].
Qed.

Lemma sorted_insert T1 T2 x :
  sorted (T1 ++ T2) -> Forall (fun y => slt y.1 x.1) T1 -> Forall (fun y => slt x.1 y.1) T2 -> sorted (T1 ++ x :: T2).
Proof.
  unfold sorted. induction T1 as [|y T1 IH]; cbn [app]; intros Hs H1 H2.
  - constructor; [done|]. done.
  - apply StronglySorted_inv in Hs as [Hs Hy]. apply Forall_cons in H1 as [Hyx H1]. constructor; [by apply IH|].
    rewrite Forall_app in Hy |- *. destruct Hy. split; [done|]. by constructor.
Qed.

Section Search.
Context {bytes : gmap Z Z} {v : list (option Z)} {T : list (list Z * Z)} {string : list Z}.
Hypothesis Hv : entries v T.
Hypothesis Hs : sorted T.
Hypothesis Hstr : Forall (fun x => valid x.1 /\ cstring bytes x.2 x.1) T.
Hypothesis Hstring : valid string.
Hypothesis Hlen : Z.of_nat (length T) < 2 ^ 30.

(** The entries before [low] are smaller, those from [high] on greater. *)
Definition search_inv (i : Z) (st : Z * Z * Z * Z) : Prop :=
  let '(low, high, index, test) := st in
  0 <= low <= high /\ high <= Z.of_nat (length T) /\ high - low <= Z.of_nat (length T) - i /\ test <> 0 /\
  (index = low \/ index = high) /\
  (forall j x, (Z.of_nat j < low)%Z -> T !! j = Some x -> slt x.1 string) /\
  (forall j x, (high <= Z.of_nat j)%Z -> T !! j = Some x -> slt string x.1).

Definition search_post (r : option (Z * Z)) : Prop :=
  exists index test, r = Some (index, test) /\ 0 <= index <= Z.of_nat (length T) /\
    (test = 0 -> exists p, T !! Z.to_nat index = Some (string, p)) /\
    (test <> 0 -> (forall j x, (Z.of_nat j < index)%Z -> T !! j = Some x -> slt x.1 string) /\
                  (forall j x, (index <= Z.of_nat j)%Z -> T !! j = Some x -> slt string x.1)).

Lemma slt_le_trans i j x y : (i <= j)%nat -> T !! i = Some x -> T !! j = Some y -> slt string x.1 -> slt string y.1.
Proof.
  intros Hij Hi Hj H. destruct (decide (i = j)) as [->|]; [congruence|].
  pose proof (proj1 (Forall_lookup _ _) Hstr i x Hi) as [Vx _]. pose proof (proj1 (Forall_lookup _ _) Hstr j y Hj) as [Vy _].
  eapply slt_trans; [done|exact Vx|done|done|]. eapply (sorted_lookup T i j); [done|lia|done|done].
Qed.

Lemma le_slt_trans i j x y : (i <= j)%nat -> T !! i = Some x -> T !! j = Some y -> slt y.1 string -> slt x.1 string.
Proof.
  intros Hij Hi Hj H. destruct (decide (i = j)) as [->|]; [congruence|].
  pose proof (proj1 (Forall_lookup _ _) Hstr i x Hi) as [Vx _]. pose proof (proj1 (Forall_lookup _ _) Hstr j y Hj) as [Vy _].
  eapply slt_trans; [done|exact Vy|done| |done]. eapply (sorted_lookup T i j); [done|lia|done|done].
Qed.

Lemma search_step_ok i st : search_inv i st ->
  match search_step bytes v string st with Cont st' => search_inv (i + 1) st' | Brk r => search_post r end.
Proof.
  destruct st as [[[low high] index] test]. intros (Hl & Hh & Hd & Ht & Hi & Hlo & Hhi). cbn [search_step].
  destruct (Z.ltb_spec low high) as [Hlt|Hge]; cbn [negb].
  2:{ exists index, test. assert (low = high) as -> by lia. assert (index = high) as -> by lia.
      split_and!; [done|lia|lia|done|]. by split. }
  rewrite u32_small by lia. set (mid := (low + high) / 2). assert (Hm : low <= mid < high) by (subst mid; zlia).
  destruct (T !! Z.to_nat mid) as [[w p]|] eqn:E; [|apply lookup_ge_None in E; lia].
  pose proof (proj1 (Forall_lookup _ _) Hstr _ _ E) as [Vw Hc]. cbn in Vw, Hc.
  rewrite (entries_lookup _ _ _ _ Hv E). cbn [mjoin option_join mbind option_bind snd]. rewrite (read_string_ok _ _ _ Hc Vw).
  destruct (Z.ltb_spec (strcmp string w) 0) as [H1|H1].
  - repeat split; try lia; [done|]. intros j x Hj Hx. eapply (slt_le_trans (Z.to_nat mid) j); [lia|done|done|done].
  - destruct (Z.ltb_spec 0 (strcmp string w)) as [H2|H2].
    + rewrite u32_small by lia. repeat split; try lia; [|done].
      intros j x Hj Hx. eapply (le_slt_trans j (Z.to_nat mid)); [lia|done|done|].
      unfold slt. cbn. rewrite (strcmp_opp string). lia.
    + exists mid, (strcmp string w). split_and!; [done|lia|lia| |lia]. intros _. exists p.
      assert (strcmp string w = 0) as E0 by lia. apply strcmp_eq in E0 as ->; done.
Qed.

(** The search ends with the place of the string or the place where it belongs. *)
Lemma search_ok : search_post (search bytes v (Z.of_nat (length T)) string).
Proof.
  unfold search.
  assert (H : match z_loop (search_step bytes v string) (Z.of_nat (length T) + 1) (0, Z.of_nat (length T), 0, -1) with
              | Cont st => search_inv (Z.of_nat (length T) + 1) st
              | Brk r => search_post r
              end).
  { apply z_loop_inv; [lia| |intros i a _; apply search_step_ok].
    repeat split; try lia; intros j x Hj Hx; apply lookup_lt_Some in Hx; lia. }
  destruct (z_loop _ _ _) as [[[[low high] index] test]|r]; [|done]. destruct H as (? & ? & ? & _). lia.
Qed.
End Search.

(** ** The invariant of the atomizer, and interning a string *)

Implicit Types (s : sys) (bs : gmap Z block_list) (w : list Z) (T : list (list Z * Z)).

(** ** Blocks *)

Definition block_end (r : block_list) : Z := bl_free_space r + bl_free_bytes r.

Record mem_ok bs : Prop := {
  mo_block : forall b r, bs !! b = Some r ->
    0 < b /\ b + sizeof_block_list <= bl_free_space r /\ 0 <= bl_free_bytes r /\ block_end r <= 2 ^ 32;
  mo_apart : forall b1 b2 r1 r2, bs !! b1 = Some r1 -> bs !! b2 = Some r2 -> b1 <> b2 ->
    block_end r1 <= b2 \/ block_end r2 <= b1
}.

(** The blocks [l] are linked from [head]; the [next] of the last one is null or has
    not been set. *)
Fixpoint block_chain bs (head : link) (l : list Z) : Prop :=
  match l with
  | [] => head = Link 0 \/ head = Unset
  | b :: r => head = Link b /\ b <> 0 /\ exists x, bs !! b = Some x /\ block_chain bs (bl_next x) r
  end.

Lemma block_chain_frame bs bs' head l :
  (forall b x, b ∈ l -> bs !! b = Some x -> exists x', bs' !! b = Some x' /\ bl_next x' = bl_next x) ->
  block_chain bs head l -> block_chain bs' head l.
Proof.
  revert head. induction l as [|b r IH]; intros head H; [done|]. intros (-> & Hb & x & Hx & Hc).
  destruct (H b x) as (x' & Hx' & E); [by left|done|]. split_and!; [done|done|]. exists x'. split; [done|].
  rewrite E. apply IH; [|done]. intros c y Hc'. apply H. by right.
Qed.

Lemma block_chain_in bs head l b : block_chain bs head l -> b ∈ l -> is_Some (bs !! b).
Proof.
  revert head. induction l as [|c r IH]; intros head; [by intros _ ?%elem_of_nil|].
  intros (-> & _ & x & Hx & Hc) [->|Hb]%elem_of_cons; [by rewrite Hx|by eapply IH].
Qed.

Lemma block_chain_length bs head l : block_chain bs head l -> NoDup l -> (length l <= size bs)%nat.
Proof.
  intros Hc Hnd. rewrite <- size_dom. rewrite <- (size_list_to_set (C := gset Z) l) by done. apply subseteq_size.
  intros x Hx%elem_of_list_to_set. apply elem_of_dom. by eapply block_chain_in.
Qed.

(** A string that lies in the used part of one of the blocks. *)
Definition stored bs (bls : list Z) w (p : Z) : Prop :=
  exists b r, b ∈ bls /\ bs !! b = Some r /\ b + sizeof_block_list <= p /\ p + Z.of_nat (length w) + 1 <= bl_free_space r.

Record atom_inv s (a : atomizer_data) (bls : list Z) T : Prop := {
  ai_chain : block_chain (s_blocks s) (Link (blocks a)) bls;
  ai_some : bls <> [];
  ai_bls : NoDup bls;
  ai_count : count a = Z.of_nat (length T);
  ai_slots : slots a = Z.of_nat (length (vector a));
  ai_room : count a <= slots a < 2 ^ 30;
  ai_entries : entries (vector a) T;
  ai_sorted : sorted T;
  ai_strings : Forall (fun x => x.1 <> [] /\ valid x.1 /\ cstring (s_bytes s) x.2 x.1 /\ stored (s_blocks s) bls x.1 x.2) T
}.

(** [s'] has the strings of [s] where they were. *)
Definition keeps s s' : Prop :=
  forall b r, s_blocks s !! b = Some r -> exists r', s_blocks s' !! b = Some r' /\
    bl_free_space r <= bl_free_space r' /\
    forall k, b + sizeof_block_list <= k < bl_free_space r -> s_bytes s' !! k = s_bytes s !! k.

Lemma keeps_refl s : keeps s s.
Proof. intros b r H. exists r. split_and!; [done|lia|done]. Qed.

Lemma strings_keep s s' bls bls' T :
  keeps s s' -> bls ⊆ bls' ->
  Forall (fun x => x.1 <> [] /\ valid x.1 /\ cstring (s_bytes s) x.2 x.1 /\ stored (s_blocks s) bls x.1 x.2) T ->
  Forall (fun x => x.1 <> [] /\ valid x.1 /\ cstring (s_bytes s') x.2 x.1 /\ stored (s_blocks s') bls' x.1 x.2) T.
Proof.
  intros K Hsub HT. eapply Forall_impl; [exact HT|]. intros [w p] (H1 & H2 & H3 & (b & r & Hb & Hr & Hp1 & Hp2)). cbn in *.
  destruct (K b r Hr) as (r' & Hr' & Hle & Hby). split_and!; [done|done| |].
  - eapply cstring_frame; [|done]. intros k Hk. apply Hby. lia.
  - exists b, r'. split_and!; [by apply Hsub|done|done|lia].
Qed.

Lemma atom_inv_keep s s' a bls T :
  keeps s s' ->
  (forall b x, b ∈ bls -> s_blocks s !! b = Some x -> exists x', s_blocks s' !! b = Some x' /\ bl_next x' = bl_next x) ->
  atom_inv s a bls T -> atom_inv s' a bls T.
Proof.
  intros K Hn []. split; try done; [by eapply block_chain_frame|]. by eapply strings_keep.
Qed.

(** ** Room for a string *)

(** Every block from [l] on passes the test, and the [next] of the last one is not
    set. *)
Fixpoint runs_off (test : block_list -> bool) (fuel : nat) bs (l : link) : bool :=
  match l with
  | Unset => true
  | Link p =>
      if p =? 0 then false
      else match fuel, bs !! p with
           | S fuel, Some r => test r && runs_off test fuel bs (bl_next r)
           | _, _ => false
           end
  end.

(** A block that has no room for [len] bytes. *)
Definition full (len : Z) (r : block_list) : bool := bl_free_bytes r <? len.

(** The walk ends at a block with room, or at the last block if its [next] is null;
    it runs off the end if no block has room and that [next] is not set. *)
Lemma find_block_ok bs head l len fuel :
  block_chain bs (Link head) l -> l <> [] -> (length l <= fuel)%nat ->
  (runs_off (full len) fuel bs (Link head) = false /\
   exists b r, find_block fuel bs head len = Some b /\ b ∈ l /\ bs !! b = Some r /\
    (len <= bl_free_bytes r \/ (bl_next r = Link 0 /\ exists l', l = l' ++ [b]))) \/
  (runs_off (full len) fuel bs (Link head) = true /\ find_block fuel bs head len = None).
Proof.
  revert head l. induction fuel as [|fuel IH]; intros head [|b l] Hc Hne Hf; try done; [cbn in Hf; lia|].
  destruct Hc as ([= ->] & Hb & x & Hx & Hc). cbn [find_block runs_off]. rewrite (proj2 (Z.eqb_neq b 0)) by done.
  rewrite Hx. cbn [mbind option_bind]. unfold full at 1 3.
  destruct l as [|c l].
  - destruct Hc as [E|E]; rewrite E; cbn [is_null Z.eqb runs_off].
    + left. split; [destruct fuel; apply andb_false_r|]. exists b, x. split_and!; [done|by left|done|]. right. split; [done|]. by exists [].
    + destruct (Z.leb_spec len (bl_free_bytes x)) as [Hl|Hl].
      * left. rewrite (proj2 (Z.ltb_ge _ _)) by done. split; [done|]. exists b, x. split_and!; [done|by left|done|by left].
      * right. rewrite (proj2 (Z.ltb_lt _ _)) by done. split; [by destruct fuel|by destruct fuel].
  - pose proof Hc as (E & Hc0 & _). rewrite E in Hc |- *. cbn [is_null]. rewrite (proj2 (Z.eqb_neq c 0)) by done.
    destruct (Z.leb_spec len (bl_free_bytes x)) as [Hl|Hl].
    + left. rewrite (proj2 (Z.ltb_ge _ _)) by done. split; [done|]. exists b, x. split_and!; [done|by left|done|by left].
    + rewrite (proj2 (Z.ltb_lt _ _)) by done. cbn [andb].
      destruct (IH c (c :: l) Hc) as [[Er (d & r & Ef & Hin & Hr & Hor)]|[Er Ef]]; [done|cbn in *; lia| |by right].
      left. split; [done|]. exists d, r. split_and!; [done|by right|done|]. destruct Hor as [|(Hn & l' & ->)]; [by left|right].
      split; [done|]. by exists (b :: l').
Qed.

(** [malloc] has no memory, or gives [size] bytes that are not in use, with any
    word in front. *)
Definition memory_result (size : Z) (m : allocation) bs : Prop :=
  al_address m = 0 \/
  (0 < al_address m /\ al_address m + size <= 2 ^ 32 /\
   map_Forall (fun b r => block_end r <= al_address m \/ al_address m + size <= b) bs).

(** What [room_for] has done when it found a block. *)
Record room_ok s s' (head : link) (bls bls' : list Z) (len b : Z) (r : block_list) : Prop := {
  ro_mem : mem_ok (s_blocks s');
  ro_bytes : s_bytes s' = s_bytes s;
  ro_rest : s_atoms s' = s_atoms s /\ s_nodes s' = s_nodes s /\ atomizer_list s' = atomizer_list s;
  ro_chain : block_chain (s_blocks s') head bls';
  ro_nodup : NoDup bls';
  ro_sub : bls ⊆ bls';
  ro_new : forall x, x ∈ bls' -> x ∈ bls \/ s_blocks s !! x = None;
  ro_block : b ∈ bls' /\ s_blocks s' !! b = Some r /\ len <= bl_free_bytes r;
  ro_keep : forall x y, s_blocks s !! x = Some y -> exists y', s_blocks s' !! x = Some y' /\
    bl_free_space y' = bl_free_space y /\ (x ∉ bls -> y' = y)
}.

(** A block behind the last one. *)
Lemma block_chain_snoc bs head l b r n y :
  block_chain bs head (l ++ [b]) -> NoDup (l ++ [b]) -> bs !! b = Some r -> bs !! n = None -> n <> 0 ->
  bl_next y = Link 0 \/ bl_next y = Unset ->
  block_chain (<[n := y]> (<[b := Block (Link n) (bl_free_space r) (bl_free_bytes r)]> bs)) head (l ++ [b; n]).
Proof.
  intros Hc Hnd Hb Hn Hn0 Hy. assert (b <> n) by congruence. revert head Hc. induction l as [|x l IH]; intros head; cbn [app].
  - intros (-> & Hb0 & z & Hz & _). split_and!; [done|done|].
    eexists. rewrite lookup_insert_ne, lookup_insert_eq by done. split; [done|]. split_and!; [done|done|].
    exists y. by rewrite lookup_insert_eq.
  - cbn [app] in Hnd. apply NoDup_cons in Hnd as [Hx Hnd]. intros (-> & Hx0 & z & Hz & Hc). split_and!; [done|done|].
    exists z. rewrite !lookup_insert_ne; [split; [done|by apply IH]|set_solver|congruence].
Qed.

Lemma room_for_ok s head bls len m :
  mem_ok (s_blocks s) -> block_chain (s_blocks s) (Link head) bls -> bls <> [] -> NoDup bls ->
  0 < len <= 2 ^ 30 -> memory_result (page_round (sizeof_block_list + len)) m (s_blocks s) ->
  let off := runs_off (full len) (size (s_blocks s)) (s_blocks s) (Link head) in
  (off = false /\ room_for head len m s = Some (0, s) /\ al_address m = 0) \/
  (off = false /\
   exists b r s' bls', room_for head len m s = Some (b, s') /\ b <> 0 /\ room_ok s s' (Link head) bls bls' len b r) \/
  (off = true /\ room_for head len m s = None).
Proof.
  intros M Hc Hne Hnd Hlen Hm. pose proof (page_round_ge (sizeof_block_list + len)) as Hpr. unfold sizeof_block_list in *.
  destruct (find_block_ok _ _ _ len (size (s_blocks s)) Hc Hne) as [[Eo (b & r & Ef & Hin & Hr & Hor)]|[Eo Ef]].
  { by eapply block_chain_length. }
  2:{ right. right. split; [done|]. unfold room_for. by rewrite Ef. }
  rewrite Eo. unfold room_for. rewrite Ef. cbn [mbind option_bind]. rewrite Hr. cbn [mbind option_bind].
  destruct (mo_block _ M _ _ Hr) as (Hb0 & Hb1 & Hb2 & Hb3).
  destruct (Z.leb_spec len (bl_free_bytes r)) as [Hl|Hl].
  { right. left. split; [done|]. exists b, r, s, bls. split; [done|]. split; [lia|]. split; try done.
    - intros x Hx. by left.
    - intros x y Hx. by exists y. }
  destruct Hor as [|(Hn & l & El)]; [lia|]. rewrite u32_small by (unfold sizeof_block_list; lia).
  destruct Hm as [E0|(Ha & Hae & Hap)].
  { left. rewrite E0. cbn [Z.eqb]. split; [done|]. split; [|done]. do 2 f_equal. destruct s. unfold with_blocks. cbn in *. f_equal.
    rewrite insert_id; [done|]. rewrite Hr. f_equal. destruct r. cbn in *. congruence. }
  right. left. split; [done|]. set (n := al_address m) in *. rewrite (proj2 (Z.eqb_neq n 0)) by lia.
  unfold sizeof_block_list in *. set (y := Block (unset_word (al_next m)) (n + 12) (page_round (12 + len) - 12)).
  assert (Hfree : s_blocks s !! n = None).
  { destruct (s_blocks s !! n) as [z|] eqn:E; [|done]. exfalso. destruct (mo_block _ M _ _ E) as (_ & Hz & Hz2 & _).
    pose proof (Hap n z E). unfold block_end, sizeof_block_list in *. lia. }
  assert (b <> n) by congruence.
  exists n, y. eexists _, (bls ++ [n]). split; [reflexivity|]. split; [lia|].
  assert (Hold : forall x z, <[n := y]> (<[b := Block (Link n) (bl_free_space r) (bl_free_bytes r)]> (s_blocks s)) !! x = Some z ->
    (x = n /\ z = y) \/ (x <> n /\ exists z', s_blocks s !! x = Some z' /\ bl_free_space z = bl_free_space z' /\ block_end z = block_end z' /\ bl_free_bytes z = bl_free_bytes z')).
  { intros x z [[<- <-]|[Hx [[<- <-]|[Hx2 Hz]]%lookup_insert_Some]]%lookup_insert_Some; [by left|right..].
    - split; [done|]. by exists r.
    - split; [done|]. by exists z. }
  split; cbn; try done.
  - split.
    + intros x z Hz. destruct (Hold x z Hz) as [[-> ->]|[Hx (z' & Hz' & E1 & E2 & E3)]].
      * unfold block_end, sizeof_block_list. cbn. lia.
      * rewrite E1, E2, E3. by apply (mo_block _ M).
    + intros x1 x2 z1 z2 H1 H2 Hx12.
      destruct (Hold x1 z1 H1) as [[-> ->]|[Hx1 (z1' & Hz1' & _ & E1 & _)]];
      destruct (Hold x2 z2 H2) as [[-> ->]|[Hx2 (z2' & Hz2' & _ & E2 & _)]]; [done| | |].
      * rewrite E2. pose proof (Hap x2 z2' Hz2'). unfold block_end, y. cbn. unfold block_end in *. lia.
      * rewrite E1. pose proof (Hap x1 z1' Hz1'). unfold block_end, y. cbn. unfold block_end in *. lia.
      * rewrite E1, E2. by eapply (mo_apart _ M).
  - rewrite El, <- app_assoc. apply block_chain_snoc; [by rewrite <- El|by rewrite <- El|done|done|lia|].
    unfold y, unset_word. cbn. destruct (al_next m =? 0); [by left|by right].
  - apply NoDup_app. split_and!; [done| |apply NoDup_singleton]. intros x Hx ->%list_elem_of_singleton.
    destruct (block_chain_in _ _ _ _ Hc Hx). congruence.
  - set_solver.
  - intros x [Hx| ->%list_elem_of_singleton]%elem_of_app; [by left|by right].
  - split_and!; [set_solver|by rewrite lookup_insert_eq|]. unfold y. cbn. lia.
  - intros x z Hz. rewrite lookup_insert_ne by congruence. destruct (decide (b = x)) as [<-|Hne2].
    + rewrite lookup_insert_eq. eexists. split; [done|]. simplify_eq. cbn. split; [done|]. done.
    + rewrite lookup_insert_ne by done. by exists z.
Qed.

(** ** Interning *)

(** Using [len] bytes of a block for a string. *)
Definition use_block (b : Z) (r : block_list) (len : Z) w s : sys :=
  with_blocks <[b := Block (bl_next r) (bl_free_space r + len) (bl_free_bytes r - len)]>
    (with_bytes (write_string (bl_free_space r) w) s).

Lemma use_block_ok s b r len w :
  mem_ok (s_blocks s) -> s_blocks s !! b = Some r -> len = Z.of_nat (length w) + 1 -> len <= bl_free_bytes r ->
  mem_ok (s_blocks (use_block b r len w s)) /\ keeps s (use_block b r len w s) /\
  cstring (s_bytes (use_block b r len w s)) (bl_free_space r) w.
Proof.
  intros M Hr El Hl. destruct (mo_block _ M _ _ Hr) as (H1 & H2 & H3 & H4). unfold use_block. cbn.
  set (r' := Block _ _ _). assert (Ee : block_end r' = block_end r) by (unfold block_end, r'; cbn; lia).
  split_and!; [| |apply write_string_ok].
  - split.
    + intros x y [[<- <-]|[Hx Hy]]%lookup_insert_Some; [|by apply (mo_block _ M)]. rewrite Ee. unfold r'. cbn. lia.
    + intros x1 x2 y1 y2 [[<- <-]|[Hx1 Hy1]]%lookup_insert_Some [[<- <-]|[Hx2 Hy2]]%lookup_insert_Some Hne;
        rewrite ?Ee; try done; by eapply (mo_apart _ M).
  - intros x y Hy. cbn. destruct (decide (b = x)) as [<-|Hne].
    + simplify_eq. exists r'. rewrite lookup_insert_eq. split_and!; [done|unfold r'; cbn; lia|].
      intros k Hk. apply write_string_other. lia.
    + exists y. rewrite lookup_insert_ne by done. split_and!; [done|lia|]. intros k Hk. apply write_string_other.
      destruct (mo_block _ M _ _ Hy) as (G1 & G2 & G3 & G4). unfold sizeof_block_list in *.
      pose proof (mo_apart _ M b x r y Hr Hy Hne) as Ha. unfold block_end in *. lia.
Qed.

Lemma insert_at_ok index v T w p :
  entries v T -> (length T < length v)%nat -> (index <= length T)%nat ->
  exists v', insert_at index (length T) p v = Some v' /\ length v' = length v /\
    entries v' (take index T ++ (w, p) :: drop index T).
Proof.
  intros He Hl Hi. unfold insert_at. destruct (Nat.ltb_spec (length T) (length v)) as [_|]; [|lia].
  eexists. split; [done|]. split.
  - rewrite !length_app, length_cons, !length_app, !length_take, !length_drop. lia.
  - assert (E1 : take index v = (fun x => Some x.2) <$> take index T).
    { rewrite fmap_take, <- He, take_take. f_equal. lia. }
    assert (E2 : take (length T - index) (drop index v) = (fun x => Some x.2) <$> drop index T).
    { rewrite fmap_drop, <- He, take_drop_commute. do 2 f_equal. lia. }
    unfold entries. rewrite E1, E2, app_comm_cons, app_assoc, take_app_le.
    + rewrite take_ge; [by rewrite fmap_app|].
      rewrite !length_app, !length_fmap, !length_cons, !length_fmap, length_take, length_drop. simpl. lia.
    + rewrite !length_app, !length_cons, !length_fmap, length_take, length_drop. lia.
Qed.

Lemma entries_app v v2 T : entries v T -> (length T <= length v)%nat -> entries (v ++ v2) T.
Proof. unfold entries. intros H Hl. by rewrite take_app_le. Qed.

(** What [intern] does, for the table [T'] it leaves. *)
Record intern_ok s s' (at_ : Z) (a' : atomizer_data) (bls bls' : list Z) T' : Prop := {
  io_mem : mem_ok (s_blocks s');
  io_keeps : keeps s s';
  io_nodes : s_nodes s' = s_nodes s /\ atomizer_list s' = atomizer_list s;
  io_other : forall b x, b ∉ bls -> s_blocks s !! b = Some x -> exists x', s_blocks s' !! b = Some x' /\ bl_next x' = bl_next x;
  io_new : forall x, x ∈ bls' -> x ∈ bls \/ s_blocks s !! x = None;
  io_atoms : s_atoms s' = <[at_ := a']> (s_atoms s);
  io_inv : atom_inv s' a' bls' T'
}.

Section Intern.
Context {s : sys} {at_ : Z} {a : atomizer_data} {bls : list Z} {T : list (list Z * Z)}.
Context {w : list Z} {index : nat} {m : allocation} {realloc_ok : bool}.
Hypothesis M : mem_ok (s_blocks s).
Hypothesis Ha : s_atoms s !! at_ = Some a.
Hypothesis A : atom_inv s a bls T.
Hypothesis Hw : w <> [] /\ valid w /\ Z.of_nat (length w) < 2 ^ 30 - 1.
Hypothesis Hi : (index <= length T)%nat.
Hypothesis Hlo : forall j x, (j < index)%nat -> T !! j = Some x -> slt x.1 w.
Hypothesis Hhi : forall j x, (index <= j)%nat -> T !! j = Some x -> slt w x.1.
Hypothesis Hm : memory_result (page_round (sizeof_block_list + (Z.of_nat (length w) + 1))) m (s_blocks s).
Hypothesis Hre : realloc_ok = true -> slots a + MIN_BLOCK_SIZE / sizeof_pointer < 2 ^ 30.

Lemma sorted_at p : sorted (take index T ++ (w, p) :: drop index T).
Proof.
  apply sorted_insert; [by rewrite take_drop; apply A| |].
  - apply Forall_lookup. intros j x Hj. apply lookup_take_Some in Hj as [Hj Hl]. by eapply Hlo.
  - apply Forall_lookup. intros j x Hj. rewrite lookup_drop in Hj. apply (Hhi (index + j)); [lia|done].
Qed.

Lemma intern_spec :
  let off := runs_off (full (Z.of_nat (length w) + 1)) (size (s_blocks s)) (s_blocks s) (Link (blocks a)) in
  (off = true /\ intern at_ (Z.of_nat index) w m realloc_ok s = None) \/
  (off = false /\
   exists r s' bls' a' T', intern at_ (Z.of_nat index) w m realloc_ok s = Some (r, s') /\ intern_ok s s' at_ a' bls bls' T' /\
    ((r = 0 /\ (al_address m = 0 \/ realloc_ok = false) /\ T' = T) \/
     (r <> 0 /\ T' = take index T ++ (w, r) :: drop index T))).
Proof.
  destruct Hw as (Hw0 & Hwv & Hwl). unfold intern. rewrite Ha. cbn [mbind option_bind]. rewrite u32_small by lia.
  set (len := Z.of_nat (length w) + 1) in *.
  destruct (room_for_ok s (blocks a) bls len m M (ai_chain _ _ _ _ A) (ai_some _ _ _ _ A) (ai_bls _ _ _ _ A))
    as [(Eo & Er & Em)|[(Eo & b & r & s1 & bls' & Er & Hb0 & R)|[Eo Er]]]; [subst len; lia|done| | |].
  3:{ left. split; [done|]. by rewrite Er. }
  all: right; split; [done|].
  { rewrite Er. cbn [mbind option_bind]. exists 0, s, bls, a, T. split; [done|]. split; [|left; tauto].
    split; try done; [apply keeps_refl|intros b x _ Hx; eauto|intros x Hx; by left|by rewrite insert_id]. }
  rewrite Er. cbn [mbind option_bind]. rewrite (proj2 (Z.eqb_neq b 0)) by done.
  destruct (ro_block _ _ _ _ _ _ _ _ R) as (Hbin & Hbr & Hbl). rewrite Hbr. cbn [mbind option_bind].
  destruct (use_block_ok s1 b r len w (ro_mem _ _ _ _ _ _ _ _ R) Hbr eq_refl Hbl) as (M2 & K2 & C2).
  destruct (mo_block _ (ro_mem _ _ _ _ _ _ _ _ R) _ _ Hbr) as (Hb1 & Hb2 & Hb3 & Hb4). unfold block_end in Hb4. unfold sizeof_block_list in Hb2.
  rewrite (u32_small (bl_free_bytes r - len)) by (subst len; lia). fold (use_block b r len w s1).
  set (s2 := use_block b r len w s1) in *.
  destruct (ro_rest _ _ _ _ _ _ _ _ R) as (Ea & En & El).
  assert (K : keeps s s2).
  { intros x y Hy. destruct (ro_keep _ _ _ _ _ _ _ _ R x y Hy) as (y1 & Hy1 & E1 & _).
    destruct (K2 x y1 Hy1) as (y2 & Hy2 & Hle & Hk). exists y2. split_and!; [done|lia|].
    intros k Hk2. rewrite Hk by lia. by rewrite (ro_bytes _ _ _ _ _ _ _ _ R). }
  assert (Hnext : forall x y, s_blocks s1 !! x = Some y -> exists y', s_blocks s2 !! x = Some y' /\ bl_next y' = bl_next y).
  { intros x y Hy. unfold s2, use_block. cbn. destruct (decide (b = x)) as [<-|]; [|rewrite lookup_insert_ne by done; eauto].
    rewrite lookup_insert_eq. simplify_eq. eauto. }
  assert (Hch : block_chain (s_blocks s2) (Link (blocks a)) bls').
  { eapply block_chain_frame; [|apply (ro_chain _ _ _ _ _ _ _ _ R)]. intros x y _. apply Hnext. }
  assert (Hother : forall x y, x ∉ bls -> s_blocks s !! x = Some y -> exists y', s_blocks s2 !! x = Some y' /\ bl_next y' = bl_next y).
  { intros x y Hx Hy. destruct (ro_keep _ _ _ _ _ _ _ _ R x y Hy) as (y1 & Hy1 & _ & E1). rewrite (E1 Hx) in Hy1. by apply Hnext. }
  assert (Hst : Forall (fun x => x.1 <> [] /\ valid x.1 /\ cstring (s_bytes s2) x.2 x.1 /\ stored (s_blocks s2) bls' x.1 x.2) T).
  { eapply strings_keep; [exact K|apply R|apply A]. }
  assert (Hsome : bls' <> []) by (intros ->; by apply elem_of_nil in Hbin).
  pose proof (ai_count _ _ _ _ A) as Hcnt. pose proof (ai_slots _ _ _ _ A) as Hsl. pose proof (ai_room _ _ _ _ A) as Hroom.
  destruct ((count a =? slots a) && negb realloc_ok) eqn:Eg.
  { apply andb_true_iff in Eg as [_ Eg]. exists 0, s2, bls', a, T. split; [done|]. split; [|left; split_and!; [done| |done]].
    - split; try done; [apply R|by rewrite insert_id|]. destruct A. split; try done. apply R.
    - right. by destruct realloc_ok. }
  set (v := if count a =? slots a then vector a ++ _ else vector a).
  set (sl := if count a =? slots a then _ else slots a).
  assert (Hv : entries v T /\ (length T < length v)%nat /\ sl = Z.of_nat (length v) /\ sl < 2 ^ 30).
  { subst v sl. unfold MIN_BLOCK_SIZE, B_PAGE_SIZE, sizeof_pointer in *. change (4096 / 4) with 1024 in *.
    destruct (Z.eqb_spec (count a) (slots a)) as [Ec|Ec].
    - rewrite length_app, length_replicate. split; [apply entries_app; [apply A|lia]|].
      destruct realloc_ok; [|done]. specialize (Hre eq_refl). lia.
    - split; [apply A|]. lia. }
  destruct Hv as (Hv1 & Hv2 & Hv3 & Hv4).
  destruct (insert_at_ok index v T w (bl_free_space r) Hv1 Hv2 Hi) as (v' & Ev & Elen & Hent).
  rewrite Nat2Z.id, Hcnt, Nat2Z.id, Ev. cbn [mbind option_bind].
  eexists (bl_free_space r), _, bls', _, _. split; [reflexivity|]. split; [|right; split; [lia|reflexivity]].
  set (T' := take index T ++ (w, bl_free_space r) :: drop index T).
  assert (HlT : length T' = S (length T)).
  { unfold T'. rewrite length_app, length_cons, length_take, length_drop. lia. }
  split; cbn [s_blocks s_atoms s_nodes atomizer_list with_atoms]; try done; [apply R|unfold s2, use_block; cbn; by rewrite Ea|].
  split; cbn [blocks count slots vector s_blocks s_bytes with_atoms]; try done.
  - apply R.
  - rewrite HlT, u32_small by lia. lia.
  - lia.
  - rewrite u32_small by lia. lia.
  - apply sorted_at.
  - unfold T'. rewrite <- (take_drop index T) in Hst. apply Forall_app in Hst as [H1 H2]. apply Forall_app. split; [done|].
    constructor; [|done]. cbn. split_and!; [done|done|done|].
    exists b. unfold s2, use_block. cbn. eexists. rewrite lookup_insert_eq. split_and!; [done|done|unfold sizeof_block_list; lia|].
    cbn. unfold len. lia.
Qed.
End Intern.
