(* ===== verification/AtomClaims.v ===== *)
(** The atomizer: the list of atomizers and the invariant under all calls, what its
    tables are, executions to evaluate, and the theorems. *)
From stdpp Require Import base functions gmap list.
From Stdlib Require Import ZArith Lia Sorted.
From S2P Require Import Prelude Errors Atomizer AtomInv.

Implicit Types (s : sys) (bs : gmap Z block_list) (w : list Z) (T : list (list Z * Z)).

(** ** The list of nodes *)

(** A node of the list: its address, its name and its atomizer. *)
Definition entry : Type := Z * (list Z * Z).

Fixpoint node_list (nodes : gmap Z atomizer_data_list) (head : Z) (l : list entry) : Prop :=
  match l with
  | [] => head = 0
  | (n, (w, a)) :: r => head = n /\ n <> 0 /\ exists nxt, nodes !! n = Some (Node w a nxt) /\ node_list nodes nxt r
  end.

Lemma node_list_frame nodes nodes' head l :
  (forall x, x ∈ l -> nodes' !! x.1 = nodes !! x.1) -> node_list nodes head l -> node_list nodes' head l.
Proof.
  revert head. induction l as [|[n [w a]] r IH]; intros head H; [done|]. intros (-> & Hn & nxt & Hx & Hc).
  split_and!; [done|done|]. exists nxt. pose proof (H (n, (w, a)) ltac:(by left)) as E. cbn in E. rewrite E.
  split; [done|]. apply IH; [|done]. intros x Hx'. apply H. by right.
Qed.

Lemma node_list_lookup nodes head l n w a :
  node_list nodes head l -> (n, (w, a)) ∈ l -> n <> 0 /\ exists nxt, nodes !! n = Some (Node w a nxt).
Proof.
  revert head. induction l as [|[n' [w' a']] r IH]; intros head; [by intros _ ?%elem_of_nil|].
  intros (_ & Hn & nxt & Hx & Hc) [[= -> -> ->]|Hin]%elem_of_cons; [eauto|by eapply IH].
Qed.

Lemma node_list_length nodes head l : node_list nodes head l -> NoDup l.*1 -> (length l <= size nodes)%nat.
Proof.
  intros Hc Hnd. rewrite <- size_dom. transitivity (length l.*1); [by rewrite length_fmap|]. rewrite <- (size_list_to_set (C := gset Z) l.*1) by done.
  apply subseteq_size. intros x Hx%elem_of_list_to_set. apply elem_of_dom.
  apply list_elem_of_fmap in Hx as ([n [w a]] & -> & Hx). cbn. destruct (node_list_lookup _ _ _ _ _ _ Hc Hx) as (_ & nxt & ->). done.
Qed.

Fixpoint last_of (d : Z) (l : list Z) : Z := match l with [] => d | x :: r => last_of x r end.

(** The walk stops at the first node that passes the test. *)
Lemma find_node_ok (test : atomizer_data_list -> bool) (f : list Z * Z -> bool) nodes l : (forall w a nxt, test (Node w a nxt) = f (w, a)) ->
  forall fuel head last, node_list nodes head l -> (length l <= fuel)%nat ->
  (find_node test fuel head last nodes = Some (0, last_of last l.*1) /\ Forall (fun x => f x.2 = false) l) \/
  (exists l1 x l2, l = l1 ++ x :: l2 /\ f x.2 = true /\ Forall (fun x => f x.2 = false) l1 /\
     find_node test fuel head last nodes = Some (x.1, last_of last l1.*1)).
Proof.
  intros Ht. induction l as [|[n [w a]] r IH]; intros fuel head last; cbn [node_list length].
  - intros -> _. left. split; [by destruct fuel|done].
  - intros (-> & Hn & nxt & Hx & Hc) Hf. destruct fuel as [|fuel]; [lia|]. cbn [find_node].
    rewrite (proj2 (Z.eqb_neq n 0)) by done. rewrite Hx. cbn [mbind option_bind]. rewrite Ht.
    destruct (f (w, a)) eqn:E; [right; by exists [], (n, (w, a)), r|].
    destruct (IH fuel nxt n Hc) as [[E1 H1]|(l1 & x & l2 & -> & H1 & H2 & E1)]; [lia| |].
    + left. split; [|by constructor]. done.
    + right. exists ((n, (w, a)) :: l1), x, l2. split_and!; [done|done|by constructor|]. done.
Qed.

(** ** The invariant *)

Record inv s (bls : Z -> list Z) (T : Z -> list (list Z * Z)) (l : list entry) : Prop := {
  v_mem : mem_ok (s_blocks s);
  v_atom : forall x a, s_atoms s !! x = Some a -> 0 < x /\ atom_inv s a (bls x) (T x);
  v_disj : forall x y b, is_Some (s_atoms s !! x) -> is_Some (s_atoms s !! y) -> b ∈ bls x -> b ∈ bls y -> x = y;
  v_list : node_list (s_nodes s) (atomizer_list s) l;
  v_nodes : NoDup l.*1;
  v_names : NoDup l.*2.*1 /\ Forall (fun x => valid x.2.1 /\ x.2.1 <> []) l;
  v_atoms : NoDup l.*2.*2 /\ forall x, is_Some (s_atoms s !! x) <-> x ∈ l.*2.*2;
  v_first : forall x r, l = x :: r -> x.2.1 = system_atomizer_name
}.

Section Walk.
Context {s : sys} {bls : Z -> list Z} {T : Z -> list (list Z * Z)} {l : list entry}.
Hypothesis I : inv s bls T l.

Lemma walk_ok (test : atomizer_data_list -> bool) (f : list Z * Z -> bool) : (forall w a nxt, test (Node w a nxt) = f (w, a)) ->
  (walk test s = Some (0, last_of 0 l.*1) /\ Forall (fun x => f x.2 = false) l) \/
  (exists l1 x l2, l = l1 ++ x :: l2 /\ f x.2 = true /\ Forall (fun x => f x.2 = false) l1 /\
     walk test s = Some (x.1, last_of 0 l1.*1)).
Proof. intros Ht. apply find_node_ok; [done|apply I|]. eapply node_list_length; apply I. Qed.

Lemma node_ok n w a : (n, (w, a)) ∈ l -> n <> 0 /\ exists nxt, s_nodes s !! n = Some (Node w a nxt).
Proof. apply node_list_lookup with (1 := v_list _ _ _ _ I). Qed.

Lemma atom_ok n w x : (n, (w, x)) ∈ l -> exists a, s_atoms s !! x = Some a /\ 0 < x /\ atom_inv s a (bls x) (T x).
Proof.
  intros Hin. destruct (proj2 (proj2 (v_atoms _ _ _ _ I) x)) as [a Ha].
  { apply list_elem_of_fmap. exists (w, x). split; [done|]. apply list_elem_of_fmap. by exists (n, (w, x)). }
  exists a. split; [done|]. by apply (v_atom _ _ _ _ I).
Qed.

(** The walk to an atomizer. *)
Lemma walk_atomizer x :
  (walk (has_atomizer x) s = Some (0, last_of 0 l.*1) /\ s_atoms s !! x = None) \/
  (exists l1 n w l2, l = l1 ++ (n, (w, x)) :: l2 /\ walk (has_atomizer x) s = Some (n, last_of 0 l1.*1)).
Proof.
  destruct (walk_ok (has_atomizer x) (fun y => y.2 =? x)) as [[E H]|(l1 & [n [w y]] & l2 & El & Hy & _ & E)]; [done| |].
  - left. split; [done|]. destruct (s_atoms s !! x) as [a|] eqn:Ea; [|done]. exfalso.
    assert (Hin : x ∈ l.*2.*2) by (apply (v_atoms _ _ _ _ I); by rewrite Ea).
    apply list_elem_of_fmap in Hin as ([w y] & E1 & Hin). apply list_elem_of_fmap in Hin as ([n z] & E2 & Hin).
    rewrite Forall_forall in H. specialize (H _ Hin). cbn in *. subst. cbn in H. lia.
  - right. cbn in Hy. exists l1, n, w, l2. assert (y = x) as -> by lia. done.
Qed.
End Walk.

(** ** Interning in the system *)

(** What the kernel may do for [atomize] of [w] in the atomizer [x]. *)
Definition memory_ok (x : Z) w (m : allocation) (realloc_ok : bool) s : Prop :=
  memory_result (page_round (sizeof_block_list + (Z.of_nat (length w) + 1))) m (s_blocks s) /\
  (realloc_ok = true -> forall a, s_atoms s !! x = Some a -> slots a + MIN_BLOCK_SIZE / sizeof_pointer < 2 ^ 30).

Definition string_ok w : Prop := w <> [] /\ valid w /\ Z.of_nat (length w) < 2 ^ 30 - 1.

Lemma inv_intern s s' bls (T : Z -> list (list Z * Z)) l x a a' bls' T' :
  inv s bls T l -> s_atoms s !! x = Some a -> intern_ok s s' x a' (bls x) bls' T' ->
  inv s' (<[x := bls']> bls) (<[x := T']> T) l.
Proof.
  intros I Ha [M K [En El] Ho Hn Ea A]. destruct (v_atom _ _ _ _ I _ _ Ha) as [Hx Ax].
  assert (Hsome : forall y, is_Some (s_atoms s' !! y) <-> is_Some (s_atoms s !! y)).
  { intros y. rewrite Ea, lookup_insert_is_Some. destruct (decide (x = y)) as [<-|]; [rewrite Ha|]; naive_solver. }
  assert (Hfr : forall y b, is_Some (s_atoms s !! y) -> x <> y -> b ∈ bls y -> b ∉ bls x /\ is_Some (s_blocks s !! b)).
  { intros y b Hy Hne Hb. split.
    - intros Hb2. apply Hne. apply (v_disj _ _ _ _ I x y b); [by rewrite Ha|done|done|done].
    - destruct Hy as [ay Hy]. destruct (v_atom _ _ _ _ I _ _ Hy) as [_ Ay]. eapply block_chain_in; [apply Ay|done]. }
  split; rewrite ?En, ?El; try apply I; [done| | |].
  - intros y b. rewrite Ea. intros [[<- <-]|[Hne Hy]]%lookup_insert_Some; [by rewrite !fn_lookup_insert|].
    rewrite !fn_lookup_insert_ne by done. destruct (v_atom _ _ _ _ I _ _ Hy) as [Hy0 Ay]. split; [done|].
    eapply atom_inv_keep; [done| |done]. intros c z Hc. apply Ho. by apply (Hfr y c).
  - intros y z b. rewrite !Hsome. intros Hy Hz. destruct (decide (x = y)) as [<-|Hxy], (decide (x = z)) as [<-|Hxz];
      rewrite ?fn_lookup_insert, ?fn_lookup_insert_ne by done; [done| | |by apply (v_disj _ _ _ _ I)].
    + intros Hb Hb2. destruct (Hfr z b Hz Hxz Hb2) as [H1 [? H2]]. destruct (Hn b Hb); [done|congruence].
    + intros Hb Hb2. destruct (Hfr y b Hy Hxy Hb) as [H1 [? H2]]. destruct (Hn b Hb2); [done|congruence].
  - destruct (v_atoms _ _ _ _ I) as [H1 H2]. split; [done|]. intros y. by rewrite Hsome, H2.
Qed.

Lemma fn_insert_same {A} (f : Z -> A) x y : <[x := f x]> f y = f y.
Proof. destruct (decide (x = y)) as [<-|]; [apply fn_lookup_insert|by apply fn_lookup_insert_ne]. Qed.

Definition resolve (x : Z) (l : list entry) : Z :=
  if x =? SYSTEM_ATOMIZER then match l with (_, (_, y)) :: _ => y | [] => x end else x.

(** The blocks of the atomizer [x] that pass the test go on to a [next] that is not
    set. *)
Definition off_the_end (test : block_list -> bool) (x : Z) s : bool :=
  match s_atoms s !! x with
  | Some a => runs_off test (size (s_blocks s)) (s_blocks s) (Link (blocks a))
  | None => false
  end.

(** There is no room for [w]: the walk along the blocks follows a [next] that is not
    set. *)
Definition lost_for w (x : Z) s : bool := off_the_end (full (Z.of_nat (length w) + 1)) x s.

(** The table of [x] after [atomize], and what it returns. *)
Definition interned T w (create : bool) (r : Z) T' (failed : Prop) : Prop :=
  (exists i, T !! i = Some (w, r) /\ T' = T) \/
  ((forall p, (w, p) ∉ T) /\
   ((create = false /\ r = 0 /\ T' = T) \/
    (create = true /\ r = 0 /\ failed /\ T' = T) \/
    (create = true /\ r <> 0 /\ exists T1 T2, T = T1 ++ T2 /\ T' = T1 ++ (w, r) :: T2))).

Lemma atomize_ok s bls (T : Z -> list (list Z * Z)) l x w create m realloc_ok :
  inv s bls T l -> l <> [] -> string_ok w -> memory_ok (resolve x l) w m realloc_ok s ->
  (s_atoms s !! resolve x l = None /\ atomize x (Some w) create m realloc_ok s = Some (0, s)) \/
  (create = true /\ (forall p, (w, p) ∉ T (resolve x l)) /\ lost_for w (resolve x l) s = true /\
     atomize x (Some w) create m realloc_ok s = None) \/
  ((create = true -> (forall p, (w, p) ∉ T (resolve x l)) -> lost_for w (resolve x l) s = false) /\
   exists r s' bls' T', is_Some (s_atoms s !! resolve x l) /\ atomize x (Some w) create m realloc_ok s = Some (r, s') /\
     inv s' (<[resolve x l := bls']> bls) (<[resolve x l := T']> T) l /\
     interned (T (resolve x l)) w create r T' (al_address m = 0 \/ realloc_ok = false) /\
     (forall y, y <> resolve x l -> s_atoms s' !! y = s_atoms s !! y) /\
     (create = false \/ (exists p, (w, p) ∈ T (resolve x l)) -> s' = s)).
Proof.
  intros I Hl Hw [Hm Hre]. destruct Hw as (Hw0 & Hwv & Hwl). set (y := resolve x l) in *.
  unfold atomize. destruct w as [|c w'] eqn:Ew; [done|]. rewrite <- Ew in *.
  assert (Er : (if x =? SYSTEM_ATOMIZER then n ← s_nodes s !! atomizer_list s; Some (the_atomizer n) else Some x) = Some y).
  { unfold y, resolve. destruct (x =? SYSTEM_ATOMIZER); [|done]. destruct l as [|[n [v z]] r]; [done|].
    destruct (v_list _ _ _ _ I) as (-> & _ & nxt & -> & _). done. }
  rewrite Er. cbn [mbind option_bind].
  destruct (walk_atomizer I y) as [[E Hn]|(l1 & n & v & l2 & El & E)]; rewrite E; cbn [mbind option_bind]; [left; by split|].
  assert (Hin : (n, (v, y)) ∈ l) by (rewrite El; set_solver).
  destruct (node_ok I _ _ _ Hin) as (Hn & nxt & Hnode). destruct (atom_ok I _ _ _ Hin) as (a & Ha & Hy & A).
  rewrite (proj2 (Z.eqb_neq n 0)) by done. rewrite Hnode. cbn [mbind option_bind the_atomizer]. rewrite Ha. cbn [mbind option_bind].
  assert (Hsame : inv s (<[y := bls y]> bls) (<[y := T y]> T) l).
  { destruct I. split; try done.
    - intros z b Hz. rewrite !fn_insert_same. auto.
    - intros z1 z2 b. rewrite !fn_insert_same. apply v_disj0. }
  pose proof (ai_room _ _ _ _ A) as Hroom. rewrite (ai_count _ _ _ _ A) in *.
  destruct (search_ok (bytes := s_bytes s) (string := w) (ai_entries _ _ _ _ A) (ai_sorted _ _ _ _ A)) as (index & test & Es & Hix & Hfound & Hnot);
    [|done|lia|].
  { eapply Forall_impl; [apply A|]. cbn. tauto. }
  rewrite Es. cbn [mbind option_bind]. destruct (Z.eqb_spec test 0) as [E0|E0].
  { right. right. destruct (Hfound E0) as (p & Hp). split; [intros _ Hno; exfalso; apply (Hno p); by eapply list_elem_of_lookup_2|]. rewrite (entries_lookup _ _ _ _ (ai_entries _ _ _ _ A) Hp). cbn [mjoin option_join mbind option_bind snd].
    exists p, s, (bls y), (T y). split_and!; [done|done|done| |done|done]. left. eauto. }
  destruct (Hnot E0) as [Hlo Hhi].
  assert (Habs : forall p, (w, p) ∉ T y).
  { intros p (j & Hj)%list_elem_of_lookup. destruct (Z.lt_ge_cases (Z.of_nat j) index) as [Hlt|Hge].
    - by apply (slt_irrefl w Hwv), (Hlo j (w, p)).
    - by apply (slt_irrefl w Hwv), (Hhi j (w, p)). }
  destruct create.
  2:{ right. right. split; [done|]. exists 0, s, (bls y), (T y). split_and!; [done|done|done| |done|done]. right. split; [done|]. left. done. }
  replace index with (Z.of_nat (Z.to_nat index)) by lia.
  destruct (intern_spec (v_mem _ _ _ _ I) Ha A (conj Hw0 (conj Hwv Hwl)) (index := Z.to_nat index) (m := m) (realloc_ok := realloc_ok))
    as [[Eo Ei]|(Eo & r & s' & bls' & a' & T' & Ei & Hok & Hor)]; [lia| | |done|intros Hr; by apply (Hre Hr)| |].
  { intros j z Hj. apply Hlo. lia. } { intros j z Hj. apply Hhi. lia. }
  { right. left. split_and!; [done|done| |done]. unfold lost_for, off_the_end. by rewrite Ha. }
  right. right. split; [intros _ _; unfold lost_for, off_the_end; by rewrite Ha|].
  exists r, s', bls', T'. split_and!; [done|done|by eapply inv_intern| | |intros [?|[p Hp]]; [done|by destruct (Habs p)]].
  - right. split; [done|right]. destruct Hor as [(-> & Hf & ->)|(Hr & ->)]; [by left|right].
    split_and!; [done|done|]. exists (take (Z.to_nat index) (T y)), (drop (Z.to_nat index) (T y)). by rewrite take_drop.
  - intros z Hz. rewrite (io_atoms _ _ _ _ _ _ _ Hok). by apply lookup_insert_ne.
Qed.

(** ** Making an atomizer *)

(** What the kernel may give for a new atomizer: nothing, or memory that is not in
    use. *)
Definition env_ok (env : make_env) s : Prop :=
  (env_node env = 0 \/ s_nodes s !! env_node env = None) /\
  (env_atomizer env = 0 \/ 0 < env_atomizer env /\ s_atoms s !! env_atomizer env = None) /\
  (env_block env = 0 \/
   0 < env_block env /\ env_block env + MIN_BLOCK_SIZE <= 2 ^ 32 /\
   map_Forall (fun b r => block_end r <= env_block env \/ env_block env + MIN_BLOCK_SIZE <= b) (s_blocks s)).

Definition new_block (b : Z) : block_list := Block (Link 0) (b + sizeof_block_list) (MIN_BLOCK_SIZE - sizeof_block_list).
Definition new_atomizer (b : Z) : atomizer_data :=
  Atomizer b 0 (MIN_BLOCK_SIZE / sizeof_pointer) (replicate (Z.to_nat (MIN_BLOCK_SIZE / sizeof_pointer)) None).

(** The system with the atomizer, before it has a node. *)
Definition with_atomizer (x b : Z) s : sys :=
  with_atoms <[x := new_atomizer b]> (with_blocks <[b := new_block b]> s).

Lemma new_atom_inv x b s : b <> 0 -> atom_inv (with_atomizer x b s) (new_atomizer b) [b] [].
Proof.
  intros Hb. unfold new_atomizer, MIN_BLOCK_SIZE, B_PAGE_SIZE, sizeof_pointer. change (4096 / 4) with 1024.
  split; cbn [blocks count slots vector]; try done.
  - split_and!; [done|done|]. exists (new_block b). cbn. rewrite lookup_insert_eq. split; [done|by left].
  - apply NoDup_singleton.
  - constructor.
Qed.

Lemma fresh_block_none s b : mem_ok (s_blocks s) -> 0 < b ->
  map_Forall (fun c r => block_end r <= b \/ b + MIN_BLOCK_SIZE <= c) (s_blocks s) -> s_blocks s !! b = None.
Proof.
  intros M Hb Hap. destruct (s_blocks s !! b) as [r|] eqn:E; [|done]. exfalso.
  destruct (mo_block _ M _ _ E) as (_ & H1 & H2 & _). pose proof (Hap b r E) as H. cbn in H. unfold block_end, sizeof_block_list, MIN_BLOCK_SIZE, B_PAGE_SIZE in *. lia.
Qed.

(** Nodes [l] and one more at the end. *)
Lemma node_list_snoc nodes head l n w x :
  node_list nodes head l -> NoDup l.*1 -> nodes !! n = None -> n <> 0 ->
  (l = [] -> node_list (<[n := Node w x 0]> nodes) n [(n, (w, x))]) /\
  (l <> [] -> exists v y nxt, nodes !! last_of 0 l.*1 = Some (Node v y nxt) /\ last_of 0 l.*1 <> 0 /\
     node_list (<[n := Node w x 0]> (<[last_of 0 l.*1 := Node v y n]> nodes)) head (l ++ [(n, (w, x))])).
Proof.
  intros Hc Hnd Hn Hn0. split.
  - intros _. split_and!; [done|done|]. exists 0. by rewrite lookup_insert_eq.
  - destruct l as [|[n1 [v1 y1]] l]; [done|]. intros _. revert n1 v1 y1 head Hc Hnd.
    induction l as [|[n2 [v2 y2]] l IH]; intros n1 v1 y1 head (-> & Hn1 & nxt & Hx & Hc) Hnd; cbn [fmap list_fmap fst last_of app] in *.
    + exists v1, y1, nxt. assert (n1 <> n) by congruence. split; [done|]. split; [done|]. split; [done|]. split; [done|].
      exists n. rewrite lookup_insert_ne, lookup_insert_eq by done. split; [done|]. split_and!; [done|done|].
      exists 0. by rewrite lookup_insert_eq.
    + apply NoDup_cons in Hnd as [Hni Hnd]. destruct (IH n2 v2 y2 nxt Hc Hnd) as (v & y & nxt2 & Hl & Hl0 & Hc2).
      exists v, y, nxt2. split; [done|]. split; [done|]. split; [done|]. split; [done|]. exists nxt. split; [|done].
      assert (Hin : last_of n2 l.*1 ∈ n2 :: l.*1).
      { clear. generalize n2. induction (l.*1) as [|z r IH]; intros k; [by left|]. right. apply IH. }
      rewrite !lookup_insert_ne; [done|intros E; apply Hni; by rewrite <- E|congruence].
Qed.

Lemma free_new x b s : b <> 0 -> s_blocks s !! b = None -> s_atoms s !! x = None ->
  free_atomizer x (with_atomizer x b s) = Some s.
Proof.
  intros Hb Hn Hx. unfold free_atomizer, with_atomizer. cbn. rewrite lookup_insert_eq. cbn [mbind option_bind blocks new_atomizer].
  rewrite map_size_insert_None by done. cbn [free_blocks is_null]. rewrite (proj2 (Z.eqb_neq b 0)) by done.
  rewrite lookup_insert_eq. cbn [mbind option_bind bl_next new_block].
  destruct (size (s_blocks s)); cbn [free_blocks is_null Z.eqb mbind option_bind].
  all: rewrite delete_insert_id by done; do 2 f_equal; destruct s; unfold with_atoms, with_blocks; cbn in *;
    by rewrite delete_insert_id.
Qed.

(** A new atomizer with its node at the end of the list. *)
Lemma inv_append s s' bls (T : Z -> list (list Z * Z)) l n w x b :
  inv s bls T l -> n <> 0 -> s_nodes s !! n = None -> 0 < x -> s_atoms s !! x = None ->
  0 < b -> b + MIN_BLOCK_SIZE <= 2 ^ 32 ->
  map_Forall (fun c r => block_end r <= b \/ b + MIN_BLOCK_SIZE <= c) (s_blocks s) ->
  valid w -> w <> [] -> Forall (fun y => y.2.1 <> w) l -> (l = [] -> w = system_atomizer_name) ->
  s_blocks s' = <[b := new_block b]> (s_blocks s) -> s_bytes s' = s_bytes s ->
  s_atoms s' = <[x := new_atomizer b]> (s_atoms s) ->
  node_list (s_nodes s') (atomizer_list s') (l ++ [(n, (w, x))]) ->
  inv s' (<[x := [b]]> bls) (<[x := []]> T) (l ++ [(n, (w, x))]).
Proof.
  intros I Hn Hnn Hx Hxn Hb Hbe Hap Hwv Hw Hname Hsys Eb Eby Ea Hnl.
  pose proof (fresh_block_none s b (v_mem _ _ _ _ I) Hb Hap) as Hbn.
  assert (Hfresh : forall y c, is_Some (s_atoms s !! y) -> c ∈ bls y -> y <> x /\ c <> b).
  { intros y c [a Hy] Hc. split; [congruence|]. intros ->. destruct (v_atom _ _ _ _ I _ _ Hy) as [_ A].
    destruct (block_chain_in _ _ _ _ (ai_chain _ _ _ _ A) Hc). congruence. }
  assert (K : keeps s s').
  { intros c r Hc. exists r. rewrite Eb, lookup_insert_ne, Eby by congruence. split_and!; [done|lia|done]. }
  split; rewrite ?Ea; try done.
  - rewrite Eb. split.
    + intros c r [[<- <-]|[_ Hc]]%lookup_insert_Some; [|by apply (v_mem _ _ _ _ I)].
      unfold new_block, block_end, sizeof_block_list, MIN_BLOCK_SIZE, B_PAGE_SIZE in *. cbn. lia.
    + assert (Ee : block_end (new_block b) = b + MIN_BLOCK_SIZE) by (unfold new_block, block_end; cbn; lia).
      intros c1 c2 r1 r2 [[<- <-]|[_ H1]]%lookup_insert_Some [[<- <-]|[_ H2]]%lookup_insert_Some Hne; rewrite ?Ee; try done.
      * pose proof (Hap _ _ H2). cbn in *. lia.
      * apply (Hap _ _ H1).
      * by eapply (mo_apart _ (v_mem _ _ _ _ I)).
  - intros y a [[<- <-]|[Hne Hy]]%lookup_insert_Some; rewrite ?fn_lookup_insert, ?fn_lookup_insert_ne by done.
    + split; [done|]. pose proof (new_atom_inv x b s ltac:(lia)) as N. destruct (ai_chain _ _ _ _ N) as (_ & ? & z & Hz & E).
      split; try apply N; [|constructor]. split_and!; [done|done|]. exists z. cbn in Hz.
      rewrite lookup_insert_eq in Hz. by rewrite Eb, lookup_insert_eq.
    + destruct (v_atom _ _ _ _ I _ _ Hy) as [Hy0 A]. split; [done|]. eapply atom_inv_keep; [done| |done].
      intros c z Hc Hz. exists z. split; [|done]. rewrite Eb. rewrite lookup_insert_ne; [done|congruence].
  - intros y z c. rewrite !lookup_insert_is_Some. intros Hy Hz.
    destruct (decide (x = y)) as [<-|Hxy], (decide (x = z)) as [<-|Hxz]; rewrite ?fn_lookup_insert, ?fn_lookup_insert_ne by done;
      [done| | |].
    + intros ->%list_elem_of_singleton Hc. by destruct (Hfresh z b ltac:(tauto) Hc).
    + intros Hc ->%list_elem_of_singleton. by destruct (Hfresh y b ltac:(tauto) Hc).
    + apply (v_disj _ _ _ _ I); tauto.
  - rewrite fmap_app. apply NoDup_app. split_and!; [apply I| |apply NoDup_singleton].
    intros y Hy Ey%list_elem_of_singleton. cbn in Ey. subst y. apply list_elem_of_fmap in Hy as ([n' [v z]] & -> & Hin).
    destruct (node_ok I _ _ _ Hin) as (_ & nxt & E). cbn in *. congruence.
  - destruct (v_names _ _ _ _ I) as [H1 H2]. split; [|apply Forall_app; split; [done|by constructor]].
    rewrite !fmap_app. apply NoDup_app. split_and!; [done| |apply NoDup_singleton].
    intros y Hy Ey%list_elem_of_singleton. cbn in Ey. subst y. apply list_elem_of_fmap in Hy as ([v z] & E & Hin).
    apply list_elem_of_fmap in Hin as ([n' v'] & E2 & Hin). cbn in E2. subst v'. rewrite Forall_forall in Hname. by apply (Hname _ Hin).
  - destruct (v_atoms _ _ _ _ I) as [H1 H2]. rewrite !fmap_app. split.
    + apply NoDup_app. split_and!; [done| |apply NoDup_singleton]. intros y Hy Ey%list_elem_of_singleton. cbn in Ey. subst y.
      apply H2 in Hy. rewrite Hxn in Hy. by destruct Hy.
    + intros y. rewrite lookup_insert_is_Some, elem_of_app, <- H2. cbn. rewrite list_elem_of_singleton.
      destruct (decide (x = y)); naive_solver.
  - intros y r. destruct l as [|z l]; cbn; [intros [= <- <-]; by apply Hsys|]. intros [= <- <-]. by eapply (v_first _ _ _ _ I).
Qed.

Definition name_ok (string : option (list Z)) : Prop := valid (atomizer_name string).

Lemma atomizer_name_nil string : atomizer_name string <> [].
Proof. by destruct string as [[|c w]|]. Qed.

Lemma has_name_eq w v : valid v -> valid w -> (strcmp v w =? 0) = bool_decide (v = w).
Proof.
  intros Hv Hw. destruct (Z.eqb_spec (strcmp v w) 0) as [E|E].
  - apply strcmp_eq in E as ->; [|done|done]. by rewrite bool_decide_true.
  - rewrite bool_decide_false; [done|]. intros ->. by apply E, strcmp_eq.
Qed.

Section FindOrMake.
Context {s : sys} {bls : Z -> list Z} {T : Z -> list (list Z * Z)} {l : list entry}.
Hypothesis I : inv s bls T l.

(** The atomizer of that name, or a new one, or none. *)
Lemma find_or_make_ok string env :
  name_ok string -> env_ok env s -> (l = [] -> atomizer_name string = system_atomizer_name) ->
  (exists n x, (n, (atomizer_name string, x)) ∈ l /\ find_or_make_atomizer string env s = Some (x, s)) \/
  (Forall (fun y => y.2.1 <> atomizer_name string) l /\
   (find_or_make_atomizer string env s = Some (0, s) \/
    (exists s' b, find_or_make_atomizer string env s = Some (env_atomizer env, s') /\ 0 < env_atomizer env /\
       s_atoms s !! env_atomizer env = None /\
       inv s' (<[env_atomizer env := [b]]> bls) (<[env_atomizer env := []]> T)
         (l ++ [(env_node env, (atomizer_name string, env_atomizer env))])))).
Proof.
  intros Hv (En & Ea & Eb) Hsys. set (w := atomizer_name string) in *. unfold find_or_make_atomizer. fold w.
  destruct (walk_ok I (has_name w) (fun y => strcmp y.1 w =? 0)) as [[E H]|(l1 & [n [v x]] & l2 & El & Hx & _ & E)];
    [done| |]; rewrite E; cbn [mbind option_bind fst].
  2:{ left. cbn in Hx. assert (Hin : (n, (v, x)) ∈ l) by (rewrite El; set_solver).
      destruct (node_ok I _ _ _ Hin) as (Hn & nxt & Hnode). rewrite (proj2 (Z.eqb_neq n 0)) by done. cbn [negb].
      rewrite Hnode. cbn [mbind option_bind the_atomizer]. exists n, x. split; [|done].
      destruct (v_names _ _ _ _ I) as [_ Hf]. rewrite Forall_forall in Hf. destruct (Hf _ Hin) as [Hvv _]. cbn in Hvv.
      rewrite has_name_eq in Hx by done. apply bool_decide_eq_true in Hx. by rewrite <- Hx. }
  right. assert (Hno : Forall (fun y => y.2.1 <> w) l).
  { destruct (v_names _ _ _ _ I) as [_ Hf]. rewrite Forall_forall in *. intros [n [v x]] Hin Ev. cbn in Ev. subst v.
    specialize (H _ Hin). specialize (Hf _ Hin). cbn in *. rewrite has_name_eq, bool_decide_true in H by tauto. done. }
  split; [done|]. cbn [negb Z.eqb]. destruct (Z.eqb_spec (env_node env) 0) as [|Hn0]; [by left|].
  unfold make_atomizer. destruct (Z.eqb_spec (env_atomizer env) 0) as [|Ha0]; [by left|].
  destruct (env_sem_ok env); [cbn [negb]|by left]. destruct (Z.eqb_spec (env_block env) 0) as [|Hb0]; [by left|].
  destruct (env_vector_ok env); [cbn [negb]|by left].
  destruct En as [|En]; [done|]. destruct Ea as [|[Ha Ea]]; [done|]. destruct Eb as [|(Hb & Hbe & Hap)]; [done|].
  change (with_atoms _ _) with (with_atomizer (env_atomizer env) (env_block env) s).
  rewrite (proj2 (Z.eqb_neq (env_atomizer env) 0)) by done.
  destruct (env_strdup_ok env); cbn [negb].
  2:{ left. rewrite free_new; [done|done| |done]. apply (fresh_block_none s); [apply I|done|done]. }
  right. destruct (node_list_snoc _ _ _ _ w (env_atomizer env) (v_list _ _ _ _ I) (v_nodes _ _ _ _ I) En Hn0) as [H1 H2].
  destruct (decide (l = [])) as [->|Hl].
  - cbn [last_of fmap list_fmap Z.eqb negb mbind option_bind]. eexists _, (env_block env). split; [done|]. split_and!; [done|done|].
    eapply (inv_append s); try done; [apply atomizer_name_nil|]. by apply H1.
  - destruct (H2 Hl) as (v & y & nxt & Hlast & Hl0 & Hnl). rewrite (proj2 (Z.eqb_neq _ 0)) by done. cbn [negb].
    change (s_nodes (with_atomizer _ _ _)) with (s_nodes s). rewrite Hlast. cbn [mbind option_bind].
    eexists _, (env_block env). split; [done|]. split_and!; [done|done|].
    eapply (inv_append s); try done. apply atomizer_name_nil.
Qed.

End FindOrMake.

(** ** Deleting an atomizer *)

Lemma runs_off_delete bs b (test : block_list -> bool) : forall l fuel head,
  block_chain bs head l -> b ∉ l -> runs_off test fuel bs head = runs_off test fuel (delete b bs) head.
Proof.
  induction l as [|c l IH]; intros fuel head; cbn [block_chain].
  - intros [-> | ->] _; by destruct fuel.
  - intros (-> & Hc0 & x & Hx & Hc) [Hbc Hni]%not_elem_of_cons. destruct fuel as [|fuel]; [done|]. cbn [runs_off].
    rewrite lookup_delete_ne, Hx by done. by rewrite (IH fuel (bl_next x)).
Qed.

Lemma free_blocks_ok : forall l fuel head bs,
  block_chain bs head l -> NoDup l -> (length l <= fuel)%nat ->
  (runs_off (fun _ => true) fuel bs head = true /\ free_blocks fuel head bs = None) \/
  (runs_off (fun _ => true) fuel bs head = false /\
   exists bs', free_blocks fuel head bs = Some bs' /\ (forall b, b ∈ l -> bs' !! b = None) /\
    (forall b, b ∉ l -> bs' !! b = bs !! b)).
Proof.
  induction l as [|b l IH]; intros fuel head bs; cbn [block_chain length].
  - intros [-> | ->] _ _; [right|left; by destruct fuel]. split; [by destruct fuel|].
    exists bs. split; [by destruct fuel|]. split; [by intros b ?%elem_of_nil|done].
  - intros (-> & Hb & x & Hx & Hc) [Hni Hnd]%NoDup_cons Hf. destruct fuel as [|fuel]; [lia|]. cbn [free_blocks runs_off is_null].
    rewrite (proj2 (Z.eqb_neq b 0)) by done. rewrite Hx. cbn [mbind option_bind andb].
    assert (Hc' : block_chain (delete b bs) (bl_next x) l).
    { eapply block_chain_frame; [|done]. intros c y Hc' Hy. exists y. rewrite lookup_delete_ne; [done|]. by intros ->. }
    rewrite (runs_off_delete bs b _ l fuel (bl_next x)) by done.
    destruct (IH fuel (bl_next x) (delete b bs) Hc' Hnd) as [[Eo E]|(Eo & bs' & E & H1 & H2)]; [lia|by left|right].
    split; [done|]. exists bs'. split; [done|]. split.
    + intros c [->|Hc2]%elem_of_cons; [|by apply H1]. rewrite H2 by done. apply lookup_delete_eq.
    + intros c [Hcb Hc2]%not_elem_of_cons. rewrite H2 by done. by apply lookup_delete_ne.
Qed.

(** The list without the node behind [l1]. *)
Lemma node_list_remove nodes head l1 n w x l2 :
  node_list nodes head (l1 ++ (n, (w, x)) :: l2) -> NoDup (l1 ++ (n, (w, x)) :: l2).*1 -> l1 <> [] ->
  exists v y nxt, nodes !! last_of 0 l1.*1 = Some (Node v y n) /\ nodes !! n = Some (Node w x nxt) /\
    node_list (delete n (<[last_of 0 l1.*1 := Node v y nxt]> nodes)) head (l1 ++ l2).
Proof.
  intros Hc Hnd Hl. destruct l1 as [|[n1 [v1 y1]] l1]; [done|]. clear Hl. revert n1 v1 y1 head Hc Hnd.
  induction l1 as [|[n2 [v2 y2]] l1 IH]; intros n1 v1 y1 head (-> & Hn1 & nx & Hx & Hc) Hnd; cbn [fmap list_fmap fst last_of app] in *.
  - destruct Hc as (-> & Hn & nxt & Hn2 & Hc). exists v1, y1, nxt. split_and!; [done|done|].
    apply NoDup_cons in Hnd as [Hni1 Hnd]. apply NoDup_cons in Hnd as [Hni2 Hnd].
    split_and!; [done|done|]. exists nxt. rewrite lookup_delete_ne, lookup_insert_eq by set_solver. split; [done|].
    eapply node_list_frame; [|done]. intros z Hz. rewrite lookup_delete_ne, lookup_insert_ne; [done| |].
    + intros ->. apply Hni1. right. by apply list_elem_of_fmap_2.
    + intros ->. apply Hni2. by apply list_elem_of_fmap_2.
  - apply NoDup_cons in Hnd as [Hni Hnd]. destruct (IH n2 v2 y2 nx Hc Hnd) as (v & y & nxt & H1 & H2 & H3).
    exists v, y, nxt. split_and!; [done|done|]. split_and!; [done|done|]. exists nx. split; [|done].
    assert (Hin : last_of n2 l1.*1 ∈ n2 :: l1.*1).
    { clear. generalize n2. induction (l1.*1) as [|z r IH]; intros k; [by left|]. right. apply IH. }
    rewrite lookup_delete_ne, lookup_insert_ne; [done| |].
    + intros E. apply Hni. rewrite <- E. rewrite fmap_app. set_solver.
    + intros ->. apply Hni. rewrite fmap_app. cbn. set_solver.
Qed.

Lemma inv_remove s s' bls (T : Z -> list (list Z * Z)) l1 n w x l2 :
  inv s bls T (l1 ++ (n, (w, x)) :: l2) -> l1 <> [] ->
  (forall b, b ∈ bls x -> s_blocks s' !! b = None) -> (forall b, b ∉ bls x -> s_blocks s' !! b = s_blocks s !! b) ->
  s_bytes s' = s_bytes s -> s_atoms s' = delete x (s_atoms s) ->
  node_list (s_nodes s') (atomizer_list s') (l1 ++ l2) -> inv s' bls T (l1 ++ l2).
Proof.
  intros I Hl1 H1 H2 Eby Ea Hnl. set (l := l1 ++ (n, (w, x)) :: l2) in *.
  assert (Hin : (n, (w, x)) ∈ l) by (unfold l; set_solver).
  assert (Hsub : sublist (l1 ++ l2) l) by (unfold l; apply sublist_app; [done|by apply sublist_cons]).
  destruct (atom_ok I _ _ _ Hin) as (a & Ha & Hx & A).
  assert (Hb : forall b r, s_blocks s' !! b = Some r -> s_blocks s !! b = Some r /\ b ∉ bls x).
  { intros b r Hr. destruct (decide (b ∈ bls x)) as [Hd|Hd]; [rewrite (H1 b Hd) in Hr; done|]. by rewrite <- H2. }
  destruct (v_names _ _ _ _ I) as [N1 N2]. destruct (v_atoms _ _ _ _ I) as [A1 A2].
  split; try done.
  - split; [intros b r [Hr _]%Hb; by apply (v_mem _ _ _ _ I)|].
    intros b1 b2 r1 r2 [Hr1 _]%Hb [Hr2 _]%Hb. by apply (v_mem _ _ _ _ I).
  - intros y ay. rewrite Ea. intros [Hne Hy]%lookup_delete_Some. destruct (v_atom _ _ _ _ I _ _ Hy) as [Hy0 Ay]. split; [done|].
    assert (Hd : forall b, b ∈ bls y -> b ∉ bls x).
    { intros b Hb1 Hb2. apply Hne. symmetry. apply (v_disj _ _ _ _ I y x b); [by rewrite Hy|by rewrite Ha|done|done]. }
    destruct Ay. split; try done.
    + eapply block_chain_frame; [|done]. intros b z Hbb Hz. exists z. by rewrite H2 by auto.
    + eapply Forall_impl; [done|]. intros [v p] (S1 & S2 & S3 & (b & r & Hbin & Hr & S4)). split_and!; [done|done|by rewrite Eby|].
      exists b, r. cbn in *. rewrite H2 by auto. done.
  - intros y z b. rewrite Ea. intros [ay [_ Hy]%lookup_delete_Some] [az [_ Hz]%lookup_delete_Some].
    apply (v_disj _ _ _ _ I); [by rewrite Hy|by rewrite Hz].
  - eapply sublist_NoDup; [apply (v_nodes _ _ _ _ I)|]. by apply fmap_sublist.
  - split; [eapply sublist_NoDup; [exact N1|]; by do 2 apply fmap_sublist|].
    rewrite Forall_forall in *. intros z Hz. apply N2. by eapply elem_of_sublist.
  - split; [eapply sublist_NoDup; [exact A1|]; by do 2 apply fmap_sublist|]. intros y. rewrite Ea, lookup_delete_is_Some, A2.
    unfold l. rewrite !fmap_app. cbn. rewrite !elem_of_app, elem_of_cons. split; [naive_solver|]. intros Hy. split; [|tauto].
    intros <-. unfold l in A1. rewrite !fmap_app in A1. cbn in A1. apply NoDup_app in A1 as (_ & B1 & B2).
    apply NoDup_cons in B2 as [B2 _]. destruct Hy as [Hy|Hy]; [apply (B1 x Hy); by left|done].
  - intros y r Hy. destruct l1 as [|z l1]; [done|]. cbn in Hy. injection Hy as <- _. by eapply (v_first _ _ _ _ I).
Qed.

Lemma delete_ok s bls (T : Z -> list (list Z * Z)) l x :
  inv s bls T l -> l <> [] ->
  (delete_atomizer x s = Some (B_ERROR, s) /\ (s_atoms s !! x = None \/ exists n r, l = (n, (system_atomizer_name, x)) :: r)) \/
  (off_the_end (fun _ => true) x s = true /\ delete_atomizer x s = None) \/
  (exists s' l1 n w l2, delete_atomizer x s = Some (B_OK, s') /\ l = l1 ++ (n, (w, x)) :: l2 /\ l1 <> [] /\
     inv s' bls T (l1 ++ l2) /\ s_atoms s' = delete x (s_atoms s) /\ s_bytes s' = s_bytes s).
Proof.
  intros I Hl. unfold delete_atomizer. destruct (walk_atomizer I x) as [[E Hn]|(l1 & n & w & l2 & El & E)];
    rewrite E; cbn [mbind option_bind]; [left; split; [done|by left]|].
  assert (Hin : (n, (w, x)) ∈ l) by (rewrite El; set_solver).
  destruct (node_ok I _ _ _ Hin) as (Hn0 & nxt & Hnode). rewrite (proj2 (Z.eqb_neq n 0)) by done. rewrite Hnode. cbn [mbind option_bind name].
  destruct (v_names _ _ _ _ I) as [N1 N2].
  assert (Hvw : valid w) by (rewrite Forall_forall in N2; by apply (N2 _ Hin)).
  rewrite has_name_eq; [|done|by apply (bool_decide_unpack _); vm_compute].
  destruct (decide (l1 = [])) as [->|Hl1].
  { left. assert (w = system_atomizer_name) as -> by by eapply (v_first _ _ _ _ I _ _ El).
    rewrite bool_decide_true by done. split; [done|]. right. by exists n, l2. }
  rewrite bool_decide_false.
  2:{ intros ->. destruct l1 as [|[n1 [v1 y1]] l1]; [done|]. pose proof (v_first _ _ _ _ I _ _ El) as Ev. cbn in Ev. subst v1.
      rewrite El in N1. cbn in N1. apply NoDup_cons in N1 as [N1 _]. apply N1. rewrite !fmap_app. cbn. set_solver. }
  destruct (atom_ok I _ _ _ Hin) as (a & Ha & Hx & A). unfold free_atomizer. rewrite Ha. cbn [mbind option_bind].
  destruct (free_blocks_ok (bls x) (size (s_blocks s)) (Link (blocks a)) (s_blocks s)) as [[Eo Ef]|(Eo & bs' & Ef & Hf1 & Hf2)].
  { apply A. } { apply A. } { eapply block_chain_length; apply A. }
  { right. left. cbn [the_atomizer]. rewrite Ha. cbn [mbind option_bind]. rewrite Ef. split; [|done]. unfold off_the_end. by rewrite Ha. }
  cbn [the_atomizer adl_next]. rewrite Ha. cbn [mbind option_bind]. rewrite Ef. cbn [mbind option_bind].
  change (s_nodes (with_atoms _ _)) with (s_nodes s).
  destruct (node_list_remove (s_nodes s) (atomizer_list s) l1 n w x l2) as (v & y & nx & Hlast & Hn2 & Hnl); [by rewrite <- El; apply I|by rewrite <- El; apply I|done|].
  rewrite Hlast. cbn [mbind option_bind]. right. right. eexists _, l1, n, w, l2. split; [done|]. split_and!; [done|done| |done|done].
  eapply (inv_remove s); [by rewrite <- El|done|done|done|done|done|]. cbn. rewrite Hnode in Hn2. by simplify_eq.
Qed.

(** ** The system of calls *)

(** ** Calls *)

Inductive call :=
  | FindOrMake (string : option (list Z)) (env : make_env)
  | Delete (x : Z)
  | Atomize (x : Z) (string : option (list Z)) (create : bool) (m : allocation) (realloc_ok : bool).

Definition step (c : call) (s : sys) : option (Z * sys) :=
  match c with
  | FindOrMake string env => find_or_make_atomizer string env s
  | Delete x => delete_atomizer x s
  | Atomize x string create m realloc_ok => atomize x string create m realloc_ok s
  end.

(** The atomizer that [x] stands for. *)
Definition target (x : Z) (s : sys) : Z :=
  if x =? SYSTEM_ATOMIZER then match s_nodes s !! atomizer_list s with Some n => the_atomizer n | None => x end else x.

(** Strings have no NUL and fit into memory, [malloc] gives memory that is not in
    use, with any word in front; a vector that has grown fits into memory. *)
Definition allowed (c : call) (s : sys) : Prop :=
  match c with
  | FindOrMake string env => name_ok string /\ env_ok env s
  | Delete _ => True
  | Atomize x string create m realloc_ok =>
      match string with
      | None | Some [] => True
      | Some w => string_ok w /\ memory_ok (target x s) w m realloc_ok s
      end
  end.

Definition empty_sys : sys := Sys ∅ ∅ ∅ ∅ 0.

(** The states up to the first call that follows a [next] that is not set. *)
Inductive reachable : sys -> Prop :=
  | reach_init env s : env_ok env empty_sys -> init env = Some (B_OK, s) -> reachable s
  | reach_step c s r s' : reachable s -> allowed c s -> step c s = Some (r, s') -> reachable s'.

(** ** The table of an atomizer *)

(** The strings with their tokens, read from memory in the order of the vector. *)
Definition table (x : Z) (s : sys) : option (list (list Z * Z)) :=
  a ← s_atoms s !! x;
  mapM (fun o => p ← o; w ← read_string (s_bytes s) p; Some (w, p)) (take (Z.to_nat (count a)) (vector a)).

Definition sound (s : sys) : Prop := exists (bls : Z -> list Z) (T : Z -> list (list Z * Z)) l, inv s bls T l /\ l <> [].

Lemma table_ok s bls (T : Z -> list (list Z * Z)) l x a : inv s bls T l -> s_atoms s !! x = Some a -> table x s = Some (T x).
Proof.
  intros I Ha. destruct (v_atom _ _ _ _ I _ _ Ha) as [_ A]. unfold table. rewrite Ha. cbn [mbind option_bind].
  rewrite (ai_count _ _ _ _ A), Nat2Z.id, (ai_entries _ _ _ _ A).
  pose proof (ai_strings _ _ _ _ A) as Hst. clear A. induction Hst as [|[w p] r (Hw & Hv & Hc & _) _ IH]; [done|].
  cbn in *. rewrite (read_string_ok _ _ _ Hc Hv). cbn. rewrite IH. done.
Qed.

Lemma table_none s x : s_atoms s !! x = None -> table x s = None.
Proof. intros H. unfold table. by rewrite H. Qed.

Lemma table_inv s bls (T : Z -> list (list Z * Z)) l x T0 :
  inv s bls T l -> table x s = Some T0 -> exists a, s_atoms s !! x = Some a /\ T0 = T x /\ atom_inv s a (bls x) (T x).
Proof.
  intros I Ht. destruct (s_atoms s !! x) as [a|] eqn:Ha; [|by rewrite (table_none _ _ Ha) in Ht].
  exists a. rewrite (table_ok _ _ _ _ _ _ I Ha) in Ht. injection Ht as <-. split_and!; [done|done|].
  by destruct (v_atom _ _ _ _ I _ _ Ha).
Qed.

(** ** Reachable states are sound *)

Lemma empty_inv : inv empty_sys (fun _ => []) (fun _ => []) [].
Proof.
  split; cbn [empty_sys s_blocks s_atoms s_nodes atomizer_list]; try done; try (intros *; rewrite ?lookup_empty; done).
  - constructor.
  - split; constructor.
  - split; [constructor|]. intros x. rewrite lookup_empty. split; [by intros [? ?]|by intros ?%elem_of_nil].
Qed.

Lemma target_resolve s bls (T : Z -> list (list Z * Z)) l x : inv s bls T l -> l <> [] -> target x s = resolve x l.
Proof.
  intros I Hl. unfold target, resolve. destruct (x =? SYSTEM_ATOMIZER); [|done]. destruct l as [|[n [w y]] r]; [done|].
  by destruct (v_list _ _ _ _ I) as (-> & _ & nxt & -> & _).
Qed.

Lemma atoms_init_sound env s : env_ok env empty_sys -> init env = Some (B_OK, s) -> sound s.
Proof.
  intros He Hi. unfold init in Hi. fold empty_sys in Hi.
  destruct (find_or_make_ok empty_inv None env) as [(n & x & ?%elem_of_nil & _)|(_ & [E|(s' & b & E & Hx & _ & I)])]; try done.
  - apply (bool_decide_unpack _). by vm_compute.
  - rewrite E in Hi. done.
  - rewrite E in Hi. cbn [mbind option_bind] in Hi. rewrite (proj2 (Z.eqb_neq _ 0)) in Hi by lia. injection Hi as <-.
    eexists _, _, _. split; [exact I|]. done.
Qed.

Lemma atoms_step_sound c s r s' : sound s -> allowed c s -> step c s = Some (r, s') -> sound s'.
Proof.
  intros (bls & T & l & I & Hl) Ha Es. destruct c as [string env|x|x string create m ok]; cbn [step allowed] in *.
  - destruct Ha as [Hn He].
    destruct (find_or_make_ok I string env Hn He) as [(n & x & _ & E)|(_ & [E|(s2 & b & E & _ & _ & I')])]; [done|..];
      rewrite E in Es; injection Es as <- <-; [by exists bls, T, l..|].
    eexists _, _, _. split; [exact I'|]. by intros [? [=]]%app_eq_nil.
  - destruct (delete_ok _ _ _ _ x I Hl) as [[E _]|[[_ E]|(s2 & l1 & n & w & l2 & E & _ & Hl1 & I' & _)]];
      rewrite E in Es; [|done|]; injection Es as <- <-; [by exists bls, T, l|].
    eexists _, _, _. split; [exact I'|]. by intros [? _]%app_eq_nil.
  - destruct string as [[|c w]|]; [by injection Es as <- <-; exists bls, T, l| |by injection Es as <- <-; exists bls, T, l].
    destruct Ha as [Hw Hm]. rewrite (target_resolve _ _ _ _ _ I Hl) in Hm.
    destruct (atomize_ok _ _ _ _ x _ create _ _ I Hl Hw Hm) as [[_ E]|[(_ & _ & _ & E)|(_ & r2 & s2 & bls' & T' & _ & E & I' & _)]];
      rewrite E in Es; [|done|]; injection Es as <- <-; [by exists bls, T, l|].
    eexists _, _, _. split; [exact I'|done].
Qed.

Lemma atoms_reachable_sound s : reachable s -> sound s.
Proof.
  induction 1 as [env s He Hi|c s r s' _ IH Ha E]; [by eapply atoms_init_sound|].
  by eapply atoms_step_sound.
Qed.

(** ** Executions *)

#[export] Instance memory_result_dec size m bs : Decision (memory_result size m bs).
Proof. unfold memory_result. apply _. Defined.
#[export] Instance env_ok_dec env s : Decision (env_ok env s).
Proof. unfold env_ok. apply _. Defined.
#[export] Instance memory_ok_dec x w m realloc_ok s : Decision (memory_ok x w m realloc_ok s).
Proof.
  unfold memory_ok. apply and_dec; [apply _|]. destruct realloc_ok; [|by left].
  destruct (s_atoms s !! x) as [a|] eqn:E; [|left; intros; congruence].
  destruct (decide (slots a + MIN_BLOCK_SIZE / sizeof_pointer < 2 ^ 30)) as [H|H].
  - left. intros _ b [= <-]. exact H.
  - right. intros H'. exact (H (H' eq_refl a eq_refl)).
Defined.
#[export] Instance allowed_dec c s : Decision (allowed c s).
Proof.
  destruct c as [string env|x|x [[|b w]|] create m ok]; cbn [allowed]; unfold name_ok, string_ok; try apply _.
Defined.

(** The state after [init] and allowed calls. *)
Fixpoint run_calls (cs : list call) (s : sys) : option sys :=
  match cs with
  | [] => Some s
  | c :: r => if decide (allowed c s) then '(_, s) ← step c s; run_calls r s else None
  end.

Definition run (env : make_env) (cs : list call) : option sys :=
  if decide (env_ok env empty_sys) then
    '(r, s) ← init env; if decide (r = B_OK) then run_calls cs s else None
  else None.

Lemma atoms_run_reachable env cs s : run env cs = Some s -> reachable s.
Proof.
  unfold run. destruct (decide (env_ok env empty_sys)) as [He|]; [|done]. destruct (init env) as [[r s0]|] eqn:Ei; [|done].
  cbn [mbind option_bind]. destruct (decide (r = B_OK)) as [->|]; [|done].
  assert (Hr : reachable s0) by (by eapply reach_init). clear Ei. revert s0 Hr.
  induction cs as [|c cs IH]; intros s0 Hr; cbn [run_calls]; [by intros [= <-]|].
  destruct (decide (allowed c s0)) as [Ha|]; [|done]. destruct (step c s0) as [[r1 s1]|] eqn:E; [|done].
  apply IH. by eapply reach_step.
Qed.

(** The system atomizer is at 16, with its block at 4096; another one, named x, at
    32.  The strings are a, b and c. *)
Definition sample_env : make_env := MakeEnv 8 16 true 4096 true true.
Definition sample_calls : list call :=
  [FindOrMake (Some [120]) (MakeEnv 24 32 true 8192 true true);
   Atomize 32 (Some [99]) true (Alloc 0 0) true; Atomize SYSTEM_ATOMIZER (Some [98]) true (Alloc 0 0) true;
   Atomize 32 (Some [97]) true (Alloc 0 0) true].

Example sample_tables :
  (s ← run sample_env sample_calls; T1 ← table 16 s; T2 ← table 32 s; Some (T1, T2)) =
  Some ([([98], 4108)], [([97], 8206); ([99], 8204)]).
Proof. by vm_compute. Qed.

(** ** The theorems *)

(** The table as a finite map. *)
Definition as_map (T : list (list Z * Z)) : gmap (list Z) Z := list_to_map T.

Lemma sorted_keys T : sorted T -> Forall (fun x => valid x.1) T -> NoDup T.*1.
Proof.
  intros Hs Hv. induction Hs as [|x T Hs IH Hx]; [constructor|]. apply Forall_cons in Hv as [Hv1 Hv]. constructor; [|by apply IH].
  intros (y & E & Hy)%list_elem_of_fmap. rewrite Forall_forall in Hx. apply (slt_irrefl x.1 Hv1). rewrite E at 2. by apply Hx.
Qed.

Lemma as_map_insert T1 T2 w r : NoDup (T1 ++ (w, r) :: T2).*1 -> as_map (T1 ++ (w, r) :: T2) = <[w := r]> (as_map (T1 ++ T2)).
Proof.
  intros Hnd. unfold as_map. change (<[w := r]> (list_to_map (T1 ++ T2))) with (list_to_map (M := gmap (list Z) Z) ((w, r) :: T1 ++ T2)).
  apply list_to_map_proper; [done|]. by rewrite Permutation_middle.
Qed.

Lemma atom_valid s a bls T : atom_inv s a bls T -> Forall (fun x => valid x.1) T.
Proof. intros A. eapply Forall_impl; [apply A|]. cbn. tauto. Qed.

(** C13: [atomize] refines a finite map from strings to tokens: a string that is
    there gives its token; a new one is added with a new token if [create] says
    so and there is memory, in its place among the others; no other atomizer
    changes.  There is no result exactly where a new string is to be stored, no
    block of the atomizer has room for it, and the [next] of the last one is the
    word that [malloc] left there: [atomize] sets it only when it links another
    block, and follows it here. *)
Theorem atomize_refines s x w create m realloc_ok T :
  reachable s -> allowed (Atomize x (Some w) create m realloc_ok) s -> w <> [] -> table (target x s) s = Some T ->
  let lost := create && bool_decide (as_map T !! w = None) && lost_for w (target x s) s in
  match atomize x (Some w) create m realloc_ok s with
  | None => lost = true
  | Some (r, s') =>
      lost = false /\
      exists T', table (target x s) s' = Some T' /\
        (forall y, y <> target x s -> table y s' = table y s) /\
        match as_map T !! w with
        | Some p => r = p /\ s' = s
        | None =>
            if create then
              (r = 0 /\ (al_address m = 0 \/ realloc_ok = false) /\ T' = T) \/
              (r <> 0 /\ as_map T' = <[w := r]> (as_map T) /\ sublist T T')
            else r = 0 /\ s' = s
        end
  end.
Proof.
  intros (bls & Tf & l & I & Hl)%atoms_reachable_sound Ha Hw0 Ht. destruct w as [|c w0] eqn:Ew; [done|]. rewrite <- Ew in *.
  assert (Hwm : string_ok w /\ memory_ok (target x s) w m realloc_ok s) by (rewrite Ew in *; exact Ha).
  destruct Hwm as [Hw Hm]. rewrite (target_resolve _ _ _ _ _ I Hl) in *. set (y := resolve x l) in *.
  destruct (table_inv _ _ _ _ _ _ I Ht) as (a & Hay & -> & A).
  assert (Hkeys : NoDup (Tf y).*1) by (apply sorted_keys; [apply A|by eapply atom_valid]).
  assert (Habs : (forall p, (w, p) ∉ Tf y) <-> as_map (Tf y) !! w = None).
  { unfold as_map. rewrite <- not_elem_of_list_to_map, list_elem_of_fmap. split.
    - intros Hno ([v p] & E1 & Hin). cbn in E1. subst v. by apply (Hno p).
    - intros Hno p Hin. apply Hno. by exists (w, p). }
  destruct (atomize_ok _ _ _ _ x _ create _ _ I Hl Hw Hm)
    as [[Hn _]|[(Hc & Hno & Eo & E)|(Hlost & r & s' & bls' & T' & _ & E & I' & Hint & Hoth & Hnc)]];
    [fold y in Hn; congruence| |]; rewrite E.
  { apply Habs in Hno. fold y in Eo. cbn zeta. by rewrite Hc, Hno, Eo. }
  fold y in I', Hint, Hoth, Hlost. split.
  { cbn zeta. destruct create; [|done]. cbn [andb]. case_bool_decide as Hb; [|done]. cbn [andb]. by apply Hlost; [|apply Habs]. }
  exists T'.
  assert (Hsome : forall z, is_Some (s_atoms s !! z) <-> is_Some (s_atoms s' !! z)).
  { intros z. destruct (v_atoms _ _ _ _ I) as [_ ->]. by destruct (v_atoms _ _ _ _ I') as [_ ->]. }
  assert (Ht' : table y s' = Some T').
  { destruct (proj1 (Hsome y)) as [a' Ha']; [by rewrite Hay|]. rewrite (table_ok _ _ _ _ _ _ I' Ha'). by rewrite fn_lookup_insert. }
  split; [done|]. split.
  { intros z Hz. destruct (s_atoms s !! z) as [b|] eqn:Hb.
    - rewrite (table_ok _ _ _ _ _ _ I Hb). rewrite (table_ok _ _ _ _ z b I') by (by rewrite Hoth). by rewrite fn_lookup_insert_ne by done.
    - rewrite !table_none; [done|done|]. by rewrite Hoth. }
  destruct (table_inv _ _ _ _ _ _ I' Ht') as (a' & _ & ET & A').
  assert (Hkeys' : NoDup T'.*1) by (rewrite ET; apply sorted_keys; [apply A'|by eapply atom_valid]).
  destruct Hint as [(i & Hi & ->)|(Hno & Hcase)].
  - unfold as_map. rewrite (proj1 (elem_of_list_to_map _ _ _ Hkeys) (list_elem_of_lookup_2 _ _ _ Hi)).
    split; [done|]. apply Hnc. right. exists r. by eapply list_elem_of_lookup_2.
  - rewrite (proj1 Habs Hno).
    destruct Hcase as [(-> & -> & ->)|[(-> & -> & Hf & ->)|(-> & Hr & T1 & T2 & E1 & ->)]]; [split; [done|apply Hnc; by left]|by left|right].
    split_and!; [done| |]; rewrite E1.
    + by apply as_map_insert.
    + apply sublist_app; [done|]. by apply sublist_cons.
Qed.

Lemma atomize_refines_witness :
  match run sample_env sample_calls with
  | Some s => exists r s' T', atomize 32 (Some [98]) true (Alloc 0 0) true s = Some (r, s') /\
                table 32 s' = Some T' /\ table 16 s' = table 16 s
  | None => False
  end.
Proof.
  destruct (run sample_env sample_calls) as [s|] eqn:E; [|by vm_compute in E]. pose proof (atoms_run_reachable _ _ _ E) as Hr.
  vm_compute in E. injection E as <-.
  match type of Hr with reachable ?s =>
    pose proof (atomize_refines s 32 [98] true (Alloc 0 0) true [([97], 8206); ([99], 8204)] Hr
      ltac:(apply (bool_decide_unpack _); vm_compute; exact I) ltac:(discriminate) ltac:(vm_compute; reflexivity)) as H
  end.
  cbv zeta in H. destruct (atomize _ _ _ _ _ _) as [[r s']|] eqn:E2; [|by vm_compute in H].
  destruct H as (_ & T' & H2 & H3 & _). exists r, s', T'. split; [reflexivity|]. split; [exact H2|]. apply (H3 16). vm_compute. discriminate.
Defined.

(** C26: The strings of a table are in the order of [strcmp], each once; their
    tokens are different addresses, and the token of a string leads back to
    it. *)
Theorem tokens_unique s x T :
  reachable s -> table x s = Some T ->
  sorted T /\ NoDup T.*1 /\ NoDup T.*2 /\
  Forall (fun y => y.1 <> [] /\ y.2 <> 0 /\ string_for_token x y.2 s = Some y.1) T.
Proof.
  intros (bls & Tf & l & I & Hl)%atoms_reachable_sound Ht. destruct (table_inv _ _ _ _ _ _ I Ht) as (a & _ & -> & A).
  assert (Hst : Forall (fun y => y.1 <> [] /\ y.2 <> 0 /\ string_for_token x y.2 s = Some y.1) (Tf x)).
  { eapply Forall_impl; [apply A|]. intros [w p] (H1 & H2 & H3 & (b & r & _ & Hr & H4 & _)). cbn in *.
    split_and!; [done| |by apply read_string_ok].
    destruct (mo_block _ (v_mem _ _ _ _ I) _ _ Hr). unfold sizeof_block_list in *. lia. }
  pose proof (sorted_keys _ (ai_sorted _ _ _ _ A) (atom_valid _ _ _ _ A)) as Hk.
  split_and!; [apply A|done| |done]. clear -Hst Hk. induction Hst as [|[w p] T (_ & _ & H1) Hst IH]; [constructor|].
  cbn in *. apply NoDup_cons in Hk as [Hni Hk]. constructor; [|by apply IH].
  intros ([v q] & E & Hin)%list_elem_of_fmap. cbn in E. subst q. rewrite Forall_forall in Hst.
  destruct (Hst _ Hin) as (_ & _ & H2). cbn in H2. rewrite H1 in H2. injection H2 as <-.
  apply Hni. apply list_elem_of_fmap. by exists (w, p).
Qed.

Lemma tokens_unique_witness :
  match run sample_env sample_calls with
  | Some s => exists T, table 32 s = Some T /\ sorted T /\ NoDup T.*2
  | None => False
  end.
Proof.
  destruct (run sample_env sample_calls) as [s|] eqn:E; [|by vm_compute in E]. pose proof (atoms_run_reachable _ _ _ E) as Hr.
  vm_compute in E. injection E as <-. exists [([97], 8206); ([99], 8204)].
  match type of Hr with reachable ?s =>
    destruct (tokens_unique s 32 [([97], 8206); ([99], 8204)] Hr ltac:(vm_compute; reflexivity)) as (H1 & _ & H3 & _)
  end.
  split; [vm_compute; reflexivity|]. split; [exact H1|exact H3].
Defined.

(** Calls that do not delete [x]. *)
Inductive calls_keeping (x : Z) : sys -> sys -> Prop :=
  | keep_nil s : calls_keeping x s s
  | keep_step c s r s' s2 : c <> Delete x -> allowed c s -> step c s = Some (r, s') -> calls_keeping x s' s2 ->
      calls_keeping x s s2.

Lemma step_keeps c s bls (T : Z -> list (list Z * Z)) l x r s' :
  inv s bls T l -> l <> [] -> allowed c s -> c <> Delete x -> step c s = Some (r, s') -> is_Some (s_atoms s !! x) ->
  exists (bls' : Z -> list Z) (T' : Z -> list (list Z * Z)) l', inv s' bls' T' l' /\ l' <> [] /\ is_Some (s_atoms s' !! x) /\ sublist (T x) (T' x).
Proof.
  intros I Hl Ha Hc E Hx. destruct c as [string env|z|z string create m ok]; cbn [step allowed] in *.
  - destruct Ha as [Hn He].
    destruct (find_or_make_ok I string env Hn He) as [(n & y & _ & E2)|(_ & [E2|(s2 & b & E2 & _ & Hno & I')])]; [done|..];
      rewrite E2 in E; injection E as <- <-; [by exists bls, T, l..|].
    eexists _, _, _. split; [exact I'|]. split; [by intros [? [=]]%app_eq_nil|].
    assert (env_atomizer env <> x) by (intros <-; rewrite Hno in Hx; by destruct Hx). rewrite fn_lookup_insert_ne by done.
    split; [|done]. apply (v_atoms _ _ _ _ I'). rewrite !fmap_app. apply elem_of_app. left. by apply (v_atoms _ _ _ _ I).
  - destruct (delete_ok _ _ _ _ z I Hl) as [[E2 _]|[[_ E2]|(s2 & l1 & n & w & l2 & E2 & _ & Hl1 & I' & Ea & _)]];
      rewrite E2 in E; [|done|]; injection E as <- <-; [by exists bls, T, l|].
    exists bls, T, (l1 ++ l2). split_and!; [done|by intros [? _]%app_eq_nil| |done].
    rewrite Ea, lookup_delete_ne; [done|]. by intros ->.
  - destruct string as [[|c w]|]; [by injection E as <- <-; exists bls, T, l| |by injection E as <- <-; exists bls, T, l].
    destruct Ha as [Hw Hm]. rewrite (target_resolve _ _ _ _ _ I Hl) in Hm.
    destruct (atomize_ok _ _ _ _ z _ create _ _ I Hl Hw Hm) as [[_ E2]|[(_ & _ & _ & E2)|(_ & r2 & s2 & bls' & T' & _ & E2 & I' & Hint & Hoth & _)]];
      rewrite E2 in E; [|done|]; injection E as <- <-; [by exists bls, T, l|].
    eexists _, _, l. split; [exact I'|]. split; [done|]. split.
    { apply (v_atoms _ _ _ _ I'). by apply (v_atoms _ _ _ _ I). }
    destruct (decide (resolve z l = x)) as [<-|Hne]; [rewrite fn_lookup_insert|by rewrite fn_lookup_insert_ne].
    destruct Hint as [(_ & _ & ->)|(_ & [(_ & _ & ->)|[(_ & _ & _ & ->)|(_ & _ & T1 & T2 & -> & ->)]])]; try done.
    apply sublist_app; [done|]. by apply sublist_cons.
Qed.

(** C27: A token stays the token of its string for as long as the atomizer is
    there: whatever other calls come in between, the table keeps its entries,
    in their order. *)
Theorem tokens_persist s s' x T :
  reachable s -> calls_keeping x s s' -> table x s = Some T -> exists T', table x s' = Some T' /\ sublist T T'.
Proof.
  intros (bls & Tf & l & I & Hl)%atoms_reachable_sound Hc Ht. revert bls Tf l I Hl T Ht.
  induction Hc as [s|c s r s' s2 Hc Ha E _ IH]; intros bls Tf l I Hl T Ht; [by exists T|].
  destruct (table_inv _ _ _ _ _ _ I Ht) as (a & Hx & -> & _).
  destruct (step_keeps c s bls Tf l x r s' I Hl Ha Hc E) as (bls' & T' & l' & I' & Hl' & [a' Hx'] & Hsub); [by rewrite Hx|].
  destruct (IH bls' T' l' I' Hl' (T' x)) as (T2 & Ht2 & Hsub2); [by eapply table_ok|].
  exists T2. split; [done|]. by etransitivity.
Qed.

Lemma tokens_persist_witness :
  match run sample_env sample_calls with
  | Some s => match step (Atomize 32 (Some [98]) true (Alloc 0 0) true) s with
              | Some (_, s') => exists T, table 32 s' = Some T /\ sublist [([97], 8206); ([99], 8204)] T
              | None => False
              end
  | None => False
  end.
Proof.
  destruct (run sample_env sample_calls) as [s|] eqn:E; [|by vm_compute in E]. pose proof (atoms_run_reachable _ _ _ E) as Hr.
  vm_compute in E. injection E as <-.
  destruct (step _ _) as [[r s']|] eqn:E2; [|by vm_compute in E2].
  match type of Hr with reachable ?s =>
    apply (tokens_persist s s' 32 [([97], 8206); ([99], 8204)] Hr)
  end.
  - match type of E2 with step ?c ?s = _ => refine (keep_step 32 c s r s' s' _ _ E2 (keep_nil _ _)) end.
    + discriminate.
    + apply (bool_decide_unpack _). vm_compute. exact I.
  - vm_compute. reflexivity.
Defined.

(** [get_next_atom] gives the tokens of an atomizer one by one, in the order
    of their strings, and then 0. *)
Theorem get_next_atom_lists s x T i :
  reachable s -> table x s = Some T -> 0 <= i ->
  get_next_atom x i s = Some (match T !! Z.to_nat i with Some y => (y.2, i + 1) | None => (0, i) end).
Proof.
  intros (bls & Tf & l & I & Hl)%atoms_reachable_sound Ht Hi. destruct (table_inv _ _ _ _ _ _ I Ht) as (a & Hx & -> & A).
  unfold get_next_atom. destruct (walk_atomizer I x) as [[_ Hn]|(l1 & n & w & l2 & El & E)]; [congruence|].
  rewrite E. cbn [mbind option_bind]. destruct (node_ok I n w x) as [Hn0 _]; [rewrite El; set_solver|].
  rewrite (proj2 (Z.eqb_neq n 0)) by done. rewrite Hx. cbn [mbind option_bind].
  pose proof (ai_room _ _ _ _ A) as Hr. rewrite (ai_count _ _ _ _ A) in *.
  destruct (Z.ltb_spec i (Z.of_nat (length (Tf x)))) as [Hlt|Hge].
  - destruct (Tf x !! Z.to_nat i) as [y|] eqn:Ey; [|apply lookup_ge_None in Ey; lia].
    rewrite (entries_lookup _ _ _ _ (ai_entries _ _ _ _ A) Ey). cbn [mjoin option_join mbind option_bind].
    by rewrite u32_small by lia.
  - by rewrite lookup_ge_None_2 by lia.
Qed.

Lemma get_next_atom_lists_witness :
  match run sample_env sample_calls with Some s => get_next_atom 32 1 s = Some (8204, 2) | None => False end.
Proof.
  destruct (run sample_env sample_calls) as [s|] eqn:E; [|by vm_compute in E]. pose proof (atoms_run_reachable _ _ _ E) as Hr.
  vm_compute in E. injection E as <-.
  match type of Hr with reachable ?s =>
    apply (get_next_atom_lists s 32 [([97], 8206); ([99], 8204)] 1 Hr)
  end.
  - vm_compute. reflexivity.
  - lia.
Defined.

(** The last block of a chain. *)
Lemma block_chain_end bs head l : block_chain bs head l -> l <> [] ->
  exists l' b r, l = l' ++ [b] /\ bs !! b = Some r /\ (bl_next r = Link 0 \/ bl_next r = Unset).
Proof.
  revert head. induction l as [|b l IH]; intros head; [done|]. intros (_ & _ & x & Hx & Hc) _.
  destruct l as [|c l]; [by exists [], b, x|]. destruct (IH _ Hc) as (l' & d & r & -> & Hr & H); [done|].
  by exists (b :: l'), d, r.
Qed.

Lemma runs_off_null bs head test fuel l b r : block_chain bs head (l ++ [b]) -> bs !! b = Some r -> bl_next r = Link 0 ->
  runs_off test fuel bs head = false.
Proof.
  intros Hc Hr En. revert fuel head Hc. induction l as [|c l IH]; intros fuel head; intros (-> & Hb & x & Hx & Hc);
    (destruct fuel as [|fuel]; cbn [runs_off]; rewrite (proj2 (Z.eqb_neq _ 0)) by done; [done|]; rewrite Hx).
  - simplify_eq. rewrite En. destruct fuel; apply andb_false_r.
  - rewrite IH by done. apply andb_false_r.
Qed.

(** The [next] of a block that [atomize] allocates is not set: it is the word
    that [malloc] left there.  If that is not 0, then a later string that does
    not fit into any block makes [atomize] follow it. *)
Theorem new_block_next_unset s head bls len m :
  mem_ok (s_blocks s) -> block_chain (s_blocks s) (Link head) bls -> bls <> [] -> NoDup bls -> 0 < len <= 2 ^ 30 ->
  memory_result (page_round (sizeof_block_list + len)) m (s_blocks s) -> al_address m <> 0 -> al_next m <> 0 ->
  (forall b r, s_blocks s !! b = Some r -> bl_free_bytes r < len) ->
  match room_for head len m s with
  | Some (b, s') =>
      b = al_address m /\
      forall len2 m2, (forall b r, s_blocks s' !! b = Some r -> bl_free_bytes r < len2) -> room_for head len2 m2 s' = None
  | None => exists l b r, bls = l ++ [b] /\ s_blocks s !! b = Some r /\ bl_next r = Unset
  end.
Proof.
  intros M Hc Hne Hnd Hlen Hm Ha Hg Hfull.
  destruct (find_block_ok _ _ _ len (size (s_blocks s)) Hc Hne) as [[_ (b & r & Ef & Hin & Hr & Hor)]|[Eo Ef]].
  { by eapply block_chain_length. }
  2:{ unfold room_for. rewrite Ef. cbn [mbind option_bind]. destruct (block_chain_end _ _ _ Hc Hne) as (l & b & r & -> & Hr & [E|E]).
      - by rewrite (runs_off_null _ _ _ _ _ _ _ Hc Hr E) in Eo.
      - by exists l, b, r. }
  pose proof (Hfull b r Hr) as Hfr. destruct Hor as [|(Hn & l & El)]; [lia|].
  destruct Hm as [|(Ha0 & Hae & Hap)]; [done|].
  assert (Hfree : s_blocks s !! al_address m = None).
  { destruct (s_blocks s !! al_address m) as [z|] eqn:E; [|done]. exfalso. destruct (mo_block _ M _ _ E) as (_ & Hz & Hz2 & _).
    pose proof (Hap _ z E). pose proof (page_round_ge (sizeof_block_list + len)). unfold block_end, sizeof_block_list in *. lia. }
  unfold room_for at 1. rewrite Ef. cbn [mbind option_bind]. rewrite Hr. cbn [mbind option_bind].
  rewrite (proj2 (Z.leb_gt _ _)) by done. rewrite (proj2 (Z.eqb_neq _ 0)) by done.
  split; [done|]. intros len2 m2 Hfull2. unfold room_for. cbn [s_blocks with_blocks] in *.
  assert (Eu : unset_word (al_next m) = Unset) by (unfold unset_word; by rewrite (proj2 (Z.eqb_neq _ 0))).
  rewrite Eu in *. set (y := Block Unset _ _) in *.
  assert (Hc2 : block_chain (<[al_address m := y]> (<[b := Block (Link (al_address m)) (bl_free_space r) (bl_free_bytes r)]> (s_blocks s)))
                  (Link head) (l ++ [b; al_address m])).
  { apply block_chain_snoc; [by rewrite <- El|by rewrite <- El|done|done|done|by right]. }
  destruct (find_block_ok _ _ _ len2 (size (<[al_address m := y]> (<[b := Block (Link (al_address m)) (bl_free_space r) (bl_free_bytes r)]> (s_blocks s)))) Hc2)
    as [[_ (c & z & _ & _ & Hz & [Hl|(En & l' & E)])]|[_ ->]]; [by destruct l| | | |done].
  - eapply block_chain_length; [exact Hc2|]. rewrite El in Hnd, Hc. change [b; al_address m] with ([b] ++ [al_address m]). rewrite app_assoc.
    apply NoDup_app. split_and!; [done| |apply NoDup_singleton]. intros x Hx ->%list_elem_of_singleton.
    destruct (block_chain_in _ _ _ _ Hc Hx). congruence.
  - pose proof (Hfull2 c z Hz). lia.
  - change [b; al_address m] with ([b] ++ [al_address m]) in E. rewrite app_assoc in E. apply app_inj_tail in E as [_ <-].
    rewrite lookup_insert_eq in Hz. by simplify_eq.
Qed.

Lemma new_block_next_unset_witness :
  let s := Sys ∅ {[4096 := Block (Link 0) 8190 2]} ∅ ∅ 0 in
  exists s', room_for 4096 5 (Alloc 8192 77) s = Some (8192, s') /\ room_for 4096 5000 (Alloc 0 0) s' = None.
Proof.
  intros s. assert (H : match room_for 4096 5 (Alloc 8192 77) s with
    | Some (b, s') => b = 8192 /\ forall len2 m2, (forall b r, s_blocks s' !! b = Some r -> bl_free_bytes r < len2) -> room_for 4096 len2 m2 s' = None
    | None => exists l b r, [4096] = l ++ [b] /\ s_blocks s !! b = Some r /\ bl_next r = Unset
    end).
  { apply (new_block_next_unset s 4096 [4096] 5 (Alloc 8192 77)).
    - split; intros *; cbn [s_blocks]; subst s; cbn [s_blocks]; rewrite !lookup_singleton_Some.
      + intros [<- <-]. apply (bool_decide_unpack _). vm_compute. exact I.
      + intros [<- _] [<- _] []. reflexivity.
    - cbn. split_and!; try done. eexists. split; [reflexivity|by left].
    - discriminate.
    - apply NoDup_singleton.
    - lia.
    - apply (bool_decide_unpack _). vm_compute. exact I.
    - discriminate. - discriminate.
    - intros b r. subst s. cbn [s_blocks]. rewrite lookup_singleton_Some. intros [_ <-]. by cbn. }
  destruct (room_for 4096 5 (Alloc 8192 77) s) as [[b s']|] eqn:E; [|by vm_compute in E].
  destruct H as [-> H]. exists s'. split; [reflexivity|]. apply H. vm_compute in E. injection E as <-. intros b r. cbn [s_blocks].
  apply (map_Forall_lookup_1 (fun _ r => bl_free_bytes r < 5000)). apply (bool_decide_unpack _). vm_compute. exact I.
Defined.

(** Such an execution: a string of 5000 bytes gets a block of its own, in front of
    which [malloc] left 77; one of 9000 bytes then follows that. *)
Example atomize_lost :
  (s ← run sample_env (sample_calls ++ [Atomize 32 (Some (replicate 5000 97)) true (Alloc 12288 77) true]);
   Some (lost_for (replicate 9000 98) 32 s, atomize 32 (Some (replicate 9000 98)) true (Alloc 0 0) true s)) = Some (true, None).
Proof. by vm_compute. Qed.
