(* ===== verification/IdeTask.v ===== *)
(** ATA commands of the IDE bus manager: the task file of a read or write command
    (ata.c, scsi2ata.c, ide_types.h), the registers a controller writes
    (ide_adapter.c), and what a drive reads from them. *)
From stdpp Require Import base tactics list.
From Stdlib Require Import ZArith Lia.
From S2P Require Import Prelude ScsiDevice.

(** ** The data *)

(** The parts of [ide_device_info] that make up a command.  The task file is its
    bytes; the bytes from 7 on are the high order bytes of the registers. *)
Record ata_device := AtaDevice {
  use_LBA : bool;
  use_48bits : bool;
  current_heads : Z;
  current_sectors : Z;
  new_combined_sense : Z;
  tf_param_mask : Z;
  tf : list Z
}.

(** The parts of [ide_qrequest]. *)
Record ata_request := AtaRequest { uses_dma : bool; queuable : bool; tag : Z }.

Definition with_tf (f : list Z -> list Z) (d : ata_device) : ata_device :=
  AtaDevice (use_LBA d) (use_48bits d) (current_heads d) (current_sectors d) (new_combined_sense d) (tf_param_mask d) (f (tf d)).
Definition set_param_mask (m : Z) (d : ata_device) : ata_device :=
  AtaDevice (use_LBA d) (use_48bits d) (current_heads d) (current_sectors d) (new_combined_sense d) m (tf d).

Definition set_sense (sense_key sense_asc : Z) (d : ata_device) : ata_device :=
  AtaDevice (use_LBA d) (use_48bits d) (current_heads d) (current_sectors d)
    (Z.lor (Z.shiftl sense_key 16) sense_asc) (tf_param_mask d) (tf d).

Definition SCSIS_KEY_MEDIUM_ERROR : Z := 3.
Definition SCSIS_KEY_ILLEGAL_REQUEST : Z := 5.
Definition SCSIS_ASC_INV_CDB_FIELD : Z := 0x2400.
Definition SCSIS_ASC_MEDIUM_FORMAT_CORRUPTED : Z := 0x3100.

(** ** Fields of the task file *)

Definition ide_mode_chs : Z := 5.

Definition ide_mask_features : Z := 0x01.
Definition ide_mask_sector_count : Z := 0x02.
Definition ide_mask_sector_number : Z := 0x04.
Definition ide_mask_cylinder_low : Z := 0x08.
Definition ide_mask_cylinder_high : Z := 0x10.
Definition ide_mask_LBA_low : Z := 0x04.
Definition ide_mask_LBA_mid : Z := 0x08.
Definition ide_mask_LBA_high : Z := 0x10.
Definition ide_mask_device_head : Z := 0x20.
Definition ide_mask_command : Z := 0x40.
Definition ide_mask_features_48 : Z := Z.lor 0x80 ide_mask_features.
Definition ide_mask_sector_count_48 : Z := Z.lor 0x100 ide_mask_sector_count.
Definition ide_mask_LBA_low_48 : Z := Z.lor 0x200 ide_mask_LBA_low.
Definition ide_mask_LBA_mid_48 : Z := Z.lor 0x400 ide_mask_LBA_mid.
Definition ide_mask_LBA_high_48 : Z := Z.lor 0x800 ide_mask_LBA_high.

(** Storing the [n] bits of [v] into a byte from bit [lo] on. *)
Definition put_bits (lo n v b : Z) : Z :=
  Z.lor (Z.land b (Z.lnot (Z.shiftl (Z.ones n) lo))) (Z.shiftl (Z.land v (Z.ones n)) lo).

Definition put (i : nat) (v : Z) (r : list Z) : list Z := <[i := v]> r.
Definition put_field (i : nat) (lo n v : Z) (r : list Z) : list Z := alter (put_bits lo n v) i r.

(** The fields by their place: [lba_24_27], [head] and [mode] share the byte of
    the device register, [tag] is in the byte of the sector count. *)
Definition put_tag (v : Z) := put_field 1 3 5 v.
Definition put_lba_24_27 (v : Z) := put_field 5 0 4 v.
Definition put_mode (v : Z) := put_field 5 5 3 v.

(** ** Commands *)

Definition IDE_CMD_WRITE_DMA : Z := 0xca.
Definition IDE_CMD_WRITE_DMA_QUEUED : Z := 0xcc.
Definition IDE_CMD_WRITE_SECTORS : Z := 0x30.
Definition IDE_CMD_READ_DMA : Z := 0xc8.
Definition IDE_CMD_READ_DMA_QUEUED : Z := 0xc7.
Definition IDE_CMD_READ_SECTORS : Z := 0x20.
Definition IDE_CMD_WRITE_DMA_EXT : Z := 0x35.
Definition IDE_CMD_WRITE_DMA_QUEUED_EXT : Z := 0x36.
Definition IDE_CMD_WRITE_SECTORS_EXT : Z := 0x34.
Definition IDE_CMD_READ_DMA_EXT : Z := 0x25.
Definition IDE_CMD_READ_DMA_QUEUED_EXT : Z := 0x26.
Definition IDE_CMD_READ_SECTORS_EXT : Z := 0x24.

Definition cmd_48 (dma write : bool) : Z :=
  match dma, write with
  | false, false => IDE_CMD_READ_SECTORS_EXT
  | false, true => IDE_CMD_WRITE_SECTORS_EXT
  | true, false => IDE_CMD_READ_DMA_EXT
  | true, true => IDE_CMD_WRITE_DMA_EXT
  end.

Definition cmd_28 (dma write : bool) : Z :=
  match dma, write with
  | false, false => IDE_CMD_READ_SECTORS
  | false, true => IDE_CMD_WRITE_SECTORS
  | true, false => IDE_CMD_READ_DMA
  | true, true => IDE_CMD_WRITE_DMA
  end.

Definition byte_of (pos k : Z) : Z := Z.land (Z.shiftr pos (8 * k)) 0xff.

(** [pos] is 64 bits wide, [length] 32. *)
Definition create_rw_taskfile (d : ata_device) (q : ata_request) (pos length : Z) (write : bool) : bool * ata_device :=
  let err d := (false, set_sense SCSIS_KEY_ILLEGAL_REQUEST SCSIS_ASC_INV_CDB_FIELD d) in
  if use_LBA d then
    if use_48bits d && ((0xfffffff <? u64 (pos + length)) || (0x100 <? length)) then
      if 0xffff <? length then err d
      else
        let lba r := put 11 (byte_of pos 5) (put 10 (byte_of pos 4) (put 9 (byte_of pos 3)
          (put 4 (byte_of pos 2) (put 3 (byte_of pos 1) (put 2 (byte_of pos 0) r))))) in
        if queuable q then
          let mask := Z.lor (Z.lor (Z.lor (Z.lor ide_mask_features_48 ide_mask_sector_count)
            ide_mask_LBA_low_48) ide_mask_LBA_mid_48) ide_mask_LBA_high_48 in
          (true, with_tf (fun r =>
             put 6 (if write then IDE_CMD_WRITE_DMA_QUEUED_EXT else IDE_CMD_READ_DMA_QUEUED_EXT)
               (lba (put_tag (tag q) (put 7 (byte_of length 1) (put 0 (byte_of length 0) r)))))
             (set_param_mask mask d))
        else
          let mask := Z.lor (Z.lor (Z.lor ide_mask_sector_count_48
            ide_mask_LBA_low_48) ide_mask_LBA_mid_48) ide_mask_LBA_high_48 in
          (true, with_tf (fun r =>
             put 6 (cmd_48 (uses_dma q) write)
               (lba (put 8 (byte_of length 1) (put 1 (byte_of length 0) r))))
             (set_param_mask mask d))
    else if 0x100 <? length then err d
    else
      let lba r := put_lba_24_27 (Z.land (Z.shiftr pos 24) 0xf)
        (put 4 (byte_of pos 2) (put 3 (byte_of pos 1) (put 2 (byte_of pos 0) r))) in
      if queuable q then
        let mask := Z.lor (Z.lor (Z.lor (Z.lor (Z.lor ide_mask_features ide_mask_sector_count)
          ide_mask_LBA_low) ide_mask_LBA_mid) ide_mask_LBA_high) ide_mask_device_head in
        (true, with_tf (fun r =>
           put 6 (if write then IDE_CMD_WRITE_DMA_QUEUED else IDE_CMD_READ_DMA_QUEUED)
             (lba (put_tag (tag q) (put 0 (byte_of length 0) r))))
           (set_param_mask mask d))
      else
        let mask := Z.lor (Z.lor (Z.lor (Z.lor ide_mask_sector_count
          ide_mask_LBA_low) ide_mask_LBA_mid) ide_mask_LBA_high) ide_mask_device_head in
        (true, with_tf (fun r => put 6 (cmd_28 (uses_dma q) write) (lba (put 1 (byte_of length 0) r)))
           (set_param_mask mask d))
  else if 0x100 <? length then err d
  else
    let mask := Z.lor (Z.lor (Z.lor (Z.lor ide_mask_sector_count ide_mask_sector_number)
      ide_mask_cylinder_low) ide_mask_cylinder_high) ide_mask_device_head in
    let d := with_tf (fun r => put 1 (byte_of length 0) (put_mode ide_mode_chs r)) d in
    let d := set_param_mask mask d in
    let track_size := u32 (current_heads d * current_sectors d) in
    if track_size =? 0 then (false, set_sense SCSIS_KEY_MEDIUM_ERROR SCSIS_ASC_MEDIUM_FORMAT_CORRUPTED d)
    else
      let cylinder := u32 (pos / track_size) in
      let cylinder_offset := u32 (pos - cylinder * track_size) in
      (true, with_tf (fun r =>
         put 6 (cmd_28 (uses_dma q) write)
           (put_field 5 0 4 (cylinder_offset / current_sectors d)
             (put 2 (Z.land (cylinder_offset mod current_sectors d + 1) 0xff)
               (put 4 (byte_of cylinder 1) (put 3 (byte_of cylinder 0) r))))) d).

Definition SCSI_OP_READ_10 : Z := 0x28.
Definition SCSI_OP_WRITE_10 : Z := 0x2a.

Definition cdb_byte (cdb : list Z) (k : nat) : Z := nth k cdb 0.

(** The position, the number of blocks and the direction of a read or write
    command block; no result for another command.  With 0 blocks [ata_exec_io]
    finishes the request at once. *)
Definition scsi_rw (cdb : list Z) : option (Z * Z * bool) :=
  let op := cdb_byte cdb 0 in
  if (op =? SCSI_OP_READ_6) || (op =? SCSI_OP_WRITE_6) then
    let pos := Z.lor (Z.lor (Z.shiftl (Z.land (cdb_byte cdb 1) 0x1f) 16) (Z.shiftl (cdb_byte cdb 2) 8)) (cdb_byte cdb 3) in
    let length := if cdb_byte cdb 4 =? 0 then 256 else cdb_byte cdb 4 in
    Some (pos, length, op =? SCSI_OP_WRITE_6)
  else if (op =? SCSI_OP_READ_10) || (op =? SCSI_OP_WRITE_10) then
    let pos := cdb_byte cdb 2 * 2 ^ 24 + cdb_byte cdb 3 * 2 ^ 16 + cdb_byte cdb 4 * 2 ^ 8 + cdb_byte cdb 5 in
    let length := cdb_byte cdb 7 * 2 ^ 8 + cdb_byte cdb 8 in
    Some (pos, length, op =? SCSI_OP_WRITE_10)
  else None.

(** ** The registers of the controller *)

(** What the controller writes: the number of the register and the byte, in
    order. *)
Definition write_command_block_regs (r : list Z) (mask : Z) : list (nat * Z) :=
  concat (map (fun i =>
    (if Z.land (Z.shiftl 1 (Z.of_nat i + 7)) mask =? 0 then [] else [(i, nth (i + 7) r 0)]) ++
    (if Z.land (Z.shiftl 1 (Z.of_nat i)) mask =? 0 then [] else [(i, nth i r 0)])) (seq 0 7)).

(** The writes of [send_command]: the device is selected, then come the
    parameters, at last the command. *)
Definition send_writes (d : ata_device) : list (nat * Z) :=
  write_command_block_regs (tf d) ide_mask_device_head ++
  write_command_block_regs (tf d) (tf_param_mask d) ++
  write_command_block_regs (tf d) ide_mask_command.

(** ** What a drive reads

    Each register of a drive holds the last two bytes that were written to it. *)

Record registers := Regs { cur : nat -> Z; prv : nat -> Z }.

Definition write_register (g : registers) (x : nat * Z) : registers :=
  Regs (fun i => if Nat.eqb i x.1 then x.2 else cur g i) (fun i => if Nat.eqb i x.1 then cur g i else prv g i).

Record drive_command := Drive { dr_write : bool; dr_dma : bool; dr_tag : option Z; dr_start : Z; dr_count : Z }.

(** The commands: the opcode, whether it writes, uses DMA, is queued, and has
    addresses of 48 bits. *)
Definition ata_commands : list (Z * (bool * bool * bool * bool)) :=
  [(0x20, (false, false, false, false)); (0x30, (true, false, false, false));
   (0xc8, (false, true, false, false)); (0xca, (true, true, false, false));
   (0xc7, (false, true, true, false)); (0xcc, (true, true, true, false));
   (0x24, (false, false, false, true)); (0x34, (true, false, false, true));
   (0x25, (false, true, false, true)); (0x35, (true, true, false, true));
   (0x26, (false, true, true, true)); (0x36, (true, true, true, true))].

(** The command a drive with this geometry finds in its registers.  A count of 0
    stands for the largest one. *)
Definition drive_reads (heads sectors : Z) (g : registers) : option drive_command :=
  '(_, (write, dma, queued, ext)) ← list_find (fun x => x.1 = cur g 6) ata_commands ≫= (fun y => Some y.2);
  let device := cur g 5 in
  let low := cur g 2 + cur g 3 * 2 ^ 8 + cur g 4 * 2 ^ 16 in
  let chs := ((cur g 3 + cur g 4 * 2 ^ 8) * heads + device mod 16) * sectors + cur g 2 - 1 in
  let high := prv g 2 + prv g 3 * 2 ^ 8 + prv g 4 * 2 ^ 16 in
  let start := if (ext : bool) then low + high * 2 ^ 24
               else if Z.testbit device 6 then low + (device mod 16) * 2 ^ 24 else chs in
  let reg := if (queued : bool) then 0%nat else 1%nat in
  let count := if ext then cur g reg + prv g reg * 2 ^ 8 else cur g reg in
  let count := if count =? 0 then (if ext then 2 ^ 16 else 2 ^ 8) else count in
  Some (Drive write dma (if queued then Some (cur g 1 / 8) else None) start count).

(** ** Bits *)

Lemma byte_of_eq pos k : 0 <= k -> byte_of pos k = pos / 2 ^ (8 * k) mod 256.
Proof. intros Hk. unfold byte_of. change 0xff with (Z.ones 8). by rewrite Z.land_ones, Z.shiftr_div_pow2 by lia. Qed.

Lemma byte_of_range pos k : 0 <= k -> 0 <= byte_of pos k < 256.
Proof. intros Hk. rewrite byte_of_eq by done. by apply Z.mod_pos_bound. Qed.

Lemma three_bytes pos : byte_of pos 0 + byte_of pos 1 * 2 ^ 8 + byte_of pos 2 * 2 ^ 16 = pos mod 2 ^ 24.
Proof.
  rewrite !byte_of_eq by lia. change (2 ^ (8 * 0)) with 1. rewrite Z.div_1_r.
  change (2 ^ 24) with (2 ^ 8 * 2 ^ 16). rewrite Z.rem_mul_r by lia.
  change (2 ^ 16) with (2 ^ 8 * 2 ^ 8) at 2. rewrite Z.rem_mul_r, Z.div_div by lia.
  change (2 ^ 8 * 2 ^ 8) with (2 ^ (8 * 2)). change (2 ^ (8 * 1)) with (2 ^ 8). change 256 with (2 ^ 8). change (2 ^ 16) with (2 ^ 8 * 2 ^ 8). ring.
Qed.

Lemma six_bytes pos :
  byte_of pos 0 + byte_of pos 1 * 2 ^ 8 + byte_of pos 2 * 2 ^ 16 +
  (byte_of pos 3 + byte_of pos 4 * 2 ^ 8 + byte_of pos 5 * 2 ^ 16) * 2 ^ 24 = pos mod 2 ^ 48.
Proof.
  assert (E : forall k, 0 <= k -> byte_of pos (3 + k) = byte_of (pos / 2 ^ 24) k).
  { intros k Hk. rewrite !byte_of_eq by lia. rewrite Z.div_div by lia. rewrite <- Z.pow_add_r by lia.
    by replace (24 + 8 * k) with (8 * (3 + k)) by ring. }
  change 3 with (3 + 0). change 4 with (3 + 1). change 5 with (3 + 2). rewrite !E by lia.
  rewrite !three_bytes. change (2 ^ 48) with (2 ^ 24 * 2 ^ 24). rewrite Z.rem_mul_r by lia. ring.
Qed.

Lemma put_bits_field lo n v b : 0 <= lo -> 0 <= n -> put_bits lo n v b / 2 ^ lo mod 2 ^ n = v mod 2 ^ n.
Proof.
  intros Hlo Hn. rewrite <- Z.shiftr_div_pow2, <- !Z.land_ones by lia. apply Z.bits_inj'. intros i Hi. unfold put_bits.
  rewrite !Z.land_spec, Z.shiftr_spec, Z.lor_spec, Z.land_spec, Z.lnot_spec, !Z.shiftl_spec by lia.
  replace (i + lo - lo) with i by lia. rewrite Z.land_spec. destruct (decide (i < n)).
  - rewrite Z.ones_spec_low by lia. by rewrite andb_false_r, !andb_true_r.
  - rewrite Z.ones_spec_high by lia. by rewrite !andb_false_r.
Qed.

Lemma put_bits_other lo n v b i :
  0 <= lo -> 0 <= n -> 0 <= i -> i < lo \/ lo + n <= i -> Z.testbit (put_bits lo n v b) i = Z.testbit b i.
Proof.
  intros Hlo Hn Hi Hout. unfold put_bits. rewrite Z.lor_spec, Z.land_spec, Z.lnot_spec, !Z.shiftl_spec by lia.
  destruct Hout as [H|H].
  - rewrite !(Z.testbit_neg_r _ (i - lo)) by lia. by rewrite andb_true_r, orb_false_r.
  - rewrite Z.land_spec, Z.ones_spec_high by lia. by rewrite andb_false_r, andb_true_r, orb_false_r.
Qed.

(** The tag in its byte. *)
Lemma put_bits_tag v b : 0 <= b < 256 -> 0 <= v < 32 -> put_bits 3 5 v b / 8 = v.
Proof.
  intros Hb Hv. apply Z.bits_inj'. intros i Hi. change 8 with (2 ^ 3). rewrite <- Z.shiftr_div_pow2, Z.shiftr_spec by lia.
  destruct (decide (i < 5)).
  - unfold put_bits. rewrite Z.lor_spec, Z.land_spec, Z.lnot_spec, !Z.shiftl_spec by lia. rewrite Z.land_spec.
    replace (i + 3 - 3) with i by lia. rewrite Z.ones_spec_low by lia. by rewrite andb_false_r, andb_true_r.
  - rewrite put_bits_other by lia. by rewrite (testbit_above v 5), (testbit_above b 8) by lia.
Qed.

(** ** Commands arrive *)

Definition run_writes (g : registers) (ws : list (nat * Z)) : registers := foldl write_register g ws.

(** A task file of the right size. *)
Definition is_taskfile (r : list Z) : Prop := length r = 12%nat /\ Forall (fun x => 0 <= x < 256) r.

Lemma taskfile_bytes r : is_taskfile r ->
  exists r0 r1 r2 r3 r4 r5 r6 r7 r8 r9 r10 r11, r = [r0; r1; r2; r3; r4; r5; r6; r7; r8; r9; r10; r11] /\
    0 <= r1 < 256 /\ 0 <= r5 < 256.
Proof.
  intros [Hl Hf]. do 12 (destruct r as [|? r]; [done|]). destruct r; [|done]. repeat (apply Forall_cons in Hf as [? Hf]).
  by do 12 eexists.
Qed.

(** The opcode of a command. *)
Definition opcode (q : ata_request) (ext write : bool) : Z :=
  if queuable q then
    if ext then if write then IDE_CMD_WRITE_DMA_QUEUED_EXT else IDE_CMD_READ_DMA_QUEUED_EXT
    else if write then IDE_CMD_WRITE_DMA_QUEUED else IDE_CMD_READ_DMA_QUEUED
  else if ext then cmd_48 (uses_dma q) write else cmd_28 (uses_dma q) write.

Lemma find_opcode q ext write :
  (list_find (fun x => x.1 = opcode q ext write) ata_commands ≫= (fun y => Some y.2)) =
  Some (opcode q ext write, (write, queuable q || uses_dma q, queuable q, ext)).
Proof. by destruct q as [[] [] t], ext, write. Qed.

(** What the registers hold when the command comes. *)
Lemma drive_reads_ext h s g q write :
  cur g 6 = opcode q true write ->
  drive_reads h s g =
  let reg := if queuable q then 0%nat else 1%nat in
  let count := cur g reg + prv g reg * 2 ^ 8 in
  Some (Drive write (queuable q || uses_dma q) (if queuable q then Some (cur g 1 / 8) else None)
    (cur g 2 + cur g 3 * 2 ^ 8 + cur g 4 * 2 ^ 16 + (prv g 2 + prv g 3 * 2 ^ 8 + prv g 4 * 2 ^ 16) * 2 ^ 24)
    (if count =? 0 then 2 ^ 16 else count)).
Proof. intros E. unfold drive_reads. rewrite E, find_opcode. reflexivity. Qed.

Lemma drive_reads_28 h s g q write :
  cur g 6 = opcode q false write ->
  drive_reads h s g =
  let count := cur g (if queuable q then 0%nat else 1%nat) in
  Some (Drive write (queuable q || uses_dma q) (if queuable q then Some (cur g 1 / 8) else None)
    (if Z.testbit (cur g 5) 6 then cur g 2 + cur g 3 * 2 ^ 8 + cur g 4 * 2 ^ 16 + (cur g 5 mod 16) * 2 ^ 24
     else ((cur g 3 + cur g 4 * 2 ^ 8) * h + cur g 5 mod 16) * s + cur g 2 - 1)
    (if count =? 0 then 2 ^ 8 else count)).
Proof. intros E. unfold drive_reads. rewrite E, find_opcode. reflexivity. Qed.

(** A count of blocks in one byte, or in two. *)
Lemma count_byte n : 1 <= n <= 256 -> (if byte_of n 0 =? 0 then 2 ^ 8 else byte_of n 0) = n.
Proof.
  intros H. rewrite byte_of_eq by lia. change (2 ^ (8 * 0)) with 1. rewrite Z.div_1_r.
  destruct (decide (n = 256)) as [->|]; [done|]. rewrite Z.mod_small by lia. by rewrite (proj2 (Z.eqb_neq _ _)) by lia.
Qed.

Lemma count_word n : 1 <= n <= 0xffff ->
  (if byte_of n 0 + byte_of n 1 * 2 ^ 8 =? 0 then 2 ^ 16 else byte_of n 0 + byte_of n 1 * 2 ^ 8) = n.
Proof.
  intros H. assert (E : byte_of n 0 + byte_of n 1 * 2 ^ 8 = n).
  { rewrite !byte_of_eq by lia. change (2 ^ (8 * 0)) with 1. rewrite Z.div_1_r. change (2 ^ (8 * 1)) with 256.
    change (2 ^ 8) with 256. zlia. }
  rewrite E. by rewrite (proj2 (Z.eqb_neq _ _)) by lia.
Qed.

(** The device register selects addresses of blocks. *)
Definition lba_mode (d : ata_device) : Prop := Z.testbit (nth 5 (tf d) 0) 6 = true.

Lemma device_nibble v b : put_bits 0 4 v b mod 16 = v mod 16.
Proof. pose proof (put_bits_field 0 4 v b) as E. change (2 ^ 0) with 1 in E. rewrite Z.div_1_r in E. by apply E. Qed.

Lemma nibble_pos pos : pos mod 2 ^ 24 + (Z.land (Z.shiftr pos 24) 0xf) mod 16 * 2 ^ 24 = pos mod 2 ^ 28.
Proof.
  rewrite (land_ones_mod _ 4), Z.shiftr_div_pow2 by (lia || done). change 16 with (2 ^ 4). rewrite Z.mod_mod by lia.
  change (2 ^ 28) with (2 ^ 24 * 2 ^ 4). rewrite Z.rem_mul_r by lia. ring.
Qed.

Definition accepted (d' : ata_device) (g : registers) (h s : Z) (q : ata_request) (write : bool) (pos len : Z) : Prop :=
  drive_reads h s (run_writes g (send_writes d')) =
  Some (Drive write (queuable q || uses_dma q) (if queuable q then Some (tag q) else None) pos len).

(** The registers after the writes of a command with a given mask. *)
Section Registers.
Context (l b : bool) (hd sc cs r0 r1 r2 r3 r4 r5 r6 r7 r8 r9 r10 r11 : Z) (g : registers).
Notation regs m := (run_writes g (send_writes (AtaDevice l b hd sc cs m [r0; r1; r2; r3; r4; r5; r6; r7; r8; r9; r10; r11]))).

Lemma regs_low m i :
  m = 0x3e \/ m = 0x3f \/ m = 0xf1e \/ m = 0xe9f -> (i = 2 \/ i = 3 \/ i = 4 \/ i = 5 \/ i = 6)%nat ->
  cur (regs m) i = nth i [r0; r1; r2; r3; r4; r5; r6] 0.
Proof. intros [-> | [-> | [-> | ->]]] [-> | [-> | [-> | [-> | ->]]]]; reflexivity. Qed.

Lemma regs_count m : m = 0x3e \/ m = 0x3f \/ m = 0xf1e \/ m = 0xe9f -> cur (regs m) 1%nat = r1.
Proof. intros [-> | [-> | [-> | ->]]]; reflexivity. Qed.

Lemma regs_features m : m = 0x3f \/ m = 0xe9f -> cur (regs m) 0%nat = r0.
Proof. intros [-> | ->]; reflexivity. Qed.

Lemma regs_high m i :
  m = 0xf1e \/ m = 0xe9f -> (i = 2 \/ i = 3 \/ i = 4)%nat -> prv (regs m) i = nth i [r7; r8; r9; r10; r11] 0.
Proof. intros [-> | ->] [-> | [-> | ->]]; reflexivity. Qed.

Lemma regs_high_count : prv (regs 0xf1e) 1%nat = r8 /\ prv (regs 0xe9f) 0%nat = r7.
Proof. split; reflexivity. Qed.
End Registers.

Lemma rw_lba28 d q pos len write g h s :
  is_taskfile (tf d) -> lba_mode d -> use_LBA d = true -> 0 <= tag q < 32 -> 0 <= pos -> 1 <= len <= 256 ->
  use_48bits d && ((0xfffffff <? u64 (pos + len)) || (0x100 <? len)) = false ->
  exists d', create_rw_taskfile d q pos len write = (true, d') /\ accepted d' g h s q write (pos mod 2 ^ 28) len.
Proof.
  intros Ht Hm Hl Htag Hpos Hlen H48. unfold create_rw_taskfile. rewrite Hl, H48. rewrite (proj2 (Z.ltb_ge _ _)) by lia.
  destruct d as [l b48 hd sc cs pm r]. cbn [tf use_LBA use_48bits] in *.
  destruct (taskfile_bytes _ Ht) as (r0&r1&r2&r3&r4&r5&r6&r7&r8&r9&r10&r11& -> & H1 & H5). unfold lba_mode in Hm. cbn [tf nth] in Hm.
  set (nib := Z.land (Z.shiftr pos 24) 0xf).
  destruct (queuable q) eqn:Eq.
  - exists (AtaDevice l b48 hd sc cs 0x3f [byte_of len 0; put_bits 3 5 (tag q) r1; byte_of pos 0; byte_of pos 1; byte_of pos 2;
      put_bits 0 4 nib r5; opcode q false write; r7; r8; r9; r10; r11]).
    split; [unfold opcode; rewrite Eq; by destruct write|]. unfold accepted.
    rewrite (drive_reads_28 _ _ _ q write) by (by rewrite regs_low by lia). rewrite Eq.
    rewrite regs_count, regs_features, !regs_low by lia. cbn [nth].
    by rewrite put_bits_other, Hm, device_nibble, three_bytes, nibble_pos, count_byte, put_bits_tag by lia.
  - exists (AtaDevice l b48 hd sc cs 0x3e [r0; byte_of len 0; byte_of pos 0; byte_of pos 1; byte_of pos 2;
      put_bits 0 4 nib r5; opcode q false write; r7; r8; r9; r10; r11]).
    split; [unfold opcode; rewrite Eq; by destruct write|]. unfold accepted.
    rewrite (drive_reads_28 _ _ _ q write) by (by rewrite regs_low by lia). rewrite Eq.
    rewrite regs_count, !regs_low by lia. cbn [nth].
    by rewrite put_bits_other, Hm, device_nibble, three_bytes, nibble_pos, count_byte by lia.
Qed.

Lemma rw_lba48 d q pos len write g h s :
  is_taskfile (tf d) -> use_LBA d = true -> 0 <= tag q < 32 -> 0 <= pos -> 1 <= len <= 0xffff ->
  use_48bits d && ((0xfffffff <? u64 (pos + len)) || (0x100 <? len)) = true ->
  exists d', create_rw_taskfile d q pos len write = (true, d') /\ accepted d' g h s q write (pos mod 2 ^ 48) len.
Proof.
  intros Ht Hl Htag Hpos Hlen H48. unfold create_rw_taskfile. rewrite Hl, H48. rewrite (proj2 (Z.ltb_ge _ _)) by lia.
  destruct d as [l b48 hd sc cs pm r]. cbn [tf use_LBA use_48bits] in *.
  destruct (taskfile_bytes _ Ht) as (r0&r1&r2&r3&r4&r5&r6&r7&r8&r9&r10&r11& -> & H1 & H5).
  destruct (queuable q) eqn:Eq.
  - exists (AtaDevice l b48 hd sc cs 0xe9f [byte_of len 0; put_bits 3 5 (tag q) r1; byte_of pos 0; byte_of pos 1; byte_of pos 2;
      r5; opcode q true write; byte_of len 1; r8; byte_of pos 3; byte_of pos 4; byte_of pos 5]).
    split; [unfold opcode; rewrite Eq; by destruct write|]. unfold accepted.
    rewrite (drive_reads_ext _ _ _ q write) by (by rewrite regs_low by lia). rewrite Eq. cbv zeta.
    rewrite regs_count, regs_features, !regs_low, (proj2 (regs_high_count _ _ _ _ _ _ _ _ _ _ _ _ _ _ _ _ _ _)), !regs_high by lia.
    cbn [nth]. by rewrite six_bytes, count_word, put_bits_tag by lia.
  - exists (AtaDevice l b48 hd sc cs 0xf1e [r0; byte_of len 0; byte_of pos 0; byte_of pos 1; byte_of pos 2;
      r5; opcode q true write; r7; byte_of len 1; byte_of pos 3; byte_of pos 4; byte_of pos 5]).
    split; [unfold opcode; rewrite Eq; by destruct write|]. unfold accepted.
    rewrite (drive_reads_ext _ _ _ q write) by (by rewrite regs_low by lia). rewrite Eq. cbv zeta.
    rewrite regs_count, !regs_low, (proj1 (regs_high_count _ _ _ _ _ _ _ _ _ _ _ _ _ _ _ _ _ _)), !regs_high by lia.
    cbn [nth]. by rewrite six_bytes, count_word by lia.
Qed.

Lemma chs_mode x v : Z.testbit (put_bits 0 4 v (put_bits 5 3 ide_mode_chs x)) 6 = false.
Proof.
  rewrite put_bits_other by lia. pose proof (put_bits_field 5 3 ide_mode_chs x ltac:(lia) ltac:(lia)) as E.
  rewrite <- Z.shiftr_div_pow2, <- Z.land_ones in E by lia. change (ide_mode_chs mod 2 ^ 3) with 5 in E.
  assert (T : Z.testbit (Z.land (Z.shiftr (put_bits 5 3 ide_mode_chs x) 5) (Z.ones 3)) 1 = false) by (by rewrite E).
  rewrite Z.land_spec, Z.shiftr_spec in T by lia. change (Z.testbit (Z.ones 3) 1) with true in T. by rewrite andb_true_r in T.
Qed.

Lemma chs_start hd sc pos :
  0 < hd -> 0 < sc ->
  ((pos / (hd * sc)) * hd + pos mod (hd * sc) / sc) * sc + ((pos mod (hd * sc)) mod sc + 1) - 1 = pos.
Proof.
  intros Hh Hs. pose proof (Z.div_mod pos (hd * sc) ltac:(nia)) as E1.
  pose proof (Z.div_mod (pos mod (hd * sc)) sc ltac:(lia)) as E2.
  set (c := pos / (hd * sc)) in *. set (o := pos mod (hd * sc)) in *. set (a := o / sc) in *. set (b := o mod sc) in *. nia.
Qed.

Lemma rw_chs d q pos len write g :
  let h := current_heads d in
  let s := current_sectors d in
  is_taskfile (tf d) -> use_LBA d = false -> queuable q = false -> 1 <= len <= 256 ->
  1 <= h <= 16 -> 1 <= s <= 255 -> 0 <= pos < 2 ^ 16 * (h * s) ->
  exists d', create_rw_taskfile d q pos len write = (true, d') /\ accepted d' g h s q write pos len.
Proof.
  intros h s Ht Hl Hq Hlen Hh Hs Hpos. unfold create_rw_taskfile. rewrite Hl, (proj2 (Z.ltb_ge _ _)) by lia.
  destruct d as [l b48 hd sc cs pm r]. unfold with_tf, set_param_mask. cbn [tf use_LBA use_48bits current_heads current_sectors new_combined_sense tf_param_mask] in *.
  destruct (taskfile_bytes _ Ht) as (r0&r1&r2&r3&r4&r5&r6&r7&r8&r9&r10&r11& -> & H1 & H5).
  assert (Hts : u32 (hd * sc) = hd * sc) by (apply u32_small; nia). rewrite Hts.
  assert (0 < hd * sc) by nia. rewrite (proj2 (Z.eqb_neq _ _)) by lia.
  assert (Hc : 0 <= pos / (hd * sc) < 2 ^ 16) by (split; [apply Z.div_pos; lia|apply Z.div_lt_upper_bound; lia]).
  assert (Hcy : u32 (pos / (hd * sc)) = pos / (hd * sc)) by (apply u32_small; lia). rewrite Hcy.
  pose proof (Z.mod_pos_bound pos (hd * sc) ltac:(lia)) as Ho.
  assert (Hof : u32 (pos - pos / (hd * sc) * (hd * sc)) = pos mod (hd * sc)).
  { rewrite Z.mod_eq by lia. rewrite Z.mul_comm. apply u32_small. rewrite Z.mod_eq in Ho by lia. nia. }
  rewrite Hof. set (cyl := pos / (hd * sc)) in *. set (o := pos mod (hd * sc)) in *.
  pose proof (Z.mod_pos_bound o sc ltac:(lia)).
  exists (AtaDevice l b48 hd sc cs 0x3e [r0; byte_of len 0; Z.land (o mod sc + 1) 0xff; byte_of cyl 0; byte_of cyl 1;
    put_bits 0 4 (o / sc) (put_bits 5 3 ide_mode_chs r5); opcode q false write; r7; r8; r9; r10; r11]).
  split; [unfold opcode; by rewrite Hq|]. unfold accepted.
  rewrite (drive_reads_28 _ _ _ q write) by (by rewrite regs_low by lia). rewrite Hq.
  rewrite regs_count, !regs_low by lia. cbn [nth]. rewrite chs_mode, count_byte, device_nibble by done.
  do 2 f_equal. rewrite (land_ones_mod _ 8) by (first [reflexivity | lia]). cbn [h s current_heads current_sectors] in *.
  rewrite (Z.mod_small (o mod sc + 1)) by lia.
  replace (byte_of cyl 0 + byte_of cyl 1 * 2 ^ 8) with cyl.
  2:{ rewrite !byte_of_eq by lia. change (2 ^ (8 * 0)) with 1. rewrite Z.div_1_r. change (2 ^ (8 * 1)) with 256. change (2 ^ 8) with 256. zlia. }
  rewrite (Z.mod_small (o / sc)) by (split; [apply Z.div_pos; lia|apply Z.div_lt_upper_bound; nia]).
  unfold cyl, o. by apply chs_start; lia.
Qed.

(** ** The theorems *)

(** How many blocks a drive can address, and one command can move. *)
Definition capacity (d : ata_device) : Z :=
  if use_LBA d then if use_48bits d then 2 ^ 48 else 2 ^ 28 else 2 ^ 16 * (current_heads d * current_sectors d).

Definition longest (d : ata_device) : Z := if use_LBA d && use_48bits d then 0xffff else 0x100.

Definition drive_ok (d : ata_device) : Prop :=
  is_taskfile (tf d) /\
  if use_LBA d then lba_mode d else 1 <= current_heads d <= 16 /\ 1 <= current_sectors d <= 255.

(** Queuing needs addresses of blocks. *)
Definition request_ok (d : ata_device) (q : ata_request) : Prop :=
  0 <= tag q < 32 /\ (queuable q = true -> use_LBA d = true).

#[export] Instance is_taskfile_dec r : Decision (is_taskfile r).
Proof. unfold is_taskfile. apply _. Defined.
#[export] Instance drive_ok_dec d : Decision (drive_ok d).
Proof. unfold drive_ok, lba_mode. destruct (use_LBA d); apply _. Defined.

(** C14: A read or write that is within the addresses of a drive arrives as it was
    meant: from the registers the controller writes, the drive reads the command
    for the direction, with or without DMA and queuing, the tag, the first block
    and the number of blocks, in each of the three ways to address blocks.  A
    request that is too long for one command is refused with a sense code, and
    the task file stays. *)
Theorem ata_command_arrives d q pos len write g :
  drive_ok d -> request_ok d q -> 0 <= pos -> 1 <= len < 2 ^ 32 -> pos + len <= capacity d ->
  exists ok d', create_rw_taskfile d q pos len write = (ok, d') /\
    if len <=? longest d then
      ok = true /\
      drive_reads (current_heads d) (current_sectors d) (run_writes g (send_writes d')) =
      Some (Drive write (queuable q || uses_dma q) (if queuable q then Some (tag q) else None) pos len)
    else ok = false /\ new_combined_sense d' = 0x52400 /\ tf d' = tf d.
Proof.
  intros [Ht Hd] [Htag Hq] Hpos Hlen Hcap. unfold capacity, longest in *. destruct (use_LBA d) eqn:Hl; cbn [andb].
  - destruct (use_48bits d) eqn:H48.
    + assert (E : u64 (pos + len) = pos + len) by (apply u64_small; lia).
      destruct (Z.leb_spec len 0xffff) as [Hle|Hgt].
      * destruct (use_48bits d && ((0xfffffff <? u64 (pos + len)) || (0x100 <? len))) eqn:Eb.
        -- destruct (rw_lba48 d q pos len write g (current_heads d) (current_sectors d)) as (d' & E1 & E2); try (done || lia).
           rewrite Z.mod_small in E2 by lia. eauto.
        -- pose proof Eb as Eb2. rewrite H48, E in Eb2. cbn [andb] in Eb2. apply orb_false_iff in Eb2 as [B1 B2].
           apply Z.ltb_ge in B1, B2.
           destruct (rw_lba28 d q pos len write g (current_heads d) (current_sectors d)) as (d' & E1 & E2); try (done || lia).
           rewrite Z.mod_small in E2 by lia. eauto.
      * unfold create_rw_taskfile. rewrite Hl, H48. rewrite (proj2 (Z.ltb_lt 0x100 len)) by lia. rewrite orb_true_r.
        cbn [andb]. rewrite (proj2 (Z.ltb_lt _ _)) by lia. by eexists _, _.
    + destruct (Z.leb_spec len 0x100) as [Hle|Hgt].
      * destruct (rw_lba28 d q pos len write g (current_heads d) (current_sectors d)) as (d' & E1 & E2); try (done || lia).
        { by rewrite H48. }
        rewrite Z.mod_small in E2 by lia. eauto.
      * unfold create_rw_taskfile. rewrite Hl, H48. cbn [andb]. rewrite (proj2 (Z.ltb_lt _ _)) by lia. by eexists _, _.
  - destruct (Z.leb_spec len 0x100) as [Hle|Hgt].
    + assert (Hnq : queuable q = false) by (destruct (queuable q); [by specialize (Hq eq_refl)|done]).
      destruct (rw_chs d q pos len write g Ht Hl Hnq) as (d' & E1 & E2); [lia|apply Hd|apply Hd|lia|]. eauto.
    + unfold create_rw_taskfile. rewrite Hl, (proj2 (Z.ltb_lt _ _)) by lia. by eexists _, _.
Qed.

(** A drive with addresses of 48 bits, and one with cylinders, both selected as
    the first device. *)
Definition sample_drive (lba b48 : bool) : ata_device :=
  AtaDevice lba b48 16 63 0 0 [0; 0; 0; 0; 0; 0xe0; 0; 0; 0; 0; 0; 0].

Lemma ata_command_arrives_witness :
  let d := sample_drive true true in
  let q := AtaRequest true true 5 in
  exists ok d', create_rw_taskfile d q (2 ^ 33 + 7) 300 true = (ok, d') /\ ok = true /\
    drive_reads 16 63 (run_writes (Regs (fun _ => 0) (fun _ => 0)) (send_writes d')) =
    Some (Drive true true (Some 5) (2 ^ 33 + 7) 300).
Proof.
  intros d q.
  destruct (ata_command_arrives d q (2 ^ 33 + 7) 300 true (Regs (fun _ => 0) (fun _ => 0))) as (ok & d' & E & H).
  - apply (bool_decide_unpack _). vm_compute. exact I.
  - split; [cbn; lia|reflexivity].
  - lia.
  - lia.
  - vm_compute. discriminate.
  - exists ok, d'. split; [exact E|]. destruct H as [H1 H2]. split; [exact H1|exact H2].
Defined.

Example sample_chs :
  let '(ok, d') := create_rw_taskfile (sample_drive false false) (AtaRequest false false 0) 100000 8 false in
  ok = true /\ drive_reads 16 63 (run_writes (Regs (fun _ => 0) (fun _ => 0)) (send_writes d')) =
  Some (Drive false false None 100000 8).
Proof. by vm_compute. Qed.

(** Nothing checks a position against the 28 bits that a drive without 48 bit
    addresses gets: a request for a block from 2^28 on is accepted, and reaches
    the block that is left when the position is cut off. *)
Theorem lba28_wraps d q pos len write g :
  drive_ok d -> request_ok d q -> use_LBA d = true -> use_48bits d = false -> 2 ^ 28 <= pos -> 1 <= len <= 256 ->
  exists d' p, create_rw_taskfile d q pos len write = (true, d') /\ p <> pos /\
    drive_reads (current_heads d) (current_sectors d) (run_writes g (send_writes d')) =
    Some (Drive write (queuable q || uses_dma q) (if queuable q then Some (tag q) else None) p len).
Proof.
  intros [Ht Hd] [Htag _] Hl H48 Hpos Hlen. rewrite Hl in Hd.
  destruct (rw_lba28 d q pos len write g (current_heads d) (current_sectors d)) as (d' & E1 & E2); try (done || lia); [by rewrite H48|].
  exists d', (pos mod 2 ^ 28). split; [done|]. split; [|done]. pose proof (Z.mod_pos_bound pos (2 ^ 28)). lia.
Qed.

Lemma lba28_wraps_witness :
  let d := sample_drive true false in
  exists d' p, create_rw_taskfile d (AtaRequest false false 0) (2 ^ 28 + 1) 1 true = (true, d') /\ p <> 2 ^ 28 + 1 /\
    drive_reads 16 63 (run_writes (Regs (fun _ => 0) (fun _ => 0)) (send_writes d')) = Some (Drive true false None p 1).
Proof.
  intros d. destruct (lba28_wraps d (AtaRequest false false 0) (2 ^ 28 + 1) 1 true (Regs (fun _ => 0) (fun _ => 0))) as (d' & p & E & H & H2).
  - apply (bool_decide_unpack _). vm_compute. exact I.
  - split; [cbn; lia|discriminate].
  - reflexivity.
  - reflexivity.
  - lia.
  - lia.
  - exists d', p. split; [exact E|]. split; [exact H|exact H2].
Defined.

(** What a command block asks for. *)
Lemma scsi_rw_range cdb pos len write :
  Forall (fun x => 0 <= x < 256) cdb -> scsi_rw cdb = Some (pos, len, write) -> 0 <= pos < 2 ^ 32 /\ 0 <= len <= 0xffff.
Proof.
  intros Hf. assert (H : forall k, 0 <= cdb_byte cdb k < 256).
  { intros k. unfold cdb_byte. destruct (nth_in_or_default k cdb 0) as [Hin | ->]; [|lia].
    rewrite Forall_forall in Hf. by apply Hf, list_elem_of_In. }
  pose proof (H 1%nat). pose proof (H 2%nat). pose proof (H 3%nat). pose proof (H 4%nat). pose proof (H 5%nat). pose proof (H 7%nat). pose proof (H 8%nat).
  unfold scsi_rw. destruct (_ || _).
  - intros [= <- <- _]. split; [|destruct (_ =? 0); lia].
    rewrite !Z.shiftl_mul_pow2 by lia. rewrite (land_ones_mod _ 5) by (first [reflexivity | lia]).
    pose proof (Z.mod_pos_bound (cdb_byte cdb 1) (2 ^ 5)).
    rewrite (lor_add _ _ 16) by lia.
    replace (cdb_byte cdb 1 mod 2 ^ 5 * 2 ^ 16 + cdb_byte cdb 2 * 2 ^ 8) with ((cdb_byte cdb 1 mod 2 ^ 5 * 2 ^ 8 + cdb_byte cdb 2) * 2 ^ 8) by ring.
    rewrite lor_add by lia. lia.
  - destruct (_ || _); [|done]. intros [= <- <- _]. lia.
Qed.

(** Every read or write a driver asks for with 6 or 10 bytes fits into a command
    of a drive with 48 bit addresses, and arrives. *)
Theorem scsi_request_arrives d q cdb pos len write g :
  drive_ok d -> request_ok d q -> use_LBA d = true -> use_48bits d = true ->
  Forall (fun x => 0 <= x < 256) cdb -> scsi_rw cdb = Some (pos, len, write) -> len <> 0 ->
  exists d', create_rw_taskfile d q pos len write = (true, d') /\
    drive_reads (current_heads d) (current_sectors d) (run_writes g (send_writes d')) =
    Some (Drive write (queuable q || uses_dma q) (if queuable q then Some (tag q) else None) pos len).
Proof.
  intros [Ht Hd] [Htag _] Hl H48 Hf Hc Hn. rewrite Hl in Hd. destruct (scsi_rw_range _ _ _ _ Hf Hc) as [Hp Hlen].
  destruct (use_48bits d && ((0xfffffff <? u64 (pos + len)) || (0x100 <? len))) eqn:Eb.
  - destruct (rw_lba48 d q pos len write g (current_heads d) (current_sectors d)) as (d' & E1 & E2); try (done || lia).
    rewrite Z.mod_small in E2 by lia. eauto.
  - pose proof Eb as Eb2. rewrite H48, u64_small in Eb2 by lia. cbn [andb] in Eb2. apply orb_false_iff in Eb2 as [B1 B2].
    apply Z.ltb_ge in B1, B2.
    destruct (rw_lba28 d q pos len write g (current_heads d) (current_sectors d)) as (d' & E1 & E2); try (done || lia).
    rewrite Z.mod_small in E2 by lia. eauto.
Qed.
