(* ===== verification/Ide.v ===== *)
(** The bus states, waiting and synchronized procedure calls of the IDE bus manager
    (sync.c), its requests (queuing.c) and its interface to the SCSI bus manager
    (ide_sim.c). *)
From stdpp Require Import base gmap list.
From Stdlib Require Import ZArith Lia.
From S2P Require Import Prelude Errors Scsi ScsiDevice.

(** ** The data *)

Inductive ide_bus_state := ide_state_idle | ide_state_accessing | ide_state_async_waiting | ide_state_sync_waiting.

#[export] Instance ide_bus_state_eq_dec : EqDecision ide_bus_state.
Proof. solve_decision. Defined.

(** A request of the array of a device; [qr_next] is the tag of the next free one. *)
Record ide_qrequest := QRequest {
  qr_next : option Z;
  qr_request : option Z;
  qr_running : bool;
  qr_uses_dma : bool;
  qr_queuable : bool
}.

(** The time-out of queued requests of a device: the flag, the timer, the deferred
    call that is scheduled, and the address of the synchronized call. *)
Record reconnect := Reconnect {
  reconnect_timer_installed : bool;
  reconnect_timer : bool;
  reconnect_dpc : bool;
  reconnect_synced_pc : Z
}.

Record ide_device_info := Device {
  is_atapi : bool;
  CQ_enabled : bool;
  CQ_failures : Z;
  reconnect_of : reconnect;
  last_lun : Z;
  queue_depth : Z;
  qreq_array : list ide_qrequest;
  free_qrequests : option Z;
  num_running_reqs : Z;
  subsys_status : Z;
  new_combined_sense : Z;
  combined_sense : Z
}.

Record ide_synced_pc := SyncedPC { pc_next : Z; pc_registered : bool; pc_arg : Z }.

(** What a driver asks for, and the answer. *)
Record scsi_ccb := CCB {
  cc_target_id : Z;
  cc_target_lun : Z;
  cc_flags : Z;
  cc_opcode : Z;
  cc_subsys_status : Z;
  cc_device_status : Z;
  cc_sense : option (Z * Z * Z)
}.

(** Calls of the SCSI bus manager. *)
Inductive event :=
  | Finished (r num : Z)
  | Resubmit (r : Z)
  | Requeue (r : Z) (bus_overflow : bool)
  | ContSend
  | BlockBus
  | UnblockBus.

(** A deferred procedure call of the service thread of the SCSI bus manager. *)
Inductive dpc := Ide_dpc | Ide_timeout_dpc.

(** [ide_bus_info], with what hangs on it: the devices by their number, the
    synchronized calls and the requests by their address, the timer, the deferred
    call, the calls of the SCSI bus manager so far.  An active request is a device
    and a tag. *)
Record sys := Sys {
  active_qrequest : option (Z * Z);
  lock : bool;
  state : ide_bus_state;
  disconnected : bool;
  bus_running_reqs : Z;
  timer : bool;
  irq_dpc : option dpc;
  synced_pc_list : Z;
  sync_wait_sem : Z;
  sync_wait_timeout : bool;
  active_device : bool;
  devices : gmap Z ide_device_info;
  synced_pcs : gmap Z ide_synced_pc;
  ccbs : gmap Z scsi_ccb;
  events : list event
}.

Definition set_active x s := Sys x (lock s) (state s) (disconnected s) (bus_running_reqs s) (timer s) (irq_dpc s) (synced_pc_list s) (sync_wait_sem s) (sync_wait_timeout s) (active_device s) (devices s) (synced_pcs s) (ccbs s) (events s).
Definition set_lock x s := Sys (active_qrequest s) x (state s) (disconnected s) (bus_running_reqs s) (timer s) (irq_dpc s) (synced_pc_list s) (sync_wait_sem s) (sync_wait_timeout s) (active_device s) (devices s) (synced_pcs s) (ccbs s) (events s).
Definition set_state x s := Sys (active_qrequest s) (lock s) x (disconnected s) (bus_running_reqs s) (timer s) (irq_dpc s) (synced_pc_list s) (sync_wait_sem s) (sync_wait_timeout s) (active_device s) (devices s) (synced_pcs s) (ccbs s) (events s).
Definition set_disconnected x s := Sys (active_qrequest s) (lock s) (state s) x (bus_running_reqs s) (timer s) (irq_dpc s) (synced_pc_list s) (sync_wait_sem s) (sync_wait_timeout s) (active_device s) (devices s) (synced_pcs s) (ccbs s) (events s).
Definition set_bus_running x s := Sys (active_qrequest s) (lock s) (state s) (disconnected s) x (timer s) (irq_dpc s) (synced_pc_list s) (sync_wait_sem s) (sync_wait_timeout s) (active_device s) (devices s) (synced_pcs s) (ccbs s) (events s).
Definition set_timer x s := Sys (active_qrequest s) (lock s) (state s) (disconnected s) (bus_running_reqs s) x (irq_dpc s) (synced_pc_list s) (sync_wait_sem s) (sync_wait_timeout s) (active_device s) (devices s) (synced_pcs s) (ccbs s) (events s).
Definition set_irq_dpc x s := Sys (active_qrequest s) (lock s) (state s) (disconnected s) (bus_running_reqs s) (timer s) x (synced_pc_list s) (sync_wait_sem s) (sync_wait_timeout s) (active_device s) (devices s) (synced_pcs s) (ccbs s) (events s).
Definition set_synced_pc_list x s := Sys (active_qrequest s) (lock s) (state s) (disconnected s) (bus_running_reqs s) (timer s) (irq_dpc s) x (sync_wait_sem s) (sync_wait_timeout s) (active_device s) (devices s) (synced_pcs s) (ccbs s) (events s).
Definition set_sync_wait_sem x s := Sys (active_qrequest s) (lock s) (state s) (disconnected s) (bus_running_reqs s) (timer s) (irq_dpc s) (synced_pc_list s) x (sync_wait_timeout s) (active_device s) (devices s) (synced_pcs s) (ccbs s) (events s).
Definition set_sync_wait_timeout x s := Sys (active_qrequest s) (lock s) (state s) (disconnected s) (bus_running_reqs s) (timer s) (irq_dpc s) (synced_pc_list s) (sync_wait_sem s) x (active_device s) (devices s) (synced_pcs s) (ccbs s) (events s).
Definition with_devices f s := Sys (active_qrequest s) (lock s) (state s) (disconnected s) (bus_running_reqs s) (timer s) (irq_dpc s) (synced_pc_list s) (sync_wait_sem s) (sync_wait_timeout s) (active_device s) (f (devices s)) (synced_pcs s) (ccbs s) (events s).
Definition with_synced_pcs f s := Sys (active_qrequest s) (lock s) (state s) (disconnected s) (bus_running_reqs s) (timer s) (irq_dpc s) (synced_pc_list s) (sync_wait_sem s) (sync_wait_timeout s) (active_device s) (devices s) (f (synced_pcs s)) (ccbs s) (events s).
Definition with_ccbs f s := Sys (active_qrequest s) (lock s) (state s) (disconnected s) (bus_running_reqs s) (timer s) (irq_dpc s) (synced_pc_list s) (sync_wait_sem s) (sync_wait_timeout s) (active_device s) (devices s) (synced_pcs s) (f (ccbs s)) (events s).
Definition tell (e : event) s := Sys (active_qrequest s) (lock s) (state s) (disconnected s) (bus_running_reqs s) (timer s) (irq_dpc s) (synced_pc_list s) (sync_wait_sem s) (sync_wait_timeout s) (active_device s) (devices s) (synced_pcs s) (ccbs s) (events s ++ [e]).

Definition set_array (l : list ide_qrequest) (free : option Z) (d : ide_device_info) : ide_device_info :=
  Device (is_atapi d) (CQ_enabled d) (CQ_failures d) (reconnect_of d) (last_lun d) (queue_depth d) l free (num_running_reqs d) (subsys_status d) (new_combined_sense d) (combined_sense d).
Definition set_num_running (n : Z) (d : ide_device_info) : ide_device_info :=
  Device (is_atapi d) (CQ_enabled d) (CQ_failures d) (reconnect_of d) (last_lun d) (queue_depth d) (qreq_array d) (free_qrequests d) n (subsys_status d) (new_combined_sense d) (combined_sense d).
Definition set_combined_sense (x : Z) (d : ide_device_info) : ide_device_info :=
  Device (is_atapi d) (CQ_enabled d) (CQ_failures d) (reconnect_of d) (last_lun d) (queue_depth d) (qreq_array d) (free_qrequests d) (num_running_reqs d) (subsys_status d) (new_combined_sense d) x.
(** What the code of a command leaves. *)
Definition set_result (status sense : Z) (d : ide_device_info) : ide_device_info :=
  Device (is_atapi d) (CQ_enabled d) (CQ_failures d) (reconnect_of d) (last_lun d) (queue_depth d) (qreq_array d) (free_qrequests d) (num_running_reqs d) status sense (combined_sense d).

Definition set_CQ (enabled : bool) (failures : Z) (d : ide_device_info) : ide_device_info :=
  Device (is_atapi d) enabled failures (reconnect_of d) (last_lun d) (queue_depth d) (qreq_array d) (free_qrequests d) (num_running_reqs d) (subsys_status d) (new_combined_sense d) (combined_sense d).
Definition set_reconnect (x : reconnect) (d : ide_device_info) : ide_device_info :=
  Device (is_atapi d) (CQ_enabled d) (CQ_failures d) x (last_lun d) (queue_depth d) (qreq_array d) (free_qrequests d) (num_running_reqs d) (subsys_status d) (new_combined_sense d) (combined_sense d).

Definition put_device (a : Z) (d : ide_device_info) : sys -> sys := with_devices <[a := d]>.

(** ** The lock

    A thread that finds the spinlock held waits: there is no result as long as
    the lock is not released. *)

Definition IDE_LOCK (s : sys) : option sys := if lock s then None else Some (set_lock true s).
Definition IDE_UNLOCK (s : sys) : sys := set_lock false s.

Definition schedule_dpc (f : dpc) : sys -> sys := set_irq_dpc (Some f).

(** ** Interrupts and time-outs *)

Definition B_UNHANDLED_INTERRUPT : Z := 0.
Definition B_INVOKE_SCHEDULER : Z := 2.
Definition B_DO_NOT_RESCHEDULE : Z := 2.
Definition ide_status_bsy : Z := 0x80.

Definition ide_irq_handler (status : Z) (s : sys) : option (Z * sys) :=
  s ← IDE_LOCK s;
  if negb (active_device s) then Some (B_UNHANDLED_INTERRUPT, IDE_UNLOCK s)
  else if negb (Z.land status ide_status_bsy =? 0) then Some (B_UNHANDLED_INTERRUPT, IDE_UNLOCK s)
  else match state s with
       | ide_state_async_waiting =>
           let s := IDE_UNLOCK (set_state ide_state_accessing s) in
           Some (B_INVOKE_SCHEDULER, schedule_dpc Ide_dpc s)
       | ide_state_idle =>
           if bus_running_reqs s =? 0 then Some (B_UNHANDLED_INTERRUPT, IDE_UNLOCK s)
           else
             let s := IDE_UNLOCK (set_state ide_state_accessing s) in
             Some (B_INVOKE_SCHEDULER, schedule_dpc Ide_dpc s)
       | ide_state_sync_waiting =>
           let s := IDE_UNLOCK (set_sync_wait_timeout false (set_state ide_state_accessing s)) in
           Some (B_INVOKE_SCHEDULER, set_sync_wait_sem (sync_wait_sem s + 1) s)
       | ide_state_accessing => Some (B_UNHANDLED_INTERRUPT, IDE_UNLOCK s)
       end.

(** The timer is off when it has fired. *)
Definition ide_timeout (s : sys) : option (Z * sys) :=
  let s := set_timer false s in
  s ← IDE_LOCK s;
  match state s with
  | ide_state_async_waiting =>
      let s := IDE_UNLOCK (set_state ide_state_accessing s) in
      Some (B_INVOKE_SCHEDULER, schedule_dpc Ide_timeout_dpc s)
  | ide_state_sync_waiting =>
      let s := IDE_UNLOCK (set_sync_wait_timeout true (set_state ide_state_accessing s)) in
      Some (B_INVOKE_SCHEDULER, set_sync_wait_sem (sync_wait_sem s + 1) s)
  | ide_state_accessing => Some (B_DO_NOT_RESCHEDULE, IDE_UNLOCK s)
  | ide_state_idle => Some (B_DO_NOT_RESCHEDULE, IDE_UNLOCK s)
  end.

Definition cancel_irq_timeout (s : sys) : option sys :=
  s ← IDE_LOCK s;
  Some (set_timer false (IDE_UNLOCK (set_state ide_state_accessing s))).

(** With the lock held; [add_timer] has room. *)
Definition start_waiting (new_state : ide_bus_state) (s : sys) : sys :=
  IDE_UNLOCK (set_timer true (set_state new_state s)).

Definition start_waiting_nolock (new_state : ide_bus_state) (s : sys) : option sys :=
  s ← IDE_LOCK s; Some (start_waiting new_state s).

(** A thread waits while the semaphore is 0. *)
Definition wait_for_sync (s : sys) : option sys :=
  if 0 <? sync_wait_sem s then Some (set_timer false (set_sync_wait_sem (sync_wait_sem s - 1) s)) else None.

(** ** Requests *)

(** [initialize_qreq_array]: [memset], then the loop from the last request to the
    first. *)
Fixpoint link_free (n : nat) (l : list ide_qrequest) (free : option Z) : list ide_qrequest * option Z :=
  match n with
  | O => (l, free)
  | S i => link_free i (<[i := QRequest free None false false false]> l) (Some (Z.of_nat i))
  end.

Definition initialize_qreq_array (depth : Z) (malloc_ok : bool) (d : ide_device_info) : bool * ide_device_info :=
  let d := Device (is_atapi d) (CQ_enabled d) (CQ_failures d) (reconnect_of d) (last_lun d) depth (qreq_array d) (free_qrequests d) (num_running_reqs d)
             (subsys_status d) (new_combined_sense d) (combined_sense d) in
  if negb malloc_ok then (false, set_array [] (free_qrequests d) d)
  else
    let n := Z.to_nat depth in
    let '(l, free) := link_free n (replicate n (QRequest None None false false false)) None in
    (true, set_array l free d).

Definition destroy_qreq_array (d : ide_device_info) : ide_device_info :=
  Device (is_atapi d) (CQ_enabled d) (CQ_failures d) (reconnect_of d) (last_lun d) 0 [] None 0 (subsys_status d) (new_combined_sense d) (combined_sense d).

(** The old depth that is restored is the new one. *)
Definition change_qreq_array (depth : Z) (malloc_ok : bool) (d : ide_device_info) : bool * ide_device_info :=
  let old_queue_depth := depth in
  let '(ok, d') := initialize_qreq_array depth malloc_ok d in
  if ok : bool then (true, d')
  else (false, Device (is_atapi d') (CQ_enabled d') (CQ_failures d') (reconnect_of d') (last_lun d') old_queue_depth (qreq_array d) (free_qrequests d) 0
                 (subsys_status d') (new_combined_sense d') (combined_sense d')).

Definition tag2request (d : ide_device_info) (tag : Z) : option ide_qrequest :=
  q ← qreq_array d !! Z.to_nat tag;
  if qr_running q then Some q else None.

Definition get_qrequest (a tag : Z) (s : sys) : option (ide_device_info * ide_qrequest) :=
  d ← devices s !! a; q ← qreq_array d !! Z.to_nat tag; Some (d, q).

(** A finished request joins the free ones. *)
Definition release_qrequest (tag : Z) (q : ide_qrequest) (d : ide_device_info) : ide_device_info :=
  set_array (<[Z.to_nat tag := QRequest (free_qrequests d) (qr_request q) false (qr_uses_dma q) (qr_queuable q)]> (qreq_array d))
    (Some tag) d.

(** [finish_request] before it releases the bus; the result is what to report
    then, the request and the number of requests of the device. *)
Definition finish_request (a tag : Z) (s : sys) : option (Z * Z * sys) :=
  '(d, q) ← get_qrequest a tag s;
  request ← qr_request q;
  let d := release_qrequest tag q d in
  let num_running := num_running_reqs d in
  let s := put_device a (set_num_running (num_running - 1) d) s in
  Some (request, num_running, set_active None (set_bus_running (bus_running_reqs s - 1) s)).

Definition decode_sense_key (x : Z) : Z := Z.land (Z.shiftr x 16) 0xff.
Definition decode_sense_asc (x : Z) : Z := Z.land (Z.shiftr x 8) 0xff.
Definition decode_sense_ascq (x : Z) : Z := Z.land x 0xff.

Definition SCSI_NO_HBA : Z := 0x11.

Definition set_subsys (x : Z) (c : scsi_ccb) : scsi_ccb :=
  CCB (cc_target_id c) (cc_target_lun c) (cc_flags c) (cc_opcode c) x (cc_device_status c) (cc_sense c).

(** [set_check_condition] on the request and the sense of the device. *)
Definition set_check_condition (d : ide_device_info) (c : scsi_ccb) : ide_device_info * scsi_ccb :=
  if Z.land (cc_flags c) SCSI_DIS_AUTOSENSE =? 0 then
    let x := combined_sense d in
    (set_combined_sense 0 d,
     CCB (cc_target_id c) (cc_target_lun c) (cc_flags c) (cc_opcode c) (Z.lor SCSI_REQ_CMP_ERR SCSI_AUTOSNS_VALID)
       SCSI_STATUS_CHECK_CONDITION (Some (decode_sense_key x, decode_sense_asc x, decode_sense_ascq x)))
  else
    (d, CCB (cc_target_id c) (cc_target_lun c) (cc_flags c) (cc_opcode c) SCSI_REQ_CMP_ERR SCSI_STATUS_CHECK_CONDITION (cc_sense c)).

Definition finish_checksense (a tag : Z) (s : sys) : option (Z * Z * sys) :=
  '(d, q) ← get_qrequest a tag s;
  r ← qr_request q;
  c ← ccbs s !! r;
  let c := set_subsys (subsys_status d) c in
  let '(d, c) :=
    if cc_subsys_status c =? SCSI_REQ_CMP then
      let d := set_combined_sense (new_combined_sense d) d in
      if combined_sense d =? 0 then (d, c) else set_check_condition d c
    else (d, c) in
  finish_request a tag (with_ccbs <[r := c]> (put_device a d s)).

Definition finish_retry (a tag : Z) (s : sys) : option (Z * Z * sys) :=
  '(d, _) ← get_qrequest a tag s;
  finish_request a tag (put_device a (set_combined_sense 0 d) s).

Definition finish_norelease (a tag : Z) (resubmit : bool) (s : sys) : option sys :=
  '(d, q) ← get_qrequest a tag s;
  r ← qr_request q;
  let d := release_qrequest tag q d in
  let num_requests := num_running_reqs d in
  let s := put_device a (set_num_running (num_requests + 1) d) s in
  let s := set_bus_running (bus_running_reqs s - 1) s in
  let s := if decide (active_qrequest s = Some (a, tag)) then set_active None s else s in
  Some (tell (if resubmit then Resubmit r else Finished r num_requests) s).

(** The loop of [finish_all_requests] from tag [i] on, over [n] tags. *)
Fixpoint finish_tags (a : Z) (ignore : option (Z * Z)) (status : Z) (resubmit : bool) (n : nat) (i : Z) (s : sys) : option sys :=
  match n with
  | O => Some s
  | S n =>
      '(_, q) ← get_qrequest a i s;
      s ← (if qr_running q && negb (bool_decide (ignore = Some (a, i))) then
             r ← qr_request q;
             c ← ccbs s !! r;
             finish_norelease a i resubmit (with_ccbs <[r := set_subsys status c]> s)
           else Some s);
      finish_tags a ignore status resubmit n (i + 1) s
  end.

(** Nothing is done for a device that is not there. *)
Definition finish_all_requests (a : Z) (ignore : option (Z * Z)) (status : Z) (resubmit : bool) (s : sys) : option sys :=
  match devices s !! a with
  | None => Some s
  | Some d =>
      let s := tell BlockBus s in
      s ← finish_tags a ignore status resubmit (Z.to_nat (queue_depth d)) 0 s;
      Some (tell UnblockBus s)
  end.

(** ** Resets *)

Definition SCSI_SCSI_BUS_RESET : Z := 0x0e.

(** The timer of the time-out of a device is off, and not installed. *)
Definition stop_reconnect (a : Z) (s : sys) : sys :=
  match devices s !! a with
  | None => s
  | Some d =>
      let x := reconnect_of d in
      if reconnect_timer_installed x then
        put_device a (set_reconnect (Reconnect false false (reconnect_dpc x) (reconnect_synced_pc x)) d) s
      else s
  end.

(** The requests are given back whether or not the controller does what it is
    told. *)
Definition reset_bus (ignore : option (Z * Z)) (s : sys) : option sys :=
  let s := stop_reconnect 1 (stop_reconnect 0 s) in
  s ← finish_all_requests 0 ignore SCSI_SCSI_BUS_RESET true s;
  finish_all_requests 1 ignore SCSI_SCSI_BUS_RESET true s.

(** [reset_ok]: does a packet device react to its own reset? *)
Definition reset_device (a : Z) (ignore : option (Z * Z)) (reset_ok : bool) (s : sys) : option sys :=
  d ← devices s !! a;
  if negb (is_atapi d) then reset_bus ignore s
  else
    let s := stop_reconnect a s in
    if negb reset_ok then reset_bus ignore s
    else finish_all_requests a ignore SCSI_SCSI_BUS_RESET true s.

(** How a device reacts to the command that aborts its queue: the resets that it
    took to send it; then the queue is discarded, the controller is gone, or the
    device has to be reset. *)
Inductive abort_end := Rejected | Disappeared | NoReaction (reset_ok : bool).
Record abort := Abort { ab_resets : list bool; ab_end : abort_end }.

Fixpoint resets (a : Z) (l : list bool) (s : sys) : option sys :=
  match l with [] => Some s | b :: l => s ← reset_device a None b s; resets a l s end.

(** Nobody uses the result. *)
Definition send_abort_queue (a : Z) (x : abort) (s : sys) : option sys :=
  s ← resets a (ab_resets x) s;
  match ab_end x with
  | Rejected => finish_all_requests a None 0 true s
  | Disappeared => Some s
  | NoReaction reset_ok => reset_device a None reset_ok s
  end.

(** ** Requests of the SCSI bus manager *)

Definition is_queuable (d : ide_device_info) (c : scsi_ccb) : bool :=
  CQ_enabled d && (Z.land (cc_flags c) SCSI_ORDERED_QTAG =? 0) &&
  ((cc_opcode c =? 0x08) || (cc_opcode c =? 0x0a) || (cc_opcode c =? 0x28) || (cc_opcode c =? 0x2a)).

(** What becomes of a request: it is answered at once, or its device starts with a
    tag, or the bus or the device is busy.  In the last case the lock is released
    and [requeue] comes next, before which the benaphore of reports is not
    released. *)
Inductive io_result := Answered | Refused (bus_overflow : bool) | Started (a tag : Z).

Definition sim_scsi_io (r : Z) (s : sys) : option (io_result * sys) :=
  c ← ccbs s !! r;
  let refuse status := Some (Answered, tell (Finished r 1) (with_ccbs <[r := set_subsys status c]> s)) in
  if disconnected s then refuse SCSI_NO_HBA
  else if 2 <=? cc_target_id c then refuse SCSI_SEL_TIMEOUT
  else match devices s !! cc_target_id c with
  | None => refuse SCSI_SEL_TIMEOUT
  | Some d =>
      if last_lun d <? cc_target_lun c then refuse SCSI_SEL_TIMEOUT
      else
        let queuable := is_queuable d c in
        s ← IDE_LOCK s;
        if negb (bool_decide (state s = ide_state_idle)) then Some (Refused true, IDE_UNLOCK s)
        else match free_qrequests d with
        | None => Some (Refused false, IDE_UNLOCK s)
        | Some tag =>
            if (0 <? num_running_reqs d) && negb queuable then Some (Refused false, IDE_UNLOCK s)
            else
              let s := IDE_UNLOCK (set_state ide_state_accessing s) in
              q ← qreq_array d !! Z.to_nat tag;
              let q' := QRequest (qr_next q) (Some r) true false queuable in
              let d := set_array (<[Z.to_nat tag := q']> (qreq_array d)) (qr_next q) d in
              let d := set_num_running (num_running_reqs d + 1) d in
              let s := put_device (cc_target_id c) d s in
              Some (Started (cc_target_id c) tag,
                    set_active (Some (cc_target_id c, tag)) (set_bus_running (bus_running_reqs s + 1) s))
        end
  end.

(** [send_command] selects the device. *)
Definition select_device s := Sys (active_qrequest s) (lock s) (state s) (disconnected s) (bus_running_reqs s) (timer s) (irq_dpc s) (synced_pc_list s) (sync_wait_sem s) (sync_wait_timeout s) true (devices s) (synced_pcs s) (ccbs s) (events s).

(** The deferred calls: does the active request go on?  The handler of time-outs
    uses it unseen, and finishes it. *)
Definition ide_dpc (s : sys) : bool * sys :=
  match active_qrequest s with
  | Some _ => (true, set_timer false s)
  | None => (false, s)
  end.

Definition SCSI_CMD_TIMEOUT : Z := 0x0b.

(** The failures of DMA that it counts are not part of the model. *)
Definition ide_timeout_dpc (reset_ok : bool) (s : sys) : option (Z * Z * sys) :=
  '(a, tag) ← active_qrequest s;
  _ ← get_qrequest a tag s;
  s ← reset_device a (Some (a, tag)) reset_ok s;
  d ← devices s !! a;
  finish_checksense a tag (put_device a (set_result SCSI_CMD_TIMEOUT (new_combined_sense d) d) s).

(** ** Synchronized procedure calls *)

(** What [schedule_synced_pc] is to do: nothing more (the status), or to run the
    call. *)
Inductive schedule_result := Done (status : Z) | RunNow.

(** The lock is not released on the way out for a call that is registered. *)
Definition schedule_synced_pc (a arg : Z) (s : sys) : option (schedule_result * sys) :=
  s ← IDE_LOCK s;
  pc ← synced_pcs s !! a;
  if pc_registered pc then Some (Done B_ERROR, s)
  else if negb (bool_decide (state s = ide_state_idle)) then
    let s := with_synced_pcs <[a := SyncedPC (synced_pc_list s) true arg]> s in
    Some (Done B_OK, IDE_UNLOCK (set_synced_pc_list a s))
  else Some (RunNow, IDE_UNLOCK (set_state ide_state_accessing s)).

(** The second loop of [exec_synced_pcs], with the lock; there are no more calls
    than [n]. *)
Fixpoint unregister (n : nat) (a : Z) (m : gmap Z ide_synced_pc) : option (gmap Z ide_synced_pc) :=
  if a =? 0 then Some m
  else match n with
       | O => None
       | S n => pc ← m !! a; unregister n (pc_next pc) (<[a := SyncedPC (pc_next pc) false (pc_arg pc)]> m)
       end.

Definition exec_synced_pcs_end (head : Z) (s : sys) : option sys :=
  s ← IDE_LOCK s;
  m ← unregister (size (synced_pcs s)) head (synced_pcs s);
  Some (IDE_UNLOCK (with_synced_pcs (fun _ => m) s)).

(** What a device answers when it is told to continue: the tag, or that something
    went wrong, and how it reacts when its queue is aborted then; [sv_error] says
    that the request failed, or that its DMA cannot be prepared. *)
Record service_answer := Service { sv_tag : option Z; sv_abort : abort; sv_error : bool }.

(** The service bits of the devices: of the other one, with its number if there is
    one, and of the current one. *)
Record answers := Answers { an_other : option (Z * service_answer); an_own : option service_answer }.

Definition no_service : answers := Answers None None.

(** A device without requests is not asked. *)
Definition check_service_req (d : ide_device_info) (x : option service_answer) : option service_answer :=
  if num_running_reqs d =? 0 then None else x.

(** [service_device] stops the timer, but it stays installed. *)
Definition cancel_reconnect (a : Z) (d : ide_device_info) (s : sys) : sys :=
  let x := reconnect_of d in
  put_device a (set_reconnect (Reconnect (reconnect_timer_installed x) false (reconnect_dpc x) (reconnect_synced_pc x)) d) s.

(** [try_service] starts it for a device that has requests. *)
Definition start_reconnect (a : Z) (s : sys) : option sys :=
  d ← devices s !! a;
  let x := reconnect_of d in
  if (0 <? num_running_reqs d) && negb (reconnect_timer_installed x) then
    Some (put_device a (set_reconnect (Reconnect true true (reconnect_dpc x) (reconnect_synced_pc x)) d) s)
  else Some s.

(** A request goes on, or none does, or the active request failed; then
    [finish_reset_queue] comes next, which releases the bus. *)
Inductive service_result := Served | NotServed | RequestFailed.

(** With the lock held; it is released if a request goes on, or failed. *)
Definition service_device (a : Z) (x : service_answer) (s : sys) : option (service_result * sys) :=
  let s := IDE_UNLOCK s in
  d ← devices s !! a;
  let s := cancel_reconnect a d s in
  match (tag ← sv_tag x; _ ← tag2request d tag; Some tag) with
  | None =>
      s ← send_abort_queue a (sv_abort x) s;
      s ← IDE_LOCK s;
      Some (NotServed, s)
  | Some tag =>
      let s := set_active (Some (a, tag)) s in
      if sv_error x then Some (RequestFailed, s)
      else
        s ← start_waiting_nolock ide_state_async_waiting s;
        Some (Served, s)
  end.

(** The other device is served first. *)
Definition try_service (a : Z) (x : answers) (s : sys) : option (service_result * sys) :=
  d ← devices s !! a;
  let own := check_service_req d (an_own x) in
  '(served, s) ← (match an_other x with
                  | Some (b, y) =>
                      e ← devices s !! b;
                      match check_service_req e (Some y) with Some y => service_device b y s | None => Some (NotServed, s) end
                  | None => Some (NotServed, s)
                  end);
  match served with
  | Served => s ← start_reconnect a s; Some (Served, s)
  | RequestFailed => Some (RequestFailed, s)
  | NotServed =>
      '(served, s) ← (match own with Some y => service_device a y s | None => Some (NotServed, s) end);
      match served with
      | NotServed => s ← start_reconnect a s; Some (NotServed, s)
      | _ => Some (served, s)
      end
  end.

(** What becomes of the bus: a request goes on, the bus is idle, it goes to the
    list of calls from an address on, or the request that was served failed. *)
Inductive released := GivenAway | Idle | RunCalls (l : Z) | ServiceFailed.

(** One round of [access_finished]. *)
Definition access_finished (device : option Z) (x : answers) (s : sys) : option (released * sys) :=
  s ← IDE_LOCK s;
  '(served, s) ← (match device with Some a => try_service a x s | None => Some (NotServed, s) end);
  match served with
  | Served => Some (GivenAway, s)
  | RequestFailed => Some (ServiceFailed, s)
  | NotServed =>
      if synced_pc_list s =? 0 then Some (Idle, IDE_UNLOCK (set_state ide_state_idle s))
      else
        let l := synced_pc_list s in
        Some (RunCalls l, IDE_UNLOCK (set_synced_pc_list 0 s))
  end.

(** ** The time-out of queued requests *)

Definition MAX_CQ_FAILURES : Z := 3.

(** The timer fires, and the deferred call is scheduled. *)
Definition reconnect_timeout (a : Z) (s : sys) : option sys :=
  d ← devices s !! a;
  let x := reconnect_of d in
  Some (put_device a (set_reconnect (Reconnect (reconnect_timer_installed x) false true (reconnect_synced_pc x)) d) s).

(** The deferred call. *)
Definition reconnect_timeout_dpc (a : Z) (s : sys) : option (schedule_result * sys) :=
  d ← devices s !! a;
  let x := reconnect_of d in
  let s := put_device a (set_reconnect (Reconnect (reconnect_timer_installed x) (reconnect_timer x) false (reconnect_synced_pc x)) d) s in
  schedule_synced_pc (reconnect_synced_pc x) a (tell BlockBus s).

(** The synchronized call, with the argument [a]. *)
Definition reconnect_timeout_worker (a : Z) (x : abort) (malloc_ok : bool) (s : sys) : option sys :=
  d ← devices s !! a;
  s ← (if 0 <? num_running_reqs d then
         s ← send_abort_queue a x s;
         d ← devices s !! a;
         let failures := u8 (CQ_failures d + 1) in
         let d := if MAX_CQ_FAILURES <? failures then snd (change_qreq_array 1 malloc_ok (set_CQ false failures d))
                  else set_CQ (CQ_enabled d) failures d in
         Some (put_device a d s)
       else Some s);
  Some (tell UnblockBus s).

(** ** Setting up synchronized calls *)

Definition init_synced_pc (pc : ide_synced_pc) : ide_synced_pc := SyncedPC (pc_next pc) false (pc_arg pc).

(** No result is a panic. *)
Definition uninit_synced_pc (pc : ide_synced_pc) : option ide_synced_pc := if pc_registered pc then None else Some pc.

(** ** A controller that is lost *)

(** A bus has two devices at most. *)
Definition disconnect_worker (s : sys) : option sys :=
  s ← finish_all_requests 0 None SCSI_NO_HBA false s;
  s ← finish_all_requests 1 None SCSI_NO_HBA false s;
  Some (tell UnblockBus s).

(** [a] is the address of [disconnect_syncinfo]. *)
Definition ide_sim_bus_removed (a : Z) (s : sys) : option (schedule_result * sys) :=
  schedule_synced_pc a 0 (set_disconnected true (tell BlockBus s)).
