(* ===== verification/IdeBus.v ===== *)
(** The IDE bus manager as a system: the SCSI bus manager, interrupts, the timer,
    the service thread and threads that schedule synchronized calls, in any order;
    what its requests and its synchronized calls keep. *)
From stdpp Require Import base functions gmap list.
From Stdlib Require Import ZArith Lia.
From S2P Require Import Prelude Errors Ide.

(** ** The system *)

(** What a thread tells the SCSI bus manager once it has released the bus. *)
Inductive report := RFinished (r num : Z) | RResubmit (r : Z) | RContSend.

(** What a thread is about to tell it: such a report, or that a request that was
    refused is to be queued again. *)
Inductive pending := Due (r : report) | ToRequeue (r : Z) (bus_overflow : bool).

(** A synchronized call runs alone, from [schedule_synced_pc], or as one of a list
    that starts at [head], inside [access_finished]. *)
Inductive func := Single | Batch (head : Z) (r : report).

(** Who uses the bus: nobody; the code of the active request, or a synchronized
    call, perhaps waiting at the semaphore; the active request, that waits for an
    interrupt; a deferred call that is scheduled; a thread inside
    [access_finished], or about to unregister the calls that were run. *)
Inductive owner :=
  | Nobody
  | Executing (waits : bool)
  | InFunc (a : Z) (k : func) (waits : bool)
  | AwaitIrq
  | AtDpc
  | Leaving (r : report)
  | Unregistering (head : Z) (r : report).

(** [c_transfer] says that the thread that started to wait for an interrupt is
    still transferring data.  The last fields record what was asked for: the
    requests, the calls that were scheduled, and those that were begun. *)
Record config := Config {
  c_sys : sys;
  c_owner : owner;
  c_transfer : bool;
  c_reports : list pending;
  c_submitted : list Z;
  c_scheduled : list Z;
  c_begun : list Z
}.

Definition with_sys (s : sys) (o : owner) (c : config) : config :=
  Config s o (c_transfer c) (c_reports c) (c_submitted c) (c_scheduled c) (c_begun c).

(** The steps.  The code of a command ([exec_io] and what the deferred calls go
    on with) is any sequence of the steps from [StartAsync] to [DisconnectWork], as
    the functions of sync.c and ide_sim.c it calls. *)
Inductive call :=
  | ScsiIo (r : Z) (x : scsi_ccb)
  | Irq (status : Z)
  | TimerFires
  | RunDpc (reset_ok : bool)
  | StartAsync
  | TransferDone
  | CancelWait
  | StartSync
  | SyncDone
  | PioWrite
  | ReleasedBus
  | Finish (status sense : Z)
  | FinishRetry
  | ResetDevice (a : Z) (reset_ok : bool)
  | BusRemoved (a : Z)
  | DisconnectWork
  | Schedule (a arg : Z)
  | FuncEnd
  | Access (device : option Z) (x : answers)
  | Unregister
  | Report (i : nat)
  | ReconnectFires (a : Z)
  | ReconnectDpc (a : Z)
  | ReconnectWork (a : Z) (x : abort) (malloc_ok : bool).

Definition event_of (r : report) : event :=
  match r with RFinished r num => Finished r num | RResubmit r => Resubmit r | RContSend => ContSend end.

Definition pending_event (p : pending) : event :=
  match p with Due r => event_of r | ToRequeue r b => Requeue r b end.

(** A deferred call is scheduled for an interrupt of an idle bus, or of one that
    waits for it. *)
Definition after_irq (s s' : sys) (o : owner) : owner :=
  match state s, state s' with
  | (ide_state_idle | ide_state_async_waiting), ide_state_accessing => AtDpc
  | _, _ => o
  end.

Definition finish_active (f : Z -> Z -> sys -> option (Z * Z * sys)) (g : Z -> Z -> report) (c : config) : option config :=
  '(a, tag) ← active_qrequest (c_sys c);
  '(r, num, s) ← f a tag (c_sys c);
  Some (with_sys s (Leaving (g r num)) c).

Definition set_device_result (status sense a : Z) (s : sys) : option sys :=
  d ← devices s !! a; Some (put_device a (set_result status sense d) s).

(** A call that was scheduled waits, or runs. *)
Definition after_schedule (x : schedule_result) (a : Z) (s : sys) (c : config) : config :=
  match x with
  | RunNow =>
      Config s (InFunc a Single false) (c_transfer c) (c_reports c) (c_submitted c) (c_scheduled c ++ [a]) (c_begun c ++ [a])
  | Done status =>
      Config s (c_owner c) (c_transfer c) (c_reports c) (c_submitted c)
        (if status =? B_OK then c_scheduled c ++ [a] else c_scheduled c) (c_begun c)
  end.

Definition step (x : call) (c : config) : option config :=
  let s := c_sys c in
  match x with
  | ScsiIo r cc =>
      '(x, s) ← sim_scsi_io r (with_ccbs <[r := cc]> s);
      let o := match x with Started _ _ => Executing false | _ => c_owner c end in
      let reports := match x with Refused b => c_reports c ++ [ToRequeue r b] | _ => c_reports c end in
      Some (Config s o (c_transfer c) reports (c_submitted c ++ [r]) (c_scheduled c) (c_begun c))
  | Irq status =>
      '(_, s') ← ide_irq_handler status s;
      Some (with_sys s' (after_irq s s' (c_owner c)) c)
  | TimerFires =>
      '(_, s') ← ide_timeout s;
      Some (with_sys s' (after_irq s s' (c_owner c)) c)
  | RunDpc reset_ok =>
      f ← irq_dpc s;
      let s := set_irq_dpc None s in
      match f with
      | Ide_dpc => let '(goes_on, s) := ide_dpc s in Some (with_sys s (if goes_on then Executing false else Leaving RContSend) c)
      | Ide_timeout_dpc => finish_active (fun _ _ => ide_timeout_dpc reset_ok) RFinished (with_sys s (Executing false) c)
      end
  | StartAsync =>
      match c_owner c with
      | Executing false =>
          s ← start_waiting_nolock ide_state_async_waiting (select_device s);
          Some (Config s AwaitIrq true (c_reports c) (c_submitted c) (c_scheduled c) (c_begun c))
      | _ => None
      end
  | TransferDone => Some (Config s (c_owner c) false (c_reports c) (c_submitted c) (c_scheduled c) (c_begun c))
  | CancelWait =>
      s ← cancel_irq_timeout s;
      Some (Config s (Executing false) false (c_reports c) (c_submitted c) (c_scheduled c) (c_begun c))
  | StartSync =>
      s ← start_waiting_nolock ide_state_sync_waiting (select_device s);
      match c_owner c with
      | Executing false => Some (with_sys s (Executing true) c)
      | InFunc a k false => Some (with_sys s (InFunc a k true) c)
      | _ => None
      end
  | SyncDone =>
      s ← wait_for_sync s;
      match c_owner c with
      | Executing true => Some (with_sys s (Executing false) c)
      | InFunc a k true => Some (with_sys s (InFunc a k false) c)
      | _ => None
      end
  | PioWrite =>
      match c_owner c with Executing false => Some (with_sys (schedule_dpc Ide_dpc s) AtDpc c) | _ => None end
  | ReleasedBus =>
      match c_owner c with Executing false => Some (with_sys (set_active None s) (Leaving RContSend) c) | _ => None end
  | Finish status sense =>
      match c_owner c with
      | Executing false =>
          finish_active (fun a tag s => s ← set_device_result status sense a s; finish_checksense a tag s) RFinished c
      | _ => None
      end
  | FinishRetry =>
      match c_owner c with
      | Executing false => finish_active finish_retry (fun r _ => RResubmit r) c
      | _ => None
      end
  | ResetDevice a reset_ok =>
      match c_owner c with
      | Executing false | InFunc _ _ false => s ← reset_device a (active_qrequest s) reset_ok s; Some (with_sys s (c_owner c) c)
      | _ => None
      end
  | BusRemoved a => '(x, s) ← ide_sim_bus_removed a s; Some (after_schedule x a s c)
  | DisconnectWork =>
      match c_owner c with InFunc _ _ false => s ← disconnect_worker s; Some (with_sys s (c_owner c) c) | _ => None end
  | Schedule a arg => '(x, s) ← schedule_synced_pc a arg s; Some (after_schedule x a s c)
  | FuncEnd =>
      match c_owner c with
      | InFunc a Single false => Some (with_sys s (Leaving RContSend) c)
      | InFunc a (Batch head r) false =>
          pc ← synced_pcs s !! a;
          let b := pc_next pc in
          if b =? 0 then Some (with_sys s (Unregistering head r) c)
          else Some (Config s (InFunc b (Batch head r) false) (c_transfer c) (c_reports c) (c_submitted c)
                       (c_scheduled c) (c_begun c ++ [b]))
      | _ => None
      end
  | Access device x =>
      match c_owner c with
      | Leaving r =>
          '(res, s) ← access_finished device x s;
          match res with
          | GivenAway => Some (Config s AwaitIrq false (c_reports c ++ [Due r]) (c_submitted c) (c_scheduled c) (c_begun c))
          | Idle => Some (Config s Nobody (c_transfer c) (c_reports c ++ [Due r]) (c_submitted c) (c_scheduled c) (c_begun c))
          | RunCalls l =>
              Some (Config s (InFunc l (Batch l r) false) (c_transfer c) (c_reports c) (c_submitted c)
                      (c_scheduled c) (c_begun c ++ [l]))
          | ServiceFailed => None
          end
      | _ => None
      end
  | Unregister =>
      match c_owner c with
      | Unregistering head r => s ← exec_synced_pcs_end head s; Some (with_sys s (Leaving r) c)
      | _ => None
      end
  | Report i =>
      p ← c_reports c !! i;
      Some (Config (tell (pending_event p) s) (c_owner c) (c_transfer c) (delete i (c_reports c)) (c_submitted c)
              (c_scheduled c) (c_begun c))
  | ReconnectFires a => s ← reconnect_timeout a s; Some (with_sys s (c_owner c) c)
  | ReconnectDpc a =>
      d ← devices s !! a;
      '(x, s) ← reconnect_timeout_dpc a s;
      Some (after_schedule x (reconnect_synced_pc (reconnect_of d)) s c)
  | ReconnectWork a x malloc_ok =>
      match c_owner c with
      | InFunc _ _ false => s ← reconnect_timeout_worker a x malloc_ok s; Some (with_sys s (c_owner c) c)
      | _ => None
      end
  end.

(** What runs. *)
Definition running_of (l : list ide_qrequest) : list Z := omap (fun q => if qr_running q then qr_request q else None) l.

(** ** What may happen *)

(** A device of the bus that continues names a request of its array. *)
Definition answer_ok (s : sys) (a : Z) (y : service_answer) : Prop :=
  exists d, devices s !! a = Some d /\ forall tag, sv_tag y = Some tag -> 0 <= tag < queue_depth d.

(** A request that is not answered before the benaphore is taken. *)
Definition takes_benaphore (x : scsi_ccb) (s : sys) : bool :=
  negb (disconnected s) && (cc_target_id x <? 2) &&
  match devices s !! cc_target_id x with Some d => cc_target_lun x <=? last_lun d | None => false end.

(** The benaphore of reports is held from the refusal of a request until it is
    queued again. *)
Definition holds_benaphore (p : pending) : bool := match p with ToRequeue _ _ => true | Due _ => false end.

Definition benaphore_free (c : config) : bool := negb (existsb holds_benaphore (c_reports c)).

(** What the SCSI bus manager is told in a step. *)
Definition told (x : call) (c : config) : list event :=
  match step x c with Some c' => drop (length (events (c_sys c))) (events (c_sys c')) | None => [] end.

Definition reports_request (e : event) : bool := match e with Finished _ _ | Resubmit _ => true | _ => false end.

(** A thread takes the benaphore to start a request and to report one. *)
Definition needs_benaphore (x : call) (c : config) : bool :=
  match x with
  | ScsiIo r cc => takes_benaphore cc (c_sys c)
  | Report i => match c_reports c !! i with Some p => reports_request (pending_event p) | None => false end
  | _ => existsb reports_request (told x c)
  end.

(** The hardware may interrupt at any time and answer anything, but a device that is
    told to continue names one of its tags; the devices are 0 and 1.  The service
    thread runs the code of requests and the deferred calls, so these come when it
    has transferred its data. *)
Definition enabled (x : call) (c : config) : Prop :=
  let s := c_sys c in
  match x with
  | ScsiIo _ _ | Irq _ => True
  | TimerFires => timer s = true
  | RunDpc _ => c_owner c = AtDpc /\ c_transfer c = false
  | StartAsync | PioWrite | ReleasedBus | Finish _ _ | FinishRetry => c_owner c = Executing false
  | TransferDone | CancelWait => c_transfer c = true
  | StartSync => c_owner c = Executing false \/ exists a k, c_owner c = InFunc a k false
  | ResetDevice a _ =>
      is_Some (devices s !! a) /\ (c_owner c = Executing false \/ exists b k, c_owner c = InFunc b k false)
  | DisconnectWork => exists a k, c_owner c = InFunc a k false
  | SyncDone =>
      (c_owner c = Executing true \/ exists a k, c_owner c = InFunc a k true) /\ 0 < sync_wait_sem s
  | Schedule a _ | BusRemoved a => is_Some (synced_pcs s !! a)
  | FuncEnd => exists a k, c_owner c = InFunc a k false
  | Access device x =>
      (exists r, c_owner c = Leaving r) /\
      forall a, device = Some a ->
        is_Some (devices s !! a) /\ (forall b y, an_other x = Some (b, y) -> answer_ok s b y) /\
        (forall y, an_own x = Some y -> answer_ok s a y)
  | Unregister => exists head r, c_owner c = Unregistering head r
  | Report i => (i < length (c_reports c))%nat
  | ReconnectFires a => exists d, devices s !! a = Some d /\ reconnect_timer (reconnect_of d) = true
  | ReconnectDpc a =>
      exists d, devices s !! a = Some d /\ reconnect_dpc (reconnect_of d) = true /\
        is_Some (synced_pcs s !! reconnect_synced_pc (reconnect_of d))
  | ReconnectWork a _ _ =>
      (exists d k, devices s !! a = Some d /\ c_owner c = InFunc (reconnect_synced_pc (reconnect_of d)) k false) /\ (a = 0 \/ a = 1)
  end.

(** A thread that is to take the benaphore waits for it. *)
Definition may (x : call) (c : config) : Prop :=
  (needs_benaphore x c = true -> benaphore_free c = true) /\ enabled x c.

(** ** What the code cannot bear

    A call is scheduled while it is registered ([schedule_twice_locks]); a transfer
    fails after the interrupt has come ([cancel_after_irq]); a request fails when
    it is served ([service_error_two_users]); the array of requests of a device
    is replaced while some of them run, or there is no memory for the new one
    ([change_qreq_array_forgets]). *)
Inductive defect := RegisteredTwice | CancelledLate | ServiceFails | QueueDropped | DepthForgotten.

Definition registered_twice (a : Z) (s : sys) : option defect :=
  match synced_pcs s !! a with Some pc => if pc_registered pc then Some RegisteredTwice else None | None => None end.

(** A device whose array is to be replaced after its queue was aborted. *)
Definition to_replace (a : Z) (x : abort) (s : sys) : option ide_device_info :=
  d ← devices s !! a;
  if 0 <? num_running_reqs d then
    s ← send_abort_queue a x s;
    d ← devices s !! a;
    if MAX_CQ_FAILURES <? u8 (CQ_failures d + 1) then Some d else None
  else None.

Definition defect_of (x : call) (c : config) : option defect :=
  let s := c_sys c in
  match x with
  | Schedule a _ | BusRemoved a => registered_twice a s
  | ReconnectDpc a => d ← devices s !! a; registered_twice (reconnect_synced_pc (reconnect_of d)) s
  | CancelWait => match c_owner c with AwaitIrq => None | _ => Some CancelledLate end
  | Access device x => match access_finished device x s with Some (ServiceFailed, _) => Some ServiceFails | _ => None end
  | ReconnectWork a x malloc_ok =>
      d ← to_replace a x s;
      let idle := bool_decide (running_of (qreq_array d) = []) in
      if malloc_ok : bool then (if idle then None else Some QueueDropped)
      else if idle && (queue_depth d =? 1) then None else Some DepthForgotten
  | _ => None
  end.

Definition allowed (x : call) (c : config) : Prop := may x c /\ defect_of x c = None.

(** A bus whose devices have their arrays of requests, and whose synchronized calls
    are at addresses other than 0. *)
Definition start (devs : gmap Z ide_device_info) (pcs : gmap Z ide_synced_pc) : config :=
  Config (Sys None false ide_state_idle false 0 false None 0 0 false false devs pcs ∅ []) Nobody false [] [] [] [].

Definition fresh_device (d : ide_device_info) : Prop :=
  exists d0, initialize_qreq_array (queue_depth d) true d0 = (true, d) /\ num_running_reqs d0 = 0 /\ 0 <= queue_depth d.

Definition fresh_pcs (pcs : gmap Z ide_synced_pc) : Prop :=
  map_Forall (fun a pc => a <> 0 /\ pc_registered pc = false) pcs.

(** The SCSI bus manager is told to go on while a request that was refused because
    the bus is busy is still to be queued again ([retry_lost]). *)
Definition will_overflow (p : pending) : bool := match p with ToRequeue _ b => b | Due _ => false end.

Definition overtakes (x : call) (c : config) : bool :=
  match x with
  | Report i => match c_reports c !! i with Some (Due RContSend) => existsb will_overflow (c_reports c) | _ => false end
  | _ => false
  end.

(** What can be reached before the first of these defects. *)
Inductive reachable : config -> Prop :=
  | reach_start devs pcs : map_Forall (fun _ d => fresh_device d) devs -> fresh_pcs pcs -> reachable (start devs pcs)
  | reach_step x c c' : reachable c -> allowed x c -> step x c = Some c' -> reachable c'.

(** And without such a report. *)
Inductive reachable_on_time : config -> Prop :=
  | time_start devs pcs : map_Forall (fun _ d => fresh_device d) devs -> fresh_pcs pcs -> reachable_on_time (start devs pcs)
  | time_step x c c' : reachable_on_time c -> allowed x c -> overtakes x c = false -> step x c = Some c' -> reachable_on_time c'.

(** ** The requests of a device *)

Implicit Types (d : ide_device_info) (l : list ide_qrequest) (fl : list Z).

(** The free requests: their tags from [h] on. *)
Fixpoint free_tags (l : list ide_qrequest) (h : option Z) (fl : list Z) : Prop :=
  match fl with
  | [] => h = None
  | t :: r => h = Some t /\ 0 <= t /\ exists q, l !! Z.to_nat t = Some q /\ qr_running q = false /\ free_tags l (qr_next q) r
  end.

Record array_ok d fl : Prop := {
  ar_depth : queue_depth d = Z.of_nat (length (qreq_array d));
  ar_free : free_tags (qreq_array d) (free_qrequests d) fl;
  ar_nodup : NoDup fl;
  ar_all : forall t q, qreq_array d !! t = Some q -> qr_running q = false -> Z.of_nat t ∈ fl;
  ar_running : forall t q, qreq_array d !! t = Some q -> qr_running q = true -> is_Some (qr_request q);
  ar_num : Z.of_nat (length (running_of (qreq_array d))) <= num_running_reqs d
}.

Lemma free_tags_lookup l h fl t : free_tags l h fl -> t ∈ fl -> 0 <= t /\ exists q, l !! Z.to_nat t = Some q /\ qr_running q = false.
Proof.
  revert h. induction fl as [|u r IH]; intros h; [by intros _ ?%elem_of_nil|].
  intros (_ & Hu & q & Hq & Hr & Hc) [<- | Hin]%elem_of_cons; [by eauto|by eapply IH].
Qed.

Lemma free_tags_insert l h fl t x : 0 <= t -> t ∉ fl -> free_tags l h fl -> free_tags (<[Z.to_nat t := x]> l) h fl.
Proof.
  intros Ht. revert h. induction fl as [|u r IH]; intros h Hin; [done|]. intros (-> & Hu & q & Hq & Hr & Hc).
  apply not_elem_of_cons in Hin as [Hne Hin]. split; [done|]. split; [done|]. exists q.
  rewrite list_lookup_insert_ne by lia. split_and!; [done|done|by apply IH].
Qed.

Lemma running_cons x l : running_of (x :: l) = running_of [x] ++ running_of l.
Proof. unfold running_of. cbn. by destruct (if qr_running x then _ else _). Qed.

Lemma running_insert l i y x :
  l !! i = Some y -> running_of [y] ++ running_of (<[i := x]> l) ≡ₚ running_of [x] ++ running_of l.
Proof.
  intros Hy. pose proof (lookup_lt_Some _ _ _ Hy) as Hlt. rewrite insert_take_drop by done.
  rewrite <- (take_drop_middle l i y Hy) at 3. unfold running_of at 2 4. rewrite !omap_app.
  fold (running_of (take i l)) (running_of (x :: drop (S i) l)) (running_of (y :: drop (S i) l)).
  rewrite (running_cons x (drop _ _)), (running_cons y (drop _ _)). set (A := running_of (take i l)). set (B := running_of (drop (S i) l)).
  rewrite (Permutation_app_swap_app (running_of [y]) A), (Permutation_app_swap_app (running_of [x]) A).
  apply Permutation_app_head, Permutation_app_swap_app.
Qed.

Lemma array_lookup d fl t : array_ok d fl -> t ∈ fl -> 0 <= t < Z.of_nat (length (qreq_array d)).
Proof. intros A Hin. destruct (free_tags_lookup _ _ _ _ (ar_free _ _ A) Hin) as (H & q & Hq & _). apply lookup_lt_Some in Hq. lia. Qed.

(** A free request starts. *)
Lemma take_ok d fl tag r dma queued :
  array_ok d fl -> free_qrequests d = Some tag -> exists q fl',
    qreq_array d !! Z.to_nat tag = Some q /\ 0 <= tag /\
    let d' := set_num_running (num_running_reqs d + 1)
      (set_array (<[Z.to_nat tag := QRequest (qr_next q) (Some r) true dma queued]> (qreq_array d)) (qr_next q) d) in
    array_ok d' fl' /\ running_of (qreq_array d') ≡ₚ r :: running_of (qreq_array d).
Proof.
  intros [A1 A2 A3 A4 A5 A6] Hf. destruct fl as [|t fl]; [by rewrite Hf in A2|].
  destruct A2 as (E & Ht & q & Hq & Hr & Hc). rewrite Hf in E. injection E as <-. apply NoDup_cons in A3 as [Hni A3].
  exists q, fl. split; [done|]. split; [done|]. intros d'.
  assert (Hp : running_of (qreq_array d') ≡ₚ r :: running_of (qreq_array d)).
  { pose proof (running_insert _ _ _ (QRequest (qr_next q) (Some r) true dma queued) Hq) as Hp.
    unfold running_of in Hp at 1 3. cbn in Hp. by rewrite Hr in Hp. }
  split; [|done]. split; cbn [d' set_num_running set_array queue_depth qreq_array free_qrequests num_running_reqs].
  - by rewrite length_insert.
  - by apply free_tags_insert.
  - done.
  - intros t q' [(<- & <- & _)|[Hne Hq']]%list_lookup_insert_Some Hr'; [done|].
    apply (A4 t q' Hq') in Hr' as [E|Hr']%elem_of_cons; [|done]. exfalso. apply Hne. lia.
  - intros t q' [(<- & <- & _)|[Hne Hq']]%list_lookup_insert_Some Hr'; [by eexists|by eapply A5].
  - cbn [d' set_num_running set_array qreq_array] in Hp. rewrite Hp. cbn. lia.
Qed.

(** A running request ends. *)
Lemma release_ok d fl tag q r n :
  array_ok d fl -> 0 <= tag -> qreq_array d !! Z.to_nat tag = Some q -> qr_running q = true -> qr_request q = Some r ->
  num_running_reqs d - 1 <= n ->
  let d' := set_num_running n (release_qrequest tag q d) in
  array_ok d' (tag :: fl) /\ r :: running_of (qreq_array d') ≡ₚ running_of (qreq_array d).
Proof.
  intros [A1 A2 A3 A4 A5 A6] Ht Hq Hrun Hr Hn d'. pose proof (lookup_lt_Some _ _ _ Hq) as Hlt.
  assert (Hni : tag ∉ fl).
  { intros Hin. destruct (free_tags_lookup _ _ _ _ A2 Hin) as (_ & q' & Hq' & Hr'). congruence. }
  assert (Hp : r :: running_of (qreq_array d') ≡ₚ running_of (qreq_array d)).
  { pose proof (running_insert _ _ _ (QRequest (free_qrequests d) (qr_request q) false (qr_uses_dma q) (qr_queuable q)) Hq) as Hp.
    unfold running_of in Hp at 1 3. cbn in Hp. rewrite Hrun, Hr in Hp. unfold d', release_qrequest. by rewrite Hr. }
  split; [|done]. split; cbn [d' set_num_running release_qrequest set_array queue_depth qreq_array free_qrequests num_running_reqs].
  - by rewrite length_insert.
  - split; [done|]. split; [done|]. eexists. rewrite list_lookup_insert_eq by done. split; [reflexivity|]. split; [done|].
    by apply free_tags_insert.
  - by constructor.
  - intros t q' [(<- & <- & _)|[Hne Hq']]%list_lookup_insert_Some Hr'; [rewrite Z2Nat.id by done; by left|right; by eapply A4].
  - intros t q' [(<- & <- & _)|[Hne Hq']]%list_lookup_insert_Some Hr'; [done|by eapply A5].
  - cbn [d' set_num_running release_qrequest set_array qreq_array] in Hp. rewrite <- Hp in A6. cbn in A6. lia.
Qed.

(** ** The requests of the bus *)

Implicit Types (m : gmap Z ide_device_info) (cc : gmap Z scsi_ccb) (act : option (Z * Z)).

Definition all_running m : list Z := map_to_list m ≫= fun p => running_of (qreq_array p.2).

Lemma all_running_split m a d : m !! a = Some d -> all_running m ≡ₚ running_of (qreq_array d) ++ all_running (delete a m).
Proof. intros H. unfold all_running. by rewrite <- (map_to_list_delete m a d H). Qed.

Lemma all_running_put m a d d' :
  m !! a = Some d -> running_of (qreq_array d) ++ all_running (<[a := d']> m) ≡ₚ running_of (qreq_array d') ++ all_running m.
Proof.
  intros H. rewrite (all_running_split m a d H), (all_running_split (<[a := d']> m) a d') by apply lookup_insert_eq.
  rewrite delete_insert_eq. apply Permutation_app_swap_app.
Qed.

(** An active request runs. *)
Definition active_ok m act : Prop :=
  match act with
  | Some (a, tag) => 0 <= tag /\ exists d q, m !! a = Some d /\ qreq_array d !! Z.to_nat tag = Some q /\ qr_running q = true
  | None => True
  end.

Record reqs_ok m cc (n : Z) act : Prop := {
  rq_arrays : map_Forall (fun _ d => exists fl, array_ok d fl) m;
  rq_num : n = Z.of_nat (length (all_running m));
  rq_ccbs : forall r, r ∈ all_running m -> is_Some (cc !! r);
  rq_active : active_ok m act
}.

Lemma reqs_inactive m cc n act : reqs_ok m cc n act -> reqs_ok m cc n None.
Proof. intros [H1 H2 H3 _]. by split. Qed.

Lemma reqs_ccb m cc n act r x : reqs_ok m cc n act -> reqs_ok m (<[r := x]> cc) n act.
Proof.
  intros [H1 H2 H3 H4]. split; [done|done| |done]. intros r' Hr'. destruct (decide (r = r')) as [->|Hne].
  - rewrite lookup_insert_eq. by eexists.
  - rewrite lookup_insert_ne by done. auto.
Qed.

Lemma reqs_put m cc n n' act act' a d d' fl :
  reqs_ok m cc n act -> m !! a = Some d -> array_ok d' fl ->
  n' - n = Z.of_nat (length (running_of (qreq_array d'))) - Z.of_nat (length (running_of (qreq_array d))) ->
  (forall r, r ∈ running_of (qreq_array d') -> r ∈ running_of (qreq_array d) \/ is_Some (cc !! r)) ->
  active_ok (<[a := d']> m) act' -> reqs_ok (<[a := d']> m) cc n' act'.
Proof.
  intros [H1 H2 H3 _] Hd A Hn Hr Hact. pose proof (all_running_put m a d d' Hd) as Hp. split; [| | |done].
  - apply map_Forall_insert_2; [by exists fl|done].
  - apply Permutation_length in Hp. rewrite !length_app in Hp. lia.
  - intros r Hin.
    assert (Hin' : r ∈ running_of (qreq_array d') ++ all_running m) by (rewrite <- Hp; apply elem_of_app; by right).
    apply elem_of_app in Hin' as [[Hin' | Hin']%Hr | Hin']; [|done|by apply H3].
    apply H3. rewrite (all_running_split m a d Hd). apply elem_of_app. by left.
Qed.

(** The active request of another tag, or another device, is not touched. *)
Lemma active_put m act a d d' tag x :
  active_ok m act -> m !! a = Some d -> act <> Some (a, tag) -> 0 <= tag ->
  qreq_array d' = <[Z.to_nat tag := x]> (qreq_array d) -> active_ok (<[a := d']> m) act.
Proof.
  destruct act as [[b u]|]; [|done]. intros (Hu & e & q & He & Hq & Hrun) Hd Hne Ht E. split; [done|].
  destruct (decide (a = b)) as [<-|Hab].
  - exists d', q. rewrite Hd in He. injection He as <-. rewrite lookup_insert_eq, E, list_lookup_insert_ne; [done|].
    intros ?. apply Hne. f_equal. f_equal. lia.
  - exists e, q. by rewrite lookup_insert_ne.
Qed.

Lemma array_same d d' fl :
  array_ok d fl -> queue_depth d' = queue_depth d -> qreq_array d' = qreq_array d -> free_qrequests d' = free_qrequests d ->
  num_running_reqs d' = num_running_reqs d -> array_ok d' fl.
Proof. intros [A1 A2 A3 A4 A5 A6] E1 E2 E3 E4. split; rewrite ?E1, ?E2, ?E3, ?E4; done. Qed.

(** The sense of a device changes, or what the last command left. *)
Lemma reqs_same m cc n act a d d' :
  reqs_ok m cc n act -> m !! a = Some d -> queue_depth d' = queue_depth d -> qreq_array d' = qreq_array d ->
  free_qrequests d' = free_qrequests d -> num_running_reqs d' = num_running_reqs d ->
  reqs_ok (<[a := d']> m) cc n act /\ all_running (<[a := d']> m) ≡ₚ all_running m.
Proof.
  intros H Hd E1 E2 E3 E4. destruct (rq_arrays _ _ _ _ H a d Hd) as [fl A]. split.
  - eapply reqs_put; [done|done|by eapply array_same|rewrite E2; lia|rewrite E2; auto|].
    pose proof (rq_active _ _ _ _ H) as Hact. destruct act as [[b u]|]; [|done].
    destruct Hact as (Hu & e & q & He & Hq). split; [done|]. destruct (decide (a = b)) as [<-|Hab].
    + exists d', q. rewrite lookup_insert_eq, E2. rewrite Hd in He. by injection He as <-.
    + exists e, q. by rewrite lookup_insert_ne.
  - pose proof (all_running_put m a d d' Hd) as Hp. rewrite E2 in Hp. by apply Permutation_app_inv_l in Hp.
Qed.

(** A free request of a device starts. *)
Lemma reqs_start m cc n act a d tag r queued :
  reqs_ok m cc n act -> m !! a = Some d -> free_qrequests d = Some tag -> is_Some (cc !! r) -> exists q,
    qreq_array d !! Z.to_nat tag = Some q /\
    let d' := set_num_running (num_running_reqs d + 1)
      (set_array (<[Z.to_nat tag := QRequest (qr_next q) (Some r) true false queued]> (qreq_array d)) (qr_next q) d) in
    reqs_ok (<[a := d']> m) cc (n + 1) (Some (a, tag)) /\ all_running (<[a := d']> m) ≡ₚ r :: all_running m.
Proof.
  intros H Hd Hf Hc. destruct (rq_arrays _ _ _ _ H a d Hd) as [fl A].
  destruct (take_ok d fl tag r false queued A Hf) as (q & fl' & Hq & Ht & A' & Hp). exists q. split; [done|]. intros d'.
  fold d' in A', Hp. pose proof (Permutation_length Hp) as Hl. cbn [length] in Hl. split.
  - eapply reqs_put; [done|done|exact A'|lia| |].
    + intros r'. rewrite Hp. intros [->|Hr']%elem_of_cons; auto.
    + split; [done|]. exists d', (QRequest (qr_next q) (Some r) true false queued). rewrite lookup_insert_eq.
      split; [done|]. cbn. rewrite list_lookup_insert_eq by (by eapply lookup_lt_Some). done.
  - pose proof (all_running_put m a d d' Hd) as Hq'. rewrite Hp in Hq'. cbn [app] in Hq'.
    rewrite (Permutation_middle (running_of (qreq_array d)) (all_running m) r) in Hq'. by apply Permutation_app_inv_l in Hq'.
Qed.

(** A running request ends; the active one is another, or there is none. *)
Lemma reqs_end m cc n act act' a d tag q num :
  reqs_ok m cc n act -> m !! a = Some d -> 0 <= tag -> qreq_array d !! Z.to_nat tag = Some q -> qr_running q = true ->
  num_running_reqs d - 1 <= num -> act' = None \/ act' = act /\ act <> Some (a, tag) -> exists r,
    qr_request q = Some r /\ is_Some (cc !! r) /\
    let d' := set_num_running num (release_qrequest tag q d) in
    reqs_ok (<[a := d']> m) cc (n - 1) act' /\ r :: all_running (<[a := d']> m) ≡ₚ all_running m.
Proof.
  intros H Hd Ht Hq Hrun Hnum Hact. destruct (rq_arrays _ _ _ _ H a d Hd) as [fl A].
  destruct (ar_running _ _ A _ _ Hq Hrun) as [r Hr]. exists r. split; [done|].
  destruct (release_ok d fl tag q r num A Ht Hq Hrun Hr Hnum) as [A' Hp].
  assert (Hin : r ∈ running_of (qreq_array d)) by (rewrite <- Hp; by left).
  split; [apply (rq_ccbs _ _ _ _ H); rewrite (all_running_split m a d Hd); apply elem_of_app; by left|]. intros d'.
  fold d' in A', Hp. pose proof (Permutation_length Hp) as Hl. cbn [length] in Hl. split.
  - eapply reqs_put; [done|done|exact A'|lia| |].
    + intros r' Hr'. left. rewrite <- Hp. by right.
    + destruct Hact as [->|[-> Hne]]; [done|]. eapply active_put; [apply H|done|done|done|done].
  - pose proof (all_running_put m a d d' Hd) as Hq'. rewrite <- Hp in Hq'. cbn [app] in Hq'.
    rewrite (Permutation_middle (running_of (qreq_array d')) (all_running _) r) in Hq'. by apply Permutation_app_inv_l in Hq'.
Qed.

(** ** Requests that end *)

(** The requests that are answered by the calls of the SCSI bus manager. *)
Definition answer (e : event) : list Z :=
  match e with Finished r _ | Resubmit r | Requeue r _ => [r] | _ => [] end.

Definition answered (l : list event) : list Z := l ≫= answer.

(** The overflow bit of the bus in the SCSI bus manager ([scsi_requeue_request] with
    [bus_overflow]): it sends no request until one is finished, comes back, or
    [cont_send_bus] is called. *)
Definition overflow_after (b : bool) (e : event) : bool :=
  match e with
  | Requeue _ x => x
  | Finished _ _ | Resubmit _ | ContSend => false
  | BlockBus | UnblockBus => b
  end.

Definition overflow (l : list event) : bool := foldl overflow_after false l.

Lemma answered_snoc (l : list event) (e : event) : answered (l ++ [e]) = answered l ++ answer e.
Proof. unfold answered. rewrite bind_app. cbn. by rewrite app_nil_r. Qed.

Lemma overflow_snoc (l : list event) (e : event) : overflow (l ++ [e]) = overflow_after (overflow l) e.
Proof. unfold overflow. by rewrite foldl_app. Qed.

Implicit Types s : sys.

Definition sys_reqs s : Prop := reqs_ok (devices s) (ccbs s) (bus_running_reqs s) (active_qrequest s).

(** What waiting and the synchronized calls depend on. *)
Definition waits_of s := (lock s, state s, timer s, irq_dpc s, sync_wait_sem s, synced_pc_list s, synced_pcs s, active_qrequest s).

(** A device keeps its array, in which no request was started. *)
Definition fewer d d' : Prop :=
  queue_depth d' = queue_depth d /\
  forall t q', qreq_array d' !! t = Some q' -> qr_running q' = true -> exists q, qreq_array d !! t = Some q /\ qr_running q = true.

#[export] Instance fewer_preorder : PreOrder fewer.
Proof.
  split.
  - intros d. split; eauto.
  - intros d1 d2 d3 [E1 H1] [E2 H2]. split; [congruence|]. intros t q Hq Hr. destruct (H2 t q Hq Hr) as (q2 & Hq2 & Hr2). eauto.
Qed.

(** Requests are answered, and nothing else happens. *)
Record calm s s' : Prop := {
  ca_waits : waits_of s' = waits_of s;
  ca_reqs : sys_reqs s';
  ca_answers : answered (events s') ++ all_running (devices s') ≡ₚ answered (events s) ++ all_running (devices s);
  ca_overflow : overflow (events s') = true -> overflow (events s) = true;
  ca_devices : forall a d, devices s !! a = Some d -> exists d', devices s' !! a = Some d' /\ fewer d d'
}.

Lemma calm_refl s : sys_reqs s -> calm s s.
Proof. intros H. split; try done. intros a d Hd. by exists d. Qed.

Lemma calm_trans s1 s2 s3 : calm s1 s2 -> calm s2 s3 -> calm s1 s3.
Proof.
  intros [A1 A2 A3 A4 A5] [B1 B2 B3 B4 B5]. split; [congruence|done|by rewrite B3|auto|].
  intros a d Hd. destruct (A5 a d Hd) as (d1 & H1 & E1), (B5 a d1 H1) as (d2 & H2 & E2). exists d2. split; [done|by etrans].
Qed.

Lemma calm_active s s' : calm s s' -> active_qrequest s' = active_qrequest s.
Proof. intros [H _ _ _ _]. unfold waits_of in H. congruence. Qed.

Lemma calm_lock s s' : calm s s' -> lock s' = lock s.
Proof. intros [H _ _ _ _]. unfold waits_of in H. congruence. Qed.

Lemma calm_tell s (e : event) : answer e = [] -> (overflow_after (overflow (events s)) e = true -> overflow (events s) = true) ->
  sys_reqs s -> calm s (tell e s).
Proof.
  intros E Ho H. split; [done|done| | |intros a d Hd; by exists d]; cbn [tell events devices];
    [by rewrite answered_snoc, E, app_nil_r|by rewrite overflow_snoc].
Qed.

Lemma calm_ccb s r x : sys_reqs s -> calm s (with_ccbs <[r := x]> s).
Proof. intros H. split; try done; [by apply reqs_ccb|]. intros a d Hd. by exists d. Qed.

Lemma put_fewer m a d d' b e :
  m !! a = Some d -> fewer d d' -> m !! b = Some e -> exists e', <[a := d']> m !! b = Some e' /\ fewer e e'.
Proof.
  intros Hd E He. destruct (decide (a = b)) as [<-|Hne].
  - exists d'. rewrite lookup_insert_eq. split; [done|]. congruence.
  - exists e. by rewrite lookup_insert_ne.
Qed.

(** Parts of a device change that are not about its requests. *)
Lemma calm_put s a d d' :
  sys_reqs s -> devices s !! a = Some d -> queue_depth d' = queue_depth d -> qreq_array d' = qreq_array d ->
  free_qrequests d' = free_qrequests d -> num_running_reqs d' = num_running_reqs d -> calm s (put_device a d' s).
Proof.
  intros H Hd E1 E2 E3 E4. destruct (reqs_same _ _ _ _ a d d' H Hd E1 E2 E3 E4) as [R Hp]. split; try done.
  - cbn [put_device with_devices events devices]. by rewrite Hp.
  - intros b e He. eapply put_fewer; [done| |done]. split; [done|]. rewrite E2. eauto.
Qed.

(** The answer of an event comes for a request that no longer runs. *)
Lemma answer_moved (l : list event) (r : Z) (e : event) (x y : list Z) : answer e = [r] -> r :: y ≡ₚ x -> answered (l ++ [e]) ++ y ≡ₚ answered l ++ x.
Proof. intros E Hp. rewrite answered_snoc, E, <- app_assoc, <- Hp. done. Qed.

(** The request of a tag ends. *)
Lemma finish_norelease_calm a tag resubmit s d q :
  sys_reqs s -> devices s !! a = Some d -> 0 <= tag -> qreq_array d !! Z.to_nat tag = Some q -> qr_running q = true ->
  active_qrequest s <> Some (a, tag) ->
  exists s', finish_norelease a tag resubmit s = Some s' /\ calm s s' /\
    exists d' q', devices s' !! a = Some d' /\ qreq_array d' !! Z.to_nat tag = Some q' /\ qr_running q' = false.
Proof.
  intros H Hd Ht Hq Hrun Hact. pose proof (lookup_lt_Some _ _ _ Hq) as Hlt.
  destruct (reqs_end _ _ _ _ (active_qrequest s) a d tag q (num_running_reqs d + 1) H Hd Ht Hq Hrun) as (r & Hr & _ & R & Hp);
    [lia|by right|].
  eexists. split; [|split].
  - unfold finish_norelease, get_qrequest. cbn [mbind option_bind]. rewrite Hd. cbn [mbind option_bind]. rewrite Hq.
    cbn [mbind option_bind]. rewrite Hr. cbn [mbind option_bind]. reflexivity.
  - rewrite decide_False by exact Hact. split; [done|exact R| | |].
    + cbn [tell events devices put_device with_devices set_bus_running]. eapply answer_moved; [|exact Hp]. by destruct resubmit.
    + cbn [tell events put_device with_devices set_bus_running]. rewrite overflow_snoc. by destruct resubmit.
    + intros b e He. eapply put_fewer; [done| |done]. split; [done|].
      intros t q' [(<- & <- & _)|[_ Hq']]%list_lookup_insert_Some Hr'; [done|eauto].
  - rewrite decide_False by exact Hact. do 2 eexists. split; [apply lookup_insert_eq|]. split; [by apply list_lookup_insert_eq|done].
Qed.

(** The request that is spared is the active one, if there is one. *)
Definition ignore_ok (ignore : option (Z * Z)) s : Prop := active_qrequest s = None \/ ignore = active_qrequest s.

Lemma ignore_calm ignore s s' : calm s s' -> ignore_ok ignore s -> ignore_ok ignore s'.
Proof. unfold ignore_ok. intros C. by rewrite (calm_active _ _ C). Qed.

Lemma device_tag m cc n act a d i :
  reqs_ok m cc n act -> m !! a = Some d -> 0 <= i < queue_depth d -> is_Some (qreq_array d !! Z.to_nat i).
Proof.
  intros H Hd Hi. destruct (rq_arrays _ _ _ _ H a d Hd) as [fl A]. apply lookup_lt_is_Some. rewrite (ar_depth _ _ A) in Hi. lia.
Qed.

(** No request of a device runs but the one that is spared. *)
Definition aborted (a : Z) (ignore : option (Z * Z)) s : Prop :=
  forall d t q, devices s !! a = Some d -> qreq_array d !! t = Some q -> ignore <> Some (a, Z.of_nat t) -> qr_running q = false.

Lemma aborted_calm a ignore s s' : calm s s' -> aborted a ignore s -> is_Some (devices s !! a) -> aborted a ignore s'.
Proof.
  intros C H [d Hd] d' t q' Hd' Hq' Hi. destruct (ca_devices _ _ C a d Hd) as (d2 & Hd2 & _ & F). rewrite Hd' in Hd2. injection Hd2 as <-.
  destruct (qr_running q') eqn:Hr; [|done]. destruct (F t q' Hq' Hr) as (q & Hq & Hrq). by rewrite (H d t q Hd Hq Hi) in Hrq.
Qed.

Lemma finish_tags_calm a ignore status resubmit n : forall i s d,
  sys_reqs s -> devices s !! a = Some d -> ignore_ok ignore s -> 0 <= i -> i + Z.of_nat n <= queue_depth d ->
  exists s', finish_tags a ignore status resubmit n i s = Some s' /\ calm s s' /\
    forall d' t q, devices s' !! a = Some d' -> i <= Z.of_nat t < i + Z.of_nat n -> qreq_array d' !! t = Some q ->
      ignore <> Some (a, Z.of_nat t) -> qr_running q = false.
Proof.
  induction n as [|n IH]; intros i s d H Hd Hi Hi0 Hn; [exists s; split; [done|]; split; [by apply calm_refl|intros; lia]|].
  destruct (device_tag _ _ _ _ a d i H Hd) as [q Hq]; [lia|]. cbn [finish_tags]. unfold get_qrequest at 1.
  cbn [mbind option_bind]. rewrite Hd. cbn [mbind option_bind]. rewrite Hq. cbn [mbind option_bind].
  set (o := if _ : bool then _ else _).
  assert (E : exists s1 d1 q1, o = Some s1 /\ calm s s1 /\ devices s1 !! a = Some d1 /\ qreq_array d1 !! Z.to_nat i = Some q1 /\
    (ignore <> Some (a, i) -> qr_running q1 = false)).
  { subst o. destruct (qr_running q && negb (bool_decide (ignore = Some (a, i)))) eqn:Eq.
    - apply andb_prop in Eq as [Hrun Hne]. apply negb_true_iff, bool_decide_eq_false in Hne.
      destruct (rq_arrays _ _ _ _ H a d Hd) as [fl A]. destruct (ar_running _ _ A _ _ Hq Hrun) as [r Hr].
      assert (Hin : r ∈ all_running (devices s)).
      { rewrite (all_running_split _ a d Hd). apply elem_of_app. left. apply list_elem_of_omap. exists q.
        split; [by eapply list_elem_of_lookup_2|by rewrite Hrun]. }
      destruct (rq_ccbs _ _ _ _ H r Hin) as [c Hc]. rewrite Hr. cbn [mbind option_bind]. rewrite Hc. cbn [mbind option_bind].
      pose proof (calm_ccb s r (set_subsys status c) H) as C1.
      destruct (finish_norelease_calm a i resubmit (with_ccbs <[r:=set_subsys status c]> s) d q) as (s2 & E2 & C2 & d2 & q2 & Hd2 & Hq2 & Hr2);
        [apply C1|done|done|done|done| |].
      { cbn [with_ccbs active_qrequest]. intros E. destruct Hi as [Hi|Hi]; congruence. }
      exists s2, d2, q2. split; [done|]. split; [by eapply calm_trans|done].
    - exists s, d, q. split; [done|]. split; [by apply calm_refl|]. split; [done|]. split; [done|]. intros Hne.
      by rewrite bool_decide_false, andb_true_r in Eq. }
  destruct E as (s1 & d1 & q1 & -> & C1 & Hd1 & Hq1 & Hr1). cbn [mbind option_bind].
  destruct (ca_devices _ _ C1 a d Hd) as (d1' & Hd1' & [Ed _]). assert (d1' = d1) as -> by congruence.
  destruct (IH (i + 1) s1 d1) as (s3 & E3 & C3 & Hnone); [apply C1|done|by eapply ignore_calm|lia|lia|].
  exists s3. split; [done|]. split; [by eapply calm_trans|]. intros d' t q' Hd' Ht Hq' Hne.
  destruct (decide (Z.of_nat t = i)) as [Et|]; [|apply (Hnone d' t q'); [done|lia|done|done]].
  destruct (ca_devices _ _ C3 a d1 Hd1) as (d3 & Hd3 & _ & F). assert (d3 = d') as -> by congruence.
  destruct (qr_running q') eqn:Hr; [|done]. destruct (F t q' Hq' Hr) as (q2 & Hq2 & Hr2).
  assert (t = Z.to_nat i) as -> by lia. rewrite Hq1 in Hq2. injection Hq2 as <-. rewrite Hr1 in Hr2; [done|congruence].
Qed.

Lemma finish_all_calm a ignore status resubmit s :
  sys_reqs s -> ignore_ok ignore s ->
  exists s', finish_all_requests a ignore status resubmit s = Some s' /\ calm s s' /\ aborted a ignore s'.
Proof.
  intros H Hi. unfold finish_all_requests. destruct (devices s !! a) as [d|] eqn:Hd.
  2:{ exists s. split; [done|]. split; [by apply calm_refl|]. intros d t q Hd'. congruence. }
  pose proof (calm_tell s BlockBus eq_refl (fun x => x) H) as C1. destruct (rq_arrays _ _ _ _ H a d Hd) as [fl A].
  pose proof (ar_depth _ _ A) as Hdepth.
  destruct (finish_tags_calm a ignore status resubmit (Z.to_nat (queue_depth d)) 0 (tell BlockBus s) d) as (s2 & E2 & C2 & Hnone);
    [apply C1|done|done|lia|lia|].
  rewrite E2. cbn [mbind option_bind]. eexists. split; [reflexivity|]. pose proof (calm_trans _ _ _ C1 C2) as C. split.
  - eapply calm_trans; [exact C|]. apply calm_tell; [done|done|apply C2].
  - intros d' t q Hd' Hq. apply (Hnone d' t q); [done| |done]. destruct (ca_devices _ _ C a d Hd) as (d2 & Hd2 & [Ed _]).
    cbn [tell devices] in Hd'. assert (d2 = d') as -> by congruence.
    destruct (rq_arrays _ _ _ _ (ca_reqs _ _ C) a d' Hd') as [fl' A']. pose proof (ar_depth _ _ A'). apply lookup_lt_Some in Hq. lia.
Qed.

(** ** Resets *)

Lemma calm_some s s' a : calm s s' -> is_Some (devices s !! a) -> is_Some (devices s' !! a).
Proof. intros C [d Hd]. destruct (ca_devices _ _ C a d Hd) as (d' & Hd' & _). by eexists. Qed.

Lemma stop_reconnect_calm a s : sys_reqs s -> calm s (stop_reconnect a s).
Proof.
  intros H. unfold stop_reconnect. destruct (devices s !! a) as [d|] eqn:Hd; [|by apply calm_refl].
  destruct (reconnect_timer_installed _); [by apply (calm_put s a d)|by apply calm_refl].
Qed.

Lemma finish_all_trans s s1 a ignore status resubmit :
  calm s s1 -> ignore_ok ignore s ->
  exists s', finish_all_requests a ignore status resubmit s1 = Some s' /\ calm s s' /\ aborted a ignore s'.
Proof.
  intros C Hi. destruct (finish_all_calm a ignore status resubmit s1) as (s' & E & C' & Ha); [apply C|by eapply ignore_calm|].
  exists s'. split; [done|]. split; [by eapply calm_trans|done].
Qed.

Lemma aborted_absent a ignore s : devices s !! a = None -> aborted a ignore s.
Proof. intros H d t q Hd. congruence. Qed.

Lemma finish_both ignore status resubmit s s1 :
  calm s s1 -> ignore_ok ignore s ->
  exists s', (s2 ← finish_all_requests 0 ignore status resubmit s1; finish_all_requests 1 ignore status resubmit s2) = Some s' /\
    calm s s' /\ forall a, is_Some (devices s !! a) -> a = 0 \/ a = 1 -> aborted a ignore s'.
Proof.
  intros C Hi. destruct (finish_all_trans s s1 0 ignore status resubmit C Hi) as (s2 & E2 & C2 & A2).
  destruct (finish_all_calm 1 ignore status resubmit s2) as (s3 & E3 & C3 & A3); [apply C2|by eapply ignore_calm|].
  exists s3. rewrite E2. cbn [mbind option_bind]. split; [done|]. split; [by eapply calm_trans|].
  intros a Hd [-> | ->]; [|done]. eapply aborted_calm; [exact C3|done|by eapply calm_some].
Qed.

Lemma reset_bus_calm ignore s s1 :
  calm s s1 -> ignore_ok ignore s ->
  exists s', reset_bus ignore s1 = Some s' /\ calm s s' /\ forall a, is_Some (devices s !! a) -> a = 0 \/ a = 1 -> aborted a ignore s'.
Proof.
  intros C Hi. unfold reset_bus. apply finish_both; [|done]. eapply calm_trans; [exact C|].
  pose proof (stop_reconnect_calm 0 s1 (ca_reqs _ _ C)) as C0. eapply calm_trans; [exact C0|]. apply stop_reconnect_calm, C0.
Qed.

Lemma reset_device_calm a ignore reset_ok s :
  sys_reqs s -> is_Some (devices s !! a) -> ignore_ok ignore s ->
  exists s', reset_device a ignore reset_ok s = Some s' /\ calm s s' /\ (a = 0 \/ a = 1 -> aborted a ignore s').
Proof.
  intros H Ha Hi. pose proof Ha as [d Hd]. unfold reset_device. rewrite Hd. cbn [mbind option_bind].
  pose proof (stop_reconnect_calm a s H) as C.
  destruct (negb (is_atapi d)); [|destruct (negb reset_ok)].
  - destruct (reset_bus_calm ignore s s (calm_refl s H) Hi) as (s' & E & C' & A). exists s'. auto.
  - destruct (reset_bus_calm ignore s _ C Hi) as (s' & E & C' & A). exists s'. auto.
  - destruct (finish_all_trans s _ a ignore SCSI_SCSI_BUS_RESET true C Hi) as (s' & E & C' & A). exists s'. auto.
Qed.

Lemma resets_calm a (l : list bool) : forall s,
  sys_reqs s -> is_Some (devices s !! a) -> active_qrequest s = None -> exists s', resets a l s = Some s' /\ calm s s'.
Proof.
  induction l as [|b l IH]; intros s H Ha Hact; [exists s; split; [done|by apply calm_refl]|].
  destruct (reset_device_calm a None b s H Ha) as (s1 & E1 & C1 & _); [by left|].
  destruct (IH s1) as (s2 & E2 & C2); [apply C1|by eapply calm_some|by rewrite (calm_active _ _ C1)|].
  exists s2. cbn [resets]. rewrite E1. cbn [mbind option_bind]. split; [done|by eapply calm_trans].
Qed.

(** The queue of a device is aborted, unless the controller is gone. *)
Lemma send_abort_queue_calm a x s :
  sys_reqs s -> is_Some (devices s !! a) -> active_qrequest s = None ->
  exists s', send_abort_queue a x s = Some s' /\ calm s s' /\ (ab_end x <> Disappeared -> a = 0 \/ a = 1 -> aborted a None s').
Proof.
  intros H Ha Hact. unfold send_abort_queue. destruct (resets_calm a (ab_resets x) s H Ha Hact) as (s1 & E1 & C1).
  rewrite E1. cbn [mbind option_bind]. destruct (ab_end x) as [| |b].
  - destruct (finish_all_trans s s1 a None 0 true C1) as (s2 & E2 & C2 & A2); [by left|]. exists s2. auto.
  - exists s1. split; [done|]. by split.
  - destruct (reset_device_calm a None b s1) as (s2 & E2 & C2 & A2); [apply C1|by eapply calm_some|left; by rewrite (calm_active _ _ C1)|].
    exists s2. split; [done|]. split; [by eapply calm_trans|auto].
Qed.

Lemma disconnect_worker_calm s : sys_reqs s -> active_qrequest s = None -> exists s', disconnect_worker s = Some s' /\ calm s s'.
Proof.
  intros H Ha. unfold disconnect_worker.
  destruct (finish_all_calm 0 None SCSI_NO_HBA false s H) as (s1 & E1 & C1 & _); [by left|].
  destruct (finish_all_trans s s1 1 None SCSI_NO_HBA false C1) as (s2 & E2 & C2 & _); [by left|].
  rewrite E1. cbn [mbind option_bind]. rewrite E2. cbn [mbind option_bind]. eexists. split; [reflexivity|].
  eapply calm_trans; [exact C2|]. apply calm_tell; [done|done|apply C2].
Qed.

(** ** Service *)

Lemma cancel_reconnect_calm a d s : sys_reqs s -> devices s !! a = Some d -> calm s (cancel_reconnect a d s).
Proof. intros H Hd. by apply (calm_put s a d). Qed.

Lemma start_reconnect_calm a s : sys_reqs s -> is_Some (devices s !! a) -> exists s', start_reconnect a s = Some s' /\ calm s s'.
Proof.
  intros H [d Hd]. unfold start_reconnect. rewrite Hd. cbn [mbind option_bind].
  destruct (_ && _); eexists; (split; [reflexivity|]); [by apply (calm_put s a d)|by apply calm_refl].
Qed.

(** The lock does not matter for it. *)
Lemma start_reconnect_locked a s s' x : start_reconnect a s = Some s' -> start_reconnect a (set_lock x s) = Some (set_lock x s').
Proof.
  unfold start_reconnect. cbn [set_lock devices]. destruct (devices s !! a) as [d|]; [|done]. cbn [mbind option_bind].
  by destruct (_ && _); intros [= <-].
Qed.

(** The bus waits for the interrupt of a request that goes on. *)
Definition handed (b tag : Z) s : sys := IDE_UNLOCK (set_timer true (set_state ide_state_async_waiting (set_active (Some (b, tag)) s))).

Lemma handed_reqs b tag s d q :
  sys_reqs s -> 0 <= tag -> devices s !! b = Some d -> tag2request d tag = Some q -> sys_reqs (handed b tag s).
Proof.
  intros [R1 R2 R3 _] Ht Hd Hq. split; try done. unfold tag2request in Hq. cbn [mbind option_bind] in Hq. split; [done|].
  destruct (qreq_array d !! Z.to_nat tag) as [q0|] eqn:E; [|done]. cbn [mbind option_bind] in Hq. destruct (qr_running q0) eqn:?; [|done].
  by exists d, q0.
Qed.

(** A thread that leaves the bus serves a device, or discards requests, or the
    request fails that is served. *)
Definition served_or_calm s (r : option (service_result * sys)) : Prop :=
  (exists b tag s1 s2, calm s s1 /\ calm (handed b tag s1) s2 /\ r = Some (Served, s2)) \/
  (exists s1, calm s s1 /\ r = Some (NotServed, set_lock true s1)) \/
  (exists b tag s1, calm s s1 /\ r = Some (RequestFailed, set_active (Some (b, tag)) s1)).

Lemma relock s : lock s = false -> IDE_UNLOCK (set_lock true s) = s.
Proof. destruct s. cbn. by intros ->. Qed.

Lemma answer_calm s s' a y : calm s s' -> answer_ok s a y -> answer_ok s' a y.
Proof.
  intros C (d & Hd & H). destruct (ca_devices _ _ C a d Hd) as (d' & Hd' & [E _]). exists d'. by rewrite E.
Qed.

Lemma service_device_calm a y s :
  lock s = false -> sys_reqs s -> active_qrequest s = None -> answer_ok s a y ->
  served_or_calm s (service_device a y (set_lock true s)).
Proof.
  intros Hl H Ha (d & Hd & Ht). unfold service_device. rewrite (relock s Hl), Hd. cbn [mbind option_bind].
  pose proof (cancel_reconnect_calm a d s H Hd) as C1. set (s1 := cancel_reconnect a d s) in *.
  destruct (_ ≫= _) as [tag|] eqn:E.
  - destruct (sv_tag y) as [t|]; [|done]. cbn [mbind option_bind] in E. destruct (tag2request d t) as [q|] eqn:Hq; [|done].
    injection E as ->. destruct (sv_error y); [right; right; by exists a, tag, s1|]. left. exists a, tag, s1, (handed a tag s1).
    split; [done|]. split.
    + apply calm_refl. eapply handed_reqs; [apply C1|by apply (Ht tag)|apply lookup_insert_eq|]. exact Hq.
    + unfold start_waiting_nolock, IDE_LOCK. cbn [set_active lock]. by rewrite (calm_lock _ _ C1), Hl.
  - right. left. destruct (send_abort_queue_calm a (sv_abort y) s1) as (s2 & E2 & C2 & _);
      [apply C1|by eapply calm_some|by rewrite (calm_active _ _ C1)|].
    exists s2. split; [by eapply calm_trans|]. rewrite E2. cbn [mbind option_bind]. unfold IDE_LOCK.
    by rewrite (calm_lock _ _ C2), (calm_lock _ _ C1), Hl.
Qed.

Lemma handed_some b tag s a : is_Some (devices s !! a) -> is_Some (devices (handed b tag s) !! a).
Proof. done. Qed.

Lemma try_service_calm a x s :
  lock s = false -> sys_reqs s -> active_qrequest s = None -> is_Some (devices s !! a) ->
  (forall b y, an_other x = Some (b, y) -> answer_ok s b y) -> (forall y, an_own x = Some y -> answer_ok s a y) ->
  served_or_calm s (try_service a x (set_lock true s)).
Proof.
  intros Hl H Ha Hd' Ho Hx. pose proof Hd' as [d Hd]. unfold try_service. cbn [set_lock devices]. rewrite Hd. cbn [mbind option_bind].
  set (r := match an_other x with Some _ => _ | None => _ end).
  assert (Hr : served_or_calm s r).
  { subst r. destruct (an_other x) as [[b y]|]; [|right; left; exists s; split; [by apply calm_refl|done]].
    pose proof (Ho b y eq_refl) as Hy. pose proof Hy as (e & He & _). rewrite He. cbn [mbind option_bind].
    unfold check_service_req. case_match; [|right; left; exists s; split; [by apply calm_refl|done]].
    case_match; [done|]. simplify_eq. by apply service_device_calm. }
  clearbody r. destruct Hr as [(b & tag & s1 & s2 & C & C2 & ->)|[(s1 & C & ->)|(b & tag & s1 & C & ->)]]; cbn [mbind option_bind].
  3:{ right. right. by exists b, tag, s1. }
  - destruct (start_reconnect_calm a s2) as (s3 & E3 & C3); [apply C2|eapply calm_some, handed_some, calm_some; done|].
    left. exists b, tag, s1, s3. rewrite E3. split; [done|]. split; [by eapply calm_trans|done].
  - set (o := match check_service_req _ _ with Some _ => _ | None => _ end).
    assert (Hr : served_or_calm s1 o).
    { subst o. unfold check_service_req. destruct (num_running_reqs d =? 0); [right; left; exists s1; split; [apply calm_refl, C|done]|].
      destruct (an_own x) as [y|]; [|right; left; exists s1; split; [apply calm_refl, C|done]].
      apply service_device_calm; [by rewrite (calm_lock _ _ C)|apply C|by rewrite (calm_active _ _ C)|by eapply answer_calm, Hx]. }
    clearbody o. destruct Hr as [(b & tag & s2 & s3 & C2 & C3 & ->)|[(s2 & C2 & ->)|(b & tag & s2 & C2 & ->)]]; cbn [mbind option_bind].
    + left. exists b, tag, s2, s3. split; [by eapply calm_trans|done].
    + destruct (start_reconnect_calm a s2) as (s3 & E3 & C3); [apply C2|by eapply calm_some, calm_some|].
      right. left. exists s3. rewrite (start_reconnect_locked a s2 s3 true E3). split; [|done]. eapply calm_trans; [exact C|by eapply calm_trans].
    + right. right. exists b, tag, s2. split; [by eapply calm_trans|done].
Qed.

(** ** New arrays *)

Lemma link_free_spec n : forall l fl free,
  (n <= length l)%nat -> free_tags l free fl -> NoDup fl -> (forall t, t ∈ fl -> Z.of_nat n <= t) ->
  (forall t, (n <= t < length l)%nat -> Z.of_nat t ∈ fl) ->
  let '(l', free') := link_free n l free in
  length l' = length l /\ (forall t q, l' !! t = Some q -> (t < n)%nat -> qr_running q = false) /\
  (forall t, (n <= t)%nat -> l' !! t = l !! t) /\
  exists fl', free_tags l' free' fl' /\ NoDup fl' /\ forall t, (t < length l)%nat -> Z.of_nat t ∈ fl'.
Proof.
  induction n as [|n IH]; intros l fl free Hl Hc Hnd Hlo Hall; cbn [link_free].
  - split; [done|]. split; [lia|]. split; [done|]. exists fl. split; [done|]. split; [done|]. intros t Ht. apply Hall. lia.
  - assert (Hni : Z.of_nat n ∉ fl) by (intros H%Hlo; lia).
    specialize (IH (<[n := QRequest free None false false false]> l) (Z.of_nat n :: fl) (Some (Z.of_nat n))).
    rewrite length_insert in IH.
    destruct (link_free n _ _) as [l' free'].
    destruct IH as (E & Hr & Hsame & Hex); [lia| |by constructor| | |].
    + split; [done|]. split; [lia|]. eexists. rewrite Nat2Z.id, list_lookup_insert_eq by lia.
      split; [reflexivity|]. split; [done|]. cbn [qr_next]. rewrite <- (Nat2Z.id n). apply free_tags_insert; [lia|done|done].
    + intros t [->|Ht%Hlo]%elem_of_cons; lia.
    + intros t Ht. apply elem_of_cons. destruct (decide (t = n)) as [->|]; [by left|]. right. apply Hall. lia.
    + split; [done|]. split; [|split; [|done]].
      * intros t q Hq Ht. destruct (decide (t = n)) as [->|]; [|apply (Hr t q Hq); lia].
        rewrite Hsame, list_lookup_insert_eq in Hq by lia. by injection Hq as <-.
      * intros t Ht. rewrite Hsame by lia. rewrite list_lookup_insert_ne by lia. done.
Qed.

Lemma running_none (l : list ide_qrequest) : (forall t q, l !! t = Some q -> qr_running q = false) -> running_of l = [].
Proof.
  induction l as [|q l IH]; intros H; [done|]. rewrite running_cons. unfold running_of at 1. cbn.
  rewrite (H O q eq_refl). apply IH. intros t. apply (H (S t)).
Qed.

(** A new array: every request is free. *)
Lemma initialized_ok depth d0 d :
  initialize_qreq_array depth true d0 = (true, d) -> 0 <= depth -> 0 <= num_running_reqs d0 ->
  (exists fl, array_ok d fl) /\ running_of (qreq_array d) = [] /\ queue_depth d = depth.
Proof.
  intros E Hq Hn. unfold initialize_qreq_array in E. cbn [negb] in E. set (n := Z.to_nat depth) in E.
  pose proof (link_free_spec n (replicate n (QRequest None None false false false)) [] None) as H.
  rewrite length_replicate in H. destruct (link_free n _ _) as [l free].
  destruct H as (El & Hr & _ & fl & Hc & Hnd & Hall); [lia|done|constructor|set_solver|lia|].
  injection E as <-. assert (Hrun : forall t q, l !! t = Some q -> qr_running q = false).
  { intros t q Ht. apply (Hr t q Ht). apply lookup_lt_Some in Ht. lia. }
  pose proof (running_none l Hrun) as Hnone. cbn [set_array qreq_array queue_depth]. split; [|done]. exists fl.
  split; cbn [set_array qreq_array free_qrequests num_running_reqs queue_depth]; [lia|done|done| | |].
  - intros t q Ht _. apply Hall. apply lookup_lt_Some in Ht. lia.
  - intros t q Ht Hrq. rewrite (Hrun t q Ht) in Hrq. done.
  - rewrite Hnone. cbn. lia.
Qed.

Lemma fresh_array d : fresh_device d -> (exists fl, array_ok d fl) /\ running_of (qreq_array d) = [].
Proof.
  intros (d0 & E & Hn & Hq). destruct (initialized_ok _ d0 d E) as (A & R & _); [done|lia|done].
Qed.

(** ** The time-out of queued requests *)

(** Requests were answered; devices may have new arrays. *)
Record settled s s' : Prop := {
  st_waits : waits_of s' = waits_of s;
  st_reqs : sys_reqs s';
  st_answers : answered (events s') ++ all_running (devices s') ≡ₚ answered (events s) ++ all_running (devices s);
  st_overflow : overflow (events s') = true -> overflow (events s) = true
}.

Lemma calm_settled s s' : calm s s' -> settled s s'.
Proof. intros [C1 C2 C3 C4 _]. by split. Qed.

Lemma aborted_none a s d : aborted a None s -> devices s !! a = Some d -> running_of (qreq_array d) = [].
Proof. intros A Hd. apply running_none. intros t q Hq. by apply (A d t q). Qed.

Lemma settled_unblock s s1 : settled s s1 -> settled s (tell UnblockBus s1).
Proof.
  intros [C1 C2 C3 C4]. split; [done|done| |]; cbn [tell events devices]; [by rewrite answered_snoc, app_nil_r|].
  by rewrite overflow_snoc.
Qed.

(** An array without running requests is replaced. *)
Lemma settled_put s a d d' fl :
  sys_reqs s -> active_qrequest s = None -> devices s !! a = Some d -> array_ok d' fl ->
  running_of (qreq_array d) = [] -> running_of (qreq_array d') = [] -> settled s (put_device a d' s).
Proof.
  intros H Ha Hd A Hr Hr'. pose proof (all_running_put (devices s) a d d' Hd) as Hp. rewrite Hr, Hr' in Hp. cbn [app] in Hp.
  split; [done| | |done]; cbn [put_device with_devices events devices]; [|by rewrite Hp].
  unfold sys_reqs. cbn [put_device with_devices events devices ccbs bus_running_reqs active_qrequest]. rewrite Ha.
  eapply reqs_put; [exact H|done|done|rewrite Hr, Hr'; lia|rewrite Hr'; intros r Hin; by apply elem_of_nil in Hin|done].
Qed.

Lemma settled_trans s1 s2 s3 : settled s1 s2 -> settled s2 s3 -> settled s1 s3.
Proof. intros [A1 A2 A3 A4] [B1 B2 B3 B4]. split; [congruence|done|by rewrite B3|auto]. Qed.

(** A device gets an array of one request, where none runs. *)
Lemma reduced_ok m cc n act a d malloc_ok failures :
  reqs_ok m cc n act -> m !! a = Some d -> running_of (qreq_array d) = [] -> malloc_ok = true \/ queue_depth d = 1 ->
  let d' := snd (change_qreq_array 1 malloc_ok (set_CQ false failures d)) in
  (exists fl, array_ok d' fl) /\ running_of (qreq_array d') = [].
Proof.
  intros H Hd Hr Hor. destruct (rq_arrays _ _ _ _ H a d Hd) as [fl B]. pose proof (ar_num _ _ B) as Hnum. unfold change_qreq_array.
  set (f := set_CQ false failures d). destruct (initialize_qreq_array 1 malloc_ok f) as [ok d'] eqn:Ei.
  assert (ok = malloc_ok) as ->.
  { unfold initialize_qreq_array in Ei. destruct malloc_ok; cbn [negb] in Ei; [|by injection Ei]. destruct (link_free _ _ _). by injection Ei. }
  destruct malloc_ok; cbn [snd].
  - destruct (initialized_ok 1 f d' Ei) as (A & Hr' & _); [lia|cbn; lia|done].
  - destruct Hor as [|Hor]; [done|]. split; [|exact Hr]. exists fl. destruct B as [B1 B2 B3 B4 B5 B6].
    split; cbn [queue_depth qreq_array free_qrequests num_running_reqs]; try done; [by rewrite <- Hor|].
    change (qreq_array f) with (qreq_array d). by rewrite Hr.
Qed.

(** The synchronized call of a time-out, unless requests are lost. *)
Lemma reconnect_worker_settled a x malloc_ok s :
  sys_reqs s -> is_Some (devices s !! a) -> active_qrequest s = None ->
  (forall d, to_replace a x s = Some d -> running_of (qreq_array d) = [] /\ (malloc_ok = true \/ queue_depth d = 1)) ->
  exists s', reconnect_timeout_worker a x malloc_ok s = Some s' /\ settled s s'.
Proof.
  intros H [d Hd] Ha Hx. unfold reconnect_timeout_worker. unfold to_replace in Hx. rewrite Hd in *. cbn [mbind option_bind] in *.
  destruct (0 <? num_running_reqs d); cbn [mbind option_bind].
  2:{ eexists. split; [reflexivity|]. by apply settled_unblock, calm_settled, calm_refl. }
  destruct (send_abort_queue_calm a x s H) as (s1 & E1 & C1 & _); [by eexists|done|]. rewrite E1 in *. cbn [mbind option_bind] in *.
  destruct (calm_some _ _ a C1) as [d1 Hd1]; [by eexists|]. rewrite Hd1 in *. cbn [mbind option_bind] in *.
  eexists. split; [reflexivity|]. apply settled_unblock. eapply settled_trans; [by apply calm_settled|].
  pose proof (ca_reqs _ _ C1) as R1. destruct (MAX_CQ_FAILURES <? _).
  - destruct (Hx d1 eq_refl) as [Hnone Hor]. destruct (reduced_ok _ _ _ _ a d1 malloc_ok (u8 (CQ_failures d1 + 1)) R1 Hd1 Hnone Hor) as ([fl A] & Hr).
    eapply settled_put; [done|by rewrite (calm_active _ _ C1)|exact Hd1|exact A|done|done].
  - apply calm_settled. by apply (calm_put s1 a d1).
Qed.

(** ** The active request ends *)

(** The active request [r] ended, and the bus is to be released. *)
Record ended (r : Z) s s' : Prop := {
  en_waits : waits_of s' = waits_of (set_active None s);
  en_reqs : sys_reqs s';
  en_active : active_qrequest s' = None;
  en_events : events s' = events s;
  en_answers : r :: all_running (devices s') ≡ₚ all_running (devices s)
}.

(** The sense of a device and a request change before that. *)
Record prepared s s' : Prop := {
  pr_waits : waits_of s' = waits_of s;
  pr_reqs : sys_reqs s';
  pr_events : events s' = events s;
  pr_running : all_running (devices s') ≡ₚ all_running (devices s)
}.

Lemma prepared_ended r s s1 s2 : prepared s s1 -> ended r s1 s2 -> ended r s s2.
Proof.
  intros [A1 A2 A3 A4] [B1 B2 B3 B4 B5]. split; [|done|done|congruence|by rewrite B5].
  rewrite B1. unfold waits_of in *. cbn. congruence.
Qed.

Lemma prepared_put s a d d' :
  sys_reqs s -> devices s !! a = Some d -> queue_depth d' = queue_depth d -> qreq_array d' = qreq_array d ->
  free_qrequests d' = free_qrequests d -> num_running_reqs d' = num_running_reqs d -> prepared s (put_device a d' s).
Proof. intros H Hd E1 E2 E3 E4. destruct (reqs_same _ _ _ _ a d d' H Hd E1 E2 E3 E4). by split. Qed.

Lemma prepared_ccb s s' r x : prepared s s' -> prepared s (with_ccbs <[r := x]> s').
Proof. intros [A1 A2 A3 A4]. split; [done|by apply reqs_ccb|done|done]. Qed.

Lemma active_lookup s a tag :
  sys_reqs s -> active_qrequest s = Some (a, tag) -> exists d q r c,
    0 <= tag /\ devices s !! a = Some d /\ qreq_array d !! Z.to_nat tag = Some q /\ qr_running q = true /\
    get_qrequest a tag s = Some (d, q) /\ qr_request q = Some r /\ ccbs s !! r = Some c.
Proof.
  intros H Ha. pose proof (rq_active _ _ _ _ H) as Hact. rewrite Ha in Hact. destruct Hact as (Ht & d & q & Hd & Hq & Hrun).
  destruct (reqs_end _ _ _ _ None a d tag q (num_running_reqs d) H Hd Ht Hq Hrun) as (r & Hr & [c Hc] & _); [lia|by left|].
  exists d, q, r, c. unfold get_qrequest. cbn [mbind option_bind]. rewrite Hd. cbn [mbind option_bind]. by rewrite Hq.
Qed.

Lemma finish_request_ended a tag s :
  sys_reqs s -> active_qrequest s = Some (a, tag) -> exists r num s', finish_request a tag s = Some (r, num, s') /\ ended r s s'.
Proof.
  intros H Ha. destruct (active_lookup s a tag H Ha) as (d & q & r & c & Ht & Hd & Hq & Hrun & Hget & Hr & _).
  destruct (reqs_end _ _ _ _ None a d tag q (num_running_reqs d - 1) H Hd Ht Hq Hrun) as (r' & Hr' & _ & R & Hp); [lia|by left|].
  assert (r' = r) as -> by congruence. unfold finish_request. rewrite Hget. cbn [mbind option_bind]. rewrite Hr.
  cbn [mbind option_bind]. do 3 eexists. split; [reflexivity|]. split; [done|exact R|done|done|exact Hp].
Qed.

Lemma finish_checksense_ended a tag s :
  sys_reqs s -> active_qrequest s = Some (a, tag) ->
  exists r num s', finish_checksense a tag s = Some (r, num, s') /\ ended r s s'.
Proof.
  intros H Ha. destruct (active_lookup s a tag H Ha) as (d & q & r & c & Ht & Hd & Hq & Hrun & Hget & Hr & Hc).
  unfold finish_checksense. rewrite Hget. cbn [mbind option_bind]. rewrite Hr. cbn [mbind option_bind]. rewrite Hc.
  cbn [mbind option_bind]. match goal with |- context [let '(d, c) := ?x in _] => set (p := x) end.
  assert (E : exists d' c', p = (d', c') /\ queue_depth d' = queue_depth d /\ qreq_array d' = qreq_array d /\
    free_qrequests d' = free_qrequests d /\ num_running_reqs d' = num_running_reqs d).
  { subst p. unfold set_check_condition. repeat case_match; try discriminate; do 2 eexists; split; try reflexivity; simplify_eq; done. }
  destruct E as (d' & c' & -> & E1 & E2 & E3 & E4). pose proof (prepared_put s a d d' H Hd E1 E2 E3 E4) as P1.
  apply (prepared_ccb _ _ r c') in P1.
  destruct (finish_request_ended a tag (with_ccbs <[r:=c']> (put_device a d' s))) as (r' & num & s' & Ef & En); [apply P1|done|].
  exists r', num, s'. split; [exact Ef|by eapply prepared_ended].
Qed.

Lemma finish_retry_ended a tag s :
  sys_reqs s -> active_qrequest s = Some (a, tag) -> exists r num s', finish_retry a tag s = Some (r, num, s') /\ ended r s s'.
Proof.
  intros H Ha. destruct (active_lookup s a tag H Ha) as (d & q & r & c & Ht & Hd & Hq & Hrun & Hget & Hr & Hc).
  unfold finish_retry. rewrite Hget. cbn [mbind option_bind].
  pose proof (prepared_put s a d (set_combined_sense 0 d) H Hd eq_refl eq_refl eq_refl eq_refl) as P.
  destruct (finish_request_ended a tag (put_device a (set_combined_sense 0 d) s)) as (r' & num & s' & Ef & En); [apply P|done|].
  exists r', num, s'. split; [exact Ef|by eapply prepared_ended].
Qed.

Lemma finish_sensed_ended status sense a tag s :
  sys_reqs s -> active_qrequest s = Some (a, tag) ->
  exists r num s', (s ← set_device_result status sense a s; finish_checksense a tag s) = Some (r, num, s') /\ ended r s s'.
Proof.
  intros H Ha. destruct (active_lookup s a tag H Ha) as (d & q & r & c & Ht & Hd & Hq & Hrun & Hget & Hr & Hc).
  pose proof (prepared_put s a d (set_result status sense d) H Hd eq_refl eq_refl eq_refl eq_refl) as P.
  destruct (finish_checksense_ended a tag (put_device a (set_result status sense d) s)) as (r' & num & s' & Ef & En); [apply P|done|].
  exists r', num, s'. split; [|by eapply prepared_ended]. unfold set_device_result. cbn [mbind option_bind]. rewrite Hd. exact Ef.
Qed.

(** ** The synchronized calls *)

Implicit Types (pcs : gmap Z ide_synced_pc) (P B R : list Z).

(** The calls from address [h] on. *)
Fixpoint pc_chain pcs (h : Z) P : Prop :=
  match P with
  | [] => h = 0
  | a :: P => h = a /\ a <> 0 /\ exists pc, pcs !! a = Some pc /\ pc_chain pcs (pc_next pc) P
  end.

(** The list of calls that is run, and the call that runs. *)
Definition batch_of (o : owner) : option (Z * option Z) :=
  match o with
  | InFunc a (Batch head _) _ => Some (head, Some a)
  | Unregistering head _ => Some (head, None)
  | _ => None
  end.

(** [P] are the calls that wait for the bus, [B] those that were taken from the
    list together, [R] the ones of them that are still to be run. *)
Definition batch_ok pcs (b : option (Z * option Z)) B R : Prop :=
  match b with
  | Some (head, Some a) => pc_chain pcs head B /\ exists pre, B = pre ++ a :: R
  | Some (head, None) => pc_chain pcs head B /\ R = []
  | None => B = [] /\ R = []
  end.

Record calls_ok pcs (h : Z) (b : option (Z * option Z)) (sch beg P B R : list Z) : Prop := {
  cl_pending : pc_chain pcs h P;
  cl_batch : batch_ok pcs b B R;
  cl_nodup : NoDup (P ++ B);
  cl_registered : forall a pc, pcs !! a = Some pc -> a <> 0 /\ (pc_registered pc = true <-> a ∈ P ++ B);
  cl_begun : sch ≡ₚ beg ++ P ++ R
}.

Definition calls pcs (h : Z) (b : option (Z * option Z)) (sch beg : list Z) : Prop :=
  exists P B R, calls_ok pcs h b sch beg P B R.

(** A list does not depend on the calls outside of it, nor on what is not a link. *)
Lemma pc_chain_links pcs pcs' P : forall h,
  (forall a pc, a ∈ P -> pcs !! a = Some pc -> exists pc', pcs' !! a = Some pc' /\ pc_next pc' = pc_next pc) ->
  pc_chain pcs h P -> pc_chain pcs' h P.
Proof.
  induction P as [|a P IH]; intros h H; [done|]. intros (-> & Ha & pc & Hpc & Hc).
  destruct (H a pc) as (pc' & Hpc' & E); [by left|done|]. split; [done|]. split; [done|]. exists pc'. split; [done|].
  rewrite E. apply IH; [|done]. intros b pcb Hb. apply H. by right.
Qed.

Lemma pc_chain_insert pcs h P a pc : a ∉ P -> pc_chain pcs h P -> pc_chain (<[a := pc]> pcs) h P.
Proof.
  intros Ha. apply pc_chain_links. intros b pcb Hb Hpc. exists pcb. rewrite lookup_insert_ne; [done|]. by intros ->.
Qed.

Lemma pc_chain_dom pcs h P a : pc_chain pcs h P -> a ∈ P -> is_Some (pcs !! a).
Proof.
  revert h. induction P as [|b P IH]; intros h; [by intros _ ?%elem_of_nil|].
  intros (_ & _ & pc & Hpc & Hc) [->|Hin]%elem_of_cons; [by eexists|by eapply IH].
Qed.

Lemma pc_chain_empty pcs P : pc_chain pcs 0 P -> P = [].
Proof. destruct P; [done|]. by intros (<- & ? & _). Qed.

Lemma pc_chain_next pcs h pre a R pc :
  pc_chain pcs h (pre ++ a :: R) -> pcs !! a = Some pc -> pc_chain pcs (pc_next pc) R.
Proof.
  intros Hc Ha. revert h Hc. induction pre as [|b pre IH]; intros h; cbn [app pc_chain].
  - intros (-> & _ & pc' & Hpc & Hc). congruence.
  - intros (_ & _ & pc' & _ & Hc). by eapply IH.
Qed.

(** A call joins those that wait. *)
Lemma calls_schedule pcs h b sch beg a pc arg :
  calls pcs h b sch beg -> pcs !! a = Some pc -> pc_registered pc = false ->
  calls (<[a := SyncedPC h true arg]> pcs) a b (sch ++ [a]) beg.
Proof.
  intros (P & B & R & [C1 C2 C3 C4 C5]) Ha Hr. destruct (C4 a pc Ha) as [Ha0 Hreg].
  assert (Hni : a ∉ P ++ B) by (intros Hin; apply Hreg in Hin; congruence).
  pose proof Hni as Hni'. rewrite elem_of_app in Hni'. exists (a :: P), B, R. split.
  - split; [done|]. split; [done|]. eexists. split; [apply lookup_insert_eq|]. apply pc_chain_insert; [tauto|done].
  - destruct b as [[head [x|]]|]; cbn [batch_ok] in *; [| |done]; (split; [|apply C2]); apply pc_chain_insert; tauto.
  - by constructor.
  - intros x pcx [[<- <-]|[Hne Hx]]%lookup_insert_Some; [split; [done|]; split; [by left|done]|].
    split; [by eapply C4|]. rewrite (proj2 (C4 x pcx Hx)). cbn [app]. rewrite elem_of_cons. naive_solver.
  - rewrite C5. cbn [app]. rewrite <- Permutation_cons_append. apply Permutation_middle.
Qed.

(** A call runs at once. *)
Lemma calls_single pcs h b sch beg a : calls pcs h b sch beg -> calls pcs h b (sch ++ [a]) (beg ++ [a]).
Proof.
  intros (P & B & R & [C1 C2 C3 C4 C5]). exists P, B, R. split; try done. rewrite C5, <- (app_assoc beg [a]).
  rewrite <- (app_assoc beg). apply Permutation_app_head. apply Permutation_app_comm.
Qed.

(** The calls that wait are taken together, and the first one is run. *)
Lemma calls_take pcs h sch beg : calls pcs h None sch beg -> h <> 0 -> calls pcs 0 (Some (h, Some h)) sch (beg ++ [h]).
Proof.
  intros (P & B & R & [C1 [-> ->] C3 C4 C5]) Hh. destruct P as [|x P]; [done|]. pose proof C1 as (<- & _).
  exists [], (h :: P), P. rewrite app_nil_r in *. split; [done|split; [done|by exists []]|done|exact C4|].
  rewrite C5, <- app_assoc. done.
Qed.

(** The next one is run. *)
Lemma calls_next pcs h sch beg head a pc :
  calls pcs h (Some (head, Some a)) sch beg -> pcs !! a = Some pc -> pc_next pc <> 0 ->
  calls pcs h (Some (head, Some (pc_next pc))) sch (beg ++ [pc_next pc]).
Proof.
  intros (P & B & R & [C1 [C2 [pre ->]] C3 C4 C5]) Ha Hn. pose proof (pc_chain_next _ _ _ _ _ _ C2 Ha) as Hc.
  destruct R as [|b R]; [done|]. pose proof Hc as (Eb & _). rewrite Eb. exists P, (pre ++ a :: b :: R), R. split; [done| |done|exact C4|].
  - split; [done|]. exists (pre ++ [a]). by rewrite <- app_assoc.
  - rewrite C5, <- app_assoc. apply Permutation_app_head. cbn [app]. by rewrite <- Permutation_middle.
Qed.

(** The last one has run. *)
Lemma calls_last pcs h sch beg head a pc :
  calls pcs h (Some (head, Some a)) sch beg -> pcs !! a = Some pc -> pc_next pc = 0 ->
  calls pcs h (Some (head, None)) sch beg.
Proof.
  intros (P & B & R & [C1 [C2 [pre ->]] C3 C4 C5]) Ha Hn. pose proof (pc_chain_next _ _ _ _ _ _ C2 Ha) as Hc.
  rewrite Hn in Hc. apply pc_chain_empty in Hc as ->. by exists P, (pre ++ [a]), [].
Qed.

Lemma unregister_spec n : forall pcs head B,
  (length B <= n)%nat -> NoDup B -> pc_chain pcs head B ->
  exists pcs', unregister n head pcs = Some pcs' /\
    forall a, (a ∉ B -> pcs' !! a = pcs !! a) /\
      (a ∈ B -> exists pc, pcs !! a = Some pc /\ pcs' !! a = Some (SyncedPC (pc_next pc) false (pc_arg pc))).
Proof.
  induction n as [|n IH]; intros pcs head B Hl Hnd Hc.
  all: destruct B as [|b B]; [|try (cbn [length] in Hl; lia)].
  1,2: cbn [pc_chain] in Hc; subst; exists pcs; split; [done|]; intros a; split; [done|by intros ?%elem_of_nil].
  destruct Hc as (-> & Hb & pc & Hpc & Hc). apply NoDup_cons in Hnd as [Hni Hnd].
  destruct (IH (<[b := SyncedPC (pc_next pc) false (pc_arg pc)]> pcs) (pc_next pc) B) as (pcs' & E & H);
    [cbn [length] in Hl; lia|done|by apply pc_chain_insert|].
  exists pcs'. split.
  - cbn [unregister]. rewrite (proj2 (Z.eqb_neq b 0) Hb), Hpc. exact E.
  - intros a. destruct (H a) as [H1 H2]. destruct (decide (a = b)) as [->|Hne].
    + rewrite (H1 Hni), lookup_insert_eq. split; [set_solver|]. intros _. by exists pc.
    + rewrite lookup_insert_ne in H1, H2 by done. split; [set_solver|]. intros Hin. apply H2. set_solver.
Qed.

Lemma pc_chain_size pcs h B : NoDup B -> pc_chain pcs h B -> (length B <= size pcs)%nat.
Proof.
  intros Hnd Hc. rewrite <- size_dom, <- (size_list_to_set (C := gset Z)) by done. apply subseteq_size.
  intros a Ha%elem_of_list_to_set. apply elem_of_dom. by eapply pc_chain_dom.
Qed.

(** The calls that were run may be scheduled again. *)
Lemma calls_unregister pcs h sch beg head :
  calls pcs h (Some (head, None)) sch beg ->
  exists pcs', unregister (size pcs) head pcs = Some pcs' /\ calls pcs' h None sch beg.
Proof.
  intros (P & B & R & [C1 [C2 ->] C3 C4 C5]). pose proof (proj1 (NoDup_app _ _) C3) as (HP & Hd & HB).
  destruct (unregister_spec (size pcs) pcs head B) as (pcs' & E & H); [by eapply pc_chain_size|done|done|].
  exists pcs'. split; [done|]. exists P, [], []. split; [|done|by rewrite app_nil_r|rewrite app_nil_r|done].
  - eapply pc_chain_links; [|exact C1]. intros a pc Ha Hpc. exists pc. rewrite (proj1 (H a)) by auto. done.
  - intros a pc' Ha. destruct (decide (a ∈ B)) as [Hin|Hni].
    + destruct (proj2 (H a) Hin) as (pc & Hpc & E'). rewrite E' in Ha. injection Ha as <-. destruct (C4 a pc Hpc) as [Ha0 _].
      split; [done|]. split; [done|]. intros Hp. by destruct (Hd a Hp).
    + rewrite (proj1 (H a) Hni) in Ha. destruct (C4 a pc' Ha) as [Ha0 Hreg]. split; [done|]. rewrite Hreg, elem_of_app. tauto.
Qed.
