(* ===== verification/IdeClaims.v ===== *)
(** The invariant of the IDE bus as a system: who uses the bus, which requests run
    and which calls wait; every step keeps it, and what follows for requests,
    retries and synchronized calls. *)
From stdpp Require Import base functions gmap list.
From Stdlib Require Import ZArith Lia.
From S2P Require Import Prelude Errors Ide IdeBus.

Implicit Types (s : sys) (m : gmap Z ide_device_info) (act : option (Z * Z)) (pcs : gmap Z ide_synced_pc) (P B R : list Z).

(** ** The invariant *)

(** Nothing comes: no timer, no deferred call, no thread to wake. *)
Definition quiet s : Prop := timer s = false /\ irq_dpc s = None /\ sync_wait_sem s = 0.

(** The owner waits at the semaphore, or has been woken. *)
Definition sync_waits s : Prop :=
  irq_dpc s = None /\
  (state s = ide_state_sync_waiting /\ timer s = true /\ sync_wait_sem s = 0 \/ state s = ide_state_accessing /\ sync_wait_sem s = 1).

Definition owner_ok s (o : owner) (transfer : bool) : Prop :=
  lock s = false /\
  match o with
  | Nobody => state s = ide_state_idle /\ quiet s /\ active_qrequest s = None /\ synced_pc_list s = 0 /\ transfer = false
  | Executing false => state s = ide_state_accessing /\ quiet s /\ is_Some (active_qrequest s) /\ transfer = false
  | Executing true => sync_waits s /\ is_Some (active_qrequest s) /\ transfer = false
  | InFunc _ _ false => state s = ide_state_accessing /\ quiet s /\ active_qrequest s = None /\ transfer = false
  | InFunc _ _ true => sync_waits s /\ active_qrequest s = None /\ transfer = false
  | AwaitIrq => state s = ide_state_async_waiting /\ timer s = true /\ irq_dpc s = None /\ sync_wait_sem s = 0 /\ is_Some (active_qrequest s)
  | AtDpc =>
      state s = ide_state_accessing /\ sync_wait_sem s = 0 /\
      (irq_dpc s = Some Ide_dpc /\ (active_qrequest s = None -> timer s = false /\ transfer = false) \/
       irq_dpc s = Some Ide_timeout_dpc /\ is_Some (active_qrequest s) /\ timer s = false)
  | Leaving _ | Unregistering _ _ => state s = ide_state_accessing /\ quiet s /\ active_qrequest s = None /\ transfer = false
  end.

(** What the owner is going to report. *)
Definition report_of (o : owner) : list pending :=
  match o with Leaving r | Unregistering _ r | InFunc _ (Batch _ r) _ => [Due r] | _ => [] end.

Definition promised (l : list pending) : list Z := l ≫= fun p => answer (pending_event p).

(** Every request was answered, is to be reported, or runs. *)
Definition balance (submitted : list Z) (evs : list event) (l : list pending) m : Prop :=
  submitted ≡ₚ answered evs ++ promised l ++ all_running m.

(** When the SCSI bus manager sends no requests, or will stop to, somebody is going
    to tell it to go on; [on] says that no such report has come too early. *)
Definition heard (on : bool) s (o : owner) (reports : list pending) : Prop :=
  on = true -> overflow (events s) || existsb will_overflow reports = true ->
  o <> Nobody \/ existsb (fun p => negb (holds_benaphore p)) reports = true.

Record inv (on : bool) (c : config) : Prop := {
  in_owner : owner_ok (c_sys c) (c_owner c) (c_transfer c);
  in_reqs : sys_reqs (c_sys c);
  in_calls : calls (synced_pcs (c_sys c)) (synced_pc_list (c_sys c)) (batch_of (c_owner c)) (c_scheduled c) (c_begun c);
  in_balance : balance (c_submitted c) (events (c_sys c)) (report_of (c_owner c) ++ c_reports c) (devices (c_sys c));
  in_heard : heard on (c_sys c) (c_owner c) (c_reports c)
}.

Section Steps.
Context {on : bool}.

(** Steps that only pass the bus on. *)
Lemma inv_pass c s (o : owner) (tr : bool) :
  inv on c -> owner_ok s o tr -> o <> Nobody \/ c_owner c = Nobody ->
  devices s = devices (c_sys c) -> ccbs s = ccbs (c_sys c) -> bus_running_reqs s = bus_running_reqs (c_sys c) ->
  active_qrequest s = active_qrequest (c_sys c) \/ active_qrequest s = None ->
  synced_pcs s = synced_pcs (c_sys c) -> synced_pc_list s = synced_pc_list (c_sys c) ->
  events s = events (c_sys c) -> batch_of o = batch_of (c_owner c) -> promised (report_of o) = promised (report_of (c_owner c)) ->
  inv on (Config s o tr (c_reports c) (c_submitted c) (c_scheduled c) (c_begun c)).
Proof.
  intros [I1 I2 I3 I4 I5] Ho Hn E1 E2 E3 E4 E5 E6 E7 E8 E9. unfold sys_reqs, balance, heard, promised in *.
  split; cbn [c_sys c_owner c_transfer c_reports c_submitted c_scheduled c_begun]; [done| | | |].
  - unfold sys_reqs. rewrite E1, E2, E3. destruct E4 as [-> | ->]; [done|by eapply reqs_inactive].
  - by rewrite E5, E6, E8.
  - unfold balance, promised. rewrite E1, E7. rewrite bind_app in I4 |- *. by rewrite E9.
  - unfold heard. rewrite E7. intros Hon H. destruct Hn as [Hn|Hn]; [by left|]. destruct (I5 Hon H) as [Hc|Hc]; [done|by right].
Qed.

(** The fields of the state, and what the owner says of them. *)
Ltac fields c I :=
  destruct c as [[act lk st dis n tm dp sl sem wt ad devs pcs cc evs] o tr reps sub sch beg];
  destruct (in_owner _ _ I) as [Hl O]; cbn in Hl, O; unfold quiet, sync_waits in O; cbn in O; subst lk.

Ltac by_owner o O := destruct o as [|[]|a0 k0 []| | | |]; cbn in O; destruct_and?; destruct_or?; destruct_and?; simplify_eq.

(** A step that only passes the bus on. *)
Ltac pass I :=
  eexists; split; [reflexivity|];
  eapply (inv_pass _ _ _ _ I); try reflexivity; cbn; try (by left); try (by right); try done;
  split; unfold quiet, sync_waits; cbn; naive_solver.

(** A step that may happen has a result, and keeps the invariant. *)
Definition step_ok (x : call) c : Prop :=
  inv on c -> allowed x c -> (on = true -> overtakes x c = false) -> exists c', step x c = Some c' /\ inv on c'.

Lemma irq_ok status c : step_ok (Irq status) c.
Proof.
  intros I _ _. fields c I. unfold step, ide_irq_handler. destruct (negb (Z.land status ide_status_bsy =? 0)), ad, (n =? 0) eqn:En.
  all: by_owner o O; cbn; rewrite ?En; pass I.
Qed.

Lemma timer_ok c : step_ok TimerFires c.
Proof. intros I [[_ A] _] _. fields c I. cbn in A. subst tm. by_owner o O; pass I. Qed.

Lemma start_async_ok c : step_ok StartAsync c.
Proof. intros I [[_ A] _] _. fields c I. cbn in A. subst o. pass I. Qed.

Lemma transfer_done_ok c : step_ok TransferDone c.
Proof. intros I [[_ A] _] _. fields c I. cbn in A. subst tr. by_owner o O; pass I. Qed.

Lemma cancel_wait_ok c : step_ok CancelWait c.
Proof.
  intros I [[_ At] A] _. fields c I. cbn in At, A. subst tr. destruct o; try done. pass I.
Qed.

Lemma pio_write_ok c : step_ok PioWrite c.
Proof. intros I [[_ A] _] _. fields c I. cbn in A. subst o. pass I. Qed.

Lemma released_bus_ok c : step_ok ReleasedBus c.
Proof. intros I [[_ A] _] _. fields c I. cbn in A. subst o. pass I. Qed.

Lemma start_sync_ok c : step_ok StartSync c.
Proof. intros I [[_ A] _] _. fields c I. cbn in A. destruct A as [->|(a & k & ->)]; pass I. Qed.

Lemma sync_done_ok c : step_ok SyncDone c.
Proof.
  intros I [[_ [A Hsem]] _] _. fields c I. cbn in A, Hsem. destruct A as [->|(a & k & ->)]; destruct O as [[Hd [O|[Hs ->]]] O']; try lia; subst; pass I.
Qed.

Lemma owner_waits s s' o tr : waits_of s' = waits_of s -> owner_ok s o tr -> owner_ok s' o tr.
Proof.
  unfold waits_of, owner_ok, quiet, sync_waits. intros E. injection E as E1 E2 E3 E4 E5 E6 E7 E8.
  by rewrite E1, E2, E3, E4, E5, E6, E8.
Qed.

Lemma waits_calls s s' : waits_of s' = waits_of s -> synced_pcs s' = synced_pcs s /\ synced_pc_list s' = synced_pc_list s.
Proof. unfold waits_of. intros E. by injection E. Qed.

(** The active request ends. *)
Lemma finish_active_ok f g c :
  inv on c -> c_owner c = Executing false ->
  (forall a tag, active_qrequest (c_sys c) = Some (a, tag) -> exists r num s', f a tag (c_sys c) = Some (r, num, s') /\ ended r (c_sys c) s') ->
  (forall r num, answer (event_of (g r num)) = [r]) -> exists c', finish_active f g c = Some c' /\ inv on c'.
Proof.
  intros [I1 I2 I3 I4 I5] Eo Hf Hg. rewrite Eo in I1, I3, I4. pose proof I1 as (Hl & Hs & Hq & [[a tag] Ha] & Ht).
  destruct (Hf a tag Ha) as (r & num & s' & E & [F1 F2 F3 F4 F5]). eexists. unfold finish_active. rewrite Ha. cbn [mbind option_bind].
  rewrite E. cbn [mbind option_bind]. split; [reflexivity|]. destruct (waits_calls _ _ F1) as [Ec El].
  split; cbn [with_sys c_sys c_owner c_transfer c_reports c_submitted c_scheduled c_begun].
  - eapply owner_waits; [exact F1|]. split; [exact Hl|]. by rewrite Ht.
  - exact F2.
  - rewrite Ec, El. exact I3.
  - unfold balance in *. cbn [report_of app promised] in *. unfold promised in *. cbn [mbind list_bind pending_event] in *.
    rewrite Hg, F4. cbn [app] in *. by rewrite (Permutation_middle (list_bind _ _ _ _) (all_running (devices s')) r), F5.
  - intros _ _. by left.
Qed.

Lemma finish_ok status sense c : step_ok (Finish status sense) c.
Proof.
  intros I [[_ A] _] _. cbn in A. unfold step. rewrite A. apply finish_active_ok; [done|done| |done].
  intros a tag Ha. apply finish_sensed_ended; [apply I|done].
Qed.

Lemma finish_retry_ok c : step_ok FinishRetry c.
Proof.
  intros I [[_ A] _] _. cbn in A. unfold step. rewrite A. apply finish_active_ok; [done|done| |done].
  intros a tag Ha. apply finish_retry_ended; [apply I|done].
Qed.

(** Other requests are answered. *)
Lemma ide_inv_settled c s' : inv on c -> settled (c_sys c) s' -> inv on (with_sys s' (c_owner c) c).
Proof.
  intros [I1 I2 I3 I4 I5] [A1 A2 A3 A4]. destruct (waits_calls _ _ A1) as [Ec El].
  split; cbn [with_sys c_sys c_owner c_transfer c_reports c_submitted c_scheduled c_begun]; [by eapply owner_waits|done| | |].
  - by rewrite Ec, El.
  - unfold balance in *. rewrite I4, (Permutation_app_swap_app (answered (events s'))), A3. apply Permutation_app_swap_app.
  - intros Hon. unfold heard in I5. rewrite !orb_true_iff in *. intros [H|H]; apply (I5 Hon); auto.
Qed.

Lemma inv_calm c s' : inv on c -> calm (c_sys c) s' -> inv on (with_sys s' (c_owner c) c).
Proof. intros I C. by apply ide_inv_settled, calm_settled. Qed.

Lemma func_inactive c a k : inv on c -> c_owner c = InFunc a k false -> active_qrequest (c_sys c) = None.
Proof. intros I E. pose proof (in_owner _ _ I) as O. rewrite E in O. apply O. Qed.

Lemma reset_device_ok a reset_ok c : step_ok (ResetDevice a reset_ok) c.
Proof.
  intros I [[_ [Hd A]] _] _. destruct (reset_device_calm a (active_qrequest (c_sys c)) reset_ok (c_sys c)) as (s' & E & C & _); [apply I|done|by right|].
  exists (with_sys s' (c_owner c) c). split; [|by apply inv_calm]. unfold step.
  destruct A as [A|(b & k & A)]; rewrite A, E; reflexivity.
Qed.

Lemma disconnect_work_ok c : step_ok DisconnectWork c.
Proof.
  intros I [[_ (a & k & A)] _] _. destruct (disconnect_worker_calm (c_sys c)) as (s' & E & C); [apply I|by eapply func_inactive|].
  exists (with_sys s' (c_owner c) c). split; [|by apply inv_calm]. unfold step. by rewrite A, E.
Qed.

Lemma reconnect_fires_ok a c : step_ok (ReconnectFires a) c.
Proof.
  intros I [[_ (d & Hd & _)] _] _. unfold step, reconnect_timeout. rewrite Hd. cbn [mbind option_bind]. eexists. split; [reflexivity|].
  apply inv_calm; [done|]. by apply (calm_put _ a d); [apply I| | | | |].
Qed.

Lemma reconnect_work_ok a x malloc_ok c : step_ok (ReconnectWork a x malloc_ok) c.
Proof.
  intros I [[_ ((d & k & Hd & A) & Ha)] Hx] _. destruct (reconnect_worker_settled a x malloc_ok (c_sys c)) as (s' & E & C);
    [apply I|by eexists|by eapply func_inactive| |].
  { intros d1 Hd1. cbn [defect_of] in Hx. rewrite Hd1 in Hx. cbn [mbind option_bind] in Hx.
    destruct (bool_decide_reflect (running_of (qreq_array d1) = [])) as [->|]; destruct malloc_ok; try done; [by split; [|left]|].
    cbn [andb] in Hx. destruct (Z.eqb_spec (queue_depth d1) 1); [by split; [|right]|done]. }
  exists (with_sys s' (c_owner c) c). split; [|by apply ide_inv_settled]. unfold step. by rewrite A, E.
Qed.

(** A time-out resets the device, and the active request ends. *)
Lemma timeout_dpc_ok reset_ok c :
  inv on c -> c_owner c = Executing false -> exists c', finish_active (fun _ _ => ide_timeout_dpc reset_ok) RFinished c = Some c' /\ inv on c'.
Proof.
  intros I Eo. pose proof (in_owner _ _ I) as O. rewrite Eo in O. destruct O as (_ & _ & _ & [[a tag] Ha] & _).
  destruct (active_lookup _ _ _ (in_reqs _ _ I) Ha) as (d & q & _ & _ & _ & Hd & _ & _ & Hget & _).
  destruct (reset_device_calm a (Some (a, tag)) reset_ok (c_sys c)) as (s1 & E1 & C1 & _); [apply I|by eexists|right; congruence|].
  destruct (ca_devices _ _ C1 a d Hd) as (d1 & Hd1 & _). pose proof (inv_calm c s1 I C1) as I1. rewrite Eo in I1.
  destruct (finish_active_ok (fun b u s => s ← set_device_result SCSI_CMD_TIMEOUT (new_combined_sense d1) b s; finish_checksense b u s)
    RFinished (with_sys s1 (Executing false) c)) as (c' & E & I'); [done|done| |done|].
  { intros b u Hb. apply finish_sensed_ended; [apply C1|done]. }
  exists c'. split; [|done]. revert E. unfold finish_active. cbn [with_sys c_sys]. rewrite (calm_active _ _ C1), Ha. cbn [mbind option_bind].
  unfold ide_timeout_dpc. rewrite Ha. cbn [mbind option_bind]. rewrite Hget. cbn [mbind option_bind]. rewrite E1. cbn [mbind option_bind].
  unfold set_device_result. cbn [mbind option_bind]. rewrite Hd1. cbn [mbind option_bind]. exact (fun E => E).
Qed.

Lemma run_dpc_ok reset_ok c : step_ok (RunDpc reset_ok) c.
Proof.
  intros I [[_ [A At]] _] _. cbn in A. fields c I. cbn in A, At. subst o tr.
  destruct O as (-> & -> & [[-> Ha]|(-> & [[a tag] ->] & ->)]).
  - destruct act as [[a tag]|]; [pass I|]. destruct (Ha eq_refl) as [-> _]. pass I.
  - match goal with |- exists c', step _ ?c = _ /\ _ => change (exists c', finish_active (fun _ _ => ide_timeout_dpc reset_ok) RFinished
      (with_sys (set_irq_dpc None (c_sys c)) (Executing false) c) = Some c' /\ inv on c') end.
    apply timeout_dpc_ok; [|done]. eapply (inv_pass _ _ _ _ I); try reflexivity; cbn; try (by left).
    split; unfold quiet; cbn; eauto 10.
Qed.

Lemma idle_nobody s o tr : owner_ok s o tr -> state s = ide_state_idle <-> o = Nobody.
Proof. intros [_ H]. destruct o as [|[]|?? []| | | |]; cbn in H; unfold sync_waits in H; naive_solver congruence. Qed.

Lemma schedule_inv a arg c pc :
  inv on c -> synced_pcs (c_sys c) !! a = Some pc -> pc_registered pc = false ->
  exists x s', schedule_synced_pc a arg (c_sys c) = Some (x, s') /\ inv on (after_schedule x a s' c).
Proof.
  intros [I1 I2 I3 I4 I5] Hpc Hreg. unfold schedule_synced_pc, IDE_LOCK. pose proof (proj1 I1) as Hl.
  pose proof (idle_nobody _ _ _ I1) as Hi. rewrite Hl. cbn [mbind option_bind set_lock synced_pcs]. rewrite Hpc.
  cbn [mbind option_bind]. rewrite Hreg. cbn [set_lock state].
  destruct (bool_decide_reflect (state (c_sys c) = ide_state_idle)) as [Hs|Hs]; cbn [negb]; do 2 eexists; (split; [reflexivity|]);
    cbn [after_schedule B_OK Z.eqb]; split; cbn [c_sys c_owner c_transfer c_reports c_submitted c_scheduled c_begun]; try done.
  - rewrite (proj1 Hi Hs) in I1. destruct I1 as (_ & _ & Hq & Ha & _ & Ht). done.
  - rewrite (proj1 Hi Hs) in I3. by apply calls_single.
  - rewrite (proj1 Hi Hs) in I4. exact I4.
  - intros _ _. by left.
  - destruct I1 as [_ I1]. split; [done|]. destruct (c_owner c) as [|[]|?? []| | | |]; try done. by destruct I1.
  - by apply (calls_schedule _ _ _ _ _ _ pc).
Qed.

Lemma not_registered a s pc : synced_pcs s !! a = Some pc -> registered_twice a s = None -> pc_registered pc = false.
Proof. intros E. unfold registered_twice. rewrite E. by destruct (pc_registered pc). Qed.

Lemma schedule_call_ok a arg c : step_ok (Schedule a arg) c.
Proof.
  intros I [[_ [pc Hpc]] Hx] _. pose proof (not_registered _ _ _ Hpc Hx) as Hreg. destruct (schedule_inv a arg c pc I Hpc Hreg) as (x & s' & E & I'). unfold step. rewrite E.
  eexists. split; [reflexivity|exact I'].
Qed.

Lemma bus_removed_ok a c : step_ok (BusRemoved a) c.
Proof.
  intros I [[_ [pc Hpc]] Hx] _. pose proof (not_registered _ _ _ Hpc Hx) as Hreg.
  assert (C : calm (c_sys c) (set_disconnected true (tell BlockBus (c_sys c)))).
  { pose proof (calm_tell (c_sys c) BlockBus eq_refl (fun x => x) (in_reqs _ _ I)) as [C1 C2 C3 C4 C5]. by split. }
  destruct (schedule_inv a 0 (with_sys (set_disconnected true (tell BlockBus (c_sys c))) (c_owner c) c) pc) as (x & s' & E & I');
    [by apply inv_calm|exact Hpc|done|].
  unfold step, ide_sim_bus_removed. cbn [with_sys c_sys] in E. rewrite E. eexists. split; [reflexivity|exact I'].
Qed.

Lemma reconnect_dpc_ok a c : step_ok (ReconnectDpc a) c.
Proof.
  intros I [[_ (d & Hd & _ & [pc Hpc])] Hx] _. cbn [defect_of] in Hx. rewrite Hd in Hx.
  pose proof (not_registered _ _ _ Hpc Hx) as Hreg. unfold step, reconnect_timeout_dpc. rewrite Hd. cbn [mbind option_bind].
  set (s1 := put_device _ _ _).
  assert (C : calm (c_sys c) s1) by (apply (calm_put _ a d); try done; apply I).
  assert (C' : calm (c_sys c) (tell BlockBus s1)) by (eapply calm_trans; [exact C|apply calm_tell; [done|done|apply C]]).
  destruct (schedule_inv (reconnect_synced_pc (reconnect_of d)) a (with_sys (tell BlockBus s1) (c_owner c) c) pc) as (x & s' & E & I');
    [by apply inv_calm|exact Hpc|done|].
  cbn [with_sys c_sys] in E. rewrite E. eexists. split; [reflexivity|exact I'].
Qed.

(** A call at work is known. *)
Lemma calls_current pcs h sch beg head a : calls pcs h (Some (head, Some a)) sch beg -> is_Some (pcs !! a).
Proof. intros (P & B & R & [_ [C [pre ->]] _ _ _]). eapply pc_chain_dom; [exact C|]. apply elem_of_app. right. by left. Qed.

Lemma func_end_ok c : step_ok FuncEnd c.
Proof.
  intros I [[_ (a & k & Eo)] _] _. pose proof I as [I1 I2 I3 I4 I5]. rewrite Eo in I1, I3, I4. unfold step. rewrite Eo.
  destruct k as [|head r].
  - eexists. split; [reflexivity|]. apply (inv_pass _ _ _ _ I); try rewrite Eo; try done; by left.
  - destruct (calls_current _ _ _ _ _ _ I3) as [pc Hpc]. rewrite Hpc. cbn [mbind option_bind].
    destruct (Z.eqb_spec (pc_next pc) 0) as [E|E]; eexists; (split; [reflexivity|]);
      split; cbn [with_sys c_sys c_owner c_transfer c_reports c_submitted c_scheduled c_begun]; try done; try (intros _ _; by left).
    + by eapply calls_last.
    + by eapply calls_next.
Qed.

Lemma unregister_ok c : step_ok Unregister c.
Proof.
  intros [I1 I2 I3 I4 I5] [[_ (head & r & Eo)] _] _. rewrite Eo in I1, I3, I4. unfold step. rewrite Eo.
  destruct (calls_unregister _ _ _ _ _ I3) as (pcs' & E & C). unfold exec_synced_pcs_end, IDE_LOCK. rewrite (proj1 I1).
  cbn [mbind option_bind set_lock synced_pcs]. rewrite E. cbn [mbind option_bind]. eexists. split; [reflexivity|].
  split; cbn [with_sys c_sys c_owner c_transfer c_reports c_submitted c_scheduled c_begun]; try done; [|intros _ _; by left].
  destruct I1 as [_ I1]. split; [done|exact I1].
Qed.

Lemma promised_app (l k : list pending) : promised (l ++ k) = promised l ++ promised k.
Proof. apply bind_app. Qed.

Lemma promised_delete (l : list pending) i r : l !! i = Some r -> promised l ≡ₚ answer (pending_event r) ++ promised (delete i l).
Proof. intros H. exact (bind_Permutation _ _ _ (delete_Permutation l i r H)). Qed.

Lemma existsb_delete {A} (f : A -> bool) (l : list A) i x : l !! i = Some x -> existsb f l = f x || existsb f (delete i l).
Proof.
  revert i. induction l as [|y l IH]; intros i H; [done|]. destruct i as [|i]; [by injection H as <-|].
  cbn. rewrite (IH i H). by destruct (f y), (f x).
Qed.

(** Somebody has told the SCSI bus manager to go on, or a request was queued. *)
Lemma heard_report i c p :
  heard on (c_sys c) (c_owner c) (c_reports c) -> c_reports c !! i = Some p ->
  (needs_benaphore (Report i) c = true -> benaphore_free c = true) -> (on = true -> overtakes (Report i) c = false) ->
  heard on (tell (pending_event p) (c_sys c)) (c_owner c) (delete i (c_reports c)).
Proof.
  unfold heard. cbn [tell events needs_benaphore overtakes]. rewrite overflow_snoc. intros I5 Hp Hb Hon Ho. specialize (I5 Ho). specialize (Hon Ho).
  rewrite Hp in Hb, Hon. rewrite !(existsb_delete _ _ _ _ Hp) in I5.
  assert (Hw : forall l, existsb holds_benaphore l = false -> existsb will_overflow l = false).
  { induction l as [|[r|r b] l IH]; cbn; [done|exact IH|done]. }
  destruct p as [[r num|r|]|r b]; cbn [pending_event event_of reports_request holds_benaphore will_overflow overflow_after orb negb] in *.
  - unfold benaphore_free in Hb. specialize (Hb eq_refl). apply negb_true_iff in Hb. rewrite (existsb_delete _ _ _ _ Hp) in Hb.
    cbn in Hb. by rewrite (Hw _ Hb).
  - unfold benaphore_free in Hb. specialize (Hb eq_refl). apply negb_true_iff in Hb. rewrite (existsb_delete _ _ _ _ Hp) in Hb.
    cbn in Hb. by rewrite (Hw _ Hb).
  - rewrite (existsb_delete _ _ _ _ Hp) in Hon. cbn in Hon. by rewrite Hon.
  - intros H. apply I5. destruct b; [by rewrite orb_true_r|]. by rewrite H, orb_true_r.
Qed.

Lemma report_ok i c : step_ok (Report i) c.
Proof.
  intros [I1 I2 I3 I4 I5] [[Hb Hi] _] Hon. cbn [enabled] in Hi. apply lookup_lt_is_Some in Hi as [p Hp]. unfold step. rewrite Hp.
  cbn [mbind option_bind]. eexists. split; [reflexivity|].
  split; cbn [c_sys c_owner c_transfer c_reports c_submitted c_scheduled c_begun]; try done; [|by apply heard_report].
  unfold balance in *. cbn [tell events devices]. rewrite answered_snoc, I4, <- app_assoc. apply Permutation_app_head.
  rewrite app_assoc. apply Permutation_app_tail. rewrite !promised_app, (promised_delete (c_reports c) i p Hp).
  apply Permutation_app_swap_app.
Qed.

(** The bus is released: it is idle, or runs the calls that wait for it. *)
Lemma release_bus_ok x c r : inv on c -> c_owner c = Leaving r -> exists c', step (Access None x) c = Some c' /\ inv on c'.
Proof.
  intros [I1 I2 I3 I4 I5] Eo. rewrite Eo in I1, I3, I4. destruct I1 as (Hl & Hs & Hq & Ha & Ht).
  unfold step, access_finished, IDE_LOCK. rewrite Eo, Hl. cbn [mbind option_bind set_lock synced_pc_list].
  destruct (Z.eqb_spec (synced_pc_list (c_sys c)) 0) as [E|E]; cbn [mbind option_bind].
  - eexists. split; [reflexivity|]. split; cbn [c_sys c_owner c_transfer c_reports c_submitted c_scheduled c_begun]; try done.
    + unfold balance in *. cbn [report_of app] in *. by rewrite promised_app, (Permutation_app_comm (promised _)), <- promised_app.
    + intros _ _. right. rewrite existsb_app. apply orb_true_r.
  - eexists. split; [reflexivity|].
    split; cbn [c_sys c_owner c_transfer c_reports c_submitted c_scheduled c_begun]; try done.
    + by apply calls_take.
    + intros _ _. by left.
Qed.

Lemma access_ok device x c : step_ok (Access device x) c.
Proof.
  intros I [[_ [(r & Eo) A]] Hx] _. destruct device as [a|]; [|by eapply release_bus_ok]. cbn [defect_of] in Hx. destruct (A a eq_refl) as (Hd & Hother & Hown).
  pose proof (in_owner _ _ I) as O. rewrite Eo in O. destruct O as (Hl & Hs & Hq & Ha & Ht).
  unfold step. unfold access_finished, IDE_LOCK in *. rewrite Eo. rewrite Hl in *. cbn [mbind option_bind] in *.
  destruct (try_service_calm a x (c_sys c) Hl (in_reqs _ _ I) Ha Hd Hother Hown)
    as [(b & tag & s1 & s2 & C & C2 & E)|[(s1 & C & E)|(b & tag & s1 & C & E)]]; rewrite E in *; cbn [mbind option_bind] in *; [| |done].
  - eexists. split; [reflexivity|]. pose proof (inv_calm c s1 I C) as [_ I2 I3 I4 _].
    cbn [with_sys c_sys c_owner c_transfer c_reports c_submitted c_scheduled c_begun] in *. rewrite Eo in I3, I4.
    pose proof (ca_waits _ _ C) as W. injection W as W1 W2 W3 W4 W5 _ _ _. destruct Hq as (Hq1 & Hq2 & Hq3).
    destruct (waits_calls _ _ (ca_waits _ _ C2)) as [Ec El].
    split; cbn [c_sys c_owner c_transfer c_reports c_submitted c_scheduled c_begun]; [| | | |intros _ _; by left].
    + eapply owner_waits; [exact (ca_waits _ _ C2)|]. split; [done|]. cbn. rewrite W4, W5, Hq2, Hq3. eauto.
    + apply C2.
    + rewrite Ec, El. exact I3.
    + unfold balance in *. rewrite I4. rewrite !(Permutation_app_swap_app (answered _)), (ca_answers _ _ C2). cbn [handed IDE_UNLOCK set_lock set_timer set_state set_active events devices].
      apply Permutation_app_tail. cbn [report_of app]. by rewrite promised_app, (Permutation_app_comm (promised _)), <- promised_app.
  - destruct (release_bus_ok x (with_sys s1 (c_owner c) c) r) as (c' & E' & I'); [by apply inv_calm|done|].
    exists c'. split; [|done]. unfold step, access_finished, IDE_LOCK in E'. cbn [with_sys c_sys c_owner] in E'.
    rewrite Eo, (calm_lock _ _ C), Hl in E'. exact E'.
Qed.

(** A request is answered at once, or refused and to be queued again. *)
Lemma inv_submit c s reports r :
  inv on c -> waits_of s = waits_of (c_sys c) -> sys_reqs s -> devices s = devices (c_sys c) ->
  answered (events s) ++ promised reports ≡ₚ answered (events (c_sys c)) ++ promised (c_reports c) ++ [r] ->
  heard on s (c_owner c) reports ->
  inv on (Config s (c_owner c) (c_transfer c) reports (c_submitted c ++ [r]) (c_scheduled c) (c_begun c)).
Proof.
  intros [I1 I2 I3 I4 I5] W H E1 Ea Ho. destruct (waits_calls _ _ W) as [Ec El].
  split; cbn [c_sys c_owner c_transfer c_reports c_submitted c_scheduled c_begun]; [by eapply (owner_waits (c_sys c))|done| | |done].
  - by rewrite Ec, El.
  - unfold balance in *. rewrite E1, I4, !promised_app, <- !app_assoc. set (x := promised (report_of _)).
    rewrite (Permutation_app_swap_app (answered (events s)) x), (app_assoc (answered (events s))), Ea, <- !app_assoc.
    rewrite (Permutation_app_swap_app (answered (events (c_sys c))) x). do 3 apply Permutation_app_head. apply Permutation_app_comm.
Qed.

(** A request is started on an idle bus. *)
Lemma started_ok c s r x d tag :
  inv on c -> c_owner c = Nobody -> s = with_ccbs <[r := x]> (c_sys c) -> devices s !! cc_target_id x = Some d ->
  free_qrequests d = Some tag ->
  exists q, qreq_array d !! Z.to_nat tag = Some q /\
    let d' := set_num_running (num_running_reqs d + 1)
      (set_array (<[Z.to_nat tag := QRequest (qr_next q) (Some r) true false (is_queuable d x)]> (qreq_array d)) (qr_next q) d) in
    inv on (Config (set_active (Some (cc_target_id x, tag)) (set_bus_running (bus_running_reqs s + 1)
          (put_device (cc_target_id x) d' (IDE_UNLOCK (set_state ide_state_accessing s))))) (Executing false)
        (c_transfer c) (c_reports c) (c_submitted c ++ [r]) (c_scheduled c) (c_begun c)).
Proof.
  intros [I1 I2 I3 I4 I5] Eo Es Hd Hf. rewrite Eo in I1, I3, I4. destruct I1 as (Hl & Hs & Hq & Ha & _ & Ht).
  assert (R : sys_reqs s) by (subst s; by apply reqs_ccb).
  destruct (reqs_start _ _ _ _ _ d tag r (is_queuable d x) R Hd Hf) as (q & Eq & R' & Hp); [subst s; cbn; rewrite lookup_insert_eq; by eexists|].
  exists q. split; [done|]. split; cbn [c_sys c_owner c_transfer c_reports c_submitted c_scheduled c_begun].
  - subst s. done.
  - exact R'.
  - subst s. exact I3.
  - unfold balance in *. cbn [report_of app set_active set_bus_running put_device with_devices IDE_UNLOCK set_lock set_state events devices] in *.
    rewrite Hp. subst s. cbn [with_ccbs events devices]. rewrite I4, <- Permutation_cons_append, !app_assoc. apply Permutation_middle.
  - intros _ _. by left.
Qed.

Lemma scsi_io_ok r x c : step_ok (ScsiIo r x) c.
Proof.
  intros I [[_ _] _] _. pose proof (idle_nobody _ _ _ (in_owner _ _ I)) as Hi. pose proof (proj1 (in_owner _ _ I)) as Hl.
  unfold step, sim_scsi_io. set (s := with_ccbs <[r:=x]> (c_sys c)).
  assert (R : sys_reqs s) by (apply reqs_ccb, I).
  replace (ccbs s !! r) with (Some x) by (symmetry; apply lookup_insert_eq). cbn [mbind option_bind].
  assert (done : forall y, inv on (Config (tell (Finished r 1) (with_ccbs <[r := y]> s)) (c_owner c) (c_transfer c) (c_reports c)
      (c_submitted c ++ [r]) (c_scheduled c) (c_begun c))).
  { intros y. apply inv_submit; try done; [by apply reqs_ccb| |].
    - cbn [tell events]. rewrite answered_snoc, <- app_assoc. apply Permutation_app_head, Permutation_app_comm.
    - intros Hon H. apply (in_heard _ _ I Hon). cbn [tell events] in H. rewrite overflow_snoc in H. cbn [overflow_after orb] in H.
      by rewrite H, orb_true_r. }
  assert (refused : forall b, (b = true -> c_owner c <> Nobody) ->
    inv on (Config (IDE_UNLOCK (set_lock true s)) (c_owner c) (c_transfer c) (c_reports c ++ [ToRequeue r b])
      (c_submitted c ++ [r]) (c_scheduled c) (c_begun c))).
  { intros b Hb. apply inv_submit; try done.
    - unfold waits_of. cbn. by rewrite Hl.
    - cbn [IDE_UNLOCK set_lock events]. by rewrite promised_app.
    - intros Hon. rewrite !existsb_app. cbn [existsb will_overflow holds_benaphore negb orb]. rewrite !orb_false_r. destruct b; [by left; auto|].
      rewrite orb_false_r. apply (in_heard _ _ I Hon). }
  repeat (case_match; [eexists; split; [reflexivity|]; apply done|]).
  destruct (devices s !! cc_target_id x) as [d|] eqn:Hd; [|eexists; split; [reflexivity|]; apply done].
  case_match; [eexists; split; [reflexivity|]; apply done|].
  unfold IDE_LOCK. replace (lock s) with false by done. cbn [mbind option_bind set_lock state].
  destruct (bool_decide_reflect (state s = ide_state_idle)) as [Hs|Hs]; cbn [negb];
    [|eexists; split; [reflexivity|]; apply refused; by rewrite <- Hi].
  destruct (free_qrequests d) as [tag|] eqn:Hf; [|eexists; split; [reflexivity|]; by apply refused].
  destruct (_ && _); [eexists; split; [reflexivity|]; by apply refused|].
  destruct (started_ok c s r x d tag I (proj1 Hi Hs) eq_refl Hd Hf) as (q & Hq & I'). rewrite Hq.
  eexists. split; [reflexivity|]. exact I'.
Qed.

Lemma step_inv x c : step_ok x c.
Proof.
  destruct x.
  - apply scsi_io_ok.
  - apply irq_ok.
  - apply timer_ok.
  - apply run_dpc_ok.
  - apply start_async_ok.
  - apply transfer_done_ok.
  - apply cancel_wait_ok.
  - apply start_sync_ok.
  - apply sync_done_ok.
  - apply pio_write_ok.
  - apply released_bus_ok.
  - apply finish_ok.
  - apply finish_retry_ok.
  - apply reset_device_ok.
  - apply bus_removed_ok.
  - apply disconnect_work_ok.
  - apply schedule_call_ok.
  - apply func_end_ok.
  - apply access_ok.
  - apply unregister_ok.
  - apply report_ok.
  - apply reconnect_fires_ok.
  - apply reconnect_dpc_ok.
  - apply reconnect_work_ok.
Qed.

End Steps.

(** ** The start *)

Lemma start_inv on devs pcs : map_Forall (fun _ d => fresh_device d) devs -> fresh_pcs pcs -> inv on (start devs pcs).
Proof.
  intros Hd Hp.
  assert (Hr : all_running devs = []).
  { unfold all_running. destruct (map_to_list devs ≫= _) as [|r l] eqn:E; [done|]. exfalso.
    assert (Hin : r ∈ map_to_list devs ≫= fun p => running_of (qreq_array p.2)) by (rewrite E; by left).
    apply list_elem_of_bind in Hin as ([a d] & Hin & Hm). apply elem_of_map_to_list in Hm.
    cbn [snd] in Hin. rewrite (proj2 (fresh_array d (Hd a d Hm))) in Hin. by apply elem_of_nil in Hin. }
  split; cbn [start c_sys c_owner c_transfer c_reports c_submitted c_scheduled c_begun].
  - done.
  - split; cbn; [intros a d Ha; by apply fresh_array, (Hd a d)|by rewrite Hr|by rewrite Hr; intros r ?%elem_of_nil|done].
  - exists [], [], []. split; cbn; [done|done|constructor| |done]. intros a pc Ha. destruct (Hp a pc Ha) as [H0 Hreg].
    split; [done|]. rewrite Hreg. split; [done|by intros ?%elem_of_nil].
  - unfold balance. cbn. by rewrite Hr.
  - done.
Qed.

Lemma ide_reachable_inv c : reachable c -> inv false c.
Proof.
  induction 1 as [devs pcs Hd Hp|x c c' _ IH A E]; [by apply start_inv|].
  destruct (step_inv x c IH A) as (c2 & E2 & I); [done|congruence].
Qed.

Lemma on_time_inv c : reachable_on_time c -> inv true c.
Proof.
  induction 1 as [devs pcs Hd Hp|x c c' _ IH A Ho E]; [by apply start_inv|].
  destruct (step_inv x c IH A) as (c2 & E2 & I); [done|congruence].
Qed.

(** ** A run *)

(** A bus with one device of four requests and two synchronized calls. *)
Definition fresh_parts : ide_device_info := Device false true 0 (Reconnect false false false 101) 0 0 [] None 0 0 0 0.

Definition sample_device : ide_device_info :=
  snd (initialize_qreq_array 4 true fresh_parts).

Definition sample_bus : config :=
  start {[ 0 := sample_device ]} {[ 100 := SyncedPC 0 false 0; 101 := SyncedPC 0 false 0 ]}.

Definition sample_request : scsi_ccb := CCB 0 0 0 0x28 0 0 None.

(** A request starts, another one is refused, the first gives the bus away and two
    calls are run; the second request is run, and the first one goes on. *)
Definition first_calls : list call :=
  [ScsiIo 1 sample_request; ScsiIo 2 sample_request; Report 0; StartAsync; Irq 0; Schedule 100 5; Schedule 101 6; TransferDone; RunDpc false;
   ReleasedBus; Access (Some 0) no_service].

Definition last_calls : list call :=
  [FuncEnd; StartSync; Irq 0; SyncDone; FuncEnd; Unregister; Access (Some 0) no_service; Report 0; ScsiIo 2 sample_request; StartSync;
   TimerFires; SyncDone; Finish 1 0; Access (Some 0) (Answers None (Some (Service (Some 0) (Abort [] Rejected) false))); Irq 0; RunDpc false; Finish 1 0; Access (Some 0) no_service; Report 0; Report 0].

Fixpoint run (l : list call) (c : config) : option config :=
  match l with [] => Some c | x :: l => c ← step x c; run l c end.

(** The conditions of [allowed], as far as they can be computed. *)
Definition can_happen (x : call) (c : config) : bool :=
  let s := c_sys c in
  match x, c_owner c with
  | (ScsiIo _ _ | Irq _), _ => true
  | TimerFires, _ => timer s
  | RunDpc _, AtDpc => negb (c_transfer c)
  | (StartAsync | PioWrite | ReleasedBus | Finish _ _ | FinishRetry), Executing false => true
  | (TransferDone | CancelWait), _ => c_transfer c
  | StartSync, (Executing false | InFunc _ _ false) => true
  | ResetDevice a _, (Executing false | InFunc _ _ false) => match devices s !! a with Some _ => true | None => false end
  | DisconnectWork, InFunc _ _ false => true
  | SyncDone, (Executing true | InFunc _ _ true) => 0 <? sync_wait_sem s
  | (Schedule a _ | BusRemoved a), _ => match synced_pcs s !! a with Some _ => true | None => false end
  | FuncEnd, InFunc _ _ false => true
  | Access None _, Leaving _ => true
  | Access (Some a) (Answers None y), Leaving _ =>
      match devices s !! a, y with
      | Some d, Some (Service (Some tag) _ _) => (0 <=? tag) && (tag <? queue_depth d)
      | Some _, (Some (Service None _ _) | None) => true
      | None, _ => false
      end
  | Unregister, Unregistering _ _ => true
  | Report i, _ => (i <? length (c_reports c))%nat
  | ReconnectFires a, _ => match devices s !! a with Some d => reconnect_timer (reconnect_of d) | None => false end
  | ReconnectDpc a, _ =>
      match devices s !! a with
      | Some d =>
          reconnect_dpc (reconnect_of d) && match synced_pcs s !! reconnect_synced_pc (reconnect_of d) with Some _ => true | None => false end
      | None => false
      end
  | ReconnectWork a _ _, InFunc b _ false =>
      match devices s !! a with
      | Some d => (b =? reconnect_synced_pc (reconnect_of d)) && ((a =? 0) || (a =? 1))
      | None => false
      end
  | _, _ => false
  end.

Lemma can_happen_enabled x c : can_happen x c = true -> enabled x c.
Proof.
  destruct c as [s o tr reps sub sch beg]. unfold can_happen, enabled. cbn [c_sys c_owner c_transfer c_reports].
  destruct x as [| | | | | | | | | | | | |a reset_ok|a| |a arg| |device x| |i|a|a|a x malloc_ok]; intros H; try exact H; try exact I.
  19: { destruct o as [|[]|b k []| | | |]; try done; (destruct (devices s !! a) as [d|]; [|done]).
        apply andb_true_iff in H as [H1 H2]; apply Z.eqb_eq in H1 as ->; apply orb_true_iff in H2; rewrite !Z.eqb_eq in H2.
        split; [by exists d, k|exact H2]. }
  18: { destruct (devices s !! a) as [d|]; [|done]. apply andb_true_iff in H as [H1 H2].
        destruct (synced_pcs s !! _) as [pc|] eqn:E; [|done]. exists d. rewrite E. by eauto. }
  17: { destruct (devices s !! a) as [d|]; [|done]. by exists d. }
  14: { destruct device as [a|]; [|by destruct o; try done; split; [eexists|]]. destruct x as [[|] y]; [done|].
        destruct o; try done. split; [by eexists|]. intros ? [= <-]. destruct (devices s !! a) as [d|] eqn:E; [|done].
        split; [by eexists|]. split; [done|]. cbn [an_own]. intros y' ->. destruct y' as [[u|] l e]; exists d; (split; [done|]); [|done].
        cbn [sv_tag]. intros tag [= <-]. apply andb_true_iff in H as [H1 H2]. lia. }
  12: { destruct (synced_pcs s !! a) as [pc|]; [|done]. by exists pc. }
  10: { destruct (synced_pcs s !! a) as [pc|]; [|done]. by exists pc. }
  9: { destruct o as [|[]|b k []| | | |]; try done; (destruct (devices s !! a) as [d|]; [|done]); (split; [by eexists|]); by eauto. }
  all: try (by apply Nat.ltb_lt); destruct o as [|[]|a0 k []| | | |]; try done; try (apply negb_true_iff in H); try (by eauto).
  all: apply Z.ltb_lt in H; by eauto.
Qed.

Definition may_happen (x : call) (c : config) : bool :=
  can_happen x c && implb (needs_benaphore x c) (benaphore_free c).

Definition harmless (x : call) (c : config) : bool := match defect_of x c with None => true | Some _ => false end.

Lemma may_happen_may x c : may_happen x c = true -> may x c.
Proof.
  unfold may_happen. intros [H1 H2]%andb_true_iff. split; [|by apply can_happen_enabled].
  intros E. by rewrite E in H2.
Qed.

Lemma may_happen_allowed x c : may_happen x c && harmless x c = true -> allowed x c.
Proof.
  intros [H1 H2]%andb_true_iff. split; [by apply may_happen_may|]. unfold harmless in H2. by destruct (defect_of x c).
Qed.

(** The steps of a list that may happen, one after the other. *)
Fixpoint goes (l : list call) (c : config) : bool :=
  match l with [] => true | x :: l => may_happen x c && harmless x c && match step x c with Some c => goes l c | None => false end end.

Lemma goes_reachable (l : list call) : forall c c', reachable c -> goes l c = true -> run l c = Some c' -> reachable c'.
Proof.
  induction l as [|x l IH]; intros c c' Hc Hg Hr; [by injection Hr as <-|]. cbn [goes] in Hg. apply andb_true_iff in Hg as [Hm Hg].
  cbn [run] in Hr. destruct (step x c) as [c1|] eqn:E; [|done]. apply (IH c1 c'); [|done|done].
  eapply reach_step; [exact Hc|by apply may_happen_allowed|done].
Qed.

Lemma sample_start : reachable sample_bus.
Proof.
  apply reach_start.
  - apply map_Forall_singleton. by exists fresh_parts.
  - apply map_Forall_insert_2; [done|]. by apply map_Forall_singleton.
Qed.

(** None of the steps overtakes a request on its way back to the queue. *)
Fixpoint punctual (l : list call) (c : config) : bool :=
  match l with [] => true | x :: l => negb (overtakes x c) && match step x c with Some c => punctual l c | None => false end end.

Definition goes_to (l : list call) c : option config := if goes l c then run l c else None.

Lemma goes_to_reachable (l : list call) c : goes_to l sample_bus = Some c -> reachable c.
Proof.
  unfold goes_to. destruct (goes l sample_bus) eqn:Hg; [|done]. intros Hr.
  by eapply goes_reachable; [apply sample_start| |].
Qed.

(** The bus when the first call of a list runs, and at the end. *)
Definition busy_bus : config := default sample_bus (goes_to first_calls sample_bus).
Definition idle_bus : config := default sample_bus (goes_to (first_calls ++ last_calls) sample_bus).


Lemma ide_idle_reachable : reachable idle_bus.
Proof. apply (goes_to_reachable (first_calls ++ last_calls)). vm_compute. reflexivity. Qed.

(** ** What holds *)










(** C7: Until the first defect, no request is lost, answered twice or invented: the
    requests that were handed to the bus are those that were answered (finished, sent
    back to be queued or to be sent again), those whose answer is due from a thread
    that released the bus or refused them, and those that run in the arrays of the devices, which are as many as the
    bus counts.  When nobody uses the bus, nothing is due and none runs, every
    request was answered exactly once. *)
Theorem ide_requests_answered c : reachable c ->
  let s := c_sys c in
  c_submitted c ≡ₚ answered (events s) ++ promised (report_of (c_owner c) ++ c_reports c) ++ all_running (devices s) /\
  bus_running_reqs s = Z.of_nat (length (all_running (devices s))) /\
  (c_owner c = Nobody -> c_reports c = [] -> bus_running_reqs s = 0 -> c_submitted c ≡ₚ answered (events s)).
Proof.
  intros H s. destruct (ide_reachable_inv c H) as [_ I2 _ I4 _]. pose proof (rq_num _ _ _ _ I2) as Hn. split; [done|]. split; [done|].
  intros Eo Er E0. unfold balance in I4. fold s in I4, Hn. destruct (all_running (devices s)); [|cbn in Hn; lia].
  rewrite Eo, Er in I4. cbn in I4. by rewrite app_nil_r in I4.
Qed.

Lemma ide_requests_answered_witness : c_submitted idle_bus ≡ₚ answered (events (c_sys idle_bus)) /\ c_submitted idle_bus = [1; 2; 2].
Proof.
  split; [|vm_compute; reflexivity]. destruct (ide_requests_answered idle_bus ide_idle_reachable) as (_ & _ & H).
  apply H; vm_compute; reflexivity.
Defined.

(** C18: A request that is refused because the bus is busy is not forgotten, unless a
    report that requests may go on overtakes its way back to the queue
    ([retry_lost]): the SCSI bus manager stops to send requests when it is back,
    and once the bus is free and the threads that used it have reported, it has
    been told to go on. *)
Theorem ide_retry_told c :
  reachable_on_time c -> c_owner c = Nobody -> c_reports c = [] -> overflow (events (c_sys c)) = false.
Proof.
  intros H Eo Er. pose proof (in_heard _ _ (on_time_inv c H) eq_refl) as I5. destruct (overflow _) eqn:E; [|done].
  rewrite Er in I5. destruct (I5 eq_refl); done.
Qed.

Lemma goes_on_time (l : list call) : forall c c',
  reachable_on_time c -> goes l c = true -> punctual l c = true -> run l c = Some c' -> reachable_on_time c'.
Proof.
  induction l as [|x l IH]; intros c c' Hc Hg Hp Hr; [by injection Hr as <-|]. cbn [goes punctual run] in *.
  apply andb_true_iff in Hg as [Hm Hg]. apply andb_true_iff in Hp as [Ho Hp]. apply negb_true_iff in Ho.
  destruct (step x c) as [c1|] eqn:E; [|done]. apply (IH c1 c'); [|done|done|done].
  eapply time_step; [exact Hc|by apply may_happen_allowed|done|done].
Qed.

Lemma ide_idle_on_time : reachable_on_time idle_bus.
Proof.
  apply (goes_on_time (first_calls ++ last_calls) sample_bus); [|vm_compute; reflexivity..].
  pose proof sample_start as H. apply time_start.
  - apply map_Forall_singleton. by exists fresh_parts.
  - apply map_Forall_insert_2; [done|]. by apply map_Forall_singleton.
Qed.

Lemma ide_retry_told_witness : overflow (events (c_sys idle_bus)) = false /\ overflow (events (c_sys busy_bus)) = true.
Proof. split; [|vm_compute; reflexivity]. apply (ide_retry_told idle_bus ide_idle_on_time); vm_compute; reflexivity. Defined.

(** ** The bus is released *)






















(** ** What goes wrong *)

(** A call that is scheduled again while it is registered: the spinlock is never
    released (sync.c, [schedule_synced_pc]), and the next user waits for ever. *)
Theorem schedule_twice_locks a arg s pc :
  lock s = false -> synced_pcs s !! a = Some pc -> pc_registered pc = true ->
  exists s', schedule_synced_pc a arg s = Some (Done B_ERROR, s') /\ lock s' = true /\
    forall status, ide_irq_handler status s' = None.
Proof.
  intros Hl Hpc Hr. unfold schedule_synced_pc, IDE_LOCK. rewrite Hl. cbn [mbind option_bind set_lock synced_pcs].
  rewrite Hpc. cbn [mbind option_bind]. rewrite Hr. eexists. split; [reflexivity|]. done.
Qed.

(** A request that is refused because the bus is busy is queued again after the
    lock of the bus has been released (ide_sim.c, [sim_scsi_io]); the benaphore of
    reports that is held meanwhile is not taken by [cont_send_bus] (sync.c,
    [schedule_synced_pc], [ide_dpc]; ata.c, [ata_send_rw]).  If that comes in
    between, the SCSI bus manager marks the bus as busy although nobody uses it and
    nobody will tell it to go on. *)
Theorem retry_lost : exists c,
  reachable c /\ c_owner c = Nobody /\ c_reports c = [] /\ bus_running_reqs (c_sys c) = 0 /\
  events (c_sys c) = [ContSend; Requeue 1 true] /\ overflow (events (c_sys c)) = true.
Proof.
  destruct (goes_to [Schedule 100 5; ScsiIo 1 sample_request; FuncEnd; Access (Some 0) no_service; Report 1; Report 0] sample_bus) as [c|] eqn:E;
    [|by vm_compute in E].
  exists c. split; [exact (goes_to_reachable _ _ E)|]. vm_compute in E. injection E as <-. repeat split.
Qed.

(** Requests that are given up are counted up, not down (ide_sim.c,
    [finish_norelease]): a device that runs nothing then refuses every request that
    cannot be queued. *)
Theorem aborted_device_refuses a tag s s' d r c :
  finish_norelease a tag true s = Some s' -> devices s !! a = Some d -> num_running_reqs d = 1 -> cc_target_id c = a ->
  0 <= a < 2 -> cc_target_lun c <= last_lun d -> is_queuable d c = false -> disconnected s = false -> lock s = false ->
  state s = ide_state_idle -> exists s2, sim_scsi_io r (with_ccbs <[r := c]> s') = Some (Refused false, s2).
Proof.
  unfold finish_norelease, get_qrequest. cbn [mbind option_bind]. intros E Hd Hn <- Ha Hlun Hq Hdis Hl Hs. rewrite Hd in E.
  cbn [mbind option_bind] in E. destruct (qreq_array d !! Z.to_nat tag) as [q|]; [|done]. cbn [mbind option_bind] in E.
  destruct (qr_request q) as [r'|]; [|done]. cbn [mbind option_bind] in E. injection E as <-.
  set (t := if decide _ then _ else _).
  assert (T : devices t = <[cc_target_id c := set_num_running (num_running_reqs d + 1) (release_qrequest tag q d)]> (devices s) /\
    disconnected t = false /\ lock t = false /\ state t = ide_state_idle) by (subst t; by case_decide).
  destruct T as (T1 & T2 & T3 & T4). clearbody t. rewrite Hn in T1. unfold sim_scsi_io, IDE_LOCK.
  cbn [with_ccbs tell ccbs disconnected devices lock]. rewrite lookup_insert_eq. cbn [mbind option_bind].
  cbn [with_ccbs tell disconnected devices lock]. rewrite T1, T2, T3, lookup_insert_eq.
  rewrite (proj2 (Z.leb_gt 2 _)) by lia. cbn [set_num_running release_qrequest set_array last_lun].
  rewrite (proj2 (Z.ltb_ge _ _) Hlun). cbn [mbind option_bind set_lock state with_ccbs tell]. rewrite T4, bool_decide_true by done. cbn [negb].
  unfold is_queuable in *. cbn [set_num_running release_qrequest set_array CQ_enabled free_qrequests num_running_reqs] in *.
  rewrite Hq. cbn. by eexists.
Qed.

(** A transfer that fails once the interrupt has come takes the bus back, but the
    deferred call stays scheduled (sync.c, [cancel_irq_timeout]): it runs beside
    the code of the request, or of the next one. *)
Theorem cancel_after_irq status s :
  lock s = false -> state s = ide_state_async_waiting -> active_device s = true -> Z.land status ide_status_bsy = 0 ->
  exists s1 s2, ide_irq_handler status s = Some (B_INVOKE_SCHEDULER, s1) /\ cancel_irq_timeout s1 = Some s2 /\
    irq_dpc s2 = Some Ide_dpc /\ state s2 = ide_state_accessing /\ active_qrequest s2 = active_qrequest s.
Proof.
  intros Hl Hs Ha Hb. unfold ide_irq_handler, IDE_LOCK. rewrite Hl. cbn [mbind option_bind set_lock active_device state].
  rewrite Ha, Hb, Hs. do 2 eexists. split; [reflexivity|]. split; [reflexivity|]. done.
Qed.

(** When the array of requests cannot be replaced, the old one stays, but the
    device keeps the new depth (queuing.c, [change_qreq_array]): of its requests
    only those below it are found when they are to be discarded. *)
Theorem change_qreq_array_forgets depth d :
  exists d', change_qreq_array depth false d = (false, d') /\ qreq_array d' = qreq_array d /\ queue_depth d' = depth.
Proof. by eexists. Qed.

(** A request that fails when it is served: [finish_reset_queue] releases the bus,
    a call gets it, and then [service_device] and [access_finished] (sync.c) go on
    as if they still had it. *)
Definition service_fails (s : sys) : option (released * released * schedule_result * released * schedule_result) :=
  '(failed, s) ← access_finished (Some 0) (Answers None (Some (Service (Some 0) (Abort [] Rejected) true))) s;
  '(a, tag) ← active_qrequest s;
  '(_, _, s) ← finish_checksense a tag s;
  '(inner, s) ← access_finished None no_service s;
  '(first, s) ← schedule_synced_pc 100 0 s;
  '(outer, s) ← access_finished None no_service s;
  '(second, s) ← schedule_synced_pc 101 0 s;
  Some (failed, inner, first, outer, second).

(** Two synchronized calls use the bus at the same time then. *)
Theorem service_error_two_users :
  exists c, reachable c /\ c_owner c = Leaving RContSend /\
    service_fails (c_sys c) = Some (ServiceFailed, Idle, RunNow, Idle, RunNow).
Proof.
  destruct (goes_to [ScsiIo 1 sample_request; StartSync; Irq 0; SyncDone; ReleasedBus] sample_bus) as [c|] eqn:E.
  - exists c. split; [exact (goes_to_reachable _ _ E)|]. vm_compute in E. injection E as <-. split; vm_compute; reflexivity.
  - vm_compute in E. discriminate.
Qed.

(** The timer of a device is stopped when it is served, but stays marked as
    installed (queuing.c, [service_device]): [try_service] does not start it
    again, whatever requests the device still has. *)
Theorem reconnect_timer_stays_off a y s s' d :
  service_device a y s = Some (Served, s') -> devices s !! a = Some d -> reconnect_timer_installed (reconnect_of d) = true ->
  start_reconnect a s' = Some s' /\ exists d', devices s' !! a = Some d' /\ reconnect_timer (reconnect_of d') = false.
Proof.
  unfold service_device, start_reconnect. cbn [IDE_UNLOCK set_lock devices]. intros E Hd Hi. rewrite Hd in E. cbn [mbind option_bind] in E.
  destruct (_ ≫= _) as [tag|].
  - destruct (sv_error y); [done|]. cbn in E. injection E as <-. cbn. rewrite lookup_insert_eq. cbn. rewrite Hi, andb_false_r. split; [done|].
    eexists. by split.
  - destruct (send_abort_queue _ _ _) as [s1|]; [|done]. cbn [mbind option_bind] in E. by destruct (IDE_LOCK s1).
Qed.
